(* ===== verification/_CoqProject ===== *)
-Q . S2P
Prelude.v
CSem.v
CDouble.v
SpiffsTypes.v
SpiffsGeom.v
SpiffsCache.v
SpiffsIo.v
SpiffsLookup.v
SpiffsSearch.v
SpiffsPage.v
SpiffsFind.v
SpiffsPageOps.v
SpiffsIndex.v
SpiffsGc.v
SpiffsObject.v
SpiffsContent.v
SpiffsApi.v
SpiffsCheck.v
SpiffsErase.v
SpiffsMount.v
SpiffsRead.v
SpiffsHandle.v
SpiffsPreserve.v
SpiffsOpen.v
SpiffsSlots.v
SpiffsCreate.v
SpiffsAppend.v
SpiffsWrite.v
SpiffsIds.v
SpiffsCheckProof.v
SpiffsStore.v
SpiffsDemo.v
SpiffsTheorems.v
SpiffsCheckTheorems.v
SpiffsFileTheorems.v
SpiffsStoreTheorems.v
B64.v
B64Theorems.v
Sha1.v
Sha1Proof.v
Sha1Theorems.v
Noniso.v
NonisoTheorems.v
CoreMmio.v
CoreGpio.v
CoreTimer.v
CoreInterrupt.v
CoreInterruptTheorems.v
CoreTwi.v
CoreTwiProof.v
CoreTwiTheorems.v
CorePwm.v
CorePwmTheorems.v
CoreI2s.v
CoreI2sTheorems.v
CoreUart.v
DhcpServer.v
DhcpProof.v
DhcpTimer.v
DhcpHandle.v
DhcpStart.v
DhcpTheorems.v
CJson.v
CJsonParse.v
CJsonPrint.v
CJsonHeap.v
CJsonPrintProof.v
CJsonParseProof.v
CJsonValueProof.v
CJsonSafe.v
CJsonOps.v
CJsonTheorems.v
Pbuf.v
PbufProof.v
PbufRefs.v
PbufOps.v
LwipChksum.v
PbufTheorems.v
