(* ===== verification/Prelude.v ===== *)
(** * A verification of the C code of the ESP31B Arduino port

    The repository is an Arduino core for the ESP31B.  Most of its C files are a
    vendored SDK (lwIP, axTLS, cJSON, register drivers).  The C code with logic of its
    own is the SPIFFS flash file system, a few self-contained routines next to it, the
    peripheral drivers of the core, and the DHCP server of the access point; of the
    vendored libraries cJSON is small enough to be verified as a whole, and the packet
    buffers and checksums are what all of lwIP rests on.  This development models and
    verifies

    - SPIFFS ([src/cores/esp31b/spiffs/]): [spiffs_cache.c], [spiffs_nucleus.c],
      [spiffs_gc.c], [spiffs_hydrogen.c], [spiffs_check.c], with their headers;
    - libb64: [src/cores/esp31b/libb64/cencode.c], [cdecode.c];
    - SHA-1: [src/libraries/Hash/src/sha1/sha1.c];
    - the number conversions of [src/cores/esp31b/core_esp31b_noniso.c];
    - the drivers [src/cores/esp31b/core_esp31b_*.c]: pins and their interrupts, matrix,
      timers, shift and pulse, software I2C, software PWM, I2S, UART, LED PWM,
      sigma-delta;
    - the DHCP server: [src/variants/esp31bsrc/lwip/apps/dhcpserver.c], in the
      [LWIP_ESP8266] branch that [platform.txt] builds;
    - the JSON library: [src/variants/esp31bsrc/cjson/cJSON.c];
    - of lwIP, [src/variants/esp31bsrc/lwip/core/pbuf.c] and [inet_chksum.c].

    The parts do not call each other, but for the drivers among themselves
    ([CoreMmio], [CoreGpio] and [CoreTimer] are below the others).

    ** How the C code is translated

    Integers are [Z]; the wrap-around of a fixed-width type is written where the C
    code stores to it ([u8], [u16], [u32], [s16], [s32] below).  Buffers are lists of
    byte values.  [CSem] has the monad for stateful code: a computation [C S A] maps
    a state to a result and a state, or to [UB] (undefined behaviour: a null or
    out-of-range access) or [NoFuel].  Loops carry fuel computed from the geometry or
    the length argument; [wp m Q s] holds only if [m] returns, so each theorem stated
    with [wp] also proves that the fuel is enough, that the C loop terminates, and
    that no undefined behaviour occurs.  [ends U m Q s] allows undefined behaviour if
    [U] holds, but never a lack of fuel; [never_returns m s] says that [m] does not return.
    A [double] is a [spec_float] of the Standard
    Library with its rounding operations ([CDouble]), where the conversions of [printf]
    are written out and the operations on integers below 2^53 are shown to be exact.

    ** SPIFFS

    State.  [SpiffsTypes.spiffs] is the [struct spiffs] with the memory it points to:
    configuration, block and page counters, cursors, the lookup and work buffers, the
    descriptor table, the page cache and the flash.  The flash is behind the class
    [SpiffsHal] (the [hal_read_f], [hal_write_f], [hal_erase_f] callbacks); the class
    [NorHal] states the contract of a NOR flash the theorems rely on (reads return the
    contents, a write clears bits of the addressed bytes, an erase sets a block to
    0xff, accesses within the device succeed).  [SpiffsGeom] has an array of bytes that implements the contract, so
    that every theorem applies to a concrete device and the model can be run.

    Files of definitions, in the order of the C code:
    - [SpiffsTypes]: [spiffs.h], [spiffs_config.h], [spiffs_nucleus.h];
    - [SpiffsCache]: [spiffs_cache.c] (read pages, write pages, eviction);
    - [SpiffsLookup]: the copy, visitor, erase and scan routines of
      [spiffs_nucleus.c]; [SpiffsPage]: its page routines and [spiffs_gc_quick];
      [SpiffsIndex]: the object index header and the event that refreshes
      descriptors; [SpiffsGc]: the rest of [spiffs_gc.c];
    - [SpiffsObject], [SpiffsContent]: creating, opening, naming, reading, appending,
      modifying and truncating objects (rest of [spiffs_nucleus.c]);
    - [SpiffsApi]: [spiffs_hydrogen.c], the [SPIFFS_*] operations;
    - [SpiffsCheck]: [spiffs_check.c], the consistency check with its repairs, and
      [SPIFFS_check].
    A loop body is a definition of its own, named after the function
    ([lu_entry_body], [read_body], [truncate_body]).  The object index page that the
    code keeps in [fs->work] is kept there; the tables in it are read and written
    through [get_objix_entry] and [set_objix_entry].

    Fuel.  The fuel of a loop is a definition next to it (entries of the lookup, length
    of the data, blocks of the volume); that it is enough is part of every [wp].  The
    one loop without such a bound is the page check, which scans a range of pages again
    after a repair: [SPIFFS_check] takes its fuel as an argument.  On a consistent
    volume the number of ranges suffices ([SPIFFS_check_consistent]).

    Invariants.  [SpiffsGeom.wf_cfg] is a well-formed geometry, and shows that the
    address macros neither overlap nor overflow.  [SpiffsCache.cache_inv] is the
    coherence of the page cache with the flash; [fs_ok T] is a well-formed volume with
    a coherent cache whose access clock can still tick [T] times (the clock is a 32-bit
    counter without overflow handling; each theorem states how many ticks its
    operation takes).  [SpiffsHandle.fd_table_ok] is the descriptor table's invariant;
    [api_call] is a call of the API on a mounted or unmounted file system (formatting and
    opening a directory among them; mounting and unmounting are not) and [api_run] runs it;
    [api_step] adds reading a directory, so that invariants are stated of every sequence of
    calls ([SpiffsPreserve], [SpiffsStoreTheorems]).

    Theorems, and the files their proofs are in:
    - flash access through the cache is indistinguishable from direct access
      ([spiffs_phys_rd_correct], [spiffs_phys_wr_correct]), whatever is cached or
      evicted; the physical copy ([SpiffsIo]);
    - the lookup visitor visits every entry of the volume once, in cyclic order from
      the cursor, and the searches on it return the first match or report that there
      is none ([SpiffsSearch], [SpiffsFind]);
    - allocating, deleting and erasing change exactly the flash bytes and counters
      they should, as functions on the flash contents ([deleted_view],
      [erased_view], [page_stored]) ([SpiffsPageOps], [SpiffsErase]);
    - formatting and mounting, with the recovery of a half-erased block
      ([SpiffsMount]);
    - the abstract file: [SpiffsRead.holds] says that an object index on flash stores
      a sequence of bytes; [spiffs_object_read] and [SPIFFS_read] return its slices;
    - creating an object under a free id ([SpiffsIds], [SpiffsCreate]), and appending to
      it, over several index pages ([SpiffsSlots], [SpiffsAppend], [SpiffsWrite]);
      what is appended to one file leaves the others as they are;
      [SpiffsStore]: a file created, written in one call and read back returns the bytes
      written, for every name, length and content that fit ([SPIFFS_store_and_read]);
    - opening by name ([SpiffsOpen]), the life cycle of descriptors, and the descriptor
      and cache tables in every reachable state ([SpiffsHandle], [SpiffsPreserve]);
    - the consistency check: it ends on a consistent volume and leaves it as it is
      ([SpiffsCheckProof]); what it does to an unfinalized page and to an entry whose
      page is deleted or belongs to another object ([SpiffsCheckTheorems]).  The last section of
      [SpiffsCheckTheorems] runs two repairs that damage sound files.
    They are stated in [SpiffsTheorems], [SpiffsFileTheorems], [SpiffsStoreTheorems]
    and [SpiffsCheckTheorems].

    Instances.  [SpiffsDemo] runs the model: it formats and mounts a volume of eight
    blocks of eight 64-byte pages and writes files to it.  Its executable checks of
    the invariants ([fs_check], [holds_check], ...) are proved sound, and the
    witnesses of the theorems are their instances at these states.

    Not modelled: [SPIFFS_vis] (debug output), the debug macros, the callback of the
    consistency check (it only receives values), and the locks, which are no-ops in
    this configuration.

    ** libb64

    [B64] is the encoder and decoder as transition functions of their saved states;
    the decoder's pointer and its speculative store to [*plainchar] are explicit.  The
    signedness of [char] is a parameter.  [B64Theorems]: the encoder writes the
    reference encoding with a newline every 72 characters; decoding inverts it for
    signed [char]; decoding is incremental; buffer bounds; the length macros.

    ** SHA-1

    [Sha1] is the unrolled transform (the rotation of the macro arguments is the index
    arithmetic of [R]), the incremental context, and FIPS 180 as the specification.
    [Sha1Proof] relates them; [repr context m] says that a context has absorbed [m].
    [Sha1Theorems]: transform, update, and digest of a message in arbitrary chunks.
    Each update is below [2^32 - 64] bytes, where the C code's own index arithmetic
    does not wrap.

    ** noniso

    [Noniso] is the reversal and the conversions between integers and digits, in both
    directions; [NonisoTheorems]: the digits written are those of the number in the
    base, and [atoi] reads back what [itoa] writes.  [dtostrf] and [atof]
    have definitions and runs of them only.  [strtod] is a parameter of [atof].

    ** The peripheral drivers

    [CoreMmio] is what they share: memory-mapped registers, calls of SDK functions and
    of user callbacks as a trace of events ([Rd], [Wr], [Ext], ...), and one record
    [core] with the static variables of all drivers.  The chip is the class [Device]:
    the value of a register read and the result of an external call are any function
    of the events so far, so that a theorem holds for every hardware, or for every
    hardware with the behaviour its hypotheses name.  [Toolchain] has the addresses the
    linker chooses and what the compiler leaves open ([__builtin_ctz(0)], of which nothing
    is assumed).

    Definitions: [CoreGpio] (wiring_digital, matrix), [CoreTimer] (timer, wiring,
    wiring_analog, wiring_shift, wiring_pulse), [CoreInterrupt] (the interrupts of
    wiring_digital), [CoreTwi] (si2c), [CorePwm] (wiring_pwm), [CoreI2s] (i2s),
    [CoreUart] (uart, ledc_hs, ledc_ls, sigma_delta).  A loop that waits
    for the hardware takes its fuel as an argument.  [CoreGpio] also has what holds of code that only
    accesses the hardware ([quiet]).

    Theorems:
    - interrupts: attaching and detaching refine a table of eight slots; the dispatcher
      calls the slots' functions and returns where the compiler makes [__builtin_ctz(0)]
      negative, and never returns where it does not ([CoreInterrupt],
      [CoreInterruptTheorems]);
    - software I2C: [CoreTwi] also says what register accesses mean on two open-drain lines,
      as start and stop conditions and bits.  A slave ([I2cSlave]) drives the data line and
      may hold the clock low for a number of reads after each bit, with its data late; the
      bus computes both lines from the accesses so far.  For a slave that holds the clock no longer than
      [TWI_CLOCK_STRETCH] reads, a transfer puts exactly the address and the
      bytes on the bus, stops early when the slave does not acknowledge, and reads the
      bits the slave sends ([CoreTwiProof], [CoreTwiTheorems]); [twi_stretch_timeout] runs a
      slower slave;
    - software PWM: one period of the interrupt handler gives each pin its duty time,
      whatever the values, from 10 Hz up, where the intervals fit the 23 bits of the
      timer's load register ([CorePwm], [CorePwmTheorems]); [slow_period] runs a lower
      frequency;
    - I2S: the DMA plays words one by one, also from the buffer that is being written, and
      its interrupt is delivered, which the rest of [i2s_begin] prevents
      ([i2s_begin_masks_interrupt]).  The queue of played buffers never holds the buffer the
      DMA is at; unless the DMA overtakes the writer, samples are played in the order written;
      a waiting write returns as soon as a buffer has been played
      ([CoreI2s], [CoreI2sTheorems]).
    [CoreUart] has definitions only.

    ** The DHCP server

    [DhcpServer] is the C file: the record [dhcps] of its static variables with the list
    of leases ([node_insert_to_list], ...), the parser of options, the replies, the
    handler of datagrams, start and stop, the lease timer, the configuration.  Leases
    carry the addresses of their two blocks; [malloc], [free], the UDP layer and the
    interface are events of a trace, their results a function of the events so far
    ([DhcpEnv]).  Reads and copies outside the 548 bytes of a message are undefined.
    The option loop moves on by two bytes or more, so that 300 turns suffice
    ([dhcp_options_parsed]).

    - [DhcpProof]: addresses in network byte order; the list as a sorted list; [live] computes the blocks in use from the trace, [DhcpHeap] is the
      contract of [malloc] and [mem_ok] says that the blocks in use are those of the
      leases; [pool_ok] is the pool's invariant; what [find_lease] finds.
    - [DhcpTimer], [DhcpStart]: removing leases, the timer; the range chosen at the start.
    - [DhcpHandle]: options as a list of codes and data, the bytes of a reply, a datagram's
      whole effect: [wp] for well-formed ones, and [ends True] for arbitrary ones, on which
      the parser may read outside the message but does not loop for ever.
    - [DhcpTheorems]: an environment and clients to run the model with.  Leases never share
      an address or a hardware address, and no block leaks or is freed twice, until a
      datagram that the parser reads past, or a failing [udp_new], makes the behaviour
      undefined; discovery and request get a client its address; refusals; a full pool;
      expiry.  Ranges that end in [.255] are excluded: the code accepts them, and its
      increment then leaves the range.

    ** cJSON

    An item is a tree that carries the addresses of its blocks and of its strings
    ([CJson.cJSON]); the [next] and [prev] pointers are the order of a list.  [child] of a
    reference item is a copy of the chain it points to: what is later changed in the
    original is not seen through the reference.  The state [json] is the error pointer,
    the hooks, and the trace of the calls of [malloc] and [free]; their results are a
    function of the trace ([JsonEnv]), as is [pow] of its arguments.  Texts are lists of
    bytes; reads outside them, and writes behind the end of a block, are undefined.

    Definitions: [CJson] (items, members, constructors, duplication, minification),
    [CJsonParse] (the recursive descent parser), [CJsonPrint] (printing into blocks and
    into a growing buffer).  The fuel of the parser is the length of the text, which the
    loops and the nesting of values cannot exceed.

    - [CJsonHeap]: [heap L k s] says that the blocks in use are [L] and that [k]
      allocations have failed; [JsonHeap] is the contract of [malloc].  Deletion.  [jvalue], JSON values with strings of bytes and integers; [json_of]
      relates them to items, [render] is their text.
    - [CJsonPrintProof]: both printers write [render], the second as
      long as the text stays below 2^30 bytes, beyond which sizes overflow.
    - [CJsonParseProof], [CJsonValueProof]: parsing what has been rendered.
      [\u] escapes and UTF-8 are in the first; [CJsonSafe]: any text.
    - [CJsonOps]: duplication, members by name, minification.
    - [CJsonTheorems]: an allocator and items to run the model with.  Printing and parsing are inverse; the printers
      agree; on any text the parser ends and leaks nothing; deletion, duplication,
      minification, escapes, adding and deleting members.  Numbers in these theorems are
      integers of the range of [int]; the definitions cover all doubles.

    ** lwIP packet buffers and checksums

    The [struct pbuf]s are a map from addresses, apart from the map of the bytes that
    payload pointers and callers' buffers point to; a read or write outside of either is
    undefined.  [malloc], the contents of new blocks and [tcpip_callback_with_block] are
    functions of the trace of calls so far ([LwipEnv]); the pools are in the heap, as
    [lwipopts.h] says.  The fuel of a walk is the number of pbufs, which a chain without
    a cycle cannot exceed.  Interrupts and other threads are not modelled: the source
    protects the counts against them.

    - [Pbuf] (core/pbuf.c, and the constants and macros of lwip/pbuf.h, opt.h, mem.h): every
      function that is compiled but [pbuf_free_ooseq].  Assertions are compiled out, here and
      in [inet_chksum.c].
    - [PbufProof]: chains ([chain]), packets and their contents ([packet]); what reading,
      writing, copying and searching do.
    - [PbufRefs]: the contract of [malloc] ([LwipHeap]); memory ([mem_ok]) and reference
      counts ([counted], with the references that the rest of the system holds); freeing.
    - [PbufOps]: concatenation, trimming, splitting, headers, allocation, coalescing.
    - [LwipChksum] (core/inet_chksum.c, [lwip_htons] of core/def.c): the sums, and what they
      compute: [bsum] adds the 16-bit words of a buffer, [ones] is that sum in one's
      complement arithmetic.
    - [PbufTheorems]: the calls that the rest of the system may make ([permitted]) and the
      states it reaches; counts stay right, nothing freed is touched, nothing leaks; contents
      of concatenated and trimmed packets; checksums do not depend on how a packet is cut,
      and verify; the three versions of the sum agree on up to 0x20000 bytes (behind that,
      only version 3 keeps every carry: [chksum_limit]).  A heap and a run as witnesses.

    ** Not modelled

    [core_esp31b_postmortem.c] (assembly and printing), the C++ classes of the core and
    its libraries, and the other vendored code: lwIP apart from the DHCP server, packet
    buffers and checksums (in [pbuf.c], [pbuf_free_ooseq], which drops segments of TCP
    connections), axTLS and the SDK's register drivers, which the modelled code only
    calls. *)
From Stdlib Require Import ZArith Lia Bool.
From stdpp Require Import base list numbers option.

Open Scope Z_scope.

(** ** Machine integers *)

(** Conversions to the fixed-width types of [spiffs_config.h]. *)
Definition u8 (x : Z) : Z := x mod 2 ^ 8.
Definition u16 (x : Z) : Z := x mod 2 ^ 16.
Definition u32 (x : Z) : Z := x mod 2 ^ 32.
Definition s16 (x : Z) : Z := (x + 2 ^ 15) mod 2 ^ 16 - 2 ^ 15.
Definition s32 (x : Z) : Z := (x + 2 ^ 31) mod 2 ^ 32 - 2 ^ 31.

Definition is_byte (x : Z) : Prop := 0 <= x < 256.

(** [hasb x m]: the C condition [x & m] (non-zero). *)
Definition hasb (x m : Z) : bool := negb (Z.land x m =? 0).

Lemma u16_small x : 0 <= x < 65536 -> u16 x = x.
Proof. intros. apply Z.mod_small. lia. Qed.

Lemma u32_small x : 0 <= x < 4294967296 -> u32 x = x.
Proof. intros. apply Z.mod_small. lia. Qed.

Lemma u8_small x : 0 <= x < 256 -> u8 x = x.
Proof. intros. apply Z.mod_small. lia. Qed.

Lemma s32_small x : -2147483648 <= x < 2147483648 -> s32 x = x.
Proof. intros. unfold s32. rewrite Z.mod_small; lia. Qed.

Lemma s16_small x : -32768 <= x < 32768 -> s16 x = x.
Proof. intros. unfold s16. rewrite Z.mod_small; lia. Qed.

Lemma u8_range x : 0 <= u8 x < 256.
Proof. apply Z.mod_pos_bound. lia. Qed.

Lemma u16_range x : 0 <= u16 x < 65536.
Proof. apply Z.mod_pos_bound. lia. Qed.

Lemma u32_range x : 0 <= u32 x < 4294967296.
Proof. apply Z.mod_pos_bound. lia. Qed.

Create HintDb cint.
Create Rewrite HintDb cint.
#[export] Hint Rewrite u8_small u16_small u32_small s32_small s16_small using lia : cint.
#[export] Hint Resolve u8_range u16_range u32_range : cint.

(** Removes every width conversion whose argument is provably in range. *)
Ltac cint := autorewrite with cint.
Tactic Notation "cint" "in" hyp(H) := autorewrite with cint in H.

(** Turns the boolean comparisons of the code into propositions. *)
Ltac bools :=
  repeat match goal with
  | H : _ && _ = true |- _ => apply andb_true_iff in H; destruct H
  | H : _ || _ = false |- _ => apply orb_false_iff in H; destruct H
  | H : negb _ = true |- _ => apply negb_true_iff in H
  | H : negb _ = false |- _ => apply negb_false_iff in H
  | H : (_ =? _) = true |- _ => apply Z.eqb_eq in H
  | H : (_ =? _) = false |- _ => apply Z.eqb_neq in H
  | H : (_ <? _) = true |- _ => apply Z.ltb_lt in H
  | H : (_ <? _) = false |- _ => apply Z.ltb_ge in H
  | H : (_ <=? _) = true |- _ => apply Z.leb_le in H
  | H : (_ <=? _) = false |- _ => apply Z.leb_gt in H
  end.

Lemma shiftl_lor_add x y k : 0 <= k -> 0 <= y < 2 ^ k -> Z.lor (Z.shiftl x k) y = x * 2 ^ k + y.
Proof.
  intros Hk Hy. assert (Z.land (Z.shiftl x k) y = 0) as Hl.
  { apply Z.bits_inj'. intros i Hi. rewrite Z.land_spec, Z.bits_0. destruct (Z.lt_ge_cases i k).
    - by rewrite Z.shiftl_spec_low.
    - rewrite <- (Z.mod_small y (2 ^ k)) by done. rewrite Z.mod_pow2_bits_high by lia. by rewrite andb_false_r. }
  rewrite <- Z.lxor_lor, <- Z.add_nocarry_lxor by done. by rewrite Z.shiftl_mul_pow2.
Qed.

(** ** Byte buffers

    A C buffer is a list of byte values; offsets and lengths are [Z]. *)

Definition zlen {A} (l : list A) : Z := Z.of_nat (length l).

(** [l[i]] of an array whose bound has been checked. *)
Definition zget (l : list Z) (i : Z) : Z := l !!! Z.to_nat i.
Definition zset {A} (l : list A) (i : Z) (v : A) : list A := <[Z.to_nat i := v]> l.

(** The bytes [l[off .. off+len-1]]. *)
Definition slice (l : list Z) (off len : Z) : list Z :=
  take (Z.to_nat len) (drop (Z.to_nat off) l).

(** [memcpy(&l[off], src, |src|)]. *)
Definition splice (l : list Z) (off : Z) (src : list Z) : list Z :=
  take (Z.to_nat off) l ++ src ++ drop (Z.to_nat off + length src) l.

(** The contents [v(a), ..., v(a+n-1)] of an address space [v]. *)
Definition vread (v : Z -> Z) (a n : Z) : list Z := v <$> seqZ a n.

Lemma zlen_nonneg {A} (l : list A) : 0 <= zlen l.
Proof. unfold zlen. lia. Qed.

Lemma zlen_app {A} (l k : list A) : zlen (l ++ k) = zlen l + zlen k.
Proof. unfold zlen. rewrite length_app. lia. Qed.

Lemma zlen_snoc {A} (l : list A) x : zlen (l ++ [x]) = zlen l + 1.
Proof. by rewrite zlen_app. Qed.

Lemma length_slice l off len :
  0 <= off -> 0 <= len -> off + len <= zlen l -> zlen (slice l off len) = len.
Proof. unfold zlen, slice. rewrite length_take, length_drop. lia. Qed.

Lemma length_splice l off src :
  0 <= off -> off + zlen src <= zlen l -> zlen (splice l off src) = zlen l.
Proof.
  unfold zlen, splice. rewrite !length_app, length_take, length_drop. lia.
Qed.

Lemma Forall_splice (P : Z -> Prop) l off src : Forall P l -> Forall P src -> Forall P (splice l off src).
Proof.
  intros Hl Hs. unfold splice. apply list.Forall_app. split; [by apply Forall_take|].
  apply list.Forall_app. split; [done|by apply Forall_drop].
Qed.

Lemma slice_app_l (m d : list Z) off n : 0 <= off -> 0 <= n -> off + n <= zlen m -> slice (m ++ d) off n = slice m off n.
Proof.
  unfold slice, zlen. intros. rewrite drop_app_le by lia. apply take_app_le. rewrite length_drop. lia.
Qed.

Lemma Forall_slice (P : Z -> Prop) l off n : Forall P l -> Forall P (slice l off n).
Proof. intros H. unfold slice. by apply Forall_take, Forall_drop. Qed.

Lemma length_vread v a n : 0 <= n -> zlen (vread v a n) = n.
Proof. intros. unfold zlen, vread. rewrite length_fmap, length_seqZ. lia. Qed.

Lemma zlen_zset {A} (l : list A) i v : zlen (zset l i v) = zlen l.
Proof. unfold zlen, zset. by rewrite length_insert. Qed.

(** Extensionality for buffers addressed with [Z]. *)
Lemma list_eq_zget (l k : list Z) :
  zlen l = zlen k -> (forall i, 0 <= i < zlen l -> zget l i = zget k i) -> l = k.
Proof.
  unfold zlen, zget. intros Hl H. apply (list_eq_same_length _ _ (length k)); [lia|lia|].
  intros i x y Hi Hx Hy. specialize (H (Z.of_nat i)).
  rewrite Nat2Z.id in H. apply list_lookup_total_correct in Hx, Hy.
  rewrite <- Hx, <- Hy. apply H. lia.
Qed.

Lemma zget_vread v a n i : 0 <= i < n -> zget (vread v a n) i = v (a + i).
Proof.
  intros. unfold zget, vread. apply list_lookup_total_correct.
  rewrite list_lookup_fmap, lookup_seqZ_lt by lia. cbn. do 2 f_equal. lia.
Qed.

Lemma zget_slice l off len i :
  0 <= off -> 0 <= i < len -> off + len <= zlen l -> zget (slice l off len) i = zget l (off + i).
Proof.
  unfold zget, slice, zlen. intros. apply list_lookup_total_correct.
  rewrite lookup_take by lia. rewrite lookup_drop.
  rewrite decide_True by lia.
  replace (Z.to_nat off + Z.to_nat i)%nat with (Z.to_nat (off + i)) by lia.
  apply list_lookup_lookup_total_lt. lia.
Qed.

Lemma zget_splice l off src i :
  0 <= off -> off + zlen src <= zlen l -> 0 <= i < zlen l ->
  zget (splice l off src) i =
    if (off <=? i) && (i <? off + zlen src) then zget src (i - off) else zget l i.
Proof.
  unfold zget, splice, zlen. intros.
  apply list_lookup_total_correct.
  destruct (off <=? i) eqn:E1; bools; cbn [andb].
  - rewrite lookup_app_r by (rewrite length_take; lia). rewrite length_take.
    destruct (i <? _) eqn:E2; bools.
    + rewrite lookup_app_l by lia.
      replace (Z.to_nat i - _ `min` _)%nat with (Z.to_nat (i - off)) by lia.
      apply list_lookup_lookup_total_lt. lia.
    + rewrite lookup_app_r by lia. rewrite lookup_drop.
      replace (_ + (_ - length src))%nat with (Z.to_nat i) by lia.
      apply list_lookup_lookup_total_lt. lia.
  - rewrite lookup_app_l by (rewrite length_take; lia).
    rewrite lookup_take, decide_True by lia.
    apply list_lookup_lookup_total_lt. lia.
Qed.

Lemma zget_zset l i j v :
  0 <= i < zlen l -> 0 <= j -> zget (zset l i v) j = if i =? j then v else zget l j.
Proof.
  unfold zget, zset, zlen. intros. destruct (i =? j) eqn:E; bools.
  - subst. apply list_lookup_total_insert_eq. lia.
  - apply list_lookup_total_insert_ne. lia.
Qed.

Lemma slice_vread v a n off len :
  0 <= off -> 0 <= len -> off + len <= n -> slice (vread v a n) off len = vread v (a + off) len.
Proof.
  intros. pose proof (length_vread v a n ltac:(lia)).
  apply list_eq_zget.
  - rewrite length_slice, length_vread; lia.
  - intros i. rewrite length_slice by lia. intros.
    rewrite zget_slice, !zget_vread by lia. f_equal. lia.
Qed.

Lemma vread_app v a n m : 0 <= n -> 0 <= m -> vread v a (n + m) = vread v a n ++ vread v (a + n) m.
Proof. intros. unfold vread. by rewrite seqZ_app, fmap_app by lia. Qed.

Lemma vread_ext v w a n : (forall x, a <= x < a + n -> v x = w x) -> vread v a n = vread w a n.
Proof.
  intros H. unfold vread. apply list_fmap_ext. intros i x Hx.
  apply lookup_seqZ in Hx. apply H. lia.
Qed.

(** Copying [src] into a buffer that mirrors [v] mirrors the updated address space. *)
Lemma splice_vread v w a n off src :
  0 <= off -> off + zlen src <= n ->
  (forall x, a <= x < a + n ->
     w x = if (a + off <=? x) && (x <? a + off + zlen src) then zget src (x - a - off) else v x) ->
  splice (vread v a n) off src = vread w a n.
Proof.
  intros Ho Hs Hw. pose proof (zlen_nonneg src).
  pose proof (length_vread v a n ltac:(lia)) as Hlv.
  pose proof (length_vread w a n ltac:(lia)) as Hlw.
  apply list_eq_zget; [rewrite length_splice; lia|].
  intros i. rewrite length_splice by lia. intros Hi.
  rewrite zget_splice, !zget_vread by lia. rewrite Hw by lia.
  replace (a + off <=? a + i) with (off <=? i) by (destruct (off <=? i) eqn:?; bools; symmetry; [apply Z.leb_le|apply Z.leb_gt]; lia).
  replace (a + i <? a + off + zlen src) with (i <? off + zlen src) by (destruct (i <? off + zlen src) eqn:?; bools; symmetry; [apply Z.ltb_lt|apply Z.ltb_ge]; lia).
  destruct (_ && _); [|done]. f_equal. lia.
Qed.

(** ** Little-endian encodings *)

Definition enc16 (x : Z) : list Z := [Z.land x 255; Z.land (Z.shiftr x 8) 255].
Definition dec16 (l : list Z) : Z := zget l 0 + 256 * zget l 1.
Definition enc32 (x : Z) : list Z :=
  [Z.land x 255; Z.land (Z.shiftr x 8) 255; Z.land (Z.shiftr x 16) 255; Z.land (Z.shiftr x 24) 255].
Definition dec32 (l : list Z) : Z :=
  zget l 0 + 256 * zget l 1 + 65536 * zget l 2 + 16777216 * zget l 3.

(** Reads of the first cells of an explicit list. *)
Lemma zget_0 a l : zget (a :: l) 0 = a.
Proof. done. Qed.

Lemma zget_1 a b l : zget (a :: b :: l) 1 = b.
Proof. done. Qed.

Lemma zget_2 a b c l : zget (a :: b :: c :: l) 2 = c.
Proof. done. Qed.

Lemma zget_3 a b c d l : zget (a :: b :: c :: d :: l) 3 = d.
Proof. done. Qed.

Lemma land_255 x : Z.land x 255 = x mod 256.
Proof. change 255 with (Z.ones 8). rewrite Z.land_ones by lia. done. Qed.

Lemma dec16_enc16 x : dec16 (enc16 x) = u16 x.
Proof.
  unfold dec16, enc16, u16. rewrite zget_0, zget_1.
  rewrite !land_255, Z.shiftr_div_pow2 by lia.
  change (2 ^ 16) with (256 * 256). rewrite Z.rem_mul_r by lia.
  change (2 ^ 8) with 256. lia.
Qed.

Lemma enc16_dec16 a b : 0 <= a < 256 -> 0 <= b < 256 -> enc16 (dec16 [a; b]) = [a; b].
Proof.
  intros. unfold dec16, enc16. rewrite zget_0, zget_1.
  rewrite !land_255, Z.shiftr_div_pow2 by lia. change (2 ^ 8) with 256.
  f_equal; [|f_equal].
  - rewrite Z.mul_comm, Z_mod_plus_full. apply Z.mod_small; lia.
  - rewrite Z.mul_comm, Z.div_add by lia. rewrite (Z.div_small a) by lia.
    rewrite Z.add_0_l. apply Z.mod_small; lia.
Qed.

Lemma dec32_enc32 x : dec32 (enc32 x) = u32 x.
Proof.
  unfold dec32, enc32, u32. rewrite zget_0, zget_1, zget_2, zget_3.
  rewrite !land_255, !Z.shiftr_div_pow2 by lia.
  change (2 ^ 32) with (256 * (256 * (256 * 256))). rewrite !Z.rem_mul_r by lia.
  change (2 ^ 8) with 256. change (2 ^ 16) with (256 * 256). change (2 ^ 24) with (256 * (256 * 256)).
  rewrite <- !Z.div_div by lia. lia.
Qed.

Lemma length_enc16 x : zlen (enc16 x) = 2.
Proof. done. Qed.

Lemma length_enc32 x : zlen (enc32 x) = 4.
Proof. done. Qed.
