(* ===== verification/CSem.v ===== *)
(** Semantics of the C fragment the components are translated into: a state
    monad whose computations return, have undefined behaviour ([UB]) or run out
    of loop fuel ([NoFuel]); loops with [break] and [return]; and the weakest
    precondition calculus used to prove total correctness (a proof of [wp]
    excludes both [UB] and [NoFuel]). *)
From S2P Require Import Prelude.
From stdpp Require Import base list numbers option.

Open Scope Z_scope.

Inductive outcome (A : Type) : Type :=
  | Done (a : A)
  | UB
  | NoFuel.
Arguments Done {A} a.
Arguments UB {A}.
Arguments NoFuel {A}.

(** A C computation over the state [S] with result [A]. *)
Definition C (S A : Type) : Type := S -> outcome (A * S).

#[export] Instance C_ret S : MRet (C S) := fun A a s => Done (a, s).

#[export] Instance C_bind S : MBind (C S) := fun A B k m s =>
  match m s with
  | Done (a, s') => k a s'
  | UB => UB
  | NoFuel => NoFuel
  end.

Definition undefined {S A} : C S A := fun _ => UB.
Definition gets {S A} (f : S -> A) : C S A := fun s => Done (f s, s).
Definition modify {S} (f : S -> S) : C S unit := fun s => Done (tt, f s).

(** How a loop body ends: go on, leave the loop, or return from the function. *)
Inductive ctl (L R : Type) : Type :=
  | Next (l : L)
  | Exit (l : L)
  | Return (r : R).
Arguments Next {L R} l.
Arguments Exit {L R} l.
Arguments Return {L R} r.

(** [loop fuel body l]: runs [body] on the loop variables [l] until it exits the
    loop ([inl]) or returns from the enclosing function ([inr]). *)
Fixpoint loop {S L R} (fuel : nat) (body : L -> C S (ctl L R)) (l : L) : C S (L + R) :=
  match fuel with
  | O => fun _ => NoFuel
  | Datatypes.S fuel' =>
      c ← body l;
      match c with
      | Next l' => loop fuel' body l'
      | Exit l' => mret (inl l')
      | Return r => mret (inr r)
      end
  end.

(** ** Weakest preconditions *)

Definition wp {S A} (m : C S A) (Q : A -> S -> Prop) (s : S) : Prop :=
  match m s with
  | Done (a, s') => Q a s'
  | UB | NoFuel => False
  end.

Section wp.
Context {S : Type}.

Lemma wp_ret {A} (a : A) (Q : A -> S -> Prop) s : Q a s -> wp (mret a) Q s.
Proof. done. Qed.

Lemma wp_gets {A} (f : S -> A) (Q : A -> S -> Prop) s : Q (f s) s -> wp (gets f) Q s.
Proof. done. Qed.

Lemma wp_modify (f : S -> S) (Q : unit -> S -> Prop) s : Q tt (f s) -> wp (modify f) Q s.
Proof. done. Qed.

Lemma wp_bind {A B} (m : C S A) (k : A -> C S B) Q s :
  wp m (fun a => wp (k a) Q) s -> wp (m ≫= k) Q s.
Proof. unfold wp, mbind, C_bind. by destruct (m s) as [[a s']| |]. Qed.

Lemma wp_bind_inv {A B} (m : C S A) (k : A -> C S B) Q s :
  wp (m ≫= k) Q s -> wp m (fun a => wp (k a) Q) s.
Proof. unfold wp, mbind, C_bind. by destruct (m s) as [[a s']| |]. Qed.

Lemma wp_mono {A} (m : C S A) (P Q : A -> S -> Prop) s :
  wp m P s -> (forall a s', P a s' -> Q a s') -> wp m Q s.
Proof. unfold wp. destruct (m s) as [[a s']| |]; eauto. Qed.

(** The rule a caller uses: the callee's specification, then the continuation. *)
Lemma wp_call {A B} (m : C S A) (k : A -> C S B) P Q s :
  wp m P s -> (forall a s', P a s' -> wp (k a) Q s') -> wp (m ≫= k) Q s.
Proof. intros. apply wp_bind. eapply wp_mono; eauto. Qed.

Lemma wp_conj {A} (m : C S A) (P Q : A -> S -> Prop) s :
  wp m P s -> wp m Q s -> wp m (fun a s' => P a s' /\ Q a s') s.
Proof. unfold wp. destruct (m s) as [[a s']| |]; eauto. Qed.

Lemma wp_run {A} (m : C S A) (Q : A -> S -> Prop) s :
  wp m Q s <-> exists a s', m s = Done (a, s') /\ Q a s'.
Proof.
  unfold wp. split.
  - destruct (m s) as [[a s']| |]; naive_solver.
  - intros (a & s' & -> & HQ). done.
Qed.

(** Total correctness of loops: an invariant indexed by a decreasing bound on
    the iterations left. *)
Lemma wp_loop_ix {L R} (I : nat -> L -> S -> Prop) (body : L -> C S (ctl L R)) (Q : L + R -> S -> Prop) fuel n l s :
  (forall n l s, I n l s ->
     wp (body l) (fun c s' =>
       match c with
       | Next l' => exists n', (n' < n)%nat /\ I n' l' s'
       | Exit l' => Q (inl l') s'
       | Return r => Q (inr r) s'
       end) s) ->
  (n < fuel)%nat -> I n l s -> wp (loop fuel body l) Q s.
Proof.
  intros Hbody. revert n l s. induction fuel as [|fuel IH]; intros n l s Hm HI; [lia|].
  cbn. eapply wp_call; [by apply (Hbody n)|].
  intros [l'|l'|r] s'; [intros (n' & Hlt & HI'); apply (IH n'); [lia|done] | done | done].
Qed.

(** The same with the bound given as a function of the loop variables. *)
Lemma wp_loop {L R} (I : L -> S -> Prop) (measure : L -> nat)
    (body : L -> C S (ctl L R)) (Q : L + R -> S -> Prop) fuel l s :
  (forall l s, I l s ->
     wp (body l) (fun c s' =>
       match c with
       | Next l' => I l' s' /\ (measure l' < measure l)%nat
       | Exit l' => Q (inl l') s'
       | Return r => Q (inr r) s'
       end) s) ->
  (measure l < fuel)%nat -> I l s -> wp (loop fuel body l) Q s.
Proof.
  intros Hbody Hm HI.
  apply (wp_loop_ix (fun n l s => n = measure l /\ I l s) body Q fuel (measure l)); [|done|done].
  clear l s Hm HI. intros n l s [-> HI]. eapply wp_mono; [by apply Hbody|].
  intros [l'|l'|r] s'; [intros [? ?]; eauto|done|done].
Qed.
End wp.

(** Symbolic execution of the structural steps of a computation. *)
Ltac wp_step :=
  match goal with
  | |- wp (mret _) _ _ => apply wp_ret
  | |- wp (gets _) _ _ => apply wp_gets
  | |- wp (modify _) _ _ => apply wp_modify
  | |- wp (mbind _ _) _ _ => apply wp_bind
  | |- wp (if ?b then _ else _) _ _ => let E := fresh "E" in destruct b eqn:E; bools
  end.

(** Applies the specification [H] of the computation under focus. *)
Tactic Notation "wp_apply" uconstr(H) := eapply wp_mono; [eapply H|].

(** ** Invariants

  [preserves I m]: wherever [m] returns, [I] still holds. *)
Section preserves.
Context {S : Type} (I : S -> Prop).

Definition preserves {A} (m : C S A) : Prop := forall s a s', I s -> m s = Done (a, s') -> I s'.

Lemma pres_ret {A} (a : A) : preserves (mret a).
Proof. by intros s ? s' HI [= <- <-]. Qed.

Lemma pres_gets {A} (f : S -> A) : preserves (gets f).
Proof. by intros s ? s' HI [= <- <-]. Qed.

Lemma pres_undefined {A} : preserves (undefined (A := A)).
Proof. done. Qed.

Lemma pres_modify f : (forall s, I s -> I (f s)) -> preserves (modify f).
Proof. intros H s ? s' HI [= <- <-]. auto. Qed.

Lemma pres_bind {A B} (m : C S A) (k : A -> C S B) : preserves m -> (forall a, preserves (k a)) -> preserves (m ≫= k).
Proof.
  intros Hm Hk s b s' HI. unfold mbind, C_bind. destruct (m s) as [[a s1]| |] eqn:E; [|done|done].
  intros H. eapply (Hk a); [|exact H]. by eapply Hm.
Qed.

Lemma pres_loop {L R} fuel (body : L -> C S (ctl L R)) l : (forall l, preserves (body l)) -> preserves (loop fuel body l).
Proof.
  intros Hb. revert l. induction fuel as [|fuel IH]; intros l; [done|]. cbn.
  apply pres_bind; [apply Hb|]. intros [l'|l'|r]; [apply IH|apply pres_ret|apply pres_ret].
Qed.

(** Adds an invariant to a specification. *)
Lemma wp_pres {A} (m : C S A) (Q : A -> S -> Prop) s : preserves m -> I s -> wp m Q s -> wp m (fun r s' => Q r s' /\ I s') s.
Proof. unfold wp. intros Hp HI. destruct (m s) as [[a s']| |] eqn:E; [|done|done]. intros HQ. split; [done|]. by eapply Hp. Qed.
End preserves.

Lemma pres_and {S A} (I J : S -> Prop) (m : C S A) : preserves I m -> preserves J m -> preserves (fun s => I s /\ J s) m.
Proof. intros HI HJ s a s' [? ?] E. split; [by eapply HI|by eapply HJ]. Qed.

(** ** Partial correctness with termination

  [ends U m Q s]: [m] never runs out of fuel; undefined behaviour needs [U], so that
  [ends True] tolerates it and [ends False] is [wp]; what it returns satisfies [Q]. *)
Definition ends {S A} (U : Prop) (m : C S A) (Q : A -> S -> Prop) (s : S) : Prop :=
  match m s with Done (a, s') => Q a s' | UB => U | NoFuel => False end.

Section ends.
Context {S : Type} (U : Prop).

Lemma ends_wp {A} (m : C S A) Q s : wp m Q s -> ends U m Q s.
Proof. unfold wp, ends. by destruct (m s) as [[a s']| |]. Qed.

Lemma ends_gets {A B} (f : S -> A) (k : A -> C S B) Q s : ends U (k (f s)) Q s -> ends U (gets f ≫= k) Q s.
Proof. done. Qed.

Lemma ends_ret {A} (a : A) (Q : A -> S -> Prop) s : Q a s -> ends U (mret a) Q s.
Proof. done. Qed.

Lemma ends_undefined {A} (Q : A -> S -> Prop) s : U -> ends U undefined Q s.
Proof. done. Qed.

Lemma ends_bind {A B} (m : C S A) (k : A -> C S B) Q s : ends U m (fun a => ends U (k a) Q) s -> ends U (m ≫= k) Q s.
Proof. unfold ends, mbind, C_bind. by destruct (m s) as [[a s']| |]. Qed.

Lemma ends_mono {A} (m : C S A) (P Q : A -> S -> Prop) s : ends U m P s -> (forall a s', P a s' -> Q a s') -> ends U m Q s.
Proof. unfold ends. destruct (m s) as [[a s']| |]; eauto. Qed.

Lemma ends_call {A B} (m : C S A) (k : A -> C S B) P Q s : ends U m P s -> (forall a s', P a s' -> ends U (k a) Q s') -> ends U (m ≫= k) Q s.
Proof. intros Hm Hk. apply ends_bind. by eapply ends_mono. Qed.

Lemma ends_loop {L R} (I : nat -> L -> S -> Prop) (body : L -> C S (ctl L R)) (Q : L + R -> S -> Prop) fuel n l s :
  (forall n l s, I n l s ->
     ends U (body l) (fun c s' =>
       match c with
       | Next l' => exists n', (n' < n)%nat /\ I n' l' s'
       | Exit l' => Q (inl l') s'
       | Return r => Q (inr r) s'
       end) s) ->
  (n < fuel)%nat -> I n l s -> ends U (loop fuel body l) Q s.
Proof.
  intros Hbody. revert n l s. induction fuel as [|fuel IH]; intros n l s Hm HI; [lia|].
  cbn. eapply ends_call; [by apply (Hbody n)|].
  intros [l'|l'|r] s'; [intros (n' & Hlt & HI'); apply (IH n'); [lia|done] | done | done].
Qed.
End ends.

Lemma wp_ends {S A} (m : C S A) Q s : ends False m Q s -> wp m Q s.
Proof. unfold wp, ends. by destruct (m s) as [[a s']| |]. Qed.

Lemma ends_weaken {S A} (U V : Prop) (m : C S A) Q s : (U -> V) -> ends U m Q s -> ends V m Q s.
Proof. unfold ends. destruct (m s) as [[a s']| |]; auto. Qed.

(** ** Computations that do not return *)

Definition never_returns {S A} (m : C S A) (s : S) : Prop := forall r, m s <> Done r.

Lemma never_bind {S A B} (m : C S A) (k : A -> C S B) s :
  (forall a s', m s = Done (a, s') -> never_returns (k a) s') -> never_returns (m ≫= k) s.
Proof. unfold never_returns, mbind, C_bind. intros H r. destruct (m s) as [[a s']| |]; [by apply H|done|done]. Qed.

Lemma never_bind_l {S A B} (m : C S A) (k : A -> C S B) s : never_returns m s -> never_returns (m ≫= k) s.
Proof. intros H. apply never_bind. intros a s' E. by destruct (H (a, s')). Qed.

(** A loop whose body always goes on. *)
Lemma never_loop {S L R} (I : L -> Prop) (body : L -> C S (ctl L R)) fuel l s :
  (forall l s c s', I l -> body l s = Done (c, s') -> exists l', c = Next l' /\ I l') -> I l -> never_returns (loop fuel body l) s.
Proof.
  intros Hb. revert l s. induction fuel as [|fuel IH]; intros l s HI; [done|]. cbn. apply never_bind.
  intros c s' E. destruct (Hb _ _ _ _ HI E) as (l' & -> & Hl). by apply IH.
Qed.
