(* ===== verification/CDouble.v ===== *)
(** The C type [double]: IEEE binary64 as the Standard Library specifies it
    ([SpecFloat]), with the conversions and the formats of [printf] the code uses, and
    the fact that integers below 2^53 are computed with exactly. *)
From Stdlib Require Import ZArith Lia Bool.
From Stdlib Require Import SpecFloat.
From S2P Require Import Prelude.
From stdpp Require Import base list numbers option.

Open Scope Z_scope.

Definition double : Type := spec_float.

Definition dadd : double -> double -> double := SFadd 53 1024.
Definition dsub : double -> double -> double := SFsub 53 1024.
Definition dmul : double -> double -> double := SFmul 53 1024.
Definition ddiv : double -> double -> double := SFdiv 53 1024.
Definition dlt : double -> double -> bool := SFltb.
Definition dle : double -> double -> bool := SFleb.
Definition deq : double -> double -> bool := SFeqb.
Definition dabs : double -> double := SFabs.

(** [m * 2^e], rounded. *)
Definition dbl (m e : Z) : double := binary_normalize 53 1024 m e false.
Definition d_of_Z (n : Z) : double := dbl n 0.

(** A decimal literal [n / 10^k] whose numerator and denominator are exact. *)
Definition d_frac (n k : Z) : double := ddiv (d_of_Z n) (d_of_Z (10 ^ k)).

(** [(int)d]: truncation, undefined for what [int] cannot hold. *)
Definition d_trunc (d : double) : option Z :=
  match d with
  | S754_zero _ => Some 0
  | S754_finite s m e => let v := if 0 <=? e then Zpos m * 2 ^ e else Zpos m / 2 ^ (- e) in Some (if s then - v else v)
  | _ => None
  end.
Definition d_to_int (d : double) : option Z :=
  v ← d_trunc d; if (- 2 ^ 31 <=? v) && (v <? 2 ^ 31) then Some v else None.

(** [floor]; a double of 2^52 or more is an integer already. *)
Definition dfloor (d : double) : double :=
  match d with
  | S754_finite s m e => if 0 <=? e then d else let n := (if s then - Zpos m else Zpos m) / 2 ^ (- e) in if n =? 0 then S754_zero s else d_of_Z n
  | _ => d
  end.

Definition DBL_EPSILON : double := dbl 1 (-52).

(** ** [printf] *)

(** The decimal digits of a natural number, [n] of them at least. *)
Fixpoint dec_digits (fuel : nat) (v : Z) : list Z :=
  match fuel with
  | O => []
  | S f => if v <? 10 then [48 + v] else dec_digits f (v / 10) ++ [48 + v mod 10]
  end.
Definition dec_nat (v : Z) : list Z := dec_digits (Z.to_nat v + 1) v.
Definition fmt_d (v : Z) : list Z := if v <? 0 then 45 :: dec_nat (- v) else dec_nat v.
Definition pad0 (n : Z) (l : list Z) : list Z := replicate (Z.to_nat n - length l) 48 ++ l.

(** [num / den] to the nearest integer, ties to even. *)
Definition round_even (num den : Z) : Z :=
  let q := num / den in let r := num mod den in
  if 2 * r <? den then q else if den <? 2 * r then q + 1 else if Z.even q then q else q + 1.

(** A finite double as sign, numerator and denominator. *)
Definition d_rat (d : double) : bool * Z * Z :=
  match d with
  | S754_zero s => (s, 0, 1)
  | S754_finite s m e => if 0 <=? e then (s, Zpos m * 2 ^ e, 1) else (s, Zpos m, 2 ^ (- e))
  | _ => (false, 0, 1)
  end.

Definition fmt_special (d : double) : option (list Z) :=
  match d with
  | S754_infinity s => Some ((if s then [45] else []) ++ [105; 110; 102])
  | S754_nan => Some [110; 97; 110]
  | _ => None
  end.

(** ["%.<prec>f"]. *)
Definition fmt_f (prec : Z) (d : double) : list Z :=
  match fmt_special d with
  | Some t => t
  | None =>
      let '(s, num, den) := d_rat d in
      let n := round_even (num * 10 ^ prec) den in
      let ip := dec_nat (n / 10 ^ prec) in
      (if (s : bool) then [45] else []) ++ ip ++ (if prec =? 0 then [] else 46 :: pad0 prec (dec_nat (n mod 10 ^ prec)))
  end.

(** The decimal exponent of [num / den > 0]. *)
Fixpoint dec_exp (fuel : nat) (num den k : Z) : Z :=
  match fuel with
  | O => k
  | S f => if num <? den then dec_exp f (num * 10) den (k - 1) else if den * 10 <=? num then dec_exp f num (den * 10) (k + 1) else k
  end.

(** ["%e"]: six digits behind the point. *)
Definition fmt_e (d : double) : list Z :=
  match fmt_special d with
  | Some t => t
  | None =>
      let '(s, num, den) := d_rat d in
      let k := if num =? 0 then 0 else dec_exp 400 num den 0 in
      let n := if 6 <=? k then round_even num (den * 10 ^ (k - 6)) else round_even (num * 10 ^ (6 - k)) den in
      let '(n, k) := if n =? 10 ^ 7 then (10 ^ 6, k + 1) else (n, k) in
      (if (s : bool) then [45] else []) ++ dec_nat (n / 10 ^ 6) ++ 46 :: pad0 6 (dec_nat (n mod 10 ^ 6))
        ++ 101 :: (if k <? 0 then 45 else 43) :: pad0 2 (dec_nat (Z.abs k))
  end.

(** ** Exactness on integers *)

Lemma digits2_size p : digits2_pos p = Pos.size p.
Proof. induction p as [p IH|p IH|]; cbn; by rewrite ?IH. Qed.

Lemma digits_bound n : 0 < n -> 0 < Zdigits2 n /\ 2 ^ (Zdigits2 n - 1) <= n < 2 ^ Zdigits2 n.
Proof.
  intros Hn. destruct n as [|p|]; [lia| |lia]. cbn [Zdigits2]. rewrite digits2_size. split; [lia|].
  pose proof (Pos.size_gt p) as H1. pose proof (Pos.size_le p) as H2. split.
  - apply (Z.mul_le_mono_pos_l _ _ 2); [lia|]. rewrite <- Z.pow_succ_r by lia. replace (Z.succ (Zpos (Pos.size p) - 1)) with (Zpos (Pos.size p)) by lia.
    rewrite <- Pos2Z.inj_pow. lia.
  - rewrite <- Pos2Z.inj_pow. lia.
Qed.

Lemma digits_unique n d : 0 < d -> 2 ^ (d - 1) <= n < 2 ^ d -> Zdigits2 n = d.
Proof.
  intros Hd Hn. assert (0 < 2 ^ (d - 1)) by lia. destruct (digits_bound n) as (H1 & H2 & H3); [lia|].
  destruct (Z.lt_trichotomy (Zdigits2 n) d) as [Hlt | [? | Hlt]]; [|done|].
  - pose proof (Z.pow_le_mono_r 2 (Zdigits2 n) (d - 1)). lia.
  - pose proof (Z.pow_le_mono_r 2 d (Zdigits2 n - 1)). lia.
Qed.

Lemma digits_shift n k : 0 < n -> 0 <= k -> Zdigits2 (n * 2 ^ k) = Zdigits2 n + k.
Proof.
  intros Hn Hk. destruct (digits_bound n Hn) as (H1 & H2 & H3). apply digits_unique; [lia|].
  replace (Zdigits2 n + k - 1) with (Zdigits2 n - 1 + k) by lia. rewrite !Z.pow_add_r by lia. nia.
Qed.

Lemma digits_le n d : 0 < n -> 0 <= d -> n < 2 ^ d -> Zdigits2 n <= d.
Proof.
  intros Hn Hd Hlt. destruct (digits_bound n Hn) as (H1 & H2 & H3). destruct (Z.le_gt_cases (Zdigits2 n) d) as [|Hgt]; [done|].
  pose proof (Z.pow_le_mono_r 2 d (Zdigits2 n - 1)). lia.
Qed.

Lemma iter_plus {A} (f : A -> A) n m x : Nat.iter (n + m) f x = Nat.iter n f (Nat.iter m f x).
Proof. induction n as [|n IH]; cbn; [done|]. by f_equal. Qed.

Lemma iter_pos_nat {A} (f : A -> A) p x : SpecFloat.iter_pos f p x = Nat.iter (Pos.to_nat p) f x.
Proof.
  revert x. induction p as [p IH|p IH|]; intros x; cbn [SpecFloat.iter_pos]; [| |done].
  - rewrite !IH, Pos2Nat.inj_xI, <- (iter_plus f (Pos.to_nat p)). change (f x) with (Nat.iter 1 f x). rewrite <- iter_plus. f_equal. lia.
  - rewrite !IH, Pos2Nat.inj_xO, <- iter_plus. f_equal. lia.
Qed.

Lemma shr_1_even m : 0 < m -> shr_1 {| shr_m := 2 * m; shr_r := false; shr_s := false |} = {| shr_m := m; shr_r := false; shr_s := false |}.
Proof. by destruct m. Qed.

Lemma shr_exact m k : 0 < m -> Nat.iter k shr_1 {| shr_m := m * 2 ^ Z.of_nat k; shr_r := false; shr_s := false |} = {| shr_m := m; shr_r := false; shr_s := false |}.
Proof.
  intros Hm. induction k as [|k IH]; [cbn; by rewrite Z.mul_1_r|]. rewrite Nat.iter_succ_r.
  replace (m * 2 ^ Z.of_nat (S k)) with (2 * (m * 2 ^ Z.of_nat k)) by (rewrite Nat2Z.inj_succ, Z.pow_succ_r by lia; lia).
  rewrite shr_1_even by lia. exact IH.
Qed.

Lemma shr_fexp_exact m k e : 0 < m -> 0 <= k -> Z.max (Zdigits2 m + k + e - 53) (-1074) = e + k ->
  shr_fexp 53 1024 (m * 2 ^ k) e loc_Exact = ({| shr_m := m; shr_r := false; shr_s := false |}, e + k).
Proof.
  intros Hm Hk He. unfold shr_fexp, fexp, emin. rewrite digits_shift by lia. replace (3 - 1024 - 53) with (-1074) by lia. rewrite He.
  cbn [shr_record_of_loc]. replace (e + k - e) with k by lia. destruct k as [|k|]; [|cbn [shr]|lia].
  - cbn [shr]. by rewrite Z.mul_1_r, Z.add_0_r.
  - rewrite iter_pos_nat. rewrite <- (Z2Nat.id (Zpos k)) by lia. change (Z.to_nat (Zpos k)) with (Pos.to_nat k). by rewrite shr_exact.
Qed.

(** The double with the value [n * 2^x], for [n] of at most 53 bits. *)
Definition exact (s : bool) (n x : Z) : double := S754_finite s (Z.to_pos (n * 2 ^ (53 - Zdigits2 n))) (Zdigits2 n + x - 53).

Lemma aux_exact s n k e : 0 < n < 2 ^ 53 -> 53 <= Zdigits2 n + k -> -900 <= e + k <= 900 ->
  binary_round_aux 53 1024 s (n * 2 ^ k) e loc_Exact = exact s n (e + k).
Proof.
  intros Hn Hk He. destruct (digits_bound n) as (H1 & H2 & H3); [lia|]. pose proof (digits_le n 53 ltac:(lia) ltac:(lia) ltac:(lia)) as Hd.
  set (m := n * 2 ^ (53 - Zdigits2 n)). assert (0 < m) as Hm by (unfold m; pose proof (Z.pow_pos_nonneg 2 (53 - Zdigits2 n)); nia).
  assert (Zdigits2 m = 53) as Hdm by (unfold m; rewrite digits_shift by lia; lia).
  unfold binary_round_aux. replace (n * 2 ^ k) with (m * 2 ^ (Zdigits2 n + k - 53)).
  2:{ unfold m. rewrite <- Z.mul_assoc, <- Z.pow_add_r by lia. do 2 f_equal. lia. }
  rewrite shr_fexp_exact by lia. cbn [shr_m loc_of_shr_record round_nearest_even].
  replace m with (m * 2 ^ 0) at 1 by lia. rewrite shr_fexp_exact by lia. cbn [shr_m]. destruct m as [|q|] eqn:Em; [lia| |lia].
  rewrite (proj2 (Z.leb_le _ _)) by lia. unfold exact. fold m. rewrite Em. cbn [Z.to_pos]. f_equal. lia.
Qed.

Lemma shift_pos_mul p d : Zpos (Pos.iter xO p d) = Zpos p * 2 ^ Zpos d.
Proof.
  revert p. induction d as [|d IH] using Pos.peano_ind; intros p; [cbn; lia|].
  rewrite Pos.iter_succ, Pos2Z.inj_succ, Z.pow_succ_r by lia. change (Zpos (Pos.iter xO p d)~0) with (2 * Zpos (Pos.iter xO p d)). rewrite IH. lia.
Qed.

Lemma round_exact s n k e : 0 < n < 2 ^ 53 -> 0 <= k -> -900 <= e + k <= 900 ->
  binary_round 53 1024 s (Z.to_pos (n * 2 ^ k)) e = exact s n (e + k).
Proof.
  intros Hn Hk He. pose proof (Z.pow_pos_nonneg 2 k). assert (0 < n * 2 ^ k) by nia.
  pose proof (digits_le n 53 ltac:(lia) ltac:(lia) ltac:(lia)) as Hd. destruct (digits_bound n) as (H1 & _ & _); [lia|].
  unfold binary_round, shl_align. change (Zpos (digits2_pos (Z.to_pos (n * 2 ^ k)))) with (Zdigits2 (Zpos (Z.to_pos (n * 2 ^ k)))).
  rewrite Z2Pos.id, digits_shift by lia. unfold fexp, emin. replace (3 - 1024 - 53) with (-1074) by lia. rewrite Z.max_l by lia.
  destruct (Zdigits2 n + k + e - 53 - e) as [|q|q] eqn:Eq.
  - rewrite Z2Pos.id by lia. apply aux_exact; lia.
  - rewrite Z2Pos.id by lia. apply aux_exact; lia.
  - rewrite shift_pos_mul, Z2Pos.id by lia. rewrite <- Z.mul_assoc, <- Z.pow_add_r by lia.
    rewrite aux_exact by lia. f_equal. lia.
Qed.

Lemma d_of_Z_exact n : n <> 0 -> Z.abs n < 2 ^ 53 -> d_of_Z n = exact (n <? 0) (Z.abs n) 0.
Proof.
  intros Hn Hb. destruct n as [|p|p]; [done| |]; cbn [Z.abs Z.ltb Z.compare] in *; unfold d_of_Z, dbl, binary_normalize.
  - pose proof (round_exact false (Zpos p) 0 0 ltac:(lia) ltac:(lia) ltac:(lia)) as H. by rewrite Z.mul_1_r in H.
  - pose proof (round_exact true (Zpos p) 0 0 ltac:(lia) ltac:(lia) ltac:(lia)) as H. by rewrite Z.mul_1_r in H.
Qed.

Lemma exact_mant n : 0 < n < 2 ^ 53 -> 0 < n * 2 ^ (53 - Zdigits2 n).
Proof. intros. pose proof (digits_le n 53 ltac:(lia) ltac:(lia) ltac:(lia)). pose proof (Z.pow_pos_nonneg 2 (53 - Zdigits2 n)). nia. Qed.

Lemma dmul_exact s1 s2 a b : 0 < a -> 0 < b -> a * b < 2 ^ 53 -> dmul (exact s1 a 0) (exact s2 b 0) = exact (xorb s1 s2) (a * b) 0.
Proof.
  intros Ha Hb Hab. assert (a < 2 ^ 53 /\ b < 2 ^ 53) as [Ha' Hb'] by nia.
  pose proof (exact_mant a ltac:(lia)). pose proof (exact_mant b ltac:(lia)).
  pose proof (digits_le a 53 ltac:(lia) ltac:(lia) ltac:(lia)). pose proof (digits_le b 53 ltac:(lia) ltac:(lia) ltac:(lia)).
  destruct (digits_bound a Ha) as (Ha1 & Ha2 & Ha3), (digits_bound b Hb) as (Hb1 & Hb2 & Hb3).
  set (da := Zdigits2 a) in *. set (db := Zdigits2 b) in *. unfold dmul, exact at 1 2, SFmul. fold da db.
  rewrite Pos2Z.inj_mul, !Z2Pos.id by done.
  replace (a * 2 ^ (53 - da) * (b * 2 ^ (53 - db))) with (a * b * 2 ^ (106 - da - db)).
  2:{ replace (106 - da - db) with ((53 - da) + (53 - db)) by lia. rewrite Z.pow_add_r by lia. lia. }
  assert (da + db - 1 <= Zdigits2 (a * b)) as Hd.
  { destruct (digits_bound (a * b)) as (Hc1 & _ & Hc2); [nia|]. destruct (Z.le_gt_cases (da + db - 1) (Zdigits2 (a * b))); [done|].
    pose proof (Z.pow_le_mono_r 2 (Zdigits2 (a * b)) (da - 1 + (db - 1))). rewrite (Z.pow_add_r 2 (da - 1) (db - 1)) in * by lia. nia. }
  rewrite aux_exact by nia. f_equal. lia.
Qed.

Lemma shl_align_exact n ez : 0 < n < 2 ^ 53 -> ez <= Zdigits2 n - 53 ->
  Zpos (fst (shl_align (Z.to_pos (n * 2 ^ (53 - Zdigits2 n))) (Zdigits2 n + 0 - 53) ez)) = n * 2 ^ (- ez).
Proof.
  intros Hn He. pose proof (exact_mant n Hn). pose proof (digits_le n 53 ltac:(lia) ltac:(lia) ltac:(lia)). unfold shl_align.
  destruct (ez - (Zdigits2 n + 0 - 53)) as [|q|q] eqn:Eq; [|lia|]; cbn [fst].
  - rewrite Z2Pos.id by done. do 2 f_equal. lia.
  - rewrite shift_pos_mul, Z2Pos.id, <- Z.mul_assoc, <- Z.pow_add_r by lia. do 2 f_equal. lia.
Qed.

Lemma dadd_exact a b : 0 < a -> 0 < b -> a + b < 2 ^ 53 -> dadd (exact false a 0) (exact false b 0) = exact false (a + b) 0.
Proof.
  intros Ha Hb Hab. unfold dadd, exact at 1 2, SFadd. cbn [cond_Zopp]. set (ez := Z.min _ _).
  destruct (digits_bound a Ha) as (Ha1 & _ & _), (digits_bound b Hb) as (Hb1 & _ & _).
  pose proof (digits_le a 53 ltac:(lia) ltac:(lia) ltac:(lia)). pose proof (digits_le b 53 ltac:(lia) ltac:(lia) ltac:(lia)).
  assert (- 53 <= ez <= 0 /\ ez <= Zdigits2 a - 53 /\ ez <= Zdigits2 b - 53) as (Hz1 & Hz2 & Hz3) by (unfold ez; lia).
  rewrite !shl_align_exact by lia. rewrite <- Z.mul_add_distr_r. pose proof (Z.pow_pos_nonneg 2 (- ez)).
  unfold binary_normalize. destruct ((a + b) * 2 ^ (- ez)) as [|q|q] eqn:Eq; [nia| |nia].
  pose proof (round_exact false (a + b) (- ez) ez ltac:(lia) ltac:(lia) ltac:(lia)) as H'. rewrite Eq in H'. cbn [Z.to_pos] in H'. rewrite H'. f_equal. lia.
Qed.

(** On natural numbers. *)
Lemma dmul_nat a b : 0 <= a -> 0 <= b -> a * b < 2 ^ 53 -> 0 < a < 2 ^ 53 \/ a = 0 -> 0 < b < 2 ^ 53 \/ b = 0 -> dmul (d_of_Z a) (d_of_Z b) = d_of_Z (a * b).
Proof.
  intros Ha Hb Hab [Ha0 | ->] [Hb0 | ->].
  - rewrite !d_of_Z_exact by nia. rewrite !(proj2 (Z.ltb_ge _ _)) by nia. rewrite dmul_exact by nia. f_equal. nia.
  - rewrite Z.mul_0_r, (d_of_Z_exact a) by lia. by rewrite (proj2 (Z.ltb_ge _ _)) by lia.
  - rewrite (d_of_Z_exact b) by lia. by rewrite (proj2 (Z.ltb_ge _ _)) by lia.
  - done.
Qed.

Lemma dadd_nat a b : 0 <= a -> 0 <= b -> a + b < 2 ^ 53 -> dadd (d_of_Z a) (d_of_Z b) = d_of_Z (a + b).
Proof.
  intros Ha Hb Hab. destruct (Z.eq_dec a 0) as [-> | Ha0], (Z.eq_dec b 0) as [-> | Hb0].
  - done.
  - rewrite Z.add_0_l, (d_of_Z_exact b) by lia. done.
  - rewrite Z.add_0_r, (d_of_Z_exact a) by lia. done.
  - rewrite !d_of_Z_exact by lia. rewrite !(proj2 (Z.ltb_ge _ _)) by lia. rewrite dadd_exact by lia. f_equal. lia.
Qed.

Lemma dmul_sign n : Z.abs n < 2 ^ 53 -> n <> 0 -> dmul (d_of_Z (Z.sgn n)) (d_of_Z (Z.abs n)) = d_of_Z n.
Proof.
  intros Hb Hn. rewrite !d_of_Z_exact by lia. rewrite dmul_exact by lia. f_equal; [|lia].
  destruct (Z.ltb_spec n 0).
  - rewrite (proj2 (Z.ltb_lt (Z.sgn n) 0)), (proj2 (Z.ltb_ge (Z.abs n) 0)) by lia. done.
  - rewrite (proj2 (Z.ltb_ge (Z.sgn n) 0)), (proj2 (Z.ltb_ge (Z.abs n) 0)) by lia. done.
Qed.

Lemma dmul_1 n : Z.abs n < 2 ^ 53 -> dmul (d_of_Z n) (d_of_Z 1) = d_of_Z n.
Proof.
  intros Hb. destruct (Z.eq_dec n 0) as [-> | Hn]; [done|]. rewrite !d_of_Z_exact by lia. rewrite dmul_exact by lia. cbn [Z.ltb Z.compare xorb].
  rewrite xorb_false_r. f_equal. lia.
Qed.

Lemma d_trunc_exact s n : 0 < n < 2 ^ 53 -> d_trunc (exact s n 0) = Some (if s then - n else n).
Proof.
  intros Hn. pose proof (exact_mant n Hn). pose proof (digits_le n 53 ltac:(lia) ltac:(lia) ltac:(lia)) as Hd. destruct (digits_bound n) as (Hn1 & _ & _); [lia|].
  unfold exact, d_trunc. rewrite Z2Pos.id by done. destruct (Z.leb_spec 0 (Zdigits2 n + 0 - 53)).
  - replace (53 - Zdigits2 n) with 0 by lia. replace (Zdigits2 n + 0 - 53) with 0 by lia. rewrite !Z.mul_1_r. by destruct s.
  - replace (- (Zdigits2 n + 0 - 53)) with (53 - Zdigits2 n) by lia. rewrite Z.div_mul; [by destruct s|]. pose proof (Z.pow_pos_nonneg 2 (53 - Zdigits2 n)). lia.
Qed.

Lemma d_to_int_ok n : - 2 ^ 31 <= n < 2 ^ 31 -> d_to_int (d_of_Z n) = Some n.
Proof.
  intros Hn. unfold d_to_int. assert (d_trunc (d_of_Z n) = Some n) as ->.
  { destruct (Z.eq_dec n 0) as [-> | Hn0]; [done|]. rewrite d_of_Z_exact by lia. rewrite d_trunc_exact by lia. f_equal. destruct (Z.ltb_spec n 0); lia. }
  cbn. by rewrite (proj2 (Z.leb_le _ _)), (proj2 (Z.ltb_lt _ _)) by lia.
Qed.

Lemma dsub_same n : dabs (dsub (d_of_Z n) (d_of_Z n)) = S754_zero false \/ d_of_Z n = S754_nan \/ exists s, d_of_Z n = S754_infinity s.
Proof.
  destruct (d_of_Z n) as [[]|s| |s m e]; [by left|by left|right; right; by exists s|by right; left|]. left.
  unfold dsub, SFsub. by rewrite Z.sub_diag.
Qed.

(** Comparison with an integer. *)
Lemma dcmp_exact a b : 0 < a < 2 ^ 53 -> 0 < b < 2 ^ 53 -> SFcompare (exact false a 0) (exact false b 0) = Some (Z.compare a b).
Proof.
  intros Ha Hb. unfold exact, SFcompare. f_equal. destruct (digits_bound a) as (Ha1 & Ha2 & Ha3); [lia|]. destruct (digits_bound b) as (Hb1 & Hb2 & Hb3); [lia|].
  pose proof (digits_le a 53 ltac:(lia) ltac:(lia) ltac:(lia)). pose proof (digits_le b 53 ltac:(lia) ltac:(lia) ltac:(lia)).
  destruct (Z.compare_spec (Zdigits2 a + 0 - 53) (Zdigits2 b + 0 - 53)) as [E | Hlt | Hgt].
  - assert (Zdigits2 a = Zdigits2 b) as -> by lia. change (Pos.compare_cont Eq ?x ?y) with (Pos.compare x y).
    pose proof (exact_mant b Hb) as Hmb. set (p := 2 ^ (53 - Zdigits2 b)) in *. assert (0 < p) by nia.
    rewrite <- (Z2Pos.inj_compare (a * p) (b * p)) by nia. destruct (Z.compare_spec (a * p) (b * p)), (Z.compare_spec a b); try done; nia.
  - pose proof (Z.pow_le_mono_r 2 (Zdigits2 a) (Zdigits2 b - 1)). symmetry. apply Z.compare_lt_iff. lia.
  - pose proof (Z.pow_le_mono_r 2 (Zdigits2 b) (Zdigits2 a - 1)). symmetry. apply Z.compare_gt_iff. lia.
Qed.

Lemma dcmp_neg a b : 0 < a < 2 ^ 53 -> 0 < b < 2 ^ 53 -> SFcompare (exact true a 0) (exact true b 0) = Some (CompOpp (Z.compare a b)).
Proof.
  intros Ha Hb. pose proof (dcmp_exact a b Ha Hb) as H. unfold exact, SFcompare in *. injection H as <-. f_equal.
  destruct (Z.compare _ _); [done|done|done].
Qed.

(** The order of integers. *)
Lemma dle_int a b : Z.abs a < 2 ^ 53 -> Z.abs b < 2 ^ 53 -> dle (d_of_Z a) (d_of_Z b) = (a <=? b).
Proof.
  intros Ha Hb. unfold dle, SFleb. destruct (Z.eq_dec a 0) as [-> | Ha0], (Z.eq_dec b 0) as [-> | Hb0]; [done| | |].
  - rewrite (d_of_Z_exact b) by lia. cbn. destruct (Z.ltb_spec b 0); symmetry; [apply Z.leb_gt|apply Z.leb_le]; lia.
  - rewrite (d_of_Z_exact a) by lia. cbn. destruct (Z.ltb_spec a 0); symmetry; [apply Z.leb_le|apply Z.leb_gt]; lia.
  - rewrite !d_of_Z_exact by lia. destruct (Z.ltb_spec a 0), (Z.ltb_spec b 0).
    + rewrite dcmp_neg by lia. rewrite <- Z.compare_antisym. unfold Z.leb. by replace (Z.compare a b) with (Z.compare (Z.abs b) (Z.abs a)) by (destruct (Z.compare_spec a b), (Z.compare_spec (Z.abs b) (Z.abs a)); done || lia); destruct (Z.compare _ _).
    + cbn. symmetry. apply Z.leb_le. lia.
    + cbn. symmetry. apply Z.leb_gt. lia.
    + rewrite dcmp_exact by lia. rewrite !Z.abs_eq by lia. unfold Z.leb. by destruct (Z.compare a b).
Qed.

Lemma deq_zero n : Z.abs n < 2 ^ 53 -> deq (d_of_Z n) (d_of_Z 0) = (n =? 0).
Proof.
  intros Hb. destruct (Z.eqb_spec n 0) as [-> | Hn]; [done|]. rewrite d_of_Z_exact by lia. by destruct (n <? 0).
Qed.

Lemma dsub_int n : Z.abs n < 2 ^ 53 -> dabs (dsub (d_of_Z n) (d_of_Z n)) = S754_zero false.
Proof.
  intros Hb. destruct (dsub_same n) as [H | [H | [s H]]]; [done| |]; exfalso.
  - destruct (Z.eq_dec n 0) as [-> | Hn]; [done|]. by rewrite d_of_Z_exact in H by lia.
  - destruct (Z.eq_dec n 0) as [-> | Hn]; [done|]. by rewrite d_of_Z_exact in H by lia.
Qed.
