(* ===== verification/SpiffsTypes.v ===== *)
(** The data model of SPIFFS: the constants and structures of [spiffs.h] and
    [spiffs_nucleus.h], the geometry macros, the on-flash encodings of the page
    headers, the HAL interface and its NOR-flash contract, and the state record
    ([spiffs]) all operations act on. *)
From S2P Require Import Prelude CSem.
From stdpp Require Import base list numbers option.

Open Scope Z_scope.

(** ** Return codes ([spiffs.h]) *)

Definition SPIFFS_OK : Z := 0.
Definition SPIFFS_ERR_NOT_MOUNTED : Z := -10000.
Definition SPIFFS_ERR_FULL : Z := -10001.
Definition SPIFFS_ERR_NOT_FOUND : Z := -10002.
Definition SPIFFS_ERR_END_OF_OBJECT : Z := -10003.
Definition SPIFFS_ERR_DELETED : Z := -10004.
Definition SPIFFS_ERR_NOT_FINALIZED : Z := -10005.
Definition SPIFFS_ERR_NOT_INDEX : Z := -10006.
Definition SPIFFS_ERR_OUT_OF_FILE_DESCS : Z := -10007.
Definition SPIFFS_ERR_FILE_CLOSED : Z := -10008.
Definition SPIFFS_ERR_FILE_DELETED : Z := -10009.
Definition SPIFFS_ERR_BAD_DESCRIPTOR : Z := -10010.
Definition SPIFFS_ERR_IS_INDEX : Z := -10011.
Definition SPIFFS_ERR_IS_FREE : Z := -10012.
Definition SPIFFS_ERR_INDEX_SPAN_MISMATCH : Z := -10013.
Definition SPIFFS_ERR_DATA_SPAN_MISMATCH : Z := -10014.
Definition SPIFFS_ERR_INDEX_REF_FREE : Z := -10015.
Definition SPIFFS_ERR_INDEX_REF_LU : Z := -10016.
Definition SPIFFS_ERR_INDEX_REF_INVALID : Z := -10017.
Definition SPIFFS_ERR_INDEX_FREE : Z := -10018.
Definition SPIFFS_ERR_INDEX_LU : Z := -10019.
Definition SPIFFS_ERR_INDEX_INVALID : Z := -10020.
Definition SPIFFS_ERR_NOT_WRITABLE : Z := -10021.
Definition SPIFFS_ERR_NOT_READABLE : Z := -10022.
Definition SPIFFS_ERR_CONFLICTING_NAME : Z := -10023.
Definition SPIFFS_ERR_NOT_CONFIGURED : Z := -10024.
Definition SPIFFS_ERR_NOT_A_FS : Z := -10025.
Definition SPIFFS_ERR_MOUNTED : Z := -10026.
Definition SPIFFS_ERR_ERASE_FAIL : Z := -10027.
Definition SPIFFS_ERR_MAGIC_NOT_POSSIBLE : Z := -10028.
Definition SPIFFS_ERR_NO_DELETED_BLOCKS : Z := -10029.
Definition SPIFFS_ERR_FILE_EXISTS : Z := -10030.
Definition SPIFFS_ERR_INTERNAL : Z := -10050.

Definition SPIFFS_VIS_COUNTINUE : Z := SPIFFS_ERR_INTERNAL - 20.
Definition SPIFFS_VIS_COUNTINUE_RELOAD : Z := SPIFFS_ERR_INTERNAL - 21.
Definition SPIFFS_VIS_END : Z := SPIFFS_ERR_INTERNAL - 22.

Definition SPIFFS_EV_IX_UPD : Z := 0.
Definition SPIFFS_EV_IX_NEW : Z := 1.
Definition SPIFFS_EV_IX_DEL : Z := 2.

(** ** Object ids, operation codes and flags *)

Definition SPIFFS_OBJ_ID_IX_FLAG : Z := 32768.
Definition SPIFFS_OBJ_ID_DELETED : Z := 0.
Definition SPIFFS_OBJ_ID_FREE : Z := 65535.
Definition SPIFFS_UNDEFINED_LEN : Z := 4294967295.
Definition SPIFFS_CONFIG_MAGIC : Z := 537461525. (* 0x20090315 *)

(** [(spiffs_page_ix)-1], [(spiffs_block_ix)-1], [(spiffs_span_ix)-1]. *)
Definition IX_NONE : Z := 65535.

(** [id | SPIFFS_OBJ_ID_IX_FLAG] and [id & ~SPIFFS_OBJ_ID_IX_FLAG] on a 16-bit id. *)
Definition ix_id (id : Z) : Z := Z.lor id SPIFFS_OBJ_ID_IX_FLAG.
Definition data_id (id : Z) : Z := Z.land id 32767.
Definition is_ix (id : Z) : bool := hasb id SPIFFS_OBJ_ID_IX_FLAG.

Definition SPIFFS_OP_T_OBJ_LU : Z := 0.
Definition SPIFFS_OP_T_OBJ_LU2 : Z := 1.
Definition SPIFFS_OP_T_OBJ_IX : Z := 2.
Definition SPIFFS_OP_T_OBJ_DA : Z := 3.
Definition SPIFFS_OP_C_DELE : Z := 0.
Definition SPIFFS_OP_C_UPDT : Z := 4.
Definition SPIFFS_OP_C_MOVS : Z := 8.
Definition SPIFFS_OP_C_MOVD : Z := 12.
Definition SPIFFS_OP_C_FLSH : Z := 16.
Definition SPIFFS_OP_C_READ : Z := 20.
Definition SPIFFS_OP_C_WRTHRU : Z := 24.
Definition SPIFFS_OP_TYPE_MASK : Z := 3.
Definition SPIFFS_OP_COM_MASK : Z := 28.

Definition SPIFFS_PH_FLAG_USED : Z := 1.
Definition SPIFFS_PH_FLAG_FINAL : Z := 2.
Definition SPIFFS_PH_FLAG_INDEX : Z := 4.
Definition SPIFFS_PH_FLAG_IXDELE : Z := 64.
Definition SPIFFS_PH_FLAG_DELET : Z := 128.

(** [x & ~m] on a byte and [0xff & ~m]. *)
Definition clrb (x m : Z) : Z := Z.land x (255 - m).

Definition SPIFFS_VIS_CHECK_ID : Z := 1.
Definition SPIFFS_VIS_CHECK_PH : Z := 2.
Definition SPIFFS_VIS_NO_WRAP : Z := 4.

Definition SPIFFS_CACHE_FLAG_DIRTY : Z := 1.
Definition SPIFFS_CACHE_FLAG_WRTHRU : Z := 2.
Definition SPIFFS_CACHE_FLAG_TYPE_WR : Z := 128.

Definition SPIFFS_APPEND : Z := 1.
Definition SPIFFS_TRUNC : Z := 2.
Definition SPIFFS_CREAT : Z := 4.
Definition SPIFFS_RDONLY : Z := 8.
Definition SPIFFS_WRONLY : Z := 16.
Definition SPIFFS_RDWR : Z := 24.
Definition SPIFFS_DIRECT : Z := 32.
Definition SPIFFS_EXCL : Z := 64.
Definition SPIFFS_SEEK_SET : Z := 0.
Definition SPIFFS_SEEK_CUR : Z := 1.
Definition SPIFFS_SEEK_END : Z := 2.
Definition SPIFFS_TYPE_FILE : Z := 1.

(** Build-time settings ([spiffs_config.h]). *)
Definition SPIFFS_OBJ_NAME_LEN : Z := 32.
Definition SPIFFS_COPY_BUFFER_STACK : Z := 64.
Definition SPIFFS_GC_MAX_RUNS : Z := 5.
Definition SPIFFS_GC_HEUR_W_DELET : Z := 5.
Definition SPIFFS_GC_HEUR_W_USED : Z := -1.
Definition SPIFFS_GC_HEUR_W_ERASE_AGE : Z := 50.

(** ** Structures *)

(** [spiffs_config], without the HAL function pointers (see [SpiffsHal]). *)
Record spiffs_config : Type := mkCfg {
  phys_size : Z;
  phys_addr : Z;
  phys_erase_block : Z;
  log_block_size : Z;
  log_page_size : Z
}.

(** [spiffs_page_header]: packed, 5 bytes. *)
Record spiffs_page_header : Type := mkPh {
  ph_obj_id : Z;
  ph_span_ix : Z;
  ph_flags : Z
}.

(** [spiffs_cache_page] with the page memory that follows it.  [cp_pix] is the
    first member of the union: [pix] of a read page, [obj_id] of a write page;
    [cp_offset] and [cp_size] belong to write pages. *)
Record spiffs_cache_page : Type := mkCp {
  cp_flags : Z;
  cp_ix : Z;
  cp_last_access : Z;
  cp_pix : Z;
  cp_offset : Z;
  cp_size : Z;
  cp_mem : list Z
}.

Record spiffs_cache : Type := mkCache {
  cpage_count : Z;
  c_last_access : Z;
  cpage_use_map : Z;
  cpage_use_mask : Z;
  cpages : list spiffs_cache_page
}.

(** [spiffs_fd], without the pointer to its file system; [fd_cache_page] is the
    index of the cache page it points to. *)
Record spiffs_fd : Type := mkFd {
  fd_file_nbr : Z;
  fd_obj_id : Z;
  fd_size : Z;
  fd_objix_hdr_pix : Z;
  fd_cursor_objix_pix : Z;
  fd_cursor_objix_spix : Z;
  fd_offset : Z;
  fd_fdoffset : Z;
  fd_flags : Z;
  fd_cache_page : option Z
}.

(** [spiffs], with the contents of the buffers it points to and the flash. *)
Record spiffs (F : Type) : Type := mkFs {
  cfg : spiffs_config;
  block_count : Z;
  free_cursor_block_ix : Z;
  free_cursor_obj_lu_entry : Z;
  cursor_block_ix : Z;
  cursor_obj_lu_entry : Z;
  lu_work : list Z;
  work : list Z;
  fds : list spiffs_fd;
  fd_count : Z;
  err_code : Z;
  free_blocks : Z;
  stats_p_allocated : Z;
  stats_p_deleted : Z;
  cleaning : Z;
  max_erase_count : Z;
  cache : option spiffs_cache;
  cache_size : Z;
  mounted : Z;
  config_magic : Z;
  flash : F
}.

Arguments mkFs {F}.
Arguments cfg {F} s.
Arguments block_count {F} s.
Arguments free_cursor_block_ix {F} s.
Arguments free_cursor_obj_lu_entry {F} s.
Arguments cursor_block_ix {F} s.
Arguments cursor_obj_lu_entry {F} s.
Arguments lu_work {F} s.
Arguments work {F} s.
Arguments fds {F} s.
Arguments fd_count {F} s.
Arguments err_code {F} s.
Arguments free_blocks {F} s.
Arguments stats_p_allocated {F} s.
Arguments stats_p_deleted {F} s.
Arguments cleaning {F} s.
Arguments max_erase_count {F} s.
Arguments cache {F} s.
Arguments cache_size {F} s.
Arguments mounted {F} s.
Arguments config_magic {F} s.
Arguments flash {F} s.

(** Record update. *)
Definition set_free_cursor_block_ix {F} (v : Z) (s : spiffs F) : spiffs F :=
  mkFs (cfg s) (block_count s) v (free_cursor_obj_lu_entry s) (cursor_block_ix s) (cursor_obj_lu_entry s) (lu_work s) (work s) (fds s) (fd_count s) (err_code s) (free_blocks s) (stats_p_allocated s) (stats_p_deleted s) (cleaning s) (max_erase_count s) (cache s) (cache_size s) (mounted s) (config_magic s) (flash s).
Definition set_free_cursor_obj_lu_entry {F} (v : Z) (s : spiffs F) : spiffs F :=
  mkFs (cfg s) (block_count s) (free_cursor_block_ix s) v (cursor_block_ix s) (cursor_obj_lu_entry s) (lu_work s) (work s) (fds s) (fd_count s) (err_code s) (free_blocks s) (stats_p_allocated s) (stats_p_deleted s) (cleaning s) (max_erase_count s) (cache s) (cache_size s) (mounted s) (config_magic s) (flash s).
Definition set_cursor_block_ix {F} (v : Z) (s : spiffs F) : spiffs F :=
  mkFs (cfg s) (block_count s) (free_cursor_block_ix s) (free_cursor_obj_lu_entry s) v (cursor_obj_lu_entry s) (lu_work s) (work s) (fds s) (fd_count s) (err_code s) (free_blocks s) (stats_p_allocated s) (stats_p_deleted s) (cleaning s) (max_erase_count s) (cache s) (cache_size s) (mounted s) (config_magic s) (flash s).
Definition set_cursor_obj_lu_entry {F} (v : Z) (s : spiffs F) : spiffs F :=
  mkFs (cfg s) (block_count s) (free_cursor_block_ix s) (free_cursor_obj_lu_entry s) (cursor_block_ix s) v (lu_work s) (work s) (fds s) (fd_count s) (err_code s) (free_blocks s) (stats_p_allocated s) (stats_p_deleted s) (cleaning s) (max_erase_count s) (cache s) (cache_size s) (mounted s) (config_magic s) (flash s).
Definition set_lu_work {F} (v : list Z) (s : spiffs F) : spiffs F :=
  mkFs (cfg s) (block_count s) (free_cursor_block_ix s) (free_cursor_obj_lu_entry s) (cursor_block_ix s) (cursor_obj_lu_entry s) v (work s) (fds s) (fd_count s) (err_code s) (free_blocks s) (stats_p_allocated s) (stats_p_deleted s) (cleaning s) (max_erase_count s) (cache s) (cache_size s) (mounted s) (config_magic s) (flash s).
Definition set_work {F} (v : list Z) (s : spiffs F) : spiffs F :=
  mkFs (cfg s) (block_count s) (free_cursor_block_ix s) (free_cursor_obj_lu_entry s) (cursor_block_ix s) (cursor_obj_lu_entry s) (lu_work s) v (fds s) (fd_count s) (err_code s) (free_blocks s) (stats_p_allocated s) (stats_p_deleted s) (cleaning s) (max_erase_count s) (cache s) (cache_size s) (mounted s) (config_magic s) (flash s).
Definition set_fds {F} (v : list spiffs_fd) (s : spiffs F) : spiffs F :=
  mkFs (cfg s) (block_count s) (free_cursor_block_ix s) (free_cursor_obj_lu_entry s) (cursor_block_ix s) (cursor_obj_lu_entry s) (lu_work s) (work s) v (fd_count s) (err_code s) (free_blocks s) (stats_p_allocated s) (stats_p_deleted s) (cleaning s) (max_erase_count s) (cache s) (cache_size s) (mounted s) (config_magic s) (flash s).
Definition set_err_code {F} (v : Z) (s : spiffs F) : spiffs F :=
  mkFs (cfg s) (block_count s) (free_cursor_block_ix s) (free_cursor_obj_lu_entry s) (cursor_block_ix s) (cursor_obj_lu_entry s) (lu_work s) (work s) (fds s) (fd_count s) v (free_blocks s) (stats_p_allocated s) (stats_p_deleted s) (cleaning s) (max_erase_count s) (cache s) (cache_size s) (mounted s) (config_magic s) (flash s).
Definition set_free_blocks {F} (v : Z) (s : spiffs F) : spiffs F :=
  mkFs (cfg s) (block_count s) (free_cursor_block_ix s) (free_cursor_obj_lu_entry s) (cursor_block_ix s) (cursor_obj_lu_entry s) (lu_work s) (work s) (fds s) (fd_count s) (err_code s) v (stats_p_allocated s) (stats_p_deleted s) (cleaning s) (max_erase_count s) (cache s) (cache_size s) (mounted s) (config_magic s) (flash s).
Definition set_stats_p_allocated {F} (v : Z) (s : spiffs F) : spiffs F :=
  mkFs (cfg s) (block_count s) (free_cursor_block_ix s) (free_cursor_obj_lu_entry s) (cursor_block_ix s) (cursor_obj_lu_entry s) (lu_work s) (work s) (fds s) (fd_count s) (err_code s) (free_blocks s) v (stats_p_deleted s) (cleaning s) (max_erase_count s) (cache s) (cache_size s) (mounted s) (config_magic s) (flash s).
Definition set_stats_p_deleted {F} (v : Z) (s : spiffs F) : spiffs F :=
  mkFs (cfg s) (block_count s) (free_cursor_block_ix s) (free_cursor_obj_lu_entry s) (cursor_block_ix s) (cursor_obj_lu_entry s) (lu_work s) (work s) (fds s) (fd_count s) (err_code s) (free_blocks s) (stats_p_allocated s) v (cleaning s) (max_erase_count s) (cache s) (cache_size s) (mounted s) (config_magic s) (flash s).
Definition set_cleaning {F} (v : Z) (s : spiffs F) : spiffs F :=
  mkFs (cfg s) (block_count s) (free_cursor_block_ix s) (free_cursor_obj_lu_entry s) (cursor_block_ix s) (cursor_obj_lu_entry s) (lu_work s) (work s) (fds s) (fd_count s) (err_code s) (free_blocks s) (stats_p_allocated s) (stats_p_deleted s) v (max_erase_count s) (cache s) (cache_size s) (mounted s) (config_magic s) (flash s).
Definition set_max_erase_count {F} (v : Z) (s : spiffs F) : spiffs F :=
  mkFs (cfg s) (block_count s) (free_cursor_block_ix s) (free_cursor_obj_lu_entry s) (cursor_block_ix s) (cursor_obj_lu_entry s) (lu_work s) (work s) (fds s) (fd_count s) (err_code s) (free_blocks s) (stats_p_allocated s) (stats_p_deleted s) (cleaning s) v (cache s) (cache_size s) (mounted s) (config_magic s) (flash s).
Definition set_cache {F} (v : option spiffs_cache) (s : spiffs F) : spiffs F :=
  mkFs (cfg s) (block_count s) (free_cursor_block_ix s) (free_cursor_obj_lu_entry s) (cursor_block_ix s) (cursor_obj_lu_entry s) (lu_work s) (work s) (fds s) (fd_count s) (err_code s) (free_blocks s) (stats_p_allocated s) (stats_p_deleted s) (cleaning s) (max_erase_count s) v (cache_size s) (mounted s) (config_magic s) (flash s).
Definition set_mounted {F} (v : Z) (s : spiffs F) : spiffs F :=
  mkFs (cfg s) (block_count s) (free_cursor_block_ix s) (free_cursor_obj_lu_entry s) (cursor_block_ix s) (cursor_obj_lu_entry s) (lu_work s) (work s) (fds s) (fd_count s) (err_code s) (free_blocks s) (stats_p_allocated s) (stats_p_deleted s) (cleaning s) (max_erase_count s) (cache s) (cache_size s) v (config_magic s) (flash s).
Definition set_config_magic {F} (v : Z) (s : spiffs F) : spiffs F :=
  mkFs (cfg s) (block_count s) (free_cursor_block_ix s) (free_cursor_obj_lu_entry s) (cursor_block_ix s) (cursor_obj_lu_entry s) (lu_work s) (work s) (fds s) (fd_count s) (err_code s) (free_blocks s) (stats_p_allocated s) (stats_p_deleted s) (cleaning s) (max_erase_count s) (cache s) (cache_size s) (mounted s) v (flash s).
Definition set_flash {F} (v : F) (s : spiffs F) : spiffs F :=
  mkFs (cfg s) (block_count s) (free_cursor_block_ix s) (free_cursor_obj_lu_entry s) (cursor_block_ix s) (cursor_obj_lu_entry s) (lu_work s) (work s) (fds s) (fd_count s) (err_code s) (free_blocks s) (stats_p_allocated s) (stats_p_deleted s) (cleaning s) (max_erase_count s) (cache s) (cache_size s) (mounted s) (config_magic s) v.

Definition set_fd_file_nbr (v : Z) (s : spiffs_fd) : spiffs_fd :=
  mkFd v (fd_obj_id s) (fd_size s) (fd_objix_hdr_pix s) (fd_cursor_objix_pix s) (fd_cursor_objix_spix s) (fd_offset s) (fd_fdoffset s) (fd_flags s) (fd_cache_page s).
Definition set_fd_obj_id (v : Z) (s : spiffs_fd) : spiffs_fd :=
  mkFd (fd_file_nbr s) v (fd_size s) (fd_objix_hdr_pix s) (fd_cursor_objix_pix s) (fd_cursor_objix_spix s) (fd_offset s) (fd_fdoffset s) (fd_flags s) (fd_cache_page s).
Definition set_fd_size (v : Z) (s : spiffs_fd) : spiffs_fd :=
  mkFd (fd_file_nbr s) (fd_obj_id s) v (fd_objix_hdr_pix s) (fd_cursor_objix_pix s) (fd_cursor_objix_spix s) (fd_offset s) (fd_fdoffset s) (fd_flags s) (fd_cache_page s).
Definition set_fd_objix_hdr_pix (v : Z) (s : spiffs_fd) : spiffs_fd :=
  mkFd (fd_file_nbr s) (fd_obj_id s) (fd_size s) v (fd_cursor_objix_pix s) (fd_cursor_objix_spix s) (fd_offset s) (fd_fdoffset s) (fd_flags s) (fd_cache_page s).
Definition set_fd_cursor_objix_pix (v : Z) (s : spiffs_fd) : spiffs_fd :=
  mkFd (fd_file_nbr s) (fd_obj_id s) (fd_size s) (fd_objix_hdr_pix s) v (fd_cursor_objix_spix s) (fd_offset s) (fd_fdoffset s) (fd_flags s) (fd_cache_page s).
Definition set_fd_cursor_objix_spix (v : Z) (s : spiffs_fd) : spiffs_fd :=
  mkFd (fd_file_nbr s) (fd_obj_id s) (fd_size s) (fd_objix_hdr_pix s) (fd_cursor_objix_pix s) v (fd_offset s) (fd_fdoffset s) (fd_flags s) (fd_cache_page s).
Definition set_fd_offset (v : Z) (s : spiffs_fd) : spiffs_fd :=
  mkFd (fd_file_nbr s) (fd_obj_id s) (fd_size s) (fd_objix_hdr_pix s) (fd_cursor_objix_pix s) (fd_cursor_objix_spix s) v (fd_fdoffset s) (fd_flags s) (fd_cache_page s).
Definition set_fd_fdoffset (v : Z) (s : spiffs_fd) : spiffs_fd :=
  mkFd (fd_file_nbr s) (fd_obj_id s) (fd_size s) (fd_objix_hdr_pix s) (fd_cursor_objix_pix s) (fd_cursor_objix_spix s) (fd_offset s) v (fd_flags s) (fd_cache_page s).
Definition set_fd_flags (v : Z) (s : spiffs_fd) : spiffs_fd :=
  mkFd (fd_file_nbr s) (fd_obj_id s) (fd_size s) (fd_objix_hdr_pix s) (fd_cursor_objix_pix s) (fd_cursor_objix_spix s) (fd_offset s) (fd_fdoffset s) v (fd_cache_page s).
Definition set_fd_cache_page (v : option Z) (s : spiffs_fd) : spiffs_fd :=
  mkFd (fd_file_nbr s) (fd_obj_id s) (fd_size s) (fd_objix_hdr_pix s) (fd_cursor_objix_pix s) (fd_cursor_objix_spix s) (fd_offset s) (fd_fdoffset s) (fd_flags s) v.

Definition set_cp_flags (v : Z) (s : spiffs_cache_page) : spiffs_cache_page :=
  mkCp v (cp_ix s) (cp_last_access s) (cp_pix s) (cp_offset s) (cp_size s) (cp_mem s).
Definition set_cp_last_access (v : Z) (s : spiffs_cache_page) : spiffs_cache_page :=
  mkCp (cp_flags s) (cp_ix s) v (cp_pix s) (cp_offset s) (cp_size s) (cp_mem s).
Definition set_cp_pix (v : Z) (s : spiffs_cache_page) : spiffs_cache_page :=
  mkCp (cp_flags s) (cp_ix s) (cp_last_access s) v (cp_offset s) (cp_size s) (cp_mem s).
Definition set_cp_offset (v : Z) (s : spiffs_cache_page) : spiffs_cache_page :=
  mkCp (cp_flags s) (cp_ix s) (cp_last_access s) (cp_pix s) v (cp_size s) (cp_mem s).
Definition set_cp_size (v : Z) (s : spiffs_cache_page) : spiffs_cache_page :=
  mkCp (cp_flags s) (cp_ix s) (cp_last_access s) (cp_pix s) (cp_offset s) v (cp_mem s).
Definition set_cp_mem (v : list Z) (s : spiffs_cache_page) : spiffs_cache_page :=
  mkCp (cp_flags s) (cp_ix s) (cp_last_access s) (cp_pix s) (cp_offset s) (cp_size s) v.

Definition set_c_last_access (v : Z) (s : spiffs_cache) : spiffs_cache :=
  mkCache (cpage_count s) v (cpage_use_map s) (cpage_use_mask s) (cpages s).
Definition set_cpage_use_map (v : Z) (s : spiffs_cache) : spiffs_cache :=
  mkCache (cpage_count s) (c_last_access s) v (cpage_use_mask s) (cpages s).
Definition set_cpages (v : list spiffs_cache_page) (s : spiffs_cache) : spiffs_cache :=
  mkCache (cpage_count s) (c_last_access s) (cpage_use_map s) (cpage_use_mask s) v.
Definition set_ph_flags (v : Z) (h : spiffs_page_header) : spiffs_page_header :=
  mkPh (ph_obj_id h) (ph_span_ix h) v.

(** ** Geometry macros ([spiffs_nucleus.h]) *)

Definition sizeof_obj_id : Z := 2.
Definition sizeof_page_ix : Z := 2.
Definition sizeof_page_header : Z := 5.
(** Header, 3 bytes of alignment, size, type and name, padded to 2 bytes. *)
Definition sizeof_object_ix_header : Z := 46.
Definition sizeof_object_ix : Z := 8.
(** [offsetof(spiffs_page_header, flags)]. *)
Definition offsetof_flags : Z := 4.

Definition SPIFFS_MAX_PAGES (c : spiffs_config) : Z := phys_size c / log_page_size c.
Definition SPIFFS_PAGES_PER_BLOCK (c : spiffs_config) : Z := log_block_size c / log_page_size c.
Definition SPIFFS_OBJ_LOOKUP_PAGES (c : spiffs_config) : Z :=
  Z.max 1 (u32 (SPIFFS_PAGES_PER_BLOCK c * sizeof_obj_id) / log_page_size c).
Definition SPIFFS_OBJ_LOOKUP_MAX_ENTRIES (c : spiffs_config) : Z :=
  u32 (SPIFFS_PAGES_PER_BLOCK c - SPIFFS_OBJ_LOOKUP_PAGES c).
Definition SPIFFS_BLOCK_TO_PADDR (c : spiffs_config) (block : Z) : Z :=
  u32 (phys_addr c + block * log_block_size c).
Definition SPIFFS_OBJ_LOOKUP_ENTRY_TO_PIX (c : spiffs_config) (block entry : Z) : Z :=
  u32 (block * SPIFFS_PAGES_PER_BLOCK c + (SPIFFS_OBJ_LOOKUP_PAGES c + entry)).
Definition SPIFFS_OBJ_LOOKUP_ENTRY_TO_PADDR (c : spiffs_config) (block entry : Z) : Z :=
  u32 (SPIFFS_BLOCK_TO_PADDR c block + (SPIFFS_OBJ_LOOKUP_PAGES c + entry) * log_page_size c).
Definition SPIFFS_PAGE_TO_PADDR (c : spiffs_config) (page : Z) : Z :=
  u32 (phys_addr c + page * log_page_size c).
Definition SPIFFS_PADDR_TO_PAGE (c : spiffs_config) (addr : Z) : Z :=
  u32 (addr - phys_addr c) / log_page_size c.
Definition SPIFFS_PADDR_TO_PAGE_OFFSET (c : spiffs_config) (addr : Z) : Z :=
  u32 (addr - phys_addr c) mod log_page_size c.
Definition SPIFFS_BLOCK_FOR_PAGE (c : spiffs_config) (page : Z) : Z :=
  page / SPIFFS_PAGES_PER_BLOCK c.
Definition SPIFFS_PAGE_FOR_BLOCK (c : spiffs_config) (block : Z) : Z :=
  u32 (block * SPIFFS_PAGES_PER_BLOCK c).
Definition SPIFFS_OBJ_LOOKUP_ENTRY_FOR_PAGE (c : spiffs_config) (page : Z) : Z :=
  u32 (page mod SPIFFS_PAGES_PER_BLOCK c - SPIFFS_OBJ_LOOKUP_PAGES c).
Definition SPIFFS_DATA_PAGE_SIZE (c : spiffs_config) : Z :=
  u32 (log_page_size c - sizeof_page_header).
Definition SPIFFS_ERASE_COUNT_PADDR (c : spiffs_config) (bix : Z) : Z :=
  u32 (SPIFFS_BLOCK_TO_PADDR c bix + SPIFFS_OBJ_LOOKUP_PAGES c * log_page_size c - sizeof_obj_id).
Definition SPIFFS_MAGIC_PADDR (c : spiffs_config) (bix : Z) : Z :=
  u32 (SPIFFS_BLOCK_TO_PADDR c bix + SPIFFS_OBJ_LOOKUP_PAGES c * log_page_size c - sizeof_obj_id * 2).
Definition SPIFFS_CHECK_MAGIC_POSSIBLE (c : spiffs_config) : bool :=
  (SPIFFS_OBJ_LOOKUP_MAX_ENTRIES c mod (log_page_size c / sizeof_obj_id)) * sizeof_obj_id
    <=? u32 (log_page_size c - sizeof_obj_id * 2).
Definition SPIFFS_OBJ_HDR_IX_LEN (c : spiffs_config) : Z :=
  u32 (log_page_size c - sizeof_object_ix_header) / sizeof_page_ix.
Definition SPIFFS_OBJ_IX_LEN (c : spiffs_config) : Z :=
  u32 (log_page_size c - sizeof_object_ix) / sizeof_page_ix.
Definition SPIFFS_OBJ_IX_ENTRY (c : spiffs_config) (spix : Z) : Z :=
  if spix <? SPIFFS_OBJ_HDR_IX_LEN c then spix
  else (spix - SPIFFS_OBJ_HDR_IX_LEN c) mod SPIFFS_OBJ_IX_LEN c.
Definition SPIFFS_OBJ_IX_ENTRY_SPAN_IX (c : spiffs_config) (spix : Z) : Z :=
  if spix <? SPIFFS_OBJ_HDR_IX_LEN c then 0
  else 1 + (spix - SPIFFS_OBJ_HDR_IX_LEN c) / SPIFFS_OBJ_IX_LEN c.
(** [0x20140529 ^ page size], truncated to an object id. *)
Definition SPIFFS_MAGIC (c : spiffs_config) : Z := u16 (Z.lxor 538182953 (log_page_size c)).

(** ** On-flash encodings *)

Definition enc_page_header (h : spiffs_page_header) : list Z :=
  enc16 (ph_obj_id h) ++ enc16 (ph_span_ix h) ++ [ph_flags h].

Definition dec_page_header (l : list Z) : spiffs_page_header :=
  mkPh (dec16 (slice l 0 2)) (dec16 (slice l 2 2)) (zget l 4).

(** ** The flash driver

    The HAL functions are function pointers of the configuration.  A read gives
    the return code and the bytes stored to the destination. *)
Class SpiffsHal (F : Type) : Type := {
  hal_read : Z -> Z -> F -> Z * list Z;
  hal_write : Z -> list Z -> F -> Z * F;
  hal_erase : Z -> Z -> F -> Z * F
}.

(** [in_span a n x]: address [x] lies in [a .. a+n-1]. *)
Definition in_span (a n x : Z) : bool := (a <=? x) && (x <? a + n).

(** The contract a driver of a NOR flash fulfils ([spiffs_nucleus.h], "SPIFFS
    layout"): reads return the stored bytes, writing pulls ones to zeroes,
    erasing a sector sets all its bits. *)
Class NorHal (F : Type) `{SpiffsHal F} : Type := {
  hal_view : F -> Z -> Z;
  hal_cap : F -> Z;
  hal_sector : F -> Z;
  hal_byte : forall f a, is_byte (hal_view f a);
  hal_read_ok : forall f a n, 0 <= a -> 0 <= n -> a + n <= hal_cap f ->
    hal_read a n f = (SPIFFS_OK, vread (hal_view f) a n);
  hal_write_ok : forall f a l, 0 <= a -> a + zlen l <= hal_cap f ->
    exists f', hal_write a l f = (SPIFFS_OK, f') /\
      hal_cap f' = hal_cap f /\ hal_sector f' = hal_sector f /\
      forall x, hal_view f' x =
        if in_span a (zlen l) x then Z.land (hal_view f x) (zget l (x - a)) else hal_view f x;
  hal_erase_ok : forall f a n, 0 <= a -> 0 <= n -> a + n <= hal_cap f ->
    a mod hal_sector f = 0 -> n mod hal_sector f = 0 ->
    exists f', hal_erase a n f = (SPIFFS_OK, f') /\
      hal_cap f' = hal_cap f /\ hal_sector f' = hal_sector f /\
      forall x, hal_view f' x = if in_span a n x then 255 else hal_view f x
}.
