(* ===== verification/SpiffsGeom.v ===== *)
(** A NOR flash as an array of bytes, which makes the file system executable; and the
    geometry of a SPIFFS volume: the well-formed configurations, and that the
    address macros of [spiffs_nucleus.h] lay out blocks, pages and lookup
    entries without overlap and without overflowing their C types. *)
From S2P Require Import Prelude CSem SpiffsTypes.
From stdpp Require Import base list numbers option.

Open Scope Z_scope.

Record nor_flash : Type := mkNor {
  nor_sector : Z;
  nor_mem : list Z
}.

(** Bytes past the array read as erased. *)
Definition nor_view (f : nor_flash) (a : Z) : Z :=
  if a <? 0 then 255 else Z.land (default 255 (nor_mem f !! Z.to_nat a)) 255.

Definition nor_in_range (f : nor_flash) (a n : Z) : bool :=
  (0 <=? a) && (0 <=? n) && (a + n <=? zlen (nor_mem f)).

Definition nor_read (a n : Z) (f : nor_flash) : Z * list Z :=
  if nor_in_range f a n then (SPIFFS_OK, vread (nor_view f) a n)
  else (SPIFFS_ERR_INTERNAL, replicate (Z.to_nat n) 0).

Definition nor_write (a : Z) (l : list Z) (f : nor_flash) : Z * nor_flash :=
  if nor_in_range f a (zlen l) then
    (SPIFFS_OK, mkNor (nor_sector f)
       (splice (nor_mem f) a (zip_with Z.land (slice (nor_mem f) a (zlen l)) l)))
  else (SPIFFS_ERR_INTERNAL, f).

Definition nor_erase (a n : Z) (f : nor_flash) : Z * nor_flash :=
  if nor_in_range f a n && (a mod nor_sector f =? 0) && (n mod nor_sector f =? 0) then
    (SPIFFS_OK, mkNor (nor_sector f) (splice (nor_mem f) a (replicate (Z.to_nat n) 255)))
  else (SPIFFS_ERR_INTERNAL, f).

#[export] Instance nor_hal : SpiffsHal nor_flash := {
  hal_read := nor_read;
  hal_write := nor_write;
  hal_erase := nor_erase
}.

Lemma nor_in_range_true f a n : 0 <= a -> 0 <= n -> a + n <= zlen (nor_mem f) -> nor_in_range f a n = true.
Proof. intros. unfold nor_in_range. rewrite !andb_true_iff, !Z.leb_le. lia. Qed.

Lemma nor_view_zget f a : 0 <= a < zlen (nor_mem f) -> nor_view f a = Z.land (zget (nor_mem f) a) 255.
Proof.
  intros H. unfold nor_view, zget. destruct (a <? 0) eqn:E; bools; [lia|].
  rewrite (list_lookup_lookup_total_lt (nor_mem f) (Z.to_nat a)) by (unfold zlen in H; lia). done.
Qed.

Lemma nor_view_byte f a : is_byte (nor_view f a).
Proof.
  unfold is_byte, nor_view. destruct (a <? 0); [lia|]. rewrite land_255. apply Z.mod_pos_bound. lia.
Qed.

Lemma nor_view_out f a : zlen (nor_mem f) <= a -> nor_view f a = 255.
Proof.
  intros H. unfold nor_view. destruct (a <? 0) eqn:?; [done|].
  rewrite lookup_ge_None_2; [done|]. unfold zlen in H. lia.
Qed.

(** The view after replacing the bytes at [a] by [l]. *)
Lemma nor_view_splice f a l x : 0 <= a -> a + zlen l <= zlen (nor_mem f) ->
  nor_view (mkNor (nor_sector f) (splice (nor_mem f) a l)) x =
    if in_span a (zlen l) x then Z.land (zget l (x - a)) 255 else nor_view f x.
Proof.
  intros Ha Hl. pose proof (zlen_nonneg l). pose proof (length_splice (nor_mem f) a l Ha Hl) as Hs.
  unfold in_span. destruct (decide (0 <= x < zlen (nor_mem f))) as [Hx|Hx].
  - rewrite nor_view_zget by (cbn [nor_mem]; lia). cbn [nor_mem].
    rewrite zget_splice by lia. destruct (_ && _); [done|]. by rewrite nor_view_zget.
  - replace ((a <=? x) && (x <? a + zlen l)) with false.
    2: { symmetry. apply andb_false_iff. rewrite Z.leb_gt, Z.ltb_ge. lia. }
    destruct (decide (x < 0)).
    { unfold nor_view. assert ((x <? 0) = true) as -> by (apply Z.ltb_lt; lia). reflexivity. }
    rewrite !nor_view_out by (cbn [nor_mem]; lia). done.
Qed.

#[export] Program Instance nor_norhal : NorHal nor_flash := {
  hal_view := nor_view;
  hal_cap f := zlen (nor_mem f);
  hal_sector := nor_sector
}.
Next Obligation. apply nor_view_byte. Qed.
Next Obligation.
  intros f a n Ha Hn Hc. cbn in *. unfold nor_read. by rewrite nor_in_range_true.
Qed.
Next Obligation.
  intros f a l Ha Hc. pose proof (zlen_nonneg l). cbn in *. unfold nor_write. rewrite nor_in_range_true by lia. eexists. split; [done|].
  assert (Hz : zlen (zip_with Z.land (slice (nor_mem f) a (zlen l)) l) = zlen l).
  { unfold zlen at 1. rewrite length_zip_with.
    pose proof (length_slice (nor_mem f) a (zlen l)). unfold zlen in *. lia. }
  cbn [nor_mem nor_sector]. rewrite length_splice by lia. split; [done|]. split; [done|].
  intros x. rewrite nor_view_splice by lia. rewrite Hz.
  destruct (in_span a (zlen l) x) eqn:E; [|done]. unfold in_span in E. bools.
  rewrite nor_view_zget by lia. unfold zget at 1.
  rewrite (list_lookup_total_correct _ _ (Z.land (zget (nor_mem f) x) (zget l (x - a)))).
  - rewrite <- !Z.land_assoc. f_equal. apply Z.land_comm.
  - rewrite lookup_zip_with_Some. do 2 eexists. split; [done|].
    unfold zget, slice. split.
    + rewrite lookup_take, decide_True by (unfold zlen in *; lia). rewrite lookup_drop.
      replace (Z.to_nat a + Z.to_nat (x - a))%nat with (Z.to_nat x) by lia.
      apply list_lookup_lookup_total_lt. unfold zlen in *. lia.
    + apply list_lookup_lookup_total_lt. unfold zlen in *. lia.
Qed.
Next Obligation.
  intros f a n Ha Hn Hc Hsa Hsn. cbn in *. unfold nor_erase. rewrite nor_in_range_true by lia. rewrite Hsa, Hsn. cbn [andb Z.eqb].
  assert (Hz : zlen (replicate (Z.to_nat n) 255) = n) by (unfold zlen; rewrite length_replicate; lia).
  eexists. split; [done|]. cbn [nor_mem nor_sector]. rewrite length_splice by lia.
  split; [done|]. split; [done|]. intros x. rewrite nor_view_splice by lia. rewrite Hz.
  destruct (in_span a n x) eqn:E; [|done]. unfold in_span in E. bools.
  unfold zget. rewrite lookup_total_replicate_2 by lia. done.
Qed.

(** Geometry of a SPIFFS volume: the well-formed configurations, and that the
    address macros of [spiffs_nucleus.h] lay out blocks, pages and lookup
    entries without overlap and without overflowing their C types. *)

(** What [spiffs_config] documents about the fields, and that the lookup pages
    hold an entry per page plus magic and erase count (at least two data pages). *)
Definition valid_cfg (c : spiffs_config) : bool :=
  (48 <=? log_page_size c) && (log_page_size c mod 2 =? 0)
  && (0 <? log_block_size c) && (log_block_size c mod log_page_size c =? 0)
  && (0 <? phys_size c) && (phys_size c mod log_block_size c =? 0)
  && (0 <=? phys_addr c) && (phys_addr c + phys_size c <? 2 ^ 31)
  && (phys_size c / log_page_size c <? 65535)
  && (0 <? phys_erase_block c) && (log_block_size c mod phys_erase_block c =? 0)
  && (phys_addr c mod phys_erase_block c =? 0)
  && (SPIFFS_OBJ_LOOKUP_PAGES c + 1 <? SPIFFS_PAGES_PER_BLOCK c)
  && (2 * (SPIFFS_PAGES_PER_BLOCK c - SPIFFS_OBJ_LOOKUP_PAGES c) + 4 <=? SPIFFS_OBJ_LOOKUP_PAGES c * log_page_size c).

(** Short names for the quantities of the layout. *)
Abbreviation psz c := (log_page_size c).
Abbreviation bsz c := (log_block_size c).
Abbreviation ppb c := (SPIFFS_PAGES_PER_BLOCK c).
Abbreviation lup c := (SPIFFS_OBJ_LOOKUP_PAGES c).
Abbreviation lue c := (SPIFFS_OBJ_LOOKUP_MAX_ENTRIES c).
Abbreviation paddr c p := (SPIFFS_PAGE_TO_PADDR c p).
Abbreviation baddr c b := (SPIFFS_BLOCK_TO_PADDR c b).

(** Number of blocks and pages of the volume. *)
Definition blocks (c : spiffs_config) : Z := phys_size c / log_block_size c.
Abbreviation pages c := (SPIFFS_MAX_PAGES c).

(** The facts about a well-formed configuration the proofs use. *)
Record wf_cfg (c : spiffs_config) : Prop := {
  wf_psz : 48 <= psz c;
  wf_psz_even : psz c mod 2 = 0;
  wf_bsz : bsz c = ppb c * psz c;
  wf_phys : phys_size c = blocks c * bsz c;
  wf_pages : pages c = blocks c * ppb c;
  wf_pages_lt : pages c < 65535;
  wf_blocks : 0 < blocks c;
  wf_addr : 0 <= phys_addr c;
  wf_end : phys_addr c + phys_size c < 2 ^ 31;
  wf_erase : 0 < phys_erase_block c;
  wf_erase_bsz : bsz c mod phys_erase_block c = 0;
  wf_erase_addr : phys_addr c mod phys_erase_block c = 0;
  wf_lup : 1 <= lup c < ppb c - 1;
  wf_fit : 2 * (ppb c - lup c) + 4 <= lup c * psz c
}.

Lemma valid_cfg_wf c : valid_cfg c = true -> wf_cfg c.
Proof.
  unfold valid_cfg. intros H. bools.
  assert (Hb : bsz c = ppb c * psz c).
  { unfold SPIFFS_PAGES_PER_BLOCK. pose proof (Z.div_mod (bsz c) (psz c) ltac:(lia)). lia. }
  assert (Hp : phys_size c = blocks c * bsz c).
  { unfold blocks. pose proof (Z.div_mod (phys_size c) (bsz c) ltac:(lia)). lia. }
  assert (Hbl : 0 < blocks c) by nia.
  assert (Hpg : pages c = blocks c * ppb c).
  { unfold SPIFFS_MAX_PAGES. rewrite Hp, Hb, Z.mul_assoc. apply Z.div_mul. lia. }
  assert (Hl : 1 <= lup c) by (unfold SPIFFS_OBJ_LOOKUP_PAGES; apply Z.le_max_l).
  split; first [done|lia].
Qed.

#[export] Hint Resolve valid_cfg_wf : core.

Section geom.
Context (c : spiffs_config) (Hwf : wf_cfg c).

Lemma ppb_pos : 2 <= ppb c < 65535.
Proof using Hwf. destruct Hwf. nia. Qed.

Lemma bsz_lt : 0 < bsz c < 2 ^ 31.
Proof using Hwf. pose proof ppb_pos. destruct Hwf. nia. Qed.

Lemma psz_lt : psz c < 2 ^ 31.
Proof using Hwf. pose proof ppb_pos. pose proof bsz_lt. destruct Hwf. nia. Qed.

Lemma lue_eq : lue c = ppb c - lup c.
Proof using Hwf.
  pose proof ppb_pos. destruct Hwf. unfold SPIFFS_OBJ_LOOKUP_MAX_ENTRIES. cint. lia.
Qed.

Lemma lue_range : 2 <= lue c < 65535.
Proof using Hwf. rewrite lue_eq. pose proof ppb_pos. destruct Hwf. lia. Qed.

(** Blocks lie one after the other in the volume. *)
Lemma baddr_eq b : 0 <= b <= blocks c -> baddr c b = phys_addr c + b * bsz c.
Proof using Hwf.
  intros. pose proof bsz_lt. destruct Hwf. unfold SPIFFS_BLOCK_TO_PADDR. apply u32_small. nia.
Qed.

Lemma baddr_range b : 0 <= b < blocks c ->
  phys_addr c <= baddr c b /\ baddr c b + bsz c <= phys_addr c + phys_size c.
Proof using Hwf. intros. pose proof bsz_lt. rewrite baddr_eq by lia. destruct Hwf. nia. Qed.

Lemma paddr_eq p : 0 <= p <= pages c -> paddr c p = phys_addr c + p * psz c.
Proof using Hwf. intros. destruct Hwf. unfold SPIFFS_PAGE_TO_PADDR. apply u32_small. nia. Qed.

Lemma paddr_range p : 0 <= p < pages c ->
  phys_addr c <= paddr c p /\ paddr c p + psz c <= phys_addr c + phys_size c.
Proof using Hwf. intros. rewrite paddr_eq by lia. destruct Hwf. nia. Qed.

(** The page an address lies in, and the offset in it. *)
Lemma paddr_to_page p off : 0 <= p < pages c -> 0 <= off < psz c ->
  SPIFFS_PADDR_TO_PAGE c (paddr c p + off) = p /\ SPIFFS_PADDR_TO_PAGE_OFFSET c (paddr c p + off) = off.
Proof using Hwf.
  intros Hp Ho. pose proof (paddr_range p Hp). rewrite paddr_eq in * by lia.
  unfold SPIFFS_PADDR_TO_PAGE, SPIFFS_PADDR_TO_PAGE_OFFSET.
  destruct Hwf. rewrite u32_small by lia.
  replace (phys_addr c + p * psz c + off - phys_addr c) with (off + p * psz c) by lia.
  rewrite Z.div_add, Z_mod_plus_full, Z.div_small, Z.mod_small by lia. lia.
Qed.

(** Entry [e] of block [b] belongs to page [b * ppb + lup + e]. *)
Definition entry_pix (b e : Z) : Z := b * ppb c + lup c + e.

Lemma entry_pix_range b e : 0 <= b < blocks c -> 0 <= e < lue c ->
  0 <= entry_pix b e < pages c.
Proof using Hwf. intros. rewrite lue_eq in *. unfold entry_pix. destruct Hwf. nia. Qed.

Lemma entry_to_pix b e : 0 <= b < blocks c -> 0 <= e < lue c ->
  u16 (SPIFFS_OBJ_LOOKUP_ENTRY_TO_PIX c b e) = entry_pix b e.
Proof using Hwf.
  intros Hb He. pose proof (entry_pix_range b e Hb He). unfold entry_pix in *.
  destruct Hwf. unfold SPIFFS_OBJ_LOOKUP_ENTRY_TO_PIX. rewrite u32_small by lia. rewrite u16_small; lia.
Qed.

Lemma entry_to_paddr b e : 0 <= b < blocks c -> 0 <= e < lue c ->
  SPIFFS_OBJ_LOOKUP_ENTRY_TO_PADDR c b e = paddr c (entry_pix b e).
Proof using Hwf.
  intros Hb He. pose proof (entry_pix_range b e Hb He). pose proof (paddr_range _ H).
  rewrite paddr_eq in * by lia.
  unfold SPIFFS_OBJ_LOOKUP_ENTRY_TO_PADDR. rewrite baddr_eq by lia.
  destruct Hwf. rewrite u32_small; unfold entry_pix in *; nia.
Qed.

Lemma block_for_entry b e : 0 <= b < blocks c -> 0 <= e < lue c ->
  SPIFFS_BLOCK_FOR_PAGE c (entry_pix b e) = b /\ SPIFFS_OBJ_LOOKUP_ENTRY_FOR_PAGE c (entry_pix b e) = e.
Proof using Hwf.
  intros Hb He. pose proof lue_range. rewrite lue_eq in *. pose proof ppb_pos. destruct Hwf.
  unfold SPIFFS_BLOCK_FOR_PAGE, SPIFFS_OBJ_LOOKUP_ENTRY_FOR_PAGE, entry_pix.
  replace (b * ppb c + lup c + e) with ((lup c + e) + b * ppb c) by lia.
  rewrite Z.div_add, Z_mod_plus_full, Z.div_small, Z.mod_small by lia. cint. lia.
Qed.

(** Every page of a block that is not a lookup page has an entry. *)
Lemma page_is_entry p : 0 <= p < pages c -> lup c <= p mod ppb c ->
  let b := SPIFFS_BLOCK_FOR_PAGE c p in let e := SPIFFS_OBJ_LOOKUP_ENTRY_FOR_PAGE c p in
  0 <= b < blocks c /\ 0 <= e < lue c /\ p = entry_pix b e.
Proof using Hwf.
  intros Hp Hl b e. subst b e. pose proof ppb_pos. rewrite lue_eq. destruct Hwf.
  unfold SPIFFS_BLOCK_FOR_PAGE, SPIFFS_OBJ_LOOKUP_ENTRY_FOR_PAGE, entry_pix.
  pose proof (Z.mod_pos_bound p (ppb c) ltac:(lia)). pose proof (Z.div_mod p (ppb c) ltac:(lia)).
  cint. split; [|lia]. split; [apply Z.div_pos; lia|]. apply Z.div_lt_upper_bound; lia.
Qed.

(** Lookup page [k] of block [b], as addressed by the searches. *)
Lemma lu_page_addr b k : 0 <= b < blocks c -> 0 <= k < lup c ->
  u32 (u32 (b * bsz c) + paddr c k) = paddr c (b * ppb c + k) /\ 0 <= b * ppb c + k < pages c.
Proof using Hwf.
  intros Hb Hk. pose proof ppb_pos. pose proof bsz_lt. destruct Hwf.
  assert (0 <= b * ppb c + k < pages c) by nia. split; [|done].
  rewrite !paddr_eq by nia. rewrite (u32_small (b * bsz c)) by nia. rewrite u32_small; nia.
Qed.

(** Lookup entries lie in the lookup pages, before magic and erase count. *)
Lemma lu_entry_addr b e : 0 <= b < blocks c -> 0 <= e < lue c ->
  u32 (baddr c b + e * sizeof_obj_id) = baddr c b + 2 * e
  /\ baddr c b + 2 * e + 2 <= baddr c b + lup c * psz c - 4.
Proof using Hwf.
  intros Hb He. pose proof (baddr_range b Hb). rewrite lue_eq in *. pose proof bsz_lt.
  destruct Hwf. unfold sizeof_obj_id. rewrite u32_small; nia.
Qed.
End geom.
