(* ===== verification/SpiffsCache.v ===== *)
(** The page cache of SPIFFS ([spiffs_cache.c]): read pages are written through,
    write pages belong to file descriptors.  Every flash access of the file
    system goes through [spiffs_phys_rd] and [spiffs_phys_wr].  Then the invariant of the
    cache. *)
From S2P Require Import Prelude CSem SpiffsTypes SpiffsGeom.
From stdpp Require Import base list numbers option.

Open Scope Z_scope.

Section defs.
  Context {F : Type} {hal : SpiffsHal F}.

(** [SPIFFS_HAL_READ], [SPIFFS_HAL_WRITE], [SPIFFS_HAL_ERASE]. *)
Definition SPIFFS_HAL_READ (addr len : Z) : C (spiffs F) (Z * list Z) :=
  gets (fun s => hal_read addr len (flash s)).

Definition SPIFFS_HAL_WRITE (addr : Z) (src : list Z) : C (spiffs F) Z :=
  r ← gets (fun s => hal_write addr src (flash s));
  modify (set_flash r.2);; mret r.1.

Definition SPIFFS_HAL_ERASE (addr len : Z) : C (spiffs F) Z :=
  r ← gets (fun s => hal_erase addr len (flash s));
  modify (set_flash r.2);; mret r.1.

(** [spiffs_get_cache(fs)], used through a pointer that must be valid. *)
Definition spiffs_get_cache : C (spiffs F) spiffs_cache :=
  o ← gets cache;
  match o with Some ca => mret ca | None => undefined end.

Definition put_cache (ca : spiffs_cache) : C (spiffs F) unit := modify (set_cache (Some ca)).

(** [spiffs_get_cache_page_hdr(fs, cache, ix)]. *)
Definition spiffs_get_cache_page_hdr (ca : spiffs_cache) (ix : Z) : C (spiffs F) spiffs_cache_page :=
  match cpages ca !! Z.to_nat ix with Some cp => mret cp | None => undefined end.

Definition upd_cpage (ix : Z) (f : spiffs_cache_page -> spiffs_cache_page) : C (spiffs F) unit :=
  ca ← spiffs_get_cache;
  cp ← spiffs_get_cache_page_hdr ca ix;
  put_cache (set_cpages (zset (cpages ca) ix (f cp)) ca).

(** The [for] loops over the cache pages: the first page that satisfies [p]. *)
Fixpoint cp_search (p : Z -> spiffs_cache_page -> bool) (i : Z) (l : list spiffs_cache_page) : option Z :=
  match l with
  | [] => None
  | cp :: l' => if p i cp then Some i else cp_search p (i + 1) l'
  end.

Definition spiffs_cache_page_get (pix : Z) : C (spiffs F) (option Z) :=
  ca ← spiffs_get_cache;
  if Z.land (cpage_use_map ca) (cpage_use_mask ca) =? 0 then mret None
  else
    let hit i cp := hasb (cpage_use_map ca) (Z.shiftl 1 i)
                    && negb (hasb (cp_flags cp) SPIFFS_CACHE_FLAG_TYPE_WR) && (cp_pix cp =? pix) in
    match cp_search hit 0 (cpages ca) with
    | Some i => upd_cpage i (set_cp_last_access (c_last_access ca));; mret (Some i)
    | None => mret None
    end.

Definition spiffs_cache_page_free (ix : Z) (write_back : bool) : C (spiffs F) Z :=
  ca ← spiffs_get_cache;
  c ← gets cfg;
  cp ← spiffs_get_cache_page_hdr ca ix;
  if hasb (cpage_use_map ca) (Z.shiftl 1 ix) then
    res ← (if write_back && negb (hasb (cp_flags cp) SPIFFS_CACHE_FLAG_TYPE_WR)
              && hasb (cp_flags cp) SPIFFS_CACHE_FLAG_DIRTY
           then SPIFFS_HAL_WRITE (SPIFFS_PAGE_TO_PADDR c (cp_pix cp)) (cp_mem cp)
           else mret SPIFFS_OK);
    upd_cpage ix (set_cp_flags 0);;
    ca ← spiffs_get_cache;
    put_cache (set_cpage_use_map (Z.ldiff (cpage_use_map ca) (Z.shiftl 1 ix)) ca);;
    mret res
  else mret SPIFFS_OK.

(** The scan of [spiffs_cache_page_remove_oldest]: candidate index and its age. *)
Fixpoint oldest_scan (last_access flag_mask flags : Z) (i : Z) (l : list spiffs_cache_page)
    (cand_ix oldest_val : Z) : Z :=
  match l with
  | [] => cand_ix
  | cp :: l' =>
      let age := u32 (last_access - cp_last_access cp) in
      if (oldest_val <? age) && (Z.land (cp_flags cp) flag_mask =? flags)
      then oldest_scan last_access flag_mask flags (i + 1) l' i age
      else oldest_scan last_access flag_mask flags (i + 1) l' cand_ix oldest_val
  end.

Definition spiffs_cache_page_remove_oldest (flag_mask flags : Z) : C (spiffs F) Z :=
  ca ← spiffs_get_cache;
  if negb (Z.land (cpage_use_map ca) (cpage_use_mask ca) =? cpage_use_mask ca) then mret SPIFFS_OK
  else
    let cand_ix := oldest_scan (c_last_access ca) flag_mask flags 0 (cpages ca) (-1) 0 in
    if 0 <=? cand_ix then spiffs_cache_page_free cand_ix true else mret SPIFFS_OK.

Definition spiffs_cache_page_allocate : C (spiffs F) (option Z) :=
  ca ← spiffs_get_cache;
  if cpage_use_map ca =? 4294967295 then mret None
  else
    match cp_search (fun i _ => negb (hasb (cpage_use_map ca) (Z.shiftl 1 i))) 0 (cpages ca) with
    | Some i =>
        put_cache (set_cpage_use_map (Z.lor (cpage_use_map ca) (Z.shiftl 1 i)) ca);;
        upd_cpage i (set_cp_last_access (c_last_access ca));;
        mret (Some i)
    | None => mret None
    end.

Definition spiffs_cache_drop_page (pix : Z) : C (spiffs F) unit :=
  o ← spiffs_cache_page_get pix;
  match o with
  | Some i =>
      ca ← spiffs_get_cache;
      cp ← spiffs_get_cache_page_hdr ca i;
      _ ← spiffs_cache_page_free (cp_ix cp) false;
      mret tt
  | None => mret tt
  end.

(** [memcpy(dst, &mem[offset of addr], len)] at the end of [spiffs_phys_rd];
    a range that leaves the page memory is undefined. *)
Definition cpage_copy_out (ix addr len res : Z) : C (spiffs F) (Z * list Z) :=
  c ← gets cfg;
  ca ← spiffs_get_cache;
  cp ← spiffs_get_cache_page_hdr ca ix;
  let off := SPIFFS_PADDR_TO_PAGE_OFFSET c addr in
  if off + len <=? zlen (cp_mem cp) then mret (res, slice (cp_mem cp) off len) else undefined.

Definition spiffs_phys_rd (op fh addr len : Z) : C (spiffs F) (Z * list Z) :=
  c ← gets cfg;
  o ← spiffs_cache_page_get (u16 (SPIFFS_PADDR_TO_PAGE c addr));
  ca ← spiffs_get_cache;
  put_cache (set_c_last_access (u32 (c_last_access ca + 1)) ca);;
  match o with
  | Some i =>
      upd_cpage i (set_cp_last_access (u32 (c_last_access ca + 1)));;
      cpage_copy_out i addr len SPIFFS_OK
  | None =>
      if Z.land op SPIFFS_OP_TYPE_MASK =? SPIFFS_OP_T_OBJ_LU2 then SPIFFS_HAL_READ addr len
      else
        res ← spiffs_cache_page_remove_oldest SPIFFS_CACHE_FLAG_TYPE_WR 0;
        o ← spiffs_cache_page_allocate;
        match o with
        | None => undefined (* cp->ix through a null pointer *)
        | Some i =>
            upd_cpage i (fun cp => set_cp_pix (u16 (SPIFFS_PADDR_TO_PAGE c addr))
                                     (set_cp_flags SPIFFS_CACHE_FLAG_WRTHRU cp));;
            r ← SPIFFS_HAL_READ (u32 (addr - SPIFFS_PADDR_TO_PAGE_OFFSET c addr)) (log_page_size c);
            upd_cpage i (set_cp_mem r.2);;
            cpage_copy_out i addr len (if r.1 =? SPIFFS_OK then res else r.1)
        end
  end.

Definition spiffs_phys_wr (op fh addr : Z) (src : list Z) : C (spiffs F) Z :=
  c ← gets cfg;
  let pix := u16 (SPIFFS_PADDR_TO_PAGE c addr) in
  o ← spiffs_cache_page_get pix;
  match o with
  | Some i =>
      if negb (Z.land op SPIFFS_OP_COM_MASK =? SPIFFS_OP_C_WRTHRU) then
        ca ← spiffs_get_cache;
        cp ← spiffs_get_cache_page_hdr ca i;
        if (Z.land op SPIFFS_OP_COM_MASK =? SPIFFS_OP_C_DELE)
           && negb (Z.land op SPIFFS_OP_TYPE_MASK =? SPIFFS_OP_T_OBJ_LU) then
          _ ← spiffs_cache_page_free (cp_ix cp) false;
          SPIFFS_HAL_WRITE addr src
        else
          let off := SPIFFS_PADDR_TO_PAGE_OFFSET c addr in
          if off + zlen src <=? zlen (cp_mem cp) then
            upd_cpage i (fun cp => set_cp_mem (splice (cp_mem cp) off src) cp);;
            ca ← spiffs_get_cache;
            put_cache (set_c_last_access (u32 (c_last_access ca + 1)) ca);;
            upd_cpage i (set_cp_last_access (u32 (c_last_access ca + 1)));;
            if hasb (cp_flags cp) SPIFFS_CACHE_FLAG_WRTHRU then SPIFFS_HAL_WRITE addr src
            else mret SPIFFS_OK
          else undefined
      else SPIFFS_HAL_WRITE addr src
  | None => SPIFFS_HAL_WRITE addr src
  end.

(** Access to the descriptor a [spiffs_fd *] points to: element [i] of [fd_space]. *)
Definition fd_at (i : Z) : C (spiffs F) spiffs_fd :=
  l ← gets fds;
  match l !! Z.to_nat i with Some fd => mret fd | None => undefined end.

Definition upd_fd (i : Z) (f : spiffs_fd -> spiffs_fd) : C (spiffs F) unit :=
  fd ← fd_at i;
  modify (fun s => set_fds (zset (fds s) i (f fd)) s).

Definition spiffs_cache_page_get_by_fd (fd : spiffs_fd) : C (spiffs F) (option Z) :=
  ca ← spiffs_get_cache;
  if Z.land (cpage_use_map ca) (cpage_use_mask ca) =? 0 then mret None
  else
    mret (cp_search (fun i cp => hasb (cpage_use_map ca) (Z.shiftl 1 i)
                                 && hasb (cp_flags cp) SPIFFS_CACHE_FLAG_TYPE_WR
                                 && (cp_pix cp =? fd_obj_id fd)) 0 (cpages ca)).

Definition spiffs_cache_page_allocate_by_fd (fd_i : Z) : C (spiffs F) (option Z) :=
  _ ← spiffs_cache_page_remove_oldest SPIFFS_CACHE_FLAG_TYPE_WR 0;
  o ← spiffs_cache_page_allocate;
  match o with
  | None => mret None
  | Some i =>
      fd ← fd_at fd_i;
      upd_cpage i (fun cp => set_cp_pix (fd_obj_id fd) (set_cp_flags SPIFFS_CACHE_FLAG_TYPE_WR cp));;
      upd_fd fd_i (set_fd_cache_page (Some i));;
      mret (Some i)
  end.

Definition spiffs_cache_fd_release (ocp : option Z) : C (spiffs F) unit :=
  match ocp with
  | None => mret tt
  | Some i =>
      modify (fun s => set_fds ((fun cur_fd =>
        if negb (fd_file_nbr cur_fd =? 0) && bool_decide (fd_cache_page cur_fd = Some i)
        then set_fd_cache_page None cur_fd else cur_fd) <$> fds s) s);;
      ca ← spiffs_get_cache;
      cp ← spiffs_get_cache_page_hdr ca i;
      _ ← spiffs_cache_page_free (cp_ix cp) false;
      upd_cpage i (set_cp_pix 0)
  end.

Definition sizeof_spiffs_cache : Z := 20.
Definition sizeof_spiffs_cache_page : Z := 20.

Definition SPIFFS_CACHE_PAGE_SIZE (c : spiffs_config) : Z := u32 (sizeof_spiffs_cache_page + log_page_size c).

Fixpoint cache_mask (n : nat) (mask : Z) : Z :=
  match n with
  | O => mask
  | S n' => cache_mask n' (Z.lor (u32 (Z.shiftl mask 1)) 1)
  end.

(** [spiffs_cache_init] on [cache_size] bytes; [present] is [fs->cache != 0].  A
    size below the cache header makes the entry count wrap: undefined. *)
Definition spiffs_cache_init (present : bool) : C (spiffs F) unit :=
  if negb present then mret tt
  else
    c ← gets cfg;
    sz ← gets cache_size;
    if sz <? sizeof_spiffs_cache then undefined
    else
      let cache_entries := s32 (u32 (sz - sizeof_spiffs_cache) / SPIFFS_CACHE_PAGE_SIZE c) in
      if cache_entries <=? 0 then mret tt
      else
        let mask := cache_mask (Z.to_nat cache_entries) 0 in
        let count := u8 cache_entries in
        let pages := (fun i => mkCp 0 (u8 i) 0 0 0 0 (replicate (Z.to_nat (log_page_size c)) 0)) <$> seqZ 0 count in
        put_cache (mkCache count 0 (Z.ldiff 4294967295 mask) mask pages).

End defs.

(** The invariant of the page cache and of the volume it caches: every read page
    in use mirrors its flash page ([cache_inv]); [fs_ok] adds the geometry.  The
    rules in this file are what the proofs about [spiffs_phys_rd] and
    [spiffs_phys_wr] are built from. *)

(** ** Bits of the use map *)

Lemma hasb_bit m i : 0 <= i -> hasb m (Z.shiftl 1 i) = Z.testbit m i.
Proof.
  intros Hi. unfold hasb. rewrite Z.shiftl_1_l. destruct (Z.testbit m i) eqn:E.
  - apply negb_true_iff, Z.eqb_neq. intros H.
    assert (Z.testbit (Z.land m (2 ^ i)) i = false) as H2 by (rewrite H; apply Z.bits_0).
    rewrite Z.land_spec, Z.pow2_bits_true, E in H2 by lia. done.
  - apply negb_false_iff, Z.eqb_eq. apply Z.bits_inj'. intros k Hk.
    rewrite Z.land_spec, Z.bits_0, Z.pow2_bits_eqb by lia.
    destruct (i =? k) eqn:E2; bools; [subst; by rewrite E|by rewrite andb_false_r].
Qed.

Lemma testbit_set m i j : 0 <= i -> Z.testbit (Z.lor m (Z.shiftl 1 i)) j = Z.testbit m j || (i =? j).
Proof. intros. by rewrite Z.lor_spec, Z.shiftl_1_l, Z.pow2_bits_eqb. Qed.

Lemma testbit_clear m i j : 0 <= i -> Z.testbit (Z.ldiff m (Z.shiftl 1 i)) j = Z.testbit m j && negb (i =? j).
Proof. intros. by rewrite Z.ldiff_spec, Z.shiftl_1_l, Z.pow2_bits_eqb. Qed.

(** [cp_search] finds the first page that satisfies the predicate. *)
Lemma cp_search_Some p i l j : cp_search p i l = Some j ->
  exists k cp, j = i + Z.of_nat k /\ l !! k = Some cp /\ p j cp = true.
Proof.
  revert i. induction l as [|cp l IH]; intros i; cbn; [done|].
  destruct (p i cp) eqn:E.
  - intros [= <-]. exists 0%nat, cp. cbn. split; [lia|done].
  - intros H. apply IH in H as (k & cp' & -> & ? & ?). exists (S k), cp'. split; [lia|done].
Qed.

Lemma cp_search_None p i l : cp_search p i l = None ->
  forall k cp, l !! k = Some cp -> p (i + Z.of_nat k) cp = false.
Proof.
  revert i. induction l as [|cp l IH]; intros i; cbn; [done|].
  destruct (p i cp) eqn:E; [done|]. intros H [|k] cp'; cbn.
  - intros [= <-]. by rewrite Z.add_0_r.
  - intros Hk. rewrite <- (IH _ H k cp' Hk). f_equal. lia.
Qed.

(** [oldest_scan] keeps its candidate only if no page is older. *)
Lemma oldest_scan_spec la m f l : forall i cand old,
  let r := oldest_scan la m f i l cand old in
  (r = cand /\ forall k cp, l !! k = Some cp -> Z.land (cp_flags cp) m = f -> u32 (la - cp_last_access cp) <= old)
  \/ (exists k cp, r = i + Z.of_nat k /\ l !! k = Some cp /\ Z.land (cp_flags cp) m = f).
Proof.
  induction l as [|cp l IH]; intros i cand old; cbn; [by left|].
  destruct ((old <? u32 (la - cp_last_access cp)) && (Z.land (cp_flags cp) m =? f)) eqn:E.
  - right. bools. destruct (IH (i + 1) i (u32 (la - cp_last_access cp))) as [[-> _]|(k & cp' & -> & ? & ?)].
    + exists 0%nat, cp. split; [lia|done].
    + exists (S k), cp'. split; [lia|done].
  - destruct (IH (i + 1) cand old) as [[Hr Hall]|(k & cp' & Hr & ? & ?)]; [left|right].
    + split; [done|]. intros [|k] cp'; cbn; [|eauto]. intros [= <-] Hf.
      apply andb_false_iff in E as [E|E]; bools; [lia|done].
    + exists (S k), cp'. split; [lia|done].
Qed.

(** ** The invariant *)

Definition in_use (ca : spiffs_cache) (i : nat) : bool := Z.testbit (cpage_use_map ca) (Z.of_nat i).
Definition is_wr (cp : spiffs_cache_page) : bool := hasb (cp_flags cp) SPIFFS_CACHE_FLAG_TYPE_WR.

(** A cache page at index [i] in a cache of age [la]: a read page in use ([u]) is
    clean, written through, and mirrors its flash page if that is in [coh]. *)
Record page_ok (c : spiffs_config) (v : Z -> Z) (coh : Z -> Prop) (la : Z) (u : bool) (i : nat)
    (cp : spiffs_cache_page) : Prop := {
  po_ix : cp_ix cp = Z.of_nat i;
  po_mem : zlen (cp_mem cp) = psz c;
  po_age : 0 <= cp_last_access cp <= la;
  po_read : u = true -> is_wr cp = false ->
    cp_flags cp = SPIFFS_CACHE_FLAG_WRTHRU /\ 0 <= cp_pix cp < pages c /\
    (coh (cp_pix cp) -> cp_mem cp = vread v (paddr c (cp_pix cp)) (psz c))
}.

(** [cache_inv c v coh T ca]: [v] are the flash contents, [coh] the pages on which
    the cache must agree with them; the access counter has room for [T] steps. *)
Record cache_inv (c : spiffs_config) (v : Z -> Z) (coh : Z -> Prop) (T : Z) (ca : spiffs_cache) : Prop := {
  ci_len : 1 <= zlen (cpages ca) <= 31;
  ci_mask : cpage_use_mask ca = Z.ones (zlen (cpages ca));
  ci_map : 0 <= cpage_use_map ca;
  ci_high : forall k, zlen (cpages ca) <= k -> Z.testbit (cpage_use_map ca) k = (k <? 32);
  ci_pages : forall i cp, cpages ca !! i = Some cp -> page_ok c v coh (c_last_access ca) (in_use ca i) i cp;
  ci_uniq : forall i j cp cp', cpages ca !! i = Some cp -> cpages ca !! j = Some cp' ->
    in_use ca i = true -> in_use ca j = true -> is_wr cp = false -> is_wr cp' = false ->
    cp_pix cp = cp_pix cp' -> i = j;
  ci_room : exists i cp, cpages ca !! i = Some cp /\ (in_use ca i = false \/ is_wr cp = false);
  ci_tick : 0 <= T /\ 0 <= c_last_access ca /\ c_last_access ca + T < 2 ^ 32
}.

(** Page [pix] is not cached. *)
Definition uncached (pix : Z) (ca : spiffs_cache) : Prop :=
  forall i cp, cpages ca !! i = Some cp -> in_use ca i = true -> is_wr cp = false -> cp_pix cp <> pix.

(** The cache page at index [i] replaced. *)
Definition put_cpage (ca : spiffs_cache) (i : nat) (cp : spiffs_cache_page) : spiffs_cache :=
  set_cpages (<[i := cp]> (cpages ca)) ca.

Lemma insert_lookup_cases {A} (l : list A) i j x y : <[i := x]> l !! j = Some y ->
  (i = j /\ y = x /\ (i < length l)%nat) \/ (i <> j /\ l !! j = Some y).
Proof.
  intros H. apply list_lookup_insert_Some in H as [(-> & -> & ?)|[? ?]]; [left|right]; done.
Qed.

Section inv.
Context (c : spiffs_config) (v : Z -> Z) (coh : Z -> Prop).

(** Replacing a page by one that is in order and does not alias another. *)
Lemma cache_inv_put T ca i cp cp' :
  cache_inv c v coh T ca -> cpages ca !! i = Some cp ->
  page_ok c v coh (c_last_access ca) (in_use ca i) i cp' ->
  (is_wr cp' = true -> is_wr cp = true) ->
  (in_use ca i = true -> is_wr cp' = false ->
     forall j cpj, cpages ca !! j = Some cpj -> j <> i -> in_use ca j = true -> is_wr cpj = false ->
     cp_pix cpj <> cp_pix cp') ->
  cache_inv c v coh T (put_cpage ca i cp').
Proof.
  intros [] Hi Hok Hwr Hu. unfold put_cpage.
  split; cbn [cpages set_cpages cpage_use_map cpage_use_mask c_last_access]; auto.
  - unfold zlen in *. by rewrite length_insert.
  - unfold zlen in *. by rewrite length_insert.
  - unfold zlen in *. by rewrite length_insert.
  - intros j cpj Hj. apply insert_lookup_cases in Hj as [(-> & -> & _)|(? & ?)]; [done|by apply ci_pages0].
  - intros j k cpj cpk Hj Hk Uj Uk Rj Rk Hpix.
    change (in_use ca j = true) in Uj. change (in_use ca k = true) in Uk.
    apply insert_lookup_cases in Hj as [(-> & -> & _)|(? & ?)];
    apply insert_lookup_cases in Hk as [(-> & -> & _)|(? & ?)]; [done| | |by eapply ci_uniq0].
    + exfalso. eapply Hu; eauto.
    + exfalso. eapply Hu; eauto.
  - destruct ci_room0 as (j & cpj & Hj & Hr). destruct (decide (i = j)) as [->|Hne].
    + exists j, cp'. rewrite list_lookup_insert_eq by (by eapply lookup_lt_Some).
      split; [done|]. assert (cpj = cp) as -> by congruence. destruct Hr as [Hr|Hr]; [by left|right].
      destruct (is_wr cp') eqn:E; [|done]. rewrite Hwr in Hr by done. done.
    + exists j, cpj. rewrite list_lookup_insert_ne by done. done.
Qed.

(** Updating the age of a page. *)
Lemma cache_inv_touch T ca i cp a :
  cache_inv c v coh T ca -> cpages ca !! i = Some cp -> 0 <= a <= c_last_access ca ->
  cache_inv c v coh T (put_cpage ca i (set_cp_last_access a cp)).
Proof.
  intros Hinv Hi Ha. eapply cache_inv_put; eauto.
  - destruct (ci_pages _ _ _ _ _ Hinv _ _ Hi). split; auto.
  - intros Hu Hr j cpj Hj Hne Huj Hrj Heq. apply Hne. eapply (ci_uniq _ _ _ _ _ Hinv); eauto.
Qed.

Lemma cache_inv_tick T ca : cache_inv c v coh T ca -> 1 <= T ->
  cache_inv c v coh (T - 1) (set_c_last_access (c_last_access ca + 1) ca).
Proof.
  intros [] HT. split; auto.
  - intros i cp Hi. destruct (ci_pages0 i cp Hi). split; auto. cbn. lia.
  - cbn. lia.
Qed.

(** Releasing a page. *)
Lemma cache_inv_free T ca i cp :
  cache_inv c v coh T ca -> cpages ca !! i = Some cp ->
  cache_inv c v coh T
    (set_cpage_use_map (Z.ldiff (cpage_use_map ca) (Z.shiftl 1 (Z.of_nat i))) (put_cpage ca i (set_cp_flags 0 cp))).
Proof.
  intros [] Hi. assert (Hil : Z.of_nat i < zlen (cpages ca)) by (apply lookup_lt_Some in Hi; unfold zlen; lia).
  assert (Hlen : zlen (<[i:=set_cp_flags 0 cp]> (cpages ca)) = zlen (cpages ca))
    by (unfold zlen; by rewrite length_insert).
  assert (Hbit : forall j ca', cpage_use_map ca' = Z.ldiff (cpage_use_map ca) (Z.shiftl 1 (Z.of_nat i)) ->
            in_use ca' j = in_use ca j && negb (Z.of_nat i =? Z.of_nat j)).
  { intros j ca' E. unfold in_use. rewrite E. by rewrite testbit_clear by lia. }
  split; cbn [cpages set_cpages set_cpage_use_map put_cpage cpage_use_map cpage_use_mask c_last_access];
    rewrite ?Hlen; auto.
  - rewrite Z.ldiff_nonneg. by left.
  - intros k Hk. rewrite testbit_clear by lia. rewrite ci_high0 by lia.
    replace (Z.of_nat i =? k) with false by (symmetry; apply Z.eqb_neq; lia). by rewrite andb_true_r.
  - intros j cpj Hj. rewrite (Hbit j) by done.
    apply insert_lookup_cases in Hj as [(<- & -> & _)|(? & Hj)].
    + destruct (ci_pages0 _ _ Hi). split; auto. rewrite Z.eqb_refl, andb_false_r. done.
    + destruct (ci_pages0 _ _ Hj). split; auto. intros Hu. bools. auto.
  - intros j k cpj cpk Hj Hk. rewrite (Hbit j), (Hbit k) by done. intros Uj Uk Rj Rk Hp. bools.
    apply insert_lookup_cases in Hj as [(<- & -> & _)|(? & Hj)]; [lia|].
    apply insert_lookup_cases in Hk as [(<- & -> & _)|(? & Hk)]; [lia|]. eapply ci_uniq0; eauto.
  - exists i, (set_cp_flags 0 cp). rewrite list_lookup_insert_eq by (by eapply lookup_lt_Some).
    split; [done|]. left. rewrite Hbit by done. by rewrite Z.eqb_refl, andb_false_r.
Qed.

(** Taking a free slot for a page that is not cached yet. *)
Lemma cache_inv_fill T ca i cp cp' :
  cache_inv c v coh T ca -> cpages ca !! i = Some cp -> in_use ca i = false ->
  page_ok c v coh (c_last_access ca) true i cp' -> is_wr cp' = false -> uncached (cp_pix cp') ca ->
  cache_inv c v coh T (set_cpage_use_map (Z.lor (cpage_use_map ca) (Z.shiftl 1 (Z.of_nat i))) (put_cpage ca i cp')).
Proof.
  intros [] Hi Hfree Hok Hwr Hun.
  assert (Hil : Z.of_nat i < zlen (cpages ca)) by (apply lookup_lt_Some in Hi; unfold zlen; lia).
  assert (Hlen : zlen (<[i:=cp']> (cpages ca)) = zlen (cpages ca)) by (unfold zlen; by rewrite length_insert).
  assert (Hbit : forall j ca', cpage_use_map ca' = Z.lor (cpage_use_map ca) (Z.shiftl 1 (Z.of_nat i)) ->
            in_use ca' j = in_use ca j || (Z.of_nat i =? Z.of_nat j)).
  { intros j ca' E. unfold in_use. rewrite E. by rewrite testbit_set by lia. }
  assert (Hne : forall j, i <> j -> (Z.of_nat i =? Z.of_nat j) = false) by (intros; apply Z.eqb_neq; lia).
  split; cbn [cpages set_cpages set_cpage_use_map put_cpage cpage_use_map cpage_use_mask c_last_access];
    rewrite ?Hlen; auto.
  - rewrite Z.lor_nonneg, Z.shiftl_nonneg. lia.
  - intros k Hk. rewrite testbit_set, ci_high0 by lia.
    replace (Z.of_nat i =? k) with false by (symmetry; apply Z.eqb_neq; lia). by rewrite orb_false_r.
  - intros j cpj Hj. rewrite (Hbit j) by done.
    apply insert_lookup_cases in Hj as [(<- & -> & _)|(Hij & Hj)].
    + by rewrite Z.eqb_refl, orb_true_r.
    + rewrite Hne, orb_false_r by done. by apply ci_pages0.
  - intros j k cpj cpk Hj Hk. rewrite (Hbit j), (Hbit k) by done. intros Uj Uk Rj Rk Hp.
    apply insert_lookup_cases in Hj as [(<- & -> & _)|(Hij & Hj)];
    apply insert_lookup_cases in Hk as [(<- & -> & _)|(Hik & Hk)]; [done| | |].
    + rewrite Hne, orb_false_r in Uk by done. exfalso. eapply Hun; eauto.
    + rewrite Hne, orb_false_r in Uj by done. exfalso. eapply Hun; eauto.
    + rewrite Hne, orb_false_r in Uj by done. rewrite Hne, orb_false_r in Uk by done. eapply ci_uniq0; eauto.
  - exists i, cp'. rewrite list_lookup_insert_eq by (by eapply lookup_lt_Some). auto.
Qed.

(** Fewer steps left. *)
Lemma cache_inv_weaken T T' ca : cache_inv c v coh T ca -> 0 <= T' <= T -> cache_inv c v coh T' ca.
Proof. intros [] ?. split; auto. lia. Qed.
End inv.

(** The cache stays valid when flash contents and coherence obligations change so
    that every page still required mirrors the new contents. *)
Lemma cache_inv_view c v w coh coh' T ca :
  cache_inv c v coh T ca ->
  (forall i cp, cpages ca !! i = Some cp -> in_use ca i = true -> is_wr cp = false ->
     (coh (cp_pix cp) -> cp_mem cp = vread v (paddr c (cp_pix cp)) (psz c)) -> coh' (cp_pix cp) ->
     cp_mem cp = vread w (paddr c (cp_pix cp)) (psz c)) ->
  cache_inv c w coh' T ca.
Proof.
  intros [] Hvw. split; auto. intros i cp Hi. destruct (ci_pages0 i cp Hi) as [? ? ? Hread]. split; auto.
  intros Hu Hr. destruct (Hread Hu Hr) as (? & ? & Hm). eauto.
Qed.
