(* ===== verification/SpiffsIo.v ===== *)
(** Correctness of the cached flash accesses ([spiffs_cache.c]): under the cache
    invariant a read returns the flash contents, a write has the effect of the
    HAL write, and both keep the invariant. *)
From S2P Require Import Prelude CSem SpiffsTypes SpiffsGeom SpiffsCache.
From stdpp Require Import base list numbers option.

Open Scope Z_scope.

Section io.
  Context {F : Type} {hal : SpiffsHal F} {nor : NorHal F}.
  Implicit Types s : spiffs F.

(** The flash contents of a state. *)
Definition view s : Z -> Z := hal_view (flash s).

(** The volume fits the flash, and the erase blocks are whole sectors. *)
Record fs_geom s : Prop := {
  fg_wf : wf_cfg (cfg s);
  fg_bc : block_count s = blocks (cfg s);
  fg_cap : phys_addr (cfg s) + phys_size (cfg s) <= hal_cap (flash s);
  fg_sector : 0 < hal_sector (flash s) /\ phys_erase_block (cfg s) mod hal_sector (flash s) = 0
}.

(** [fs_okx coh T s]: a usable volume whose cache is coherent on the pages [coh]
    and whose access counter does not wrap within the next [T] accesses. *)
Definition fs_okx (coh : Z -> Prop) (T : Z) s : Prop :=
  fs_geom s /\ exists ca, cache s = Some ca /\ cache_inv (cfg s) (view s) coh T ca.

Definition fs_ok : Z -> spiffs F -> Prop := fs_okx (fun _ => True).

(** Only the cache, or only cache and flash, differ. *)
Definition cache_frame s s' : Prop := s' = set_cache (cache s') s.
Definition flash_frame s s' : Prop := s' = set_flash (flash s') (set_cache (cache s') s).

(** The [len] bytes at [addr] lie in one page of the volume. *)
Definition in_page (c : spiffs_config) (addr len : Z) : Prop :=
  exists p off, addr = paddr c p + off /\ 0 <= p < pages c /\ 0 <= off < psz c /\ 0 <= len /\ off + len <= psz c.

Lemma in_page_range c addr len : wf_cfg c -> in_page c addr len ->
  phys_addr c <= addr /\ 0 <= len /\ addr + len <= phys_addr c + phys_size c.
Proof. intros Hwf (p & off & -> & Hp & ?). pose proof (paddr_range c Hwf p Hp). lia. Qed.

(** ** Primitive accesses to the cache *)

Lemma wp_get_cache (Q : spiffs_cache -> spiffs F -> Prop) s ca : cache s = Some ca -> Q ca s -> wp spiffs_get_cache Q s.
Proof. intros Hc HQ. unfold spiffs_get_cache. wp_step. wp_step. rewrite Hc. by apply wp_ret. Qed.

Lemma wp_page_hdr (Q : spiffs_cache_page -> spiffs F -> Prop) s ca (i : nat) cp :
  cpages ca !! i = Some cp -> Q cp s -> wp (spiffs_get_cache_page_hdr ca (Z.of_nat i)) Q s.
Proof. intros Hi HQ. unfold spiffs_get_cache_page_hdr. rewrite Nat2Z.id, Hi. by apply wp_ret. Qed.

Lemma wp_upd_cpage f (Q : unit -> spiffs F -> Prop) s ca (i : nat) cp :
  cache s = Some ca -> cpages ca !! i = Some cp ->
  Q tt (set_cache (Some (put_cpage ca i (f cp))) s) -> wp (upd_cpage (Z.of_nat i) f) Q s.
Proof.
  intros Hc Hi HQ. unfold upd_cpage. wp_step. eapply wp_get_cache; [done|].
  wp_step. eapply wp_page_hdr; [done|]. unfold put_cache, zset. rewrite Nat2Z.id. wp_step. done.
Qed.

Lemma wp_hal_read addr len (Q : Z * list Z -> spiffs F -> Prop) s :
  0 <= addr -> 0 <= len -> addr + len <= hal_cap (flash s) ->
  Q (SPIFFS_OK, vread (view s) addr len) s -> wp (SPIFFS_HAL_READ addr len) Q s.
Proof. intros. unfold SPIFFS_HAL_READ. wp_step. rewrite hal_read_ok; auto. Qed.

(** The HAL write programs the bytes; the file system stays usable. *)
Lemma wp_hal_write addr src (Q : Z -> spiffs F -> Prop) s :
  0 <= addr -> addr + zlen src <= hal_cap (flash s) ->
  (forall f', hal_cap f' = hal_cap (flash s) -> hal_sector f' = hal_sector (flash s) ->
     (forall x, hal_view f' x =
        if in_span addr (zlen src) x then Z.land (view s x) (zget src (x - addr)) else view s x) ->
     Q SPIFFS_OK (set_flash f' s)) ->
  wp (SPIFFS_HAL_WRITE addr src) Q s.
Proof.
  intros Ha Hc HQ. destruct (hal_write_ok (flash s) addr src Ha Hc) as (f' & Hw & ? & ? & Hv).
  unfold SPIFFS_HAL_WRITE. wp_step. wp_step. rewrite Hw. wp_step. wp_step. wp_step. cbn. auto.
Qed.

(** ** Pages of the cache *)

Lemma used_mask_zero c v coh T ca i : cache_inv c v coh T ca ->
  Z.land (cpage_use_map ca) (cpage_use_mask ca) = 0 -> (i < length (cpages ca))%nat -> in_use ca i = false.
Proof.
  intros [] H Hi. unfold in_use.
  assert (Z.testbit (Z.land (cpage_use_map ca) (cpage_use_mask ca)) (Z.of_nat i) = false) as Hb by (rewrite H; apply Z.bits_0).
  rewrite Z.land_spec, ci_mask, Z.ones_spec_low, andb_true_r in Hb; [done|]. unfold zlen. lia.
Qed.

Lemma page_get_spec coh T s ca pix :
  cache s = Some ca -> cache_inv (cfg s) (view s) coh T ca ->
  wp (spiffs_cache_page_get pix) (fun o s' =>
    match o with
    | Some i => exists k cp, i = Z.of_nat k /\ cpages ca !! k = Some cp /\ in_use ca k = true /\
        is_wr cp = false /\ cp_pix cp = pix /\
        s' = set_cache (Some (put_cpage ca k (set_cp_last_access (c_last_access ca) cp))) s
    | None => s' = s /\ uncached pix ca
    end) s.
Proof.
  intros Hc Hinv. unfold spiffs_cache_page_get. wp_step. eapply wp_get_cache; [done|]. wp_step.
  - wp_step. split; [done|]. intros i cp Hi Hu. apply lookup_lt_Some in Hi.
    rewrite (used_mask_zero _ _ _ _ _ i Hinv) in Hu by done. done.
  - match goal with |- context [cp_search ?p 0 ?l] => set (hit := p); destruct (cp_search hit 0 l) as [j|] eqn:Es end.
    + apply cp_search_Some in Es as (k & cp & Hj & Hk & Hp). rewrite Z.add_0_l in Hj. subst j hit.
      apply andb_true_iff in Hp as [Hp Hpix]. apply andb_true_iff in Hp as [Hu Hr]. bools.
      rewrite hasb_bit in Hu by lia. wp_step. eapply wp_upd_cpage; [done|done|]. wp_step.
      exists k, cp. done.
    + wp_step. split; [done|]. intros k cp Hk Hu Hr Hpix.
      apply (cp_search_None _ _ _ Es) in Hk. unfold hit in Hk. rewrite Z.add_0_l, hasb_bit in Hk by lia.
      unfold in_use in Hu. unfold is_wr in Hr. rewrite Hu, Hr, Hpix, Z.eqb_refl in Hk. done.
Qed.

(** Freeing a read page never writes back: read pages are clean. *)
Lemma page_free_spec coh T s ca (i : nat) cp wb :
  cache s = Some ca -> cache_inv (cfg s) (view s) coh T ca -> cpages ca !! i = Some cp ->
  in_use ca i = true -> is_wr cp = false ->
  wp (spiffs_cache_page_free (Z.of_nat i) wb) (fun r s' => r = SPIFFS_OK /\
    s' = set_cache (Some (set_cpage_use_map (Z.ldiff (cpage_use_map ca) (Z.shiftl 1 (Z.of_nat i)))
                            (put_cpage ca i (set_cp_flags 0 cp)))) s) s.
Proof.
  intros Hc Hinv Hi Hu Hr. destruct (ci_pages _ _ _ _ _ Hinv _ _ Hi) as [_ _ _ Hread].
  destruct (Hread Hu Hr) as (Hf & _ & _).
  unfold spiffs_cache_page_free. wp_step. eapply wp_get_cache; [done|]. wp_step. wp_step. wp_step.
  eapply wp_page_hdr; [done|]. rewrite hasb_bit by lia. unfold in_use in Hu. rewrite Hu.
  wp_step. rewrite Hf.
  replace (wb && negb (hasb SPIFFS_CACHE_FLAG_WRTHRU SPIFFS_CACHE_FLAG_TYPE_WR)
              && hasb SPIFFS_CACHE_FLAG_WRTHRU SPIFFS_CACHE_FLAG_DIRTY) with false by (by rewrite andb_false_r).
  wp_step. wp_step. eapply wp_upd_cpage; [done|done|]. wp_step. eapply wp_get_cache; [done|].
  unfold put_cache. wp_step. wp_step. wp_step. done.
Qed.

(** Evicting the oldest page makes room: all pages are older than the access
    counter, and at least one is not a write page. *)
Lemma remove_oldest_spec coh T s ca :
  cache s = Some ca -> cache_inv (cfg s) (view s) coh T ca ->
  (forall i cp, cpages ca !! i = Some cp -> cp_last_access cp < c_last_access ca) ->
  wp (spiffs_cache_page_remove_oldest SPIFFS_CACHE_FLAG_TYPE_WR 0) (fun r s' => r = SPIFFS_OK /\
    exists ca', s' = set_cache (Some ca') s /\ cache_inv (cfg s) (view s) coh T ca' /\
      c_last_access ca' = c_last_access ca /\
      (exists i cp, cpages ca' !! i = Some cp /\ in_use ca' i = false) /\
      (forall pix, uncached pix ca -> uncached pix ca')) s.
Proof.
  intros Hc Hinv Hage. unfold spiffs_cache_page_remove_oldest. wp_step. eapply wp_get_cache; [done|].
  destruct (Z.land (cpage_use_map ca) (cpage_use_mask ca) =? cpage_use_mask ca) eqn:E; cbn [negb]; bools.
  - destruct (oldest_scan_spec (c_last_access ca) SPIFFS_CACHE_FLAG_TYPE_WR 0 (cpages ca) 0 (-1) 0)
      as [[_ Hnone]|(k & cp & -> & Hk & Hf)].
    + exfalso. destruct (ci_room _ _ _ _ _ Hinv) as (i & cp & Hi & Hr).
      assert (in_use ca i = true) as Hu.
      { pose proof (lookup_lt_Some _ _ _ Hi). unfold in_use.
        assert (Z.testbit (cpage_use_mask ca) (Z.of_nat i) = true) as Hm.
        { rewrite (ci_mask _ _ _ _ _ Hinv). apply Z.ones_spec_low. unfold zlen. lia. }
        rewrite <- E, Z.land_spec in Hm. by bools. }
      destruct Hr as [Hr|Hr]; [congruence|]. pose proof (Hage _ _ Hi).
      destruct (ci_pages _ _ _ _ _ Hinv _ _ Hi) as [_ _ ? _]. destruct (ci_tick _ _ _ _ _ Hinv).
      pose proof (Hnone _ _ Hi) as Hle. unfold is_wr, hasb in Hr. bools.
      specialize (Hle Hr). rewrite u32_small in Hle by lia. lia.
    + rewrite Z.add_0_l. replace (0 <=? Z.of_nat k) with true by (symmetry; apply Z.leb_le; lia).
      assert (is_wr cp = false) as Hr by (unfold is_wr, hasb; by rewrite Hf).
      assert (in_use ca k = true) as Hu.
      { pose proof (lookup_lt_Some _ _ _ Hk). unfold in_use.
        assert (Z.testbit (cpage_use_mask ca) (Z.of_nat k) = true) as Hm.
        { rewrite (ci_mask _ _ _ _ _ Hinv). apply Z.ones_spec_low. unfold zlen. lia. }
        rewrite <- E, Z.land_spec in Hm. by bools. }
      wp_apply page_free_spec; [done..|]. intros r s' [-> ->]. split; [done|].
      eexists. split; [done|]. split; [by eapply cache_inv_free|]. split; [done|].
      assert (Hbit : forall j, Z.testbit (Z.ldiff (cpage_use_map ca) (Z.shiftl 1 (Z.of_nat k))) j
                = Z.testbit (cpage_use_map ca) j && negb (Z.of_nat k =? j)) by (intros; apply testbit_clear; lia).
      split.
      * exists k, (set_cp_flags 0 cp). cbn [cpages set_cpages set_cpage_use_map put_cpage].
        rewrite list_lookup_insert_eq by (by eapply lookup_lt_Some). split; [done|].
        unfold in_use. cbn [cpage_use_map set_cpage_use_map]. by rewrite Hbit, Z.eqb_refl, andb_false_r.
      * intros pix Hun j cpj Hj Huj Hrj. unfold in_use in Huj. cbn [cpage_use_map set_cpage_use_map] in Huj.
        rewrite Hbit in Huj. bools. apply insert_lookup_cases in Hj as [(<- & -> & _)|(? & Hj)]; [lia|].
        by eapply Hun.
  - wp_step. split; [done|]. exists ca. split; [by destruct s; cbn in *; subst|]. split; [done|]. split; [done|].
    split; [|done].
    destruct (cp_search (fun i _ => negb (Z.testbit (cpage_use_map ca) i)) 0 (cpages ca)) as [j|] eqn:Es.
    + apply cp_search_Some in Es as (k & cp & -> & Hk & Hp). exists k, cp. split; [done|].
      rewrite Z.add_0_l in Hp. by bools.
    + exfalso. apply E. apply Z.bits_inj'. intros k Hk. rewrite Z.land_spec, (ci_mask _ _ _ _ _ Hinv).
      rewrite Z.testbit_ones_nonneg by (pose proof (zlen_nonneg (cpages ca)); lia).
      destruct (k <? zlen (cpages ca)) eqn:Ek; [|by rewrite andb_false_r]. rewrite andb_true_r. bools.
      destruct (cpages ca !! Z.to_nat k) as [cp|] eqn:El; [|apply lookup_ge_None in El; unfold zlen in Ek; lia].
      apply (cp_search_None _ _ _ Es) in El. bools. rewrite <- El. f_equal. lia.
Qed.

Lemma allocate_spec coh T s ca :
  cache s = Some ca -> cache_inv (cfg s) (view s) coh T ca ->
  (exists i cp, cpages ca !! i = Some cp /\ in_use ca i = false) ->
  wp spiffs_cache_page_allocate (fun o s' => exists i cp, o = Some (Z.of_nat i) /\
    cpages ca !! i = Some cp /\ in_use ca i = false /\
    s' = set_cache (Some (set_cpage_use_map (Z.lor (cpage_use_map ca) (Z.shiftl 1 (Z.of_nat i)))
                      (put_cpage ca i (set_cp_last_access (c_last_access ca) cp)))) s) s.
Proof.
  intros Hc Hinv (i & cp & Hi & Hfree). unfold spiffs_cache_page_allocate. wp_step.
  eapply wp_get_cache; [done|]. wp_step.
  - exfalso. unfold in_use in Hfree. rewrite E in Hfree. change 4294967295 with (Z.ones 32) in Hfree.
    apply lookup_lt_Some in Hi. destruct Hinv. unfold zlen in *. rewrite Z.ones_spec_low in Hfree by lia. done.
  - destruct (cp_search _ 0 (cpages ca)) as [j|] eqn:Es.
    + apply cp_search_Some in Es as (k & cpk & -> & Hk & Hp). rewrite Z.add_0_l in *.
      rewrite hasb_bit in Hp by lia. bools. unfold put_cache. wp_step. wp_step. wp_step.
      eapply wp_upd_cpage; [done|done|]. wp_step. exists k, cpk. done.
    + exfalso. apply (cp_search_None _ _ _ Es) in Hi. rewrite Z.add_0_l, hasb_bit in Hi by lia.
      unfold in_use in Hfree. by rewrite Hfree in Hi.
Qed.

(** ** [spiffs_phys_rd] *)

Lemma copy_out_spec s ca (i : nat) cp addr len res p off :
  wf_cfg (cfg s) -> cache s = Some ca -> cpages ca !! i = Some cp ->
  cp_mem cp = vread (view s) (paddr (cfg s) p) (psz (cfg s)) ->
  addr = paddr (cfg s) p + off -> 0 <= p < pages (cfg s) -> 0 <= off < psz (cfg s) -> 0 <= len ->
  off + len <= psz (cfg s) ->
  wp (cpage_copy_out (Z.of_nat i) addr len res) (fun r s' => r = (res, vread (view s) addr len) /\ s' = s) s.
Proof.
  intros Hwf Hc Hi Hm -> Hp Ho Hl Hol. unfold cpage_copy_out. wp_step. wp_step. wp_step.
  eapply wp_get_cache; [done|]. wp_step. eapply wp_page_hdr; [done|].
  destruct (paddr_to_page (cfg s) Hwf p off Hp Ho) as [_ ->]. rewrite Hm, length_vread by lia.
  rewrite (proj2 (Z.leb_le _ _)) by lia. wp_step. by rewrite slice_vread by lia.
Qed.

Lemma put_put ca i cp cp' m : put_cpage (set_cpage_use_map m (put_cpage ca i cp)) i cp' = set_cpage_use_map m (put_cpage ca i cp').
Proof. unfold put_cpage, set_cpages, set_cpage_use_map. cbn. by rewrite list_insert_insert_eq. Qed.

Lemma lookup_put ca i cp cp' m : cpages ca !! i = Some cp ->
  cpages (set_cpage_use_map m (put_cpage ca i cp')) !! i = Some cp'.
Proof. intros H. cbn. apply list_lookup_insert_eq. by eapply lookup_lt_Some. Qed.

(** A miss: evict, allocate, fill the page from the flash, copy. *)
Lemma phys_rd_miss coh T s ca addr len p off :
  fs_geom s -> cache s = Some ca -> cache_inv (cfg s) (view s) coh T ca ->
  (forall i cp, cpages ca !! i = Some cp -> cp_last_access cp < c_last_access ca) -> uncached p ca ->
  addr = paddr (cfg s) p + off -> 0 <= p < pages (cfg s) -> 0 <= off < psz (cfg s) -> 0 <= len ->
  off + len <= psz (cfg s) ->
  wp (res ← spiffs_cache_page_remove_oldest SPIFFS_CACHE_FLAG_TYPE_WR 0;
      o ← spiffs_cache_page_allocate;
      match o with
      | None => undefined
      | Some i =>
          upd_cpage i (fun cp => set_cp_pix p (set_cp_flags SPIFFS_CACHE_FLAG_WRTHRU cp));;
          r ← SPIFFS_HAL_READ (u32 (addr - off)) (log_page_size (cfg s));
          upd_cpage i (set_cp_mem r.2);;
          cpage_copy_out i addr len (if r.1 =? SPIFFS_OK then res else r.1)
      end)
    (fun r s' => r = (SPIFFS_OK, vread (view s) addr len) /\ cache_frame s s' /\ fs_okx coh T s') s.
Proof.
  intros Hg Hc Hinv Hage Hun Haddr Hp Hoff Hlen Hol. pose proof (fg_wf _ Hg) as Hwf.
  pose proof (paddr_range _ Hwf p Hp) as Hpr. pose proof (wf_end _ Hwf). pose proof (wf_addr _ Hwf).
  wp_step. wp_apply remove_oldest_spec; [done..|].
  intros r s1 (-> & ca1 & -> & Hinv1 & Hla & Hroom & Hun1).
  wp_step. wp_apply (allocate_spec coh T); [done|done|done|].
  intros o s2 (i & cp & -> & Hi & Hfree & ->).
  wp_step. eapply wp_upd_cpage; [done|by eapply lookup_put|]. rewrite put_put.
  wp_step. apply wp_hal_read; [rewrite u32_small by lia; lia|pose proof (wf_psz _ Hwf); lia| |].
  { rewrite u32_small by lia. cbn. pose proof (fg_cap _ Hg). lia. }
  wp_step. eapply wp_upd_cpage; [done|by eapply lookup_put|]. rewrite put_put.
  change (SPIFFS_OK =? SPIFFS_OK) with true. cbv iota.
  replace (u32 (addr - off)) with (paddr (cfg s) p) by (rewrite u32_small by lia; lia).
  wp_apply copy_out_spec; [done|done|by eapply lookup_put|done|exact Haddr|done..|].
  intros r s3 [-> ->]. split; [done|]. split; [done|]. split; [by destruct Hg; split|].
  eexists. split; [done|]. apply cache_inv_fill with cp; auto.
  destruct (ci_pages _ _ _ _ _ Hinv1 _ _ Hi). destruct (ci_tick _ _ _ _ _ Hinv1). split; cbn.
  - done.
  - apply length_vread. pose proof (wf_psz _ Hwf). lia.
  - lia.
  - intros _ _. split; [done|]. split; [done|]. done.
Qed.

(** Pages that are not cached stay so. *)
Definition keeps_uncached s s' : Prop := forall q ca ca', cache s = Some ca -> cache s' = Some ca' -> uncached q ca -> uncached q ca'.

Lemma keeps_uncached_trans s1 s2 s3 : (exists ca, cache s2 = Some ca) ->
  keeps_uncached s1 s2 -> keeps_uncached s2 s3 -> keeps_uncached s1 s3.
Proof. intros [ca2 H2] H12 H23 q ca ca' ? ? ?. eapply H23; eauto. Qed.

(** Replacing a page by one for the same flash page. *)
Lemma uncached_put q ca (k : nat) cp cp' : uncached q ca -> cpages ca !! k = Some cp ->
  cp_pix cp' = cp_pix cp -> is_wr cp' = is_wr cp -> uncached q (put_cpage ca k cp').
Proof.
  intros Hun Hk Hp Hw i cpi Hi Hu Hr. apply insert_lookup_cases in Hi as [(<- & -> & _)|(_ & Hi)].
  - rewrite Hp. eapply Hun; [exact Hk|exact Hu|congruence].
  - by eapply Hun.
Qed.

Lemma phys_rd_at coh T s op fh addr len p off :
  fs_okx coh T s -> 1 <= T -> coh p ->
  addr = paddr (cfg s) p + off -> 0 <= p < pages (cfg s) -> 0 <= off < psz (cfg s) -> 0 <= len ->
  off + len <= psz (cfg s) ->
  wp (spiffs_phys_rd op fh addr len) (fun r s' =>
    r = (SPIFFS_OK, vread (view s) addr len) /\ cache_frame s s' /\ fs_okx coh (T - 1) s' /\
    (Z.land op SPIFFS_OP_TYPE_MASK = SPIFFS_OP_T_OBJ_LU2 -> keeps_uncached s s')) s.
Proof.
  intros (Hg & ca & Hc & Hinv) HT Hcoh Haddr Hp Hoff Hlen Hol. pose proof (fg_wf _ Hg) as Hwf.
  destruct (ci_tick _ _ _ _ _ Hinv) as (_ & Hla & Hlt).
  unfold spiffs_phys_rd. wp_step. wp_step.
  destruct (paddr_to_page (cfg s) Hwf p off Hp Hoff) as [Hpg Hpo].
  pose proof (wf_pages_lt _ Hwf). rewrite <- Haddr in Hpg, Hpo. rewrite Hpg, Hpo, u16_small by lia.
  wp_step. wp_apply page_get_spec; [done|done|].
  intros [i|] s1.
  - intros (k & cp & -> & Hk & Hu & Hr & Hpix & ->).
    pose proof (cache_inv_touch _ _ _ _ _ k cp (c_last_access ca) Hinv Hk ltac:(lia)) as Hinv1.
    apply cache_inv_tick in Hinv1; [|done].
    wp_step. eapply wp_get_cache; [done|]. wp_step. unfold put_cache. wp_step. wp_step.
    cbn [c_last_access set_cpages put_cpage]. rewrite u32_small by lia.
    assert (cpages (put_cpage ca k (set_cp_last_access (c_last_access ca) cp)) !! k
            = Some (set_cp_last_access (c_last_access ca) cp)) as Hk1
      by (cbn; apply list_lookup_insert_eq; by eapply lookup_lt_Some).
    eapply wp_upd_cpage; [done|exact Hk1|].
    eapply (cache_inv_touch _ _ _ _ _ k _ (c_last_access ca + 1)) in Hinv1; [|exact Hk1|cbn; lia].
    wp_apply copy_out_spec; [done|done|cbn; apply list_lookup_insert_eq; rewrite length_insert; by eapply lookup_lt_Some
      | |exact Haddr|done..|].
    + cbn. destruct (ci_pages _ _ _ _ _ Hinv _ _ Hk) as [_ _ _ Hread].
      destruct (Hread Hu Hr) as (_ & _ & Hm). rewrite Hm by (by rewrite Hpix). by rewrite Hpix.
    + intros r s2 [-> ->]. split; [done|]. split; [done|]. split.
      { split; [by destruct Hg; split|]. eexists. done. }
      intros _ q ca1 ca2 Hca1 Hca2 Hun. cbn in Hca2. injection Hca2 as <-. assert (ca1 = ca) as -> by congruence.
      eapply uncached_put; [eapply (uncached_put q ca k cp); [done|done|done|done]|exact Hk1|done|done].
  - intros [-> Hun]. pose proof (cache_inv_tick _ _ _ _ _ Hinv HT) as Hinv1.
    wp_step. eapply wp_get_cache; [done|]. wp_step. unfold put_cache. wp_step.
    rewrite (u32_small (c_last_access ca + 1)) by lia.
    assert (Hg1 : fs_geom (set_cache (Some (set_c_last_access (c_last_access ca + 1) ca)) s)) by (by destruct Hg; split).
    wp_step.
    + pose proof (paddr_range _ Hwf p Hp). pose proof (wf_addr _ Hwf). pose proof (fg_cap _ Hg).
      apply wp_hal_read; [lia|lia|cbn; lia|]. split; [done|]. split; [done|]. split.
      { split; [done|]. eexists. done. }
      intros _ q ca1 ca2 Hca1 Hca2 Hun1. cbn in Hca2. injection Hca2 as <-. assert (ca1 = ca) as -> by congruence. exact Hun1.
    + wp_apply (phys_rd_miss coh (T - 1) _ _ addr len p off Hg1 eq_refl Hinv1); try done.
      * intros i cp Hi. cbn. destruct (ci_pages _ _ _ _ _ Hinv _ _ Hi). lia.
      * intros r s2 (-> & ? & ?). done.
Qed.

(** ** [spiffs_phys_wr] *)

(** The contents after programming [src] at [addr]: bits only go from 1 to 0. *)
Definition programmed (v : Z -> Z) (addr : Z) (src : list Z) (x : Z) : Z :=
  if in_span addr (zlen src) x then Z.land (v x) (zget src (x - addr)) else v x.

(** [src] needs no bit to go from 0 to 1. *)
Definition nor_compat (v : Z -> Z) (addr : Z) (src : list Z) : Prop :=
  forall i, 0 <= i < zlen src -> Z.land (v (addr + i)) (zget src i) = zget src i.

(** The writes that keep a cached page coherent: data the flash can store as it
    is, or the deletion of a page, which drops it from the cache. *)
Definition coherent_wr (op : Z) (v : Z -> Z) (addr : Z) (src : list Z) : Prop :=
  Z.land op SPIFFS_OP_COM_MASK <> SPIFFS_OP_C_WRTHRU /\
  (nor_compat v addr src \/
   (Z.land op SPIFFS_OP_COM_MASK = SPIFFS_OP_C_DELE /\ Z.land op SPIFFS_OP_TYPE_MASK <> SPIFFS_OP_T_OBJ_LU)).

(** Programming inside page [p] leaves the other pages alone. *)
Lemma vread_other_page c v w addr n p off q : wf_cfg c ->
  addr = paddr c p + off -> 0 <= p < pages c -> 0 <= off -> off + n <= psz c -> 0 <= q < pages c -> q <> p ->
  (forall x, in_span addr n x = false -> w x = v x) ->
  vread w (paddr c q) (psz c) = vread v (paddr c q) (psz c).
Proof.
  intros Hwf Ha Hp Ho Hn Hq Hne Hw. apply vread_ext. intros x Hx. apply Hw. unfold in_span.
  rewrite paddr_eq in * by (done || lia). apply andb_false_iff. rewrite Z.leb_gt, Z.ltb_ge.
  pose proof (wf_psz _ Hwf). nia.
Qed.

Lemma wp_phys_hal_write coh coh' T s ca addr src p off :
  fs_geom s -> cache s = Some ca -> cache_inv (cfg s) (view s) coh T ca ->
  addr = paddr (cfg s) p + off -> 0 <= p < pages (cfg s) -> 0 <= off -> off + zlen src <= psz (cfg s) ->
  (forall q, coh' q -> q <> p -> coh q) ->
  (coh' p -> forall i cp, cpages ca !! i = Some cp -> in_use ca i = true -> is_wr cp = false -> cp_pix cp = p ->
     cp_mem cp = vread (programmed (view s) addr src) (paddr (cfg s) p) (psz (cfg s))) ->
  wp (SPIFFS_HAL_WRITE addr src) (fun r s' => r = SPIFFS_OK /\ s' = set_flash (flash s') s /\
    fs_okx coh' T s' /\ forall x, view s' x = programmed (view s) addr src x) s.
Proof.
  intros Hg Hc Hinv Ha Hp Ho Hol Hcoh Hself. pose proof (fg_wf _ Hg) as Hwf.
  pose proof (paddr_range _ Hwf p Hp). pose proof (wf_addr _ Hwf). pose proof (fg_cap _ Hg).
  apply wp_hal_write; [lia|lia|]. intros f' Hcap Hsec Hv. split; [done|]. split; [done|]. split; [|done].
  split.
  { destruct Hg. split; cbn; auto; [by rewrite Hcap|by rewrite Hsec]. }
  exists ca. split; [done|]. apply (cache_inv_view _ _ _ _ _ _ _ Hinv).
  intros i cp Hi Hu Hr Hold Hc'. unfold view. cbn [flash set_flash cfg].
  assert (Hpr : vread (hal_view f') (paddr (cfg s) (cp_pix cp)) (psz (cfg s)) =
                vread (programmed (view s) addr src) (paddr (cfg s) (cp_pix cp)) (psz (cfg s))).
  { apply vread_ext. intros x _. apply Hv. }
  cbn in Hpr |- *. rewrite Hpr. destruct (decide (cp_pix cp = p)) as [E|E].
  - rewrite (Hself ltac:(by rewrite <- E) i cp Hi Hu Hr E). by rewrite E.
  - rewrite (Hold (Hcoh _ Hc' E)). symmetry.
    destruct (ci_pages _ _ _ _ _ Hinv _ _ Hi) as [_ _ _ Hread]. destruct (Hread Hu Hr) as (_ & Hpp & _).
    eapply vread_other_page; eauto. intros x Hx. unfold programmed. by rewrite Hx.
Qed.

(** The outcome of a cached write. *)
Definition wrote (coh : Z -> Prop) (T : Z) s (addr : Z) (src : list Z) (r : Z) (s' : spiffs F) : Prop :=
  r = SPIFFS_OK /\ flash_frame s s' /\ fs_okx coh T s' /\ (forall x, view s' x = programmed (view s) addr src x) /\
  keeps_uncached s s'.

Lemma fs_okx_weaken coh T T' s : fs_okx coh T s -> 0 <= T' <= T -> fs_okx coh T' s.
Proof. intros (? & ca & ? & ?) ?. split; [done|]. exists ca. split; [done|]. by eapply cache_inv_weaken. Qed.

(** A hit that updates the cached page: it mirrors the programmed flash. *)
Lemma phys_wr_hit coh T s ca (k : nat) cp addr src p off :
  fs_geom s -> cache s = Some ca -> cache_inv (cfg s) (view s) coh T ca -> 1 <= T ->
  cpages ca !! k = Some cp -> in_use ca k = true -> is_wr cp = false -> cp_pix cp = p ->
  addr = paddr (cfg s) p + off -> 0 <= p < pages (cfg s) -> 0 <= off < psz (cfg s) ->
  off + zlen src <= psz (cfg s) -> (coh p -> nor_compat (view s) addr src) ->
  wp (upd_cpage (Z.of_nat k) (fun cp => set_cp_mem (splice (cp_mem cp) off src) cp);;
      ca ← spiffs_get_cache;
      put_cache (set_c_last_access (u32 (c_last_access ca + 1)) ca);;
      upd_cpage (Z.of_nat k) (set_cp_last_access (u32 (c_last_access ca + 1)));;
      if hasb (cp_flags cp) SPIFFS_CACHE_FLAG_WRTHRU then SPIFFS_HAL_WRITE addr src
      else mret SPIFFS_OK) (wrote coh (T - 1) s addr src) s.
Proof.
  intros Hg Hc Hinv HT Hk Hu Hr Hpix Ha Hp Ho Hol Hcomp. pose proof (fg_wf _ Hg) as Hwf.
  destruct (ci_tick _ _ _ _ _ Hinv) as (_ & Hla & Hlt).
  destruct (ci_pages _ _ _ _ _ Hinv _ _ Hk) as [Hix Hml Hag Hread]. destruct (Hread Hu Hr) as (Hf & _ & Hm).
  pose proof (zlen_nonneg src).
  set (coh1 := fun q => coh q /\ q <> p). set (cp1 := set_cp_mem (splice (cp_mem cp) off src) cp).
  assert (Hinv1 : cache_inv (cfg s) (view s) coh1 T (put_cpage ca k cp1)).
  { eapply cache_inv_put; [eapply (cache_inv_view _ _ _ _ coh1 _ _ Hinv)|exact Hk| | |].
    - unfold coh1. intros i cp2 _ _ _ H2 [H3 _]. auto.
    - split; cbn; auto. { rewrite length_splice; lia. }
      intros _ _. split; [done|]. rewrite Hpix. split; [done|]. intros [_ ?]. done.
    - done.
    - intros _ _ j cpj Hj Hne Huj Hrj Heq. apply Hne. eapply (ci_uniq _ _ _ _ _ Hinv); eauto. }
  apply cache_inv_tick in Hinv1; [|done].
  assert (Hk1 : cpages (put_cpage ca k cp1) !! k = Some cp1)
    by (cbn; apply list_lookup_insert_eq; by eapply lookup_lt_Some).
  wp_step. eapply wp_upd_cpage; [done|done|]. wp_step. eapply wp_get_cache; [done|]. wp_step. unfold put_cache.
  wp_step. wp_step. cbn [c_last_access set_cpages put_cpage]. rewrite (u32_small (c_last_access ca + 1)) by lia.
  eapply wp_upd_cpage; [done|exact Hk1|]. rewrite Hf. cbv iota.
  change (hasb SPIFFS_CACHE_FLAG_WRTHRU SPIFFS_CACHE_FLAG_WRTHRU) with true. cbv iota.
  eapply (cache_inv_touch _ _ _ _ _ k _ (c_last_access ca + 1)) in Hinv1; [|exact Hk1|cbn; lia].
  eapply wp_mono.
  - eapply (wp_phys_hal_write coh1 coh (T - 1)); [by destruct Hg; split|done|exact Hinv1|exact Ha|done|lia|done|by split|].
    intros Hcp i cpi Hi Hui Hri Hpi.
    assert (i = k) as ->.
    { eapply (ci_uniq _ _ _ _ _ Hinv1); [exact Hi|apply list_lookup_insert_eq; cbn; rewrite length_insert; by eapply lookup_lt_Some| | |done|done|].
      - exact Hui. - exact Hu. - cbn. by rewrite Hpi. }
    cbn in Hi. rewrite list_lookup_insert_eq in Hi by (rewrite length_insert; by eapply lookup_lt_Some).
    injection Hi as <-. cbn. rewrite Hm by (by rewrite Hpix). rewrite Hpix. apply splice_vread; [lia|lia|].
    intros x Hx. unfold programmed, in_span. rewrite Ha. rewrite Hpix in *.
    match goal with |- context [if ?b then _ else _] => destruct b eqn:E end; [|done]. bools.
    pose proof (Hcomp Hcp (x - addr) ltac:(lia)) as Hcx. rewrite Ha in Hcx.
    replace (paddr (cfg s) p + off + (x - (paddr (cfg s) p + off))) with x in Hcx by lia.
    etransitivity; [exact Hcx|]. f_equal. lia.
  - intros r s' (-> & Hfr & Hok & Hv). split; [done|]. split; [unfold flash_frame; by rewrite Hfr|]. split; [done|].
    split; [done|]. intros q ca1 ca2 Hca1 Hca2 Hun. rewrite Hfr in Hca2. cbn in Hca2. injection Hca2 as <-.
    assert (ca1 = ca) as -> by congruence.
    eapply uncached_put; [eapply (uncached_put q ca k cp); [done|done|done|done]|exact Hk1|done|done].
Qed.

Lemma phys_wr_at coh T s op fh addr src p off :
  fs_okx coh T s -> 1 <= T ->
  addr = paddr (cfg s) p + off -> 0 <= p < pages (cfg s) -> 0 <= off < psz (cfg s) ->
  off + zlen src <= psz (cfg s) -> (coh p -> coherent_wr op (view s) addr src) ->
  wp (spiffs_phys_wr op fh addr src) (wrote coh (T - 1) s addr src) s.
Proof.
  intros (Hg & ca & Hc & Hinv) HT Ha Hp Ho Hol Hcw. pose proof (fg_wf _ Hg) as Hwf.
  destruct (paddr_to_page (cfg s) Hwf p off Hp Ho) as [Hpg Hpo].
  pose proof (wf_pages_lt _ Hwf). rewrite <- Ha in Hpg, Hpo.
  destruct (ci_tick _ _ _ _ _ Hinv) as (_ & Hla & Hlt).
  assert (Hdone : forall s1 ca1, s1 = set_cache (Some ca1) s -> cache_inv (cfg s) (view s) coh T ca1 ->
            (coh p -> uncached p ca1) -> (forall q, uncached q ca -> uncached q ca1) -> wp (SPIFFS_HAL_WRITE addr src) (wrote coh (T - 1) s addr src) s1).
  { intros s1 ca1 -> Hinv1 Hun Hkeep. eapply wp_mono.
    - eapply (wp_phys_hal_write coh coh T); [by destruct Hg; split|done|exact Hinv1|exact Ha|done|lia|done|done|].
      intros Hcp i cp Hi Hu Hr Hpix. exfalso. by apply (Hun Hcp i cp).
    - intros r s' (-> & Hfr & Hok & Hv). split; [done|]. split; [unfold flash_frame; by rewrite Hfr|].
      split; [eapply fs_okx_weaken; [done|lia]|]. split; [done|].
      intros q ca2 ca3 Hca2 Hca3 Hq. rewrite Hfr in Hca3. cbn in Hca3. injection Hca3 as <-.
      assert (ca2 = ca) as -> by congruence. by apply Hkeep. }
  unfold spiffs_phys_wr. wp_step. wp_step. rewrite Hpg, Hpo, u16_small by lia.
  wp_step. wp_apply page_get_spec; [done|done|]. intros [i|] s1.
  2: { intros [-> Hun]. apply Hdone with ca; [by destruct s; cbn in *; subst|done|done|done]. }
  intros (k & cp & -> & Hk & Hu & Hr & Hpix & ->).
  set (cp0 := set_cp_last_access (c_last_access ca) cp).
  pose proof (cache_inv_touch _ _ _ _ _ k cp (c_last_access ca) Hinv Hk ltac:(lia)) as Hinv1.
  assert (Hk1 : cpages (put_cpage ca k cp0) !! k = Some cp0)
    by (cbn; apply list_lookup_insert_eq; by eapply lookup_lt_Some).
  destruct (Z.land op SPIFFS_OP_COM_MASK =? SPIFFS_OP_C_WRTHRU) eqn:Ewt; cbn [negb]; bools.
  { eapply Hdone; [done|done| |]; [intros Hcp; by destruct (Hcw Hcp)|].
    intros q Hq. by apply (uncached_put q ca k cp). }
  wp_step. eapply wp_get_cache; [done|]. wp_step. eapply wp_page_hdr; [exact Hk1|].
  destruct (ci_pages _ _ _ _ _ Hinv _ _ Hk) as [Hix Hml _ _]. wp_step.
  - wp_step. change (cp_ix cp0) with (cp_ix cp). rewrite Hix.
    wp_apply (page_free_spec coh T); [done|exact Hinv1|exact Hk1|done|done|].
    intros r s2 (_ & ->).
    assert (Hrest : forall i cpi, cpages (set_cpage_use_map (Z.ldiff (cpage_use_map (put_cpage ca k cp0)) (Z.shiftl 1 (Z.of_nat k)))
                (put_cpage (put_cpage ca k cp0) k (set_cp_flags 0 cp0))) !! i = Some cpi ->
              in_use (set_cpage_use_map (Z.ldiff (cpage_use_map (put_cpage ca k cp0)) (Z.shiftl 1 (Z.of_nat k)))
                (put_cpage (put_cpage ca k cp0) k (set_cp_flags 0 cp0))) i = true ->
              k <> i /\ cpages ca !! i = Some cpi /\ in_use ca i = true).
    { intros i cpi Hi Hui. unfold in_use in Hui. cbn [cpage_use_map set_cpage_use_map] in Hui.
      rewrite testbit_clear in Hui by lia. bools.
      apply insert_lookup_cases in Hi as [(<- & -> & _)|(Hne & Hi)]; [lia|].
      apply insert_lookup_cases in Hi as [(<- & -> & _)|(_ & Hi)]; [lia|]. done. }
    eapply Hdone; [done|by eapply cache_inv_free| |].
    + intros _ i cpi Hi Hui Hri Hpi. destruct (Hrest i cpi Hi Hui) as (Hne & Hi' & Hui').
      apply Hne. symmetry. eapply (ci_uniq _ _ _ _ _ Hinv); eauto. congruence.
    + intros q Hq i cpi Hi Hui Hri. destruct (Hrest i cpi Hi Hui) as (Hne & Hi' & Hui'). by eapply Hq.
  - rewrite (proj2 (Z.leb_le _ _)) by (cbn; lia).
    wp_apply (phys_wr_hit coh T _ (put_cpage ca k cp0) k cp0 addr src p off);
      [by destruct Hg; split|done|done|done|done|done|done|done|done|done|done|done| |].
    + intros Hcp. destruct (Hcw Hcp) as [_ [?|[H1 H2]]]; [done|]. apply Z.eqb_eq in H1. apply Z.eqb_neq in H2.
      rewrite H1, H2 in E. done.
    + intros r s2 (-> & Hfr & Hok & Hv & Hkeep). split; [done|]. split; [unfold flash_frame; rewrite Hfr; done|].
      split; [done|]. split; [done|]. intros q ca2 ca3 Hca2 Hca3 Hq. assert (ca2 = ca) as -> by congruence.
      eapply Hkeep; [done|exact Hca3|]. by apply (uncached_put q ca k cp).
Qed.

(** The two rules on a fully coherent volume. *)
Lemma phys_rd_ok T s op fh addr len :
  fs_ok T s -> 1 <= T -> in_page (cfg s) addr len ->
  wp (spiffs_phys_rd op fh addr len) (fun r s' =>
    r = (SPIFFS_OK, vread (view s) addr len) /\ cache_frame s s' /\ fs_ok (T - 1) s') s.
Proof.
  intros Hok HT (p & off & ? & ? & ? & ? & ?). wp_apply phys_rd_at; [done..|]. intros r s' (? & ? & ? & _). done.
Qed.

(** Lookup reads that bypass the cache do not fill it. *)
Lemma phys_rd_lu2_ok T s op fh addr len :
  fs_ok T s -> 1 <= T -> in_page (cfg s) addr len -> Z.land op SPIFFS_OP_TYPE_MASK = SPIFFS_OP_T_OBJ_LU2 ->
  wp (spiffs_phys_rd op fh addr len) (fun r s' =>
    r = (SPIFFS_OK, vread (view s) addr len) /\ cache_frame s s' /\ fs_ok (T - 1) s' /\ keeps_uncached s s') s.
Proof.
  intros Hok HT (p & off & ? & ? & ? & ? & ?) Hop. wp_apply phys_rd_at; [done..|]. intros r s' (? & ? & ? & Hk). auto.
Qed.

Lemma phys_wr_ok T s op fh addr src :
  fs_ok T s -> 1 <= T -> in_page (cfg s) addr (zlen src) -> coherent_wr op (view s) addr src ->
  wp (spiffs_phys_wr op fh addr src) (wrote (fun _ => True) (T - 1) s addr src) s.
Proof. intros Hok HT (p & off & ? & ? & ? & ? & ?) Hw. by eapply phys_wr_at. Qed.

Lemma fs_ok_wf T s : fs_ok T s -> wf_cfg (cfg s).
Proof. intros [[] _]. done. Qed.

Lemma fs_ok_bc T s : fs_ok T s -> block_count s = blocks (cfg s).
Proof. intros [[] _]. done. Qed.

(** [fs_ok] depends on cache, flash, configuration and block count only. *)
Lemma fs_okx_same coh T s s' :
  fs_okx coh T s -> cfg s' = cfg s -> block_count s' = block_count s -> flash s' = flash s -> cache s' = cache s ->
  fs_okx coh T s'.
Proof.
  intros ([] & ca & Hc & Hinv) Ecfg Ebc Efl Eca. unfold fs_okx, view. rewrite Ecfg, Eca, Efl.
  split; [|by exists ca]. split; rewrite ?Ecfg, ?Ebc, ?Efl; done.
Qed.

End io.

#[export] Hint Resolve fs_ok_wf : core.

(** Takes the branches for a call that returned [SPIFFS_OK]. *)
Ltac ok_res :=
  cbv zeta; cbn [fst snd];
  repeat (match goal with
  | |- context [SPIFFS_OK <? SPIFFS_OK] => change (SPIFFS_OK <? SPIFFS_OK) with false
  | |- context [SPIFFS_OK =? SPIFFS_OK] => change (SPIFFS_OK =? SPIFFS_OK) with true
  | |- context [SPIFFS_OK =? SPIFFS_VIS_END] => change (SPIFFS_OK =? SPIFFS_VIS_END) with false
  | |- context [SPIFFS_VIS_END =? SPIFFS_VIS_END] => change (SPIFFS_VIS_END =? SPIFFS_VIS_END) with true
  | |- context [SPIFFS_ERR_NOT_FOUND <? SPIFFS_OK] => change (SPIFFS_ERR_NOT_FOUND <? SPIFFS_OK) with true
  end; cbn [negb andb]; cbv iota).
