(* ===== verification/SpiffsLookup.v ===== *)
(** Object lookup of SPIFFS ([spiffs_nucleus.c]): physical copy, the lookup
    visitor all searches are built on, block erase, and the mount-time scan. *)
From S2P Require Import Prelude CSem SpiffsTypes SpiffsCache.
From stdpp Require Import base list numbers option.

Open Scope Z_scope.

Section defs.
  Context {F : Type} {hal : SpiffsHal F}.

(** [_spiffs_rd] of a page header and of an object id. *)
Definition rd_page_header (op fh addr : Z) : C (spiffs F) (Z * spiffs_page_header) :=
  r ← spiffs_phys_rd op fh addr sizeof_page_header;
  mret (r.1, dec_page_header r.2).

Definition rd_obj_id (op fh addr : Z) : C (spiffs F) (Z * Z) :=
  r ← spiffs_phys_rd op fh addr sizeof_obj_id;
  mret (r.1, dec16 r.2).

(** Entry [k] of the object ids in [fs->lu_work]. *)
Definition obj_lu_buf (k : Z) (s : spiffs F) : Z := dec16 (slice (lu_work s) (k * sizeof_obj_id) sizeof_obj_id).

(** Loads lookup page [page] of the block at [addr] into [fs->lu_work]. *)
Definition rd_lu_page (addr page : Z) : C (spiffs F) Z :=
  c ← gets cfg;
  r ← spiffs_phys_rd (Z.lor SPIFFS_OP_T_OBJ_LU SPIFFS_OP_C_READ) 0
        (u32 (addr + SPIFFS_PAGE_TO_PADDR c page)) (log_page_size c);
  modify (set_lu_work r.2);; mret r.1.

(** ** [spiffs_phys_cpy] *)

Definition spiffs_phys_cpy (fh dst src len : Z) : C (spiffs F) Z :=
  r ← loop (Z.to_nat len + 1) (fun '(dst, src, len) =>
        if 0 <? len then
          let chunk_size := Z.min SPIFFS_COPY_BUFFER_STACK len in
          b ← spiffs_phys_rd (Z.lor SPIFFS_OP_T_OBJ_DA SPIFFS_OP_C_MOVS) fh src chunk_size;
          if b.1 <? SPIFFS_OK then mret (Return b.1)
          else
            res ← spiffs_phys_wr (Z.lor SPIFFS_OP_T_OBJ_DA SPIFFS_OP_C_MOVD) fh dst b.2;
            if res <? SPIFFS_OK then mret (Return res)
            else mret (Next (u32 (dst + chunk_size), u32 (src + chunk_size), len - chunk_size))
        else mret (Exit (dst, src, len))) (dst, src, len);
  match r with inl _ => mret SPIFFS_OK | inr res => mret res end.

(** ** The lookup visitor *)

(** A visitor: object id, block, entry and the variable behind [user_var_p];
    what [user_const_p] points to is captured by the closure. *)
Definition spiffs_visitor_f (U : Type) : Type := Z -> Z -> Z -> U -> C (spiffs F) (Z * U).

(** Local variables of the search that live across its loops: [res],
    [entry_count], [cur_entry], [*block_ix], [*lu_entry] and [*user_var_p]. *)
Record lu_vars (U : Type) : Type := mkLu {
  lv_res : Z;
  lv_entry_count : Z;
  lv_cur_entry : Z;
  lv_block_ix : Z;
  lv_lu_entry : Z;
  lv_user : U
}.

(** The result of a search: return code, [*block_ix], [*lu_entry], [*user_var_p]. *)
Record lu_result (U : Type) : Type := mkLuRes {
  lr_res : Z;
  lr_block_ix : Z;
  lr_lu_entry : Z;
  lr_user : U
}.

Context {U : Type}.

Definition lu_return (res : Z) (l : lu_vars U) : lu_result U :=
  mkLuRes U res (lv_block_ix U l) (lv_lu_entry U l) (lv_user U l).

(** Body of the "check each entry" loop. *)
Definition lu_entry_body (flags obj_id : Z) (v : option (spiffs_visitor_f U))
    (cur_block cur_block_addr obj_lookup_page entry_offset entries_per_page : Z)
    (l : lu_vars U) : C (spiffs F) (ctl (lu_vars U) (lu_result U)) :=
  c ← gets cfg;
  let cur_entry := lv_cur_entry U l in
  if (lv_res U l =? SPIFFS_OK) && (cur_entry - entry_offset <? entries_per_page)
     && (cur_entry <? s32 (SPIFFS_OBJ_LOOKUP_MAX_ENTRIES c)) then
    id ← gets (obj_lu_buf (cur_entry - entry_offset));
    if negb (hasb flags SPIFFS_VIS_CHECK_ID) || (id =? obj_id) then
      match v with
      | Some v =>
          r ← v (if hasb flags SPIFFS_VIS_CHECK_PH then obj_id else id) cur_block cur_entry (lv_user U l);
          let found := mkLuRes U r.1 cur_block cur_entry r.2 in
          if (r.1 =? SPIFFS_VIS_COUNTINUE) || (r.1 =? SPIFFS_VIS_COUNTINUE_RELOAD) then
            res ← (if r.1 =? SPIFFS_VIS_COUNTINUE_RELOAD
                   then rd_lu_page cur_block_addr obj_lookup_page else mret SPIFFS_OK);
            if res <? SPIFFS_OK then mret (Return (mkLuRes U res cur_block cur_entry r.2))
            else mret (Next (mkLu U SPIFFS_OK (lv_entry_count U l - 1) (cur_entry + 1) cur_block cur_entry r.2))
          else mret (Return found)
      | None => mret (Return (mkLuRes U SPIFFS_OK cur_block cur_entry (lv_user U l)))
      end
    else mret (Next (mkLu U (lv_res U l) (lv_entry_count U l - 1) (cur_entry + 1)
                       (lv_block_ix U l) (lv_lu_entry U l) (lv_user U l)))
  else mret (Exit l).

(** Body of the "check each object lookup page" loop. *)
Definition lu_page_body (flags obj_id : Z) (v : option (spiffs_visitor_f U))
    (cur_block cur_block_addr entries_per_page : Z)
    (lp : lu_vars U * Z) : C (spiffs F) (ctl (lu_vars U * Z) (lu_result U)) :=
  c ← gets cfg;
  let '(l, obj_lookup_page) := lp in
  if (lv_res U l =? SPIFFS_OK) && (obj_lookup_page <? s32 (SPIFFS_OBJ_LOOKUP_PAGES c)) then
    let entry_offset := obj_lookup_page * entries_per_page in
    res ← rd_lu_page cur_block_addr obj_lookup_page;
    r ← loop (Z.to_nat entries_per_page + 1)
          (lu_entry_body flags obj_id v cur_block cur_block_addr obj_lookup_page entry_offset entries_per_page)
          (mkLu U res (lv_entry_count U l) (lv_cur_entry U l) (lv_block_ix U l) (lv_lu_entry U l) (lv_user U l));
    match r with
    | inl l' => mret (Next (l', obj_lookup_page + 1))
    | inr r => mret (Return r)
    end
  else mret (Exit lp).

(** Body of the "check each block" loop; the loop variable carries [cur_block]
    and [cur_block_addr]. *)
Definition lu_block_body (flags obj_id : Z) (v : option (spiffs_visitor_f U)) (entries_per_page : Z)
    (lb : lu_vars U * Z * Z) : C (spiffs F) (ctl (lu_vars U * Z * Z) (lu_result U)) :=
  c ← gets cfg;
  bc ← gets block_count;
  let '(l, cur_block, cur_block_addr) := lb in
  if (lv_res U l =? SPIFFS_OK) && (0 <? lv_entry_count U l) then
    r ← loop (Z.to_nat (SPIFFS_OBJ_LOOKUP_PAGES c) + 1)
          (lu_page_body flags obj_id v cur_block cur_block_addr entries_per_page)
          (l, lv_cur_entry U l / entries_per_page);
    match r with
    | inr r => mret (Return r)
    | inl (l', _) =>
        let l'' := mkLu U (lv_res U l') (lv_entry_count U l') 0 (lv_block_ix U l') (lv_lu_entry U l') (lv_user U l') in
        let cur_block' := u16 (cur_block + 1) in
        if bc <=? cur_block' then
          if hasb flags SPIFFS_VIS_NO_WRAP then mret (Return (lu_return SPIFFS_VIS_END l''))
          else mret (Next (l'', 0, 0))
        else mret (Next (l'', cur_block', u32 (cur_block_addr + log_block_size c)))
    end
  else mret (Exit lb).

(** [block_ix0], [lu_entry0] and [u0] are the values of the out parameters and
    of [*user_var_p] on entry. *)
Definition spiffs_obj_lu_find_entry_visitor (starting_block starting_lu_entry flags obj_id : Z)
    (v : option (spiffs_visitor_f U)) (u0 : U) (block_ix0 lu_entry0 : Z) : C (spiffs F) (lu_result U) :=
  c ← gets cfg;
  bc ← gets block_count;
  let entry_count := s32 (u32 (bc * SPIFFS_OBJ_LOOKUP_MAX_ENTRIES c)) in
  let entries_per_page := log_page_size c / sizeof_obj_id in
  let run cur_entry cur_block cur_block_addr :=
    r ← loop (2 * Z.to_nat bc + 3) (lu_block_body flags obj_id v entries_per_page)
          (mkLu U SPIFFS_OK entry_count cur_entry block_ix0 lu_entry0 u0, cur_block, cur_block_addr);
    match r with
    | inr r => mret r
    | inl (l, _, _) =>
        mret (lu_return (if lv_res U l <? SPIFFS_OK then lv_res U l else SPIFFS_VIS_END) l)
    end in
  if s32 (SPIFFS_OBJ_LOOKUP_MAX_ENTRIES c) - 1 <=? starting_lu_entry then
    let cur_block := u16 (starting_block + 1) in
    if bc <=? cur_block then
      if hasb flags SPIFFS_VIS_NO_WRAP then mret (mkLuRes U SPIFFS_VIS_END block_ix0 lu_entry0 u0)
      else run 0 0 0
    else run 0 cur_block (u32 (cur_block * log_block_size c))
  else run starting_lu_entry starting_block (u32 (starting_block * log_block_size c)).

End defs.

Section ops.
  Context {F : Type} {hal : SpiffsHal F}.

(** ** Erasing a block *)

Definition spiffs_erase_block (bix : Z) : C (spiffs F) Z :=
  c ← gets cfg;
  let size := s32 (log_block_size c) in
  _ ← loop (Z.to_nat size + 1) (fun '(addr, size) =>
        if 0 <? size then
          _ ← SPIFFS_HAL_ERASE addr (phys_erase_block c);
          mret (Next (u32 (addr + phys_erase_block c), s32 (size - phys_erase_block c)))
        else mret (Exit (R := unit) (addr, size))) (SPIFFS_BLOCK_TO_PADDR c bix, size);
  modify (fun s => set_free_blocks (u32 (free_blocks s + 1)) s);;
  ec ← gets max_erase_count;
  res ← spiffs_phys_wr (Z.lor SPIFFS_OP_C_WRTHRU SPIFFS_OP_T_OBJ_LU2) 0 (SPIFFS_ERASE_COUNT_PADDR c bix) (enc16 ec);
  if res <? SPIFFS_OK then mret res
  else
    res ← spiffs_phys_wr (Z.lor SPIFFS_OP_C_WRTHRU SPIFFS_OP_T_OBJ_LU2) 0 (SPIFFS_MAGIC_PADDR c bix) (enc16 (SPIFFS_MAGIC c));
    if res <? SPIFFS_OK then mret res
    else
      modify (fun s => set_max_erase_count (u16 (max_erase_count s + 1)) s);;
      modify (fun s => if max_erase_count s =? SPIFFS_OBJ_ID_IX_FLAG then set_max_erase_count 0 s else s);;
      mret res.

(** ** The mount-time scan *)

Definition spiffs_obj_lu_scan_v : spiffs_visitor_f (F := F) unit := fun obj_id bix ix_entry u =>
  (if obj_id =? SPIFFS_OBJ_ID_FREE then
     if ix_entry =? 0 then modify (fun s => set_free_blocks (u32 (free_blocks s + 1)) s) else mret tt
   else if obj_id =? SPIFFS_OBJ_ID_DELETED then
     modify (fun s => set_stats_p_deleted (u32 (stats_p_deleted s + 1)) s)
   else modify (fun s => set_stats_p_allocated (u32 (stats_p_allocated s + 1)) s));;
  mret (SPIFFS_VIS_COUNTINUE, u).

(** The loop over all blocks that finds the erase counts and checks the magic:
    [bix], [unerased_bix], [erase_count_min], [erase_count_max]. *)
Definition scan_block_body (l : Z * Z * Z * Z) : C (spiffs F) (ctl (Z * Z * Z * Z) Z) :=
  c ← gets cfg;
  bc ← gets block_count;
  let '(bix, unerased_bix, ec_min, ec_max) := l in
  if bix <? bc then
    m ← rd_obj_id (Z.lor SPIFFS_OP_T_OBJ_LU2 SPIFFS_OP_C_READ) 0 (SPIFFS_MAGIC_PADDR c bix);
    if m.1 <? SPIFFS_OK then mret (Return m.1)
    else if negb (m.2 =? SPIFFS_MAGIC c) && negb (unerased_bix =? IX_NONE) then
      mret (Return SPIFFS_ERR_NOT_A_FS)
    else
      let unerased' := if negb (m.2 =? SPIFFS_MAGIC c) then bix else unerased_bix in
      e ← rd_obj_id (Z.lor SPIFFS_OP_T_OBJ_LU2 SPIFFS_OP_C_READ) 0 (SPIFFS_ERASE_COUNT_PADDR c bix);
      if e.1 <? SPIFFS_OK then mret (Return e.1)
      else if negb (e.2 =? SPIFFS_OBJ_ID_FREE)
      then mret (Next (u16 (bix + 1), unerased', Z.min ec_min e.2, Z.max ec_max e.2))
      else mret (Next (u16 (bix + 1), unerased', ec_min, ec_max))
  else mret (Exit l).

(** The new erase count from the smallest and the largest one found. *)
Definition scan_erase_count (ec_min ec_max : Z) : Z :=
  if (ec_min =? 0) && (ec_max =? SPIFFS_OBJ_ID_FREE) then 0
  else if SPIFFS_OBJ_ID_FREE / 2 <? ec_max - ec_min then u16 (ec_min + 1)
  else u16 (ec_max + 1).

Definition spiffs_obj_lu_scan : C (spiffs F) Z :=
  bc ← gets block_count;
  r ← loop (Z.to_nat bc + 1) scan_block_body (0, IX_NONE, SPIFFS_OBJ_ID_FREE, 0);
  match r with
  | inr res => mret res
  | inl (_, unerased_bix, ec_min, ec_max) =>
      modify (set_max_erase_count (scan_erase_count ec_min ec_max));;
      res ← (if negb (unerased_bix =? IX_NONE) then spiffs_erase_block unerased_bix else mret SPIFFS_OK);
      if res <? SPIFFS_OK then mret res
      else
        modify (set_free_blocks 0);;
        modify (set_stats_p_allocated 0);;
        modify (set_stats_p_deleted 0);;
        r ← spiffs_obj_lu_find_entry_visitor 0 0 0 0 (Some spiffs_obj_lu_scan_v) tt 0 0;
        mret (if lr_res unit r =? SPIFFS_VIS_END then SPIFFS_OK else lr_res unit r)
  end.

(** ** Searching an object id *)

Definition spiffs_obj_lu_find_id (starting_block starting_lu_entry obj_id block_ix0 lu_entry0 : Z)
    : C (spiffs F) (Z * Z * Z) :=
  r ← spiffs_obj_lu_find_entry_visitor starting_block starting_lu_entry SPIFFS_VIS_CHECK_ID obj_id
        None tt block_ix0 lu_entry0;
  mret (if lr_res unit r =? SPIFFS_VIS_END then SPIFFS_ERR_NOT_FOUND else lr_res unit r,
        lr_block_ix unit r, lr_lu_entry unit r).

End ops.
