(* ===== verification/SpiffsSearch.v ===== *)
(** Correctness of the object lookup search ([spiffs_obj_lu_find_entry_visitor]):
    it visits the lookup entries of all blocks in cyclic order and terminates.
    The rule [visitor_rule] is proved once and used for every search. *)
From S2P Require Import Prelude CSem SpiffsTypes SpiffsGeom SpiffsCache SpiffsIo SpiffsLookup.
From stdpp Require Import base list numbers option.

Open Scope Z_scope.

(** The object id in lookup entry [e] of block [b]. *)
Definition lu_id (c : spiffs_config) (v : Z -> Z) (b e : Z) : Z := dec16 (vread v (baddr c b + 2 * e) 2).

(** The contents of lookup page [k] of block [b]. *)
Definition lu_page (c : spiffs_config) (v : Z -> Z) (b k : Z) : list Z :=
  vread v (paddr c (b * ppb c + k)) (psz c).

(** Positions in scan order: the block counter goes on past the last block. *)
Definition pos (c : spiffs_config) (kb e : Z) : Z := kb * lue c + e.
Definition wrap_block (c : spiffs_config) (kb : Z) : Z := if kb <? blocks c then kb else kb - blocks c.

Section search.
Context {F : Type} {hal : SpiffsHal F} {nor : NorHal F}.
Implicit Types s : spiffs F.

(** Only cache and lookup buffer differ. *)
Definition lu_frame s s' : Prop := s' = set_lu_work (lu_work s') (set_cache (cache s') s).

Lemma rd_lu_page_ok c T s b k :
  fs_ok T s -> cfg s = c -> 1 <= T -> 0 <= b < blocks c -> 0 <= k < lup c ->
  wp (rd_lu_page (u32 (b * bsz c)) k) (fun r s' => r = SPIFFS_OK /\ lu_frame s s' /\ fs_ok (T - 1) s' /\
    lu_work s' = lu_page c (view s) b k) s.
Proof.
  intros Hok <- HT Hb Hk. pose proof (fs_ok_wf _ _ Hok) as Hwf. pose proof (wf_psz _ Hwf).
  destruct (lu_page_addr _ Hwf b k Hb Hk) as [Ha Hp].
  unfold rd_lu_page. wp_step. wp_step. rewrite Ha. wp_step.
  wp_apply phys_rd_ok; [done|done| |].
  { exists (b * ppb (cfg s) + k), 0. lia. }
  intros r s' (-> & Hfr & Hok'). wp_step. wp_step. wp_step. cbn. split; [done|].
  split; [unfold lu_frame; cbn; by rewrite Hfr|]. split; [|done].
  eapply fs_okx_same; [exact Hok'|done..].
Qed.

Lemma lu_buf_entry c v b k i : wf_cfg c -> 0 <= b < blocks c -> 0 <= k < lup c -> 0 <= i < psz c / 2 ->
  dec16 (slice (lu_page c v b k) (i * sizeof_obj_id) sizeof_obj_id) = lu_id c v b (k * (psz c / 2) + i).
Proof.
  intros Hwf Hb Hk Hi. unfold lu_page, lu_id, sizeof_obj_id.
  pose proof (Z.div_mod (psz c) 2 ltac:(lia)). pose proof (wf_psz_even _ Hwf).
  destruct (lu_page_addr _ Hwf b k Hb Hk) as [_ Hp].
  rewrite slice_vread by lia. do 2 f_equal. rewrite baddr_eq, paddr_eq by (done || lia).
  rewrite (wf_bsz _ Hwf). nia.
Qed.

Section rule.
Context {U : Type} (c : spiffs_config) (v0 : Z -> Z) (flags obj_id : Z) (v : option (spiffs_visitor_f (F := F) U)).
Context (I : Z -> U -> spiffs F -> Prop) (Q : lu_result U -> spiffs F -> Prop) (K R0 p0 : Z).
Abbreviation ME := (lue c).
Abbreviation MB := (blocks c).
Abbreviation epp := (psz c / 2).

Definition visit : spiffs_visitor_f (F := F) U := default (fun _ _ _ u => mret (SPIFFS_OK, u)) v.
Definition entry_matches (id : Z) : bool := negb (hasb flags SPIFFS_VIS_CHECK_ID) || (id =? obj_id).

(** Block counters whose entries are visited. *)
Definition in_scan (kb : Z) : Prop := 0 <= wrap_block c kb < MB /\ kb * ME < p0 + MB * ME.

Hypothesis Hwf : wf_cfg c.
Hypothesis HK : 0 <= K.
Hypothesis HR0 : 0 <= R0.
Hypothesis Hbase : forall p u s, I p u s -> cfg s = c /\ forall x, view s x = v0 x.
Hypothesis Hstable : forall p u s s', I p u s -> lu_frame s s' -> I p u s'.
Hypothesis Hskip : forall kb e u s, 0 <= e < ME -> in_scan kb ->
  entry_matches (lu_id c v0 (wrap_block c kb) e) = false ->
  I (pos c kb e) u s -> I (pos c kb e + 1) u s.
Hypothesis Hvisit : forall T kb e u s, 0 <= e < ME -> in_scan kb ->
  entry_matches (lu_id c v0 (wrap_block c kb) e) = true ->
  I (pos c kb e) u s -> fs_ok T s -> K + R0 <= T ->
  wp (visit (if hasb flags SPIFFS_VIS_CHECK_PH then obj_id else lu_id c v0 (wrap_block c kb) e)
        (wrap_block c kb) e u)
    (fun r s' =>
       (r.1 = SPIFFS_VIS_COUNTINUE /\ I (pos c kb e + 1) r.2 s' /\ lu_work s' = lu_work s /\ fs_ok (T - K) s')
       \/ (r.1 <> SPIFFS_VIS_COUNTINUE /\ r.1 <> SPIFFS_VIS_COUNTINUE_RELOAD /\
           Q (mkLuRes U r.1 (wrap_block c kb) e r.2) s')) s.
Hypothesis Hend : forall T p u s bix ent, I p u s -> fs_ok T s -> R0 <= T ->
  p0 + MB * ME <= p \/ (hasb flags SPIFFS_VIS_NO_WRAP = true /\ p = MB * ME) ->
  Q (mkLuRes U SPIFFS_VIS_END bix ent u) s.

(** What the loop variables say in block [kb]. *)
Definition lu_state (kb R : Z) (l : lu_vars U) s : Prop :=
  lv_res U l = SPIFFS_OK /\ 0 <= lv_cur_entry U l <= ME /\
  lv_entry_count U l = p0 + MB * ME - pos c kb (lv_cur_entry U l) /\
  I (pos c kb (lv_cur_entry U l)) (lv_user U l) s /\
  fs_ok (R + (ME - lv_cur_entry U l) * K) s.

Lemma entry_body_rule kb k R l s :
  in_scan kb -> 0 <= k < lup c -> R0 <= R -> lu_state kb R l s ->
  k * epp <= lv_cur_entry U l \/ lv_cur_entry U l = ME ->
  lu_work s = lu_page c v0 (wrap_block c kb) k ->
  wp (lu_entry_body flags obj_id v (wrap_block c kb) (u32 (wrap_block c kb * bsz c)) k (k * epp) epp l)
    (fun r s' =>
       match r with
       | Next l' => lu_state kb R l' s' /\ lv_cur_entry U l' = lv_cur_entry U l + 1 /\
           lv_cur_entry U l < Z.min ME ((k + 1) * epp) /\
           lu_work s' = lu_page c v0 (wrap_block c kb) k
       | Exit l' => l' = l /\ s' = s /\ Z.min ME ((k + 1) * epp) <= lv_cur_entry U l
       | Return r => Q r s'
       end) s.
Proof using Hwf HK HR0 Hbase Hskip Hvisit.
  intros Hkb Hk HR (Hres & He & Hec & HI & Hok) Hke Hlu. pose proof Hkb as [Hwb _]. destruct (Hbase _ _ _ HI) as [Hcfg Hv].
  pose proof (lue_range c Hwf). unfold lu_entry_body. wp_step. wp_step. rewrite Hcfg, Hres.
  rewrite s32_small by lia. change (SPIFFS_OK =? SPIFFS_OK) with true. cbn [andb].
  wp_step.
  2: { wp_step. split; [done|]. split; [done|]. apply andb_false_iff in E as [E|E]; bools; lia. }
  set (e := lv_cur_entry U l) in *. wp_step. wp_step. unfold obj_lu_buf. rewrite Hlu, lu_buf_entry by (done || lia).
  replace (k * epp + (e - k * epp)) with e by lia.
  assert (Hmul : (ME - e) * K = (ME - (e + 1)) * K + K) by ring.
  assert (0 <= (ME - (e + 1)) * K) by (apply Z.mul_nonneg_nonneg; lia).
  fold (entry_matches (lu_id c v0 (wrap_block c kb) e)). wp_step.
  - pose proof (Hvisit (R + (ME - e) * K) kb e (lv_user U l) s ltac:(lia) Hkb E HI Hok ltac:(lia)) as Hw.
    unfold visit in Hw. destruct v as [vf|]; cbn [default] in Hw.
    + wp_step. wp_apply Hw. intros [r u] s' [(-> & HI' & Hlw & Hok')|(Hn1 & Hn2 & HQ)]; cbn [fst snd] in *.
      * rewrite Z.eqb_refl. cbn [orb].
        change (SPIFFS_VIS_COUNTINUE =? SPIFFS_VIS_COUNTINUE_RELOAD) with false. cbv iota.
        wp_step. wp_step. change (SPIFFS_OK <? SPIFFS_OK) with false. cbv iota. wp_step. cbn.
        split; [|split; [done|split; [lia|by rewrite Hlw]]]. split; cbn; [done|]. split; [lia|].
        unfold pos in *. split; [lia|]. rewrite Z.add_assoc. split; [done|].
        replace (R + (ME - (e + 1)) * K) with (R + (ME - e) * K - K) by lia. done.
      * rewrite (proj2 (Z.eqb_neq _ _) Hn1), (proj2 (Z.eqb_neq _ _) Hn2). cbn [orb]. wp_step. done.
    + unfold wp in Hw. cbn in Hw. wp_step. destruct Hw as [(Hw & _)|(_ & _ & HQ)]; [done|]. done.
  - wp_step. cbn. split; [|split; [done|split; [lia|done]]]. split; cbn; [done|]. split; [lia|].
    unfold pos in *. split; [lia|]. rewrite Z.add_assoc. split.
    + fold (pos c kb e) in *. apply Hskip; [lia|done|done|done].
    + eapply fs_okx_weaken; [exact Hok|]. lia.
Qed.

Lemma lu_state_frame kb R R' l s s' : lu_state kb R l s -> lu_frame s s' ->
  fs_ok (R' + (ME - lv_cur_entry U l) * K) s' -> lu_state kb R' l s'.
Proof using Hstable.
  intros (? & ? & ? & HI & Hok) Hf Hok'. split; [done|]. split; [done|]. split; [done|].
  split; [by eapply Hstable|done].
Qed.

(** All entries of one lookup page. *)
Lemma entry_loop_rule kb k R l s :
  in_scan kb -> 0 <= k < lup c -> R0 <= R -> lu_state kb R l s ->
  k * epp <= lv_cur_entry U l \/ lv_cur_entry U l = ME ->
  lv_cur_entry U l <= Z.min ME ((k + 1) * epp) ->
  lu_work s = lu_page c v0 (wrap_block c kb) k ->
  wp (loop (Z.to_nat epp + 1)
        (lu_entry_body flags obj_id v (wrap_block c kb) (u32 (wrap_block c kb * bsz c)) k (k * epp) epp) l)
    (fun r s' =>
       match r with
       | inl l' => lu_state kb R l' s' /\ lv_cur_entry U l' = Z.min ME ((k + 1) * epp)
       | inr r => Q r s'
       end) s.
Proof using Hwf HK HR0 Hbase Hskip Hvisit.
  intros Hkb Hk HR Hst Hke Hle Hlu.
  apply wp_loop with
    (I := fun l s => lu_state kb R l s /\ (k * epp <= lv_cur_entry U l \/ lv_cur_entry U l = ME) /\
                     lv_cur_entry U l <= Z.min ME ((k + 1) * epp) /\ lu_work s = lu_page c v0 (wrap_block c kb) k)
    (measure := fun l => Z.to_nat (Z.min ME ((k + 1) * epp) - lv_cur_entry U l)).
  - clear l s Hst Hke Hle Hlu. intros l s (Hst & Hke & Hle & Hlu).
    wp_apply entry_body_rule; [done..|]. intros [l'|l'|r] s'; [| |done].
    + intros (Hst' & He' & Hlt & Hlu'). rewrite He'. split; [|lia]. split; [done|]. split; [lia|]. split; [lia|done].
    + intros (-> & -> & Hge). split; [done|lia].
  - destruct Hst as (_ & ? & _). lia.
  - done.
Qed.

Lemma page_body_rule kb k R l s :
  in_scan kb -> 0 <= k <= lup c -> R0 <= R -> lu_state kb (R + (lup c - k)) l s ->
  k * epp <= lv_cur_entry U l \/ lv_cur_entry U l = ME ->
  lv_cur_entry U l <= Z.min ME ((k + 1) * epp) ->
  wp (lu_page_body flags obj_id v (wrap_block c kb) (u32 (wrap_block c kb * bsz c)) epp (l, k))
    (fun r s' =>
       match r with
       | Next (l', k') => lu_state kb (R + (lup c - k')) l' s' /\ k' = k + 1 /\ k < lup c /\
           lv_cur_entry U l' = Z.min ME ((k + 1) * epp)
       | Exit (l', k') => l' = l /\ s' = s /\ k = lup c
       | Return r => Q r s'
       end) s.
Proof using Hwf HK HR0 Hbase Hstable Hskip Hvisit.
  intros Hkb Hk HR Hst Hke Hle. pose proof Hkb as [Hwb _]. pose proof Hst as (Hres & _ & _ & HI & Hok). destruct (Hbase _ _ _ HI) as [Hcfg Hv].
  pose proof (ppb_pos c Hwf). pose proof (wf_lup c Hwf).
  unfold lu_page_body. wp_step. wp_step. rewrite Hcfg, Hres, s32_small by lia.
  change (SPIFFS_OK =? SPIFFS_OK) with true. cbn [andb]. wp_step; [|wp_step; repeat split; lia].
  destruct Hst as (Hres' & He & Hec & HI' & Hok').
  assert (0 <= (ME - lv_cur_entry U l) * K) by (apply Z.mul_nonneg_nonneg; lia).
  wp_step. wp_apply (rd_lu_page_ok c _ s (wrap_block c kb) k Hok Hcfg); [lia|lia|lia|].
  intros r s' (-> & Hfr & Hok1 & Hlu). wp_step.
  wp_apply (entry_loop_rule kb k (R + (lup c - (k + 1)))); [done|lia|lia| |exact Hke|exact Hle| |].
  - apply (lu_state_frame kb (R + (lup c - k)) _ _ s s'); [done|done|]. cbn [lv_cur_entry].
    replace (R + (lup c - (k + 1)) + (ME - lv_cur_entry U l) * K)
      with (R + (lup c - k) + (ME - lv_cur_entry U l) * K - 1) by lia. done.
  - rewrite Hlu. apply vread_ext. intros; apply Hv.
  - intros [l'|r] s''; [|done]. intros [Hst' He']. wp_step. split; [done|]. split; [done|]. split; [lia|done].
Qed.

(** All lookup pages of one block. *)
Lemma page_loop_rule kb R l s :
  in_scan kb -> R0 <= R -> lu_state kb (R + lup c) l s -> lv_cur_entry U l < ME ->
  wp (loop (Z.to_nat (lup c) + 1)
        (lu_page_body flags obj_id v (wrap_block c kb) (u32 (wrap_block c kb * bsz c)) epp)
        (l, lv_cur_entry U l / epp))
    (fun r s' =>
       match r with
       | inl (l', _) => lu_state kb R l' s' /\ lv_cur_entry U l' = ME
       | inr r => Q r s'
       end) s.
Proof using Hwf HK HR0 Hbase Hstable Hskip Hvisit.
  intros Hkb HR Hst Hlt. pose proof (wf_lup c Hwf). pose proof (wf_psz c Hwf). pose proof (wf_fit c Hwf).
  pose proof (lue_eq c Hwf). pose proof (wf_psz_even c Hwf). pose proof (Z.div_mod (psz c) 2 ltac:(lia)).
  assert (Hfit : ME <= lup c * epp) by nia.
  assert (Hpos : 0 < epp) by lia.
  apply wp_loop_ix with (n := Z.to_nat (lup c - lv_cur_entry U l / epp))
    (I := fun n '(l, k) s => n = Z.to_nat (lup c - k) /\ 0 <= k <= lup c /\ lu_state kb (R + (lup c - k)) l s /\
            (k * epp <= lv_cur_entry U l \/ lv_cur_entry U l = ME) /\
            lv_cur_entry U l <= Z.min ME ((k + 1) * epp)).
  - clear l s Hst Hlt. intros n [l k] s (-> & Hk & Hst & Hke & Hle).
    wp_apply (page_body_rule kb k R); [done..|]. intros [[l' k']|[l' k']|r] s'; [| |done].
    + intros (Hst' & -> & Hkl & He'). exists (Z.to_nat (lup c - (k + 1))). split; [lia|]. split; [done|].
      split; [lia|]. split; [done|]. lia.
    + intros (-> & -> & ->). replace (R + (lup c - lup c)) with R in Hst by lia. split; [done|].
      destruct Hst as (_ & ? & _). lia.
  - destruct Hst as (_ & ? & _). pose proof (Z.div_pos (lv_cur_entry U l) epp ltac:(lia) Hpos). lia.
  - pose proof Hst as (Hr & Hb & Hec & HI & Hok).
    pose proof (Z.div_pos (lv_cur_entry U l) epp ltac:(lia) Hpos).
    pose proof (Z.div_mod (lv_cur_entry U l) epp ltac:(lia)).
    pose proof (Z.mod_pos_bound (lv_cur_entry U l) epp Hpos).
    assert (lv_cur_entry U l / epp < lup c) by (apply Z.div_lt_upper_bound; lia).
    split; [done|]. split; [lia|]. split; [|lia]. split; [done|]. split; [done|]. split; [done|]. split; [done|].
    eapply fs_okx_weaken; [exact Hok|].
    assert (0 <= (ME - lv_cur_entry U l) * K) by (apply Z.mul_nonneg_nonneg; lia). lia.
Qed.

(** Ticks for scanning one whole block. *)
Definition block_ticks : Z := lup c + ME * K.

(** The head of the block loop: in block [kb], or past the last one. *)
Definition block_state (b0 : Z) (n : nat) (lb : lu_vars U * Z * Z) s : Prop :=
  let '(l, cur_block, addr) := lb in
  (exists kb, n = Z.to_nat (b0 + MB + 1 - kb) /\ b0 <= kb <= b0 + MB /\ 0 <= wrap_block c kb < MB /\
     cur_block = wrap_block c kb /\ addr = u32 (wrap_block c kb * bsz c) /\
     lu_state kb ((b0 + MB - kb) * block_ticks + R0 + lup c) l s /\ lv_cur_entry U l < ME)
  \/ (lv_res U l = SPIFFS_OK /\ lv_entry_count U l <= 0 /\
      exists p T, I p (lv_user U l) s /\ fs_ok T s /\ R0 <= T /\ p0 + MB * ME <= p).

Lemma block_body_rule b0 e0 n lb s :
  0 <= b0 < MB -> 0 <= e0 < ME -> p0 = pos c b0 e0 -> block_state b0 n lb s ->
  wp (lu_block_body flags obj_id v epp lb)
    (fun r s' =>
       match r with
       | Next lb' => exists n', (n' < n)%nat /\ block_state b0 n' lb' s'
       | Exit lb' => Q (lu_return SPIFFS_VIS_END (fst (fst lb'))) s' /\ lv_res U (fst (fst lb')) = SPIFFS_OK
       | Return r => Q r s'
       end) s.
Proof using Hwf HK HR0 Hbase Hstable Hskip Hvisit Hend.
  destruct lb as [[l cur_block] addr].
  intros Hb0 He0 Hp0 [(kb & -> & Hkb & Hwb & -> & -> & Hst & Hlt)|(Hres & Hec & p & T & HI & Hok & HT & Hp)].
  2: { unfold lu_block_body. wp_step. wp_step. wp_step. wp_step. rewrite Hres.
    replace (0 <? lv_entry_count U l) with false by (symmetry; apply Z.ltb_ge; lia). rewrite andb_false_r.
    wp_step. split; [|done]. eapply Hend; eauto. }
  pose proof Hst as (Hres & He & Hec & HI & Hok). destruct (Hbase _ _ _ HI) as [Hcfg _].
  pose proof (lue_range c Hwf). pose proof (wf_lup c Hwf). pose proof (wf_pages_lt c Hwf). pose proof (wf_pages c Hwf).
  assert (HW : 0 <= block_ticks) by (unfold block_ticks; nia).
  unfold lu_block_body. wp_step. wp_step. wp_step. wp_step. rewrite (fs_ok_bc _ _ Hok), Hcfg, Hres.
  change (SPIFFS_OK =? SPIFFS_OK) with true. cbn [andb]. wp_step.
  2: { wp_step. split; [|done]. eapply Hend; [done|done|nia|]. left. lia. }
  wp_step. wp_apply (page_loop_rule kb ((b0 + MB - kb) * block_ticks + R0)); [split; [done|unfold pos in *; nia]|nia|done|done|].
  intros [[l' k']|r] s'; [|intros; by wp_step]. intros [Hst' He'].
  pose proof Hst' as (Hres' & _ & Hec' & HI' & Hok'). rewrite He' in *.
  assert (Hpe : pos c kb ME = pos c (kb + 1) 0) by (unfold pos; ring). rewrite Hpe in *.
  assert (Hbb : wrap_block c kb < 65535) by nia.
  rewrite u16_small by lia.
  assert (Hnext : forall cb ad, (kb + 1 <= b0 + MB -> 0 <= wrap_block c (kb + 1) < MB /\ cb = wrap_block c (kb + 1) /\
             ad = u32 (wrap_block c (kb + 1) * bsz c)) ->
           exists n', (n' < Z.to_nat (b0 + MB + 1 - kb))%nat /\
             block_state b0 n' (mkLu U (lv_res U l') (lv_entry_count U l') 0 (lv_block_ix U l') (lv_lu_entry U l')
               (lv_user U l'), cb, ad) s').
  { intros cb ad Hcb. exists (Z.to_nat (b0 + MB + 1 - (kb + 1))). split; [lia|].
    destruct (decide (kb + 1 <= b0 + MB)) as [Hle|Hgt].
    - left. exists (kb + 1). destruct (Hcb Hle) as (? & ? & ?). do 5 (split; [done || lia|]).
      split; [|cbn; lia]. split; [done|]. split; [cbn; lia|]. split; [done|]. split; [done|].
      eapply fs_okx_weaken; [exact Hok'|]. cbn [lv_cur_entry]. unfold block_ticks in *. nia.
    - right. split; [done|]. assert (kb = b0 + MB) as -> by lia. cbn [lv_entry_count]. unfold pos in *.
      split; [nia|]. eexists _, _. split; [exact HI'|]. split; [exact Hok'|]. nia. }
  unfold wrap_block in *. pose proof (bsz_lt c Hwf). destruct (kb <? MB) eqn:Ekb; bools.
  - destruct (MB <=? kb + 1) eqn:Ew; bools.
    + assert (kb + 1 = MB) by lia. destruct (hasb flags SPIFFS_VIS_NO_WRAP) eqn:Enw.
      * wp_step. eapply Hend; [exact HI'|exact Hok'|nia|]. right. split; [done|]. unfold pos. nia.
      * wp_step. apply Hnext. intros _. rewrite (proj2 (Z.ltb_ge _ _)) by lia.
        replace (kb + 1 - MB) with 0 by lia. split; [lia|]. split; [done|]. by rewrite u32_small.
    + wp_step. apply Hnext. intros _. rewrite (proj2 (Z.ltb_lt _ _)) by lia. split; [lia|]. split; [done|].
      destruct Hwf. rewrite (u32_small (kb * bsz c)) by nia. f_equal. lia.
  - destruct (MB <=? kb - MB + 1) eqn:Ew; bools.
    + destruct (hasb flags SPIFFS_VIS_NO_WRAP) eqn:Enw.
      * wp_step. eapply Hend; [exact HI'|exact Hok'|nia|]. left. unfold pos in *. assert ((b0 + MB + 1) * ME <= (kb + 1) * ME) by (apply Z.mul_le_mono_nonneg_r; lia). lia.
      * wp_step. apply Hnext. intros ?. lia.
    + wp_step. apply Hnext. intros ?. rewrite (proj2 (Z.ltb_ge _ _)) by lia.
      replace (kb + 1 - MB) with (kb - MB + 1) by lia. split; [lia|]. split; [done|].
      destruct Hwf. rewrite (u32_small ((kb - MB) * bsz c)) by nia. f_equal. lia.
Qed.

(** Where a search from entry [se] of block [sb] starts: the last entry of a
    block counts as the start of the next block. *)
Definition start_pos (sb se : Z) : Z :=
  if ME - 1 <=? se then
    if MB <=? sb + 1 then (if hasb flags SPIFFS_VIS_NO_WRAP then MB * ME else 0) else (sb + 1) * ME
  else sb * ME + se.

Definition search_ticks : Z := (MB + 1) * block_ticks.

Lemma run_rule T s b0 e0 u0 bix0 ent0 :
  0 <= b0 < MB -> 0 <= e0 < ME -> p0 = pos c b0 e0 -> I p0 u0 s -> fs_ok T s -> search_ticks + R0 <= T ->
  wp (r ← loop (2 * Z.to_nat MB + 3) (lu_block_body flags obj_id v epp)
            (mkLu U SPIFFS_OK (MB * ME) e0 bix0 ent0 u0, b0, u32 (b0 * bsz c));
      match r with
      | inr r => mret r
      | inl (l, _, _) => mret (lu_return (if lv_res U l <? SPIFFS_OK then lv_res U l else SPIFFS_VIS_END) l)
      end) Q s.
Proof using Hwf HK HR0 Hbase Hstable Hskip Hvisit Hend.
  intros Hb He Hp0 HI Hok HT. pose proof (lue_range c Hwf). pose proof (wf_lup c Hwf).
  assert (Hwb : wrap_block c b0 = b0) by (unfold wrap_block; rewrite (proj2 (Z.ltb_lt _ _)) by lia; done).
  wp_step. eapply wp_mono.
  - apply wp_loop_ix with (I := block_state b0) (n := Z.to_nat (b0 + MB + 1 - b0))
      (Q := fun r s' => match r with
                        | inl lb => Q (lu_return SPIFFS_VIS_END (fst (fst lb))) s' /\ lv_res U (fst (fst lb)) = SPIFFS_OK
                        | inr r => Q r s' end).
    + intros n lb s1 Hst. eapply wp_mono; [by eapply block_body_rule|]. intros [|lb'|]; auto.
    + lia.
    + left. exists b0. rewrite Hwb. split; [lia|]. split; [lia|]. split; [done|]. split; [done|]. split; [done|].
      split; [|cbn; lia]. split; [done|]. cbn [lv_cur_entry lv_entry_count lv_user]. split; [lia|].
      split; [lia|]. split; [by rewrite <- Hp0|]. eapply fs_okx_weaken; [exact Hok|].
      assert (0 <= (ME - e0) * K <= ME * K) by nia.
      assert (0 <= MB * block_ticks) by (unfold block_ticks; nia).
      unfold search_ticks in HT. replace ((MB + 1) * block_ticks) with (MB * block_ticks + (lup c + ME * K)) in HT
        by (unfold block_ticks; ring). replace (b0 + MB - b0) with MB by lia. lia.
  - intros [[[l ?] ?]|r] s'; [|intros; by wp_step]. cbn [fst]. intros [HQ Hres]. wp_step. rewrite Hres. done.
Qed.

Theorem visitor_rule T s sb se u0 bix0 ent0 :
  0 <= sb < MB -> 0 <= se -> p0 = start_pos sb se -> I p0 u0 s -> fs_ok T s -> search_ticks + R0 <= T ->
  wp (spiffs_obj_lu_find_entry_visitor sb se flags obj_id v u0 bix0 ent0) Q s.
Proof using Hwf HK HR0 Hbase Hstable Hskip Hvisit Hend.
  intros Hb He Hp0 HI Hok HT. destruct (Hbase _ _ _ HI) as [Hcfg _].
  pose proof (lue_range c Hwf). pose proof (wf_lup c Hwf). pose proof (wf_pages_lt c Hwf). pose proof (wf_pages c Hwf).
  pose proof (lue_eq c Hwf). assert (0 <= MB * ME < 65535) by nia.
  unfold spiffs_obj_lu_find_entry_visitor. wp_step. wp_step. wp_step. wp_step.
  rewrite (fs_ok_bc _ _ Hok), Hcfg, (u32_small (MB * ME)), (s32_small (MB * ME)), (s32_small ME) by lia.
  change (log_page_size c / sizeof_obj_id) with epp. rewrite (u16_small (sb + 1)) by nia.
  unfold start_pos in Hp0. destruct (ME - 1 <=? se) eqn:E1; bools; [destruct (MB <=? sb + 1) eqn:E2; bools|].
  - revert Hp0. case_eq (hasb flags SPIFFS_VIS_NO_WRAP); intros E3 Hp0.
    + wp_step. eapply Hend; [exact HI|exact Hok| |]; [|right; split; [done|lia]].
      unfold search_ticks, block_ticks in HT. nia.
    + eapply (run_rule T s 0 0); try done; try lia; unfold pos; lia.
  - eapply (run_rule T s (sb + 1) 0); try done; try lia; unfold pos; lia.
  - eapply (run_rule T s sb se); try done; lia.
Qed.
End rule.
End search.
