(* ===== verification/SpiffsPage.v ===== *)
(** Pages of SPIFFS: header checks, quick garbage collection, searching a free
    page or a page by object id and span index, and allocating, moving and
    deleting pages ([spiffs_nucleus.c], [spiffs_gc.c]). *)
From S2P Require Import Prelude CSem SpiffsTypes SpiffsCache SpiffsLookup.
From stdpp Require Import base list numbers option.

Open Scope Z_scope.

(** [SPIFFS_VALIDATE_OBJIX] and [SPIFFS_VALIDATE_DATA]: the error returned, if any. *)
Definition SPIFFS_VALIDATE_OBJIX (ph : spiffs_page_header) (objid spix : Z) : option Z :=
  if hasb (ph_flags ph) SPIFFS_PH_FLAG_USED then Some SPIFFS_ERR_IS_FREE
  else if negb (hasb (ph_flags ph) SPIFFS_PH_FLAG_DELET) then Some SPIFFS_ERR_DELETED
  else if hasb (ph_flags ph) SPIFFS_PH_FLAG_FINAL then Some SPIFFS_ERR_NOT_FINALIZED
  else if hasb (ph_flags ph) SPIFFS_PH_FLAG_INDEX then Some SPIFFS_ERR_NOT_INDEX
  else if negb (hasb objid SPIFFS_OBJ_ID_IX_FLAG) then Some SPIFFS_ERR_NOT_INDEX
  else if negb (ph_span_ix ph =? spix) then Some SPIFFS_ERR_INDEX_SPAN_MISMATCH
  else None.

Definition SPIFFS_VALIDATE_DATA (ph : spiffs_page_header) (objid spix : Z) : option Z :=
  if hasb (ph_flags ph) SPIFFS_PH_FLAG_USED then Some SPIFFS_ERR_IS_FREE
  else if negb (hasb (ph_flags ph) SPIFFS_PH_FLAG_DELET) then Some SPIFFS_ERR_DELETED
  else if hasb (ph_flags ph) SPIFFS_PH_FLAG_FINAL then Some SPIFFS_ERR_NOT_FINALIZED
  else if negb (hasb (ph_flags ph) SPIFFS_PH_FLAG_INDEX) then Some SPIFFS_ERR_IS_INDEX
  else if hasb objid SPIFFS_OBJ_ID_IX_FLAG then Some SPIFFS_ERR_IS_INDEX
  else if negb (ph_span_ix ph =? spix) then Some SPIFFS_ERR_DATA_SPAN_MISMATCH
  else None.

Section defs.
  Context {F : Type} {hal : SpiffsHal F}.

Definition spiffs_page_data_check (fd : spiffs_fd) (pix spix : Z) : C (spiffs F) Z :=
  c ← gets cfg;
  if pix =? IX_NONE then mret SPIFFS_ERR_INDEX_REF_FREE
  else if pix mod SPIFFS_PAGES_PER_BLOCK c <? SPIFFS_OBJ_LOOKUP_PAGES c then mret SPIFFS_ERR_INDEX_REF_LU
  else if SPIFFS_MAX_PAGES c <? pix then mret SPIFFS_ERR_INDEX_REF_INVALID
  else
    r ← rd_page_header (Z.lor SPIFFS_OP_T_OBJ_DA SPIFFS_OP_C_READ) (fd_file_nbr fd) (SPIFFS_PAGE_TO_PADDR c pix);
    if r.1 <? SPIFFS_OK then mret r.1
    else mret (default r.1 (SPIFFS_VALIDATE_DATA r.2 (data_id (fd_obj_id fd)) spix)).

Definition spiffs_page_index_check (fd : spiffs_fd) (pix spix : Z) : C (spiffs F) Z :=
  c ← gets cfg;
  if pix =? IX_NONE then mret SPIFFS_ERR_INDEX_FREE
  else if pix mod SPIFFS_PAGES_PER_BLOCK c <? SPIFFS_OBJ_LOOKUP_PAGES c then mret SPIFFS_ERR_INDEX_LU
  else if SPIFFS_MAX_PAGES c <? pix then mret SPIFFS_ERR_INDEX_INVALID
  else
    r ← rd_page_header (Z.lor SPIFFS_OP_T_OBJ_IX SPIFFS_OP_C_READ) (fd_file_nbr fd) (SPIFFS_PAGE_TO_PADDR c pix);
    if r.1 <? SPIFFS_OK then mret r.1
    else mret (default r.1 (SPIFFS_VALIDATE_OBJIX r.2 (fd_obj_id fd) spix)).

(** ** Quick garbage collection ([spiffs_gc.c]) *)

Definition spiffs_gc_erase_block (bix : Z) : C (spiffs F) Z :=
  c ← gets cfg;
  res ← spiffs_erase_block bix;
  if res <? SPIFFS_OK then mret res
  else
    _ ← loop (Z.to_nat (SPIFFS_PAGES_PER_BLOCK c) + 1) (fun i =>
          if i <? SPIFFS_PAGES_PER_BLOCK c then
            spiffs_cache_drop_page (u16 (SPIFFS_PAGE_FOR_BLOCK c bix + i));;
            mret (Next (i + 1))
          else mret (Exit (R := unit) i)) 0;
    mret res.

(** Loop variables of the entry scan: [res], [cur_entry], deleted and free
    pages seen in the block; leaving with [res = 1] also ends the page loop. *)
Definition gc_quick_entry_body (max_free_pages entry_offset entries_per_page : Z)
    (l : Z * Z * Z * Z) : C (spiffs F) (ctl (Z * Z * Z * Z) unit) :=
  c ← gets cfg;
  let '(res, cur_entry, deleted, free) := l in
  if (res =? SPIFFS_OK) && (cur_entry - entry_offset <? entries_per_page)
     && (cur_entry <? s32 (u32 (SPIFFS_PAGES_PER_BLOCK c - SPIFFS_OBJ_LOOKUP_PAGES c))) then
    obj_id ← gets (obj_lu_buf (cur_entry - entry_offset));
    if obj_id =? SPIFFS_OBJ_ID_DELETED then mret (Next (res, cur_entry + 1, u16 (deleted + 1), free))
    else if obj_id =? SPIFFS_OBJ_ID_FREE then
      let free' := u16 (free + 1) in
      if max_free_pages <? free' then mret (Exit (1, cur_entry, deleted, free'))
      else mret (Next (res, cur_entry + 1, deleted, free'))
    else mret (Exit (1, cur_entry, deleted, free))
  else mret (Exit l).

Definition gc_quick_page_body (max_free_pages cur_block_addr entries_per_page : Z)
    (l : Z * Z * Z * Z * Z) : C (spiffs F) (ctl (Z * Z * Z * Z * Z) unit) :=
  c ← gets cfg;
  let '(res, cur_entry, deleted, free, obj_lookup_page) := l in
  if (res =? SPIFFS_OK) && (obj_lookup_page <? s32 (SPIFFS_OBJ_LOOKUP_PAGES c)) then
    let entry_offset := obj_lookup_page * entries_per_page in
    res ← rd_lu_page cur_block_addr obj_lookup_page;
    r ← loop (Z.to_nat entries_per_page + 1) (gc_quick_entry_body max_free_pages entry_offset entries_per_page)
          (res, cur_entry, deleted, free);
    match r with
    | inl (res, cur_entry, deleted, free) => mret (Next (res, cur_entry, deleted, free, obj_lookup_page + 1))
    | inr _ => undefined
    end
  else mret (Exit l).

(** Loop variables of the block scan: [res], [blocks], [cur_block], [cur_block_addr]. *)
Definition gc_quick_block_body (max_free_pages entries_per_page : Z)
    (l : Z * Z * Z * Z) : C (spiffs F) (ctl (Z * Z * Z * Z) Z) :=
  c ← gets cfg;
  let '(res, blocks, cur_block, cur_block_addr) := l in
  if (res =? SPIFFS_OK) && negb (blocks =? 0) then
    r ← loop (Z.to_nat (SPIFFS_OBJ_LOOKUP_PAGES c) + 1)
          (gc_quick_page_body max_free_pages cur_block_addr entries_per_page) (res, 0, 0, 0, 0);
    match r with
    | inr _ => undefined
    | inl (res, _, deleted, free, _) =>
        let res := if res =? 1 then SPIFFS_OK else res in
        if (res =? SPIFFS_OK)
           && (deleted + free =? u32 (SPIFFS_PAGES_PER_BLOCK c - SPIFFS_OBJ_LOOKUP_PAGES c))
           && (free <=? max_free_pages) then
          modify (fun s => set_stats_p_deleted (u32 (stats_p_deleted s - deleted)) s);;
          res ← spiffs_gc_erase_block cur_block;
          mret (Return res)
        else mret (Next (res, blocks - 1, u16 (cur_block + 1), u32 (cur_block_addr + log_block_size c)))
    end
  else mret (Exit l).

Definition spiffs_gc_quick (max_free_pages : Z) : C (spiffs F) Z :=
  c ← gets cfg;
  blocks ← gets block_count;
  let entries_per_page := log_page_size c / sizeof_obj_id in
  r ← loop (Z.to_nat blocks + 1) (gc_quick_block_body max_free_pages entries_per_page) (SPIFFS_OK, blocks, 0, 0);
  match r with
  | inr res => mret res
  | inl (res, _, _, _) => mret (if res =? SPIFFS_OK then SPIFFS_ERR_NO_DELETED_BLOCKS else res)
  end.

(** ** Searching *)

(** Return code, [*block_ix], [*lu_entry]; the out parameters are [0] when the
    function returns before it has searched (no caller reads them then). *)
Definition spiffs_obj_lu_find_free (starting_block starting_lu_entry : Z) : C (spiffs F) (Z * Z * Z) :=
  cl ← gets cleaning;
  fb ← gets free_blocks;
  res ← (if (cl =? 0) && (fb <? 2) then
           res ← spiffs_gc_quick 0;
           let res := if res =? SPIFFS_ERR_NO_DELETED_BLOCKS then SPIFFS_OK else res in
           if res <? SPIFFS_OK then mret res
           else
             fb ← gets free_blocks;
             mret (if fb <? 2 then SPIFFS_ERR_FULL else SPIFFS_OK)
         else mret SPIFFS_OK);
  if res <? SPIFFS_OK then mret (res, 0, 0)
  else
    r ← spiffs_obj_lu_find_id starting_block starting_lu_entry SPIFFS_OBJ_ID_FREE 0 0;
    let '(res, block_ix, lu_entry) := r in
    if res =? SPIFFS_OK then
      modify (set_free_cursor_block_ix block_ix);;
      modify (set_free_cursor_obj_lu_entry lu_entry);;
      (if lu_entry =? 0 then modify (fun s => set_free_blocks (u32 (free_blocks s - 1)) s) else mret tt);;
      mret r
    else mret r.

(** The header is read with operation code 0: the call passes [0] for [op] and
    the operation code for [fh]. *)
Definition spiffs_obj_lu_find_id_and_span_v (exclusion_pix : option Z) (spix : Z)
    : spiffs_visitor_f (F := F) unit := fun obj_id bix ix_entry u =>
  c ← gets cfg;
  let pix := u16 (SPIFFS_OBJ_LOOKUP_ENTRY_TO_PIX c bix ix_entry) in
  r ← rd_page_header 0 (Z.lor SPIFFS_OP_T_OBJ_LU2 SPIFFS_OP_C_READ) (SPIFFS_PAGE_TO_PADDR c pix);
  let ph := r.2 in
  if r.1 <? SPIFFS_OK then mret (r.1, u)
  else if (ph_obj_id ph =? obj_id) && (ph_span_ix ph =? spix)
    && (Z.land (ph_flags ph) (Z.lor SPIFFS_PH_FLAG_FINAL (Z.lor SPIFFS_PH_FLAG_DELET SPIFFS_PH_FLAG_USED))
          =? SPIFFS_PH_FLAG_DELET)
    && negb (is_ix obj_id && negb (hasb (ph_flags ph) SPIFFS_PH_FLAG_IXDELE) && (ph_span_ix ph =? 0))
    && negb (bool_decide (exclusion_pix = Some pix))
  then mret (SPIFFS_OK, u)
  else mret (SPIFFS_VIS_COUNTINUE, u).

(** The common part of the searches by id and span: [flags] selects between
    lookup entries and page headers. *)
Definition find_id_and_span (flags obj_id spix exclusion_pix : Z) : C (spiffs F) (Z * Z) :=
  c ← gets cfg;
  cb ← gets cursor_block_ix;
  ce ← gets cursor_obj_lu_entry;
  r ← spiffs_obj_lu_find_entry_visitor cb ce flags obj_id
        (Some (spiffs_obj_lu_find_id_and_span_v (if exclusion_pix =? 0 then None else Some exclusion_pix) spix))
        tt 0 0;
  let res := if lr_res unit r =? SPIFFS_VIS_END then SPIFFS_ERR_NOT_FOUND else lr_res unit r in
  if res <? SPIFFS_OK then mret (res, 0)
  else
    let bix := lr_block_ix unit r in
    let entry := lr_lu_entry unit r in
    modify (set_cursor_block_ix bix);;
    modify (set_cursor_obj_lu_entry entry);;
    mret (res, u16 (SPIFFS_OBJ_LOOKUP_ENTRY_TO_PIX c bix entry)).

Definition spiffs_obj_lu_find_id_and_span (obj_id spix exclusion_pix : Z) : C (spiffs F) (Z * Z) :=
  find_id_and_span SPIFFS_VIS_CHECK_ID obj_id spix exclusion_pix.

Definition spiffs_obj_lu_find_id_and_span_by_phdr (obj_id spix exclusion_pix : Z) : C (spiffs F) (Z * Z) :=
  find_id_and_span SPIFFS_VIS_CHECK_PH obj_id spix exclusion_pix.

(** ** Allocating, deleting and moving pages *)

(** Return code, [*pix] ([0] when not written) and the header as modified. *)
Definition spiffs_page_allocate_data (obj_id : Z) (ph : spiffs_page_header) (data : option (list Z))
    (page_offs : Z) (finalize : bool) : C (spiffs F) (Z * Z * spiffs_page_header) :=
  c ← gets cfg;
  fb ← gets free_cursor_block_ix;
  fe ← gets free_cursor_obj_lu_entry;
  r ← spiffs_obj_lu_find_free fb fe;
  let '(res, bix, entry) := r in
  if res <? SPIFFS_OK then mret (res, 0, ph)
  else
    res ← spiffs_phys_wr (Z.lor SPIFFS_OP_T_OBJ_LU SPIFFS_OP_C_UPDT) 0
            (u32 (SPIFFS_BLOCK_TO_PADDR c bix + entry * sizeof_obj_id)) (enc16 obj_id);
    if res <? SPIFFS_OK then mret (res, 0, ph)
    else
      modify (fun s => set_stats_p_allocated (u32 (stats_p_allocated s + 1)) s);;
      let ph := set_ph_flags (clrb (ph_flags ph) SPIFFS_PH_FLAG_USED) ph in
      let paddr := SPIFFS_OBJ_LOOKUP_ENTRY_TO_PADDR c bix entry in
      res ← spiffs_phys_wr (Z.lor SPIFFS_OP_T_OBJ_DA SPIFFS_OP_C_UPDT) 0 paddr (enc_page_header ph);
      if res <? SPIFFS_OK then mret (res, 0, ph)
      else
        res ← (match data with
               | Some data => spiffs_phys_wr (Z.lor SPIFFS_OP_T_OBJ_DA SPIFFS_OP_C_UPDT) 0
                                (u32 (paddr + sizeof_page_header + page_offs)) data
               | None => mret res
               end);
        if res <? SPIFFS_OK then mret (res, 0, ph)
        else
          let pix := u16 (SPIFFS_OBJ_LOOKUP_ENTRY_TO_PIX c bix entry) in
          if finalize && hasb (ph_flags ph) SPIFFS_PH_FLAG_FINAL then
            let ph := set_ph_flags (clrb (ph_flags ph) SPIFFS_PH_FLAG_FINAL) ph in
            res ← spiffs_phys_wr (Z.lor SPIFFS_OP_T_OBJ_DA SPIFFS_OP_C_UPDT) 0
                    (u32 (paddr + offsetof_flags)) [ph_flags ph];
            if res <? SPIFFS_OK then mret (res, 0, ph) else mret (res, pix, ph)
          else mret (res, pix, ph).

(** Address of the lookup entry of page [pix]. *)
Definition lu_entry_paddr (c : spiffs_config) (pix : Z) : Z :=
  u32 (SPIFFS_BLOCK_TO_PADDR c (SPIFFS_BLOCK_FOR_PAGE c pix)
       + SPIFFS_OBJ_LOOKUP_ENTRY_FOR_PAGE c pix * sizeof_page_ix).

Definition spiffs_page_delete (pix : Z) : C (spiffs F) Z :=
  c ← gets cfg;
  res ← spiffs_phys_wr (Z.lor SPIFFS_OP_T_OBJ_LU SPIFFS_OP_C_DELE) 0 (lu_entry_paddr c pix)
          (enc16 SPIFFS_OBJ_ID_DELETED);
  if res <? SPIFFS_OK then mret res
  else
    modify (fun s => set_stats_p_deleted (u32 (stats_p_deleted s + 1)) s);;
    modify (fun s => set_stats_p_allocated (u32 (stats_p_allocated s - 1)) s);;
    spiffs_phys_wr (Z.lor SPIFFS_OP_T_OBJ_DA SPIFFS_OP_C_DELE) 0
      (u32 (SPIFFS_PAGE_TO_PADDR c pix + offsetof_flags))
      [clrb 255 (Z.lor SPIFFS_PH_FLAG_DELET SPIFFS_PH_FLAG_USED)].

(** Replaces the flags of the page header at the start of [fs->work]. *)
Definition set_work_flags (f : Z -> Z) : C (spiffs F) unit :=
  modify (fun s => set_work (zset (work s) offsetof_flags (f (zget (work s) offsetof_flags))) s).

(** [from_work]: the parameter [page_data] is [fs->work] (as in every call that
    passes page data), else it is null and the page is copied from [src_pix].
    Gives the return code and [*dst_pix] ([dst0] when not written). *)
Definition spiffs_page_move (fh : Z) (from_work : bool) (obj_id src_pix dst0 : Z) : C (spiffs F) (Z * Z) :=
  c ← gets cfg;
  fb ← gets free_cursor_block_ix;
  fe ← gets free_cursor_obj_lu_entry;
  r ← spiffs_obj_lu_find_free fb fe;
  let '(res, bix, entry) := r in
  if res <? SPIFFS_OK then mret (res, dst0)
  else
    let free_pix := u16 (SPIFFS_OBJ_LOOKUP_ENTRY_TO_PIX c bix entry) in
    flags ← gets (fun s => zget (work s) offsetof_flags);
    let was_final := from_work && negb (hasb flags SPIFFS_PH_FLAG_FINAL) in
    res ← (if from_work then
             set_work_flags (fun fl => clrb (Z.lor fl SPIFFS_PH_FLAG_FINAL) SPIFFS_PH_FLAG_USED);;
             data ← gets work;
             spiffs_phys_wr (Z.lor SPIFFS_OP_T_OBJ_DA SPIFFS_OP_C_UPDT) 0 (SPIFFS_PAGE_TO_PADDR c free_pix)
               (slice data 0 (log_page_size c))
           else spiffs_phys_cpy fh (SPIFFS_PAGE_TO_PADDR c free_pix) (SPIFFS_PAGE_TO_PADDR c src_pix)
                  (log_page_size c));
    if res <? SPIFFS_OK then mret (res, free_pix)
    else
      res ← spiffs_phys_wr (Z.lor SPIFFS_OP_T_OBJ_LU SPIFFS_OP_C_UPDT) 0 (lu_entry_paddr c free_pix) (enc16 obj_id);
      if res <? SPIFFS_OK then mret (res, free_pix)
      else
        modify (fun s => set_stats_p_allocated (u32 (stats_p_allocated s + 1)) s);;
        res ← (if was_final then
                 set_work_flags (fun fl => clrb fl (Z.lor SPIFFS_PH_FLAG_FINAL SPIFFS_PH_FLAG_USED));;
                 flags ← gets (fun s => zget (work s) offsetof_flags);
                 spiffs_phys_wr (Z.lor SPIFFS_OP_T_OBJ_DA SPIFFS_OP_C_UPDT) fh
                   (u32 (SPIFFS_PAGE_TO_PADDR c free_pix + offsetof_flags)) [flags]
               else mret res);
        if res <? SPIFFS_OK then mret (res, free_pix)
        else
          res ← spiffs_page_delete src_pix;
          mret (res, free_pix).

End defs.
