(* ===== verification/SpiffsFind.v ===== *)
(** The searches built on the lookup visitor: by object id, for a free entry, and
    by object id and span index ([spiffs_nucleus.c]). *)
From S2P Require Import Prelude CSem SpiffsTypes SpiffsGeom SpiffsCache SpiffsIo SpiffsLookup SpiffsSearch SpiffsPage.
From stdpp Require Import base list numbers option.

Open Scope Z_scope.

(** Block and entry at position [q] of the scan order. *)
Definition blk (c : spiffs_config) (q : Z) : Z := wrap_block c (q / lue c).
Definition ent (c : spiffs_config) (q : Z) : Z := q mod lue c.

Section order.
Context (c : spiffs_config) (Hwf : wf_cfg c).

Lemma pos_split kb e : 0 <= e < lue c -> blk c (pos c kb e) = wrap_block c kb /\ ent c (pos c kb e) = e.
Proof using Hwf.
  intros He. pose proof (lue_range c Hwf). unfold blk, ent, pos.
  rewrite Z.add_comm, Z.div_add, Z_mod_plus_full, Z.div_small, Z.mod_small by lia. done.
Qed.

(** One round over all positions meets every entry. *)
Lemma cyclic_cover (P : Z -> Z -> Prop) p0 :
  0 <= p0 < blocks c * lue c ->
  (forall q, p0 <= q < p0 + blocks c * lue c -> P (blk c q) (ent c q)) ->
  forall b e, 0 <= b < blocks c -> 0 <= e < lue c -> P b e.
Proof using Hwf.
  intros Hp0 HP b e Hb He. pose proof (wf_blocks c Hwf). pose proof (lue_range c Hwf).
  assert (0 <= pos c b e < blocks c * lue c) by (unfold pos; nia).
  assert (Hsum : pos c (b + blocks c) e = pos c b e + blocks c * lue c) by (unfold pos; ring).
  destruct (decide (p0 <= pos c b e)).
  - specialize (HP (pos c b e) ltac:(lia)). destruct (pos_split b e He) as [E1 E2]. rewrite E1, E2 in HP.
    unfold wrap_block in HP. by rewrite (proj2 (Z.ltb_lt _ _)) in HP by lia.
  - specialize (HP (pos c (b + blocks c) e) ltac:(lia)). destruct (pos_split (b + blocks c) e He) as [E1 E2].
    rewrite E1, E2 in HP. unfold wrap_block in HP. rewrite (proj2 (Z.ltb_ge _ _)) in HP by lia.
    by replace (b + blocks c - blocks c) with b in HP by lia.
Qed.

Lemma start_pos_range flags sb se : hasb flags SPIFFS_VIS_NO_WRAP = false -> 0 <= sb < blocks c -> 0 <= se ->
  0 <= start_pos c flags sb se < blocks c * lue c.
Proof using Hwf.
  intros Hf Hb He. pose proof (lue_range c Hwf). unfold start_pos. rewrite Hf.
  destruct (lue c - 1 <=? se) eqn:E1; bools; [destruct (blocks c <=? sb + 1) eqn:E2; bools|]; nia.
Qed.

Lemma ent_range q : 0 <= ent c q < lue c.
Proof using Hwf. apply Z.mod_pos_bound. pose proof (lue_range c Hwf). lia. Qed.

Lemma blk_range q : 0 <= q < blocks c * lue c -> 0 <= blk c q < blocks c.
Proof using Hwf.
  intros Hq. pose proof (lue_range c Hwf). unfold blk, wrap_block.
  assert (0 <= q / lue c < blocks c) by (split; [apply Z.div_pos; lia|apply Z.div_lt_upper_bound; lia]).
  by rewrite (proj2 (Z.ltb_lt _ _)) by lia.
Qed.
End order.

(** Ticks a search with [K] accesses per entry takes at most. *)
Abbreviation ticks c K := (search_ticks c K).

Lemma ticks_nonneg c K : wf_cfg c -> 0 <= K -> 0 <= ticks c K.
Proof.
  intros Hwf HK. pose proof (wf_blocks c Hwf). pose proof (lue_range c Hwf). pose proof (wf_lup c Hwf).
  unfold search_ticks, block_ticks. nia.
Qed.

Section find.
Context {F : Type} {hal : SpiffsHal F} {nor : NorHal F}.
Implicit Types s : spiffs F.

(** [(b, e)] is the first entry in scan order from [p0] that satisfies [P]. *)
Definition first_entry (c : spiffs_config) (p0 : Z) (P : Z -> Z -> Prop) (b e : Z) : Prop :=
  0 <= b < blocks c /\ 0 <= e < lue c /\ P b e /\
  exists q, p0 <= q /\ b = blk c q /\ e = ent c q /\ forall q', p0 <= q' < q -> ~ P (blk c q') (ent c q').

(** [P] holds of no entry. *)
Definition no_entry (c : spiffs_config) (P : Z -> Z -> Prop) : Prop :=
  forall b e, 0 <= b < blocks c -> 0 <= e < lue c -> ~ P b e.

Lemma lu_frame_refl s : lu_frame s s.
Proof. by destruct s. Qed.

Lemma lu_frame_trans s1 s2 s3 : lu_frame s1 s2 -> lu_frame s2 s3 -> lu_frame s1 s3.
Proof. unfold lu_frame. intros -> ->. done. Qed.

(** The invariant of the read-only searches: the positions passed do not match. *)
Definition passed (c : spiffs_config) (s0 : spiffs F) (p0 : Z) (P : Z -> Z -> Prop) (p : Z) {U} (u0 u : U) s : Prop :=
  lu_frame s0 s /\ u = u0 /\ p0 <= p /\ forall q, p0 <= q < p -> ~ P (blk c q) (ent c q).

Lemma passed_next {U} c s0 p0 P kb e (u0 u : U) s : wf_cfg c -> 0 <= e < lue c ->
  ~ P (wrap_block c kb) e -> passed c s0 p0 P (pos c kb e) u0 u s -> passed c s0 p0 P (pos c kb e + 1) u0 u s.
Proof.
  intros Hwf He Hn (Hf & Hu & Hp & Hall). split; [done|]. split; [done|]. split; [lia|]. intros q Hq.
  destruct (decide (q = pos c kb e)) as [->|]; [|apply Hall; lia].
  destruct (pos_split c Hwf kb e He) as [-> ->]. done.
Qed.

Lemma passed_found {U} c s0 p0 P kb e (u0 u : U) s : wf_cfg c -> 0 <= e < lue c -> 0 <= wrap_block c kb < blocks c ->
  P (wrap_block c kb) e -> passed c s0 p0 P (pos c kb e) u0 u s ->
  first_entry c p0 P (wrap_block c kb) e.
Proof.
  intros Hwf He Hb HP (_ & _ & Hp & Hall). split; [done|]. split; [done|]. split; [done|].
  exists (pos c kb e). destruct (pos_split c Hwf kb e He) as [-> ->]. done.
Qed.

(** ** Scans of the whole volume

  From the first entry: the invariant [I] is indexed with the number of entries
  visited. *)
Lemma full_scan {U} T s (v : spiffs_visitor_f (F := F) U) (I : Z -> U -> spiffs F -> Prop) (Q : lu_result U -> spiffs F -> Prop) K u0 :
  let c := cfg s in
  fs_ok T s -> 0 <= K -> ticks c K <= T ->
  (forall p u s1, I p u s1 -> 0 <= p <= blocks c * lue c /\ cfg s1 = c /\ forall x, view s1 x = view s x) ->
  (forall p u s1 s2, I p u s1 -> lu_frame s1 s2 -> I p u s2) ->
  (forall T1 p u s1, 0 <= p < blocks c * lue c -> I p u s1 -> fs_ok T1 s1 -> K <= T1 - (T - ticks c K) ->
     wp (v (lu_id c (view s) (blk c p) (ent c p)) (blk c p) (ent c p) u) (fun r s2 =>
       (r.1 = SPIFFS_VIS_COUNTINUE /\ I (p + 1) r.2 s2 /\ lu_work s2 = lu_work s1 /\ fs_ok (T1 - K) s2)
       \/ (r.1 <> SPIFFS_VIS_COUNTINUE /\ r.1 <> SPIFFS_VIS_COUNTINUE_RELOAD /\
           Q (mkLuRes U r.1 (blk c p) (ent c p) r.2) s2)) s1) ->
  (forall u s1 bix ent, I (blocks c * lue c) u s1 -> fs_ok (T - ticks c K) s1 -> Q (mkLuRes U SPIFFS_VIS_END bix ent u) s1) ->
  I 0 u0 s -> wp (spiffs_obj_lu_find_entry_visitor 0 0 0 0 (Some v) u0 0 0) Q s.
Proof.
  intros c Hok HK HT Hbase Hst Hvis Hend H0. pose proof (fs_ok_wf _ _ Hok) as Hwf. fold c in Hwf.
  pose proof (lue_range c Hwf). pose proof (wf_blocks c Hwf).
  assert (Hsp : start_pos c 0 0 0 = 0) by (unfold start_pos; rewrite (proj2 (Z.leb_gt _ _)) by lia; lia).
  assert (Hpos : forall kb e, 0 <= e < lue c -> in_scan c 0 kb -> 0 <= pos c kb e ->
            0 <= pos c kb e < blocks c * lue c /\ wrap_block c kb = blk c (pos c kb e) /\ e = ent c (pos c kb e)).
  { intros kb e He [Hwb Hkb] Hp. destruct (pos_split c Hwf kb e He) as [-> ->]. split; [|done].
    split; [done|]. unfold pos. assert (kb < blocks c) by nia.
    assert ((kb + 1) * lue c <= blocks c * lue c) by (apply Z.mul_le_mono_nonneg_r; lia). lia. }
  eapply visitor_rule with (c := c) (v0 := view s) (K := K) (R0 := T - ticks c K) (p0 := 0) (T := T) (I := I); try done; try lia.
  - intros p u s1 HI. apply (Hbase p u s1 HI).
  - intros T1 kb e u s1 He Hkb _ HI Hok1 HT1. destruct (Hbase _ _ _ HI) as [Hp _].
    destruct (Hpos kb e He Hkb ltac:(lia)) as (Hlt & Hb & Hee).
    change (hasb 0 SPIFFS_VIS_CHECK_PH) with false. cbv iota. cbn [visit default].
    pose proof (Hvis T1 (pos c kb e) u s1 Hlt HI Hok1 ltac:(lia)) as Hw. rewrite <- Hb, <- Hee in Hw. exact Hw.
  - intros T1 p u s1 bix ent1 HI Hok1 HT1 [He|[? _]]; [|done]. destruct (Hbase _ _ _ HI) as [Hp _].
    apply Hend; [by replace (blocks c * lue c) with p by lia|eapply fs_okx_weaken; [exact Hok1|lia]].
Qed.

(** ** Read-only searches

  A visitor that only reads and answers [SPIFFS_OK] exactly on the entries that
  pass [test]: the search stops at the first one in scan order. *)
Section ro.
Context (flags obj_id K : Z) (v : option (spiffs_visitor_f (F := F) unit)) (test : Z -> Z -> bool).

(** The entries the search is for, in a volume with contents [w]. *)
Definition sought (c : spiffs_config) (w : Z -> Z) (b e : Z) : Prop :=
  entry_matches flags obj_id (lu_id c w b e) = true /\ test b e = true.

Lemma ro_search T s sb se bix0 ent0 :
  fs_ok T s -> 0 <= K -> 0 <= sb < blocks (cfg s) -> 0 <= se -> hasb flags SPIFFS_VIS_NO_WRAP = false ->
  ticks (cfg s) K <= T ->
  (forall T s' b e, lu_frame s s' -> fs_ok T s' -> K <= T -> 0 <= b < blocks (cfg s) -> 0 <= e < lue (cfg s) ->
     entry_matches flags obj_id (lu_id (cfg s) (view s) b e) = true ->
     wp (visit v (if hasb flags SPIFFS_VIS_CHECK_PH then obj_id else lu_id (cfg s) (view s) b e) b e tt)
       (fun r s'' => r = (if test b e then SPIFFS_OK else SPIFFS_VIS_COUNTINUE, tt) /\
          cache_frame s' s'' /\ fs_ok (T - K) s'') s') ->
  wp (spiffs_obj_lu_find_entry_visitor sb se flags obj_id v tt bix0 ent0) (fun r s' =>
    lu_frame s s' /\ fs_ok (T - ticks (cfg s) K) s' /\
    ((lr_res unit r = SPIFFS_OK /\
      first_entry (cfg s) (start_pos (cfg s) flags sb se) (sought (cfg s) (view s)) (lr_block_ix unit r) (lr_lu_entry unit r))
     \/ (lr_res unit r = SPIFFS_VIS_END /\ no_entry (cfg s) (sought (cfg s) (view s))))) s.
Proof.
  intros Hok HK Hsb Hse Hnw HT Hvis. pose proof (fs_ok_wf _ _ Hok) as Hwf. set (c := cfg s) in *.
  set (p0 := start_pos c flags sb se). set (P := sought c (view s)).
  pose proof (start_pos_range c Hwf flags sb se Hnw Hsb Hse) as Hp0. fold p0 in Hp0.
  eapply visitor_rule with (c := c) (v0 := view s) (K := K) (R0 := T - ticks c K) (p0 := p0) (T := T)
    (I := fun p u s1 => passed c s p0 P p tt u s1); try done; try lia.
  - intros p u s1 (Hf & _). rewrite Hf. done.
  - intros p u s1 s2 (Hf & ? & ? & ?) Hf2. split; [by eapply lu_frame_trans|done].
  - intros kb e u s1 He [Hkb _] Hm Hp. apply passed_next; [done|done| |done]. intros [HP _]. congruence.
  - intros T1 kb e u s1 He [Hkb _] Hm Hp Hok1 HT1. pose proof Hp as (Hf & -> & _).
    wp_apply Hvis; [done|exact Hok1|pose proof (ticks_nonneg c K); lia|done|done|done|].
    intros [r u] s2 ([= -> ->] & Hcf & Hok2). cbn [fst snd].
    assert (Hf2 : lu_frame s1 s2) by (unfold lu_frame; rewrite Hcf; done).
    destruct (test (wrap_block c kb) e) eqn:Et.
    + right. split; [done|]. split; [done|]. cbn [lr_res lr_block_ix lr_lu_entry].
      split; [by eapply lu_frame_trans|]. split.
      * eapply fs_okx_weaken; [exact Hok2|lia].
      * left. split; [done|]. eapply passed_found; [done|done|done| |exact Hp]. by split.
    + left. split; [done|]. split; [|split; [by rewrite Hcf|done]].
      apply passed_next; [done|done| |].
      * intros [_ HP]. congruence.
      * destruct Hp as (? & ? & ?). split; [by eapply lu_frame_trans|done].
  - intros T1 p u s1 bix ent (Hf & -> & _ & Hall) Hok1 HT1 [Hend|[? _]]; [|congruence].
    cbn. split; [done|]. split; [eapply fs_okx_weaken; [exact Hok1|lia]|]. right. split; [done|].
    intros b e Hb He. eapply (cyclic_cover c Hwf (fun b e => ~ P b e) p0); [done| |done|done].
    intros q Hq. apply Hall. lia.
  - split; [apply lu_frame_refl|]. split; [done|]. split; [lia|]. intros; lia.
Qed.
End ro.

(** ** [spiffs_obj_lu_find_id] *)

(** What a search for the entries [P] from entry [se] of block [sb] returns. *)
Definition search_result (c : spiffs_config) (sb se : Z) (P : Z -> Z -> Prop) (r : Z * Z * Z) : Prop :=
  let '(res, b, e) := r in
  (res = SPIFFS_OK /\ first_entry c (start_pos c 0 sb se) P b e) \/ (res = SPIFFS_ERR_NOT_FOUND /\ no_entry c P).

Lemma first_entry_iff c p0 P P' b e : (forall b e, P b e <-> P' b e) -> first_entry c p0 P b e -> first_entry c p0 P' b e.
Proof.
  intros Heq (? & ? & HP & q & ? & ? & ? & Hn). split; [done|]. split; [done|]. split; [by apply Heq|].
  exists q. do 3 (split; [done|]). intros q' Hq' HP'. apply (Hn q' Hq'). by apply Heq.
Qed.

Lemma find_id_ok T s sb se obj_id bix0 ent0 :
  fs_ok T s -> 0 <= sb < blocks (cfg s) -> 0 <= se -> ticks (cfg s) 0 <= T ->
  wp (spiffs_obj_lu_find_id sb se obj_id bix0 ent0) (fun r s' =>
    lu_frame s s' /\ fs_ok (T - ticks (cfg s) 0) s' /\
    search_result (cfg s) sb se (fun b e => lu_id (cfg s) (view s) b e = obj_id) r) s.
Proof.
  intros Hok Hsb Hse HT. unfold spiffs_obj_lu_find_id. wp_step.
  assert (Heq : forall b e, sought SPIFFS_VIS_CHECK_ID obj_id (fun _ _ => true) (cfg s) (view s) b e
                  <-> lu_id (cfg s) (view s) b e = obj_id).
  { intros b e. unfold sought, entry_matches. change (hasb SPIFFS_VIS_CHECK_ID SPIFFS_VIS_CHECK_ID) with true.
    cbn [negb orb]. rewrite Z.eqb_eq. tauto. }
  wp_apply (ro_search SPIFFS_VIS_CHECK_ID obj_id 0 None (fun _ _ => true) T s); [done|lia|done|done|done|done| |].
  - intros T1 s1 b e Hf Hok1 _ _ _ _. cbn. apply wp_ret. split; [done|]. split; [by destruct s1|].
    by rewrite Z.sub_0_r.
  - intros r s' (Hf & Hok' & Hr). wp_step. split; [done|]. split; [done|]. unfold search_result.
    destruct Hr as [[-> Hfe]|[-> Hne]].
    + left. split; [done|]. by eapply first_entry_iff.
    + right. split; [done|]. intros b e Hb He HP. apply (Hne b e Hb He). by apply Heq.
Qed.

(** ** [spiffs_obj_lu_find_id_and_span] *)

(** The header of page [p]. *)
Definition ph_at (c : spiffs_config) (v : Z -> Z) (p : Z) : spiffs_page_header :=
  dec_page_header (vread v (paddr c p) sizeof_page_header).

(** A finalised, undeleted page [spix] of object [obj_id] that is not [excl]; an
  index header must not be marked for deletion. *)
Definition live_page (c : spiffs_config) (v : Z -> Z) (obj_id spix : Z) (excl : option Z) (p : Z) : bool :=
  let ph := ph_at c v p in
  (ph_obj_id ph =? obj_id) && (ph_span_ix ph =? spix)
  && (Z.land (ph_flags ph) (Z.lor SPIFFS_PH_FLAG_FINAL (Z.lor SPIFFS_PH_FLAG_DELET SPIFFS_PH_FLAG_USED))
        =? SPIFFS_PH_FLAG_DELET)
  && negb (is_ix obj_id && negb (hasb (ph_flags ph) SPIFFS_PH_FLAG_IXDELE) && (ph_span_ix ph =? 0))
  && negb (bool_decide (excl = Some p)).

Lemma in_page_start c p n : wf_cfg c -> 0 <= p < pages c -> 0 <= n <= psz c -> in_page c (paddr c p) n.
Proof. intros Hwf Hp Hn. pose proof (wf_psz c Hwf). exists p, 0. lia. Qed.

Lemma rd_page_header_ok T s op fh p :
  fs_ok T s -> 1 <= T -> 0 <= p < pages (cfg s) ->
  wp (rd_page_header op fh (paddr (cfg s) p)) (fun r s' =>
    r = (SPIFFS_OK, ph_at (cfg s) (view s) p) /\ cache_frame s s' /\ fs_ok (T - 1) s') s.
Proof.
  intros Hok HT Hp. pose proof (fs_ok_wf _ _ Hok) as Hwf. pose proof (wf_psz _ Hwf). unfold rd_page_header. wp_step.
  wp_apply phys_rd_ok; [done|done|apply in_page_start; [done|done|unfold sizeof_page_header; lia]|].
  intros r s' (-> & ? & ?). wp_step. done.
Qed.

Lemma find_id_and_span_v_ok T s excl spix obj_id b e u :
  fs_ok T s -> 1 <= T -> 0 <= b < blocks (cfg s) -> 0 <= e < lue (cfg s) ->
  wp (spiffs_obj_lu_find_id_and_span_v excl spix obj_id b e u) (fun r s' =>
    r = (if live_page (cfg s) (view s) obj_id spix excl (entry_pix (cfg s) b e) then SPIFFS_OK else SPIFFS_VIS_COUNTINUE, u)
    /\ cache_frame s s' /\ fs_ok (T - 1) s') s.
Proof.
  intros Hok HT Hb He. pose proof (fs_ok_wf _ _ Hok) as Hwf. unfold spiffs_obj_lu_find_id_and_span_v.
  wp_step. wp_step. rewrite entry_to_pix by done. wp_step.
  wp_apply rd_page_header_ok; [done|done|by apply entry_pix_range|]. intros r s' (-> & ? & ?). cbn [fst snd].
  change (SPIFFS_OK <? SPIFFS_OK) with false. cbv iota. unfold live_page.
  match goal with |- wp (if ?b then _ else _) _ _ => destruct b end; wp_step; done.
Qed.

(** The page a search by id and span returns, and the moved cursor. *)
Definition span_result (c : spiffs_config) (P : Z -> Z -> Prop) s (r : Z * Z) (s' : spiffs F) : Prop :=
  (exists b e, r = (SPIFFS_OK, entry_pix c b e) /\
     first_entry c (start_pos c 0 (cursor_block_ix s) (cursor_obj_lu_entry s)) P b e /\
     exists s1, lu_frame s s1 /\ s' = set_cursor_obj_lu_entry e (set_cursor_block_ix b s1))
  \/ (r = (SPIFFS_ERR_NOT_FOUND, 0) /\ no_entry c P /\ lu_frame s s').

Lemma find_id_and_span_ok T s flags obj_id spix excl :
  fs_ok T s -> 0 <= cursor_block_ix s < blocks (cfg s) -> 0 <= cursor_obj_lu_entry s -> ticks (cfg s) 1 <= T ->
  flags = SPIFFS_VIS_CHECK_ID \/ flags = SPIFFS_VIS_CHECK_PH ->
  wp (find_id_and_span flags obj_id spix excl) (fun r s' =>
    fs_ok (T - ticks (cfg s) 1) s' /\
    span_result (cfg s) (fun b e => (flags = SPIFFS_VIS_CHECK_ID -> lu_id (cfg s) (view s) b e = obj_id) /\
      live_page (cfg s) (view s) obj_id spix (if excl =? 0 then None else Some excl) (entry_pix (cfg s) b e) = true) s r s') s.
Proof.
  intros Hok Hcb Hce HT Hfl. set (ex := if excl =? 0 then None else Some excl).
  set (test := fun b e => live_page (cfg s) (view s) obj_id spix ex (entry_pix (cfg s) b e)).
  unfold find_id_and_span. wp_step. wp_step. wp_step. wp_step. wp_step. wp_step. wp_step. fold ex.
  pose proof (fs_ok_wf _ _ Hok) as Hwf.
  wp_apply (ro_search flags obj_id 1 (Some (spiffs_obj_lu_find_id_and_span_v ex spix)) test T s); try done; try lia.
  - by destruct Hfl as [-> | ->].
  - intros T1 s1 b e Hf Hok1 HT1 Hb He Hm. cbn [visit default].
    assert (Hid : (if hasb flags SPIFFS_VIS_CHECK_PH then obj_id else lu_id (cfg s) (view s) b e) = obj_id).
    { destruct Hfl as [-> | ->]; [|done]. unfold entry_matches in Hm.
      change (hasb SPIFFS_VIS_CHECK_ID SPIFFS_VIS_CHECK_ID) with true in Hm. cbn [negb orb] in Hm. by apply Z.eqb_eq. }
    rewrite Hid. assert (Ec : cfg s1 = cfg s) by (rewrite Hf; done). assert (Ev : view s1 = view s) by (rewrite Hf; done).
    unfold test. rewrite <- Ec, <- Ev. apply find_id_and_span_v_ok; [done|lia|rewrite Ec; lia..].
  - assert (Heq : forall b e, sought flags obj_id test (cfg s) (view s) b e <->
       (flags = SPIFFS_VIS_CHECK_ID -> lu_id (cfg s) (view s) b e = obj_id) /\ test b e = true).
    { intros b e. unfold sought, entry_matches.
      destruct Hfl as [-> | ->].
      - change (hasb SPIFFS_VIS_CHECK_ID SPIFFS_VIS_CHECK_ID) with true. cbn [negb orb]. rewrite Z.eqb_eq.
        split; intros [? ?]; auto.
      - change (hasb SPIFFS_VIS_CHECK_PH SPIFFS_VIS_CHECK_ID) with false. cbn [negb orb].
        split; intros [? ?]; split; auto. done. }
    assert (Hsp : start_pos (cfg s) flags (cursor_block_ix s) (cursor_obj_lu_entry s)
                  = start_pos (cfg s) 0 (cursor_block_ix s) (cursor_obj_lu_entry s)).
    { unfold start_pos. by destruct Hfl as [-> | ->]. }
    intros r s' (Hf & Hok' & Hr). destruct Hr as [[-> Hfe]|[-> Hne]].
    + ok_res. wp_step. wp_step. wp_step. wp_step. wp_step. pose proof Hfe as (Hb & He & _). rewrite entry_to_pix by done.
      split; [eapply fs_okx_same; [exact Hok'|done..]|]. left. do 2 eexists. split; [done|]. split.
      * rewrite <- Hsp. by eapply first_entry_iff.
      * by exists s'.
    + ok_res. wp_step.
      split; [done|]. right. split; [done|]. split; [|done].
      intros b e Hb He HP. apply (Hne b e Hb He). by apply Heq.
Qed.
End find.
