(* ===== verification/SpiffsPageOps.v ===== *)
(** Correctness of the page operations ([spiffs_nucleus.c]): copying, deleting and
    allocating pages change exactly the flash bytes they should. *)
From S2P Require Import Prelude CSem SpiffsTypes SpiffsGeom SpiffsCache SpiffsIo SpiffsLookup SpiffsSearch SpiffsPage SpiffsFind.
From stdpp Require Import base list numbers option.

Open Scope Z_scope.

(** ** Programming the flash *)

Lemma in_span_spec a n x : in_span a n x = true <-> a <= x < a + n.
Proof. unfold in_span. rewrite andb_true_iff, Z.leb_le, Z.ltb_lt. lia. Qed.

Lemma in_span_false a n x : in_span a n x = false <-> ~ (a <= x < a + n).
Proof. rewrite <- in_span_spec. by destruct (in_span a n x). Qed.

Lemma programmed_out v a l x : ~ (a <= x < a + zlen l) -> programmed v a l x = v x.
Proof. intros H. unfold programmed. by rewrite (proj2 (in_span_false _ _ _) H). Qed.

Lemma programmed_in v a l x : nor_compat v a l -> a <= x < a + zlen l -> programmed v a l x = zget l (x - a).
Proof.
  intros Hc Hx. unfold programmed. rewrite (proj2 (in_span_spec _ _ _) Hx).
  specialize (Hc (x - a) ltac:(lia)). by replace (a + (x - a)) with x in Hc by lia.
Qed.

Lemma vread_programmed v a l : nor_compat v a l -> vread (programmed v a l) a (zlen l) = l.
Proof.
  intros Hc. pose proof (zlen_nonneg l). apply list_eq_zget; [by apply length_vread|].
  intros i. rewrite length_vread by lia. intros Hi. rewrite zget_vread by lia.
  rewrite programmed_in by (done || lia). f_equal. lia.
Qed.

Lemma vread_programmed_out v a l b n : b + n <= a \/ a + zlen l <= b ->
  vread (programmed v a l) b n = vread v b n.
Proof. intros H. apply vread_ext. intros x Hx. apply programmed_out. lia. Qed.

(** Erased bytes can take any value. *)
Definition erased (v : Z -> Z) (a n : Z) : Prop := forall x, a <= x < a + n -> v x = 255.

Lemma land_255_byte x : is_byte x -> Z.land 255 x = x.
Proof. intros [? ?]. rewrite Z.land_comm, land_255. apply Z.mod_small. lia. Qed.

Lemma erased_compat v a l n : erased v a n -> zlen l <= n -> Forall is_byte l -> nor_compat v a l.
Proof.
  intros He Hn Hb i Hi. rewrite He by lia. apply land_255_byte. unfold zget.
  eapply (Forall_lookup_1 _ _ (Z.to_nat i)); [exact Hb|]. apply list_lookup_lookup_total_lt. unfold zlen in Hi. lia.
Qed.

Lemma land_255_is_byte x : is_byte (Z.land x 255).
Proof. unfold is_byte. rewrite land_255. apply Z.mod_pos_bound. lia. Qed.

Lemma enc16_bytes x : Forall is_byte (enc16 x).
Proof. constructor; [apply land_255_is_byte|]. constructor; [apply land_255_is_byte|constructor]. Qed.

Lemma enc_page_header_bytes h : is_byte (ph_flags h) -> Forall is_byte (enc_page_header h).
Proof. intros. unfold enc_page_header. rewrite !Forall_app. split; [apply enc16_bytes|]. split; [apply enc16_bytes|]. constructor; [done|constructor]. Qed.

Lemma length_enc_page_header h : zlen (enc_page_header h) = 5.
Proof. done. Qed.

(** ** Lookup entries as flash ranges *)

Section entry.
Context (c : spiffs_config) (Hwf : wf_cfg c).

Lemma lu_entry_in_page b e : 0 <= b < blocks c -> 0 <= e < lue c -> in_page c (baddr c b + 2 * e) 2.
Proof using Hwf.
  intros Hb He. pose proof (wf_psz c Hwf). pose proof (wf_psz_even c Hwf). pose proof (lue_eq c Hwf).
  pose proof (wf_fit c Hwf). pose proof (wf_lup c Hwf). pose proof (ppb_pos c Hwf).
  pose proof (Z.div_mod (psz c) 2 ltac:(lia)) as Hdm. pose proof (Z.div_mod (2 * e) (psz c) ltac:(lia)).
  pose proof (Z.mod_pos_bound (2 * e) (psz c) ltac:(lia)).
  assert (Hk : 0 <= 2 * e / psz c < lup c).
  { split; [apply Z.div_pos; lia|]. apply Z.div_lt_upper_bound; lia. }
  destruct (lu_page_addr c Hwf b (2 * e / psz c) Hb Hk) as [_ Hp].
  exists (b * ppb c + 2 * e / psz c), (2 * e mod psz c). split.
  - rewrite baddr_eq, paddr_eq by (done || lia). rewrite (wf_bsz c Hwf). nia.
  - split; [done|]. split; [done|]. split; [lia|].
    assert ((2 * e) mod psz c mod 2 = 0).
    { replace (psz c) with (2 * (psz c / 2)) by lia.
      rewrite Z.mul_mod_distr_l by lia. rewrite Z.mul_comm. apply Z_mod_mult. }
    pose proof (Z.div_mod ((2 * e) mod psz c) 2 ltac:(lia)). lia.
Qed.

(** The lookup entry of a page lies in the lookup pages of its block, apart from
    every data page and every other entry. *)
Lemma entry_before_pages b e b' e' : 0 <= b < blocks c -> 0 <= e < lue c -> 0 <= b' < blocks c -> 0 <= e' < lue c ->
  baddr c b + 2 * e + 2 <= paddr c (entry_pix c b' e') \/ paddr c (entry_pix c b' e') + psz c <= baddr c b + 2 * e.
Proof using Hwf.
  intros Hb He Hb' He'. pose proof (entry_pix_range c Hwf b' e' Hb' He').
  destruct (lu_entry_addr c Hwf b e Hb He) as [_ Hfit].
  rewrite baddr_eq, paddr_eq in * by (done || lia). unfold entry_pix in *. rewrite (wf_bsz c Hwf) in *.
  pose proof (lue_eq c Hwf). pose proof (wf_psz c Hwf). pose proof (wf_lup c Hwf).
  assert (Hm : forall x y, x <= y -> x * psz c <= y * psz c) by (intros; apply Z.mul_le_mono_nonneg_r; lia).
  destruct (decide (b <= b')) as [Hle|Hgt]; [left|right].
  - specialize (Hm (b * ppb c + lup c) (b' * ppb c + lup c + e') ltac:(nia)). lia.
  - specialize (Hm (b' * ppb c + lup c + e' + 1) (b * ppb c) ltac:(nia)). lia.
Qed.

Lemma entries_disjoint b e b' e' : 0 <= b < blocks c -> 0 <= e < lue c -> 0 <= b' < blocks c -> 0 <= e' < lue c ->
  (b, e) <> (b', e') -> baddr c b + 2 * e + 2 <= baddr c b' + 2 * e' \/ baddr c b' + 2 * e' + 2 <= baddr c b + 2 * e.
Proof using Hwf.
  intros Hb He Hb' He' Hne. destruct (lu_entry_addr c Hwf b e Hb He) as [_ Hfit].
  destruct (lu_entry_addr c Hwf b' e' Hb' He') as [_ Hfit']. rewrite !baddr_eq in * by (done || lia).
  rewrite (wf_bsz c Hwf) in *. pose proof (wf_psz c Hwf). pose proof (wf_lup c Hwf).
  assert (Hm : forall x y, x <= y -> x * psz c <= y * psz c) by (intros; apply Z.mul_le_mono_nonneg_r; lia).
  destruct (Z.lt_trichotomy b b') as [Hlt|[->|Hgt]].
  - specialize (Hm (b * ppb c + lup c) (b' * ppb c) ltac:(nia)). lia.
  - assert (e <> e') by (intros ->; done). lia.
  - specialize (Hm (b' * ppb c + lup c) (b * ppb c) ltac:(nia)). lia.
Qed.

Lemma lu_entry_paddr_eq b e : 0 <= b < blocks c -> 0 <= e < lue c ->
  lu_entry_paddr c (entry_pix c b e) = baddr c b + 2 * e.
Proof using Hwf.
  intros Hb He. unfold lu_entry_paddr. destruct (block_for_entry c Hwf b e Hb He) as [-> ->].
  change sizeof_page_ix with sizeof_obj_id. by apply (lu_entry_addr c Hwf).
Qed.
End entry.

Section ops.
  Context {F : Type} {hal : SpiffsHal F} {nor : NorHal F}.
  Implicit Types s : spiffs F.

Lemma programmed_ext v w a l x : (forall y, v y = w y) -> programmed v a l x = programmed w a l x.
Proof. intros H. unfold programmed. by rewrite H. Qed.

Lemma nor_compat_ext v w a l : (forall y, v y = w y) -> nor_compat v a l -> nor_compat w a l.
Proof. intros H Hc i Hi. rewrite <- H. auto. Qed.

Lemma flash_frame_trans s1 s2 s3 : flash_frame s1 s2 -> flash_frame s2 s3 -> flash_frame s1 s3.
Proof. unfold flash_frame. intros -> ->. done. Qed.

(** ** [spiffs_page_delete] *)

(** The contents after deleting the page of entry [e] of block [b]: the lookup
    entry is zeroed, the flags [DELET] and [USED] of the header are cleared. *)
Definition deleted_view (c : spiffs_config) (v : Z -> Z) (b e : Z) : Z -> Z :=
  programmed (programmed v (baddr c b + 2 * e) [0; 0]) (paddr c (entry_pix c b e) + offsetof_flags) [126].

Definition count_delete s : spiffs F :=
  set_stats_p_allocated (u32 (stats_p_allocated s - 1)) (set_stats_p_deleted (u32 (stats_p_deleted s + 1)) s).

Lemma page_delete_ok T s b e :
  fs_ok T s -> 2 <= T -> 0 <= b < blocks (cfg s) -> 0 <= e < lue (cfg s) ->
  wp (spiffs_page_delete (entry_pix (cfg s) b e)) (fun r s' => r = SPIFFS_OK /\ fs_ok (T - 2) s' /\
    flash_frame (count_delete s) s' /\ forall x, view s' x = deleted_view (cfg s) (view s) b e x) s.
Proof.
  intros Hok HT Hb He. pose proof (fs_ok_wf _ _ Hok) as Hwf. pose proof (entry_pix_range _ Hwf b e Hb He) as Hp.
  pose proof (paddr_range _ Hwf _ Hp). pose proof (wf_psz _ Hwf). pose proof (wf_end _ Hwf). pose proof (wf_addr _ Hwf).
  unfold spiffs_page_delete. wp_step. wp_step. rewrite lu_entry_paddr_eq by done. wp_step.
  change (enc16 SPIFFS_OBJ_ID_DELETED) with [0; 0].
  wp_apply phys_wr_ok; [done|lia|by apply lu_entry_in_page| |].
  { split; [done|]. left. intros i Hi. unfold zlen in Hi. cbn in Hi.
    destruct (decide (i = 0)) as [->|]; [by rewrite zget_0, Z.land_0_r|]. replace i with 1 by lia.
    by rewrite zget_1, Z.land_0_r. }
  intros r s1 (-> & Hfr & Hok1 & Hv1 & _). ok_res. wp_step. wp_step. wp_step. wp_step.
  assert (Hc1 : cfg s1 = cfg s) by (rewrite Hfr; done).
  rewrite u32_small by (unfold offsetof_flags; lia).
  change (clrb 255 (Z.lor SPIFFS_PH_FLAG_DELET SPIFFS_PH_FLAG_USED)) with 126.
  wp_apply (phys_wr_ok (T - 1)); [eapply fs_okx_same; [exact Hok1|done..]|lia| | |].
  - change (zlen [126]) with 1. cbn. rewrite Hc1. exists (entry_pix (cfg s) b e), offsetof_flags. unfold offsetof_flags. lia.
  - split; [done|]. right. done.
  - intros r s2 (-> & Hfr2 & Hok2 & Hv2 & _). split; [done|]. split; [by replace (T - 2) with (T - 1 - 1) by lia|].
    split.
    + unfold flash_frame, count_delete. rewrite Hfr2, Hfr. done.
    + intros x. rewrite Hv2. unfold deleted_view. apply programmed_ext. exact Hv1.
Qed.

(** ** [spiffs_phys_cpy] *)

(** The contents after [n] bytes at [src] have been copied to [dst]. *)
Definition copied (v : Z -> Z) (dst src n x : Z) : Z := if in_span dst n x then v (x - dst + src) else v x.

Lemma phys_cpy_ok T s fh dst src len pd ps offd offs :
  fs_ok T s -> 2 * len <= T -> 0 <= len ->
  dst = paddr (cfg s) pd + offd -> 0 <= pd < pages (cfg s) -> 0 <= offd -> offd + len <= psz (cfg s) ->
  src = paddr (cfg s) ps + offs -> 0 <= ps < pages (cfg s) -> 0 <= offs -> offs + len <= psz (cfg s) ->
  pd <> ps ->
  (forall i, 0 <= i < len -> Z.land (view s (dst + i)) (view s (src + i)) = view s (src + i)) ->
  wp (spiffs_phys_cpy fh dst src len) (fun r s' => r = SPIFFS_OK /\ flash_frame s s' /\ fs_ok (T - 2 * len) s' /\
    forall x, view s' x = copied (view s) dst src len x) s.
Proof.
  intros Hok HT Hlen Hdst Hpd Hod Hol Hsrc Hps Hos Hosl Hne Hcomp.
  pose proof (fs_ok_wf _ _ Hok) as Hwf. pose proof (paddr_range _ Hwf _ Hpd). pose proof (paddr_range _ Hwf _ Hps).
  pose proof (wf_end _ Hwf). pose proof (wf_addr _ Hwf). pose proof (wf_psz _ Hwf).
  assert (Hdis : dst + len <= src \/ src + len <= dst).
  { rewrite !paddr_eq in * by (done || lia). assert (Hm : forall x y, x + 1 <= y -> x * psz (cfg s) + psz (cfg s) <= y * psz (cfg s)).
    { intros. replace (x * psz (cfg s) + psz (cfg s)) with ((x + 1) * psz (cfg s)) by ring. apply Z.mul_le_mono_nonneg_r; lia. }
    destruct (decide (pd < ps)); [pose proof (Hm pd ps ltac:(lia))|pose proof (Hm ps pd ltac:(lia))]; lia. }
  unfold spiffs_phys_cpy. wp_step. eapply wp_mono.
  - apply wp_loop_ix with (n := Z.to_nat len)
      (I := fun n '(d, sr, l) s' => exists k, 0 <= k <= len /\ d = u32 (dst + k) /\ sr = u32 (src + k) /\ l = len - k /\
              n = Z.to_nat l /\ flash_frame s s' /\ fs_ok (T - 2 * k) s' /\
              forall x, view s' x = copied (view s) dst src k x)
      (Q := fun r s' => (exists l, r = inl l) /\ flash_frame s s' /\ fs_ok (T - 2 * len) s' /\
              forall x, view s' x = copied (view s) dst src len x).
    + intros n [[d sr] l] s1 (k & Hk & -> & -> & -> & -> & Hfr & Hok1 & Hv). rewrite (u32_small (dst + k)), (u32_small (src + k)) by lia.
      wp_step.
      2: { wp_step. assert (k = len) as -> by lia. split; [by eexists|done]. }
      set (ch := Z.min SPIFFS_COPY_BUFFER_STACK (len - k)).
      assert (Hch : 1 <= ch <= len - k) by (unfold ch, SPIFFS_COPY_BUFFER_STACK; lia).
      assert (Hc1 : cfg s1 = cfg s) by (rewrite Hfr; done).
      wp_step. wp_apply (phys_rd_ok _ s1); [exact Hok1|lia| |].
      { rewrite Hc1. exists ps, (offs + k). lia. }
      intros b s2 (-> & Hfr2 & Hok2). ok_res. wp_step.
      assert (Hv2 : view s2 = view s1) by (rewrite Hfr2; done).
      assert (Hrd : vread (view s1) (src + k) ch = vread (view s) (src + k) ch).
      { apply vread_ext. intros x Hx. rewrite Hv. unfold copied. rewrite (proj2 (in_span_false _ _ _)); [done|lia]. }
      rewrite Hrd. assert (Hlen2 : zlen (vread (view s) (src + k) ch) = ch) by (apply length_vread; lia).
      wp_apply phys_wr_ok; [exact Hok2|lia| | |].
      { rewrite Hlen2. replace (cfg s2) with (cfg s) by (rewrite Hfr2, <- Hc1; done). exists pd, (offd + k). lia. }
      { split; [done|]. left. intros i Hi. rewrite Hlen2 in Hi. rewrite zget_vread by lia. rewrite Hv2, Hv. unfold copied.
        rewrite (proj2 (in_span_false _ _ _)) by lia.
        replace (dst + k + i) with (dst + (k + i)) by lia. replace (src + k + i) with (src + (k + i)) by lia.
        apply Hcomp. lia. }
      intros r s3 (-> & Hfr3 & Hok3 & Hv3 & _). ok_res. wp_step.
      exists (Z.to_nat (len - (k + ch))). split; [lia|]. exists (k + ch). split; [lia|].
      rewrite <- !Z.add_assoc. split; [done|]. split; [done|]. split; [lia|]. split; [f_equal; lia|].
      split; [|split].
      * unfold flash_frame. rewrite Hfr3, Hfr2, Hfr. done.
      * eapply fs_okx_weaken; [exact Hok3|lia].
      * intros x. rewrite Hv3. unfold programmed. rewrite Hlen2, Hv2, Hv. unfold copied.
        destruct (in_span (dst + k) ch x) eqn:E1.
        -- apply in_span_spec in E1. rewrite (proj2 (in_span_false dst k x)) by lia.
           rewrite (proj2 (in_span_spec dst (k + ch) x)) by lia. rewrite zget_vread by lia.
           specialize (Hcomp (x - dst) ltac:(lia)). replace (dst + (x - dst)) with x in Hcomp by lia.
           replace (src + (x - dst)) with (x - dst + src) in Hcomp by lia.
           replace (src + k + (x - (dst + k))) with (x - dst + src) by lia. done.
        -- apply in_span_false in E1. destruct (in_span dst k x) eqn:E2.
           ++ apply in_span_spec in E2. by rewrite (proj2 (in_span_spec dst (k + ch) x)) by lia.
           ++ apply in_span_false in E2. by rewrite (proj2 (in_span_false dst (k + ch) x)) by lia.
    + lia.
    + exists 0. rewrite !Z.add_0_r, !u32_small, Z.sub_0_r by lia. do 5 (split; [done || lia|]).
      split; [by destruct s|]. split; [by rewrite Z.sub_0_r|]. intros x. unfold copied.
      by rewrite (proj2 (in_span_false dst 0 x)) by lia.
  - intros [l|r] s' ((l' & Hl) & Hfr & Hok' & Hv); [|done]. by wp_step.
Qed.

(** ** [spiffs_obj_lu_find_free] *)

(** The cursor moved to the entry found; a first entry opens a free block. *)
Definition claim_free (b e : Z) s : spiffs F :=
  let s := set_free_cursor_obj_lu_entry e (set_free_cursor_block_ix b s) in
  if e =? 0 then set_free_blocks (u32 (free_blocks s - 1)) s else s.

Lemma find_free_ok T s sb se :
  fs_ok T s -> 0 <= sb < blocks (cfg s) -> 0 <= se -> ticks (cfg s) 0 <= T ->
  cleaning s <> 0 \/ 2 <= free_blocks s ->
  wp (spiffs_obj_lu_find_free sb se) (fun r s' => fs_ok (T - ticks (cfg s) 0) s' /\
    ((exists b e s1, r = (SPIFFS_OK, b, e) /\ lu_frame s s1 /\ s' = claim_free b e s1 /\
        first_entry (cfg s) (start_pos (cfg s) 0 sb se) (fun b e => lu_id (cfg s) (view s) b e = SPIFFS_OBJ_ID_FREE) b e)
     \/ (r.1.1 = SPIFFS_ERR_NOT_FOUND /\ lu_frame s s' /\
         no_entry (cfg s) (fun b e => lu_id (cfg s) (view s) b e = SPIFFS_OBJ_ID_FREE)))) s.
Proof.
  intros Hok Hsb Hse HT Hfb. unfold spiffs_obj_lu_find_free. wp_step. wp_step. wp_step. wp_step. wp_step.
  replace ((cleaning s =? 0) && (free_blocks s <? 2)) with false.
  2: { symmetry. apply andb_false_iff. rewrite Z.eqb_neq, Z.ltb_ge. lia. }
  wp_step. ok_res. wp_step. wp_apply find_id_ok; [done..|].
  intros [[res b] e] s1 (Hf & Hok1 & [[-> Hfe]|[-> Hne]]).
  - ok_res. wp_step. wp_step. wp_step. wp_step. wp_step.
    assert (Hgoal : forall s', s' = claim_free b e s1 ->
      wp (mret (SPIFFS_OK, b, e)) (fun r s' => fs_ok (T - ticks (cfg s) 0) s' /\
        ((exists b e s1, r = (SPIFFS_OK, b, e) /\ lu_frame s s1 /\ s' = claim_free b e s1 /\
          first_entry (cfg s) (start_pos (cfg s) 0 sb se) (fun b e => lu_id (cfg s) (view s) b e = SPIFFS_OBJ_ID_FREE) b e)
        \/ (r.1.1 = SPIFFS_ERR_NOT_FOUND /\ lu_frame s s' /\
         no_entry (cfg s) (fun b e => lu_id (cfg s) (view s) b e = SPIFFS_OBJ_ID_FREE)))) s').
    { intros s' ->. wp_step. split; [|left; by eauto 10].
      unfold claim_free. destruct (e =? 0); (eapply fs_okx_same; [exact Hok1|done..]). }
    wp_step; wp_step; apply Hgoal; unfold claim_free.
    + by subst e.
    + by rewrite (proj2 (Z.eqb_neq _ _) E).
  - change (SPIFFS_ERR_NOT_FOUND =? SPIFFS_OK) with false. cbv iota. wp_step. split; [done|]. right. done.
Qed.

(** ** [spiffs_page_allocate_data] *)

Definition cleared (ph : spiffs_page_header) (m : Z) : spiffs_page_header := set_ph_flags (clrb (ph_flags ph) m) ph.

(** The header as stored: [USED] cleared, and [FINAL] if the page is finalised. *)
Definition alloc_header (ph : spiffs_page_header) (finalize : bool) : spiffs_page_header :=
  let ph := cleared ph SPIFFS_PH_FLAG_USED in
  if finalize && hasb (ph_flags ph) SPIFFS_PH_FLAG_FINAL then cleared ph SPIFFS_PH_FLAG_FINAL else ph.

(** The effect on the flash contents [v] of storing [ph] and [data] (at [offs]) in
    the page of entry [e] of block [b]. *)
Definition page_stored (c : spiffs_config) (v v' : Z -> Z) (b e id : Z) (ph : spiffs_page_header)
    (offs : Z) (data : list Z) : Prop :=
  let p := entry_pix c b e in
  lu_id c v' b e = u16 id /\
  vread v' (paddr c p) sizeof_page_header = enc_page_header ph /\
  vread v' (paddr c p + sizeof_page_header + offs) (zlen data) = data /\
  forall x, ~ (baddr c b + 2 * e <= x < baddr c b + 2 * e + 2) ->
    ~ (paddr c p <= x < paddr c p + sizeof_page_header) ->
    ~ (paddr c p + sizeof_page_header + offs <= x < paddr c p + sizeof_page_header + offs + zlen data) -> v' x = v x.

Lemma clrb_byte x m : 0 <= m <= 255 -> is_byte (clrb x m).
Proof.
  intros Hm. unfold clrb. rewrite <- (Z.mod_small (255 - m) 256) by lia.
  rewrite <- land_255, Z.land_assoc. apply land_255_is_byte.
Qed.

Lemma land_clrb x m : Z.land x (clrb x m) = clrb x m.
Proof. unfold clrb. by rewrite Z.land_assoc, Z.land_diag. Qed.

Lemma lu_id_free_erased c s b e :
  lu_id c (view s) b e = SPIFFS_OBJ_ID_FREE -> erased (view s) (baddr c b + 2 * e) 2.
Proof.
  unfold lu_id, dec16. rewrite !zget_vread by lia. rewrite Z.add_0_r. intros H x Hx.
  pose proof (hal_byte (flash s) (baddr c b + 2 * e)) as H1. pose proof (hal_byte (flash s) (baddr c b + 2 * e + 1)) as H2.
  unfold is_byte, view, SPIFFS_OBJ_ID_FREE in *. destruct (decide (x = baddr c b + 2 * e)) as [->|]; [lia|].
  replace x with (baddr c b + 2 * e + 1) by lia. lia.
Qed.

(** Free entries belong to erased pages. *)
Definition free_erased s : Prop := forall b e, 0 <= b < blocks (cfg s) -> 0 <= e < lue (cfg s) ->
  lu_id (cfg s) (view s) b e = SPIFFS_OBJ_ID_FREE -> erased (view s) (paddr (cfg s) (entry_pix (cfg s) b e)) (psz (cfg s)).

(** Writes of [src] to erased bytes of one page. *)
Lemma wr_erased T s op fh addr src :
  fs_ok T s -> 1 <= T -> in_page (cfg s) addr (zlen src) -> erased (view s) addr (zlen src) -> Forall is_byte src ->
  Z.land op SPIFFS_OP_COM_MASK <> SPIFFS_OP_C_WRTHRU ->
  wp (spiffs_phys_wr op fh addr src) (wrote (fun _ => True) (T - 1) s addr src) s.
Proof. intros Hok HT Hp He Hb Hop. apply phys_wr_ok; auto. split; [done|]. left. by eapply erased_compat. Qed.

Definition alloc_data (data : option (list Z)) : list Z := default [] data.

Definition count_alloc s : spiffs F := set_stats_p_allocated (u32 (stats_p_allocated s + 1)) s.

(** The stored page as seen in the contents after the three writes. *)
Lemma page_stored_writes c v b e id ph offs data :
  wf_cfg c -> 0 <= b < blocks c -> 0 <= e < lue c ->
  let p := entry_pix c b e in
  erased v (baddr c b + 2 * e) 2 -> erased v (paddr c p) (psz c) ->
  0 <= offs -> sizeof_page_header + offs + zlen data <= psz c -> is_byte (ph_flags ph) -> Forall is_byte data ->
  page_stored c v
    (programmed (programmed (programmed v (baddr c b + 2 * e) (enc16 id)) (paddr c p) (enc_page_header ph))
       (paddr c p + sizeof_page_header + offs) data) b e id ph offs data.
Proof.
  intros Hwf Hb He p Hee Hep Ho Hlen Hf Hd. unfold sizeof_page_header in *.
  pose proof (entry_before_pages c Hwf b e b e Hb He Hb He) as Hsep. fold p in Hsep.
  pose proof (zlen_nonneg data). set (v1 := programmed v (baddr c b + 2 * e) (enc16 id)).
  set (v2 := programmed v1 (paddr c p) (enc_page_header ph)).
  assert (He1 : erased v1 (paddr c p) (psz c)).
  { intros x Hx. unfold v1. rewrite programmed_out; [by apply Hep|]. rewrite length_enc16. lia. }
  assert (He2 : erased v2 (paddr c p + 5) (psz c - 5)).
  { intros x Hx. unfold v2. rewrite programmed_out; [apply He1; lia|]. rewrite length_enc_page_header. lia. }
  unfold page_stored. fold p. unfold sizeof_page_header. split; [|split; [|split]].
  - unfold lu_id. rewrite vread_programmed_out by lia. unfold v2.
    rewrite vread_programmed_out by (rewrite length_enc_page_header; lia).
    unfold v1. change 2 with (zlen (enc16 id)) at 3. rewrite vread_programmed; [apply dec16_enc16|].
    eapply erased_compat; [exact Hee|done|apply enc16_bytes].
  - rewrite vread_programmed_out by lia. unfold v2. change 5 with (zlen (enc_page_header ph)) at 1.
    apply vread_programmed. eapply erased_compat; [exact He1| |by apply enc_page_header_bytes].
    rewrite length_enc_page_header. lia.
  - apply vread_programmed. intros i Hi. eapply (erased_compat v2 _ data (zlen data)); [|lia|done|done].
    intros x Hx. apply He2. lia.
  - intros x H1 H2 H3. rewrite programmed_out by lia. unfold v2. rewrite programmed_out by (rewrite length_enc_page_header; lia).
    unfold v1. rewrite programmed_out by (rewrite length_enc16; lia). done.
Qed.

Lemma page_stored_flags c v v' b e id ph offs data : page_stored c v v' b e id ph offs data ->
  v' (paddr c (entry_pix c b e) + 4) = ph_flags ph.
Proof.
  intros (_ & Hph & _). change sizeof_page_header with (4 + 1) in Hph. rewrite vread_app in Hph by lia.
  unfold enc_page_header in Hph. rewrite app_assoc in Hph. apply app_inj_1 in Hph as [_ Hph2]; [|done].
  assert (zget (vread v' (paddr c (entry_pix c b e) + 4) 1) 0 = ph_flags ph) as E by (rewrite Hph2; apply zget_0).
  rewrite zget_vread in E by lia. by rewrite Z.add_0_r in E.
Qed.

(** Clearing flags of a stored page. *)
Lemma page_stored_clear c v v' b e id ph offs data m :
  wf_cfg c -> 0 <= b < blocks c -> 0 <= e < lue c -> 0 <= offs ->
  page_stored c v v' b e id ph offs data ->
  page_stored c v (programmed v' (paddr c (entry_pix c b e) + offsetof_flags) [clrb (ph_flags ph) m]) b e id (cleared ph m) offs data.
Proof.
  intros Hwf Hb He Ho Hst. pose proof (page_stored_flags _ _ _ _ _ _ _ _ _ Hst) as Hfl.
  destruct Hst as (Hid & Hph & Hd & Hrest). set (p := entry_pix c b e) in *.
  pose proof (entry_before_pages c Hwf b e b e Hb He Hb He) as Hsep. fold p in Hsep.
  pose proof (wf_psz c Hwf). pose proof (zlen_nonneg data).
  unfold sizeof_page_header, offsetof_flags in *. change 5 with (4 + 1) in Hph. rewrite vread_app in Hph by lia.
  unfold enc_page_header in Hph. rewrite app_assoc in Hph. apply app_inj_1 in Hph as [Hph1 Hph2]; [|done].
  unfold page_stored. fold p. unfold sizeof_page_header. split; [|split; [|split]].
  - rewrite <- Hid. unfold lu_id. by rewrite vread_programmed_out by (change (zlen [clrb (ph_flags ph) m]) with 1; lia).
  - change 5 with (4 + 1). rewrite vread_app by lia. unfold enc_page_header. rewrite app_assoc.
    rewrite vread_programmed_out by (change (zlen [clrb (ph_flags ph) m]) with 1; lia). rewrite Hph1.
    f_equal. change 1 with (zlen [clrb (ph_flags ph) m]). apply vread_programmed.
    intros i Hi. change (zlen _) with 1 in Hi. replace i with 0 by lia. rewrite zget_0, Z.add_0_r, Hfl.
    apply land_clrb.
  - rewrite <- Hd at 2. apply vread_programmed_out. change (zlen [_]) with 1. lia.
  - intros x H1 H2 H3. rewrite programmed_out by (change (zlen [_]) with 1; lia). by apply Hrest.
Qed.

Lemma page_stored_ext c v v' v'' b e id ph offs data : (forall x, v'' x = v' x) ->
  page_stored c v v' b e id ph offs data -> page_stored c v v'' b e id ph offs data.
Proof.
  intros Hx (Hid & Hph & Hd & Hrest).
  assert (Hr : forall a n, vread v'' a n = vread v' a n) by (intros; apply vread_ext; auto).
  unfold page_stored, lu_id in *. rewrite !Hr. do 3 (split; [done|]). intros. rewrite Hx. auto.
Qed.

(** The writes of [spiffs_page_allocate_data] to a free page. *)
Lemma allocate_writes T s b e id ph data offs finalize :
  fs_ok T s -> 4 <= T -> 0 <= b < blocks (cfg s) -> 0 <= e < lue (cfg s) ->
  lu_id (cfg s) (view s) b e = SPIFFS_OBJ_ID_FREE ->
  erased (view s) (paddr (cfg s) (entry_pix (cfg s) b e)) (psz (cfg s)) ->
  0 <= offs -> sizeof_page_header + offs < psz (cfg s) ->
  sizeof_page_header + offs + zlen (alloc_data data) <= psz (cfg s) ->
  Forall is_byte (alloc_data data) ->
  let c := cfg s in
  wp (res ← spiffs_phys_wr (Z.lor SPIFFS_OP_T_OBJ_LU SPIFFS_OP_C_UPDT) 0
            (u32 (SPIFFS_BLOCK_TO_PADDR c b + e * sizeof_obj_id)) (enc16 id);
    if res <? SPIFFS_OK then mret (res, 0, ph)
    else
      modify (fun s => set_stats_p_allocated (u32 (stats_p_allocated s + 1)) s);;
      let ph := set_ph_flags (clrb (ph_flags ph) SPIFFS_PH_FLAG_USED) ph in
      let paddr := SPIFFS_OBJ_LOOKUP_ENTRY_TO_PADDR c b e in
      res ← spiffs_phys_wr (Z.lor SPIFFS_OP_T_OBJ_DA SPIFFS_OP_C_UPDT) 0 paddr (enc_page_header ph);
      if res <? SPIFFS_OK then mret (res, 0, ph)
      else
        res ← (match data with
               | Some data => spiffs_phys_wr (Z.lor SPIFFS_OP_T_OBJ_DA SPIFFS_OP_C_UPDT) 0
                                (u32 (paddr + sizeof_page_header + offs)) data
               | None => mret res
               end);
        if res <? SPIFFS_OK then mret (res, 0, ph)
        else
          let pix := u16 (SPIFFS_OBJ_LOOKUP_ENTRY_TO_PIX c b e) in
          if finalize && hasb (ph_flags ph) SPIFFS_PH_FLAG_FINAL then
            let ph := set_ph_flags (clrb (ph_flags ph) SPIFFS_PH_FLAG_FINAL) ph in
            res ← spiffs_phys_wr (Z.lor SPIFFS_OP_T_OBJ_DA SPIFFS_OP_C_UPDT) 0
                    (u32 (paddr + offsetof_flags)) [ph_flags ph];
            if res <? SPIFFS_OK then mret (res, 0, ph) else mret (res, pix, ph)
          else mret (res, pix, ph))
    (fun r s' => r = (SPIFFS_OK, entry_pix c b e, alloc_header ph finalize) /\ fs_ok (T - 4) s' /\
       flash_frame (count_alloc s) s' /\
       page_stored c (view s) (view s') b e id (alloc_header ph finalize) offs (alloc_data data)) s.
Proof.
  intros Hok HT Hb He Hfree Her Ho Ho2 Hlen Hbytes c. subst c. pose proof (fs_ok_wf _ _ Hok) as Hwf.
  set (c := cfg s) in *. set (p := entry_pix c b e) in *.
  pose proof (entry_pix_range c Hwf b e Hb He) as Hp. fold p in Hp.
  pose proof (paddr_range c Hwf p Hp). pose proof (wf_psz c Hwf). pose proof (wf_end c Hwf). pose proof (wf_addr c Hwf).
  destruct (lu_entry_addr c Hwf b e Hb He) as [Hea _].
  pose proof (entry_before_pages c Hwf b e b e Hb He Hb He) as Hsep. fold p in Hsep.
  pose proof (zlen_nonneg (alloc_data data)) as Hdl. unfold sizeof_page_header in *.
  (* the lookup entry *)
  rewrite Hea. wp_step.
  wp_apply wr_erased; [done|lia|by apply lu_entry_in_page|by apply lu_id_free_erased|apply enc16_bytes|done|].
  intros r s1 (-> & Hfr1 & Hok1 & Hv1 & _). ok_res. wp_step. wp_step.
  assert (Hc1 : cfg s1 = c) by (rewrite Hfr1; done).
  set (s1a := set_stats_p_allocated (u32 (stats_p_allocated s1 + 1)) s1).
  assert (Hok1a : fs_ok (T - 1) s1a) by (eapply fs_okx_same; [exact Hok1|done..]).
  rewrite entry_to_paddr, entry_to_pix by done. fold p. set (ph1 := set_ph_flags (clrb (ph_flags ph) SPIFFS_PH_FLAG_USED) ph).
  assert (Hb1 : is_byte (ph_flags ph1)) by (apply clrb_byte; unfold SPIFFS_PH_FLAG_USED; lia).
  assert (Her1 : erased (view s1a) (paddr c p) (psz c)).
  { intros x Hx. change (view s1a x) with (view s1 x). rewrite Hv1, programmed_out; [by apply Her|].
    rewrite length_enc16. lia. }
  (* the header *)
  wp_step. wp_apply wr_erased; [exact Hok1a|lia| | |by apply enc_page_header_bytes|done|].
  { rewrite length_enc_page_header. change (cfg s1a) with (cfg s1). rewrite Hc1. apply in_page_start; [done|done|lia]. }
  { intros x Hx. rewrite length_enc_page_header in Hx. apply Her1. lia. }
  intros r s2 (-> & Hfr2 & Hok2 & Hv2 & _). ok_res.
  assert (Hc2 : cfg s2 = c) by (rewrite Hfr2; done).
  (* the data *)
  wp_step. eapply wp_mono with (P := wrote (fun _ => True) (T - 3) s2 (paddr c p + 5 + offs) (alloc_data data)).
  { destruct data as [d|].
    - change (alloc_data (Some d)) with d in *. rewrite u32_small by lia. replace (T - 3) with (T - 1 - 1 - 1) by lia. apply wr_erased; [done|lia| | |done|done].
      + rewrite Hc2. exists p, (5 + offs). lia.
      + intros x Hx. rewrite Hv2, programmed_out; [|rewrite length_enc_page_header; lia]. apply Her1. lia.
    - wp_step. split; [done|]. split; [by destruct s2|]. split; [eapply fs_okx_weaken; [exact Hok2|lia]|].
      split; [|intros q ca1 ca2 Hca1 Hca2; by assert (ca1 = ca2) as -> by congruence].
      intros x. symmetry. apply programmed_out. unfold zlen. cbn. lia. }
  intros r s3 (-> & Hfr3 & Hok3 & Hv3 & _). ok_res.
  assert (Hc3 : cfg s3 = c) by (rewrite Hfr3; done).
  assert (Hst : page_stored c (view s) (view s3) b e id ph1 offs (alloc_data data)).
  { eapply page_stored_ext; [|apply page_stored_writes; try done; by apply lu_id_free_erased].
    intros x. rewrite Hv3. apply programmed_ext. intros y. rewrite Hv2. apply programmed_ext. exact Hv1. }
  unfold alloc_header. change (cleared ph SPIFFS_PH_FLAG_USED) with ph1. wp_step.
  - wp_step. rewrite u32_small by (unfold offsetof_flags; lia).
    wp_apply phys_wr_ok; [exact Hok3|lia| | |].
    { rewrite Hc3. exists p, offsetof_flags. unfold offsetof_flags. change (zlen [_]) with 1. lia. }
    { split; [done|]. left. intros i Hi. change (zlen [_]) with 1 in Hi. replace i with 0 by lia.
      rewrite zget_0, Z.add_0_r. apply page_stored_flags in Hst. fold p in Hst. unfold offsetof_flags. rewrite Hst.
      apply land_clrb. }
    intros r s4 (-> & Hfr4 & Hok4 & Hv4 & _). ok_res. wp_step. split; [done|].
    split; [by replace (T - 4) with (T - 3 - 1) by lia|]. split.
    + unfold flash_frame, count_alloc. rewrite Hfr4, Hfr3, Hfr2. unfold s1a. rewrite Hfr1. done.
    + eapply page_stored_ext; [exact Hv4|]. by apply page_stored_clear.
  - wp_step. split; [done|]. split; [eapply fs_okx_weaken; [exact Hok3|lia]|]. split; [|done].
    unfold flash_frame, count_alloc. rewrite Hfr3, Hfr2. unfold s1a. rewrite Hfr1. done.
Qed.

(** The outcome of an allocation: the first free entry from the cursor is used. *)
Lemma page_allocate_data_ok T s id ph data offs finalize :
  fs_ok T s -> ticks (cfg s) 0 + 4 <= T ->
  0 <= free_cursor_block_ix s < blocks (cfg s) -> 0 <= free_cursor_obj_lu_entry s ->
  cleaning s <> 0 \/ 2 <= free_blocks s -> free_erased s ->
  0 <= offs -> sizeof_page_header + offs < psz (cfg s) ->
  sizeof_page_header + offs + zlen (alloc_data data) <= psz (cfg s) -> Forall is_byte (alloc_data data) ->
  wp (spiffs_page_allocate_data id ph data offs finalize) (fun r s' =>
    (exists b e s1, r = (SPIFFS_OK, entry_pix (cfg s) b e, alloc_header ph finalize) /\
       first_entry (cfg s) (start_pos (cfg s) 0 (free_cursor_block_ix s) (free_cursor_obj_lu_entry s))
         (fun b e => lu_id (cfg s) (view s) b e = SPIFFS_OBJ_ID_FREE) b e /\
       fs_ok (T - ticks (cfg s) 0 - 4) s' /\ lu_frame s s1 /\ flash_frame (count_alloc (claim_free b e s1)) s' /\
       page_stored (cfg s) (view s) (view s') b e id (alloc_header ph finalize) offs (alloc_data data))
    \/ (r = (SPIFFS_ERR_NOT_FOUND, 0, ph) /\ lu_frame s s' /\
        no_entry (cfg s) (fun b e => lu_id (cfg s) (view s) b e = SPIFFS_OBJ_ID_FREE))) s.
Proof.
  intros Hok HT Hcb Hce Hfb Hfe Ho Ho2 Hlen Hbytes. unfold spiffs_page_allocate_data.
  wp_step. wp_step. wp_step. wp_step. wp_step. wp_step. wp_step.
  wp_apply find_free_ok; [done|done|done|lia|done|].
  intros r s1 (Hok1 & [(b & e & s0 & -> & Hf & -> & Hfirst)|(Hr & Hf & Hne)]).
  - ok_res. set (s1 := claim_free b e s0) in *.
    assert (Hc1 : cfg s1 = cfg s) by (unfold s1, claim_free; rewrite Hf; by destruct (e =? 0)).
    assert (Hv1 : view s1 = view s) by (unfold s1, claim_free; rewrite Hf; by destruct (e =? 0)).
    pose proof Hfirst as (Hb & He & Hid & _).
    assert (Her1 : erased (view s1) (paddr (cfg s1) (entry_pix (cfg s1) b e)) (psz (cfg s1)))
      by (rewrite Hc1, Hv1; by apply Hfe).
    pose proof (allocate_writes (T - ticks (cfg s) 0) s1 b e id ph data offs finalize Hok1 ltac:(lia)) as Hw.
    cbv zeta in Hw. rewrite Hc1, Hv1 in *. specialize (Hw Hb He Hid Her1 Ho Ho2 Hlen Hbytes).
    wp_apply Hw. intros r s2 (-> & Hok2 & Hfr & Hst). left. exists b, e, s0.
    do 5 (split; [done|]). done.
  - destruct r as [[res b] e]. cbn in Hr. subst res. ok_res. wp_step. right. done.
Qed.
End ops.
