(* ===== verification/SpiffsIndex.v ===== *)
(** Object index pages of SPIFFS ([spiffs_nucleus.c]): the event that keeps the
    file descriptors' cached page indices up to date, rewriting the object index
    header, and access to the index tables held in [fs->work]. *)
From S2P Require Import Prelude CSem SpiffsTypes SpiffsCache SpiffsLookup SpiffsPage.
From stdpp Require Import base list numbers option.

Open Scope Z_scope.

(** Offsets in [spiffs_page_object_ix_header]. *)
Definition offsetof_size : Z := 8.
Definition offsetof_type : Z := 12.
Definition offsetof_name : Z := 13.

(** A C string is given by its characters before the terminating zero. *)
Definition cstr (l : list Z) : list Z :=
  (fix go l := match l with [] => [] | x :: l' => if x =? 0 then [] else x :: go l' end) l.

(** [strncpy(dst, s, n)]: [n] bytes, padded with zeros. *)
Definition strncpy (s : list Z) (n : Z) : list Z :=
  take (Z.to_nat n) (cstr s ++ replicate (Z.to_nat n) 0).

(** [strcmp(a, b) == 0]. *)
Definition streq (a b : list Z) : bool := bool_decide (cstr a = cstr b).

(** The object index header read into a [spiffs_page_object_ix_header]. *)
Record spiffs_page_object_ix_header : Type := mkOix {
  oix_p_hdr : spiffs_page_header;
  oix_size : Z;
  oix_type : Z;
  oix_name : list Z
}.

Definition dec_object_ix_header (l : list Z) : spiffs_page_object_ix_header :=
  mkOix (dec_page_header l) (dec32 (slice l offsetof_size 4)) (zget l offsetof_type)
    (slice l offsetof_name SPIFFS_OBJ_NAME_LEN).

(** The bytes of the structure: [_align] and the final padding byte are not
    assigned by the code and keep the values [junk] of the stack. *)
Definition enc_object_ix_header (junk : list Z) (h : spiffs_page_object_ix_header) : list Z :=
  enc_page_header (oix_p_hdr h) ++ slice junk 0 3 ++ enc32 (oix_size h) ++ [oix_type h]
    ++ oix_name h ++ slice junk 3 1.

Section defs.
  Context {F : Type} {hal : SpiffsHal F}.

Definition rd_object_ix_header (op fh addr : Z) : C (spiffs F) (Z * spiffs_page_object_ix_header) :=
  r ← spiffs_phys_rd op fh addr sizeof_object_ix_header;
  mret (r.1, dec_object_ix_header r.2).

(** [objix_hdr->p_hdr] and [objix_hdr->size] of the page in [fs->work]. *)
Definition work_p_hdr (s : spiffs F) : spiffs_page_header := dec_page_header (work s).
Definition work_size (s : spiffs F) : Z := dec32 (slice (work s) offsetof_size 4).
Definition set_work_size (size : Z) : C (spiffs F) unit :=
  modify (fun s => set_work (splice (work s) offsetof_size (enc32 size)) s).

(** Entry for data span index [data_spix] of the index table in [fs->work]: of
    the header page ([objix_spix = 0]) or of an index page.  An offset outside
    the page is undefined. *)
Definition objix_entry_offs (c : spiffs_config) (objix_spix data_spix : Z) : Z :=
  if objix_spix =? 0 then sizeof_object_ix_header + data_spix * sizeof_page_ix
  else sizeof_object_ix + SPIFFS_OBJ_IX_ENTRY c data_spix * sizeof_page_ix.

Definition get_objix_entry (objix_spix data_spix : Z) : C (spiffs F) Z :=
  c ← gets cfg;
  w ← gets work;
  let offs := objix_entry_offs c objix_spix data_spix in
  if offs + sizeof_page_ix <=? zlen w then mret (dec16 (slice w offs sizeof_page_ix)) else undefined.

Definition set_objix_entry (objix_spix data_spix pix : Z) : C (spiffs F) unit :=
  c ← gets cfg;
  w ← gets work;
  let offs := objix_entry_offs c objix_spix data_spix in
  if offs + sizeof_page_ix <=? zlen w then modify (set_work (splice w offs (enc16 pix))) else undefined.

(** ** [spiffs_cb_object_event] *)

(** The effect of the event on one descriptor. *)
Definition fd_object_event (ev obj_id spix new_pix new_size : Z) (cur_fd : spiffs_fd) : spiffs_fd :=
  if (fd_file_nbr cur_fd =? 0) || negb (data_id (fd_obj_id cur_fd) =? obj_id) then cur_fd
  else
    let fd1 :=
      if spix =? 0 then
        if (ev =? SPIFFS_EV_IX_NEW) || (ev =? SPIFFS_EV_IX_UPD) then
          let fd := set_fd_objix_hdr_pix new_pix cur_fd in
          if negb (new_size =? 0) then set_fd_size new_size fd else fd
        else if ev =? SPIFFS_EV_IX_DEL then
          set_fd_obj_id SPIFFS_OBJ_ID_DELETED (set_fd_file_nbr 0 cur_fd)
        else cur_fd
      else cur_fd in
    if fd_cursor_objix_spix fd1 =? spix then
      if (ev =? SPIFFS_EV_IX_NEW) || (ev =? SPIFFS_EV_IX_UPD) then set_fd_cursor_objix_pix new_pix fd1
      else set_fd_cursor_objix_pix 0 fd1
    else fd1.

Definition spiffs_cb_object_event (ev obj_id spix new_pix new_size : Z) : C (spiffs F) unit :=
  modify (fun s => set_fds (fd_object_event ev (data_id obj_id) spix new_pix new_size <$> fds s) s).

(** ** [spiffs_object_update_index_hdr]

    [fd] is the descriptor, if any; [from_work]: [new_objix_hdr_data] is
    [fs->work] (as in every call that passes it), else the page is loaded there;
    [name], when given, replaces the name; a [size] of 0 leaves the size. *)
Definition spiffs_object_update_index_hdr (fd : option Z) (obj_id objix_hdr_pix : Z) (from_work : bool)
    (name : option (list Z)) (size : Z) : C (spiffs F) (Z * Z) :=
  c ← gets cfg;
  let obj_id := ix_id obj_id in
  res ← (if from_work then mret SPIFFS_OK
         else match fd with
              | None => undefined
              | Some fd_i =>
                  f ← fd_at fd_i;
                  r ← spiffs_phys_rd (Z.lor SPIFFS_OP_T_OBJ_IX SPIFFS_OP_C_READ) (fd_file_nbr f)
                        (SPIFFS_PAGE_TO_PADDR c objix_hdr_pix) (log_page_size c);
                  modify (set_work r.2);; mret r.1
              end);
  if res <? SPIFFS_OK then mret (res, 0)
  else
    ph ← gets work_p_hdr;
    match SPIFFS_VALIDATE_OBJIX ph obj_id 0 with
    | Some err => mret (err, 0)
    | None =>
        (match name with
         | Some n => modify (fun s => set_work (splice (work s) offsetof_name (strncpy n SPIFFS_OBJ_NAME_LEN)) s)
         | None => mret tt
         end);;
        (if negb (size =? 0) then set_work_size size else mret tt);;
        fh ← (match fd with Some fd_i => f ← fd_at fd_i; mret (fd_file_nbr f) | None => mret 0 end);
        r ← spiffs_page_move fh true obj_id objix_hdr_pix 0;
        let '(res, new_objix_hdr_pix) := r in
        if res =? SPIFFS_OK then
          spix ← gets (fun s => ph_span_ix (work_p_hdr s));
          sz ← gets work_size;
          spiffs_cb_object_event SPIFFS_EV_IX_UPD obj_id spix new_objix_hdr_pix sz;;
          (match fd with Some fd_i => upd_fd fd_i (set_fd_objix_hdr_pix new_objix_hdr_pix) | None => mret tt end);;
          mret (res, new_objix_hdr_pix)
        else mret (res, 0)
    end.

End defs.
