(* ===== verification/SpiffsGc.v ===== *)
(** Garbage collection of SPIFFS ([spiffs_gc.c]): page statistics, choosing a
    candidate block, cleaning a block by moving its live pages, and
    [spiffs_gc_check], which every operation that needs space calls first. *)
From S2P Require Import Prelude CSem SpiffsTypes SpiffsCache SpiffsLookup SpiffsPage SpiffsIndex.
From stdpp Require Import base list numbers option.

Open Scope Z_scope.

Section defs.
  Context {F : Type} {hal : SpiffsHal F}.

(** Number of lookup entries as the loops of [spiffs_gc.c] compute it. *)
Definition gc_entries (c : spiffs_config) : Z :=
  s32 (u32 (SPIFFS_PAGES_PER_BLOCK c - SPIFFS_OBJ_LOOKUP_PAGES c)).

(** ** Statistics of a block about to be erased *)

(** Loop variables: [cur_entry], [dele], [allo]. *)
Definition erase_stats_entry_body (res entry_offset entries_per_page : Z)
    (l : Z * Z * Z) : C (spiffs F) (ctl (Z * Z * Z) unit) :=
  c ← gets cfg;
  let '(cur_entry, dele, allo) := l in
  if (res =? SPIFFS_OK) && (cur_entry - entry_offset <? entries_per_page) && (cur_entry <? gc_entries c) then
    obj_id ← gets (obj_lu_buf (cur_entry - entry_offset));
    if obj_id =? SPIFFS_OBJ_ID_FREE then mret (Next (cur_entry + 1, dele, allo))
    else if obj_id =? SPIFFS_OBJ_ID_DELETED then mret (Next (cur_entry + 1, dele + 1, allo))
    else mret (Next (cur_entry + 1, dele, allo + 1))
  else mret (Exit l).

Definition erase_stats_page_body (bix entries_per_page : Z)
    (l : Z * Z * Z * Z * Z) : C (spiffs F) (ctl (Z * Z * Z * Z * Z) unit) :=
  c ← gets cfg;
  let '(res, obj_lookup_page, cur_entry, dele, allo) := l in
  if (res =? SPIFFS_OK) && (obj_lookup_page <? s32 (SPIFFS_OBJ_LOOKUP_PAGES c)) then
    let entry_offset := obj_lookup_page * entries_per_page in
    res ← rd_lu_page (u32 (bix * log_block_size c)) obj_lookup_page;
    r ← loop (Z.to_nat entries_per_page + 1) (erase_stats_entry_body res entry_offset entries_per_page)
          (cur_entry, dele, allo);
    match r with
    | inl (cur_entry, dele, allo) => mret (Next (res, obj_lookup_page + 1, cur_entry, dele, allo))
    | inr _ => undefined
    end
  else mret (Exit l).

Definition spiffs_gc_erase_page_stats (bix : Z) : C (spiffs F) Z :=
  c ← gets cfg;
  let entries_per_page := log_page_size c / sizeof_obj_id in
  r ← loop (Z.to_nat (SPIFFS_OBJ_LOOKUP_PAGES c) + 1) (erase_stats_page_body bix entries_per_page)
        (SPIFFS_OK, 0, 0, 0, 0);
  match r with
  | inl (res, _, _, dele, allo) =>
      modify (fun s => set_stats_p_allocated (u32 (stats_p_allocated s - allo)) s);;
      modify (fun s => set_stats_p_deleted (u32 (stats_p_deleted s - dele)) s);;
      mret res
  | inr _ => undefined
  end.

(** ** Candidate blocks

    The candidate table lies in [fs->work]: 16-bit block indices, then 32-bit
    scores from the next 4-byte boundary ([fs->work] is 4-byte aligned). *)

Definition gc_max_candidates (c : spiffs_config) (block_count : Z) : Z :=
  Z.min block_count (u32 (log_page_size c - 8) / 6).
Definition cand_scores_offs (max_candidates : Z) : Z := (max_candidates * 2 + 3) / 4 * 4.

Definition cand_block (w : list Z) (i : Z) : Z := dec16 (slice w (i * 2) 2).
Definition cand_score (max : Z) (w : list Z) (i : Z) : Z := s32 (dec32 (slice w (cand_scores_offs max + i * 4) 4)).
Definition set_cand (max : Z) (w : list Z) (i bix score : Z) : list Z :=
  splice (splice w (i * 2) (enc16 bix)) (cand_scores_offs max + i * 4) (enc32 score).

(** [while (reorder_cand_ix >= cand_ix)]: moves the entries one place down. *)
Fixpoint cand_shift (max : Z) (n : nat) (reorder_cand_ix : Z) (w : list Z) : list Z :=
  match n with
  | O => w
  | S n' => cand_shift max n' (reorder_cand_ix - 1)
              (set_cand max w (reorder_cand_ix + 1) (cand_block w reorder_cand_ix) (cand_score max w reorder_cand_ix))
  end.

(** [while (cand_ix < max_candidates)]: inserts by descending score. *)
Fixpoint cand_insert (max : Z) (n : nat) (cand_ix bix score : Z) (w : list Z) : list Z :=
  match n with
  | O => w
  | S n' =>
      if cand_block w cand_ix =? IX_NONE then set_cand max w cand_ix bix score
      else if cand_score max w cand_ix <? score
      then set_cand max (cand_shift max (Z.to_nat (max - 1 - cand_ix)) (max - 2) w) cand_ix bix score
      else cand_insert max n' (cand_ix + 1) bix score w
  end.

Definition gc_erase_age (max_erase_count erase_count : Z) : Z :=
  if erase_count <? max_erase_count then u16 (max_erase_count - erase_count)
  else u16 (SPIFFS_OBJ_ID_FREE - (erase_count - max_erase_count)).

Definition gc_score (deleted used erase_age : Z) (fs_crammed : bool) : Z :=
  deleted * SPIFFS_GC_HEUR_W_DELET + used * SPIFFS_GC_HEUR_W_USED
  + erase_age * (if fs_crammed then 0 else SPIFFS_GC_HEUR_W_ERASE_AGE).

(** Loop variables of the entry scan: [res], [cur_entry], deleted and used pages. *)
Definition gc_cand_entry_body (entry_offset entries_per_page : Z)
    (l : Z * Z * Z * Z) : C (spiffs F) (ctl (Z * Z * Z * Z) unit) :=
  c ← gets cfg;
  let '(res, cur_entry, deleted, used) := l in
  if (res =? SPIFFS_OK) && (cur_entry - entry_offset <? entries_per_page) && (cur_entry <? gc_entries c) then
    obj_id ← gets (obj_lu_buf (cur_entry - entry_offset));
    if obj_id =? SPIFFS_OBJ_ID_FREE then mret (Exit (1, cur_entry, deleted, used))
    else if obj_id =? SPIFFS_OBJ_ID_DELETED then mret (Next (res, cur_entry + 1, u16 (deleted + 1), used))
    else mret (Next (res, cur_entry + 1, deleted, u16 (used + 1)))
  else mret (Exit l).

Definition gc_cand_page_body (cur_block_addr entries_per_page : Z)
    (l : Z * Z * Z * Z * Z) : C (spiffs F) (ctl (Z * Z * Z * Z * Z) unit) :=
  c ← gets cfg;
  let '(res, cur_entry, deleted, used, obj_lookup_page) := l in
  if (res =? SPIFFS_OK) && (obj_lookup_page <? s32 (SPIFFS_OBJ_LOOKUP_PAGES c)) then
    let entry_offset := obj_lookup_page * entries_per_page in
    res ← rd_lu_page cur_block_addr obj_lookup_page;
    r ← loop (Z.to_nat entries_per_page + 1) (gc_cand_entry_body entry_offset entries_per_page)
          (res, cur_entry, deleted, used);
    match r with
    | inl (res, cur_entry, deleted, used) => mret (Next (res, cur_entry, deleted, used, obj_lookup_page + 1))
    | inr _ => undefined
    end
  else mret (Exit l).

(** Loop variables of the block scan: [res], [blocks], [cur_block],
    [cur_block_addr], [*candidate_count]. *)
Definition gc_cand_block_body (max_candidates entries_per_page : Z) (fs_crammed : bool)
    (l : Z * Z * Z * Z * Z) : C (spiffs F) (ctl (Z * Z * Z * Z * Z) (Z * Z)) :=
  c ← gets cfg;
  let '(res, blocks, cur_block, cur_block_addr, count) := l in
  if (res =? SPIFFS_OK) && negb (blocks =? 0) then
    r ← loop (Z.to_nat (SPIFFS_OBJ_LOOKUP_PAGES c) + 1) (gc_cand_page_body cur_block_addr entries_per_page)
          (res, 0, 0, 0, 0);
    match r with
    | inr _ => undefined
    | inl (res, _, deleted, used, _) =>
        let res := if res =? 1 then SPIFFS_OK else res in
        if (res =? SPIFFS_OK) && (0 <? deleted) then
          e ← rd_obj_id (Z.lor SPIFFS_OP_C_READ SPIFFS_OP_T_OBJ_LU2) 0 (SPIFFS_ERASE_COUNT_PADDR c cur_block);
          if e.1 <? SPIFFS_OK then mret (Return (e.1, count))
          else
            mec ← gets max_erase_count;
            let score := gc_score deleted used (gc_erase_age mec e.2) fs_crammed in
            modify (fun s => set_work (cand_insert max_candidates (Z.to_nat max_candidates) 0 cur_block score (work s)) s);;
            mret (Next (e.1, blocks - 1, u16 (cur_block + 1), u32 (cur_block_addr + log_block_size c), count + 1))
        else mret (Next (res, blocks - 1, u16 (cur_block + 1), u32 (cur_block_addr + log_block_size c), count))
    end
  else mret (Exit l).

(** Return code and [*candidate_count]; the candidates are in [fs->work]. *)
Definition spiffs_gc_find_candidate (fs_crammed : bool) : C (spiffs F) (Z * Z) :=
  c ← gets cfg;
  blocks ← gets block_count;
  let max_candidates := gc_max_candidates c blocks in
  modify (set_work (replicate (Z.to_nat (log_page_size c)) 255));;
  let entries_per_page := log_page_size c / sizeof_obj_id in
  r ← loop (Z.to_nat blocks + 1) (gc_cand_block_body max_candidates entries_per_page fs_crammed)
        (SPIFFS_OK, blocks, 0, 0, 0);
  match r with
  | inr r => mret r
  | inl (res, _, _, _, count) => mret (res, count)
  end.

(** ** Cleaning a block *)

Inductive spiffs_gc_clean_state : Type :=
  | FIND_OBJ_DATA
  | MOVE_OBJ_DATA
  | MOVE_OBJ_IX
  | FINISHED.

Record spiffs_gc : Type := mkGc {
  gc_state : spiffs_gc_clean_state;
  gc_cur_obj_id : Z;
  gc_cur_objix_spix : Z;
  gc_cur_objix_pix : Z;
  gc_stored_scan_entry_index : Z;
  gc_obj_id_found : bool
}.

(** Local variables of [spiffs_gc_clean] that live across its loops. *)
Record gc_vars : Type := mkGv {
  gv_res : Z;
  gv_scan : bool;
  gv_cur_entry : Z;
  gv_cur_pix : Z;
  gv_gc : spiffs_gc
}.

(** Case [MOVE_OBJ_DATA] of the entry switch: [inl res] goes on, [inr] returns. *)
Definition gc_move_obj_data (bix obj_lookup_page obj_id cur_pix : Z) (gc : spiffs_gc) : C (spiffs F) (Z + Z) :=
  c ← gets cfg;
  if obj_id =? gc_cur_obj_id gc then
    r ← rd_page_header (Z.lor SPIFFS_OP_T_OBJ_LU2 SPIFFS_OP_C_READ) 0 (SPIFFS_PAGE_TO_PADDR c cur_pix);
    let '(res, p_hdr) := r in
    if res <? SPIFFS_OK then mret (inr res)
    else if negb (SPIFFS_OBJ_IX_ENTRY_SPAN_IX c (ph_span_ix p_hdr) =? gc_cur_objix_spix gc) then mret (inl res)
    else
      r ← (if hasb (ph_flags p_hdr) SPIFFS_PH_FLAG_DELET then
             m ← spiffs_page_move 0 false obj_id cur_pix 0;
             if m.1 <? SPIFFS_OK then mret (inr m.1)
             else
               res ← rd_lu_page (u32 (bix * log_block_size c)) obj_lookup_page;
               if res <? SPIFFS_OK then mret (inr res) else mret (inl (res, m.2))
           else
             res ← spiffs_page_delete cur_pix;
             if res <? SPIFFS_OK then mret (inr res) else mret (inl (res, SPIFFS_OBJ_ID_FREE)));
      match r with
      | inr res => mret (inr res)
      | inl (res, new_data_pix) =>
          set_objix_entry (gc_cur_objix_spix gc) (ph_span_ix p_hdr) new_data_pix;;
          mret (inl res)
      end
  else mret (inl SPIFFS_OK).

(** Case [MOVE_OBJ_IX] of the entry switch. *)
Definition gc_move_obj_ix (bix obj_lookup_page obj_id cur_pix : Z) : C (spiffs F) (Z + Z) :=
  c ← gets cfg;
  if negb (obj_id =? SPIFFS_OBJ_ID_DELETED) && negb (obj_id =? SPIFFS_OBJ_ID_FREE) && is_ix obj_id then
    r ← rd_page_header (Z.lor SPIFFS_OP_T_OBJ_LU2 SPIFFS_OP_C_READ) 0 (SPIFFS_PAGE_TO_PADDR c cur_pix);
    let '(res, p_hdr) := r in
    if res <? SPIFFS_OK then mret (inr res)
    else if hasb (ph_flags p_hdr) SPIFFS_PH_FLAG_DELET then
      m ← spiffs_page_move 0 false obj_id cur_pix 0;
      if m.1 <? SPIFFS_OK then mret (inr m.1)
      else
        spiffs_cb_object_event SPIFFS_EV_IX_UPD obj_id (ph_span_ix p_hdr) m.2 0;;
        res ← rd_lu_page (u32 (bix * log_block_size c)) obj_lookup_page;
        if res <? SPIFFS_OK then mret (inr res) else mret (inl res)
    else
      res ← spiffs_page_delete cur_pix;
      (if res =? SPIFFS_OK
       then spiffs_cb_object_event SPIFFS_EV_IX_DEL obj_id (ph_span_ix p_hdr) cur_pix 0 else mret tt);;
      if res <? SPIFFS_OK then mret (inr res) else mret (inl res)
  else mret (inl SPIFFS_OK).

(** Body of the "check each entry" loop. *)
Definition gc_clean_entry_body (bix obj_lookup_page entry_offset entries_per_page : Z)
    (l : gc_vars) : C (spiffs F) (ctl gc_vars Z) :=
  c ← gets cfg;
  let cur_entry := gv_cur_entry l in
  let gc := gv_gc l in
  if gv_scan l && (gv_res l =? SPIFFS_OK) && (cur_entry - entry_offset <? entries_per_page)
     && (cur_entry <? gc_entries c) then
    obj_id ← gets (obj_lu_buf (cur_entry - entry_offset));
    let cur_pix := u16 (SPIFFS_OBJ_LOOKUP_ENTRY_TO_PIX c bix cur_entry) in
    match gc_state gc with
    | FIND_OBJ_DATA =>
        if negb (obj_id =? SPIFFS_OBJ_ID_DELETED) && negb (obj_id =? SPIFFS_OBJ_ID_FREE) && negb (is_ix obj_id) then
          mret (Next (mkGv (gv_res l) false (cur_entry + 1) cur_pix
            (mkGc FIND_OBJ_DATA obj_id (gc_cur_objix_spix gc) (gc_cur_objix_pix gc)
               (gc_stored_scan_entry_index gc) true)))
        else mret (Next (mkGv (gv_res l) true (cur_entry + 1) cur_pix gc))
    | MOVE_OBJ_DATA =>
        r ← gc_move_obj_data bix obj_lookup_page obj_id cur_pix gc;
        match r with
        | inr res => mret (Return res)
        | inl res => mret (Next (mkGv res true (cur_entry + 1) cur_pix gc))
        end
    | MOVE_OBJ_IX =>
        r ← gc_move_obj_ix bix obj_lookup_page obj_id cur_pix;
        match r with
        | inr res => mret (Return res)
        | inl res => mret (Next (mkGv res true (cur_entry + 1) cur_pix gc))
        end
    | FINISHED => mret (Next (mkGv (gv_res l) false (cur_entry + 1) cur_pix gc))
    end
  else mret (Exit l).

(** Body of the "check each object lookup page" loop. *)
Definition gc_clean_page_body (bix entries_per_page : Z)
    (lp : gc_vars * Z) : C (spiffs F) (ctl (gc_vars * Z) Z) :=
  c ← gets cfg;
  let '(l, obj_lookup_page) := lp in
  if gv_scan l && (gv_res l =? SPIFFS_OK) && (obj_lookup_page <? s32 (SPIFFS_OBJ_LOOKUP_PAGES c)) then
    let entry_offset := obj_lookup_page * entries_per_page in
    res ← rd_lu_page (u32 (bix * log_block_size c)) obj_lookup_page;
    r ← loop (Z.to_nat entries_per_page + 1) (gc_clean_entry_body bix obj_lookup_page entry_offset entries_per_page)
          (mkGv res (gv_scan l) (gv_cur_entry l) (gv_cur_pix l) (gv_gc l));
    match r with
    | inl l' => mret (Next (l', obj_lookup_page + 1))
    | inr res => mret (Return res)
    end
  else mret (Exit lp).

(** Loads the object index page of the data page at [cur_pix] into [fs->work]:
    the [FIND_OBJ_DATA] case of the state switch.  [inr] returns. *)
Definition gc_load_objix (gc : spiffs_gc) (cur_entry cur_pix : Z) : C (spiffs F) ((Z * spiffs_gc) + Z) :=
  c ← gets cfg;
  r ← rd_page_header (Z.lor SPIFFS_OP_T_OBJ_LU2 SPIFFS_OP_C_READ) 0 (SPIFFS_PAGE_TO_PADDR c cur_pix);
  let '(res, p_hdr) := r in
  if res <? SPIFFS_OK then mret (inr res)
  else
    let objix_spix := u16 (SPIFFS_OBJ_IX_ENTRY_SPAN_IX c (ph_span_ix p_hdr)) in
    r ← spiffs_obj_lu_find_id_and_span (ix_id (gc_cur_obj_id gc)) objix_spix 0;
    let '(res, objix_pix) := r in
    if res <? SPIFFS_OK then mret (inr res)
    else
      r ← spiffs_phys_rd (Z.lor SPIFFS_OP_T_OBJ_LU2 SPIFFS_OP_C_READ) 0 (SPIFFS_PAGE_TO_PADDR c objix_pix)
            (log_page_size c);
      modify (set_work r.2);;
      if r.1 <? SPIFFS_OK then mret (inr r.1)
      else
        ph ← gets work_p_hdr;
        match SPIFFS_VALIDATE_OBJIX ph (ix_id (gc_cur_obj_id gc)) objix_spix with
        | Some err => mret (inr err)
        | None => mret (inl (r.1, mkGc MOVE_OBJ_DATA (gc_cur_obj_id gc) objix_spix objix_pix cur_entry (gc_obj_id_found gc)))
        end.

(** Stores the modified object index page: the [MOVE_OBJ_DATA] case. *)
Definition gc_store_objix (gc : spiffs_gc) : C (spiffs F) (Z + Z) :=
  if gc_cur_objix_spix gc =? 0 then
    r ← spiffs_object_update_index_hdr None (ix_id (gc_cur_obj_id gc)) (gc_cur_objix_pix gc) true None 0;
    if r.1 <? SPIFFS_OK then mret (inr r.1) else mret (inl r.1)
  else
    r ← spiffs_page_move 0 true (ix_id (gc_cur_obj_id gc)) (gc_cur_objix_pix gc) 0;
    if r.1 <? SPIFFS_OK then mret (inr r.1)
    else
      spix ← gets (fun s => ph_span_ix (work_p_hdr s));
      spiffs_cb_object_event SPIFFS_EV_IX_UPD (gc_cur_obj_id gc) spix r.2 0;;
      mret (inl r.1).

(** Body of the main loop: one scan of the block and the state switch. *)
Definition gc_clean_state_body (bix entries_per_page : Z) (l : gc_vars) : C (spiffs F) (ctl gc_vars Z) :=
  c ← gets cfg;
  let finished := match gc_state (gv_gc l) with FINISHED => true | _ => false end in
  if (gv_res l =? SPIFFS_OK) && negb finished then
    let gc0 := mkGc (gc_state (gv_gc l)) (gc_cur_obj_id (gv_gc l)) (gc_cur_objix_spix (gv_gc l))
                 (gc_cur_objix_pix (gv_gc l)) (gc_stored_scan_entry_index (gv_gc l)) false in
    r ← loop (Z.to_nat (SPIFFS_OBJ_LOOKUP_PAGES c) + 1) (gc_clean_page_body bix entries_per_page)
          (mkGv (gv_res l) true (gv_cur_entry l) (gv_cur_pix l) gc0, gv_cur_entry l / entries_per_page);
    match r with
    | inr res => mret (Return res)
    | inl (l, _) =>
        let gc := gv_gc l in
        if negb (gv_res l =? SPIFFS_OK) then mret (Exit l)
        else
          match gc_state gc with
          | FIND_OBJ_DATA =>
              if gc_obj_id_found gc then
                r ← gc_load_objix gc (gv_cur_entry l) (gv_cur_pix l);
                match r with
                | inr res => mret (Return res)
                | inl (res, gc') => mret (Next (mkGv res (gv_scan l) 0 (gv_cur_pix l) gc'))
                end
              else
                mret (Next (mkGv (gv_res l) (gv_scan l) 0 (gv_cur_pix l)
                  (mkGc MOVE_OBJ_IX (gc_cur_obj_id gc) (gc_cur_objix_spix gc) (gc_cur_objix_pix gc)
                     (gc_stored_scan_entry_index gc) (gc_obj_id_found gc))))
          | MOVE_OBJ_DATA =>
              r ← gc_store_objix gc;
              match r with
              | inr res => mret (Return res)
              | inl res =>
                  mret (Next (mkGv res (gv_scan l) (gc_stored_scan_entry_index gc) (gv_cur_pix l)
                    (mkGc FIND_OBJ_DATA (gc_cur_obj_id gc) (gc_cur_objix_spix gc) (gc_cur_objix_pix gc)
                       (gc_stored_scan_entry_index gc) (gc_obj_id_found gc))))
              end
          | MOVE_OBJ_IX =>
              mret (Next (mkGv (gv_res l) (gv_scan l) (gv_cur_entry l) (gv_cur_pix l)
                (mkGc FINISHED (gc_cur_obj_id gc) (gc_cur_objix_spix gc) (gc_cur_objix_pix gc)
                   (gc_stored_scan_entry_index gc) (gc_obj_id_found gc))))
          | FINISHED => mret (Next (mkGv (gv_res l) (gv_scan l) 0 (gv_cur_pix l) gc))
          end
    end
  else mret (Exit l).

Definition spiffs_gc_clean (bix : Z) : C (spiffs F) Z :=
  c ← gets cfg;
  bc ← gets block_count;
  let entries_per_page := log_page_size c / sizeof_obj_id in
  fc ← gets free_cursor_block_ix;
  (if fc =? bix then
     modify (set_free_cursor_block_ix (u16 ((bix + 1) mod bc)));;
     modify (set_free_cursor_obj_lu_entry 0)
   else mret tt);;
  r ← loop (2 * Z.to_nat (SPIFFS_PAGES_PER_BLOCK c) + 4) (gc_clean_state_body bix entries_per_page)
        (mkGv SPIFFS_OK true 0 0 (mkGc FIND_OBJ_DATA 0 0 0 0 false));
  match r with inl l => mret (gv_res l) | inr res => mret res end.

(** ** [spiffs_gc_check] *)

Definition gc_free_pages (s : spiffs F) : Z :=
  s32 (u32 (u32 (SPIFFS_PAGES_PER_BLOCK (cfg s) - SPIFFS_OBJ_LOOKUP_PAGES (cfg s)) * u32 (block_count s - 2)
            - stats_p_allocated s - stats_p_deleted s)).

(** One iteration of the [do ... while]: [tries] and [free_pages]; leaving the
    loop carries [res]. *)
Definition gc_check_body (len needed_pages : Z) (l : Z * Z * Z) : C (spiffs F) (ctl (Z * Z * Z) Z) :=
  c ← gets cfg;
  let '(tries, free_pages, _) := l in
  r ← spiffs_gc_find_candidate (free_pages <=? 0);
  let '(res, count) := r in
  if res <? SPIFFS_OK then mret (Return res)
  else if count =? 0 then
    mret (Return (if s32 needed_pages <? free_pages then SPIFFS_OK else SPIFFS_ERR_FULL))
  else
    cand ← gets (fun s => cand_block (work s) 0);
    modify (set_cleaning 1);;
    res ← spiffs_gc_clean cand;
    modify (set_cleaning 0);;
    if res <? SPIFFS_OK then mret (Return res)
    else
      res ← spiffs_gc_erase_page_stats cand;
      if res <? SPIFFS_OK then mret (Return res)
      else
        res ← spiffs_gc_erase_block cand;
        if res <? SPIFFS_OK then mret (Return res)
        else
          free_pages' ← gets gc_free_pages;
          fb ← gets free_blocks;
          if (free_pages <=? 0) && (free_pages =? free_pages') then mret (Exit (tries, free_pages', res))
          else if (tries + 1 <? SPIFFS_GC_MAX_RUNS)
                  && ((fb <=? 2) || (s32 (free_pages' * s32 (SPIFFS_DATA_PAGE_SIZE c)) <? s32 len))
          then mret (Next (tries + 1, free_pages', res))
          else mret (Exit (tries + 1, free_pages', res)).

Definition spiffs_gc_check (len : Z) : C (spiffs F) Z :=
  c ← gets cfg;
  free_pages ← gets gc_free_pages;
  fb ← gets free_blocks;
  pd ← gets stats_p_deleted;
  let needed_pages := u32 (len + SPIFFS_DATA_PAGE_SIZE c - 1) / SPIFFS_DATA_PAGE_SIZE c in
  if (3 <? fb) && (s32 len <? s32 (free_pages * s32 (SPIFFS_DATA_PAGE_SIZE c))) then mret SPIFFS_OK
  else if s32 (u32 (free_pages + pd)) <? s32 needed_pages then mret SPIFFS_ERR_FULL
  else
    r ← loop (Z.to_nat SPIFFS_GC_MAX_RUNS + 1) (gc_check_body len needed_pages) (0, free_pages, SPIFFS_OK);
    match r with
    | inr res => mret res
    | inl (_, _, res) =>
        free_pages ← gets gc_free_pages;
        mret (if s32 (free_pages * s32 (SPIFFS_DATA_PAGE_SIZE c)) <? s32 len then SPIFFS_ERR_FULL else res)
    end.

End defs.
