(* ===== verification/SpiffsObject.v ===== *)
(** Objects (files) of SPIFFS ([spiffs_nucleus.c]): file descriptors, creating
    and opening objects, searching by name, choosing an object id, and reading,
    appending to, modifying and truncating the contents. *)
From S2P Require Import Prelude CSem SpiffsTypes SpiffsCache SpiffsLookup SpiffsPage SpiffsIndex SpiffsGc.
From stdpp Require Import base list numbers option.

Open Scope Z_scope.

(** [strcmp(path, name) == 0] against the 32-byte [name] member: [None] when the
    comparison runs past the end of an unterminated name. *)
Definition strcmp_name (path name : list Z) : option bool :=
  if bool_decide (length (cstr name) = length name) && bool_decide (take (length name) (cstr path) = name)
  then None else Some (streq path name).

Section defs.
  Context {F : Type} {hal : SpiffsHal F}.

(** ** File descriptors *)

(** Index of the first closed descriptor. *)
Fixpoint fd_search (i : Z) (l : list spiffs_fd) : option Z :=
  match l with
  | [] => None
  | fd :: l' => if fd_file_nbr fd =? 0 then Some i else fd_search (i + 1) l'
  end.

(** Return code and the index of the descriptor [*fd] points to. *)
Definition spiffs_fd_find_new : C (spiffs F) (Z * Z) :=
  n ← gets fd_count;
  l ← gets fds;
  match fd_search 0 (take (Z.to_nat n) l) with
  | Some i => upd_fd i (set_fd_file_nbr (s16 (i + 1)));; mret (SPIFFS_OK, i)
  | None => mret (SPIFFS_ERR_OUT_OF_FILE_DESCS, 0)
  end.

Definition spiffs_fd_return (f : Z) : C (spiffs F) Z :=
  n ← gets fd_count;
  if (f <=? 0) || (s16 n <? f) then mret SPIFFS_ERR_BAD_DESCRIPTOR
  else
    fd ← fd_at (f - 1);
    if fd_file_nbr fd =? 0 then mret SPIFFS_ERR_FILE_CLOSED
    else upd_fd (f - 1) (set_fd_file_nbr 0);; mret SPIFFS_OK.

Definition spiffs_fd_get (f : Z) : C (spiffs F) (Z * Z) :=
  n ← gets fd_count;
  if (f <=? 0) || (s16 n <? f) then mret (SPIFFS_ERR_BAD_DESCRIPTOR, 0)
  else
    fd ← fd_at (f - 1);
    if fd_file_nbr fd =? 0 then mret (SPIFFS_ERR_FILE_CLOSED, f - 1) else mret (SPIFFS_OK, f - 1).

(** ** Creating and opening *)

(** [junk]: the four bytes of the header structure on the stack that are never
    assigned.  Gives the return code and [*objix_hdr_pix]. *)
Definition spiffs_object_create (junk : list Z) (obj_id : Z) (name : list Z) (type : Z) : C (spiffs F) (Z * Z) :=
  c ← gets cfg;
  res ← spiffs_gc_check (SPIFFS_DATA_PAGE_SIZE c);
  if res <? SPIFFS_OK then mret (res, 0)
  else
    let obj_id := ix_id obj_id in
    fb ← gets free_cursor_block_ix;
    fe ← gets free_cursor_obj_lu_entry;
    r ← spiffs_obj_lu_find_free fb fe;
    let '(res, bix, entry) := r in
    if res <? SPIFFS_OK then mret (res, 0)
    else
      res ← spiffs_phys_wr (Z.lor SPIFFS_OP_T_OBJ_LU SPIFFS_OP_C_UPDT) 0
              (u32 (SPIFFS_BLOCK_TO_PADDR c bix + entry * sizeof_obj_id)) (enc16 obj_id);
      if res <? SPIFFS_OK then mret (res, 0)
      else
        modify (fun s => set_stats_p_allocated (u32 (stats_p_allocated s + 1)) s);;
        let oix_hdr := mkOix (mkPh obj_id 0 (clrb 255 (Z.lor SPIFFS_PH_FLAG_FINAL (Z.lor SPIFFS_PH_FLAG_INDEX SPIFFS_PH_FLAG_USED))))
                         SPIFFS_UNDEFINED_LEN type (strncpy name SPIFFS_OBJ_NAME_LEN) in
        res ← spiffs_phys_wr (Z.lor SPIFFS_OP_T_OBJ_DA SPIFFS_OP_C_UPDT) 0
                (SPIFFS_OBJ_LOOKUP_ENTRY_TO_PADDR c bix entry) (enc_object_ix_header junk oix_hdr);
        if res <? SPIFFS_OK then mret (res, 0)
        else
          let pix := u16 (SPIFFS_OBJ_LOOKUP_ENTRY_TO_PIX c bix entry) in
          spiffs_cb_object_event SPIFFS_EV_IX_NEW obj_id 0 pix SPIFFS_UNDEFINED_LEN;;
          mret (res, pix).

Definition spiffs_object_open_by_page (pix fd_i flags : Z) : C (spiffs F) Z :=
  c ← gets cfg;
  fd ← fd_at fd_i;
  r ← rd_object_ix_header (Z.lor SPIFFS_OP_T_OBJ_IX SPIFFS_OP_C_READ) (fd_file_nbr fd) (SPIFFS_PAGE_TO_PADDR c pix);
  let '(res, oix_hdr) := r in
  if res <? SPIFFS_OK then mret res
  else
    let bix := u16 (SPIFFS_BLOCK_FOR_PAGE c pix) in
    let entry := s32 (SPIFFS_OBJ_LOOKUP_ENTRY_FOR_PAGE c pix) in
    r ← rd_obj_id (Z.lor SPIFFS_OP_T_OBJ_LU SPIFFS_OP_C_READ) 0
          (u32 (SPIFFS_BLOCK_TO_PADDR c bix + entry * sizeof_obj_id));
    let '(res, obj_id) := r in
    upd_fd fd_i (fun fd => mkFd (fd_file_nbr fd) obj_id (oix_size oix_hdr) pix pix 0 0 (fd_fdoffset fd) flags (fd_cache_page fd));;
    mret (default res (SPIFFS_VALIDATE_OBJIX (oix_p_hdr oix_hdr) obj_id 0)).

Definition spiffs_object_open_by_id (obj_id fd_i flags : Z) : C (spiffs F) Z :=
  r ← spiffs_obj_lu_find_id_and_span (ix_id obj_id) 0 0;
  if r.1 <? SPIFFS_OK then mret r.1 else spiffs_object_open_by_page r.2 fd_i flags.

(** ** Searching by name *)

Definition spiffs_object_find_object_index_header_by_name_v (name : list Z)
    : spiffs_visitor_f (F := F) unit := fun obj_id bix ix_entry u =>
  c ← gets cfg;
  let pix := u16 (SPIFFS_OBJ_LOOKUP_ENTRY_TO_PIX c bix ix_entry) in
  if (obj_id =? SPIFFS_OBJ_ID_FREE) || (obj_id =? SPIFFS_OBJ_ID_DELETED) || negb (is_ix obj_id) then
    mret (SPIFFS_VIS_COUNTINUE, u)
  else
    r ← rd_object_ix_header (Z.lor SPIFFS_OP_T_OBJ_LU2 SPIFFS_OP_C_READ) 0 (SPIFFS_PAGE_TO_PADDR c pix);
    let '(res, objix_hdr) := r in
    if res <? SPIFFS_OK then mret (res, u)
    else if (ph_span_ix (oix_p_hdr objix_hdr) =? 0)
      && (Z.land (ph_flags (oix_p_hdr objix_hdr))
            (Z.lor SPIFFS_PH_FLAG_DELET (Z.lor SPIFFS_PH_FLAG_FINAL SPIFFS_PH_FLAG_IXDELE))
          =? Z.lor SPIFFS_PH_FLAG_DELET SPIFFS_PH_FLAG_IXDELE) then
      match strcmp_name name (oix_name objix_hdr) with
      | None => undefined
      | Some true => mret (SPIFFS_OK, u)
      | Some false => mret (SPIFFS_VIS_COUNTINUE, u)
      end
    else mret (SPIFFS_VIS_COUNTINUE, u).

Definition spiffs_object_find_object_index_header_by_name (name : list Z) : C (spiffs F) (Z * Z) :=
  c ← gets cfg;
  cb ← gets cursor_block_ix;
  ce ← gets cursor_obj_lu_entry;
  r ← spiffs_obj_lu_find_entry_visitor cb ce 0 0
        (Some (spiffs_object_find_object_index_header_by_name_v name)) tt 0 0;
  let res := if lr_res unit r =? SPIFFS_VIS_END then SPIFFS_ERR_NOT_FOUND else lr_res unit r in
  if res <? SPIFFS_OK then mret (res, 0)
  else
    let bix := lr_block_ix unit r in
    let entry := lr_lu_entry unit r in
    modify (set_cursor_block_ix bix);;
    modify (set_cursor_obj_lu_entry entry);;
    mret (res, u16 (SPIFFS_OBJ_LOOKUP_ENTRY_TO_PIX c bix entry)).

(** ** Choosing an object id *)

Definition spiffs_obj_lu_find_free_obj_id_bitmap_v (min_obj_id : Z) (conflicting_name : option (list Z))
    : spiffs_visitor_f (F := F) unit := fun id bix ix_entry u =>
  c ← gets cfg;
  if negb (id =? SPIFFS_OBJ_ID_FREE) && negb (id =? SPIFFS_OBJ_ID_DELETED) then
    conflict ←
      (match conflicting_name with
       | Some name =>
           if is_ix id then
             let pix := u16 (SPIFFS_OBJ_LOOKUP_ENTRY_TO_PIX c bix ix_entry) in
             r ← rd_object_ix_header (Z.lor SPIFFS_OP_T_OBJ_LU2 SPIFFS_OP_C_READ) 0 (SPIFFS_PAGE_TO_PADDR c pix);
             let '(res, objix_hdr) := r in
             if res <? SPIFFS_OK then mret (Some res)
             else if (ph_span_ix (oix_p_hdr objix_hdr) =? 0)
               && (Z.land (ph_flags (oix_p_hdr objix_hdr))
                     (Z.lor SPIFFS_PH_FLAG_DELET (Z.lor SPIFFS_PH_FLAG_FINAL SPIFFS_PH_FLAG_IXDELE))
                   =? Z.lor SPIFFS_PH_FLAG_DELET SPIFFS_PH_FLAG_IXDELE) then
               match strcmp_name name (oix_name objix_hdr) with
               | None => undefined
               | Some true => mret (Some SPIFFS_ERR_CONFLICTING_NAME)
               | Some false => mret None
               end
             else mret None
           else mret None
       | None => mret None
       end);
    match conflict with
    | Some res => mret (res, u)
    | None =>
        let d := data_id id - min_obj_id in
        let bit_ix := Z.land d 7 in
        let byte_ix := Z.shiftr d 3 in
        (if (0 <=? byte_ix) && (byte_ix <? log_page_size c) then
           modify (fun s => set_work (zset (work s) byte_ix (Z.lor (zget (work s) byte_ix) (Z.shiftl 1 bit_ix))) s)
         else mret tt);;
        mret (SPIFFS_VIS_COUNTINUE, u)
    end
  else mret (SPIFFS_VIS_COUNTINUE, u).

(** [spiffs_free_obj_id_state]. *)
Record spiffs_free_obj_id_state : Type := mkFoi {
  foi_min_obj_id : Z;
  foi_max_obj_id : Z;
  foi_compaction : Z;
  foi_conflicting_name : option (list Z)
}.

(** [map[ix]++] on the byte map in [fs->work]; [fs->lu_work] lies directly
    behind [fs->work] in memory. *)
Definition incr_work_map (ix : Z) : C (spiffs F) unit :=
  c ← gets cfg;
  if ix <? log_page_size c then
    modify (fun s => set_work (zset (work s) ix (u8 (zget (work s) ix + 1))) s)
  else if ix <? 2 * log_page_size c then
    let k := ix - log_page_size c in
    modify (fun s => set_lu_work (zset (lu_work s) k (u8 (zget (lu_work s) k + 1))) s)
  else undefined.

Definition spiffs_obj_lu_find_free_obj_id_compact_v (state : spiffs_free_obj_id_state)
    : spiffs_visitor_f (F := F) unit := fun id bix ix_entry u =>
  c ← gets cfg;
  if negb (id =? SPIFFS_OBJ_ID_FREE) && negb (id =? SPIFFS_OBJ_ID_DELETED) && is_ix id then
    r ← rd_object_ix_header (Z.lor SPIFFS_OP_T_OBJ_LU2 SPIFFS_OP_C_READ) 0
          (SPIFFS_OBJ_LOOKUP_ENTRY_TO_PADDR c bix ix_entry);
    let '(res, objix_hdr) := r in
    if (res =? SPIFFS_OK) && (ph_span_ix (oix_p_hdr objix_hdr) =? 0)
       && (Z.land (ph_flags (oix_p_hdr objix_hdr))
             (Z.lor SPIFFS_PH_FLAG_INDEX (Z.lor SPIFFS_PH_FLAG_FINAL SPIFFS_PH_FLAG_DELET))
           =? SPIFFS_PH_FLAG_DELET) then
      conflict ←
        (match foi_conflicting_name state with
         | Some name => match strcmp_name name (oix_name objix_hdr) with None => undefined | Some b => mret b end
         | None => mret false
         end);
      if conflict : bool then mret (SPIFFS_ERR_CONFLICTING_NAME, u)
      else
        let id := data_id id in
        (if (foi_min_obj_id state <=? id) && (id <=? foi_max_obj_id state) then
           if foi_compaction state =? 0 then undefined
           else incr_work_map ((id - foi_min_obj_id state) / foi_compaction state)
         else mret tt);;
        mret (SPIFFS_VIS_COUNTINUE, u)
    else mret (SPIFFS_VIS_COUNTINUE, u)
  else mret (SPIFFS_VIS_COUNTINUE, u).

(** First [j < 8] with bit [j] of [mask] clear, at position [(i << 3) + j]. *)
Fixpoint free_bit (mask : Z) (n : nat) (j : Z) : option Z :=
  match n with
  | O => None
  | S n' => if Z.land mask (Z.shiftl 1 j) =? 0 then Some j else free_bit mask n' (j + 1)
  end.

Fixpoint bitmap_search (l : list Z) (i : Z) : option Z :=
  match l with
  | [] => None
  | mask :: l' =>
      if mask =? 255 then bitmap_search l' (i + 1)
      else match free_bit mask 8 0 with
           | Some j => Some (Z.shiftl i 3 + j)
           | None => bitmap_search l' (i + 1)
           end
  end.

(** The group with the fewest ids: [min_i] and [min_count]; stops at a zero. *)
Fixpoint min_group (l : list Z) (i min_i min_count : Z) : Z * Z :=
  match l with
  | [] => (min_i, min_count)
  | m :: l' =>
      if m <? min_count then (if m =? 0 then (i, m) else min_group l' (i + 1) i m)
      else min_group l' (i + 1) min_i min_count
  end.

(** The range fits the bitmap: scan the ids in use and take the first free one. *)
Definition free_obj_id_bitmap (state : spiffs_free_obj_id_state) (conflicting_name : option (list Z))
    : C (spiffs F) (Z * Z) :=
  c ← gets cfg;
  modify (set_work (replicate (Z.to_nat (log_page_size c)) 0));;
  r ← spiffs_obj_lu_find_entry_visitor 0 0 0 0
        (Some (spiffs_obj_lu_find_free_obj_id_bitmap_v (foi_min_obj_id state) conflicting_name)) tt 0 0;
  let res := if lr_res unit r =? SPIFFS_VIS_END then SPIFFS_OK else lr_res unit r in
  if res <? SPIFFS_OK then mret (res, 0)
  else
    w ← gets work;
    match bitmap_search (slice w 0 (log_page_size c)) 0 with
    | Some k => mret (SPIFFS_OK, u16 (k + foi_min_obj_id state))
    | None => mret (SPIFFS_ERR_FULL, 0)
    end.

(** [max - min <= (spiffs_obj_id)page_size * 8]. *)
Definition fits_bitmap (c : spiffs_config) (state : spiffs_free_obj_id_state) : bool :=
  foi_max_obj_id state - foi_min_obj_id state <=? u16 (log_page_size c) * 8.

(** Counts the ids in use per group of [compaction] ids. *)
Definition free_obj_id_compact (state : spiffs_free_obj_id_state)
    : C (spiffs F) (ctl spiffs_free_obj_id_state (Z * Z)) :=
  c ← gets cfg;
  let state := mkFoi (foi_min_obj_id state) (foi_max_obj_id state)
                 (u32 (foi_max_obj_id state - foi_min_obj_id state) / log_page_size c) (foi_conflicting_name state) in
  modify (set_work (replicate (Z.to_nat (log_page_size c)) 0));;
  r ← spiffs_obj_lu_find_entry_visitor 0 0 0 0 (Some (spiffs_obj_lu_find_free_obj_id_compact_v state)) tt 0 0;
  let res := if lr_res unit r =? SPIFFS_VIS_END then SPIFFS_OK else lr_res unit r in
  let state := mkFoi (foi_min_obj_id state) (foi_max_obj_id state) (foi_compaction state) None in
  if res <? SPIFFS_OK then mret (Return (res, 0))
  else if res =? SPIFFS_OK then mret (Next state) else mret (Return (res, 0)).

Definition free_obj_id_body (conflicting_name : option (list Z)) (state : spiffs_free_obj_id_state)
    : C (spiffs F) (ctl spiffs_free_obj_id_state (Z * Z)) :=
  c ← gets cfg;
  if fits_bitmap c state then
    r ← free_obj_id_bitmap state conflicting_name; mret (Return r)
  else if negb (foi_compaction state =? 0) then
    w ← gets work;
    let '(min_i, min_count) := min_group (slice w 0 (log_page_size c)) 0 0 255 in
    if min_count =? foi_compaction state then mret (Return (SPIFFS_ERR_FULL, 0))
    else if min_count =? 0 then
      mret (Return (SPIFFS_OK, u16 (min_i * foi_compaction state + foi_min_obj_id state)))
    else
      let min_id := u16 (foi_min_obj_id state + min_i * foi_compaction state) in
      let state := mkFoi min_id (u16 (min_id + foi_compaction state)) (foi_compaction state) (foi_conflicting_name state) in
      if fits_bitmap c state then mret (Next state) else free_obj_id_compact state
  else free_obj_id_compact state.

(** Return code and [*obj_id]. *)
Definition spiffs_obj_lu_find_free_obj_id (conflicting_name : option (list Z)) : C (spiffs F) (Z * Z) :=
  c ← gets cfg;
  bc ← gets block_count;
  let max_objects := u32 (bc * SPIFFS_OBJ_LOOKUP_MAX_ENTRIES c) / 2 in
  let max_id := u16 (max_objects + 1) in
  let max_id := if hasb max_id SPIFFS_OBJ_ID_IX_FLAG then data_id 65535 else max_id in
  r ← loop 8 (free_obj_id_body conflicting_name) (mkFoi 1 max_id 0 conflicting_name);
  match r with inr r => mret r | inl _ => undefined end.

End defs.
