(* ===== verification/SpiffsContent.v ===== *)
(** Contents of SPIFFS objects ([spiffs_nucleus.c]): appending, modifying,
    truncating and reading.  [fd_i] is the index of the descriptor; the object
    index page in use is kept in [fs->work]. *)
From S2P Require Import Prelude CSem SpiffsTypes SpiffsCache SpiffsLookup SpiffsPage SpiffsIndex SpiffsGc.
From stdpp Require Import base list numbers option.

Open Scope Z_scope.

Section defs.
  Context {F : Type} {hal : SpiffsHal F}.

(** Loads page [pix] into [fs->work]; writes [fs->work] to page [pix]. *)
Definition load_work (op fd_i pix : Z) : C (spiffs F) Z :=
  c ← gets cfg;
  fd ← fd_at fd_i;
  r ← spiffs_phys_rd op (fd_file_nbr fd) (SPIFFS_PAGE_TO_PADDR c pix) (log_page_size c);
  modify (set_work r.2);; mret r.1.

Definition store_work (fd_i pix : Z) : C (spiffs F) Z :=
  c ← gets cfg;
  fd ← fd_at fd_i;
  w ← gets work;
  spiffs_phys_wr (Z.lor SPIFFS_OP_T_OBJ_IX SPIFFS_OP_C_UPDT) (fd_file_nbr fd) (SPIFFS_PAGE_TO_PADDR c pix)
    (slice w 0 (log_page_size c)).

(** Loads an existing object index page and validates its header; [Some] is the
    error the caller returns. *)
Definition load_objix (fd_i pix objix_spix : Z) : C (spiffs F) (option Z) :=
  res ← load_work (Z.lor SPIFFS_OP_T_OBJ_IX SPIFFS_OP_C_READ) fd_i pix;
  if res <? SPIFFS_OK then mret (Some res)
  else
    fd ← fd_at fd_i;
    ph ← gets work_p_hdr;
    mret (SPIFFS_VALIDATE_OBJIX ph (fd_obj_id fd) objix_spix).

(** The page of object index [objix_spix]: the descriptor's cursor, if it is at
    this index page, else a search. *)
Definition find_objix (fd_i objix_spix : Z) : C (spiffs F) (Z * Z) :=
  fd ← fd_at fd_i;
  if fd_cursor_objix_spix fd =? objix_spix then mret (SPIFFS_OK, fd_cursor_objix_pix fd)
  else spiffs_obj_lu_find_id_and_span (ix_id (fd_obj_id fd)) objix_spix 0.

(** Writes one byte of flags to the header of page [pix]. *)
Definition write_flags (op fh pix flags : Z) : C (spiffs F) Z :=
  c ← gets cfg;
  spiffs_phys_wr op fh (u32 (SPIFFS_PAGE_TO_PADDR c pix + offsetof_flags)) [flags].

(** ** [spiffs_object_append] *)

(** Local variables of the append and modify loops; [io_data_pix] is the last
    data page assigned ([data_page], [data_pix]). *)
Record io_vars : Type := mkIo {
  io_res : Z;
  io_written : Z;
  io_cur_objix_spix : Z;
  io_prev_objix_spix : Z;
  io_cur_objix_pix : Z;
  io_data_spix : Z;
  io_page_offs : Z;
  io_data_pix : Z
}.

(** "store previous object index page, unless first pass"; [Some] returns. *)
Definition append_store_objix (fd_i offset written prev_objix_spix cur_objix_pix : Z) : C (spiffs F) (option Z) :=
  let size := u32 (offset + written) in
  fd ← fd_at fd_i;
  err ←
    (if prev_objix_spix =? 0 then
       set_work_size size;;
       if offset =? 0 then
         res ← spiffs_page_index_check fd cur_objix_pix 0;
         if res <? SPIFFS_OK then mret (Some res)
         else
           res ← store_work fd_i cur_objix_pix;
           mret (if res <? SPIFFS_OK then Some res else None)
       else
         r ← spiffs_object_update_index_hdr (Some fd_i) (fd_obj_id fd) (fd_objix_hdr_pix fd) true None size;
         mret (if r.1 <? SPIFFS_OK then Some r.1 else None)
     else
       res ← spiffs_page_index_check fd cur_objix_pix prev_objix_spix;
       if res <? SPIFFS_OK then mret (Some res)
       else
         res ← store_work fd_i cur_objix_pix;
         if res <? SPIFFS_OK then mret (Some res)
         else
           spix ← gets (fun s => ph_span_ix (work_p_hdr s));
           spiffs_cb_object_event SPIFFS_EV_IX_UPD (fd_obj_id fd) spix cur_objix_pix 0;;
           fd ← fd_at fd_i;
           r ← spiffs_object_update_index_hdr (Some fd_i) (fd_obj_id fd) (fd_objix_hdr_pix fd) false None size;
           mret (if r.1 <? SPIFFS_OK then Some r.1 else None));
  match err with
  | Some res => mret (Some res)
  | None => upd_fd fd_i (fun fd => set_fd_offset size (set_fd_size size fd));; mret None
  end.

(** "create or load new object index page": [inl] is the new [cur_objix_pix]. *)
Definition append_load_objix (fd_i offset written cur_objix_spix cur_objix_pix : Z) : C (spiffs F) (Z + Z) :=
  c ← gets cfg;
  if cur_objix_spix =? 0 then
    err ← load_objix fd_i cur_objix_pix cur_objix_spix;
    match err with Some res => mret (inr res) | None => mret (inl cur_objix_pix) end
  else
    fd ← fd_at fd_i;
    let len_objix_spix := u16 (SPIFFS_OBJ_IX_ENTRY_SPAN_IX c (u32 (fd_size fd - 1) / SPIFFS_DATA_PAGE_SIZE c)) in
    r ←
      (if (0 <? written) || (len_objix_spix <? cur_objix_spix) then
         let p_hdr := mkPh (ix_id (fd_obj_id fd)) cur_objix_spix
                        (clrb 255 (Z.lor SPIFFS_PH_FLAG_FINAL SPIFFS_PH_FLAG_INDEX)) in
         r ← spiffs_page_allocate_data (ix_id (fd_obj_id fd)) p_hdr None 0 true;
         let '(res, pix, p_hdr) := r in
         if res <? SPIFFS_OK then mret (inr res)
         else
           spiffs_cb_object_event SPIFFS_EV_IX_NEW (fd_obj_id fd) cur_objix_spix pix 0;;
           modify (set_work (splice (replicate (Z.to_nat (log_page_size c)) 255) 0 (enc_page_header p_hdr)));;
           mret (inl pix)
       else
         r ← find_objix fd_i cur_objix_spix;
         if r.1 <? SPIFFS_OK then mret (inr r.1)
         else
           err ← load_objix fd_i r.2 cur_objix_spix;
           match err with Some res => mret (inr res) | None => mret (inl r.2) end);
    match r with
    | inr res => mret (inr res)
    | inl pix =>
        let size := u32 (offset + written) in
        upd_fd fd_i (fun fd => set_fd_size size (set_fd_offset size
                       (set_fd_cursor_objix_spix cur_objix_spix (set_fd_cursor_objix_pix pix fd))));;
        mret (inl pix)
    end.

(** "write data": allocates a page or fills up the last one.  Gives [res] and
    [data_page]; [inr] returns. *)
Definition append_write_data (fd_i cur_objix_spix data_spix page_offs : Z) (bytes : list Z) : C (spiffs F) ((Z * Z) + Z) :=
  c ← gets cfg;
  fd ← fd_at fd_i;
  if page_offs =? 0 then
    let p_hdr := mkPh (data_id (fd_obj_id fd)) data_spix (clrb 255 SPIFFS_PH_FLAG_FINAL) in
    r ← spiffs_page_allocate_data (data_id (fd_obj_id fd)) p_hdr (Some bytes) page_offs true;
    let '(res, data_page, _) := r in mret (inl (res, data_page))
  else
    data_page ← get_objix_entry cur_objix_spix data_spix;
    res ← spiffs_page_data_check fd data_page data_spix;
    if res <? SPIFFS_OK then mret (inr res)
    else
      res ← spiffs_phys_wr (Z.lor SPIFFS_OP_T_OBJ_DA SPIFFS_OP_C_UPDT) (fd_file_nbr fd)
              (u32 (SPIFFS_PAGE_TO_PADDR c data_page + sizeof_page_header + page_offs)) bytes;
      mret (inl (res, data_page)).

Definition append_body (fd_i offset : Z) (data : list Z) (len : Z) (l : io_vars) : C (spiffs F) (ctl io_vars Z) :=
  c ← gets cfg;
  if (io_res l =? SPIFFS_OK) && (io_written l <? len) then
    let cur_objix_spix := u16 (SPIFFS_OBJ_IX_ENTRY_SPAN_IX c (io_data_spix l)) in
    let written := io_written l in
    r ←
      (if negb (cur_objix_spix =? io_prev_objix_spix l) then
         err ← (if 0 <? written
                then append_store_objix fd_i offset written (io_prev_objix_spix l) (io_cur_objix_pix l)
                else mret None);
         match err with
         | Some res => mret (inr res)
         | None => append_load_objix fd_i offset written cur_objix_spix (io_cur_objix_pix l)
         end
       else mret (inl (io_cur_objix_pix l)));
    match r with
    | inr res => mret (Return res)
    | inl cur_objix_pix =>
        let to_write := Z.min (len - written) (SPIFFS_DATA_PAGE_SIZE c - io_page_offs l) in
        w ← append_write_data fd_i cur_objix_spix (io_data_spix l) (io_page_offs l) (slice data written to_write);
        match w with
        | inr res => mret (Return res)
        | inl (res, data_page) =>
            if negb (res =? SPIFFS_OK) then
              mret (Exit (mkIo res written cur_objix_spix cur_objix_spix cur_objix_pix (io_data_spix l)
                            (io_page_offs l) (io_data_pix l)))
            else
              set_objix_entry cur_objix_spix (io_data_spix l) data_page;;
              (if cur_objix_spix =? 0 then set_work_size (u32 (offset + written)) else mret tt);;
              mret (Next (mkIo res (written + to_write) cur_objix_spix cur_objix_spix cur_objix_pix
                            (u16 (io_data_spix l + 1)) 0 data_page))
        end
    end
  else mret (Exit l).

(** "finalize updated object indices"; [Some] is a [res2] that is returned. *)
Definition append_finish (fd_i offset written cur_objix_spix cur_objix_pix : Z) : C (spiffs F) (option Z) :=
  let size := u32 (offset + written) in
  upd_fd fd_i (fun fd => set_fd_cursor_objix_spix cur_objix_spix (set_fd_cursor_objix_pix cur_objix_pix
                 (set_fd_offset size (set_fd_size size fd))));;
  fd ← fd_at fd_i;
  if negb (cur_objix_spix =? 0) then
    res ← spiffs_page_index_check fd cur_objix_pix cur_objix_spix;
    if res <? SPIFFS_OK then mret (Some res)
    else
      res ← store_work fd_i cur_objix_pix;
      if res <? SPIFFS_OK then mret (Some res)
      else
        spix ← gets (fun s => ph_span_ix (work_p_hdr s));
        spiffs_cb_object_event SPIFFS_EV_IX_UPD (fd_obj_id fd) spix cur_objix_pix 0;;
        fd ← fd_at fd_i;
        r ← spiffs_object_update_index_hdr (Some fd_i) (fd_obj_id fd) (fd_objix_hdr_pix fd) false None size;
        mret (if r.1 <? SPIFFS_OK then Some r.1 else None)
  else if offset =? 0 then
    set_work_size size;;
    res ← spiffs_page_index_check fd cur_objix_pix cur_objix_spix;
    if res <? SPIFFS_OK then mret (Some res)
    else
      res ← store_work fd_i cur_objix_pix;
      if res <? SPIFFS_OK then mret (Some res)
      else
        spix ← gets (fun s => ph_span_ix (work_p_hdr s));
        sz ← gets work_size;
        spiffs_cb_object_event SPIFFS_EV_IX_UPD (fd_obj_id fd) spix cur_objix_pix sz;;
        mret None
  else
    r ← spiffs_object_update_index_hdr (Some fd_i) (fd_obj_id fd) (fd_objix_hdr_pix fd) true None size;
    mret (if r.1 <? SPIFFS_OK then Some r.1 else None).

(** Enough iterations for the loops over the data pages of [len] bytes. *)
Definition io_fuel (c : spiffs_config) (len : Z) : nat := Z.to_nat (len / SPIFFS_DATA_PAGE_SIZE c) + 3.

Definition spiffs_object_append (fd_i offset : Z) (data : list Z) (len : Z) : C (spiffs F) Z :=
  c ← gets cfg;
  fd ← fd_at fd_i;
  let offset := if fd_size fd <? offset then fd_size fd else offset in
  res ← spiffs_gc_check (u32 (len + SPIFFS_DATA_PAGE_SIZE c));
  if res <? SPIFFS_OK then mret res
  else
    fd ← fd_at fd_i;
    r ← loop (io_fuel c len) (append_body fd_i offset data len)
          (mkIo res 0 0 IX_NONE (fd_objix_hdr_pix fd) (u16 (offset / SPIFFS_DATA_PAGE_SIZE c))
             (offset mod SPIFFS_DATA_PAGE_SIZE c) 0);
    match r with
    | inr res => mret res
    | inl l =>
        err ← append_finish fd_i offset (io_written l) (io_cur_objix_spix l) (io_cur_objix_pix l);
        mret (default (io_res l) err)
    end.

(** ** [spiffs_object_modify] *)

(** "store previous object index (header) page, unless first pass". *)
Definition modify_store_objix (fd_i prev_objix_spix cur_objix_pix : Z) : C (spiffs F) (option Z) :=
  fd ← fd_at fd_i;
  if prev_objix_spix =? 0 then
    r ← spiffs_object_update_index_hdr (Some fd_i) (fd_obj_id fd) (fd_objix_hdr_pix fd) true None 0;
    mret (if r.1 <? SPIFFS_OK then Some r.1 else None)
  else
    res ← spiffs_page_index_check fd cur_objix_pix prev_objix_spix;
    if res <? SPIFFS_OK then mret (Some res)
    else
      r ← spiffs_page_move (fd_file_nbr fd) true (fd_obj_id fd) cur_objix_pix 0;
      if r.1 <? SPIFFS_OK then mret (Some r.1)
      else
        spix ← gets (fun s => ph_span_ix (work_p_hdr s));
        spiffs_cb_object_event SPIFFS_EV_IX_UPD (fd_obj_id fd) spix r.2 0;;
        mret None.

(** "load next object index page". *)
Definition modify_load_objix (fd_i offset written cur_objix_spix cur_objix_pix : Z) : C (spiffs F) (Z + Z) :=
  r ← (if cur_objix_spix =? 0 then mret (SPIFFS_OK, cur_objix_pix) else find_objix fd_i cur_objix_spix);
  if r.1 <? SPIFFS_OK then mret (inr r.1)
  else
    err ← load_objix fd_i r.2 cur_objix_spix;
    match err with
    | Some res => mret (inr res)
    | None =>
        upd_fd fd_i (fun fd => set_fd_offset (u32 (offset + written))
                       (set_fd_cursor_objix_spix cur_objix_spix (set_fd_cursor_objix_pix r.2 fd)));;
        mret (inl r.2)
    end.

(** Writes [bytes] at [page_offs] of a copy of data page [orig_data_pix]: gives
    [res] and [data_pix]; [inr] returns. *)
Definition modify_write_data (fd_i orig_data_pix data_spix page_offs to_write : Z) (bytes : list Z)
    : C (spiffs F) ((Z * Z) + Z) :=
  c ← gets cfg;
  fd ← fd_at fd_i;
  let dps := SPIFFS_DATA_PAGE_SIZE c in
  let id := data_id (fd_obj_id fd) in
  let p_hdr := mkPh id data_spix 255 in
  if (page_offs =? 0) && (to_write =? dps) then
    r ← spiffs_page_allocate_data id p_hdr (Some bytes) page_offs true;
    let '(res, data_pix, _) := r in mret (inl (res, data_pix))
  else
    res ← spiffs_page_data_check fd orig_data_pix data_spix;
    if res <? SPIFFS_OK then mret (inr res)
    else
      r ← spiffs_page_allocate_data id p_hdr None 0 false;
      let '(res, data_pix, p_hdr) := r in
      if negb (res =? SPIFFS_OK) then mret (inl (res, data_pix))
      else
        let dst := SPIFFS_PAGE_TO_PADDR c data_pix + sizeof_page_header in
        let src := SPIFFS_PAGE_TO_PADDR c orig_data_pix + sizeof_page_header in
        res ← (if 0 <? page_offs then spiffs_phys_cpy (fd_file_nbr fd) (u32 dst) (u32 src) page_offs
               else mret SPIFFS_OK);
        if negb (res =? SPIFFS_OK) then mret (inl (res, data_pix))
        else
          res ← (if page_offs + to_write <? dps
                 then spiffs_phys_cpy (fd_file_nbr fd) (u32 (dst + page_offs + to_write))
                        (u32 (src + page_offs + to_write)) (dps - (page_offs + to_write))
                 else mret SPIFFS_OK);
          if negb (res =? SPIFFS_OK) then mret (inl (res, data_pix))
          else
            res ← spiffs_phys_wr (Z.lor SPIFFS_OP_T_OBJ_DA SPIFFS_OP_C_UPDT) (fd_file_nbr fd)
                    (u32 (dst + page_offs)) bytes;
            if negb (res =? SPIFFS_OK) then mret (inl (res, data_pix))
            else
              res ← write_flags (Z.lor SPIFFS_OP_T_OBJ_DA SPIFFS_OP_C_UPDT) (fd_file_nbr fd) data_pix
                      (clrb (ph_flags p_hdr) SPIFFS_PH_FLAG_FINAL);
              mret (inl (res, data_pix)).

Definition modify_body (fd_i offset : Z) (data : list Z) (len : Z) (l : io_vars) : C (spiffs F) (ctl io_vars Z) :=
  c ← gets cfg;
  if (io_res l =? SPIFFS_OK) && (io_written l <? len) then
    let cur_objix_spix := u16 (SPIFFS_OBJ_IX_ENTRY_SPAN_IX c (io_data_spix l)) in
    let written := io_written l in
    r ←
      (if negb (cur_objix_spix =? io_prev_objix_spix l) then
         err ← (if 0 <? written then modify_store_objix fd_i (io_prev_objix_spix l) (io_cur_objix_pix l)
                else mret None);
         match err with
         | Some res => mret (inr res)
         | None => modify_load_objix fd_i offset written cur_objix_spix (io_cur_objix_pix l)
         end
       else mret (inl (io_cur_objix_pix l)));
    match r with
    | inr res => mret (Return res)
    | inl cur_objix_pix =>
        let to_write := Z.min (len - written) (SPIFFS_DATA_PAGE_SIZE c - io_page_offs l) in
        let stop res := mret (Exit (mkIo res written cur_objix_spix cur_objix_spix cur_objix_pix
                                      (io_data_spix l) (io_page_offs l) (io_data_pix l))) in
        orig_data_pix ← get_objix_entry cur_objix_spix (io_data_spix l);
        w ← modify_write_data fd_i orig_data_pix (io_data_spix l) (io_page_offs l) to_write (slice data written to_write);
        match w with
        | inr res => mret (Return res)
        | inl (res, data_pix) =>
            if negb (res =? SPIFFS_OK) && negb ((io_page_offs l =? 0) && (to_write =? SPIFFS_DATA_PAGE_SIZE c))
            then stop res
            else
              let data_pix := if res <? SPIFFS_OK then io_data_pix l else data_pix in
              res ← spiffs_page_delete orig_data_pix;
              if negb (res =? SPIFFS_OK) then stop res
              else
                set_objix_entry cur_objix_spix (io_data_spix l) data_pix;;
                mret (Next (mkIo res (written + to_write) cur_objix_spix cur_objix_spix cur_objix_pix
                              (u16 (io_data_spix l + 1)) 0 data_pix))
        end
    end
  else mret (Exit l).

(** [uninit]: the value of the locals [data_pix] and [new_objix_pix] before they
    are assigned; the code uses them after a failed [spiffs_page_allocate_data]
    of a full page and a failed [spiffs_page_move]. *)
Definition spiffs_object_modify (uninit fd_i offset : Z) (data : list Z) (len : Z) : C (spiffs F) Z :=
  c ← gets cfg;
  res ← spiffs_gc_check (u32 (len + SPIFFS_DATA_PAGE_SIZE c));
  if res <? SPIFFS_OK then mret res
  else
    fd ← fd_at fd_i;
    r ← loop (io_fuel c len) (modify_body fd_i offset data len)
          (mkIo res 0 0 IX_NONE (fd_objix_hdr_pix fd) (u16 (offset / SPIFFS_DATA_PAGE_SIZE c))
             (offset mod SPIFFS_DATA_PAGE_SIZE c) uninit);
    match r with
    | inr res => mret res
    | inl l =>
        let spix := io_cur_objix_spix l in
        let pix := io_cur_objix_pix l in
        upd_fd fd_i (fun fd => set_fd_cursor_objix_spix spix (set_fd_cursor_objix_pix pix
                       (set_fd_offset (u32 (offset + io_written l)) fd)));;
        fd ← fd_at fd_i;
        if negb (spix =? 0) then
          res2 ← spiffs_page_index_check fd pix spix;
          if res2 <? SPIFFS_OK then mret res2
          else
            r ← spiffs_page_move (fd_file_nbr fd) true (fd_obj_id fd) pix uninit;
            upd_fd fd_i (fun fd => set_fd_cursor_objix_spix spix (set_fd_cursor_objix_pix r.2 fd));;
            if r.1 <? SPIFFS_OK then mret r.1
            else
              wspix ← gets (fun s => ph_span_ix (work_p_hdr s));
              spiffs_cb_object_event SPIFFS_EV_IX_UPD (fd_obj_id fd) wspix r.2 0;;
              mret (io_res l)
        else
          r ← spiffs_object_update_index_hdr (Some fd_i) (fd_obj_id fd) (fd_objix_hdr_pix fd) true None 0;
          if r.1 <? SPIFFS_OK then mret r.1 else mret (io_res l)
    end.

(** ** [spiffs_object_truncate] *)

(** Local variables of the truncate loop. *)
Record tr_vars : Type := mkTr {
  tr_res : Z;
  tr_cur_size : Z;
  tr_data_spix : Z;
  tr_cur_objix_spix : Z;
  tr_prev_objix_spix : Z;
  tr_objix_pix : Z
}.

(** "remove previous object index page": the page in [objix_pix] is deleted
    before the next one is loaded. *)
Definition truncate_drop_objix (fd_i objix_pix prev_objix_spix cur_size : Z) : C (spiffs F) (option Z) :=
  fd ← fd_at fd_i;
  res ← spiffs_page_index_check fd objix_pix prev_objix_spix;
  if res <? SPIFFS_OK then mret (Some res)
  else
    res ← spiffs_page_delete objix_pix;
    if res <? SPIFFS_OK then mret (Some res)
    else
      spix ← gets (fun s => ph_span_ix (work_p_hdr s));
      spiffs_cb_object_event SPIFFS_EV_IX_DEL (fd_obj_id fd) spix objix_pix 0;;
      if 0 <? prev_objix_spix then
        fd ← fd_at fd_i;
        r ← spiffs_object_update_index_hdr (Some fd_i) (fd_obj_id fd) (fd_objix_hdr_pix fd) false None cur_size;
        if r.1 <? SPIFFS_OK then mret (Some r.1)
        else upd_fd fd_i (set_fd_size cur_size);; mret None
      else mret None.

(** "put object index for current data span index in work buffer". *)
Definition truncate_load_objix (fd_i cur_objix_spix cur_size : Z) : C (spiffs F) (Z + Z) :=
  fd ← fd_at fd_i;
  r ← (if cur_objix_spix =? 0 then mret (SPIFFS_OK, fd_objix_hdr_pix fd)
       else spiffs_obj_lu_find_id_and_span (ix_id (fd_obj_id fd)) cur_objix_spix 0);
  if r.1 <? SPIFFS_OK then mret (inr r.1)
  else
    err ← load_objix fd_i r.2 cur_objix_spix;
    match err with
    | Some res => mret (inr res)
    | None =>
        upd_fd fd_i (fun fd => set_fd_offset cur_size (set_fd_cursor_objix_spix cur_objix_spix
                       (set_fd_cursor_objix_pix r.2 fd)));;
        mret (inl r.2)
    end.

(** "delete full data page": [inl] is the new [cur_size], [inr] an error that
    leaves the loop. *)
Definition truncate_full_page (fd_i data_pix data_spix cur_size : Z) : C (spiffs F) (Z + Z) :=
  c ← gets cfg;
  fd ← fd_at fd_i;
  res ← spiffs_page_data_check fd data_pix data_spix;
  if negb (res =? SPIFFS_ERR_DELETED) && negb (res =? SPIFFS_OK) && negb (res =? SPIFFS_ERR_INDEX_REF_FREE)
  then mret (inr res)
  else
    res ← (if res =? SPIFFS_OK then spiffs_page_delete data_pix else mret SPIFFS_OK);
    if negb (res =? SPIFFS_OK) then mret (inr res)
    else
      let dps := SPIFFS_DATA_PAGE_SIZE c in
      let cur_size := if cur_size mod dps =? 0 then u32 (cur_size - dps) else cur_size - cur_size mod dps in
      upd_fd fd_i (fun fd => set_fd_offset cur_size (set_fd_size cur_size fd));;
      mret (inl cur_size).

(** "delete last page, partially": gives [res] of the step that ended it. *)
Definition truncate_partial_page (fd_i data_pix data_spix objix_spix new_size : Z) : C (spiffs F) Z :=
  c ← gets cfg;
  fd ← fd_at fd_i;
  let dps := SPIFFS_DATA_PAGE_SIZE c in
  let bytes_to_remove := dps - new_size mod dps in
  res ← spiffs_page_data_check fd data_pix data_spix;
  if negb (res =? SPIFFS_OK) then mret res
  else
    let id := data_id (fd_obj_id fd) in
    r ← spiffs_page_allocate_data id (mkPh id data_spix 255) None 0 false;
    let '(res, new_data_pix, p_hdr) := r in
    if negb (res =? SPIFFS_OK) then mret res
    else
      res ← spiffs_phys_cpy 0 (u32 (SPIFFS_PAGE_TO_PADDR c new_data_pix + sizeof_page_header))
              (u32 (SPIFFS_PAGE_TO_PADDR c data_pix + sizeof_page_header)) (dps - bytes_to_remove);
      if negb (res =? SPIFFS_OK) then mret res
      else
        res ← spiffs_page_delete data_pix;
        if negb (res =? SPIFFS_OK) then mret res
        else
          res ← write_flags (Z.lor SPIFFS_OP_T_OBJ_DA SPIFFS_OP_C_UPDT) (fd_file_nbr fd) new_data_pix
                  (clrb (ph_flags p_hdr) SPIFFS_PH_FLAG_FINAL);
          if negb (res =? SPIFFS_OK) then mret res
          else
            set_objix_entry objix_spix data_spix new_data_pix;;
            upd_fd fd_i (fun fd => set_fd_offset new_size (set_fd_size new_size fd));;
            mret res.

Definition truncate_body (fd_i new_size : Z) (remove : bool) (l : tr_vars) : C (spiffs F) (ctl tr_vars Z) :=
  c ← gets cfg;
  let cur_size := tr_cur_size l in
  let data_spix := tr_data_spix l in
  if new_size <? cur_size then
    let spix := u16 (SPIFFS_OBJ_IX_ENTRY_SPAN_IX c data_spix) in
    r ←
      (if negb (tr_prev_objix_spix l =? spix) then
         err ← (if negb (tr_prev_objix_spix l =? IX_NONE)
                then truncate_drop_objix fd_i (tr_objix_pix l) (tr_prev_objix_spix l) cur_size else mret None);
         match err with
         | Some res => mret (inr res)
         | None => truncate_load_objix fd_i spix cur_size
         end
       else mret (inl (tr_objix_pix l)));
    match r with
    | inr res => mret (Return res)
    | inl objix_pix =>
        data_pix ← get_objix_entry spix data_spix;
        set_objix_entry spix data_spix SPIFFS_OBJ_ID_FREE;;
        if (new_size =? 0) || remove || (SPIFFS_DATA_PAGE_SIZE c <=? cur_size - new_size) then
          r ← truncate_full_page fd_i data_pix data_spix cur_size;
          match r with
          | inr res => mret (Exit (mkTr res cur_size data_spix spix spix objix_pix))
          | inl cur_size => mret (Next (mkTr SPIFFS_OK cur_size (u16 (data_spix - 1)) spix spix objix_pix))
          end
        else
          res ← truncate_partial_page fd_i data_pix data_spix spix new_size;
          mret (Exit (mkTr res (if res =? SPIFFS_OK then new_size else cur_size) data_spix spix spix objix_pix))
    end
  else mret (Exit l).

(** "update object indices" and the final size. *)
Definition truncate_finish (fd_i : Z) (remove : bool) (cur_size cur_objix_spix objix_pix : Z) : C (spiffs F) Z :=
  c ← gets cfg;
  fd ← fd_at fd_i;
  res ←
    (if cur_objix_spix =? 0 then
       if cur_size =? 0 then
         if remove then
           res ← spiffs_page_index_check fd objix_pix 0;
           if res <? SPIFFS_OK then mret res
           else
             res ← spiffs_page_delete objix_pix;
             if res <? SPIFFS_OK then mret res
             else spiffs_cb_object_event SPIFFS_EV_IX_DEL (fd_obj_id fd) 0 objix_pix 0;; mret res
         else
           modify (fun s => set_work (splice (work s) sizeof_object_ix_header
             (replicate (Z.to_nat (log_page_size c - sizeof_object_ix_header)) 255)) s);;
           r ← spiffs_object_update_index_hdr (Some fd_i) (fd_obj_id fd) objix_pix true None SPIFFS_UNDEFINED_LEN;
           mret r.1
       else
         r ← spiffs_object_update_index_hdr (Some fd_i) (fd_obj_id fd) objix_pix true None cur_size;
         mret r.1
     else
       res ← spiffs_page_index_check fd objix_pix cur_objix_spix;
       if res <? SPIFFS_OK then mret res
       else
         r ← spiffs_page_move (fd_file_nbr fd) true (fd_obj_id fd) objix_pix 0;
         if r.1 <? SPIFFS_OK then mret r.1
         else
           wspix ← gets (fun s => ph_span_ix (work_p_hdr s));
           spiffs_cb_object_event SPIFFS_EV_IX_UPD (fd_obj_id fd) wspix r.2 0;;
           upd_fd fd_i (fun fd => set_fd_offset cur_size (set_fd_cursor_objix_spix cur_objix_spix
                          (set_fd_cursor_objix_pix r.2 fd)));;
           fd ← fd_at fd_i;
           r ← spiffs_object_update_index_hdr (Some fd_i) (fd_obj_id fd) (fd_objix_hdr_pix fd) false None cur_size;
           mret r.1);
  if res <? SPIFFS_OK then mret res
  else upd_fd fd_i (set_fd_size cur_size);; mret res.

Definition spiffs_object_truncate (fd_i new_size : Z) (remove : bool) : C (spiffs F) Z :=
  c ← gets cfg;
  let dps := SPIFFS_DATA_PAGE_SIZE c in
  res ← spiffs_gc_check (if remove then 0 else u32 (dps * 2));
  if res <? SPIFFS_OK then mret res
  else
    fd ← fd_at fd_i;
    let data_spix := u16 ((if 0 <? fd_size fd then fd_size fd - 1 else 0) / dps) in
    let cur_size := if fd_size fd =? SPIFFS_UNDEFINED_LEN then 0 else fd_size fd in
    res ← (if remove && (new_size =? 0) then
             write_flags (Z.lor SPIFFS_OP_T_OBJ_IX SPIFFS_OP_C_UPDT) (fd_file_nbr fd) (fd_objix_hdr_pix fd)
               (clrb 255 (Z.lor SPIFFS_PH_FLAG_USED (Z.lor SPIFFS_PH_FLAG_INDEX
                  (Z.lor SPIFFS_PH_FLAG_FINAL SPIFFS_PH_FLAG_IXDELE))))
           else mret res);
    if res <? SPIFFS_OK then mret res
    else
      r ← loop (io_fuel c cur_size) (truncate_body fd_i new_size remove)
            (mkTr res cur_size data_spix 0 IX_NONE (fd_objix_hdr_pix fd));
      match r with
      | inr res => mret res
      | inl l => truncate_finish fd_i remove (tr_cur_size l) (tr_cur_objix_spix l) (tr_objix_pix l)
      end.

(** ** [spiffs_object_read] *)

(** Loads the object index page for the current data page unless it is the one
    in [fs->work]; [Some] is the error returned. *)
Definition read_load_objix (fd_i cur_offset prev_objix_spix cur_objix_spix : Z) : C (spiffs F) (option Z) :=
  if negb (prev_objix_spix =? cur_objix_spix) then
    fd ← fd_at fd_i;
    r ← (if cur_objix_spix =? 0 then mret (SPIFFS_OK, fd_objix_hdr_pix fd)
         else spiffs_obj_lu_find_id_and_span (ix_id (fd_obj_id fd)) cur_objix_spix 0);
    if r.1 <? SPIFFS_OK then mret (Some r.1)
    else
      err ← load_objix fd_i r.2 cur_objix_spix;
      match err with
      | Some res => mret (Some res)
      | None =>
          upd_fd fd_i (fun fd => set_fd_cursor_objix_spix cur_objix_spix
                         (set_fd_cursor_objix_pix r.2 (set_fd_offset cur_offset fd)));;
          mret None
      end
  else mret None.

(** Loop variables: [res], [cur_offset], [prev_objix_spix], [data_spix] and the
    bytes stored to [dst] so far. *)
Definition read_body (fd_i offset len : Z) (l : Z * Z * Z * Z * list Z)
    : C (spiffs F) (ctl (Z * Z * Z * Z * list Z) (Z * list Z)) :=
  c ← gets cfg;
  let '(res, cur_offset, prev_objix_spix, data_spix, dst) := l in
  let dps := SPIFFS_DATA_PAGE_SIZE c in
  if cur_offset <? u32 (offset + len) then
    let cur_objix_spix := u16 (SPIFFS_OBJ_IX_ENTRY_SPAN_IX c data_spix) in
    err ← read_load_objix fd_i cur_offset prev_objix_spix cur_objix_spix;
    match err with
    | Some res => mret (Return (res, dst))
    | None =>
        data_pix ← get_objix_entry cur_objix_spix data_spix;
        fd ← fd_at fd_i;
        let len_to_read := Z.min (Z.min (u32 (offset + len - cur_offset)) (dps - cur_offset mod dps)) (fd_size fd) in
        if len_to_read <=? 0 then mret (Exit (SPIFFS_ERR_END_OF_OBJECT, cur_offset, cur_objix_spix, data_spix, dst))
        else
          res ← spiffs_page_data_check fd data_pix data_spix;
          if res <? SPIFFS_OK then mret (Return (res, dst))
          else
            r ← spiffs_phys_rd (Z.lor SPIFFS_OP_T_OBJ_DA SPIFFS_OP_C_READ) (fd_file_nbr fd)
                  (u32 (SPIFFS_PAGE_TO_PADDR c data_pix + sizeof_page_header + cur_offset mod dps)) len_to_read;
            if r.1 <? SPIFFS_OK then mret (Return (r.1, dst ++ r.2))
            else
              upd_fd fd_i (set_fd_offset (u32 (cur_offset + len_to_read)));;
              mret (Next (r.1, u32 (cur_offset + len_to_read), cur_objix_spix, u16 (data_spix + 1), dst ++ r.2))
    end
  else mret (Exit l).

(** Return code and the bytes stored to [dst]. *)
Definition spiffs_object_read (fd_i offset len : Z) : C (spiffs F) (Z * list Z) :=
  c ← gets cfg;
  r ← loop (Z.to_nat len + 1) (read_body fd_i offset len)
        (SPIFFS_OK, offset, IX_NONE, u16 (offset / SPIFFS_DATA_PAGE_SIZE c), []);
  match r with
  | inr r => mret r
  | inl (res, _, _, _, dst) => mret (res, dst)
  end.

End defs.
