(* ===== verification/SpiffsApi.v ===== *)
(** The public interface of SPIFFS ([spiffs_hydrogen.c]): formatting, mounting,
    opening, reading, writing (with the write cache), seeking, removing,
    renaming and listing files.  Functions return [-1] on failure and leave the
    reason in [err_code]. *)
From S2P Require Import Prelude CSem SpiffsTypes SpiffsCache SpiffsLookup SpiffsPage SpiffsIndex SpiffsGc SpiffsObject SpiffsContent.
From stdpp Require Import base list numbers option.

Open Scope Z_scope.

(** 32-bit target: sizes of pointers and of [spiffs_fd]. *)
Definition ptr_size : Z := 4.
Definition sizeof_spiffs_fd : Z := 36.

(** [spiffs_stat] and [struct spiffs_dirent]. *)
Record spiffs_stat : Type := mkStat {
  st_obj_id : Z;
  st_size : Z;
  st_type : Z;
  st_name : list Z
}.

Record spiffs_dirent : Type := mkDirent {
  de_obj_id : Z;
  de_name : list Z;
  de_type : Z;
  de_size : Z;
  de_pix : Z
}.

(** [spiffs_DIR]. *)
Record spiffs_DIR : Type := mkDir {
  dir_block : Z;
  dir_entry : Z
}.

Definition zero_fd : spiffs_fd := mkFd 0 0 0 0 0 0 0 0 0 None.

Section defs.
  Context {F : Type} {hal : SpiffsHal F}.

(** [SPIFFS_API_CHECK_RES]: the failing exit. *)
Definition api_fail (res : Z) : C (spiffs F) Z := modify (set_err_code res);; mret (-1).

(** [SPIFFS_API_CHECK_CFG] and [SPIFFS_API_CHECK_MOUNT] in front of [k]. *)
Definition api_checked (k : C (spiffs F) Z) : C (spiffs F) Z :=
  m ← gets config_magic;
  if negb (m =? SPIFFS_CONFIG_MAGIC) then api_fail SPIFFS_ERR_NOT_CONFIGURED
  else
    mnt ← gets mounted;
    if mnt =? 0 then api_fail SPIFFS_ERR_NOT_MOUNTED else k.

Definition SPIFFS_buffer_bytes_for_filedescs (num_descs : Z) : Z := u32 (num_descs * sizeof_spiffs_fd).

Definition SPIFFS_buffer_bytes_for_cache (num_pages : Z) : C (spiffs F) Z :=
  c ← gets cfg;
  mret (u32 (sizeof_spiffs_cache + num_pages * (sizeof_spiffs_cache_page + log_page_size c))).

Definition SPIFFS_mounted : C (spiffs F) bool := m ← gets mounted; mret (negb (m =? 0)).
Definition SPIFFS_errno : C (spiffs F) Z := gets err_code.
Definition SPIFFS_clearerr : C (spiffs F) unit := modify (set_err_code SPIFFS_OK).

(** ** Formatting and mounting *)

Definition SPIFFS_format : C (spiffs F) Z :=
  m ← gets config_magic;
  if negb (m =? SPIFFS_CONFIG_MAGIC) then api_fail SPIFFS_ERR_NOT_CONFIGURED
  else
    mnt ← gets mounted;
    if negb (mnt =? 0) then api_fail SPIFFS_ERR_MOUNTED
    else
      bc ← gets block_count;
      r ← loop (Z.to_nat bc + 1) (fun bix =>
            if bix <? bc then
              modify (set_max_erase_count 0);;
              res ← spiffs_erase_block bix;
              let res := if negb (res =? SPIFFS_OK) then SPIFFS_ERR_ERASE_FAIL else res in
              if res <? SPIFFS_OK then r ← api_fail res; mret (Return r)
              else mret (Next (u16 (bix + 1)))
            else mret (Exit bix)) 0;
      match r with inl _ => mret 0 | inr r => mret r end.

(** The buffers are given by their contents ([work]) or by their address and
    size ([fd_space], [cache], where address 0 is a null pointer). *)
Definition SPIFFS_mount (config : spiffs_config) (workbuf : list Z)
    (fd_space fd_space_size cache_p cache_sz : Z) : C (spiffs F) Z :=
  let psz := log_page_size config in
  let fd_lsb := u8 fd_space mod ptr_size in
  let fd_space_size := if fd_lsb =? 0 then fd_space_size else u32 (fd_space_size - (ptr_size - fd_lsb)) in
  let n_fds := fd_space_size / sizeof_spiffs_fd in
  let c_lsb := u8 cache_p mod ptr_size in
  let cache_sz := if c_lsb =? 0 then cache_sz else u32 (cache_sz - (ptr_size - c_lsb)) in
  let cache_sz := cache_sz - cache_sz mod ptr_size in
  let cache_sz := if u32 (psz * 32) <? cache_sz then u32 (psz * 32) else cache_sz in
  modify (fun s => mkFs config (phys_size config / log_block_size config) 0 0 0 0
    (slice workbuf psz psz) (slice workbuf 0 psz) (replicate (Z.to_nat n_fds) zero_fd) n_fds
    0 0 0 0 0 0 None cache_sz 0 0 (flash s));;
  spiffs_cache_init (negb (cache_p =? 0));;
  if negb (SPIFFS_CHECK_MAGIC_POSSIBLE config) then api_fail SPIFFS_ERR_MAGIC_NOT_POSSIBLE
  else
    modify (set_config_magic SPIFFS_CONFIG_MAGIC);;
    res ← spiffs_obj_lu_scan;
    if res <? SPIFFS_OK then api_fail res
    else modify (set_mounted 1);; mret 0.

(** ** Opening *)

Definition SPIFFS_creat (junk path : list Z) : C (spiffs F) Z :=
  api_checked (
    r ← spiffs_obj_lu_find_free_obj_id (Some path);
    if r.1 <? SPIFFS_OK then api_fail r.1
    else
      r ← spiffs_object_create junk r.2 path SPIFFS_TYPE_FILE;
      if r.1 <? SPIFFS_OK then api_fail r.1 else mret 0).

(** [spiffs_fd_return(fs, fd->file_nbr)] and the failing exit. *)
Definition close_fail (fd_i res : Z) : C (spiffs F) Z :=
  fd ← fd_at fd_i;
  _ ← spiffs_fd_return (fd_file_nbr fd);
  api_fail res.

(** The end of [SPIFFS_open] and [SPIFFS_open_by_dirent]. *)
Definition open_page (fd_i pix flags : Z) : C (spiffs F) Z :=
  res ← spiffs_object_open_by_page pix fd_i flags;
  if res <? SPIFFS_OK then close_fail fd_i res
  else
    res ← (if hasb flags SPIFFS_TRUNC then spiffs_object_truncate fd_i 0 false else mret SPIFFS_OK);
    if res <? SPIFFS_OK then close_fail fd_i res
    else
      upd_fd fd_i (set_fd_fdoffset 0);;
      fd ← fd_at fd_i;
      mret (fd_file_nbr fd).

Definition SPIFFS_open (junk path : list Z) (flags : Z) : C (spiffs F) Z :=
  api_checked (
    r ← spiffs_fd_find_new;
    let '(res, fd_i) := r in
    if res <? SPIFFS_OK then api_fail res
    else
      r ← spiffs_object_find_object_index_header_by_name path;
      let '(res, pix) := r in
      if negb (hasb flags SPIFFS_CREAT) && (res <? SPIFFS_OK) then close_fail fd_i res
      else if (res =? SPIFFS_OK) && (Z.land flags (Z.lor SPIFFS_CREAT SPIFFS_EXCL) =? Z.lor SPIFFS_CREAT SPIFFS_EXCL)
      then close_fail fd_i SPIFFS_ERR_FILE_EXISTS
      else if hasb flags SPIFFS_CREAT && (res =? SPIFFS_ERR_NOT_FOUND) then
        r ← spiffs_obj_lu_find_free_obj_id None;
        if r.1 <? SPIFFS_OK then close_fail fd_i r.1
        else
          r ← spiffs_object_create junk r.2 path SPIFFS_TYPE_FILE;
          if r.1 <? SPIFFS_OK then close_fail fd_i r.1
          else open_page fd_i r.2 (Z.ldiff flags SPIFFS_TRUNC)
      else if res <? SPIFFS_OK then close_fail fd_i res
      else open_page fd_i pix flags).

Definition SPIFFS_open_by_dirent (e : spiffs_dirent) (flags : Z) : C (spiffs F) Z :=
  api_checked (
    r ← spiffs_fd_find_new;
    if r.1 <? SPIFFS_OK then api_fail r.1 else open_page r.2 (de_pix e) flags).

(** ** Writing

    [uninit]: see [spiffs_object_modify]. *)

Definition spiffs_hydro_write (uninit fd_i : Z) (buf : list Z) (offset len : Z) : C (spiffs F) Z :=
  fd ← fd_at fd_i;
  r ← (if negb (fd_size fd =? SPIFFS_UNDEFINED_LEN) && (offset <? fd_size fd) then
         let m_len := Z.min (s32 (fd_size fd - offset)) len in
         res ← spiffs_object_modify uninit fd_i offset buf m_len;
         mret (res, m_len)
       else mret (SPIFFS_OK, 0));
  let '(res, m_len) := r in
  if res <? SPIFFS_OK then mret res
  else
    let remaining := len - m_len in
    if 0 <? remaining then
      res ← spiffs_object_append fd_i (u32 (offset + m_len)) (drop (Z.to_nat m_len) buf) remaining;
      if res <? SPIFFS_OK then mret res else mret len
    else mret len.

(** The write cache page [fd->cache_page] points to. *)
Definition fd_cpage (i : Z) : C (spiffs F) spiffs_cache_page :=
  ca ← spiffs_get_cache;
  spiffs_get_cache_page_hdr ca i.

(** Writes back cache page [i] of [fd] and releases the page [fd] points to. *)
Definition dump_cpage (uninit fd_i i : Z) : C (spiffs F) Z :=
  cp ← fd_cpage i;
  res ← spiffs_hydro_write uninit fd_i (cp_mem cp) (cp_offset cp) (cp_size cp);
  fd ← fd_at fd_i;
  spiffs_cache_fd_release (fd_cache_page fd);;
  mret res.

Definition spiffs_fflush_cache (uninit fh : Z) : C (spiffs F) Z :=
  r ← spiffs_fd_get fh;
  let '(res, fd_i) := r in
  if res <? SPIFFS_OK then api_fail res
  else
    fd ← fd_at fd_i;
    if negb (hasb (fd_flags fd) SPIFFS_DIRECT) then
      (if bool_decide (fd_cache_page fd = None) then
         o ← spiffs_cache_page_get_by_fd fd;
         upd_fd fd_i (set_fd_cache_page o)
       else mret tt);;
      fd ← fd_at fd_i;
      match fd_cache_page fd with
      | Some i =>
          cp ← fd_cpage i;
          res ← spiffs_hydro_write uninit fd_i (cp_mem cp) (cp_offset cp) (cp_size cp);
          (if res <? SPIFFS_OK then modify (set_err_code res) else mret tt);;
          fd ← fd_at fd_i;
          spiffs_cache_fd_release (fd_cache_page fd);;
          mret res
      | None => mret res
      end
    else mret res.

(** The uncached exits of [SPIFFS_write]: write (the length becomes unsigned), then
    advance the offset. *)
Definition write_through (uninit fd_i : Z) (buf : list Z) (offset len : Z) : C (spiffs F) Z :=
  res ← spiffs_hydro_write uninit fd_i buf offset (u32 len);
  if res <? SPIFFS_OK then api_fail res
  else upd_fd fd_i (fun fd => set_fd_fdoffset (u32 (fd_fdoffset fd + len)) fd);; mret res.

(** "small write, try to cache it". *)
Definition small_write (uninit fd_i : Z) (buf : list Z) (offset len : Z) : C (spiffs F) Z :=
  c ← gets cfg;
  fd ← fd_at fd_i;
  r ←
    (match fd_cache_page fd with
     | Some i =>
         cp ← fd_cpage i;
         if (offset <? cp_offset cp) || (u32 (cp_offset cp + cp_size cp) <? offset)
            || (u32 (cp_offset cp + log_page_size c) <? u32 (offset + len)) then
           res ← dump_cpage uninit fd_i i;
           mret (if res <? SPIFFS_OK then Some res else None, true)
         else mret (None, false)
     | None => mret (None, true)
     end);
  match r with
  | (Some res, _) => api_fail res
  | (None, alloc_cpage) =>
      (if alloc_cpage : bool then
         o ← spiffs_cache_page_allocate_by_fd fd_i;
         upd_fd fd_i (set_fd_cache_page o);;
         match o with
         | Some i => upd_cpage i (fun cp => set_cp_size 0 (set_cp_offset offset cp))
         | None => mret tt
         end
       else mret tt);;
      fd ← fd_at fd_i;
      match fd_cache_page fd with
      | Some i =>
          cp ← fd_cpage i;
          let offset_in_cpage := u32 (offset - cp_offset cp) in
          if (0 <=? len) && (offset_in_cpage + len <=? zlen (cp_mem cp)) then
            upd_cpage i (fun cp => set_cp_size (u16 (Z.max (cp_size cp) (u32 (offset_in_cpage + len))))
                                     (set_cp_mem (splice (cp_mem cp) offset_in_cpage (slice buf 0 len)) cp));;
            upd_fd fd_i (fun fd => set_fd_fdoffset (u32 (fd_fdoffset fd + len)) fd);;
            mret len
          else undefined
      | None => write_through uninit fd_i buf offset len
      end
  end.

Definition SPIFFS_write (uninit fh : Z) (buf : list Z) (len : Z) : C (spiffs F) Z :=
  api_checked (
    c ← gets cfg;
    r ← spiffs_fd_get fh;
    let '(res, fd_i) := r in
    if res <? SPIFFS_OK then api_fail res
    else
      fd ← fd_at fd_i;
      if negb (hasb (fd_flags fd) SPIFFS_WRONLY) then api_fail SPIFFS_ERR_NOT_WRITABLE
      else
        (if bool_decide (fd_cache_page fd = None) then
           o ← spiffs_cache_page_get_by_fd fd;
           upd_fd fd_i (set_fd_cache_page o)
         else mret tt);;
        fd ← fd_at fd_i;
        offset ←
          (if hasb (fd_flags fd) SPIFFS_APPEND then
             let offset := if fd_size fd =? SPIFFS_UNDEFINED_LEN then 0 else fd_size fd in
             match fd_cache_page fd with
             | Some i => cp ← fd_cpage i; mret (Z.max offset (u32 (cp_offset cp + cp_size cp)))
             | None => mret offset
             end
           else mret (fd_fdoffset fd));
        if negb (hasb (fd_flags fd) SPIFFS_DIRECT) then
          if len <? s32 (log_page_size c) then small_write uninit fd_i buf offset len
          else
            match fd_cache_page fd with
            | Some i =>
                res ← dump_cpage uninit fd_i i;
                if res <? SPIFFS_OK then api_fail res
                else
                  res ← spiffs_hydro_write uninit fd_i buf offset (u32 len);
                  if res <? SPIFFS_OK then api_fail res
                  else write_through uninit fd_i buf offset len
            | None => write_through uninit fd_i buf offset len
            end
        else write_through uninit fd_i buf offset len).

(** ** Reading and seeking *)

(** [SPIFFS_API_CHECK_*] for functions that also store to a buffer. *)
Definition with_buf (m : C (spiffs F) Z) : C (spiffs F) (Z * list Z) := r ← m; mret (r, []).

Definition SPIFFS_read (uninit fh len : Z) : C (spiffs F) (Z * list Z) :=
  m ← gets config_magic;
  if negb (m =? SPIFFS_CONFIG_MAGIC) then with_buf (api_fail SPIFFS_ERR_NOT_CONFIGURED)
  else
    mnt ← gets mounted;
    if mnt =? 0 then with_buf (api_fail SPIFFS_ERR_NOT_MOUNTED)
    else
      r ← spiffs_fd_get fh;
      let '(res, fd_i) := r in
      if res <? SPIFFS_OK then with_buf (api_fail res)
      else
        fd ← fd_at fd_i;
        if negb (hasb (fd_flags fd) SPIFFS_RDONLY) then with_buf (api_fail SPIFFS_ERR_NOT_READABLE)
        else if (fd_size fd =? SPIFFS_UNDEFINED_LEN) && (0 <? len) then with_buf (api_fail SPIFFS_ERR_END_OF_OBJECT)
        else
          _ ← spiffs_fflush_cache uninit fh;
          fd ← fd_at fd_i;
          if fd_size fd <=? u32 (fd_fdoffset fd + len) then
            let avail := s32 (fd_size fd - fd_fdoffset fd) in
            if avail <=? 0 then with_buf (api_fail SPIFFS_ERR_END_OF_OBJECT)
            else
              r ← spiffs_object_read fd_i (fd_fdoffset fd) avail;
              if r.1 =? SPIFFS_ERR_END_OF_OBJECT then
                upd_fd fd_i (fun fd => set_fd_fdoffset (u32 (fd_fdoffset fd + avail)) fd);;
                mret (avail, r.2)
              else if r.1 <? SPIFFS_OK then e ← api_fail r.1; mret (e, r.2)
              else
                upd_fd fd_i (fun fd => set_fd_fdoffset (u32 (fd_fdoffset fd + avail)) fd);;
                mret (avail, r.2)
          else
            r ← spiffs_object_read fd_i (fd_fdoffset fd) len;
            if r.1 <? SPIFFS_OK then e ← api_fail r.1; mret (e, r.2)
            else
              upd_fd fd_i (fun fd => set_fd_fdoffset (u32 (fd_fdoffset fd + len)) fd);;
              mret (len, r.2).

Definition SPIFFS_lseek (uninit fh offs whence : Z) : C (spiffs F) Z :=
  api_checked (
    c ← gets cfg;
    r ← spiffs_fd_get fh;
    let '(res, fd_i) := r in
    if res <? SPIFFS_OK then api_fail res
    else
      _ ← spiffs_fflush_cache uninit fh;
      fd ← fd_at fd_i;
      let offs :=
        if whence =? SPIFFS_SEEK_CUR then s32 (fd_fdoffset fd + offs)
        else if whence =? SPIFFS_SEEK_END then
          s32 ((if fd_size fd =? SPIFFS_UNDEFINED_LEN then 0 else fd_size fd) + offs)
        else offs in
      if s32 (fd_size fd) <? offs then api_fail SPIFFS_ERR_END_OF_OBJECT
      else
        let data_spix := u16 (u32 offs / SPIFFS_DATA_PAGE_SIZE c) in
        let objix_spix := u16 (SPIFFS_OBJ_IX_ENTRY_SPAN_IX c data_spix) in
        res ←
          (if negb (fd_cursor_objix_spix fd =? objix_spix) then
             r ← spiffs_obj_lu_find_id_and_span (ix_id (fd_obj_id fd)) objix_spix 0;
             if r.1 <? SPIFFS_OK then mret r.1
             else
               upd_fd fd_i (fun fd => set_fd_cursor_objix_pix r.2 (set_fd_cursor_objix_spix objix_spix fd));;
               mret r.1
           else mret res);
        if res <? SPIFFS_OK then api_fail res
        else upd_fd fd_i (set_fd_fdoffset (u32 offs));; mret offs).

(** ** Removing, flushing, closing, renaming *)

(** [if (res != SPIFFS_OK) spiffs_fd_return(fs, fd->file_nbr)]. *)
Definition return_fd_unless_ok (fd_i res : Z) : C (spiffs F) unit :=
  if negb (res =? SPIFFS_OK) then
    fd ← fd_at fd_i;
    _ ← spiffs_fd_return (fd_file_nbr fd);
    mret tt
  else mret tt.

Definition SPIFFS_remove (path : list Z) : C (spiffs F) Z :=
  api_checked (
    r ← spiffs_fd_find_new;
    let '(res, fd_i) := r in
    if res <? SPIFFS_OK then api_fail res
    else
      r ← spiffs_object_find_object_index_header_by_name path;
      return_fd_unless_ok fd_i r.1;;
      if r.1 <? SPIFFS_OK then api_fail r.1
      else
        res ← spiffs_object_open_by_page r.2 fd_i 0;
        return_fd_unless_ok fd_i res;;
        if res <? SPIFFS_OK then api_fail res
        else
          res ← spiffs_object_truncate fd_i 0 true;
          return_fd_unless_ok fd_i res;;
          if res <? SPIFFS_OK then api_fail res else mret 0).

Definition SPIFFS_fremove (fh : Z) : C (spiffs F) Z :=
  api_checked (
    r ← spiffs_fd_get fh;
    let '(res, fd_i) := r in
    if res <? SPIFFS_OK then api_fail res
    else
      fd ← fd_at fd_i;
      if negb (hasb (fd_flags fd) SPIFFS_WRONLY) then api_fail SPIFFS_ERR_NOT_WRITABLE
      else
        spiffs_cache_fd_release (fd_cache_page fd);;
        res ← spiffs_object_truncate fd_i 0 true;
        if res <? SPIFFS_OK then api_fail res else mret 0).

Definition SPIFFS_fflush (uninit fh : Z) : C (spiffs F) Z :=
  api_checked (
    res ← spiffs_fflush_cache uninit fh;
    if res <? SPIFFS_OK then api_fail res else mret res).

Definition SPIFFS_close (uninit fh : Z) : C (spiffs F) Z :=
  api_checked (
    res ← spiffs_fflush_cache uninit fh;
    if res <? SPIFFS_OK then api_fail res
    else
      res ← spiffs_fd_return fh;
      if res <? SPIFFS_OK then api_fail res else mret res).

Definition SPIFFS_unmount (uninit : Z) : C (spiffs F) unit :=
  m ← gets config_magic;
  mnt ← gets mounted;
  if negb (m =? SPIFFS_CONFIG_MAGIC) || (mnt =? 0) then mret tt
  else
    n ← gets fd_count;
    _ ← loop (Z.to_nat n + 1) (fun i =>
          if i <? n then
            fd ← fd_at i;
            (if negb (fd_file_nbr fd =? 0) then
               _ ← spiffs_fflush_cache uninit (fd_file_nbr fd);
               fd ← fd_at i;
               _ ← spiffs_fd_return (fd_file_nbr fd);
               mret tt
             else mret tt);;
            mret (Next (i + 1))
          else mret (Exit (R := unit) i)) 0;
    modify (set_mounted 0).

Definition SPIFFS_rename (old new : list Z) : C (spiffs F) Z :=
  api_checked (
    r ← spiffs_object_find_object_index_header_by_name old;
    let '(res, pix_old) := r in
    if res <? SPIFFS_OK then api_fail res
    else
      r ← spiffs_object_find_object_index_header_by_name new;
      let res := if r.1 =? SPIFFS_ERR_NOT_FOUND then SPIFFS_OK
                 else if r.1 =? SPIFFS_OK then SPIFFS_ERR_CONFLICTING_NAME else r.1 in
      if res <? SPIFFS_OK then api_fail res
      else
        r ← spiffs_fd_find_new;
        let '(res, fd_i) := r in
        if res <? SPIFFS_OK then api_fail res
        else
          res ← spiffs_object_open_by_page pix_old fd_i 0;
          return_fd_unless_ok fd_i res;;
          if res <? SPIFFS_OK then api_fail res
          else
            fd ← fd_at fd_i;
            r ← spiffs_object_update_index_hdr (Some fd_i) (fd_obj_id fd) (fd_objix_hdr_pix fd) false (Some new) 0;
            fd ← fd_at fd_i;
            _ ← spiffs_fd_return (fd_file_nbr fd);
            if r.1 <? SPIFFS_OK then api_fail r.1 else mret r.1).

(** ** Status and listing *)

(** Return code and the status stored to [*s]. *)
Definition spiffs_stat_pix (pix fh : Z) : C (spiffs F) (Z * option spiffs_stat) :=
  c ← gets cfg;
  r ← rd_object_ix_header (Z.lor SPIFFS_OP_T_OBJ_IX SPIFFS_OP_C_READ) fh (SPIFFS_PAGE_TO_PADDR c pix);
  let '(res, objix_hdr) := r in
  if res <? SPIFFS_OK then e ← api_fail res; mret (e, None)
  else
    r ← rd_obj_id (Z.lor SPIFFS_OP_T_OBJ_LU SPIFFS_OP_C_READ) fh (lu_entry_paddr c pix);
    let '(res, obj_id) := r in
    if res <? SPIFFS_OK then e ← api_fail res; mret (e, None)
    else
      mret (res, Some (mkStat obj_id
        (if oix_size objix_hdr =? SPIFFS_UNDEFINED_LEN then 0 else oix_size objix_hdr)
        (oix_type objix_hdr) (strncpy (oix_name objix_hdr) SPIFFS_OBJ_NAME_LEN))).

Definition SPIFFS_stat (path : list Z) : C (spiffs F) (Z * option spiffs_stat) :=
  m ← gets config_magic;
  if negb (m =? SPIFFS_CONFIG_MAGIC) then e ← api_fail SPIFFS_ERR_NOT_CONFIGURED; mret (e, None)
  else
    mnt ← gets mounted;
    if mnt =? 0 then e ← api_fail SPIFFS_ERR_NOT_MOUNTED; mret (e, None)
    else
      r ← spiffs_object_find_object_index_header_by_name path;
      if r.1 <? SPIFFS_OK then e ← api_fail r.1; mret (e, None)
      else spiffs_stat_pix r.2 0.

Definition SPIFFS_fstat (uninit fh : Z) : C (spiffs F) (Z * option spiffs_stat) :=
  m ← gets config_magic;
  if negb (m =? SPIFFS_CONFIG_MAGIC) then e ← api_fail SPIFFS_ERR_NOT_CONFIGURED; mret (e, None)
  else
    mnt ← gets mounted;
    if mnt =? 0 then e ← api_fail SPIFFS_ERR_NOT_MOUNTED; mret (e, None)
    else
      r ← spiffs_fd_get fh;
      let '(res, fd_i) := r in
      if res <? SPIFFS_OK then e ← api_fail res; mret (e, None)
      else
        _ ← spiffs_fflush_cache uninit fh;
        fd ← fd_at fd_i;
        spiffs_stat_pix (fd_objix_hdr_pix fd) fh.

Definition SPIFFS_opendir : C (spiffs F) (option spiffs_DIR) :=
  m ← gets config_magic;
  if negb (m =? SPIFFS_CONFIG_MAGIC) then modify (set_err_code SPIFFS_ERR_NOT_CONFIGURED);; mret None
  else
    mnt ← gets mounted;
    if mnt =? 0 then modify (set_err_code SPIFFS_ERR_NOT_MOUNTED);; mret None
    else mret (Some (mkDir 0 0)).

(** The visitor stores the entry found to the [spiffs_dirent] of the caller; a
    name without terminator makes the [strcpy] overrun: undefined. *)
Definition spiffs_read_dir_v : spiffs_visitor_f (F := F) (option spiffs_dirent) := fun obj_id bix ix_entry e =>
  c ← gets cfg;
  if (obj_id =? SPIFFS_OBJ_ID_FREE) || (obj_id =? SPIFFS_OBJ_ID_DELETED) || negb (is_ix obj_id) then
    mret (SPIFFS_VIS_COUNTINUE, e)
  else
    let pix := u16 (SPIFFS_OBJ_LOOKUP_ENTRY_TO_PIX c bix ix_entry) in
    r ← rd_object_ix_header (Z.lor SPIFFS_OP_T_OBJ_LU2 SPIFFS_OP_C_READ) 0 (SPIFFS_PAGE_TO_PADDR c pix);
    let '(res, objix_hdr) := r in
    if negb (res =? SPIFFS_OK) then mret (res, e)
    else if is_ix obj_id && (ph_span_ix (oix_p_hdr objix_hdr) =? 0)
      && (Z.land (ph_flags (oix_p_hdr objix_hdr))
            (Z.lor SPIFFS_PH_FLAG_DELET (Z.lor SPIFFS_PH_FLAG_FINAL SPIFFS_PH_FLAG_IXDELE))
          =? Z.lor SPIFFS_PH_FLAG_DELET SPIFFS_PH_FLAG_IXDELE) then
      if bool_decide (length (cstr (oix_name objix_hdr)) = length (oix_name objix_hdr)) then undefined
      else
        mret (SPIFFS_OK, Some (mkDirent obj_id (cstr (oix_name objix_hdr)) (oix_type objix_hdr)
          (if oix_size objix_hdr =? SPIFFS_UNDEFINED_LEN then 0 else oix_size objix_hdr) pix))
    else mret (SPIFFS_VIS_COUNTINUE, e).

(** The entry read, if any, and the directory position afterwards. *)
Definition SPIFFS_readdir (d : spiffs_DIR) : C (spiffs F) (option spiffs_dirent * spiffs_DIR) :=
  mnt ← gets mounted;
  if mnt =? 0 then modify (set_err_code SPIFFS_ERR_NOT_MOUNTED);; mret (None, d)
  else
    r ← spiffs_obj_lu_find_entry_visitor (dir_block d) (dir_entry d) SPIFFS_VIS_NO_WRAP 0
          (Some spiffs_read_dir_v) None 0 0;
    if lr_res _ r =? SPIFFS_OK then
      mret (lr_user _ r, mkDir (lr_block_ix _ r) (lr_lu_entry _ r + 1))
    else modify (set_err_code (lr_res _ r));; mret (None, d).

Definition SPIFFS_closedir : C (spiffs F) Z := api_checked (mret 0).

(** Return code, [*total] and [*used]. *)
Definition SPIFFS_info : C (spiffs F) (Z * Z * Z) :=
  c ← gets cfg;
  bc ← gets block_count;
  pa ← gets stats_p_allocated;
  r ← api_checked (mret SPIFFS_OK);
  if r <? 0 then mret (r, 0, 0)
  else
    let total_data_pages := u32 (u32 (bc - 2) * u32 (SPIFFS_PAGES_PER_BLOCK c - SPIFFS_OBJ_LOOKUP_PAGES c) + 1) in
    mret (r, u32 (total_data_pages * SPIFFS_DATA_PAGE_SIZE c), u32 (pa * SPIFFS_DATA_PAGE_SIZE c)).

Definition SPIFFS_gc_quick (max_free_pages : Z) : C (spiffs F) Z :=
  api_checked (res ← spiffs_gc_quick max_free_pages; if res <? SPIFFS_OK then api_fail res else mret 0).

Definition SPIFFS_gc (size : Z) : C (spiffs F) Z :=
  api_checked (res ← spiffs_gc_check size; if res <? SPIFFS_OK then api_fail res else mret 0).

(** [SPIFFS_eof] and [SPIFFS_tell]. *)
Definition with_flushed_fd (uninit fh : Z) (f : spiffs_fd -> Z) : C (spiffs F) Z :=
  api_checked (
    r ← spiffs_fd_get fh;
    let '(res, fd_i) := r in
    if res <? SPIFFS_OK then api_fail res
    else
      res ← spiffs_fflush_cache uninit fh;
      if res <? SPIFFS_OK then api_fail res
      else fd ← fd_at fd_i; mret (f fd)).

Definition SPIFFS_eof (uninit fh : Z) : C (spiffs F) Z :=
  with_flushed_fd uninit fh (fun fd => if fd_fdoffset fd =? fd_size fd then 1 else 0).

Definition SPIFFS_tell (uninit fh : Z) : C (spiffs F) Z :=
  with_flushed_fd uninit fh (fun fd => s32 (fd_fdoffset fd)).

End defs.
