(* ===== verification/SpiffsCheck.v ===== *)
(** The consistency check of SPIFFS ([spiffs_check.c]): the look-up check, the
    object index check and the page check, with the repairs they make, and
    [SPIFFS_check].

    The check callback ([check_cb_f]) belongs to the application and gets values
    only; it is not modelled.  [undefined] also stands for a branch on a variable
    that has not been assigned. *)
From S2P Require Import Prelude CSem SpiffsTypes SpiffsCache SpiffsLookup SpiffsPage SpiffsIndex SpiffsApi.
From stdpp Require Import base list numbers option.

Open Scope Z_scope.

Definition SPIFFS_ERR_CHECK_FIRST : Z := SPIFFS_ERR_INTERNAL - 1.
Definition SPIFFS_ERR_CHECK_OBJ_ID_MISM : Z := SPIFFS_ERR_INTERNAL - 1.
Definition SPIFFS_ERR_CHECK_SPIX_MISM : Z := SPIFFS_ERR_INTERNAL - 2.
Definition SPIFFS_ERR_CHECK_FLAGS_BAD : Z := SPIFFS_ERR_INTERNAL - 3.
Definition SPIFFS_ERR_CHECK_LAST : Z := SPIFFS_ERR_INTERNAL - 4.

(** The index itself is bad, the file cannot be mended. *)
Definition is_check_err (res : Z) : bool := (res <=? SPIFFS_ERR_CHECK_FIRST) && (SPIFFS_ERR_CHECK_LAST <? res).

Definition SPIFFS_IS_LOOKUP_PAGE (c : spiffs_config) (pix : Z) : bool :=
  pix mod SPIFFS_PAGES_PER_BLOCK c <? SPIFFS_OBJ_LOOKUP_PAGES c.

(** The flags that tell an object index page in use. *)
Definition SPIFFS_PH_FLAGS_ALL : Z :=
  Z.lor SPIFFS_PH_FLAG_USED (Z.lor SPIFFS_PH_FLAG_IXDELE (Z.lor SPIFFS_PH_FLAG_INDEX
    (Z.lor SPIFFS_PH_FLAG_FINAL SPIFFS_PH_FLAG_DELET))).

(** C's [&&] and [||] on conditions that may read an unassigned variable. *)
Definition c_and (x y : option bool) : option bool :=
  match x with Some true => y | Some false => Some false | None => None end.
Definition c_or (x y : option bool) : option bool :=
  match x with Some false => y | Some true => Some true | None => None end.
Definition c_nz (x : option Z) : option bool := (fun v => negb (v =? 0)) <$> x.

Section defs.
  Context {F : Type} {hal : SpiffsHal F}.

(** ** Repairs *)

(** Return code, [*pix] and [*objix_pix]. *)
Definition spiffs_object_get_data_page_index_reference (obj_id data_spix : Z) : C (spiffs F) (Z * Z * Z) :=
  c ← gets cfg;
  let objix_spix := u16 (SPIFFS_OBJ_IX_ENTRY_SPAN_IX c data_spix) in
  r ← spiffs_obj_lu_find_id_and_span (ix_id obj_id) objix_spix 0;
  let '(res, objix_pix) := r in
  if res <? SPIFFS_OK then mret (res, 0, objix_pix)
  else
    let addr := u32 (SPIFFS_PAGE_TO_PADDR c objix_pix + objix_entry_offs c objix_spix data_spix) in
    r ← rd_obj_id (Z.lor SPIFFS_OP_T_OBJ_LU2 SPIFFS_OP_C_READ) 0 addr;
    mret (r.1, r.2, objix_pix).

(** Return code and [*new_pix].  The header is updated as well ([USED] cleared);
    the callers only read its ids afterwards. *)
Definition spiffs_rewrite_page (cur_pix : Z) (p_hdr : spiffs_page_header) : C (spiffs F) (Z * Z) :=
  c ← gets cfg;
  r ← spiffs_page_allocate_data (ph_obj_id p_hdr) p_hdr None 0 false;
  let '(res, new_pix, _) := r in
  if res <? SPIFFS_OK then mret (res, new_pix)
  else
    res ← spiffs_phys_cpy 0 (u32 (SPIFFS_PAGE_TO_PADDR c new_pix + sizeof_page_header))
            (u32 (SPIFFS_PAGE_TO_PADDR c cur_pix + sizeof_page_header)) (SPIFFS_DATA_PAGE_SIZE c);
    mret (res, new_pix).

(** [(spiffs_page_header* )fs->lu_work]. *)
Definition lu_work_p_hdr (s : spiffs F) : spiffs_page_header := dec_page_header (lu_work s).

(** Entry for [data_spix] of the index table in [fs->lu_work]. *)
Definition set_lu_objix_entry (objix_spix data_spix pix : Z) : C (spiffs F) unit :=
  c ← gets cfg;
  w ← gets lu_work;
  let offs := objix_entry_offs c objix_spix data_spix in
  if offs + sizeof_page_ix <=? zlen w then modify (set_lu_work (splice w offs (enc16 pix))) else undefined.

(** Reads page [pix] into [fs->lu_work]. *)
Definition rd_page_lu_work (pix : Z) : C (spiffs F) Z :=
  c ← gets cfg;
  r ← spiffs_phys_rd (Z.lor SPIFFS_OP_T_OBJ_LU2 SPIFFS_OP_C_READ) 0 (SPIFFS_PAGE_TO_PADDR c pix) (log_page_size c);
  modify (set_lu_work r.2);; mret r.1.

Definition spiffs_rewrite_index (obj_id data_spix new_data_pix objix_pix : Z) : C (spiffs F) Z :=
  c ← gets cfg;
  let obj_id := ix_id obj_id in
  fb ← gets free_cursor_block_ix;
  fe ← gets free_cursor_obj_lu_entry;
  r ← spiffs_obj_lu_find_free fb fe;
  let '(res, bix, entry) := r in
  if res <? SPIFFS_OK then mret res
  else
    let free_pix := u16 (SPIFFS_OBJ_LOOKUP_ENTRY_TO_PIX c bix entry) in
    let objix_spix := u16 (SPIFFS_OBJ_IX_ENTRY_SPAN_IX c data_spix) in
    res ← rd_page_lu_work objix_pix;
    if res <? SPIFFS_OK then mret res
    else
      h ← gets lu_work_p_hdr;
      if negb (ph_obj_id h =? obj_id) then
        _ ← spiffs_page_delete free_pix; mret SPIFFS_ERR_CHECK_OBJ_ID_MISM
      else if negb (ph_span_ix h =? objix_spix) then
        _ ← spiffs_page_delete free_pix; mret SPIFFS_ERR_CHECK_SPIX_MISM
      else if negb (Z.land (ph_flags h) SPIFFS_PH_FLAGS_ALL =? Z.lor SPIFFS_PH_FLAG_IXDELE SPIFFS_PH_FLAG_DELET) then
        _ ← spiffs_page_delete free_pix; mret SPIFFS_ERR_CHECK_FLAGS_BAD
      else
        set_lu_objix_entry objix_spix data_spix new_data_pix;;
        w ← gets lu_work;
        res ← spiffs_phys_wr (Z.lor SPIFFS_OP_T_OBJ_DA SPIFFS_OP_C_UPDT) 0 (SPIFFS_PAGE_TO_PADDR c free_pix)
                (slice w 0 (log_page_size c));
        if res <? SPIFFS_OK then mret res
        else
          res ← spiffs_phys_wr (Z.lor SPIFFS_OP_T_OBJ_LU SPIFFS_OP_C_UPDT) 0 (lu_entry_paddr c free_pix) (enc16 obj_id);
          if res <? SPIFFS_OK then mret res
          else spiffs_page_delete objix_pix.

(** Clears flags of the header of page [pix]: writes [0xff & ~m] over them. *)
Definition wr_page_flags (op pix m : Z) : C (spiffs F) Z :=
  c ← gets cfg;
  spiffs_phys_wr op 0 (u32 (SPIFFS_PAGE_TO_PADDR c pix + offsetof_flags)) [clrb 255 m].

Definition spiffs_delete_obj_lazy (obj_id : Z) : C (spiffs F) Z :=
  r ← spiffs_obj_lu_find_id_and_span obj_id 0 0;
  let '(res, objix_hdr_pix) := r in
  if res =? SPIFFS_ERR_NOT_FOUND then mret SPIFFS_OK
  else if res <? SPIFFS_OK then mret res
  else wr_page_flags (Z.lor SPIFFS_OP_T_OBJ_LU SPIFFS_OP_C_UPDT) objix_hdr_pix SPIFFS_PH_FLAG_IXDELE.

(** A search whose caller takes page index 0 for "not found". *)
Definition find_or_none (obj_id spix exclusion_pix : Z) : C (spiffs F) (Z * Z) :=
  r ← spiffs_obj_lu_find_id_and_span obj_id spix exclusion_pix;
  mret (if r.1 =? SPIFFS_ERR_NOT_FOUND then (SPIFFS_OK, 0) else r).

(** ** Look up consistency *)

(** How a part of the validation ends: [inl] with [res], [delete_page] and
    [*reload_lu], or by returning from the function ([*reload_lu] is not looked
    at after an error). *)
Definition validation : Type := (Z * bool * bool) + Z.

(** Copies the data page to a new place and lets the index refer to it; the
    object is deleted when its index is bad (the flag returned). *)
Definition relocate_data_page (cur_pix : Z) (p_hdr : spiffs_page_header) (objix_pix : Z) : C (spiffs F) (Z * bool) :=
  r ← spiffs_rewrite_page cur_pix p_hdr;
  let '(res, new_pix) := r in
  if res <? SPIFFS_OK then mret (res, false)
  else
    res ← spiffs_rewrite_index (ph_obj_id p_hdr) (ph_span_ix p_hdr) new_pix objix_pix;
    if is_check_err res then
      res ← spiffs_page_delete new_pix;
      if res <? SPIFFS_OK then mret (res, true)
      else res ← spiffs_delete_obj_lazy (ph_obj_id p_hdr); mret (res, true)
    else mret (res, false).

(** Free or deleted in the lookup, in use in the page header. *)
Definition validate_unused (p_hdr : spiffs_page_header) (cur_pix : Z) : C (spiffs F) validation :=
  if hasb (ph_flags p_hdr) SPIFFS_PH_FLAG_INDEX then
    r ← spiffs_object_get_data_page_index_reference (ph_obj_id p_hdr) (ph_span_ix p_hdr);
    let '(res, ref_pix, objix_pix) := r in
    if res =? SPIFFS_ERR_NOT_FOUND then mret (inl (SPIFFS_OK, true, true))
    else if res <? SPIFFS_OK then mret (inr res)
    else if ref_pix =? cur_pix then
      r ← relocate_data_page cur_pix p_hdr objix_pix;
      if r.1 <? SPIFFS_OK then mret (inr r.1) else mret (inl (r.1, true, true))
    else mret (inl (res, true, true))
  else
    r ← spiffs_obj_lu_find_id_and_span (ix_id (ph_obj_id p_hdr)) (ph_span_ix p_hdr) cur_pix;
    if r.1 =? SPIFFS_ERR_NOT_FOUND then
      r ← spiffs_obj_lu_find_id_and_span_by_phdr (ix_id (ph_obj_id p_hdr)) 0 0;
      if r.1 =? SPIFFS_OK then
        r ← spiffs_rewrite_page cur_pix p_hdr;
        if r.1 <? SPIFFS_OK then mret (inr r.1) else mret (inl (r.1, true, true))
      else mret (inl (r.1, true, true))
    else if r.1 <? SPIFFS_OK then mret (inr r.1)
    else mret (inl (r.1, true, true)).

(** Rewrites the index page under the id [obj_id]. *)
Definition rewrite_index_page_as (obj_id : Z) (p_hdr : spiffs_page_header) (cur_pix : Z) : C (spiffs F) validation :=
  r ← spiffs_rewrite_page cur_pix
        (mkPh (ix_id obj_id) (ph_span_ix p_hdr)
           (clrb 255 (Z.lor SPIFFS_PH_FLAG_USED (Z.lor SPIFFS_PH_FLAG_INDEX SPIFFS_PH_FLAG_FINAL))));
  if r.1 <? SPIFFS_OK then mret (inr r.1) else mret (inl (r.1, true, true)).

(** Whether the index page belongs to the id in its header, from [objix_pix_lu],
    [data_pix_lu], [data_pix_ph] and [objix_pix_ph]; whether it belongs to the
    looked up id, with the roles exchanged. *)
Definition index_belongs_to_ph (objix_pix_lu : Z) (data_pix_lu data_pix_ph : option Z) (objix_pix_ph : Z) : option bool :=
  c_or (c_and (Some (negb (objix_pix_lu =? 0))) (c_and (c_nz data_pix_lu)
          (c_and (c_nz data_pix_ph) (Some (objix_pix_ph =? 0)))))
       (c_and (Some (objix_pix_lu =? 0)) (c_and (c_nz data_pix_ph) (Some (objix_pix_ph =? 0)))).

Definition index_belongs_to_lu (objix_pix_lu : Z) (data_pix_lu data_pix_ph : option Z) (objix_pix_ph : Z) : option bool :=
  c_or (c_and (Some (negb (objix_pix_ph =? 0))) (c_and (c_nz data_pix_ph)
          (c_and (c_nz data_pix_lu) (Some (objix_pix_lu =? 0)))))
       (c_and (Some (objix_pix_ph =? 0)) (c_and (c_nz data_pix_lu) (Some (objix_pix_lu =? 0)))).

(** An index page whose header has another id than the lookup entry. *)
Definition validate_foreign_index (lu_obj_id : Z) (p_hdr : spiffs_page_header) (cur_pix : Z) : C (spiffs F) validation :=
  a ← find_or_none (ix_id lu_obj_id) (ph_span_ix p_hdr) 0;
  if a.1 <? SPIFFS_OK then mret (inr a.1)
  else
    b ← find_or_none (ix_id (ph_obj_id p_hdr)) (ph_span_ix p_hdr) 0;
    if b.1 <? SPIFFS_OK then mret (inr b.1)
    else if (b.2 =? 0) || (a.2 =? 0) then
      d ← spiffs_obj_lu_find_id_and_span (data_id lu_obj_id) 0 0;
      let '(res, objix_pix_lu, data_pix_lu) :=
        if d.1 =? SPIFFS_ERR_NOT_FOUND then (SPIFFS_OK, 0, None) else (d.1, a.2, Some d.2) in
      if res <? SPIFFS_OK then mret (inr res)
      else
        e ← spiffs_obj_lu_find_id_and_span (data_id (ph_obj_id p_hdr)) 0 0;
        let '(res, objix_pix_ph, data_pix_ph) :=
          if e.1 =? SPIFFS_ERR_NOT_FOUND then (SPIFFS_OK, 0, None) else (e.1, b.2, Some e.2) in
        if res <? SPIFFS_OK then mret (inr res)
        else
          match index_belongs_to_ph objix_pix_lu data_pix_lu data_pix_ph objix_pix_ph with
          | None => undefined
          | Some true => rewrite_index_page_as (ph_obj_id p_hdr) p_hdr cur_pix
          | Some false =>
              match index_belongs_to_lu objix_pix_lu data_pix_lu data_pix_ph objix_pix_ph with
              | None => undefined
              | Some true => rewrite_index_page_as lu_obj_id p_hdr cur_pix
              | Some false => mret (inl (res, true, false))
              end
          end
    else mret (inl (b.1, true, false)).

(** Different object ids in lookup and page header. *)
Definition validate_foreign (lu_obj_id : Z) (p_hdr : spiffs_page_header) (cur_pix : Z) : C (spiffs F) validation :=
  let flags := ph_flags p_hdr in
  if negb (hasb flags SPIFFS_PH_FLAG_DELET) || hasb flags SPIFFS_PH_FLAG_FINAL
     || negb (hasb flags (Z.lor SPIFFS_PH_FLAG_INDEX SPIFFS_PH_FLAG_IXDELE)) then
    mret (inl (SPIFFS_OK, true, false))
  else if hasb flags SPIFFS_PH_FLAG_INDEX then
    r ← spiffs_object_get_data_page_index_reference (ph_obj_id p_hdr) (ph_span_ix p_hdr);
    let '(res, ref_pix, objix_pix) := r in
    if res =? SPIFFS_ERR_NOT_FOUND then mret (inl (SPIFFS_OK, true, false))
    else if res <? SPIFFS_OK then mret (inr res)
    else if ref_pix =? cur_pix then
      r ← relocate_data_page cur_pix p_hdr objix_pix;
      if r.1 <? SPIFFS_OK then mret (inr r.1) else mret (inl (r.1, true, r.2))
    else mret (inl (res, true, false))
  else validate_foreign_index lu_obj_id p_hdr cur_pix.

(** Stores the contents of the page as page of [obj_id] with the given flags. *)
Definition store_page_as (obj_id flags : Z) (p_hdr : spiffs_page_header) (cur_pix : Z) : C (spiffs F) validation :=
  c ← gets cfg;
  r ← spiffs_page_allocate_data obj_id (mkPh obj_id (ph_span_ix p_hdr) flags) None 0 true;
  let '(res, new_pix, _) := r in
  if res <? SPIFFS_OK then mret (inr res)
  else
    res ← spiffs_phys_cpy 0 (u32 (SPIFFS_PAGE_TO_PADDR c new_pix + sizeof_page_header))
            (u32 (SPIFFS_PAGE_TO_PADDR c cur_pix + sizeof_page_header)) (u32 (log_page_size c - sizeof_page_header));
    if res <? SPIFFS_OK then mret (inr res) else mret (inl (res, true, false)).

(** Index page in the lookup and data page in the header, or the reverse. *)
Definition validate_marking (lu_obj_id : Z) (p_hdr : spiffs_page_header) (cur_pix : Z) : C (spiffs F) validation :=
  d ← find_or_none (data_id lu_obj_id) (ph_span_ix p_hdr) cur_pix;
  if d.1 <? SPIFFS_OK then mret (inr d.1)
  else
    x ← find_or_none (ix_id lu_obj_id) (ph_span_ix p_hdr) cur_pix;
    if x.1 <? SPIFFS_OK then mret (inr x.1)
    else if negb (d.2 =? 0) && negb (x.2 =? 0) then mret (inl (x.1, true, false))
    else if negb (d.2 =? 0) && (x.2 =? 0) then
      store_page_as (ix_id lu_obj_id)
        (clrb 255 (Z.lor SPIFFS_PH_FLAG_USED (Z.lor SPIFFS_PH_FLAG_FINAL SPIFFS_PH_FLAG_INDEX))) p_hdr cur_pix
    else if (d.2 =? 0) && negb (x.2 =? 0) then
      store_page_as (data_id lu_obj_id) (clrb 255 (Z.lor SPIFFS_PH_FLAG_USED SPIFFS_PH_FLAG_FINAL)) p_hdr cur_pix
    else mret (inl (x.1, true, false)).

(** In use, but not finalized. *)
Definition validate_unfinalized (lu_obj_id : Z) (p_hdr : spiffs_page_header) (cur_pix : Z) : C (spiffs F) validation :=
  r ← spiffs_object_get_data_page_index_reference lu_obj_id (ph_span_ix p_hdr);
  let '(res, ref_pix, _) := r in
  if res =? SPIFFS_ERR_NOT_FOUND then mret (inl (SPIFFS_OK, true, true))
  else if res <? SPIFFS_OK then mret (inr res)
  else if negb (ref_pix =? cur_pix) then mret (inl (res, true, true))
  else
    res ← wr_page_flags (Z.lor SPIFFS_OP_T_OBJ_DA SPIFFS_OP_C_UPDT) cur_pix SPIFFS_PH_FLAG_FINAL;
    mret (inl (res, false, true)).

(** The cases of the check, by what lookup entry and page header say. *)
Definition lu_unused_mismatch (lu_obj_id flags : Z) : bool :=
  ((lu_obj_id =? SPIFFS_OBJ_ID_DELETED) && hasb flags SPIFFS_PH_FLAG_DELET)
  || ((lu_obj_id =? SPIFFS_OBJ_ID_FREE) && negb (hasb flags SPIFFS_PH_FLAG_USED)).
Definition lu_in_use (lu_obj_id : Z) : bool :=
  negb (lu_obj_id =? SPIFFS_OBJ_ID_FREE) && negb (lu_obj_id =? SPIFFS_OBJ_ID_DELETED).
Definition lu_marking_mismatch (lu_obj_id flags : Z) : bool :=
  (is_ix lu_obj_id && hasb flags SPIFFS_PH_FLAG_INDEX)
  || (negb (is_ix lu_obj_id) && negb (hasb flags SPIFFS_PH_FLAG_INDEX)).

(** Return code and [*reload_lu]. *)
Definition spiffs_lookup_check_validate (lu_obj_id : Z) (p_hdr : spiffs_page_header) (cur_pix : Z)
    : C (spiffs F) (Z * bool) :=
  let flags := ph_flags p_hdr in
  r ← (if lu_unused_mismatch lu_obj_id flags then validate_unused p_hdr cur_pix
       else if lu_in_use lu_obj_id then
         if negb (ix_id (ph_obj_id p_hdr) =? ix_id lu_obj_id) then validate_foreign lu_obj_id p_hdr cur_pix
         else if lu_marking_mismatch lu_obj_id flags then validate_marking lu_obj_id p_hdr cur_pix
         else if negb (hasb flags SPIFFS_PH_FLAG_DELET) then mret (inl (SPIFFS_OK, true, false))
         else if hasb flags SPIFFS_PH_FLAG_FINAL then validate_unfinalized lu_obj_id p_hdr cur_pix
         else mret (inl (SPIFFS_OK, false, false))
       else mret (inl (SPIFFS_OK, false, false)));
  match r : validation with
  | inr res => mret (res, false)
  | inl (res, delete_page, reload_lu) =>
      if delete_page then res ← spiffs_page_delete cur_pix; mret (res, reload_lu)
      else mret (res, reload_lu)
  end.

Definition spiffs_lookup_check_v : spiffs_visitor_f (F := F) unit := fun obj_id cur_block cur_entry u =>
  c ← gets cfg;
  let cur_pix := u16 (SPIFFS_OBJ_LOOKUP_ENTRY_TO_PIX c cur_block cur_entry) in
  r ← rd_page_header (Z.lor SPIFFS_OP_T_OBJ_LU2 SPIFFS_OP_C_READ) 0 (SPIFFS_PAGE_TO_PADDR c cur_pix);
  if r.1 <? SPIFFS_OK then mret (r.1, u)
  else
    r ← spiffs_lookup_check_validate obj_id r.2 cur_pix;
    let '(res, reload_lu) := r in
    if res <? SPIFFS_OK then mret (res, u)
    else if res =? SPIFFS_OK then
      mret (if (reload_lu : bool) then SPIFFS_VIS_COUNTINUE_RELOAD else SPIFFS_VIS_COUNTINUE, u)
    else mret (res, u).

Definition spiffs_lookup_consistency_check : C (spiffs F) Z :=
  r ← spiffs_obj_lu_find_entry_visitor 0 0 0 0 (Some spiffs_lookup_check_v) tt 0 0;
  mret (if lr_res unit r =? SPIFFS_VIS_END then SPIFFS_OK else lr_res unit r).

(** ** Object index consistency *)

(** [obj_table[i]], the object ids in [fs->work]. *)
Definition obj_table (s : spiffs F) (i : Z) : Z := dec16 (slice (work s) (i * sizeof_obj_id) sizeof_obj_id).
Definition set_obj_table (i id : Z) : C (spiffs F) unit :=
  modify (fun s => set_work (splice (work s) (i * sizeof_obj_id) (enc16 id)) s).

Definition spiffs_object_index_search (obj_id : Z) : C (spiffs F) Z :=
  c ← gets cfg;
  let obj_id := data_id obj_id in
  r ← loop (Z.to_nat (log_page_size c) + 1) (fun i =>
        if i <? log_page_size c / sizeof_obj_id then
          e ← gets (fun s => obj_table s i);
          if data_id e =? obj_id then mret (Return i) else mret (Next (i + 1))
        else mret (Exit (R := Z) i)) 0;
  match r with inr i => mret i | inl _ => mret (-1) end.

(** [obj_table[*log_ix] = id; ( *log_ix)++] with wrap-around. *)
Definition log_obj_id (id : Z) (log_ix : option Z) : C (spiffs F) (option Z) :=
  c ← gets cfg;
  match log_ix with
  | None => undefined
  | Some ix =>
      set_obj_table ix id;;
      mret (Some (if log_page_size c / sizeof_obj_id <=? ix + 1 then 0 else ix + 1))
  end.

(** The variable is [*log_ix]; [None] when [user_var_p] is null. *)
Definition spiffs_object_index_consistency_check_v : spiffs_visitor_f (F := F) (option Z) :=
  fun obj_id cur_block cur_entry log_ix =>
  c ← gets cfg;
  if negb (obj_id =? SPIFFS_OBJ_ID_FREE) && negb (obj_id =? SPIFFS_OBJ_ID_DELETED) && is_ix obj_id then
    let cur_pix := u16 (SPIFFS_OBJ_LOOKUP_ENTRY_TO_PIX c cur_block cur_entry) in
    r ← rd_page_header (Z.lor SPIFFS_OP_T_OBJ_LU2 SPIFFS_OP_C_READ) 0 (SPIFFS_PAGE_TO_PADDR c cur_pix);
    let '(res, p_hdr) := r in
    if res <? SPIFFS_OK then mret (res, log_ix)
    else
      let fl := Z.land (ph_flags p_hdr) (Z.lor SPIFFS_PH_FLAG_INDEX (Z.lor SPIFFS_PH_FLAG_FINAL
                  (Z.lor SPIFFS_PH_FLAG_DELET SPIFFS_PH_FLAG_IXDELE))) in
      if (ph_span_ix p_hdr =? 0) && (fl =? SPIFFS_PH_FLAG_DELET) then
        res ← spiffs_page_delete cur_pix;
        mret (if res <? SPIFFS_OK then res else SPIFFS_VIS_COUNTINUE, log_ix)
      else if fl =? Z.lor SPIFFS_PH_FLAG_DELET SPIFFS_PH_FLAG_IXDELE then mret (SPIFFS_VIS_COUNTINUE, log_ix)
      else
        i ← spiffs_object_index_search obj_id;
        if ph_span_ix p_hdr =? 0 then
          log_ix ← (if i =? -1 then log_obj_id (data_id obj_id) log_ix else mret log_ix);
          mret (SPIFFS_VIS_COUNTINUE, log_ix)
        else
          r ← (if i =? -1 then
                 r ← spiffs_obj_lu_find_id_and_span (ix_id obj_id) 0 0;
                 if r.1 =? SPIFFS_OK then
                   log_ix ← log_obj_id (data_id obj_id) log_ix;
                   mret (SPIFFS_OK, SPIFFS_VIS_COUNTINUE_RELOAD, false, log_ix)
                 else if r.1 =? SPIFFS_ERR_NOT_FOUND then
                   log_ix ← log_obj_id (ix_id obj_id) log_ix;
                   mret (SPIFFS_OK, SPIFFS_VIS_COUNTINUE_RELOAD, true, log_ix)
                 else if r.1 <? SPIFFS_OK then mret (r.1, SPIFFS_VIS_COUNTINUE_RELOAD, false, log_ix)
                 else
                   log_ix ← (match log_ix with None => undefined | Some ix =>
                               mret (Some (if log_page_size c / sizeof_obj_id <=? ix + 1 then 0 else ix + 1)) end);
                   mret (SPIFFS_OK, SPIFFS_VIS_COUNTINUE_RELOAD, false, log_ix)
               else
                 e ← gets (fun s => obj_table s i);
                 mret (SPIFFS_OK, SPIFFS_VIS_COUNTINUE, is_ix e, log_ix));
          let '(res, res_c, delete, log_ix) := r in
          if res <? SPIFFS_OK then mret (res, log_ix)
          else if (delete : bool) then
            res ← spiffs_page_delete cur_pix;
            mret (if res <? SPIFFS_OK then res else res_c, log_ix)
          else mret (res_c, log_ix)
  else mret (SPIFFS_VIS_COUNTINUE, log_ix).

(** [&obj_id_log_ix] is passed as [user_const_p], which the visitor ignores;
    [user_var_p] is null. *)
Definition spiffs_object_index_consistency_check : C (spiffs F) Z :=
  c ← gets cfg;
  modify (set_work (replicate (Z.to_nat (log_page_size c)) 0));;
  r ← spiffs_obj_lu_find_entry_visitor 0 0 0 0 (Some spiffs_object_index_consistency_check_v) None 0 0;
  mret (if lr_res _ r =? SPIFFS_VIS_END then SPIFFS_OK else lr_res _ r).

(** ** Page consistency

  Four bits of [fs->work] per page of the range that starts at [pix_offset]:
  bit 0 used, bit 1 referenced, bit 2 index. *)

Definition pages_per_scan (c : spiffs_config) : Z := u16 (u32 (log_page_size c * 8) / 4).
Definition all_pages (c : spiffs_config) (bc : Z) : Z := u32 (SPIFFS_PAGES_PER_BLOCK c * bc).
Definition in_scan_range (c : spiffs_config) (pix_offset pix : Z) : bool :=
  (pix_offset <=? pix) && (pix <? pix_offset + pages_per_scan c).

(** Byte and bit of [pix] in the bitmap. *)
Definition pix_byte_ix (pix_offset pix : Z) : Z := u32 (pix - pix_offset) / 2.
Definition pix_bit_ix (pix : Z) : Z := Z.land pix 1 * 4.

Definition set_page_bit (pix_offset pix k : Z) : C (spiffs F) unit :=
  modify (fun s => let i := pix_byte_ix pix_offset pix in
    set_work (zset (work s) i (u8 (Z.lor (zget (work s) i) (Z.shiftl 1 (pix_bit_ix pix + k))))) s).
Definition page_bit (pix_offset pix k : Z) (s : spiffs F) : bool :=
  hasb (zget (work s) (pix_byte_ix pix_offset pix)) (Z.shiftl 1 (pix_bit_ix pix + k)).

(** A reference to no page of the volume, or to a lookup page: maps the entry to
    the data page found elsewhere or to a new one.  The object id is taken from
    [fs->lu_work], which the searches overwrite. *)
Definition fix_bad_reference (cur_pix data_spix : Z) : C (spiffs F) Z :=
  h ← gets lu_work_p_hdr;
  d ← find_or_none (data_id (ph_obj_id h)) (u16 data_spix) 0;
  if d.1 <? SPIFFS_OK then mret d.1
  else
    h ← gets lu_work_p_hdr;
    d ← (if d.2 =? 0 then
           let id := data_id (ph_obj_id h) in
           r ← spiffs_page_allocate_data id
                 (mkPh id (u16 data_spix) (clrb 255 (Z.lor SPIFFS_PH_FLAG_USED SPIFFS_PH_FLAG_FINAL))) None 0 true;
           mret r.1
         else mret d);
    if d.1 <? SPIFFS_OK then mret d.1
    else
      h ← gets lu_work_p_hdr;
      res ← spiffs_rewrite_index (ix_id (ph_obj_id h)) (u16 data_spix) d.2 cur_pix;
      if is_check_err res then spiffs_page_delete cur_pix else mret res.

(** A reference to a page that is not this data page: return code, and whether
    the range is scanned again (else the index page is left). *)
Definition fix_wrong_reference (p_hdr : spiffs_page_header) (cur_pix rpix data_spix : Z) : C (spiffs F) (Z * bool) :=
  d ← find_or_none (data_id (ph_obj_id p_hdr)) (u16 data_spix) rpix;
  if d.1 <? SPIFFS_OK then mret (d.1, false)
  else if d.2 =? 0 then res ← spiffs_delete_obj_lazy (ph_obj_id p_hdr); mret (res, false)
  else
    res ← spiffs_rewrite_index (ph_obj_id p_hdr) (u16 data_spix) d.2 cur_pix;
    res ← (if is_check_err res then spiffs_delete_obj_lazy (ph_obj_id p_hdr) else mret res);
    mret (res, true).

(** A page referenced twice: deletes the object and the index page. *)
Definition fix_multiple_reference (p_hdr : spiffs_page_header) (cur_pix : Z) : C (spiffs F) Z :=
  res ← spiffs_delete_obj_lazy (ph_obj_id p_hdr);
  if res <? SPIFFS_OK then mret res else spiffs_page_delete cur_pix.

(** The data page with span index [data_spix] of the object of index page [p_hdr]. *)
Definition is_data_page_of (p_hdr rp_hdr : spiffs_page_header) (data_spix : Z) : bool :=
  (ph_obj_id rp_hdr =? data_id (ph_obj_id p_hdr)) && (ph_span_ix rp_hdr =? data_spix)
  && (Z.land (ph_flags rp_hdr) (Z.lor SPIFFS_PH_FLAG_DELET (Z.lor SPIFFS_PH_FLAG_INDEX SPIFFS_PH_FLAG_USED))
        =? Z.lor SPIFFS_PH_FLAG_DELET SPIFFS_PH_FLAG_INDEX).

(** Body of the loop over the entries of an index page: the variables are [i]
    and [restart]. *)
Definition page_ref_body (pix_offset cur_pix : Z) (p_hdr : spiffs_page_header) (entries data_spix_offset table_offs : Z)
    (l : Z * bool) : C (spiffs F) (ctl (Z * bool) Z) :=
  c ← gets cfg;
  let '(i, restart) := l in
  if negb restart && (i <? entries) then
    rpix ← gets (fun s => dec16 (slice (lu_work s) (table_offs + i * sizeof_page_ix) sizeof_page_ix));
    let rpix_within_range := in_scan_range c pix_offset rpix in
    if (negb (rpix =? IX_NONE) && (SPIFFS_MAX_PAGES c <? rpix))
       || (rpix_within_range && SPIFFS_IS_LOOKUP_PAGE c rpix) then
      res ← fix_bad_reference cur_pix (data_spix_offset + i);
      if res <? SPIFFS_OK then mret (Return res) else mret (Next (i + 1, true))
    else if rpix_within_range then
      r ← rd_page_header (Z.lor SPIFFS_OP_T_OBJ_LU2 SPIFFS_OP_C_READ) 0 (SPIFFS_PAGE_TO_PADDR c rpix);
      if r.1 <? SPIFFS_OK then mret (Return r.1)
      else if negb (is_data_page_of p_hdr r.2 (data_spix_offset + i)) then
        r ← fix_wrong_reference p_hdr cur_pix rpix (data_spix_offset + i);
        let '(res, again) := r in
        if res <? SPIFFS_OK then mret (Return res)
        else if (again : bool) then mret (Next (i + 1, true)) else mret (Exit (i, restart))
      else
        b ← gets (page_bit pix_offset rpix 1);
        res ← (if (b : bool) then fix_multiple_reference p_hdr cur_pix else mret SPIFFS_OK);
        if res <? SPIFFS_OK then mret (Return res)
        else set_page_bit pix_offset rpix 1;; mret (Next (i + 1, b))
    else mret (Next (i + 1, restart))
  else mret (Exit l).

(** Of the index page with the given span index: number of entries, span index of
    the first one, offset of the table in the page. *)
Definition index_table (c : spiffs_config) (span_ix : Z) : Z * Z * Z :=
  if span_ix =? 0 then (s32 (SPIFFS_OBJ_HDR_IX_LEN c), 0, sizeof_object_ix_header)
  else (s32 (SPIFFS_OBJ_IX_LEN c), u16 (SPIFFS_OBJ_HDR_IX_LEN c + SPIFFS_OBJ_IX_LEN c * (span_ix - 1)), sizeof_object_ix).

(** An object index page that is not deleted. *)
Definition is_live_index (flags : Z) : bool :=
  hasb flags SPIFFS_PH_FLAG_DELET && hasb flags SPIFFS_PH_FLAG_IXDELE
  && negb (hasb flags (Z.lor SPIFFS_PH_FLAG_INDEX SPIFFS_PH_FLAG_USED)).
Definition is_used_page (flags : Z) : bool :=
  hasb flags SPIFFS_PH_FLAG_DELET && negb (hasb flags SPIFFS_PH_FLAG_USED).

(** Marks page [cur_pix] and what it refers to; [inl]: whether to restart. *)
Definition mark_page (pix_offset cur_pix : Z) : C (spiffs F) (bool + Z) :=
  c ← gets cfg;
  r ← rd_page_header (Z.lor SPIFFS_OP_T_OBJ_LU2 SPIFFS_OP_C_READ) 0 (SPIFFS_PAGE_TO_PADDR c cur_pix);
  let '(res, p_hdr) := r in
  if res <? SPIFFS_OK then mret (inr res)
  else
    let within_range := in_scan_range c pix_offset cur_pix in
    (if within_range && is_used_page (ph_flags p_hdr) then set_page_bit pix_offset cur_pix 0 else mret tt);;
    if is_live_index (ph_flags p_hdr) then
      (if within_range then set_page_bit pix_offset cur_pix 2 else mret tt);;
      res ← rd_page_lu_work cur_pix;
      if res <? SPIFFS_OK then mret (inr res)
      else
        let '(entries, data_spix_offset, table_offs) := index_table c (ph_span_ix p_hdr) in
        r ← loop (Z.to_nat entries + 1) (page_ref_body pix_offset cur_pix p_hdr entries data_spix_offset table_offs)
              (0, false);
        mret (match r with inl (_, restart) => inl restart | inr res => inr res end)
    else mret (inl false).

(** The pages of one block; the variables are [cur_pix] and [restart]. *)
Definition mark_page_body (pix_offset cur_block : Z) (l : Z * bool) : C (spiffs F) (ctl (Z * bool) Z) :=
  c ← gets cfg;
  let '(cur_pix, restart) := l in
  if negb restart && (cur_pix <? u32 (SPIFFS_PAGES_PER_BLOCK c * (cur_block + 1))) then
    r ← mark_page pix_offset cur_pix;
    match r with
    | inr res => mret (Return res)
    | inl restart => mret (Next (u16 (cur_pix + 1), restart))
    end
  else mret (Exit l).

(** All blocks; the variables are [cur_block] and [restart]. *)
Definition mark_block_body (pix_offset : Z) (l : Z * bool) : C (spiffs F) (ctl (Z * bool) Z) :=
  c ← gets cfg;
  bc ← gets block_count;
  let '(cur_block, restart) := l in
  if negb restart && (cur_block <? bc) then
    r ← loop (Z.to_nat (SPIFFS_PAGES_PER_BLOCK c) + 1) (mark_page_body pix_offset cur_block)
          (u16 (SPIFFS_OBJ_LOOKUP_PAGES c + SPIFFS_PAGES_PER_BLOCK c * cur_block), restart);
    match r with
    | inr res => mret (Return res)
    | inl (_, restart) => mret (Next (u16 (cur_block + 1), restart))
    end
  else mret (Exit l).

(** A page in use that no index refers to. *)
Definition points_to_valid_page (p_hdr rp_hdr : spiffs_page_header) : bool :=
  (data_id (ph_obj_id p_hdr) =? ph_obj_id rp_hdr)
  && (Z.land (ph_flags rp_hdr) (Z.lor SPIFFS_PH_FLAG_INDEX (Z.lor SPIFFS_PH_FLAG_DELET
        (Z.lor SPIFFS_PH_FLAG_USED SPIFFS_PH_FLAG_FINAL))) =? Z.lor SPIFFS_PH_FLAG_INDEX SPIFFS_PH_FLAG_DELET).

(** What to do with it: [res], [rewrite_ix_to_this] and [delete_page]; [inr]:
    returns from the function. *)
Definition judge_unreferenced (p_hdr : spiffs_page_header) (cur_pix res rpix : Z) : C (spiffs F) ((Z * bool * bool) + Z) :=
  c ← gets cfg;
  if res =? SPIFFS_OK then
    if (rpix =? IX_NONE) || (SPIFFS_MAX_PAGES c <? rpix) || SPIFFS_IS_LOOKUP_PAGE c rpix then
      mret (inl (res, true, false))
    else
      r ← rd_page_header (Z.lor SPIFFS_OP_T_OBJ_LU2 SPIFFS_OP_C_READ) 0 (SPIFFS_PAGE_TO_PADDR c rpix);
      let '(res, rp_hdr) := r in
      if res <? SPIFFS_OK then mret (inr res)
      else if points_to_valid_page p_hdr rp_hdr then mret (inl (res, false, true))
      else mret (inl (res, negb (rpix =? cur_pix), false))
  else if res =? SPIFFS_ERR_NOT_FOUND then mret (inl (SPIFFS_OK, false, true))
  else mret (inl (res, false, false)).

(** [inl]: whether to restart. *)
Definition fix_unreferenced (cur_pix : Z) : C (spiffs F) (bool + Z) :=
  c ← gets cfg;
  r ← rd_page_header (Z.lor SPIFFS_OP_T_OBJ_LU2 SPIFFS_OP_C_READ) 0 (SPIFFS_PAGE_TO_PADDR c cur_pix);
  let '(res, p_hdr) := r in
  if res <? SPIFFS_OK then mret (inr res)
  else
    r ← spiffs_object_get_data_page_index_reference (ph_obj_id p_hdr) (ph_span_ix p_hdr);
    let '(res, rpix, objix_pix) := r in
    j ← judge_unreferenced p_hdr cur_pix res rpix;
    match j with
    | inr res => mret (inr res)
    | inl (res, rewrite_ix_to_this, delete_page) =>
        if (rewrite_ix_to_this : bool) then
          res ← spiffs_rewrite_index (ph_obj_id p_hdr) (ph_span_ix p_hdr) cur_pix objix_pix;
          res ← (if is_check_err res then
                   res ← spiffs_page_delete cur_pix;
                   if res <? SPIFFS_OK then mret res else spiffs_delete_obj_lazy (ph_obj_id p_hdr)
                 else mret res);
          mret (if res <? SPIFFS_OK then inr res else inl true)
        else
          res ← (if (delete_page : bool) then spiffs_page_delete cur_pix else mret res);
          mret (if res <? SPIFFS_OK then inr res else inl false)
    end.

(** The pages of one byte of the bitmap; the variables are [bit_ix] and [restart]. *)
Definition bitmap_bit_body (pix_offset byte_ix : Z) (l : Z * bool) : C (spiffs F) (ctl (Z * bool) Z) :=
  let '(bit_ix, restart) := l in
  if negb restart && (bit_ix <? 2) then
    b ← gets (fun s => zget (work s) byte_ix);
    let bitmask := Z.land (Z.shiftr b (bit_ix * 4)) 7 in
    let cur_pix := u16 (pix_offset + byte_ix * 2 + bit_ix) in
    if bitmask =? 1 then
      r ← fix_unreferenced cur_pix;
      match r with
      | inr res => mret (Return res)
      | inl restart => mret (Next (bit_ix + 1, restart))
      end
    else mret (Next (bit_ix + 1, restart))
  else mret (Exit l).

(** The variables are [byte_ix] and [restart]. *)
Definition bitmap_byte_body (pix_offset : Z) (l : Z * bool) : C (spiffs F) (ctl (Z * bool) Z) :=
  c ← gets cfg;
  let '(byte_ix, restart) := l in
  if negb restart && (byte_ix <? log_page_size c) then
    r ← loop 3 (bitmap_bit_body pix_offset byte_ix) (0, restart);
    match r with
    | inr res => mret (Return res)
    | inl (_, restart) => mret (Next (byte_ix + 1, restart))
    end
  else mret (Exit l).

(** One pass over the range at [pix_offset]; [inl]: whether to restart. *)
Definition scan_page_range (pix_offset : Z) : C (spiffs F) (bool + Z) :=
  c ← gets cfg;
  bc ← gets block_count;
  modify (set_work (replicate (Z.to_nat (log_page_size c)) 0));;
  r ← loop (Z.to_nat bc + 1) (mark_block_body pix_offset) (0, false);
  match r with
  | inr res => mret (inr res)
  | inl (_, true) => mret (inl true)
  | inl (_, false) =>
      r ← loop (Z.to_nat (log_page_size c) + 1) (bitmap_byte_body pix_offset) (0, false);
      mret (match r with inr res => inr res | inl (_, restart) => inl restart end)
  end.

(** The repairs restart the scan of a range; nothing in the code bounds how
    often, hence [fuel].  At the end [res] is what the last operation returned:
    [SPIFFS_OK], errors having returned before ([SPIFFS_check] drops it). *)
Definition spiffs_page_consistency_check_i (fuel : nat) : C (spiffs F) Z :=
  r ← loop fuel (fun pix_offset =>
        c ← gets cfg;
        bc ← gets block_count;
        if pix_offset <? all_pages c bc then
          r ← scan_page_range pix_offset;
          match r with
          | inr res => mret (Return res)
          | inl restart => mret (Next (if (restart : bool) then pix_offset else u16 (pix_offset + pages_per_scan c)))
          end
        else mret (Exit pix_offset)) 0;
  match r with inr res => mret res | inl _ => mret SPIFFS_OK end.

Definition spiffs_page_consistency_check (fuel : nat) : C (spiffs F) Z := spiffs_page_consistency_check_i fuel.

(** ** [SPIFFS_check] ([spiffs_hydrogen.c]) *)

Definition SPIFFS_check (fuel : nat) : C (spiffs F) Z :=
  api_checked (
    _ ← spiffs_lookup_consistency_check;
    _ ← spiffs_object_index_consistency_check;
    _ ← spiffs_page_consistency_check fuel;
    spiffs_obj_lu_scan).

End defs.
