(* ===== verification/SpiffsErase.v ===== *)
(** Correctness of erasing ([spiffs_erase_block], [spiffs_gc_erase_block],
    [SPIFFS_format]): an erased block is blank but for its erase count and magic,
    other blocks keep their contents, and the cache becomes coherent again. *)
From S2P Require Import Prelude CSem SpiffsTypes SpiffsGeom SpiffsCache SpiffsIo SpiffsLookup SpiffsSearch SpiffsPage SpiffsFind SpiffsPageOps SpiffsIndex SpiffsGc SpiffsObject SpiffsContent SpiffsApi.
From stdpp Require Import base list numbers option.

Open Scope Z_scope.

(** The contents [v] with [n] bytes at [a] erased. *)
Definition blanked (v : Z -> Z) (a n x : Z) : Z := if in_span a n x then 255 else v x.

(** Page [q] belongs to block [b]. *)
Definition page_in_block (c : spiffs_config) (b q : Z) : Prop := b * ppb c <= q < (b + 1) * ppb c.

(** Addresses of erase count and magic of block [b]. *)
Definition ec_addr (c : spiffs_config) (b : Z) : Z := baddr c b + lup c * psz c - 2.
Definition magic_addr (c : spiffs_config) (b : Z) : Z := baddr c b + lup c * psz c - 4.

(** The contents after erasing block [b] with erase count [ec]. *)
Definition erased_view (c : spiffs_config) (v : Z -> Z) (b ec : Z) : Z -> Z :=
  programmed (programmed (blanked v (baddr c b) (bsz c)) (ec_addr c b) (enc16 ec)) (magic_addr c b) (enc16 (SPIFFS_MAGIC c)).

(** The erase count after [ec]: [SPIFFS_OBJ_ID_IX_FLAG] wraps to 0. *)
Definition next_erase_count (ec : Z) : Z := if u16 (ec + 1) =? SPIFFS_OBJ_ID_IX_FLAG then 0 else u16 (ec + 1).

Section geom.
Context (c : spiffs_config) (Hwf : wf_cfg c).

Lemma ec_paddr_eq b : 0 <= b < blocks c -> SPIFFS_ERASE_COUNT_PADDR c b = ec_addr c b.
Proof using Hwf.
  intros Hb. pose proof (baddr_range c Hwf b Hb). pose proof (wf_fit c Hwf). pose proof (wf_lup c Hwf).
  pose proof (wf_psz c Hwf). pose proof (wf_end c Hwf). pose proof (wf_addr c Hwf). pose proof (wf_bsz c Hwf).
  unfold SPIFFS_ERASE_COUNT_PADDR, ec_addr, sizeof_obj_id. apply u32_small. nia.
Qed.

Lemma magic_paddr_eq b : 0 <= b < blocks c -> SPIFFS_MAGIC_PADDR c b = magic_addr c b.
Proof using Hwf.
  intros Hb. pose proof (baddr_range c Hwf b Hb). pose proof (wf_fit c Hwf). pose proof (wf_lup c Hwf).
  pose proof (wf_psz c Hwf). pose proof (wf_end c Hwf). pose proof (wf_addr c Hwf). pose proof (wf_bsz c Hwf).
  unfold SPIFFS_MAGIC_PADDR, magic_addr, sizeof_obj_id. apply u32_small. nia.
Qed.

(** Both lie at the end of the last lookup page. *)
Lemma tail_addr b k : 0 <= b < blocks c -> 0 < k <= psz c ->
  baddr c b + lup c * psz c - k = paddr c (b * ppb c + lup c - 1) + (psz c - k) /\
  0 <= b * ppb c + lup c - 1 < pages c.
Proof using Hwf.
  intros Hb Hk. pose proof (wf_lup c Hwf). destruct (lu_page_addr c Hwf b (lup c - 1) Hb ltac:(lia)) as [_ Hp].
  split; [|lia]. rewrite baddr_eq, paddr_eq by (done || lia). rewrite (wf_bsz c Hwf). ring.
Qed.

(** Pages outside a block lie outside its address range. *)
Lemma page_outside b q : 0 <= b < blocks c -> 0 <= q < pages c -> ~ page_in_block c b q ->
  paddr c q + psz c <= baddr c b \/ baddr c b + bsz c <= paddr c q.
Proof using Hwf.
  intros Hb Hq Hn. rewrite baddr_eq, paddr_eq by (done || lia). rewrite (wf_bsz c Hwf).
  unfold page_in_block in Hn. pose proof (wf_psz c Hwf).
  assert (Hm : forall x y, x <= y -> x * psz c <= y * psz c) by (intros; apply Z.mul_le_mono_nonneg_r; lia).
  destruct (decide (q < b * ppb c)).
  - specialize (Hm (q + 1) (b * ppb c) ltac:(lia)). lia.
  - specialize (Hm ((b + 1) * ppb c) q ltac:(lia)). lia.
Qed.

Lemma baddr_sector b m : 0 < m -> phys_erase_block c mod m = 0 -> 0 <= b < blocks c -> forall k, (k * phys_erase_block c + baddr c b) mod m = 0.
Proof using Hwf.
  intros Hm He Hb k. rewrite baddr_eq by (done || lia). pose proof (wf_erase c Hwf).
  assert (D1 : (m | phys_erase_block c)) by (apply Z.mod_divide; lia).
  assert (D2 : (phys_erase_block c | bsz c)) by (apply Z.mod_divide; [lia|apply (wf_erase_bsz c Hwf)]).
  assert (D3 : (phys_erase_block c | phys_addr c)) by (apply Z.mod_divide; [lia|apply (wf_erase_addr c Hwf)]).
  apply Z.mod_divide; [lia|]. apply Z.divide_add_r; [by apply Z.divide_mul_r|].
  apply Z.divide_add_r; [by etrans|]. apply Z.divide_mul_r. by etrans.
Qed.
End geom.

Section erase.
  Context {F : Type} {hal : SpiffsHal F} {nor : NorHal F}.
  Implicit Types s : spiffs F.

Lemma fs_okx_coh coh coh' T s : fs_okx coh T s -> (forall q, coh' q -> coh q) -> fs_okx coh' T s.
Proof.
  intros (Hg & ca & Hc & Hinv) Hcoh. split; [done|]. exists ca. split; [done|].
  eapply cache_inv_view; [exact Hinv|]. auto.
Qed.

Lemma wp_hal_erase addr len (Q : Z -> spiffs F -> Prop) s :
  0 <= addr -> 0 <= len -> addr + len <= hal_cap (flash s) ->
  addr mod hal_sector (flash s) = 0 -> len mod hal_sector (flash s) = 0 ->
  (forall f', hal_cap f' = hal_cap (flash s) -> hal_sector f' = hal_sector (flash s) ->
     (forall x, hal_view f' x = blanked (view s) addr len x) -> Q SPIFFS_OK (set_flash f' s)) ->
  wp (SPIFFS_HAL_ERASE addr len) Q s.
Proof.
  intros Ha Hl Hc Hs1 Hs2 HQ. destruct (hal_erase_ok (flash s) addr len Ha Hl Hc Hs1 Hs2) as (f' & He & ? & ? & Hv).
  unfold SPIFFS_HAL_ERASE. wp_step. wp_step. rewrite He. wp_step. wp_step. wp_step. cbn. auto.
Qed.

(** The loop over the erase blocks blanks the logical block. *)
Lemma erase_loop_ok coh T s b :
  fs_okx coh T s -> 0 <= b < blocks (cfg s) ->
  let c := cfg s in
  wp (loop (Z.to_nat (s32 (bsz c)) + 1) (fun '(addr, size) =>
        if 0 <? size then
          _ ← SPIFFS_HAL_ERASE addr (phys_erase_block c);
          mret (Next (u32 (addr + phys_erase_block c), s32 (size - phys_erase_block c)))
        else mret (Exit (R := unit) (addr, size))) (baddr c b, s32 (bsz c)))
    (fun _ s' => s' = set_flash (flash s') s /\ fs_okx (fun q => coh q /\ ~ page_in_block c b q) T s' /\
       forall x, view s' x = blanked (view s) (baddr c b) (bsz c) x) s.
Proof.
  intros (Hg & ca & Hc & Hinv) Hb c. subst c. set (c := cfg s) in *. pose proof (fg_wf _ Hg) as Hwf. fold c in Hwf.
  pose proof (bsz_lt c Hwf). pose proof (wf_erase c Hwf) as Heb. pose proof (baddr_range c Hwf b Hb).
  pose proof (wf_end c Hwf). pose proof (wf_addr c Hwf). set (eb := phys_erase_block c) in *.
  pose proof (Z.div_mod (bsz c) eb ltac:(lia)) as Hdm. unfold eb in Hdm. rewrite (wf_erase_bsz c Hwf) in Hdm. fold eb in Hdm.
  rewrite s32_small by lia.
  apply wp_loop_ix with (n := Z.to_nat (bsz c / eb))
    (I := fun n '(addr, size) s' => exists k, 0 <= k <= bsz c / eb /\ n = Z.to_nat (bsz c / eb - k) /\
       addr = baddr c b + k * eb /\ size = bsz c - k * eb /\ s' = set_flash (flash s') s /\
       hal_cap (flash s') = hal_cap (flash s) /\ hal_sector (flash s') = hal_sector (flash s) /\
       forall x, view s' x = blanked (view s) (baddr c b) (k * eb) x).
  - intros n [addr size] s1 (k & Hk & -> & -> & -> & Hfr & Hcap & Hsec & Hv). wp_step.
    + assert (k + 1 <= bsz c / eb) by nia. destruct (fg_sector _ Hg) as [Hs0 Hs1]. fold c eb in Hs1.
      wp_step. apply wp_hal_erase.
      * nia.
      * lia.
      * rewrite Hcap. pose proof (fg_cap _ Hg) as Hcp. fold c in Hcp. nia.
      * rewrite Hsec, Z.add_comm. by apply baddr_sector.
      * by rewrite Hsec.
      * intros f' Hc' Hs' Hv'. wp_step. exists (Z.to_nat (bsz c / eb - (k + 1))). split; [lia|].
        exists (k + 1). split; [lia|]. split; [done|]. split; [rewrite u32_small by nia; ring|].
        split; [rewrite s32_small by nia; ring|]. split; [by rewrite Hfr|]. split; [by cbn; rewrite Hc'|].
        split; [by cbn; rewrite Hs'|]. intros x. unfold view at 1. cbn [flash set_flash]. rewrite Hv'. unfold blanked.
        rewrite Hv. unfold blanked. replace ((k + 1) * eb) with (k * eb + eb) by ring.
        destruct (in_span (baddr c b + k * eb) eb x) eqn:E1.
        -- apply in_span_spec in E1. by rewrite (proj2 (in_span_spec _ _ _)) by nia.
        -- apply in_span_false in E1. destruct (in_span (baddr c b) (k * eb) x) eqn:E2.
           ++ apply in_span_spec in E2. by rewrite (proj2 (in_span_spec _ _ _)) by lia.
           ++ apply in_span_false in E2. by rewrite (proj2 (in_span_false _ _ _)) by lia.
    + wp_step. assert (k = bsz c / eb) as -> by nia. assert (Hke : bsz c / eb * eb = bsz c) by lia. rewrite Hke in Hv.
      split; [done|]. split; [|done]. split.
      { destruct Hg. rewrite Hfr. split; cbn; auto; [by rewrite Hcap|by rewrite Hsec]. }
      exists ca. split; [by rewrite Hfr|]. replace (cfg s1) with c by (rewrite Hfr; done).
      apply (cache_inv_view _ _ _ _ _ _ _ Hinv). intros i cp Hi Hu Hr Hold [Hcp Hnb].
      rewrite (Hold Hcp). apply vread_ext. intros x Hx. rewrite Hv. unfold blanked.
      destruct (ci_pages _ _ _ _ _ Hinv _ _ Hi) as [_ _ _ Hread]. destruct (Hread Hu Hr) as (_ & Hq & _).
      pose proof (page_outside c Hwf b (cp_pix cp) Hb Hq Hnb). rewrite (proj2 (in_span_false _ _ _)); [done|]. fold c in Hx. lia.
  - assert (bsz c / eb <= bsz c) by (apply Z.div_le_upper_bound; nia). lia.
  - pose proof (Z.div_pos (bsz c) eb ltac:(lia) ltac:(lia)). exists 0. split; [lia|]. split; [f_equal; lia|].
    split; [lia|]. split; [lia|]. split; [by destruct s|]. split; [done|]. split; [done|].
    intros x. unfold blanked. by rewrite (proj2 (in_span_false _ _ _)) by lia.
Qed.

Definition count_erase s : spiffs F :=
  set_max_erase_count (next_erase_count (max_erase_count s)) (set_free_blocks (u32 (free_blocks s + 1)) s).

Lemma erase_block_ok coh T s b :
  fs_okx coh T s -> 2 <= T -> 0 <= b < blocks (cfg s) ->
  wp (spiffs_erase_block b) (fun r s' => r = SPIFFS_OK /\ flash_frame (count_erase s) s' /\
    fs_okx (fun q => coh q /\ ~ page_in_block (cfg s) b q) (T - 2) s' /\
    (forall x, view s' x = erased_view (cfg s) (view s) b (max_erase_count s) x) /\ keeps_uncached s s') s.
Proof.
  intros Hok HT Hb. pose proof Hok as (Hg & _). pose proof (fg_wf _ Hg) as Hwf. pose proof (wf_psz _ Hwf).
  pose proof (wf_lup _ Hwf). unfold spiffs_erase_block. wp_step. wp_step. wp_step.
  wp_apply (erase_loop_ok coh T s b Hok Hb). intros _ s1 (Hfr1 & Hok1 & Hv1). set (c := cfg s) in *.
  assert (Hin : page_in_block c b (b * ppb c + lup c - 1)) by (unfold page_in_block; lia).
  wp_step. wp_step. set (s1a := set_free_blocks _ s1).
  assert (Hok1a : fs_okx (fun q => coh q /\ ~ page_in_block c b q) T s1a) by (eapply fs_okx_same; [exact Hok1|done..]).
  assert (Hc1 : cfg s1a = c) by (unfold s1a; rewrite Hfr1; done).
  wp_step. wp_step. rewrite ec_paddr_eq, magic_paddr_eq by done.
  destruct (tail_addr c Hwf b 2 Hb ltac:(lia)) as [He2 Hp]. destruct (tail_addr c Hwf b 4 Hb ltac:(lia)) as [He4 _].
  wp_step. wp_apply (phys_wr_at _ T s1a); [exact Hok1a|lia|rewrite Hc1; exact He2|by rewrite Hc1|rewrite Hc1; lia|
    rewrite Hc1, length_enc16; lia|intros [_ Hn]; by destruct (Hn Hin)|].
  intros r s2 (-> & Hfr2 & Hok2 & Hv2 & Hk2). ok_res.
  assert (Hc2 : cfg s2 = c) by (rewrite Hfr2; exact Hc1).
  wp_step. wp_apply (phys_wr_at _ (T - 1) s2); [exact Hok2|lia|rewrite Hc2; exact He4|by rewrite Hc2|rewrite Hc2; lia|
    rewrite Hc2, length_enc16; lia|intros [_ Hn]; by destruct (Hn Hin)|].
  intros r s3 (-> & Hfr3 & Hok3 & Hv3 & Hk3). ok_res. wp_step. wp_step. wp_step. wp_step. wp_step.
  split; [done|]. split; [|split; [|split]].
  - unfold flash_frame, count_erase, next_erase_count. cbn [max_erase_count set_max_erase_count].
    rewrite Hfr3, Hfr2. unfold s1a. rewrite Hfr1. cbn.
    by destruct (u16 (max_erase_count s + 1) =? SPIFFS_OBJ_ID_IX_FLAG).
  - replace (T - 2) with (T - 1 - 1) by lia. eapply fs_okx_same; [exact Hok3|..];
      cbn; by destruct (_ =? SPIFFS_OBJ_ID_IX_FLAG).
  - intros x. transitivity (view s3 x); [cbn; by destruct (_ =? SPIFFS_OBJ_ID_IX_FLAG)|].
    rewrite Hv3. unfold erased_view. apply programmed_ext. intros y. rewrite Hv2.
    replace (max_erase_count s1a) with (max_erase_count s) by (unfold s1a; rewrite Hfr1; done).
    apply programmed_ext. exact Hv1.
  - intros q ca ca' Hca Hca' Hq. destruct Hok2 as (_ & ca2 & Hca2 & _).
    eapply (Hk3 q ca2); [done| |].
    + revert Hca'. cbn. by destruct (_ =? SPIFFS_OBJ_ID_IX_FLAG).
    + eapply (Hk2 q ca); [|done|done]. unfold s1a. cbn. by rewrite Hfr1.
Qed.

(** ** Dropping cached pages *)

Lemma drop_page_ok coh T s q :
  fs_okx coh T s ->
  wp (spiffs_cache_drop_page q) (fun _ s' => cache_frame s s' /\ fs_okx (fun p => coh p \/ p = q) T s') s.
Proof.
  intros (Hg & ca & Hc & Hinv). unfold spiffs_cache_drop_page. wp_step. wp_apply page_get_spec; [done|done|].
  destruct (ci_tick _ _ _ _ _ Hinv) as (_ & Hla & _). intros [i|] s1.
  - intros (k & cp & -> & Hk & Hu & Hr & Hpix & ->).
    pose proof (cache_inv_touch _ _ _ _ _ k cp (c_last_access ca) Hinv Hk ltac:(lia)) as Hinv1.
    set (cp0 := set_cp_last_access (c_last_access ca) cp) in *.
    assert (Hk1 : cpages (put_cpage ca k cp0) !! k = Some cp0)
      by (cbn; apply list_lookup_insert_eq; by eapply lookup_lt_Some).
    wp_step. eapply wp_get_cache; [done|]. wp_step. eapply wp_page_hdr; [exact Hk1|]. wp_step.
    change (cp_ix cp0) with (cp_ix cp). rewrite (po_ix _ _ _ _ _ _ _ (ci_pages _ _ _ _ _ Hinv _ _ Hk)).
    wp_apply (page_free_spec coh T); [done|exact Hinv1|exact Hk1|done|done|].
    intros r s2 (-> & ->). wp_step. split; [done|]. split; [by destruct Hg; split|]. eexists. split; [done|].
    eapply cache_inv_view; [eapply (cache_inv_free _ _ _ _ _ _ _ Hinv1 Hk1)|].
    intros i cpi Hi Hui Hri Hold [Hcp|Hq]; [auto|]. exfalso.
    unfold in_use in Hui. cbn [cpage_use_map set_cpage_use_map] in Hui. rewrite testbit_clear in Hui by lia. bools.
    apply insert_lookup_cases in Hi as [(<- & -> & _)|(Hne & Hi)]; [lia|].
    apply insert_lookup_cases in Hi as [(<- & -> & _)|(_ & Hi)]; [lia|].
    apply Hne. symmetry. eapply (ci_uniq _ _ _ _ _ Hinv); eauto. congruence.
  - intros [-> Hun]. wp_step. split; [by destruct s|]. split; [done|]. exists ca. split; [done|].
    eapply cache_inv_view; [exact Hinv|]. intros i cp Hi Hu Hr Hold [Hcp|Hq]; [auto|].
    exfalso. by eapply Hun.
Qed.

Lemma gc_erase_block_ok T s b :
  fs_ok T s -> 2 <= T -> 0 <= b < blocks (cfg s) ->
  wp (spiffs_gc_erase_block b) (fun r s' => r = SPIFFS_OK /\ flash_frame (count_erase s) s' /\ fs_ok (T - 2) s' /\
    forall x, view s' x = erased_view (cfg s) (view s) b (max_erase_count s) x) s.
Proof.
  intros Hok HT Hb. pose proof (fs_ok_wf _ _ Hok) as Hwf. unfold spiffs_gc_erase_block. wp_step. wp_step. wp_step.
  wp_apply erase_block_ok; [exact Hok|done|done|]. intros r s1 (-> & Hfr1 & Hok1 & Hv1 & _). ok_res.
  set (c := cfg s) in *. pose proof (ppb_pos c Hwf) as Hppb. pose proof (wf_pages c Hwf). pose proof (wf_pages_lt c Hwf).
  wp_step. eapply wp_mono.
  - apply wp_loop_ix with (n := Z.to_nat (ppb c))
      (I := fun n i s' => 0 <= i <= ppb c /\ n = Z.to_nat (ppb c - i) /\ cache_frame s1 s' /\
              fs_okx (fun q => ~ page_in_block c b q \/ b * ppb c <= q < b * ppb c + i) (T - 2) s')
      (Q := fun _ s' => cache_frame s1 s' /\ fs_ok (T - 2) s').
    + intros n i s2 (Hi & -> & Hfr2 & Hok2). wp_step.
      * wp_step. unfold SPIFFS_PAGE_FOR_BLOCK. rewrite u32_small, u16_small by nia.
        wp_apply drop_page_ok; [exact Hok2|]. intros _ s3 [Hfr3 Hok3]. wp_step.
        exists (Z.to_nat (ppb c - (i + 1))). split; [lia|]. split; [lia|]. split; [done|].
        split; [unfold cache_frame; rewrite Hfr3, Hfr2; done|].
        eapply fs_okx_coh; [exact Hok3|]. intros q [Hq|Hq]; [by left; left|].
        destruct (decide (q = b * ppb c + i)); [by right|left; right; lia].
      * wp_step. split; [done|]. eapply fs_okx_coh; [exact Hok2|]. intros q _. cbn. unfold page_in_block. lia.
    + lia.
    + split; [lia|]. split; [f_equal; lia|]. split; [by destruct s1|].
      eapply fs_okx_coh; [exact Hok1|]. intros q Hq. cbn in Hq. split; [done|]. unfold page_in_block in *. lia.
  - intros _ s2 [Hfr2 Hok2]. wp_step. split; [done|]. split; [unfold flash_frame; rewrite Hfr2, Hfr1; done|].
    split; [done|]. intros x. rewrite <- Hv1. by rewrite Hfr2.
Qed.
End erase.
