(* ===== verification/SpiffsMount.v ===== *)
(** Mounting ([spiffs_obj_lu_scan], [SPIFFS_mount]) and formatting ([SPIFFS_format]): the
    scan counts the lookup entries, rejects volumes without magic, and re-erases the one
    block an interrupted erase may have left; a formatted volume mounts as an empty file
    system. *)
From S2P Require Import Prelude CSem SpiffsTypes SpiffsGeom SpiffsCache SpiffsIo SpiffsLookup SpiffsSearch SpiffsPage SpiffsFind SpiffsPageOps SpiffsApi SpiffsErase.
From stdpp Require Import base list numbers option.

Open Scope Z_scope.

(** Magic and erase count of block [b]. *)
Definition magic_at (c : spiffs_config) (v : Z -> Z) (b : Z) : Z := dec16 (vread v (magic_addr c b) 2).
Definition ec_at (c : spiffs_config) (v : Z -> Z) (b : Z) : Z := dec16 (vread v (ec_addr c b) 2).

(** Block [b] of [v] is blank, with erase count [ec] and the magic. *)
Definition formatted (c : spiffs_config) (v : Z -> Z) (b ec : Z) : Prop :=
  forall x, baddr c b <= x < baddr c b + bsz c -> v x = erased_view c (fun _ => 255) b ec x.

Section contents.
Context (c : spiffs_config) (Hwf : wf_cfg c).

Lemma tail_range b : 0 <= b < blocks c ->
  baddr c b <= magic_addr c b /\ magic_addr c b + 2 = ec_addr c b /\ ec_addr c b + 2 <= baddr c b + bsz c.
Proof using Hwf.
  intros Hb. pose proof (wf_fit c Hwf). pose proof (wf_lup c Hwf). pose proof (wf_psz c Hwf).
  unfold magic_addr, ec_addr. rewrite (wf_bsz c Hwf). nia.
Qed.

(** [erased_view] on the block itself and outside. *)
Lemma erased_view_in v w b ec x : 0 <= b < blocks c -> baddr c b <= x < baddr c b + bsz c ->
  erased_view c v b ec x = erased_view c w b ec x.
Proof using Hwf.
  intros Hb Hx. unfold erased_view, programmed, blanked. by rewrite (proj2 (in_span_spec _ _ _) Hx).
Qed.

Lemma erased_view_out v b ec x : 0 <= b < blocks c -> ~ (baddr c b <= x < baddr c b + bsz c) ->
  erased_view c v b ec x = v x.
Proof using Hwf.
  intros Hb Hx. pose proof (tail_range b Hb). unfold erased_view.
  rewrite programmed_out by (rewrite length_enc16; lia). rewrite programmed_out by (rewrite length_enc16; lia).
  unfold blanked. by rewrite (proj2 (in_span_false _ _ _) Hx).
Qed.

Lemma blanked_erased v b : erased (blanked v (baddr c b) (bsz c)) (baddr c b) (bsz c).
Proof. intros x Hx. unfold blanked. by rewrite (proj2 (in_span_spec _ _ _) Hx). Qed.

(** What the searches and the scan see in an erased block. *)
Lemma erased_view_magic v b ec : 0 <= b < blocks c -> magic_at c (erased_view c v b ec) b = SPIFFS_MAGIC c.
Proof using Hwf.
  intros Hb. pose proof (tail_range b Hb). unfold magic_at, erased_view.
  change 2 with (zlen (enc16 (SPIFFS_MAGIC c))) at 1. rewrite vread_programmed.
  - rewrite dec16_enc16. unfold SPIFFS_MAGIC, u16. by rewrite Zmod_mod.
  - eapply (erased_compat _ _ _ 2); [|done|apply enc16_bytes]. intros x Hx.
    rewrite programmed_out by (rewrite length_enc16; lia). apply blanked_erased. lia.
Qed.

Lemma erased_view_ec v b ec : 0 <= b < blocks c -> ec_at c (erased_view c v b ec) b = u16 ec.
Proof using Hwf.
  intros Hb. pose proof (tail_range b Hb). unfold ec_at, erased_view.
  rewrite vread_programmed_out by (rewrite length_enc16; lia).
  change 2 with (zlen (enc16 ec)) at 1. rewrite vread_programmed; [apply dec16_enc16|].
  eapply (erased_compat _ _ _ 2); [|done|apply enc16_bytes]. intros x Hx. apply blanked_erased. lia.
Qed.

Lemma erased_view_lu v b ec e : 0 <= b < blocks c -> 0 <= e < lue c ->
  lu_id c (erased_view c v b ec) b e = SPIFFS_OBJ_ID_FREE.
Proof using Hwf.
  intros Hb He. destruct (lu_entry_addr c Hwf b e Hb He) as [_ Hfit]. unfold lu_id, erased_view.
  assert (2 <= psz c) by (pose proof (wf_psz c Hwf); lia). pose proof (wf_lup c Hwf).
  rewrite vread_programmed_out by (unfold magic_addr; lia). rewrite vread_programmed_out by (unfold ec_addr; lia).
  pose proof (tail_range b Hb). unfold dec16. rewrite !zget_vread by lia.
  unfold magic_addr, ec_addr in *. rewrite !blanked_erased by lia. done.
Qed.

Lemma formatted_eq v b ec : 0 <= b < blocks c -> formatted c v b ec ->
  magic_at c v b = SPIFFS_MAGIC c /\ ec_at c v b = u16 ec /\
  forall e, 0 <= e < lue c -> lu_id c v b e = SPIFFS_OBJ_ID_FREE.
Proof using Hwf.
  intros Hb Hf. pose proof (tail_range b Hb).
  assert (Hr : forall a n, baddr c b <= a -> a + n <= baddr c b + bsz c ->
            vread v a n = vread (erased_view c (fun _ => 255) b ec) a n).
  { intros a n Ha Hn. apply vread_ext. intros x Hx. apply Hf. lia. }
  split; [|split].
  - unfold magic_at. rewrite Hr by lia. by apply erased_view_magic.
  - unfold ec_at. rewrite Hr by lia. by apply erased_view_ec.
  - intros e He. destruct (lu_entry_addr c Hwf b e Hb He) as [_ Hfit]. unfold lu_id.
    rewrite Hr by (unfold ec_addr in *; lia). by apply erased_view_lu.
Qed.

Lemma blocks_disjoint b b' : 0 <= b < blocks c -> 0 <= b' < blocks c -> b <> b' ->
  baddr c b + bsz c <= baddr c b' \/ baddr c b' + bsz c <= baddr c b.
Proof using Hwf.
  intros Hb Hb' Hne. rewrite !baddr_eq by (done || lia). pose proof (bsz_lt c Hwf).
  assert (Hm : forall x y, x + 1 <= y -> x * bsz c + bsz c <= y * bsz c).
  { intros. replace (x * bsz c + bsz c) with ((x + 1) * bsz c) by ring. apply Z.mul_le_mono_nonneg_r; lia. }
  destruct (decide (b < b')); [left; specialize (Hm b b'); lia|right; specialize (Hm b' b); lia].
Qed.
End contents.

Section mount.
  Context {F : Type} {hal : SpiffsHal F} {nor : NorHal F}.
  Implicit Types s : spiffs F.

(** ** [SPIFFS_format] *)

Lemma format_ok T s :
  fs_okx (fun _ => False) T s -> config_magic s = SPIFFS_CONFIG_MAGIC -> mounted s = 0 -> 2 * blocks (cfg s) <= T ->
  wp SPIFFS_format (fun r s' => r = 0 /\ fs_okx (fun _ => False) (T - 2 * blocks (cfg s)) s' /\ cfg s' = cfg s /\
    (forall b, 0 <= b < blocks (cfg s) -> formatted (cfg s) (view s') b 0) /\
    (forall x, x < phys_addr (cfg s) \/ phys_addr (cfg s) + phys_size (cfg s) <= x -> view s' x = view s x)) s.
Proof.
  intros Hok Hm Hmnt HT. pose proof Hok as (Hg & _). pose proof (fg_wf _ Hg) as Hwf. set (c := cfg s) in *.
  pose proof (wf_pages_lt c Hwf) as Hpg. rewrite (wf_pages c Hwf) in Hpg. pose proof (ppb_pos c Hwf).
  assert (Hbl : blocks c < 65535) by nia.
  unfold SPIFFS_format. wp_step. wp_step. rewrite Hm, Z.eqb_refl. cbn [negb]. wp_step. wp_step. rewrite Hmnt.
  cbn [Z.eqb negb]. wp_step. wp_step. rewrite (fg_bc _ Hg). fold c. wp_step. eapply wp_mono.
  - apply wp_loop_ix with (n := Z.to_nat (blocks c))
      (I := fun n b s' => n = Z.to_nat (blocks c - b) /\ 0 <= b <= blocks c /\ cfg s' = c /\
              fs_okx (fun _ => False) (T - 2 * b) s' /\
              (forall b', 0 <= b' < b -> formatted c (view s') b' 0) /\
              (forall x, x < phys_addr c \/ phys_addr c + phys_size c <= x -> view s' x = view s x))
      (Q := fun r s' => (exists b, r = inl b) /\ cfg s' = c /\ fs_okx (fun _ => False) (T - 2 * blocks c) s' /\
              (forall b', 0 <= b' < blocks c -> formatted c (view s') b' 0) /\
              (forall x, x < phys_addr c \/ phys_addr c + phys_size c <= x -> view s' x = view s x)).
    + intros n b s1 (-> & Hb & Hc1 & Hok1 & Hfmt & Hout). wp_step.
      * wp_step. wp_step. set (s1a := set_max_erase_count 0 s1).
        assert (Hok1a : fs_okx (fun _ => False) (T - 2 * b) s1a) by (eapply fs_okx_same; [exact Hok1|done..]).
        assert (Hca : cfg s1a = c) by done.
        wp_step. wp_apply erase_block_ok; [exact Hok1a|lia|rewrite Hca; lia|].
        intros r s2 (-> & Hfr & Hok2 & Hv & _). ok_res. rewrite Hca in *. wp_step. rewrite u16_small by lia.
        exists (Z.to_nat (blocks c - (b + 1))). split; [lia|]. split; [done|]. split; [lia|].
        split; [rewrite Hfr; exact Hca|]. split.
        { replace (T - 2 * (b + 1)) with (T - 2 * b - 2) by lia. eapply fs_okx_coh; [exact Hok2|]. tauto. }
        split.
        -- intros b' Hb' x Hx. rewrite Hv. change (max_erase_count s1a) with 0.
           destruct (decide (b' = b)) as [->|Hne]; [apply erased_view_in; done || lia|].
           rewrite erased_view_out; [by apply Hfmt; [lia|]|done|lia|].
           pose proof (blocks_disjoint c Hwf b b' ltac:(lia) ltac:(lia) ltac:(lia)). lia.
        -- intros x Hx. rewrite Hv. rewrite erased_view_out; [by apply Hout|done|lia|].
           pose proof (baddr_range c Hwf b ltac:(lia)). lia.
      * wp_step. assert (b = blocks c) as -> by lia. split; [by eexists|]. done.
    + lia.
    + split; [f_equal; lia|]. split; [pose proof (wf_blocks c Hwf); lia|]. split; [done|].
      split; [by replace (T - 2 * 0) with T by lia|]. split; [intros; lia|done].
  - intros r s' ((b & ->) & Hc & Hok' & Hf & Hout). wp_step. done.
Qed.

(** ** [spiffs_obj_lu_scan]

    Blocks without magic, and the erase counts found, over the first [n] blocks. *)
Definition bad_blocks (c : spiffs_config) (v : Z -> Z) (n : Z) : list Z :=
  filter (fun b => magic_at c v b <> SPIFFS_MAGIC c) (seqZ 0 n).

Definition erase_counts (c : spiffs_config) (v : Z -> Z) (n : Z) : list Z :=
  filter (fun ec => ec <> SPIFFS_OBJ_ID_FREE) (ec_at c v <$> seqZ 0 n).

Definition ec_min (c : spiffs_config) (v : Z -> Z) (n : Z) : Z := foldl Z.min SPIFFS_OBJ_ID_FREE (erase_counts c v n).
Definition ec_max (c : spiffs_config) (v : Z -> Z) (n : Z) : Z := foldl Z.max 0 (erase_counts c v n).

Lemma seqZ_snoc n : 0 <= n -> seqZ 0 (n + 1) = seqZ 0 n ++ [n].
Proof. intros. rewrite seqZ_app by lia. done. Qed.

Lemma bad_blocks_snoc c v n : 0 <= n -> bad_blocks c v (n + 1) =
  bad_blocks c v n ++ (if magic_at c v n =? SPIFFS_MAGIC c then [] else [n]).
Proof.
  intros. unfold bad_blocks. rewrite seqZ_snoc, list.filter_app by lia. f_equal. rewrite filter_cons, filter_nil.
  destruct (magic_at c v n =? SPIFFS_MAGIC c) eqn:E; bools; [rewrite decide_False by tauto|rewrite decide_True by done]; done.
Qed.

Lemma erase_counts_snoc c v n : 0 <= n -> erase_counts c v (n + 1) =
  erase_counts c v n ++ (if ec_at c v n =? SPIFFS_OBJ_ID_FREE then [] else [ec_at c v n]).
Proof.
  intros. unfold erase_counts. rewrite seqZ_snoc, fmap_app, list.filter_app by lia. f_equal. cbn [fmap list_fmap].
  rewrite filter_cons, filter_nil.
  destruct (ec_at c v n =? SPIFFS_OBJ_ID_FREE) eqn:E; bools; [rewrite decide_False by tauto|rewrite decide_True by done]; done.
Qed.

Lemma ec_step c v n : 0 <= n ->
  ec_min c v (n + 1) = (if ec_at c v n =? SPIFFS_OBJ_ID_FREE then ec_min c v n else Z.min (ec_min c v n) (ec_at c v n)) /\
  ec_max c v (n + 1) = (if ec_at c v n =? SPIFFS_OBJ_ID_FREE then ec_max c v n else Z.max (ec_max c v n) (ec_at c v n)).
Proof.
  intros Hn. unfold ec_min, ec_max. rewrite erase_counts_snoc, !foldl_app by done.
  by destruct (ec_at c v n =? SPIFFS_OBJ_ID_FREE).
Qed.

Lemma bad_blocks_mono c v n m : 0 <= n <= m -> (length (bad_blocks c v n) <= length (bad_blocks c v m))%nat.
Proof.
  intros H. unfold bad_blocks. replace m with (n + (m - n)) by lia.
  rewrite seqZ_app, list.filter_app, length_app by lia. lia.
Qed.

(** The block to erase again: [IX_NONE] if all blocks have their magic. *)
Definition unerased (l : list Z) : Z := match l with [] => IX_NONE | b :: _ => b end.

Lemma rd_obj_id_lu2 T s fh addr b : fs_ok T s -> 1 <= T -> 0 <= b < blocks (cfg s) ->
  addr = magic_addr (cfg s) b \/ addr = ec_addr (cfg s) b ->
  wp (rd_obj_id (Z.lor SPIFFS_OP_T_OBJ_LU2 SPIFFS_OP_C_READ) fh addr) (fun r s' =>
    r = (SPIFFS_OK, dec16 (vread (view s) addr 2)) /\ cache_frame s s' /\ fs_ok (T - 1) s' /\ keeps_uncached s s') s.
Proof.
  intros Hok HT Hb Ha. pose proof (fs_ok_wf _ _ Hok) as Hwf. pose proof (wf_psz _ Hwf).
  unfold rd_obj_id. wp_step. wp_apply phys_rd_lu2_ok; [done|done| |done|].
  - destruct (tail_addr _ Hwf b 2 Hb ltac:(lia)) as [H2 Hp]. destruct (tail_addr _ Hwf b 4 Hb ltac:(lia)) as [H4 _].
    unfold magic_addr, ec_addr, in_page, sizeof_obj_id in *.
    destruct Ha as [-> | ->]; [rewrite H4|rewrite H2]; do 2 eexists; (split; [reflexivity|]); lia.
  - intros r s' (-> & ? & ? & ?). wp_step. done.
Qed.

Lemma keeps_uncached_refl s : keeps_uncached s s.
Proof. intros q ca ca' H1 H2. by assert (ca = ca') as -> by congruence. Qed.

(** The second half of one iteration: the erase count of block [b]. *)
Lemma scan_ec_step T s s2 b u' :
  wf_cfg (cfg s) -> 0 <= b < blocks (cfg s) -> 2 * (b + 1) <= T -> cache_frame s s2 -> fs_ok (T - 2 * b - 1) s2 ->
  keeps_uncached s s2 ->
  let c := cfg s in let v := view s in
  (length (bad_blocks c v (b + 1)) <= 1)%nat -> u' = unerased (bad_blocks c v (b + 1)) ->
  wp (e ← rd_obj_id (Z.lor SPIFFS_OP_T_OBJ_LU2 SPIFFS_OP_C_READ) 0 (ec_addr c b);
      if e.1 <? SPIFFS_OK then mret (Return e.1)
      else if negb (e.2 =? SPIFFS_OBJ_ID_FREE)
      then mret (Next (u16 (b + 1), u', Z.min (ec_min c v b) e.2, Z.max (ec_max c v b) e.2))
      else mret (Next (u16 (b + 1), u', ec_min c v b, ec_max c v b)))
    (fun r s' => match r with
       | Next l => l = (b + 1, u', ec_min c v (b + 1), ec_max c v (b + 1)) /\ cache_frame s s' /\
           fs_ok (T - 2 * (b + 1)) s' /\ keeps_uncached s s'
       | _ => False end) s2.
Proof.
  intros Hwf Hb HT Hfr Hok Hk c v Hl Hu. subst c v. set (c := cfg s) in *. set (v := view s) in *.
  pose proof (wf_pages_lt c Hwf) as Hpg. rewrite (wf_pages c Hwf) in Hpg. pose proof (ppb_pos c Hwf).
  assert (Hbl : blocks c < 65535) by nia. destruct (ec_step c v b ltac:(lia)) as [Hmn Hmx].
  assert (Hc2 : cfg s2 = c) by (rewrite Hfr; done). assert (Hv2 : view s2 = v) by (rewrite Hfr; done).
  wp_step. wp_apply (rd_obj_id_lu2 (T - 2 * b - 1) s2 0 _ b); [done|lia|rewrite Hc2; lia|right; by rewrite Hc2|].
  intros r s3 (-> & Hfr3 & Hok3 & Hk3). ok_res. rewrite Hv2. fold (ec_at c v b). rewrite u16_small by lia.
  assert (Hfin : cache_frame s s3 /\ fs_ok (T - 2 * (b + 1)) s3 /\ keeps_uncached s s3).
  { split; [unfold cache_frame; rewrite Hfr3, Hfr; done|].
    split; [by replace (T - 2 * (b + 1)) with (T - 2 * b - 1 - 1) by lia|].
    eapply keeps_uncached_trans; [|exact Hk|exact Hk3]. destruct Hok as (_ & ca & ? & _). by exists ca. }
  destruct (ec_at c v b =? SPIFFS_OBJ_ID_FREE) eqn:Ee; cbn [negb]; wp_step; rewrite Hmn, Hmx; done.
Qed.

Lemma scan_loop_ok T s :
  fs_ok T s -> 2 * blocks (cfg s) <= T ->
  let c := cfg s in let v := view s in
  wp (loop (Z.to_nat (blocks c) + 1) scan_block_body (0, IX_NONE, SPIFFS_OBJ_ID_FREE, 0))
    (fun r s' => cache_frame s s' /\ fs_ok (T - 2 * blocks c) s' /\ keeps_uncached s s' /\
       match r with
       | inl (_, u, mn, mx) => (length (bad_blocks c v (blocks c)) <= 1)%nat /\
           u = unerased (bad_blocks c v (blocks c)) /\ mn = ec_min c v (blocks c) /\ mx = ec_max c v (blocks c)
       | inr res => res = SPIFFS_ERR_NOT_A_FS /\ (2 <= length (bad_blocks c v (blocks c)))%nat
       end) s.
Proof.
  intros Hok HT c v. subst c v. set (c := cfg s) in *. set (v := view s). pose proof (fs_ok_wf _ _ Hok) as Hwf. fold c in Hwf.
  pose proof (wf_pages_lt c Hwf) as Hpg. rewrite (wf_pages c Hwf) in Hpg. pose proof (ppb_pos c Hwf).
  assert (Hbl : blocks c < 65535) by nia. pose proof (wf_blocks c Hwf).
  apply wp_loop_ix with (n := Z.to_nat (blocks c))
    (I := fun n '(b, u, mn, mx) s' => n = Z.to_nat (blocks c - b) /\ 0 <= b <= blocks c /\ cache_frame s s' /\
       fs_ok (T - 2 * b) s' /\ keeps_uncached s s' /\ (length (bad_blocks c v b) <= 1)%nat /\
       u = unerased (bad_blocks c v b) /\ mn = ec_min c v b /\ mx = ec_max c v b).
  - intros n [[[b u] mn] mx] s1 (-> & Hb & Hfr & Hok1 & Hk & Hlen & -> & -> & ->).
    assert (Hc1 : cfg s1 = c) by (rewrite Hfr; done). assert (Hv1 : view s1 = v) by (rewrite Hfr; done).
    unfold scan_block_body. wp_step. wp_step. wp_step. wp_step. rewrite (fs_ok_bc _ _ Hok1), Hc1. wp_step.
    2: { wp_step. assert (b = blocks c) as -> by lia. done. }
    rewrite magic_paddr_eq, ec_paddr_eq by (done || lia). wp_step.
    wp_apply (rd_obj_id_lu2 (T - 2 * b) s1 0 _ b); [done|lia|rewrite Hc1; lia|left; by rewrite Hc1|].
    intros r s2 (-> & Hfr2 & Hok2 & Hk2). ok_res. rewrite Hv1. fold (magic_at c v b).
    assert (Hc2 : cfg s2 = c) by (rewrite Hfr2; done). assert (Hv2 : view s2 = v) by (rewrite Hfr2; done).
    assert (Hfr12 : cache_frame s s2) by (unfold cache_frame; rewrite Hfr2, Hfr; done).
    assert (Hk12 : keeps_uncached s s2).
    { eapply keeps_uncached_trans; [|exact Hk|exact Hk2]. destruct Hok1 as (_ & ca & ? & _). by exists ca. }
    pose proof (bad_blocks_snoc c v b ltac:(lia)) as Hbs.
    assert (Hu : unerased (bad_blocks c v b) = IX_NONE <-> bad_blocks c v b = []).
    { destruct (bad_blocks c v b) as [|b0 l] eqn:El; [done|]. cbn. split; [|done]. intros ->.
      assert (IX_NONE ∈ bad_blocks c v b) as Hin by (rewrite El; left).
      unfold bad_blocks in Hin. apply list_elem_of_filter in Hin as [_ Hin]. apply elem_of_seqZ in Hin. unfold IX_NONE in Hin. lia. }
    pose proof (fun u' => scan_ec_step T s s2 b u' Hwf ltac:(fold c; lia) ltac:(lia) Hfr12 Hok2 Hk12) as Hec. cbv zeta in Hec. fold c v in Hec.
    destruct (magic_at c v b =? SPIFFS_MAGIC c) eqn:Em; cbn [negb andb]; bools.
    + (* the magic is there *)
      rewrite app_nil_r in Hbs. rewrite Hbs in Hec.
      eapply wp_mono; [by apply Hec|]. intros [[[[b' u'] mn'] mx']|l|r] s3; [|done|done].
        intros ([= -> -> -> ->] & Hf3 & Hok3 & Hk3). exists (Z.to_nat (blocks c - (b + 1))). split; [lia|].
        split; [done|]. split; [lia|]. do 3 (split; [done|]). rewrite Hbs. split; [first [exact Hlen|cbn; lia]|done].
    + destruct (unerased (bad_blocks c v b) =? IX_NONE) eqn:Eu; cbn [negb]; bools.
      * apply Hu in Eu. rewrite Eu in Hbs. rewrite Hbs in Hec. eapply wp_mono; [apply Hec; [cbn; lia|done]|]. intros [[[[b' u'] mn'] mx']|l|r] s3; [|done|done].
        intros ([= -> -> -> ->] & Hf3 & Hok3 & Hk3). exists (Z.to_nat (blocks c - (b + 1))). split; [lia|].
        split; [done|]. split; [lia|]. do 3 (split; [done|]). rewrite Hbs. split; [first [exact Hlen|cbn; lia]|done].
      * wp_step. split; [unfold cache_frame; rewrite Hfr2, Hfr; done|].
        split; [eapply fs_okx_weaken; [exact Hok2|lia]|]. split; [done|]. split; [done|].
        pose proof (bad_blocks_mono c v (b + 1) (blocks c) ltac:(lia)) as Hm. rewrite Hbs, length_app in Hm.
        destruct (bad_blocks c v b); [done|]. cbn in Hm. lia.
  - lia.
  - split; [f_equal; lia|]. split; [lia|]. split; [by destruct s|].
    split; [by replace (T - 2 * 0) with T by lia|]. split; [apply keeps_uncached_refl|]. replace (bad_blocks c v 0) with (@nil Z) by done. split; [cbn; lia|done].
Qed.

(** ** Counting the lookup entries *)

(** The number of entries among the first [n] of the volume that satisfy [f]. *)
Definition census (c : spiffs_config) (v : Z -> Z) (f : Z -> Z -> bool) (n : Z) : Z :=
  zlen (filter (fun q => f (lu_id c v (blk c q) (ent c q)) (ent c q) = true) (seqZ 0 n)).

Definition is_free_block (id e : Z) : bool := (id =? SPIFFS_OBJ_ID_FREE) && (e =? 0).
Definition is_deleted (id e : Z) : bool := id =? SPIFFS_OBJ_ID_DELETED.
Definition is_allocated (id e : Z) : bool := negb (id =? SPIFFS_OBJ_ID_FREE) && negb (id =? SPIFFS_OBJ_ID_DELETED).

Lemma census_snoc c v f n : 0 <= n ->
  census c v f (n + 1) = census c v f n + (if f (lu_id c v (blk c n) (ent c n)) (ent c n) then 1 else 0).
Proof.
  intros. unfold census, zlen. rewrite seqZ_snoc, list.filter_app, length_app, filter_cons, filter_nil by done.
  destruct (f _ _) eqn:E; [rewrite decide_True by done|rewrite decide_False by congruence]; cbn; lia.
Qed.

Lemma census_range c v f n : 0 <= n -> 0 <= census c v f n <= n.
Proof.
  intros. unfold census. split; [apply zlen_nonneg|]. unfold zlen.
  pose proof (length_filter (fun q => f (lu_id c v (blk c q) (ent c q)) (ent c q) = true) (seqZ 0 n)) as Hl.
  rewrite length_seqZ in Hl. lia.
Qed.

(** The state with the three counters set. *)
Definition with_counts (fb pd pa : Z) s : spiffs F :=
  set_stats_p_allocated pa (set_stats_p_deleted pd (set_free_blocks fb s)).

Definition counted (c : spiffs_config) (v : Z -> Z) (s0 : spiffs F) (p : Z) s : Prop :=
  exists s1, lu_frame s0 s1 /\
    s = with_counts (census c v is_free_block p) (census c v is_deleted p) (census c v is_allocated p) s1.

(** One entry counted. *)
Lemma scan_v_ok c v s0 p u s :
  0 <= p < 65535 -> counted c v s0 p s ->
  wp (spiffs_obj_lu_scan_v (lu_id c v (blk c p) (ent c p)) (blk c p) (ent c p) u) (fun r s' =>
    r = (SPIFFS_VIS_COUNTINUE, u) /\ counted c v s0 (p + 1) s' /\ lu_work s' = lu_work s /\
    cache s' = cache s /\ flash s' = flash s /\ cfg s' = cfg s /\ block_count s' = block_count s) s.
Proof.
  intros Hp (s1 & Hf & ->).
  pose proof (census_range c v is_free_block p ltac:(lia)). pose proof (census_range c v is_deleted p ltac:(lia)).
  pose proof (census_range c v is_allocated p ltac:(lia)).
  unfold spiffs_obj_lu_scan_v. set (id := lu_id c v (blk c p) (ent c p)). set (e := ent c p).
  assert (Hfin : forall fb pd pa s', s' = with_counts fb pd pa s1 -> fb = census c v is_free_block (p + 1) -> pd = census c v is_deleted (p + 1) ->
    pa = census c v is_allocated (p + 1) ->
    counted c v s0 (p + 1) s').
  { intros fb pd pa s' -> -> -> ->. by exists s1. }
  rewrite !census_snoc in Hfin by lia. fold id e in Hfin. unfold is_free_block at 2, is_deleted at 2, is_allocated at 2 in Hfin.
  assert (Hfd : id = SPIFFS_OBJ_ID_FREE -> (id =? SPIFFS_OBJ_ID_DELETED) = false) by (by intros ->).
  destruct (id =? SPIFFS_OBJ_ID_FREE) eqn:E1; [destruct (e =? 0) eqn:E2|destruct (id =? SPIFFS_OBJ_ID_DELETED) eqn:E3];
    cbn [negb andb] in *; try rewrite (Hfd ltac:(by bools)) in Hfin;
    (wp_step; wp_step; wp_step; split; [done|]; split; [|done]).
  all: match goal with |- counted _ _ _ _ ?S =>
    apply (Hfin (free_blocks S) (stats_p_deleted S) (stats_p_allocated S) S); [reflexivity|..] end;
    cbn; rewrite ?u32_small by lia; lia.
Qed.

(** The visitor run of the scan counts all entries of the volume. *)
Lemma scan_visit_ok T s :
  fs_ok T s -> ticks (cfg s) 0 <= T -> free_blocks s = 0 -> stats_p_deleted s = 0 -> stats_p_allocated s = 0 ->
  let n := blocks (cfg s) * lue (cfg s) in
  wp (spiffs_obj_lu_find_entry_visitor 0 0 0 0 (Some spiffs_obj_lu_scan_v) tt 0 0)
    (fun r s' => lr_res unit r = SPIFFS_VIS_END /\ fs_ok (T - ticks (cfg s) 0) s' /\
       counted (cfg s) (view s) s n s') s.
Proof.
  intros Hok HT Hfb Hpd Hpa n. subst n. set (c := cfg s) in *. pose proof (fs_ok_wf _ _ Hok) as Hwf. fold c in Hwf.
  pose proof (lue_range c Hwf). pose proof (wf_blocks c Hwf). pose proof (wf_pages_lt c Hwf). pose proof (wf_pages c Hwf).
  pose proof (lue_eq c Hwf). pose proof (wf_lup c Hwf). assert (Hn : blocks c * lue c < 65535) by nia.
  eapply (full_scan T s _ (fun p (u : unit) s1 => 0 <= p <= blocks c * lue c /\ counted c (view s) s p s1) _ 0); try done; try lia.
  - intros p u s1 (Hp & s2 & Hf & ->). rewrite Hf. done.
  - intros p u s1 s2 (Hp & s3 & Hf & ->) Hf2. split; [done|]. rewrite Hf2. unfold counted.
    eexists (set_lu_work (lu_work s2) (set_cache (cache s2) s3)). split; [|done].
    unfold lu_frame. cbn. rewrite Hf. done.
  - intros T1 p u s1 Hp [_ Hc] Hok1 HT1. wp_apply (scan_v_ok c (view s) s p u s1); [fold c in Hp; lia|done|].
    intros r s2 (-> & Hc2 & Hlw & Hca & Hfl & Hcf & Hbc). left. split; [done|]. split; [split; [fold c in Hp; lia|done]|].
    split; [done|]. eapply fs_okx_same; [|exact Hcf|exact Hbc|exact Hfl|exact Hca].
    by replace (T1 - 0) with T1 by lia.
  - intros u s1 bix ent1 [_ Hc] Hok1. cbn. done.
  - split; [nia|]. exists s. split; [apply lu_frame_refl|]. unfold with_counts, census. cbn.
    destruct s; cbn in *; by subst.
Qed.

(** No flash page is cached. *)
Definition nothing_cached s : Prop := forall q ca, cache s = Some ca -> uncached q ca.

Lemma census_ext c v w f n : (forall x, v x = w x) -> census c v f n = census c w f n.
Proof.
  intros H. unfold census. f_equal. apply list_filter_iff. intros q. unfold lu_id.
  by rewrite (vread_ext v w) by auto.
Qed.

(** The parts of [fs] the scan does not touch. *)
Definition scan_rest s :=
  (cfg s, block_count s, free_cursor_block_ix s, free_cursor_obj_lu_entry s, cursor_block_ix s, cursor_obj_lu_entry s,
   work s, fds s, fd_count s, err_code s, cleaning s, cache_size s, mounted s, config_magic s).

Lemma scan_rest_inv s s' : scan_rest s = scan_rest s' ->
  config_magic s = config_magic s' /\ err_code s = err_code s' /\ cleaning s = cleaning s' /\
  free_cursor_block_ix s = free_cursor_block_ix s' /\ free_cursor_obj_lu_entry s = free_cursor_obj_lu_entry s' /\
  cursor_block_ix s = cursor_block_ix s' /\ cursor_obj_lu_entry s = cursor_obj_lu_entry s' /\
  fds s = fds s' /\ fd_count s = fd_count s' /\ mounted s = mounted s'.
Proof. intros H. injection H as ????? ? ????????. auto 20. Qed.

(** What the scan leaves in [fs]: the erase count [ec] and the census of [v]. *)
Definition scanned (v : Z -> Z) (ec : Z) s0 s : Prop :=
  let n := blocks (cfg s) * lue (cfg s) in
  max_erase_count s = ec /\ (forall x, view s x = v x) /\
  free_blocks s = census (cfg s) v is_free_block n /\ stats_p_deleted s = census (cfg s) v is_deleted n /\
  stats_p_allocated s = census (cfg s) v is_allocated n /\
  scan_rest s = scan_rest s0.

(** Accesses the scan needs at most. *)
Definition scan_ticks (c : spiffs_config) : Z := 2 * blocks c + 2 + ticks c 0.

(** The second half of the scan: reset the counters, count. *)
Lemma scan_count_ok T s0 s ec v :
  fs_ok T s -> ticks (cfg s) 0 <= T -> max_erase_count s = ec -> (forall x, view s x = v x) ->
  scan_rest s = scan_rest s0 ->
  wp (modify (set_free_blocks 0);;
      modify (set_stats_p_allocated 0);;
      modify (set_stats_p_deleted 0);;
      r ← spiffs_obj_lu_find_entry_visitor 0 0 0 0 (Some spiffs_obj_lu_scan_v) tt 0 0;
      mret (if lr_res unit r =? SPIFFS_VIS_END then SPIFFS_OK else lr_res unit r))
    (fun r s' => r = SPIFFS_OK /\ fs_ok (T - ticks (cfg s) 0) s' /\ cfg s' = cfg s /\ scanned v ec s0 s') s.
Proof.
  intros Hok HT Hec Hv Hs. wp_step. wp_step. wp_step. wp_step. wp_step. wp_step. wp_step.
  set (sa := set_stats_p_deleted 0 (set_stats_p_allocated 0 (set_free_blocks 0 s))).
  assert (Hoka : fs_ok T sa) by (eapply fs_okx_same; [exact Hok|done..]).
  wp_apply (scan_visit_ok T sa Hoka HT); [done..|]. intros r s' (-> & Hok' & (s1 & Hf & ->)). ok_res. wp_step.
  split; [done|]. split; [done|].
  assert (Hc1 : cfg s1 = cfg s) by (rewrite Hf; done). split; [done|].
  unfold scanned, with_counts. cbn. rewrite Hc1. change (cfg sa) with (cfg s). change (view sa) with (view s).
  rewrite !(census_ext (cfg s) (view s) v) by done.
  split; [rewrite Hf; exact Hec|]. split; [intros x; rewrite <- Hv; by rewrite Hf|].
  do 3 (split; [done|]). rewrite <- Hs. by rewrite Hf.
Qed.

Lemma scan_ok T s :
  fs_ok T s -> nothing_cached s \/ bad_blocks (cfg s) (view s) (blocks (cfg s)) = [] -> scan_ticks (cfg s) <= T ->
  let c := cfg s in let v := view s in let bad := bad_blocks c v (blocks c) in
  let ec := scan_erase_count (ec_min c v (blocks c)) (ec_max c v (blocks c)) in
  wp spiffs_obj_lu_scan (fun r s' => cfg s' = cfg s /\
    match bad with
    | [] => r = SPIFFS_OK /\ fs_ok (T - scan_ticks c) s' /\ scanned v ec s s'
    | [b] => r = SPIFFS_OK /\ fs_ok (T - scan_ticks c) s' /\ scanned (erased_view c v b ec) (next_erase_count ec) s s'
    | _ => r = SPIFFS_ERR_NOT_A_FS /\ cache_frame s s'
    end) s.
Proof.
  intros Hok Hnc HT c v bad ec. assert (Hnc' : bad <> [] -> nothing_cached s) by (intros Hb; by destruct Hnc). clear Hnc.
  subst c v. set (c := cfg s) in *. set (v := view s) in *.
  pose proof (fs_ok_wf _ _ Hok) as Hwf. fold c in Hwf. pose proof (ticks_nonneg c 0 Hwf ltac:(lia)).
  pose proof (wf_blocks c Hwf). unfold scan_ticks in *. fold c in HT.
  unfold spiffs_obj_lu_scan. wp_step. wp_step. rewrite (fs_ok_bc _ _ Hok). fold c. wp_step.
  wp_apply (scan_loop_ok T s Hok ltac:(fold c; lia)). fold c v.
  intros [[[[b0 u] mn] mx]|res] s1 (Hfr & Hok1 & Hk & Hr).
  2: { destruct Hr as [-> Hl]. wp_step. split; [by rewrite Hfr|]. subst bad.
       destruct (bad_blocks c v (blocks c)) as [|b1 [|b2 l]]; [cbn in Hl; lia|cbn in Hl; lia|done]. }
  destruct Hr as (Hl & -> & -> & ->). fold ec bad in Hl |- *.
  wp_step. wp_step. set (s1a := set_max_erase_count ec s1).
  assert (Hok1a : fs_ok (T - 2 * blocks c) s1a) by (eapply fs_okx_same; [exact Hok1|done..]).
  assert (Hfra : s1a = set_max_erase_count ec (set_cache (cache s1) s)) by (unfold s1a; rewrite Hfr; done).
  assert (Hca : cfg s1a = c) by (rewrite Hfra; done). assert (Hva : view s1a = v) by (rewrite Hfra; done).
  assert (Hbad : forall b, b ∈ bad -> 0 <= b < blocks c).
  { intros b Hb. unfold bad, bad_blocks in Hb. apply list_elem_of_filter in Hb as [_ Hb]. apply elem_of_seqZ in Hb. lia. }
  destruct bad as [|b [|b2 l]]; [| |cbn in Hl; lia]; cbn [unerased].
  - rewrite Z.eqb_refl. cbn [negb]. wp_step. wp_step. ok_res.
    wp_apply (scan_count_ok _ s s1a ec v Hok1a); [rewrite Hca; lia|done|by rewrite Hva|by rewrite Hfra|].
    intros r s' (-> & Hok' & Hc' & Hsc). rewrite Hca in *. split; [done|]. split; [done|].
    split; [|done]. eapply fs_okx_weaken; [exact Hok'|lia].
  - specialize (Hbad b ltac:(left)). pose proof (wf_pages_lt c Hwf) as Hpg. rewrite (wf_pages c Hwf) in Hpg.
    pose proof (ppb_pos c Hwf). replace (b =? IX_NONE) with false by (symmetry; apply Z.eqb_neq; unfold IX_NONE; nia).
    cbn [negb]. wp_step. wp_apply erase_block_ok; [exact Hok1a|lia|by rewrite Hca|].
    intros r s2 (-> & Hfr2 & Hok2 & Hv2 & Hk2). ok_res. rewrite Hca, Hva in *.
    assert (Hok2' : fs_ok (T - 2 * blocks c - 2) s2).
    { destruct Hok2 as (Hg & ca2 & Hca2 & Hinv2). split; [done|]. exists ca2. split; [done|].
      eapply cache_inv_view; [exact Hinv2|]. intros i cp Hi Hu Hwr. exfalso.
      destruct Hok as (_ & ca0 & Hca0 & _). destruct Hok1a as (_ & ca1 & Hca1 & _).
      eapply (Hk2 (cp_pix cp) ca1); [exact Hca1|exact Hca2| |exact Hi|exact Hu|exact Hwr|done].
      eapply (Hk _ ca0); [exact Hca0| |by apply Hnc']. rewrite Hfra in Hca1. exact Hca1. }
    assert (Hc2 : cfg s2 = c) by (rewrite Hfr2; exact Hca).
    wp_apply (scan_count_ok _ s s2 (next_erase_count ec) (erased_view c v b ec) Hok2'); [rewrite Hc2; lia| | | |].
    + rewrite Hfr2. done.
    + intros x. rewrite Hv2. done.
    + rewrite Hfr2. transitivity (scan_rest s1a); [done|]. by rewrite Hfra.
    + intros r s' (-> & Hok' & Hc' & Hsc). rewrite Hc2 in *. split; [done|]. split; [done|].
      split; [|done]. eapply fs_okx_weaken; [exact Hok'|lia].
Qed.

(** ** [spiffs_cache_init] and [SPIFFS_mount] *)

Lemma cache_mask_ones n : (n <= 31)%nat -> cache_mask n 0 = Z.ones (Z.of_nat n).
Proof. intros Hn. do 32 (destruct n as [|n]; [reflexivity|]). lia. Qed.

(** The size of the cache memory [SPIFFS_mount] uses: aligned, and at most what 32
    pages need. *)
Definition mount_cache_size (config : spiffs_config) (cache_p cache_sz : Z) : Z :=
  let psz := log_page_size config in
  let c_lsb := u8 cache_p mod ptr_size in
  let cache_sz := if c_lsb =? 0 then cache_sz else u32 (cache_sz - (ptr_size - c_lsb)) in
  let cache_sz := cache_sz - cache_sz mod ptr_size in
  if u32 (psz * 32) <? cache_sz then u32 (psz * 32) else cache_sz.

Lemma cache_init_ok s :
  fs_geom s -> sizeof_spiffs_cache + SPIFFS_CACHE_PAGE_SIZE (cfg s) <= cache_size s <= psz (cfg s) * 32 ->
  psz (cfg s) <= 65536 ->
  wp (spiffs_cache_init true) (fun _ s' => cache_frame s s' /\ fs_ok (2 ^ 32 - 1) s' /\ nothing_cached s') s.
Proof.
  intros Hg Hsz Hpl. pose proof (fg_wf _ Hg) as Hwf. pose proof (wf_psz _ Hwf).
  unfold spiffs_cache_init. cbn [negb]. wp_step. wp_step. wp_step. wp_step.
  unfold SPIFFS_CACHE_PAGE_SIZE, sizeof_spiffs_cache, sizeof_spiffs_cache_page in *.
  rewrite (u32_small (20 + psz (cfg s))) in * by lia. rewrite (proj2 (Z.ltb_ge _ _)) by lia.
  rewrite (u32_small (cache_size s - 20)) by lia.
  assert (Hn : 1 <= (cache_size s - 20) / (20 + psz (cfg s)) <= 31).
  { split; [apply Z.div_le_lower_bound; lia|]. apply Z.lt_succ_r, Z.div_lt_upper_bound; lia. }
  set (n := (cache_size s - 20) / (20 + psz (cfg s))) in *. cbv zeta. rewrite s32_small, u8_small by lia.
  rewrite (proj2 (Z.leb_gt _ _)) by lia. rewrite cache_mask_ones by lia. rewrite Z2Nat.id by lia.
  unfold put_cache. wp_step. split; [done|].
  set (pg := fun i : Z => mkCp 0 (u8 i) 0 0 0 0 (replicate (Z.to_nat (psz (cfg s))) 0)).
  assert (Hlk : forall i cp, (pg <$> seqZ 0 n) !! i = Some cp -> (i < Z.to_nat n)%nat /\ cp = pg (Z.of_nat i)).
  { intros i cp Hi. apply list_lookup_fmap_Some in Hi as (j & -> & Hj). apply lookup_seqZ in Hj as [-> ?].
    rewrite Z.add_0_l. split; [lia|done]. }
  assert (Hlen : zlen (pg <$> seqZ 0 n) = n) by (unfold zlen; rewrite length_fmap, length_seqZ; lia).
  assert (Hbit : forall k, 0 <= k -> Z.testbit (Z.ldiff 4294967295 (Z.ones n)) k = (k <? 32) && negb (k <? n)).
  { intros k Hk. rewrite Z.ldiff_spec. change 4294967295 with (Z.ones 32). rewrite !Z.testbit_ones_nonneg by lia. done. }
  assert (Huse : forall i, (i < Z.to_nat n)%nat -> in_use (mkCache n 0 (Z.ldiff 4294967295 (Z.ones n)) (Z.ones n) (pg <$> seqZ 0 n)) i = false).
  { intros i Hi. unfold in_use. cbn [cpage_use_map]. rewrite Hbit by lia.
    rewrite (proj2 (Z.ltb_lt (Z.of_nat i) n)) by lia. apply andb_false_r. }
  split.
  - split; [by destruct Hg; split|]. eexists. split; [done|]. split; cbn [cpages cpage_use_mask cpage_use_map c_last_access].
    + rewrite Hlen. lia.
    + by rewrite Hlen.
    + apply Z.ldiff_nonneg. lia.
    + intros k Hk. rewrite Hlen in Hk. rewrite Hbit by lia. rewrite (proj2 (Z.ltb_ge k n)) by lia. apply andb_true_r.
    + intros i cp Hi. apply Hlk in Hi as [Hi ->]. rewrite Huse by done. split; [exact (u8_small (Z.of_nat i) ltac:(lia))| |cbn; lia|done].
      unfold pg, zlen. cbn [cp_mem cfg set_cache]. rewrite length_replicate. lia.
    + intros i j cp cp' Hi Hj Ui. apply Hlk in Hi as [Hi _]. by rewrite Huse in Ui.
    + exists 0%nat, (pg 0). split; [|left; apply Huse; lia].
      apply list_lookup_fmap_Some. exists 0. split; [done|]. rewrite lookup_seqZ_lt by lia. done.
    + lia.
  - intros q ca Hca i cp Hi Hu. cbn [cache set_cache] in Hca. apply (inj Some) in Hca. subst ca. apply Hlk in Hi as [Hi _]. by rewrite Huse in Hu.
Qed.

(** Mounting a volume with the given configuration and flash. *)
Lemma mount_ok config workbuf fd_space fd_space_size cache_p cache_sz s :
  wf_cfg config -> psz config <= 65536 -> SPIFFS_CHECK_MAGIC_POSSIBLE config = true ->
  phys_addr config + phys_size config <= hal_cap (flash s) ->
  0 < hal_sector (flash s) -> phys_erase_block config mod hal_sector (flash s) = 0 ->
  cache_p <> 0 ->
  sizeof_spiffs_cache + SPIFFS_CACHE_PAGE_SIZE config <= mount_cache_size config cache_p cache_sz ->
  scan_ticks config < 2 ^ 32 ->
  let v := view s in let bad := bad_blocks config v (blocks config) in
  let ec := scan_erase_count (ec_min config v (blocks config)) (ec_max config v (blocks config)) in
  wp (SPIFFS_mount config workbuf fd_space fd_space_size cache_p cache_sz) (fun r s' => cfg s' = config /\
    let mounted_on v ec := r = 0 /\ fs_ok (2 ^ 32 - 1 - scan_ticks config) s' /\ mounted s' = 1 /\
      config_magic s' = SPIFFS_CONFIG_MAGIC /\ err_code s' = 0 /\ cleaning s' = 0 /\
      free_cursor_block_ix s' = 0 /\ free_cursor_obj_lu_entry s' = 0 /\ cursor_block_ix s' = 0 /\ cursor_obj_lu_entry s' = 0 /\
      Forall (fun fd => fd = zero_fd) (fds s') /\
      exists s0, cfg s0 = config /\ scanned v ec s0 (set_mounted (mounted s0) s') in
    match bad with
    | [] => mounted_on v ec
    | [b] => mounted_on (erased_view config v b ec) (next_erase_count ec)
    | _ => r = -1 /\ err_code s' = SPIFFS_ERR_NOT_A_FS /\ mounted s' = 0 /\ config_magic s' = SPIFFS_CONFIG_MAGIC /\
           fs_geom s' /\ flash s' = flash s
    end) s.
Proof.
  intros Hwf Hpl Hmp Hcap Hs0 Hs1 Hcp Hcs Hst v bad ec. unfold SPIFFS_mount. cbv zeta.
  fold (mount_cache_size config cache_p cache_sz).
  wp_step. wp_step.
  match goal with |- wp _ _ ?st => set (s1 := st) end.
  assert (Hg1 : fs_geom s1) by (by split).
  replace (negb (cache_p =? 0)) with true by (symmetry; apply negb_true_iff, Z.eqb_neq; done).
  wp_step. wp_apply (cache_init_ok s1 Hg1).
  { split; [exact Hcs|]. change (cache_size s1) with (mount_cache_size config cache_p cache_sz).
    change (cfg s1) with config. pose proof (wf_psz _ Hwf). unfold mount_cache_size.
    rewrite (u32_small (psz config * 32)) by lia.
    destruct (psz config * 32 <? _) eqn:E; bools; lia. }
  { done. }
  intros _ s2 (Hfr2 & Hok2 & Hnc2). rewrite Hmp. cbn [negb]. wp_step. wp_step.
  set (s2a := set_config_magic SPIFFS_CONFIG_MAGIC s2).
  assert (Hok2a : fs_ok (2 ^ 32 - 1) s2a) by (eapply fs_okx_same; [exact Hok2|done..]).
  assert (Hc2 : cfg s2a = config) by (unfold s2a; rewrite Hfr2; done).
  assert (Hv2 : view s2a = v) by (unfold s2a; rewrite Hfr2; done).
  assert (Hre2 : scan_rest s2a = scan_rest (set_config_magic SPIFFS_CONFIG_MAGIC s1)) by (unfold s2a; rewrite Hfr2; done).
  wp_step. wp_apply (scan_ok _ s2a Hok2a (or_introl Hnc2)); [rewrite Hc2; lia|]. rewrite Hc2, Hv2. fold bad ec.
  assert (Hfin : forall w n s3, cfg s3 = config -> fs_ok (2 ^ 32 - 1 - scan_ticks config) s3 -> scanned w n s2a s3 ->
    wp (if SPIFFS_OK <? SPIFFS_OK then api_fail SPIFFS_OK else modify (set_mounted 1);; mret 0) (fun r s' =>
      cfg s' = config /\ r = 0 /\ fs_ok (2 ^ 32 - 1 - scan_ticks config) s' /\ mounted s' = 1 /\
      config_magic s' = SPIFFS_CONFIG_MAGIC /\ err_code s' = 0 /\ cleaning s' = 0 /\
      free_cursor_block_ix s' = 0 /\ free_cursor_obj_lu_entry s' = 0 /\ cursor_block_ix s' = 0 /\ cursor_obj_lu_entry s' = 0 /\
      Forall (fun fd => fd = zero_fd) (fds s') /\
      exists s0, cfg s0 = config /\ scanned w n s0 (set_mounted (mounted s0) s')) s3).
  { intros w n s3 Hc3 Hok3 Hsc. ok_res. wp_step. wp_step. wp_step. split; [exact Hc3|]. split; [done|].
    split; [eapply fs_okx_same; [exact Hok3|done..]|]. split; [done|].
    pose proof Hsc as (_ & _ & _ & _ & _ & Hre). rewrite Hre2 in Hre.
    apply scan_rest_inv in Hre as (Em & Ee & Ecl & Efb & Efe & Ecb & Ece & Efd & _ & Emt).
    do 7 (split; [eassumption|]). split; [change (fds (set_mounted 1 s3)) with (fds s3); rewrite Efd; by apply Forall_replicate|].
    exists s2a. split; [done|].
    destruct Hsc as (? & ? & ? & ? & ? & Hre3). split; [done|]. split; [done|]. split; [done|]. split; [done|].
    split; [done|]. rewrite <- Hre3.
    apply scan_rest_inv in Hre3 as (_ & _ & _ & _ & _ & _ & _ & _ & _ & Hmt). rewrite <- Hmt. by destruct s3. }
  intros r s3 (Hc3 & Hr). destruct bad as [|b [|b2 l]].
  - destruct Hr as (-> & Hok3 & Hsc). wp_apply Hfin; [done..|]. intros r s4 (? & ?). done.
  - destruct Hr as (-> & Hok3 & Hsc). wp_apply Hfin; [done..|]. intros r s4 (? & ?). done.
  - destruct Hr as (-> & Hfr3). change (SPIFFS_ERR_NOT_A_FS <? SPIFFS_OK) with true. cbv iota.
    unfold api_fail. wp_step. wp_step. wp_step. split; [done|]. split; [done|]. split; [done|].
    rewrite Hfr3. unfold s2a. rewrite Hfr2. split; [done|]. split; [done|]. split; [|done]. by split.
Qed.
End mount.

(** Formatting followed by mounting ([spiffs_hydrogen.c]): what the mount-time scan
    of [SpiffsMount] finds on the volume that formatting leaves. *)

Lemma foldl_max_zero l : Forall (fun x => x = 0) l -> foldl Z.max 0 l = 0.
Proof. by induction 1 as [|x l -> _ IH]. Qed.

Lemma foldl_min_zero a l : Forall (fun x => x = 0) l -> 0 ∈ l -> 0 <= a -> foldl Z.min a l = 0.
Proof.
  intros Hl Hin Ha. destruct Hl as [|x l -> Hl]; [inversion Hin|]. cbn. rewrite Z.min_r by done. clear Hin Ha.
  by induction Hl as [|x l -> _ IH].
Qed.

Section blank.
Context (c : spiffs_config) (Hwf : wf_cfg c) (v : Z -> Z).
Hypothesis Hfmt : forall b, 0 <= b < blocks c -> formatted c v b 0.

Lemma formatted_entry q : 0 <= q < blocks c * lue c -> lu_id c v (blk c q) (ent c q) = SPIFFS_OBJ_ID_FREE.
Proof using Hwf Hfmt.
  intros Hq. pose proof (lue_range c Hwf). pose proof (Z.mod_pos_bound q (lue c) ltac:(lia)).
  assert (Hb : 0 <= q / lue c < blocks c)
    by (split; [apply Z.div_pos; lia|apply Z.div_lt_upper_bound; lia]).
  unfold blk, ent, wrap_block. rewrite (proj2 (Z.ltb_lt _ _)) by lia.
  apply (proj2 (proj2 (formatted_eq c Hwf v _ 0 Hb (Hfmt _ Hb)))). lia.
Qed.

(** No entry of the kind [f] when a free entry is not of that kind. *)
Lemma census_none f n : 0 <= n <= blocks c * lue c -> (forall e, f SPIFFS_OBJ_ID_FREE e = false) -> census c v f n = 0.
Proof using Hwf Hfmt.
  intros [Hn Hle] Hf. revert Hle. pattern n. apply natlike_ind; [done| |done].
  intros m Hm IH Hle. unfold Z.succ. rewrite census_snoc, formatted_entry, Hf by lia. rewrite IH by lia. done.
Qed.

(** Every block counts as free. *)
Lemma census_free n : 0 <= n <= blocks c * lue c -> census c v is_free_block n = (n + lue c - 1) / lue c.
Proof using Hwf Hfmt.
  pose proof (lue_range c Hwf) as Hl.
  intros [Hn Hle]. revert Hle. pattern n. apply natlike_ind; [|clear n Hn|done].
  - intros _. symmetry. apply Z.div_small. lia.
  - intros m Hm IH Hle. unfold Z.succ. rewrite census_snoc, formatted_entry, IH by lia.
    unfold is_free_block. rewrite Z.eqb_refl. cbn [andb]. unfold ent.
    pose proof (Z.div_mod m (lue c) ltac:(lia)) as Hdm. pose proof (Z.mod_pos_bound m (lue c) ltac:(lia)) as Hr.
    set (k := m / lue c) in *. set (r := m mod lue c) in *.
    destruct (r =? 0) eqn:E; bools.
    + rewrite <- (Z.div_unique (m + lue c - 1) (lue c) k (lue c - 1)), <- (Z.div_unique (m + 1 + lue c - 1) (lue c) (k + 1) 0) by lia. lia.
    + rewrite <- (Z.div_unique (m + lue c - 1) (lue c) (k + 1) (r - 1)), <- (Z.div_unique (m + 1 + lue c - 1) (lue c) (k + 1) r) by lia. lia.
Qed.

Lemma bad_blocks_none n : n <= blocks c -> bad_blocks c v n = [].
Proof using Hwf Hfmt.
  intros Hn. unfold bad_blocks. 
  destruct (filter _ _) as [|b l] eqn:E; [done|].
  assert (Hin : b ∈ filter (fun b => magic_at c v b <> SPIFFS_MAGIC c) (seqZ 0 n)) by (rewrite E; left).
  apply list_elem_of_filter in Hin as [Hm Hb]. apply elem_of_seqZ in Hb. destruct Hm.
  apply (formatted_eq c Hwf v b 0); [lia|]. apply Hfmt. lia.
Qed.

Lemma erase_counts_zero n : n <= blocks c -> Forall (fun ec => ec = 0) (erase_counts c v n).
Proof using Hwf Hfmt.
  intros Hn. apply Forall_forall. intros ec Hin. apply list_elem_of_In in Hin. unfold erase_counts in Hin.
  apply list_elem_of_filter in Hin as [_ Hin]. apply list_elem_of_fmap in Hin as (b & -> & Hb).
  apply elem_of_seqZ in Hb. by apply (formatted_eq c Hwf v b 0); [lia|apply Hfmt; lia].
Qed.
Lemma erase_counts_some n : 0 < n <= blocks c -> 0 ∈ erase_counts c v n.
Proof using Hwf Hfmt.
  intros Hn. unfold erase_counts. apply list_elem_of_filter. split; [done|].
  apply list_elem_of_fmap. exists 0. split; [|apply elem_of_seqZ; lia].
  symmetry. by apply (formatted_eq c Hwf v 0 0); [lia|apply Hfmt; lia].
Qed.

(** The scan gives a fresh volume the erase count 1. *)
Lemma fresh_erase_count : 0 < blocks c -> scan_erase_count (ec_min c v (blocks c)) (ec_max c v (blocks c)) = 1.
Proof using Hwf Hfmt.
  intros Hb. pose proof (erase_counts_zero (blocks c) ltac:(lia)) as H0.
  pose proof (erase_counts_some (blocks c) ltac:(lia)) as H1.
  unfold ec_min, ec_max. rewrite (foldl_max_zero _ H0), (foldl_min_zero _ _ H0 H1) by done. done.
Qed.
End blank.

Section format_mount.
Context {F : Type} {hal : SpiffsHal F} {nor : NorHal F}.
Implicit Types s : spiffs F.

(** The state after mounting an empty volume. *)
Definition mounted_empty (c : spiffs_config) s : Prop :=
  cfg s = c /\ fs_ok (2 ^ 32 - 1 - scan_ticks c) s /\ mounted s = 1 /\ config_magic s = SPIFFS_CONFIG_MAGIC /\
  free_blocks s = blocks c /\ stats_p_deleted s = 0 /\ stats_p_allocated s = 0 /\ max_erase_count s = 1 /\
  no_entry c (fun b e => lu_id c (view s) b e <> SPIFFS_OBJ_ID_FREE).

Lemma mount_formatted config workbuf fd_space fd_space_size cache_p cache_sz s :
  wf_cfg config -> psz config <= 65536 -> SPIFFS_CHECK_MAGIC_POSSIBLE config = true ->
  phys_addr config + phys_size config <= hal_cap (flash s) ->
  0 < hal_sector (flash s) -> phys_erase_block config mod hal_sector (flash s) = 0 ->
  cache_p <> 0 ->
  sizeof_spiffs_cache + SPIFFS_CACHE_PAGE_SIZE config <= mount_cache_size config cache_p cache_sz ->
  scan_ticks config < 2 ^ 32 ->
  (forall b, 0 <= b < blocks config -> formatted config (view s) b 0) ->
  wp (SPIFFS_mount config workbuf fd_space fd_space_size cache_p cache_sz)
     (fun r s' => r = 0 /\ mounted_empty config s') s.
Proof.
  intros Hwf Hp Hm Hcap Hs0 Hs1 Hcp Hcs Hst Hfmt. pose proof (wf_blocks _ Hwf) as Hbl.
  assert (Hb0 : 0 < blocks config) by lia. pose proof (lue_range _ Hwf) as Hl.
  wp_apply mount_ok; [done..|]. cbv zeta.
  rewrite (bad_blocks_none _ Hwf _ Hfmt) by lia. rewrite (fresh_erase_count _ Hwf _ Hfmt) by lia.
  intros r s' (Hc & -> & Hok & Hmt & Hcm & _ & _ & _ & _ & _ & _ & _ & s0 & Hc0 & Hec & Hv & Hfb & Hpd & Hpa & _).
  split; [done|]. cbn in Hec, Hfb, Hpd, Hpa, Hv. rewrite Hc in *.
  do 4 (split; [done|]). assert (0 <= blocks config * lue config) by nia. split; [|split; [|split; [|split]]].
  - rewrite Hfb, (census_free _ Hwf _ Hfmt) by lia.
    symmetry. apply (Z.div_unique _ _ _ (lue config - 1)); lia.
  - rewrite Hpd. apply (census_none _ Hwf _ Hfmt); [lia|done].
  - rewrite Hpa. apply (census_none _ Hwf _ Hfmt); [lia|done].
  - done.
  - intros b e Hb He Hne. destruct Hne. unfold lu_id. rewrite (vread_ext _ (view s)) by (intros; apply Hv).
    by apply (formatted_eq config Hwf (view s) b 0); [|apply Hfmt|].
Qed.

Lemma format_mount_ok T workbuf fd_space fd_space_size cache_p cache_sz s :
  fs_okx (fun _ => False) T s -> config_magic s = SPIFFS_CONFIG_MAGIC -> mounted s = 0 -> 2 * blocks (cfg s) <= T ->
  psz (cfg s) <= 65536 -> SPIFFS_CHECK_MAGIC_POSSIBLE (cfg s) = true -> cache_p <> 0 ->
  sizeof_spiffs_cache + SPIFFS_CACHE_PAGE_SIZE (cfg s) <= mount_cache_size (cfg s) cache_p cache_sz ->
  scan_ticks (cfg s) < 2 ^ 32 ->
  wp (r1 ← SPIFFS_format; r2 ← SPIFFS_mount (cfg s) workbuf fd_space fd_space_size cache_p cache_sz; mret (r1, r2))
     (fun r s' => r = (0, 0) /\ mounted_empty (cfg s) s') s.
Proof.
  intros Hok Hcm Hmt HT Hp Hm Hcp Hcs Hst. wp_step. wp_apply format_ok; [done..|].
  intros r1 s1 (-> & Hok1 & Hc1 & Hf & _). destruct Hok1 as [Hg1 _]. pose proof Hg1 as Hg.
  destruct Hg1 as [Hwf _ Hcap [Hs0 Hs1]]. rewrite Hc1 in *. wp_step.
  wp_apply mount_formatted; [done..|].
  intros r2 s2 (-> & He). by wp_step.
Qed.
End format_mount.
