(* ===== verification/SpiffsRead.v ===== *)
(** Reading the contents of a file ([spiffs_object_read] of [spiffs_nucleus.c])
    against an abstract view of a stored object: the index table on flash maps every
    data span index to a data page that holds that part of the contents. *)
From S2P Require Import Prelude CSem SpiffsTypes SpiffsGeom SpiffsCache SpiffsIo SpiffsLookup SpiffsSearch SpiffsPage SpiffsFind SpiffsIndex SpiffsContent.
From stdpp Require Import base list numbers option.

Open Scope Z_scope.

Abbreviation dps := SPIFFS_DATA_PAGE_SIZE.
Abbreviation ix_span := SPIFFS_OBJ_IX_ENTRY_SPAN_IX.

(** ** The stored object *)

(** Entry [e] of block [b] is index page [i] of object [id]. *)
Definition index_entry (c : spiffs_config) (v : Z -> Z) (id i b e : Z) : Prop :=
  lu_id c v b e = ix_id id /\ live_page c v (ix_id id) i None (entry_pix c b e) = true.

(** Page [p] is index page [i] of the object whose header page is [hdr]: a valid
    index page, and the only one of its span index. *)
Definition index_page (c : spiffs_config) (v : Z -> Z) (id hdr i p : Z) : Prop :=
  0 <= p < pages c /\ SPIFFS_VALIDATE_OBJIX (ph_at c v p) id i = None /\
  if i =? 0 then p = hdr
  else (exists b e, 0 <= b < blocks c /\ 0 <= e < lue c /\ index_entry c v id i b e) /\
       forall b e, 0 <= b < blocks c -> 0 <= e < lue c -> index_entry c v id i b e -> entry_pix c b e = p.

Lemma index_page_unique c v id hdr i p p' : index_page c v id hdr i p -> index_page c v id hdr i p' -> p = p'.
Proof.
  intros (_ & _ & H) (_ & _ & H'). destruct (i =? 0); [congruence|].
  destruct H as [(b & e & Hb & He & Hi) H], H' as [_ H']. by rewrite <- (H b e), <- (H' b e).
Qed.

(** The index table entry for data span index [d] in index page [p]. *)
Definition ix_entry (c : spiffs_config) (v : Z -> Z) (p d : Z) : Z :=
  dec16 (vread v (paddr c p + objix_entry_offs c (ix_span c d) d) sizeof_page_ix).

Definition data_page (c : spiffs_config) (v : Z -> Z) (id d q : Z) : Prop :=
  0 <= q < pages c /\ lup c <= q mod ppb c /\ SPIFFS_VALIDATE_DATA (ph_at c v q) (data_id id) d = None.

(** The flash holds [content] as the object [id] with index header page [hdr]. *)
Definition holds (c : spiffs_config) (v : Z -> Z) (id hdr : Z) (content : list Z) : Prop :=
  forall d, 0 <= d -> d * dps c < zlen content ->
    exists p, index_page c v id hdr (ix_span c d) p /\ data_page c v id d (ix_entry c v p d) /\
      forall j, 0 <= j < dps c -> d * dps c + j < zlen content ->
        v (paddr c (ix_entry c v p d) + sizeof_page_header + j) = zget content (d * dps c + j).

(** A page starts with its header. *)
Lemma page_header_prefix v a n : 5 <= n -> dec_page_header (vread v a n) = dec_page_header (vread v a sizeof_page_header).
Proof.
  intros Hn. change sizeof_page_header with 5. unfold dec_page_header, dec16.
  rewrite !slice_vread by lia. by rewrite !zget_vread by lia.
Qed.

(** ** Geometry of the index table *)

Section table.
Context (c : spiffs_config) (Hwf : wf_cfg c).

Lemma dps_eq : dps c = psz c - 5 /\ 43 <= dps c < 2 ^ 31.
Proof using Hwf.
  pose proof (wf_psz c Hwf). pose proof (psz_lt c Hwf). unfold SPIFFS_DATA_PAGE_SIZE, sizeof_page_header.
  rewrite u32_small by lia. lia.
Qed.

Lemma ix_lens : 1 <= SPIFFS_OBJ_HDR_IX_LEN c /\ 46 + 2 * SPIFFS_OBJ_HDR_IX_LEN c <= psz c /\
  20 <= SPIFFS_OBJ_IX_LEN c /\ 8 + 2 * SPIFFS_OBJ_IX_LEN c <= psz c.
Proof using Hwf.
  pose proof (wf_psz c Hwf). pose proof (psz_lt c Hwf). unfold SPIFFS_OBJ_HDR_IX_LEN, SPIFFS_OBJ_IX_LEN.
  unfold sizeof_object_ix_header, sizeof_object_ix, sizeof_page_ix. rewrite !u32_small by lia. Z.to_euclidean_division_equations. lia.
Qed.

(** Every entry of the table lies inside its page. *)
Lemma objix_entry_fits d : 0 <= d < 65536 ->
  0 <= ix_span c d < 65535 /\ 0 <= objix_entry_offs c (ix_span c d) d /\
  objix_entry_offs c (ix_span c d) d + sizeof_page_ix <= psz c.
Proof using Hwf.
  intros Hd. pose proof ix_lens as (H1 & H2 & H3 & H4). pose proof (psz_lt c Hwf).
  unfold objix_entry_offs, SPIFFS_OBJ_IX_ENTRY_SPAN_IX, SPIFFS_OBJ_IX_ENTRY, sizeof_object_ix_header, sizeof_object_ix, sizeof_page_ix.
  destruct (d <? SPIFFS_OBJ_HDR_IX_LEN c) eqn:E; bools; [cbn; lia|].
  pose proof (Z.mod_pos_bound (d - SPIFFS_OBJ_HDR_IX_LEN c) (SPIFFS_OBJ_IX_LEN c) ltac:(lia)).
  assert (Hq : 0 <= (d - SPIFFS_OBJ_HDR_IX_LEN c) / SPIFFS_OBJ_IX_LEN c < 65534)
    by (split; [apply Z.div_pos; lia|apply Z.div_lt_upper_bound; nia]).
  destruct (_ =? 0) eqn:E0; bools; lia.
Qed.
End table.

Section read.
Context {F : Type} {hal : SpiffsHal F} {nor : NorHal F}.
Implicit Types s : spiffs F.

(** Descriptor access. *)
Lemma wp_fd_at i fd (Q : spiffs_fd -> spiffs F -> Prop) s :
  fds s !! Z.to_nat i = Some fd -> Q fd s -> wp (fd_at i) Q s.
Proof. intros Hi HQ. unfold fd_at. wp_step. wp_step. rewrite Hi. by apply wp_ret. Qed.

Lemma wp_upd_fd i f fd (Q : unit -> spiffs F -> Prop) s :
  fds s !! Z.to_nat i = Some fd -> Q tt (set_fds (zset (fds s) i (f fd)) s) -> wp (upd_fd i f) Q s.
Proof. intros Hi HQ. unfold upd_fd. wp_step. eapply wp_fd_at; [done|]. by wp_step. Qed.

(** The part of the state reading leaves alone: all but the cache, the work
    buffers, the search cursor and the descriptors. *)
Definition read_rest s :=
  (cfg s, block_count s, free_cursor_block_ix s, free_cursor_obj_lu_entry s, fd_count s, err_code s, free_blocks s,
   stats_p_allocated s, stats_p_deleted s, cleaning s, max_erase_count s, cache_size s, mounted s, config_magic s, flash s).

Lemma read_rest_inv s s' : read_rest s = read_rest s' -> cfg s = cfg s' /\ flash s = flash s' /\ block_count s = block_count s'.
Proof. unfold read_rest. by intros [=]. Qed.

(** A usable volume with the search cursor in range. *)
Definition fs_cur T s : Prop :=
  fs_ok T s /\ 0 <= cursor_block_ix s < blocks (cfg s) /\ 0 <= cursor_obj_lu_entry s.

Lemma fs_cur_same T T' s s' : fs_cur T s -> fs_ok T' s' -> cfg s' = cfg s ->
  cursor_block_ix s' = cursor_block_ix s -> cursor_obj_lu_entry s' = cursor_obj_lu_entry s -> fs_cur T' s'.
Proof. intros (_ & ? & ?) ? Hc Hb He. unfold fs_cur. rewrite Hc, Hb, He. done. Qed.

Lemma fs_cur_weaken T T' s : fs_cur T s -> 0 <= T' <= T -> fs_cur T' s.
Proof. intros (Hok & ? & ?) ?. split; [eapply fs_okx_weaken; [exact Hok|lia]|done]. Qed.

(** Searching an index page of a stored object finds it. *)
Lemma find_index_page_ok T s id hdr i p :
  fs_cur T s -> ticks (cfg s) 1 <= T -> i <> 0 -> index_page (cfg s) (view s) id hdr i p ->
  wp (spiffs_obj_lu_find_id_and_span (ix_id id) i 0) (fun r s' =>
    r = (SPIFFS_OK, p) /\ fs_cur (T - ticks (cfg s) 1) s' /\ read_rest s' = read_rest s /\ fds s' = fds s) s.
Proof.
  intros (Hok & Hcb & Hce) HT Hi (_ & _ & Hp). rewrite (proj2 (Z.eqb_neq i 0) Hi) in Hp. destruct Hp as [Hex Huniq].
  wp_apply (find_id_and_span_ok T s SPIFFS_VIS_CHECK_ID); [done..|by left|].
  intros r s' [Hok' [(b & e & -> & (Hb & He & HP & _) & s1 & Hf & ->)|(_ & Hn & _)]].
  - destruct HP as [Hid Hlive]. specialize (Hid eq_refl).
    rewrite (Huniq b e) by done. split; [done|]. rewrite Hf in *. split; [|done].
    split; [done|]. cbn. lia.
  - destruct Hex as (b & e & Hb & He & Hid & Hlive). by destruct (Hn b e Hb He).
Qed.

(** The local state of the loop: index page [prev] is loaded. *)
Definition loaded (c : spiffs_config) (v : Z -> Z) (fd : spiffs_fd) (prev : Z) (fd' : spiffs_fd) (w : list Z) : Prop :=
  prev = IX_NONE \/ exists p, index_page c v (fd_obj_id fd) (fd_objix_hdr_pix fd) prev p /\ w = vread v (paddr c p) (psz c) /\
    fd_cursor_objix_pix fd' = p /\ fd_cursor_objix_spix fd' = prev.

(** The same file, possibly at another position. *)
Definition same_file (fd fd' : spiffs_fd) : Prop :=
  fd' = set_fd_offset (fd_offset fd') (set_fd_cursor_objix_spix (fd_cursor_objix_spix fd')
          (set_fd_cursor_objix_pix (fd_cursor_objix_pix fd') fd)).

Lemma same_file_eq fd fd' : same_file fd fd' ->
  fd_obj_id fd' = fd_obj_id fd /\ fd_size fd' = fd_size fd /\ fd_objix_hdr_pix fd' = fd_objix_hdr_pix fd.
Proof. by intros ->. Qed.

Lemma load_index_ok T s fd_i fd id p i :
  fs_ok T s -> 1 <= T -> fds s !! Z.to_nat fd_i = Some fd -> fd_obj_id fd = id -> 0 <= p < pages (cfg s) ->
  SPIFFS_VALIDATE_OBJIX (ph_at (cfg s) (view s) p) id i = None ->
  wp (load_objix fd_i p i) (fun r s' =>
    r = None /\ fs_ok (T - 1) s' /\ s' = set_work (vread (view s) (paddr (cfg s) p) (psz (cfg s))) (set_cache (cache s') s)) s.
Proof.
  intros Hok HT Hfd Hid Hp Hv. pose proof (fs_ok_wf _ _ Hok) as Hwf. pose proof (wf_psz _ Hwf).
  unfold load_objix, load_work. wp_step. wp_step. wp_step. wp_step. eapply wp_fd_at; [done|]. wp_step.
  wp_apply phys_rd_ok; [done|done|apply in_page_start; [done|done|lia]|].
  intros r s1 (-> & Hf & Hok1). wp_step. wp_step. wp_step. ok_res.
  wp_step. eapply wp_fd_at; [cbn; rewrite Hf; exact Hfd|]. wp_step. wp_step. wp_step.
  split; [|split].
  - rewrite Hid, <- Hv. f_equal. apply page_header_prefix. lia.
  - by eapply fs_okx_same.
  - f_equal. exact Hf.
Qed.

(** The state while reading: only the cursors, the descriptor and the buffers of
    the state [s0] have changed. *)
Definition reading (T : Z) s0 (fd_i : Z) (fd fd' : spiffs_fd) s : Prop :=
  fs_cur T s /\ read_rest s = read_rest s0 /\ fds s = zset (fds s0) fd_i fd' /\ same_file fd fd'.

Lemma reading_fd T s0 fd_i fd0 fd fd' s : fds s0 !! Z.to_nat fd_i = Some fd0 ->
  reading T s0 fd_i fd fd' s -> fds s !! Z.to_nat fd_i = Some fd'.
Proof.
  intros H0 (_ & _ & -> & _). unfold zset. apply list_lookup_insert_eq. by eapply lookup_lt_Some.
Qed.

Lemma reading_upd T s0 fd_i fd fd' fd'' s : reading T s0 fd_i fd fd' s -> same_file fd fd'' ->
  reading T s0 fd_i fd fd'' (set_fds (zset (fds s) fd_i fd'') s).
Proof.
  intros ((Hok & ? & ?) & Hr & Hf & _) Hs. split; [|split; [done|split; [|done]]].
  - split; [by eapply fs_okx_same|done].
  - cbn. rewrite Hf. unfold zset. by rewrite list_insert_insert_eq.
Qed.

Lemma reading_cache T T' s0 fd_i fd fd' s s' : reading T s0 fd_i fd fd' s -> cache_frame s s' -> fs_ok T' s' ->
  reading T' s0 fd_i fd fd' s'.
Proof.
  intros (Hc & Hr & Hf & Hs) Hcf Hok. split; [|by rewrite Hcf].
  eapply fs_cur_same; [exact Hc|exact Hok|by rewrite Hcf..].
Qed.

Lemma read_load_objix_ok T s0 s fd_i fd0 fd fd' prev cur i p :
  fds s0 !! Z.to_nat fd_i = Some fd0 -> reading T s0 fd_i fd fd' s -> ticks (cfg s0) 1 + 1 <= T ->
  index_page (cfg s0) (view s0) (fd_obj_id fd) (fd_objix_hdr_pix fd) i p ->
  loaded (cfg s0) (view s0) fd prev fd' (work s) -> 0 <= i < 65535 ->
  wp (read_load_objix fd_i cur prev i) (fun r s' => r = None /\ exists (fd'' : spiffs_fd) (p' : Z),
    reading (T - ticks (cfg s0) 1 - 1) s0 fd_i fd fd'' s' /\ (fd_offset fd'' = fd_offset fd' \/ fd_offset fd'' = cur) /\
    index_page (cfg s0) (view s0) (fd_obj_id fd) (fd_objix_hdr_pix fd) i p' /\
    work s' = vread (view s0) (paddr (cfg s0) p') (psz (cfg s0)) /\
    fd_cursor_objix_pix fd'' = p' /\ fd_cursor_objix_spix fd'' = i) s.
Proof.
  intros H0 Hrd HT Hix Hld Hi. pose proof Hrd as (Hcur & Hrr & Hfds & Hsame).
  apply read_rest_inv in Hrr as Hrr'. destruct Hrr' as (Ec & Ef & _). assert (Ev : view s = view s0) by (unfold view; by rewrite Ef).
  assert (Hwf : wf_cfg (cfg s0)) by (rewrite <- Ec; apply (fs_ok_wf T), Hcur).
  pose proof (ticks_nonneg (cfg s0) 1 Hwf ltac:(done)) as Htk. pose proof (reading_fd _ _ _ _ _ _ _ H0 Hrd) as Hfd.
  apply same_file_eq in Hsame as Hsf. destruct Hsf as (Eid & _ & Ehdr).
  unfold read_load_objix. destruct (prev =? i) eqn:Ep; cbn [negb]; bools.
  - subst prev. wp_step. split; [done|]. destruct Hld as [->|(p' & Hp' & Hw & Hcp & Hcs)]; [unfold IX_NONE in Hi; lia|].
    exists fd', p'. split; [|by auto]. split; [|done]. eapply fs_cur_weaken; [exact Hcur|lia].
  - wp_step. eapply wp_fd_at; [done|]. wp_step.
    assert (Hfind : wp (if i =? 0 then mret (SPIFFS_OK, fd_objix_hdr_pix fd')
         else spiffs_obj_lu_find_id_and_span (ix_id (fd_obj_id fd')) i 0) (fun r s' => r = (SPIFFS_OK, p) /\
           fs_cur (T - ticks (cfg s0) 1) s' /\ read_rest s' = read_rest s /\ fds s' = fds s) s).
    { rewrite Eid, Ehdr. pose proof Hix as (_ & _ & Hp). destruct (i =? 0) eqn:E0; bools.
      - rewrite Hp. wp_step. split; [done|]. split; [|done]. eapply fs_cur_weaken; [exact Hcur|lia].
      - rewrite <- Ec. apply find_index_page_ok with (hdr := fd_objix_hdr_pix fd); rewrite ?Ec, ?Ev; try done; try lia. }
    wp_apply Hfind. clear Hfind. intros r s1 (-> & Hcur1 & Hrr1 & Hfds1). ok_res.
    apply read_rest_inv in Hrr1 as Hrr1'. destruct Hrr1' as (Ec1 & Ef1 & _).
    assert (Ev1 : view s1 = view s0) by (unfold view; by rewrite Ef1, Ef). rewrite Ec in Ec1.
    assert (Hrd1 : reading (T - ticks (cfg s0) 1) s0 fd_i fd fd' s1) by (split; [done|]; split; [by rewrite Hrr1|]; by rewrite Hfds1).
    pose proof Hix as (Hpr & Hval & _). wp_step.
    wp_apply (load_index_ok (T - ticks (cfg s0) 1) s1 fd_i fd' (fd_obj_id fd) p i);
      [apply Hrd1|lia|exact (reading_fd _ _ _ _ _ _ _ H0 Hrd1)|done|by rewrite Ec1|by rewrite Ec1, Ev1|].
    intros r s2 (-> & Hok2 & Hs2). wp_step.
    assert (Hrd2 : reading (T - ticks (cfg s0) 1 - 1) s0 fd_i fd fd' s2).
    { destruct Hrd1 as (Hc1 & ? & ? & ?). split; [|by rewrite Hs2].
      eapply fs_cur_same; [exact Hc1|exact Hok2|by rewrite Hs2..]. }
    eapply wp_upd_fd; [exact (reading_fd _ _ _ _ _ _ _ H0 Hrd2)|]. wp_step. split; [done|].
    eexists _, p. split; [apply (reading_upd _ _ _ _ _ _ _ Hrd2); by rewrite Hsame|].
    split; [by right|]. split; [done|]. split; [|done]. cbn. rewrite Hs2. cbn. by rewrite Ec1, Ev1.
Qed.

Lemma page_data_check_ok T s fd q d :
  fs_ok T s -> 1 <= T -> data_page (cfg s) (view s) (fd_obj_id fd) d q ->
  wp (spiffs_page_data_check fd q d) (fun r s' => r = SPIFFS_OK /\ cache_frame s s' /\ fs_ok (T - 1) s') s.
Proof.
  intros Hok HT (Hq & Hl & Hv). pose proof (fs_ok_wf _ _ Hok) as Hwf. pose proof (wf_pages_lt _ Hwf).
  unfold spiffs_page_data_check. wp_step. wp_step.
  rewrite (proj2 (Z.eqb_neq q IX_NONE)) by (unfold IX_NONE; lia).
  rewrite (proj2 (Z.ltb_ge (q mod _) _)) by lia. rewrite (proj2 (Z.ltb_ge (SPIFFS_MAX_PAGES _) _)) by lia.
  wp_step. wp_apply rd_page_header_ok; [done|done|done|]. intros r s1 (-> & Hf & Hok1). ok_res. wp_step.
  by rewrite Hv.
Qed.

(** Bytes read from a data page. *)
Lemma data_page_bytes c v content d p cur n : wf_cfg c ->
  (forall j, 0 <= j < dps c -> d * dps c + j < zlen content ->
     v (paddr c (ix_entry c v p d) + sizeof_page_header + j) = zget content (d * dps c + j)) ->
  0 <= cur -> d = cur / dps c -> 0 <= n -> n <= dps c - cur mod dps c -> cur + n <= zlen content ->
  vread v (paddr c (ix_entry c v p d) + sizeof_page_header + cur mod dps c) n = slice content cur n.
Proof.
  intros Hwf Hb Hcur Hd Hn Hn1 Hn2. pose proof (dps_eq c Hwf). pose proof (Z.div_mod cur (dps c) ltac:(lia)) as Hdm.
  pose proof (Z.mod_pos_bound cur (dps c) ltac:(lia)) as Hm. apply list_eq_zget.
  - rewrite length_vread, length_slice; lia.
  - rewrite length_vread by lia. intros i Hi. rewrite zget_vread, zget_slice by lia.
    replace (_ + cur mod dps c + i) with (paddr c (ix_entry c v p d) + sizeof_page_header + (cur mod dps c + i)) by lia.
    rewrite Hb by nia. f_equal. nia.
Qed.

Lemma slice_app (l : list Z) a n m : 0 <= a -> 0 <= n -> 0 <= m ->
  slice l a n ++ slice l (a + n) m = slice l a (n + m).
Proof.
  intros. unfold slice. rewrite (Z2Nat.inj_add n m), (Z2Nat.inj_add a n) by lia.
  rewrite <- drop_drop. apply take_take_drop.
Qed.

(** Bytes an iteration reads at [cur]. *)
Definition read_chunk (c : spiffs_config) (cur e : Z) : Z := Z.min (e - cur) (dps c - cur mod dps c).

(** Accesses of an iteration. *)
Definition read_ticks (c : spiffs_config) : Z := ticks c 1 + 3.

Lemma read_body_ok T s0 s fd_i fd0 fd fd' content off len cur prev dst :
  fds s0 !! Z.to_nat fd_i = Some fd0 -> reading T s0 fd_i fd fd' s ->
  holds (cfg s0) (view s0) (fd_obj_id fd) (fd_objix_hdr_pix fd) content -> fd_size fd = zlen content ->
  zlen content <= 65535 * dps (cfg s0) -> zlen content < 2 ^ 32 ->
  0 <= off -> off + len <= zlen content -> off <= cur < off + len ->
  loaded (cfg s0) (view s0) fd prev fd' (work s) -> read_ticks (cfg s0) <= T ->
  wp (read_body fd_i off len (SPIFFS_OK, cur, prev, cur / dps (cfg s0), dst)) (fun r s' =>
    let n := read_chunk (cfg s0) cur (off + len) in
    exists (fd'' : spiffs_fd) (i : Z),
      r = Next (SPIFFS_OK, cur + n, i, cur / dps (cfg s0) + 1, dst ++ slice content cur n) /\
      reading (T - read_ticks (cfg s0)) s0 fd_i fd fd'' s' /\ fd_offset fd'' = cur + n /\
      loaded (cfg s0) (view s0) fd i fd'' (work s')) s.
Proof.
  intros H0 Hrd Hh Hsz Hmx Hmx2 Hoff Hend Hcur Hld HT.
  pose proof Hrd as ((Hok & _) & Hrr & _). apply read_rest_inv in Hrr as (Ec & Ef & _).
  assert (Hwf : wf_cfg (cfg s0)) by (rewrite <- Ec; by apply (fs_ok_wf T)).
  pose proof (ticks_nonneg (cfg s0) 1 Hwf ltac:(done)) as Htk. unfold read_ticks in *.
  pose proof (dps_eq (cfg s0) Hwf) as [Hdp Hdr]. set (c := cfg s0) in *. set (d := cur / dps c).
  pose proof (Z.div_mod cur (dps c) ltac:(lia)) as Hdm. fold d in Hdm.
  pose proof (Z.mod_pos_bound cur (dps c) ltac:(lia)) as Hm.
  assert (Hd0 : 0 <= d) by (apply Z.div_pos; lia).
  assert (Hd : 0 <= d < 65535) by (split; [done|apply Z.div_lt_upper_bound; lia]).
  destruct (objix_entry_fits c Hwf d ltac:(lia)) as (Hi & Ho1 & Ho2).
  destruct (Hh d Hd0 ltac:(lia)) as (p & Hix & Hdata & Hbytes).
  unfold read_body. wp_step. wp_step. rewrite Ec. fold c d. rewrite (u32_small (off + len)) by lia.
  rewrite (proj2 (Z.ltb_lt cur (off + len))) by lia. rewrite (u16_small (ix_span c d)) by lia.
  wp_step. wp_apply read_load_objix_ok; [exact H0|exact Hrd|fold c; lia|exact Hix|exact Hld|lia|].
  intros r s1 (-> & fd1 & p' & Hrd1 & _ & Hix' & Hw1 & Hcp1 & Hcs1). ok_res. pose proof (index_page_unique _ _ _ _ _ _ _ Hix Hix') as <-.
  pose proof Hrd1 as ((Hok1 & _) & Hrr1 & _ & Hsame1). apply read_rest_inv in Hrr1 as (Ec1 & Ef1 & _).
  assert (Ev1 : view s1 = view s0) by (unfold view; by rewrite Ef1).
  unfold get_objix_entry. wp_step. wp_step. wp_step. wp_step. wp_step. rewrite Ec1, Hw1. fold c.
  rewrite (length_vread _ _ (psz c)) by (pose proof (wf_psz c Hwf); lia).
  rewrite (proj2 (Z.leb_le (objix_entry_offs c (ix_span c d) d + sizeof_page_ix) (psz c)) Ho2). wp_step. wp_step.
  rewrite (slice_vread (view s0)) by (unfold sizeof_page_ix in *; lia). fold (ix_entry c (view s0) p d).
  eapply wp_fd_at; [exact (reading_fd _ _ _ _ _ _ _ H0 Hrd1)|].
  apply same_file_eq in Hsame1 as Hsf. destruct Hsf as (Eid & Esz & _). rewrite Esz, Hsz.
  rewrite (u32_small (off + len - cur)) by lia. fold (read_chunk c cur (off + len)).
  assert (Hn : 0 < read_chunk c cur (off + len) <= off + len - cur /\ read_chunk c cur (off + len) <= dps c - cur mod dps c)
    by (unfold read_chunk; lia).
  rewrite (Z.min_l (read_chunk _ _ _)) by lia. set (n := read_chunk c cur (off + len)) in *.
  rewrite (proj2 (Z.leb_gt n 0)) by lia. wp_step.
  wp_apply (page_data_check_ok (T - ticks c 1 - 1) s1);
    [exact Hok1|lia|rewrite Ec1, Ev1, Eid; exact Hdata|].
  intros r s2 (-> & Hf2 & Hok2). ok_res. wp_step.
  assert (Hrd2 : reading (T - ticks c 1 - 1 - 1) s0 fd_i fd fd1 s2) by (by eapply reading_cache).
  pose proof Hrd2 as (_ & Hrr2 & _ & _). apply read_rest_inv in Hrr2 as (Ec2 & Ef2 & _).
  assert (Ev2 : view s2 = view s0) by (unfold view; by rewrite Ef2).
  pose proof Hdata as (Hq & _). pose proof (paddr_range c Hwf _ Hq) as Hpr. pose proof (wf_end c Hwf). pose proof (wf_addr c Hwf).
  set (q := ix_entry c (view s0) p d) in *.
  rewrite (u32_small (paddr c q + sizeof_page_header + cur mod dps c)) by (unfold sizeof_page_header; lia).
  wp_apply (phys_rd_ok (T - ticks c 1 - 1 - 1) s2); [exact Hok2|lia| |].
  { rewrite Ec2. exists q, (sizeof_page_header + cur mod dps c). fold c. unfold sizeof_page_header. lia. }
  intros r s3 (-> & Hf3 & Hok3). ok_res.
  assert (Hdb : vread (view s0) (paddr c q + sizeof_page_header + cur mod dps c) n = slice content cur n)
    by (apply (data_page_bytes c (view s0) content d p cur n); done || lia).
  rewrite Ev2, Hdb.
  assert (Hrd3 : reading (T - ticks c 1 - 1 - 1 - 1) s0 fd_i fd fd1 s3) by (by eapply reading_cache).
  wp_step. eapply wp_upd_fd; [exact (reading_fd _ _ _ _ _ _ _ H0 Hrd3)|]. wp_step.
  rewrite (u32_small (cur + n)), (u16_small (d + 1)) by lia.
  eexists _, (ix_span c d). split; [done|]. split; [|split].
  - replace (T - (ticks c 1 + 3)) with (T - ticks c 1 - 1 - 1 - 1) by lia.
    apply (reading_upd _ _ _ _ _ _ _ Hrd3). by rewrite Hsame1.
  - done.
  - right. exists p. split; [done|]. split; [|done]. cbn. rewrite Hf3. cbn. by rewrite Hf2.
Qed.

(** Pages a read of [cur .. e-1] touches. *)
Definition read_pages (c : spiffs_config) (cur e : Z) : Z :=
  if cur <? e then (e - 1) / dps c - cur / dps c + 1 else 0.

Lemma read_pages_step c cur e : wf_cfg c -> 0 <= cur < e ->
  let cur' := cur + read_chunk c cur e in
  read_pages c cur e = read_pages c cur' e + 1 /\ cur < cur' <= e /\ 0 <= read_pages c cur' e <= e - cur' /\
  (cur' < e -> cur' / dps c = cur / dps c + 1).
Proof.
  intros Hwf Hc. pose proof (dps_eq c Hwf). cbv zeta.
  pose proof (Z.div_mod cur (dps c) ltac:(lia)) as Hdm. pose proof (Z.mod_pos_bound cur (dps c) ltac:(lia)) as Hm.
  set (d := cur / dps c) in *.
  assert (Hch : cur + read_chunk c cur e = e /\ e <= dps c * (d + 1) \/ cur + read_chunk c cur e = dps c * (d + 1) /\ dps c * (d + 1) < e)
    by (unfold read_chunk; lia).
  unfold read_pages. fold d. rewrite (proj2 (Z.ltb_lt cur e)) by lia.
  destruct Hch as [[-> Hle]|[-> Hlt]].
  - rewrite Z.ltb_irrefl. replace ((e - 1) / dps c) with d by (apply (Z.div_unique _ _ _ (e - 1 - dps c * d)); lia). lia.
  - rewrite (proj2 (Z.ltb_lt (dps c * (d + 1)) e)) by lia.
    replace (dps c * (d + 1) / dps c) with (d + 1) by (rewrite Z.mul_comm, Z.div_mul; lia).
    pose proof (Z.div_le_mono (dps c * (d + 1)) (e - 1) (dps c) ltac:(lia) ltac:(lia)) as Hmono.
    rewrite (Z.mul_comm (dps c)), Z.div_mul in Hmono by lia.
    assert ((e - 1) / dps c <= d + 1 + (e - 1 - dps c * (d + 1))) by (apply Z.div_le_upper_bound; nia).
    repeat split; lia.
Qed.

Definition read_inv T s0 (fd_i : Z) fd content off len (n : nat) (l : Z * Z * Z * Z * list Z) s : Prop :=
  let c := cfg s0 in
  let '(res, cur, prev, d, dst) := l in
  res = SPIFFS_OK /\ off <= cur <= off + len /\ dst = slice content off (cur - off) /\
  (cur < off + len -> d = cur / dps c) /\ Z.of_nat n = read_pages c cur (off + len) /\
  exists fd' : spiffs_fd, reading (T + Z.of_nat n * read_ticks c) s0 fd_i fd fd' s /\
    loaded c (view s0) fd prev fd' (work s) /\ (off < cur -> fd_offset fd' = cur).

Lemma object_read_ok T s fd_i fd content off len :
  fs_cur T s -> fds s !! Z.to_nat fd_i = Some fd ->
  holds (cfg s) (view s) (fd_obj_id fd) (fd_objix_hdr_pix fd) content -> fd_size fd = zlen content ->
  zlen content <= 65535 * dps (cfg s) -> zlen content < 2 ^ 32 ->
  0 <= off -> 0 <= len -> off + len <= zlen content ->
  read_pages (cfg s) off (off + len) * read_ticks (cfg s) <= T ->
  wp (spiffs_object_read fd_i off len) (fun r s' => r = (SPIFFS_OK, slice content off len) /\
    exists fd' : spiffs_fd, reading (T - read_pages (cfg s) off (off + len) * read_ticks (cfg s)) s fd_i fd fd' s' /\
      (0 < len -> fd_offset fd' = off + len)) s.
Proof.
  intros Hcur Hfd Hh Hsz Hmx Hmx2 Hoff Hlen Hend HT. pose proof Hcur as (Hok & _). pose proof (fs_ok_wf _ _ Hok) as Hwf.
  pose proof (ticks_nonneg (cfg s) 1 Hwf ltac:(done)) as Htk. pose proof (dps_eq (cfg s) Hwf) as [_ Hdps].
  unfold spiffs_object_read. wp_step. wp_step. wp_step.
  set (c := cfg s) in *. set (N := read_pages c off (off + len)) in *.
  assert (HN : 0 <= N <= len).
  { unfold N. destruct (decide (len = 0)) as [->|]; [unfold read_pages; rewrite Z.add_0_r, Z.ltb_irrefl; lia|].
    pose proof (read_pages_step c off (off + len) Hwf ltac:(lia)). cbv zeta in *. lia. }
  assert (HR : 0 <= read_ticks c) by (unfold read_ticks; lia).
  rewrite (u16_small (off / dps c)).
  2: { split; [apply Z.div_pos; lia|apply Z.div_lt_upper_bound; lia]. }
  apply (wp_loop_ix (read_inv (T - N * read_ticks c) s fd_i fd content off len)) with (n := Z.to_nat N).
  - intros n [[[[res cur] prev] d] dst] s1 (-> & Hc & -> & Hd & Hn & fd1 & Hrd & Hld & Hfo).
    destruct (decide (cur = off + len)) as [->|Hne].
    + pose proof Hrd as (_ & Hrr & _). apply read_rest_inv in Hrr as (Ec & _ & _).
      unfold read_body. wp_step. wp_step. rewrite (u32_small (off + len)) by lia. rewrite Z.ltb_irrefl. wp_step. wp_step.
      unfold read_pages in Hn. rewrite Z.ltb_irrefl in Hn. replace n with 0%nat in Hrd by lia.
      rewrite Z.add_0_r in Hrd. replace (off + len - off) with len by lia. split; [done|]. exists fd1. split; [exact Hrd|].
      intros. apply Hfo. lia.
    + rewrite (Hd ltac:(lia)) in *. fold c in Hn. pose proof (read_pages_step c cur (off + len) Hwf ltac:(lia)) as (Hp & Hcu & Hpr & Hdn).
      wp_apply (read_body_ok _ s s1 fd_i fd fd fd1 content off len cur prev); try done; try lia.
      { fold c. pose proof (Z.mul_le_mono_nonneg_r 1 (Z.of_nat n) (read_ticks c) HR ltac:(lia)). lia. }
      intros r s2 (fd2 & i & -> & Hrd2 & Hfo2 & Hld2). fold c in Hrd2, Hfo2. exists (Z.to_nat (Z.of_nat n - 1)). split; [lia|].
      unfold read_inv. fold c. split; [done|]. split; [lia|]. split; [|split; [|split; [lia|]]].
      * replace cur with (off + (cur - off)) at 2 by lia. rewrite slice_app by lia. f_equal. lia.
      * intros. symmetry. apply Hdn. lia.
      * exists fd2. split; [|split; [done|intros; exact Hfo2]].
        replace (T - N * read_ticks c + Z.of_nat (Z.to_nat (Z.of_nat n - 1)) * read_ticks c)
          with (T - N * read_ticks c + Z.of_nat n * read_ticks c - read_ticks c) by lia. exact Hrd2.
  - lia.
  - unfold read_inv. fold c. split; [done|]. split; [lia|]. rewrite Z.sub_diag. split; [done|].
    split; [done|]. split; [lia|]. exists fd. split; [|split; [by left|lia]].
    replace (T - N * read_ticks c + Z.of_nat (Z.to_nat N) * read_ticks c) with T by nia.
    split; [done|]. split; [done|]. split; [|by destruct fd]. unfold zset. by rewrite list_insert_id.
Qed.
End read.
