(* ===== verification/SpiffsHandle.v ===== *)
(** File descriptors and the public API ([spiffs_hydrogen.c]): the descriptor
    table, calls of the API and the error their guard gives, and reading through a handle. *)
From S2P Require Import Prelude CSem SpiffsTypes SpiffsGeom SpiffsCache SpiffsIo SpiffsLookup SpiffsSearch SpiffsPage SpiffsFind SpiffsIndex SpiffsObject SpiffsContent SpiffsApi SpiffsCheck SpiffsRead.
From stdpp Require Import base list numbers option.

Open Scope Z_scope.

(** ** The descriptor table *)

Section table.
Context {F : Type} {hal : SpiffsHal F}.
Implicit Types s : spiffs F.

(** Descriptor [i] is closed or carries the number [i + 1]. *)
Definition fd_table_ok s : Prop :=
  fd_count s = zlen (fds s) /\ zlen (fds s) < 32768 /\
  forall i fd, fds s !! i = Some fd -> fd_file_nbr fd = 0 \/ fd_file_nbr fd = Z.of_nat i + 1.

Definition is_open (l : list spiffs_fd) (i : nat) : Prop :=
  exists fd, l !! i = Some fd /\ fd_file_nbr fd <> 0.

Lemma fd_search_spec l i :
  match fd_search i l with
  | Some j => exists k fd, j = i + Z.of_nat k /\ l !! k = Some fd /\ fd_file_nbr fd = 0 /\
      forall k', (k' < k)%nat -> is_open l k'
  | None => forall k, (k < length l)%nat -> is_open l k
  end.
Proof.
  revert i. induction l as [|fd l IH]; intros i; cbn; [intros; lia|].
  destruct (fd_file_nbr fd =? 0) eqn:E; bools.
  - exists 0%nat, fd. split; [lia|]. split; [done|]. split; [done|]. intros; lia.
  - specialize (IH (i + 1)). destruct (fd_search _ l) as [j|].
    + destruct IH as (k & fd' & -> & Hk & Hc & Ho). exists (S k), fd'. split; [lia|]. split; [done|]. split; [done|].
      intros [|k'] Hk'; [by exists fd|]. apply (Ho k'). lia.
    + intros [|k'] Hk'; [by exists fd|]. apply (IH k'). lia.
Qed.

Lemma fd_table_set s i fd fd' : fd_table_ok s -> fds s !! Z.to_nat i = Some fd -> 0 <= i ->
  fd_file_nbr fd' = 0 \/ fd_file_nbr fd' = i + 1 -> fd_table_ok (set_fds (zset (fds s) i fd') s).
Proof.
  intros (Hc & Hl & Ho) Hi Hi0 Hn. unfold fd_table_ok. cbn. rewrite zlen_zset. split; [done|]. split; [done|].
  intros j fdj Hj. unfold zset in Hj. apply list_lookup_insert_Some in Hj as [(<- & <- & _)|(_ & Hj)]; [lia|by apply Ho].
Qed.

(** Allocation takes the first closed descriptor. *)
Lemma fd_find_new_ok s : fd_table_ok s ->
  wp spiffs_fd_find_new (fun r s' => fd_table_ok s' /\
    ((exists i fd, 0 <= i /\ r = (SPIFFS_OK, i) /\ fds s !! Z.to_nat i = Some fd /\ fd_file_nbr fd = 0 /\
        (forall k, (k < Z.to_nat i)%nat -> is_open (fds s) k) /\
        s' = set_fds (zset (fds s) i (set_fd_file_nbr (i + 1) fd)) s)
     \/ (r = (SPIFFS_ERR_OUT_OF_FILE_DESCS, 0) /\ s' = s /\ forall k, (k < length (fds s))%nat -> is_open (fds s) k))) s.
Proof.
  intros Hok. pose proof Hok as (Hc & Hl & Ho). unfold spiffs_fd_find_new. wp_step. wp_step. wp_step. wp_step.
  rewrite Hc. unfold zlen. rewrite Nat2Z.id, firstn_all.
  pose proof (fd_search_spec (fds s) 0) as Hs. destruct (fd_search 0 (fds s)) as [j|].
  - destruct Hs as (k & fd & -> & Hk & Hcl & Hopen). rewrite Z.add_0_l. wp_step.
    eapply wp_upd_fd; [by rewrite Nat2Z.id|]. wp_step.
    pose proof (lookup_lt_Some _ _ _ Hk). rewrite s16_small by (unfold zlen in Hl; lia). split.
    + eapply fd_table_set; [done|by rewrite Nat2Z.id|lia|by right].
    + left. exists (Z.of_nat k), fd. rewrite Nat2Z.id. split; [lia|]. done.
  - wp_step. split; [done|]. right. done.
Qed.

Lemma fd_get_ok s f : fd_table_ok s ->
  wp (spiffs_fd_get f) (fun r s' => s' = s /\
    ((1 <= f <= fd_count s /\ exists fd, fds s !! Z.to_nat (f - 1) = Some fd /\
        r = (if fd_file_nbr fd =? 0 then SPIFFS_ERR_FILE_CLOSED else SPIFFS_OK, f - 1))
     \/ (~ 1 <= f <= fd_count s /\ r = (SPIFFS_ERR_BAD_DESCRIPTOR, 0)))) s.
Proof.
  intros (Hc & Hl & _). unfold spiffs_fd_get. wp_step. wp_step. rewrite s16_small by (pose proof (zlen_nonneg (fds s)); lia).
  destruct (_ || _) eqn:E.
  - wp_step. split; [done|]. right. apply orb_true_iff in E as [E|E]; bools; split; (done || lia).
  - bools. wp_step. destruct (lookup_lt_is_Some_2 (fds s) (Z.to_nat (f - 1))) as [fd Hfd]; [unfold zlen in *; lia|].
    eapply wp_fd_at; [done|]. destruct (fd_file_nbr fd =? 0) eqn:E0.
    + wp_step. split; [done|]. left. split; [lia|]. exists fd. by rewrite E0.
    + wp_step. split; [done|]. left. split; [lia|]. exists fd. by rewrite E0.
Qed.

Lemma fd_return_ok s f : fd_table_ok s ->
  wp (spiffs_fd_return f) (fun r s' => fd_table_ok s' /\
    ((1 <= f <= fd_count s /\ exists fd, fds s !! Z.to_nat (f - 1) = Some fd /\
        if fd_file_nbr fd =? 0 then r = SPIFFS_ERR_FILE_CLOSED /\ s' = s
        else r = SPIFFS_OK /\ s' = set_fds (zset (fds s) (f - 1) (set_fd_file_nbr 0 fd)) s)
     \/ (~ 1 <= f <= fd_count s /\ r = SPIFFS_ERR_BAD_DESCRIPTOR /\ s' = s))) s.
Proof.
  intros Hok. pose proof Hok as (Hc & Hl & _). unfold spiffs_fd_return. wp_step. wp_step.
  rewrite s16_small by (pose proof (zlen_nonneg (fds s)); lia). destruct (_ || _) eqn:E.
  - wp_step. split; [done|]. right. apply orb_true_iff in E as [E|E]; bools; split; (done || lia).
  - bools. wp_step. destruct (lookup_lt_is_Some_2 (fds s) (Z.to_nat (f - 1))) as [fd Hfd]; [unfold zlen in *; lia|].
    eapply wp_fd_at; [done|]. destruct (fd_file_nbr fd =? 0) eqn:E0.
    + wp_step. split; [done|]. left. split; [lia|]. exists fd. by rewrite E0.
    + wp_step. eapply wp_upd_fd; [done|]. wp_step.
      split; [eapply fd_table_set; [done|done|lia|by left]|]. left. split; [lia|]. exists fd. by rewrite E0.
Qed.
End table.

(** ** Calls of the API

    All operations with a return code or, for [SPIFFS_opendir], a pointer, other than
    [SPIFFS_mount] and [SPIFFS_unmount].  [SPIFFS_readdir] returns an entry and is not
    among them. *)
Inductive api_call : Type :=
  | ACreat (junk path : list Z) | AOpen (junk path : list Z) (flags : Z) | AOpenByDirent (e : spiffs_dirent) (flags : Z)
  | AWrite (uninit fh : Z) (buf : list Z) (len : Z) | ARead (uninit fh len : Z) | ALseek (uninit fh offs whence : Z)
  | ARemove (path : list Z) | AFremove (fh : Z) | AFflush (uninit fh : Z) | AClose (uninit fh : Z)
  | ARename (old new : list Z) | AStat (path : list Z) | AFstat (uninit fh : Z) | AOpendir | AClosedir
  | AInfo | AGcQuick (max_free_pages : Z) | AGc (size : Z) | AEof (uninit fh : Z) | ATell (uninit fh : Z) | ACheck (fuel : nat)
  | AFormat.

Section api.
Context {F : Type} {hal : SpiffsHal F}.
Implicit Types s : spiffs F.

(** The return code of a call; -1 for a null pointer. *)
Definition api_run (a : api_call) : C (spiffs F) Z :=
  match a with
  | ACreat junk path => SPIFFS_creat junk path
  | AOpen junk path flags => SPIFFS_open junk path flags
  | AOpenByDirent e flags => SPIFFS_open_by_dirent e flags
  | AWrite uninit fh buf len => SPIFFS_write uninit fh buf len
  | ARead uninit fh len => r ← SPIFFS_read uninit fh len; mret r.1
  | ALseek uninit fh offs whence => SPIFFS_lseek uninit fh offs whence
  | ARemove path => SPIFFS_remove path
  | AFremove fh => SPIFFS_fremove fh
  | AFflush uninit fh => SPIFFS_fflush uninit fh
  | AClose uninit fh => SPIFFS_close uninit fh
  | ARename old new => SPIFFS_rename old new
  | AStat path => r ← SPIFFS_stat path; mret r.1
  | AFstat uninit fh => r ← SPIFFS_fstat uninit fh; mret r.1
  | AOpendir => r ← SPIFFS_opendir; mret (if bool_decide (r = None) then -1 else 0)
  | AClosedir => SPIFFS_closedir
  | AInfo => r ← SPIFFS_info; mret r.1.1
  | AGcQuick max_free_pages => SPIFFS_gc_quick max_free_pages
  | AGc size => SPIFFS_gc size
  | AEof uninit fh => SPIFFS_eof uninit fh
  | ATell uninit fh => SPIFFS_tell uninit fh
  | ACheck fuel => SPIFFS_check fuel
  | AFormat => SPIFFS_format
  end.

(** The error of a call on a file system that cannot be used. *)
Definition guard_error s : option Z :=
  if negb (config_magic s =? SPIFFS_CONFIG_MAGIC) then Some SPIFFS_ERR_NOT_CONFIGURED
  else if mounted s =? 0 then Some SPIFFS_ERR_NOT_MOUNTED else None.
End api.

(** ** Reading through a handle *)

Section handle.
Context {F : Type} {hal : SpiffsHal F} {nor : NorHal F}.
Implicit Types s : spiffs F.

(** No written data of the file waits in the cache. *)
Definition unbuffered s (fd : spiffs_fd) : Prop :=
  fd_cache_page fd = None /\ forall ca i cp, cache s = Some ca -> cpages ca !! i = Some cp ->
    in_use ca i = true -> is_wr cp = true -> cp_pix cp <> fd_obj_id fd.

Lemma get_by_fd_none s fd ca : cache s = Some ca -> unbuffered s fd ->
  wp (spiffs_cache_page_get_by_fd fd) (fun r s' => r = None /\ s' = s) s.
Proof.
  intros Hca [_ Hun]. unfold spiffs_cache_page_get_by_fd. wp_step. eapply wp_get_cache; [done|].
  wp_step; [by wp_step|]. wp_step. split; [|done].
  destruct (cp_search _ 0 _) as [i|] eqn:E'; [|done]. exfalso.
  apply cp_search_Some in E' as (k & cp & -> & Hk & Hp). bools. apply (Hun ca k cp Hca Hk).
  - unfold in_use. rewrite <- hasb_bit by lia. by rewrite Z.add_0_l in *.
  - done.
  - done.
Qed.

(** Flushing a file without buffered data does nothing. *)
Lemma fflush_cache_none uninit fh fd ca s :
  fd_table_ok s -> 1 <= fh <= fd_count s -> fds s !! Z.to_nat (fh - 1) = Some fd -> fd_file_nbr fd <> 0 ->
  cache s = Some ca -> unbuffered s fd ->
  wp (spiffs_fflush_cache uninit fh) (fun r s' => r = SPIFFS_OK /\ s' = s) s.
Proof.
  intros Ht Hfh Hfd Hop Hca Hun. unfold spiffs_fflush_cache. wp_step. wp_apply fd_get_ok; [done|].
  intros r s1 (-> & [(_ & fd1 & Hfd1 & ->)|(Hn & _)]); [|lia].
  rewrite Hfd in Hfd1. injection Hfd1 as <-. rewrite (proj2 (Z.eqb_neq _ _) Hop). ok_res.
  wp_step. eapply wp_fd_at; [done|]. wp_step; [|by wp_step].
  pose proof Hun as [Hcp _]. rewrite Hcp. wp_step. rewrite bool_decide_true by done. wp_step.
  wp_apply get_by_fd_none; [done|done|]. intros r s2 [-> ->]. eapply wp_upd_fd; [done|].
  replace (set_fds _ s) with s.
  2: { destruct s; unfold set_fds; cbn in *. f_equal. unfold zset. rewrite list_insert_id; [done|].
       rewrite Hfd. f_equal. by destruct fd; cbn in *; subst. }
  wp_step. eapply wp_fd_at; [done|]. rewrite Hcp. by wp_step.
Qed.

(** Bytes a read of [len] bytes at position [pos] of a file of [size] bytes gives. *)
Definition readable (size pos len : Z) : Z := Z.max 0 (Z.min len (size - pos)).

(** The end of [SPIFFS_read]: the offset advances. *)
Lemma advance_ok T s0 i fd0 fd fd' n (d : list Z) s :
  fds s0 !! Z.to_nat i = Some fd0 -> reading T s0 i fd fd' s -> 0 <= fd_fdoffset fd + n < 2 ^ 32 ->
  wp (upd_fd i (fun fd => set_fd_fdoffset (u32 (fd_fdoffset fd + n)) fd);; mret (n, d)) (fun r s' => r = (n, d) /\
    exists fd'' : spiffs_fd, reading T s0 i (set_fd_fdoffset (fd_fdoffset fd + n) fd) fd'' s') s.
Proof.
  intros H0 Hr Hn. wp_step. eapply wp_upd_fd; [exact (reading_fd _ _ _ _ _ _ _ H0 Hr)|]. wp_step. split; [done|].
  destruct Hr as ((Hok & ? & ?) & Hrr & Hf & Hs). eexists. split; [|split; [done|split]].
  - split; [by eapply fs_okx_same|done].
  - cbn. rewrite Hf. unfold zset. by rewrite list_insert_insert_eq.
  - rewrite Hs. unfold same_file. cbn. by rewrite u32_small.
Qed.

(** [SPIFFS_read] on an open handle of a stored file. *)
Lemma api_read_ok T s uninit fh fd content len :
  fs_cur T s -> fd_table_ok s -> guard_error s = None ->
  1 <= fh <= fd_count s -> fds s !! Z.to_nat (fh - 1) = Some fd -> fd_file_nbr fd <> 0 -> hasb (fd_flags fd) SPIFFS_RDONLY = true ->
  unbuffered s fd -> holds (cfg s) (view s) (fd_obj_id fd) (fd_objix_hdr_pix fd) content -> fd_size fd = zlen content ->
  zlen content <= 65535 * dps (cfg s) -> zlen content < 2 ^ 31 -> 0 < len < 2 ^ 31 -> 0 <= fd_fdoffset fd < 2 ^ 31 ->
  let pos := fd_fdoffset fd in let n := readable (zlen content) pos len in
  read_pages (cfg s) pos (pos + n) * read_ticks (cfg s) <= T ->
  wp (SPIFFS_read uninit fh len) (fun r s' =>
    if n =? 0 then r = (-1, []) /\ s' = set_err_code SPIFFS_ERR_END_OF_OBJECT s
    else r = (n, slice content pos n) /\ exists fd' : spiffs_fd,
      reading (T - read_pages (cfg s) pos (pos + n) * read_ticks (cfg s)) s (fh - 1) (set_fd_fdoffset (pos + n) fd) fd' s') s.
Proof.
  intros Hcur Ht Hg Hfh Hfd Hop Hrd Hun Hh Hsz Hmx Hmx2 Hlen Hpos pos n HT.
  pose proof Hcur as ((_ & ca & Hca & _) & _). pose proof (zlen_nonneg content) as H0.
  unfold guard_error in Hg. unfold SPIFFS_read. wp_step. wp_step. destruct (negb (config_magic s =? _)); [done|].
  wp_step. wp_step. destruct (mounted s =? 0); [done|]. wp_step. wp_apply fd_get_ok; [done|].
  intros r s1 (-> & [(_ & fd1 & Hfd1 & ->)|(Hn & _)]); [|lia].
  rewrite Hfd in Hfd1. injection Hfd1 as <-. rewrite (proj2 (Z.eqb_neq _ _) Hop). ok_res.
  wp_step. eapply wp_fd_at; [done|]. rewrite Hrd, Hsz. cbn [negb].
  replace (zlen content =? SPIFFS_UNDEFINED_LEN) with false by (symmetry; apply Z.eqb_neq; unfold SPIFFS_UNDEFINED_LEN; lia).
  cbn [andb]. wp_step. wp_apply fflush_cache_none; [done..|]. intros r s1 [-> ->]. wp_step.
  eapply wp_fd_at; [done|]. rewrite Hsz. fold pos. rewrite (u32_small (pos + len)) by lia.
  assert (Hread : forall m, 0 <= m -> m = n -> pos + m <= zlen content -> forall k : Z * list Z -> C (spiffs F) (Z * list Z),
    (forall r s', r = (SPIFFS_OK, slice content pos n) -> (exists fd' : spiffs_fd,
        reading (T - read_pages (cfg s) pos (pos + n) * read_ticks (cfg s)) s (fh - 1) fd fd' s') ->
      wp (k r) (fun r s' => r = (n, slice content pos n) /\ exists fd' : spiffs_fd,
        reading (T - read_pages (cfg s) pos (pos + n) * read_ticks (cfg s)) s (fh - 1) (set_fd_fdoffset (pos + n) fd) fd' s') s') ->
    wp (spiffs_object_read (fh - 1) pos m ≫= k) (fun r s' => r = (n, slice content pos n) /\ exists fd' : spiffs_fd,
        reading (T - read_pages (cfg s) pos (pos + n) * read_ticks (cfg s)) s (fh - 1) (set_fd_fdoffset (pos + n) fd) fd' s') s).
  { intros m Hm -> Hmc k Hk. eapply wp_call; [apply (object_read_ok T s (fh - 1) fd content pos n); try done; lia|].
    intros r s1 (-> & fd' & Hr & _). apply Hk; [done|by exists fd']. }
  destruct (zlen content <=? pos + len) eqn:E; bools.
  - rewrite (s32_small (zlen content - pos)) by lia. destruct (zlen content - pos <=? 0) eqn:E2; bools.
    + assert (n = 0) as -> by (unfold n, readable; lia). unfold with_buf, api_fail. by do 4 wp_step.
    + assert (Hn : zlen content - pos = n) by (unfold n, readable; lia).
      rewrite (proj2 (Z.eqb_neq n 0)) by lia. apply Hread; [lia|done|lia|].
      intros r s1 -> (fd' & Hr). cbn [fst snd]. change (SPIFFS_OK =? SPIFFS_ERR_END_OF_OBJECT) with false. ok_res.
      rewrite Hn. by apply (advance_ok _ s (fh - 1) fd fd fd' n); [| |fold pos; lia].
  - assert (Hn : len = n) by (unfold n, readable; lia).
    rewrite (proj2 (Z.eqb_neq n 0)) by lia. apply Hread; [lia|done|lia|].
    intros r s1 -> (fd' & Hr). ok_res. rewrite Hn. by apply (advance_ok _ s (fh - 1) fd fd fd' n); [| |fold pos; lia].
Qed.
End handle.
