(* ===== verification/SpiffsPreserve.v ===== *)
(** Invariants that hold whatever is on the flash.

    [FsInv I] is what an invariant [I] of the file system state promises to the
    operations: it does not look at the counters, cursors, work buffers and the
    flash, and survives the ways descriptors and cache pages are changed.  Every
    operation of the file system preserves every such invariant, on every path,
    errors and inconsistent flash contents included. *)
From S2P Require Import Prelude CSem SpiffsTypes SpiffsCache SpiffsLookup SpiffsPage SpiffsIndex SpiffsGc SpiffsObject SpiffsContent SpiffsApi SpiffsCheck SpiffsHandle.
From stdpp Require Import base list numbers option.

Open Scope Z_scope.

(** A descriptor keeps its number, is closed or is opened at its place. *)
Definition fds_step (l l' : list spiffs_fd) : Prop :=
  length l' = length l /\
  forall i fd fd', l !! i = Some fd -> l' !! i = Some fd' ->
    fd_file_nbr fd' = fd_file_nbr fd \/ fd_file_nbr fd' = 0 \/ fd_file_nbr fd' = s16 (Z.of_nat i + 1).

(** The cache pages stay where they are; [wr]: pages may become write pages. *)
Definition cache_step (wr : bool) (ca ca' : spiffs_cache) : Prop :=
  cpage_count ca' = cpage_count ca /\ cpage_use_mask ca' = cpage_use_mask ca /\
  Forall2 (fun cp cp' => cp_ix cp' = cp_ix cp /\ (wr = false -> is_wr cp' = true -> is_wr cp = true)) (cpages ca) (cpages ca').

Section inv.
Context {F : Type}.

(** The part of the state the invariants may look at. *)
Definition keep (s : spiffs F) :=
  (cfg s, block_count s, fds s, fd_count s, cache s, cache_size s, mounted s, config_magic s).

Class FsInv (I : spiffs F -> Prop) : Prop := {
  inv_inert : forall s s', keep s' = keep s -> I s -> I s';
  inv_fds : forall s l, fds_step (fds s) l -> I s -> I (set_fds l s);
  inv_cache : forall s ca ca', cache s = Some ca -> cache_step false ca ca' -> I s -> I (set_cache (Some ca') s)
}.

(** Also with new write pages. *)
Class FsInvW (I : spiffs F -> Prop) : Prop := {
  #[global] inv_w :: FsInv I;
  inv_cache_w : forall s ca ca', cache s = Some ca -> cache_step true ca ca' -> I s -> I (set_cache (Some ca') s)
}.
End inv.

Create HintDb pres.

Ltac pres_setter :=
  match goal with
  | HI : ?I ?s |- ?I (if ?b then _ else _) => destruct b; pres_setter
  | HI : ?I ?s |- ?I ?s => exact HI
  | HI : ?I ?s |- ?I _ => eapply inv_inert; [|exact HI]; reflexivity
  end.

Ltac head_of t := lazymatch t with ?f _ => head_of f | _ => t end.

(** Walks through the structure of a computation: calls are looked up in [pres] or
    unfolded. *)
Ltac pres_step :=
  cbv beta zeta;
  lazymatch goal with
  | |- preserves _ (mret _) => apply pres_ret
  | |- preserves _ (gets _) => apply pres_gets
  | |- preserves _ undefined => apply pres_undefined
  | |- preserves _ (mbind _ _) => apply pres_bind; [|intro]
  | |- preserves _ (loop _ _ _) => apply pres_loop; intro
  | |- preserves _ (modify _) => apply pres_modify; intros ? ?; pres_setter
  | |- preserves _ (match ?x with _ => _ end) => destruct x
  | |- preserves _ ?m => first [solve [auto with pres nocore] | let h := head_of m in progress unfold h]
  end.
Ltac pres := repeat pres_step.

(** ** Descriptors and cache pages *)

Lemma fds_step_refl l : fds_step l l.
Proof. split; [done|]. intros i fd fd' H H'. left. congruence. Qed.

Lemma fds_step_set l i fd fd' : l !! i = Some fd ->
  fd_file_nbr fd' = fd_file_nbr fd \/ fd_file_nbr fd' = 0 \/ fd_file_nbr fd' = s16 (Z.of_nat i + 1) -> fds_step l (<[i := fd']> l).
Proof.
  intros Hi Hn. split; [apply length_insert|]. intros j f f' Hj Hj'. apply list_lookup_insert_Some in Hj' as [(<- & <- & _)|(_ & Hj')].
  - rewrite Hi in Hj. injection Hj as <-. done.
  - left. congruence.
Qed.

Lemma fds_step_map l (f : spiffs_fd -> spiffs_fd) : (forall fd, fd_file_nbr (f fd) = fd_file_nbr fd \/ fd_file_nbr (f fd) = 0) ->
  fds_step l (f <$> l).
Proof.
  intros Hf. split; [apply length_fmap|]. intros i fd fd' Hi Hi'. rewrite list_lookup_fmap, Hi in Hi'. injection Hi' as <-.
  destruct (Hf fd); auto.
Qed.

Lemma cache_step_pages wr ca l : Forall2 (fun cp cp' => cp_ix cp' = cp_ix cp /\ (wr = false -> is_wr cp' = true -> is_wr cp = true)) (cpages ca) l ->
  forall n u, cache_step wr ca (mkCache (cpage_count ca) n u (cpage_use_mask ca) l).
Proof. done. Qed.

Lemma cache_pages_refl wr l :
  Forall2 (fun cp cp' => cp_ix cp' = cp_ix cp /\ (wr = false -> is_wr cp' = true -> is_wr cp = true)) l l.
Proof. induction l; by constructor. Qed.

Lemma cache_pages_set wr l i cp cp' : l !! i = Some cp -> cp_ix cp' = cp_ix cp -> (wr = false -> is_wr cp' = true -> is_wr cp = true) ->
  Forall2 (fun cp cp' => cp_ix cp' = cp_ix cp /\ (wr = false -> is_wr cp' = true -> is_wr cp = true)) l (<[i := cp']> l).
Proof.
  intros Hi Hx Hw. apply Forall2_same_length_lookup_2; [by rewrite length_insert|]. intros j x y Hj Hj'.
  apply list_lookup_insert_Some in Hj' as [(<- & <- & _)|(_ & Hj')]; [rewrite Hi in Hj; by injection Hj as <-|].
  rewrite Hj in Hj'. by injection Hj' as <-.
Qed.

Section pres.
Context {F : Type} {hal : SpiffsHal F} (I : spiffs F -> Prop) `{!FsInv I}.
Implicit Types s : spiffs F.

Lemma get_cache_pres {A} (k : spiffs_cache -> C (spiffs F) A) :
  (forall ca s a s', cache s = Some ca -> I s -> k ca s = Done (a, s') -> I s') -> preserves I (ca ← spiffs_get_cache; k ca).
Proof.
  intros Hk s a s' HI. unfold spiffs_get_cache, mbind, C_bind, gets, undefined. destruct (cache s) as [ca|] eqn:E; [|done].
  by eapply Hk.
Qed.

(** A change of the cache whose pages are untouched. *)
Lemma put_same_pres (f : spiffs_cache -> spiffs_cache) ca s a s' : cache s = Some ca -> I s ->
  cpage_count (f ca) = cpage_count ca -> cpage_use_mask (f ca) = cpage_use_mask ca -> cpages (f ca) = cpages ca ->
  put_cache (f ca) s = Done (a, s') -> I s'.
Proof.
  intros Hc HI H1 H2 H3 [= <- <-]. apply (inv_cache s ca); [done| |done]. split; [done|]. split; [done|]. rewrite H3. apply cache_pages_refl.
Qed.

Lemma upd_cpage_pres i f : (forall cp, cp_ix (f cp) = cp_ix cp) -> (forall cp, is_wr (f cp) = true -> is_wr cp = true) ->
  preserves I (upd_cpage i f).
Proof.
  intros Hx Hw. unfold upd_cpage. apply get_cache_pres. intros ca s a s' Hc HI. unfold spiffs_get_cache_page_hdr, mbind, C_bind.
  destruct (cpages ca !! Z.to_nat i) as [cp|] eqn:E; [|done]. intros [= <- <-]. apply (inv_cache s ca); [done| |done].
  split; [done|]. split; [done|]. cbn. eapply cache_pages_set; [done|done|]. intros _. apply Hw.
Qed.

#[local] Hint Extern 1 (preserves I (upd_cpage _ _)) => apply upd_cpage_pres; [done|done] : pres.

Lemma pres_let_pages {A} (k : spiffs_cache -> C (spiffs F) A) : (forall ca, preserves I (k ca)) -> preserves I (ca ← spiffs_get_cache; k ca).
Proof. intros Hk. apply get_cache_pres. intros ca s a s' _ HI. by eapply Hk. Qed.

Lemma hdr_pres ca i : preserves I (spiffs_get_cache_page_hdr ca i).
Proof. unfold spiffs_get_cache_page_hdr. destruct (cpages ca !! _); [apply pres_ret|apply pres_undefined]. Qed.

(** [ca ← spiffs_get_cache; put_cache (f ca); k]. *)
Lemma put_get_pres {A} (f : spiffs_cache -> spiffs_cache) (k : spiffs_cache -> C (spiffs F) A) :
  (forall ca, cpage_count (f ca) = cpage_count ca /\ cpage_use_mask (f ca) = cpage_use_mask ca /\ cpages (f ca) = cpages ca) ->
  (forall ca, preserves I (k ca)) -> preserves I (ca ← spiffs_get_cache; put_cache (f ca);; k ca).
Proof.
  intros Hf Hk. apply get_cache_pres. intros ca s a s' Hc HI. unfold mbind, C_bind. destruct (put_cache (f ca) s) as [[u s1]| |] eqn:E; [|done|done].
  intros H. eapply (Hk ca); [|exact H]. destruct (Hf ca) as (H1 & H2 & H3). by eapply (put_same_pres f ca s).
Qed.

Lemma cache_page_get_pres pix : preserves I (spiffs_cache_page_get pix).
Proof. unfold spiffs_cache_page_get. apply pres_let_pages. intros ca. pres. Qed.

Lemma cache_page_free_pres ix wb : preserves I (spiffs_cache_page_free ix wb).
Proof.
  unfold spiffs_cache_page_free. apply pres_let_pages. intros ca. pres_step; [pres|]. pres_step; [apply hdr_pres|]. pres_step; [|pres].
  pres_step; [pres|]. pres_step; [pres|]. apply (put_get_pres (fun ca => set_cpage_use_map (Z.ldiff (cpage_use_map ca) (Z.shiftl 1 ix)) ca)); [done|].
  intros ?. pres.
Qed.
#[local] Hint Resolve cache_page_get_pres cache_page_free_pres hdr_pres : pres.

Lemma cache_page_allocate_pres : preserves I spiffs_cache_page_allocate.
Proof.
  unfold spiffs_cache_page_allocate. apply get_cache_pres. intros ca s a s' Hc HI. destruct (_ =? _); [by intros [= <- <-]|].
  destruct (cp_search _ _ _) as [i|]; [|by intros [= <- <-]].
  unfold mbind at 1, C_bind at 1. destruct (put_cache _ s) as [[u s1]| |] eqn:E; [|done|done].
  assert (HI1 : I s1) by by eapply (put_same_pres (fun ca => set_cpage_use_map (Z.lor (cpage_use_map ca) (Z.shiftl 1 i)) ca) ca s).
  revert HI1. intros HI1 H. eapply (pres_bind I (upd_cpage i (set_cp_last_access (c_last_access ca))) (fun _ => mret (Some i))); [pres|intro; pres|exact HI1|exact H].
Qed.
#[local] Hint Resolve cache_page_allocate_pres : pres.

Lemma remove_oldest_pres m f : preserves I (spiffs_cache_page_remove_oldest m f).
Proof. unfold spiffs_cache_page_remove_oldest. apply pres_let_pages. intros ca. pres. Qed.
#[local] Hint Resolve remove_oldest_pres : pres.

Lemma copy_out_pres i addr len res : preserves I (cpage_copy_out i addr len res).
Proof. unfold cpage_copy_out. pres_step; [pres|]. apply pres_let_pages. intros ca. pres. Qed.
#[local] Hint Resolve copy_out_pres : pres.

Lemma phys_rd_pres op fh addr len : preserves I (spiffs_phys_rd op fh addr len).
Proof.
  unfold spiffs_phys_rd. pres_step; [pres|]. pres_step; [pres|].
  apply (put_get_pres (fun ca => set_c_last_access (u32 (c_last_access ca + 1)) ca)); [done|]. intros ca. pres.
Qed.

Lemma phys_wr_pres op fh addr src : preserves I (spiffs_phys_wr op fh addr src).
Proof.
  unfold spiffs_phys_wr. pres_step; [pres|]. pres_step; [pres|]. destruct a0 as [i|]; [|pres]. pres_step; [|pres].
  apply pres_let_pages. intros ca. pres_step; [pres|]. pres_step; [pres|]. cbv zeta. pres_step; [|pres]. pres_step; [pres|].
  apply (put_get_pres (fun ca => set_c_last_access (u32 (c_last_access ca + 1)) ca)); [done|]. intros ca'. pres.
Qed.

Lemma get_by_fd_pres fd : preserves I (spiffs_cache_page_get_by_fd fd).
Proof. unfold spiffs_cache_page_get_by_fd. apply pres_let_pages. intros ca. pres. Qed.
#[local] Hint Resolve phys_rd_pres phys_wr_pres get_by_fd_pres : pres.

Lemma upd_fd_pres i f : (forall fd, fd_file_nbr (f fd) = fd_file_nbr fd \/ fd_file_nbr (f fd) = 0) -> preserves I (upd_fd i f).
Proof.
  intros Hf s a s' HI. unfold upd_fd, fd_at, mbind, C_bind, gets. destruct (fds s !! Z.to_nat i) as [fd|] eqn:E; [|done].
  intros [= <- <-]. apply inv_fds; [|done]. eapply fds_step_set; [done|]. destruct (Hf fd); auto.
Qed.
#[local] Hint Extern 1 (preserves I (upd_fd _ _)) => apply upd_fd_pres; let f := fresh in intros f; by destruct f; auto : pres.

Lemma modify_fds_pres f : (forall fd, fd_file_nbr (f fd) = fd_file_nbr fd \/ fd_file_nbr (f fd) = 0) ->
  preserves I (modify (fun s => set_fds (f <$> fds s) s)).
Proof. intros Hf. apply pres_modify. intros s HI. apply inv_fds; [by apply fds_step_map|done]. Qed.

Lemma cb_object_event_pres ev id spix pix size : preserves I (spiffs_cb_object_event ev id spix pix size).
Proof.
  unfold spiffs_cb_object_event. apply modify_fds_pres. intros fd. unfold fd_object_event.
  repeat (match goal with |- context [if ?b then _ else _] => destruct b end; cbn); auto.
Qed.

Lemma fd_release_pres o : preserves I (spiffs_cache_fd_release o).
Proof.
  unfold spiffs_cache_fd_release. destruct o as [i|]; [|pres]. pres_step.
  - apply modify_fds_pres. intros fd. destruct (_ && _); auto.
  - apply pres_let_pages. intros ca. pres.
Qed.

Lemma fd_find_new_pres : preserves I spiffs_fd_find_new.
Proof.
  unfold spiffs_fd_find_new. pres_step; [pres|]. intros s a' s' HI. unfold mbind, C_bind, gets.
  pose proof (fd_search_spec (take (Z.to_nat a) (fds s)) 0) as Hs. destruct (fd_search _ _) as [j|]; [|by intros [= <- <-]].
  destruct Hs as (k & fd & -> & Hk & _ & _). unfold upd_fd, fd_at, mbind, C_bind, gets. rewrite Z.add_0_l, Nat2Z.id.
  apply lookup_take_Some in Hk as [Hk _]. rewrite Hk. intros [= <- <-]. apply inv_fds; [|done]. unfold zset. rewrite Nat2Z.id.
  eapply fds_step_set; [done|]. auto.
Qed.
#[local] Hint Resolve cb_object_event_pres fd_release_pres fd_find_new_pres : pres.

(** ** The nucleus *)

Lemma visitor_pres {U} sb se flags id (v : option (spiffs_visitor_f U)) u0 b0 e0 :
  (forall f id b e u, v = Some f -> preserves I (f id b e u)) ->
  preserves I (spiffs_obj_lu_find_entry_visitor sb se flags id v u0 b0 e0).
Proof.
  intros Hv. destruct v as [f|].
  - assert (Hf : forall id b e u, preserves I (f id b e u)) by eauto. pres.
  - pres.
Qed.
#[local] Hint Extern 1 (preserves I (spiffs_obj_lu_find_entry_visitor _ _ _ _ None _ _ _)) => by apply visitor_pres : pres.
#[local] Hint Extern 2 (preserves I (spiffs_obj_lu_find_entry_visitor _ _ _ _ (Some _) _ _ _)) =>
  apply visitor_pres; intros ????? [= <-]; pres : pres.

Lemma erase_block_pres b : preserves I (spiffs_erase_block b).
Proof. pres. Qed.

Lemma drop_page_pres p : preserves I (spiffs_cache_drop_page p).
Proof. unfold spiffs_cache_drop_page. pres_step; [pres|]. destruct a; [|pres]. apply pres_let_pages. intros ca. pres. Qed.
#[local] Hint Resolve erase_block_pres drop_page_pres : pres.

Lemma gc_erase_block_pres b : preserves I (spiffs_gc_erase_block b).
Proof. pres. Qed.
#[local] Hint Resolve gc_erase_block_pres : pres.

Lemma gc_quick_pres n : preserves I (spiffs_gc_quick n).
Proof. pres. Qed.
#[local] Hint Resolve gc_quick_pres : pres.

Lemma find_id_pres sb se id b e : preserves I (spiffs_obj_lu_find_id sb se id b e).
Proof. pres. Qed.
#[local] Hint Resolve find_id_pres : pres.

Lemma find_free_pres b e : preserves I (spiffs_obj_lu_find_free b e).
Proof. pres. Qed.

Lemma find_id_and_span_pres fl id spix excl : preserves I (find_id_and_span fl id spix excl).
Proof. pres. Qed.

Lemma page_delete_pres p : preserves I (spiffs_page_delete p).
Proof. pres. Qed.
#[local] Hint Resolve find_free_pres find_id_and_span_pres page_delete_pres : pres.

Lemma phys_cpy_pres fh dst src n : preserves I (spiffs_phys_cpy fh dst src n).
Proof. pres. Qed.
#[local] Hint Resolve phys_cpy_pres : pres.

Lemma page_allocate_data_pres id ph d o fi : preserves I (spiffs_page_allocate_data id ph d o fi).
Proof. pres. Qed.

Lemma page_move_pres fh w id src dst : preserves I (spiffs_page_move fh w id src dst).
Proof. pres. Qed.
#[local] Hint Resolve page_allocate_data_pres page_move_pres : pres.

Lemma update_index_hdr_pres fd id p w n z : preserves I (spiffs_object_update_index_hdr fd id p w n z).
Proof. pres. Qed.
#[local] Hint Resolve update_index_hdr_pres : pres.

(** ** Garbage collection *)

Lemma gc_clean_pres b : preserves I (spiffs_gc_clean b).
Proof. pres. Qed.

Lemma gc_find_candidate_pres crammed : preserves I (spiffs_gc_find_candidate crammed).
Proof. pres. Qed.

Lemma gc_erase_page_stats_pres b : preserves I (spiffs_gc_erase_page_stats b).
Proof. pres. Qed.
#[local] Hint Resolve gc_clean_pres gc_find_candidate_pres gc_erase_page_stats_pres : pres.

Lemma gc_check_pres n : preserves I (spiffs_gc_check n).
Proof. pres. Qed.
#[local] Hint Resolve gc_check_pres : pres.

(** ** Objects *)

Lemma object_create_pres junk id name type : preserves I (spiffs_object_create junk id name type).
Proof. pres. Qed.

Lemma open_by_page_pres p i fl : preserves I (spiffs_object_open_by_page p i fl).
Proof. pres. Qed.

Lemma find_by_name_pres name : preserves I (spiffs_object_find_object_index_header_by_name name).
Proof. pres. Qed.

Lemma find_free_obj_id_pres name : preserves I (spiffs_obj_lu_find_free_obj_id name).
Proof. pres. Qed.

Lemma object_append_pres i o d n : preserves I (spiffs_object_append i o d n).
Proof. pres. Qed.

Lemma object_modify_pres un i o d n : preserves I (spiffs_object_modify un i o d n).
Proof. pres. Qed.

Lemma object_truncate_pres i n r : preserves I (spiffs_object_truncate i n r).
Proof. pres. Qed.

Lemma object_read_pres i o n : preserves I (spiffs_object_read i o n).
Proof. pres. Qed.
#[local] Hint Resolve object_create_pres open_by_page_pres find_by_name_pres find_free_obj_id_pres object_append_pres
  object_modify_pres object_truncate_pres object_read_pres : pres.

Lemma hydro_write_pres un i d o n : preserves I (spiffs_hydro_write un i d o n).
Proof. pres. Qed.

Lemma fd_get_pres fh : preserves I (spiffs_fd_get fh).
Proof. pres. Qed.

Lemma fd_return_pres fh : preserves I (spiffs_fd_return fh).
Proof. pres. Qed.
#[local] Hint Resolve hydro_write_pres fd_get_pres fd_return_pres : pres.

Lemma fd_cpage_pres i : preserves I (fd_cpage i).
Proof. unfold fd_cpage. apply pres_let_pages. intros ca. pres. Qed.
#[local] Hint Resolve fd_cpage_pres : pres.

Lemma fflush_cache_pres un fh : preserves I (spiffs_fflush_cache un fh).
Proof. pres. Qed.
#[local] Hint Resolve fflush_cache_pres : pres.

(** ** Consistency check *)

Lemma find_or_none_pres id spix excl : preserves I (find_or_none id spix excl).
Proof. pres. Qed.

Lemma data_ref_pres id spix : preserves I (spiffs_object_get_data_page_index_reference id spix).
Proof. pres. Qed.

Lemma rewrite_page_pres p h : preserves I (spiffs_rewrite_page p h).
Proof. pres. Qed.

Lemma rewrite_index_pres id spix p x : preserves I (spiffs_rewrite_index id spix p x).
Proof. pres. Qed.

Lemma delete_obj_lazy_pres id : preserves I (spiffs_delete_obj_lazy id).
Proof. pres. Qed.
#[local] Hint Resolve find_or_none_pres data_ref_pres rewrite_page_pres rewrite_index_pres delete_obj_lazy_pres : pres.

Lemma lookup_check_validate_pres id h p : preserves I (spiffs_lookup_check_validate id h p).
Proof. pres. Qed.
#[local] Hint Resolve lookup_check_validate_pres : pres.

Lemma lookup_check_pres : preserves I spiffs_lookup_consistency_check.
Proof. pres. Qed.

Lemma index_check_pres : preserves I spiffs_object_index_consistency_check.
Proof. pres. Qed.

Lemma mark_page_pres o p : preserves I (mark_page o p).
Proof. pres. Qed.

Lemma fix_unreferenced_pres p : preserves I (fix_unreferenced p).
Proof. pres. Qed.
#[local] Hint Resolve lookup_check_pres index_check_pres mark_page_pres fix_unreferenced_pres : pres.

Lemma obj_lu_scan_pres : preserves I spiffs_obj_lu_scan.
Proof. pres. Qed.
#[local] Hint Resolve obj_lu_scan_pres : pres.

Lemma check_pres fuel : preserves I (SPIFFS_check fuel).
Proof. pres. Qed.
End pres.

#[export] Hint Extern 0 (FsInv _) => typeclasses eauto : pres.
#[export] Hint Resolve cache_page_get_pres cache_page_free_pres hdr_pres cache_page_allocate_pres remove_oldest_pres
  phys_rd_pres phys_wr_pres get_by_fd_pres cb_object_event_pres fd_release_pres fd_find_new_pres find_id_and_span_pres
  object_create_pres open_by_page_pres find_by_name_pres find_free_obj_id_pres object_append_pres object_modify_pres
  object_truncate_pres object_read_pres hydro_write_pres fd_get_pres fd_return_pres fd_cpage_pres fflush_cache_pres
  gc_quick_pres gc_check_pres update_index_hdr_pres check_pres : pres.
#[export] Hint Extern 1 (preserves _ (upd_cpage _ _)) => apply upd_cpage_pres; first [done | typeclasses eauto] : pres.
#[export] Hint Extern 1 (preserves _ (upd_fd _ _)) => apply upd_fd_pres; first [typeclasses eauto | let f := fresh in intros f; by destruct f; auto] : pres.

(** ** The API *)

Section api.
Context {F : Type} {hal : SpiffsHal F} (I : spiffs F -> Prop) `{!FsInvW I}.

Lemma upd_cpage_pres_w i f : (forall cp, cp_ix (f cp) = cp_ix cp) -> preserves I (upd_cpage i f).
Proof.
  intros Hx. unfold upd_cpage. apply (get_cache_pres I). intros ca s a s' Hc HI. unfold spiffs_get_cache_page_hdr, mbind, C_bind.
  destruct (cpages ca !! Z.to_nat i) as [cp|] eqn:E; [|done]. intros [= <- <-]. apply (inv_cache_w s ca); [done| |done].
  split; [done|]. split; [done|]. cbn. by eapply cache_pages_set.
Qed.

Lemma allocate_by_fd_pres i : preserves I (spiffs_cache_page_allocate_by_fd i).
Proof.
  unfold spiffs_cache_page_allocate_by_fd. pres_step; [pres|]. pres_step; [pres|]. destruct a0 as [j|]; [|pres].
  pres_step; [pres|]. pres_step; [by apply upd_cpage_pres_w|]. pres.
Qed.
#[local] Hint Resolve allocate_by_fd_pres : pres.

Lemma write_pres un fh d n : preserves I (SPIFFS_write un fh d n).
Proof. pres. Qed.

(** Every call preserves the invariant. *)
Lemma api_run_pres a : preserves I (api_run a).
Proof. destruct a; unfold api_run; pres. Qed.

Lemma readdir_pres d : preserves I (SPIFFS_readdir d).
Proof. pres. Qed.

Lemma unmount_pres un : (forall s, I s -> I (set_mounted 0 s)) -> preserves I (SPIFFS_unmount un).
Proof. intros Hm. pres. apply pres_modify, Hm. Qed.
End api.
