(* ===== verification/SpiffsOpen.v ===== *)
(** Finding and opening files by name ([spiffs_nucleus.c], [spiffs_hydrogen.c]). *)
From S2P Require Import Prelude CSem SpiffsTypes SpiffsGeom SpiffsCache SpiffsIo SpiffsLookup SpiffsSearch SpiffsPage SpiffsFind SpiffsPageOps SpiffsIndex SpiffsObject SpiffsContent SpiffsApi SpiffsRead SpiffsHandle.
From stdpp Require Import base list numbers option.

Open Scope Z_scope.

(** ** Object index headers on flash *)

Definition hdr_at (c : spiffs_config) (v : Z -> Z) (p : Z) : spiffs_page_object_ix_header :=
  dec_object_ix_header (vread v (paddr c p) sizeof_object_ix_header).

(** A finalised index header that is neither deleted nor being deleted. *)
Definition live_header (h : spiffs_page_object_ix_header) : bool :=
  (ph_span_ix (oix_p_hdr h) =? 0)
  && (Z.land (ph_flags (oix_p_hdr h)) (Z.lor SPIFFS_PH_FLAG_DELET (Z.lor SPIFFS_PH_FLAG_FINAL SPIFFS_PH_FLAG_IXDELE))
      =? Z.lor SPIFFS_PH_FLAG_DELET SPIFFS_PH_FLAG_IXDELE).

(** The lookup id of an index page. *)
Definition index_id (id : Z) : bool :=
  negb ((id =? SPIFFS_OBJ_ID_FREE) || (id =? SPIFFS_OBJ_ID_DELETED) || negb (is_ix id)).

(** Entry [e] of block [b] is the index header of a file called [name]. *)
Definition named_entry (c : spiffs_config) (v : Z -> Z) (name : list Z) (b e : Z) : bool :=
  index_id (lu_id c v b e) && live_header (hdr_at c v (entry_pix c b e))
  && streq name (oix_name (hdr_at c v (entry_pix c b e))).

(** A name that fits the header with its terminator is compared in bounds. *)
Lemma strcmp_short path l : zlen (cstr path) < SPIFFS_OBJ_NAME_LEN -> zlen l = SPIFFS_OBJ_NAME_LEN ->
  strcmp_name path l = Some (streq path l).
Proof.
  unfold zlen, SPIFFS_OBJ_NAME_LEN. intros Hp Hl. unfold strcmp_name.
  rewrite (bool_decide_false (take _ _ = _)); [by rewrite andb_false_r|].
  intros Heq. apply (f_equal length) in Heq. rewrite length_take in Heq. lia.
Qed.

Lemma hdr_name_length c v p : zlen (oix_name (hdr_at c v p)) = SPIFFS_OBJ_NAME_LEN.
Proof.
  unfold hdr_at, dec_object_ix_header. cbn [oix_name]. apply length_slice; [done|done|].
  rewrite length_vread by done. done.
Qed.

Section find.
Context {F : Type} {hal : SpiffsHal F} {nor : NorHal F}.
Implicit Types s : spiffs F.

Lemma rd_object_ix_header_ok T s op fh p :
  fs_ok T s -> 1 <= T -> 0 <= p < pages (cfg s) ->
  wp (rd_object_ix_header op fh (paddr (cfg s) p)) (fun r s' =>
    r = (SPIFFS_OK, hdr_at (cfg s) (view s) p) /\ cache_frame s s' /\ fs_ok (T - 1) s') s.
Proof.
  intros Hok HT Hp. pose proof (fs_ok_wf _ _ Hok) as Hwf. pose proof (wf_psz _ Hwf). unfold rd_object_ix_header. wp_step.
  wp_apply phys_rd_ok; [done|done|apply in_page_start; [done|done|unfold sizeof_object_ix_header; lia]|].
  intros r s' (-> & ? & ?). by wp_step.
Qed.

Lemma find_by_name_v_ok T s name b e u :
  fs_ok T s -> 1 <= T -> 0 <= b < blocks (cfg s) -> 0 <= e < lue (cfg s) -> zlen (cstr name) < SPIFFS_OBJ_NAME_LEN ->
  wp (spiffs_object_find_object_index_header_by_name_v name (lu_id (cfg s) (view s) b e) b e u) (fun r s' =>
    r = (if named_entry (cfg s) (view s) name b e then SPIFFS_OK else SPIFFS_VIS_COUNTINUE, u)
    /\ cache_frame s s' /\ fs_ok (T - 1) s') s.
Proof.
  intros Hok HT Hb He Hname. pose proof (fs_ok_wf _ _ Hok) as Hwf.
  unfold spiffs_object_find_object_index_header_by_name_v. wp_step. wp_step. rewrite entry_to_pix by done. cbv zeta.
  unfold named_entry, index_id. destruct (_ || _) eqn:Ei; cbn [negb andb].
  - wp_step. split; [done|]. split; [by destruct s|]. eapply fs_okx_weaken; [exact Hok|lia].
  - wp_step. wp_apply rd_object_ix_header_ok; [done|done|by apply entry_pix_range|]. intros r s1 (-> & Hf & Hok1). ok_res.
    rewrite strcmp_short by (done || apply hdr_name_length).
    fold (live_header (hdr_at (cfg s) (view s) (entry_pix (cfg s) b e))).
    destruct (live_header _); cbn [andb]; [|by wp_step].
    destruct (streq _ _); by wp_step.
Qed.

(** The first header of that name in scan order, with the search cursor left on
    it; or there is none. *)
Lemma find_by_name_ok T s name :
  fs_cur T s -> ticks (cfg s) 1 <= T -> zlen (cstr name) < SPIFFS_OBJ_NAME_LEN ->
  wp (spiffs_object_find_object_index_header_by_name name) (fun r s' => fs_cur (T - ticks (cfg s) 1) s' /\
    span_result (cfg s) (fun b e => named_entry (cfg s) (view s) name b e = true) s r s') s.
Proof.
  intros (Hok & Hcb & Hce) HT Hname. pose proof (fs_ok_wf _ _ Hok) as Hwf.
  unfold spiffs_object_find_object_index_header_by_name. do 7 wp_step.
  wp_apply (ro_search 0 0 1 (Some (spiffs_object_find_object_index_header_by_name_v name))
     (fun b e => named_entry (cfg s) (view s) name b e) T s); try done; try lia.
  - intros T1 s1 b e Hf Hok1 HT1 Hb He _. cbn [visit default].
    assert (Ec : cfg s1 = cfg s) by (rewrite Hf; done). assert (Ev : view s1 = view s) by (rewrite Hf; done).
    rewrite <- Ec, <- Ev. apply find_by_name_v_ok; [done|lia|rewrite Ec; lia|rewrite Ec; lia|done].
  - assert (Heq : forall b e, sought 0 0 (fun b e => named_entry (cfg s) (view s) name b e) (cfg s) (view s) b e <->
      named_entry (cfg s) (view s) name b e = true).
    { intros b e. unfold sought, entry_matches. change (hasb 0 SPIFFS_VIS_CHECK_ID) with false. cbn [negb orb]. tauto. }
    intros r s' (Hf & Hok' & Hr). destruct Hr as [[-> Hfe]|[-> Hne]].
    + ok_res. wp_step. wp_step. wp_step. wp_step. wp_step. pose proof Hfe as (Hb & He & _). rewrite entry_to_pix by done.
      split; [|left; do 2 eexists; split; [done|]; split; [by eapply first_entry_iff|by exists s']].
      split; [eapply fs_okx_same; [exact Hok'|done..]|]. cbn. rewrite Hf. cbn. lia.
    + ok_res. wp_step. split; [split; [done|]; by rewrite Hf|]. right. split; [done|]. split; [|done].
      intros b e Hb He HP. apply (Hne b e Hb He). by apply Heq.
Qed.

Lemma rd_lu_entry_ok T s op fh b e : fs_ok T s -> 1 <= T -> 0 <= b < blocks (cfg s) -> 0 <= e < lue (cfg s) ->
  wp (rd_obj_id op fh (baddr (cfg s) b + 2 * e)) (fun r s' =>
    r = (SPIFFS_OK, lu_id (cfg s) (view s) b e) /\ cache_frame s s' /\ fs_ok (T - 1) s') s.
Proof.
  intros Hok HT Hb He. pose proof (fs_ok_wf _ _ Hok) as Hwf. unfold rd_obj_id. wp_step.
  wp_apply phys_rd_ok; [done|done|by apply lu_entry_in_page|]. intros r s' (-> & ? & ?). by wp_step.
Qed.

(** The descriptor of an opened file: header page [p], found at entry [e] of
    block [b]. *)
Definition opened_fd (c : spiffs_config) (v : Z -> Z) (b e flags : Z) (fd : spiffs_fd) : spiffs_fd :=
  let p := entry_pix c b e in
  mkFd (fd_file_nbr fd) (lu_id c v b e) (oix_size (hdr_at c v p)) p p 0 0 (fd_fdoffset fd) flags (fd_cache_page fd).

Lemma open_by_page_ok T s fd_i fd flags b e :
  fs_ok T s -> 2 <= T -> 0 <= b < blocks (cfg s) -> 0 <= e < lue (cfg s) -> fds s !! Z.to_nat fd_i = Some fd ->
  wp (spiffs_object_open_by_page (entry_pix (cfg s) b e) fd_i flags) (fun r s' =>
    r = default SPIFFS_OK (SPIFFS_VALIDATE_OBJIX (oix_p_hdr (hdr_at (cfg s) (view s) (entry_pix (cfg s) b e)))
                             (lu_id (cfg s) (view s) b e) 0) /\
    fs_ok (T - 2) s' /\ exists s1, cache_frame s s1 /\
      s' = set_fds (zset (fds s) fd_i (opened_fd (cfg s) (view s) b e flags fd)) s1) s.
Proof.
  intros Hok HT Hb He Hfd. pose proof (fs_ok_wf _ _ Hok) as Hwf. pose proof (wf_pages_lt _ Hwf). pose proof (wf_pages _ Hwf).
  pose proof (entry_pix_range _ Hwf b e Hb He). pose proof (lue_range _ Hwf). pose proof (ppb_pos _ Hwf).
  pose proof (lue_eq _ Hwf). pose proof (wf_lup _ Hwf).
  unfold spiffs_object_open_by_page. wp_step. wp_step. wp_step. eapply wp_fd_at; [done|]. wp_step.
  wp_apply rd_object_ix_header_ok; [done|lia|done|]. intros r s1 (-> & Hf & Hok1). ok_res.
  destruct (block_for_entry _ Hwf b e Hb He) as [-> ->].
  rewrite (u16_small b) by nia. rewrite (s32_small e) by nia.
  rewrite (proj1 (lu_entry_addr _ Hwf b e Hb He)). wp_step.
  assert (Ec : cfg s1 = cfg s) by (by rewrite Hf). assert (Ev : view s1 = view s) by (by rewrite Hf).
  assert (Efd : fds s1 = fds s) by (by rewrite Hf).
  rewrite <- Ec. wp_apply rd_lu_entry_ok; [done|lia|by rewrite Ec|by rewrite Ec|]. intros r s2 (-> & Hf2 & Hok2).
  assert (Efd2 : fds s2 = fds s) by (by rewrite Hf2). rewrite Ec, Ev. ok_res. wp_step.
  eapply wp_upd_fd; [by rewrite Efd2|]. wp_step. split; [done|].
  split; [replace (T - 2) with (T - 1 - 1) by lia; by eapply fs_okx_same|]. exists s2. split; [|by rewrite Efd2].
  rewrite Hf2, Hf. done.
Qed.

(** Returning the descriptor taken for a failed call. *)
Lemma close_fail_ok s i fd res : fd_table_ok s -> 0 <= i -> fds s !! Z.to_nat i = Some fd -> fd_file_nbr fd = i + 1 ->
  wp (close_fail i res) (fun r s' => r = -1 /\ fd_table_ok s' /\
    s' = set_err_code res (set_fds (zset (fds s) i (set_fd_file_nbr 0 fd)) s)) s.
Proof.
  intros Ht Hi Hfd Hn. unfold close_fail. wp_step. eapply wp_fd_at; [done|]. rewrite Hn. wp_step.
  pose proof Ht as (Hc & _). pose proof (lookup_lt_Some _ _ _ Hfd) as Hlt.
  wp_apply fd_return_ok; [done|]. intros r s1 (Ht1 & [(_ & fd1 & Hfd1 & Hr)|(Hn' & _)]); [|unfold zlen in Hc; lia].
  replace (i + 1 - 1) with i in * by lia. rewrite Hfd in Hfd1. injection Hfd1 as <-.
  rewrite Hn in Hr. rewrite (proj2 (Z.eqb_neq (i + 1) 0)) in Hr by lia. destruct Hr as [_ ->].
  unfold api_fail. wp_step. wp_step. wp_step. done.
Qed.

(** The outcome of opening [name] with the descriptor [i], the first closed one. *)
Definition open_result s (name : list Z) (flags : Z) (r : Z) (s' : spiffs F) : Prop :=
  let c := cfg s in let v := view s in
  (r = -1 /\ s' = set_err_code SPIFFS_ERR_OUT_OF_FILE_DESCS s /\ forall k, (k < length (fds s))%nat -> is_open (fds s) k)
  \/ exists i fd, 0 <= i /\ fds s !! Z.to_nat i = Some fd /\ fd_file_nbr fd = 0 /\
       (forall k, (k < Z.to_nat i)%nat -> is_open (fds s) k) /\
       ((no_entry c (fun b e => named_entry c v name b e = true) /\ r = -1 /\
         read_rest s' = read_rest (set_err_code SPIFFS_ERR_NOT_FOUND s) /\ fds s' = fds s)
        \/ exists b e, first_entry c (start_pos c 0 (cursor_block_ix s) (cursor_obj_lu_entry s))
                         (fun b e => named_entry c v name b e = true) b e /\
             let fd1 := opened_fd c v b e flags (set_fd_file_nbr (i + 1) fd) in
             match SPIFFS_VALIDATE_OBJIX (ph_at c v (entry_pix c b e)) (lu_id c v b e) 0 with
             | None => r = i + 1 /\ read_rest s' = read_rest s /\ fds s' = zset (fds s) i (set_fd_fdoffset 0 fd1)
             | Some err => r = -1 /\ read_rest s' = read_rest (set_err_code err s) /\
                 fds s' = zset (fds s) i (set_fd_file_nbr 0 fd1)
             end).

Lemma hdr_ph c v p : wf_cfg c -> oix_p_hdr (hdr_at c v p) = ph_at c v p.
Proof. intros Hwf. apply page_header_prefix. unfold sizeof_object_ix_header. lia. Qed.

Lemma read_rest_err e s s' : read_rest s' = read_rest s -> read_rest (set_err_code e s') = read_rest (set_err_code e s).
Proof. unfold read_rest. cbn. congruence. Qed.

Lemma validate_objix_err ph id spix err : SPIFFS_VALIDATE_OBJIX ph id spix = Some err -> err < 0.
Proof.
  unfold SPIFFS_VALIDATE_OBJIX. repeat (match goal with |- context [if ?b then _ else _] => destruct b end); by intros [= <-].
Qed.

(** [open_page] without truncation. *)
Lemma open_page_ok T s i fd flags b e :
  fs_ok T s -> 2 <= T -> fd_table_ok s -> 0 <= b < blocks (cfg s) -> 0 <= e < lue (cfg s) -> 0 <= i ->
  fds s !! Z.to_nat i = Some fd -> fd_file_nbr fd = i + 1 -> hasb flags SPIFFS_TRUNC = false ->
  wp (open_page i (entry_pix (cfg s) b e) flags) (fun r s' => fs_ok (T - 2) s' /\ fd_table_ok s' /\
    exists s1, cache_frame s s1 /\
    let fd1 := opened_fd (cfg s) (view s) b e flags fd in
    match SPIFFS_VALIDATE_OBJIX (ph_at (cfg s) (view s) (entry_pix (cfg s) b e)) (lu_id (cfg s) (view s) b e) 0 with
    | None => r = i + 1 /\ s' = set_fds (zset (fds s) i (set_fd_fdoffset 0 fd1)) s1
    | Some err => r = -1 /\ s' = set_err_code err (set_fds (zset (fds s) i (set_fd_file_nbr 0 fd1)) s1)
    end) s.
Proof.
  intros Hok HT Ht Hb He Hi Hfd Hn Htr. pose proof (fs_ok_wf _ _ Hok) as Hwf. pose proof (lookup_lt_Some _ _ _ Hfd) as Hlt.
  unfold open_page. wp_step. wp_apply open_by_page_ok; [done..|]. rewrite hdr_ph by done.
  intros r s2 (-> & Hok2 & s1 & Hf1 & Hs2). set (fd1 := opened_fd _ _ _ _ _ _) in *.
  assert (Hset : forall fd' : spiffs_fd, set_fds (zset (zset (fds s) i fd1) i fd') s2 = set_fds (zset (fds s) i fd') s1).
  { intros fd'. rewrite Hs2. unfold zset. by rewrite list_insert_insert_eq. }
  assert (Hfd2 : fds s2 !! Z.to_nat i = Some fd1) by (rewrite Hs2; cbn; unfold zset; by apply list_lookup_insert_eq).
  assert (Hfds2 : fds s2 = zset (fds s) i fd1) by (by rewrite Hs2).
  assert (Ht2 : fd_table_ok s2).
  { rewrite Hs2. rewrite Hf1. apply (fd_table_set s i fd fd1); [done|done|done|by right]. }
  destruct (SPIFFS_VALIDATE_OBJIX _ _ _) as [err|] eqn:Ev; cbn [default from_option id].
  - apply validate_objix_err in Ev as Herr. rewrite (proj2 (Z.ltb_lt err SPIFFS_OK)) by done.
    wp_apply (close_fail_ok s2 i fd1 err); [done|done|done|done|]. intros r s3 (-> & Ht3 & Hs3).
    rewrite Hfds2, Hset in Hs3. split; [|split; [done|]].
    + eapply fs_okx_same; [exact Hok2|by rewrite Hs3, Hs2..].
    + exists s1. done.
  - ok_res. rewrite Htr. wp_step. wp_step. ok_res. wp_step. eapply wp_upd_fd; [done|]. rewrite Hfds2, Hset.
    wp_step. eapply wp_fd_at; [cbn; unfold zset; by apply list_lookup_insert_eq|]. wp_step. split; [|split].
    + eapply fs_okx_same; [exact Hok2|by rewrite Hs2..].
    + rewrite Hf1. apply (fd_table_set s i fd (set_fd_fdoffset 0 fd1)); [done|done|done|by right].
    + exists s1. done.
Qed.

Lemma open_ok T s junk name flags :
  fs_cur T s -> fd_table_ok s -> guard_error s = None -> ticks (cfg s) 1 + 2 <= T ->
  zlen (cstr name) < SPIFFS_OBJ_NAME_LEN -> hasb flags SPIFFS_CREAT = false -> hasb flags SPIFFS_TRUNC = false ->
  wp (SPIFFS_open junk name flags) (fun r s' => fs_cur (T - ticks (cfg s) 1 - 2) s' /\ fd_table_ok s' /\
    open_result s name flags r s') s.
Proof.
  intros Hcur Ht Hg HT Hname Hcr Htr. pose proof Hcur as (Hok & Hcb & Hce). pose proof (fs_ok_wf _ _ Hok) as Hwf.
  pose proof (ticks_nonneg (cfg s) 1 Hwf ltac:(done)) as Htk.
  unfold SPIFFS_open, api_checked. unfold guard_error in Hg. wp_step. wp_step. destruct (negb (config_magic s =? _)); [done|].
  wp_step. wp_step. destruct (mounted s =? 0); [done|]. wp_step. wp_apply fd_find_new_ok; [done|].
  intros r s1 (Ht1 & [(i & fd & Hi & -> & Hfd & Hcl & Hop & Hs1)|(-> & -> & Hfull)]).
  2: { cbn [fst snd]. change (SPIFFS_ERR_OUT_OF_FILE_DESCS <? SPIFFS_OK) with true. cbv iota. unfold api_fail.
       wp_step. wp_step. wp_step. split; [|split; [done|by left]]. eapply fs_cur_weaken; [|].
       - split; [eapply fs_okx_same; [exact Hok|done..]|done].
       - lia. }
  ok_res. assert (Hcur1 : fs_cur T s1).
  { rewrite Hs1. split; [by eapply fs_okx_same|done]. }
  assert (Ec : cfg s1 = cfg s) by (by rewrite Hs1). assert (Ev : view s1 = view s) by (by rewrite Hs1).
  pose proof (lookup_lt_Some _ _ _ Hfd) as Hlt.
  assert (Hfd1 : fds s1 !! Z.to_nat i = Some (set_fd_file_nbr (i + 1) fd))
    by (rewrite Hs1; cbn; unfold zset; by apply list_lookup_insert_eq).
  wp_step. wp_apply find_by_name_ok; [exact Hcur1|rewrite Ec; lia|done|]. rewrite Ec, Ev.
  intros r s2 (Hcur2 & Hres). rewrite Hcr. cbn [negb andb].
  destruct Hres as [(b & e & -> & Hfe & s2' & Hlf & Hs2)|(-> & Hnone & Hlf)].
  - rewrite (proj2 (Z.eqb_neq (Z.land flags _) _)).
    2: { intros Hx. unfold hasb in Hcr. apply negb_false_iff, Z.eqb_eq in Hcr.
         apply (f_equal (fun x => Z.land x SPIFFS_CREAT)) in Hx. rewrite <- Z.land_assoc in Hx.
         change (Z.land (Z.lor SPIFFS_CREAT SPIFFS_EXCL) SPIFFS_CREAT) with SPIFFS_CREAT in Hx. by rewrite Hcr in Hx. }
    rewrite andb_false_r. ok_res. pose proof Hfe as (Hb & He & _). pose proof Hcur2 as (Hok2 & Hcb2).
    assert (Efl2 : read_rest s2 = read_rest s) by (by rewrite Hs2, Hlf, Hs1).
    apply read_rest_inv in Efl2 as Efl. destruct Efl as (Ec2 & Ef2 & _).
    assert (Ev2 : view s2 = view s) by (unfold view; by rewrite Ef2).
    assert (Efds2 : fds s2 = fds s1) by (by rewrite Hs2, Hlf).
    rewrite <- Ec2. wp_apply (open_page_ok (T - ticks (cfg s) 1) s2 i (set_fd_file_nbr (i + 1) fd) flags b e);
      [done|lia| |by rewrite Ec2|by rewrite Ec2|done|by rewrite Efds2|done|done|].
    { destruct Ht1 as (Hc1 & Hl1 & Ho1). unfold fd_table_ok. rewrite Efds2. split; [|done].
      rewrite <- Hc1. by rewrite Hs2, Hlf. }
    rewrite Ec2, Ev2. intros r s3 (Hok3 & Ht3 & s2'' & Hf3 & Hm). cbv zeta in Hm.
    assert (Hzz : forall fd' : spiffs_fd, zset (fds s2) i fd' = zset (fds s) i fd').
    { intros fd'. rewrite Efds2, Hs1. cbn. unfold zset. by rewrite list_insert_insert_eq. }
    destruct Hcb2 as [Hcb2 Hce2].
    destruct (SPIFFS_VALIDATE_OBJIX _ _ _) as [err|] eqn:Evd; destruct Hm as [-> Hs3]; rewrite Hzz in Hs3.
    + split; [|split; [done|]].
      * split; [done|]. rewrite Hs3, Hf3. cbn. done.
      * right. exists i, fd. do 4 (split; [done|]). right. exists b, e. split; [by rewrite Hs1 in Hfe|]. cbv zeta. rewrite Evd.
        split; [done|]. rewrite Hs3, Hf3. split; [by apply read_rest_err|done].
    + split; [|split; [done|]].
      * split; [done|]. rewrite Hs3, Hf3. done.
      * right. exists i, fd. do 4 (split; [done|]). right. exists b, e. split; [by rewrite Hs1 in Hfe|]. cbv zeta. rewrite Evd.
        split; [done|]. rewrite Hs3, Hf3. done.
  - change (SPIFFS_ERR_NOT_FOUND =? SPIFFS_OK) with false. change (SPIFFS_ERR_NOT_FOUND <? SPIFFS_OK) with true.
    cbn [fst snd andb]. assert (Efds2 : fds s2 = fds s1) by (by rewrite Hlf).
    assert (Ht2 : fd_table_ok s2) by (by rewrite Hlf).
    wp_apply (close_fail_ok s2 i (set_fd_file_nbr (i + 1) fd)); [done|done|by rewrite Efds2|done|].
    intros r s3 (-> & Ht3 & Hs3). split; [|split; [done|]].
    + destruct Hcur2 as [Hok2 Hcb2]. split; [|rewrite Hs3; done]. eapply fs_okx_weaken; [|].
      * eapply fs_okx_same; [exact Hok2|by rewrite Hs3..].
      * lia.
    + right. exists i, fd. do 4 (split; [done|]). left. split; [done|]. split; [done|]. rewrite Hs3. split.
      * apply (read_rest_err _ s). by rewrite Hlf, Hs1.
      * cbn. rewrite Efds2, Hs1. cbn. unfold zset. rewrite list_insert_insert_eq, list_insert_id; [done|].
        rewrite Hfd. f_equal. destruct fd; cbn in *; by subst.
Qed.
End find.
