(* ===== verification/SpiffsSlots.v ===== *)
(** Slots of a volume: a lookup entry together with its page.  The order in which
    the allocator takes free slots ([plan], an executable function of the lookup
    entries and the free cursor), and allocation stated in terms of it. *)
From S2P Require Import Prelude CSem SpiffsTypes SpiffsGeom SpiffsCache SpiffsIo SpiffsLookup SpiffsSearch SpiffsPage SpiffsFind SpiffsPageOps.
From stdpp Require Import base list numbers option.

Open Scope Z_scope.

(** Block and entry. *)
Definition slot : Type := (Z * Z).

Definition slot_ok (c : spiffs_config) (sl : slot) : Prop := 0 <= sl.1 < blocks c /\ 0 <= sl.2 < lue c.

Definition slot_pix (c : spiffs_config) (sl : slot) : Z := entry_pix c sl.1 sl.2.

(** The flash addresses of a slot. *)
Definition in_slot (c : spiffs_config) (sl : slot) (x : Z) : Prop :=
  baddr c sl.1 + 2 * sl.2 <= x < baddr c sl.1 + 2 * sl.2 + 2 \/
  paddr c (slot_pix c sl) <= x < paddr c (slot_pix c sl) + psz c.

(** The contents differ at most in these slots. *)
Definition same_outside (c : spiffs_config) (v v' : Z -> Z) (l : list slot) : Prop :=
  forall x, (forall sl, sl ∈ l -> ~ in_slot c sl x) -> v' x = v x.

Lemma same_outside_refl c v l : same_outside c v v l.
Proof. done. Qed.

Lemma same_outside_trans c v1 v2 v3 l1 l2 :
  same_outside c v1 v2 l1 -> same_outside c v2 v3 l2 -> same_outside c v1 v3 (l1 ++ l2).
Proof.
  intros H1 H2 x Hx. rewrite H2, H1; [done|..]; intros sl Hsl; apply Hx; apply elem_of_app; auto.
Qed.

Lemma same_outside_mono c v v' l l' : l ⊆ l' -> same_outside c v v' l -> same_outside c v v' l'.
Proof. intros Hs H x Hx. apply H. intros sl Hsl. apply Hx, Hs, Hsl. Qed.

(** A range that avoids the slots is unchanged. *)
Lemma same_outside_vread c v v' l a n : same_outside c v v' l ->
  (forall x sl, a <= x < a + n -> sl ∈ l -> ~ in_slot c sl x) -> vread v' a n = vread v a n.
Proof. intros H Hx. apply vread_ext. intros x Hr. apply H. intros sl Hsl. by apply Hx. Qed.

Section slots.
Context (c : spiffs_config) (Hwf : wf_cfg c).

Lemma pages_disjoint p q : 0 <= p < pages c -> 0 <= q < pages c -> p <> q ->
  paddr c p + psz c <= paddr c q \/ paddr c q + psz c <= paddr c p.
Proof using Hwf.
  intros Hp Hq Hne. rewrite !paddr_eq by (done || lia). pose proof (wf_psz c Hwf).
  destruct (decide (p < q)); [left|right]; nia.
Qed.

Lemma entry_pix_inj sl sl' : slot_ok c sl -> slot_ok c sl' -> slot_pix c sl = slot_pix c sl' -> sl = sl'.
Proof using Hwf.
  destruct sl as [b e], sl' as [b' e']. unfold slot_pix. intros [Hb He] [Hb' He'] Heq. cbn [fst snd] in *.
  destruct (block_for_entry c Hwf b e Hb He) as [E1 E2]. destruct (block_for_entry c Hwf b' e' Hb' He') as [E1' E2'].
  rewrite Heq in E1, E2. congruence.
Qed.

Lemma slot_pix_range sl : slot_ok c sl -> 0 <= slot_pix c sl < pages c.
Proof using Hwf. intros [Hb He]. by apply entry_pix_range. Qed.

Lemma slots_disjoint sl sl' x : slot_ok c sl -> slot_ok c sl' -> in_slot c sl x -> in_slot c sl' x -> sl = sl'.
Proof using Hwf.
  intros Hs Hs' Hx Hx'. pose proof (slot_pix_range sl Hs). pose proof (slot_pix_range sl' Hs').
  destruct (decide (sl = sl')) as [|Hne]; [done|exfalso].
  pose proof Hs as [Hb He]. pose proof Hs' as [Hb' He'].
  pose proof (entry_before_pages c Hwf sl.1 sl.2 sl'.1 sl'.2 Hb He Hb' He') as H1. fold (slot_pix c sl') in H1.
  pose proof (entry_before_pages c Hwf sl'.1 sl'.2 sl.1 sl.2 Hb' He' Hb He) as H2. fold (slot_pix c sl) in H2.
  pose proof (entries_disjoint c Hwf sl.1 sl.2 sl'.1 sl'.2 Hb He Hb' He') as H3.
  assert (Hne' : (sl.1, sl.2) <> (sl'.1, sl'.2)) by (by rewrite <- !surjective_pairing). specialize (H3 Hne').
  pose proof (pages_disjoint (slot_pix c sl) (slot_pix c sl') ltac:(lia) ltac:(lia)) as H4.
  assert (slot_pix c sl <> slot_pix c sl') as Hp by (intros Heq; apply Hne; by apply entry_pix_inj). specialize (H4 Hp).
  unfold in_slot in *. lia.
Qed.

(** What a slot holds is unchanged when other slots change. *)
Lemma slot_vread v v' l sl a n : same_outside c v v' l -> slot_ok c sl -> Forall (slot_ok c) l -> sl ∉ l ->
  (forall x, a <= x < a + n -> in_slot c sl x) -> vread v' a n = vread v a n.
Proof using Hwf.
  intros Hso Hsl Hl Hni Hr. eapply same_outside_vread; [exact Hso|]. intros x sl' Hx Hin Hin'.
  rewrite Forall_forall in Hl. assert (sl = sl') as <-; [|done].
  eapply slots_disjoint; [done|apply Hl; by apply list_elem_of_In|by apply Hr|done].
Qed.

Lemma slot_lu_id v v' l sl : same_outside c v v' l -> slot_ok c sl -> Forall (slot_ok c) l -> sl ∉ l ->
  lu_id c v' sl.1 sl.2 = lu_id c v sl.1 sl.2.
Proof using Hwf.
  intros Hso Hsl Hl Hni. unfold lu_id. f_equal. eapply slot_vread; [exact Hso|exact Hsl|done|done|].
  intros x Hx. by left.
Qed.

Lemma slot_page_vread v v' l sl off n : same_outside c v v' l -> slot_ok c sl -> Forall (slot_ok c) l -> sl ∉ l ->
  0 <= off -> off + n <= psz c ->
  vread v' (paddr c (slot_pix c sl) + off) n = vread v (paddr c (slot_pix c sl) + off) n.
Proof using Hwf.
  intros Hso Hsl Hl Hni Ho Hn. eapply slot_vread; [exact Hso|exact Hsl|done|done|].
  intros x Hx. right. lia.
Qed.

(** A page that has a slot. *)
Lemma pix_slot p : 0 <= p < pages c -> lup c <= p mod ppb c -> exists sl, slot_ok c sl /\ slot_pix c sl = p.
Proof using Hwf.
  intros Hp Hl. destruct (page_is_entry c Hwf p Hp Hl) as (Hb & He & Heq). eexists (_, _). split; [by split|]. by symmetry.
Qed.

Lemma slot_pix_lup sl : slot_ok c sl -> lup c <= slot_pix c sl mod ppb c.
Proof using Hwf.
  intros [Hb He]. pose proof (lue_eq c Hwf). pose proof (ppb_pos c Hwf). pose proof (wf_lup c Hwf).
  unfold slot_pix, entry_pix. rewrite <- Z.add_assoc, Z.add_comm, Z_mod_plus_full, Z.mod_small by lia. lia.
Qed.

Lemma first_entry_unique p0 (P P' : Z -> Z -> Prop) b e b' e' :
  (forall sl, slot_ok c sl -> P sl.1 sl.2 <-> P' sl.1 sl.2) ->
  first_entry c p0 P b e -> first_entry c p0 P' b' e' -> (b, e) = (b', e').
Proof using.
  intros Hiff (Hb & He & HP & q & Hq & -> & -> & Hn) (Hb' & He' & HP' & q' & Hq' & -> & -> & Hn').
  destruct (Z.lt_trichotomy q q') as [Hlt|[->|Hgt]]; [|done|].
  - destruct (Hn' q); [lia|]. by apply (Hiff (_, _)).
  - destruct (Hn q'); [lia|]. by apply (Hiff (_, _)).
Qed.
End slots.

(** ** The order of allocation *)

(** The slot is free in [v] and not among those taken since. *)
Definition is_free (c : spiffs_config) (v : Z -> Z) (taken : list slot) (b e : Z) : bool :=
  (lu_id c v b e =? SPIFFS_OBJ_ID_FREE) && negb (bool_decide ((b, e) ∈ taken)).

(** The first free slot in scan order. *)
Definition next_free (c : spiffs_config) (v : Z -> Z) (taken : list slot) (p0 : Z) : option slot :=
  (fun q => (blk c q, ent c q)) <$> List.find (fun q => is_free c v taken (blk c q) (ent c q)) (seqZ p0 (blocks c * lue c)).

(** The slots the next [n] allocations take; [None] if one would need garbage
    collection ([fb]: the counter of free blocks) or finds nothing free. *)
Fixpoint plan (c : spiffs_config) (v : Z -> Z) (taken : list slot) (fb cb ce : Z) (n : nat) : option (list slot) :=
  match n with
  | O => Some []
  | S n =>
      if fb <? 2 then None
      else
        sl ← next_free c v taken (start_pos c 0 cb ce);
        rest ← plan c v (sl :: taken) (if sl.2 =? 0 then u32 (fb - 1) else fb) sl.1 sl.2 n;
        Some (sl :: rest)
  end.

Lemma find_first (f : Z -> bool) a n q : List.find f (seqZ a n) = Some q ->
  a <= q < a + n /\ f q = true /\ forall q', a <= q' < q -> f q' = false.
Proof.
  intros H. destruct (decide (0 <= n)); [|by rewrite seqZ_nil in H by lia].
  replace n with (Z.of_nat (Z.to_nat n)) in * by lia. revert a H. induction (Z.to_nat n) as [|k IH]; intros a H; [done|].
  rewrite Nat2Z.inj_succ, seqZ_cons in H by lia. cbn [List.find] in H. destruct (f a) eqn:E.
  - injection H as <-. split; [lia|]. split; [done|]. intros q' Hq'. lia.
  - rewrite Z.pred_succ in H. apply IH in H as (Hq & Hf & Hn); [|lia]. split; [lia|]. split; [done|].
    intros q' Hq'. destruct (decide (q' = a)) as [->|]; [done|apply Hn; lia].
Qed.

Lemma next_free_first c v taken cb ce sl : wf_cfg c -> 0 <= cb < blocks c -> 0 <= ce ->
  next_free c v taken (start_pos c 0 cb ce) = Some sl ->
  first_entry c (start_pos c 0 cb ce) (fun b e => is_free c v taken b e = true) sl.1 sl.2.
Proof.
  intros Hwf Hcb Hce H. unfold next_free in H. destruct (List.find _ _) as [q|] eqn:E; [|done]. injection H as <-. cbn [fst snd].
  apply find_first in E as (Hq & Hf & Hn). pose proof (start_pos_range c Hwf 0 cb ce eq_refl Hcb Hce) as Hsp.
  pose proof (lue_range c Hwf). pose proof (wf_blocks c Hwf). split; [|split; [|split; [done|]]].
  - unfold blk, wrap_block. pose proof (Z.div_pos q (lue c) ltac:(lia) ltac:(lia)).
    assert (q / lue c < 2 * blocks c) by (apply Z.div_lt_upper_bound; nia).
    destruct (_ <? blocks c) eqn:E; bools; lia.
  - unfold ent. apply Z.mod_pos_bound. lia.
  - exists q. split; [lia|]. split; [done|]. split; [done|]. intros q' Hq'. by rewrite Hn.
Qed.

Section alloc.
Context {F : Type} {hal : SpiffsHal F} {nor : NorHal F}.
Implicit Types s : spiffs F.

(** The free slots of [v]: those free in [v0] that have not been [taken]. *)
Definition free_rel (c : spiffs_config) (v v0 : Z -> Z) (taken : list slot) : Prop :=
  forall sl, slot_ok c sl -> lu_id c v sl.1 sl.2 = SPIFFS_OBJ_ID_FREE <-> is_free c v0 taken sl.1 sl.2 = true.

Lemma free_rel_refl c v : free_rel c v v [].
Proof.
  intros sl _. unfold is_free. rewrite bool_decide_false by apply not_elem_of_nil. rewrite andb_true_r.
  symmetry. apply Z.eqb_eq.
Qed.

(** Taking a slot. *)
Lemma free_rel_take c v v' v0 taken sl : wf_cfg c -> free_rel c v v0 taken -> slot_ok c sl ->
  same_outside c v v' [sl] -> lu_id c v' sl.1 sl.2 <> SPIFFS_OBJ_ID_FREE -> free_rel c v' v0 (sl :: taken).
Proof.
  intros Hwf Hr Hsl Hso Hne sl' Hsl'. destruct (decide (sl' = sl)) as [->|Hd].
  - split; [done|]. unfold is_free. rewrite bool_decide_true; [by rewrite andb_false_r|].
    rewrite <- surjective_pairing. apply list_elem_of_here.
  - rewrite (slot_lu_id c Hwf v v' [sl] sl' Hso Hsl'); [|by constructor|by rewrite list_elem_of_singleton].
    transitivity (is_free c v0 taken sl'.1 sl'.2 = true); [by apply Hr|]. unfold is_free. rewrite (bool_decide_ext ((sl'.1, sl'.2) ∈ sl :: taken) ((sl'.1, sl'.2) ∈ taken)); [reflexivity|].
    rewrite <- surjective_pairing, elem_of_cons. split; [by intros [?|?]|by right].
Qed.

(** The part of the state an allocation leaves alone. *)
Definition alloc_rest s :=
  (cfg s, block_count s, cursor_block_ix s, cursor_obj_lu_entry s, work s, fds s, fd_count s, err_code s,
   stats_p_deleted s, cleaning s, max_erase_count s, cache_size s, mounted s, config_magic s).

(** The free cursor and counters after taking slot [sl]. *)
Definition took (sl : slot) s s' : Prop :=
  alloc_rest s' = alloc_rest s /\ free_cursor_block_ix s' = sl.1 /\ free_cursor_obj_lu_entry s' = sl.2 /\
  free_blocks s' = (if sl.2 =? 0 then u32 (free_blocks s - 1) else free_blocks s) /\
  stats_p_allocated s' = u32 (stats_p_allocated s + 1).

Lemma claim_took sl s s1 s' : lu_frame s s1 -> flash_frame (count_alloc (claim_free sl.1 sl.2 s1)) s' -> took sl s s'.
Proof.
  intros Hl Hf. unfold took, alloc_rest. rewrite Hf. unfold count_alloc, claim_free. rewrite Hl.
  by destruct (sl.2 =? 0).
Qed.

(** What the next allocation needs, and which slot it takes. *)
Definition can_take v0 (taken : list slot) (sl : slot) s : Prop :=
  0 <= free_cursor_block_ix s < blocks (cfg s) /\ 0 <= free_cursor_obj_lu_entry s /\ 2 <= free_blocks s /\
  free_erased s /\ free_rel (cfg s) (view s) v0 taken /\
  next_free (cfg s) v0 taken (start_pos (cfg s) 0 (free_cursor_block_ix s) (free_cursor_obj_lu_entry s)) = Some sl.

Lemma can_take_first T v0 taken sl s : fs_ok T s -> can_take v0 taken sl s ->
  slot_ok (cfg s) sl /\ lu_id (cfg s) (view s) sl.1 sl.2 = SPIFFS_OBJ_ID_FREE /\
  first_entry (cfg s) (start_pos (cfg s) 0 (free_cursor_block_ix s) (free_cursor_obj_lu_entry s))
    (fun b e => is_free (cfg s) v0 taken b e = true) sl.1 sl.2.
Proof.
  intros Hok (Hcb & Hce & _ & _ & Hr & Hn). apply next_free_first in Hn; [|eauto|done|done].
  pose proof Hn as (Hb & He & Hf & _). split; [by split|]. split; [|done]. by apply Hr.
Qed.

Lemma find_free_slot T s v0 taken sl : fs_ok T s -> ticks (cfg s) 0 <= T -> can_take v0 taken sl s ->
  wp (spiffs_obj_lu_find_free (free_cursor_block_ix s) (free_cursor_obj_lu_entry s)) (fun r s' =>
    r = (SPIFFS_OK, sl.1, sl.2) /\ fs_ok (T - ticks (cfg s) 0) s' /\
    exists s1, lu_frame s s1 /\ s' = claim_free sl.1 sl.2 s1) s.
Proof.
  intros Hok HT Hc. destruct (can_take_first _ _ _ _ _ Hok Hc) as (Hsl & Hfree & Hfe).
  pose proof Hc as (Hcb & Hce & Hfb & _ & Hr & _).
  wp_apply find_free_ok; [done|done|done|done|by right|]. intros r s' (Hok' & [(b & e & s1 & -> & Hl & Hs' & Hfe')|(_ & _ & Hno)]).
  - assert ((b, e) = (sl.1, sl.2)) as [= -> ->] by (eapply first_entry_unique; [|exact Hfe'|exact Hfe]; exact Hr).
    split; [done|]. split; [done|]. by exists s1.
  - exfalso. by apply (Hno sl.1 sl.2); try apply Hsl.
Qed.

Lemma alloc_slot_ok T s v0 taken sl id ph data offs finalize :
  fs_ok T s -> ticks (cfg s) 0 + 4 <= T -> can_take v0 taken sl s ->
  0 <= offs -> sizeof_page_header + offs < psz (cfg s) ->
  sizeof_page_header + offs + zlen (alloc_data data) <= psz (cfg s) -> Forall is_byte (alloc_data data) ->
  wp (spiffs_page_allocate_data id ph data offs finalize) (fun r s' =>
    r = (SPIFFS_OK, slot_pix (cfg s) sl, alloc_header ph finalize) /\ fs_ok (T - ticks (cfg s) 0 - 4) s' /\ took sl s s' /\
    page_stored (cfg s) (view s) (view s') sl.1 sl.2 id (alloc_header ph finalize) offs (alloc_data data)) s.
Proof.
  intros Hok HT Hc Ho Ho2 Hlen Hb. destruct (can_take_first _ _ _ _ _ Hok Hc) as (Hsl & Hfree & Hfe).
  pose proof Hc as (Hcb & Hce & Hfb & Her & Hr & _).
  wp_apply page_allocate_data_ok; [done|done|done|done|by right|done|done|done|done|done|].
  intros r s' [(b & e & s1 & -> & Hfe' & Hok' & Hl & Hfl & Hst)|(_ & _ & Hno)].
  - assert ((b, e) = (sl.1, sl.2)) as [= -> ->] by (eapply first_entry_unique; [|exact Hfe'|exact Hfe]; exact Hr).
    split; [done|]. split; [done|]. split; [by eapply claim_took|done].
  - exfalso. by apply (Hno sl.1 sl.2); try apply Hsl.
Qed.

(** A stored page changes its slot only. *)
Lemma page_stored_outside c v v' sl id ph offs data : page_stored c v v' sl.1 sl.2 id ph offs data ->
  0 <= offs -> 5 <= psz c -> sizeof_page_header + offs + zlen data <= psz c -> same_outside c v v' [sl].
Proof.
  intros (_ & _ & _ & H) Ho Hp Hl x Hx. specialize (Hx sl (list_elem_of_here _ _)). unfold in_slot, slot_pix, sizeof_page_header in *.
  pose proof (zlen_nonneg data). apply H; lia.
Qed.

(** Free slots stay erased when a slot is taken. *)
Lemma free_erased_take T s s' sl : fs_ok T s -> free_erased s -> slot_ok (cfg s) sl -> cfg s' = cfg s ->
  same_outside (cfg s) (view s) (view s') [sl] -> lu_id (cfg s) (view s') sl.1 sl.2 <> SPIFFS_OBJ_ID_FREE -> free_erased s'.
Proof.
  intros Hok Her Hsl Hc Hso Hne b e Hb He Hid. rewrite Hc in *. pose proof (fs_ok_wf _ _ Hok) as Hwf.
  assert (Hbe : slot_ok (cfg s) (b, e)) by by split. destruct (decide ((b, e) = sl)) as [<-|Hd]; [done|].
  assert (Hni : (b, e) ∉ [sl]) by by rewrite list_elem_of_singleton.
  pose proof (slot_lu_id (cfg s) Hwf _ _ [sl] (b, e) Hso Hbe ltac:(by constructor) Hni) as Heq. cbn [fst snd] in Heq. rewrite Heq in Hid.
  intros x Hx. rewrite Hso; [by apply (Her b e)|]. intros sl' Hin Hin'. apply list_elem_of_singleton in Hin as ->.
  apply Hd. eapply slots_disjoint; [exact Hwf|done|done| |exact Hin']. right. exact Hx.
Qed.

(** The remaining allocations take the slots [rest]. *)
Definition plan_state v0 (taken rest : list slot) s : Prop :=
  0 <= free_cursor_block_ix s < blocks (cfg s) /\ 0 <= free_cursor_obj_lu_entry s /\
  free_erased s /\ free_rel (cfg s) (view s) v0 taken /\
  plan (cfg s) v0 taken (free_blocks s) (free_cursor_block_ix s) (free_cursor_obj_lu_entry s) (length rest) = Some rest.

Lemma plan_state_same v0 taken rest s s' : cfg s' = cfg s -> flash s' = flash s ->
  free_cursor_block_ix s' = free_cursor_block_ix s -> free_cursor_obj_lu_entry s' = free_cursor_obj_lu_entry s ->
  free_blocks s' = free_blocks s -> plan_state v0 taken rest s -> plan_state v0 taken rest s'.
Proof. intros E1 E2 E3 E4 E5. unfold plan_state, free_erased, view. by rewrite E1, E2, E3, E4, E5. Qed.

Lemma blk_wrap c q : wf_cfg c -> 0 <= q < 2 * (blocks c * lue c) -> 0 <= blk c q < blocks c.
Proof.
  intros Hwf Hq. pose proof (lue_range c Hwf). pose proof (wf_blocks c Hwf). unfold blk, wrap_block.
  assert (0 <= q / lue c < 2 * blocks c) by (split; [apply Z.div_pos; lia|apply Z.div_lt_upper_bound; lia]).
  destruct (q / lue c <? blocks c) eqn:E; bools; lia.
Qed.

Lemma find_ext_in {A} (f g : A -> bool) l : (forall x, In x l -> f x = g x) -> List.find f l = List.find g l.
Proof. induction l as [|x l IH]; intros H; [done|]. cbn. rewrite H by (by left). destruct (g x); [done|]. apply IH. intros y Hy. apply H. by right. Qed.

(** Planning from the current contents. *)
Lemma next_free_rebase c v v0 taken t p0 : wf_cfg c -> free_rel c v v0 taken -> 0 <= p0 < blocks c * lue c ->
  next_free c v0 (t ++ taken) p0 = next_free c v t p0.
Proof.
  intros Hwf Hr Hp. unfold next_free. f_equal. apply find_ext_in. intros q Hq. apply list_elem_of_In, elem_of_seqZ in Hq.
  assert (Hsl : slot_ok c (blk c q, ent c q)) by (split; [apply blk_wrap; [done|lia]|by apply ent_range]).
  specialize (Hr _ Hsl). cbn in Hr. unfold is_free in *. rewrite <- Z.eqb_eq in Hr.
  rewrite (bool_decide_ext ((blk c q, ent c q) ∈ t ++ taken) ((blk c q, ent c q) ∈ t \/ (blk c q, ent c q) ∈ taken)) by apply elem_of_app.
  rewrite bool_decide_or, negb_orb.
  destruct (lu_id c v (blk c q) (ent c q) =? _), (lu_id c v0 (blk c q) (ent c q) =? _), (bool_decide (_ ∈ taken)), (bool_decide (_ ∈ t)); cbn in *; clear - Hr; intuition congruence.
Qed.

Lemma plan_rebase c v v0 taken n : wf_cfg c -> free_rel c v v0 taken -> forall t fb cb ce, 0 <= cb < blocks c -> 0 <= ce ->
  plan c v0 (t ++ taken) fb cb ce n = plan c v t fb cb ce n.
Proof.
  intros Hwf Hr. induction n as [|n IH]; intros t fb cb ce Hcb Hce; [done|]. cbn [plan]. destruct (fb <? 2); [done|].
  rewrite (next_free_rebase c v v0 taken t) by (done || by apply start_pos_range).
  destruct (next_free c v t _) as [sl|] eqn:En; [|done]. cbn [mbind option_bind].
  apply next_free_first in En; [|done|done|done]. destruct En as (Hb & He & _).
  change (sl :: t ++ taken) with ((sl :: t) ++ taken). by rewrite IH by lia.
Qed.

Lemma plan_state_rebase T v0 taken rest s : fs_ok T s -> plan_state v0 taken rest s -> plan_state (view s) [] rest s.
Proof.
  intros Hok (Hcb & Hce & Her & Hr & Hp). split; [done|]. split; [done|]. split; [done|]. split; [apply free_rel_refl|].
  rewrite <- Hp. symmetry. by apply (plan_rebase (cfg s) (view s) v0 taken _ (fs_ok_wf _ _ Hok) Hr []).
Qed.

Lemma plan_state_take T v0 taken sl rest s : fs_ok T s -> plan_state v0 taken (sl :: rest) s ->
  can_take v0 taken sl s /\
  forall s', took sl s s' -> same_outside (cfg s) (view s) (view s') [sl] ->
    lu_id (cfg s) (view s') sl.1 sl.2 <> SPIFFS_OBJ_ID_FREE -> plan_state v0 (sl :: taken) rest s'.
Proof.
  intros Hok (Hcb & Hce & Her & Hr & Hp). cbn [length plan] in Hp.
  destruct (free_blocks s <? 2) eqn:Efb; [done|]. bools.
  destruct (next_free _ _ _ _) as [sl'|] eqn:En; [|done]. cbn [mbind option_bind] in Hp.
  destruct (plan _ _ (sl' :: taken) _ _ _ _) as [rest'|] eqn:Ep; [|done]. cbn [mbind option_bind] in Hp. injection Hp as -> ->.
  assert (Hcan : can_take v0 taken sl s) by (unfold can_take; auto 10). split; [done|].
  destruct (can_take_first _ _ _ _ _ Hok Hcan) as (Hsl & _ & _).
  intros s' (Hrest & Hcb' & Hce' & Hfb' & _) Hso Hne.
  assert (Hcfg : cfg s' = cfg s) by (unfold alloc_rest in Hrest; by injection Hrest).
  unfold plan_state. rewrite Hcfg, Hcb', Hce', Hfb'. destruct Hsl as [Hb He]. split; [done|]. split; [lia|].
  split; [by eapply (free_erased_take T s s' sl)|]. split; [|done].
  eapply free_rel_take; [by eapply fs_ok_wf|exact Hr|by split|exact Hso|done].
Qed.
End alloc.
