(* ===== verification/SpiffsCreate.v ===== *)
(** Creating a file ([spiffs_object_create] of [spiffs_nucleus.c]): the new index
    header on flash. *)
From S2P Require Import Prelude CSem SpiffsTypes SpiffsGeom SpiffsCache SpiffsIo SpiffsLookup SpiffsSearch SpiffsPage SpiffsFind SpiffsPageOps SpiffsIndex SpiffsGc SpiffsObject SpiffsContent SpiffsApi SpiffsRead SpiffsHandle SpiffsOpen SpiffsSlots.
From stdpp Require Import base list numbers option.

Open Scope Z_scope.

(** ** The index header as bytes *)

Definition oix_ok (h : spiffs_page_object_ix_header) : Prop :=
  0 <= ph_obj_id (oix_p_hdr h) < 65536 /\ 0 <= ph_span_ix (oix_p_hdr h) < 65536 /\ is_byte (ph_flags (oix_p_hdr h)) /\
  0 <= oix_size h < 2 ^ 32 /\ is_byte (oix_type h) /\ zlen (oix_name h) = SPIFFS_OBJ_NAME_LEN /\ Forall is_byte (oix_name h).

Lemma length_enc_object_ix_header junk h : zlen junk = 4 -> oix_ok h -> zlen (enc_object_ix_header junk h) = sizeof_object_ix_header.
Proof.
  intros Hj (_ & _ & _ & _ & _ & Hn & _). unfold enc_object_ix_header, zlen, SPIFFS_OBJ_NAME_LEN in *.
  destruct junk as [|j0 [|j1 [|j2 [|j3 [|? ?]]]]]; try (cbn in Hj; lia).
  rewrite !length_app. change (length (slice [j0; j1; j2; j3] 0 3)) with 3%nat. change (length (slice [j0; j1; j2; j3] 3 1)) with 1%nat.
  change (length (enc_page_header (oix_p_hdr h))) with 5%nat. change (length (enc32 (oix_size h))) with 4%nat.
  change (length [oix_type h]) with 1%nat. unfold sizeof_object_ix_header. lia.
Qed.

Lemma enc32_bytes x : Forall is_byte (enc32 x).
Proof. repeat (constructor; [apply land_255_is_byte|]). constructor. Qed.

Lemma enc_object_ix_header_bytes junk h : Forall is_byte junk -> oix_ok h -> Forall is_byte (enc_object_ix_header junk h).
Proof.
  intros Hj (_ & _ & Hf & _ & Ht & _ & Hn). unfold enc_object_ix_header, slice.
  rewrite !Forall_app. split; [by apply enc_page_header_bytes|]. split; [by apply Forall_take, Forall_drop|].
  split; [apply enc32_bytes|]. split; [by constructor|]. split; [done|]. by apply Forall_take, Forall_drop.
Qed.

(** The header read back. *)
Lemma dec_enc_object_ix_header junk h : zlen junk = 4 -> oix_ok h ->
  dec_object_ix_header (enc_object_ix_header junk h) = h.
Proof.
  intros Hj (Hid & Hsp & _ & Hsz & _ & Hn & _). destruct h as [[id sp fl] sz ty name]. cbn in *.
  destruct junk as [|j0 [|j1 [|j2 [|j3 [|? ?]]]]]; try (unfold zlen in Hj; cbn in Hj; lia).
  unfold enc_object_ix_header, dec_object_ix_header. cbn [oix_p_hdr oix_size oix_type oix_name].
  match goal with |- context [dec_page_header ?x] => set (l := x) end.
  assert (Hp : dec_page_header l = mkPh (dec16 (enc16 id)) (dec16 (enc16 sp)) fl) by reflexivity.
  assert (Hs : slice l offsetof_size 4 = enc32 sz) by reflexivity.
  assert (Ht : zget l offsetof_type = ty) by reflexivity.
  assert (Hm : slice l offsetof_name SPIFFS_OBJ_NAME_LEN = take 32 (name ++ [j3])) by reflexivity.
  rewrite Hp, Hs, Ht, Hm, !dec16_enc16, dec32_enc32. unfold zlen, SPIFFS_OBJ_NAME_LEN in Hn.
  rewrite take_app_le, take_ge by lia. rewrite !u16_small, u32_small by lia. done.
Qed.

Lemma strncpy_length s : zlen (strncpy s SPIFFS_OBJ_NAME_LEN) = SPIFFS_OBJ_NAME_LEN.
Proof. unfold zlen, strncpy, SPIFFS_OBJ_NAME_LEN. rewrite length_take, length_app, length_replicate. lia. Qed.

Lemma cstr_bytes l : Forall is_byte l -> Forall is_byte (cstr l).
Proof. unfold cstr. induction 1 as [|x l Hx Hl IH]; [constructor|]. destruct (x =? 0); [constructor|]. by constructor. Qed.

Lemma strncpy_bytes s n : Forall is_byte s -> Forall is_byte (strncpy s n).
Proof.
  intros H. unfold strncpy. apply Forall_take, Forall_app. split; [by apply cstr_bytes|].
  apply Forall_replicate. unfold is_byte. lia.
Qed.

Lemma cstr_id l : cstr (cstr l) = cstr l.
Proof. unfold cstr. induction l as [|x l IH]; [done|]. destruct (x =? 0) eqn:E; [done|]. rewrite E. by f_equal. Qed.

Lemma cstr_app_zero l k : cstr (cstr l ++ replicate k 0) = cstr l.
Proof.
  unfold cstr. induction l as [|x l IH]; [by destruct k|]. destruct (x =? 0) eqn:E; [by destruct k|].
  cbn [app]. rewrite E. by f_equal.
Qed.

(** A short name is stored with its terminator. *)
Lemma streq_strncpy name : zlen (cstr name) < SPIFFS_OBJ_NAME_LEN -> streq name (strncpy name SPIFFS_OBJ_NAME_LEN) = true.
Proof.
  unfold zlen, SPIFFS_OBJ_NAME_LEN. intros Hl. unfold streq, strncpy. apply bool_decide_eq_true.
  rewrite take_app_ge by lia. rewrite take_replicate. by rewrite cstr_app_zero.
Qed.

(** ** Room without garbage collection *)

(** The first test of [spiffs_gc_check] succeeds. *)
Definition gc_fast {F} (len : Z) (s : spiffs F) : bool :=
  (3 <? free_blocks s) && (s32 len <? s32 (gc_free_pages s * s32 (SPIFFS_DATA_PAGE_SIZE (cfg s)))).

(** ** [spiffs_object_create] *)

(** The header of a new file. *)
Definition new_header (id : Z) (name : list Z) (type : Z) : spiffs_page_object_ix_header :=
  mkOix (mkPh (ix_id id) 0 248) SPIFFS_UNDEFINED_LEN type (strncpy name SPIFFS_OBJ_NAME_LEN).

(** Slot [sl] holds the index header of an empty file. *)
Definition empty_file (c : spiffs_config) (v : Z -> Z) (id : Z) (name : list Z) (type : Z) (sl : slot) : Prop :=
  lu_id c v sl.1 sl.2 = ix_id id /\ hdr_at c v (slot_pix c sl) = new_header id name type /\
  erased v (paddr c (slot_pix c sl) + sizeof_object_ix_header) (psz c - sizeof_object_ix_header).

Lemma ix_id_low y : 0 <= y < 32768 -> ix_id y = y + 32768.
Proof.
  intros H. unfold ix_id, SPIFFS_OBJ_ID_IX_FLAG. rewrite <- Z.add_lor_land.
  assert (Z.land y 32768 = 0) as ->; [|lia]. change 32768 with (2 ^ 15). apply Z.bits_inj'. intros i Hi.
  rewrite Z.land_spec, Z.bits_0, Z.pow2_bits_eqb by lia. destruct (15 =? i) eqn:E; bools; [|by rewrite andb_false_r].
  subst i. rewrite <- (Z.mod_small y (2 ^ 15)) by lia. by rewrite Z.mod_pow2_bits_high.
Qed.

Lemma ix_id_idem x : ix_id (ix_id x) = ix_id x.
Proof. unfold ix_id. by rewrite <- Z.lor_assoc, Z.lor_diag. Qed.

Lemma ix_id_range x : 0 <= x < 65536 -> 32768 <= ix_id x < 65536.
Proof.
  intros H. destruct (decide (x < 32768)); [rewrite ix_id_low; lia|].
  replace x with (ix_id (x - 32768)) by (rewrite ix_id_low; lia). rewrite ix_id_idem, ix_id_low; lia.
Qed.

Lemma data_id_mod x : data_id x = x mod 32768.
Proof. unfold data_id. change 32767 with (Z.ones 15). by rewrite Z.land_ones by lia. Qed.

Lemma data_ix_id x : 0 <= x < 65536 -> data_id (ix_id x) = data_id x.
Proof.
  intros H. rewrite !data_id_mod. destruct (decide (x < 32768)).
  - rewrite ix_id_low by lia. by rewrite <- Z.add_mod_idemp_r, Z.add_0_r by lia.
  - replace x with (ix_id (x - 32768)) by (rewrite ix_id_low; lia). by rewrite ix_id_idem.
Qed.

Lemma is_ix_id x : 0 <= x < 65536 -> is_ix x = (32768 <=? x).
Proof.
  intros H. unfold is_ix, hasb, SPIFFS_OBJ_ID_IX_FLAG. destruct (32768 <=? x) eqn:E; bools.
  - assert (Hx : ix_id x = x).
    { replace x with (ix_id (x - 32768)) by (rewrite ix_id_low; lia). apply ix_id_idem. }
    unfold ix_id, SPIFFS_OBJ_ID_IX_FLAG in Hx. pose proof (Z.add_lor_land x 32768) as Ha. rewrite Hx in Ha.
    assert (Z.land x 32768 = 32768) as -> by lia. done.
  - pose proof (ix_id_low x ltac:(lia)) as Hx. unfold ix_id, SPIFFS_OBJ_ID_IX_FLAG in Hx.
    pose proof (Z.add_lor_land x 32768) as Ha. assert (Z.land x 32768 = 0) as -> by lia. done.
Qed.

Section create.
Context {F : Type} {hal : SpiffsHal F} {nor : NorHal F}.
Implicit Types s : spiffs F.

Lemma gc_check_fast s len : gc_fast len s = true -> wp (spiffs_gc_check len) (fun r s' => r = SPIFFS_OK /\ s' = s) s.
Proof.
  intros H. unfold gc_fast in H. unfold spiffs_gc_check. do 8 wp_step. cbv zeta. rewrite H. by wp_step.
Qed.

(** Two writes to a slot: the lookup entry and bytes at the start of its page. *)
Lemma write_slot_ok T s sl id bytes op1 op2 :
  fs_ok T s -> 2 <= T -> slot_ok (cfg s) sl -> lu_id (cfg s) (view s) sl.1 sl.2 = SPIFFS_OBJ_ID_FREE ->
  erased (view s) (paddr (cfg s) (slot_pix (cfg s) sl)) (psz (cfg s)) -> zlen bytes <= psz (cfg s) -> Forall is_byte bytes ->
  Z.land op1 SPIFFS_OP_COM_MASK <> SPIFFS_OP_C_WRTHRU -> Z.land op2 SPIFFS_OP_COM_MASK <> SPIFFS_OP_C_WRTHRU ->
  let c := cfg s in
  wp (spiffs_phys_wr op1 0 (u32 (baddr c sl.1 + sl.2 * sizeof_obj_id)) (enc16 id)) (fun r s1 =>
    r = SPIFFS_OK /\ flash_frame s s1 /\ fs_ok (T - 1) s1 /\
    forall s2, flash_frame s s2 \/ flash_frame (count_alloc s) s2 -> fs_ok (T - 1) s2 -> flash s2 = flash s1 ->
    wp (spiffs_phys_wr op2 0 (SPIFFS_OBJ_LOOKUP_ENTRY_TO_PADDR c sl.1 sl.2) bytes) (fun r s3 =>
      r = SPIFFS_OK /\ flash_frame s2 s3 /\ fs_ok (T - 2) s3 /\
      lu_id c (view s3) sl.1 sl.2 = u16 id /\ vread (view s3) (paddr c (slot_pix c sl)) (zlen bytes) = bytes /\
      erased (view s3) (paddr c (slot_pix c sl) + zlen bytes) (psz c - zlen bytes) /\
      same_outside c (view s) (view s3) [sl]) s2) s.
Proof.
  intros Hok HT Hsl Hfree Her Hl Hb Hop1 Hop2. cbv zeta. pose proof (fs_ok_wf _ _ Hok) as Hwf. set (c := cfg s) in *.
  destruct sl as [b e]. destruct Hsl as [Hbr Her']. unfold slot_pix in *. cbn [fst snd] in *. set (p := entry_pix c b e) in *.
  pose proof (entry_pix_range c Hwf b e Hbr Her') as Hp. fold p in Hp. pose proof (wf_psz c Hwf). pose proof (zlen_nonneg bytes).
  destruct (lu_entry_addr c Hwf b e Hbr Her') as [Hea _]. pose proof (entry_before_pages c Hwf b e b e Hbr Her' Hbr Her') as Hsep. fold p in Hsep.
  rewrite Hea. apply lu_id_free_erased in Hfree as Hel.
  wp_apply wr_erased; [done|lia|by apply lu_entry_in_page|done|apply enc16_bytes|done|].
  intros r s1 (-> & Hfr1 & Hok1 & Hv1 & _). split; [done|]. split; [done|]. split; [done|].
  intros s2 Hfr2 Hok2 Hfl2. assert (Hc2 : cfg s2 = c) by (destruct Hfr2 as [-> | ->]; done).
  assert (Hv2 : forall x, view s2 x = programmed (view s) (baddr c b + 2 * e) (enc16 id) x) by (intros x; unfold view at 1; rewrite Hfl2; apply Hv1).
  assert (Her2 : erased (view s2) (paddr c p) (psz c)).
  { intros x Hx. rewrite Hv2, programmed_out; [by apply Her|]. rewrite length_enc16. lia. }
  rewrite entry_to_paddr by done. fold p.
  wp_apply wr_erased; [exact Hok2|lia| | |done|done|].
  { rewrite Hc2. apply in_page_start; [done|done|lia]. }
  { intros x Hx. apply Her2. lia. }
  intros r s3 (-> & Hfr3 & Hok3 & Hv3 & _). split; [done|]. split; [done|]. split; [by replace (T - 2) with (T - 1 - 1) by lia|].
  split; [|split; [|split]].
  - unfold lu_id. rewrite (vread_ext (view s3) (programmed (programmed (view s) (baddr c b + 2 * e) (enc16 id)) (paddr c p) bytes)).
    + rewrite vread_programmed_out by lia. change 2 with (zlen (enc16 id)) at 3. rewrite vread_programmed; [apply dec16_enc16|].
      eapply erased_compat; [exact Hel|done|apply enc16_bytes].
    + intros x _. rewrite Hv3. apply programmed_ext. exact Hv2.
  - rewrite (vread_ext _ _ _ _ (fun x _ => Hv3 x)). apply vread_programmed. eapply erased_compat; [exact Her2|lia|done].
  - intros x Hx. rewrite Hv3, programmed_out by lia. apply Her2. lia.
  - intros x Hx. specialize (Hx (b, e) (list_elem_of_here _ _)). unfold in_slot, slot_pix in Hx. cbn [fst snd] in Hx. fold p in Hx.
    rewrite Hv3, programmed_out, Hv2, programmed_out; [done|rewrite length_enc16; lia|lia].
Qed.

Lemma new_header_ok id name type : 0 <= id < 65536 -> Forall is_byte name -> is_byte type -> oix_ok (new_header id name type).
Proof.
  intros Hid Hn Ht. unfold oix_ok, new_header. cbn. pose proof (ix_id_range id Hid). unfold is_byte, SPIFFS_UNDEFINED_LEN.
  split; [lia|]. split; [lia|]. split; [lia|]. split; [lia|]. split; [done|]. split; [apply strncpy_length|by apply strncpy_bytes].
Qed.

(** Creating a file in the next free slot. *)
Lemma object_create_ok T s v0 taken sl junk id name type :
  fs_ok T s -> ticks (cfg s) 0 + 2 <= T -> gc_fast (dps (cfg s)) s = true -> can_take v0 taken sl s ->
  0 <= id < 65536 -> Forall is_byte name -> is_byte type -> zlen junk = 4 -> Forall is_byte junk ->
  wp (spiffs_object_create junk id name type) (fun r s' => r = (SPIFFS_OK, slot_pix (cfg s) sl) /\
    fs_ok (T - ticks (cfg s) 0 - 2) s' /\ empty_file (cfg s) (view s') id name type sl /\
    same_outside (cfg s) (view s) (view s') [sl] /\ exists s1, took sl s s1 /\
    s' = set_fds (fd_object_event SPIFFS_EV_IX_NEW (data_id id) 0 (slot_pix (cfg s) sl) SPIFFS_UNDEFINED_LEN <$> fds s) s1) s.
Proof.
  intros Hok HT Hgc Hcan Hid Hn Ht Hj Hjb. pose proof (fs_ok_wf _ _ Hok) as Hwf. pose proof (ticks_nonneg (cfg s) 0 Hwf ltac:(done)) as Htk.
  destruct (can_take_first _ _ _ _ _ Hok Hcan) as (Hsl & Hfree & _). pose proof Hcan as (_ & _ & _ & Her & _).
  pose proof (new_header_ok id name type Hid Hn Ht) as Hh. pose proof (wf_psz _ Hwf).
  set (bytes := enc_object_ix_header junk (new_header id name type)).
  assert (Hbl : zlen bytes = sizeof_object_ix_header) by by apply length_enc_object_ix_header.
  unfold spiffs_object_create. wp_step. wp_step. wp_step. wp_apply gc_check_fast; [done|]. intros r s0 [-> ->]. ok_res.
  do 5 wp_step. wp_apply find_free_slot; [done|lia|done|]. intros r s1 (-> & Hok1 & s1' & Hl1 & Hs1). ok_res. wp_step.
  assert (Hc1 : cfg s1 = cfg s) by (rewrite Hs1; unfold claim_free; rewrite Hl1; by destruct (sl.2 =? 0)).
  assert (Hv1 : view s1 = view s) by (rewrite Hs1; unfold claim_free; rewrite Hl1; by destruct (sl.2 =? 0)).
  pose proof (write_slot_ok (T - ticks (cfg s) 0) s1 sl (ix_id id) bytes (Z.lor SPIFFS_OP_T_OBJ_LU SPIFFS_OP_C_UPDT)
    (Z.lor SPIFFS_OP_T_OBJ_DA SPIFFS_OP_C_UPDT) Hok1 ltac:(lia)) as Hw. cbv zeta in Hw. rewrite Hc1, Hv1 in Hw.
  wp_apply Hw; [done|done|apply Her; [apply Hsl|apply Hsl|done]|rewrite Hbl; unfold sizeof_object_ix_header; lia
    |by apply enc_object_ix_header_bytes|done|done|].
  intros r s2 (-> & Hfr2 & Hok2 & Hnext). ok_res. wp_step. wp_step. wp_step.
  set (s2' := set_stats_p_allocated (u32 (stats_p_allocated s2 + 1)) s2).
  wp_apply (Hnext s2'); [right; unfold flash_frame, count_alloc, s2'; by rewrite Hfr2|by eapply fs_okx_same|done|].
  intros r s3 (-> & Hfr3 & Hok3 & Hid3 & Hby & Her3 & Hso). ok_res. rewrite entry_to_pix by (exact Hwf || apply Hsl).
  change (entry_pix (cfg s) sl.1 sl.2) with (slot_pix (cfg s) sl).
  wp_step. unfold spiffs_cb_object_event. rewrite data_ix_id by done. wp_step. wp_step.
  assert (Htook : took sl s s3).
  { eapply claim_took; [exact Hl1|]. rewrite <- Hs1. unfold flash_frame, count_alloc. rewrite Hfr3. unfold s2'. rewrite Hfr2. done. }
  split; [done|]. split; [eapply fs_okx_same; [exact Hok3|done..]|]. split; [|split; [done|]].
  - change (view (set_fds _ s3)) with (view s3). unfold empty_file. rewrite Hid3, u16_small by (pose proof (ix_id_range id Hid); lia).
    split; [done|]. rewrite Hbl in Hby, Her3. split; [|done]. unfold hdr_at. rewrite Hby. by apply dec_enc_object_ix_header.
  - exists s3. split; [done|]. destruct Htook as [Hrest _]. assert (fds s3 = fds s) as -> by (unfold alloc_rest in Hrest; by injection Hrest).
    done.
Qed.
End create.
