(* ===== verification/SpiffsAppend.v ===== *)
(** Writing the contents of a new file ([spiffs_object_append] of
    [spiffs_nucleus.c]) whose data pages fit the table of the index header: the
    pages allocated, the index table built in [fs->work], and the object stored. *)
From S2P Require Import Prelude CSem SpiffsTypes SpiffsGeom SpiffsCache SpiffsIo SpiffsLookup SpiffsSearch SpiffsPage SpiffsFind SpiffsPageOps SpiffsIndex SpiffsGc SpiffsObject SpiffsContent SpiffsRead SpiffsSlots SpiffsCreate.
From stdpp Require Import base list numbers option.

Open Scope Z_scope.

(** ** Words in a buffer *)

Definition get16 (w : list Z) (o : Z) : Z := dec16 (slice w o 2).

Lemma get16_bytes w o : 0 <= o -> o + 2 <= zlen w -> get16 w o = zget w o + 256 * zget w (o + 1).
Proof. intros Ho Hl. unfold get16, dec16. rewrite !zget_slice by lia. by rewrite Z.add_0_r. Qed.

Lemma get16_vread v a n o : 0 <= o -> o + 2 <= n -> get16 (vread v a n) o = dec16 (vread v (a + o) 2).
Proof. intros Ho Hl. unfold get16. by rewrite slice_vread by lia. Qed.

Lemma get16_ext w w' o : 0 <= o -> o + 2 <= zlen w -> zlen w' = zlen w ->
  (forall j, o <= j < o + 2 -> zget w' j = zget w j) -> get16 w' o = get16 w o.
Proof. intros Ho Hl Hl' H. rewrite !get16_bytes by lia. rewrite !H by lia. done. Qed.

Lemma get16_splice w o x : 0 <= o -> o + 2 <= zlen w -> 0 <= x < 65536 -> get16 (splice w o (enc16 x)) o = x.
Proof.
  intros Ho Hl Hx. assert (zlen (enc16 x) = 2) as H2 by done.
  rewrite get16_bytes by (rewrite ?length_splice; lia). rewrite !zget_splice by lia. rewrite H2.
  rewrite !(proj2 (Z.leb_le _ _)), !(proj2 (Z.ltb_lt _ _)) by lia. cbn [andb].
  replace (o - o) with 0 by lia. replace (o + 1 - o) with 1 by lia.
  pose proof (dec16_enc16 x) as He. unfold dec16 in He. rewrite He. by apply u16_small.
Qed.

Lemma zget_splice_out w o src j : 0 <= o -> o + zlen src <= zlen w -> 0 <= j < zlen w -> ~ (o <= j < o + zlen src) ->
  zget (splice w o src) j = zget w j.
Proof.
  intros Ho Hl Hj Hn. rewrite zget_splice by lia. destruct (o <=? j) eqn:E1; bools; [|done].
  by rewrite (proj2 (Z.ltb_ge _ _)) by lia.
Qed.

Lemma dec32_slice_splice w o x : 0 <= o -> o + 4 <= zlen w -> dec32 (slice (splice w o (enc32 x)) o 4) = u32 x.
Proof.
  intros Ho Hl. assert (zlen (enc32 x) = 4) as H4 by done. rewrite <- dec32_enc32. f_equal. apply list_eq_zget.
  - rewrite length_slice by (rewrite ?length_splice; lia). done.
  - rewrite length_slice by (rewrite ?length_splice; lia). intros i Hi. rewrite zget_slice, zget_splice by (rewrite ?length_splice; lia).
    rewrite (proj2 (Z.leb_le _ _)), (proj2 (Z.ltb_lt _ _)) by lia. cbn [andb]. f_equal. lia.
Qed.

(** ** The index table in [fs->work] *)

(** Data pages of [len] bytes. *)
Definition data_pages (c : spiffs_config) (len : Z) : Z := (len + dps c - 1) / dps c.

(** The work buffer: the page at [a] of [v], the size and the first entries of the
    table replaced. *)
Record table_work (c : spiffs_config) (v : Z -> Z) (a : Z) (pixs w : list Z) : Prop := {
  tw_length : zlen w = psz c;
  tw_bytes : Forall is_byte w;
  tw_entry : forall i q, pixs !! i = Some q -> get16 w (sizeof_object_ix_header + 2 * Z.of_nat i) = q;
  tw_rest : forall j, 0 <= j < psz c -> ~ (offsetof_size <= j < offsetof_size + 4) ->
    ~ (sizeof_object_ix_header <= j < sizeof_object_ix_header + 2 * zlen pixs) -> zget w j = v (a + j)
}.

Section work.
Context (c : spiffs_config) (v : Z -> Z) (a : Z).
Hypothesis Hbyte : forall x, is_byte (v x).
Hypothesis Hpsz : 48 <= psz c.

Lemma table_work_init : table_work c v a [] (vread v a (psz c)).
Proof using Hbyte Hpsz.
  split.
  - apply length_vread. lia.
  - unfold vread. apply Forall_fmap, Forall_true. intros x. apply Hbyte.
  - done.
  - intros j Hj _ _. by apply zget_vread.
Qed.

Lemma table_work_entry pixs w q : table_work c v a pixs w -> 0 <= q < 65536 ->
  sizeof_object_ix_header + 2 * zlen pixs + 2 <= psz c ->
  table_work c v a (pixs ++ [q]) (splice w (sizeof_object_ix_header + 2 * zlen pixs) (enc16 q)).
Proof using.
  intros [Hl Hb He Hr] Hq Hfit. pose proof (zlen_nonneg pixs). assert (zlen (enc16 q) = 2) as H2 by done.
  set (o := sizeof_object_ix_header + 2 * zlen pixs) in *. assert (Ho : 0 <= o) by (unfold o, sizeof_object_ix_header; lia). split.
  - rewrite length_splice; lia.
  - apply Forall_splice; [done|apply enc16_bytes].
  - intros i q' Hi. apply lookup_snoc_Some in Hi as [[Hlt Hi]|[Hlen ->]].
    + rewrite <- (He i q' Hi). apply get16_ext; [unfold sizeof_object_ix_header; lia| |rewrite length_splice; lia|].
      * rewrite Hl. unfold o, zlen in *. lia.
      * intros j Hj. apply zget_splice_out; unfold o, zlen, sizeof_object_ix_header in *; lia.
    + subst i. fold (zlen pixs). apply get16_splice; lia.
  - intros j Hj Hs Hn. rewrite zlen_snoc in Hn. rewrite zget_splice_out by (unfold o in *; lia). apply Hr; [done|done|lia].
Qed.

Lemma table_work_size pixs w x : table_work c v a pixs w -> sizeof_object_ix_header + 2 * zlen pixs <= psz c ->
  table_work c v a pixs (splice w offsetof_size (enc32 x)).
Proof using Hpsz.
  intros [Hl Hb He Hr] Hfit. assert (zlen (enc32 x) = 4) as H4 by done.
  unfold offsetof_size, sizeof_object_ix_header in *. split.
  - rewrite length_splice; lia.
  - apply Forall_splice; [done|apply enc32_bytes].
  - intros i q' Hi. rewrite <- (He i q' Hi). apply lookup_lt_Some in Hi. apply get16_ext; [lia| |rewrite length_splice; lia|].
    + rewrite Hl. unfold zlen in Hfit. lia.
    + intros j Hj. unfold zlen in Hfit. apply zget_splice_out; lia.
  - unfold offsetof_size, sizeof_object_ix_header. intros j Hj Hs Hn. rewrite zget_splice_out by lia. by apply Hr.
Qed.

(** Writing the table over the page it came from: the replaced bytes are erased. *)
Lemma table_work_compat pixs w : table_work c v a pixs w -> erased v (a + offsetof_size) 4 ->
  erased v (a + sizeof_object_ix_header) (psz c - sizeof_object_ix_header) -> nor_compat v a w.
Proof using Hpsz.
  intros [Hl Hb He Hr] Hs Hi j Hj. rewrite Hl in Hj. unfold offsetof_size, sizeof_object_ix_header in *.
  assert (Hwb : is_byte (zget w j)).
  { unfold zget. eapply (Forall_lookup_1 _ _ (Z.to_nat j)); [exact Hb|]. apply list_lookup_lookup_total_lt. unfold zlen in Hl. lia. }
  destruct (decide (8 <= j < 8 + 4)) as [|H1]; [rewrite Hs by lia; by apply land_255_byte|].
  destruct (decide (46 <= j < 46 + 2 * zlen pixs)) as [|H2]; [rewrite Hi by lia; by apply land_255_byte|].
  rewrite Hr by done. apply Z.land_diag.
Qed.
End work.

Lemma work_entry_ok {F} (s : spiffs F) k q (Q : unit -> spiffs F -> Prop) :
  0 <= k -> sizeof_object_ix_header + 2 * k + 2 <= zlen (work s) ->
  Q tt (set_work (splice (work s) (sizeof_object_ix_header + 2 * k) (enc16 q)) s) ->
  wp (set_objix_entry 0 k q) Q s.
Proof.
  intros Hk Hl HQ. unfold set_objix_entry, objix_entry_offs, sizeof_page_ix. wp_step. wp_step. wp_step. wp_step.
  rewrite Z.eqb_refl. replace (k * 2) with (2 * k) by lia. rewrite (proj2 (Z.leb_le _ _)) by lia. by wp_step.
Qed.

(** ** The pages written *)

(** Slot [sl] holds data page [i] of [data] for object [id]. *)
Definition page_written (c : spiffs_config) (v : Z -> Z) (id : Z) (data : list Z) (i : Z) (sl : slot) : Prop :=
  lu_id c v sl.1 sl.2 = data_id id /\ ph_at c v (slot_pix c sl) = mkPh (data_id id) i 252 /\
  vread v (paddr c (slot_pix c sl) + sizeof_page_header) (Z.min (dps c) (zlen data - i * dps c)) =
    slice data (i * dps c) (Z.min (dps c) (zlen data - i * dps c)).

Lemma page_written_frame c v v' id data i sl l : wf_cfg c -> slot_ok c sl -> Forall (slot_ok c) l -> sl ∉ l ->
  same_outside c v v' l -> page_written c v id data i sl -> page_written c v' id data i sl.
Proof.
  intros Hwf Hsl Hl Hni Hso (Hid & Hph & Hd). pose proof (wf_psz c Hwf). pose proof (dps_eq c Hwf) as [Hdps _].
  unfold page_written. rewrite (slot_lu_id c Hwf v v' l sl) by done. split; [done|]. split.
  - rewrite <- Hph. unfold ph_at. f_equal. rewrite <- (Z.add_0_r (paddr c _)).
    apply (slot_page_vread c Hwf v v' l sl); try done. unfold sizeof_page_header. lia.
  - rewrite <- Hd. apply (slot_page_vread c Hwf v v' l sl); try done. unfold sizeof_page_header. lia.
Qed.

Lemma dec_enc_page_header h : 0 <= ph_obj_id h < 65536 -> 0 <= ph_span_ix h < 65536 -> dec_page_header (enc_page_header h) = h.
Proof.
  intros Hi Hs. destruct h as [i s f]. cbn in Hi, Hs.
  assert (dec_page_header (enc_page_header (mkPh i s f)) = mkPh (dec16 (enc16 i)) (dec16 (enc16 s)) f) as -> by reflexivity.
  by rewrite !dec16_enc16, !u16_small by lia.
Qed.

Lemma page_stored_written c v v' id data i sl : wf_cfg c -> slot_ok c sl -> 0 <= id < 65536 -> 0 <= i < 65536 ->
  i * dps c < zlen data ->
  page_stored c v v' sl.1 sl.2 (data_id id) (mkPh (data_id id) i 252) 0 (slice data (i * dps c) (Z.min (dps c) (zlen data - i * dps c))) ->
  page_written c v' id data i sl.
Proof.
  intros Hwf Hsl Hid Hi Hlt (Hlu & Hph & Hd & _). pose proof (dps_eq c Hwf) as [Hdps ?].
  assert (Hdid : 0 <= data_id id < 32768) by (rewrite data_id_mod; apply Z.mod_pos_bound; lia).
  unfold page_written. rewrite Hlu, u16_small by lia. split; [done|]. split.
  - unfold ph_at, slot_pix. rewrite Hph. apply dec_enc_page_header; cbn; lia.
  - rewrite Z.add_0_r in Hd. rewrite length_slice in Hd by nia. exact Hd.
Qed.

Section append.
Context {F : Type} {hal : SpiffsHal F} {nor : NorHal F}.
Implicit Types s : spiffs F.

(** The part of the state the loop leaves alone: all but the work buffers, the
    cache, the flash, the free cursor and the page counters. *)
Definition app_rest s :=
  (cfg s, block_count s, cursor_block_ix s, cursor_obj_lu_entry s, fds s, fd_count s, err_code s,
   stats_p_deleted s, cleaning s, max_erase_count s, cache_size s, mounted s, config_magic s).

Lemma alloc_app_rest s s' : alloc_rest s' = alloc_rest s -> app_rest s' = app_rest s /\ work s' = work s.
Proof. unfold alloc_rest, app_rest. intros [=]. split; [congruence|done]. Qed.

Lemma app_rest_cfg s s' : app_rest s' = app_rest s -> cfg s' = cfg s /\ fds s' = fds s.
Proof. unfold app_rest. by intros [=]. Qed.

Lemma page_index_check_ok T s fd p i :
  fs_ok T s -> 1 <= T -> 0 <= p < pages (cfg s) -> lup (cfg s) <= p mod ppb (cfg s) ->
  SPIFFS_VALIDATE_OBJIX (ph_at (cfg s) (view s) p) (fd_obj_id fd) i = None ->
  wp (spiffs_page_index_check fd p i) (fun r s' => r = SPIFFS_OK /\ cache_frame s s' /\ fs_ok (T - 1) s') s.
Proof.
  intros Hok HT Hp Hl Hv. pose proof (fs_ok_wf _ _ Hok) as Hwf. pose proof (wf_pages_lt _ Hwf).
  unfold spiffs_page_index_check. wp_step. wp_step.
  rewrite (proj2 (Z.eqb_neq p IX_NONE)) by (unfold IX_NONE; lia).
  rewrite (proj2 (Z.ltb_ge (p mod _) _)) by lia. rewrite (proj2 (Z.ltb_ge (SPIFFS_MAX_PAGES _) _)) by lia.
  wp_step. wp_apply rd_page_header_ok; [done|done|done|]. intros r s1 (-> & Hf & Hok1). ok_res. wp_step.
  by rewrite Hv.
Qed.

Section loop.
Context (T : Z) (s0 : spiffs F) (fd_i : Z) (fd : spiffs_fd) (hs : slot) (data : list Z) (slots : list slot).
Abbreviation c := (cfg s0).
Abbreviation v0 := (view s0).
Abbreviation id := (fd_obj_id fd).
Abbreviation hp := (slot_pix c hs).
Abbreviation len := (zlen data).

Hypothesis Hok0 : fs_ok T s0.
Hypothesis Hfd : fds s0 !! Z.to_nat fd_i = Some fd.
Hypothesis Hhs : slot_ok c hs.
Hypothesis Hlu : lu_id c v0 hs.1 hs.2 <> SPIFFS_OBJ_ID_FREE.
Hypothesis Hval : SPIFFS_VALIDATE_OBJIX (ph_at c v0 hp) id 0 = None.
Hypothesis Hid : 0 <= id < 65536.
Hypothesis Hpsz : psz c <= 65536.
Hypothesis Hdata : Forall is_byte data.
Hypothesis Hlen : 0 < len < 2 ^ 32.
Hypothesis Hn : zlen slots = data_pages c len.
Hypothesis Hfit : data_pages c len <= SPIFFS_OBJ_HDR_IX_LEN c.

(** Accesses of the first [k] iterations. *)
Definition app_ticks (k : Z) : Z := k * (ticks c 0 + 4) + (if k =? 0 then 0 else 1).

(** [k] data pages have been written. *)
Record pages_written (T' k : Z) s : Prop := {
  pw_rest : app_rest s = app_rest s0;
  pw_ok : fs_ok T' s;
  pw_plan : plan_state v0 (rev (take (Z.to_nat k) slots)) (drop (Z.to_nat k) slots) s;
  pw_outside : same_outside c v0 (view s) (take (Z.to_nat k) slots);
  pw_slots : Forall (slot_ok c) (take (Z.to_nat k) slots);
  pw_header : hs ∉ take (Z.to_nat k) slots;
  pw_pages : forall i sl, slots !! i = Some sl -> Z.of_nat i < k -> page_written c (view s) id data (Z.of_nat i) sl;
  pw_work : 0 < k -> table_work c v0 (paddr c hp) (slot_pix c <$> take (Z.to_nat k) slots) (work s)
}.

Lemma hdr_len : SPIFFS_OBJ_HDR_IX_LEN c < 65536 /\ sizeof_object_ix_header + 2 * SPIFFS_OBJ_HDR_IX_LEN c <= psz c.
Proof using Hok0 Hpsz.
  pose proof (ix_lens c (fs_ok_wf _ _ Hok0)). unfold sizeof_object_ix_header. lia.
Qed.

Lemma data_id_small : 0 <= data_id id < 32768.
Proof using. clear. rewrite data_id_mod. apply Z.mod_pos_bound. lia. Qed.

(** A written slot is not free. *)
Lemma written_not_free v i sl : page_written c v id data i sl -> lu_id c v sl.1 sl.2 <> SPIFFS_OBJ_ID_FREE.
Proof using.
  clear. intros (-> & _). pose proof data_id_small. unfold SPIFFS_OBJ_ID_FREE. lia.
Qed.

(** The slot taken next is new. *)
Lemma next_slot_fresh T' k s sl : pages_written T' k s -> 0 <= k -> lu_id c (view s) sl.1 sl.2 = SPIFFS_OBJ_ID_FREE ->
  sl ∉ take (Z.to_nat k) slots.
Proof using.
  clear. intros Hw Hk Hf Hin. apply list_elem_of_lookup in Hin as [i Hi]. apply lookup_take_Some in Hi as [Hi Hik].
  apply (written_not_free (view s) (Z.of_nat i) sl); [|done]. eapply pw_pages; [done|done|lia].
Qed.

Lemma next_slot_header T' k s sl : pages_written T' k s -> lu_id c (view s) sl.1 sl.2 = SPIFFS_OBJ_ID_FREE -> hs <> sl.
Proof using Hok0 Hlu Hhs.
  intros Hw Hf <-. apply Hlu. rewrite <- Hf. symmetry.
  eapply (slot_lu_id c (fs_ok_wf _ _ Hok0)); [apply Hw|done|apply Hw|apply Hw].
Qed.

(** What the pages written do not touch: the header page. *)
Lemma header_page T' k s off m : pages_written T' k s -> 0 <= off -> off + m <= psz c ->
  vread (view s) (paddr c hp + off) m = vread v0 (paddr c hp + off) m.
Proof using Hok0 Hhs.
  intros Hw Ho Hm. apply (slot_page_vread c (fs_ok_wf _ _ Hok0) _ _ (take (Z.to_nat k) slots) hs); try done; apply Hw.
Qed.

Lemma header_ph T' k s : pages_written T' k s -> ph_at c (view s) hp = ph_at c v0 hp.
Proof using Hok0 Hhs.
  intros Hw. unfold ph_at. f_equal. rewrite <- (Z.add_0_r (paddr c hp)). pose proof (wf_psz _ (fs_ok_wf _ _ Hok0)).
  eapply header_page; [done|done|]. unfold sizeof_page_header. lia.
Qed.

(** The local variables at the head of iteration [k]. *)
Definition app_vars (k dp : Z) : io_vars :=
  mkIo SPIFFS_OK (Z.min (k * dps c) len) 0 (if k =? 0 then IX_NONE else 0) hp k 0 dp.

(** Before the first page the index header is loaded. *)
Lemma app_load_ok T' k s : pages_written T' k s -> 0 <= k -> (if k =? 0 then 1 else 0) <= T' ->
  wp (if negb (0 =? (if k =? 0 then IX_NONE else 0))
      then err ← (if 0 <? Z.min (k * dps c) len then append_store_objix fd_i 0 (Z.min (k * dps c) len) (if k =? 0 then IX_NONE else 0) hp else mret None);
           match err with Some res => mret (inr res) | None => append_load_objix fd_i 0 (Z.min (k * dps c) len) 0 hp end
      else mret (inl hp)) (fun r s' => r = inl hp /\ pages_written (T' - if k =? 0 then 1 else 0) k s' /\
        table_work c v0 (paddr c hp) (slot_pix c <$> take (Z.to_nat k) slots) (work s')) s.
Proof using Hok0 Hfd Hhs Hval Hlen.
  intros Hw Hk HT. pose proof (fs_ok_wf _ _ Hok0) as Hwf.
  destruct (app_rest_cfg _ _ (pw_rest _ _ _ Hw)) as [Hcs Hfs]. pose proof (slot_pix_range c Hwf hs Hhs) as Hp.
  destruct (k =? 0) eqn:Ek; bools.
  - subst k. change (negb (0 =? IX_NONE)) with true. cbv iota. rewrite Z.mul_0_l, Z.min_l by lia. change (0 <? 0) with false. cbv iota.
    wp_step. wp_step. unfold append_load_objix. wp_step. wp_step. rewrite Z.eqb_refl. wp_step.
    wp_apply (load_index_ok T' s fd_i fd id hp 0); [apply Hw|done|by rewrite Hfs|done|by rewrite Hcs| |].
    { rewrite Hcs. by erewrite header_ph. }
    intros r s1 (-> & Hok1 & Hs1). wp_step. split; [done|]. rewrite Hcs in Hs1.
    assert (Hwork : work s1 = vread v0 (paddr c hp) (psz c)).
    { rewrite Hs1. cbn. rewrite <- (Z.add_0_r (paddr c hp)). eapply header_page; [done|done|lia]. }
    split.
    + destruct Hw as [H1 H2 H3 H4 H5 H6 H7 _]. split; try done; by rewrite Hs1.
    + rewrite Hwork. cbn. apply table_work_init; [intros x; apply hal_byte|]. apply (wf_psz c Hwf).
  - change (negb (0 =? 0)) with false. cbv iota. wp_step. split; [done|]. rewrite Z.sub_0_r. split; [done|]. apply Hw. lia.
Qed.

Lemma data_page_before k : 0 <= k -> k < data_pages c len <-> k * dps c < len.
Proof using Hok0.
  intros Hk. pose proof (dps_eq c (fs_ok_wf _ _ Hok0)). unfold data_pages.
  pose proof (Z.div_mod (len + dps c - 1) (dps c) ltac:(lia)). pose proof (Z.mod_pos_bound (len + dps c - 1) (dps c) ltac:(lia)).
  split; nia.
Qed.

(** Another page in its slot. *)
Lemma pages_written_take T' T2 k s s' sl :
  pages_written T' k s -> 0 <= k -> k * dps c < len -> k < 65536 -> slots !! Z.to_nat k = Some sl ->
  table_work c v0 (paddr c hp) (slot_pix c <$> take (Z.to_nat k) slots) (work s) ->
  sizeof_object_ix_header + 2 * (k + 1) <= psz c ->
  fs_ok T2 s' -> took sl s s' ->
  page_stored c (view s) (view s') sl.1 sl.2 (data_id id) (mkPh (data_id id) k 252) 0
    (slice data (k * dps c) (Z.min (dps c) (len - k * dps c))) ->
  forall s'', s'' = set_work (splice (splice (work s') (sizeof_object_ix_header + 2 * k) (enc16 (slot_pix c sl)))
                                offsetof_size (enc32 (u32 (k * dps c)))) s' ->
  pages_written T2 (k + 1) s''.
Proof using Hok0 Hlu Hhs Hid.
  intros Hw Hk Hkl Hk2 Hsl Htw Hfit' Hok2 Htook Hst s'' Hs''. pose proof (fs_ok_wf _ _ Hok0) as Hwf. pose proof (wf_psz _ Hwf).
  pose proof (dps_eq c Hwf) as [Hdps ?]. destruct (app_rest_cfg _ _ (pw_rest _ _ _ Hw)) as [Hcs Hfs].
  assert (Hdrop : drop (Z.to_nat k) slots = sl :: drop (S (Z.to_nat k)) slots) by (by apply drop_S).
  assert (Htake : take (Z.to_nat (k + 1)) slots = take (Z.to_nat k) slots ++ [sl]).
  { replace (Z.to_nat (k + 1)) with (S (Z.to_nat k)) by lia. by apply take_S_r. }
  pose proof (pw_plan _ _ _ Hw) as Hplan. rewrite Hdrop in Hplan.
  destruct (plan_state_take _ _ _ _ _ _ (pw_ok _ _ _ Hw) Hplan) as [Hcan Hnext].
  destruct (can_take_first _ _ _ _ _ (pw_ok _ _ _ Hw) Hcan) as (Hslok & Hfree & _). rewrite Hcs in Hslok, Hfree, Hnext.
  assert (Hl : zlen (slice data (k * dps c) (Z.min (dps c) (len - k * dps c))) = Z.min (dps c) (len - k * dps c))
    by (apply length_slice; nia).
  assert (Hso : same_outside c (view s) (view s') [sl]).
  { eapply page_stored_outside; [exact Hst|lia|lia|]. rewrite Hl. unfold sizeof_page_header. lia. }
  assert (Hpw : page_written c (view s') id data k sl) by (eapply page_stored_written; [done|done|done|lia|lia|exact Hst]).
  assert (Hne : lu_id c (view s') sl.1 sl.2 <> SPIFFS_OBJ_ID_FREE) by (by eapply written_not_free).
  specialize (Hnext s' Htook Hso Hne).
  destruct (alloc_app_rest _ _ (proj1 Htook)) as [Hrest Hwork].
  assert (Hv : view s'' = view s') by (by rewrite Hs'').
  split.
  - rewrite Hs''. change (app_rest (set_work _ s')) with (app_rest s'). rewrite Hrest. apply Hw.
  - rewrite Hs''. by eapply fs_okx_same.
  - rewrite Htake, rev_app_distr. cbn [rev app]. replace (drop (Z.to_nat (k + 1)) slots) with (drop (S (Z.to_nat k)) slots) by (f_equal; lia).
    rewrite Hs''. exact Hnext.
  - rewrite Htake, Hv. eapply same_outside_trans; [apply Hw|exact Hso].
  - rewrite Htake. apply Forall_app. split; [apply Hw|]. by constructor.
  - rewrite Htake, not_elem_of_app. split; [apply Hw|]. rewrite list_elem_of_singleton. by eapply next_slot_header.
  - rewrite Hv. intros i sl' Hi Hik. destruct (decide (Z.of_nat i = k)) as [<-|].
    + rewrite Nat2Z.id in Hsl. assert (sl' = sl) as -> by congruence. done.
    + assert (Hin : sl' ∈ take (Z.to_nat k) slots).
      { apply list_elem_of_lookup. exists i. apply lookup_take_Some. split; [done|lia]. }
      assert (sl' <> sl) by (intros ->; eapply next_slot_fresh; [exact Hw|done|exact Hfree|exact Hin]).
      eapply (page_written_frame c (view s) (view s')); [done| | | |exact Hso|].
      * pose proof (pw_slots _ _ _ Hw) as Hall. rewrite Forall_forall in Hall. apply Hall. by apply list_elem_of_In.
      * by constructor.
      * by rewrite list_elem_of_singleton.
      * eapply pw_pages; [done|done|lia].
  - intros _. assert (Hzt : zlen (slot_pix c <$> take (Z.to_nat k) slots) = k).
    { apply lookup_lt_Some in Hsl. unfold zlen. rewrite length_fmap, length_take. lia. }
    rewrite Htake, fmap_app, Hs'', Hwork. cbn [fmap list_fmap]. cbn [work set_work].
    pose proof (slot_pix_range c Hwf sl Hslok). pose proof (wf_pages_lt _ Hwf).
    apply table_work_size; [lia| |rewrite zlen_snoc, Hzt; lia].
    rewrite <- Hzt at 2. apply table_work_entry; [done|lia|rewrite Hzt; lia].
Qed.

Lemma slot_at k : 0 <= k < data_pages c len -> exists sl, slots !! Z.to_nat k = Some sl.
Proof using Hn. intros Hk. assert (Hs : Z.of_nat (length slots) = data_pages c len) by exact Hn. apply lookup_lt_is_Some_2. lia. Qed.

Lemma app_body_ok T' k dp s : pages_written T' k s -> 0 <= k < data_pages c len -> (if k =? 0 then 1 else 0) + ticks c 0 + 4 <= T' ->
  wp (append_body fd_i 0 data len (app_vars k dp)) (fun r s' => exists dp', r = Next (app_vars (k + 1) dp') /\
    pages_written (T' - (if k =? 0 then 1 else 0) - ticks c 0 - 4) (k + 1) s') s.
Proof using All.
  intros Hw Hk HT. pose proof (fs_ok_wf _ _ Hok0) as Hwf. pose proof (wf_psz _ Hwf). pose proof (ticks_nonneg c 0 Hwf ltac:(done)) as Htk.
  pose proof (dps_eq c Hwf) as [Hdps ?]. pose proof hdr_len as [Hh1 Hh2]. pose proof (proj1 (data_page_before k ltac:(lia)) ltac:(lia)) as Hkl.
  assert (Hk0 : 0 <= k * dps c) by nia.
  destruct (app_rest_cfg _ _ (pw_rest _ _ _ Hw)) as [Hcs Hfs]. destruct (slot_at k Hk) as [sl Hsl].
  unfold append_body, app_vars. cbn [io_res io_written io_data_spix io_prev_objix_spix io_cur_objix_pix io_page_offs io_data_pix].
  wp_step. wp_step. rewrite Z.eqb_refl. rewrite (proj2 (Z.ltb_lt _ len)) by lia. cbn [andb]. cbv iota zeta.
  rewrite Hcs. assert (Hsp : u16 (ix_span c k) = 0).
  { unfold SPIFFS_OBJ_IX_ENTRY_SPAN_IX. by rewrite (proj2 (Z.ltb_lt _ _)) by lia. }
  rewrite Hsp. wp_step. wp_apply (app_load_ok T' k); [done|lia|destruct (k =? 0); lia|].
  intros r s1 (-> & Hw1 & Htw). set (T1 := T' - (if k =? 0 then 1 else 0)) in *.
  assert (HT1 : ticks c 0 + 4 <= T1) by (unfold T1; destruct (k =? 0); lia).
  destruct (app_rest_cfg _ _ (pw_rest _ _ _ Hw1)) as [Hc1 Hf1].
  assert (Htow : Z.min (len - Z.min (k * dps c) len) (dps c - 0) = Z.min (dps c) (len - k * dps c)) by lia.
  rewrite Htow. assert (Hkm : Z.min (k * dps c) len = k * dps c) by lia. rewrite Hkm.
  set (chunk := slice data (k * dps c) (Z.min (dps c) (len - k * dps c))).
  assert (Hcl : zlen chunk = Z.min (dps c) (len - k * dps c)) by (apply length_slice; lia).
  unfold append_write_data. wp_step. wp_step. wp_step. wp_step. eapply wp_fd_at; [by rewrite Hf1|].
  rewrite Z.eqb_refl. wp_step.
  pose proof (pw_plan _ _ _ Hw1) as Hplan. rewrite (drop_S _ sl _ Hsl) in Hplan.
  destruct (plan_state_take _ _ _ _ _ _ (pw_ok _ _ _ Hw1) Hplan) as [Hcan _].
  wp_apply (alloc_slot_ok T1 s1 v0 _ sl); [apply Hw1|by rewrite Hc1|done|done| | | |].
  { rewrite Hc1. unfold sizeof_page_header. lia. }
  { rewrite Hc1. change (alloc_data (Some chunk)) with chunk. unfold sizeof_page_header. rewrite Hcl. lia. }
  { cbn. by apply Forall_slice. }
  rewrite Hc1. intros r s2 (-> & Hok2 & Htook & Hst).
  assert (Hah : alloc_header (mkPh (data_id id) k (clrb 255 SPIFFS_PH_FLAG_FINAL)) true = mkPh (data_id id) k 252) by reflexivity.
  rewrite Hah in Hst. change (alloc_data (Some chunk)) with chunk in Hst. wp_step. ok_res.
  assert (Hfit2 : sizeof_object_ix_header + 2 * (k + 1) <= psz c) by lia.
  destruct (alloc_app_rest _ _ (proj1 Htook)) as [Hrest2 Hwork2].
  assert (Hwl : zlen (work s2) = psz c) by (rewrite Hwork2; apply Htw).
  wp_step. apply work_entry_ok; [lia|rewrite Hwl; lia|]. 
  unfold set_work_size. wp_step. wp_step. wp_step. eexists.
  split.
  - f_equal. unfold app_vars. rewrite (proj2 (Z.eqb_neq (k + 1) 0)) by lia. rewrite u16_small by lia.
    f_equal. lia.
  - rewrite Z.add_0_l. eapply (pages_written_take T1 _ k s1 s2 sl); try done; lia.
Qed.

Lemma app_ticks_step k : 0 <= k -> app_ticks k + (if k =? 0 then 1 else 0) + ticks c 0 + 4 = app_ticks (k + 1).
Proof using. clear. intros Hk. unfold app_ticks. rewrite (proj2 (Z.eqb_neq (k + 1) 0)) by lia. destruct (k =? 0) eqn:E; bools; lia. Qed.

Lemma app_ticks_mono k m : 0 <= k <= m -> app_ticks k <= app_ticks m.
Proof using Hok0.
  intros H. pose proof (ticks_nonneg c 0 (fs_ok_wf _ _ Hok0) ltac:(done)). unfold app_ticks.
  assert (k * (ticks c 0 + 4) <= m * (ticks c 0 + 4)) by (apply Z.mul_le_mono_nonneg_r; lia).
  destruct (k =? 0) eqn:E1, (m =? 0) eqn:E2; bools; lia.
Qed.

Lemma app_loop_ok : app_ticks (data_pages c len) <= T -> plan_state v0 [] slots s0 ->
  wp (loop (io_fuel c len) (append_body fd_i 0 data len) (app_vars 0 0)) (fun r s' => exists dp,
    r = inl (app_vars (data_pages c len) dp) /\ pages_written (T - app_ticks (data_pages c len)) (data_pages c len) s') s0.
Proof using All.
  intros HT Hplan. pose proof (dps_eq c (fs_ok_wf _ _ Hok0)) as [_ Hd]. set (n := data_pages c len) in *.
  assert (Hnn : 0 <= n) by (apply Z.div_pos; lia).
  apply (wp_loop_ix (fun m l s => exists k dp, 0 <= k <= n /\ m = Z.to_nat (n - k) /\ l = app_vars k dp /\
    pages_written (T - app_ticks k) k s)) with (n := Z.to_nat n).
  - intros m l s (k & dp & Hk & -> & -> & Hw). destruct (decide (k = n)) as [->|].
    + unfold append_body. cbn [io_res io_written app_vars]. wp_step. wp_step.
      assert (Hge : len <= n * dps c).
      { destruct (decide (len <= n * dps c)); [done|]. assert (n < data_pages c len) by (apply data_page_before; lia). fold n in H. lia. }
      rewrite (proj2 (Z.ltb_ge _ len)) by lia. rewrite andb_false_r. wp_step. exists dp. done.
    + pose proof (app_ticks_mono (k + 1) n ltac:(lia)). pose proof (app_ticks_step k ltac:(lia)).
      pose proof (ticks_nonneg c 0 (fs_ok_wf _ _ Hok0) ltac:(done)).
      assert (Hb : wp (append_body fd_i 0 data len (app_vars k dp)) (fun r s' => exists dp', r = Next (app_vars (k + 1) dp') /\
        pages_written (T - app_ticks k - (if k =? 0 then 1 else 0) - ticks c 0 - 4) (k + 1) s') s).
      { apply app_body_ok; [done|fold n; lia|]. lia. }
      wp_apply Hb. intros r s' (dp' & -> & Hw'). exists (Z.to_nat (n - (k + 1))). split; [lia|]. exists (k + 1), dp'.
      split; [lia|]. split; [done|]. split; [done|]. by replace (T - app_ticks (k + 1)) with (T - app_ticks k - (if k =? 0 then 1 else 0) - ticks c 0 - 4) by lia.
  - unfold io_fuel, n, data_pages. Z.to_euclidean_division_equations. nia.
  - exists 0, 0. split; [lia|]. split; [f_equal; lia|]. split; [done|].
    assert (app_ticks 0 = 0) as -> by done. rewrite Z.sub_0_r. split; try done.
    + apply not_elem_of_nil.
    + intros i sl _ Hi. lia.
Qed.

(** The contents after the finished table [w] has been written over the header page. *)
Section finished.
Context (T' : Z) (s1 : spiffs F) (w : list Z).
Abbreviation n := (data_pages c len).
Hypothesis Hw : pages_written T' n s1.
Hypothesis Htw : table_work c v0 (paddr c hp) (slot_pix c <$> slots) w.
Hypothesis Hsize : dec32 (slice w offsetof_size 4) = len.
Hypothesis Hes : erased v0 (paddr c hp + offsetof_size) 4.
Hypothesis Hei : erased v0 (paddr c hp + sizeof_object_ix_header) (psz c - sizeof_object_ix_header).
Context (v' : Z -> Z).
Hypothesis Hv' : forall x, v' x = programmed (view s1) (paddr c hp) w x.

Lemma take_all : take (Z.to_nat n) slots = slots.
Proof using Hn. apply take_ge. assert (Hs : Z.of_nat (length slots) = data_pages c len) by exact Hn. lia. Qed.

Lemma header_view j : 0 <= j < psz c -> view s1 (paddr c hp + j) = v0 (paddr c hp + j).
Proof using Hok0 Hhs Hw.
  intros Hj. assert (zget (vread (view s1) (paddr c hp + j) 1) 0 = zget (vread v0 (paddr c hp + j) 1) 0) as H
    by (f_equal; eapply header_page; [done|lia|lia]).
  rewrite !zget_vread in H by lia. by rewrite Z.add_0_r in H.
Qed.

Lemma finished_compat : nor_compat (view s1) (paddr c hp) w.
Proof using Hok0 Hhs Hw Htw Hes Hei.
  pose proof (wf_psz _ (fs_ok_wf _ _ Hok0)). intros j Hj. assert (zlen w = psz c) as Hl by apply Htw. rewrite header_view by lia.
  revert j Hj. change (nor_compat v0 (paddr c hp) w). by eapply (table_work_compat c v0 _ ltac:(lia)).
Qed.

Lemma finished_page off m : 0 <= off -> 0 <= m -> off + m <= psz c -> vread v' (paddr c hp + off) m = slice w off m.
Proof using Hok0 Hhs Hw Htw Hes Hei Hv'.
  intros Ho Hm Hom. assert (zlen w = psz c) as Hl by apply Htw. apply list_eq_zget.
  - rewrite length_vread, length_slice; lia.
  - rewrite length_vread by lia. intros i Hi. rewrite zget_vread, zget_slice by lia. rewrite Hv'.
    rewrite programmed_in by (apply finished_compat || lia). f_equal. lia.
Qed.

Lemma finished_outside : same_outside c (view s1) v' [hs].
Proof using Htw Hv'.
  intros x Hx. specialize (Hx hs (list_elem_of_here _ _)). unfold in_slot in Hx. rewrite Hv'. apply programmed_out.
  assert (zlen w = psz c) as Hl by apply Htw. lia.
Qed.

Lemma finished_header_bytes off m : 0 <= off -> 0 <= m -> off + m <= sizeof_object_ix_header ->
  off + m <= offsetof_size \/ offsetof_size + 4 <= off -> vread v' (paddr c hp + off) m = vread v0 (paddr c hp + off) m.
Proof using Hok0 Hhs Hw Htw Hes Hei Hv'.
  intros Ho Hm Hom Hd. pose proof (wf_psz _ (fs_ok_wf _ _ Hok0)). unfold sizeof_object_ix_header in *.
  rewrite finished_page by lia. assert (zlen w = psz c) as Hl by apply Htw. apply list_eq_zget.
  - rewrite length_vread, length_slice; lia.
  - rewrite length_slice by lia. intros i Hi. rewrite zget_slice, zget_vread by lia.
    replace (paddr c hp + off + i) with (paddr c hp + (off + i)) by lia. apply (tw_rest _ _ _ _ _ Htw); [lia|lia|].
    unfold sizeof_object_ix_header. lia.
Qed.

(** The header is as before but for the size. *)
Lemma finished_header : dec_object_ix_header (vread v' (paddr c hp) sizeof_object_ix_header) =
  let h := dec_object_ix_header (vread v0 (paddr c hp) sizeof_object_ix_header) in
  mkOix (oix_p_hdr h) len (oix_type h) (oix_name h).
Proof using Hok0 Hhs Hw Htw Hes Hei Hv' Hsize.
  pose proof (wf_psz _ (fs_ok_wf _ _ Hok0)). cbv zeta. unfold dec_object_ix_header at 1.
  pose proof (fun o m => finished_header_bytes o m) as Hb. unfold sizeof_object_ix_header, offsetof_size in Hb.
  cbn [oix_p_hdr oix_type oix_name dec_object_ix_header]. unfold sizeof_object_ix_header. f_equal.
  - rewrite !(page_header_prefix _ _ 46) by lia. unfold sizeof_page_header. f_equal.
    specialize (Hb 0 5 ltac:(lia) ltac:(lia) ltac:(lia) ltac:(lia)). by rewrite Z.add_0_r in Hb.
  - rewrite <- Hsize. f_equal. unfold offsetof_size. rewrite slice_vread by lia. apply finished_page; lia.
  - unfold offsetof_type. rewrite !zget_vread by lia. specialize (Hb 12 1 ltac:(lia) ltac:(lia) ltac:(lia) ltac:(lia)).
    apply (f_equal (fun l => zget l 0)) in Hb. rewrite !zget_vread in Hb by lia. by rewrite Z.add_0_r in Hb.
  - unfold offsetof_name, SPIFFS_OBJ_NAME_LEN. rewrite !slice_vread by lia. apply Hb; lia.
Qed.

Lemma finished_ph : ph_at c v' hp = ph_at c v0 hp.
Proof using Hok0 Hhs Hw Htw Hes Hei Hv'.
  unfold ph_at, sizeof_page_header. f_equal. pose proof (finished_header_bytes 0 5) as Hb. rewrite Z.add_0_r in Hb.
  apply Hb; unfold sizeof_object_ix_header, offsetof_size; lia.
Qed.

Lemma finished_entry d sl : slots !! Z.to_nat d = Some sl -> 0 <= d < n -> ix_span c d = 0 ->
  ix_entry c v' hp d = slot_pix c sl.
Proof using Hok0 Hhs Hw Htw Hes Hei Hv' Hfit Hpsz.
  intros Hsl Hd Hsp. pose proof hdr_len as [_ Hh]. unfold ix_entry. rewrite Hsp. unfold objix_entry_offs. rewrite Z.eqb_refl.
  unfold sizeof_page_ix. rewrite finished_page by (unfold sizeof_object_ix_header in *; lia).
  replace (d * 2) with (2 * Z.of_nat (Z.to_nat d)) by lia.
  apply (tw_entry _ _ _ _ _ Htw). by rewrite list_lookup_fmap, Hsl.
Qed.

(** Lookup entries and free pages are as before. *)
Lemma finished_lu sl : slot_ok c sl -> lu_id c v' sl.1 sl.2 = lu_id c (view s1) sl.1 sl.2.
Proof using Hok0 Hhs Htw Hv'.
  intros Hsl. pose proof (fs_ok_wf _ _ Hok0) as Hwf. destruct (decide (sl = hs)) as [->|].
  - destruct Hhs as [Hb He]. pose proof (entry_before_pages c Hwf hs.1 hs.2 hs.1 hs.2 Hb He Hb He) as Hs.
    unfold lu_id. f_equal. apply vread_ext. intros x Hx. rewrite Hv'. apply programmed_out.
    assert (zlen w = psz c) as -> by apply Htw. unfold slot_pix. lia.
  - eapply (slot_lu_id c Hwf); [exact finished_outside|done|by constructor|by rewrite list_elem_of_singleton].
Qed.

Lemma finished_plan s2 taken : plan_state v0 taken [] s1 -> lu_id c (view s1) hs.1 hs.2 <> SPIFFS_OBJ_ID_FREE -> cfg s1 = c ->
  cfg s2 = c -> free_cursor_block_ix s2 = free_cursor_block_ix s1 -> free_cursor_obj_lu_entry s2 = free_cursor_obj_lu_entry s1 ->
  view s2 = v' -> plan_state v0 taken [] s2.
Proof using Hok0 Hhs Htw Hv' Hw.
  intros (Hcb & Hce & Her & Hr & _) Hne Hc1 Hc2 Eb Ee Ev. rewrite Hc1 in *. unfold plan_state. rewrite Hc2, Eb, Ee, Ev.
  split; [done|]. split; [done|]. split; [|split; [|done]].
  - assert (Hok1 : fs_ok T' s1) by apply Hw.
    apply (free_erased_take T' s1 s2 hs); [done|done|by rewrite Hc1|congruence|rewrite Hc1, Ev; exact finished_outside|].
    rewrite Hc1, Ev, finished_lu by done. done.
  - intros sl Hsl. rewrite finished_lu by done. by apply Hr.
Qed.

(** The file is stored. *)
Lemma finished_holds : holds c v' id hp data.
Proof using Hok0 Hhs Hval Hid Hpsz Hn Hfit Hw Htw Hes Hei Hv'.
  intros d Hd Hdl. pose proof (fs_ok_wf _ _ Hok0) as Hwf. pose proof (dps_eq c Hwf) as [Hdps Hdr]. pose proof hdr_len as [Hh1 _].
  assert (Hdn : d < n) by (by apply data_page_before). destruct (slot_at d ltac:(lia)) as [sl Hsl].
  assert (Hsp : ix_span c d = 0) by (unfold SPIFFS_OBJ_IX_ENTRY_SPAN_IX; by rewrite (proj2 (Z.ltb_lt _ _)) by lia).
  pose proof (finished_entry d sl Hsl ltac:(lia) Hsp) as Hent.
  assert (Hslok : slot_ok c sl).
  { pose proof (pw_slots _ _ _ Hw) as Hall. rewrite take_all in Hall. eapply Forall_lookup_1; [exact Hall|exact Hsl]. }
  assert (Hne : sl ∉ [hs]).
  { rewrite list_elem_of_singleton. intros ->. apply (pw_header _ _ _ Hw). rewrite take_all. by eapply list_elem_of_lookup_2. }
  pose proof (pw_pages _ _ _ Hw (Z.to_nat d) sl Hsl ltac:(lia)) as Hpw. rewrite Z2Nat.id in Hpw by lia.
  apply (page_written_frame c (view s1) v' id data d sl [hs] Hwf Hslok ltac:(by constructor) Hne finished_outside) in Hpw.
  destruct Hpw as (_ & Hph & Hby). pose proof data_id_small.
  exists hp. split; [|split].
  - split; [by apply slot_pix_range|]. rewrite Hsp. split; [|done]. by rewrite finished_ph.
  - rewrite Hent. split; [by apply slot_pix_range|]. split; [by apply slot_pix_lup|]. rewrite Hph.
    unfold SPIFFS_VALIDATE_DATA. cbn [ph_flags ph_span_ix]. change (hasb 252 SPIFFS_PH_FLAG_USED) with false.
    change (hasb 252 SPIFFS_PH_FLAG_DELET) with true. change (hasb 252 SPIFFS_PH_FLAG_FINAL) with false.
    change (hasb 252 SPIFFS_PH_FLAG_INDEX) with true. cbn [negb]. fold (is_ix (data_id id)). rewrite is_ix_id by lia.
    rewrite (proj2 (Z.leb_gt _ _)) by lia. by rewrite Z.eqb_refl.
  - intros j Hj Hjl. rewrite Hent. apply (f_equal (fun l => zget l j)) in Hby. rewrite zget_vread in Hby by lia.
    rewrite Hby. apply zget_slice; nia.
Qed.
End finished.

(** The descriptor after the write. *)
Definition appended_fd : spiffs_fd :=
  set_fd_cursor_objix_spix 0 (set_fd_cursor_objix_pix hp (set_fd_offset len (set_fd_size len fd))).

(** The outcome of writing [data] to the empty file. *)
Definition appended (T' : Z) s : Prop :=
  fs_ok T' s /\ holds c (view s) id hp data /\
  lu_id c (view s) hs.1 hs.2 = lu_id c v0 hs.1 hs.2 /\
  Forall (fun sl => slot_ok c sl /\ lu_id c (view s) sl.1 sl.2 = data_id id) slots /\
  dec_object_ix_header (vread (view s) (paddr c hp) sizeof_object_ix_header) =
    (let h := dec_object_ix_header (vread v0 (paddr c hp) sizeof_object_ix_header) in
     mkOix (oix_p_hdr h) len (oix_type h) (oix_name h)) /\
  same_outside c v0 (view s) (hs :: slots) /\ plan_state v0 (rev slots) [] s /\
  app_rest (set_fds (fds s0) s) = app_rest s0 /\
  fds s = fd_object_event SPIFFS_EV_IX_UPD (data_id id) 0 hp len <$> zset (fds s0) fd_i appended_fd.

Lemma app_finish_ok T' s1 :
  pages_written T' (data_pages c len) s1 -> 2 <= T' ->
  erased v0 (paddr c hp + offsetof_size) 4 ->
  erased v0 (paddr c hp + sizeof_object_ix_header) (psz c - sizeof_object_ix_header) ->
  wp (append_finish fd_i 0 len 0 hp) (fun r s' => r = None /\ appended (T' - 2) s') s1.
Proof using All.
  intros Hw HT' Hes Hei. pose proof (fs_ok_wf _ _ Hok0) as Hwf. pose proof (wf_psz _ Hwf) as Hpz. pose proof hdr_len as [Hh1 Hh2].
  destruct (app_rest_cfg _ _ (pw_rest _ _ _ Hw)) as [Hc1 Hf1]. pose proof (slot_pix_range c Hwf hs Hhs) as Hp.
  pose proof (lookup_lt_Some _ _ _ Hfd) as Hlt. assert (Hn0 : 0 < data_pages c len) by (apply data_page_before; lia).
  pose proof (pw_work _ _ _ Hw Hn0) as Htw. rewrite take_all in Htw.
  set (w := splice (work s1) offsetof_size (enc32 len)).
  assert (Htw2 : table_work c v0 (paddr c hp) (slot_pix c <$> slots) w).
  { apply table_work_size; [lia|exact Htw|]. assert (Hzn : zlen (slot_pix c <$> slots) = data_pages c len) by (rewrite <- Hn; unfold zlen; by rewrite length_fmap).
    rewrite Hzn. lia. }
  assert (Hsize : dec32 (slice w offsetof_size 4) = len).
  { unfold w. rewrite dec32_slice_splice; [apply u32_small; lia|done|]. rewrite (tw_length _ _ _ _ _ Htw). unfold offsetof_size. lia. }
  assert (Hwl : zlen w = psz c) by apply Htw2.
  unfold append_finish. wp_step. rewrite Z.add_0_l, u32_small by lia. eapply wp_upd_fd; [by rewrite Hf1|].
  rewrite Hf1. fold appended_fd. set (s2 := set_fds (zset (fds s0) fd_i appended_fd) s1).
  assert (Hfd2 : fds s2 !! Z.to_nat fd_i = Some appended_fd) by (cbn; unfold zset; by apply list_lookup_insert_eq).
  wp_step. eapply wp_fd_at; [exact Hfd2|]. change (negb (0 =? 0)) with false. change (0 =? 0) with true. cbv iota.
  unfold set_work_size. wp_step. wp_step. change (work s2) with (work s1). fold w. set (s3 := set_work w s2).
  assert (Hok3 : fs_ok T' s3) by (eapply fs_okx_same; [apply Hw|done..]).
  wp_step. wp_apply (page_index_check_ok T' s3 appended_fd hp 0); [done|lia|cbn; by rewrite Hc1|cbn; rewrite Hc1; by apply slot_pix_lup| |].
  { change (view s3) with (view s1). change (cfg s3) with (cfg s1). rewrite Hc1. erewrite header_ph by done. exact Hval. }
  intros r s4 (-> & Hfr4 & Hok4). ok_res.
  assert (Hc4 : cfg s4 = c) by (rewrite Hfr4; exact Hc1). assert (Hv4 : view s4 = view s1) by (by rewrite Hfr4).
  unfold store_work. wp_step. wp_step. wp_step. wp_step. eapply wp_fd_at; [by rewrite Hfr4|]. wp_step. wp_step.
  rewrite Hc4. assert (Hw4 : work s4 = w) by (by rewrite Hfr4). rewrite Hw4.
  assert (Hsl : slice w 0 (psz c) = w) by (unfold slice; rewrite drop_0; apply take_ge; unfold zlen in Hwl; lia). rewrite Hsl.
  wp_apply (phys_wr_ok (T' - 1)); [exact Hok4|lia|rewrite Hwl, Hc4; apply in_page_start; [done|done|lia]| |].
  { split; [done|]. left. rewrite Hv4. eapply finished_compat; eassumption. }
  intros r s5 (-> & Hfr5 & Hok5 & Hv5 & _). ok_res. wp_step. wp_step. wp_step. wp_step. unfold spiffs_cb_object_event.
  assert (Hv' : forall x, view s5 x = programmed (view s1) (paddr c hp) w x) by (intros x; rewrite Hv5; by rewrite Hv4).
  assert (Hw5 : work s5 = w) by (by rewrite Hfr5). assert (Hf5 : fds s5 = zset (fds s0) fd_i appended_fd) by (by rewrite Hfr5, Hfr4).
  wp_step. wp_step. wp_step. split; [done|].
  assert (Hspix : ph_span_ix (work_p_hdr s5) = 0).
  { unfold work_p_hdr. rewrite Hw5. rewrite <- Hsl. erewrite <- finished_page; [|eassumption..|lia|lia|lia]. rewrite Z.add_0_r.
    rewrite (page_header_prefix _ _ (psz c)) by lia. change (ph_span_ix (ph_at c (view s5) hp) = 0).
    erewrite finished_ph by eassumption. unfold SPIFFS_VALIDATE_OBJIX in Hval.
    repeat (match type of Hval with (if ?b then _ else _) = None => destruct b eqn:?; [done|] end). bools.
    assumption. }
  assert (Hwsize : work_size s5 = len) by (unfold work_size; by rewrite Hw5).
  rewrite Hspix, Hwsize, Hf5. change (fd_obj_id appended_fd) with id.
  set (s6 := set_fds _ s5). assert (Hv6 : view s6 = view s5) by done. unfold appended. rewrite Hv6.
  split; [replace (T' - 2) with (T' - 1 - 1) by lia; by eapply fs_okx_same|].
  split; [eapply finished_holds; eassumption|]. split; [|split; [|split; [eapply finished_header; eassumption|split; [|split; [|split]]]]].
  - erewrite finished_lu by eassumption. eapply (slot_lu_id c Hwf); [apply Hw|done|apply Hw|apply Hw].
  - apply Forall_lookup. intros i sl Hi. pose proof (pw_slots _ _ _ Hw) as Hsls. rewrite take_all, Forall_lookup in Hsls.
    specialize (Hsls i sl Hi). split; [done|]. erewrite finished_lu by eassumption. apply lookup_lt_Some in Hi as Hlt2.
    apply (pw_pages _ _ _ Hw i sl Hi). assert (Hs : Z.of_nat (length slots) = data_pages c len) by exact Hn. lia.
  - eapply same_outside_mono; [|eapply same_outside_trans; [apply Hw|eapply finished_outside; eassumption]].
    rewrite take_all. intros x Hx. apply elem_of_app in Hx as [Hx|Hx]; [by apply elem_of_cons; right|].
    apply list_elem_of_singleton in Hx as ->. apply list_elem_of_here.
  - pose proof (pw_plan _ _ _ Hw) as Hplan. rewrite take_all, drop_ge in Hplan
      by (assert (Hs : Z.of_nat (length slots) = data_pages c len) by exact Hn; lia).
    eapply finished_plan; try eassumption; try done.
    + rewrite (slot_lu_id c Hwf v0 _ (take (Z.to_nat (data_pages c len)) slots) hs); try done; apply Hw.
    + unfold s6. cbn. by rewrite Hfr5.
    + unfold s6. cbn. by rewrite Hfr5, Hfr4.
    + unfold s6. cbn. by rewrite Hfr5, Hfr4.
  - change (app_rest (set_fds (fds s0) s6)) with (app_rest (set_fds (fds s0) s5)).
    rewrite Hfr5, Hfr4. unfold s3, s2. cbn. rewrite <- (pw_rest _ _ _ Hw). unfold app_rest. cbn. by rewrite Hf1.
  - done.
Qed.

(** Writing a file that is still empty. *)
Lemma append_new_ok : fd_objix_hdr_pix fd = hp -> 0 <= fd_size fd -> gc_fast (u32 (len + dps c)) s0 = true ->
  plan_state v0 [] slots s0 -> app_ticks (data_pages c len) + 2 <= T ->
  erased v0 (paddr c hp + offsetof_size) 4 ->
  erased v0 (paddr c hp + sizeof_object_ix_header) (psz c - sizeof_object_ix_header) ->
  wp (spiffs_object_append fd_i 0 data len) (fun r s' =>
    r = SPIFFS_OK /\ appended (T - app_ticks (data_pages c len) - 2) s') s0.
Proof using All.
  intros Hhp Hsz Hgc Hplan HT Hes Hei. pose proof (dps_eq c (fs_ok_wf _ _ Hok0)) as [_ Hd].
  unfold spiffs_object_append. wp_step. wp_step. wp_step. eapply wp_fd_at; [done|]. rewrite (proj2 (Z.ltb_ge (fd_size fd) 0)) by lia.
  wp_step. wp_apply gc_check_fast; [done|]. intros r s [-> ->]. ok_res. wp_step. eapply wp_fd_at; [done|].
  wp_step. rewrite Hhp. rewrite Z.div_0_l, Z.mod_0_l by lia. change (u16 0) with 0.
  replace (mkIo SPIFFS_OK 0 0 IX_NONE hp 0 0 0) with (app_vars 0 0) by (unfold app_vars; rewrite Z.mul_0_l, Z.min_l by lia; done).
  wp_apply app_loop_ok; [lia|done|]. intros r s1 (dp & -> & Hw).
  assert (Hn0 : 0 < data_pages c len) by (apply data_page_before; lia).
  assert (Hle : len <= data_pages c len * dps c).
  { destruct (decide (len <= data_pages c len * dps c)); [done|]. assert (data_pages c len < data_pages c len) by (apply data_page_before; lia). lia. }
  unfold app_vars. cbn [io_written io_cur_objix_spix io_cur_objix_pix io_res]. rewrite Z.min_r by lia.
  wp_step. wp_apply (app_finish_ok (T - app_ticks (data_pages c len))); [done|lia|done|done|].
  intros r s2 (-> & Ha). wp_step. done.
Qed.
End loop.
End append.
