(* ===== verification/SpiffsWrite.v ===== *)
(** Stored files that a change of some slots leaves alone, and what creating and writing
    files stores. *)
From S2P Require Import Prelude CSem SpiffsTypes SpiffsGeom SpiffsCache SpiffsIo SpiffsLookup SpiffsSearch SpiffsPage SpiffsFind SpiffsPageOps SpiffsIndex SpiffsObject SpiffsContent SpiffsRead SpiffsOpen SpiffsSlots SpiffsCreate SpiffsAppend.
From stdpp Require Import base list numbers option.

Open Scope Z_scope.

(** Slot [sl] plays no part in the file [id] with header page [hdr], before and
    after a change from [v] to [v']. *)
Definition unrelated (c : spiffs_config) (v v' : Z -> Z) (id hdr : Z) (sl : slot) : Prop :=
  slot_ok c sl /\ slot_pix c sl <> hdr /\
  lu_id c v sl.1 sl.2 <> ix_id id /\ lu_id c v' sl.1 sl.2 <> ix_id id /\
  forall d, SPIFFS_VALIDATE_DATA (ph_at c v (slot_pix c sl)) (data_id id) d <> None.

Section frame.
Context (c : spiffs_config) (Hwf : wf_cfg c) (v v' : Z -> Z) (l : list slot) (id hdr : Z).
Hypothesis Hso : same_outside c v v' l.
Hypothesis Hl : Forall (unrelated c v v' id hdr) l.
Hypothesis Hhdr : lup c <= hdr mod ppb c.

Lemma unrelated_slots : Forall (slot_ok c) l.
Proof using Hl. eapply Forall_impl; [|exact Hl]. by intros sl (? & _). Qed.

Lemma unrelated_in sl : sl ∈ l -> unrelated c v v' id hdr sl.
Proof using Hl. intros Hin. rewrite Forall_forall in Hl. by apply Hl, list_elem_of_In. Qed.

Lemma kept_vread sl off m : slot_ok c sl -> sl ∉ l -> 0 <= off -> off + m <= psz c ->
  vread v' (paddr c (slot_pix c sl) + off) m = vread v (paddr c (slot_pix c sl) + off) m.
Proof using Hwf Hso Hl. intros. eapply slot_page_vread; [exact Hwf|exact Hso|done|exact unrelated_slots|done|done|done]. Qed.

Lemma kept_ph sl : slot_ok c sl -> sl ∉ l -> ph_at c v' (slot_pix c sl) = ph_at c v (slot_pix c sl).
Proof using Hwf Hso Hl.
  intros Hsl Hni. pose proof (wf_psz c Hwf). unfold ph_at. f_equal. rewrite <- (Z.add_0_r (paddr c _)).
  apply kept_vread; [done|done|lia|]. unfold sizeof_page_header. lia.
Qed.

(** Index entries of the file are the same ones. *)
Lemma index_entry_kept i sl : slot_ok c sl -> index_entry c v' id i sl.1 sl.2 <-> index_entry c v id i sl.1 sl.2.
Proof using Hwf Hso Hl.
  intros Hsl. destruct (decide (sl ∈ l)) as [Hin|Hni].
  - destruct (unrelated_in sl Hin) as (_ & _ & H1 & H2 & _). split; intros [H _]; done.
  - unfold index_entry, live_page. change (entry_pix c sl.1 sl.2) with (slot_pix c sl).
    rewrite (slot_lu_id c Hwf v v' l sl Hso Hsl unrelated_slots Hni). by rewrite kept_ph.
Qed.

Lemma index_page_slot i p : index_page c v id hdr i p -> exists sl, slot_ok c sl /\ slot_pix c sl = p /\ sl ∉ l.
Proof using Hwf Hl Hhdr.
  intros (Hp & _ & Hi). destruct (i =? 0) eqn:E; bools.
  - subst p. destruct (pix_slot c Hwf hdr Hp Hhdr) as (sl & Hsl & Heq). exists sl. split; [done|]. split; [done|].
    intros Hin. by destruct (unrelated_in sl Hin) as (_ & Hne & _).
  - destruct Hi as [(b & e & Hb & He & Hent) Hu]. exists (b, e). split; [by split|]. split; [by apply Hu|].
    intros Hin. destruct (unrelated_in _ Hin) as (_ & _ & Hne & _). apply Hne, Hent.
Qed.

Lemma index_page_kept i p : index_page c v id hdr i p -> index_page c v' id hdr i p.
Proof using Hwf Hso Hl Hhdr.
  intros Hix. destruct (index_page_slot i p Hix) as (sl & Hsl & Heq & Hni). destruct Hix as (Hp & Hv & Hi).
  split; [done|]. split; [rewrite <- Heq in *; by rewrite kept_ph|]. destruct (i =? 0); [done|].
  destruct Hi as [(b & e & Hb & He & Hent) Hu]. split.
  - exists b, e. split; [done|]. split; [done|]. apply (index_entry_kept i (b, e)); [by split|done].
  - intros b' e' Hb' He' Hent'. apply Hu; [done|done|]. by apply (index_entry_kept i (b', e')).
Qed.

(** A stored file stays stored. *)
Lemma holds_frame content : zlen content <= 65536 * dps c -> holds c v id hdr content -> holds c v' id hdr content.
Proof using Hwf Hso Hl Hhdr.
  intros Hlen Hh d Hd Hdc. pose proof (dps_eq c Hwf) as [Hdps Hdr]. assert (Hd2 : d < 65536) by nia.
  destruct (Hh d Hd Hdc) as (p & Hix & Hdp & Hby). destruct (index_page_slot _ _ Hix) as (sl & Hsl & Heq & Hni).
  destruct (objix_entry_fits c Hwf d ltac:(lia)) as (_ & Ho1 & Ho2).
  assert (Hent : ix_entry c v' p d = ix_entry c v p d).
  { unfold ix_entry. f_equal. rewrite <- Heq. by apply kept_vread. }
  destruct Hdp as (Hq & Hql & Hqv). destruct (pix_slot c Hwf _ Hq Hql) as (sq & Hsq & Heqq).
  assert (Hnq : sq ∉ l).
  { intros Hin. destruct (unrelated_in _ Hin) as (_ & _ & _ & _ & Hnv). apply (Hnv d). by rewrite Heqq. }
  exists p. split; [by apply index_page_kept|]. rewrite Hent. split.
  - split; [done|]. split; [done|]. rewrite <- Heqq in *. by rewrite kept_ph.
  - intros j Hj Hjc. rewrite <- (Hby j Hj Hjc), <- Heqq. pose proof (kept_vread sq (sizeof_page_header + j) 1 Hsq Hnq) as Hk.
    unfold sizeof_page_header in *. specialize (Hk ltac:(lia) ltac:(lia)). apply (f_equal (fun l => zget l 0)) in Hk.
    rewrite !zget_vread in Hk by lia. rewrite !Z.add_0_r in Hk. replace (paddr c (slot_pix c sq) + 5 + j) with (paddr c (slot_pix c sq) + (5 + j)) by lia. done.
Qed.
End frame.

(** A free page is no data page. *)
Lemma erased_not_data c v p id d : erased v (paddr c p) sizeof_page_header ->
  SPIFFS_VALIDATE_DATA (ph_at c v p) id d <> None.
Proof.
  intros He. unfold ph_at, dec_page_header, SPIFFS_VALIDATE_DATA, sizeof_page_header in *. cbn [ph_flags].
  rewrite zget_vread by lia. rewrite He by lia. done.
Qed.

(** An index page is no data page. *)
Lemma index_not_data ph id i id' d : SPIFFS_VALIDATE_OBJIX ph id i = None -> SPIFFS_VALIDATE_DATA ph id' d <> None.
Proof.
  unfold SPIFFS_VALIDATE_OBJIX, SPIFFS_VALIDATE_DATA.
  destruct (hasb (ph_flags ph) SPIFFS_PH_FLAG_USED); [done|]. destruct (negb (hasb (ph_flags ph) SPIFFS_PH_FLAG_DELET)); [done|].
  destruct (hasb (ph_flags ph) SPIFFS_PH_FLAG_FINAL); [done|]. by destruct (hasb (ph_flags ph) SPIFFS_PH_FLAG_INDEX).
Qed.

(** ** Other files *)

(** A page that validates as an index page is not erased. *)
Lemma erased_not_index c v p id i : erased v (paddr c p) sizeof_page_header ->
  SPIFFS_VALIDATE_OBJIX (ph_at c v p) id i <> None.
Proof.
  intros He. unfold ph_at, dec_page_header, SPIFFS_VALIDATE_OBJIX, sizeof_page_header in *. cbn [ph_flags].
  rewrite zget_vread by lia. rewrite He by lia. done.
Qed.

Lemma free_not_index id : 0 <= id < 65536 -> data_id id <> 32767 -> SPIFFS_OBJ_ID_FREE <> ix_id id.
Proof.
  intros Hid Hne Heq. rewrite <- data_ix_id, <- Heq in Hne by done. done.
Qed.

(** The header page of a file that has contents is valid. *)
Lemma holds_header c v id hdr content : wf_cfg c -> holds c v id hdr content -> content <> [] ->
  SPIFFS_VALIDATE_OBJIX (ph_at c v hdr) id 0 = None.
Proof.
  intros Hwf Hh Hne. pose proof (dps_eq c Hwf) as [Hd Hp].
  assert (0 < zlen content) by (destruct content; [done|unfold zlen; cbn; lia]).
  destruct (Hh 0 ltac:(done) ltac:(lia)) as (p & (Hr & Hv & Hi) & _).
  assert (Hix : ix_span c 0 = 0).
  { unfold ix_span. pose proof (ix_lens c Hwf). rewrite (proj2 (Z.ltb_lt _ _)) by lia. done. }
  rewrite Hix in *. cbn in Hi. by subst p.
Qed.

(** The file [id], of contents [content], with its index header in slot [sl]. *)
Definition stored (c : spiffs_config) (v : Z -> Z) (id : Z) (sl : slot) (content : list Z) : Prop :=
  slot_ok c sl /\ lu_id c v sl.1 sl.2 = ix_id id /\ holds c v id (slot_pix c sl) content.

(** An object id that is neither the free nor the deleted one. *)
Definition valid_id (id : Z) : Prop := 0 <= id < 65536 /\ 0 < data_id id < 32767.

(** The files other than [id] are stored as before. *)
Definition others_kept (c : spiffs_config) (v v' : Z -> Z) (id : Z) : Prop :=
  forall id' sl content, valid_id id' -> data_id id' <> data_id id -> zlen content <= 65536 * dps c ->
    stored c v id' sl content -> stored c v' id' sl content.

Lemma others_kept_trans c v1 v2 v3 id : others_kept c v1 v2 id -> others_kept c v2 v3 id -> others_kept c v1 v3 id.
Proof. unfold others_kept. eauto. Qed.

Lemma stored_frame c v v' l id sl content : wf_cfg c -> same_outside c v v' l ->
  Forall (unrelated c v v' id (slot_pix c sl)) l -> zlen content <= 65536 * dps c ->
  stored c v id sl content -> stored c v' id sl content.
Proof.
  intros Hwf Hso Hl Hlen (Hsl & Hid & Hh). pose proof (unrelated_slots c v v' l id _ Hl) as Hls.
  assert (Hni : sl ∉ l).
  { intros Hin. destruct (unrelated_in c v v' l id _ Hl sl Hin) as (_ & Hne & _). done. }
  split; [done|]. split; [by rewrite (slot_lu_id c Hwf v v' l sl)|].
  eapply holds_frame; [done|exact Hso|exact Hl|by apply slot_pix_lup|done|done].
Qed.

(** A slot that was free, and now has another id. *)
Lemma free_unrelated c v v' new id sl content : wf_cfg c -> slot_ok c new -> lu_id c v new.1 new.2 = SPIFFS_OBJ_ID_FREE ->
  erased v (paddr c (slot_pix c new)) (psz c) -> lu_id c v' new.1 new.2 <> ix_id id -> valid_id id -> stored c v id sl content ->
  unrelated c v v' id (slot_pix c sl) new.
Proof.
  intros Hwf Hnew Hfree Her Hne [Hid Hdid] (Hsl & Hlu & _). pose proof (wf_psz c Hwf).
  assert (Hfi : SPIFFS_OBJ_ID_FREE <> ix_id id) by (apply free_not_index; lia).
  split; [done|]. split; [|split; [by rewrite Hfree|split; [done|]]].
  - intros Heq. apply entry_pix_inj in Heq; [|done|done|done]. subst new. by rewrite Hlu in Hfree.
  - intros d. apply erased_not_data. intros x Hx. apply Her. unfold sizeof_page_header in *. lia.
Qed.

(** The index header of another file. *)
Lemma head_unrelated c v v' hs id0 id sl content : wf_cfg c -> slot_ok c hs -> lu_id c v hs.1 hs.2 = ix_id id0 ->
  lu_id c v' hs.1 hs.2 = ix_id id0 -> SPIFFS_VALIDATE_OBJIX (ph_at c v (slot_pix c hs)) id0 0 = None ->
  0 <= id0 < 65536 -> 0 <= id < 65536 -> data_id id <> data_id id0 -> stored c v id sl content ->
  unrelated c v v' id (slot_pix c sl) hs.
Proof.
  intros Hwf Hhs H1 H2 Hval Hid0 Hid Hne (Hsl & Hlu & _).
  assert (Hix : ix_id id0 <> ix_id id).
  { intros Heq. apply Hne. by rewrite <- (data_ix_id id), <- (data_ix_id id0), Heq. }
  split; [done|]. split; [|split; [by rewrite H1|split; [by rewrite H2|]]].
  - intros Heq. apply entry_pix_inj in Heq; [|done|done|done]. subst hs. congruence.
  - intros d. by eapply index_not_data.
Qed.

(** The slots a plan takes were free. *)
Lemma plan_free c v taken fb cb ce n l : wf_cfg c -> 0 <= cb < blocks c -> 0 <= ce -> plan c v taken fb cb ce n = Some l ->
  Forall (fun sl => slot_ok c sl /\ lu_id c v sl.1 sl.2 = SPIFFS_OBJ_ID_FREE) l.
Proof.
  intros Hwf. revert taken fb cb ce l. induction n as [|n IH]; intros taken fb cb ce l Hcb Hce Hp; cbn [plan] in Hp.
  - injection Hp as <-. constructor.
  - destruct (fb <? 2); [done|]. destruct (next_free _ _ _ _) as [sl|] eqn:En; [|done]. cbn [mbind option_bind] in Hp.
    destruct (plan _ _ (sl :: taken) _ _ _ _) as [rest|] eqn:Ep; [|done]. injection Hp as <-.
    apply next_free_first in En; [|done|done|done]. destruct En as (Hb & He & Hf & _). unfold is_free in Hf. bools.
    constructor; [done|]. eapply IH; [| |exact Ep]; lia.
Qed.

(** Creating and writing files: what is stored afterwards. *)

Section write.
Context {F : Type} {hal : SpiffsHal F} {nor : NorHal F}.
Implicit Types s : spiffs F.

(** A new file in the first planned slot; the others are as before. *)
Lemma create_stored_ok T s v0 taken sl rest junk id name type :
  fs_ok T s -> ticks (cfg s) 0 + 2 <= T -> gc_fast (dps (cfg s)) s = true -> plan_state v0 taken (sl :: rest) s ->
  valid_id id -> Forall is_byte name -> is_byte type -> zlen junk = 4 -> Forall is_byte junk ->
  wp (spiffs_object_create junk id name type) (fun r s' => r = (SPIFFS_OK, slot_pix (cfg s) sl) /\
    fs_ok (T - ticks (cfg s) 0 - 2) s' /\ empty_file (cfg s) (view s') id name type sl /\
    same_outside (cfg s) (view s) (view s') [sl] /\
    others_kept (cfg s) (view s) (view s') id /\ plan_state v0 (sl :: taken) rest s' /\
    exists s1, took sl s s1 /\
    s' = set_fds (fd_object_event SPIFFS_EV_IX_NEW (data_id id) 0 (slot_pix (cfg s) sl) SPIFFS_UNDEFINED_LEN <$> fds s) s1) s.
Proof.
  intros Hok HT Hgc Hplan [Hid Hdid] Hn Ht Hj Hjb. pose proof (fs_ok_wf _ _ Hok) as Hwf.
  destruct (plan_state_take _ _ _ _ _ _ Hok Hplan) as [Hcan Htake].
  destruct (can_take_first _ _ _ _ _ Hok Hcan) as (Hsl & Hfree & _). pose proof Hcan as (_ & _ & _ & Her & _).
  eapply wp_mono; [eapply (object_create_ok T); eassumption|].
  intros r s' (-> & Hok' & Hemp & Hso & s1 & Htook & Hs'). split; [done|]. split; [done|]. split; [done|]. split; [done|].
  assert (Hv : view s' = view s1) by (by rewrite Hs'). pose proof Hemp as [Hlu _].
  split; [|split; [|by exists s1]].
  - intros id' sl' content Hv' Hd Hlen Hst. apply (stored_frame _ (view s) _ [sl]); [done|done| |done|done].
    constructor; [|done]. eapply free_unrelated; [done|done|done|by apply Her; [apply Hsl|apply Hsl|]| |done|exact Hst].
    rewrite Hlu. intros Heq. apply Hd. destruct Hv' as [Hv' _]. by rewrite <- (data_ix_id id'), <- (data_ix_id id), Heq.
  - assert (Hp : plan_state v0 (sl :: taken) rest s1).
    { apply Htake; [done|by rewrite <- Hv|]. rewrite <- Hv, Hlu. intros Heq. apply (free_not_index id); [done|lia|done]. }
    unfold plan_state in *. by rewrite Hs'.
Qed.

(** Writing the file [fd], empty so far, whose header is in slot [hs]. *)
Lemma append_stored_ok T s fd_i fd hs data slots :
  fs_ok T s -> psz (cfg s) <= 65536 -> fds s !! Z.to_nat fd_i = Some fd -> fd_objix_hdr_pix fd = slot_pix (cfg s) hs ->
  0 <= fd_size fd -> valid_id (fd_obj_id fd) -> slot_ok (cfg s) hs -> lu_id (cfg s) (view s) hs.1 hs.2 = ix_id (fd_obj_id fd) ->
  SPIFFS_VALIDATE_OBJIX (ph_at (cfg s) (view s) (slot_pix (cfg s) hs)) (fd_obj_id fd) 0 = None ->
  erased (view s) (paddr (cfg s) (slot_pix (cfg s) hs) + offsetof_size) 4 ->
  erased (view s) (paddr (cfg s) (slot_pix (cfg s) hs) + sizeof_object_ix_header) (psz (cfg s) - sizeof_object_ix_header) ->
  Forall is_byte data -> 0 < zlen data < 2 ^ 32 -> zlen slots = data_pages (cfg s) (zlen data) ->
  data_pages (cfg s) (zlen data) <= SPIFFS_OBJ_HDR_IX_LEN (cfg s) ->
  gc_fast (u32 (zlen data + dps (cfg s))) s = true -> plan_state (view s) [] slots s ->
  app_ticks s (data_pages (cfg s) (zlen data)) + 2 <= T ->
  wp (spiffs_object_append fd_i 0 data (zlen data)) (fun r s' => r = SPIFFS_OK /\
    appended s fd_i fd hs data slots (T - app_ticks s (data_pages (cfg s) (zlen data)) - 2) s' /\
    stored (cfg s) (view s') (fd_obj_id fd) hs data /\ others_kept (cfg s) (view s) (view s') (fd_obj_id fd)) s.
Proof.
  intros Hok Hpsz Hfd Hhp Hsz Hvid Hhs Hlu Hval Hes Hei Hdata Hlen Hns Hfit Hgc Hplan HT. pose proof (fs_ok_wf _ _ Hok) as Hwf.
  pose proof Hvid as [Hid Hdid].
  assert (Hluf : lu_id (cfg s) (view s) hs.1 hs.2 <> SPIFFS_OBJ_ID_FREE).
  { rewrite Hlu. intros Heq. apply (free_not_index (fd_obj_id fd)); [done|lia|done]. }
  eapply wp_mono; [eapply (append_new_ok T); eassumption|].
  intros r s' (-> & Ha). split; [done|]. split; [done|]. destruct Ha as (_ & Hh & Hlu' & Hsl & _ & Hso & _). rewrite Hlu in Hlu'.
  split; [done|]. intros id' sl' content Hv' Hd Hlc Hst. pose proof Hv' as [Hid' _].
  apply (stored_frame _ (view s) _ (hs :: slots)); [done|done| |done|done].
  constructor; [by eapply head_unrelated|]. destruct Hplan as (Hcb & Hce & Her & _ & Hp).
  apply plan_free in Hp; [|done|done|done]. rewrite Forall_lookup in Hp, Hsl. apply Forall_lookup. intros i sl Hi.
  destruct (Hp i sl Hi) as [Hsok Hfree]. destruct (Hsl i sl Hi) as [_ Hnew].
  eapply free_unrelated; [done|done|done|by apply Her; [apply Hsok|apply Hsok|]| |done|exact Hst].
  rewrite Hnew. pose proof (ix_id_range id' Hid'). lia.
Qed.
End write.
