(* ===== verification/SpiffsIds.v ===== *)
(** Choosing the id of a new object ([spiffs_obj_lu_find_free_obj_id]) on volumes
    whose ids fit the bitmap in the work buffer. *)
From S2P Require Import Prelude CSem SpiffsTypes SpiffsGeom SpiffsCache SpiffsIo SpiffsLookup SpiffsSearch SpiffsPage SpiffsFind SpiffsPageOps SpiffsIndex SpiffsObject SpiffsRead SpiffsOpen SpiffsSlots SpiffsCreate.
From stdpp Require Import base list numbers option.

Open Scope Z_scope.

(** ** Bitmaps *)

(** Bit [k] of a bitmap of bytes. *)
Definition bit_at (l : list Z) (k : Z) : bool := Z.testbit (zget l (k / 8)) (k mod 8).

Lemma land_pow2 x j : 0 <= j -> (Z.land x (Z.shiftl 1 j) =? 0) = negb (Z.testbit x j).
Proof.
  intros Hj. destruct (Z.testbit x j) eqn:E; cbn.
  - apply Z.eqb_neq. intros H. apply (f_equal (fun y => Z.testbit y j)) in H.
    rewrite Z.land_spec, Z.shiftl_spec, Z.sub_diag, E, Z.bits_0 in H by lia. done.
  - apply Z.eqb_eq. apply Z.bits_inj'. intros i Hi. rewrite Z.land_spec, Z.bits_0, Z.shiftl_mul_pow2, Z.mul_1_l by lia.
    rewrite Z.pow2_bits_eqb by lia. destruct (j =? i) eqn:Ej; bools; [subst; by rewrite E|by rewrite andb_false_r].
Qed.

Lemma free_bit_spec mask n j : 0 <= j ->
  match free_bit mask n j with
  | Some r => j <= r < j + Z.of_nat n /\ Z.testbit mask r = false /\ forall i, j <= i < r -> Z.testbit mask i = true
  | None => forall i, j <= i < j + Z.of_nat n -> Z.testbit mask i = true
  end.
Proof.
  revert j. induction n as [|n IH]; intros j Hj; cbn [free_bit]; [lia|]. rewrite land_pow2 by done.
  destruct (Z.testbit mask j) eqn:E; cbn [negb].
  - specialize (IH (j + 1) ltac:(lia)). destruct (free_bit mask n (j + 1)) as [r|].
    + destruct IH as (? & ? & Hall). split; [lia|]. split; [done|]. intros i Hi. destruct (decide (i = j)) as [->|]; [done|]. apply Hall. lia.
    + intros i Hi. destruct (decide (i = j)) as [->|]; [done|]. apply IH. lia.
  - split; [lia|]. split; [done|]. lia.
Qed.

Lemma bit_at_cons x l k : 8 <= k -> bit_at (x :: l) k = bit_at l (k - 8).
Proof.
  intros Hk. unfold bit_at. replace k with (k - 8 + 1 * 8) at 1 2 by lia. rewrite Z.div_add, Z_mod_plus_full by lia.
  f_equal. unfold zget. replace (Z.to_nat ((k - 8) / 8 + 1)) with (S (Z.to_nat ((k - 8) / 8))); [done|].
  pose proof (Z.div_pos (k - 8) 8). lia.
Qed.

Lemma bit_at_head x l k : 0 <= k < 8 -> bit_at (x :: l) k = Z.testbit x k.
Proof. intros Hk. unfold bit_at. by rewrite Z.div_small, Z.mod_small by lia. Qed.

(** The first clear bit. *)
Lemma bitmap_search_spec l i : 0 <= i ->
  match bitmap_search l i with
  | Some r => exists k, r = 8 * i + k /\ 0 <= k < 8 * zlen l /\ bit_at l k = false /\ forall j, 0 <= j < k -> bit_at l j = true
  | None => forall j, 0 <= j < 8 * zlen l -> bit_at l j = true
  end.
Proof.
  assert (Hcons : forall (x : Z) k, zlen (x :: k) = 1 + zlen k) by (intros; unfold zlen; cbn [length]; lia).
  revert i. induction l as [|x l IH]; intros i Hi; cbn [bitmap_search]; [unfold zlen; cbn; lia|].
  assert (Hrest : (forall j, 0 <= j < 8 -> Z.testbit x j = true) ->
    match bitmap_search l (i + 1) with
    | Some r => exists k, r = 8 * i + k /\ 0 <= k < 8 * zlen (x :: l) /\ bit_at (x :: l) k = false /\ forall j, 0 <= j < k -> bit_at (x :: l) j = true
    | None => forall j, 0 <= j < 8 * zlen (x :: l) -> bit_at (x :: l) j = true
    end).
  { intros Hx. specialize (IH (i + 1) ltac:(lia)). rewrite Hcons. destruct (bitmap_search l (i + 1)) as [r|].
    - destruct IH as (k & -> & Hk & Hb & Hall). exists (k + 8). split; [lia|]. split; [lia|].
      rewrite bit_at_cons by lia. replace (k + 8 - 8) with k by lia. split; [done|]. intros j Hj.
      destruct (decide (j < 8)); [rewrite bit_at_head by lia; apply Hx; lia|rewrite bit_at_cons by lia; apply Hall; lia].
    - intros j Hj. destruct (decide (j < 8)); [rewrite bit_at_head by lia; apply Hx; lia|rewrite bit_at_cons by lia; apply IH; lia]. }
  pose proof (free_bit_spec x 8 0 ltac:(done)) as Hf. destruct (x =? 255) eqn:E; bools.
  - apply Hrest. intros j Hj. subst x. change 255 with (Z.ones 8). by apply Z.ones_spec_low.
  - destruct (free_bit x 8 0) as [r|].
    + destruct Hf as (Hr & Hb & Hall). exists r. rewrite Z.shiftl_mul_pow2 by lia. split; [lia|]. rewrite Hcons. pose proof (zlen_nonneg l).
      split; [lia|]. rewrite bit_at_head by lia. split; [done|]. intros j Hj. rewrite bit_at_head by lia. apply Hall. lia.
    + apply Hrest. intros j Hj. apply Hf. lia.
Qed.

(** Setting bit [d]. *)
Lemma bit_at_set l d k : 0 <= d < 8 * zlen l -> 0 <= k ->
  bit_at (zset l (Z.shiftr d 3) (Z.lor (zget l (Z.shiftr d 3)) (Z.shiftl 1 (Z.land d 7)))) k = (d =? k) || bit_at l k.
Proof.
  intros Hd Hk. rewrite Z.shiftr_div_pow2 by lia. change 7 with (Z.ones 3). rewrite Z.land_ones by lia.
  change (2 ^ 3) with 8. pose proof (Z.mod_pos_bound d 8 ltac:(lia)). pose proof (Z.mod_pos_bound k 8 ltac:(lia)).
  unfold bit_at. fold (Z.setbit (zget l (d / 8)) (d mod 8)).
  rewrite zget_zset by (Z.to_euclidean_division_equations; lia).
  destruct (d / 8 =? k / 8) eqn:E; bools.
  - rewrite Z.setbit_eqb by lia. rewrite E. f_equal. apply Bool.eq_iff_eq_true. rewrite !Z.eqb_eq.
    Z.to_euclidean_division_equations. lia.
  - destruct (d =? k) eqn:E2; bools; [by subst|done].
Qed.

(** ** The scan *)

(** An entry that names an object. *)
Definition used_id (id : Z) : bool := negb (id =? SPIFFS_OBJ_ID_FREE) && negb (id =? SPIFFS_OBJ_ID_DELETED).

(** Object [x] has a page on the volume. *)
Definition id_in_use (c : spiffs_config) (v : Z -> Z) (x : Z) : Prop :=
  exists b e, 0 <= b < blocks c /\ 0 <= e < lue c /\ used_id (lu_id c v b e) = true /\ data_id (lu_id c v b e) = x.

(** The name of a new file is taken. *)
Definition name_taken (c : spiffs_config) (v : Z -> Z) (name : option (list Z)) (b e : Z) : bool :=
  match name with Some name => named_entry c v name b e | None => false end.

Section ids.
Context {F : Type} {hal : SpiffsHal F} {nor : NorHal F}.
Implicit Types s : spiffs F.

(** Only the cache and the work buffers differ. *)
Definition work_frame s s' : Prop := s' = set_work (work s') (set_lu_work (lu_work s') (set_cache (cache s') s)).

(** The ids of the first [p] entries are in the bitmap. *)
Definition ids_seen (name : option (list Z)) s0 (p : Z) s : Prop :=
  work_frame s0 s /\ 0 <= p <= blocks (cfg s0) * lue (cfg s0) /\ zlen (work s) = psz (cfg s0) /\
  (forall k, 0 <= k < 8 * psz (cfg s0) -> bit_at (work s) k = true <->
     exists q, 0 <= q < p /\ used_id (lu_id (cfg s0) (view s0) (blk (cfg s0) q) (ent (cfg s0) q)) = true /\
       data_id (lu_id (cfg s0) (view s0) (blk (cfg s0) q) (ent (cfg s0) q)) = k + 1) /\
  (forall q, 0 <= q < p -> name_taken (cfg s0) (view s0) name (blk (cfg s0) q) (ent (cfg s0) q) = false).

Lemma ids_seen_frame name s0 p s s' : ids_seen name s0 p s -> lu_frame s s' -> ids_seen name s0 p s'.
Proof.
  intros (Hf & Hp & Hl & Hb & Hn) Hf'. unfold ids_seen. assert (work s' = work s) as -> by (by rewrite Hf').
  split; [|done]. unfold work_frame in *. rewrite Hf', Hf. done.
Qed.

(** [s] differs from a state that has seen [p] entries in the cache, and the next
    entry marks bit [d], if any. *)
Lemma ids_seen_next name s0 p s w : wf_cfg (cfg s0) -> ids_seen name s0 p s -> p < blocks (cfg s0) * lue (cfg s0) ->
  let id := lu_id (cfg s0) (view s0) (blk (cfg s0) p) (ent (cfg s0) p) in
  name_taken (cfg s0) (view s0) name (blk (cfg s0) p) (ent (cfg s0) p) = false -> zlen w = psz (cfg s0) ->
  (forall k, 0 <= k < 8 * psz (cfg s0) -> bit_at w k = (used_id id && (data_id id =? k + 1)) || bit_at (work s) k) ->
  ids_seen name s0 (p + 1) (set_work w s).
Proof.
  intros Hwf (Hf & Hp & Hl & Hb & Hn) Hlt id Hnt Hw Hbit. split; [|split; [lia|split; [done|split]]].
  - unfold work_frame in *. rewrite Hf. done.
  - intros k Hk. cbn [work set_work]. rewrite Hbit by done. rewrite orb_true_iff, andb_true_iff, Z.eqb_eq, Hb by done. split.
    + intros [Hu|(q & Hq & Hu)]; [exists p; split; [lia|done]|exists q; split; [lia|done]].
    + intros (q & Hq & Hu). destruct (decide (q = p)) as [->|]; [by left|right]. exists q. split; [lia|done].
  - intros q Hq. destruct (decide (q = p)) as [->|]; [done|]. apply Hn. lia.
Qed.

(** The header check of the visitor. *)
Lemma name_check_ok T s name b e : let c := cfg s in let id := lu_id c (view s) b e in
  fs_ok T s -> 1 <= T -> 0 <= b < blocks c -> 0 <= e < lue c -> zlen (cstr name) < SPIFFS_OBJ_NAME_LEN -> used_id id = true ->
  wp (if is_ix id then
        let pix := u16 (SPIFFS_OBJ_LOOKUP_ENTRY_TO_PIX c b e) in
        r ← rd_object_ix_header (Z.lor SPIFFS_OP_T_OBJ_LU2 SPIFFS_OP_C_READ) 0 (SPIFFS_PAGE_TO_PADDR c pix);
        let '(res, objix_hdr) := r in
        if res <? SPIFFS_OK then mret (Some res)
        else if (ph_span_ix (oix_p_hdr objix_hdr) =? 0)
          && (Z.land (ph_flags (oix_p_hdr objix_hdr))
                (Z.lor SPIFFS_PH_FLAG_DELET (Z.lor SPIFFS_PH_FLAG_FINAL SPIFFS_PH_FLAG_IXDELE))
              =? Z.lor SPIFFS_PH_FLAG_DELET SPIFFS_PH_FLAG_IXDELE) then
          match strcmp_name name (oix_name objix_hdr) with
          | None => undefined
          | Some true => mret (Some SPIFFS_ERR_CONFLICTING_NAME)
          | Some false => mret None
          end
        else mret None
      else mret None) (fun r s' =>
    r = (if named_entry c (view s) name b e then Some SPIFFS_ERR_CONFLICTING_NAME else None) /\
    cache_frame s s' /\ fs_ok (T - 1) s') s.
Proof.
  intros c id Hok HT Hb He Hname Hu. pose proof (fs_ok_wf _ _ Hok) as Hwf. unfold named_entry. fold id.
  assert (Hix : index_id id = is_ix id).
  { unfold index_id, used_id in *. apply andb_true_iff in Hu as [H1%negb_true_iff H2%negb_true_iff]. rewrite H1, H2. by destruct (is_ix id). }
  rewrite Hix. destruct (is_ix id); cbn [andb].
  2: { apply wp_ret. split; [done|]. split; [by destruct s|]. eapply fs_okx_weaken; [exact Hok|lia]. }
  cbv zeta. unfold c. rewrite entry_to_pix by done. wp_step.
  wp_apply rd_object_ix_header_ok; [done|done|by apply entry_pix_range|]. intros r s1 (-> & Hf & Hok1). ok_res.
  rewrite strcmp_short by (done || apply hdr_name_length). fold (live_header (hdr_at (cfg s) (view s) (entry_pix (cfg s) b e))).
  destruct (live_header _); cbn [andb]; [|by wp_step]. destruct (streq _ _); by wp_step.
Qed.

Lemma data_id_range x : 0 <= data_id x < 32768.
Proof. rewrite data_id_mod. by apply Z.mod_pos_bound. Qed.

Lemma bitmap_v_ok T name s0 p u s : let c := cfg s0 in
  fs_ok T s -> 1 <= T -> wf_cfg c -> 0 <= p < blocks c * lue c -> (forall n, name = Some n -> zlen (cstr n) < SPIFFS_OBJ_NAME_LEN) ->
  ids_seen name s0 p s ->
  wp (spiffs_obj_lu_find_free_obj_id_bitmap_v 1 name (lu_id c (view s0) (blk c p) (ent c p)) (blk c p) (ent c p) u)
    (fun r s' => fs_ok (T - 1) s' /\ lu_work s' = lu_work s /\
       if name_taken c (view s0) name (blk c p) (ent c p) then r = (SPIFFS_ERR_CONFLICTING_NAME, u) /\ work_frame s0 s'
       else r = (SPIFFS_VIS_COUNTINUE, u) /\ ids_seen name s0 (p + 1) s') s.
Proof.
  intros c Hok HT Hwf Hp Hname Hseen. pose proof Hseen as (Hf & _ & Hlw & _ & _).
  fold c in Hlw. pose proof (blk_range c Hwf p ltac:(done)) as Hb. pose proof (ent_range c Hwf p) as He.
  assert (Ec : cfg s = c) by (by rewrite Hf). assert (Ev : view s = view s0) by (by rewrite Hf).
  set (id := lu_id c (view s0) (blk c p) (ent c p)).
  unfold spiffs_obj_lu_find_free_obj_id_bitmap_v. wp_step. wp_step. fold (used_id id).
  assert (Hnext : forall s1 w, cache_frame s s1 -> fs_ok (T - 1) s1 -> name_taken c (view s0) name (blk c p) (ent c p) = false ->
    zlen w = psz c -> (forall k, 0 <= k < 8 * psz c -> bit_at w k = (used_id id && (data_id id =? k + 1)) || bit_at (work s) k) ->
    ids_seen name s0 (p + 1) (set_work w s1)).
  { intros s1 w Hf1 Hok1 Hnt Hlen Hbit. eapply ids_seen_next; [exact Hwf| |exact (proj2 Hp)|done|done|].
    - eapply ids_seen_frame; [exact Hseen|]. unfold lu_frame. rewrite Hf1. done.
    - cbv zeta. fold id. intros k Hk. rewrite Hbit by done. by rewrite Hf1. }
  destruct (used_id id) eqn:Hu.
  2: { wp_step. assert (Hnt : name_taken c (view s0) name (blk c p) (ent c p) = false).
       { destruct name as [n|]; [|done]. cbn. unfold named_entry, index_id. fold id. unfold used_id in Hu.
         apply andb_false_iff in Hu as [->%negb_false_iff| ->%negb_false_iff]; [done|by rewrite orb_true_r]. }
       rewrite Hnt. split; [eapply fs_okx_weaken; [exact Hok|lia]|]. split; [done|]. split; [done|].
       assert (Hs : s = set_work (work s) s) by (by destruct s). rewrite Hs. apply Hnext.
       - by destruct s.
       - eapply fs_okx_weaken; [exact Hok|lia].
       - done.
       - done.
       - done. }
  wp_step. eapply wp_mono with (P := fun r s' =>
    r = (if name_taken c (view s0) name (blk c p) (ent c p) then Some SPIFFS_ERR_CONFLICTING_NAME else None) /\
    cache_frame s s' /\ fs_ok (T - 1) s').
  { destruct name as [n|]; cbn [name_taken].
    - unfold id. rewrite <- Ev, <- Ec. apply name_check_ok; [done|done|by rewrite Ec|by rewrite Ec|by apply Hname|by rewrite Ec, Ev].
    - wp_step. split; [done|]. split; [by destruct s|]. eapply fs_okx_weaken; [exact Hok|lia]. }
  intros r s1 (-> & Hf1 & Hok1). destruct (name_taken _ _ _ _ _) eqn:Hnt.
  { wp_step. split; [done|]. split; [by rewrite Hf1|]. split; [done|]. unfold work_frame in *. rewrite Hf1, Hf. done. }
  rewrite Ec. change (log_page_size c) with (psz c). pose proof (data_id_range id) as Hd.
  assert (Hw1 : work s1 = work s) by (by rewrite Hf1). assert (Hlu1 : lu_work s1 = lu_work s) by (by rewrite Hf1).
  wp_step. wp_step.
  - wp_step. wp_step. rewrite Hw1. rewrite Z.shiftr_div_pow2 in * by lia. change (2 ^ 3) with 8 in *.
    split; [eapply fs_okx_same; [exact Hok1|done..]|]. split; [done|]. split; [done|].
    assert (Hbit : 0 <= data_id id - 1 < 8 * zlen (work s)).
    { rewrite Hlw. Z.to_euclidean_division_equations. lia. }
    apply Hnext; [done|done|done|by rewrite zlen_zset|].
    intros k Hk. rewrite <- (Z.shiftr_div_pow2 _ 3) by lia. rewrite bit_at_set by lia. f_equal.
    apply Bool.eq_iff_eq_true. rewrite andb_true_l, !Z.eqb_eq. lia.
  - wp_step. wp_step. split; [done|]. split; [done|]. split; [done|].
    assert (Hs : s1 = set_work (work s) s1) by (rewrite <- Hw1; by destruct s1). rewrite Hs. apply Hnext; [done|done|done|done|].
    intros k Hk. destruct (data_id id =? k + 1) eqn:Ek; bools; [|done]. exfalso.
    rewrite Z.shiftr_div_pow2 in * by lia. change (2 ^ 3) with 8 in *.
    apply andb_false_iff in E as [E|E]; bools; Z.to_euclidean_division_equations; lia.
Qed.

(** ** [spiffs_obj_lu_find_free_obj_id] *)

(** Return code and id: the name is taken, or the first unused id, or none left. *)
Definition free_id_result (c : spiffs_config) (v : Z -> Z) (name : option (list Z)) (r : Z * Z) : Prop :=
  ((exists b e, 0 <= b < blocks c /\ 0 <= e < lue c /\ name_taken c v name b e = true) /\ r = (SPIFFS_ERR_CONFLICTING_NAME, 0))
  \/ (forall b e, 0 <= b < blocks c -> 0 <= e < lue c -> name_taken c v name b e = false) /\
     ((exists k, 1 <= k <= 8 * psz c /\ r = (SPIFFS_OK, k) /\ ~ id_in_use c v k /\ forall j, 1 <= j < k -> id_in_use c v j)
      \/ (r = (SPIFFS_ERR_FULL, 0) /\ forall j, 1 <= j <= 8 * psz c -> id_in_use c v j)).

(** The volume has at most so many entries that the ids fit the bitmap. *)
Definition ids_fit (c : spiffs_config) : Prop := psz c < 4096 /\ blocks c * lue c / 2 <= 8 * psz c.

Lemma free_obj_id_ok T s name :
  fs_ok T s -> ticks (cfg s) 1 <= T -> ids_fit (cfg s) -> (forall n, name = Some n -> zlen (cstr n) < SPIFFS_OBJ_NAME_LEN) ->
  wp (spiffs_obj_lu_find_free_obj_id name) (fun r s' =>
    free_id_result (cfg s) (view s) name r /\ work_frame s s' /\ fs_ok (T - ticks (cfg s) 1) s') s.
Proof.
  intros Hok HT [Hpz Hfit] Hname. pose proof (fs_ok_wf _ _ Hok) as Hwf. set (c := cfg s) in *.
  pose proof (lue_range c Hwf). pose proof (wf_blocks c Hwf). pose proof (wf_pages_lt c Hwf). pose proof (wf_pages c Hwf).
  pose proof (lue_eq c Hwf). pose proof (wf_lup c Hwf). pose proof (wf_psz c Hwf). assert (Hn : 0 <= blocks c * lue c < 65535) by nia.
  unfold spiffs_obj_lu_find_free_obj_id. wp_step. wp_step. wp_step. wp_step. rewrite (fs_ok_bc _ _ Hok). fold c.
  rewrite (u32_small (blocks c * lue c)) by lia. set (m := blocks c * lue c / 2) in *.
  assert (Hm : 0 <= m <= 32767) by (unfold m; Z.to_euclidean_division_equations; lia). rewrite (u16_small (m + 1)) by lia.
  cbv zeta. set (mx := if hasb (m + 1) SPIFFS_OBJ_ID_IX_FLAG then data_id 65535 else m + 1).
  assert (Hmx : mx - 1 <= 8 * psz c).
  { unfold mx. destruct (hasb (m + 1) SPIFFS_OBJ_ID_IX_FLAG) eqn:E; [|lia]. fold (is_ix (m + 1)) in E. rewrite is_ix_id in E by lia. bools.
    change (data_id 65535) with 32767. lia. }
  wp_step. cbn [loop]. wp_step. unfold free_obj_id_body. wp_step. wp_step. fold c.
  assert (Hfb : fits_bitmap c (mkFoi 1 mx 0 name) = true).
  { unfold fits_bitmap. cbn [foi_max_obj_id foi_min_obj_id]. change (log_page_size c) with (psz c). rewrite u16_small by lia. lia. }
  rewrite Hfb. wp_step. unfold free_obj_id_bitmap. wp_step. wp_step. wp_step. wp_step. wp_step. cbn [foi_min_obj_id].
  set (s1 := set_work _ s).
  eapply (full_scan T s1 _ (fun p (_ : unit) s2 => ids_seen name s p s2) _ 1); try done.
  - eapply fs_okx_same; [exact Hok|done..].
  - intros p u s2 (Hf & Hp & _). split; [exact Hp|]. by rewrite Hf.
  - intros p u s2 s3 Hs Hf. by eapply ids_seen_frame.
  - change (cfg s1) with c. change (view s1) with (view s). intros T1 p u s2 Hp Hs Hok2 HT1.
    pose proof (ticks_nonneg c 1 Hwf ltac:(done)).
    wp_apply (bitmap_v_ok T1 name s p u s2); [exact Hok2|lia|exact Hwf|exact Hp|exact Hname|exact Hs|].
    intros r s3 (Hok3 & Hlu & Hr). fold c in Hr. destruct (name_taken _ _ _ _ _) eqn:Hnt.
    + right. destruct Hr as [-> Hf]. cbn [fst snd]. split; [done|]. split; [done|]. cbn [lr_res].
      change (SPIFFS_ERR_CONFLICTING_NAME =? SPIFFS_VIS_END) with false. cbv iota zeta.
      change (SPIFFS_ERR_CONFLICTING_NAME <? SPIFFS_OK) with true. cbv iota.
      wp_step. wp_step. wp_step. split; [|split; [done|]].
      * left. split; [|done]. exists (blk c p), (ent c p). split; [by apply blk_range|]. split; [by apply ent_range|done].
      * eapply fs_okx_weaken; [exact Hok3|lia].
    + left. destruct Hr as [-> Hs3]. done.
  - change (cfg s1) with c. intros u s2 bix ent0 (Hf & _ & Hl & Hb & Hnt) Hok2. cbn [lr_res]. fold c in Hl, Hb, Hnt, Hf.
    change (SPIFFS_VIS_END =? SPIFFS_VIS_END) with true. ok_res. wp_step. wp_step.
    assert (Hw : slice (work s2) 0 (log_page_size c) = work s2).
    { unfold slice. rewrite drop_0. apply take_ge. change (log_page_size c) with (psz c). unfold zlen in Hl. lia. }
    fold c. rewrite Hw. pose proof (bitmap_search_spec (work s2) 0 ltac:(done)) as Hbs. rewrite Hl in Hbs.
    assert (Hcov : forall P : Z -> Z -> Prop, (exists q, 0 <= q < blocks c * lue c /\ P (blk c q) (ent c q)) <->
              exists b e, 0 <= b < blocks c /\ 0 <= e < lue c /\ P b e).
    { intros P. split.
      - intros (q & Hq & HP). exists (blk c q), (ent c q). split; [by apply blk_range|]. split; [by apply ent_range|done].
      - intros (b & e & Hbb & He & HP). exists (pos c b e). destruct (pos_split c Hwf b e He) as [-> ->].
        unfold wrap_block. rewrite (proj2 (Z.ltb_lt _ _)) by lia. split; [unfold pos; nia|done]. }
    assert (Huse : forall j, 1 <= j <= 8 * psz c -> bit_at (work s2) (j - 1) = true <-> id_in_use c (view s) j).
    { intros j Hj. rewrite Hb by lia. replace (j - 1 + 1) with j by lia.
      apply (Hcov (fun b e => used_id (lu_id c (view s) b e) = true /\ data_id (lu_id c (view s) b e) = j)). }
    assert (Hfree : forall b e, 0 <= b < blocks c -> 0 <= e < lue c -> name_taken c (view s) name b e = false).
    { intros b e Hbb He. destruct (proj2 (Hcov (fun b' e' => b' = b /\ e' = e))) as (q & Hq & Hqb & Hqe); [by exists b, e|].
      rewrite <- Hqb, <- Hqe. by apply Hnt. }
    destruct (bitmap_search (work s2) 0) as [k|].
    + destruct Hbs as (k' & -> & Hk & Hbit & Hall). rewrite Z.mul_0_r, Z.add_0_l in *. wp_step. wp_step. wp_step.
      rewrite (u16_small (k' + 1)) by lia. split; [|done]. right. split; [done|]. left. exists (k' + 1).
      split; [lia|]. split; [done|]. split.
      * rewrite <- Huse by lia. replace (k' + 1 - 1) with k' by lia. congruence.
      * intros j Hj. apply Huse; [lia|]. apply Hall. lia.
    + wp_step. wp_step. wp_step. split; [|done]. right. split; [done|]. right. split; [done|]. intros j Hj. apply Huse; [lia|].
      apply Hbs. lia.
  - unfold ids_seen. fold c. split; [done|]. split; [lia|]. split; [|split].
    + unfold s1, zlen. cbn [work set_work]. rewrite length_replicate. fold c. lia.
    + intros k Hk. cbn [work set_work s1]. split; [|intros (q & Hq & _); lia]. unfold bit_at, zget.
      intros Hbit. exfalso. revert Hbit.
      fold c. rewrite lookup_total_replicate_2 by (change (log_page_size c) with (psz c); Z.to_euclidean_division_equations; lia). by rewrite Z.bits_0.
    + intros q Hq. lia.
Qed.
End ids.
