(* ===== verification/SpiffsCheckProof.v ===== *)
(** The consistency check on a consistent volume ([spiffs_check.c]): what
    "consistent" means, and that every pass ends and leaves such a volume alone. *)
From S2P Require Import Prelude CSem SpiffsTypes SpiffsGeom SpiffsCache SpiffsIo SpiffsLookup SpiffsSearch SpiffsPage SpiffsFind SpiffsIndex SpiffsMount SpiffsIds SpiffsApi SpiffsCheck SpiffsHandle.
From Stdlib Require List.
From stdpp Require Import base list numbers option.

Open Scope Z_scope.

(** ** Consistent volumes *)

(** The page of the entry at position [q] of the scan order. *)
Definition pix_at (c : spiffs_config) (q : Z) : Z := entry_pix c (blk c q) (ent c q).

(** Lookup entry and page header agree; an index page is not marked for deletion. *)
Definition entry_consistent (id : Z) (h : spiffs_page_header) : bool :=
  let fl := ph_flags h in
  if id =? SPIFFS_OBJ_ID_FREE then hasb fl SPIFFS_PH_FLAG_USED
  else if id =? SPIFFS_OBJ_ID_DELETED then negb (hasb fl SPIFFS_PH_FLAG_DELET)
  else (ix_id (ph_obj_id h) =? ix_id id) && negb (lu_marking_mismatch id fl)
       && hasb fl SPIFFS_PH_FLAG_DELET && negb (hasb fl SPIFFS_PH_FLAG_FINAL)
       && (negb (is_ix id) || hasb fl SPIFFS_PH_FLAG_IXDELE).

Definition consistent_entries (c : spiffs_config) (v : Z -> Z) : Prop :=
  forall q, 0 <= q < blocks c * lue c ->
    entry_consistent (lu_id c v (blk c q) (ent c q)) (ph_at c v (pix_at c q)) = true.

(** The flags the index check looks at. *)
Lemma index_flags fl : is_byte fl -> hasb fl SPIFFS_PH_FLAG_DELET = true -> hasb fl SPIFFS_PH_FLAG_FINAL = false ->
  hasb fl SPIFFS_PH_FLAG_INDEX = false -> hasb fl SPIFFS_PH_FLAG_IXDELE = true ->
  Z.land fl (Z.lor SPIFFS_PH_FLAG_INDEX (Z.lor SPIFFS_PH_FLAG_FINAL (Z.lor SPIFFS_PH_FLAG_DELET SPIFFS_PH_FLAG_IXDELE)))
    = Z.lor SPIFFS_PH_FLAG_DELET SPIFFS_PH_FLAG_IXDELE.
Proof.
  intros Hb H1 H2 H3 H4.
  assert (Hall : forallb (fun x => negb (hasb x 128 && negb (hasb x 2) && negb (hasb x 4) && hasb x 64) || (Z.land x 198 =? 192))
    (seqZ 0 256) = true) by (vm_compute; reflexivity).
  rewrite forallb_forall in Hall. specialize (Hall fl). change SPIFFS_PH_FLAG_DELET with 128 in *.
  change SPIFFS_PH_FLAG_FINAL with 2 in *. change SPIFFS_PH_FLAG_INDEX with 4 in *. change SPIFFS_PH_FLAG_IXDELE with 64 in *.
  rewrite H1, H2, H3, H4 in Hall. cbn [negb andb orb] in Hall. apply Z.eqb_eq, Hall, list_elem_of_In, elem_of_seqZ.
  unfold is_byte in Hb. lia.
Qed.

(** Reference [i] of the index page [p]. *)
Definition ref_at (c : spiffs_config) (v : Z -> Z) (p i : Z) : Z :=
  dec16 (vread v (paddr c p + (index_table c (ph_span_ix (ph_at c v p))).2 + 2 * i) 2).
Definition ref_count (c : spiffs_config) (v : Z -> Z) (p : Z) : Z := (index_table c (ph_span_ix (ph_at c v p))).1.1.
Definition ref_span (c : spiffs_config) (v : Z -> Z) (p i : Z) : Z := (index_table c (ph_span_ix (ph_at c v p))).1.2 + i.

(** The page is a live index page, a page in use. *)
Definition live_ix_page (c : spiffs_config) (v : Z -> Z) (p : Z) : bool := is_live_index (ph_flags (ph_at c v p)).
Definition used_page (c : spiffs_config) (v : Z -> Z) (p : Z) : bool := is_used_page (ph_flags (ph_at c v p)).

(** The first [n] references of page [p]; those of the page, if it is a live index
    page; those of the first [q] entries. *)
Definition refs_n (c : spiffs_config) (v : Z -> Z) (p n : Z) : list Z :=
  filter (fun r => r <> IX_NONE) (ref_at c v p <$> seqZ 0 n).
Definition page_refs (c : spiffs_config) (v : Z -> Z) (p : Z) : list Z :=
  if live_ix_page c v p then refs_n c v p (ref_count c v p) else [].
Definition refs_upto (c : spiffs_config) (v : Z -> Z) (q : Z) : list Z :=
  concat ((fun q => page_refs c v (pix_at c q)) <$> seqZ 0 q).

(** A reference leads to the data page it stands for. *)
Definition ref_ok (c : spiffs_config) (v : Z -> Z) (p i : Z) : bool :=
  let r := ref_at c v p i in
  if r =? IX_NONE then true
  else if r <? pages c then negb (SPIFFS_IS_LOOKUP_PAGE c r) && is_data_page_of (ph_at c v p) (ph_at c v r) (ref_span c v p i)
  else false.

(** The references lead to the pages they stand for, no page is referenced twice,
    and every data page in use is referenced. *)
Record consistent_refs (c : spiffs_config) (v : Z -> Z) : Prop := {
  cr_ok : forall q i, 0 <= q < blocks c * lue c -> live_ix_page c v (pix_at c q) = true ->
    0 <= i < ref_count c v (pix_at c q) -> ref_ok c v (pix_at c q) i = true;
  cr_nodup : NoDup (refs_upto c v (blocks c * lue c));
  cr_used : forall q, 0 <= q < blocks c * lue c -> used_page c v (pix_at c q) = true ->
    live_ix_page c v (pix_at c q) = true \/ pix_at c q ∈ refs_upto c v (blocks c * lue c)
}.

(** The bitmap range does not wrap around the 16-bit page indices. *)
Definition scan_fits (c : spiffs_config) : Prop := pages c + 2 * psz c <= 65535.

Lemma pages_per_scan_eq c : wf_cfg c -> scan_fits c -> pages_per_scan c = 2 * psz c.
Proof.
  intros Hwf Hs. pose proof (wf_psz c Hwf). pose proof (ppb_pos c Hwf). pose proof (wf_pages c Hwf). pose proof (wf_blocks c Hwf).
  unfold scan_fits in Hs. assert (2 * psz c < 65536) by nia. unfold pages_per_scan. rewrite (u32_small (psz c * 8)) by lia.
  replace (psz c * 8) with (2 * psz c * 4) by lia. rewrite Z.div_mul by lia. by rewrite u16_small by lia.
Qed.

Lemma index_table_fits c span : wf_cfg c ->
  let t := index_table c span in 0 <= t.1.1 <= psz c / 2 /\ 0 <= t.2 /\ t.2 + 2 * t.1.1 <= psz c.
Proof.
  intros Hwf. pose proof (wf_psz c Hwf). pose proof (psz_lt c Hwf). unfold index_table, SPIFFS_OBJ_HDR_IX_LEN, SPIFFS_OBJ_IX_LEN.
  change sizeof_object_ix_header with 46. change sizeof_object_ix with 8. change sizeof_page_ix with 2.
  rewrite !u32_small by lia. destruct (span =? 0); cbn [fst snd]; rewrite s32_small; Z.to_euclidean_division_equations; lia.
Qed.

Lemma refs_n_snoc c v p n : 0 <= n ->
  refs_n c v p (n + 1) = refs_n c v p n ++ (if ref_at c v p n =? IX_NONE then [] else [ref_at c v p n]).
Proof.
  intros Hn. unfold refs_n. rewrite seqZ_snoc, fmap_app, list.filter_app by done. f_equal.
  change (ref_at c v p <$> [n]) with [ref_at c v p n]. rewrite filter_cons, filter_nil.
  destruct (ref_at c v p n =? IX_NONE) eqn:E; bools; by case_decide.
Qed.

Lemma refs_n_split c v p i n : 0 <= i < n -> ref_at c v p i <> IX_NONE ->
  exists l, refs_n c v p n = refs_n c v p i ++ ref_at c v p i :: l.
Proof.
  intros Hi Hr. exists (filter (fun r => r <> IX_NONE) (ref_at c v p <$> seqZ (i + 1) (n - (i + 1)))). unfold refs_n.
  replace n with (i + (1 + (n - (i + 1)))) at 1 by lia. rewrite !seqZ_app, !fmap_app, !list.filter_app by lia. f_equal.
  change (ref_at c v p <$> seqZ (0 + i) 1) with [ref_at c v p (0 + i)]. rewrite filter_cons, filter_nil, decide_True by done.
  cbn [app]. do 4 f_equal; lia.
Qed.

Lemma refs_upto_snoc c v q : 0 <= q -> refs_upto c v (q + 1) = refs_upto c v q ++ page_refs c v (pix_at c q).
Proof. intros Hq. unfold refs_upto. rewrite seqZ_snoc, fmap_app, concat_app by done. cbn. by rewrite app_nil_r. Qed.

Lemma none_not_in_refs c v q : IX_NONE ∉ refs_upto c v q.
Proof.
  unfold refs_upto. intros H. apply list_elem_of_In, List.in_concat in H as (l & Hl & Hin). apply list_elem_of_In in Hin.
  apply List.in_map_iff in Hl as (q' & <- & _). unfold page_refs in Hin. destruct (live_ix_page _ _ _); [|by apply not_elem_of_nil in Hin].
  unfold refs_n in Hin. by apply list_elem_of_filter in Hin as [Hin _].
Qed.

Lemma refs_upto_mono c v q n : 0 <= q <= n -> exists l, refs_upto c v n = refs_upto c v q ++ l.
Proof.
  intros [Hq Hn]. exists (concat ((fun q => page_refs c v (pix_at c q)) <$> seqZ q (n - q))). unfold refs_upto.
  rewrite <- concat_app, <- fmap_app. replace (seqZ q (n - q)) with (seqZ (0 + q) (n - q)) by (f_equal; lia).
  rewrite <- seqZ_app by lia. do 3 f_equal. lia.
Qed.

Section check.
Context {F : Type} {hal : SpiffsHal F} {nor : NorHal F}.
Implicit Types s : spiffs F.

Lemma ph_flags_byte c s p : 0 <= p < pages c -> is_byte (ph_flags (ph_at c (view s) p)).
Proof.
  intros Hp. unfold ph_at, dec_page_header. cbn [ph_flags]. rewrite zget_vread by (unfold sizeof_page_header; lia).
  apply hal_byte.
Qed.

(** Reading the header of an entry's page. *)
Lemma rd_entry_header T s op fh q : fs_ok T s -> 1 <= T -> 0 <= q < blocks (cfg s) * lue (cfg s) ->
  u16 (SPIFFS_OBJ_LOOKUP_ENTRY_TO_PIX (cfg s) (blk (cfg s) q) (ent (cfg s) q)) = pix_at (cfg s) q /\
  0 <= pix_at (cfg s) q < pages (cfg s) /\
  wp (rd_page_header op fh (paddr (cfg s) (pix_at (cfg s) q))) (fun r s' =>
    r = (SPIFFS_OK, ph_at (cfg s) (view s) (pix_at (cfg s) q)) /\ cache_frame s s' /\ fs_ok (T - 1) s') s.
Proof.
  intros Hok HT Hq. pose proof (fs_ok_wf _ _ Hok) as Hwf.
  pose proof (blk_range _ Hwf q Hq). pose proof (ent_range _ Hwf q). pose proof (entry_pix_range _ Hwf (blk (cfg s) q) (ent (cfg s) q) ltac:(done) ltac:(done)).
  split; [by apply entry_to_pix|]. split; [done|]. by apply rd_page_header_ok.
Qed.

(** A visitor that answers "go on" after one read changes nothing. *)
Lemma reading_scan {U} T s (v : spiffs_visitor_f (F := F) U) (u0 : U) :
  fs_ok T s -> ticks (cfg s) 1 <= T ->
  (forall T1 q s1, 0 <= q < blocks (cfg s) * lue (cfg s) -> lu_frame s s1 -> fs_ok T1 s1 -> 1 <= T1 ->
     wp (v (lu_id (cfg s) (view s) (blk (cfg s) q) (ent (cfg s) q)) (blk (cfg s) q) (ent (cfg s) q) u0) (fun r s2 =>
       r = (SPIFFS_VIS_COUNTINUE, u0) /\ cache_frame s1 s2 /\ fs_ok (T1 - 1) s2) s1) ->
  wp (spiffs_obj_lu_find_entry_visitor 0 0 0 0 (Some v) u0 0 0) (fun r s' =>
    lr_res U r = SPIFFS_VIS_END /\ lu_frame s s' /\ fs_ok (T - ticks (cfg s) 1) s') s.
Proof.
  intros Hok HT Hv. pose proof (fs_ok_wf _ _ Hok) as Hwf. set (c := cfg s) in *. pose proof (lue_range c Hwf). pose proof (wf_blocks c Hwf).
  eapply (full_scan T s v (fun p u s1 => 0 <= p <= blocks c * lue c /\ u = u0 /\ lu_frame s s1) _ 1); try done; try lia.
  - intros p u s1 (Hp & -> & Hf). split; [done|]. rewrite Hf. done.
  - intros p u s1 s2 (Hp & -> & Hf) Hf2. split; [done|]. split; [done|]. by eapply lu_frame_trans.
  - intros T1 p u s1 Hp (_ & -> & Hf) Hok1 HT1. pose proof (ticks_nonneg c 1 Hwf ltac:(lia)). fold c in HT1.
    wp_apply (Hv T1 p s1); [done|done|done|lia|].
    intros r s2 (-> & Hcf & Hok2). left. split; [done|]. split; [|split; [by rewrite Hcf|done]].
    fold c in Hp. split; [lia|]. split; [done|]. eapply lu_frame_trans; [exact Hf|]. unfold lu_frame. rewrite Hcf. done.
  - intros u s1 bix e (_ & -> & Hf) Hok1. done.
  - split; [nia|]. split; [done|]. apply lu_frame_refl.
Qed.

Lemma validate_consistent id h p s : entry_consistent id h = true ->
  wp (spiffs_lookup_check_validate id h p) (fun r s' => r = (SPIFFS_OK, false) /\ s' = s) s.
Proof.
  unfold entry_consistent, spiffs_lookup_check_validate, lu_unused_mismatch, lu_in_use. cbv zeta. intros H.
  destruct (id =? SPIFFS_OBJ_ID_FREE) eqn:Ef; bools.
  - subst id. rewrite H. done.
  - destruct (id =? SPIFFS_OBJ_ID_DELETED) eqn:Ed; bools.
    + subst id. rewrite H. done.
    + cbn [negb andb orb]. rewrite H, Z.eqb_refl, H3, H2, H1. done.
Qed.

Lemma lookup_check_consistent T s : fs_ok T s -> ticks (cfg s) 1 <= T -> consistent_entries (cfg s) (view s) ->
  wp spiffs_lookup_consistency_check (fun r s' => r = SPIFFS_OK /\ lu_frame s s' /\ fs_ok (T - ticks (cfg s) 1) s') s.
Proof.
  intros Hok HT Hcon. unfold spiffs_lookup_consistency_check. wp_step. wp_apply (reading_scan T s spiffs_lookup_check_v tt); [done|done| |].
  - intros T1 q s1 Hq Hf Hok1 HT1. assert (Hc : cfg s1 = cfg s) by (by rewrite Hf). assert (Hv : view s1 = view s) by (by rewrite Hf).
    unfold spiffs_lookup_check_v. wp_step. wp_step. rewrite <- Hc in Hq.
    destruct (rd_entry_header T1 s1 (Z.lor SPIFFS_OP_T_OBJ_LU2 SPIFFS_OP_C_READ) 0 q Hok1 HT1 Hq) as (Hp & _ & Hrd).
    rewrite <- Hc, <- Hv. rewrite Hp. wp_step. wp_apply Hrd. intros r s2 (-> & Hcf & Hok2). ok_res. wp_step.
    wp_apply validate_consistent; [rewrite Hc, Hv; apply Hcon; by rewrite <- Hc|].
    intros r s3 (-> & ->). ok_res. wp_step. done.
  - intros r s' (Hr & Hf & Hok'). rewrite Hr. wp_step. done.
Qed.

Lemma index_check_v_consistent T s q log_ix : fs_ok T s -> 1 <= T -> 0 <= q < blocks (cfg s) * lue (cfg s) ->
  entry_consistent (lu_id (cfg s) (view s) (blk (cfg s) q) (ent (cfg s) q)) (ph_at (cfg s) (view s) (pix_at (cfg s) q)) = true ->
  wp (spiffs_object_index_consistency_check_v (lu_id (cfg s) (view s) (blk (cfg s) q) (ent (cfg s) q)) (blk (cfg s) q) (ent (cfg s) q) log_ix)
    (fun r s' => r = (SPIFFS_VIS_COUNTINUE, log_ix) /\ cache_frame s s' /\ fs_ok (T - 1) s') s.
Proof.
  intros Hok HT Hq. set (id := lu_id (cfg s) (view s) (blk (cfg s) q) (ent (cfg s) q)). intros Hcon.
  assert (Hskip : wp (mret (SPIFFS_VIS_COUNTINUE, log_ix)) (fun r s' => r = (SPIFFS_VIS_COUNTINUE, log_ix) /\ cache_frame s s' /\ fs_ok (T - 1) s') s).
  { wp_step. split; [done|]. split; [by destruct s|]. eapply fs_okx_weaken; [exact Hok|lia]. }
  unfold spiffs_object_index_consistency_check_v. wp_step. wp_step. wp_step; [|done].
  destruct (rd_entry_header T s (Z.lor SPIFFS_OP_T_OBJ_LU2 SPIFFS_OP_C_READ) 0 q Hok HT Hq) as (Hp & Hpr & Hrd).
  rewrite Hp. wp_step. wp_apply Hrd. intros r s2 (-> & Hcf & Hok2). ok_res. unfold entry_consistent in Hcon.
  rewrite (proj2 (Z.eqb_neq id SPIFFS_OBJ_ID_FREE)), (proj2 (Z.eqb_neq id SPIFFS_OBJ_ID_DELETED)) in Hcon by done.
  unfold lu_marking_mismatch in Hcon. rewrite H0 in Hcon. cbn [negb andb orb] in Hcon. rewrite orb_false_r in Hcon. bools.
  rewrite index_flags by (done || by apply ph_flags_byte). rewrite Z.eqb_refl.
  change (Z.lor SPIFFS_PH_FLAG_DELET SPIFFS_PH_FLAG_IXDELE =? SPIFFS_PH_FLAG_DELET) with false. rewrite andb_false_r. wp_step. done.
Qed.

Lemma index_check_consistent T s : fs_ok T s -> ticks (cfg s) 1 <= T -> consistent_entries (cfg s) (view s) ->
  wp spiffs_object_index_consistency_check (fun r s' => r = SPIFFS_OK /\ work_frame s s' /\ fs_ok (T - ticks (cfg s) 1) s') s.
Proof.
  intros Hok HT Hcon. unfold spiffs_object_index_consistency_check. wp_step. wp_step. wp_step. wp_step. wp_step.
  set (s0 := set_work _ s). assert (Hok0 : fs_ok T s0) by (eapply fs_okx_same; [exact Hok|done..]).
  wp_apply (reading_scan T s0 spiffs_object_index_consistency_check_v None Hok0 HT).
  - intros T1 q s1 Hq Hf Hok1 HT1. assert (Hc : cfg s1 = cfg s0) by (by rewrite Hf). assert (Hv : view s1 = view s0) by (by rewrite Hf).
    rewrite <- Hc, <- Hv. apply index_check_v_consistent; [done|done|by rewrite Hc|]. rewrite Hc, Hv. by apply Hcon.
  - intros r s' (Hr & Hf & Hok'). rewrite Hr. wp_step. split; [done|]. split; [|done]. unfold work_frame. rewrite Hf. done.
Qed.

(** ** The bitmap of the page check *)

(** The bits of the pages in the range at [o] are those of [P]. *)
Definition marks (o : Z) (P : Z -> Z -> Prop) s : Prop :=
  zlen (work s) = psz (cfg s) /\
  forall p k, o <= p < o + 2 * psz (cfg s) -> 0 <= k < 3 -> (bit_at (work s) (4 * (p - o) + k) = true <-> P p k).

Lemma marks_iff o P P' s : (forall p k, P p k <-> P' p k) -> marks o P s -> marks o P' s.
Proof. intros HP [Hl Hb]. split; [done|]. intros p k Hp Hk. rewrite (Hb p k Hp Hk). apply HP. Qed.

Lemma bit_index o p k : 0 <= o -> o mod 2 = 0 -> o <= p -> p < 65536 -> 0 <= k < 4 ->
  pix_byte_ix o p = (4 * (p - o) + k) / 8 /\ pix_bit_ix p + k = (4 * (p - o) + k) mod 8.
Proof.
  intros Ho He Hp Hlt Hk. unfold pix_byte_ix, pix_bit_ix. rewrite u32_small by lia.
  change (Z.land p 1) with (Z.land p (Z.ones 1)). rewrite Z.land_ones by lia. change (2 ^ 1) with 2.
  Z.to_euclidean_division_equations. lia.
Qed.

Lemma page_bit_eq o p k s : 0 <= o -> o mod 2 = 0 -> o <= p -> p < 65536 -> 0 <= k < 3 ->
  page_bit o p k s = bit_at (work s) (4 * (p - o) + k).
Proof.
  intros Ho He Hp Hlt Hk. destruct (bit_index o p k) as [H1 H2]; [lia..|]. unfold page_bit, bit_at, hasb.
  rewrite H1, H2, land_pow2, negb_involutive; [done|]. apply Z.mod_pos_bound. lia.
Qed.

Lemma u8_low x j : 0 <= j < 8 -> Z.testbit (u8 x) j = Z.testbit x j.
Proof. intros Hj. unfold u8. by rewrite Z.mod_pow2_bits_low by lia. Qed.

Lemma set_page_bit_ok o p k P s : wf_cfg (cfg s) -> 0 <= o -> o mod 2 = 0 -> o <= p < o + 2 * psz (cfg s) -> p < 65536 -> 0 <= k < 3 ->
  marks o P s ->
  wp (set_page_bit o p k) (fun _ s' => s' = set_work (work s') s /\ marks o (fun x j => P x j \/ (x = p /\ j = k)) s') s.
Proof.
  intros Hwf Ho He Hp Hlt Hk [Hl Hb]. pose proof (wf_psz _ Hwf).
  unfold set_page_bit. wp_step. split; [done|]. cbv zeta. destruct (bit_index o p k) as [H1 H2]; [lia..|]. rewrite H1, H2.
  set (d := 4 * (p - o) + k) in *. unfold marks. cbn [work cfg set_work].
  assert (Hd : 0 <= d / 8 < zlen (work s)) by (unfold d; Z.to_euclidean_division_equations; lia).
  split; [by rewrite zlen_zset|]. intros x j Hx Hj. unfold bit_at.
  assert (Hxj : 0 <= (4 * (x - o) + j) / 8) by (Z.to_euclidean_division_equations; lia).
  pose proof (Z.mod_pos_bound d 8 ltac:(lia)). pose proof (Z.mod_pos_bound (4 * (x - o) + j) 8 ltac:(lia)).
  rewrite zget_zset by done. specialize (Hb x j Hx Hj). unfold bit_at in Hb. destruct (d / 8 =? (4 * (x - o) + j) / 8) eqn:E; bools.
  - rewrite u8_low by done. fold (Z.setbit (zget (work s) (d / 8)) (d mod 8)). rewrite Z.setbit_eqb by lia. rewrite E, orb_true_iff, Hb, Z.eqb_eq.
    enough (d mod 8 = (4 * (x - o) + j) mod 8 <-> x = p /\ j = k) by tauto.
    clear Hb. unfold d in *. split; [|by intros [-> ->]]. intros Hm. Z.to_euclidean_division_equations. lia.
  - rewrite Hb. split; [by left|]. intros [HP|[-> ->]]; [done|]. by destruct E.
Qed.

(** ** Marking *)

Section mark.
Context (s0 : spiffs F) (o : Z).
Abbreviation c := (cfg s0).
Abbreviation v := (view s0).
Abbreviation n := (blocks c * lue c).
Hypothesis Hwf : wf_cfg c.
Hypothesis Hfits : scan_fits c.
Hypothesis Hrefs : consistent_refs c v.
Hypothesis Ho : 0 <= o < pages c.
Hypothesis He : o mod 2 = 0.

(** Only cache and work buffers have changed since [s0]. *)
Definition scan_st (T : Z) s : Prop := work_frame s0 s /\ fs_ok T s.

Lemma scan_st_cfg T s : scan_st T s -> cfg s = c /\ view s = v.
Proof. intros [Hf _]. by rewrite Hf. Qed.

Lemma scan_st_cache T T' s s' : scan_st T s -> cache_frame s s' -> fs_ok T' s' -> scan_st T' s'.
Proof. intros [Hf _] Hc Hok. split; [|done]. unfold work_frame in *. rewrite Hc, Hf. done. Qed.

Lemma scan_st_work T s w : scan_st T s -> scan_st T (set_work w s).
Proof. intros [Hf Hok]. split; [unfold work_frame in *; rewrite Hf; done|]. eapply fs_okx_same; [exact Hok|done..]. Qed.

Lemma scan_st_weaken T T' s : scan_st T s -> 0 <= T' <= T -> scan_st T' s.
Proof. intros [Hf Hok] HT. split; [done|]. eapply fs_okx_weaken; [exact Hok|lia]. Qed.

Lemma in_range_spec p : in_scan_range c o p = true <-> o <= p < o + 2 * psz c.
Proof using Hwf Hfits. unfold in_scan_range. rewrite pages_per_scan_eq by done. rewrite andb_true_iff, Z.leb_le, Z.ltb_lt. lia. Qed.

Lemma none_not_in_range : in_scan_range c o IX_NONE = false.
Proof using Hwf Hfits Ho.
  destruct (in_scan_range c o IX_NONE) eqn:E; [|done]. apply in_range_spec in E. unfold IX_NONE, scan_fits in *. lia.
Qed.

(** Reading a header during the scan. *)
Lemma scan_rd_header T s p : scan_st T s -> 1 <= T -> 0 <= p < pages c ->
  wp (rd_page_header (Z.lor SPIFFS_OP_T_OBJ_LU2 SPIFFS_OP_C_READ) 0 (paddr c p)) (fun r s' =>
    r = (SPIFFS_OK, ph_at c v p) /\ cache_frame s s' /\ scan_st (T - 1) s') s.
Proof.
  intros Hst HT Hp. destruct (scan_st_cfg T s Hst) as [Hc Hv]. destruct Hst as [Hf Hok]. rewrite <- Hc, <- Hv.
  wp_apply rd_page_header_ok; [done|done|by rewrite Hc|]. intros r s' (-> & Hcf & Hok'). split; [done|]. split; [done|].
  by apply (scan_st_cache T _ s).
Qed.

Lemma scan_set_bit T s p k P : scan_st T s -> o <= p < o + 2 * psz c -> 0 <= p < pages c -> 0 <= k < 3 -> marks o P s ->
  wp (set_page_bit o p k) (fun _ s' => lu_work s' = lu_work s /\ scan_st T s' /\ marks o (fun x j => P x j \/ (x = p /\ j = k)) s') s.
Proof using Hwf Ho He.
  intros Hst Hp Hpg Hk Hm. destruct (scan_st_cfg T s Hst) as [Hc _]. pose proof (wf_pages_lt c Hwf).
  wp_apply (set_page_bit_ok o p k P s); [by rewrite Hc|lia|done|by rewrite Hc|lia|done|done|].
  intros _ s' [Hs Hm']. split; [by rewrite Hs|]. split; [|done]. rewrite Hs. by apply scan_st_work.
Qed.

(** The bits after [i] references of page [p]. *)
Definition with_refs (P : Z -> Z -> Prop) (p i x k : Z) : Prop := P x k \/ (k = 1 /\ x ∈ refs_n c v p i).

(** One reference. *)
Lemma page_ref_ok T s p i P : scan_st T s -> 1 <= T -> live_ix_page c v p = true -> 0 <= p < pages c ->
  0 <= i < ref_count c v p -> ref_ok c v p i = true -> lu_work s = vread v (paddr c p) (psz c) ->
  (forall x, P x 1 -> ref_at c v p i <> x) -> ref_at c v p i ∉ refs_n c v p i \/ ref_at c v p i = IX_NONE -> marks o (with_refs P p i) s ->
  let t := index_table c (ph_span_ix (ph_at c v p)) in
  wp (page_ref_body o p (ph_at c v p) t.1.1 t.1.2 t.2 (i, false)) (fun r s' =>
    r = Next (i + 1, false) /\ lu_work s' = lu_work s /\ scan_st (T - 1) s' /\ marks o (with_refs P p (i + 1)) s') s.
Proof using Hwf Hfits Ho He.
  intros Hst HT Hlive Hp Hi Hr Hlu HP Hnew Hm t. destruct (scan_st_cfg T s Hst) as [Hc Hv].
  pose proof (index_table_fits c (ph_span_ix (ph_at c v p)) Hwf) as (_ & Ht0 & Ht). fold t in Ht0, Ht. change (ref_count c v p) with t.1.1 in Hi.
  assert (Href : dec16 (slice (lu_work s) (t.2 + i * sizeof_page_ix) sizeof_page_ix) = ref_at c v p i).
  { rewrite Hlu. unfold sizeof_page_ix. rewrite slice_vread by lia. unfold ref_at. fold t. do 2 f_equal. lia. }
  assert (Hskip : (forall x, in_scan_range c o x = true -> ref_at c v p i <> IX_NONE -> x <> ref_at c v p i) ->
    scan_st (T - 1) s /\ marks o (with_refs P p (i + 1)) s).
  { intros Hx. split; [eapply scan_st_weaken; [exact Hst|lia]|]. destruct Hm as [Hl Hb]. split; [done|]. intros x k Hxr Hk.
    rewrite (Hb x k Hxr Hk). unfold with_refs. rewrite refs_n_snoc by lia. rewrite Hc in Hxr. apply in_range_spec in Hxr.
    destruct (_ =? IX_NONE) eqn:E; [by rewrite app_nil_r|]. bools. rewrite elem_of_app, list_elem_of_singleton. specialize (Hx x Hxr E). tauto. }
  unfold page_ref_body. wp_step. wp_step. rewrite Hc. cbn [negb andb]. rewrite (proj2 (Z.ltb_lt i t.1.1)) by lia.
  wp_step. wp_step. rewrite Href. set (r := ref_at c v p i) in *. cbv zeta. unfold ref_ok in Hr. fold r in Hr.
  destruct (r =? IX_NONE) eqn:En; bools.
  { rewrite En, none_not_in_range. cbn [andb orb negb]. wp_step. destruct Hskip as [? ?]; done. }
  destruct Hnew as [Hnew|]; [|done]. destruct (r <? pages c) eqn:Erp; [|done]. apply andb_true_iff in Hr as [Hnl Hdp]. bools.
  rewrite (proj2 (Z.ltb_ge (pages c) r)), Hnl, andb_false_r by lia. cbn [andb orb negb].
  destruct (in_scan_range c o r) eqn:Er; cbn [andb]; cbv iota.
  2: { wp_step. destruct Hskip as [? ?]; [|done]. intros x Hx _ ->. congruence. }
  assert (Hr0 : 0 <= r).
  { apply in_range_spec in Er. lia. }
  wp_step. wp_apply (scan_rd_header T s r Hst HT); [lia|]. intros x s1 (-> & Hcf & Hst1). ok_res.
  change (t.1.2 + i) with (ref_span c v p i). rewrite Hdp. cbn [negb]. wp_step. wp_step.
  assert (Hm1 : marks o (with_refs P p i) s1) by (unfold marks in *; rewrite Hcf; done).
  destruct (scan_st_cfg _ _ Hst1) as [Hc1 _]. apply in_range_spec in Er as Er'. pose proof (wf_pages_lt c Hwf).
  assert (Hbit : page_bit o r 1 s1 = false).
  { rewrite page_bit_eq by (done || lia). destruct (bit_at _ _) eqn:Eb; [|done]. exfalso.
    apply Hm1 in Eb; [|by rewrite Hc1|lia]. destruct Eb as [HPr|[_ Hin]]; [|done]. by apply (HP r). }
  rewrite Hbit. wp_step. wp_step. ok_res. wp_step. wp_apply (scan_set_bit (T - 1) s1 r 1); [done|done|lia|lia|exact Hm1|].
  intros _ s2 (Hl2 & Hst2 & Hm2). wp_step. split; [done|]. split; [rewrite Hl2; by rewrite Hcf|]. split; [done|].
  eapply marks_iff; [|exact Hm2]. intros x k. unfold with_refs. rewrite refs_n_snoc by lia. fold r.
  rewrite (proj2 (Z.eqb_neq r IX_NONE)) by done. rewrite elem_of_app, list_elem_of_singleton. tauto.
Qed.

Lemma page_refs_loop_ok T s q P : scan_st T s -> 0 <= q < n -> live_ix_page c v (pix_at c q) = true ->
  0 <= pix_at c q < pages c -> lu_work s = vread v (paddr c (pix_at c q)) (psz c) ->
  (forall x, P x 1 -> x ∈ refs_upto c v q) -> marks o P s -> ref_count c v (pix_at c q) <= T ->
  let p := pix_at c q in let t := index_table c (ph_span_ix (ph_at c v p)) in
  wp (loop (Z.to_nat t.1.1 + 1) (page_ref_body o p (ph_at c v p) t.1.1 t.1.2 t.2) (0, false)) (fun r s' =>
    r = inl (t.1.1, false) /\ scan_st (T - t.1.1) s' /\ marks o (with_refs P p t.1.1) s') s.
Proof using Hwf Hfits Hrefs Ho He.
  intros Hst Hq Hlive Hp Hlu HP Hm HT p t. change (ref_count c v (pix_at c q)) with t.1.1 in HT.
  pose proof (index_table_fits c (ph_span_ix (ph_at c v p)) Hwf) as (Hcnt & _). fold t in Hcnt.
  assert (Hnd : NoDup (refs_upto c v q ++ refs_n c v p t.1.1)).
  { destruct (refs_upto_mono c v (q + 1) n) as [l Hl]; [lia|]. pose proof (cr_nodup _ _ Hrefs) as Hd. rewrite Hl in Hd.
    apply list.NoDup_app in Hd as (Hd & _). rewrite refs_upto_snoc in Hd by lia. unfold page_refs in Hd. by rewrite Hlive in Hd. }
  apply wp_loop_ix with (n := Z.to_nat t.1.1)
    (I := fun m '(i, restart) s1 => m = Z.to_nat (t.1.1 - i) /\ 0 <= i <= t.1.1 /\ restart = false /\ lu_work s1 = vread v (paddr c p) (psz c) /\
       scan_st (T - i) s1 /\ marks o (with_refs P p i) s1); [|lia|].
  - intros m [i restart] s1 (-> & Hi & -> & Hl1 & Hst1 & Hm1). destruct (decide (i = t.1.1)) as [->|].
    { unfold page_ref_body. wp_step. wp_step. cbn [negb andb]. rewrite Z.ltb_irrefl. wp_step. done. }
    assert (Hnew : ref_at c v p i <> IX_NONE -> ~ (ref_at c v p i ∈ refs_upto c v q) /\ ~ (ref_at c v p i ∈ refs_n c v p i)).
    { intros Hn. destruct (refs_n_split c v p i t.1.1 ltac:(lia) Hn) as [l Hl]. rewrite Hl, app_assoc in Hnd.
      apply list.NoDup_app in Hnd as (_ & Hdis & _). split; intros Hin; eapply Hdis; [| left| |left]; rewrite elem_of_app; auto. }
    wp_apply (page_ref_ok (T - i) s1 p i P); [done|lia|done|done|change (ref_count c v p) with t.1.1; lia| |done| | |done|].
    + apply (cr_ok _ _ Hrefs q i Hq Hlive). change (ref_count c v (pix_at c q)) with t.1.1. lia.
    + intros x HPx Hx. apply HP in HPx. destruct (decide (ref_at c v p i = IX_NONE)) as [Hn|Hn].
      * rewrite Hn in Hx. subst x. by apply none_not_in_refs in HPx.
      * apply (proj1 (Hnew Hn)). by rewrite Hx.
    + destruct (decide (ref_at c v p i = IX_NONE)) as [Hn|Hn]; [by right|left; by apply Hnew].
    + intros r s2 (-> & Hl2 & Hst2 & Hm2). exists (Z.to_nat (t.1.1 - (i + 1))). split; [lia|]. split; [done|]. split; [lia|]. split; [done|].
      split; [by rewrite Hl2|]. split; [|done]. by replace (T - (i + 1)) with (T - i - 1) by lia.
  - split; [f_equal; lia|]. split; [lia|]. split; [done|]. split; [done|]. rewrite Z.sub_0_r. split; [done|].
    eapply marks_iff; [|exact Hm]. intros x k. unfold with_refs, refs_n. cbn. split; [by left|]. intros [?|[_ Hx]]; [done|]. by apply not_elem_of_nil in Hx.
Qed.

(** The bits after the pages of the first [q] entries. *)
Definition marked (q p k : Z) : Prop :=
  (k = 0 /\ used_page c v p = true /\ exists q', 0 <= q' < q /\ p = pix_at c q') \/
  (k = 2 /\ live_ix_page c v p = true /\ exists q', 0 <= q' < q /\ p = pix_at c q') \/
  (k = 1 /\ p ∈ refs_upto c v q).

Lemma marked_next q p k : 0 <= q -> marked (q + 1) p k <->
  marked q p k \/ (p = pix_at c q /\ ((k = 0 /\ used_page c v p = true) \/ (k = 2 /\ live_ix_page c v p = true)))
  \/ (k = 1 /\ p ∈ page_refs c v (pix_at c q)).
Proof.
  intros Hq. unfold marked. rewrite refs_upto_snoc, elem_of_app by done.
  assert (Hex : (exists q', 0 <= q' < q + 1 /\ p = pix_at c q') <-> (exists q', 0 <= q' < q /\ p = pix_at c q') \/ p = pix_at c q).
  { split.
    - intros (q' & Hq' & ->). destruct (decide (q' = q)) as [->|]; [by right|]. left. exists q'. split; [lia|done].
    - intros [(q' & ? & ->)| ->]; [exists q'|exists q]; (split; [lia|done]). }
  rewrite Hex. tauto.
Qed.

(** Accesses for one page. *)
Definition page_cost : Z := 2 + psz c / 2.

Lemma mark_page_ok T s q : scan_st T s -> page_cost <= T -> 0 <= q < n -> marks o (marked q) s ->
  wp (mark_page o (pix_at c q)) (fun r s' => r = inl false /\ scan_st (T - page_cost) s' /\ marks o (marked (q + 1)) s') s.
Proof using Hwf Hfits Hrefs Ho He.
  intros Hst HT Hq Hm. set (p := pix_at c q). unfold page_cost in *. pose proof (wf_psz c Hwf). pose proof (Z.div_pos (psz c) 2 ltac:(lia) ltac:(lia)).
  assert (Hp : 0 <= p < pages c) by (apply entry_pix_range; [done|by apply blk_range|by apply ent_range]).
  destruct (scan_st_cfg T s Hst) as [Hc _]. unfold mark_page. wp_step. wp_step. rewrite Hc. wp_step.
  wp_apply (scan_rd_header T s p Hst); [lia|done|]. intros r s1 (-> & Hcf & Hst1). ok_res.
  assert (Hm1 : marks o (marked q) s1) by (unfold marks in *; rewrite Hcf; done).
  fold (used_page c v p) (live_ix_page c v p).
  (* the bit of a page in use *)
  set (P1 := fun x k => marked q x k \/ (x = p /\ k = 0 /\ used_page c v p = true)).
  wp_step. apply (wp_mono _ (fun _ s' => scan_st (T - 1) s' /\ marks o P1 s')).
  { destruct (in_scan_range c o p) eqn:Er; cbn [andb]; [destruct (used_page c v p) eqn:Eu|]; cbv iota.
    - apply in_range_spec in Er. wp_apply (scan_set_bit (T - 1) s1 p 0); [done|done|done|lia|exact Hm1|].
      intros _ s2 (_ & Hst2 & Hm2). split; [done|]. eapply marks_iff; [|exact Hm2]. intros x k. unfold P1. tauto.
    - wp_step. split; [done|]. eapply marks_iff; [|exact Hm1]. intros x k. unfold P1. intuition congruence.
    - wp_step. split; [done|]. destruct Hm1 as [Hl Hb]. split; [done|]. intros x k Hx Hk. rewrite (Hb x k Hx Hk). unfold P1.
      destruct (scan_st_cfg _ _ Hst1) as [Hc1 _]. rewrite Hc1 in Hx. apply in_range_spec in Hx. intuition congruence. }
  intros _ s2 [Hst2 Hm2]. destruct (live_ix_page c v p) eqn:El; cbv iota.
  2: { wp_step. split; [done|]. split; [eapply scan_st_weaken; [exact Hst2|lia]|]. eapply marks_iff; [|exact Hm2].
    intros x k. rewrite marked_next by lia. unfold page_refs. fold p. rewrite El. unfold P1. rewrite elem_of_nil.
    split; [|intros [?|[(-> & [?|[_ ?]])|[_ []]]]; [by left|right; tauto|congruence]].
    intros [?|(-> & -> & ?)]; [by left|right; left; auto]. }
  set (P2 := fun x k => P1 x k \/ (x = p /\ k = 2)).
  wp_step. apply (wp_mono _ (fun _ s' => scan_st (T - 1) s' /\ marks o P2 s')).
  { destruct (in_scan_range c o p) eqn:Er.
    - apply in_range_spec in Er. wp_apply (scan_set_bit (T - 1) s2 p 2); [done|done|done|lia|exact Hm2|].
      intros _ s3 (_ & Hst3 & Hm3). split; [done|]. eapply marks_iff; [|exact Hm3]. intros x k. unfold P2. tauto.
    - wp_step. split; [done|]. destruct Hm2 as [Hl Hb]. split; [done|]. intros x k Hx Hk. rewrite (Hb x k Hx Hk). unfold P2.
      destruct (scan_st_cfg _ _ Hst2) as [Hc2 _]. rewrite Hc2 in Hx. apply in_range_spec in Hx. intuition congruence. }
  intros _ s3 [Hst3 Hm3]. destruct (scan_st_cfg _ _ Hst3) as [Hc3 Hv3].
  unfold rd_page_lu_work. wp_step. wp_step. wp_step. rewrite Hc3. wp_step.
  wp_apply (phys_rd_ok (T - 1) s3); [apply Hst3|lia|rewrite Hc3; apply in_page_start; [done|done|lia]|].
  intros r s4 (-> & Hcf4 & Hok4). wp_step. wp_step. wp_step. ok_res. rewrite Hv3.
  set (s5 := set_lu_work _ s4). pose proof (index_table_fits c (ph_span_ix (ph_at c v p)) Hwf) as (Hcnt & _).
  assert (Hst5 : scan_st (T - 2) s5).
  { split; [destruct Hst3 as [Hf _]; unfold work_frame, s5 in *; rewrite Hcf4, Hf; done|]. replace (T - 2) with (T - 1 - 1) by lia.
    eapply fs_okx_same; [exact Hok4|done..]. }
  assert (Hm5 : marks o P2 s5) by (unfold marks in *; unfold s5; rewrite Hcf4; done).
  pose proof (page_refs_loop_ok (T - 2) s5 q P2 Hst5 Hq El Hp eq_refl) as Hloop. cbv zeta in Hloop. fold p in Hloop.
  destruct (index_table c (ph_span_ix (ph_at c v p))) as [[cnt off] toff] eqn:Et. cbn [fst snd] in *.
  wp_step. wp_apply Hloop; [|done|unfold ref_count; rewrite Et; cbn; lia|].
  { intros x [[Hx|(_ & ? & _)]|[_ ?]]; [|done|done]. destruct Hx as [[? _]|[[? _]|[_ ?]]]; done. }
  intros r s6 (-> & Hst6 & Hm6). wp_step. split; [done|]. split; [eapply scan_st_weaken; [exact Hst6|lia]|].
  eapply marks_iff; [|exact Hm6]. intros x k. rewrite marked_next by lia. unfold page_refs, with_refs, P2, P1. fold p. rewrite El.
  unfold ref_count. rewrite Et. cbn [fst]. split.
  - intros [[[?|(-> & -> & ?)]|[-> ->]]|[-> ?]]; auto 10.
  - intros [?|[(-> & [[-> ?]|[-> _]])|[-> ?]]]; auto 10.
Qed.

Lemma entry_pos b e : 0 <= b < blocks c -> 0 <= e < lue c -> 0 <= b * lue c + e < n /\ pix_at c (b * lue c + e) = entry_pix c b e.
Proof using Hwf.
  intros Hb Hee. pose proof (lue_range c Hwf). split; [nia|]. unfold pix_at. destruct (pos_split c Hwf b e Hee) as [E1 E2]. unfold pos in E1, E2.
  rewrite E1, E2. unfold wrap_block. by rewrite (proj2 (Z.ltb_lt _ _)) by lia.
Qed.

(** All pages of block [b]. *)
Lemma mark_block_loop_ok T s b : scan_st T s -> lue c * page_cost <= T -> 0 <= b < blocks c -> marks o (marked (b * lue c)) s ->
  wp (loop (Z.to_nat (ppb c) + 1) (mark_page_body o b) (u16 (lup c + ppb c * b), false)) (fun r s' =>
    exists x, r = inl (x, false) /\ scan_st (T - lue c * page_cost) s' /\ marks o (marked ((b + 1) * lue c)) s') s.
Proof using Hwf Hfits Hrefs Ho He.
  intros Hst HT Hb Hm. pose proof (lue_range c Hwf). pose proof (lue_eq c Hwf). pose proof (wf_pages_lt c Hwf). pose proof (wf_pages c Hwf).
  pose proof (wf_lup c Hwf). pose proof (wf_psz c Hwf). assert (Hend : ppb c * (b + 1) <= pages c) by nia.
  assert (Hcost : 2 <= page_cost) by (unfold page_cost; pose proof (Z.div_pos (psz c) 2 ltac:(lia) ltac:(lia)); lia).
  assert (Hstart : u16 (lup c + ppb c * b) = entry_pix c b 0) by (unfold entry_pix; rewrite u16_small by nia; lia). rewrite Hstart.
  apply wp_loop_ix with (n := Z.to_nat (lue c))
    (I := fun m '(x, restart) s1 => exists e, m = Z.to_nat (lue c - e) /\ 0 <= e <= lue c /\ x = entry_pix c b e /\ restart = false /\
       scan_st (T - e * page_cost) s1 /\ marks o (marked (b * lue c + e)) s1); [|lia|].
  - intros m [x restart] s1 (e & -> & Hee & -> & -> & Hst1 & Hm1). destruct (scan_st_cfg _ _ Hst1) as [Hc1 _].
    unfold mark_page_body. wp_step. wp_step. rewrite Hc1. cbn [negb andb]. rewrite u32_small by nia. unfold entry_pix at 1. wp_step.
    + assert (Hlt : e < lue c) by lia. destruct (entry_pos b e Hb ltac:(lia)) as [Hq Hpix]. wp_step. rewrite <- Hpix.
      wp_apply (mark_page_ok (T - e * page_cost) s1); [done|nia|done|done|]. intros r s2 (-> & Hst2 & Hm2). wp_step.
      exists (Z.to_nat (lue c - (e + 1))). split; [lia|]. exists (e + 1). split; [done|]. split; [lia|].
      split; [rewrite Hpix; unfold entry_pix; rewrite u16_small by nia; lia|]. split; [done|].
      split; [by replace (T - (e + 1) * page_cost) with (T - e * page_cost - page_cost) by lia|]. by rewrite Z.add_assoc.
    + assert (e = lue c) as -> by lia. wp_step. eexists. split; [done|]. split; [done|].
      by replace ((b + 1) * lue c) with (b * lue c + lue c) by lia.
  - exists 0. split; [f_equal; lia|]. split; [lia|]. split; [done|]. split; [done|]. split; [by rewrite Z.sub_0_r|by rewrite Z.add_0_r].
Qed.

Lemma mark_loop_ok T s : scan_st T s -> n * page_cost <= T -> marks o (marked 0) s ->
  wp (loop (Z.to_nat (blocks c) + 1) (mark_block_body o) (0, false)) (fun r s' =>
    exists x, r = inl (x, false) /\ scan_st (T - n * page_cost) s' /\ marks o (marked n) s') s.
Proof using Hwf Hfits Hrefs Ho He.
  intros Hst HT Hm. pose proof (wf_blocks c Hwf). pose proof (wf_pages_lt c Hwf). pose proof (wf_pages c Hwf). pose proof (ppb_pos c Hwf).
  pose proof (lue_range c Hwf). pose proof (wf_psz c Hwf).
  assert (Hcost : 2 <= page_cost) by (unfold page_cost; pose proof (Z.div_pos (psz c) 2 ltac:(lia) ltac:(lia)); lia).
  apply wp_loop_ix with (n := Z.to_nat (blocks c))
    (I := fun m '(b, restart) s1 => m = Z.to_nat (blocks c - b) /\ 0 <= b <= blocks c /\ restart = false /\
       scan_st (T - b * lue c * page_cost) s1 /\ marks o (marked (b * lue c)) s1); [|lia|].
  - intros m [b restart] s1 (-> & Hb & -> & Hst1 & Hm1). destruct (scan_st_cfg _ _ Hst1) as [Hc1 _].
    unfold mark_block_body. wp_step. wp_step. wp_step. wp_step. rewrite (fs_ok_bc _ _ (proj2 Hst1)), Hc1. cbn [negb andb]. wp_step.
    + assert (Hbc : b * lue c + lue c <= n) by nia. wp_step.
      wp_apply (mark_block_loop_ok (T - b * lue c * page_cost) s1); [done| |lia|done|].
      { assert ((b * lue c + lue c) * page_cost <= n * page_cost) by (apply Z.mul_le_mono_nonneg_r; lia). lia. }
      intros r s2 (x & -> & Hst2 & Hm2). wp_step. exists (Z.to_nat (blocks c - (b + 1))). split; [lia|]. rewrite u16_small by nia.
      split; [done|]. split; [lia|]. split; [done|]. split; [|done].
      by replace (T - (b + 1) * lue c * page_cost) with (T - b * lue c * page_cost - lue c * page_cost) by lia.
    + assert (b = blocks c) as -> by lia. wp_step. eexists. done.
  - split; [f_equal; lia|]. split; [lia|]. split; [done|]. by rewrite !Z.mul_0_l, Z.sub_0_r.
Qed.

(** ** The bitmap *)

Lemma bitmap_ok s i j : marks o (marked n) s -> cfg s = c -> 0 <= i < psz c -> 0 <= j < 2 ->
  Z.land (Z.shiftr (zget (work s) i) (j * 4)) 7 <> 1.
Proof using Hwf Hrefs Ho.
  intros [_ Hb] Hc Hi Hj H1. set (p := o + 2 * i + j).
  assert (Hbit : forall k, 0 <= k < 3 -> Z.testbit 1 k = bit_at (work s) (4 * (p - o) + k)).
  { intros k Hk. rewrite <- H1, Z.land_spec. change 7 with (Z.ones 3). rewrite Z.ones_spec_low, andb_true_r, Z.shiftr_spec by lia.
    unfold bit_at, p. f_equal; [f_equal|]; Z.to_euclidean_division_equations; lia. }
  assert (Hr : o <= p < o + 2 * psz (cfg s)) by (rewrite Hc; unfold p; lia).
  assert (Hm0 : marked n p 0) by (apply Hb; [done|lia|by rewrite <- Hbit by lia]).
  assert (Hm1 : ~ marked n p 1) by (intros Hm; apply Hb in Hm; [|done|lia]; by rewrite <- Hbit in Hm by lia).
  assert (Hm2 : ~ marked n p 2) by (intros Hm; apply Hb in Hm; [|done|lia]; by rewrite <- Hbit in Hm by lia).
  destruct Hm0 as [(_ & Hu & q & Hq & Hp)|[[? _]|[? _]]]; [|done|done]. rewrite Hp in *.
  destruct (cr_used _ _ Hrefs q Hq Hu) as [Hl|Hin].
  - apply Hm2. right. left. split; [done|]. split; [done|]. by exists q.
  - apply Hm1. right. right. done.
Qed.

Lemma bitmap_loop_ok T s : scan_st T s -> marks o (marked n) s ->
  wp (loop (Z.to_nat (psz c) + 1) (bitmap_byte_body o) (0, false)) (fun r s' => exists x, r = inl (x, false) /\ s' = s) s.
Proof using Hwf Hrefs Ho.
  intros Hst Hm. destruct (scan_st_cfg _ _ Hst) as [Hc _]. pose proof (wf_psz c Hwf).
  apply wp_loop_ix with (n := Z.to_nat (psz c))
    (I := fun m '(i, restart) s1 => m = Z.to_nat (psz c - i) /\ 0 <= i <= psz c /\ restart = false /\ s1 = s); [|lia|].
  - intros m [i restart] s1 (-> & Hi & -> & ->). unfold bitmap_byte_body. wp_step. wp_step. rewrite Hc. cbn [negb andb]. wp_step; [|wp_step; by eexists].
    wp_step. apply (wp_mono _ (fun r s' => exists x, r = inl (x, false) /\ s' = s)).
    + apply wp_loop_ix with (n := 2%nat)
        (I := fun m '(j, restart) s1 => m = Z.to_nat (2 - j) /\ 0 <= j <= 2 /\ restart = false /\ s1 = s); [|lia|done].
      intros m [j restart] s1 (-> & Hj & -> & ->). unfold bitmap_bit_body. cbn [negb andb]. wp_step; [|wp_step; by eexists].
      wp_step. wp_step. cbv zeta. rewrite (proj2 (Z.eqb_neq _ _) (bitmap_ok s i j Hm Hc ltac:(lia) ltac:(lia))). wp_step.
      exists (Z.to_nat (2 - (j + 1))). split; [lia|]. split; [done|]. split; [lia|done].
    + intros r s1 (x & -> & ->). wp_step. exists (Z.to_nat (psz c - (i + 1))). split; [lia|]. split; [done|]. split; [lia|done].
  - split; [f_equal; lia|]. split; [lia|done].
Qed.

Lemma marks_empty s : cfg s = c -> marks o (marked 0) (set_work (replicate (Z.to_nat (psz c)) 0) s).
Proof using Hwf Ho He.
  intros Hc. pose proof (wf_psz c Hwf). split; [cbn; unfold zlen; rewrite length_replicate, Hc; lia|]. intros p k Hp Hk. cbn [work set_work].
  cbn [cfg set_work] in Hp. rewrite Hc in Hp. unfold bit_at.
  assert (Hz : forall i, 0 <= i < psz c -> zget (replicate (Z.to_nat (psz c)) 0) i = 0).
  { intros i Hi. unfold zget. apply list_lookup_total_correct, lookup_replicate. split; [done|lia]. }
  rewrite Hz by (Z.to_euclidean_division_equations; lia). rewrite Z.bits_0. split; [done|].
  intros [(_ & _ & q & ? & _)|[(_ & _ & q & ? & _)|[_ Hin]]]; [lia|lia|]. by apply not_elem_of_nil in Hin.
Qed.

Lemma scan_page_range_ok T s : scan_st T s -> n * page_cost <= T ->
  wp (scan_page_range o) (fun r s' => r = inl false /\ scan_st (T - n * page_cost) s') s.
Proof using Hwf Hfits Hrefs Ho He.
  intros Hst HT. destruct (scan_st_cfg _ _ Hst) as [Hc _]. unfold scan_page_range. wp_step. wp_step. wp_step. wp_step. wp_step. wp_step. wp_step.
  rewrite (fs_ok_bc _ _ (proj2 Hst)), Hc. wp_apply (mark_loop_ok T); [by apply scan_st_work|done|by apply marks_empty|].
  intros r s1 (x & -> & Hst1 & Hm1). wp_step. wp_apply (bitmap_loop_ok _ s1 Hst1 Hm1). intros r s2 (y & -> & ->). wp_step. done.
Qed.
End mark.

(** Ranges of pages that are scanned. *)
Definition scan_ranges (c : spiffs_config) : Z := (pages c + 2 * psz c - 1) / (2 * psz c).
Definition page_check_ticks (c : spiffs_config) : Z := scan_ranges c * (blocks c * lue c * (2 + psz c / 2)).

Lemma page_check_consistent T s fuel : fs_ok T s -> scan_fits (cfg s) -> consistent_refs (cfg s) (view s) -> page_check_ticks (cfg s) <= T ->
  scan_ranges (cfg s) < Z.of_nat fuel ->
  wp (spiffs_page_consistency_check fuel) (fun r s' => r = SPIFFS_OK /\ work_frame s s' /\ fs_ok (T - page_check_ticks (cfg s)) s') s.
Proof.
  intros Hok Hfits Hrefs HT Hfuel. pose proof (fs_ok_wf _ _ Hok) as Hwf. set (c := cfg s) in *. pose proof (wf_psz c Hwf). pose proof (wf_pages_lt c Hwf).
  pose proof (wf_pages c Hwf) as Hpg. pose proof (wf_blocks c Hwf). pose proof (ppb_pos c Hwf). pose proof (lue_range c Hwf).
  set (cost := blocks c * lue c * (2 + psz c / 2)) in *. unfold page_check_ticks in *. fold cost in HT |- *.
  assert (Hc0 : 0 <= cost) by (unfold cost; pose proof (Z.div_pos (psz c) 2 ltac:(lia) ltac:(lia)); nia).
  assert (Hsr : 2 * psz c * (scan_ranges c - 1) < pages c <= 2 * psz c * scan_ranges c).
  { unfold scan_ranges. pose proof (Z.div_mod (pages c + 2 * psz c - 1) (2 * psz c) ltac:(lia)) as Hd.
    pose proof (Z.mod_pos_bound (pages c + 2 * psz c - 1) (2 * psz c) ltac:(lia)). lia. }
  assert (Hs0 : 0 <= scan_ranges c) by nia.
  assert (Hst0 : scan_st s T s) by (split; [by destruct s|done]).
  unfold spiffs_page_consistency_check, spiffs_page_consistency_check_i. wp_step.
  apply (wp_mono _ (fun r s' => (exists x, r = inl x) /\ scan_st s (T - scan_ranges c * cost) s')); [|intros r s' [[x ->] [Hf Hok']]; by wp_step].
  apply wp_loop_ix with (n := Z.to_nat (scan_ranges c))
    (I := fun m o s1 => exists j, m = Z.to_nat (scan_ranges c - j) /\ 0 <= j <= scan_ranges c /\ o = 2 * psz c * j /\ scan_st s (T - j * cost) s1); [|lia|].
  - intros m o s1 (j & -> & Hj & -> & Hst1). destruct (scan_st_cfg s _ _ Hst1) as [Hc1 _]. unfold all_pages.
    wp_step. wp_step. wp_step. wp_step. rewrite (fs_ok_bc _ _ (proj2 Hst1)), Hc1. fold c. rewrite u32_small by nia. rewrite (Z.mul_comm (ppb c)), <- Hpg. wp_step.
    + assert (j < scan_ranges c) by nia. wp_step.
      wp_apply (scan_page_range_ok s (2 * psz c * j) Hwf Hfits Hrefs); [split; [nia|done]| |exact Hst1| |].
      { rewrite <- Z.mul_assoc, Z.mul_comm. apply Z_mod_mult. }
      { unfold page_cost. fold c. fold cost. nia. }
      intros r s2 (-> & Hst2). wp_step. exists (Z.to_nat (scan_ranges c - (j + 1))). split; [lia|]. exists (j + 1). split; [done|]. split; [lia|].
      rewrite pages_per_scan_eq by done. rewrite u16_small by (unfold scan_fits in Hfits; nia). split; [lia|].
      unfold page_cost in Hst2. fold c in Hst2. fold cost in Hst2. by replace (T - (j + 1) * cost) with (T - j * cost - cost) by lia.
    + assert (j = scan_ranges c) as -> by nia. wp_step. split; [by eexists|done].
  - exists 0. split; [f_equal; lia|]. split; [lia|]. split; [lia|]. by rewrite Z.mul_0_l, Z.sub_0_r.
Qed.

(** ** [SPIFFS_check] *)

(** Accesses of the whole check. *)
Definition check_ticks (c : spiffs_config) : Z := 2 * ticks c 1 + page_check_ticks c + scan_ticks c.

Lemma api_checked_pass (k : C (spiffs F) Z) Q s : guard_error s = None -> wp k Q s -> wp (api_checked k) Q s.
Proof.
  unfold guard_error, api_checked. intros H Hk. wp_step. wp_step. destruct (negb _); [done|]. wp_step. wp_step. by destruct (_ =? 0).
Qed.

Lemma check_consistent_ok T s fuel : fs_ok T s -> guard_error s = None -> check_ticks (cfg s) <= T ->
  consistent_entries (cfg s) (view s) -> consistent_refs (cfg s) (view s) -> scan_fits (cfg s) ->
  bad_blocks (cfg s) (view s) (blocks (cfg s)) = [] -> scan_ranges (cfg s) < Z.of_nat fuel ->
  wp (SPIFFS_check fuel) (fun r s' => r = SPIFFS_OK /\ fs_ok (T - check_ticks (cfg s)) s' /\
    exists s1, work_frame s s1 /\
      scanned (view s) (scan_erase_count (ec_min (cfg s) (view s) (blocks (cfg s))) (ec_max (cfg s) (view s) (blocks (cfg s)))) s1 s') s.
Proof.
  intros Hok Hg HT Hent Hrefs Hfits Hbad Hfuel. unfold check_ticks in *. pose proof (fs_ok_wf _ _ Hok) as Hwf.
  pose proof (ticks_nonneg (cfg s) 1 Hwf ltac:(lia)). pose proof (ticks_nonneg (cfg s) 0 Hwf ltac:(lia)). pose proof (wf_blocks _ Hwf).
  assert (0 <= page_check_ticks (cfg s)).
  { pose proof (wf_psz _ Hwf). pose proof (ppb_pos _ Hwf). pose proof (wf_pages _ Hwf). pose proof (lue_range _ Hwf). unfold page_check_ticks, scan_ranges.
    pose proof (Z.div_pos (pages (cfg s) + 2 * psz (cfg s) - 1) (2 * psz (cfg s)) ltac:(nia) ltac:(lia)).
    pose proof (Z.div_pos (psz (cfg s)) 2 ltac:(lia) ltac:(lia)). apply Z.mul_nonneg_nonneg; [done|]. nia. }
  unfold scan_ticks in HT.
  apply api_checked_pass; [done|]. unfold SPIFFS_check. wp_step. wp_apply (lookup_check_consistent T s); [done|lia|done|].
  intros r s1 (-> & Hf1 & Hok1). assert (Hw1 : work_frame s s1) by (unfold work_frame; by rewrite Hf1).
  assert (Hc1 : cfg s1 = cfg s) by (by rewrite Hf1). assert (Hv1 : view s1 = view s) by (by rewrite Hf1).
  wp_step. wp_apply (index_check_consistent _ s1 Hok1); [rewrite Hc1; lia|by rewrite Hc1, Hv1|].
  intros r s2 (-> & Hf2 & Hok2). assert (Hw2 : work_frame s s2) by (unfold work_frame in *; by rewrite Hf2, Hw1).
  assert (Hc2 : cfg s2 = cfg s) by (by rewrite Hf2). assert (Hv2 : view s2 = view s) by (by rewrite Hf2). rewrite Hc1 in Hok2.
  wp_step. wp_apply (page_check_consistent _ s2 fuel Hok2); [by rewrite Hc2|by rewrite Hc2, Hv2|rewrite Hc2; lia|by rewrite Hc2|].
  intros r s3 (-> & Hf3 & Hok3). assert (Hw3 : work_frame s s3) by (unfold work_frame in *; by rewrite Hf3, Hw2).
  assert (Hc3 : cfg s3 = cfg s) by (by rewrite Hf3). assert (Hv3 : view s3 = view s) by (by rewrite Hf3). rewrite Hc2 in Hok3.
  wp_apply (scan_ok _ s3 Hok3); [right; by rewrite Hc3, Hv3|rewrite Hc3; unfold scan_ticks; lia|].
  intros r s4 [Hc4 Hsc]. rewrite Hc3, Hv3, Hbad in Hsc. destruct Hsc as (-> & Hok4 & Hsc). split; [done|]. split.
  - eapply fs_okx_weaken; [exact Hok4|]. unfold scan_ticks. lia.
  - exists s3. done.
Qed.
End check.
