(* ===== verification/SpiffsStore.v ===== *)
(** Storing a new file through the public interface: [SPIFFS_open] with
    [SPIFFS_CREAT], [SPIFFS_write], [SPIFFS_lseek] and [SPIFFS_read]. *)
From S2P Require Import Prelude CSem SpiffsTypes SpiffsGeom SpiffsCache SpiffsIo SpiffsLookup SpiffsSearch SpiffsPage SpiffsFind SpiffsPageOps SpiffsIndex SpiffsGc SpiffsObject SpiffsContent SpiffsApi SpiffsRead SpiffsHandle SpiffsPreserve SpiffsOpen SpiffsSlots SpiffsCreate SpiffsAppend SpiffsWrite SpiffsIds.
From stdpp Require Import base list numbers option.

Open Scope Z_scope.

(** ** Instances of [FsInv] *)

Section instances.
Context {F : Type} {hal : SpiffsHal F}.
Implicit Types s : spiffs F.

(** The descriptor table stays well-formed. *)
#[export] Instance fd_table_inv : FsInv (F := F) fd_table_ok.
Proof.
  split.
  - intros s s' Hk (Hc & Hl & Ho). unfold keep in Hk. unfold fd_table_ok.
    assert (fds s' = fds s /\ fd_count s' = fd_count s) as [-> ->] by (by injection Hk). done.
  - intros s l [Hlen Hst] (Hc & Hl & Ho). unfold fd_table_ok, zlen in *. cbn. rewrite Hlen. split; [done|]. split; [done|].
    intros i fd' Hi. pose proof (lookup_lt_Some _ _ _ Hi) as Hlt. rewrite Hlen in Hlt.
    destruct (lookup_lt_is_Some_2 _ _ Hlt) as [fd Hfd]. destruct (Hst i fd fd' Hfd Hi) as [-> | [-> | ->]]; [by apply Ho|by left|right].
    rewrite s16_small by lia. done.
  - intros s ca ca' Hc _ H. exact H.
Qed.

#[export] Instance fd_table_inv_w : FsInvW (F := F) fd_table_ok.
Proof. split; [apply _|]. intros s ca ca' Hc _ H. exact H. Qed.

(** No written data waits in the cache. *)
Definition nothing_buffered s : Prop :=
  forall ca, cache s = Some ca -> Forall (fun cp => is_wr cp = false) (cpages ca).

#[export] Instance nothing_buffered_inv : FsInv (F := F) nothing_buffered.
Proof.
  split.
  - intros s s' Hk H ca Hca. unfold keep in Hk. injection Hk as ????????. apply H. congruence.
  - intros s l _ H. exact H.
  - intros s ca ca' Hca (_ & _ & H2) H ca2 [= <-]. specialize (H ca Hca). rewrite Forall_lookup in *. intros i cp' Hi.
    destruct (Forall2_lookup_r _ _ _ _ _ H2 Hi) as (cp & Hcp & _ & Hwr). specialize (H i cp Hcp).
    destruct (is_wr cp') eqn:E; [|done]. by rewrite Hwr in H.
Qed.

(** What a mounted file system never changes. *)
Definition volume s := (cfg s, block_count s, fd_count s, cache_size s, mounted s, config_magic s).

#[export] Instance volume_inv x : FsInvW (F := F) (fun s => volume s = x).
Proof.
  split; [split|].
  - intros s s' Hk <-. unfold keep in Hk. injection Hk as ????????. unfold volume. congruence.
  - done.
  - done.
  - done.
Qed.

Lemma nothing_buffered_fd s fd : nothing_buffered s -> fd_cache_page fd = None -> unbuffered s fd.
Proof.
  intros H Hn. split; [done|]. intros ca i cp Hca Hi _ Hw. specialize (H ca Hca). rewrite Forall_lookup in H.
  by rewrite (H i cp Hi) in Hw.
Qed.
End instances.

(** ** Opening a new file *)

Lemma empty_file_ph c v id name type sl : wf_cfg c -> empty_file c v id name type sl -> ph_at c v (slot_pix c sl) = mkPh (ix_id id) 0 248.
Proof. intros Hwf (_ & Hh & _). rewrite <- hdr_ph by done. by rewrite Hh. Qed.

Lemma empty_file_valid c v id name type sl : wf_cfg c -> 0 <= id < 65536 -> empty_file c v id name type sl ->
  SPIFFS_VALIDATE_OBJIX (ph_at c v (slot_pix c sl)) (ix_id id) 0 = None.
Proof.
  intros Hwf Hid He. rewrite (empty_file_ph _ _ _ _ _ _ Hwf He). unfold SPIFFS_VALIDATE_OBJIX. cbn [ph_flags ph_span_ix].
  fold (is_ix (ix_id id)). rewrite is_ix_id by (pose proof (ix_id_range id Hid); lia).
  rewrite (proj2 (Z.leb_le _ _)) by (pose proof (ix_id_range id Hid); lia). done.
Qed.

(** The size of the empty file has not been programmed. *)
Lemma empty_file_size c v id name type sl : (forall x, is_byte (v x)) -> empty_file c v id name type sl ->
  erased v (paddr c (slot_pix c sl) + offsetof_size) 4.
Proof.
  intros Hb (_ & Hh & _). apply (f_equal oix_size) in Hh. unfold hdr_at, dec_object_ix_header in Hh. cbn [oix_size new_header] in Hh.
  unfold offsetof_size in *. set (a := paddr c (slot_pix c sl)) in *. rewrite slice_vread in Hh by (unfold sizeof_object_ix_header; lia).
  unfold dec32, SPIFFS_UNDEFINED_LEN in Hh. rewrite !zget_vread in Hh by lia. unfold is_byte in Hb.
  pose proof (Hb (a + 8 + 0)). pose proof (Hb (a + 8 + 1)). pose proof (Hb (a + 8 + 2)). pose proof (Hb (a + 8 + 3)).
  intros x Hx. assert (x = a + 8 + 0 \/ x = a + 8 + 1 \/ x = a + 8 + 2 \/ x = a + 8 + 3) as [-> | [-> | [-> | ->]]] by lia; lia.
Qed.

(** The event of a new or updated page keeps the number and the buffer of a
    descriptor. *)
Lemma fd_event_kept ev id spix pix size fd : (ev =? SPIFFS_EV_IX_NEW) || (ev =? SPIFFS_EV_IX_UPD) = true ->
  fd_file_nbr (fd_object_event ev id spix pix size fd) = fd_file_nbr fd /\
  fd_cache_page (fd_object_event ev id spix pix size fd) = fd_cache_page fd.
Proof.
  intros He. unfold fd_object_event. rewrite He. repeat (match goal with |- context [if ?b then _ else _] => destruct b end; cbn); done.
Qed.

Section store.
Context {F : Type} {hal : SpiffsHal F} {nor : NorHal F}.
Implicit Types s : spiffs F.

(** The descriptor of the new file. *)
Definition new_fd (c : spiffs_config) (i id flags : Z) (hs : slot) (cp : option Z) : spiffs_fd :=
  mkFd (i + 1) (ix_id id) SPIFFS_UNDEFINED_LEN (slot_pix c hs) (slot_pix c hs) 0 0 0 flags cp.

(** The new file [id] in slot [hs], open as descriptor [i]. *)
Record created (T : Z) s0 (i id : Z) (name : list Z) (flags : Z) (hs : slot) (slots : list slot) (cp : option Z) s : Prop := {
  cr_cur : fs_cur T s;
  cr_fd : fds s !! Z.to_nat i = Some (new_fd (cfg s0) i id flags hs cp);
  cr_cfg : cfg s = cfg s0;
  cr_slot : slot_ok (cfg s0) hs;
  cr_file : empty_file (cfg s0) (view s) id name SPIFFS_TYPE_FILE hs;
  cr_others : others_kept (cfg s0) (view s0) (view s) id;
  cr_plan : plan_state (view s0) [hs] slots s;
  cr_blocks : free_blocks s = (if hs.2 =? 0 then u32 (free_blocks s0 - 1) else free_blocks s0);
  cr_pages : block_count s = block_count s0 /\ stats_p_allocated s = u32 (stats_p_allocated s0 + 1) /\ stats_p_deleted s = stats_p_deleted s0
}.

(** The first closed descriptor. *)
Lemma first_closed_unique l i i' fd fd' : 0 <= i -> 0 <= i' -> l !! Z.to_nat i = Some fd -> fd_file_nbr fd = 0 ->
  l !! Z.to_nat i' = Some fd' -> fd_file_nbr fd' = 0 -> (forall k, (k < Z.to_nat i)%nat -> is_open l k) ->
  (forall k, (k < Z.to_nat i')%nat -> is_open l k) -> i' = i.
Proof.
  intros Hi Hi' Hfd Hc Hfd' Hc' Ho Ho'. destruct (decide (Z.to_nat i' < Z.to_nat i)%nat) as [Hlt|].
  - destruct (Ho _ Hlt) as (f & Hf & Hne). congruence.
  - destruct (decide (Z.to_nat i < Z.to_nat i')%nat) as [Hlt|]; [|lia]. destruct (Ho' _ Hlt) as (f & Hf & Hne). congruence.
Qed.

(** Accesses [SPIFFS_open] needs at most. *)
Definition open_ticks (c : spiffs_config) : Z := 2 * ticks c 1 + ticks c 0 + 4.

(** What [find_free_obj_id] gives when an id is free. *)
Lemma free_id_some c v r j : free_id_result c v None r -> psz c < 4096 -> 1 <= j <= 8 * psz c -> ~ id_in_use c v j ->
  exists k, r = (SPIFFS_OK, k) /\ valid_id k /\ data_id k = k /\ ~ id_in_use c v k.
Proof.
  intros [[(b & e & _ & _ & H) _]|(_ & [(k & Hk & -> & Hn & _)|(_ & Hall)])] Hp Hj Hun; [done| |by destruct Hun; apply Hall].
  exists k. split; [done|]. unfold valid_id. rewrite data_id_mod, Z.mod_small by lia. split; [lia|done].
Qed.

Lemma frame_fs_cur T T' s s' : fs_cur T s -> fs_ok T' s' -> cfg s' = cfg s ->
  cursor_block_ix s' = cursor_block_ix s -> cursor_obj_lu_entry s' = cursor_obj_lu_entry s -> fs_cur T' s'.
Proof. intros (_ & Hb & He) Hok Ec Eb Ee. split; [done|]. by rewrite Ec, Eb, Ee. Qed.

Lemma open_new_ok T s junk name flags i fd hs slots j :
  fs_cur T s -> fd_table_ok s -> guard_error s = None -> open_ticks (cfg s) <= T ->
  zlen (cstr name) < SPIFFS_OBJ_NAME_LEN -> Forall is_byte name -> zlen junk = 4 -> Forall is_byte junk -> hasb flags SPIFFS_CREAT = true ->
  0 <= i -> fds s !! Z.to_nat i = Some fd -> fd_file_nbr fd = 0 -> (forall k, (k < Z.to_nat i)%nat -> is_open (fds s) k) ->
  no_entry (cfg s) (fun b e => named_entry (cfg s) (view s) name b e = true) ->
  ids_fit (cfg s) -> 1 <= j <= 8 * psz (cfg s) -> ~ id_in_use (cfg s) (view s) j ->
  plan_state (view s) [] (hs :: slots) s -> gc_fast (dps (cfg s)) s = true ->
  wp (SPIFFS_open junk name flags) (fun r s' => r = i + 1 /\ exists id, valid_id id /\ data_id id = id /\ ~ id_in_use (cfg s) (view s) id /\
    created (T - open_ticks (cfg s)) s i id name (Z.ldiff flags SPIFFS_TRUNC) hs slots (fd_cache_page fd) s') s.
Proof.
  intros Hcur Ht Hg HT Hname Hnb Hj Hjb Hcr Hi Hfd Hcl Hop Hno Hfit Hjr Hjn Hplan Hgc.
  pose proof Hcur as (Hok & Hcb & Hce). pose proof (fs_ok_wf _ _ Hok) as Hwf.
  pose proof (ticks_nonneg (cfg s) 1 Hwf ltac:(done)) as Htk1. pose proof (ticks_nonneg (cfg s) 0 Hwf ltac:(done)) as Htk0.
  unfold open_ticks in *. unfold SPIFFS_open, api_checked. unfold guard_error in Hg. wp_step. wp_step. destruct (negb (config_magic s =? _)); [done|].
  wp_step. wp_step. destruct (mounted s =? 0); [done|]. wp_step. wp_apply fd_find_new_ok; [done|].
  intros r s1 (Ht1 & [(i' & fd' & Hi' & -> & Hfd' & Hcl' & Hop' & Hs1)|(_ & _ & Hfull)]).
  2: { exfalso. destruct (Hfull (Z.to_nat i)) as (f & Hf & Hne); [by eapply lookup_lt_Some|]. rewrite Hfd in Hf. by injection Hf as <-. }
  assert (i' = i) as -> by by eapply (first_closed_unique (fds s)).
  rewrite Hfd in Hfd'. injection Hfd' as <-. ok_res.
  assert (Hcur1 : fs_cur T s1) by (rewrite Hs1; split; [by eapply fs_okx_same|done]).
  assert (Ec1 : cfg s1 = cfg s) by (by rewrite Hs1). assert (Ev1 : view s1 = view s) by (by rewrite Hs1).
  pose proof (lookup_lt_Some _ _ _ Hfd) as Hlt.
  wp_step. wp_apply find_by_name_ok; [exact Hcur1|rewrite Ec1; lia|done|]. rewrite Ec1, Ev1.
  intros r s2 (Hcur2 & [(b & e & _ & (Hb & He & Hn & _) & _)|(-> & _ & Hf2)]); [by destruct (Hno b e Hb He)|].
  rewrite Hcr. change (SPIFFS_ERR_NOT_FOUND =? SPIFFS_OK) with false. change (SPIFFS_ERR_NOT_FOUND <? SPIFFS_OK) with true.
  change (SPIFFS_ERR_NOT_FOUND =? SPIFFS_ERR_NOT_FOUND) with true. cbn [negb andb].
  assert (Hs2 : work_frame s1 s2) by (unfold work_frame; rewrite Hf2; by destruct s1).
  assert (Ec2 : cfg s2 = cfg s) by (by rewrite Hs2). assert (Ev2 : view s2 = view s) by (by rewrite Hs2).
  pose proof Hcur2 as [Hok2 _].
  wp_step. wp_apply free_obj_id_ok; [exact Hok2|rewrite Ec2; lia|by rewrite Ec2|done|]. rewrite Ec2, Ev2.
  intros r s3 (Hr & Hf3 & Hok3). destruct (free_id_some _ _ _ j Hr) as (id & -> & Hvid & Hdid & Hfresh); [apply Hfit|done|done|]. ok_res.
  assert (Hw3 : work_frame s1 s3) by (unfold work_frame in *; rewrite Hf3, Hs2; done).
  assert (Ec3 : cfg s3 = cfg s) by (by rewrite Hw3). assert (Ev3 : view s3 = view s) by (by rewrite Hw3).
  wp_step. wp_apply (create_stored_ok (T - ticks (cfg s) 1 - ticks (cfg s) 1) s3 (view s) [] hs slots);
    [exact Hok3|rewrite Ec3; lia|rewrite Ec3, Hw3, Hs1; exact Hgc| |exact Hvid|exact Hnb|done|exact Hj|exact Hjb|].
  { eapply plan_state_same; [..|exact Hplan]; by rewrite Hw3, Hs1. }
  rewrite Ec3, Ev3. intros r s4 (-> & Hok4 & Hemp & _ & Hoth & Hplan4 & s5 & Htook & Hs4). ok_res.
  pose proof Hvid as [Hid _].
  assert (Hsl : slot_ok (cfg s) hs).
  { destruct Hplan as (Hfc & Hfe & _ & _ & Hp). apply plan_free in Hp; [|done|done|done]. apply Forall_inv in Hp. apply Hp. }
  destruct Htook as (Hrest & _ & _ & Hfb & Hpa).
  assert (Hr4 : cfg s5 = cfg s /\ block_count s5 = block_count s /\ cursor_block_ix s5 = cursor_block_ix s /\
    cursor_obj_lu_entry s5 = cursor_obj_lu_entry s /\ fd_count s5 = fd_count s /\ stats_p_deleted s5 = stats_p_deleted s).
  { unfold alloc_rest in Hrest. injection Hrest as ??????????????. rewrite Hw3, Hs1 in *. cbn in *. auto 10. }
  destruct Hr4 as (Ec5 & Ebc5 & Eb5 & Ee5 & Efc5 & Epd5). rewrite Hw3, Hs1 in Hfb, Hpa. cbn in Hfb, Hpa.
  assert (Ec4 : cfg s4 = cfg s) by (by rewrite Hs4).
  set (ev := fd_object_event SPIFFS_EV_IX_NEW (data_id id) 0 (slot_pix (cfg s) hs) SPIFFS_UNDEFINED_LEN) in *.
  assert (Hevn : forall f, fd_file_nbr (ev f) = fd_file_nbr f) by (intros f; by apply fd_event_kept).
  assert (Hev : forall f, fd_cache_page (ev f) = fd_cache_page f) by (intros f; by apply fd_event_kept).
  set (fd1 := ev (set_fd_file_nbr (i + 1) fd)).
  assert (Hfds4 : fds s4 = ev <$> zset (fds s) i (set_fd_file_nbr (i + 1) fd)) by (rewrite Hs4; cbn; by rewrite Hw3, Hs1).
  assert (Hfd4 : fds s4 !! Z.to_nat i = Some fd1).
  { rewrite Hfds4, list_lookup_fmap. unfold zset. by rewrite list_lookup_insert_eq. }
  assert (Ht4 : fd_table_ok s4).
  { destruct Ht1 as (Hc1 & Hl1 & Ho1). rewrite Hs1 in Hc1, Hl1, Ho1. cbn in Hc1, Hl1, Ho1. unfold fd_table_ok. rewrite Hs4 at 1. cbn [fd_count set_fds].
    rewrite Efc5, Hfds4. unfold zlen in *. rewrite length_fmap. split; [done|]. split; [done|]. intros n f Hf.
    rewrite list_lookup_fmap in Hf. destruct (zset (fds s) i (set_fd_file_nbr (i + 1) fd) !! n) as [f0|] eqn:E0; [|done].
    injection Hf as <-. rewrite Hevn. by apply (Ho1 n). }
  change (slot_pix (cfg s) hs) with (entry_pix (cfg s) hs.1 hs.2). rewrite <- Ec4.
  wp_apply (open_page_ok (T - ticks (cfg s) 1 - ticks (cfg s) 1 - ticks (cfg s) 0 - 2) s4 i fd1 _ hs.1 hs.2);
    [exact Hok4|lia|exact Ht4|rewrite Ec4; apply Hsl|rewrite Ec4; apply Hsl|done|exact Hfd4|unfold fd1; by rewrite Hevn| |].
  { unfold hasb, SPIFFS_TRUNC. rewrite negb_false_iff, Z.eqb_eq. apply Z.bits_inj'. intros n Hn.
    rewrite Z.land_spec, Z.ldiff_spec, Z.bits_0. by destruct (Z.testbit flags n), (Z.testbit 2 n). }
  rewrite Ec4. intros r s6 (Hok6 & Ht6 & s7 & Hf7 & Hm). cbv zeta in Hm. pose proof Hemp as (Hlu & Hhdr & _).
  change (entry_pix (cfg s) hs.1 hs.2) with (slot_pix (cfg s) hs) in Hm.
  rewrite Hlu, (empty_file_valid _ _ _ _ _ _ Hwf Hid Hemp) in Hm. destruct Hm as [-> Hs6]. split; [done|]. exists id. do 3 (split; [done|]).
  assert (Hv6 : view s6 = view s4) by (rewrite Hs6, Hf7; done).
  split.
  - eapply (frame_fs_cur (T - ticks (cfg s) 1) _ s); [split; [eapply fs_okx_weaken; [exact Hok|lia]|done]| | | |].
    + by replace (T - (2 * ticks (cfg s) 1 + ticks (cfg s) 0 + 4)) with (T - ticks (cfg s) 1 - ticks (cfg s) 1 - ticks (cfg s) 0 - 2 - 2) by lia.
    + by rewrite Hs6, Hf7, Hs4.
    + by rewrite Hs6, Hf7, Hs4.
    + by rewrite Hs6, Hf7, Hs4.
  - rewrite Hs6. cbn. unfold zset. rewrite list_lookup_insert_eq by (by eapply lookup_lt_Some). f_equal.
    unfold opened_fd, new_fd, fd1. change (entry_pix (cfg s) hs.1 hs.2) with (slot_pix (cfg s) hs). rewrite Hhdr, Hlu. cbn.
    by rewrite Hev, Hevn.
  - by rewrite Hs6, Hf7.
  - done.
  - by rewrite Hv6.
  - by rewrite Hv6.
  - eapply plan_state_same; [..|exact Hplan4]; by rewrite Hs6, Hf7.
  - by rewrite Hs6, Hf7, Hs4.
  - rewrite Hs6, Hf7, Hs4. cbn. by rewrite Hpa, Ebc5, Epd5.
Qed.

(** ** Writing it *)

Lemma fd_table_get s i fd : fd_table_ok s -> 0 <= i -> fds s !! Z.to_nat i = Some fd -> fd_file_nbr fd = i + 1 ->
  wp (spiffs_fd_get (i + 1)) (fun r s' => r = (SPIFFS_OK, i) /\ s' = s) s.
Proof.
  intros Ht Hi Hfd Hn. pose proof Ht as (Hc & _). pose proof (lookup_lt_Some _ _ _ Hfd) as Hlt.
  wp_apply fd_get_ok; [done|]. intros r s' (-> & [(_ & fd' & Hfd' & ->)|(Hno & _)]); [|unfold zlen in Hc; lia].
  replace (i + 1 - 1) with i in * by lia. rewrite Hfd in Hfd'. injection Hfd' as <-. rewrite (proj2 (Z.eqb_neq _ _)) by lia. done.
Qed.

(** Overwriting a descriptor with itself. *)
Lemma set_fd_same s i fd : fds s !! Z.to_nat i = Some fd -> set_fds (zset (fds s) i fd) s = s.
Proof. intros H. unfold zset. rewrite list_insert_id by done. by destruct s. Qed.

(** Writing through to a file that is still empty. *)
Lemma hydro_write_new s uninit i fd data Q : fds s !! Z.to_nat i = Some fd -> fd_size fd = SPIFFS_UNDEFINED_LEN -> 0 < zlen data ->
  wp (spiffs_object_append i 0 data (zlen data)) (fun r s' => r = SPIFFS_OK /\ Q (zlen data) s') s ->
  wp (spiffs_hydro_write uninit i data 0 (zlen data)) Q s.
Proof.
  intros Hfd Hsz Hlen Hw. unfold spiffs_hydro_write. wp_step. eapply wp_fd_at; [done|]. rewrite Hsz. change (negb (_ =? _)) with false.
  cbn [andb]. wp_step. wp_step. ok_res. rewrite Z.sub_0_r, (proj2 (Z.ltb_lt _ _) Hlen). change (Z.to_nat 0) with 0%nat. rewrite drop_0.
  change (u32 (0 + 0)) with 0. wp_step. eapply wp_mono; [exact Hw|]. intros r s' [-> HQ]. ok_res. by wp_step.
Qed.

(** [SPIFFS_write] of a handle without buffered data writes through if the data
    are at least a page long or the handle is unbuffered. *)
Lemma write_direct s uninit i fd data Q : fd_table_ok s -> guard_error s = None -> nothing_buffered s -> cache s <> None ->
  0 <= i -> fds s !! Z.to_nat i = Some fd -> fd_file_nbr fd = i + 1 -> fd_cache_page fd = None ->
  hasb (fd_flags fd) SPIFFS_WRONLY = true -> hasb (fd_flags fd) SPIFFS_APPEND = false ->
  hasb (fd_flags fd) SPIFFS_DIRECT = true \/ s32 (psz (cfg s)) <= zlen data ->
  wp (write_through uninit i data (fd_fdoffset fd) (zlen data)) Q s ->
  wp (SPIFFS_write uninit (i + 1) data (zlen data)) Q s.
Proof.
  intros Ht Hg Hnb Hca Hi Hfd Hn Hcp Hwr Hap Hd HQ. destruct (cache s) as [ca|] eqn:Eca; [|done].
  unfold SPIFFS_write, api_checked. unfold guard_error in Hg. wp_step. wp_step. destruct (negb (config_magic s =? _)); [done|].
  wp_step. wp_step. destruct (mounted s =? 0); [done|]. wp_step. wp_step. wp_step. wp_apply fd_table_get; [done..|].
  intros r s1 [-> ->]. ok_res. wp_step. eapply wp_fd_at; [done|]. rewrite Hwr. cbn [negb]. rewrite Hcp, bool_decide_true by done.
  wp_step. wp_step. wp_apply get_by_fd_none; [exact Eca|by apply nothing_buffered_fd|]. intros r s1 [-> ->].
  eapply wp_upd_fd; [done|]. assert (Hsame : set_fd_cache_page None fd = fd) by (rewrite <- Hcp; by destruct fd).
  rewrite Hsame, set_fd_same by done. wp_step. eapply wp_fd_at; [done|]. rewrite Hap. wp_step. wp_step.
  destruct (hasb (fd_flags fd) SPIFFS_DIRECT); cbn [negb]; [exact HQ|]. destruct Hd as [|Hd]; [done|].
  rewrite (proj2 (Z.ltb_ge _ _) Hd), Hcp. exact HQ.
Qed.

(** Accesses the write needs at most. *)
Definition write_ticks (c : spiffs_config) (len : Z) : Z := (data_pages c len) * (ticks c 0 + 4) + 3.

(** The written file, open as descriptor [i] at its end. *)
Record written (T : Z) s0 (i id flags : Z) (hs : slot) (data : list Z) s : Prop := {
  wr_cur : fs_cur T s;
  wr_fd : fds s !! Z.to_nat i = Some (mkFd (i + 1) (ix_id id) (zlen data) (slot_pix (cfg s0) hs) (slot_pix (cfg s0) hs) 0 (zlen data) (zlen data) flags None);
  wr_cfg : cfg s = cfg s0;
  wr_file : stored (cfg s0) (view s) (ix_id id) hs data;
  wr_others : others_kept (cfg s0) (view s0) (view s) id
}.

Lemma app_ticks_write s len : app_ticks s (data_pages (cfg s) len) + 2 <= write_ticks (cfg s) len.
Proof. unfold app_ticks, write_ticks. destruct (_ =? _); lia. Qed.

(** What [append_stored_ok] leaves of a descriptor. *)
Lemma appended_fd_event id hp fd len : fd_file_nbr fd <> 0 -> data_id (fd_obj_id fd) = id -> len <> 0 ->
  fd_object_event SPIFFS_EV_IX_UPD id 0 hp len
    (set_fd_cursor_objix_spix 0 (set_fd_cursor_objix_pix hp (set_fd_offset len (set_fd_size len fd)))) =
  mkFd (fd_file_nbr fd) (fd_obj_id fd) len hp hp 0 len (fd_fdoffset fd) (fd_flags fd) (fd_cache_page fd).
Proof.
  intros Hn Hid Hl. unfold fd_object_event. cbn. rewrite Hid, Z.eqb_refl, (proj2 (Z.eqb_neq _ _) Hn), (proj2 (Z.eqb_neq _ _) Hl). done.
Qed.

Lemma write_new_ok T s0 s uninit i id name flags hs slots data :
  created T s0 i id name flags hs slots None s -> fd_table_ok s -> guard_error s = None -> nothing_buffered s ->
  0 <= i -> valid_id id -> psz (cfg s0) <= 65536 ->
  hasb flags SPIFFS_WRONLY = true -> hasb flags SPIFFS_APPEND = false -> hasb flags SPIFFS_DIRECT = true \/ s32 (psz (cfg s0)) <= zlen data ->
  Forall is_byte data -> 0 < zlen data < 2 ^ 32 -> zlen slots = data_pages (cfg s0) (zlen data) ->
  data_pages (cfg s0) (zlen data) <= SPIFFS_OBJ_HDR_IX_LEN (cfg s0) -> gc_fast (u32 (zlen data + dps (cfg s0))) s = true ->
  write_ticks (cfg s0) (zlen data) <= T ->
  wp (SPIFFS_write uninit (i + 1) data (zlen data)) (fun r s' => (r = zlen data /\
    written (T - write_ticks (cfg s0) (zlen data)) s0 i id flags hs data s') /\ nothing_buffered s') s.
Proof.
  intros [[Hok Hcur] Hfd Hcfg Hsl Hfile Hoth Hplan _ _] Ht Hg Hnb Hi Hvid Hpsz Hwr Hap Hd Hdata Hlen Hns Hfit Hgc HT.
  pose proof (fs_ok_wf _ _ Hok) as Hwf. rewrite Hcfg in Hwf. pose proof Hvid as [Hid Hdid]. pose proof Hok as (_ & ca & Hca & _).
  pose proof Hfile as (Hlu & Hhdr & Her). assert (Hrid : 0 <= ix_id id < 65536) by (pose proof (ix_id_range id Hid); lia).
  assert (Hvix : valid_id (ix_id id)) by (split; [done|by rewrite data_ix_id]).
  eapply (write_direct s uninit i _ data); [done|done|done|congruence|done|exact Hfd|done|done|done|done|by rewrite Hcfg|].
  apply wp_pres; [unfold write_through; pres|done|].
  unfold write_through. rewrite (u32_small (zlen data)) by lia. wp_step. eapply (hydro_write_new s uninit i _ data _ Hfd); [done|lia|].
  pose proof (app_ticks_write s (zlen data)) as Htk. rewrite Hcfg in Htk.
  eapply wp_mono; [apply (append_stored_ok T s i (new_fd (cfg s0) i id flags hs None) hs data slots)|];
    rewrite ?Hcfg; try done; try lia.
  - cbn. by rewrite Hlu, ix_id_idem.
  - by eapply empty_file_valid.
  - apply (empty_file_size (cfg s0) (view s) id name SPIFFS_TYPE_FILE hs); [intros x; apply hal_byte|exact Hfile].
  - eapply plan_state_rebase; [exact Hok|exact Hplan].
  - intros r s' (-> & Ha & Hst & Ho). split; [done|]. rewrite (proj2 (Z.ltb_ge (zlen data) SPIFFS_OK)) by (unfold SPIFFS_OK; lia).
    wp_step. destruct Ha as (Hok' & _ & _ & _ & _ & _ & _ & Hrest & Hfds). rewrite Hcfg in *.
    assert (Hfd' : fds s' !! Z.to_nat i = Some (mkFd (i + 1) (ix_id id) (zlen data) (slot_pix (cfg s0) hs) (slot_pix (cfg s0) hs) 0 (zlen data) 0 flags None)).
    { rewrite Hfds, list_lookup_fmap. unfold zset. rewrite list_lookup_insert_eq by (by eapply lookup_lt_Some). cbn [fmap option_fmap option_map].
      f_equal. unfold appended_fd. rewrite Hcfg. rewrite appended_fd_event; [done|cbn; lia|done|lia]. }
    eapply wp_upd_fd; [exact Hfd'|]. wp_step. split; [done|].
    assert (Hr : cfg s' = cfg s0 /\ cursor_block_ix s' = cursor_block_ix s /\ cursor_obj_lu_entry s' = cursor_obj_lu_entry s).
    { unfold app_rest in Hrest. injection Hrest. intros. split_and!; congruence. }
    destruct Hr as (Ec & Eb & Ee). split.
    + split; [eapply fs_okx_same; [eapply fs_okx_weaken; [exact Hok'|lia]|done..]|]. cbn. by rewrite Ec, Eb, Ee.
    + cbn. unfold zset. rewrite list_lookup_insert_eq by (by eapply lookup_lt_Some). unfold set_fd_fdoffset. cbn. rewrite u32_small by lia. done.
    + done.
    + exact Hst.
    + eapply others_kept_trans; [exact Hoth|]. intros id' sl' content Hv' Hdd. apply Ho; [done|]. cbn. by rewrite data_ix_id.
Qed.

(** ** Seeking *)

(** [SPIFFS_lseek] to an offset whose index page the descriptor already points to. *)
Lemma lseek_ok s uninit i fd offs : fd_table_ok s -> guard_error s = None -> nothing_buffered s -> cache s <> None -> wf_cfg (cfg s) ->
  0 <= i -> fds s !! Z.to_nat i = Some fd -> fd_file_nbr fd = i + 1 -> fd_cache_page fd = None ->
  0 <= offs <= fd_size fd -> fd_size fd < 2 ^ 31 -> offs / dps (cfg s) < 65536 ->
  fd_cursor_objix_spix fd = SPIFFS_OBJ_IX_ENTRY_SPAN_IX (cfg s) (offs / dps (cfg s)) ->
  wp (SPIFFS_lseek uninit (i + 1) offs SPIFFS_SEEK_SET) (fun r s' => r = offs /\
    s' = set_fds (zset (fds s) i (set_fd_fdoffset offs fd)) s) s.
Proof.
  intros Ht Hg Hnb Hca Hwf Hi Hfd Hn Hcp Ho Hsz Hsp Hcur. destruct (cache s) as [ca|] eqn:Eca; [|done].
  pose proof (dps_eq (cfg s) Hwf) as [_ Hd]. assert (Hq : 0 <= offs / dps (cfg s)) by (apply Z.div_pos; lia).
  destruct (objix_entry_fits (cfg s) Hwf (offs / dps (cfg s)) ltac:(lia)) as (Hspan & _).
  pose proof Ht as (Hc & _). pose proof (lookup_lt_Some _ _ _ Hfd) as Hlt.
  unfold SPIFFS_lseek, api_checked. unfold guard_error in Hg. wp_step. wp_step. destruct (negb (config_magic s =? _)); [done|].
  wp_step. wp_step. destruct (mounted s =? 0); [done|]. wp_step. wp_step. wp_step. wp_apply fd_table_get; [done..|].
  intros r s1 [-> ->]. ok_res. wp_step.
  wp_apply (fflush_cache_none uninit (i + 1) fd ca); [done|unfold zlen in Hc; lia|by replace (i + 1 - 1) with i by lia|lia|done|by apply nothing_buffered_fd|].
  intros r s1 [-> ->]. wp_step. eapply wp_fd_at; [done|]. change (SPIFFS_SEEK_SET =? SPIFFS_SEEK_CUR) with false.
  change (SPIFFS_SEEK_SET =? SPIFFS_SEEK_END) with false. cbv zeta. rewrite (s32_small (fd_size fd)) by lia.
  rewrite (proj2 (Z.ltb_ge _ _)) by lia. rewrite (u32_small offs) by lia. change (SPIFFS_DATA_PAGE_SIZE (cfg s)) with (dps (cfg s)).
  rewrite (u16_small (offs / dps (cfg s))) by lia. rewrite u16_small by lia. rewrite Hcur, Z.eqb_refl. cbn [negb]. wp_step. wp_step. ok_res.
  wp_step. eapply wp_upd_fd; [done|]. by wp_step.
Qed.

(** Any id whose file is stored is in use. *)
Lemma stored_in_use c v id sl content : valid_id id -> stored c v id sl content -> id_in_use c v (data_id id).
Proof.
  intros [Hid Hd] ([Hb He] & Hlu & _). exists sl.1, sl.2. rewrite Hlu, data_ix_id by done. split; [done|]. split; [done|].
  split; [|done]. unfold used_id. pose proof (ix_id_range id Hid). apply andb_true_iff. rewrite !negb_true_iff, !Z.eqb_neq.
  unfold SPIFFS_OBJ_ID_DELETED. split; [|lia]. intros Heq. apply (free_not_index id); [done|lia|done].
Qed.

(** ** The composition *)

(** Room for a header page, [n] data pages and no garbage collection: the test of
    [spiffs_gc_check] before and after the header page is taken. *)
Definition roomy s (len : Z) : Prop :=
  5 <= free_blocks s < 2 ^ 31 /\ 0 <= stats_p_allocated s < 2 ^ 32 - 1 /\ gc_free_pages s <= 65535 /\
  len + 2 * dps (cfg s) < gc_free_pages s * dps (cfg s) < 2 ^ 31.

Lemma gc_free_pages_next s s' : cfg s' = cfg s -> block_count s' = block_count s -> stats_p_allocated s' = u32 (stats_p_allocated s + 1) ->
  stats_p_deleted s' = stats_p_deleted s -> 0 <= stats_p_allocated s < 2 ^ 32 - 1 -> 0 < gc_free_pages s -> gc_free_pages s' = gc_free_pages s - 1.
Proof.
  intros Ec Eb Ea Ed Hr Hp. unfold gc_free_pages in *. rewrite Ec, Eb, Ea, Ed, (u32_small (_ + 1)) by lia.
  set (x := u32 (SPIFFS_PAGES_PER_BLOCK (cfg s) - SPIFFS_OBJ_LOOKUP_PAGES (cfg s)) * u32 (block_count s - 2)) in *.
  unfold s32, u32 in *. change (2 ^ 32) with 4294967296 in *. change (2 ^ 31) with 2147483648 in *.
  Z.to_euclidean_division_equations. lia.
Qed.

Lemma roomy_gc s len n : roomy s len -> 0 <= len -> 0 < n <= len + dps (cfg s) -> 0 <= dps (cfg s) < 65536 -> gc_fast n s = true.
Proof.
  intros (Hb & _ & Hp & Hg) Hl Hn Hd. unfold gc_fast. rewrite (proj2 (Z.ltb_lt 3 _)) by lia. cbn [andb].
  change (SPIFFS_DATA_PAGE_SIZE (cfg s)) with (dps (cfg s)). rewrite (s32_small (dps (cfg s))) by lia.
  assert (0 < gc_free_pages s) by nia. rewrite !s32_small by nia. apply Z.ltb_lt. lia.
Qed.

Lemma roomy_next s s' n hs : roomy s n -> 0 <= n -> 0 <= dps (cfg s) < 65536 -> cfg s' = cfg s -> block_count s' = block_count s ->
  stats_p_allocated s' = u32 (stats_p_allocated s + 1) -> stats_p_deleted s' = stats_p_deleted s ->
  free_blocks s' = (if hs =? 0 then u32 (free_blocks s - 1) else free_blocks s) -> gc_fast (u32 (n + dps (cfg s))) s' = true.
Proof.
  intros (Hb & Ha & Hp & Hg) Hn Hd Ec Ebc Ea Ed Efb. assert (Hgp : 0 < gc_free_pages s) by nia. assert (0 <= n + dps (cfg s) < 2 ^ 31) by nia.
  pose proof (gc_free_pages_next s s' Ec Ebc Ea Ed Ha Hgp) as Hgn. rewrite u32_small by lia. unfold gc_fast. rewrite Hgn, Ec.
  assert (3 < free_blocks s') as Hb3 by (rewrite Efb; destruct (hs =? 0); [rewrite u32_small; lia|lia]).
  rewrite (proj2 (Z.ltb_lt _ _) Hb3). cbn [andb]. change (SPIFFS_DATA_PAGE_SIZE (cfg s)) with (dps (cfg s)).
  rewrite (s32_small (dps (cfg s))) by lia. rewrite !s32_small by nia. apply Z.ltb_lt. nia.
Qed.

(** Creates a file, writes [data] to it, goes back to its start and reads. *)
Definition store_and_read (junk name : list Z) (flags uninit : Z) (data : list Z) : C (spiffs F) (Z * Z * Z * (Z * list Z)) :=
  h ← SPIFFS_open junk name flags;
  n ← SPIFFS_write uninit h data (zlen data);
  p ← SPIFFS_lseek uninit h 0 SPIFFS_SEEK_SET;
  r ← SPIFFS_read uninit h (zlen data);
  mret (h, n, p, r).

(** A volume with room for a new file of [len] bytes: its header page in slot
    [hs], its data pages in [slots]. *)
Record has_room s (len : Z) (hs : slot) (slots : list slot) : Prop := {
  hr_ids : ids_fit (cfg s);
  hr_id : exists j, 1 <= j <= 8 * psz (cfg s) /\ ~ id_in_use (cfg s) (view s) j;
  hr_plan : plan_state (view s) [] (hs :: slots) s;
  hr_slots : zlen slots = data_pages (cfg s) len;
  hr_header : data_pages (cfg s) len <= SPIFFS_OBJ_HDR_IX_LEN (cfg s);
  hr_pages : roomy s len
}.

(** Accesses the composition needs at most. *)
Definition store_ticks (c : spiffs_config) (len : Z) : Z :=
  open_ticks c + write_ticks c len + read_pages c 0 len * read_ticks c.

Lemma guard_volume s s' : volume s' = volume s -> guard_error s' = guard_error s.
Proof.
  unfold volume, guard_error. intros H. assert (config_magic s' = config_magic s /\ mounted s' = mounted s) as [-> ->] by (by injection H). done.
Qed.

Lemma hasb_ldiff flags m : Z.land m SPIFFS_TRUNC = 0 -> hasb (Z.ldiff flags SPIFFS_TRUNC) m = hasb flags m.
Proof.
  intros H. unfold hasb. do 2 f_equal. apply Z.bits_inj'. intros n Hn. rewrite !Z.land_spec, Z.ldiff_spec.
  apply (f_equal (fun x => Z.testbit x n)) in H. rewrite Z.land_spec, Z.bits_0 in H.
  destruct (Z.testbit flags n), (Z.testbit m n), (Z.testbit SPIFFS_TRUNC n); done.
Qed.

Lemma store_and_read_ok T s junk name flags uninit data i fd hs slots :
  fs_cur T s -> fd_table_ok s -> guard_error s = None -> nothing_buffered s -> psz (cfg s) <= 65536 ->
  zlen (cstr name) < SPIFFS_OBJ_NAME_LEN -> Forall is_byte name -> zlen junk = 4 -> Forall is_byte junk ->
  no_entry (cfg s) (fun b e => named_entry (cfg s) (view s) name b e = true) ->
  0 <= i -> fds s !! Z.to_nat i = Some fd -> fd_file_nbr fd = 0 -> (forall k, (k < Z.to_nat i)%nat -> is_open (fds s) k) ->
  fd_cache_page fd = None ->
  hasb flags SPIFFS_CREAT = true -> hasb flags SPIFFS_RDONLY = true -> hasb flags SPIFFS_WRONLY = true -> hasb flags SPIFFS_APPEND = false ->
  hasb flags SPIFFS_DIRECT = true \/ psz (cfg s) <= zlen data -> Forall is_byte data -> 0 < zlen data < 2 ^ 31 ->
  has_room s (zlen data) hs slots -> store_ticks (cfg s) (zlen data) <= T ->
  wp (store_and_read junk name flags uninit data) (fun r s' =>
    r = (i + 1, zlen data, 0, (zlen data, data)) /\
    forall id sl content, valid_id id -> zlen content <= 65536 * dps (cfg s) ->
      stored (cfg s) (view s) id sl content -> stored (cfg s) (view s') id sl content) s.
Proof.
  intros Hcur Ht Hg Hnb Hpsz Hname Hn Hj Hjb Hno Hi Hfd Hcl Hop Hcp Hcr Hrd Hwr Hap Hd Hdata Hlen [Hfit (j & Hjr & Hjn) Hplan Hns Hhdr Hroom] HT.
  pose proof Hcur as [Hok _]. pose proof (fs_ok_wf _ _ Hok) as Hwf. pose proof (dps_eq _ Hwf) as [Hdps Hdp]. pose proof (ticks_nonneg (cfg s) 0 Hwf ltac:(done)).
  pose proof (psz_lt (cfg s) Hwf). pose proof (ticks_nonneg (cfg s) 1 Hwf ltac:(done)).
  assert (0 <= read_ticks (cfg s)) by (unfold read_ticks; lia). unfold store_ticks in HT.
  assert (Hrp : 0 <= read_pages (cfg s) 0 (zlen data)) by (pose proof (read_pages_step (cfg s) 0 (zlen data) Hwf ltac:(lia)); cbv zeta in *; lia).
  assert (0 <= read_pages (cfg s) 0 (zlen data) * read_ticks (cfg s)) by nia.
  assert (Hdn : 0 <= data_pages (cfg s) (zlen data)) by (unfold data_pages; apply Z.div_pos; lia).
  assert (0 <= write_ticks (cfg s) (zlen data)) by (unfold write_ticks; nia).
  unfold store_and_read. wp_step. eapply wp_mono.
  { apply (wp_pres (fun s' => (fd_table_ok s' /\ nothing_buffered s') /\ volume s' = volume s)); [|done|].
    - apply (pres_and (fun s' => fd_table_ok s' /\ nothing_buffered s') (fun s' => volume s' = volume s)); [apply (pres_and fd_table_ok nothing_buffered)|]; pres.
    - apply (open_new_ok T s junk name flags i fd hs slots j); try done; [lia|]. eapply roomy_gc; [exact Hroom|lia|lia|lia]. }
  intros r s1 ((-> & id & Hvid & Hdid & Hfresh & Hcreated) & (Ht1 & Hnb1) & Hvol1). rewrite Hcp in Hcreated.
  assert (Hcfg1 : cfg s1 = cfg s) by apply Hcreated.
  wp_step. eapply wp_mono.
  { apply (wp_pres (fun s' => fd_table_ok s' /\ volume s' = volume s)); [apply (pres_and fd_table_ok (fun s' => volume s' = volume s)); apply write_pres; apply _|done|].
    apply (write_new_ok (T - open_ticks (cfg s)) s s1 uninit i id name (Z.ldiff flags SPIFFS_TRUNC) hs slots data Hcreated); try done.
    - by rewrite (guard_volume s).
    - by rewrite hasb_ldiff.
    - by rewrite hasb_ldiff.
    - rewrite hasb_ldiff by done. destruct Hd as [|Hd]; [by left|right]. rewrite s32_small; lia.
    - lia.
    - destruct (cr_pages _ _ _ _ _ _ _ _ _ _ Hcreated) as (Eb & Ea & Ed).
      eapply (roomy_next s s1); [exact Hroom|lia|lia|done|done|done|done|]. apply (cr_blocks _ _ _ _ _ _ _ _ _ _ Hcreated).
    - lia. }
  intros r s2 (((-> & Hw) & Hnb2) & Ht2 & Hvol2). destruct Hw as [[Hok2 Hcur2] Hfd2 Hcfg2 Hst2 Hoth2].
  assert (Hca2 : cache s2 <> None) by (destruct Hok2 as (_ & ca & -> & _); done).
  assert (Hg2 : guard_error s2 = None) by (by rewrite (guard_volume s)).
  wp_step. wp_apply (lseek_ok s2 uninit i _ 0); try done.
  - by rewrite Hcfg2.
  - cbn. lia.
  - cbn. lia.
  - rewrite Hcfg2, Z.div_0_l by lia. cbn. unfold SPIFFS_OBJ_IX_ENTRY_SPAN_IX. pose proof (ix_lens (cfg s) Hwf).
    by rewrite (proj2 (Z.ltb_lt _ _)) by lia.
  - intros r s3 [-> Hs3]. set (fd3 := set_fd_fdoffset 0 _) in Hs3.
    assert (Hfd3 : fds s3 !! Z.to_nat i = Some fd3) by (rewrite Hs3; cbn; unfold zset; apply list_lookup_insert_eq; by eapply lookup_lt_Some).
    assert (Hnb3 : nothing_buffered s3) by (rewrite Hs3; done).
    wp_step. pose proof (lookup_lt_Some _ _ _ Hfd2) as Hlt2. pose proof Ht2 as (Hc2 & _).
    assert (Hread : readable (zlen data) 0 (zlen data) = zlen data) by (unfold readable; lia).
    assert (Hdl : zlen data <= data_pages (cfg s) (zlen data) * dps (cfg s)) by (unfold data_pages; Z.to_euclidean_division_equations; nia).
    pose proof (ix_lens (cfg s) Hwf).
    wp_apply (api_read_ok (T - open_ticks (cfg s) - write_ticks (cfg s) (zlen data)) s3 uninit (i + 1) fd3 data (zlen data)).
    + rewrite Hs3. split; [by eapply fs_okx_same|done].
    + rewrite Hs3. eapply fd_table_set; [done|exact Hfd2|done|by right].
    + rewrite Hs3. done.
    + rewrite Hs3. cbn. unfold zlen in Hc2. lia.
    + by replace (i + 1 - 1) with i by lia.
    + cbn. lia.
    + cbn. by rewrite hasb_ldiff.
    + by apply nothing_buffered_fd.
    + rewrite Hs3. cbn. rewrite Hcfg2. apply Hst2.
    + done.
    + rewrite Hs3. cbn. rewrite Hcfg2. nia.
    + lia.
    + lia.
    + cbn. lia.
    + change (fd_fdoffset fd3) with 0. rewrite Hread, Z.add_0_l, Hs3. change (cfg (set_fds _ s2)) with (cfg s2). rewrite Hcfg2. lia.
    + change (fd_fdoffset fd3) with 0. rewrite Hread. intros r s4 Hr. rewrite (proj2 (Z.eqb_neq _ _)) in Hr by lia.
      destruct Hr as (-> & fd' & (_ & Hrr & _)). wp_step. split.
      * do 2 f_equal. unfold slice. rewrite drop_0. apply take_ge. unfold zlen. lia.
      * intros id' sl content Hv' Hcl' Hst'. assert (Hv4 : view s4 = view s2).
        { apply read_rest_inv in Hrr as (_ & Hf4 & _). unfold view. rewrite Hf4, Hs3. done. }
        rewrite Hv4. apply Hoth2; [done| |done|done]. intros Heq. apply Hfresh. rewrite <- Hdid, <- Heq. by eapply stored_in_use.
Qed.
End store.
