(* ===== verification/SpiffsDemo.v ===== *)
(** A concrete volume on a NOR flash: executable checks of the invariants, and
    states reached by running the file system, at which the theorems are
    instantiated. *)
From S2P Require Import Prelude CSem SpiffsTypes SpiffsGeom SpiffsCache SpiffsIo SpiffsLookup SpiffsSearch SpiffsPage SpiffsFind SpiffsPageOps SpiffsErase SpiffsMount SpiffsIndex SpiffsObject SpiffsContent SpiffsApi SpiffsRead SpiffsHandle.
From S2P Require Import SpiffsGc SpiffsOpen SpiffsPreserve SpiffsSlots SpiffsCreate SpiffsAppend SpiffsWrite SpiffsIds SpiffsStore.
From stdpp Require Import base list numbers option.

Open Scope Z_scope.

(** ** Executable invariants *)

Definition page_check (c : spiffs_config) (v : Z -> Z) (la : Z) (u : bool) (i : nat) (cp : spiffs_cache_page) : bool :=
  (cp_ix cp =? Z.of_nat i) && (zlen (cp_mem cp) =? psz c) && (0 <=? cp_last_access cp) && (cp_last_access cp <=? la)
  && (negb u || is_wr cp ||
      ((cp_flags cp =? SPIFFS_CACHE_FLAG_WRTHRU) && (0 <=? cp_pix cp) && (cp_pix cp <? pages c)
       && bool_decide (cp_mem cp = vread v (paddr c (cp_pix cp)) (psz c)))).

Definition cache_check (c : spiffs_config) (v : Z -> Z) (T : Z) (ca : spiffs_cache) : bool :=
  let n := zlen (cpages ca) in
  let ixs := seq 0 (length (cpages ca)) in
  let used := filter (fun i => in_use ca i = true /\ is_wr (nth i (cpages ca) (mkCp 0 0 0 0 0 0 [])) = false) ixs in
  (1 <=? n) && (n <=? 31) && (cpage_use_mask ca =? Z.ones n)
  && (0 <=? cpage_use_map ca) && (Z.shiftr (cpage_use_map ca) n =? Z.ones (32 - n))
  && forallb (fun i => page_check c v (c_last_access ca) (in_use ca i) i (nth i (cpages ca) (mkCp 0 0 0 0 0 0 []))) ixs
  && bool_decide (NoDup ((fun i => cp_pix (nth i (cpages ca) (mkCp 0 0 0 0 0 0 []))) <$> used))
  && existsb (fun i => negb (in_use ca i) || negb (is_wr (nth i (cpages ca) (mkCp 0 0 0 0 0 0 [])))) ixs
  && (0 <=? T) && (0 <=? c_last_access ca) && (c_last_access ca + T <? 2 ^ 32).

Lemma page_check_ok c v la u i cp : page_check c v la u i cp = true -> page_ok c v (fun _ => True) la u i cp.
Proof.
  unfold page_check. intros H. apply andb_true_iff in H as [H Hr]. bools. split; [done|done|lia|].
  intros -> Hw. rewrite Hw in Hr. cbn [negb orb] in Hr. apply andb_true_iff in Hr as [Hr Hm]. bools.
  apply bool_decide_eq_true in Hm. done.
Qed.

Lemma cache_check_ok c v T ca : cache_check c v T ca = true -> cache_inv c v (fun _ => True) T ca.
Proof.
  unfold cache_check. set (d := mkCp 0 0 0 0 0 0 []). set (n := zlen (cpages ca)).
  intros H. bools.
  repeat match goal with H : _ && _ = true |- _ => apply andb_true_iff in H; destruct H end.
  match goal with H : forallb _ _ = true |- _ => rename H into Hpages end.
  match goal with H : existsb _ _ = true |- _ => rename H into Hroom end.
  match goal with H : bool_decide _ = true |- _ => apply bool_decide_eq_true in H; rename H into Hnd end.
  bools. rewrite forallb_forall in Hpages. apply existsb_exists in Hroom as (r & Hrin & Hr).
  assert (Hnth : forall i cp, cpages ca !! i = Some cp -> nth i (cpages ca) d = cp).
  { intros i cp Hi. rewrite nth_lookup, Hi. done. }
  assert (Hseq : forall i cp, cpages ca !! i = Some cp -> In i (seq 0 (length (cpages ca)))).
  { intros i cp Hi. apply in_seq. apply lookup_lt_Some in Hi. lia. }
  split; try done; try lia.
  - intros k Hk. fold n in Hk. destruct (decide (k < 0)); [unfold n, zlen in Hk; lia|].
    assert (Hb : Z.testbit (Z.shiftr (cpage_use_map ca) n) (k - n) = Z.testbit (Z.ones (32 - n)) (k - n)) by congruence.
    rewrite Z.shiftr_spec, Z.testbit_ones_nonneg in Hb by lia.
    replace (k - n + n) with k in Hb by lia. rewrite Hb. destruct (k <? 32) eqn:E; bools; [apply Z.ltb_lt|apply Z.ltb_ge]; lia.
  - intros i cp Hi. specialize (Hpages i (Hseq _ _ Hi)). rewrite (Hnth _ _ Hi) in Hpages. by apply page_check_ok.
  - intros i j cp cp' Hi Hj Ui Uj Wi Wj Hp.
    set (used := filter _ _) in Hnd. 
    assert (Hin : forall k cpk, cpages ca !! k = Some cpk -> in_use ca k = true -> is_wr cpk = false -> k ∈ used).
    { intros k cpk Hk Uk Wk. apply list_elem_of_filter. rewrite (Hnth _ _ Hk). split; [done|].
      apply list_elem_of_In. by eapply Hseq. }
    pose proof (Hin _ _ Hi Ui Wi) as Hi'. pose proof (Hin _ _ Hj Uj Wj) as Hj'.
    apply list_elem_of_lookup in Hi' as [a Ha]. apply list_elem_of_lookup in Hj' as [b Hb].
    assert (a = b) as ->.
    { eapply (proj1 (NoDup_alt _) Hnd).
      - rewrite list_lookup_fmap, Ha. cbn. by rewrite (Hnth _ _ Hi).
      - rewrite list_lookup_fmap, Hb. cbn. by rewrite (Hnth _ _ Hj), Hp. }
    congruence.
  - apply in_seq in Hrin. destruct (lookup_lt_is_Some_2 (cpages ca) r ltac:(lia)) as [cp Hcp].
    exists r, cp. split; [done|]. rewrite (Hnth _ _ Hcp) in Hr. apply orb_true_iff in Hr as [Hr|Hr]; bools; auto.
Qed.

(** Well-formedness of a file system on the NOR flash model. *)
Definition fs_check (T : Z) (s : spiffs nor_flash) : bool :=
  valid_cfg (cfg s) && (block_count s =? blocks (cfg s))
  && (phys_addr (cfg s) + phys_size (cfg s) <=? zlen (nor_mem (flash s)))
  && (0 <? nor_sector (flash s)) && (phys_erase_block (cfg s) mod nor_sector (flash s) =? 0)
  && match cache s with Some ca => cache_check (cfg s) (nor_view (flash s)) T ca | None => false end.

Lemma fs_check_ok T s : fs_check T s = true -> fs_ok T s.
Proof.
  unfold fs_check. intros H. apply andb_true_iff in H as [H Hc]. bools.
  split; [split; try done; by apply valid_cfg_wf|].
  destruct (cache s) as [ca|]; [|done]. exists ca. split; [done|]. by apply cache_check_ok.
Qed.

(** ** A concrete volume: 8 blocks of 8 pages of 64 bytes *)

Definition demo_cfg : spiffs_config := mkCfg 4096 0 512 512 64.
Definition demo_flash : nor_flash := mkNor 512 (replicate 4096 255).

(** Before the first mount. *)
Definition demo_raw : spiffs nor_flash :=
  mkFs demo_cfg 8 0 0 0 0 [] [] [] 0 0 0 0 0 0 0 None 0 0 0 demo_flash.

Definition run {A} (m : C (spiffs nor_flash) A) (s : spiffs nor_flash) : spiffs nor_flash :=
  match m s with Done (_, s') => s' | _ => s end.

(** Work buffer of two pages, 4 descriptors, 3 cache pages. *)
Definition demo_mount : C (spiffs nor_flash) Z :=
  SPIFFS_mount demo_cfg (replicate 128 0) 1024 144 2048 272.

Definition demo_name : list Z := [97; 98].
Definition demo_data (n : nat) : list Z := (fun i => (i * 7 + 3) mod 251) <$> seqZ 0 (Z.of_nat n).

(** Not a file system yet, but configured; then formatted; then mounted. *)
Definition demo_configured : spiffs nor_flash := Eval vm_compute in run demo_mount demo_raw.
Definition demo_formatted : spiffs nor_flash := Eval vm_compute in run SPIFFS_format demo_configured.
Definition demo_empty : spiffs nor_flash := Eval vm_compute in run demo_mount demo_formatted.

(** With a file of 100 bytes, open as descriptor 1. *)
Definition demo_file : spiffs nor_flash := Eval vm_compute in
  run (fh ← SPIFFS_open [1; 2; 3; 4] demo_name (Z.lor SPIFFS_CREAT SPIFFS_RDWR);
       _ ← SPIFFS_write 0 fh (demo_data 100) 100; SPIFFS_fflush 0 fh) demo_empty.

Lemma demo_empty_ok : fs_ok 1000000 demo_empty.
Proof. apply fs_check_ok. vm_compute. reflexivity. Qed.

Lemma demo_file_ok : fs_ok 1000000 demo_file.
Proof. apply fs_check_ok. vm_compute. reflexivity. Qed.

(** Checking a property of all positions below a bound. *)
Lemma range_check (P : Z -> bool) n : forallb P (seqZ 0 n) = true -> forall i, 0 <= i < n -> P i = true.
Proof.
  intros H i Hi. rewrite forallb_forall in H. apply H. apply list_elem_of_In, elem_of_seqZ. lia.
Qed.

Definition free_erased_check (s : spiffs nor_flash) : bool :=
  forallb (fun b => forallb (fun e =>
    negb (lu_id (cfg s) (nor_view (flash s)) b e =? SPIFFS_OBJ_ID_FREE)
    || forallb (fun i => nor_view (flash s) (paddr (cfg s) (entry_pix (cfg s) b e) + i) =? 255) (seqZ 0 (psz (cfg s))))
    (seqZ 0 (lue (cfg s)))) (seqZ 0 (blocks (cfg s))).

Lemma free_erased_check_ok s : free_erased_check s = true -> free_erased s.
Proof.
  intros H b e Hb He Hid x Hx. unfold free_erased_check in H.
  pose proof (range_check _ _ H b Hb) as H1. cbv beta in H1. pose proof (range_check _ _ H1 e He) as H2. cbv beta in H2.
  change (nor_view (flash s)) with (view s) in H2. rewrite Hid in H2. cbn [negb orb] in H2. rewrite Z.eqb_refl in H2.
  cbn [negb orb] in H2.
  pose proof (range_check _ _ H2 (x - paddr (cfg s) (entry_pix (cfg s) b e)) ltac:(lia)) as H3. cbv beta in H3. bools.
  rewrite <- H3. f_equal. lia.
Qed.

Lemma demo_file_free_erased : free_erased demo_file.
Proof. apply free_erased_check_ok. vm_compute. reflexivity. Qed.

Lemma byte_list_check l : forallb (fun x => (0 <=? x) && (x <? 256)) l = true -> Forall is_byte l.
Proof.
  rewrite forallb_forall. intros H. apply Forall_forall. intros x Hx.
  specialize (H x Hx). bools. unfold is_byte. lia.
Qed.

(** ** Stored objects *)

Definition index_page_check (c : spiffs_config) (v : Z -> Z) (id hdr i p : Z) : bool :=
  if (0 <=? p) && (p <? pages c) && bool_decide (SPIFFS_VALIDATE_OBJIX (ph_at c v p) id i = None) then
    if i =? 0 then p =? hdr
    else
      let hit b e := if lu_id c v b e =? ix_id id then live_page c v (ix_id id) i None (entry_pix c b e) else false in
      existsb (fun b => existsb (hit b) (seqZ 0 (lue c))) (seqZ 0 (blocks c))
      && forallb (fun b => forallb (fun e => negb (hit b e) || (entry_pix c b e =? p)) (seqZ 0 (lue c))) (seqZ 0 (blocks c))
  else false.

Lemma exists_check (P : Z -> bool) n : existsb P (seqZ 0 n) = true -> exists i, 0 <= i < n /\ P i = true.
Proof.
  rewrite existsb_exists. intros (i & Hi & HP). exists i. split; [|done].
  apply list_elem_of_In, elem_of_seqZ in Hi. lia.
Qed.

Lemma index_page_check_ok c v id hdr i p : index_page_check c v id hdr i p = true -> index_page c v id hdr i p.
Proof.
  unfold index_page_check, index_page. destruct (_ && _) eqn:Hc; [|done]. intros H.
  apply andb_true_iff in Hc as [Hp Hv].
  apply bool_decide_eq_true in Hv. bools. split; [lia|]. split; [done|].
  destruct (i =? 0); [by apply Z.eqb_eq|]. apply andb_true_iff in H as [Hex Hall]. split.
  - apply exists_check in Hex as (b & Hb & Hex). apply exists_check in Hex as (e & He & Hex).
    destruct (_ =? _) eqn:Hid; [|done]. apply Z.eqb_eq in Hid. by exists b, e.
  - intros b e Hb He [Hid Hl]. pose proof (range_check _ _ Hall b Hb) as H3. cbv beta in H3.
    pose proof (range_check _ _ H3 e He) as H4. cbv beta in H4. apply Z.eqb_eq in Hid.
    rewrite Hid, Hl in H4. cbn in H4. by apply Z.eqb_eq.
Qed.

Definition data_page_check (c : spiffs_config) (v : Z -> Z) (id d q : Z) : bool :=
  (0 <=? q) && (q <? pages c) && (lup c <=? q mod ppb c)
  && bool_decide (SPIFFS_VALIDATE_DATA (ph_at c v q) (data_id id) d = None).

Definition holds_check (c : spiffs_config) (v : Z -> Z) (id hdr : Z) (content : list Z) : bool :=
  (0 <? dps c) &&
  forallb (fun d => existsb (fun p => if index_page_check c v id hdr (ix_span c d) p then
     data_page_check c v id d (ix_entry c v p d)
     && forallb (fun j => negb (d * dps c + j <? zlen content)
          || (v (paddr c (ix_entry c v p d) + sizeof_page_header + j) =? zget content (d * dps c + j))) (seqZ 0 (dps c)) else false)
    (seqZ 0 (pages c))) (seqZ 0 ((zlen content + dps c - 1) / dps c)).

Lemma holds_check_ok c v id hdr content : holds_check c v id hdr content = true -> holds c v id hdr content.
Proof.
  unfold holds_check. intros [H Hall]%andb_true_iff. bools. intros d Hd Hdc.
  assert (Hdr : 0 <= d < (zlen content + dps c - 1) / dps c).
  { split; [done|]. apply Z.lt_le_trans with (d + 1); [lia|]. apply Z.div_le_lower_bound; lia. }
  pose proof (range_check _ _ Hall d Hdr) as H1. cbv beta in H1.
  apply exists_check in H1 as (p & _ & H1).
  destruct (index_page_check _ _ _ _ _ p) eqn:Hix; [|done]. apply andb_true_iff in H1 as [Hdp Hby].
  exists p. split; [by apply index_page_check_ok|]. split.
  - unfold data_page_check in Hdp. apply andb_true_iff in Hdp as [Hdp Hv%bool_decide_eq_true]. bools. split; [lia|done].
  - intros j Hj Hjc. pose proof (range_check _ _ Hby j Hj) as H4. cbv beta in H4.
    rewrite (proj2 (Z.ltb_lt _ _) Hjc) in H4. cbn in H4. by apply Z.eqb_eq.
Qed.

(** A file of 700 bytes, more than the index header page covers (9 pages of 59
    bytes), open as descriptor 1 at offset 500. *)
Definition demo_big : spiffs nor_flash := Eval vm_compute in
  run (fh ← SPIFFS_open [1; 2; 3; 4] demo_name (Z.lor SPIFFS_CREAT SPIFFS_RDWR);
       _ ← SPIFFS_write 0 fh (demo_data 700) 700; SPIFFS_lseek 0 fh 500 SPIFFS_SEEK_SET) demo_empty.

Definition demo_big_fd : spiffs_fd := Eval vm_compute in default zero_fd (fds demo_big !! 0%nat).

Lemma demo_big_ok : fs_ok 1000000 demo_big.
Proof. apply fs_check_ok. vm_compute. reflexivity. Qed.

Lemma demo_big_holds :
  holds (cfg demo_big) (view demo_big) (fd_obj_id demo_big_fd) (fd_objix_hdr_pix demo_big_fd) (demo_data 700).
Proof. apply holds_check_ok. vm_compute. reflexivity. Qed.

Lemma demo_configured_ok : fs_okx (fun _ => False) 1000000 demo_configured.
Proof.
  assert (H : fs_ok 1000000 demo_configured) by (apply fs_check_ok; vm_compute; reflexivity).
  eapply fs_okx_coh; [exact H|]. done.
Qed.

(** ** Descriptors *)

Definition fd_table_check {F} (s : spiffs F) : bool :=
  (fd_count s =? zlen (fds s)) && (zlen (fds s) <? 32768)
  && forallb (fun i => let n := fd_file_nbr (nth i (fds s) zero_fd) in (n =? 0) || (n =? Z.of_nat i + 1)) (seq 0 (length (fds s))).

Lemma fd_table_check_ok {F} (s : spiffs F) : fd_table_check s = true -> fd_table_ok s.
Proof.
  unfold fd_table_check. intros [[Hc%Z.eqb_eq Hl%Z.ltb_lt]%andb_true_iff Hall]%andb_true_iff.
  split; [done|]. split; [done|]. intros i fd Hi. rewrite forallb_forall in Hall.
  specialize (Hall i). rewrite in_seq in Hall. specialize (Hall ltac:(apply lookup_lt_Some in Hi; lia)). cbv zeta in Hall.
  rewrite (nth_lookup_Some _ _ _ _ Hi) in Hall. apply orb_true_iff in Hall as [H|H]; apply Z.eqb_eq in H; auto.
Qed.

Definition unbuffered_check {F} (s : spiffs F) (fd : spiffs_fd) : bool :=
  bool_decide (fd_cache_page fd = None)
  && match cache s with
     | Some ca => forallb (fun cp => negb (is_wr cp) || negb (cp_pix cp =? fd_obj_id fd)) (cpages ca)
     | None => true
     end.

Lemma unbuffered_check_ok {F} (s : spiffs F) fd : unbuffered_check s fd = true -> unbuffered s fd.
Proof.
  unfold unbuffered_check. intros [Hc%bool_decide_eq_true H]%andb_true_iff. split; [done|].
  intros ca i cp Hca Hi _ Hw. rewrite Hca in H. rewrite forallb_forall in H.
  specialize (H cp ltac:(apply list_elem_of_In; by eapply list_elem_of_lookup_2)). rewrite Hw in H. cbn in H. bools. done.
Qed.

(** ** Room for a new file *)

Definition nothing_buffered_check (s : spiffs nor_flash) : bool :=
  match cache s with Some ca => forallb (fun cp => negb (is_wr cp)) (cpages ca) | None => true end.

Lemma nothing_buffered_check_ok s : nothing_buffered_check s = true -> nothing_buffered s.
Proof.
  unfold nothing_buffered_check, nothing_buffered. intros H ca Hca. rewrite Hca in H. rewrite forallb_forall in H.
  apply Forall_forall. intros cp Hcp. specialize (H cp Hcp). by apply negb_true_iff.
Qed.

Definition entries_check (c : spiffs_config) (P : Z -> Z -> bool) : bool :=
  forallb (fun b => forallb (P b) (seqZ 0 (lue c))) (seqZ 0 (blocks c)).

Lemma entries_check_ok c P : entries_check c P = true -> forall b e, 0 <= b < blocks c -> 0 <= e < lue c -> P b e = true.
Proof. intros H b e Hb He. pose proof (range_check _ _ H b Hb) as H1. cbv beta in H1. by apply (range_check _ _ H1 e He). Qed.

Lemma no_named_check_ok c v name : entries_check c (fun b e => negb (named_entry c v name b e)) = true ->
  no_entry c (fun b e => named_entry c v name b e = true).
Proof. intros H b e Hb He Hn. pose proof (entries_check_ok _ _ H b e Hb He) as H1. cbv beta in H1. by rewrite Hn in H1. Qed.

Lemma unused_check_ok c v j : entries_check c (fun b e => negb (used_id (lu_id c v b e) && (data_id (lu_id c v b e) =? j))) = true ->
  ~ id_in_use c v j.
Proof.
  intros H (b & e & Hb & He & Hu & Hj). pose proof (entries_check_ok _ _ H b e Hb He) as H1. cbv beta in H1.
  rewrite Hu, (proj2 (Z.eqb_eq _ _) Hj) in H1. done.
Qed.

Definition plan_check (s : spiffs nor_flash) (n : nat) : option (list slot) :=
  if (0 <=? free_cursor_block_ix s) && (free_cursor_block_ix s <? blocks (cfg s)) && (0 <=? free_cursor_obj_lu_entry s) && free_erased_check s
  then plan (cfg s) (nor_view (flash s)) [] (free_blocks s) (free_cursor_block_ix s) (free_cursor_obj_lu_entry s) n else None.

Lemma plan_check_ok s l : plan_check s (length l) = Some l -> plan_state (view s) [] l s.
Proof.
  unfold plan_check. destruct (_ && free_erased_check s) eqn:E; [|done]. apply andb_true_iff in E as [E He]. bools. intros Hp.
  split; [lia|]. split; [lia|]. split; [by apply free_erased_check_ok|]. split; [apply free_rel_refl|exact Hp].
Qed.

Definition roomy_check (s : spiffs nor_flash) (len : Z) : bool :=
  (5 <=? free_blocks s) && (free_blocks s <? 2 ^ 31) && (0 <=? stats_p_allocated s) && (stats_p_allocated s <? 2 ^ 32 - 1)
  && (gc_free_pages s <=? 65535) && (len + 2 * dps (cfg s) <? gc_free_pages s * dps (cfg s)) && (gc_free_pages s * dps (cfg s) <? 2 ^ 31).

Lemma roomy_check_ok s len : roomy_check s len = true -> roomy s len.
Proof. unfold roomy_check, roomy. intros H. bools. lia. Qed.

Definition demo_name2 : list Z := [99; 100].

(** The slots a new file of 100 bytes takes on the volume with one file. *)
Definition demo_plan : list slot := Eval vm_compute in default [] (plan_check demo_file 3).
Definition demo_hs : slot := Eval vm_compute in default (0, 0) (demo_plan !! 0%nat).
Definition demo_slots : list slot := Eval vm_compute in tail demo_plan.

Lemma demo_file_room : has_room demo_file 100 demo_hs demo_slots.
Proof.
  split.
  - split; vm_compute; [done|discriminate].
  - exists 2. split; [vm_compute; split; discriminate|]. apply unused_check_ok. vm_compute. reflexivity.
  - apply plan_check_ok. vm_compute. reflexivity.
  - vm_compute. reflexivity.
  - vm_compute. discriminate.
  - apply roomy_check_ok. vm_compute. reflexivity.
Qed.

(** A new file, still empty, open as descriptor 2. *)
Definition demo_new : spiffs nor_flash := Eval vm_compute in
  run (SPIFFS_open [1; 2; 3; 4] demo_name2 (Z.lor SPIFFS_CREAT SPIFFS_RDWR)) demo_file.
Definition demo_new_fd : spiffs_fd := Eval vm_compute in default zero_fd (fds demo_new !! 1%nat).

Lemma demo_new_ok : fs_ok 1000000 demo_new.
Proof. apply fs_check_ok. vm_compute. reflexivity. Qed.

Definition erased_check (v : Z -> Z) (a n : Z) : bool := forallb (fun i => v (a + i) =? 255) (seqZ 0 n).

Lemma erased_check_ok v a n : erased_check v a n = true -> erased v a n.
Proof.
  intros H x Hx. pose proof (range_check _ _ H (x - a) ltac:(lia)) as H1. cbv beta in H1. bools. rewrite <- H1. f_equal. lia.
Qed.
