(* ===== verification/SpiffsTheorems.v ===== *)
(** The properties of the flash layer of SPIFFS: cached accesses, searches, page
    operations, erasing, formatting and mounting.  Each is proved for every driver
    that fulfils [NorHal] and instantiated on the NOR flash of [SpiffsDemo]. *)
From S2P Require Import Prelude CSem SpiffsTypes SpiffsGeom SpiffsCache SpiffsIo SpiffsLookup SpiffsSearch SpiffsPage SpiffsFind SpiffsPageOps SpiffsErase SpiffsMount SpiffsApi SpiffsDemo.
From stdpp Require Import base list numbers option.

Open Scope Z_scope.

Section theorems.
  Context {F : Type} {hal : SpiffsHal F} {nor : NorHal F}.
  Implicit Types s : spiffs F.

(** C19: a cached read within a page terminates without undefined behaviour and
    returns exactly the bytes stored in the flash, whether it hits, misses and
    evicts the oldest page, or bypasses the cache; nothing but the cache changes,
    and the cache stays coherent. *)
Theorem spiffs_phys_rd_correct T s op fh addr len :
  fs_ok T s -> 1 <= T -> in_page (cfg s) addr len ->
  wp (spiffs_phys_rd op fh addr len) (fun r s' =>
    r = (SPIFFS_OK, vread (view s) addr len) /\ cache_frame s s' /\ fs_ok (T - 1) s') s.
Proof. apply phys_rd_ok. Qed.

(** a cached write programs exactly the addressed bytes (bits only go from 1
    to 0) and keeps the cache coherent, provided the flash can store the data as
    it is or the write deletes a page, and the write does not bypass the cache. *)
Theorem spiffs_phys_wr_correct T s op fh addr src :
  fs_ok T s -> 1 <= T -> in_page (cfg s) addr (zlen src) -> coherent_wr op (view s) addr src ->
  wp (spiffs_phys_wr op fh addr src) (fun r s' => r = SPIFFS_OK /\ flash_frame s s' /\ fs_ok (T - 1) s' /\
    forall x, view s' x = programmed (view s) addr src x) s.
Proof. intros. wp_apply phys_wr_ok; [done..|]. intros r s' (? & ? & ? & ? & _). done. Qed.

(** the search for an object id terminates and returns the first matching
    lookup entry in cyclic order from the starting position, or
    [SPIFFS_ERR_NOT_FOUND] when no entry of the whole volume matches. *)
Theorem spiffs_obj_lu_find_id_correct T s sb se obj_id bix0 ent0 :
  fs_ok T s -> 0 <= sb < blocks (cfg s) -> 0 <= se -> ticks (cfg s) 0 <= T ->
  wp (spiffs_obj_lu_find_id sb se obj_id bix0 ent0) (fun r s' =>
    lu_frame s s' /\ fs_ok (T - ticks (cfg s) 0) s' /\
    search_result (cfg s) sb se (fun b e => lu_id (cfg s) (view s) b e = obj_id) r) s.
Proof. apply find_id_ok. Qed.

(** the search by object id and span index returns the first live page of the
    object with that span index (finalised, not deleted, not excluded) and leaves
    the search cursor on it; otherwise no such page exists. *)
Theorem spiffs_obj_lu_find_id_and_span_correct T s obj_id spix excl :
  fs_ok T s -> 0 <= cursor_block_ix s < blocks (cfg s) -> 0 <= cursor_obj_lu_entry s -> ticks (cfg s) 1 <= T ->
  wp (spiffs_obj_lu_find_id_and_span obj_id spix excl) (fun r s' =>
    fs_ok (T - ticks (cfg s) 1) s' /\
    span_result (cfg s) (fun b e => lu_id (cfg s) (view s) b e = obj_id /\
      live_page (cfg s) (view s) obj_id spix (if excl =? 0 then None else Some excl) (entry_pix (cfg s) b e) = true) s r s') s.
Proof.
  intros Hok Hcb Hce HT. wp_apply (find_id_and_span_ok T s SPIFFS_VIS_CHECK_ID); [done..|by left|].
  intros r s' [Hok' Hr]. split; [done|].
  assert (Heq : forall b e, ((SPIFFS_VIS_CHECK_ID = SPIFFS_VIS_CHECK_ID -> lu_id (cfg s) (view s) b e = obj_id) /\
      live_page (cfg s) (view s) obj_id spix (if excl =? 0 then None else Some excl) (entry_pix (cfg s) b e) = true) <->
    (lu_id (cfg s) (view s) b e = obj_id /\
      live_page (cfg s) (view s) obj_id spix (if excl =? 0 then None else Some excl) (entry_pix (cfg s) b e) = true))
    by (intros b e; split; intros [? ?]; auto).
  destruct Hr as [(b & e & -> & Hf & Hs)|(-> & Hn & Hs)]; [left|right].
  - exists b, e. split; [done|]. split; [|done]. eapply first_entry_iff; [|exact Hf]. exact Heq.
  - split; [done|]. split; [|done]. intros b e Hb He HP. apply (Hn b e Hb He). by apply Heq.
Qed.

(** the physical copy terminates and copies [len] bytes between two pages
    (chunk by chunk through the stack buffer) when the destination can take them. *)
Theorem spiffs_phys_cpy_correct T s fh dst src len pd ps offd offs :
  fs_ok T s -> 2 * len <= T -> 0 <= len ->
  dst = paddr (cfg s) pd + offd -> 0 <= pd < pages (cfg s) -> 0 <= offd -> offd + len <= psz (cfg s) ->
  src = paddr (cfg s) ps + offs -> 0 <= ps < pages (cfg s) -> 0 <= offs -> offs + len <= psz (cfg s) ->
  pd <> ps ->
  (forall i, 0 <= i < len -> Z.land (view s (dst + i)) (view s (src + i)) = view s (src + i)) ->
  wp (spiffs_phys_cpy fh dst src len) (fun r s' => r = SPIFFS_OK /\ flash_frame s s' /\ fs_ok (T - 2 * len) s' /\
    forall x, view s' x = copied (view s) dst src len x) s.
Proof. apply phys_cpy_ok. Qed.

(** deleting a page zeroes its lookup entry, clears [DELET] and [USED] in its
    header, updates the page counters, and changes no other byte of the flash. *)
Theorem spiffs_page_delete_correct T s b e :
  fs_ok T s -> 2 <= T -> 0 <= b < blocks (cfg s) -> 0 <= e < lue (cfg s) ->
  wp (spiffs_page_delete (entry_pix (cfg s) b e)) (fun r s' => r = SPIFFS_OK /\ fs_ok (T - 2) s' /\
    flash_frame (count_delete s) s' /\ forall x, view s' x = deleted_view (cfg s) (view s) b e x) s.
Proof. apply page_delete_ok. Qed.

(** allocating a page takes the first free lookup entry from the free cursor,
    stores object id, header (with [USED], and [FINAL] when finalising, cleared)
    and data there and changes nothing else; without a free entry it fails with
    [SPIFFS_ERR_NOT_FOUND]. *)
Theorem spiffs_page_allocate_data_correct T s id ph data offs finalize :
  fs_ok T s -> ticks (cfg s) 0 + 4 <= T ->
  0 <= free_cursor_block_ix s < blocks (cfg s) -> 0 <= free_cursor_obj_lu_entry s ->
  cleaning s <> 0 \/ 2 <= free_blocks s -> free_erased s ->
  0 <= offs -> sizeof_page_header + offs < psz (cfg s) ->
  sizeof_page_header + offs + zlen (alloc_data data) <= psz (cfg s) -> Forall is_byte (alloc_data data) ->
  wp (spiffs_page_allocate_data id ph data offs finalize) (fun r s' =>
    (exists b e s1, r = (SPIFFS_OK, entry_pix (cfg s) b e, alloc_header ph finalize) /\
       first_entry (cfg s) (start_pos (cfg s) 0 (free_cursor_block_ix s) (free_cursor_obj_lu_entry s))
         (fun b e => lu_id (cfg s) (view s) b e = SPIFFS_OBJ_ID_FREE) b e /\
       fs_ok (T - ticks (cfg s) 0 - 4) s' /\ lu_frame s s1 /\ flash_frame (count_alloc (claim_free b e s1)) s' /\
       page_stored (cfg s) (view s) (view s') b e id (alloc_header ph finalize) offs (alloc_data data))
    \/ (r = (SPIFFS_ERR_NOT_FOUND, 0, ph) /\ lu_frame s s' /\
        no_entry (cfg s) (fun b e => lu_id (cfg s) (view s) b e = SPIFFS_OBJ_ID_FREE))) s.
Proof. apply page_allocate_data_ok. Qed.

(** Erasing a block in garbage collection blanks exactly that block but for
    its erase count and magic, counts it as free, advances the erase count, and
    drops the block's pages from the cache, which is coherent again. *)
Theorem spiffs_gc_erase_block_correct T s b :
  fs_ok T s -> 2 <= T -> 0 <= b < blocks (cfg s) ->
  wp (spiffs_gc_erase_block b) (fun r s' => r = SPIFFS_OK /\ flash_frame (count_erase s) s' /\ fs_ok (T - 2) s' /\
    forall x, view s' x = erased_view (cfg s) (view s) b (max_erase_count s) x) s.
Proof. apply gc_erase_block_ok. Qed.
End theorems.

(** ** Instances on the demonstration volume *)

Lemma spiffs_phys_rd_correct_witness :
  wp (spiffs_phys_rd (Z.lor SPIFFS_OP_T_OBJ_DA SPIFFS_OP_C_READ) 0 133 20) (fun r s' =>
    r = (SPIFFS_OK, take 20 (demo_data 100)) /\ fs_ok (1000000 - 1) s') demo_file.
Proof.
  eapply wp_mono; [apply (spiffs_phys_rd_correct 1000000); [apply demo_file_ok|lia|]|].
  - exists 2, 5. vm_compute. repeat split; discriminate.
  - intros r s' (-> & _ & Hok). split; [vm_compute; reflexivity|exact Hok].
Defined.

Lemma spiffs_phys_wr_correct_witness :
  wp (spiffs_phys_wr (Z.lor SPIFFS_OP_T_OBJ_DA SPIFFS_OP_C_UPDT) 0 261 [1; 2; 3]) (fun r s' =>
    r = SPIFFS_OK /\ fs_ok (1000000 - 1) s' /\ view s' 262 = 2) demo_file.
Proof.
  eapply wp_mono; [apply (spiffs_phys_wr_correct 1000000); [apply demo_file_ok|lia| |]|].
  - exists 4, 5. vm_compute. repeat split; discriminate.
  - split; [vm_compute; discriminate|]. left. intros i Hi. apply Z.eqb_eq. revert i Hi.
    apply range_check. vm_compute. reflexivity.
  - intros r s' (-> & _ & Hok & Hv). split; [reflexivity|]. split; [exact Hok|]. rewrite Hv. vm_compute. reflexivity.
Defined.

Lemma spiffs_obj_lu_find_id_correct_witness :
  wp (spiffs_obj_lu_find_id 0 0 1 0 0) (fun r s' => fs_ok (1000000 - 9) s' /\
    search_result demo_cfg 0 0 (fun b e => lu_id demo_cfg (view demo_file) b e = 1) r) demo_file.
Proof.
  eapply wp_mono; [apply (spiffs_obj_lu_find_id_correct 1000000);
    [apply demo_file_ok|vm_compute; split; [discriminate|reflexivity]|lia|vm_compute; discriminate]|].
  intros r s' (_ & Hok & Hr). split; [exact Hok|exact Hr].
Defined.

Lemma spiffs_obj_lu_find_id_and_span_correct_witness :
  wp (spiffs_obj_lu_find_id_and_span 1 1 0) (fun r s' => fs_ok (1000000 - 72) s' /\
    span_result demo_cfg (fun b e => lu_id demo_cfg (view demo_file) b e = 1 /\
      live_page demo_cfg (view demo_file) 1 1 None (entry_pix demo_cfg b e) = true) demo_file r s') demo_file.
Proof.
  eapply wp_mono; [apply (spiffs_obj_lu_find_id_and_span_correct 1000000);
    [apply demo_file_ok|vm_compute; split; [discriminate|reflexivity]|vm_compute; discriminate|vm_compute; discriminate]|].
  intros r s' [Hok Hr]. split; [exact Hok|exact Hr].
Defined.

Lemma spiffs_phys_cpy_correct_witness :
  wp (spiffs_phys_cpy 0 320 128 64) (fun r s' => r = SPIFFS_OK /\ view s' 330 = view demo_file 138) demo_file.
Proof.
  eapply wp_mono; [apply (spiffs_phys_cpy_correct 1000000 demo_file 0 320 128 64 5 2 0 0);
    [apply demo_file_ok|lia|lia|reflexivity|vm_compute; repeat split; discriminate|lia|vm_compute; discriminate
    |reflexivity|vm_compute; repeat split; discriminate|lia|vm_compute; discriminate|lia|]|].
  - intros i Hi. apply Z.eqb_eq. revert i Hi. apply range_check. vm_compute. reflexivity.
  - intros r s' (-> & _ & _ & Hv). split; [reflexivity|]. rewrite Hv. reflexivity.
Defined.

Lemma spiffs_page_delete_correct_witness :
  wp (spiffs_page_delete 3) (fun r s' => r = SPIFFS_OK /\ lu_id demo_cfg (view s') 0 2 = SPIFFS_OBJ_ID_DELETED) demo_file.
Proof.
  eapply wp_mono; [apply (spiffs_page_delete_correct 1000000 demo_file 0 2);
    [apply demo_file_ok|lia|vm_compute; split; [discriminate|reflexivity]|vm_compute; split; [discriminate|reflexivity]]|].
  intros r s' (-> & _ & _ & Hv). split; [reflexivity|]. unfold lu_id.
  rewrite (vread_ext (view s') (deleted_view demo_cfg (view demo_file) 0 2)) by (intros; apply Hv).
  vm_compute. reflexivity.
Defined.

Lemma spiffs_page_allocate_data_correct_witness :
  wp (spiffs_page_allocate_data 2 (mkPh 2 0 255) (Some [7; 8; 9]) 0 true) (fun r s' =>
    (exists b e, r = (SPIFFS_OK, entry_pix demo_cfg b e, mkPh 2 0 252)) \/ r.1.1 = SPIFFS_ERR_NOT_FOUND) demo_file.
Proof.
  eapply wp_mono; [apply (spiffs_page_allocate_data_correct 1000000);
    [apply demo_file_ok|vm_compute; discriminate|vm_compute; split; [discriminate|reflexivity]|vm_compute; discriminate
    |right; vm_compute; discriminate|apply demo_file_free_erased|lia|vm_compute; reflexivity|vm_compute; discriminate
    |apply byte_list_check; reflexivity]|].
  intros r s' [(b & e & s1 & -> & _)|(-> & _)]; [left; exists b, e; reflexivity|right; reflexivity].
Defined.

Lemma spiffs_gc_erase_block_correct_witness :
  wp (spiffs_gc_erase_block 0) (fun r s' => r = SPIFFS_OK /\ fs_ok (1000000 - 2) s' /\ view s' 0 = 255) demo_file.
Proof.
  eapply wp_mono; [apply (spiffs_gc_erase_block_correct 1000000);
    [apply demo_file_ok|lia|vm_compute; split; [discriminate|reflexivity]]|].
  intros r s' (-> & _ & Hok & Hv). split; [reflexivity|]. split; [exact Hok|]. rewrite Hv. vm_compute. reflexivity.
Defined.
