(* ===== verification/SpiffsCheckTheorems.v ===== *)
(** What the consistency check of SPIFFS does to single entries, its properties, and runs of
    it on damaged demonstration volumes. *)
From S2P Require Import Prelude CSem SpiffsTypes SpiffsGeom SpiffsCache SpiffsIo SpiffsLookup SpiffsSearch SpiffsPage SpiffsFind SpiffsPageOps SpiffsIndex SpiffsApi SpiffsCheck SpiffsErase SpiffsMount SpiffsRead SpiffsHandle SpiffsSlots SpiffsIds SpiffsCheckProof SpiffsDemo.
From Stdlib Require List.
From stdpp Require Import base list numbers option.

Open Scope Z_scope.

Section repair.
Context {F : Type} {hal : SpiffsHal F} {nor : NorHal F}.
Implicit Types s : spiffs F.

(** The index pages that hold the reference to data page [spix] of object [id]. *)
Definition index_of (c : spiffs_config) (v : Z -> Z) (id spix b e : Z) : Prop :=
  lu_id c v b e = ix_id id /\ live_page c v (ix_id id) (ix_span c spix) None (entry_pix c b e) = true.

(** The search has moved its cursor; cache and lookup buffer may differ. *)
Definition search_frame s s' : Prop :=
  s' = set_cursor_obj_lu_entry (cursor_obj_lu_entry s') (set_cursor_block_ix (cursor_block_ix s')
         (set_lu_work (lu_work s') (set_cache (cache s') s))).

(** ** [spiffs_object_get_data_page_index_reference] *)

Lemma data_ref_ok T s id spix :
  fs_ok T s -> 0 <= cursor_block_ix s < blocks (cfg s) -> 0 <= cursor_obj_lu_entry s -> ticks (cfg s) 1 + 1 <= T ->
  0 <= spix < 65536 ->
  let c := cfg s in let v := view s in
  wp (spiffs_object_get_data_page_index_reference id spix) (fun r s' =>
    search_frame s s' /\ fs_ok (T - ticks c 1 - 1) s' /\
    ((r = (SPIFFS_ERR_NOT_FOUND, 0, 0) /\ no_entry c (index_of c v id spix)) \/
     exists b e, first_entry c (start_pos c 0 (cursor_block_ix s) (cursor_obj_lu_entry s)) (index_of c v id spix) b e /\
       r = (SPIFFS_OK, ix_entry c v (entry_pix c b e) spix, entry_pix c b e))) s.
Proof.
  intros Hok Hcb Hce HT Hspix c v. pose proof (fs_ok_wf _ _ Hok) as Hwf. fold c in Hwf. pose proof (wf_psz c Hwf). pose proof (ticks_nonneg c 1 Hwf ltac:(lia)).
  destruct (objix_entry_fits c Hwf spix ltac:(lia)) as (Hsp & Ho0 & Ho1).
  unfold spiffs_object_get_data_page_index_reference. wp_step. wp_step. fold c. rewrite u16_small by lia. wp_step. unfold spiffs_obj_lu_find_id_and_span.
  wp_apply (find_id_and_span_ok T s SPIFFS_VIS_CHECK_ID (ix_id id) (ix_span c spix) 0); [done|done|done|lia|by left|].
  fold c v. fold c in HT. change (0 =? 0) with true. cbv iota. intros r s1 [Hok1 Hr].
  assert (Hiff : forall b e, ((SPIFFS_VIS_CHECK_ID = SPIFFS_VIS_CHECK_ID -> lu_id c v b e = ix_id id) /\
    live_page c v (ix_id id) (ix_span c spix) None (entry_pix c b e) = true) <-> index_of c v id spix b e) by (unfold index_of; tauto).
  destruct Hr as [(b & e & -> & Hfe & s2 & Hf & ->)|(-> & Hne & Hf)]; cbv beta iota zeta; ok_res.
  - pose proof Hfe as (Hb & He & _). pose proof (entry_pix_range c Hwf b e Hb He) as Hp. pose proof (paddr_range c Hwf _ Hp). pose proof (wf_end c Hwf). pose proof (wf_addr c Hwf).
    rewrite u32_small by (unfold sizeof_page_ix in *; lia). unfold rd_obj_id. wp_step. wp_step.
    set (s3 := set_cursor_obj_lu_entry e _) in *. assert (Hc3 : cfg s3 = c) by (unfold s3; cbn; by rewrite Hf). assert (Hv3 : view s3 = v) by (unfold s3; cbn; by rewrite Hf).
    wp_apply (phys_rd_ok _ s3 _ _ _ _ Hok1); [lia|rewrite Hc3; exists (entry_pix c b e); eexists; split; [done|]; unfold sizeof_obj_id, sizeof_page_ix in *; lia|].
    intros r s4 (-> & Hcf & Hok4). wp_step. wp_step. rewrite Hv3.
    split; [unfold search_frame; rewrite Hcf; unfold s3; by rewrite Hf|]. split; [done|]. right. exists b, e. split; [|done].
    eapply first_entry_iff; [exact Hiff|exact Hfe].
  - wp_step. split; [unfold search_frame; rewrite Hf; by destruct s|]. split; [eapply fs_okx_weaken; [exact Hok1|lia]|]. left. split; [done|].
    intros b e Hb He Hi. by apply (Hne b e Hb He), Hiff.
Qed.

(** ** One entry *)

(** Entries that are removed without looking further: deleted in the header, or the
    header of another object on a page that is deleted, unfinished or neither data
    nor index. *)
Definition removable (id : Z) (h : spiffs_page_header) : bool :=
  let fl := ph_flags h in
  lu_in_use id &&
  if ix_id (ph_obj_id h) =? ix_id id then negb (lu_marking_mismatch id fl) && negb (hasb fl SPIFFS_PH_FLAG_DELET)
  else negb (hasb fl SPIFFS_PH_FLAG_DELET) || hasb fl SPIFFS_PH_FLAG_FINAL
       || negb (hasb fl (Z.lor SPIFFS_PH_FLAG_INDEX SPIFFS_PH_FLAG_IXDELE)).

(** Entries whose page an interrupted write has not finalized. *)
Definition unfinalized (id : Z) (h : spiffs_page_header) : bool :=
  let fl := ph_flags h in
  lu_in_use id && (ix_id (ph_obj_id h) =? ix_id id) && negb (lu_marking_mismatch id fl)
  && hasb fl SPIFFS_PH_FLAG_DELET && hasb fl SPIFFS_PH_FLAG_FINAL.

Definition finalized_view (c : spiffs_config) (v : Z -> Z) (p : Z) : Z -> Z :=
  programmed v (paddr c p + offsetof_flags) [clrb 255 SPIFFS_PH_FLAG_FINAL].

Lemma in_use_not_unused id fl : lu_in_use id = true -> lu_unused_mismatch id fl = false.
Proof.
  unfold lu_in_use, lu_unused_mismatch. intros H. bools. rewrite (proj2 (Z.eqb_neq _ _) H), (proj2 (Z.eqb_neq _ _) H0). done.
Qed.

(** The validation up to the case distinction, then deleting the page. *)
Lemma validate_deletes T s id h b e : fs_ok T s -> 2 <= T -> 0 <= b < blocks (cfg s) -> 0 <= e < lue (cfg s) ->
  removable id h = true ->
  wp (spiffs_lookup_check_validate id h (entry_pix (cfg s) b e)) (fun r s' => r = (SPIFFS_OK, false) /\ fs_ok (T - 2) s' /\
    flash_frame (count_delete s) s' /\ forall x, view s' x = deleted_view (cfg s) (view s) b e x) s.
Proof.
  intros Hok HT Hb He. unfold removable. intros [Hu Hr]%andb_true_iff.
  assert (Hdel : wp (res ← spiffs_page_delete (entry_pix (cfg s) b e); mret (res, false)) (fun r s' => r = (SPIFFS_OK, false) /\ fs_ok (T - 2) s' /\
    flash_frame (count_delete s) s' /\ forall x, view s' x = deleted_view (cfg s) (view s) b e x) s).
  { wp_step. wp_apply page_delete_ok; [done..|]. intros r s' (-> & ?). by wp_step. }
  unfold spiffs_lookup_check_validate. cbv zeta. rewrite in_use_not_unused, Hu by done. wp_step.
  destruct (ix_id (ph_obj_id h) =? ix_id id); cbn [negb].
  - bools. rewrite H, H0. cbn [negb]. cbv iota. wp_step. done.
  - unfold validate_foreign. rewrite Hr. wp_step. done.
Qed.

Lemma lookup_check_v_removes_ok T s b e :
  let c := cfg s in let v := view s in
  fs_ok T s -> 3 <= T -> 0 <= b < blocks c -> 0 <= e < lue c -> removable (lu_id c v b e) (ph_at c v (entry_pix c b e)) = true ->
  wp (spiffs_lookup_check_v (lu_id c v b e) b e tt) (fun r s' => r = (SPIFFS_VIS_COUNTINUE, tt) /\ fs_ok (T - 3) s' /\
    flash_frame (count_delete s) s' /\ forall x, view s' x = deleted_view c v b e x) s.
Proof.
  intros c v Hok HT Hb He Hr. pose proof (fs_ok_wf _ _ Hok) as Hwf. fold c in Hwf.
  unfold spiffs_lookup_check_v. wp_step. wp_step. fold c. rewrite entry_to_pix by done. wp_step.
  wp_apply (rd_page_header_ok T s); [done|lia|by apply entry_pix_range|]. intros r s1 (-> & Hcf & Hok1). ok_res. wp_step.
  assert (Hc1 : cfg s1 = c) by (by rewrite Hcf). assert (Hv1 : view s1 = v) by (by rewrite Hcf). fold c v.
  pose proof (validate_deletes (T - 1) s1 (lu_id c v b e) (ph_at c v (entry_pix c b e)) b e Hok1 ltac:(lia)) as Hd. rewrite Hc1, Hv1 in Hd.
  wp_apply (Hd Hb He Hr). intros r s2 (-> & Hok2 & Hf2 & Hv2). ok_res. wp_step. split; [done|].
  split; [by replace (T - 3) with (T - 1 - 2) by lia|]. split; [|done]. unfold flash_frame, count_delete in *. rewrite Hf2, Hcf. done.
Qed.

(** What becomes of an unfinalized page: it is finalized when the index of its
    object refers to it, and deleted when there is no index or the index refers to
    another page. *)
Definition unfinalized_outcome (c : spiffs_config) (v : Z -> Z) (start : Z) (b e : Z) (v' : Z -> Z) : Prop :=
  let id := lu_id c v b e in let p := entry_pix c b e in let spix := ph_span_ix (ph_at c v p) in
  (no_entry c (index_of c v id spix) /\ forall x, v' x = deleted_view c v b e x) \/
  exists bi ei, first_entry c start (index_of c v id spix) bi ei /\
    forall x, v' x = (if ix_entry c v (entry_pix c bi ei) spix =? p then finalized_view c v p x else deleted_view c v b e x).

Lemma wr_page_flags_ok T s op p m : fs_ok T s -> 1 <= T -> 0 <= p < pages (cfg s) ->
  wp (wr_page_flags op p m) (fun r s' => r = SPIFFS_OK /\ flash_frame s s' /\ fs_okx (fun q => q <> p) (T - 1) s' /\
    forall x, view s' x = programmed (view s) (paddr (cfg s) p + offsetof_flags) [clrb 255 m] x) s.
Proof.
  intros Hok HT Hp. pose proof (fs_ok_wf _ _ Hok) as Hwf. pose proof (paddr_range _ Hwf _ Hp). pose proof (wf_psz _ Hwf). pose proof (wf_end _ Hwf). pose proof (wf_addr _ Hwf).
  unfold wr_page_flags. wp_step. wp_step. rewrite u32_small by (unfold offsetof_flags; lia).
  wp_apply (phys_wr_at (fun q => q <> p) T s op 0 _ _ p offsetof_flags); [by apply (fs_okx_coh _ _ _ _ Hok)|done|done|done|unfold offsetof_flags; lia| |done|].
  { change (zlen _) with 1. unfold offsetof_flags. lia. }
  intros r s' (-> & Hf & Hok' & Hv & _). done.
Qed.

Lemma dec_span_range c s p : 0 <= ph_span_ix (ph_at c (view s) p) < 65536.
Proof.
  unfold ph_at, dec_page_header. cbn [ph_span_ix]. change (sizeof_page_header) with 5. rewrite slice_vread by lia. unfold dec16.
  assert (Hb : forall x, 0 <= view s x < 256) by (intros; apply hal_byte).
  rewrite !zget_vread by lia. pose proof (Hb (paddr c p + 2 + 0)). pose proof (Hb (paddr c p + 2 + 1)). lia.
Qed.

Lemma lookup_check_v_unfinalized_ok T s b e :
  let c := cfg s in let v := view s in let p := entry_pix c b e in
  fs_ok T s -> 0 <= cursor_block_ix s < blocks c -> 0 <= cursor_obj_lu_entry s -> ticks c 1 + 4 <= T ->
  0 <= b < blocks c -> 0 <= e < lue c -> unfinalized (lu_id c v b e) (ph_at c v p) = true ->
  wp (spiffs_lookup_check_v (lu_id c v b e) b e tt) (fun r s' => r = (SPIFFS_VIS_COUNTINUE_RELOAD, tt) /\
    fs_okx (fun q => q <> p) (T - ticks c 1 - 4) s' /\
    unfinalized_outcome c v (start_pos c 0 (cursor_block_ix s) (cursor_obj_lu_entry s)) b e (view s')) s.
Proof.
  intros c v p Hok Hcb Hce HT Hb He Hun. pose proof (fs_ok_wf _ _ Hok) as Hwf. fold c in Hwf. pose proof (ticks_nonneg c 1 Hwf ltac:(lia)).
  pose proof (entry_pix_range c Hwf b e Hb He) as Hp. fold p in Hp.
  set (id := lu_id c v b e) in *. set (h := ph_at c v p) in *. set (spix := ph_span_ix h).
  assert (Hspix : 0 <= spix < 65536) by apply dec_span_range.
  unfold spiffs_lookup_check_v. wp_step. wp_step. fold c. rewrite entry_to_pix by done. fold p. wp_step.
  wp_apply (rd_page_header_ok T s); [done|lia|done|]. fold c v h. intros r s1 (-> & Hcf & Hok1). ok_res.
  assert (Hc1 : cfg s1 = c) by (by rewrite Hcf). assert (Hv1 : view s1 = v) by (by rewrite Hcf).
  assert (Hcu : cursor_block_ix s1 = cursor_block_ix s /\ cursor_obj_lu_entry s1 = cursor_obj_lu_entry s) by (by rewrite Hcf). destruct Hcu as [Hcu1 Hcu2].
  wp_step. unfold spiffs_lookup_check_validate. cbv zeta. unfold unfinalized in Hun. cbv zeta in Hun.
  rewrite !andb_true_iff, negb_true_iff in Hun. destruct Hun as ((((Hu & Hi) & Hm) & Hde) & Hfi).
  rewrite in_use_not_unused, Hu, Hi, Hm, Hde, Hfi by done. cbn [negb]. cbv iota. wp_step. unfold validate_unfinalized. wp_step.
  wp_apply (data_ref_ok (T - 1) s1 id spix Hok1); [by rewrite Hcu1, Hc1|by rewrite Hcu2|rewrite Hc1; lia|done|]. rewrite Hc1, Hv1, Hcu1, Hcu2.
  intros r s2 (Hf2 & Hok2 & Hr). assert (Hc2 : cfg s2 = c) by (by rewrite Hf2). assert (Hv2 : view s2 = v) by (by rewrite Hf2).
  assert (Hdel : forall (Q : Z * unit -> spiffs F -> Prop),
    (forall s', (forall x, view s' x = deleted_view c v b e x) -> fs_okx (fun q => q <> p) (T - ticks c 1 - 4) s' -> Q (SPIFFS_VIS_COUNTINUE_RELOAD, tt) s') ->
    wp (res ← spiffs_page_delete p; mret (res, true)) (fun r s' =>
      wp (let '(res, reload_lu) := r in
          if res <? SPIFFS_OK then mret (res, tt)
          else if res =? SPIFFS_OK then mret (if (reload_lu : bool) then SPIFFS_VIS_COUNTINUE_RELOAD else SPIFFS_VIS_COUNTINUE, tt) else mret (res, tt)) Q s') s2).
  { intros Q HQ. pose proof (page_delete_ok (T - 1 - ticks c 1 - 1) s2 b e Hok2) as Hd. rewrite Hc2, Hv2 in Hd. wp_step.
    wp_apply Hd; [lia|done|done|]. intros r3 s3 (-> & Hok3 & _ & Hv3). wp_step. ok_res. wp_step. apply HQ; [done|].
    apply (fs_okx_coh (fun _ => True)); [|done]. by replace (T - ticks c 1 - 4) with (T - 1 - ticks c 1 - 1 - 2) by lia. }
  destruct Hr as [[-> Hne]|(bi & ei & Hfe & ->)]; cbv beta iota zeta.
  - rewrite Z.eqb_refl. cbv iota. wp_step. apply Hdel. intros s' Hv' Hok'. split; [done|]. split; [done|]. left. done.
  - change (SPIFFS_OK =? SPIFFS_ERR_NOT_FOUND) with false. ok_res. destruct (ix_entry c v (entry_pix c bi ei) spix =? p) eqn:Ep; cbn [negb]; cbv iota.
    2: { wp_step. apply Hdel. intros s' Hv' Hok'. split; [done|]. split; [done|]. right. exists bi, ei. split; [done|].
      intros x. cbv zeta. fold p. fold h. fold spix. bools. rewrite (proj2 (Z.eqb_neq _ _)) by done. done. }
    wp_step. wp_apply (wr_page_flags_ok _ s2 _ p SPIFFS_PH_FLAG_FINAL Hok2); [lia|by rewrite Hc2|]. intros r s3 (-> & Hf3 & Hok3 & Hv3).
    wp_step. wp_step. ok_res. wp_step. split; [done|]. split; [eapply fs_okx_weaken; [exact Hok3|lia]|].
    right. exists bi, ei. split; [done|]. intros x. cbv zeta. fold p. fold h. fold spix. bools. rewrite (proj2 (Z.eqb_eq _ _)) by done. rewrite Hv3, Hc2, Hv2. done.
Qed.
End repair.

(** Properties of the consistency check of SPIFFS, with instances on damaged
    demonstration volumes. *)

(** ** Executable consistency *)

Definition consistent_entries_check (c : spiffs_config) (v : Z -> Z) : bool :=
  forallb (fun q => entry_consistent (lu_id c v (blk c q) (ent c q)) (ph_at c v (pix_at c q))) (seqZ 0 (blocks c * lue c)).

Definition consistent_refs_check (c : spiffs_config) (v : Z -> Z) : bool :=
  let n := blocks c * lue c in let refs := refs_upto c v n in
  forallb (fun q => let p := pix_at c q in
    if live_ix_page c v p then forallb (fun i => ref_ok c v p i) (seqZ 0 (ref_count c v p)) else true) (seqZ 0 n)
  && bool_decide (NoDup refs)
  && forallb (fun q => let p := pix_at c q in
       if used_page c v p then if live_ix_page c v p then true else existsb (Z.eqb p) refs else true) (seqZ 0 n).

Lemma consistent_entries_check_ok c v : consistent_entries_check c v = true -> consistent_entries c v.
Proof. intros H q Hq. exact (range_check _ _ H q Hq). Qed.

Lemma consistent_refs_check_ok c v : consistent_refs_check c v = true -> consistent_refs c v.
Proof.
  unfold consistent_refs_check. cbv zeta. intros [[H1 H2]%andb_true_iff H3]%andb_true_iff. split.
  - intros q i Hq Hl Hi. pose proof (range_check _ _ H1 q Hq) as H. cbv beta in H. rewrite Hl in H. exact (range_check _ _ H i Hi).
  - by apply bool_decide_eq_true in H2.
  - intros q Hq Hu. pose proof (range_check _ _ H3 q Hq) as H. cbv beta in H. rewrite Hu in H. destruct (live_ix_page _ _ _); [by left|].
    right. apply existsb_exists in H as (r & Hr & Heq). apply Z.eqb_eq in Heq. subst r. by apply list_elem_of_In.
Qed.

(** A demonstration volume with the bytes [l] at [a], freshly mounted with a cache
    of 23 pages. *)
Definition damaged (a : Z) (l : list Z) : spiffs nor_flash :=
  run (SPIFFS_mount demo_cfg (replicate 128 0) 1024 144 2048 2000)
    (set_flash (mkNor 512 (splice (nor_mem (flash demo_file)) a l)) demo_formatted).

(** The first data page of the file (page 2, flags at 132) is not finalized, is
    deleted; the lookup entry of that page (at 2) has the id of another object, is
    zero. *)
Definition demo_unfinalized : spiffs nor_flash := Eval vm_compute in damaged 132 [254].
Definition demo_half_deleted : spiffs nor_flash := Eval vm_compute in damaged 132 [124].
Definition demo_foreign : spiffs nor_flash := Eval vm_compute in damaged 2 [9; 0].
Definition demo_zeroed : spiffs nor_flash := Eval vm_compute in damaged 2 [0; 0].

(** Reads the file of the demonstration volume: the bytes read. *)
Definition demo_read : C (spiffs nor_flash) (Z * list Z) :=
  fh ← SPIFFS_open [1; 2; 3; 4] demo_name SPIFFS_RDWR; r ← SPIFFS_read 0 fh 100; _ ← SPIFFS_close 0 fh; mret r.

Definition result_of {A} (m : C (spiffs nor_flash) A) s : option A := match m s with Done (r, _) => Some r | _ => None end.

(** ** Theorems *)

Section theorems.
Context {F : Type} {hal : SpiffsHal F} {nor : NorHal F}.
Implicit Types s : spiffs F.

(** C21: the consistency check ends on every consistent volume, within one pass over each
    range of pages the bitmap covers (the fuel only has to exceed their number), returns
    [SPIFFS_OK], and leaves the volume as it is: the flash contents, the descriptors and
    cursors are unchanged, only the counters are computed anew.  Consistent means: lookup
    entries and page headers agree, index pages refer to the pages they should, each at
    most once, and every data page in use is referenced. *)
Theorem SPIFFS_check_consistent T s fuel : fs_ok T s -> guard_error s = None -> check_ticks (cfg s) <= T ->
  consistent_entries (cfg s) (view s) -> consistent_refs (cfg s) (view s) -> scan_fits (cfg s) ->
  bad_blocks (cfg s) (view s) (blocks (cfg s)) = [] -> scan_ranges (cfg s) < Z.of_nat fuel ->
  wp (SPIFFS_check fuel) (fun r s' => r = SPIFFS_OK /\ fs_ok (T - check_ticks (cfg s)) s' /\
    exists s1, work_frame s s1 /\
      scanned (view s) (scan_erase_count (ec_min (cfg s) (view s) (blocks (cfg s))) (ec_max (cfg s) (view s) (blocks (cfg s)))) s1 s') s.
Proof. apply check_consistent_ok. Qed.

(** A page an interrupted write has left unfinalized is finalized by the look-up
    check when the index of its object refers to it; it is deleted when the object has no
    index page for it or the index refers to another page.  Nothing else on the flash
    changes, and the lookup page is read again. *)
Theorem spiffs_lookup_check_v_unfinalized T s b e :
  let c := cfg s in let v := view s in let p := entry_pix c b e in
  fs_ok T s -> 0 <= cursor_block_ix s < blocks c -> 0 <= cursor_obj_lu_entry s -> ticks c 1 + 4 <= T ->
  0 <= b < blocks c -> 0 <= e < lue c -> unfinalized (lu_id c v b e) (ph_at c v p) = true ->
  wp (spiffs_lookup_check_v (lu_id c v b e) b e tt) (fun r s' => r = (SPIFFS_VIS_COUNTINUE_RELOAD, tt) /\
    fs_okx (fun q => q <> p) (T - ticks c 1 - 4) s' /\
    unfinalized_outcome c v (start_pos c 0 (cursor_block_ix s) (cursor_obj_lu_entry s)) b e (view s')) s.
Proof. apply lookup_check_v_unfinalized_ok. Qed.

(** an entry in use whose page header is deleted, or belongs to another object while
    the page is deleted, unfinished or neither data nor index, is deleted by the look-up
    check: exactly the lookup entry is zeroed and the header marked deleted, and the page
    counters follow. *)
Theorem spiffs_lookup_check_v_removes T s b e :
  let c := cfg s in let v := view s in
  fs_ok T s -> 3 <= T -> 0 <= b < blocks c -> 0 <= e < lue c -> removable (lu_id c v b e) (ph_at c v (entry_pix c b e)) = true ->
  wp (spiffs_lookup_check_v (lu_id c v b e) b e tt) (fun r s' => r = (SPIFFS_VIS_COUNTINUE, tt) /\ fs_ok (T - 3) s' /\
    flash_frame (count_delete s) s' /\ forall x, view s' x = deleted_view c v b e x) s.
Proof. apply lookup_check_v_removes_ok. Qed.
End theorems.

(** ** Instances *)

Lemma SPIFFS_check_consistent_witness : wp (SPIFFS_check 2) (fun r s' => r = SPIFFS_OK /\ forall x, view s' x = view demo_big x) demo_big.
Proof.
  eapply wp_mono; [apply (SPIFFS_check_consistent 1000000 demo_big 2)|].
  - exact demo_big_ok.
  - vm_compute. reflexivity.
  - vm_compute. discriminate.
  - apply consistent_entries_check_ok. vm_compute. reflexivity.
  - apply consistent_refs_check_ok. vm_compute. reflexivity.
  - vm_compute. discriminate.
  - vm_compute. reflexivity.
  - vm_compute. reflexivity.
  - intros r s' (-> & _ & s1 & _ & _ & Hv & _). split; [reflexivity|exact Hv].
Defined.

Lemma spiffs_lookup_check_v_unfinalized_witness :
  wp (spiffs_lookup_check_v (lu_id demo_cfg (view demo_unfinalized) 0 1) 0 1 tt) (fun r s' => r = (SPIFFS_VIS_COUNTINUE_RELOAD, tt)) demo_unfinalized.
Proof.
  eapply wp_mono; [apply (spiffs_lookup_check_v_unfinalized 1000000 demo_unfinalized 0 1)|].
  - apply fs_check_ok. vm_compute. reflexivity.
  - vm_compute. split; [discriminate|reflexivity].
  - vm_compute. discriminate.
  - vm_compute. discriminate.
  - vm_compute. split; [discriminate|reflexivity].
  - vm_compute. split; [discriminate|reflexivity].
  - vm_compute. reflexivity.
  - intros r s' (-> & _). reflexivity.
Defined.

Lemma spiffs_lookup_check_v_removes_witness :
  wp (spiffs_lookup_check_v (lu_id demo_cfg (view demo_half_deleted) 0 1) 0 1 tt) (fun r s' => lu_id demo_cfg (view s') 0 1 = SPIFFS_OBJ_ID_DELETED) demo_half_deleted.
Proof.
  eapply wp_mono; [apply (spiffs_lookup_check_v_removes 1000000 demo_half_deleted 0 1)|].
  - apply fs_check_ok. vm_compute. reflexivity.
  - lia.
  - vm_compute. split; [discriminate|reflexivity].
  - vm_compute. split; [discriminate|reflexivity].
  - vm_compute. reflexivity.
  - intros r s' (_ & _ & _ & Hv). unfold lu_id.
    rewrite (vread_ext (view s') (deleted_view demo_cfg (view demo_half_deleted) 0 1)) by (intros; apply Hv).
    vm_compute. reflexivity.
Defined.

(** ** What the check gets wrong *)

(** The check repairs the unfinalized page and the file can be read; but once the
    file has been read, and its page is cached, the same check deletes the file:
    the flags written over the header replace the cached ones. *)
Lemma finalize_spoils_cached_page :
  result_of (_ ← SPIFFS_check 9; demo_read) demo_unfinalized = Some (100, demo_data 100) /\
  result_of (_ ← demo_read; _ ← SPIFFS_check 9; demo_read) demo_unfinalized = Some (-1, []).
Proof. split; vm_compute; reflexivity. Qed.

(** After one lookup entry with a wrong id the rest of the lookup page is checked
    against whatever the repair has left in [fs->lu_work], which is not read again:
    every page of the block is moved or deleted.  An entry that is zeroed instead,
    where the page is read again, costs the two pages of the repair. *)
Lemma foreign_entry_clears_block :
  (lu_id demo_cfg (view (run (SPIFFS_check 9) demo_foreign)) 0 <$> seqZ 0 7) = replicate 7 SPIFFS_OBJ_ID_DELETED /\
  (lu_id demo_cfg (view (run (SPIFFS_check 9) demo_zeroed)) 0 <$> seqZ 0 7) = [0; 0; 1; 1; 32769; 65535; 65535].
Proof. split; vm_compute; reflexivity. Qed.
