(* ===== verification/SpiffsFileTheorems.v ===== *)
(** The properties of the volume and file layer of SPIFFS: mounting, formatting,
    descriptors, and reading stored files. *)
From S2P Require Import Prelude CSem SpiffsTypes SpiffsGeom SpiffsCache SpiffsIo SpiffsLookup SpiffsSearch SpiffsPage SpiffsFind SpiffsPageOps SpiffsErase SpiffsMount SpiffsIndex SpiffsObject SpiffsContent SpiffsApi SpiffsRead SpiffsHandle SpiffsOpen SpiffsDemo.
From stdpp Require Import base list numbers option.

Open Scope Z_scope.

Section theorems.
Context {F : Type} {hal : SpiffsHal F} {nor : NorHal F}.
Implicit Types s : spiffs F.

(** C20: [SPIFFS_read] on an open, readable handle returns exactly the bytes of the
    stored file from the handle's offset up to the requested length or the end of
    the file, and advances the offset by their number; at the end of the file it
    fails with [SPIFFS_ERR_END_OF_OBJECT]. *)
Theorem SPIFFS_read_correct T s uninit fh fd content len :
  fs_cur T s -> fd_table_ok s -> guard_error s = None ->
  1 <= fh <= fd_count s -> fds s !! Z.to_nat (fh - 1) = Some fd -> fd_file_nbr fd <> 0 -> hasb (fd_flags fd) SPIFFS_RDONLY = true ->
  unbuffered s fd -> holds (cfg s) (view s) (fd_obj_id fd) (fd_objix_hdr_pix fd) content -> fd_size fd = zlen content ->
  zlen content <= 65535 * dps (cfg s) -> zlen content < 2 ^ 31 -> 0 < len < 2 ^ 31 -> 0 <= fd_fdoffset fd < 2 ^ 31 ->
  let pos := fd_fdoffset fd in let n := readable (zlen content) pos len in
  read_pages (cfg s) pos (pos + n) * read_ticks (cfg s) <= T ->
  wp (SPIFFS_read uninit fh len) (fun r s' =>
    if n =? 0 then r = (-1, []) /\ s' = set_err_code SPIFFS_ERR_END_OF_OBJECT s
    else r = (n, slice content pos n) /\ exists fd' : spiffs_fd,
      reading (T - read_pages (cfg s) pos (pos + n) * read_ticks (cfg s)) s (fh - 1) (set_fd_fdoffset (pos + n) fd) fd' s') s.
Proof. apply api_read_ok. Qed.

(** [spiffs_object_read] terminates and returns the addressed part of a stored
    object, loading an index page whenever the read crosses into another one, and
    leaves the descriptor's cursor on the last one. *)
Theorem spiffs_object_read_correct T s fd_i fd content off len :
  fs_cur T s -> fds s !! Z.to_nat fd_i = Some fd ->
  holds (cfg s) (view s) (fd_obj_id fd) (fd_objix_hdr_pix fd) content -> fd_size fd = zlen content ->
  zlen content <= 65535 * dps (cfg s) -> zlen content < 2 ^ 32 ->
  0 <= off -> 0 <= len -> off + len <= zlen content ->
  read_pages (cfg s) off (off + len) * read_ticks (cfg s) <= T ->
  wp (spiffs_object_read fd_i off len) (fun r s' => r = (SPIFFS_OK, slice content off len) /\
    exists fd' : spiffs_fd, reading (T - read_pages (cfg s) off (off + len) * read_ticks (cfg s)) s fd_i fd fd' s' /\
      (0 < len -> fd_offset fd' = off + len)) s.
Proof. apply object_read_ok. Qed.

(** mounting succeeds exactly when at most one block lacks the magic: with none
    the counters are those of a census of the lookup entries, with one (an erase
    cut off by a power loss) that block is erased again first, with more the mount
    fails with [SPIFFS_ERR_NOT_A_FS] and the flash is untouched. *)
Theorem SPIFFS_mount_correct config workbuf fd_space fd_space_size cache_p cache_sz s :
  wf_cfg config -> psz config <= 65536 -> SPIFFS_CHECK_MAGIC_POSSIBLE config = true ->
  phys_addr config + phys_size config <= hal_cap (flash s) ->
  0 < hal_sector (flash s) -> phys_erase_block config mod hal_sector (flash s) = 0 ->
  cache_p <> 0 ->
  sizeof_spiffs_cache + SPIFFS_CACHE_PAGE_SIZE config <= mount_cache_size config cache_p cache_sz ->
  scan_ticks config < 2 ^ 32 ->
  let v := view s in let bad := bad_blocks config v (blocks config) in
  let ec := scan_erase_count (ec_min config v (blocks config)) (ec_max config v (blocks config)) in
  wp (SPIFFS_mount config workbuf fd_space fd_space_size cache_p cache_sz) (fun r s' => cfg s' = config /\
    let mounted_on v ec := r = 0 /\ fs_ok (2 ^ 32 - 1 - scan_ticks config) s' /\ mounted s' = 1 /\
      config_magic s' = SPIFFS_CONFIG_MAGIC /\ err_code s' = 0 /\ cleaning s' = 0 /\
      free_cursor_block_ix s' = 0 /\ free_cursor_obj_lu_entry s' = 0 /\ cursor_block_ix s' = 0 /\ cursor_obj_lu_entry s' = 0 /\
      Forall (fun fd => fd = zero_fd) (fds s') /\
      exists s0, cfg s0 = config /\ scanned v ec s0 (set_mounted (mounted s0) s') in
    match bad with
    | [] => mounted_on v ec
    | [b] => mounted_on (erased_view config v b ec) (next_erase_count ec)
    | _ => r = -1 /\ err_code s' = SPIFFS_ERR_NOT_A_FS /\ mounted s' = 0 /\ config_magic s' = SPIFFS_CONFIG_MAGIC /\
           fs_geom s' /\ flash s' = flash s
    end) s.
Proof. apply mount_ok. Qed.

(** Formatting a configured volume and mounting it again succeeds and gives an
    empty volume: every block free, nothing allocated or deleted, every lookup
    entry free. *)
Theorem SPIFFS_format_mount T workbuf fd_space fd_space_size cache_p cache_sz s :
  fs_okx (fun _ => False) T s -> config_magic s = SPIFFS_CONFIG_MAGIC -> mounted s = 0 -> 2 * blocks (cfg s) <= T ->
  psz (cfg s) <= 65536 -> SPIFFS_CHECK_MAGIC_POSSIBLE (cfg s) = true -> cache_p <> 0 ->
  sizeof_spiffs_cache + SPIFFS_CACHE_PAGE_SIZE (cfg s) <= mount_cache_size (cfg s) cache_p cache_sz ->
  scan_ticks (cfg s) < 2 ^ 32 ->
  wp (r1 ← SPIFFS_format; r2 ← SPIFFS_mount (cfg s) workbuf fd_space fd_space_size cache_p cache_sz; mret (r1, r2))
     (fun r s' => r = (0, 0) /\ mounted_empty (cfg s) s') s.
Proof. apply format_mount_ok. Qed.

(** C35: opening a name without creating or truncating takes the first closed
    descriptor; it succeeds when the first live index header of that name in scan
    order is consistent, with the descriptor describing that file at offset zero,
    and otherwise fails with the matching error and closes the descriptor again. The
    flash and every other descriptor are unchanged. *)
Theorem SPIFFS_open_correct T s junk name flags :
  fs_cur T s -> fd_table_ok s -> guard_error s = None -> ticks (cfg s) 1 + 2 <= T ->
  zlen (cstr name) < SPIFFS_OBJ_NAME_LEN -> hasb flags SPIFFS_CREAT = false -> hasb flags SPIFFS_TRUNC = false ->
  wp (SPIFFS_open junk name flags) (fun r s' => fs_cur (T - ticks (cfg s) 1 - 2) s' /\ fd_table_ok s' /\
    open_result s name flags r s') s.
Proof. apply open_ok. Qed.

(** A fresh descriptor is the first closed one, gets its index plus one as
    handle, is found by that handle, and is closed again by returning it; no other
    descriptor changes, and a full table is reported. *)
Theorem spiffs_fd_life_cycle s : fd_table_ok s ->
  wp (r ← spiffs_fd_find_new;
      if r.1 =? SPIFFS_OK then
        g ← spiffs_fd_get (r.2 + 1); c ← spiffs_fd_return (r.2 + 1); g' ← spiffs_fd_get (r.2 + 1); mret (r.1, Some (r.2, g, c, g'))
      else mret (r.1, None))
    (fun r s' => fd_table_ok s' /\ match r with
      | (res, Some (i, g, c, g')) => res = SPIFFS_OK /\ g = (SPIFFS_OK, i) /\ c = SPIFFS_OK /\
          g' = (SPIFFS_ERR_FILE_CLOSED, i) /\ s' = s /\ ~ is_open (fds s) (Z.to_nat i) /\
          forall k, (k < Z.to_nat i)%nat -> is_open (fds s) k
      | (res, None) => res = SPIFFS_ERR_OUT_OF_FILE_DESCS /\ s' = s /\ forall k, (k < length (fds s))%nat -> is_open (fds s) k
      end) s.
Proof.
  intros Hok. wp_step. wp_apply fd_find_new_ok; [done|].
  intros r s1 (Hok1 & [(i & fd & Hi & -> & Hfd & Hcl & Hop & Hs1)|(-> & -> & Hfull)]); [|by do 2 wp_step].
  ok_res. pose proof (lookup_lt_Some _ _ _ Hfd) as Hlt. destruct Hok as (Hc & Hl & _).
  assert (Hfd1 : fds s1 !! Z.to_nat (i + 1 - 1) = Some (set_fd_file_nbr (i + 1) fd)).
  { rewrite Hs1. cbn. unfold zset. replace (i + 1 - 1) with i by lia. by apply list_lookup_insert_eq. }
  assert (Hn1 : fd_count s1 = fd_count s) by (by rewrite Hs1).
  assert (Hne : (i + 1 =? 0) = false) by (apply Z.eqb_neq; lia).
  assert (Hir : 1 <= i + 1 <= fd_count s) by (rewrite Hc; unfold zlen; lia).
  wp_step. wp_apply fd_get_ok; [done|]. intros g s2 (-> & [(_ & fd2 & Hfd2 & ->)|(Hn & _)]); [|lia].
  rewrite Hfd1 in Hfd2. injection Hfd2 as <-. cbn [fd_file_nbr set_fd_file_nbr]. rewrite Hne.
  wp_step. wp_apply fd_return_ok; [done|]. intros c s3 (Hok3 & [(_ & fd3 & Hfd3 & Hr)|(Hn & _)]); [|lia].
  rewrite Hfd1 in Hfd3. injection Hfd3 as <-. cbn [fd_file_nbr set_fd_file_nbr] in Hr. rewrite Hne in Hr. destruct Hr as [-> Hs3].
  assert (Hs3' : s3 = s).
  { rewrite Hs3, Hs1. cbn. destruct s; cbn in *. unfold set_fds; cbn. f_equal. unfold zset. replace (i + 1 - 1) with i by lia.
    rewrite list_insert_insert_eq. rewrite list_insert_id; [done|]. rewrite Hfd. f_equal. destruct fd; cbn in *; by subst. }
  clear Hs3. subst s3. wp_step. wp_apply fd_get_ok; [done|]. intros g s4 (-> & [(_ & fd4 & Hfd4 & ->)|(Hn & _)]); [|lia].
  replace (i + 1 - 1) with i in * by lia. rewrite Hfd in Hfd4. injection Hfd4 as <-. rewrite Hcl, Z.eqb_refl.
  wp_step. do 6 (split; [done|]). split; [|done]. intros (fd' & Hfd' & Hne'). congruence.
Qed.
End theorems.

(** ** Instances on the demonstration volume *)

(** Bytes 500 to 599 of the file of 700 bytes: across the end of the header's index. *)
Lemma SPIFFS_read_correct_witness :
  wp (SPIFFS_read 0 1 100) (fun r s' => r = (100, slice (demo_data 700) 500 100)) demo_big.
Proof.
  eapply wp_mono; [apply (SPIFFS_read_correct 1000000 demo_big 0 1 demo_big_fd (demo_data 700) 100)|].
  - split; [exact demo_big_ok|]. vm_compute. repeat split; discriminate.
  - apply fd_table_check_ok. vm_compute. reflexivity.
  - vm_compute. reflexivity.
  - vm_compute. split; discriminate.
  - vm_compute. reflexivity.
  - vm_compute. discriminate.
  - vm_compute. reflexivity.
  - apply unbuffered_check_ok. vm_compute. reflexivity.
  - exact demo_big_holds.
  - vm_compute. reflexivity.
  - vm_compute. discriminate.
  - vm_compute. reflexivity.
  - lia.
  - vm_compute. split; [discriminate|reflexivity].
  - vm_compute. discriminate.
  - intros r s' [Hr _]. exact Hr.
Defined.

Lemma spiffs_object_read_correct_witness :
  wp (spiffs_object_read 0 520 30) (fun r s' => r = (SPIFFS_OK, slice (demo_data 700) 520 30)) demo_big.
Proof.
  eapply wp_mono; [apply (spiffs_object_read_correct 1000000 demo_big 0 demo_big_fd (demo_data 700) 520 30)|].
  - split; [exact demo_big_ok|]. vm_compute. repeat split; discriminate.
  - vm_compute. reflexivity.
  - exact demo_big_holds.
  - vm_compute. reflexivity.
  - vm_compute. discriminate.
  - vm_compute. reflexivity.
  - lia.
  - lia.
  - vm_compute. discriminate.
  - vm_compute. discriminate.
  - intros r s' [Hr _]. exact Hr.
Defined.

Lemma SPIFFS_mount_correct_witness :
  wp demo_mount (fun r s' => r = 0 /\ mounted s' = 1 /\ err_code s' = 0) demo_formatted.
Proof.
  eapply wp_mono; [apply (SPIFFS_mount_correct demo_cfg)|].
  - apply valid_cfg_wf. reflexivity.
  - vm_compute. discriminate.
  - reflexivity.
  - vm_compute. discriminate.
  - reflexivity.
  - reflexivity.
  - discriminate.
  - vm_compute. discriminate.
  - vm_compute. reflexivity.
  - intros r s' [_ H].
    assert (Hbad : bad_blocks demo_cfg (view demo_formatted) (blocks demo_cfg) = []) by (vm_compute; reflexivity).
    rewrite Hbad in H. destruct H as (Hr & _ & Hm & _ & He & _). split; [exact Hr|]. split; [exact Hm|exact He].
Defined.

Lemma SPIFFS_format_mount_witness :
  wp (r1 ← SPIFFS_format; r2 ← SPIFFS_mount demo_cfg (replicate 128 0) 1024 144 2048 272; mret (r1, r2))
     (fun r s' => r = (0, 0) /\ mounted_empty demo_cfg s') demo_configured.
Proof.
  apply (SPIFFS_format_mount 1000000 (replicate 128 0) 1024 144 2048 272 demo_configured);
    [exact demo_configured_ok|reflexivity|reflexivity|vm_compute; discriminate|vm_compute; discriminate|reflexivity
    |discriminate|vm_compute; discriminate|vm_compute; reflexivity].
Defined.

Lemma SPIFFS_open_correct_witness :
  wp (SPIFFS_open [1; 2; 3; 4] demo_name SPIFFS_RDONLY) (fun r s' =>
    fd_table_ok s' /\ open_result demo_big demo_name SPIFFS_RDONLY r s') demo_big.
Proof.
  eapply wp_mono; [apply (SPIFFS_open_correct 1000000 demo_big [1; 2; 3; 4] demo_name SPIFFS_RDONLY)|].
  - split; [exact demo_big_ok|]. vm_compute. repeat split; discriminate.
  - apply fd_table_check_ok. vm_compute. reflexivity.
  - vm_compute. reflexivity.
  - vm_compute. discriminate.
  - vm_compute. reflexivity.
  - vm_compute. reflexivity.
  - vm_compute. reflexivity.
  - intros r s' (_ & Ht & Hr). split; [exact Ht|exact Hr].
Defined.

Lemma spiffs_fd_life_cycle_witness :
  wp (r ← spiffs_fd_find_new;
      if r.1 =? SPIFFS_OK then
        g ← spiffs_fd_get (r.2 + 1); c ← spiffs_fd_return (r.2 + 1); g' ← spiffs_fd_get (r.2 + 1); mret (r.1, Some (r.2, g, c, g'))
      else mret (r.1, None)) (fun r s' => fd_table_ok s' /\ s' = demo_file) demo_file.
Proof.
  eapply wp_mono; [apply spiffs_fd_life_cycle; apply fd_table_check_ok; vm_compute; reflexivity|].
  intros [res [[[[i g] c] g']|]] s'; intros (H & Hr); (split; [exact H|]); [apply Hr|apply Hr].
Defined.
