(* ===== verification/SpiffsStoreTheorems.v ===== *)
(** Creating and writing files: the properties, and their instances on the
    demonstration volume. *)
From S2P Require Import Prelude CSem SpiffsTypes SpiffsGeom SpiffsCache SpiffsIo SpiffsLookup SpiffsSearch SpiffsPage SpiffsFind SpiffsPageOps SpiffsIndex SpiffsGc SpiffsObject SpiffsContent SpiffsApi SpiffsRead SpiffsHandle SpiffsPreserve SpiffsOpen SpiffsSlots SpiffsCreate SpiffsAppend SpiffsWrite SpiffsIds SpiffsStore SpiffsDemo.
From stdpp Require Import base list numbers option relations.

Open Scope Z_scope.

Section claims.
Context {F : Type} {hal : SpiffsHal F} {nor : NorHal F}.
Implicit Types s : spiffs F.

(** C1: on a volume with room and no file of that name, opening a file with
    [SPIFFS_CREAT], writing [data], seeking to the start and reading returns [data];
    the handle is that of the first closed descriptor, and every file that was stored
    before is stored as before.  The data fit the index header page and are written
    through: they are at least a page long, or the handle is unbuffered. *)
Theorem SPIFFS_store_and_read T s junk name flags uninit data i fd hs slots :
  fs_cur T s -> fd_table_ok s -> guard_error s = None -> nothing_buffered s -> psz (cfg s) <= 65536 ->
  zlen (cstr name) < SPIFFS_OBJ_NAME_LEN -> Forall is_byte name -> zlen junk = 4 -> Forall is_byte junk ->
  no_entry (cfg s) (fun b e => named_entry (cfg s) (view s) name b e = true) ->
  0 <= i -> fds s !! Z.to_nat i = Some fd -> fd_file_nbr fd = 0 -> (forall k, (k < Z.to_nat i)%nat -> is_open (fds s) k) ->
  fd_cache_page fd = None ->
  hasb flags SPIFFS_CREAT = true -> hasb flags SPIFFS_RDONLY = true -> hasb flags SPIFFS_WRONLY = true -> hasb flags SPIFFS_APPEND = false ->
  hasb flags SPIFFS_DIRECT = true \/ psz (cfg s) <= zlen data -> Forall is_byte data -> 0 < zlen data < 2 ^ 31 ->
  has_room s (zlen data) hs slots -> store_ticks (cfg s) (zlen data) <= T ->
  wp (h ← SPIFFS_open junk name flags;
      n ← SPIFFS_write uninit h data (zlen data);
      p ← SPIFFS_lseek uninit h 0 SPIFFS_SEEK_SET;
      r ← SPIFFS_read uninit h (zlen data);
      mret (h, n, p, r)) (fun r s' =>
    r = (i + 1, zlen data, 0, (zlen data, data)) /\
    forall id sl content, valid_id id -> zlen content <= 65536 * dps (cfg s) ->
      stored (cfg s) (view s) id sl content -> stored (cfg s) (view s') id sl content) s.
Proof. apply store_and_read_ok. Qed.

(** C3: [spiffs_object_create] takes the next free page, makes it the index header of
    an empty file of that id, name and type, changes the flash in that page and its
    lookup entry only, moves the free cursor and the counters accordingly, tells the
    open descriptors of the file, and leaves every other stored file intact. *)
Theorem spiffs_object_create_correct T s v0 taken sl rest junk id name type :
  fs_ok T s -> ticks (cfg s) 0 + 2 <= T -> gc_fast (dps (cfg s)) s = true -> plan_state v0 taken (sl :: rest) s ->
  valid_id id -> Forall is_byte name -> is_byte type -> zlen junk = 4 -> Forall is_byte junk ->
  wp (spiffs_object_create junk id name type) (fun r s' => r = (SPIFFS_OK, slot_pix (cfg s) sl) /\
    fs_ok (T - ticks (cfg s) 0 - 2) s' /\ empty_file (cfg s) (view s') id name type sl /\
    same_outside (cfg s) (view s) (view s') [sl] /\
    others_kept (cfg s) (view s) (view s') id /\ plan_state v0 (sl :: taken) rest s' /\
    exists s1, took sl s s1 /\
    s' = set_fds (fd_object_event SPIFFS_EV_IX_NEW (data_id id) 0 (slot_pix (cfg s) sl) SPIFFS_UNDEFINED_LEN <$> fds s) s1) s.
Proof. apply create_stored_ok. Qed.

(** C2: [spiffs_object_append] of data that fit the index header page to an empty file
    terminates with the file stored: every data page allocated, written and entered
    in the index, the size set in the header and the descriptor; only the file's
    header and the planned pages change, and every other stored file is intact. *)
Theorem spiffs_object_append_correct T s fd_i fd hs data slots :
  fs_ok T s -> psz (cfg s) <= 65536 -> fds s !! Z.to_nat fd_i = Some fd -> fd_objix_hdr_pix fd = slot_pix (cfg s) hs ->
  0 <= fd_size fd -> valid_id (fd_obj_id fd) -> slot_ok (cfg s) hs -> lu_id (cfg s) (view s) hs.1 hs.2 = ix_id (fd_obj_id fd) ->
  SPIFFS_VALIDATE_OBJIX (ph_at (cfg s) (view s) (slot_pix (cfg s) hs)) (fd_obj_id fd) 0 = None ->
  erased (view s) (paddr (cfg s) (slot_pix (cfg s) hs) + offsetof_size) 4 ->
  erased (view s) (paddr (cfg s) (slot_pix (cfg s) hs) + sizeof_object_ix_header) (psz (cfg s) - sizeof_object_ix_header) ->
  Forall is_byte data -> 0 < zlen data < 2 ^ 32 -> zlen slots = data_pages (cfg s) (zlen data) ->
  data_pages (cfg s) (zlen data) <= SPIFFS_OBJ_HDR_IX_LEN (cfg s) ->
  gc_fast (u32 (zlen data + dps (cfg s))) s = true -> plan_state (view s) [] slots s ->
  app_ticks s (data_pages (cfg s) (zlen data)) + 2 <= T ->
  wp (spiffs_object_append fd_i 0 data (zlen data)) (fun r s' => r = SPIFFS_OK /\
    appended s fd_i fd hs data slots (T - app_ticks s (data_pages (cfg s) (zlen data)) - 2) s' /\
    stored (cfg s) (view s') (fd_obj_id fd) hs data /\ others_kept (cfg s) (view s) (view s') (fd_obj_id fd)) s.
Proof. apply append_stored_ok. Qed.

(** C18: [spiffs_obj_lu_find_free_obj_id], on a volume whose ids fit the bitmap, returns
    the smallest object id no page on the volume belongs to, or [SPIFFS_ERR_FULL] when
    there is none, or [SPIFFS_ERR_CONFLICTING_NAME] when a file of the given name
    exists; it changes the cache and the work buffers only. *)
Theorem spiffs_obj_lu_find_free_obj_id_correct T s name :
  fs_ok T s -> ticks (cfg s) 1 <= T -> ids_fit (cfg s) -> (forall n, name = Some n -> zlen (cstr n) < SPIFFS_OBJ_NAME_LEN) ->
  wp (spiffs_obj_lu_find_free_obj_id name) (fun r s' =>
    free_id_result (cfg s) (view s) name r /\ work_frame s s' /\ fs_ok (T - ticks (cfg s) 1) s') s.
Proof. apply free_obj_id_ok. Qed.
End claims.

(** ** Reachable states *)

Section reachable.
Context {F : Type} {hal : SpiffsHal F}.
Implicit Types s : spiffs F.

(** One call of the API other than [SPIFFS_mount] and [SPIFFS_unmount], with any
    arguments, that returns. *)
Inductive api_step : spiffs F -> spiffs F -> Prop :=
  | step_call a r s s' : api_run a s = Done (r, s') -> api_step s s'
  | step_readdir d r s s' : SPIFFS_readdir d s = Done (r, s') -> api_step s s'.

(** The cache pages carry their own index. *)
Definition cache_table_ok s : Prop :=
  match cache s with
  | Some ca => cpage_count ca = zlen (cpages ca) /\ forall i cp, cpages ca !! i = Some cp -> cp_ix cp = Z.of_nat i
  | None => True
  end.

#[local] Instance cache_table_inv : FsInvW (F := F) cache_table_ok.
Proof.
  assert (Hstep : forall wr s ca ca', cache s = Some ca -> cache_step wr ca ca' -> cache_table_ok s -> cache_table_ok (set_cache (Some ca') s)).
  { intros wr s ca ca' Hca (Hc & _ & H2) H. unfold cache_table_ok in *. rewrite Hca in H. cbn. destruct H as [Hn Hix].
    split; [rewrite Hc, Hn; unfold zlen; by rewrite (Forall2_length _ _ _ H2)|]. intros i cp' Hi.
    destruct (Forall2_lookup_r _ _ _ _ _ H2 Hi) as (cp & Hcp & -> & _). by apply Hix. }
  split; [split|].
  - intros s s' Hk H. unfold cache_table_ok. assert (cache s' = cache s) as -> by (unfold keep in Hk; by injection Hk). done.
  - done.
  - intros s ca ca'. apply Hstep.
  - intros s ca ca'. apply Hstep.
Qed.

Lemma api_step_pres I `{!FsInvW I} s s' : api_step s s' -> I s -> I s'.
Proof. intros [a r s1 s2 H|d r s1 s2 H] HI; [eapply (api_run_pres I)|eapply (readdir_pres I)]; eassumption. Qed.

(** C38: whatever the flash holds and whatever calls are made after mounting, other than
    mounting and unmounting, in every state they lead to the descriptors and cache pages are
    at their places ([fd->file_nbr] is 0 or the position, [cp->ix] is the position), the
    tables have not changed size, the configuration is the one mounted with, and
    [spiffs_fd_get] accepts exactly the numbers of open descriptors. *)
Theorem api_reachable_tables s0 s : fd_table_ok s0 -> cache_table_ok s0 -> rtc api_step s0 s ->
  fd_table_ok s /\ cache_table_ok s /\ volume s = volume s0 /\
  forall fh, wp (spiffs_fd_get fh) (fun r s' => s' = s /\
    (r.1 = SPIFFS_OK <-> 1 <= fh <= fd_count s0 /\ exists fd, fds s !! Z.to_nat (fh - 1) = Some fd /\ fd_file_nbr fd = fh)) s.
Proof.
  intros Ht Hc Hr. assert (H : fd_table_ok s /\ cache_table_ok s /\ volume s = volume s0).
  { induction Hr as [s|s1 s2 s3 Hs _ IH]; [done|].
    assert (Hv : volume s2 = volume s1) by (eapply (api_step_pres (fun s => volume s = volume s1)); [exact Hs|done]).
    rewrite <- Hv. apply IH; eapply api_step_pres; (exact Hs || apply _ || done). }
  destruct H as (Ht' & Hc' & Hv). do 3 (split; [done|]). intros fh. eapply wp_mono; [by apply fd_get_ok|].
  assert (fd_count s = fd_count s0) as <- by (unfold volume in Hv; by injection Hv).
  intros r s' (-> & [(Hfh & fd & Hfd & ->)|(Hn & ->)]); (split; [done|]); cbn [fst].
  - destruct Ht' as (_ & _ & Ho). destruct (Ho _ _ Hfd) as [Hz|Hz].
    + rewrite Hz. split; [done|]. intros (_ & fd' & Hfd' & Hn). rewrite Hfd in Hfd'. injection Hfd' as <-. lia.
    + rewrite (proj2 (Z.eqb_neq _ _)) by lia. split; [|done]. intros _. split; [done|]. exists fd. split; [done|lia].
  - split; [done|]. intros [? _]. done.
Qed.
End reachable.

(** ** Instances on the demonstration volume *)

(** A second file of 100 bytes next to the first one. *)
Lemma SPIFFS_store_and_read_witness :
  wp (h ← SPIFFS_open [1; 2; 3; 4] demo_name2 (Z.lor SPIFFS_CREAT SPIFFS_RDWR);
      n ← SPIFFS_write 0 h (demo_data 100) (zlen (demo_data 100));
      p ← SPIFFS_lseek 0 h 0 SPIFFS_SEEK_SET;
      r ← SPIFFS_read 0 h (zlen (demo_data 100));
      mret (h, n, p, r)) (fun r s' => r = (2, 100, 0, (100, demo_data 100))) demo_file.
Proof.
  assert (Hl : zlen (demo_data 100) = 100) by reflexivity.
  eapply wp_mono; [apply (SPIFFS_store_and_read 1000000 demo_file [1; 2; 3; 4] demo_name2 (Z.lor SPIFFS_CREAT SPIFFS_RDWR) 0
    (demo_data 100) 1 (default zero_fd (fds demo_file !! 1%nat)) demo_hs demo_slots)|].
  - split; [exact demo_file_ok|]. vm_compute. repeat split; discriminate.
  - apply fd_table_check_ok. vm_compute. reflexivity.
  - vm_compute. reflexivity.
  - apply nothing_buffered_check_ok. vm_compute. reflexivity.
  - vm_compute. discriminate.
  - vm_compute. reflexivity.
  - apply byte_list_check. vm_compute. reflexivity.
  - reflexivity.
  - apply byte_list_check. reflexivity.
  - apply no_named_check_ok. vm_compute. reflexivity.
  - lia.
  - vm_compute. reflexivity.
  - vm_compute. reflexivity.
  - intros [|k] Hk; [|lia]. eexists. split; [reflexivity|]. vm_compute. discriminate.
  - vm_compute. reflexivity.
  - vm_compute. reflexivity.
  - vm_compute. reflexivity.
  - vm_compute. reflexivity.
  - vm_compute. reflexivity.
  - right. vm_compute. discriminate.
  - apply byte_list_check. vm_compute. reflexivity.
  - rewrite Hl. lia.
  - rewrite Hl. exact demo_file_room.
  - vm_compute. discriminate.
  - intros r s' [-> _]. rewrite Hl. reflexivity.
Defined.

Lemma spiffs_object_create_correct_witness :
  wp (spiffs_object_create [1; 2; 3; 4] 2 demo_name2 SPIFFS_TYPE_FILE) (fun r s' =>
    r = (SPIFFS_OK, slot_pix demo_cfg demo_hs) /\ empty_file demo_cfg (view s') 2 demo_name2 SPIFFS_TYPE_FILE demo_hs) demo_file.
Proof.
  eapply wp_mono; [apply (spiffs_object_create_correct 1000000 demo_file (view demo_file) [] demo_hs demo_slots)|].
  - exact demo_file_ok.
  - vm_compute. discriminate.
  - vm_compute. reflexivity.
  - apply demo_file_room.
  - vm_compute. repeat split; discriminate.
  - apply byte_list_check. vm_compute. reflexivity.
  - vm_compute. split; [discriminate|reflexivity].
  - reflexivity.
  - apply byte_list_check. reflexivity.
  - intros r s' (-> & _ & He & _). split; [reflexivity|exact He].
Defined.

Lemma spiffs_object_append_correct_witness :
  wp (spiffs_object_append 1 0 (demo_data 100) (zlen (demo_data 100))) (fun r s' =>
    r = SPIFFS_OK /\ stored demo_cfg (view s') (fd_obj_id demo_new_fd) demo_hs (demo_data 100)) demo_new.
Proof.
  eapply wp_mono; [apply (spiffs_object_append_correct 1000000 demo_new 1 demo_new_fd demo_hs (demo_data 100) demo_slots)|].
  - exact demo_new_ok.
  - vm_compute. discriminate.
  - vm_compute. reflexivity.
  - vm_compute. reflexivity.
  - vm_compute. discriminate.
  - vm_compute. repeat split; discriminate.
  - vm_compute. repeat split; discriminate.
  - vm_compute. reflexivity.
  - vm_compute. reflexivity.
  - apply erased_check_ok. vm_compute. reflexivity.
  - apply erased_check_ok. vm_compute. reflexivity.
  - apply byte_list_check. vm_compute. reflexivity.
  - vm_compute. split; reflexivity.
  - vm_compute. reflexivity.
  - vm_compute. discriminate.
  - vm_compute. reflexivity.
  - apply plan_check_ok. vm_compute. reflexivity.
  - vm_compute. discriminate.
  - intros r s' (-> & _ & Hs & _). split; [reflexivity|exact Hs].
Defined.

Lemma spiffs_obj_lu_find_free_obj_id_correct_witness :
  wp (spiffs_obj_lu_find_free_obj_id (Some demo_name2)) (fun r s' =>
    free_id_result demo_cfg (view demo_file) (Some demo_name2) r) demo_file.
Proof.
  eapply wp_mono; [apply (spiffs_obj_lu_find_free_obj_id_correct 1000000 demo_file (Some demo_name2))|].
  - exact demo_file_ok.
  - vm_compute. discriminate.
  - apply demo_file_room.
  - intros n [= <-]. vm_compute. reflexivity.
  - intros r s' [Hr _]. exact Hr.
Defined.

Lemma api_reachable_tables_witness : exists s, api_step demo_file s /\ fd_table_ok s /\ fds s <> fds demo_file.
Proof.
  exists (run (SPIFFS_close 0 1) demo_file).
  assert (Hstep : api_step demo_file (run (SPIFFS_close 0 1) demo_file)).
  { apply (step_call (AClose 0 1) 0). vm_compute. reflexivity. }
  split; [exact Hstep|]. split.
  - apply (api_reachable_tables demo_file).
    + apply fd_table_check_ok. vm_compute. reflexivity.
    + split; [reflexivity|]. intros [|[|[|i]]] cp Hi; vm_compute in Hi; [injection Hi as <-; reflexivity..|discriminate].
    + apply rtc_once. exact Hstep.
  - vm_compute. discriminate.
Defined.
