(* ===== verification/B64.v ===== *)
(** libb64 ([libb64/cencode.c], [libb64/cdecode.c]): the incremental base64 encoder
    and decoder with their states.  Whether [char] is signed is left to the compiler
    by C; it is the parameter [char_signed], and it matters to the decoder.
    Buffers are lists of byte values 0 to 255; [None] is undefined behaviour (an
    access outside a buffer or table). *)
From Stdlib Require Import ZArith Lia Bool.
From S2P Require Import Prelude.
From stdpp Require Import base list numbers option.

Open Scope Z_scope.

Section defs.
Context (char_signed : bool).

(** Conversion to [char]. *)
Definition to_char (x : Z) : Z := if char_signed then (x + 128) mod 256 - 128 else x mod 256.

(** ** [cencode.c] *)

Inductive base64_encodestep : Type := step_A | step_B | step_C.

Record base64_encodestate : Type := mkEnc { enc_step : base64_encodestep; enc_result : Z; enc_stepcount : Z }.

Definition CHARS_PER_LINE : Z := 72.

Definition base64_init_encodestate : base64_encodestate := mkEnc step_A 0 0.

(** "ABCDEFGHIJKLMNOPQRSTUVWXYZabcdefghijklmnopqrstuvwxyz0123456789+/" *)
Definition encoding : list Z := seqZ 65 26 ++ seqZ 97 26 ++ seqZ 48 10 ++ [43; 47].

Definition base64_encode_value (value_in : Z) : option Z :=
  if 63 <? value_in then Some 61 else if value_in <? 0 then None else encoding !! Z.to_nat value_in.

(** The code of one [case]: consumes a character, gives those written. *)
Definition enc_char (ch : Z) (st : base64_encodestate) : option (list Z * base64_encodestate) :=
  let fragment := to_char ch in
  match enc_step st with
  | step_A =>
      let result := to_char (Z.shiftr (Z.land fragment 252) 2) in
      c ← base64_encode_value result;
      Some ([c], mkEnc step_B (to_char (Z.shiftl (Z.land fragment 3) 4)) (enc_stepcount st))
  | step_B =>
      let result := to_char (Z.lor (enc_result st) (Z.shiftr (Z.land fragment 240) 4)) in
      c ← base64_encode_value result;
      Some ([c], mkEnc step_C (to_char (Z.shiftl (Z.land fragment 15) 2)) (enc_stepcount st))
  | step_C =>
      let result := to_char (Z.lor (enc_result st) (Z.shiftr (Z.land fragment 192) 6)) in
      c ← base64_encode_value result;
      let result := to_char (Z.shiftr (Z.land fragment 63) 0) in
      c' ← base64_encode_value result;
      let stepcount := enc_stepcount st + 1 in
      if stepcount =? CHARS_PER_LINE / 4 then Some ([c; c'; 10], mkEnc step_A result 0)
      else Some ([c; c'], mkEnc step_A result stepcount)
  end.

(** The characters written to [code_out], whose number is returned, and the state. *)
Fixpoint base64_encode_block (plaintext_in : list Z) (st : base64_encodestate) : option (list Z * base64_encodestate) :=
  match plaintext_in with
  | [] => Some ([], st)
  | ch :: plaintext_in =>
      r ← enc_char ch st;
      r' ← base64_encode_block plaintext_in r.2;
      Some (r.1 ++ r'.1, r'.2)
  end.

(** The characters counted; a terminating zero is written after them. *)
Definition base64_encode_blockend (st : base64_encodestate) : option (list Z) :=
  match enc_step st with
  | step_B => c ← base64_encode_value (enc_result st); Some [c; 61; 61]
  | step_C => c ← base64_encode_value (enc_result st); Some [c; 61]
  | step_A => Some []
  end.

(** The string written (without its terminating zero), whose length is returned. *)
Definition base64_encode_chars (plaintext_in : list Z) : option (list Z) :=
  r ← base64_encode_block plaintext_in base64_init_encodestate;
  e ← base64_encode_blockend r.2;
  Some (r.1 ++ e).

Definition base64_encode_expected_len (n : Z) : Z := Z.land (4 * n / 3 + 3) (Z.lnot 3).

(** ** [cdecode.c] *)

Inductive base64_decodestep : Type := step_a | step_b | step_c | step_d.

Record base64_decodestate : Type := mkDec { dec_step : base64_decodestep; dec_plainchar : Z }.

Definition base64_init_decodestate : base64_decodestate := mkDec step_a 0.

Definition decoding : list Z :=
  [62;-1;-1;-1;63;52;53;54;55;56;57;58;59;60;61;-1;-1;-1;-2;-1;-1;-1;0;1;2;3;4;5;6;7;8;9;10;11;12;13;14;15;16;17;18;19;
   20;21;22;23;24;25;-1;-1;-1;-1;-1;-1;26;27;28;29;30;31;32;33;34;35;36;37;38;39;40;41;42;43;44;45;46;47;48;49;50;51].
Definition decoding_size : Z := zlen decoding.

Definition base64_decode_value (value_in : Z) : option Z :=
  let value_in := to_char (value_in - 43) in
  if (value_in <? 0) || (decoding_size <? value_in) then Some (-1)
  else to_char <$> decoding !! Z.to_nat value_in.

(** [*p = x] and [*p |= x] for a character of the output buffer. *)
Definition put (buf : list Z) (p : nat) (x : Z) : option (list Z) :=
  if (p <? length buf)%nat then Some (<[p := u8 x]> buf) else None.
Definition put_or (buf : list Z) (p : nat) (x : Z) : option (list Z) := old ← buf !! p; put buf p (Z.lor old x).

(** The loop of [base64_decode_block], [plainchar] being at index [p]. *)
Fixpoint dec_loop (code_in : list Z) (step : base64_decodestep) (buf : list Z) (p : nat)
    : option (nat * list Z * base64_decodestate) :=
  match code_in with
  | [] => c ← buf !! p; Some (p, buf, mkDec step c)
  | ch :: code_in =>
      v ← base64_decode_value (to_char ch);
      let fragment := to_char v in
      if fragment <? 0 then dec_loop code_in step buf p
      else
        match step with
        | step_a =>
            buf ← put buf p (Z.shiftl (Z.land fragment 63) 2);
            dec_loop code_in step_b buf p
        | step_b =>
            buf ← put_or buf p (Z.shiftr (Z.land fragment 48) 4);
            buf ← put buf (p + 1) (Z.shiftl (Z.land fragment 15) 4);
            dec_loop code_in step_c buf (p + 1)
        | step_c =>
            buf ← put_or buf p (Z.shiftr (Z.land fragment 60) 2);
            buf ← put buf (p + 1) (Z.shiftl (Z.land fragment 3) 6);
            dec_loop code_in step_d buf (p + 1)
        | step_d =>
            buf ← put_or buf p (Z.land fragment 63);
            dec_loop code_in step_a buf (p + 1)
        end
  end.

(** The number of characters decoded, the output buffer, and the state. *)
Definition base64_decode_block (code_in : list Z) (plaintext_out : list Z) (st : base64_decodestate)
    : option (nat * list Z * base64_decodestate) :=
  buf ← put plaintext_out 0 (dec_plainchar st);
  dec_loop code_in (dec_step st) buf 0.

Definition base64_decode_chars (code_in : list Z) (plaintext_out : list Z) : option (nat * list Z) :=
  r ← base64_decode_block code_in plaintext_out base64_init_decodestate;
  let '(len, buf, _) := r in
  if (0 <? len)%nat then buf ← put buf len 0; Some (len, buf) else Some (len, buf).

Definition base64_decode_expected_len (n : Z) : Z := n * 3 / 4.
End defs.

(** ** Reference encoding

  Groups of three bytes give four digits; the last group is padded; a newline
  follows every eighteenth full group.  [k] groups are on the current line. *)

Definition digit (v : Z) : Z := encoding !!! Z.to_nat v.

Fixpoint b64_ref (k : Z) (l : list Z) : list Z :=
  match l with
  | a :: b :: c :: l' =>
      [digit (a / 4); digit (a mod 4 * 16 + b / 16); digit (b mod 16 * 4 + c / 64); digit (c mod 64)]
      ++ (if k + 1 =? 18 then 10 :: b64_ref 0 l' else b64_ref (k + 1) l')
  | [a; b] => [digit (a / 4); digit (a mod 4 * 16 + b / 16); digit (b mod 16 * 4); 61]
  | [a] => [digit (a / 4); digit (a mod 4 * 16); 61; 61]
  | [] => []
  end.

(** ** Finite facts *)

(** A boolean property of the numbers below a bound. *)
Lemma below_check (P : Z -> bool) n : forallb P (seqZ 0 n) = true -> forall i, 0 <= i < n -> P i = true.
Proof. intros H i Hi. rewrite forallb_forall in H. apply H, list_elem_of_In, elem_of_seqZ. lia. Qed.

Lemma below_check2 (P : Z -> Z -> bool) n m : forallb (fun i => forallb (P i) (seqZ 0 m)) (seqZ 0 n) = true ->
  forall i j, 0 <= i < n -> 0 <= j < m -> P i j = true.
Proof. intros H i j Hi Hj. apply (below_check _ _ (below_check _ _ H i Hi)). done. Qed.

Lemma below_check3 (P : Z -> Z -> Z -> bool) n m o :
  forallb (fun i => forallb (fun j => forallb (P i j) (seqZ 0 o)) (seqZ 0 m)) (seqZ 0 n) = true ->
  forall i j k, 0 <= i < n -> 0 <= j < m -> 0 <= k < o -> P i j k = true.
Proof. intros H i j k Hi Hj Hk. by apply (below_check2 _ _ _ (below_check _ _ H i Hi)). Qed.

(** An equation between numbers, for all values of bytes: by computation, for
    signed and unsigned [char]. *)
Ltac by_values H :=
  intros; apply Z.eqb_eq;
  repeat match goal with B : 0 <= ?v < ?n |- _ => revert B end;
  repeat match goal with v : Z |- _ => revert v end;
  apply H; try match goal with b : bool |- _ => destruct b end; vm_compute; reflexivity.

(** Induction on a list by groups of three. *)
Lemma list_ind3 {A} (P : list A -> Prop) :
  P [] -> (forall a, P [a]) -> (forall a b, P [a; b]) -> (forall a b c l, P l -> P (a :: b :: c :: l)) -> forall l, P l.
Proof.
  intros H0 H1 H2 H3 l. enough (P l /\ (forall a, P (a :: l)) /\ (forall a b, P (a :: b :: l))) by tauto.
  induction l as [|x l (? & ? & ?)]; auto.
Qed.

Section facts.
Context (char_signed : bool).

Lemma encode_value_digit v : 0 <= v < 64 -> base64_encode_value (to_char char_signed v) = Some (digit v).
Proof.
  intros Hv. apply (proj1 (bool_decide_eq_true _)). revert v Hv.
  apply (below_check (fun v => bool_decide (base64_encode_value (to_char char_signed v) = Some (digit v)))).
  destruct char_signed; vm_compute; reflexivity.
Qed.

Lemma encode_value_range v : 0 <= v < 64 -> to_char char_signed v = v.
Proof. by_values below_check. Qed.

Lemma encode_digit v : 0 <= v < 64 -> base64_encode_value v = Some (digit v).
Proof. intros Hv. rewrite <- (encode_value_range v Hv) at 1. by apply encode_value_digit. Qed.

Lemma char_low2 a : 0 <= a < 256 -> to_char char_signed (Z.shiftl (Z.land (to_char char_signed a) 3) 4) = a mod 4 * 16.
Proof. by_values below_check. Qed.

Lemma char_low4 a : 0 <= a < 256 -> to_char char_signed (Z.shiftl (Z.land (to_char char_signed a) 15) 2) = a mod 16 * 4.
Proof. by_values below_check. Qed.

Lemma char_high6 a : 0 <= a < 256 -> to_char char_signed (Z.shiftr (Z.land (to_char char_signed a) 252) 2) = a / 4.
Proof. by_values below_check. Qed.

Lemma char_low6 a : 0 <= a < 256 -> to_char char_signed (Z.shiftr (Z.land (to_char char_signed a) 63) 0) = a mod 64.
Proof. by_values below_check. Qed.

Lemma char_join4 q b : 0 <= q < 4 -> 0 <= b < 256 ->
  to_char char_signed (Z.lor (q * 16) (Z.shiftr (Z.land (to_char char_signed b) 240) 4)) = q * 16 + b / 16.
Proof. by_values below_check2. Qed.

Lemma char_join6 q c : 0 <= q < 16 -> 0 <= c < 256 ->
  to_char char_signed (Z.lor (q * 4) (Z.shiftr (Z.land (to_char char_signed c) 192) 6)) = q * 4 + c / 64.
Proof. by_values below_check2. Qed.

(** One character through the encoder. *)
Lemma enc_step_A_ok a r k : 0 <= a < 256 ->
  enc_char char_signed a (mkEnc step_A r k) = Some ([digit (a / 4)], mkEnc step_B (a mod 4 * 16) k).
Proof.
  intros Ha. unfold enc_char. cbn [enc_step enc_result enc_stepcount]. rewrite char_high6 by done.
  rewrite encode_digit by (Z.to_euclidean_division_equations; lia). by rewrite char_low2.
Qed.

Lemma enc_step_B_ok b q k : 0 <= q < 4 -> 0 <= b < 256 ->
  enc_char char_signed b (mkEnc step_B (q * 16) k) = Some ([digit (q * 16 + b / 16)], mkEnc step_C (b mod 16 * 4) k).
Proof.
  intros Hq Hb. unfold enc_char. cbn [enc_step enc_result enc_stepcount]. rewrite char_join4 by done.
  rewrite encode_digit by (Z.to_euclidean_division_equations; lia). by rewrite char_low4.
Qed.

Lemma enc_step_C_ok c q k : 0 <= q < 16 -> 0 <= c < 256 ->
  enc_char char_signed c (mkEnc step_C (q * 4) k) =
    Some (digit (q * 4 + c / 64) :: digit (c mod 64) :: (if k + 1 =? 18 then [10] else []),
          mkEnc step_A (c mod 64) (if k + 1 =? 18 then 0 else k + 1)).
Proof.
  intros Hq Hc. unfold enc_char. cbn [enc_step enc_result enc_stepcount]. rewrite char_join6, char_low6 by done.
  rewrite !encode_digit by (Z.to_euclidean_division_equations; lia). change (CHARS_PER_LINE / 4) with 18.
  cbn [mbind option_bind]. by destruct (k + 1 =? 18).
Qed.

(** The encoder from a group boundary. *)
Lemma encode_ref l : Forall is_byte l -> forall r k,
  exists o st e, base64_encode_block char_signed l (mkEnc step_A r k) = Some (o, st) /\
    base64_encode_blockend st = Some e /\ o ++ e = b64_ref k l.
Proof.
  unfold is_byte. induction l as [|a|a b|a b c l IH] using list_ind3; intros Hl r k.
  - by eexists _, _, _.
  - apply Forall_inv in Hl as Ha. cbn [base64_encode_block]. rewrite enc_step_A_ok by done. cbn [mbind option_bind fst snd].
    eexists _, _, _. split; [done|]. unfold base64_encode_blockend. cbn [enc_step enc_result snd].
    rewrite encode_digit by (Z.to_euclidean_division_equations; lia). done.
  - inversion Hl as [|? ? Ha Hl1]; subst. apply Forall_inv in Hl1 as Hb.
    cbn [base64_encode_block]. rewrite enc_step_A_ok by done. cbn [mbind option_bind fst snd].
    rewrite enc_step_B_ok by (done || (Z.to_euclidean_division_equations; lia)). cbn [mbind option_bind fst snd].
    eexists _, _, _. split; [done|]. unfold base64_encode_blockend. cbn [enc_step enc_result snd].
    rewrite encode_digit by (Z.to_euclidean_division_equations; lia). done.
  - inversion Hl as [|? ? Ha Hl1]; subst. inversion Hl1 as [|? ? Hb Hl2]; subst. inversion Hl2 as [|? ? Hc Hl3]; subst.
    cbn [base64_encode_block]. rewrite enc_step_A_ok by done. cbn [mbind option_bind fst snd].
    rewrite enc_step_B_ok by (done || (Z.to_euclidean_division_equations; lia)). cbn [mbind option_bind fst snd].
    rewrite enc_step_C_ok by (done || (Z.to_euclidean_division_equations; lia)). cbn [mbind option_bind fst snd].
    destruct (IH Hl3 (c mod 64) (if k + 1 =? 18 then 0 else k + 1)) as (o & st & e & -> & He & Hoe).
    eexists _, st, e. split; [done|]. split; [done|]. cbn [fst snd b64_ref app].
    destruct (k + 1 =? 18); cbn [app]; by rewrite <- Hoe.
Qed.

Lemma encode_chars_ref l : Forall is_byte l -> base64_encode_chars char_signed l = Some (b64_ref 0 l).
Proof.
  intros Hl. destruct (encode_ref l Hl 0 0) as (o & st & e & Hb & He & Hoe).
  unfold base64_encode_chars, base64_init_encodestate. rewrite Hb. cbn [mbind option_bind snd fst]. rewrite He.
  cbn [mbind option_bind]. by rewrite Hoe.
Qed.

(** ** Decoding *)

Lemma decode_digit v : 0 <= v < 64 -> base64_decode_value char_signed (to_char char_signed (digit v)) = Some v.
Proof.
  intros Hv. apply (proj1 (bool_decide_eq_true _)). revert v Hv.
  apply (below_check (fun v => bool_decide (base64_decode_value char_signed (to_char char_signed (digit v)) = Some v))).
  destruct char_signed; vm_compute; reflexivity.
Qed.

Lemma put_app pre x post y : put (pre ++ x :: post) (length pre) y = Some (pre ++ u8 y :: post).
Proof.
  unfold put. rewrite length_app. cbn [length]. rewrite (proj2 (Nat.ltb_lt _ _)) by lia.
  f_equal. rewrite insert_app_r_alt by lia. by rewrite Nat.sub_diag.
Qed.

Lemma put_or_app pre x post y : put_or (pre ++ x :: post) (length pre) y = Some (pre ++ u8 (Z.lor x y) :: post).
Proof. unfold put_or. rewrite list_lookup_middle by done. apply put_app. Qed.

(** The position after a character. *)
Lemma put_app_next pre x x' post y : put (pre ++ x :: x' :: post) (length pre + 1) y = Some (pre ++ x :: u8 y :: post).
Proof.
  change (x :: x' :: post) with ([x] ++ x' :: post). rewrite app_assoc.
  replace (length pre + 1)%nat with (length (pre ++ [x])) by (rewrite length_app; done). rewrite put_app. by rewrite <- app_assoc.
Qed.

Lemma dec_a v code pre x post : 0 <= v < 64 ->
  dec_loop char_signed (digit v :: code) step_a (pre ++ x :: post) (length pre) =
  dec_loop char_signed code step_b (pre ++ u8 (Z.shiftl (Z.land v 63) 2) :: post) (length pre).
Proof.
  intros Hv. cbn [dec_loop]. rewrite decode_digit by done. cbn [mbind option_bind]. rewrite encode_value_range by done.
  rewrite (proj2 (Z.ltb_ge v 0)) by lia. by rewrite put_app.
Qed.

Lemma dec_b v code pre x x' post : 0 <= v < 64 ->
  dec_loop char_signed (digit v :: code) step_b (pre ++ x :: x' :: post) (length pre) =
  dec_loop char_signed code step_c
    (pre ++ u8 (Z.lor x (Z.shiftr (Z.land v 48) 4)) :: u8 (Z.shiftl (Z.land v 15) 4) :: post) (length pre + 1).
Proof.
  intros Hv. cbn [dec_loop]. rewrite decode_digit by done. cbn [mbind option_bind]. rewrite encode_value_range by done.
  rewrite (proj2 (Z.ltb_ge v 0)) by lia. rewrite put_or_app. cbn [mbind option_bind]. by rewrite put_app_next.
Qed.

Lemma dec_c v code pre x x' post : 0 <= v < 64 ->
  dec_loop char_signed (digit v :: code) step_c (pre ++ x :: x' :: post) (length pre) =
  dec_loop char_signed code step_d
    (pre ++ u8 (Z.lor x (Z.shiftr (Z.land v 60) 2)) :: u8 (Z.shiftl (Z.land v 3) 6) :: post) (length pre + 1).
Proof.
  intros Hv. cbn [dec_loop]. rewrite decode_digit by done. cbn [mbind option_bind]. rewrite encode_value_range by done.
  rewrite (proj2 (Z.ltb_ge v 0)) by lia. rewrite put_or_app. cbn [mbind option_bind]. by rewrite put_app_next.
Qed.

Lemma dec_d v code pre x post : 0 <= v < 64 ->
  dec_loop char_signed (digit v :: code) step_d (pre ++ x :: post) (length pre) =
  dec_loop char_signed code step_a (pre ++ u8 (Z.lor x (Z.land v 63)) :: post) (length pre + 1).
Proof.
  intros Hv. cbn [dec_loop]. rewrite decode_digit by done. cbn [mbind option_bind]. rewrite encode_value_range by done.
  rewrite (proj2 (Z.ltb_ge v 0)) by lia. by rewrite put_or_app.
Qed.

(** Joining the parts of a byte. *)
Lemma join_ab a q : 0 <= a < 256 -> 0 <= q < 16 ->
  u8 (Z.lor (u8 (Z.shiftl (Z.land (a / 4) 63) 2)) (Z.shiftr (Z.land (a mod 4 * 16 + q) 48) 4)) = a.
Proof using. clear char_signed. by_values below_check2. Qed.

Lemma join_bc r b q : 0 <= r < 4 -> 0 <= b < 256 -> 0 <= q < 4 ->
  u8 (Z.lor (u8 (Z.shiftl (Z.land (r * 16 + b / 16) 15) 4)) (Z.shiftr (Z.land (b mod 16 * 4 + q) 60) 2)) = b.
Proof using. clear char_signed. by_values below_check3. Qed.

Lemma join_cd r c : 0 <= r < 16 -> 0 <= c < 256 ->
  u8 (Z.lor (u8 (Z.shiftl (Z.land (r * 4 + c / 64) 3) 6)) (Z.land (c mod 64) 63)) = c.
Proof using. clear char_signed. by_values below_check2. Qed.

Lemma dec_shift code st pre y post : dec_loop char_signed code st (pre ++ y :: post) (length pre + 1) =
  dec_loop char_signed code st ((pre ++ [y]) ++ post) (length (pre ++ [y])).
Proof. by rewrite <- app_assoc, length_app. Qed.

(** The digits of the bytes of a group, one byte at a time. *)
Lemma dec_byte1 a q code pre x x' post : 0 <= a < 256 -> 0 <= q < 16 ->
  dec_loop char_signed (digit (a / 4) :: digit (a mod 4 * 16 + q) :: code) step_a (pre ++ x :: x' :: post) (length pre) =
  dec_loop char_signed code step_c ((pre ++ [a]) ++ u8 (Z.shiftl (Z.land (a mod 4 * 16 + q) 15) 4) :: post) (length (pre ++ [a])).
Proof.
  intros Ha Hq. rewrite dec_a, dec_b by (Z.to_euclidean_division_equations; lia).
  by rewrite join_ab, dec_shift by done.
Qed.

Lemma dec_byte2 r b q code pre x' post : 0 <= r < 4 -> 0 <= b < 256 -> 0 <= q < 4 ->
  dec_loop char_signed (digit (b mod 16 * 4 + q) :: code) step_c
    (pre ++ u8 (Z.shiftl (Z.land (r * 16 + b / 16) 15) 4) :: x' :: post) (length pre) =
  dec_loop char_signed code step_d ((pre ++ [b]) ++ u8 (Z.shiftl (Z.land (b mod 16 * 4 + q) 3) 6) :: post) (length (pre ++ [b])).
Proof.
  intros Hr Hb Hq. rewrite dec_c by (Z.to_euclidean_division_equations; lia). by rewrite join_bc, dec_shift by done.
Qed.

Lemma dec_byte3 r c code pre post : 0 <= r < 16 -> 0 <= c < 256 ->
  dec_loop char_signed (digit (c mod 64) :: code) step_d (pre ++ u8 (Z.shiftl (Z.land (r * 4 + c / 64) 3) 6) :: post) (length pre) =
  dec_loop char_signed code step_a ((pre ++ [c]) ++ post) (length (pre ++ [c])).
Proof.
  intros Hr Hc. rewrite dec_d by (Z.to_euclidean_division_equations; lia). by rewrite join_cd, dec_shift by done.
Qed.

Lemma dec_group a b c code pre x x' x'' post : 0 <= a < 256 -> 0 <= b < 256 -> 0 <= c < 256 ->
  dec_loop char_signed (digit (a / 4) :: digit (a mod 4 * 16 + b / 16) :: digit (b mod 16 * 4 + c / 64) :: digit (c mod 64) :: code)
    step_a (pre ++ x :: x' :: x'' :: post) (length pre) =
  dec_loop char_signed code step_a ((pre ++ [a; b; c]) ++ post) (length (pre ++ [a; b; c])).
Proof.
  intros Ha Hb Hc. rewrite dec_byte1 by (done || (Z.to_euclidean_division_equations; lia)).
  rewrite dec_byte2 by (done || (Z.to_euclidean_division_equations; lia)).
  rewrite dec_byte3 by (done || (Z.to_euclidean_division_equations; lia)). by rewrite <- !app_assoc.
Qed.
End facts.

(** ** The round trip, with signed characters *)

Lemma dec_skip ch code step buf p : ch = 61 \/ ch = 10 ->
  dec_loop true (ch :: code) step buf p = dec_loop true code step buf p.
Proof. by intros [-> | ->]. Qed.

Lemma decode_ref l : Forall is_byte l -> forall k pre post, (length l < length post)%nat ->
  exists post' st, dec_loop true (b64_ref k l) step_a (pre ++ post) (length pre) =
    Some ((length pre + length l)%nat, pre ++ l ++ post', st) /\ (length l + length post')%nat = length post.
Proof.
  unfold is_byte. induction l as [|a|a b|a b c l IH] using list_ind3; intros Hl k pre post Hp.
  - destruct post as [|x post]; [cbn in Hp; lia|]. cbn [b64_ref dec_loop]. rewrite list_lookup_middle by done.
    eexists (x :: post), _. cbn [app length]. rewrite Nat.add_0_r. done.
  - destruct post as [|x [|x' post]]; cbn in Hp; [lia..|]. apply Forall_inv in Hl as Ha. cbn [b64_ref].
    rewrite <- (Z.add_0_r (a mod 4 * 16)). rewrite dec_byte1 by (done || lia). rewrite !dec_skip by auto. cbn [dec_loop].
    rewrite list_lookup_middle by done. rewrite length_app, <- app_assoc. eexists (_ :: post), _. done.
  - destruct post as [|x [|x' [|x'' post]]]; cbn in Hp; [lia..|]. inversion Hl as [|? ? Ha Hl1]; subst. apply Forall_inv in Hl1 as Hb.
    cbn [b64_ref]. rewrite dec_byte1 by (done || (Z.to_euclidean_division_equations; lia)).
    rewrite <- (Z.add_0_r (b mod 16 * 4)). rewrite dec_byte2 by (done || (Z.to_euclidean_division_equations; lia)).
    rewrite dec_skip by auto. cbn [dec_loop].
    rewrite list_lookup_middle by done. rewrite !length_app, <- !app_assoc. eexists (_ :: post), _. cbn [app length]. split; [|done].
    cbn [mbind option_bind]. by rewrite <- Nat.add_assoc.
  - destruct post as [|x [|x' [|x'' post]]]; cbn in Hp; [lia..|].
    inversion Hl as [|? ? Ha Hl1]; subst. inversion Hl1 as [|? ? Hb Hl2]; subst. inversion Hl2 as [|? ? Hc Hl3]; subst.
    cbn [b64_ref app]. rewrite dec_group by done. 
    assert (Hrest : forall k', exists post' st, dec_loop true (b64_ref k' l) step_a ((pre ++ [a; b; c]) ++ post) (length (pre ++ [a; b; c])) =
       Some ((length pre + length (a :: b :: c :: l))%nat, pre ++ (a :: b :: c :: l) ++ post', st) /\
       (length (a :: b :: c :: l) + length post')%nat = length (x :: x' :: x'' :: post)).
    { intros k'. destruct (IH Hl3 k' (pre ++ [a; b; c]) post ltac:(lia)) as (post' & st & Hd & Hlen). exists post', st.
      rewrite Hd, length_app, <- app_assoc. cbn [length app]. split; [do 3 f_equal; lia|lia]. }
    destruct (k + 1 =? 18); [rewrite dec_skip by auto|]; apply Hrest.
Qed.

Lemma roundtrip_ok data buf : Forall is_byte data -> (length data < length buf)%nat ->
  exists code buf', base64_encode_chars true data = Some code /\
    base64_decode_chars true code buf = Some (length data, buf') /\ take (length data) buf' = data.
Proof.
  intros Hd Hb. destruct buf as [|x buf]; [cbn in Hb; lia|].
  destruct (decode_ref data Hd 0 [] (u8 0 :: buf) Hb) as (post' & st & Hdec & Hlen). cbn [app length] in Hdec.
  exists (b64_ref 0 data), (data ++ if (0 <? length data)%nat then <[0%nat := u8 0]> post' else post').
  split; [by apply encode_chars_ref|]. split; [|by rewrite take_app_length].
  unfold base64_decode_chars, base64_decode_block.
  change (put (x :: buf) 0 (dec_plainchar base64_init_decodestate)) with (put ([] ++ x :: buf) (length (A := Z) []) 0).
  rewrite put_app. cbn [mbind option_bind app dec_step base64_init_decodestate]. rewrite Hdec.
  cbn [mbind option_bind Nat.add]. destruct (0 <? length data)%nat eqn:E; [|done].
  unfold put. rewrite length_app. cbn in Hb, Hlen. rewrite (proj2 (Nat.ltb_lt _ _)) by lia. cbn [mbind option_bind].
  rewrite insert_app_r_alt by lia. by rewrite Nat.sub_diag.
Qed.

(** ** Lengths *)

Lemma expected_len_eq n : 0 <= n -> base64_encode_expected_len n = 4 * ((n + 2) / 3).
Proof.
  intros Hn. unfold base64_encode_expected_len. change (Z.lnot 3) with (Z.lnot (Z.ones 2)).
  rewrite <- Z.ldiff_land, Z.ldiff_ones_r by lia. rewrite Z.shiftl_mul_pow2, Z.shiftr_div_pow2 by lia.
  change (2 ^ 2) with 4. rewrite Z.mul_comm. f_equal.
  rewrite (Z.div_mod n 3) at 1 2 by lia. pose proof (Z.mod_pos_bound n 3 ltac:(lia)). set (m := n / 3). set (r := n mod 3) in *.
  replace (4 * (3 * m + r)) with (4 * r + 4 * m * 3) by ring. rewrite Z.div_add by lia.
  replace (4 * r / 3 + 4 * m + 3) with (4 * r / 3 + 3 + m * 4) by ring. rewrite Z.div_add by lia.
  replace (3 * m + r + 2) with (r + 2 + m * 3) by ring. rewrite Z.div_add by lia. f_equal.
  assert (r = 0 \/ r = 1 \/ r = 2) as [-> | [-> | ->]] by lia; reflexivity.
Qed.

Lemma ref_length l : forall k, 0 <= k < 18 ->
  zlen (b64_ref k l) = base64_encode_expected_len (zlen l) + (zlen l / 3 + k) / 18.
Proof.
  induction l as [|a|a b|a b c l IH] using list_ind3; intros k Hk;
    [match goal with |- context [zlen ?l / 3] => change (zlen l / 3) with 0 end; rewrite Z.div_small by lia; done..|].
  pose proof (zlen_nonneg l) as H0. unfold zlen in *. cbn [b64_ref app length].
  rewrite expected_len_eq in * by lia.
  replace (Z.of_nat (S (S (S (length l))))) with (Z.of_nat (length l) + 3) by lia.
  destruct (k + 1 =? 18) eqn:E; bools; cbn [length].
  - specialize (IH 0 ltac:(lia)). Z.to_euclidean_division_equations. lia.
  - specialize (IH (k + 1) ltac:(lia)). Z.to_euclidean_division_equations. lia.
Qed.

(** ** Incremental use *)

Section streaming.
Context (char_signed : bool).

Lemma encode_block_app l1 l2 st :
  base64_encode_block char_signed (l1 ++ l2) st =
  (r1 ← base64_encode_block char_signed l1 st;
   r2 ← base64_encode_block char_signed l2 r1.2;
   Some (r1.1 ++ r2.1, r2.2)).
Proof.
  revert st. induction l1 as [|x l1 IH]; intros st; cbn [app base64_encode_block].
  - cbn. by destruct (base64_encode_block _ _ _) as [[o st']|].
  - destruct (enc_char _ _ _) as [[o st1]|]; [|done]. cbn [mbind option_bind fst snd]. rewrite IH.
    destruct (base64_encode_block _ l1 _) as [[o1 st2]|]; [|done]. cbn [mbind option_bind fst snd].
    destruct (base64_encode_block _ l2 _) as [[o2 st3]|]; [|done]. cbn. by rewrite app_assoc.
Qed.

Lemma dec_loop_app c1 c2 step buf p :
  dec_loop char_signed (c1 ++ c2) step buf p =
  (r ← dec_loop char_signed c1 step buf p; dec_loop char_signed c2 (dec_step r.2) r.1.2 r.1.1) \/
  dec_loop char_signed c1 step buf p = None.
Proof.
  revert step buf p. induction c1 as [|ch c1 IH]; intros step buf p; cbn [app dec_loop].
  - destruct (buf !! p); [by left|by right].
  - destruct (base64_decode_value _ _) as [v|]; [|by right]. cbn [mbind option_bind].
    destruct (_ <? 0); [apply IH|].
    destruct step.
    + destruct (put buf p _); [apply IH|by right].
    + destruct (put_or buf p _) as [b1|]; [|by right]. cbn [mbind option_bind]. destruct (put b1 _ _); [apply IH|by right].
    + destruct (put_or buf p _) as [b1|]; [|by right]. cbn [mbind option_bind]. destruct (put b1 _ _); [apply IH|by right].
    + destruct (put_or buf p _); [apply IH|by right].
Qed.

(** A call on the rest of a buffer. *)
Lemma put_shift pre post p x : put (pre ++ post) (length pre + p) x = (app pre) <$> put post p x.
Proof.
  unfold put. rewrite length_app. destruct (p <? length post)%nat eqn:E.
  - apply Nat.ltb_lt in E. rewrite (proj2 (Nat.ltb_lt _ _)) by lia. cbn. f_equal. rewrite insert_app_r_alt by lia.
    do 2 f_equal. lia.
  - apply Nat.ltb_ge in E. by rewrite (proj2 (Nat.ltb_ge _ _)) by lia.
Qed.

Lemma put_or_shift pre post p x : put_or (pre ++ post) (length pre + p) x = (app pre) <$> put_or post p x.
Proof.
  unfold put_or. rewrite lookup_app_r by lia. replace (length pre + p - length pre)%nat with p by lia.
  destruct (post !! p); [|done]. cbn [mbind option_bind]. apply put_shift.
Qed.

Definition shift_result (pre : list Z) (r : nat * list Z * base64_decodestate) : nat * list Z * base64_decodestate :=
  ((length pre + r.1.1)%nat, pre ++ r.1.2, r.2).

Lemma dec_loop_shift code step pre post p :
  dec_loop char_signed code step (pre ++ post) (length pre + p) = shift_result pre <$> dec_loop char_signed code step post p.
Proof.
  revert step post p. induction code as [|ch code IH]; intros step post p; cbn [dec_loop].
  - rewrite lookup_app_r by lia. replace (length pre + p - length pre)%nat with p by lia. by destruct (post !! p).
  - destruct (base64_decode_value _ _) as [v|]; [|done]. cbn [mbind option_bind]. destruct (_ <? 0); [apply IH|].
    destruct step; rewrite ?put_shift, ?put_or_shift, <- ?Nat.add_assoc.
    + destruct (put post p _); [apply IH|done].
    + destruct (put_or post p _) as [b1|]; [|done]. cbn [fmap option_fmap option_map mbind option_bind].
      rewrite put_shift. destruct (put b1 _ _); [apply IH|done].
    + destruct (put_or post p _) as [b1|]; [|done]. cbn [fmap option_fmap option_map mbind option_bind].
      rewrite put_shift. destruct (put b1 _ _); [apply IH|done].
    + destruct (put_or post p _); [apply IH|done].
Qed.

Lemma put_bytes buf p x b : Forall is_byte buf -> put buf p x = Some b -> Forall is_byte b.
Proof.
  intros Hb. unfold put. destruct (_ <? _)%nat; [|done]. intros [= <-]. apply Forall_insert; [done|apply u8_range].
Qed.

Lemma put_or_bytes buf p x b : Forall is_byte buf -> put_or buf p x = Some b -> Forall is_byte b.
Proof. intros Hb. unfold put_or. destruct (buf !! p); [|done]. cbn. by apply put_bytes. Qed.

(** The state left keeps the byte under construction, which is in the buffer. *)
Lemma dec_loop_result code step buf p r : Forall is_byte buf -> dec_loop char_signed code step buf p = Some r ->
  Forall is_byte r.1.2 /\ r.1.2 !! r.1.1 = Some (dec_plainchar r.2).
Proof.
  revert step buf p. induction code as [|ch code IH]; intros step buf p Hb; cbn [dec_loop].
  - destruct (buf !! p) eqn:E; [|done]. by intros [= <-].
  - destruct (base64_decode_value _ _) as [v|]; [|done]. cbn [mbind option_bind]. destruct (_ <? 0); [by apply IH|].
    destruct step.
    + destruct (put buf p _) as [b1|] eqn:E; [|done]. apply IH. by eapply put_bytes.
    + destruct (put_or buf p _) as [b1|] eqn:E; [|done]. cbn [mbind option_bind]. destruct (put b1 _ _) as [b2|] eqn:E2; [|done].
      apply IH. eapply put_bytes; [|exact E2]. by eapply put_or_bytes.
    + destruct (put_or buf p _) as [b1|] eqn:E; [|done]. cbn [mbind option_bind]. destruct (put b1 _ _) as [b2|] eqn:E2; [|done].
      apply IH. eapply put_bytes; [|exact E2]. by eapply put_or_bytes.
    + destruct (put_or buf p _) as [b1|] eqn:E; [|done]. apply IH. by eapply put_or_bytes.
Qed.

Lemma decode_block_app c1 c2 out st n1 b1 st1 n2 b2 st2 : Forall is_byte out ->
  base64_decode_block char_signed c1 out st = Some (n1, b1, st1) ->
  base64_decode_block char_signed c2 (drop n1 b1) st1 = Some (n2, b2, st2) ->
  base64_decode_block char_signed (c1 ++ c2) out st = Some ((n1 + n2)%nat, take n1 b1 ++ b2, st2).
Proof.
  intros Ho H1 H2. unfold base64_decode_block in *. destruct (put out 0 _) as [b0|] eqn:E0; [|done].
  cbn [mbind option_bind] in *. apply put_bytes in E0; [|done].
  destruct (dec_loop_result _ _ _ _ _ E0 H1) as [Hb1 Hn1]. cbn [fst snd] in *.
  pose proof (lookup_lt_Some _ _ _ Hn1) as Hlt.
  assert (Hput : put (drop n1 b1) 0 (dec_plainchar st1) = Some (drop n1 b1)).
  { unfold put. rewrite length_drop, (proj2 (Nat.ltb_lt _ _)) by lia. f_equal. apply list_insert_id.
    rewrite lookup_drop, Nat.add_0_r, Hn1. f_equal. symmetry. apply u8_small. by apply (Forall_lookup_1 _ _ _ _ Hb1 Hn1). }
  rewrite Hput in H2. cbn [mbind option_bind] in H2.
  destruct (dec_loop_app c1 c2 (dec_step st) b0 0) as [->|Hn]; [|by rewrite Hn in H1].
  rewrite H1. cbn [mbind option_bind fst snd].
  pose proof (dec_loop_shift c2 (dec_step st1) (take n1 b1) (drop n1 b1) 0) as Hs.
  rewrite length_take, Nat.min_l, Nat.add_0_r, take_drop, H2 in Hs by lia. rewrite Hs. cbn.
  unfold shift_result. cbn. by rewrite length_take, Nat.min_l by lia.
Qed.

(** ** Bounds of the decoder *)

(** After [d] digits the decoder is at this step, having completed [3 d / 4] bytes. *)
Definition step_after (d : nat) : base64_decodestep :=
  match (d mod 4)%nat with 0%nat => step_a | 1%nat => step_b | 2%nat => step_c | _ => step_d end.

Definition done_after (d : nat) : nat := (3 * d / 4)%nat.

Lemma decode_value_total ch : 0 <= ch < 256 -> ch <> 123 ->
  exists v, base64_decode_value char_signed (to_char char_signed ch) = Some v /\
    (char_signed = false -> (to_char char_signed v <? 0) = false).
Proof.
  intros Hch Hne.
  assert (H : (ch =? 123) || match base64_decode_value char_signed (to_char char_signed ch) with
     | Some v => char_signed || negb (to_char char_signed v <? 0) | None => false end = true).
  { clear Hne. revert ch Hch. apply (below_check (fun ch => (ch =? 123) || match base64_decode_value char_signed (to_char char_signed ch) with
     | Some v => char_signed || negb (to_char char_signed v <? 0) | None => false end)). destruct char_signed; vm_compute; reflexivity. }
  rewrite (proj2 (Z.eqb_neq _ _) Hne) in H. cbn [orb] in H. destruct (base64_decode_value _ _) as [v|]; [|done].
  exists v. split; [done|]. intros ->. by apply negb_true_iff in H.
Qed.

Lemma put_total buf p x : (p < length buf)%nat -> exists b, put buf p x = Some b /\ length b = length buf.
Proof.
  intros Hp. unfold put. rewrite (proj2 (Nat.ltb_lt _ _)) by done. eexists. split; [done|]. apply length_insert.
Qed.

Lemma put_or_total buf p x : (p < length buf)%nat -> exists b, put_or buf p x = Some b /\ length b = length buf.
Proof.
  intros Hp. unfold put_or. destruct (lookup_lt_is_Some_2 _ _ Hp) as [y ->]. cbn [mbind option_bind]. by apply put_total.
Qed.

(** The next digit. *)
Lemma step_after_S d :
  match step_after d with
  | step_a => step_after (S d) = step_b /\ done_after (S d) = done_after d
  | step_b => step_after (S d) = step_c /\ done_after (S d) = (done_after d + 1)%nat
  | step_c => step_after (S d) = step_d /\ done_after (S d) = (done_after d + 1)%nat
  | step_d => step_after (S d) = step_a /\ done_after (S d) = (done_after d + 1)%nat
  end.
Proof.
  unfold step_after, done_after. rewrite (Nat.div_mod d 4) by done.
  pose proof (Nat.mod_upper_bound d 4 ltac:(done)) as Hr. set (m := (d / 4)%nat). set (r := (d mod 4)%nat) in *.
  replace (S (4 * m + r))%nat with (S r + m * 4)%nat by lia. replace (4 * m + r)%nat with (r + m * 4)%nat by lia.
  rewrite !Nat.Div0.mod_add. replace (3 * (S r + m * 4))%nat with (3 * S r + (3 * m) * 4)%nat by lia.
  replace (3 * (r + m * 4))%nat with (3 * r + (3 * m) * 4)%nat by lia. rewrite !Nat.div_add by done.
  assert (r = 0 \/ r = 1 \/ r = 2 \/ r = 3)%nat as [-> | [-> | [-> | ->]]] by lia; cbn; (split; [done|lia]).
Qed.

Lemma dec_loop_bounds code : Forall (fun ch => is_byte ch /\ ch <> 123) code -> forall d buf,
  (done_after (d + length code) < length buf)%nat ->
  exists d' b st, dec_loop char_signed code (step_after d) buf (done_after d) = Some (done_after d', b, st) /\
    (d <= d' <= d + length code)%nat /\ length b = length buf /\ (char_signed = false -> d' = (d + length code)%nat).
Proof.
  induction 1 as [|ch code [Hb Hne] _ IH]; intros d buf Hd; cbn [length dec_loop] in *.
  - rewrite Nat.add_0_r in *. destruct (lookup_lt_is_Some_2 buf (done_after d) Hd) as [x ->].
    exists d. eexists _, _. cbn. split; [done|]. split; [lia|]. done.
  - destruct (decode_value_total ch Hb Hne) as (v & -> & Hv). cbn [mbind option_bind].
    assert (Hle : forall e, (e <= d + S (length code))%nat -> (done_after e < length buf)%nat).
    { intros e He. unfold done_after in *. eapply Nat.le_lt_trans; [|exact Hd]. apply Nat.Div0.div_le_mono. lia. }
    assert (Hnext : forall b1 : list Z, length b1 = length buf -> exists d' b st,
      dec_loop char_signed code (step_after (S d)) b1 (done_after (S d)) = Some (done_after d', b, st) /\
      (d <= d' <= d + S (length code))%nat /\ length b = length buf /\ (char_signed = false -> d' = (d + S (length code))%nat)).
    { intros b1 Hl. destruct (IH (S d) b1) as (d' & b & st & Hdec & Hd' & Hlb & Hu).
      - rewrite Hl. replace (S d + length code)%nat with (d + S (length code))%nat by lia. done.
      - exists d', b, st. split; [done|]. split; [lia|]. split; [lia|]. intros Hs. rewrite (Hu Hs). lia. }
    destruct (to_char char_signed v <? 0) eqn:Es.
    + destruct (IH d buf) as (d' & b & st & Hdec & Hd' & Hlb & Hu); [apply Hle; lia|].
      exists d', b, st. split; [done|]. split; [lia|]. split; [done|]. intros Hs. by specialize (Hv Hs).
    + pose proof (Hle d ltac:(lia)) as H0. pose proof (Hle (S d) ltac:(lia)) as H1. pose proof (step_after_S d) as HS.
      destruct (step_after d); destruct HS as [HS1 HS2]; rewrite HS1, HS2 in *.
      * destruct (put_total buf (done_after d) (Z.shiftl (Z.land (to_char char_signed v) 63) 2) H0) as (b1 & -> & Hl1).
        cbn [mbind option_bind]. by apply Hnext.
      * destruct (put_or_total buf (done_after d) (Z.shiftr (Z.land (to_char char_signed v) 48) 4) H0) as (b1 & -> & Hl1).
        cbn [mbind option_bind].
        destruct (put_total b1 (done_after d + 1) (Z.shiftl (Z.land (to_char char_signed v) 15) 4) ltac:(lia)) as (b2 & -> & Hl2).
        cbn [mbind option_bind]. apply Hnext. lia.
      * destruct (put_or_total buf (done_after d) (Z.shiftr (Z.land (to_char char_signed v) 60) 2) H0) as (b1 & -> & Hl1).
        cbn [mbind option_bind].
        destruct (put_total b1 (done_after d + 1) (Z.shiftl (Z.land (to_char char_signed v) 3) 6) ltac:(lia)) as (b2 & -> & Hl2).
        cbn [mbind option_bind]. apply Hnext. lia.
      * destruct (put_or_total buf (done_after d) (Z.land (to_char char_signed v) 63) H0) as (b1 & -> & Hl1).
        cbn [mbind option_bind]. by apply Hnext.
Qed.
End streaming.
