(* ===== verification/B64Theorems.v ===== *)
(** The properties of libb64: encoding against the reference, round trip, lengths,
    incremental decoding, and the bounds of the decoder. *)
From Stdlib Require Import ZArith Lia Bool.
From S2P Require Import Prelude B64.
From stdpp Require Import base list numbers option.

Open Scope Z_scope.

(** Whatever the signedness of [char], the encoder writes the reference
    encoding: groups of three bytes as four digits, padding at the end, and a
    newline after each 18 groups. *)
Theorem base64_encode_chars_correct char_signed data : Forall is_byte data ->
  base64_encode_chars char_signed data = Some (b64_ref 0 data).
Proof. apply encode_chars_ref. Qed.

(** C37: with signed [char], decoding what the encoder wrote, padding and newlines
    included, gives back the data, in any buffer with room for one more byte. *)
Theorem base64_roundtrip data buf : Forall is_byte data -> (length data < length buf)%nat ->
  exists code buf', base64_encode_chars true data = Some code /\
    base64_decode_chars true code buf = Some (length data, buf') /\ take (length data) buf' = data.
Proof. apply roundtrip_ok. Qed.

(** decoding in two calls, the second one on the rest of the buffer with the
    state the first one left, gives what one call on the whole input gives. *)
Theorem base64_decode_block_incremental char_signed c1 c2 out st n1 b1 st1 n2 b2 st2 : Forall is_byte out ->
  base64_decode_block char_signed c1 out st = Some (n1, b1, st1) ->
  base64_decode_block char_signed c2 (drop n1 b1) st1 = Some (n2, b2, st2) ->
  base64_decode_block char_signed (c1 ++ c2) out st = Some ((n1 + n2)%nat, take n1 b1 ++ b2, st2).
Proof. apply decode_block_app. Qed.

(** C39: the decoder stays inside every output buffer larger than
    [base64_decode_expected_len] for every input without the character [{] (which
    it looks up one past its table), and decodes at most that many bytes; with
    unsigned [char] it skips nothing, so that padding and newlines count as data. *)
Theorem base64_decode_block_bounds char_signed code buf :
  Forall (fun ch => is_byte ch /\ ch <> 123) code -> base64_decode_expected_len (zlen code) < zlen buf ->
  exists n b st, base64_decode_block char_signed code buf base64_init_decodestate = Some (n, b, st) /\
    Z.of_nat n <= base64_decode_expected_len (zlen code) /\ length b = length buf /\
    (char_signed = false -> Z.of_nat n = base64_decode_expected_len (zlen code)).
Proof.
  intros Hc Hb. unfold base64_decode_block. unfold base64_decode_expected_len, zlen in *.
  assert (He : forall d, Z.of_nat (done_after d) = Z.of_nat d * 3 / 4)
    by (intros d; unfold done_after; rewrite Nat2Z.inj_div, Nat2Z.inj_mul; by rewrite Z.mul_comm).
  destruct (put_total buf 0 (dec_plainchar base64_init_decodestate)) as (b0 & -> & Hl0).
  { pose proof (Z.div_pos (Z.of_nat (length code) * 3) 4). lia. }
  cbn [mbind option_bind]. destruct (dec_loop_bounds char_signed code Hc 0 b0) as (d' & b & st & Hdec & Hd & Hl & Hu).
  { rewrite Hl0. pose proof (He (0 + length code)%nat). cbn in *. lia. }
  exists (done_after d'), b, st. split; [exact Hdec|]. rewrite He. split; [|split; [lia|]].
  - apply Z.div_le_mono; lia.
  - intros Hs. rewrite (Hu Hs). done.
Qed.

(** the encoded string is longer than [base64_encode_expected_len] by one
    newline for each 54 bytes of data. *)
Theorem base64_encode_length char_signed data code : Forall is_byte data ->
  base64_encode_chars char_signed data = Some code ->
  zlen code = base64_encode_expected_len (zlen data) + zlen data / 54.
Proof.
  intros Hd Henc. rewrite encode_chars_ref in Henc by done. injection Henc as <-.
  rewrite ref_length by lia. rewrite Z.add_0_r, Z.div_div by lia. done.
Qed.

(** ** Instances *)

Lemma base64_encode_chars_correct_witness :
  Forall is_byte [77; 97; 110; 255; 0] /\ base64_encode_chars true [77; 97; 110; 255; 0] = Some [84; 87; 70; 117; 47; 119; 65; 61].
Proof.
  assert (H : Forall is_byte [77; 97; 110; 255; 0]) by (repeat constructor; discriminate).
  split; [exact H|]. rewrite (base64_encode_chars_correct true _ H). vm_compute. reflexivity.
Defined.

Lemma base64_roundtrip_witness : exists code buf',
  base64_encode_chars true (seqZ 0 100) = Some code /\
  base64_decode_chars true code (replicate 101 9) = Some (100%nat, buf') /\ take 100 buf' = seqZ 0 100.
Proof.
  apply (base64_roundtrip (seqZ 0 100) (replicate 101 9)).
  - apply Forall_seqZ. unfold is_byte. lia.
  - vm_compute. lia.
Defined.

Lemma base64_decode_block_incremental_witness :
  base64_decode_block true ([84; 87] ++ [70; 117]) (replicate 5 9) base64_init_decodestate =
    Some (3%nat, [77; 97; 110; 9; 9], mkDec step_a 9).
Proof.
  apply (base64_decode_block_incremental true [84; 87] [70; 117] (replicate 5 9) base64_init_decodestate
    1 [77; 96; 9; 9; 9] (mkDec step_c 96) 2 [97; 110; 9; 9] (mkDec step_a 9)).
  - repeat constructor; discriminate.
  - vm_compute. reflexivity.
  - vm_compute. reflexivity.
Defined.

(** [AQ==], the encoding of one byte, gives three bytes with unsigned [char]. *)
Lemma base64_decode_block_bounds_witness : exists n b st,
  base64_decode_block false [65; 81; 61; 61] (replicate 4 9) base64_init_decodestate = Some (n, b, st) /\ Z.of_nat n = 3.
Proof.
  destruct (base64_decode_block_bounds false [65; 81; 61; 61] (replicate 4 9)) as (n & b & st & H & _ & _ & Hn).
  - repeat constructor; discriminate.
  - vm_compute. reflexivity.
  - exists n, b, st. split; [exact H|]. exact (Hn eq_refl).
Defined.

Lemma base64_encode_length_witness : exists code, base64_encode_chars true (seqZ 0 54) = Some code /\
  zlen code = base64_encode_expected_len 54 + 1.
Proof.
  assert (H : Forall is_byte (seqZ 0 54)) by (apply Forall_seqZ; unfold is_byte; lia).
  destruct (base64_encode_chars true (seqZ 0 54)) as [code|] eqn:E; [|vm_compute in E; discriminate].
  exists code. split; [reflexivity|]. rewrite (base64_encode_length true (seqZ 0 54) code H E). reflexivity.
Defined.
