(* ===== verification/Sha1.v ===== *)
(** SHA-1 ([libraries/Hash/src/sha1/sha1.c]): the block transform, the incremental
    context and the digest; and the algorithm as FIPS 180 states it.  Words are
    numbers below [2^32]; the target is little-endian. *)
From Stdlib Require Import ZArith Lia Bool.
From S2P Require Import Prelude.
From stdpp Require Import base list numbers option.

Open Scope Z_scope.

(** ** [sha1.c] *)

Definition rol (value bits : Z) : Z := Z.lor (u32 (Z.shiftl value bits)) (Z.shiftr value (32 - bits)).

(** [blk0(i)] and [blk(i)]: the value and the updated [block->l]. *)
Definition blk0 (l : list Z) (i : Z) : Z * list Z :=
  let x := zget l i in
  let v := Z.lor (Z.land (rol x 24) 4278255360) (Z.land (rol x 8) 16711935) in
  (v, zset l i v).

Definition blk (l : list Z) (i : Z) : Z * list Z :=
  let v := rol (Z.lxor (Z.lxor (Z.lxor (zget l (Z.land (i + 13) 15)) (zget l (Z.land (i + 8) 15)))
                               (zget l (Z.land (i + 2) 15))) (zget l (Z.land i 15))) 1 in
  (v, zset l (Z.land i 15) v).

(** The operations of the macros [R0] to [R4] on [w], [x], [y], and their constants. *)
Definition f01 (w x y : Z) : Z := Z.lxor (Z.land w (Z.lxor x y)) y.
Definition f24 (w x y : Z) : Z := Z.lxor (Z.lxor w x) y.
Definition f3 (w x y : Z) : Z := Z.lor (Z.land (Z.lor w x) y) (Z.land w x).

(** The [i]-th call of the unrolled sequence, on the variables [a, b, c, d, e] and
    the block: the arguments rotate by one position from call to call. *)
Definition R (i : Z) (s : list Z * list Z) : list Z * list Z :=
  let '(vars, l) := s in
  let arg k := zget vars ((k - i) mod 5) in
  let '(v, w, x, y, z) := (arg 0, arg 1, arg 2, arg 3, arg 4) in
  let '(b, l) := if i <? 16 then blk0 l i else blk l i in
  let '(f, k) := if i <? 20 then (f01 w x y, 1518500249)
                 else if i <? 40 then (f24 w x y, 1859775393)
                 else if i <? 60 then (f3 w x y, 2400959708)
                 else (f24 w x y, 3395469782) in
  (zset (zset vars ((4 - i) mod 5) (u32 (z + (f + b + k + rol v 5)))) ((1 - i) mod 5) (rol w 30), l).

(** The words of a buffer, as the union reads them. *)
Definition words (buffer : list Z) : list Z := (fun i => dec32 (slice buffer (4 * i) 4)) <$> seqZ 0 16.

Definition SHA1Transform (state buffer : list Z) : list Z :=
  let '(vars, _) := foldl (fun s i => R i s) (state, words buffer) (seqZ 0 80) in
  zip_with (fun s v => u32 (s + v)) state vars.

Record SHA1_CTX : Type := mkSha { sha_state : list Z; sha_count0 : Z; sha_count1 : Z; sha_buffer : list Z }.

(** [buffer]: its contents before the call, which are kept. *)
Definition SHA1Init (buffer : list Z) : SHA1_CTX :=
  mkSha [1732584193; 4023233417; 2562383102; 271733878; 3285377520] 0 0 buffer.

(** The loop over the whole blocks of [data]. *)
Fixpoint update_blocks (fuel : nat) (data : list Z) (i : Z) (state : list Z) : option (list Z * Z) :=
  match fuel with
  | O => None
  | S fuel =>
      if u32 (i + 63) <? zlen data then update_blocks fuel data (u32 (i + 64)) (SHA1Transform state (slice data i 64))
      else Some (state, i)
  end.

Definition SHA1Update (context : SHA1_CTX) (data : list Z) : option SHA1_CTX :=
  let len := zlen data in
  let j := sha_count0 context in
  let count0 := u32 (sha_count0 context + u32 (Z.shiftl len 3)) in
  let count1 := if count0 <? j then u32 (sha_count1 context + 1) else sha_count1 context in
  let count1 := u32 (count1 + Z.shiftr len 29) in
  let j := Z.land (Z.shiftr j 3) 63 in
  if 63 <? u32 (j + len) then
    let i := 64 - j in
    let buffer := splice (sha_buffer context) j (slice data 0 i) in
    r ← update_blocks (Z.to_nat len) data i (SHA1Transform (sha_state context) buffer);
    Some (mkSha r.1 count0 count1 (splice buffer 0 (slice data r.2 (len - r.2))))
  else Some (mkSha (sha_state context) count0 count1 (splice (sha_buffer context) j data)).

(** The padding loop of [SHA1Final]. *)
Fixpoint pad_loop (fuel : nat) (context : SHA1_CTX) : option SHA1_CTX :=
  match fuel with
  | O => None
  | S fuel =>
      if negb (Z.land (sha_count0 context) 504 =? 448) then
        context ← SHA1Update context [0];
        pad_loop fuel context
      else Some context
  end.

Definition be_byte (x i : Z) : Z := Z.land (Z.shiftr x ((3 - Z.land i 3) * 8)) 255.

(** The digest, and the wiped context. *)
Definition SHA1Final (context : SHA1_CTX) : option (list Z * SHA1_CTX) :=
  let finalcount := (fun i => be_byte (if 4 <=? i then sha_count0 context else sha_count1 context) i) <$> seqZ 0 8 in
  context ← SHA1Update context [128];
  context ← pad_loop 64 context;
  context ← SHA1Update context finalcount;
  Some ((fun i => be_byte (zget (sha_state context) (Z.shiftr i 2)) i) <$> seqZ 0 20,
        mkSha (replicate 5 0) 0 0 (replicate 64 0)).

(** ** The algorithm of FIPS 180 *)

Definition be32 (l : list Z) : Z := 16777216 * zget l 0 + 65536 * zget l 1 + 256 * zget l 2 + zget l 3.

(** The message schedule of a block of 64 bytes. *)
Definition schedule_step (w : list Z) : list Z :=
  let t := zlen w in
  w ++ [rol (Z.lxor (Z.lxor (Z.lxor (zget w (t - 3)) (zget w (t - 8))) (zget w (t - 14))) (zget w (t - 16))) 1].

Definition schedule (block : list Z) : list Z :=
  Nat.iter 64 schedule_step ((fun i => be32 (slice block (4 * i) 4)) <$> seqZ 0 16).

Definition Ch (x y z : Z) : Z := Z.lxor (Z.land x y) (Z.land (Z.lxor x (Z.ones 32)) z).
Definition Parity (x y z : Z) : Z := Z.lxor x (Z.lxor y z).
Definition Maj (x y z : Z) : Z := Z.lxor (Z.land x y) (Z.lxor (Z.land x z) (Z.land y z)).

Definition f_t (t x y z : Z) : Z :=
  if t <? 20 then Ch x y z else if t <? 40 then Parity x y z else if t <? 60 then Maj x y z else Parity x y z.
Definition K_t (t : Z) : Z :=
  if t <? 20 then 1518500249 else if t <? 40 then 1859775393 else if t <? 60 then 2400959708 else 3395469782.

Definition fips_round (W : list Z) (h : Z * Z * Z * Z * Z) (t : Z) : Z * Z * Z * Z * Z :=
  let '(a, b, c, d, e) := h in
  (u32 (rol a 5 + f_t t b c d + e + K_t t + zget W t), a, rol b 30, c, d).

Definition compress (H block : list Z) : list Z :=
  let '(a, b, c, d, e) := foldl (fips_round (schedule block)) (zget H 0, zget H 1, zget H 2, zget H 3, zget H 4) (seqZ 0 80) in
  [u32 (zget H 0 + a); u32 (zget H 1 + b); u32 (zget H 2 + c); u32 (zget H 3 + d); u32 (zget H 4 + e)].

(** The first [n] blocks of a message. *)
Definition hash_blocks (n : Z) (m : list Z) : list Z :=
  foldl (fun H i => compress H (slice m (64 * i) 64)) [1732584193; 4023233417; 2562383102; 271733878; 3285377520] (seqZ 0 n).

Definition enc_be (n : nat) (x : Z) : list Z := (fun i => Z.shiftr x (8 * (Z.of_nat n - 1 - i)) mod 256) <$> seqZ 0 (Z.of_nat n).

(** Padding: a one bit, zeros up to 448 modulo 512 bits, the length in 64 bits. *)
Definition padded (m : list Z) : list Z :=
  m ++ [128] ++ replicate (Z.to_nat ((55 - zlen m) mod 64)) 0 ++ enc_be 8 (8 * zlen m).

Definition fips_sha1 (m : list Z) : list Z :=
  let p := padded m in concat (enc_be 4 <$> hash_blocks (zlen p / 64) p).

