(* ===== verification/Sha1Proof.v ===== *)
(** The C implementation of SHA-1 computes the hash of FIPS 180: the block
    transform, the incremental update, and the padding. *)
From Stdlib Require Import ZArith Lia Bool.
From S2P Require Import Prelude Sha1.
From stdpp Require Import base list numbers option.

Open Scope Z_scope.

(** ** Words *)

Definition word (x : Z) : Prop := 0 <= x < 2 ^ 32.

Lemma u32_word x : word (u32 x).
Proof. apply Z.mod_pos_bound. lia. Qed.

Lemma word_high x i : word x -> 32 <= i -> Z.testbit x i = false.
Proof.
  intros Hx Hi. rewrite <- (Z.mod_small x (2 ^ 32)) by exact Hx. apply Z.mod_pow2_bits_high. lia.
Qed.

Lemma word_of_bits x : 0 <= x -> (forall i, 32 <= i -> Z.testbit x i = false) -> word x.
Proof.
  intros H0 Hb. split; [done|]. assert (x = x mod 2 ^ 32) as ->; [|apply Z.mod_pos_bound; lia].
  apply Z.bits_inj'. intros i Hi. destruct (decide (i < 32)).
  - symmetry. apply Z.mod_pow2_bits_low. lia.
  - rewrite Hb, Z.mod_pow2_bits_high by lia. done.
Qed.

Lemma rol_word x n : word x -> 0 <= n <= 32 -> word (rol x n).
Proof.
  intros Hx Hn. unfold rol. apply word_of_bits.
  - apply Z.lor_nonneg. split; [apply u32_word|]. apply Z.shiftr_nonneg, Hx.
  - intros i Hi. rewrite Z.lor_spec, Z.shiftr_spec, (word_high (u32 _)), (word_high x) by (apply u32_word || done || lia). done.
Qed.

(** Bitwise equations between words. *)
Ltac word_bits :=
  apply Z.bits_inj'; intros i Hi; destruct (decide (i < 32));
  [rewrite ?Z.lxor_spec, ?Z.land_spec, ?Z.lor_spec, ?Z.lxor_spec, ?Z.land_spec, ?Z.lor_spec, ?Z.ones_spec_low by lia
  |rewrite ?Z.lxor_spec, ?Z.land_spec, ?Z.lor_spec, ?Z.lxor_spec, ?Z.land_spec, ?Z.lor_spec, ?Z.ones_spec_high, ?word_high by (done || lia)];
  repeat (match goal with |- context [Z.testbit ?a ?b] => destruct (Z.testbit a b) end); reflexivity.

Lemma f01_Ch w x y : word w -> word x -> word y -> f01 w x y = Ch w x y.
Proof. intros. unfold f01, Ch. word_bits. Qed.

Lemma f24_Parity w x y : f24 w x y = Parity w x y.
Proof. unfold f24, Parity. apply Z.lxor_assoc. Qed.

Lemma f3_Maj w x y : word w -> word x -> word y -> f3 w x y = Maj w x y.
Proof. intros. unfold f3, Maj. word_bits. Qed.

(** Bytes of a word: the low byte and the rest. *)
Lemma testbit_cons a q i : 0 <= a < 256 -> 0 <= i ->
  Z.testbit (a + 256 * q) i = if i <? 8 then Z.testbit a i else Z.testbit q (i - 8).
Proof.
  intros Ha Hi. destruct (i <? 8) eqn:E; bools.
  - rewrite <- (Z.mod_pow2_bits_low _ 8) by lia. change (2 ^ 8) with 256.
    rewrite Z.add_comm, Z.mul_comm, Z.add_comm, Z_mod_plus_full, Z.mod_small by lia. done.
  - replace q with ((a + 256 * q) / 2 ^ 8) at 2.
    + rewrite Z.div_pow2_bits by lia. f_equal. lia.
    + change (2 ^ 8) with 256. rewrite Z.add_comm, Z.mul_comm, Z.div_add_l, Z.div_small by lia. lia.
Qed.

Lemma land_cons a b q r : 0 <= a < 256 -> 0 <= b < 256 -> Z.land (a + 256 * q) (b + 256 * r) = Z.land a b + 256 * Z.land q r.
Proof.
  intros Ha Hb. assert (Hab : 0 <= Z.land a b < 256).
  { split; [apply Z.land_nonneg; lia|]. rewrite <- (Z.mod_small a 256) by lia. change 256 with (2 ^ 8) at 1.
    rewrite <- Z.land_ones, <- Z.land_assoc, (Z.land_comm (Z.ones 8)), Z.land_assoc, Z.land_ones by lia. apply Z.mod_pos_bound. lia. }
  apply Z.bits_inj'. intros i Hi. rewrite Z.land_spec, !testbit_cons by done.
  destruct (i <? 8); by rewrite Z.land_spec.
Qed.

Lemma lor_cons a b q r : 0 <= a < 256 -> 0 <= b < 256 -> Z.lor (a + 256 * q) (b + 256 * r) = Z.lor a b + 256 * Z.lor q r.
Proof.
  intros Ha Hb. assert (Hab : 0 <= Z.lor a b < 256).
  { split; [apply Z.lor_nonneg; lia|]. apply Z.log2_lt_cancel. rewrite Z.log2_lor by lia.
    pose proof (Z.log2_le_mono a 255 ltac:(lia)). pose proof (Z.log2_le_mono b 255 ltac:(lia)).
    change (Z.log2 255) with 7 in *. change (Z.log2 256) with 8. lia. }
  apply Z.bits_inj'. intros i Hi. rewrite Z.lor_spec, !testbit_cons by done.
  destruct (i <? 8); by rewrite Z.lor_spec.
Qed.

(** A word by its bytes, from the lowest. *)
Definition bytes4 (b0 b1 b2 b3 : Z) : Z := b0 + 256 * (b1 + 256 * (b2 + 256 * (b3 + 256 * 0))).

Lemma bytes4_op (op : Z -> Z -> Z) a0 a1 a2 a3 b0 b1 b2 b3 :
  (forall a b q r, 0 <= a < 256 -> 0 <= b < 256 -> op (a + 256 * q) (b + 256 * r) = op a b + 256 * op q r) -> op 0 0 = 0 ->
  is_byte a0 -> is_byte a1 -> is_byte a2 -> is_byte a3 -> is_byte b0 -> is_byte b1 -> is_byte b2 -> is_byte b3 ->
  op (bytes4 a0 a1 a2 a3) (bytes4 b0 b1 b2 b3) = bytes4 (op a0 b0) (op a1 b1) (op a2 b2) (op a3 b3).
Proof. intros H H0 ? ? ? ? ? ? ? ?. unfold bytes4. rewrite !H by done. by rewrite H0. Qed.

Lemma rol24 b0 b1 b2 b3 : is_byte b0 -> is_byte b1 -> is_byte b2 -> is_byte b3 ->
  rol (bytes4 b0 b1 b2 b3) 24 = bytes4 b1 b2 b3 b0.
Proof.
  unfold is_byte. intros H0 H1 H2 H3. unfold rol.
  assert (u32 (Z.shiftl (bytes4 b0 b1 b2 b3) 24) = bytes4 0 0 0 b0) as ->.
  { rewrite Z.shiftl_mul_pow2 by lia. unfold u32. change (2 ^ 32) with (256 * 2 ^ 24). rewrite Z.mul_mod_distr_r by lia.
    unfold bytes4. rewrite (Z.mul_comm 256), Z_mod_plus_full, Z.mod_small by lia. lia. }
  assert (Z.shiftr (bytes4 b0 b1 b2 b3) (32 - 24) = bytes4 b1 b2 b3 0) as ->.
  { rewrite Z.shiftr_div_pow2 by lia. change (2 ^ (32 - 24)) with 256. unfold bytes4.
    rewrite (Z.mul_comm 256), Z.div_add, Z.div_small by lia. lia. }
  rewrite (bytes4_op Z.lor) by (done || apply lor_cons). by rewrite !Z.lor_0_l, Z.lor_0_r.
Qed.

Lemma rol8 b0 b1 b2 b3 : is_byte b0 -> is_byte b1 -> is_byte b2 -> is_byte b3 ->
  rol (bytes4 b0 b1 b2 b3) 8 = bytes4 b3 b0 b1 b2.
Proof.
  unfold is_byte. intros H0 H1 H2 H3. unfold rol.
  assert (u32 (Z.shiftl (bytes4 b0 b1 b2 b3) 8) = bytes4 0 b0 b1 b2) as ->.
  { rewrite Z.shiftl_mul_pow2 by lia. unfold u32, bytes4. Z.to_euclidean_division_equations. lia. }
  assert (Z.shiftr (bytes4 b0 b1 b2 b3) (32 - 8) = bytes4 b3 0 0 0) as ->.
  { rewrite Z.shiftr_div_pow2 by lia. change (2 ^ (32 - 8)) with (2 ^ 24). unfold bytes4. Z.to_euclidean_division_equations. lia. }
  rewrite (bytes4_op Z.lor) by (done || apply lor_cons). by rewrite !Z.lor_0_r, !Z.lor_0_l.
Qed.

(** [blk0] reads the word big-endian. *)
Lemma swap_word b0 b1 b2 b3 : is_byte b0 -> is_byte b1 -> is_byte b2 -> is_byte b3 ->
  Z.lor (Z.land (rol (bytes4 b0 b1 b2 b3) 24) 4278255360) (Z.land (rol (bytes4 b0 b1 b2 b3) 8) 16711935) = bytes4 b3 b2 b1 b0.
Proof.
  intros H0 H1 H2 H3. rewrite rol24, rol8 by done.
  change 4278255360 with (bytes4 0 255 0 255). change 16711935 with (bytes4 255 0 255 0).
  assert (Hl : forall x, is_byte x -> Z.land x 255 = x) by (intros x Hx; rewrite land_255; apply Z.mod_small, Hx).
  rewrite !(bytes4_op Z.land) by (done || apply land_cons). rewrite !Hl, !Z.land_0_r by done.
  rewrite (bytes4_op Z.lor) by (done || apply lor_cons). by rewrite !Z.lor_0_l, !Z.lor_0_r.
Qed.

(** ** The schedule *)

Section transform.
Context (block : list Z) (Hlen : zlen block = 64) (Hbytes : Forall is_byte block).

Lemma block_byte i : 0 <= i < 64 -> is_byte (zget block i).
Proof using Hlen Hbytes.
  intros Hi. unfold zget. eapply Forall_lookup_1; [exact Hbytes|]. apply list_lookup_lookup_total_lt. unfold zlen in Hlen. lia.
Qed.

(** The four bytes of word [i]. *)
Lemma block_word i : 0 <= i < 16 ->
  dec32 (slice block (4 * i) 4) = bytes4 (zget block (4 * i)) (zget block (4 * i + 1)) (zget block (4 * i + 2)) (zget block (4 * i + 3)) /\
  be32 (slice block (4 * i) 4) = bytes4 (zget block (4 * i + 3)) (zget block (4 * i + 2)) (zget block (4 * i + 1)) (zget block (4 * i)).
Proof using Hlen. intros Hi. unfold dec32, be32, bytes4. rewrite !zget_slice by lia. rewrite !Z.add_0_r. lia. Qed.

Definition M0 : list Z := (fun i => be32 (slice block (4 * i) 4)) <$> seqZ 0 16.

Lemma zget_fmap_seqZ (f : Z -> Z) n i : 0 <= i < n -> zget (f <$> seqZ 0 n) i = f i.
Proof. intros Hi. fold (vread f 0 n). rewrite zget_vread by lia. done. Qed.

Lemma zget_snoc l x i : 0 <= i -> zget (l ++ [x]) i = if i <? zlen l then zget l i else if i =? zlen l then x else zget [] 0.
Proof.
  intros Hi. unfold zget, zlen. destruct (i <? _) eqn:E; bools.
  - apply lookup_total_app_l. lia.
  - rewrite lookup_total_app_r by lia. destruct (i =? _) eqn:E2; bools.
    + replace (Z.to_nat i - length l)%nat with 0%nat by lia. done.
    + replace (Z.to_nat i - length l)%nat with (S (Z.to_nat i - length l - 1)) by lia.
      rewrite !list_lookup_total_alt. done.
Qed.

Lemma schedule_iter n : let w := Nat.iter n schedule_step M0 in
  zlen w = 16 + Z.of_nat n /\ (forall t, 0 <= t < 16 -> zget w t = zget M0 t) /\
  (forall t, 16 <= t < 16 + Z.of_nat n ->
     zget w t = rol (Z.lxor (Z.lxor (Z.lxor (zget w (t - 3)) (zget w (t - 8))) (zget w (t - 14))) (zget w (t - 16))) 1).
Proof using.
  induction n as [|n (Hl & H0 & H1)].
  - split; [by apply (length_vread (fun i => be32 (slice block (4 * i) 4)))|]. split; [done|lia].
  - change (Nat.iter (S n) schedule_step M0) with (schedule_step (Nat.iter n schedule_step M0)).
    set (w := Nat.iter n schedule_step M0) in *. unfold schedule_step. cbv zeta.
    match goal with |- context [w ++ [?v]] => set (x := v) end.
    split; [unfold zlen in *; rewrite length_app; cbn; lia|].
    assert (Hw : forall t, 0 <= t < zlen w -> zget (w ++ [x]) t = zget w t).
    { intros t Ht. rewrite zget_snoc by lia. by rewrite (proj2 (Z.ltb_lt _ _)) by lia. }
    split; [intros t Ht; rewrite Hw by lia; by apply H0|]. intros t Ht. destruct (decide (t < 16 + Z.of_nat n)).
    + rewrite !Hw by lia. apply H1. lia.
    + rewrite (zget_snoc w x t), (proj2 (Z.ltb_ge _ _)), (proj2 (Z.eqb_eq _ _)) by lia. rewrite !Hw by lia.
      unfold x. by replace (zlen w) with t by lia.
Qed.

Abbreviation W := (schedule block).

Lemma schedule_low t : 0 <= t < 16 -> zget W t = be32 (slice block (4 * t) 4).
Proof using.
  intros Ht. destruct (schedule_iter 64) as (_ & H0 & _). unfold schedule. fold M0. rewrite H0 by done.
  unfold M0. by rewrite zget_fmap_seqZ.
Qed.

Lemma schedule_high t : 16 <= t < 80 ->
  zget W t = rol (Z.lxor (Z.lxor (Z.lxor (zget W (t - 3)) (zget W (t - 8))) (zget W (t - 14))) (zget W (t - 16))) 1.
Proof using. intros Ht. destruct (schedule_iter 64) as (_ & _ & H1). apply H1. lia. Qed.

(** ** The rounds *)

(** After [i] rounds the circular block holds the last words of the schedule, and
    the words not used yet as they were loaded. *)
Definition block_inv (i : Z) (l : list Z) : Prop :=
  zlen l = 16 /\ (forall t, Z.max 0 (i - 16) <= t < i -> zget l (t mod 16) = zget W t) /\
  forall j, i <= j < 16 -> zget l j = dec32 (slice block (4 * j) 4).

Lemma blk0_ok i l : block_inv i l -> 0 <= i < 16 ->
  (blk0 l i).1 = zget W i /\ block_inv (i + 1) (blk0 l i).2.
Proof using Hlen Hbytes.
  intros (Hl & Ht & Hj) Hi. unfold blk0. cbn [fst snd]. rewrite Hj by lia.
  destruct (block_word i Hi) as [-> Hbe]. rewrite swap_word by (apply block_byte; lia).
  assert (Hv : bytes4 (zget block (4 * i + 3)) (zget block (4 * i + 2)) (zget block (4 * i + 1)) (zget block (4 * i)) = zget W i)
    by (by rewrite schedule_low, Hbe).
  rewrite Hv. split; [done|]. split; [by rewrite zlen_zset|]. split.
  - intros t Htt. rewrite zget_zset by (pose proof (Z.mod_pos_bound t 16 ltac:(lia)); lia).
    rewrite Z.mod_small by lia. destruct (i =? t) eqn:E; bools; [by subst|]. rewrite <- Ht by lia. by rewrite Z.mod_small by lia.
  - intros j Hjj. rewrite zget_zset by lia. rewrite (proj2 (Z.eqb_neq i j)) by lia. apply Hj. lia.
Qed.

Lemma land15 x : Z.land x 15 = x mod 16.
Proof using. clear. change 15 with (Z.ones 4). by rewrite Z.land_ones by lia. Qed.

Lemma blk_ok i l : block_inv i l -> 16 <= i < 80 -> (blk l i).1 = zget W i /\ block_inv (i + 1) (blk l i).2.
Proof using.
  intros (Hl & Ht & Hj) Hi. unfold blk. cbn [fst snd]. rewrite !land15.
  replace ((i + 13) mod 16) with ((i - 3) mod 16) by (rewrite <- (Z_mod_plus_full (i - 3) 1 16); f_equal; lia).
  replace ((i + 8) mod 16) with ((i - 8) mod 16) by (rewrite <- (Z_mod_plus_full (i - 8) 1 16); f_equal; lia).
  replace ((i + 2) mod 16) with ((i - 14) mod 16) by (rewrite <- (Z_mod_plus_full (i - 14) 1 16); f_equal; lia).
  assert (Him : i mod 16 = (i - 16) mod 16) by (rewrite <- (Z_mod_plus_full (i - 16) 1 16); f_equal; lia).
  assert (H16 : zget l (i mod 16) = zget W (i - 16)) by (rewrite Him; apply Ht; lia).
  rewrite H16, !Ht, <- schedule_high by lia. split; [done|].
  pose proof (Z.mod_pos_bound i 16 ltac:(lia)). split; [by rewrite zlen_zset|]. split; [|lia].
  intros t Htt. rewrite zget_zset by (pose proof (Z.mod_pos_bound t 16 ltac:(lia)); lia).
  destruct (decide (t = i)) as [->|Hne]; [by rewrite Z.eqb_refl|].
  rewrite (proj2 (Z.eqb_neq (i mod 16) (t mod 16))); [apply Ht; lia|].
  intros Heq. Z.to_euclidean_division_equations. lia.
Qed.

(** The variables in the order the [i]-th call takes them. *)
Definition rotated (i : Z) (vars : list Z) : Z * Z * Z * Z * Z :=
  let arg k := zget vars ((k - i) mod 5) in (arg 0, arg 1, arg 2, arg 3, arg 4).

Lemma rotated_step i vars z' w' : zlen vars = 5 ->
  rotated (i + 1) (zset (zset vars ((4 - i) mod 5) z') ((1 - i) mod 5) w') =
  (let '(v, w, x, y, z) := rotated i vars in (z', v, w', x, y)).
Proof using.
  intros Hl. unfold rotated. pose proof (Z.mod_pos_bound i 5 ltac:(lia)) as Hr.
  assert (Hm : forall k, (k - i) mod 5 = (k - i mod 5) mod 5) by (intros k; by rewrite Zminus_mod_idemp_r).
  assert (Hm1 : forall k, (k - (i + 1)) mod 5 = (k - 1 - i mod 5) mod 5)
    by (intros k; rewrite Zminus_mod_idemp_r; f_equal; lia).
  rewrite !Hm, !Hm1. set (r := i mod 5) in *. clearbody r. clear Hm Hm1.
  destruct vars as [|a [|b [|c [|d [|e [|? ?]]]]]]; try (unfold zlen in Hl; cbn in Hl; lia).
  assert (r = 0 \/ r = 1 \/ r = 2 \/ r = 3 \/ r = 4) as [-> | [-> | [-> | [-> | ->]]]] by lia; reflexivity.
Qed.

Definition words5 (h : Z * Z * Z * Z * Z) : Prop :=
  let '(a, b, c, d, e) := h in word a /\ word b /\ word c /\ word d /\ word e.

Lemma u32_perm z f b k r : u32 (z + (f + b + k + r)) = u32 (r + f + z + k + b).
Proof using. clear. f_equal. lia. Qed.

Lemma R_ok i vars l : 0 <= i < 80 -> zlen vars = 5 -> words5 (rotated i vars) -> block_inv i l ->
  zlen (R i (vars, l)).1 = 5 /\ words5 (rotated (i + 1) (R i (vars, l)).1) /\ block_inv (i + 1) (R i (vars, l)).2 /\
  rotated (i + 1) (R i (vars, l)).1 = fips_round W (rotated i vars) i.
Proof using Hlen Hbytes.
  intros Hi Hl Hw Hb.
  assert (Hblk : (if i <? 16 then blk0 l i else blk l i).1 = zget W i /\
                 block_inv (i + 1) (if i <? 16 then blk0 l i else blk l i).2).
  { destruct (i <? 16) eqn:E; bools; [apply blk0_ok|apply blk_ok]; done || lia. }
  pose proof (rotated_step i vars) as Hrot. unfold R.
  destruct (rotated i vars) as [[[[v w] x] y] z] eqn:Er. unfold rotated in Er. injection Er as -> -> -> -> ->. destruct Hw as (Hv & Hww & Hx & Hy & Hz).
  destruct (if i <? 16 then blk0 l i else blk l i) as [b l']. cbn [fst snd] in Hblk. destruct Hblk as [-> Hb'].
  assert (Hf : (if i <? 20 then (f01 w x y, 1518500249) else if i <? 40 then (f24 w x y, 1859775393)
                 else if i <? 60 then (f3 w x y, 2400959708) else (f24 w x y, 3395469782)) = (f_t i w x y, K_t i)).
  { unfold f_t, K_t. destruct (i <? 20); [by rewrite f01_Ch|]. destruct (i <? 40); [by rewrite f24_Parity|].
    destruct (i <? 60); [by rewrite f3_Maj|by rewrite f24_Parity]. }
  rewrite Hf. cbn [fst snd]. rewrite Hrot by done. rewrite !zlen_zset.
  split; [done|]. split; [|split; [done|]].
  - unfold words5. repeat (split; [first [apply u32_word|assumption|apply rol_word; [assumption|lia]]|]). assumption.
  - unfold fips_round. by rewrite u32_perm.
Qed.

Lemma rounds_ok n vars l : (n <= 80)%nat -> zlen vars = 5 -> words5 (rotated 0 vars) -> block_inv 0 l ->
  let s := foldl (fun s i => R i s) (vars, l) (seqZ 0 (Z.of_nat n)) in
  zlen s.1 = 5 /\ words5 (rotated (Z.of_nat n) s.1) /\ block_inv (Z.of_nat n) s.2 /\
  rotated (Z.of_nat n) s.1 = foldl (fips_round W) (rotated 0 vars) (seqZ 0 (Z.of_nat n)).
Proof using Hlen Hbytes.
  intros Hn Hl Hw Hb. induction n as [|n IH]; [done|].
  specialize (IH ltac:(lia)). cbv zeta in *.
  replace (Z.of_nat (S n)) with (Z.of_nat n + 1) by lia. rewrite seqZ_app by lia. rewrite !foldl_app.
  set (s := foldl (fun s i => R i s) (vars, l) (seqZ 0 (Z.of_nat n))) in *.
  destruct IH as (Hl1 & Hw1 & Hb1 & Heq). rewrite <- Heq. change (seqZ (0 + Z.of_nat n) 1) with [0 + Z.of_nat n].
  cbn [foldl]. rewrite !Z.add_0_l.
  destruct s as [vars1 l1]. cbn [fst snd] in *. by apply R_ok; [lia|..].
Qed.

(** The transform is the compression function of FIPS 180. *)
Lemma transform_ok state : zlen state = 5 -> Forall word state -> SHA1Transform state block = compress state block.
Proof using Hlen Hbytes.
  intros Hs Hw. assert (Hb : block_inv 0 (words block)).
  { split; [by apply (length_vread (fun i => dec32 (slice block (4 * i) 4)))|]. split; [lia|].
    intros j Hj. unfold words. by rewrite zget_fmap_seqZ. }
  destruct state as [|a [|b [|c [|d [|e [|? ?]]]]]]; try (unfold zlen in Hs; cbn in Hs; lia).
  pose proof (rounds_ok 80 [a; b; c; d; e] (words block) ltac:(lia) Hs) as Hr. cbv zeta in Hr.
  assert (Hw5 : words5 (rotated 0 [a; b; c; d; e])).
  { change (word a /\ word b /\ word c /\ word d /\ word e).
    inversion Hw as [|? ? Ha Hw1]; subst. inversion Hw1 as [|? ? Hb1 Hw2]; subst. inversion Hw2 as [|? ? Hc Hw3]; subst.
    inversion Hw3 as [|? ? Hd Hw4]; subst. inversion Hw4 as [|? ? He Hw5]; subst. exact (conj Ha (conj Hb1 (conj Hc (conj Hd He)))). }
  specialize (Hr Hw5 Hb). change (Z.of_nat 80) with 80 in Hr.
  change (rotated 0 [a; b; c; d; e]) with (a, b, c, d, e) in Hr. unfold SHA1Transform, compress.
  change (zget [a; b; c; d; e] 0) with a. change (zget [a; b; c; d; e] 1) with b. change (zget [a; b; c; d; e] 2) with c.
  change (zget [a; b; c; d; e] 3) with d. change (zget [a; b; c; d; e] 4) with e.
  destruct (foldl _ ([a; b; c; d; e], words block) _) as [vars l]. cbn [fst snd] in Hr. destruct Hr as (Hl & _ & _ & Heq).
  rewrite <- Heq. destruct vars as [|a' [|b' [|c' [|d' [|e' [|? ?]]]]]]; try (unfold zlen in Hl; cbn in Hl; lia).
  reflexivity.
Qed.
End transform.

(** ** The blocks of a message *)

Lemma length_compress H block : zlen (compress H block) = 5.
Proof. unfold compress. by destruct (foldl _ _ _) as [[[[a b] c] d] e]. Qed.

Lemma compress_words H block : Forall word (compress H block).
Proof.
  unfold compress. destruct (foldl _ _ _) as [[[[a b] c] d] e]. repeat (apply Forall_cons_2; [apply u32_word|]). by apply Forall_nil_2.
Qed.

Lemma hash_blocks_S n m : 0 <= n -> hash_blocks (n + 1) m = compress (hash_blocks n m) (slice m (64 * n) 64).
Proof. intros Hn. unfold hash_blocks. rewrite seqZ_app, foldl_app by lia. change (seqZ (0 + n) 1) with [0 + n]. cbn [foldl]. by rewrite Z.add_0_l. Qed.

Lemma hash_blocks_state n m : 0 <= n -> zlen (hash_blocks n m) = 5 /\ Forall word (hash_blocks n m).
Proof.
  intros Hn. destruct (decide (n = 0)) as [->|].
  - split; [done|]. change (hash_blocks 0 m) with [1732584193; 4023233417; 2562383102; 271733878; 3285377520].
    repeat (apply Forall_cons_2; [by vm_compute|]). by apply Forall_nil_2.
  - replace n with (n - 1 + 1) by lia. rewrite hash_blocks_S by lia. split; [apply length_compress|apply compress_words].
Qed.

Lemma hash_blocks_app n m d : 0 <= n -> 64 * n <= zlen m -> hash_blocks n (m ++ d) = hash_blocks n m.
Proof.
  intros Hn Hl. replace n with (Z.of_nat (Z.to_nat n)) in * by lia. induction (Z.to_nat n) as [|k IH]; [done|].
  replace (Z.of_nat (S k)) with (Z.of_nat k + 1) in * by lia. rewrite !hash_blocks_S by lia. rewrite IH by lia.
  by rewrite slice_app_l by lia.
Qed.

Lemma zget_app_r (m d : list Z) i : zlen m <= i -> zget (m ++ d) i = zget d (i - zlen m).
Proof.
  unfold zget, zlen. intros. rewrite lookup_total_app_r by lia. f_equal. lia.
Qed.

Lemma zget_app_l (m d : list Z) i : 0 <= i < zlen m -> zget (m ++ d) i = zget m i.
Proof. unfold zget, zlen. intros. apply lookup_total_app_l. lia. Qed.

(** ** The incremental context *)

(** [context] has absorbed the message [m]. *)
Record repr (context : SHA1_CTX) (m : list Z) : Prop := {
  repr_bytes : Forall is_byte m;
  repr_state : sha_state context = hash_blocks (zlen m / 64) m;
  repr_count0 : sha_count0 context = u32 (8 * zlen m);
  repr_count1 : sha_count1 context = u32 (8 * zlen m / 2 ^ 32);
  repr_length : zlen (sha_buffer context) = 64;
  repr_tail : forall j, 0 <= j < zlen m mod 64 -> zget (sha_buffer context) j = zget m (64 * (zlen m / 64) + j)
}.

Lemma SHA1Init_repr buffer : zlen buffer = 64 -> repr (SHA1Init buffer) [].
Proof. intros Hb. split; try done. intros j Hj. change (zlen (@nil Z) mod 64) with 0 in Hj. lia. Qed.

Lemma count_index L : Z.land (Z.shiftr (u32 (8 * L)) 3) 63 = L mod 64.
Proof.
  rewrite Z.shiftr_div_pow2 by lia. change 63 with (Z.ones 6). rewrite Z.land_ones by lia. unfold u32.
  change (2 ^ 32) with (8 * 2 ^ 29). rewrite Z.mul_mod_distr_l by lia. change (2 ^ 3) with 8.
  rewrite Z.mul_comm, Z.div_mul by lia. change (2 ^ 6) with 64. change (2 ^ 29) with (64 * 2 ^ 23).
  rewrite Z.rem_mul_r by lia. rewrite (Z.mul_comm 64), Z_mod_plus_full. apply Z.mod_mod. lia.
Qed.

(** The 64-bit bit count over two words. *)
Lemma count_step L n : 0 <= L -> 0 <= n < 2 ^ 32 ->
  let c0 := u32 (u32 (8 * L) + u32 (Z.shiftl n 3)) in
  let c1 := if c0 <? u32 (8 * L) then u32 (u32 (8 * L / 2 ^ 32) + 1) else u32 (8 * L / 2 ^ 32) in
  c0 = u32 (8 * (L + n)) /\ u32 (c1 + Z.shiftr n 29) = u32 (8 * (L + n) / 2 ^ 32).
Proof.
  intros HL Hn. cbv zeta. rewrite Z.shiftl_mul_pow2, Z.shiftr_div_pow2 by lia. unfold u32. change (2 ^ 3) with 8.
  change (2 ^ 29) with 536870912. change (2 ^ 32) with 4294967296 in *.
  destruct (_ <? _) eqn:E; bools; Z.to_euclidean_division_equations; lia.
Qed.

Lemma transform_block n m : 0 <= n -> 64 * n + 64 <= zlen m -> Forall is_byte m ->
  SHA1Transform (hash_blocks n m) (slice m (64 * n) 64) = hash_blocks (n + 1) m.
Proof.
  intros Hn Hl Hm. destruct (hash_blocks_state n m Hn) as [H5 Hw]. rewrite hash_blocks_S by lia.
  apply transform_ok; [by rewrite length_slice by lia|by apply Forall_slice|done|done].
Qed.

Lemma slice_app_r (m d : list Z) off n : zlen m <= off -> slice (m ++ d) off n = slice d (off - zlen m) n.
Proof.
  unfold slice, zlen. intros. rewrite drop_app_ge by lia. do 2 f_equal. lia.
Qed.

(** The loop over the whole blocks of [data] hashes them in order, and stops
    within the last partial block. *)
Lemma update_blocks_ok fuel m data i n : Forall is_byte (m ++ data) -> zlen data < 2 ^ 32 - 64 ->
  0 <= i <= zlen data -> 0 <= n -> zlen m + i = 64 * n -> zlen data - i < Z.of_nat fuel ->
  let n' := zlen (m ++ data) / 64 in
  update_blocks fuel data i (hash_blocks n (m ++ data)) = Some (hash_blocks n' (m ++ data), 64 * n' - zlen m) /\ n <= n'.
Proof.
  intros Hb Hd. cbv zeta. revert i n. induction fuel as [|fuel IH]; intros i n Hi Hn Hin Hf; [lia|].
  pose proof (zlen_nonneg m). pose proof (zlen_app m data) as Happ. cbn [update_blocks]. rewrite !u32_small by lia.
  destruct (i + 63 <? zlen data) eqn:E; bools.
  - replace (slice data i 64) with (slice (m ++ data) (64 * n) 64) by (rewrite slice_app_r by lia; f_equal; lia).
    rewrite transform_block by (lia || done). destruct (IH (i + 64) (n + 1) ltac:(lia) ltac:(lia) ltac:(lia) ltac:(lia)) as [-> ?].
    split; [done|lia].
  - assert (Hn' : zlen (m ++ data) / 64 = n) by (Z.to_euclidean_division_equations; lia).
    rewrite Hn'. split; [|lia]. do 2 f_equal. lia.
Qed.

(** Filling the buffer with data that continues the message. *)
Lemma buffer_fill context m d : repr context m -> zlen m mod 64 + zlen d <= 64 ->
  let b := splice (sha_buffer context) (zlen m mod 64) d in
  zlen b = 64 /\ forall k, 0 <= k < zlen m mod 64 + zlen d -> zget b k = zget (m ++ d) (64 * (zlen m / 64) + k).
Proof.
  intros [_ _ _ _ Hl Ht] Hd. pose proof (Z.mod_pos_bound (zlen m) 64 ltac:(lia)). pose proof (zlen_nonneg m).
  pose proof (Z.div_mod (zlen m) 64 ltac:(lia)). cbv zeta. split; [by rewrite length_splice by lia|].
  intros k Hk. rewrite zget_splice by lia. destruct (zlen m mod 64 <=? k) eqn:E; bools; cbn [andb].
  - rewrite (proj2 (Z.ltb_lt _ _)) by lia. rewrite zget_app_r by lia. f_equal. lia.
  - rewrite Ht by lia. by rewrite zget_app_l by lia.
Qed.

Lemma SHA1Update_ok context m data : repr context m -> Forall is_byte data -> zlen data < 2 ^ 32 - 64 ->
  exists context', SHA1Update context data = Some context' /\ repr context' (m ++ data).
Proof.
  intros Hr Hd Hlen. pose proof Hr as [Hm Hs Hc0 Hc1 Hbl Ht]. pose proof (zlen_nonneg m). pose proof (zlen_nonneg data).
  pose proof (count_step (zlen m) (zlen data) ltac:(lia) ltac:(lia)) as [Hn0 Hn1]. cbv zeta in Hn0, Hn1.
  pose proof (zlen_app m data) as Happ. rewrite <- Happ in Hn0, Hn1.
  assert (Hmd : Forall is_byte (m ++ data)) by (apply Forall_app; done).
  pose proof (Z.mod_pos_bound (zlen m) 64 ltac:(lia)). pose proof (Z.div_mod (zlen m) 64 ltac:(lia)).
  assert (0 <= zlen m / 64) by (apply Z.div_pos; lia).
  unfold SHA1Update. rewrite Hc0, Hc1, count_index, Hn1, Hn0. set (j := zlen m mod 64) in *. rewrite u32_small by lia.
  destruct (63 <? j + zlen data) eqn:E; bools.
  - set (d := slice data 0 (64 - j)). assert (Hld : zlen d = 64 - j) by (unfold d; rewrite length_slice; lia).
    destruct (buffer_fill context m d Hr ltac:(lia)) as [Hb64 Hb]. fold j in Hb64, Hb.
    assert (Hbuf : splice (sha_buffer context) j d = slice (m ++ data) (64 * (zlen m / 64)) 64).
    { apply list_eq_zget; [rewrite length_slice; lia|]. intros k Hk. rewrite Hb, zget_slice by lia.
      destruct (decide (64 * (zlen m / 64) + k < zlen m)); [by rewrite !zget_app_l by lia|].
      rewrite !zget_app_r by lia. unfold d. by rewrite zget_slice by lia. }
    rewrite Hbuf in Hb64 |- *. rewrite Hs. rewrite <- (hash_blocks_app (zlen m / 64) m data) by lia. rewrite transform_block by (lia || done).
    destruct (update_blocks_ok (Z.to_nat (zlen data)) m data (64 - j) (zlen m / 64 + 1) Hmd Hlen ltac:(lia) ltac:(lia) ltac:(lia) ltac:(lia)) as [-> Hn'].
    eexists. split; [reflexivity|]. cbn [fst snd]. set (n' := zlen (m ++ data) / 64) in *.
    pose proof (Z.mod_pos_bound (zlen (m ++ data)) 64 ltac:(lia)). pose proof (Z.div_mod (zlen (m ++ data)) 64 ltac:(lia)) as Hdm.
    fold n' in Hdm. set (r := zlen data - (64 * n' - zlen m)).
    assert (Hlr : zlen (slice data (64 * n' - zlen m) r) = r) by (rewrite length_slice; lia).
    split; cbn [sha_state sha_count0 sha_count1 sha_buffer]; try done; [by rewrite length_splice by lia|].
    intros k Hk. fold n'. rewrite zget_splice by lia. rewrite (proj2 (Z.leb_le _ _)), (proj2 (Z.ltb_lt _ _)) by lia. cbn [andb].
    rewrite zget_slice by lia. rewrite zget_app_r by lia. f_equal. lia.
  - destruct (buffer_fill context m data Hr ltac:(lia)) as [Hb64 Hb].
    eexists. split; [reflexivity|].
    assert (Hdiv : zlen (m ++ data) / 64 = zlen m / 64) by (rewrite Happ; Z.to_euclidean_division_equations; lia).
    assert (Hmod : zlen (m ++ data) mod 64 = j + zlen data) by (rewrite Happ; unfold j; Z.to_euclidean_division_equations; lia).
    split; cbn [sha_state sha_count0 sha_count1 sha_buffer]; try done.
    + by rewrite Hdiv, hash_blocks_app by lia.
    + intros k Hk. rewrite Hmod in Hk. rewrite Hdiv. apply Hb. fold j. lia.
Qed.

(** Updates compose: feeding chunks is feeding their concatenation. *)
Definition chunk_ok (data : list Z) : Prop := Forall is_byte data /\ zlen data < 2 ^ 32 - 64.

Fixpoint feed (context : SHA1_CTX) (chunks : list (list Z)) : option SHA1_CTX :=
  match chunks with
  | [] => Some context
  | data :: chunks => context ← SHA1Update context data; feed context chunks
  end.

Lemma feed_ok chunks context m : repr context m -> Forall chunk_ok chunks ->
  exists context', feed context chunks = Some context' /\ repr context' (m ++ concat chunks).
Proof.
  revert context m. induction chunks as [|data chunks IH]; intros context m Hr Hc; cbn [feed concat].
  - exists context. by rewrite app_nil_r.
  - apply Forall_cons_1 in Hc as [[Hb Hl] Hc]. destruct (SHA1Update_ok context m data Hr Hb Hl) as (c & -> & Hr').
    cbn [mbind option_bind]. destruct (IH c (m ++ data) Hr' Hc) as (c' & -> & Hr''). exists c'. by rewrite app_assoc.
Qed.

(** ** The padding and the digest *)

Lemma count_pad L : 0 <= L -> (Z.land (u32 (8 * L)) 504 =? 448) = (L mod 64 =? 56).
Proof.
  intros HL. assert (Z.land (u32 (8 * L)) 504 = 8 * (L mod 64)) as ->.
  { unfold u32. change (2 ^ 32) with (8 * 2 ^ 29). rewrite Z.mul_mod_distr_l by lia.
    change 504 with (Z.shiftl (Z.ones 6) 3). rewrite (Z.mul_comm 8). change 8 with (2 ^ 3) at 1.
    rewrite <- Z.shiftl_mul_pow2, <- Z.shiftl_land, Z.land_ones, Z.shiftl_mul_pow2 by lia. rewrite Z.mul_comm. f_equal.
    change (2 ^ 29) with (2 ^ 6 * 2 ^ 23). rewrite Z.rem_mul_r by lia. rewrite (Z.mul_comm (2 ^ 6)), Z_mod_plus_full. by apply Z.mod_mod. }
  destruct (L mod 64 =? 56) eqn:E; bools; [apply Z.eqb_eq|apply Z.eqb_neq]; lia.
Qed.

Lemma pad_loop_ok fuel context m : repr context m -> (56 - zlen m) mod 64 < Z.of_nat fuel ->
  exists context', pad_loop fuel context = Some context' /\
    repr context' (m ++ replicate (Z.to_nat ((56 - zlen m) mod 64)) 0).
Proof.
  revert context m. induction fuel as [|fuel IH]; intros context m Hr Hf.
  { pose proof (Z.mod_pos_bound (56 - zlen m) 64 ltac:(lia)). lia. }
  pose proof (zlen_nonneg m). cbn [pad_loop]. rewrite (repr_count0 _ _ Hr), count_pad by lia.
  destruct (zlen m mod 64 =? 56) eqn:E; bools; cbn [negb].
  - exists context. split; [done|]. replace ((56 - zlen m) mod 64) with 0 by (Z.to_euclidean_division_equations; lia).
    by rewrite app_nil_r.
  - destruct (SHA1Update_ok context m [0] Hr) as (c & -> & Hr'); [by repeat constructor|by vm_compute|]. cbn [mbind option_bind].
    pose proof (zlen_app m [0]) as Happ. change (zlen [0]) with 1 in Happ.
    assert (Hp : (56 - zlen m) mod 64 = (56 - zlen (m ++ [0])) mod 64 + 1)
      by (rewrite Happ; Z.to_euclidean_division_equations; lia).
    destruct (IH c (m ++ [0]) Hr' ltac:(lia)) as (c' & -> & Hr''). exists c'. split; [done|].
    rewrite Hp. replace (Z.to_nat _) with (S (Z.to_nat ((56 - zlen (m ++ [0])) mod 64)))
      by (pose proof (Z.mod_pos_bound (56 - zlen (m ++ [0])) 64 ltac:(lia)); lia).
    rewrite <- app_assoc in Hr''. exact Hr''.
Qed.

Lemma be_byte_mod x i : be_byte x i = Z.shiftr x ((3 - Z.land i 3) * 8) mod 256.
Proof. apply land_255. Qed.

(** A byte of a word that holds bits [o .. o+31] of a number. *)
Lemma byte_of_field L s o : 0 <= s <= 24 -> 0 <= o -> Z.shiftr (u32 (Z.shiftr L o)) s mod 256 = Z.shiftr L (s + o) mod 256.
Proof.
  intros Hs Ho. unfold u32. change 256 with (2 ^ 8). apply Z.bits_inj'. intros i Hi. destruct (decide (i < 8)).
  - rewrite !Z.mod_pow2_bits_low, !Z.shiftr_spec, Z.mod_pow2_bits_low, Z.shiftr_spec by lia. f_equal. lia.
  - by rewrite !Z.mod_pow2_bits_high by lia.
Qed.

Lemma finalcount_ok L :
  ((fun i => be_byte (if 4 <=? i then u32 (8 * L) else u32 (8 * L / 2 ^ 32)) i) <$> seqZ 0 8) = enc_be 8 (8 * L).
Proof.
  rewrite <- Z.shiftr_div_pow2 by lia. replace (u32 (8 * L)) with (u32 (Z.shiftr (8 * L) 0)) by (by rewrite Z.shiftr_0_r).
  unfold enc_be. apply list_fmap_ext. intros k x Hx. apply lookup_seqZ in Hx. rewrite be_byte_mod.
  change 3 with (Z.ones 2) at 2. rewrite Z.land_ones by lia. change (2 ^ 2) with 4. change (Z.of_nat 8) with 8.
  destruct (4 <=? x) eqn:E; bools; rewrite byte_of_field by (Z.to_euclidean_division_equations; lia);
    do 2 f_equal; Z.to_euclidean_division_equations; lia.
Qed.

Lemma digest_ok H : zlen H = 5 ->
  ((fun i => be_byte (zget H (Z.shiftr i 2)) i) <$> seqZ 0 20) = concat (enc_be 4 <$> H).
Proof.
  intros Hl. destruct H as [|a [|b [|c [|d [|e [|? ?]]]]]]; try (unfold zlen in Hl; cbn in Hl; lia).
  etrans; [apply list_fmap_ext; intros k x Hx; apply be_byte_mod|reflexivity].
Qed.

Lemma enc_be_bytes n x : Forall is_byte (enc_be n x).
Proof. apply Forall_fmap, Forall_true. intros i. unfold compose, is_byte. apply Z.mod_pos_bound. lia. Qed.

Lemma length_enc_be n x : zlen (enc_be n x) = Z.of_nat n.
Proof. unfold zlen, enc_be. rewrite length_fmap, length_seqZ. lia. Qed.

(** The digest of a context is the hash of the message it has absorbed. *)
Lemma SHA1Final_ok context m : repr context m ->
  SHA1Final context = Some (fips_sha1 m, mkSha (replicate 5 0) 0 0 (replicate 64 0)).
Proof.
  intros Hr. pose proof (zlen_nonneg m). unfold SHA1Final. rewrite (repr_count0 _ _ Hr), (repr_count1 _ _ Hr), finalcount_ok.
  destruct (SHA1Update_ok context m [128] Hr) as (c1 & -> & Hr1); [by repeat constructor|by vm_compute|]. cbn [mbind option_bind].
  pose proof (zlen_app m [128]) as Happ. change (zlen [128]) with 1 in Happ.
  destruct (pad_loop_ok 64 c1 (m ++ [128]) Hr1) as (c2 & -> & Hr2).
  { pose proof (Z.mod_pos_bound (56 - zlen (m ++ [128])) 64 ltac:(lia)). lia. }
  cbn [mbind option_bind]. replace (56 - zlen (m ++ [128])) with (55 - zlen m) in Hr2 by lia.
  destruct (SHA1Update_ok c2 _ (enc_be 8 (8 * zlen m)) Hr2) as (c3 & -> & Hr3); [apply enc_be_bytes|by rewrite length_enc_be|].
  cbn [mbind option_bind]. rewrite <- !app_assoc in Hr3. fold (padded m) in Hr3. unfold fips_sha1.
  rewrite (repr_state _ _ Hr3). do 2 f_equal. apply digest_ok.
  apply hash_blocks_state, Z.div_pos; [apply zlen_nonneg|lia].
Qed.
