(* ===== verification/Sha1Theorems.v ===== *)
(** The theorems on SHA-1: the block transform, the incremental context and the
    digest agree with FIPS 180. *)
From Stdlib Require Import ZArith Lia Bool.
From S2P Require Import Prelude Sha1 Sha1Proof.
From stdpp Require Import base list numbers option.

Open Scope Z_scope.

(** the unrolled transform, which keeps the sixteen words of the block in
    place and rotates the names of its variables, is the compression function of
    FIPS 180 with its schedule of eighty words. *)
Theorem SHA1Transform_correct state block :
  zlen state = 5 -> Forall word state -> zlen block = 64 -> Forall is_byte block ->
  SHA1Transform state block = compress state block.
Proof. intros Hs Hw Hb Hby. by apply transform_ok. Qed.

Lemma SHA1Transform_correct_witness :
  SHA1Transform (sha_state (SHA1Init [])) (padded [97; 98; 99]) = [2845392438; 1191608682; 3124634993; 2018558572; 2630932637].
Proof.
  rewrite (SHA1Transform_correct (sha_state (SHA1Init [])) (padded [97; 98; 99])); [by vm_compute|done| |by vm_compute|].
  - apply (bool_decide_eq_true_1 (Forall word (sha_state (SHA1Init [])))). by vm_compute.
  - apply (bool_decide_eq_true_1 (Forall is_byte (padded [97; 98; 99]))). by vm_compute.
Defined.

(** Updating a context that has absorbed [m] with [data] gives a context that
    has absorbed their concatenation: the 64-bit bit count carries between its
    words, whole blocks are hashed in order, and the rest waits in the buffer. *)
Theorem SHA1Update_correct context m data :
  repr context m -> Forall is_byte data -> zlen data < 2 ^ 32 - 64 ->
  exists context', SHA1Update context data = Some context' /\ repr context' (m ++ data).
Proof. apply SHA1Update_ok. Qed.

Lemma SHA1Update_correct_witness :
  exists context', SHA1Update (SHA1Init (replicate 64 0)) (replicate 130 97) = Some context' /\
    repr context' ([] ++ replicate 130 97).
Proof.
  apply (SHA1Update_correct (SHA1Init (replicate 64 0)) [] (replicate 130 97)).
  - by apply SHA1Init_repr.
  - apply Forall_replicate. unfold is_byte. lia.
  - by vm_compute.
Defined.

(** C36: however a message is cut into updates, the digest is its SHA-1 hash; the
    padding loop terminates, the length field is right modulo [2^64], and the context
    is wiped. *)
Theorem SHA1_digest_correct buffer chunks : zlen buffer = 64 -> Forall chunk_ok chunks ->
  (context ← feed (SHA1Init buffer) chunks; SHA1Final context) =
  Some (fips_sha1 (concat chunks), mkSha (replicate 5 0) 0 0 (replicate 64 0)).
Proof.
  intros Hb Hc. destruct (feed_ok chunks _ [] (SHA1Init_repr buffer Hb) Hc) as (c & -> & Hr). by apply SHA1Final_ok.
Qed.

Lemma SHA1_digest_correct_witness :
  (context ← feed (SHA1Init (replicate 64 0)) [[97]; [98; 99]]; SHA1Final context) =
  Some ([169; 153; 62; 54; 71; 6; 129; 106; 186; 62; 37; 113; 120; 80; 194; 108; 156; 208; 216; 157],
        mkSha (replicate 5 0) 0 0 (replicate 64 0)).
Proof.
  rewrite (SHA1_digest_correct (replicate 64 0) [[97]; [98; 99]]); [by vm_compute|done|].
  repeat (apply Forall_cons_2; [split; [repeat (apply Forall_cons_2; [unfold is_byte; lia|]); by apply Forall_nil_2|by vm_compute]|]).
  by apply Forall_nil_2.
Defined.
