(* ===== verification/Noniso.v ===== *)
(** Number formatting of [core_esp31b_noniso.c]: [itoa] and its variants write
    digits from the least significant one into the caller's buffer and reverse
    them in place.  A buffer is a list of bytes from the pointer on; [None] is
    undefined behaviour (an access outside the buffer or the digit string, or the
    [abs] of the least integer).  [int] and [long] have 32 bits. *)
From Stdlib Require Import ZArith Lia Bool SpecFloat.
From S2P Require Import Prelude CDouble.
From stdpp Require Import base list numbers option.

Open Scope Z_scope.

(** ** The code *)

Definition INT_MIN : Z := - 2 ^ 31.
Definition INT_MAX : Z := 2 ^ 31 - 1.

(** ["0123456789abcdef"]. *)
Definition digit_chars : list Z := seqZ 48 10 ++ seqZ 97 6.

Definition char_at (s : list Z) (i : Z) : option Z := if 0 <=? i then s !! Z.to_nat i else None.
Definition store_at (s : list Z) (i : Z) (c : Z) : option (list Z) :=
  if (0 <=? i) && (i <? zlen s) then Some (zset s i c) else None.

(** The loop of [reverse] on the indices [is] and [ie]. *)
Fixpoint reverse_loop (fuel : nat) (s : list Z) (is_ ie : Z) : option (list Z) :=
  match fuel with
  | O => None
  | S fuel =>
      if is_ <? ie then
        tmp ← char_at s ie;
        c ← char_at s is_;
        s ← store_at s ie c;
        s ← store_at s is_ tmp;
        reverse_loop fuel s (is_ + 1) (ie - 1)
      else Some s
  end.

Definition reverse (s : list Z) (begin end_ : Z) : option (list Z) :=
  reverse_loop (Z.to_nat (end_ - begin) + 1) s begin (end_ - 1).

(** The [do]-[while] loop: the buffer and the position [out] behind the digits. *)
Fixpoint digits_loop (fuel : nat) (quotient base : Z) (s : list Z) (out : Z) : option (list Z * Z) :=
  match fuel with
  | O => None
  | S fuel =>
      let tmp := Z.quot quotient base in
      c ← char_at digit_chars (quotient - tmp * base);
      s ← store_at s out c;
      if tmp =? 0 then Some (s, out + 1) else digits_loop fuel tmp base s (out + 1)
  end.

Definition abs_int (value : Z) : option Z := if value =? INT_MIN then None else Some (Z.abs value).

Definition itoa (value : Z) (result : list Z) (base : Z) : option (list Z) :=
  if (base <? 2) || (16 <? base) then store_at result 0 0
  else
    quotient ← abs_int value;
    r ← digits_loop 33 quotient base result 0;
    let '(s, out) := r in
    r ← (if value <? 0 then s ← store_at s out 45; Some (s, out + 1) else Some (s, out));
    let '(s, out) := r in
    s ← reverse s 0 out;
    store_at s out 0.

(** [long] is as wide as [int], and [ltoa] calls [abs] too. *)
Definition ltoa (value : Z) (result : list Z) (base : Z) : option (list Z) :=
  if (base <? 2) || (16 <? base) then store_at result 0 0
  else
    quotient ← abs_int value;
    r ← digits_loop 33 quotient base result 0;
    let '(s, out) := r in
    r ← (if value <? 0 then s ← store_at s out 45; Some (s, out + 1) else Some (s, out));
    let '(s, out) := r in
    s ← reverse s 0 out;
    store_at s out 0.

Definition utoa (value : Z) (result : list Z) (base : Z) : option (list Z) :=
  if (base <? 2) || (16 <? base) then store_at result 0 0
  else
    r ← digits_loop 33 value base result 0;
    let '(s, out) := r in
    s ← reverse s 0 out;
    store_at s out 0.

Definition ultoa (value : Z) (result : list Z) (base : Z) : option (list Z) :=
  if (base <? 2) || (16 <? base) then store_at result 0 0
  else
    r ← digits_loop 33 value base result 0;
    let '(s, out) := r in
    s ← reverse s 0 out;
    store_at s out 0.

(** [strtol] of the C library in base 10: white space, a sign, digits; the value is
    clamped to the range of [long].  The string ends at its terminator. *)
Definition is_space (c : Z) : bool := (c =? 32) || ((9 <=? c) && (c <=? 13)).
Definition is_digit (c : Z) : bool := (48 <=? c) && (c <=? 57).

Fixpoint skip_space (s : list Z) : option (list Z) :=
  match s with
  | [] => None
  | c :: s' => if is_space c then skip_space s' else Some s
  end.

Fixpoint strtol_digits (s : list Z) (acc : Z) : option Z :=
  match s with
  | [] => None
  | c :: s => if is_digit c then strtol_digits s (10 * acc + (c - 48)) else Some acc
  end.

Definition strtol10 (s : list Z) : option Z :=
  s ← skip_space s;
  match s with
  | [] => None
  | c :: s' =>
      n ← strtol_digits (if (c =? 45) || (c =? 43) then s' else s) 0;
      Some (Z.max INT_MIN (Z.min INT_MAX (if c =? 45 then - n else n)))
  end.

Definition atol (s : list Z) : option Z := strtol10 s.
Definition atoi (s : list Z) : option Z := v ← atol s; Some (s32 v).

Example itoa_255 : itoa (-255) (replicate 8 1) 16 = Some [45; 102; 102; 0; 1; 1; 1; 1].
Proof. reflexivity. Qed.
Example atoi_itoa_42 : (s ← itoa (-42) (replicate 8 1) 10; atoi s) = Some (-42).
Proof. reflexivity. Qed.
Example itoa_min : itoa INT_MIN (replicate 40 1) 10 = None.
Proof. reflexivity. Qed.

(** ** Numerals *)

Definition digit_char (d : Z) : Z := digit_chars !!! Z.to_nat d.

(** The value of digits from the most significant one. *)
Definition value_of (base : Z) (ds : list Z) : Z := foldl (fun acc d => base * acc + d) 0 ds.

(** [text] is the numeral of [v] in base [base]: an optional minus sign and digits
    below the base, without a leading zero but for zero itself. *)
Definition numeral (base v : Z) (text : list Z) : Prop :=
  exists ds, text = (if v <? 0 then [45] else []) ++ (digit_char <$> ds) /\
    Forall (fun d => 0 <= d < base) ds /\ value_of base ds = Z.abs v /\
    (ds = [0] \/ exists d ds', ds = d :: ds' /\ d <> 0).

Lemma value_of_snoc base ds d : value_of base (ds ++ [d]) = base * value_of base ds + d.
Proof. unfold value_of. by rewrite foldl_app. Qed.

Lemma char_at_digit d : 0 <= d < 16 -> char_at digit_chars d = Some (digit_char d).
Proof.
  intros Hd. unfold char_at, digit_char. rewrite (proj2 (Z.leb_le 0 d)) by lia.
  apply list_lookup_lookup_total_lt. change (length digit_chars) with 16%nat. lia.
Qed.

Lemma store_at_app s c x rest : store_at (s ++ x :: rest) (zlen s) c = Some (s ++ c :: rest).
Proof.
  unfold store_at, zset, zlen. rewrite length_app. cbn [length].
  rewrite (proj2 (Z.leb_le _ _)), (proj2 (Z.ltb_lt _ _)) by lia. cbn [andb]. f_equal.
  rewrite Nat2Z.id, insert_app_r_alt by lia. by rewrite Nat.sub_diag.
Qed.

Lemma char_at_app s x rest : char_at (s ++ x :: rest) (zlen s) = Some x.
Proof.
  unfold char_at, zlen. rewrite (proj2 (Z.leb_le _ _)) by lia. rewrite Nat2Z.id. by apply list_lookup_middle.
Qed.

(** The loop appends the digits of [q], the least significant one first. *)
Lemma digits_loop_ok k fuel q base s rest :
  2 <= base <= 16 -> 0 <= q < base ^ Z.of_nat k -> (1 <= k <= fuel)%nat -> (k <= length rest)%nat ->
  exists ds, digits_loop fuel q base (s ++ rest) (zlen s) =
      Some (s ++ (digit_char <$> ds) ++ drop (length ds) rest, zlen s + zlen ds) /\
    (1 <= length ds <= k)%nat /\ Forall (fun d => 0 <= d < base) ds /\ value_of base (rev ds) = q /\
    (ds = [0] \/ exists d ds', ds = ds' ++ [d] /\ d <> 0).
Proof.
  intros Hb. revert fuel q s rest. induction k as [|k IH]; intros fuel q s rest Hq Hk Hr; [lia|].
  destruct fuel as [|fuel]; [lia|]. destruct rest as [|x rest]; [cbn in Hr; lia|]. cbn [length] in Hr. cbn [digits_loop].
  pose proof (Z.div_mod q base ltac:(lia)). pose proof (Z.mod_pos_bound q base ltac:(lia)).
  pose proof (Z.div_pos q base ltac:(lia) ltac:(lia)).
  rewrite Z.quot_div_nonneg by lia. replace (q - q / base * base) with (q mod base) by lia.
  rewrite char_at_digit by lia. cbn [mbind option_bind]. rewrite store_at_app. cbn [mbind option_bind].
  destruct (q / base =? 0) eqn:E; bools.
  - exists [q mod base]. split; [done|]. split; [cbn; lia|]. split; [by repeat constructor; lia|].
    split; [cbn; unfold value_of; cbn; lia|]. destruct (decide (q mod base = 0)) as [->|]; [by left|].
    right. by exists (q mod base), [].
  - assert (Hq' : 0 <= q / base < base ^ Z.of_nat k).
    { split; [done|]. apply Z.div_lt_upper_bound; [lia|]. rewrite Nat2Z.inj_succ, Z.pow_succ_r in Hq by lia. lia. }
    assert (Hk1 : (1 <= k)%nat). { destruct k; [|lia]. cbn in Hq'. lia. }
    destruct (IH fuel (q / base) (s ++ [digit_char (q mod base)]) rest Hq' ltac:(lia) ltac:(lia))
      as (ds & Hl & Hlen & Hds & Hv & Hlast).
    rewrite zlen_snoc, <- app_assoc in Hl. cbn [app] in Hl. exists (q mod base :: ds). split.
    + rewrite Hl. rewrite <- app_assoc. cbn. do 2 f_equal. unfold zlen. cbn. lia.
    + cbn [length]. split; [lia|]. split; [constructor; [lia|done]|]. split.
      * cbn [rev]. rewrite value_of_snoc, Hv. lia.
      * right. destruct Hlast as [->|(d & ds' & -> & Hd)]; [|by exists d, (q mod base :: ds')].
        unfold value_of in Hv. cbn in Hv. lia.
Qed.

(** [reverse] on the part between the two pointers. *)
Lemma reverse_loop_ok n fuel pre mid post : (length mid <= n)%nat -> (n < fuel)%nat ->
  reverse_loop fuel (pre ++ mid ++ post) (zlen pre) (zlen pre + zlen mid - 1) = Some (pre ++ rev mid ++ post).
Proof.
  revert fuel pre mid post. induction n as [n IH] using lt_wf_ind; intros fuel pre mid post Hn Hf.
  destruct fuel as [|fuel]; [lia|]. cbn [reverse_loop]. destruct mid as [|x mid].
  { change (zlen (@nil Z)) with 0. by rewrite (proj2 (Z.ltb_ge _ _)) by lia. }
  destruct mid as [|y mid] using rev_ind.
  { change (zlen [x]) with 1. by rewrite (proj2 (Z.ltb_ge _ _)) by lia. }
  clear IHmid. set (c := (x :: mid ++ [y])).
  assert (Hz : zlen c = zlen mid + 2) by (unfold c, zlen; cbn; rewrite length_app; cbn; lia).
  pose proof (zlen_nonneg mid). rewrite (proj2 (Z.ltb_lt _ _)) by lia.
  assert (Hc : pre ++ c ++ post = (pre ++ x :: mid) ++ y :: post) by (unfold c; cbn; by rewrite <- !app_assoc).
  assert (Hp : zlen pre + zlen c - 1 = zlen (pre ++ x :: mid)).
  { rewrite Hz. unfold zlen. rewrite length_app. cbn. lia. }
  rewrite Hp, Hc, char_at_app. cbn [mbind option_bind].
  replace (char_at ((pre ++ x :: mid) ++ y :: post) (zlen pre)) with (Some x) by (by rewrite <- app_assoc; cbn [app]; rewrite char_at_app).
  cbn [mbind option_bind]. rewrite store_at_app. cbn [mbind option_bind].
  replace ((pre ++ x :: mid) ++ x :: post) with (pre ++ x :: mid ++ x :: post) by (by rewrite <- app_assoc).
  rewrite store_at_app. cbn [mbind option_bind].
  specialize (IH (length mid) ltac:(unfold c, zlen in *; cbn in *; rewrite length_app in *; cbn in *; lia) fuel
    (pre ++ [y]) mid (x :: post) ltac:(lia)).
  rewrite <- app_assoc in IH. cbn [app] in IH. rewrite zlen_snoc in IH.
  replace (zlen (pre ++ x :: mid) - 1) with (zlen pre + 1 + zlen mid - 1)
    by (unfold zlen; rewrite length_app; cbn; lia).
  rewrite IH by (unfold c in Hn; cbn in Hn; rewrite length_app in Hn; cbn in Hn; lia).
  unfold c. cbn [rev]. rewrite rev_app_distr. cbn. by rewrite <- !app_assoc.
Qed.

Lemma reverse_ok s rest : reverse (s ++ rest) 0 (zlen s) = Some (rev s ++ rest).
Proof.
  unfold reverse. pose proof (reverse_loop_ok (length s) (Z.to_nat (zlen s - 0) + 1) [] s rest) as H.
  cbn [app] in H. change (zlen (@nil Z)) with 0 in H. rewrite !Z.add_0_l in H. apply H; unfold zlen; lia.
Qed.

Lemma numeral_of base v ds : Forall (fun d => 0 <= d < base) ds -> value_of base (rev ds) = Z.abs v ->
  (ds = [0] \/ exists d ds', ds = ds' ++ [d] /\ d <> 0) ->
  numeral base v (rev ((digit_char <$> ds) ++ (if v <? 0 then [45] else []))).
Proof.
  intros Hds Hv Hl. exists (rev ds). rewrite rev_app_distr. split.
  - rewrite (map_rev digit_char). by destruct (v <? 0).
  - split; [by apply Forall_rev|]. split; [done|]. destruct Hl as [->|(d & ds' & -> & Hd)]; [by left|].
    right. exists d, (rev ds'). by rewrite rev_app_distr.
Qed.

(** The digits of [n] in a buffer, the sign of [v] behind them, reversed and
    terminated. *)
Lemma format_number_ok base v n k result :
  2 <= base <= 16 -> n = Z.abs v -> n < base ^ Z.of_nat k -> (1 <= k <= 33)%nat ->
  (k + 1 < length result + (if (v <? 0)%Z then 0 else 1))%nat ->
  exists text, (r ← digits_loop 33 n base result 0;
    let '(s, out) := r in
    r ← (if v <? 0 then s ← store_at s out 45; Some (s, out + 1) else Some (s, out));
    let '(s, out) := r in
    s ← reverse s 0 out;
    store_at s out 0) = Some (text ++ 0 :: drop (S (length text)) result) /\
    numeral base v text /\ (length text <= k + (if (v <? 0)%Z then 1 else 0))%nat.
Proof.
  intros Hb -> Hn Hk Hr.
  destruct (digits_loop_ok k 33 (Z.abs v) base [] result Hb ltac:(lia) Hk) as (ds & Hl & Hlen & Hds & Hv & Hlast);
    [destruct (v <? 0); lia|].
  change (zlen (@nil Z)) with 0 in Hl. cbn [app] in Hl. rewrite Hl, Z.add_0_l. cbn [mbind option_bind].
  set (t := (digit_char <$> ds) ++ (if v <? 0 then [45] else [])).
  exists (rev t). split; [|split; [by apply numeral_of|]].
  2: { unfold t. rewrite length_rev, length_app, length_fmap. destruct (v <? 0); cbn; lia. }
  assert (Hz : zlen ds = zlen (digit_char <$> ds)) by (unfold zlen; by rewrite length_fmap).
  rewrite length_rev. unfold t. rewrite length_app, length_fmap. destruct (v <? 0).
  - destruct (drop (length ds) result) as [|x rest] eqn:Ed; [apply (f_equal length) in Ed; rewrite length_drop in Ed; cbn in Ed; lia|].
    rewrite Hz, store_at_app. cbn [mbind option_bind].
    replace ((digit_char <$> ds) ++ 45 :: rest) with (((digit_char <$> ds) ++ [45]) ++ rest) by (by rewrite <- app_assoc).
    rewrite <- (zlen_snoc _ 45), reverse_ok. cbn [mbind option_bind].
    assert (Hd : drop (length ds + 1) result = rest) by (rewrite <- drop_drop, Ed; done).
    destruct rest as [|x' rest]; [apply (f_equal length) in Hd; rewrite length_drop in Hd; cbn in Hd; lia|].
    set (u := (digit_char <$> ds) ++ [45]). assert (Hu : zlen u = zlen (rev u)) by (unfold zlen; by rewrite length_rev).
    rewrite Hu, store_at_app. do 3 f_equal. cbn [length].
    replace (S (length ds + 1)) with (length ds + 1 + 1)%nat by lia. rewrite <- drop_drop, Hd. done.
  - rewrite app_nil_r. cbn [mbind option_bind]. rewrite Hz, reverse_ok. cbn [mbind option_bind].
    destruct (drop (length ds) result) as [|x rest] eqn:Ed; [apply (f_equal length) in Ed; rewrite length_drop in Ed; cbn in Ed; lia|].
    set (u := digit_char <$> ds). assert (Hu : zlen u = zlen (rev u)) by (unfold zlen; by rewrite length_rev).
    rewrite Hu, store_at_app. do 3 f_equal. cbn [length]. rewrite Nat.add_0_r.
    replace (S (length ds)) with (length ds + 1)%nat by lia. rewrite <- drop_drop, Ed. done.
Qed.

Lemma base_guard base : 2 <= base <= 16 -> (base <? 2) || (16 <? base) = false.
Proof. intros. apply orb_false_iff. split; apply Z.ltb_ge; lia. Qed.

Lemma itoa_ok base v k result : 2 <= base <= 16 -> INT_MIN < v <= INT_MAX ->
  Z.abs v < base ^ Z.of_nat k -> (1 <= k <= 33)%nat -> (k + 1 < length result + (if (v <? 0)%Z then 0 else 1))%nat ->
  exists text, itoa v result base = Some (text ++ 0 :: drop (S (length text)) result) /\
    numeral base v text /\ (length text <= k + (if (v <? 0)%Z then 1 else 0))%nat.
Proof.
  intros Hb Hv Hn Hk Hr. unfold itoa, abs_int. rewrite base_guard by done. rewrite (proj2 (Z.eqb_neq v INT_MIN)) by lia.
  cbn [mbind option_bind]. by apply format_number_ok.
Qed.

Lemma utoa_ok base v k result : 2 <= base <= 16 -> 0 <= v < base ^ Z.of_nat k -> (1 <= k <= 33)%nat -> (k < length result)%nat ->
  exists text, utoa v result base = Some (text ++ 0 :: drop (S (length text)) result) /\
    numeral base v text /\ (length text <= k)%nat.
Proof.
  intros Hb Hv Hk Hr. unfold utoa. rewrite base_guard by done.
  assert (Hnn : (v <? 0) = false) by (apply Z.ltb_ge; lia).
  destruct (format_number_ok base v v k result Hb ltac:(lia) ltac:(lia) Hk) as (text & Ht & Hnum & Hlen).
  { rewrite Hnn. lia. }
  rewrite Hnn in *. exists text. split; [exact Ht|]. split; [done|lia].
Qed.

(** ** Parsing *)

Lemma digit_char_dec d : 0 <= d < 10 -> digit_char d = 48 + d.
Proof.
  intros Hd. assert (d = 0 \/ d = 1 \/ d = 2 \/ d = 3 \/ d = 4 \/ d = 5 \/ d = 6 \/ d = 7 \/ d = 8 \/ d = 9) as H by lia.
  repeat (destruct H as [->|H]; [reflexivity|]). by subst.
Qed.

Lemma strtol_digits_ok ds acc rest : Forall (fun d => 0 <= d < 10) ds ->
  strtol_digits ((digit_char <$> ds) ++ 0 :: rest) acc = Some (foldl (fun acc d => 10 * acc + d) acc ds).
Proof.
  revert acc. induction ds as [|d ds IH]; intros acc Hd; [done|].
  pose proof (Forall_inv Hd) as Hd1. cbn beta in Hd1. apply Forall_inv_tail in Hd. cbn [fmap list_fmap app strtol_digits foldl].
  rewrite digit_char_dec by done. unfold is_digit. rewrite (proj2 (Z.leb_le _ _)), (proj2 (Z.leb_le _ _)) by lia. cbn [andb].
  replace (48 + d - 48) with d by lia. by apply IH.
Qed.

Lemma atoi_numeral v text rest : INT_MIN <= v <= INT_MAX -> numeral 10 v text -> atoi (text ++ 0 :: rest) = Some v.
Proof.
  intros Hv (ds & -> & Hds & Hval & Hne). unfold atoi, atol, strtol10, value_of in *.
  assert (Hs : s32 v = v) by (apply s32_small; unfold INT_MIN, INT_MAX in Hv; lia).
  destruct (v <? 0) eqn:E; bools.
  - cbn [app skip_space]. change (is_space 45) with false. cbv iota. cbn [mbind option_bind].
    change ((45 =? 45) || (45 =? 43)) with true. cbv iota. rewrite strtol_digits_ok, Hval by done. cbn [mbind option_bind].
    change (45 =? 45) with true. cbv iota. replace (Z.max INT_MIN _) with v by lia. by rewrite Hs.
  - assert (exists d ds', ds = d :: ds') as (d & ds' & ->) by (destruct Hne as [->|(? & ? & -> & _)]; eauto).
    pose proof (Forall_inv Hds) as Hd. cbn beta in Hd. cbn [app fmap list_fmap skip_space].
    replace (is_space (digit_char d)) with false.
    2: { rewrite digit_char_dec by done. unfold is_space. symmetry. apply orb_false_iff. split; [apply Z.eqb_neq; lia|].
         apply andb_false_iff. right. apply Z.leb_gt. lia. }
    cbn [mbind option_bind]. rewrite digit_char_dec by done.
    rewrite (proj2 (Z.eqb_neq (48 + d) 45)), (proj2 (Z.eqb_neq (48 + d) 43)) by lia. cbn [orb].
    rewrite <- digit_char_dec by done. change (digit_char d :: (digit_char <$> ds') ++ 0 :: rest) with ((digit_char <$> d :: ds') ++ 0 :: rest).
    rewrite strtol_digits_ok, Hval by done. cbn [mbind option_bind]. replace (Z.max INT_MIN _) with v by lia. by rewrite Hs.
Qed.

(** The floating-point part of [core_esp31b_noniso.c]: [atof] and [dtostrf], on the
    doubles of [CDouble].  [strtod] is the C library's: a parameter.  A buffer is a list
    of bytes from the pointer on; [None] is undefined behaviour. *)

(** ** The code *)

(** [strtod] yields the value and the number of characters it has read. *)
Definition atof (strtod : list Z -> double * Z) (s : list Z) : double := fst (strtod s).

(** [strcpy(s, text)]. *)
Fixpoint store_string (s : list Z) (out : Z) (text : list Z) : option (list Z) :=
  match text with
  | [] => store_at s out 0
  | c :: text => s ← store_at s out c; store_string s (out + 1) text
  end.

(** [for (i = 0; i < prec; ++i) rounding *= 10.0]. *)
Definition scale10 (n : nat) (d : double) : double := Nat.iter n (fun d => dmul d (d_of_Z 10)) d.

(** How big the number is: [tenpow] and [digitcount]. *)
Fixpoint tenpow_loop (fuel : nat) (number tenpow : double) (digitcount : Z) : option (double * Z) :=
  match fuel with
  | O => None
  | S f =>
      if dle (dmul (d_of_Z 10) tenpow) number
      then tenpow_loop f number (dmul tenpow (d_of_Z 10)) (digitcount + 1)
      else Some (tenpow, digitcount)
  end.

(** [while (fillme-- > 0) *out++ = ' ']. *)
Fixpoint fill_loop (fillme : nat) (s : list Z) (out : Z) : option (list Z * Z) :=
  match fillme with
  | O => Some (s, out)
  | S n => s ← store_at s out 32; fill_loop n s (out + 1)
  end.

(** [(int8_t)number]. *)
Definition d_to_int8 (d : double) : option Z := v ← d_trunc d; if (- 128 <=? v) && (v <? 128) then Some v else None.

(** The loop that prints a digit [digitcount] times; [digitcount] is one less inside it. *)
Fixpoint dtostrf_digits (digitcount : nat) (prec : Z) (number : double) (s : list Z) (out : Z) : option (list Z * Z) :=
  match digitcount with
  | O => Some (s, out)
  | S n =>
      digit ← d_to_int8 number;
      let digit := if 9 <? digit then 9 else digit in
      s ← store_at s out (u8 (Z.lor 48 digit));
      r ← (if (Z.of_nat n =? prec) && (0 <? prec) then s ← store_at s (out + 1) 46; Some (s, out + 2) else Some (s, out + 1));
      let '(s, out) := r in
      dtostrf_digits n prec (dmul (dsub number (d_of_Z digit)) (d_of_Z 10)) s out
  end.

(** [width] is a [signed char], [prec] an [unsigned char]. *)
Definition dtostrf (number : double) (width prec : Z) (s : list Z) : option (list Z) :=
  match number with
  | S754_nan => store_string s 0 [110; 97; 110]
  | S754_infinity _ => store_string s 0 [105; 110; 102]
  | _ =>
      let fillme := if 0 <? prec then width - (prec + 1) else width in
      let negative := dlt number (S754_zero false) in
      let fillme := if negative then fillme - 1 else fillme in
      let number := if negative then SFopp number else number in
      let rounding := ddiv (d_of_Z 1) (scale10 (Z.to_nat prec) (d_of_Z 2)) in
      let number := dadd number rounding in
      r ← tenpow_loop 400 number (d_of_Z 1) 1;
      let '(tenpow, digitcount) := r in
      let number := ddiv number tenpow in
      r ← fill_loop (Z.to_nat (fillme - digitcount)) s 0;
      let '(s, out) := r in
      r ← (if negative then s ← store_at s out 45; Some (s, out + 1) else Some (s, out));
      let '(s, out) := r in
      r ← dtostrf_digits (Z.to_nat (digitcount + prec)) prec number s out;
      let '(s, out) := r in
      store_at s out 0
  end.

(** ** The code on examples *)

Definition dtostrf_text (number : double) (width prec : Z) : option (list Z) :=
  s ← dtostrf number width prec (replicate 20 255);
  Some (fst (List.fold_right (fun c '(t, k) => if c =? 0 then ([], true) else (c :: t, k)) ([], false) s)).

(** [dtostrf(1.999, 6, 2)] is ["  2.00"]; [dtostrf(-3.25, 0, 1)] is ["-3.2"], because the
    rounded sum 3.3 lies below 3.3 and the digits are truncated. *)
Example dtostrf_1999 : dtostrf_text (d_frac 1999 3) 6 2 = Some [32; 32; 50; 46; 48; 48].
Proof. vm_compute. reflexivity. Qed.
Example dtostrf_325 : dtostrf_text (d_frac (-325) 2) 0 1 = Some [45; 51; 46; 50].
Proof. vm_compute. reflexivity. Qed.
Example dtostrf_987 : dtostrf_text (d_frac 987654 2) 9 1 = Some [32; 32; 32; 57; 56; 55; 54; 46; 53].
Proof. vm_compute. reflexivity. Qed.
(** Infinities lose their sign and are not padded. *)
Example dtostrf_inf : dtostrf_text (S754_infinity true) 8 2 = Some [105; 110; 102].
Proof. vm_compute. reflexivity. Qed.
