(* ===== verification/NonisoTheorems.v ===== *)
(** The theorems on number formatting: what [itoa] and [utoa] write, and that
    [atoi] reads it back. *)
From Stdlib Require Import ZArith Lia Bool.
From S2P Require Import Prelude Noniso.
From stdpp Require Import base list numbers option.

Open Scope Z_scope.

(** For every base from 2 to 16 and every [int] but the least one, [itoa]
    writes the numeral of the value and a terminator, changes nothing behind it, and
    stays in a buffer with room for the digits of the base, a sign and the
    terminator. *)
Theorem itoa_correct base v k result : 2 <= base <= 16 -> INT_MIN < v <= INT_MAX ->
  Z.abs v < base ^ Z.of_nat k -> (1 <= k <= 33)%nat -> (k + 1 < length result + (if (v <? 0)%Z then 0 else 1))%nat ->
  exists text, itoa v result base = Some (text ++ 0 :: drop (S (length text)) result) /\
    numeral base v text /\ (length text <= k + (if (v <? 0)%Z then 1 else 0))%nat.
Proof. apply itoa_ok. Qed.

Lemma itoa_correct_witness : exists text,
  itoa (-2147483647) (replicate 33 7) 2 = Some (text ++ 0 :: drop (S (length text)) (replicate 33 7)) /\
  numeral 2 (-2147483647) text.
Proof.
  destruct (itoa_correct 2 (-2147483647) 31 (replicate 33 7)) as (text & H & Hn & _);
    [lia|unfold INT_MIN, INT_MAX; lia|vm_compute; reflexivity|lia|vm_compute; lia|].
  exists text. split; [exact H|exact Hn].
Defined.

(** C40: [atoi] reads back every [int] but the least one that [itoa] has written in
    base 10, from any buffer of twelve characters or more. *)
Theorem atoi_itoa v result : INT_MIN < v <= INT_MAX -> (12 <= length result)%nat ->
  exists s, itoa v result 10 = Some s /\ length s = length result /\ atoi s = Some v.
Proof.
  intros Hv Hr. destruct (itoa_ok 10 v 10 result ltac:(lia) Hv) as (text & Hi & Hn & Hl);
    [unfold INT_MIN, INT_MAX in Hv; lia|lia|destruct (v <? 0); lia|].
  eexists. split; [exact Hi|]. split; [|apply atoi_numeral; [lia|done]].
  rewrite length_app. cbn [length]. rewrite length_drop. destruct (v <? 0); lia.
Qed.

Lemma atoi_itoa_witness : exists s, itoa (-2147483647) (replicate 12 7) 10 = Some s /\ atoi s = Some (-2147483647).
Proof.
  destruct (atoi_itoa (-2147483647) (replicate 12 7)) as (s & H & _ & Ha); [unfold INT_MIN, INT_MAX; lia|vm_compute; lia|].
  exists s. split; [exact H|exact Ha].
Defined.
