(* ===== verification/CoreMmio.v ===== *)
(** The Arduino core's view of the chip ([esp31b_peri.h], the register macros of
    the SDK's [eagle_soc.h]): memory-mapped registers, calls of SDK functions and
    interrupt callbacks as a trace of events, and the static variables of the
    drivers.

    The hardware and the SDK's binary libraries are not part of the repository:
    the class [Device] gives the value of every register read and the result of
    every external call, as any function of the events so far. *)
From S2P Require Import Prelude CSem.
From stdpp Require Import base list numbers option gmap.

Open Scope Z_scope.

(** Functions of the SDK's libraries and of the C library. *)
Inductive extern : Type :=
  | xt_ints_on | xt_ints_off | xt_set_interrupt_handler | vTaskEnterCritical | vTaskExitCritical
  | vTaskDelay | system_get_time | os_delay_us | system_adc1_read | os_printf | c_malloc | c_free
  | ets_install_putc1 | ets_wdt_disable | ets_wdt_enable.

(** A register read or written, a call with its result, a callback to user code. *)
Inductive event : Type :=
  | Rd (a v : Z)
  | Wr (a v : Z)
  | Ext (f : extern) (args : list Z) (r : Z)
  | Call (f : Z).

Class Device : Type := {
  dev_rd : list event -> Z -> Z;
  dev_ext : list event -> extern -> list Z -> Z
}.

(** Addresses the linker chooses (functions passed to the SDK, the descriptors of
    the I2S DMA), and what the compiler makes of [__builtin_ctz(0)], which its
    documentation leaves open. *)
Class Toolchain : Type := {
  sym_onPinInterrupt : Z;
  sym_timer0_isr_handler : Z;
  sym_timer1_isr_handler : Z;
  sym_pwm_timer_isr : Z;
  sym_i2s_slc_isr : Z;
  sym_i2s_slc_items : Z;
  sym_uart0_write_char : Z;
  sym_uart1_write_char : Z;
  sym_uart_ignore_char : Z;
  builtin_ctz_0 : Z
}.

(** ** Static variables *)

(** [core_esp31b_si2c.c]. *)
Record twi_t := mkTwi { twi_dcount : Z; twi_sda : Z; twi_scl : Z }.

(** [core_esp31b_wiring_digital.c]. *)
Record pin_int_handler_t := mkPih { pih_pin : Z; pih_mode : Z; pih_fn : Z }.
Record gpio_t := mkGpio { interrupt_handlers : list pin_int_handler_t; interrupt_initialized : bool }.

(** [core_esp31b_timer.c]. *)
Record timer_t := mkTimer { timer1_user_cb : Z; timer0_user_cb : Z }.

(** [core_esp31b_wiring_pwm.c]; the last four are the static variables of the
    interrupt handler. *)
Record pwm_t := mkPwm {
  pwm_mask : Z; pwm_values : list Z; pwm_freq : Z; pwm_range : Z; pwm_multiplier : Z;
  pwm_steps : list Z; pwm_steps_len : Z; pwm_steps_mask : list Z;
  current_step : Z; stepcount : Z; isr_steps : list Z; isr_masks : list Z
}.

(** [core_esp31b_i2s.c].  The buffers are the words at the addresses [malloc] gave. *)
Record slc_queue_item := mkItem {
  it_blocksize : Z; it_datalen : Z; it_unused : Z; it_sub_sof : Z; it_eof : Z; it_owner : Z;
  it_buf_ptr : Z; it_next_link_ptr : Z
}.
Record i2s_t := mkI2s {
  i2s_slc_queue : list Z; i2s_slc_queue_len : Z; i2s_slc_buf_pntr : list Z; i2s_slc_items : list slc_queue_item;
  i2s_curr_slc_buf : Z; i2s_curr_slc_buf_pos : Z; i2s_heap : gmap Z (list Z);
  i2s_sample_rate : Z; ws_pin : Z; data_pin : Z; bck_pin : Z
}.

Record core := mkCore {
  io : list event; twi : twi_t; gpio : gpio_t; timer : timer_t; pwm : pwm_t; i2s : i2s_t; s_uart_debug_nr : Z
}.

Definition set_io x s := mkCore x (twi s) (gpio s) (timer s) (pwm s) (i2s s) (s_uart_debug_nr s).
Definition set_twi x s := mkCore (io s) x (gpio s) (timer s) (pwm s) (i2s s) (s_uart_debug_nr s).
Definition set_gpio x s := mkCore (io s) (twi s) x (timer s) (pwm s) (i2s s) (s_uart_debug_nr s).
Definition set_timer x s := mkCore (io s) (twi s) (gpio s) x (pwm s) (i2s s) (s_uart_debug_nr s).
Definition set_pwm x s := mkCore (io s) (twi s) (gpio s) (timer s) x (i2s s) (s_uart_debug_nr s).
Definition set_i2s x s := mkCore (io s) (twi s) (gpio s) (timer s) (pwm s) x (s_uart_debug_nr s).
Definition set_uart_debug_nr x s := mkCore (io s) (twi s) (gpio s) (timer s) (pwm s) (i2s s) x.

(** The static variables before [main]. *)
Definition core_init : core :=
  mkCore [] (mkTwi 18 0 0) (mkGpio (replicate 8 (mkPih 0 0 0)) false) (mkTimer 0 0)
    (mkPwm 0 (replicate 32 0) 1000 1024 0 (replicate 32 0) 0 (replicate 32 0) 0 0 (replicate 32 0) (replicate 32 0))
    (mkI2s (replicate 7 0) 0 (replicate 8 0) (replicate 8 (mkItem 0 0 0 0 0 0 0 0)) 0 0 ∅ 0 0 0 0) 0.

Section defs.
Context {dev : Device}.

(** ** Accesses *)

Definition emit (e : event) : C core unit := modify (fun s => set_io (io s ++ [e]) s).

Definition rd (a : Z) : C core Z :=
  h ← gets io; let v := u32 (dev_rd h a) in emit (Rd a v);; mret v.
Definition wr (a v : Z) : C core unit := emit (Wr a (u32 v)).
Definition ext (f : extern) (args : list Z) : C core Z :=
  h ← gets io; let r := u32 (dev_ext h f args) in emit (Ext f args r);; mret r.

(** [*a |= m], [*a &= ~m]. *)
Definition SET_PERI_REG_MASK (a m : Z) : C core unit := v ← rd a; wr a (Z.lor v m).
Definition CLEAR_PERI_REG_MASK (a m : Z) : C core unit := v ← rd a; wr a (Z.ldiff v m).
Definition SET_PERI_REG_BITS (a bit_map value shift : Z) : C core unit :=
  v ← rd a;
  wr a (Z.lor (Z.ldiff v (u32 (Z.shiftl bit_map shift))) (Z.shiftl (Z.land value bit_map) shift)).

Definition portENTER_CRITICAL : C core unit := _ ← ext vTaskEnterCritical []; mret tt.
Definition portEXIT_CRITICAL : C core unit := _ ← ext vTaskExitCritical []; mret tt.
Definition ints_on (m : Z) : C core unit := _ ← ext xt_ints_on [m]; mret tt.
Definition ints_off (m : Z) : C core unit := _ ← ext xt_ints_off [m]; mret tt.

End defs.

Definition s8 (x : Z) : Z := (x + 2 ^ 7) mod 2 ^ 8 - 2 ^ 7.

(** [1 << n] of a 32-bit value; out of range it is undefined. *)
Definition shl1 (n : Z) : C core Z := if (0 <=? n) && (n <? 32) then mret (Z.shiftl 1 n) else undefined.
Definition BIT (n : Z) : Z := Z.shiftl 1 n.

(** ** Registers ([esp31b_peri.h]) *)

Definition ESP31B_REG (a : Z) : Z := 0x60000000 + a.

Definition GPOS0 := ESP31B_REG 0x4008.
Definition GPOC0 := ESP31B_REG 0x400c.
Definition GPOS1 := ESP31B_REG 0x4014.
Definition GPOC1 := ESP31B_REG 0x4018.
Definition GPES0 := ESP31B_REG 0x4024.
Definition GPEC0 := ESP31B_REG 0x4028.
Definition GPES1 := ESP31B_REG 0x4030.
Definition GPEC1 := ESP31B_REG 0x4034.
Definition GPI0 := ESP31B_REG 0x403c.
Definition GPI1 := ESP31B_REG 0x4040.
Definition GPC (p : Z) := ESP31B_REG (0x4088 + Z.land p 0x3F * 4).
Definition GPCIE := 13.
Definition GPCI := 7.
Definition GPCD := 2.
Definition GPFPD := 7.
Definition GPFPU := 8.
Definition GPFIE := 9.
Definition GPFF := 12.
Definition GPFFS_BUS (p : Z) := if (p =? 1) || (p =? 3) then 0 else 1.

Definition T1L := ESP31B_REG 0x7000.
Definition T1C := ESP31B_REG 0x7008.
Definition T1I := ESP31B_REG 0x700C.
Definition TCTE := 7.
Definition TCAR := 6.
Definition TCPD := 2.
Definition TCIT := 0.

(** ** Constants ([Arduino.h], [ets_sys.h], [eagle_soc.h]) *)

Definition HIGH := 1.
Definition LOW := 0.
Definition INPUT := 0x01.
Definition OUTPUT := 0x02.
Definition PULLUP := 0x04.
Definition PULLDOWN := 0x08.
Definition OPEN_DRAIN := 0x10.
Definition SPECIAL := 0xF0.
Definition FUNCTION_0 := 0x00.
Definition INPUT_PULLUP := 0x05.
Definition LSBFIRST := 0.
Definition RISING := 0x01.
Definition FALLING := 0x02.
Definition CHANGE := 0x03.

Definition ETS_GPIO_INUM := 4.
Definition ETS_FRC_TIMER1_INUM := 9.
Definition ETS_FRC_TIMER1_SOURCE := 42.
Definition HW_GPIO_INUM := 19.
Definition GPIO_FUNC_IN_SEL0 := 0x60004130.
Definition GPIO_FUNC_OUT_SEL0 := 0x60004198.
Definition SIG_FUNC_IN_SEL := 0x600041c0.
Definition PRO_INTR_MAP_REG_A := 0x3ff00070.
