(* ===== verification/CoreGpio.v ===== *)
(** Pins: [core_esp31b_wiring_digital.c] without its interrupts, and the pin and
    interrupt matrix of [core_esp31b_matrix.c].  Then what holds of code that only accesses
    the hardware. *)
From S2P Require Import Prelude CSem CoreMmio.
From stdpp Require Import base list numbers option.

Open Scope Z_scope.

Definition esp31b_gpioToFn : list Z :=
  [0x44; 0x88; 0x40; 0x84; 0x48; 0x6c; 0x60; 0x64; 0x68; 0x54; 0x58; 0x5c; 0x34; 0x38; 0x30; 0x3c; 0x4c; 0x50; 0x70;
   0x74; 0x78; 0x7c; 0x80; 0x8c; 0xFF; 0x24; 0x28; 0x2c; 0xFF; 0xFF; 0xFF; 0xFF; 0x1c; 0x20; 0x14; 0x18; 0x04; 0x08;
   0x0c; 0x10].

Definition GPF (p : Z) : Z := ESP31B_REG (0x9000 + zget esp31b_gpioToFn (Z.land p 0x3F)).

(** The guard of the pin functions. *)
Definition no_pin (pin : Z) : bool := (39 <? pin) || (zget esp31b_gpioToFn pin =? 0xFF).

Section defs.
Context {dev : Device}.

(** [if(pin < 32) reg0 = 1 << pin; else reg1 = 1 << (pin - 32);] *)
Definition wr_pin (reg0 reg1 pin : Z) : C core unit :=
  if pin <? 32 then wr reg0 (Z.shiftl 1 pin) else wr reg1 (Z.shiftl 1 (pin - 32)).

Definition set_or_clear (b : bool) (a m : Z) : C core unit :=
  if b then SET_PERI_REG_MASK a m else CLEAR_PERI_REG_MASK a m.

Definition pinMode (pin mode : Z) : C core unit :=
  if no_pin pin then mret tt
  else
    portENTER_CRITICAL;;
    (if hasb mode INPUT then wr_pin GPEC0 GPEC1 pin;; SET_PERI_REG_MASK (GPF pin) (Z.shiftl 1 GPFIE)
     else if hasb mode OUTPUT then wr_pin GPES0 GPES1 pin
     else mret tt);;
    set_or_clear (hasb mode PULLUP) (GPF pin) (Z.shiftl 1 GPFPU);;
    set_or_clear (hasb mode PULLDOWN) (GPF pin) (Z.shiftl 1 GPFPD);;
    CLEAR_PERI_REG_MASK (GPF pin) (Z.shiftl 7 GPFF);;
    (if hasb mode (Z.lor INPUT OUTPUT) then SET_PERI_REG_MASK (GPF pin) (Z.shiftl 2 GPFF)
     else if mode =? SPECIAL then SET_PERI_REG_MASK (GPF pin) (Z.shiftl (GPFFS_BUS pin) GPFF)
     else SET_PERI_REG_MASK (GPF pin) (Z.shiftl (Z.shiftr mode 5) GPFF));;
    (if hasb mode OPEN_DRAIN then SET_PERI_REG_MASK (GPC pin) (Z.shiftl 1 GPCD) else mret tt);;
    CLEAR_PERI_REG_MASK (GPC pin) (Z.lor (Z.shiftl 0x1F GPCIE) (Z.shiftl 0x7 GPCI));;
    SET_PERI_REG_MASK (GPC pin) (Z.shiftl 0x4 GPCIE);;
    portEXIT_CRITICAL.

Definition digitalWrite (pin val : Z) : C core unit :=
  if no_pin pin then mret tt
  else
    portENTER_CRITICAL;;
    (if val =? 0 then wr_pin GPOC0 GPOC1 pin else wr_pin GPOS0 GPOS1 pin);;
    portEXIT_CRITICAL.

Definition digitalRead (pin : Z) : C core Z :=
  if no_pin pin then mret 0
  else if pin <? 32 then v ← rd GPI0; mret (Z.land (Z.shiftr v pin) 1)
  else v ← rd GPI1; mret (Z.land (Z.shiftr v (pin - 32)) 1).

(** ** Matrix *)

Definition MATRIX_DETACH_OUT_SIG : Z := 0x80.
Definition MATRIX_DETACH_IN_LOW_PIN : Z := 0x30.
Definition MATRIX_DETACH_IN_LOW_HIGH : Z := 0x38.

Definition pinMatrixOutAttach (pin function : Z) : C core unit :=
  (if negb (function =? MATRIX_DETACH_OUT_SIG) then pinMode pin OUTPUT else mret tt);;
  portENTER_CRITICAL;;
  SET_PERI_REG_BITS (GPIO_FUNC_OUT_SEL0 + pin / 4 * 4) 0xff function (pin mod 4 * 8);;
  portEXIT_CRITICAL;;
  (if function =? MATRIX_DETACH_OUT_SIG then pinMode pin INPUT else mret tt).

Definition pinMatrixOutDetach (pin : Z) : C core unit := pinMatrixOutAttach pin MATRIX_DETACH_OUT_SIG.

(** The signals with an input select bit.  From 32 on, [1 << function] is out of
    range. *)
Definition has_in_sel (f : Z) : bool :=
  (f <? 6) || ((f <? 16) && (7 <? f)) || ((f <? 19) && (16 <? f)) || ((f <? 69) && (62 <? f)).

Definition pinMatrixInAttach (pin function : Z) : C core unit :=
  portENTER_CRITICAL;;
  SET_PERI_REG_BITS (GPIO_FUNC_IN_SEL0 + function / 5 * 4) 0x3f pin (function mod 5 * 6);;
  (if has_in_sel function then m ← shl1 function; SET_PERI_REG_MASK SIG_FUNC_IN_SEL m else mret tt);;
  portEXIT_CRITICAL.

Definition pinMatrixInDetach (signal : Z) (high : bool) : C core unit :=
  pinMatrixInAttach (if high then MATRIX_DETACH_IN_LOW_HIGH else MATRIX_DETACH_IN_LOW_PIN) signal.

Definition intrMatrixAttach (source inum : Z) : C core unit :=
  let shift := u32 (source mod 6 * 5) in
  let shift := if 15 <=? shift then shift + 1 else shift in
  SET_PERI_REG_BITS (u32 (PRO_INTR_MAP_REG_A + source / 6 * 4)) 0x1f inum shift.

End defs.

(** Code that only accesses the hardware: it ends, changes nothing but the trace, and
    each of its events satisfies a predicate. *)

Section quiet.
Context {dev : Device}.
Implicit Types s : core.

Definition quiet {A} (P : event -> Prop) (m : C core A) : Prop :=
  forall s, wp m (fun _ s' => exists es, s' = set_io (io s ++ es) s /\ Forall P es) s.

Lemma quiet_use {A} P (m : C core A) (Q : A -> core -> Prop) s :
  quiet P m -> (forall a es, Forall P es -> Q a (set_io (io s ++ es) s)) -> wp m Q s.
Proof. intros Hm HQ. eapply wp_mono; [apply Hm|]. cbv beta. intros a s' (es & -> & He). by apply HQ. Qed.

Lemma quiet_call {A B} P (m : C core A) (k : A -> C core B) (Q : B -> core -> Prop) s :
  quiet P m -> (forall a es, Forall P es -> wp (k a) Q (set_io (io s ++ es) s)) -> wp (m ≫= k) Q s.
Proof. intros Hm HQ. apply wp_bind. by eapply quiet_use. Qed.

Lemma quiet_mono {A} (P P' : event -> Prop) (m : C core A) : (forall e, P e -> P' e) -> quiet P m -> quiet P' m.
Proof. intros HP Hm s. eapply wp_mono; [apply Hm|]. cbv beta. intros ? ? (es & -> & He). exists es. split; [done|]. by eapply Forall_impl. Qed.

Context (P : event -> Prop).

Lemma quiet_ret {A} (a : A) : quiet P (mret a).
Proof. intros s. apply wp_ret. exists []. rewrite app_nil_r. split; [by destruct s|done]. Qed.

Lemma quiet_bind {A B} (m : C core A) (k : A -> C core B) : quiet P m -> (forall a, quiet P (k a)) -> quiet P (m ≫= k).
Proof.
  intros Hm Hk s. eapply wp_call; [apply Hm|]. cbv beta. intros a s' (es & -> & He).
  eapply wp_mono; [apply Hk|]. cbv beta. intros b ? (es' & -> & He'). exists (es ++ es').
  cbn. rewrite app_assoc. split; [done|]. by apply Forall_app.
Qed.

Lemma quiet_emit e : P e -> quiet P (emit e).
Proof. intros He s. apply wp_modify. exists [e]. split; [done|]. by constructor. Qed.

Lemma quiet_gets {A} (f : core -> A) : quiet P (gets f).
Proof. intros s. apply wp_gets. exists []. rewrite app_nil_r. split; [by destruct s|done]. Qed.

Lemma quiet_rd a : (forall v, P (Rd a v)) -> quiet P (rd a).
Proof. intros H. apply quiet_bind; [apply quiet_gets|]. intros h. apply quiet_bind; [by apply quiet_emit|]. intros _. apply quiet_ret. Qed.

Lemma quiet_wr a v : (forall v, P (Wr a v)) -> quiet P (wr a v).
Proof. intros H. by apply quiet_emit. Qed.

Lemma quiet_ext f l : (forall r, P (Ext f l r)) -> quiet P (ext f l).
Proof. intros H. apply quiet_bind; [apply quiet_gets|]. intros h. apply quiet_bind; [by apply quiet_emit|]. intros _. apply quiet_ret. Qed.

Lemma quiet_set a m : (forall v, P (Rd a v)) -> (forall v, P (Wr a v)) -> quiet P (SET_PERI_REG_MASK a m).
Proof. intros H1 H2. apply quiet_bind; [by apply quiet_rd|]. intros v. by apply quiet_wr. Qed.

Lemma quiet_clear a m : (forall v, P (Rd a v)) -> (forall v, P (Wr a v)) -> quiet P (CLEAR_PERI_REG_MASK a m).
Proof. intros H1 H2. apply quiet_bind; [by apply quiet_rd|]. intros v. by apply quiet_wr. Qed.

Lemma quiet_bits a b v k : (forall v, P (Rd a v)) -> (forall v, P (Wr a v)) -> quiet P (SET_PERI_REG_BITS a b v k).
Proof. intros H1 H2. apply quiet_bind; [by apply quiet_rd|]. intros w. by apply quiet_wr. Qed.

Lemma quiet_call_ext f l : (forall r, P (Ext f l r)) -> quiet P (_ ← ext f l; mret tt).
Proof. intros H. apply quiet_bind; [by apply quiet_ext|]. intros _. apply quiet_ret. Qed.

End quiet.

(** The leaves are closed by computation where the address is a constant. *)
Ltac quiet_leaf :=
  match goal with
  | |- quiet _ (mret _) => apply quiet_ret
  | |- quiet _ (gets _) => apply quiet_gets
  | |- quiet _ (rd _) => apply quiet_rd; intros; done
  | |- quiet _ (wr _ _) => apply quiet_wr; intros; done
  | |- quiet _ (ext _ _) => apply quiet_ext; intros; done
  | |- quiet _ (SET_PERI_REG_MASK _ _) => apply quiet_set; intros; done
  | |- quiet _ (CLEAR_PERI_REG_MASK _ _) => apply quiet_clear; intros; done
  | |- quiet _ (SET_PERI_REG_BITS _ _ _ _) => apply quiet_bits; intros; done
  | |- quiet _ (ints_on _) => apply quiet_call_ext; intros; done
  | |- quiet _ (ints_off _) => apply quiet_call_ext; intros; done
  | |- quiet _ portENTER_CRITICAL => apply quiet_call_ext; intros; done
  | |- quiet _ portEXIT_CRITICAL => apply quiet_call_ext; intros; done
  end.
Ltac quiet_step :=
  match goal with
  | |- quiet _ (if ?b then _ else _) => destruct b
  | |- quiet _ (mbind _ _) => apply quiet_bind; [|intros ?]
  | _ => quiet_leaf
  end.
Ltac quietly := repeat quiet_step.
