(* ===== verification/CoreTimer.v ===== *)
(** Timers, delays and the bit-level helpers on pins: [core_esp31b_timer.c],
    [core_esp31b_wiring.c], [core_esp31b_wiring_analog.c],
    [core_esp31b_wiring_shift.c], [core_esp31b_wiring_pulse.c]. *)
From S2P Require Import Prelude CSem CoreMmio CoreGpio.
From stdpp Require Import base list numbers option.

Open Scope Z_scope.

Definition TIM_DIV1 : Z := 0.
Definition TIM_EDGE : Z := 0.
Definition TIM_SINGLE : Z := 0.
Definition portTICK_PERIOD_MS : Z := 10.
Definition XCHAL_TIMER1_INTERRUPT : Z := 15.
Definition ADC1_ATTEN_12DB : Z := 3.

Section defs.
Context {dev : Device} {tool : Toolchain}.

(** ** [core_esp31b_timer.c] *)

Definition ETS_FRC1_INTR_ENABLE : C core unit := ints_on (BIT ETS_FRC_TIMER1_INUM).
Definition ETS_FRC1_INTR_DISABLE : C core unit := ints_off (BIT ETS_FRC_TIMER1_INUM).

Definition set_timer1_cb (f : Z) : C core unit := modify (fun s => set_timer (mkTimer f (timer0_user_cb (timer s))) s).
Definition set_timer0_cb (f : Z) : C core unit := modify (fun s => set_timer (mkTimer (timer1_user_cb (timer s)) f) s).

Definition timer1_attachInterrupt (userFunc : Z) : C core unit := set_timer1_cb userFunc;; ETS_FRC1_INTR_ENABLE.
Definition timer1_detachInterrupt : C core unit := set_timer1_cb 0;; ETS_FRC1_INTR_DISABLE.
Definition timer1_disable : C core unit := wr T1C 0;; wr T1I 0.

(** [call]: the call through the function pointer. *)
Definition timer1_isr_handler (call : Z -> C core unit) : C core unit :=
  c ← rd T1C;
  (if negb (hasb c (Z.shiftl 1 TCAR)) then CLEAR_PERI_REG_MASK T1C (Z.shiftl 1 TCTE) else mret tt);;
  wr T1I 0;;
  cb ← gets (fun s => timer1_user_cb (timer s));
  if negb (cb =? 0) then call cb else mret tt.

Definition timer1_enable (divider int_type reload : Z) : C core unit :=
  wr T1C (Z.lor (Z.shiftl 1 TCTE) (Z.lor (Z.shiftl (Z.land reload 1) TCAR)
            (Z.lor (Z.shiftl (Z.land divider 3) TCPD) (Z.shiftl (Z.land int_type 1) TCIT))));;
  wr T1I 0.

Definition timer1_write (ticks : Z) : C core unit :=
  wr T1L (Z.land ticks 0x7FFFFF);; wr T1I 0;; SET_PERI_REG_MASK T1C (Z.shiftl 1 TCTE).

Definition timer1_isr_init : C core unit :=
  intrMatrixAttach ETS_FRC_TIMER1_SOURCE ETS_FRC_TIMER1_INUM;;
  _ ← ext xt_set_interrupt_handler [ETS_FRC_TIMER1_INUM; sym_timer1_isr_handler; 0]; mret tt.

Definition timer0_isr_handler (call : Z -> C core unit) : C core unit :=
  cb ← gets (fun s => timer0_user_cb (timer s));
  if negb (cb =? 0) then call cb else mret tt.

Definition timer0_isr_init : C core unit :=
  _ ← ext xt_set_interrupt_handler [XCHAL_TIMER1_INTERRUPT; sym_timer0_isr_handler; 0]; mret tt.
Definition timer0_attachInterrupt (userFunc : Z) : C core unit := set_timer0_cb userFunc;; ints_on (BIT XCHAL_TIMER1_INTERRUPT).
Definition timer0_detachInterrupt : C core unit := set_timer0_cb 0;; ints_off (BIT XCHAL_TIMER1_INTERRUPT).

(** ** [core_esp31b_wiring.c], [core_esp31b_wiring_analog.c] *)

Definition delay (ms : Z) : C core unit := _ ← ext vTaskDelay [ms / portTICK_PERIOD_MS]; mret tt.
Definition micros : C core Z := ext system_get_time [].
Definition millis : C core Z := t ← micros; mret (t / 1000).
Definition delayMicroseconds (us : Z) : C core unit := _ ← ext os_delay_us [us]; mret tt.

Definition analogRead (pin : Z) : C core Z :=
  let chan := if 35 <? pin then u8 (pin - 36) else if 31 <? pin then u8 (pin - 28) else 0xff in
  if chan <? 8 then ext system_adc1_read [chan; ADC1_ATTEN_12DB]
  else v ← digitalRead pin; mret (v * 4095).

(** ** [core_esp31b_wiring_shift.c] *)

Definition shift_pos (bitOrder i : Z) : Z := if bitOrder =? LSBFIRST then i else 7 - i.

Definition shiftIn (dataPin clockPin bitOrder : Z) : C core Z :=
  r ← loop 9 (fun l : Z * Z =>
        let '(i, value) := l in
        if i <? 8 then
          digitalWrite clockPin HIGH;;
          b ← digitalRead dataPin;
          digitalWrite clockPin LOW;;
          mret (Next (i + 1, u8 (Z.lor value (Z.shiftl b (shift_pos bitOrder i)))))
        else mret (Exit (R := Z) l)) (0, 0);
  match r with inl (_, value) => mret value | inr v => mret v end.

Definition shiftOut (dataPin clockPin bitOrder val : Z) : C core unit :=
  _ ← loop 9 (fun i : Z =>
        if i <? 8 then
          digitalWrite dataPin (if hasb val (Z.shiftl 1 (shift_pos bitOrder i)) then 1 else 0);;
          digitalWrite clockPin HIGH;;
          digitalWrite clockPin LOW;;
          mret (Next (i + 1))
        else mret (Exit (R := Z) i)) 0;
  mret tt.

(** ** [core_esp31b_wiring_pulse.c] *)

(** [while(p && (micros() - start) < timeout);] with [p] whether the pin reads
    [state] as [eq] says.  The clock has to advance for the loop to end. *)
Definition wait_pin (fuel : nat) (pin state : Z) (eq : bool) (start timeout : Z) : C core unit :=
  _ ← loop fuel (fun _ : unit =>
        v ← digitalRead pin;
        if Bool.eqb (v =? state) eq then
          t ← micros;
          mret (if u32 (t - start) <? timeout then Next tt else Exit (R := Z) tt)
        else mret (Exit tt)) tt;
  mret tt.

Definition pulseIn (fuel : nat) (pin state timeout : Z) : C core Z :=
  pinMode pin INPUT;;
  start ← micros;
  wait_pin fuel pin state true start timeout;;
  wait_pin fuel pin state false start timeout;;
  start ← micros;
  wait_pin fuel pin state true start timeout;;
  t ← micros;
  mret (u32 (t - start)).

Definition pulseInLong (fuel : nat) (pin state timeout : Z) : C core Z := pulseIn fuel pin state timeout.

End defs.
