(* ===== verification/CoreInterrupt.v ===== *)
(** GPIO interrupts of [core_esp31b_wiring_digital.c]: eight pulse counter units,
    each watching one pin; and what attaching, detaching and dispatch do. *)
From S2P Require Import Prelude CSem CoreMmio CoreGpio CoreTimer.
From stdpp Require Import base list numbers option.

Open Scope Z_scope.

Definition PCNT_U0_CONF0 : Z := 0x60017000.
Definition PCNT_U0_CONF1 : Z := 0x60017004.
Definition PCNT_U0_CONF2 : Z := 0x60017008.
Definition PCNT_INT_ST : Z := 0x60017084.
Definition PCNT_INT_ENA : Z := 0x60017088.
Definition PCNT_INT_CLR : Z := 0x6001708c.
Definition PCNT_CTRL : Z := 0x600170b0.
Definition PCNT_THR_THRES0_EN_U0 : Z := BIT 14.

Definition intr_gpio_signals : list Z := [39; 43; 47; 51; 55; 71; 75; 79].

(** [__builtin_ctz]; of 0 it has no defined result. *)
Fixpoint ctz_pos (p : positive) : Z := match p with xO p => ctz_pos p + 1 | _ => 0 end.
Definition ctz {tool : Toolchain} (x : Z) : Z := match x with Zpos p => ctz_pos p | _ => builtin_ctz_0 end.

Definition no_handler : pin_int_handler_t := mkPih (-1) 0 0.

Section defs.
Context {dev : Device} {tool : Toolchain}.

Definition ETS_GPIO_INTR_DISABLE : C core unit := ints_off (BIT ETS_GPIO_INUM).
Definition ETS_GPIO_INTR_ENABLE : C core unit := ints_on (BIT ETS_GPIO_INUM).

Definition set_handler (i : Z) (p : pin_int_handler_t) : C core unit :=
  modify (fun s => set_gpio (mkGpio (zset (interrupt_handlers (gpio s)) i p) (interrupt_initialized (gpio s))) s).

(** [interrupt_handlers[i]]. *)
Definition get_handler (i : Z) : C core pin_int_handler_t :=
  l ← gets (fun s => interrupt_handlers (gpio s));
  if i <? 0 then undefined else match l !! Z.to_nat i with Some p => mret p | None => undefined end.

(** Resets the counter of unit [n] and calls its handler. *)
Definition serve_unit (n : Z) : C core unit :=
  SET_PERI_REG_MASK PCNT_INT_CLR (BIT n);;
  CLEAR_PERI_REG_MASK PCNT_CTRL (BIT (n * 2 + 1));;
  SET_PERI_REG_MASK PCNT_CTRL (BIT (n * 2));;
  CLEAR_PERI_REG_MASK PCNT_CTRL (BIT (n * 2 + 1));;
  CLEAR_PERI_REG_MASK PCNT_CTRL (BIT (n * 2));;
  p ← get_handler n;
  if (0 <=? pih_pin p) && negb (pih_fn p =? 0) then emit (Call (pih_fn p)) else mret tt.

(** Each turn clears a bit of the status; [fuel] covers what the compiler makes of
    the test on an empty status. *)
Definition onPinInterrupt (fuel : nat) : C core unit :=
  ETS_GPIO_INTR_DISABLE;;
  intr_status ← rd PCNT_INT_ST;
  _ ← loop fuel (fun intr_status =>
        let intr_num := ctz intr_status in
        if 0 <=? intr_num then
          serve_unit intr_num;;
          mret (Next (Z.ldiff intr_status (BIT intr_num)))
        else mret (Exit (R := Z) intr_status)) intr_status;
  ETS_GPIO_INTR_ENABLE.

(** The first [intr_num] whose handler satisfies the test, 8 without one. *)
Definition find_handler (ok : pin_int_handler_t -> bool) : C core Z :=
  r ← loop 9 (fun intr_num =>
        if intr_num <? 8 then
          p ← get_handler intr_num;
          mret (if ok p then Exit (R := Z) intr_num else Next (intr_num + 1))
        else mret (Exit intr_num)) 0;
  match r with inl i | inr i => mret i end.

(** Counting of the edges of [intr_type]. *)
Definition edge_modes (intr_type : Z) : Z * Z :=
  if intr_type =? FALLING then (0, 1) else if intr_type =? RISING then (1, 0)
  else if intr_type =? CHANGE then (1, 1) else (0, 0).

Definition config_unit (intr_num intr_type : Z) : C core unit :=
  let cfg0 := u32 (PCNT_U0_CONF0 + intr_num * 12) in
  let cfg1 := u32 (PCNT_U0_CONF1 + intr_num * 12) in
  let cfg2 := u32 (PCNT_U0_CONF2 + intr_num * 12) in
  let '(pos_mode, neg_mode) := edge_modes intr_type in
  SET_PERI_REG_BITS cfg0 3 0 30;;
  SET_PERI_REG_BITS cfg0 3 0 28;;
  SET_PERI_REG_BITS cfg0 3 0 26;;
  SET_PERI_REG_BITS cfg0 3 0 24;;
  SET_PERI_REG_BITS cfg0 3 0 22;;
  SET_PERI_REG_BITS cfg0 3 0 20;;
  SET_PERI_REG_BITS cfg0 3 pos_mode 18;;
  SET_PERI_REG_BITS cfg0 3 neg_mode 16;;
  SET_PERI_REG_BITS cfg1 0xFFFF 1 0;;
  SET_PERI_REG_BITS cfg2 0xFFFF 10 16;;
  SET_PERI_REG_BITS cfg2 0xFFFF 10 0;;
  CLEAR_PERI_REG_MASK cfg0 (Z.lor (BIT 15) (Z.lor (BIT 13) (Z.lor (BIT 12) (Z.lor (BIT 11) (BIT 10)))));;
  SET_PERI_REG_MASK cfg0 PCNT_THR_THRES0_EN_U0;;
  SET_PERI_REG_MASK PCNT_INT_ENA (BIT intr_num).

Definition attachInterrupt (gpio_num userFunc intr_type : Z) : C core unit :=
  init ← gets (fun s => interrupt_initialized (gpio s));
  (if (init : bool) then mret tt
   else
     modify (fun s => set_gpio (mkGpio (interrupt_handlers (gpio s)) true) s);;
     ETS_GPIO_INTR_DISABLE;;
     intrMatrixAttach HW_GPIO_INUM ETS_GPIO_INUM;;
     _ ← ext xt_set_interrupt_handler [ETS_GPIO_INUM; sym_onPinInterrupt; 0];
     ETS_GPIO_INTR_ENABLE);;
  intr_num ← find_handler (fun p => pih_pin p =? -1);
  if 8 <=? intr_num then mret tt
  else
    set_handler intr_num (mkPih (s8 gpio_num) (u8 intr_type) userFunc);;
    portENTER_CRITICAL;;
    CLEAR_PERI_REG_MASK (GPC gpio_num) (Z.lor (Z.shiftl 0x1F GPCIE) (Z.shiftl 0x7 GPCI));;
    SET_PERI_REG_MASK (GPC gpio_num) (Z.lor (Z.shiftl 0x8 GPCIE) (u32 (Z.shiftl (u32 intr_type) GPCI)));;
    portEXIT_CRITICAL;;
    CLEAR_PERI_REG_MASK PCNT_CTRL (BIT (intr_num * 2 + 1));;
    SET_PERI_REG_MASK PCNT_CTRL (BIT (intr_num * 2));;
    pinMatrixInAttach gpio_num (zget intr_gpio_signals intr_num);;
    config_unit intr_num intr_type;;
    CLEAR_PERI_REG_MASK PCNT_CTRL (BIT (intr_num * 2 + 1));;
    CLEAR_PERI_REG_MASK PCNT_CTRL (BIT (intr_num * 2)).

Definition detachInterrupt (gpio_num : Z) : C core unit :=
  intr_num ← find_handler (fun p => pih_pin p =? gpio_num);
  if 8 <=? intr_num then mret tt
  else
    set_handler intr_num no_handler;;
    portENTER_CRITICAL;;
    CLEAR_PERI_REG_MASK (GPC gpio_num) (Z.lor (Z.shiftl 0x1F GPCIE) (Z.shiftl 0x7 GPCI));;
    SET_PERI_REG_MASK (GPC gpio_num) (Z.shiftl 0x8 GPCIE);;
    portEXIT_CRITICAL;;
    CLEAR_PERI_REG_MASK PCNT_CTRL (BIT (intr_num * 2 + 1));;
    SET_PERI_REG_MASK PCNT_CTRL (BIT (intr_num * 2));;
    CLEAR_PERI_REG_MASK (u32 (PCNT_U0_CONF0 + intr_num * 12)) PCNT_THR_THRES0_EN_U0;;
    CLEAR_PERI_REG_MASK PCNT_INT_ENA (BIT intr_num).

Definition initPins : C core unit :=
  modify (set_gpio (mkGpio (replicate 8 no_handler) false));;
  timer1_isr_init.

End defs.

(** The GPIO interrupt dispatcher of [CoreInterrupt]: which handlers it calls. *)

(** The user functions called. *)
Definition calls_of (h : list event) : list Z := omap (fun e => match e with Call f => Some f | _ => None end) h.

(** What unit [n] calls if its bit is set in the status. *)
Definition unit_call (hs : list pin_int_handler_t) (st n : Z) : option Z :=
  if Z.testbit st n then
    match hs !! Z.to_nat n with
    | Some p => if (0 <=? pih_pin p) && negb (pih_fn p =? 0) then Some (pih_fn p) else None
    | None => None
    end
  else None.

Definition expected_calls (hs : list pin_int_handler_t) (st : Z) : list Z := omap (unit_call hs st) (seqZ 0 8).

(** ** Counting trailing zeros *)

Section ctz.
Context {tool : Toolchain}.

Lemma ctz_pos_nonneg p : 0 <= ctz_pos p.
Proof. induction p; cbn; lia. Qed.

Lemma ctz_pos_spec p : Z.testbit (Zpos p) (ctz_pos p) = true /\ forall i, 0 <= i < ctz_pos p -> Z.testbit (Zpos p) i = false.
Proof.
  induction p as [p IH|p IH|]; cbn [ctz_pos].
  - split; [done|]. intros i Hi. lia.
  - pose proof (ctz_pos_nonneg p) as Hp. destruct IH as [IH1 IH2]. change (Zpos p~0) with (2 * Zpos p). split.
    + replace (ctz_pos p + 1) with (Z.succ (ctz_pos p)) by lia. by rewrite Z.double_bits_succ by lia.
    + intros i Hi. destruct (Z.eq_dec i 0) as [-> | ?]; [done|].
      replace i with (Z.succ (i - 1)) by lia. rewrite Z.double_bits_succ by lia. apply IH2. lia.
  - split; [done|]. intros i Hi. lia.
Qed.

Lemma ctz_spec x : 0 < x -> 0 <= ctz x /\ Z.testbit x (ctz x) = true /\ forall i, 0 <= i < ctz x -> Z.testbit x i = false.
Proof. destruct x as [|p|p]; [lia| |lia]. intros _. split; [apply ctz_pos_nonneg|apply ctz_pos_spec]. Qed.
End ctz.

Lemma ldiff_bit st c : 0 <= c -> Z.testbit st c = true -> Z.ldiff (2 ^ c) st = 0.
Proof.
  intros Hc Hb. apply Z.bits_inj'. intros i Hi. rewrite Z.ldiff_spec, Z.pow2_bits_eqb, Z.bits_0 by lia.
  destruct (Z.eqb_spec c i) as [<- | ?]; [by rewrite Hb|done].
Qed.

Lemma ldiff_bit_range st c : 0 <= st -> 0 <= c -> Z.testbit st c = true -> 0 <= Z.ldiff st (BIT c) <= st.
Proof.
  intros Hs Hc Hb. unfold BIT. rewrite Z.shiftl_1_l.
  assert (Z.ldiff st (2 ^ c) = st - 2 ^ c) as E by (symmetry; apply Z.sub_nocarry_ldiff; by apply ldiff_bit).
  pose proof (Z.pow_pos_nonneg 2 c). split; [apply Z.ldiff_nonneg; by left|lia].
Qed.

(** ** The dispatcher *)

Section proof.
Context {dev : Device} {tool : Toolchain}.
Implicit Types s : core.

(** [s] differs from [s0] in its events, which call [cs]. *)
Definition at_calls s0 cs s : Prop := s = set_io (io s) s0 /\ calls_of (io s) = cs.

Lemma calls_of_snoc h e : calls_of (h ++ [e]) = calls_of h ++ (match e with Call f => [f] | _ => [] end).
Proof. unfold calls_of. rewrite omap_app. by destruct e. Qed.

Lemma at_calls_emit s0 cs s e : at_calls s0 cs s ->
  at_calls s0 (cs ++ match e with Call f => [f] | _ => [] end) (set_io (io s ++ [e]) s).
Proof. intros [Hs Hc]. split; cbn [io set_io]; [by rewrite Hs|]. by rewrite calls_of_snoc, Hc. Qed.

Lemma rd_calls s0 cs s a : at_calls s0 cs s -> wp (rd a) (fun _ s' => at_calls s0 cs s') s.
Proof. intros H. pose proof (at_calls_emit _ _ _ (Rd a (u32 (dev_rd (io s) a))) H) as H1. rewrite app_nil_r in H1. exact H1. Qed.

Lemma wr_calls s0 cs s a v : at_calls s0 cs s -> wp (wr a v) (fun _ s' => at_calls s0 cs s') s.
Proof. intros H. pose proof (at_calls_emit _ _ _ (Wr a (u32 v)) H) as H1. rewrite app_nil_r in H1. exact H1. Qed.

Lemma ext_calls s0 cs s f l : at_calls s0 cs s -> wp (ext f l) (fun _ s' => at_calls s0 cs s') s.
Proof. intros H. pose proof (at_calls_emit _ _ _ (Ext f l (u32 (dev_ext (io s) f l))) H) as H1. rewrite app_nil_r in H1. exact H1. Qed.

Ltac calls L := eapply wp_call; [eapply L; eassumption|]; cbv beta; let r := fresh "r" in let s' := fresh "s" in
  let H := fresh "H" in intros r s' H.

Lemma mask_calls s0 cs s a m : at_calls s0 cs s ->
  wp (SET_PERI_REG_MASK a m) (fun _ s' => at_calls s0 cs s') s /\ wp (CLEAR_PERI_REG_MASK a m) (fun _ s' => at_calls s0 cs s') s.
Proof.
  intros H. unfold SET_PERI_REG_MASK, CLEAR_PERI_REG_MASK. split; calls rd_calls; by apply wr_calls.
Qed.

Lemma set_calls s0 cs s a m : at_calls s0 cs s -> wp (SET_PERI_REG_MASK a m) (fun _ s' => at_calls s0 cs s') s.
Proof. intros H. by apply mask_calls. Qed.
Lemma clear_calls s0 cs s a m : at_calls s0 cs s -> wp (CLEAR_PERI_REG_MASK a m) (fun _ s' => at_calls s0 cs s') s.
Proof. intros H. by apply mask_calls. Qed.
Lemma intr_calls s0 cs s : at_calls s0 cs s ->
  wp ETS_GPIO_INTR_DISABLE (fun _ s' => at_calls s0 cs s') s /\ wp ETS_GPIO_INTR_ENABLE (fun _ s' => at_calls s0 cs s') s.
Proof.
  intros H. unfold ETS_GPIO_INTR_DISABLE, ETS_GPIO_INTR_ENABLE, ints_off, ints_on. split; calls ext_calls; by apply wp_ret.
Qed.

Lemma serve_unit_ok s0 cs s n st : at_calls s0 cs s -> 0 <= n < 8 -> Z.testbit st n = true -> length (interrupt_handlers (gpio s0)) = 8%nat ->
  wp (serve_unit n) (fun _ s' => at_calls s0 (cs ++ option_list (unit_call (interrupt_handlers (gpio s0)) st n)) s') s.
Proof.
  intros H Hn Hb Hl. unfold serve_unit. calls set_calls. calls clear_calls. calls set_calls. calls clear_calls. calls clear_calls.
  unfold get_handler, unit_call. rewrite Hb. apply wp_bind, wp_bind, wp_gets. cbv beta.
  assert (gpio s5 = gpio s0) as -> by (by destruct H4 as [-> _]).
  rewrite (proj2 (Z.ltb_ge n 0)) by lia.
  destruct (interrupt_handlers (gpio s0) !! Z.to_nat n) as [p|] eqn:E; [|apply lookup_ge_None in E; lia].
  apply wp_ret. destruct (_ && _); [exact (at_calls_emit _ _ _ (Call (pih_fn p)) H4)|].
  apply wp_ret. cbn. by rewrite app_nil_r.
Qed.

Lemma expected_calls_from hs st k : 0 <= k <= 8 -> (forall i, 0 <= i < k -> Z.testbit st i = false) ->
  expected_calls hs st = omap (unit_call hs st) (seqZ k (8 - k)).
Proof.
  intros Hk Hb. unfold expected_calls. replace 8 with (k + (8 - k)) at 1 by lia. rewrite seqZ_app, omap_app, Z.add_0_l by lia.
  replace (omap (unit_call hs st) (seqZ 0 k)) with (@nil Z); [done|]. symmetry.
  assert (forall l, (forall i, i ∈ l -> 0 <= i < k) -> omap (unit_call hs st) l = []) as Hn.
  { induction l as [|i l IH]; intros Hi; [done|]. cbn. unfold unit_call at 1. rewrite Hb by (apply Hi; by left).
    apply IH. intros j Hj. apply Hi. by right. }
  apply Hn. intros i Hi%elem_of_seqZ. lia.
Qed.

Lemma omap_ext_mem {A B} (f g : A -> option B) (l : list A) : (forall x, x ∈ l -> f x = g x) -> omap f l = omap g l.
Proof.
  induction l as [|x l IH]; intros H; [done|]. cbn. rewrite (H x) by by left.
  rewrite IH; [done|]. intros y Hy. apply H. by right.
Qed.

Lemma expected_calls_ctz hs st : 0 < st -> ctz st < 8 ->
  expected_calls hs st = option_list (unit_call hs st (ctz st)) ++ expected_calls hs (Z.ldiff st (BIT (ctz st))).
Proof.
  intros Hst Hc. destruct (ctz_spec st Hst) as (H0 & H1 & H2). set (c := ctz st) in *.
  assert (forall i, 0 <= i -> Z.testbit (Z.ldiff st (BIT c)) i = Z.testbit st i && negb (c =? i)) as Hb.
  { intros i Hi. rewrite Z.ldiff_spec. unfold BIT. rewrite Z.shiftl_1_l, Z.pow2_bits_eqb by lia. done. }
  rewrite (expected_calls_from hs st c) by (lia || done).
  rewrite (expected_calls_from hs (Z.ldiff st (BIT c)) (c + 1)); [|lia|].
  2: { intros i Hi. rewrite Hb by lia. destruct (Z.eq_dec c i) as [<- | ?]; [by rewrite Z.eqb_refl, andb_false_r|]. rewrite H2 by lia. done. }
  rewrite seqZ_cons by lia. cbn. replace (Z.succ c) with (c + 1) by lia. replace (Z.pred (8 - c)) with (8 - (c + 1)) by lia.
  rewrite (omap_ext_mem (unit_call hs (Z.ldiff st (BIT c))) (unit_call hs st)); [by destruct (unit_call hs st c)|].
  intros i Hi%elem_of_seqZ. unfold unit_call. rewrite Hb by lia. rewrite (proj2 (Z.eqb_neq c i)) by lia. by rewrite andb_true_r.
Qed.

(** The value of the status register when the interrupt handler reads it. *)
Definition intr_status_of s : Z :=
  u32 (dev_rd (io s ++ [Ext xt_ints_off [BIT ETS_GPIO_INUM] (u32 (dev_ext (io s) xt_ints_off [BIT ETS_GPIO_INUM]))]) PCNT_INT_ST).

Lemma onPinInterrupt_ok s : builtin_ctz_0 < 0 -> length (interrupt_handlers (gpio s)) = 8%nat -> intr_status_of s < 2 ^ 8 ->
  wp (onPinInterrupt 9) (fun _ s' =>
    at_calls s (calls_of (io s) ++ expected_calls (interrupt_handlers (gpio s)) (intr_status_of s)) s') s.
Proof.
  intros H0 Hl Hst. unfold onPinInterrupt. set (hs := interrupt_handlers (gpio s)) in *. set (cs := calls_of (io s)).
  assert (wp ETS_GPIO_INTR_DISABLE (fun _ s1 => at_calls s cs s1 /\ u32 (dev_rd (io s1) PCNT_INT_ST) = intr_status_of s) s) as Hd.
  { apply wp_conj; [apply intr_calls; by destruct s|]. done. }
  eapply wp_call; [exact Hd|]. cbv beta. intros ? s1 [H1 Hr].
  assert (wp (rd PCNT_INT_ST) (fun v s2 => v = intr_status_of s /\ at_calls s cs s2) s1) as Hrd.
  { apply wp_conj; [exact Hr|by apply rd_calls]. }
  eapply wp_call; [exact Hrd|]. cbv beta. intros st s2 [-> H2]. set (st0 := intr_status_of s) in *.
  assert (0 <= st0) by apply u32_range. clearbody st0.
  apply (wp_call _ _ (fun _ s' => at_calls s (cs ++ expected_calls hs st0) s')).
  - apply (wp_loop_ix (fun n st s' => exists done k, at_calls s (cs ++ done) s' /\ done ++ expected_calls hs st = expected_calls hs st0 /\
             0 <= st < 2 ^ 8 /\ 0 <= k <= 8 /\ (forall i, 0 <= i < k -> Z.testbit st i = false) /\ n = Z.to_nat (8 - k)) _ _ _ 8).
    + clear Hd Hrd Hr H1 H2. intros n st sL (dn & k & H2 & He & Hs & Hk & Hb & ->). destruct (Z.eq_dec st 0) as [-> | Hnz].
      { cbn [ctz]. rewrite (proj2 (Z.leb_gt 0 _)) by done. apply wp_ret. rewrite <- He.
        replace (expected_calls hs 0) with (@nil Z); [by rewrite app_nil_r|]. unfold expected_calls. symmetry.
        generalize (seqZ 0 8). intros l. induction l as [|i l IH]; [done|]. cbn. unfold unit_call at 1. by rewrite Z.bits_0. }
      destruct (ctz_spec st ltac:(lia)) as (Hc0 & Hc1 & Hc2).
      assert (k <= ctz st) by (destruct (Z.le_gt_cases k (ctz st)); [done|]; rewrite Hb in Hc1 by lia; done).
      assert (ctz st < 8).
      { destruct (Z.le_gt_cases 8 (ctz st)) as [Hge|]; [|done].
        assert (0 <= 8 <= ctz st) as H8 by (split; [done|exact Hge]).
        pose proof (Z.mod_pow2_bits_high st 8 (ctz st) H8) as Hh. rewrite Z.mod_small in Hh by exact Hs. congruence. }
      rewrite (proj2 (Z.leb_le 0 _)) by done.
      eapply wp_call; [apply (serve_unit_ok s (cs ++ dn) sL (ctz st) st); [done|lia|done|done]|]. cbv beta. intros ? s3 Hs3.
      apply wp_ret. rewrite (expected_calls_ctz hs st) in He by lia.
      assert (forall i, 0 <= i -> Z.testbit (Z.ldiff st (BIT (ctz st))) i = Z.testbit st i && negb (ctz st =? i)) as Hbits.
      { intros i Hi. rewrite Z.ldiff_spec. unfold BIT. by rewrite Z.shiftl_1_l, Z.pow2_bits_eqb by lia. }
      exists (Z.to_nat (8 - (ctz st + 1))). split; [lia|].
      exists (dn ++ option_list (unit_call hs st (ctz st))), (ctz st + 1).
      rewrite app_assoc, <- (app_assoc dn). split; [done|]. split; [done|]. split; [|split; [lia|split; [|done]]].
      * pose proof (ldiff_bit_range st (ctz st) ltac:(lia) Hc0 Hc1). lia.
      * intros i Hi. rewrite Hbits by lia. destruct (Z.eq_dec (ctz st) i) as [<- | ?]; [by rewrite Z.eqb_refl, andb_false_r|].
        rewrite Hc2 by lia. done.
    + lia.
    + exists [], 0. rewrite app_nil_r. split; [done|]. split; [done|]. split; [lia|]. split; [lia|]. split; [intros; lia|done].
  - intros ? s3 H3. eapply wp_mono; [by apply intr_calls|]. done.
Qed.

(** The loop ends only by [__builtin_ctz(0)] being negative. *)
Lemma onPinInterrupt_never fuel s : 0 <= builtin_ctz_0 -> never_returns (onPinInterrupt fuel) s.
Proof.
  intros H0. unfold onPinInterrupt. apply never_bind. intros _ s1 _. apply never_bind. intros st s2 Hst. apply never_bind_l.
  apply (never_loop (fun st => 0 <= st)).
  - clear -H0. intros st s c s' Hs. destruct (Z.leb_spec 0 (ctz st)) as [Hc | Hc].
    + unfold mbind, C_bind. destruct (serve_unit (ctz st) s) as [[u s1]| |]; [|done|done]. intros [= <- _].
      eexists. split; [done|]. apply Z.ldiff_nonneg. by left.
    + destruct st as [|p|p]; cbn [ctz] in *; [lia|pose proof (ctz_pos_nonneg p); lia|lia].
  - revert Hst. unfold rd, emit, modify, gets, mbind, C_bind, mret, C_ret. intros [= <- _]. apply u32_range.
Qed.
End proof.
