(* ===== verification/CoreInterruptTheorems.v ===== *)
(** Properties of the GPIO interrupts of [core_esp31b_wiring_digital.c]: attaching,
    detaching and dispatch refine a table of eight slots. *)
From S2P Require Import Prelude CSem CoreMmio CoreGpio CoreTimer CoreInterrupt.
From stdpp Require Import base list numbers option.

Open Scope Z_scope.

(** ** Specification: a table of eight slots, each free or with a pin and its function *)

Inductive int_op : Type :=
  | Attach (pin userFunc intr_type : Z)
  | Detach (pin : Z).

Definition int_op_ok (op : int_op) : Prop :=
  match op with Attach pin _ _ | Detach pin => 0 <= pin < 40 end.

Fixpoint replace_first {A} (ok : A -> bool) (x : A) (l : list A) : list A :=
  match l with [] => [] | y :: l => if ok y then x :: l else y :: replace_first ok x l end.

Definition slot : Type := option (Z * Z).
Definition is_free (x : slot) : bool := match x with None => true | Some _ => false end.
Definition is_pin (pin : Z) (x : slot) : bool := match x with None => false | Some (p, _) => p =? pin end.

Definition int_spec (t : list slot) (op : int_op) : list slot :=
  match op with
  | Attach pin f _ => replace_first is_free (Some (pin, f)) t
  | Detach pin => replace_first (is_pin pin) None t
  end.

(** The functions of the slots whose bit is set, from slot 0 up. *)
Definition slot_calls (t : list slot) (st : Z) : list Z :=
  omap (fun n => if Z.testbit st n then
                   match t !! Z.to_nat n with
                   | Some (Some (_, f)) => if f =? 0 then None else Some f
                   | _ => None
                   end
                 else None) (seqZ 0 8).

Definition slot_of (p : pin_int_handler_t) : slot := if pih_pin p =? -1 then None else Some (pih_pin p, pih_fn p).
Definition table_of (s : core) : list slot := slot_of <$> interrupt_handlers (gpio s).

(** ** Lists *)

Lemma replace_first_at {A} (ok : A -> bool) x l i y :
  (forall j z, (j < i)%nat -> l !! j = Some z -> ok z = false) -> l !! i = Some y -> ok y = true ->
  replace_first ok x l = <[i := x]> l.
Proof.
  revert i. induction l as [|z l IH]; intros i Hb Hi Hy; [done|]. destruct i as [|i]; cbn.
  - injection Hi as ->. by rewrite Hy.
  - rewrite (Hb 0%nat z) by (lia || done). f_equal. apply IH; [|done|done].
    intros j w Hj. apply (Hb (S j)). lia.
Qed.

Lemma replace_first_none {A} (ok : A -> bool) x l : (forall j z, l !! j = Some z -> ok z = false) -> replace_first ok x l = l.
Proof.
  induction l as [|z l IH]; intros H; [done|]. cbn. rewrite (H 0%nat z) by done. f_equal. apply IH.
  intros j w. apply (H (S j)).
Qed.

Section proof.
Context {dev : Device} {tool : Toolchain}.
Implicit Types s : core.

(** Handlers as the API leaves them: free, or with a pin. *)
Definition handlers_ok s : Prop :=
  length (interrupt_handlers (gpio s)) = 8%nat /\ Forall (fun p => -1 <= pih_pin p < 128) (interrupt_handlers (gpio s)).

(** [s] has the table [t] and has called nothing since [s0]. *)
Definition at_table s0 t s : Prop := handlers_ok s /\ table_of s = t /\ calls_of (io s) = calls_of (io s0).

Lemma at_table_calls s0 t s s' : at_table s0 t s -> at_calls s (calls_of (io s)) s' -> at_table s0 t s'.
Proof. intros (Ho & Ht & Hc) [Hs Hc']. unfold at_table, handlers_ok, table_of. rewrite Hc', Hs. done. Qed.

(** Code that only accesses the hardware keeps the table. *)
Lemma table_frame {A} (m : C core A) s0 t s :
  (at_calls s (calls_of (io s)) s -> wp m (fun _ s' => at_calls s (calls_of (io s)) s') s) ->
  at_table s0 t s -> wp m (fun _ s' => at_table s0 t s') s.
Proof.
  intros Hm Ht. eapply wp_mono; [apply Hm; by destruct s|]. cbv beta. intros ? s' H. by eapply at_table_calls.
Qed.

Lemma bits_calls s0 cs s a m v k : at_calls s0 cs s -> wp (SET_PERI_REG_BITS a m v k) (fun _ s' => at_calls s0 cs s') s.
Proof. intros H. unfold SET_PERI_REG_BITS. eapply wp_call; [by apply rd_calls|]. cbv beta. intros ? ? ?. by apply wr_calls. Qed.

Lemma enter_calls s0 cs s : at_calls s0 cs s -> wp portENTER_CRITICAL (fun _ s' => at_calls s0 cs s') s.
Proof. intros H. unfold portENTER_CRITICAL. eapply wp_call; [by apply ext_calls|]. cbv beta. intros ? ? ?. by apply wp_ret. Qed.
Lemma exit_calls s0 cs s : at_calls s0 cs s -> wp portEXIT_CRITICAL (fun _ s' => at_calls s0 cs s') s.
Proof. intros H. unfold portEXIT_CRITICAL. eapply wp_call; [by apply ext_calls|]. cbv beta. intros ? ? ?. by apply wp_ret. Qed.
Lemma disable_calls s0 cs s : at_calls s0 cs s -> wp ETS_GPIO_INTR_DISABLE (fun _ s' => at_calls s0 cs s') s.
Proof. intros H. by apply intr_calls. Qed.
Lemma enable_calls s0 cs s : at_calls s0 cs s -> wp ETS_GPIO_INTR_ENABLE (fun _ s' => at_calls s0 cs s') s.
Proof. intros H. by apply intr_calls. Qed.
Lemma ret_calls {A} (x : A) s0 cs s : at_calls s0 cs s -> wp (mret x) (fun _ s' => at_calls s0 cs s') s.
Proof. done. Qed.
Lemma attach_matrix_calls s0 cs s a b : at_calls s0 cs s -> wp (intrMatrixAttach a b) (fun _ s' => at_calls s0 cs s') s.
Proof. intros H. unfold intrMatrixAttach. by apply bits_calls. Qed.

Ltac quiet_leaf := match goal with H : at_calls _ _ ?s |- wp ?m _ ?s =>
  match m with
  | mret _ => exact (ret_calls _ _ _ _ H)
  | SET_PERI_REG_MASK _ _ => exact (set_calls _ _ _ _ _ H)
  | CLEAR_PERI_REG_MASK _ _ => exact (clear_calls _ _ _ _ _ H)
  | SET_PERI_REG_BITS _ _ _ _ => exact (bits_calls _ _ _ _ _ _ _ H)
  | portENTER_CRITICAL => exact (enter_calls _ _ _ H)
  | portEXIT_CRITICAL => exact (exit_calls _ _ _ H)
  | intrMatrixAttach _ _ => exact (attach_matrix_calls _ _ _ _ _ H)
  | ETS_GPIO_INTR_DISABLE => exact (disable_calls _ _ _ H)
  | ETS_GPIO_INTR_ENABLE => exact (enable_calls _ _ _ H)
  | ext _ _ => exact (ext_calls _ _ _ _ _ H)
  end end.
Ltac quiet_step := eapply wp_call; [quiet_leaf|]; match goal with H : at_calls _ _ ?s |- _ => clear H end; cbv beta; intros ? ? ?.
Ltac quiet := repeat quiet_step; quiet_leaf.

(** The eight counter inputs have no input select bit. *)
Lemma pcnt_signal_calls n s0 cs s pin : 0 <= n < 8 -> at_calls s0 cs s ->
  wp (pinMatrixInAttach pin (zget intr_gpio_signals n)) (fun _ s' => at_calls s0 cs s') s.
Proof.
  intros Hn H. unfold pinMatrixInAttach.
  assert (has_in_sel (zget intr_gpio_signals n) = false) as ->.
  { assert (n = 0 \/ n = 1 \/ n = 2 \/ n = 3 \/ n = 4 \/ n = 5 \/ n = 6 \/ n = 7) as Hc by lia. by repeat destruct Hc as [-> | Hc]; subst. }
  quiet.
Qed.

Lemma config_unit_calls n m s0 cs s : at_calls s0 cs s -> wp (config_unit n m) (fun _ s' => at_calls s0 cs s') s.
Proof. intros H. unfold config_unit. destruct (edge_modes m) as [a b]. quiet. Qed.

Lemma find_handler_ok ok s : length (interrupt_handlers (gpio s)) = 8%nat ->
  wp (find_handler ok) (fun i s' => s' = s /\ 0 <= i <= 8 /\
    (forall j p, Z.of_nat j < i -> interrupt_handlers (gpio s) !! j = Some p -> ok p = false) /\
    (forall p, interrupt_handlers (gpio s) !! Z.to_nat i = Some p -> ok p = true)) s.
Proof.
  intros Hl. unfold find_handler. set (hs := interrupt_handlers (gpio s)) in *.
  apply (wp_call _ _ (fun r s' => s' = s /\ exists i, r = inl i /\ 0 <= i <= 8 /\
    (forall j p, Z.of_nat j < i -> hs !! j = Some p -> ok p = false) /\ (forall p, hs !! Z.to_nat i = Some p -> ok p = true))).
  2: { intros r s' (-> & i & -> & H). by apply wp_ret. }
  apply (wp_loop (fun i s' => s' = s /\ 0 <= i <= 8 /\ forall j p, Z.of_nat j < i -> hs !! j = Some p -> ok p = false)
           (fun i => Z.to_nat (8 - i))).
  - intros i s' (-> & Hi & Hb). destruct (Z.ltb_spec i 8).
    + unfold get_handler. apply wp_bind, wp_bind, wp_gets. rewrite (proj2 (Z.ltb_ge i 0)) by lia. fold hs.
      destruct (hs !! Z.to_nat i) as [p|] eqn:E; [|apply lookup_ge_None in E; lia]. apply wp_ret. apply wp_ret.
      destruct (ok p) eqn:Ep.
      * split; [done|]. exists i. split; [done|]. split; [done|]. split; [done|]. intros q Hq. congruence.
      * split; [|lia]. split; [done|]. split; [lia|]. intros j q Hj Hq. destruct (Z.eq_dec (Z.of_nat j) i) as [<- | ?].
        -- rewrite Nat2Z.id in E. congruence.
        -- apply (Hb j q); [lia|done].
    + apply wp_ret. split; [done|]. exists i. split; [done|]. split; [done|]. split; [done|].
      intros p Hp%lookup_lt_Some. lia.
  - lia.
  - split; [done|]. split; [lia|]. intros; lia.
Qed.

(** Storing into the slot found. *)
Lemma set_handler_ok s0 t s i p : at_table s0 t s -> 0 <= i < 8 -> -1 <= pih_pin p < 128 ->
  wp (set_handler i p) (fun _ s' => at_table s0 (<[Z.to_nat i := slot_of p]> t) s') s.
Proof.
  intros ([Hl Ho] & Ht & Hc) Hi Hp. apply wp_modify. unfold at_table, handlers_ok, table_of in *. cbn [gpio set_gpio interrupt_handlers io].
  unfold zset. rewrite length_insert, list_fmap_insert, Ht. repeat split; try done. by apply Forall_insert.
Qed.

Lemma slot_free p : -1 <= pih_pin p < 128 -> is_free (slot_of p) = (pih_pin p =? -1).
Proof. unfold slot_of. by destruct (pih_pin p =? -1). Qed.

Lemma slot_pin p pin : 0 <= pin -> is_pin pin (slot_of p) = (pih_pin p =? pin).
Proof. unfold slot_of. intros H. destruct (Z.eqb_spec (pih_pin p) (-1)) as [-> | ?]; [|done]. symmetry. apply Z.eqb_neq. lia. Qed.

(** The table after the search: the slot found is the first one. *)
Lemma table_replace s0 t s ok sok x i : at_table s0 t s ->
  (forall p, -1 <= pih_pin p < 128 -> sok (slot_of p) = ok p) -> 0 <= i <= 8 ->
  (forall j p, Z.of_nat j < i -> interrupt_handlers (gpio s) !! j = Some p -> ok p = false) ->
  (forall p, interrupt_handlers (gpio s) !! Z.to_nat i = Some p -> ok p = true) ->
  replace_first sok x t = if 8 <=? i then t else <[Z.to_nat i := x]> t.
Proof.
  intros ([Hl Ho] & Ht & _) Hs Hi Hb He. unfold table_of in Ht. subst t.
  assert (forall j z, (slot_of <$> interrupt_handlers (gpio s)) !! j = Some z ->
    exists p, interrupt_handlers (gpio s) !! j = Some p /\ sok z = ok p) as Hz.
  { intros j z Hz. apply list_lookup_fmap_Some in Hz as (p & -> & Hp). exists p. split; [done|]. apply Hs.
    by eapply Forall_lookup_1 in Hp; [|exact Ho]. }
  destruct (Z.leb_spec 8 i) as [H8 | H8].
  - apply replace_first_none. intros j z (p & Hp & ->)%Hz. apply (Hb j p); [|done]. apply lookup_lt_Some in Hp. lia.
  - destruct (interrupt_handlers (gpio s) !! Z.to_nat i) as [p|] eqn:E; [|apply lookup_ge_None in E; lia].
    eapply (replace_first_at _ _ _ _ (slot_of p)).
    + intros j z Hj (q & Hq & ->)%Hz. apply (Hb j q); [lia|done].
    + by rewrite list_lookup_fmap, E.
    + rewrite Hs; [by apply He|]. by eapply Forall_lookup_1 in E; [|exact Ho].
Qed.

Lemma attach_ok s0 t s pin f m : at_table s0 t s -> 0 <= pin < 40 ->
  wp (attachInterrupt pin f m) (fun _ s' => at_table s0 (replace_first is_free (Some (pin, f)) t) s') s.
Proof.
  intros H Hp. unfold attachInterrupt. apply wp_bind, wp_gets.
  apply (wp_call _ _ (fun _ s' => at_table s0 t s')).
  { destruct (interrupt_initialized (gpio s)); [by apply wp_ret|]. apply wp_bind, wp_modify.
    apply table_frame; [intros Hq; quiet|]. by destruct H as ([? ?] & ? & ?). }
  intros ? s1 H1. eapply wp_call; [apply find_handler_ok; by destruct H1 as ([? ?] & _)|].
  cbv beta. intros i ? (-> & Hi & Hb & He).
  rewrite (table_replace s0 t s1 (fun p => pih_pin p =? -1) is_free _ i) by (try done; intros; by apply slot_free).
  destruct (Z.leb_spec 8 i); [by apply wp_ret|].
  assert (s8 pin = pin) as Hs8 by (unfold s8; rewrite Z.mod_small; lia).
  eapply wp_call; [eapply (set_handler_ok s0 t s1 i); [done|lia|cbn; lia]|]. cbv beta. intros ? s2 H2.
  replace (slot_of (mkPih (s8 pin) (u8 m) f)) with (Some (pin, f)) in H2.
  2: { unfold slot_of. cbn [pih_pin pih_fn]. rewrite Hs8. by destruct (Z.eqb_spec pin (-1)); [lia|]. }
  apply (table_frame _ s0 _ s2); [|done]. intros Hq. assert (0 <= i < 8) as Hi8 by lia.
  do 6 quiet_step.
  eapply wp_call; [eapply pcnt_signal_calls; [done|eassumption]|]. cbv beta. intros ? ? ?.
  eapply wp_call; [eapply config_unit_calls; eassumption|]. cbv beta. intros ? ? ?. quiet.
Qed.

Lemma detach_ok s0 t s pin : at_table s0 t s -> 0 <= pin < 40 ->
  wp (detachInterrupt pin) (fun _ s' => at_table s0 (replace_first (is_pin pin) None t) s') s.
Proof.
  intros H Hp. unfold detachInterrupt. eapply wp_call; [apply find_handler_ok; by destruct H as ([? ?] & _)|].
  cbv beta. intros i ? (-> & Hi & Hb & He).
  rewrite (table_replace s0 t s (fun p => pih_pin p =? pin) (is_pin pin) _ i) by (try done; intros; apply slot_pin; lia).
  destruct (Z.leb_spec 8 i); [by apply wp_ret|].
  eapply wp_call; [eapply (set_handler_ok s0 t s i); [done|lia|cbn; lia]|]. cbv beta. intros ? s2 H2.
  apply (table_frame _ s0 _ s2); [|done]. intros Hq. quiet.
Qed.

Definition int_run (op : int_op) : C core unit :=
  match op with Attach pin f m => attachInterrupt pin f m | Detach pin => detachInterrupt pin end.
Definition int_runs (ops : list int_op) : C core unit := foldr (fun op k => int_run op;; k) (mret tt) ops.

Lemma int_runs_ok s0 ops t s : at_table s0 t s -> Forall int_op_ok ops ->
  wp (int_runs ops) (fun _ s' => at_table s0 (foldl int_spec t ops) s') s.
Proof.
  intros H Ho. revert t s H. induction Ho as [|op ops Hop Hops IH]; intros t s H; [by apply wp_ret|]. cbn [int_runs foldr foldl].
  apply (wp_call _ _ (fun _ s' => at_table s0 (int_spec t op) s')); [|intros ? s' H'; by apply IH].
  destruct op as [pin f m|pin]; [by apply attach_ok|by apply detach_ok].
Qed.

Lemma initPins_ok s : wp initPins (fun _ s' => at_table s (replicate 8 None) s') s.
Proof.
  unfold initPins. apply wp_bind, wp_modify. apply table_frame.
  - intros Hq. unfold timer1_isr_init. quiet.
  - split; [|done]. split; [done|]. repeat constructor; cbn; lia.
Qed.

Lemma expected_slot_calls s st : handlers_ok s -> expected_calls (interrupt_handlers (gpio s)) st = slot_calls (table_of s) st.
Proof.
  intros [_ Ho]. apply omap_ext_mem. intros n _. unfold unit_call, table_of. destruct (Z.testbit st n); [|done].
  rewrite list_lookup_fmap. destruct (_ !! Z.to_nat n) as [p|] eqn:E; [|done]. cbn.
  eapply Forall_lookup_1 in E; [|exact Ho]. cbv beta in E. unfold slot_of. destruct (Z.eqb_spec (pih_pin p) (-1)) as [-> | ?]; [done|].
  rewrite (proj2 (Z.leb_le 0 _)) by lia. by destruct (pih_fn p =? 0).
Qed.

(** C25: GPIO interrupts refine a table of eight slots.  After [initPins] and any sequence of
    [attachInterrupt] (which takes the first free slot, or does nothing when all are taken)
    and [detachInterrupt] (which frees the first slot of the pin) on pins 0 to 39, none of
    which calls user code, take an interrupt with a status that names no unit above 7.  The
    dispatcher leaves its loop by [__builtin_ctz(0)], whose result the compiler leaves open.
    Where the toolchain makes it negative, the dispatcher calls exactly the functions of the
    table's slots whose status bit is set, each once and from slot 0 up, and returns; where
    it does not, the dispatcher never returns. *)
Theorem pin_interrupts ops s : Forall int_op_ok ops ->
  wp (initPins;; int_runs ops) (fun _ s1 =>
    calls_of (io s1) = calls_of (io s) /\
    (intr_status_of s1 < 2 ^ 8 ->
     if builtin_ctz_0 <? 0 then
       wp (onPinInterrupt 9) (fun _ s2 =>
         calls_of (io s2) = calls_of (io s) ++ slot_calls (foldl int_spec (replicate 8 None) ops) (intr_status_of s1)) s1
     else forall fuel, never_returns (onPinInterrupt fuel) s1)) s.
Proof.
  intros Ho. eapply wp_call; [apply initPins_ok|]. cbv beta. intros ? s0 H0.
  eapply wp_mono; [by apply int_runs_ok|]. cbv beta. intros ? s1 ([Hl Hf] & Ht & Hcs). split; [done|]. intros Hst.
  destruct (Z.ltb_spec builtin_ctz_0 0) as [Hc | Hc]; [|intros fuel; by apply onPinInterrupt_never].
  eapply wp_mono; [by apply onPinInterrupt_ok|]. cbv beta. intros ? s2 [_ ->]. by rewrite Hcs, expected_slot_calls, Ht.
Qed.
End proof.

(** ** A run: slots 0 and 2 have interrupted *)

#[local] Instance int_dev : Device := {| dev_rd := fun _ a => if a =? PCNT_INT_ST then 5 else 0; dev_ext := fun _ _ _ => 0 |}.
#[local] Instance int_tool : Toolchain := {|
  sym_onPinInterrupt := 1; sym_timer0_isr_handler := 2; sym_timer1_isr_handler := 3; sym_pwm_timer_isr := 4;
  sym_i2s_slc_isr := 5; sym_i2s_slc_items := 4096; sym_uart0_write_char := 6; sym_uart1_write_char := 7;
  sym_uart_ignore_char := 8; builtin_ctz_0 := -1 |}.

Definition int_demo : list int_op := [Attach 4 77 RISING; Attach 5 88 FALLING; Attach 6 99 CHANGE; Detach 5; Attach 7 66 RISING].

Lemma pin_interrupts_witness :
  wp (initPins;; int_runs int_demo) (fun _ s1 =>
    calls_of (io s1) = [] /\
    wp (onPinInterrupt 9) (fun _ s2 => calls_of (io s2) = [77; 99]) s1) core_init.
Proof.
  eapply wp_mono; [apply (pin_interrupts int_demo); repeat constructor; cbn; lia|].
  cbv beta. intros ? s1 [Hc H]. split; [exact Hc|].
  assert ((builtin_ctz_0 <? 0) = true) as E by done. rewrite E in H.
  eapply wp_mono; [apply H; by vm_compute|]. cbv beta. intros ? s2 ->. vm_compute. reflexivity.
Defined.
