(* ===== verification/CoreTwi.v ===== *)
(** Software I2C: [core_esp31b_si2c.c], and the bus it is checked against.  The pins are open
    drain: enabling the output pulls the line low, disabling it lets the line go. *)
From S2P Require Import Prelude CSem CoreMmio CoreGpio.
From stdpp Require Import base list numbers option.

Open Scope Z_scope.

(** Which of the two CPU clocks of [boards.txt] the core is compiled for. *)
Class CpuClock : Type := cpu_80mhz : bool.

Section defs.
Context {dev : Device} {clk : CpuClock}.

Definition get_sda : C core Z := gets (fun s => twi_sda (twi s)).
Definition get_scl : C core Z := gets (fun s => twi_scl (twi s)).

(** [(p < 32) ? (reg0 = 1 << p) : (reg1 = 1 << (p - 32))]. *)
Definition wr_line (reg0 reg1 p : Z) : C core unit :=
  if p <? 32 then m ← shl1 p; wr reg0 m else m ← shl1 (p - 32); wr reg1 m.

Definition SDA_LOW : C core unit := p ← get_sda; wr_line GPES0 GPES1 p.
Definition SDA_HIGH : C core unit := p ← get_sda; wr_line GPEC0 GPEC1 p.
Definition SCL_LOW : C core unit := p ← get_scl; wr_line GPES0 GPES1 p.
Definition SCL_HIGH : C core unit := p ← get_scl; wr_line GPEC0 GPEC1 p.

(** [(p < 32) ? ((GPI0 & (1 << p)) != 0) : ((GPI1 & (1 << (p - 32))) != 0)]. *)
Definition read_line (p : Z) : C core bool :=
  if p <? 32 then v ← rd GPI0; m ← shl1 p; mret (hasb v m) else v ← rd GPI1; m ← shl1 (p - 32); mret (hasb v m).
Definition SDA_READ : C core bool := p ← get_sda; read_line p.
Definition SCL_READ : C core bool := p ← get_scl; read_line p.

Definition TWI_CLOCK_STRETCH : Z := if cpu_80mhz then 800 else 1600.

Definition set_dcount (d : Z) : C core unit := modify (fun s => set_twi (mkTwi d (twi_sda (twi s)) (twi_scl (twi s))) s).

Definition twi_setClock (freq : Z) : C core unit :=
  set_dcount (if cpu_80mhz then
                if freq <=? 100000 then 19 else if freq <=? 200000 then 8 else if freq <=? 300000 then 3
                else if freq <=? 400000 then 1 else 1
              else
                if freq <=? 100000 then 32 else if freq <=? 200000 then 14 else if freq <=? 300000 then 8
                else if freq <=? 400000 then 5 else if freq <=? 500000 then 3 else if freq <=? 600000 then 2 else 1).

Definition twi_init (sda scl : Z) : C core unit :=
  modify (fun s => set_twi (mkTwi (twi_dcount (twi s)) sda scl) s);;
  pinMode sda INPUT_PULLUP;;
  pinMode scl INPUT_PULLUP;;
  twi_setClock 100000.

Definition twi_stop : C core unit :=
  sda ← get_sda; pinMode sda INPUT;;
  scl ← get_scl; pinMode scl INPUT.

Definition twi_delay (v : Z) : C core unit :=
  _ ← loop (Z.to_nat v + 1) (fun i =>
        if i <? v then _ ← rd GPI0; mret (Next (i + 1)) else mret (Exit (R := Z) i)) 0;
  mret tt.

(** [twi_delay(twi_dcount + d)]; the parameter is an [unsigned char]. *)
Definition delay_dcount (d : Z) : C core unit := n ← gets (fun s => twi_dcount (twi s)); twi_delay (u8 (n + d)).

(** Clock stretching: [while (SCL_READ() == 0 && (i++) < TWI_CLOCK_STRETCH);]. *)
Definition stretch : C core unit :=
  _ ← loop (Z.to_nat TWI_CLOCK_STRETCH + 2) (fun i =>
        b ← SCL_READ;
        mret (if (b : bool) then Exit (R := Z) i else if i <? TWI_CLOCK_STRETCH then Next (i + 1) else Exit (i + 1))) 0;
  mret tt.

Definition twi_write_start : C core bool :=
  SCL_HIGH;;
  SDA_HIGH;;
  b ← SDA_READ;
  if negb b then mret false
  else delay_dcount 0;; SDA_LOW;; delay_dcount 0;; mret true.

Definition twi_write_stop : C core bool :=
  SCL_LOW;; SDA_LOW;; delay_dcount 0;; SCL_HIGH;; stretch;; delay_dcount 0;; SDA_HIGH;; delay_dcount 0;; mret true.

Definition twi_write_bit (bit : bool) : C core bool :=
  SCL_LOW;;
  (if bit then SDA_HIGH else SDA_LOW);;
  delay_dcount 1;; SCL_HIGH;; stretch;; delay_dcount 0;; mret true.

Definition twi_read_bit : C core bool :=
  SCL_LOW;; SDA_HIGH;; delay_dcount 2;; SCL_HIGH;; stretch;;
  bit ← SDA_READ;
  delay_dcount 0;; mret bit.

Definition twi_write_byte (byte : Z) : C core bool :=
  _ ← loop 9 (fun l : Z * Z =>
        let '(bit, byte) := l in
        if bit <? 8 then
          _ ← twi_write_bit (hasb byte 0x80);
          mret (Next (bit + 1, u8 (Z.shiftl byte 1)))
        else mret (Exit (R := Z) l)) (0, byte);
  b ← twi_read_bit;
  mret (negb b).

Definition twi_read_byte (nack : bool) : C core Z :=
  r ← loop 9 (fun l : Z * Z =>
        let '(bit, byte) := l in
        if bit <? 8 then
          b ← twi_read_bit;
          mret (Next (bit + 1, u8 (Z.lor (Z.shiftl byte 1) (Z.b2z b))))
        else mret (Exit (R := Z) l)) (0, 0);
  _ ← twi_write_bit nack;
  match r with inl (_, byte) => mret byte | inr v => mret v end.

(** At the end of a transfer: clocks a slave that holds the data line, 10 times at
    most. *)
Definition release_bus : C core unit :=
  _ ← loop 12 (fun i =>
        b ← SDA_READ;
        if negb b && (i <? 10) then
          SCL_LOW;; delay_dcount 0;; SCL_HIGH;; delay_dcount 0;; mret (Next (i + 1))
        else mret (Exit (R := Z) i)) 0;
  mret tt.

Definition maybe_stop (sendStop : Z) : C core unit := if negb (sendStop =? 0) then _ ← twi_write_stop; mret tt else mret tt.

Definition twi_writeTo (address : Z) (buf : list Z) (len sendStop : Z) : C core Z :=
  ok ← twi_write_start;
  if negb ok then mret 4
  else
    ack ← twi_write_byte (Z.land (Z.lor (Z.shiftl address 1) 0) 0xFF);
    if negb ack then maybe_stop sendStop;; mret 2
    else
      r ← loop (Z.to_nat len + 1) (fun i =>
            if i <? len then
              match buf !! Z.to_nat i with
              | None => undefined
              | Some b =>
                  ack ← twi_write_byte b;
                  if negb ack then maybe_stop sendStop;; mret (Return 3) else mret (Next (i + 1))
              end
            else mret (Exit i)) 0;
      match r with
      | inr res => mret res
      | inl _ => maybe_stop sendStop;; release_bus;; mret 0
      end.

(** The [buf] the code fills is returned.  [len - 1] wraps for [len = 0].  The loop
    ends within the buffer or leaves it. *)
Definition twi_readFrom (address : Z) (buf : list Z) (len sendStop : Z) : C core (Z * list Z) :=
  ok ← twi_write_start;
  if negb ok then mret (4, buf)
  else
    ack ← twi_write_byte (Z.land (Z.lor (Z.shiftl address 1) 1) 0xFF);
    if negb ack then maybe_stop sendStop;; mret (2, buf)
    else
      r ← loop (length buf + 2) (fun l : Z * list Z =>
            let '(i, buf) := l in
            if i <? u32 (len - 1) then
              b ← twi_read_byte false;
              if i <? zlen buf then mret (Next (i + 1, zset buf i b)) else undefined
            else mret (Exit (R := Z) l)) (0, buf);
      let buf := match r with inl (_, buf) => buf | inr _ => buf end in
      b ← twi_read_byte true;
      if u32 (len - 1) <? zlen buf then
        maybe_stop sendStop;; release_bus;; mret (0, zset buf (u32 (len - 1)) b)
      else undefined.

End defs.

(** The I2C bus as the specification the software master of [CoreTwi] is checked
    against: what the register writes of the master mean on two open drain lines,
    one of them shared with a slave, as a sequence of start and stop conditions
    and bits. *)

Inductive symbol : Type := Start | Stop | Bit (b : bool).

(** The slave, given the symbols up to the last falling clock edge: whether it lets the
    data line go ([true]) or pulls it low in the next high phase of the clock; what it does
    with the data line before; and for how long it pulls the clock low after that edge, in
    register reads of the master, the only clock the two have in common.  (A slave changes
    the data line only while the clock is low.) *)
Class I2cSlave : Type := {
  slave : list symbol -> bool;
  early : list symbol -> bool;
  hold : list symbol -> nat
}.

(** What the master drives ([true]: released), for how many reads the slave still pulls
    the clock low, whether a start or stop condition fell into the present high phase of
    the clock, the symbols so far, and those at the last falling clock edge. *)
Record bus := mkBus { m_sda : bool; m_scl : bool; low : nat; cond : bool; syms : list symbol; held : list symbol }.

Section bus.
Context {sl : I2cSlave}.

(** The level of the clock line, of the data line: low if one of the two pulls it low. *)
Definition clock (b : bus) : bool := m_scl b && (low b =? 0)%nat.
Definition line (b : bus) : bool := m_sda b && (if clock b then slave (held b) else early (held b)).

(** The symbols up to the end of the present high phase. *)
Definition commit (b : bus) : list symbol := if cond b then syms b else syms b ++ [Bit (line b)].

(** The master pulls the clock low; an edge only if it is high.  The slave may hold it from
    then on. *)
Definition scl_fall (b : bus) : bus :=
  if clock b then mkBus (m_sda b) false (hold (commit b)) false (commit b) (commit b)
  else mkBus (m_sda b) false (low b) (cond b) (syms b) (held b).

(** The master lets the clock go: it rises when the slave does so too. *)
Definition scl_rise (b : bus) : bus := mkBus (m_sda b) true (low b) (cond b) (syms b) (held b).

(** The time of [n] reads. *)
Definition pass (n : nat) (b : bus) : bus := mkBus (m_sda b) (m_scl b) (low b - n) (cond b) (syms b) (held b).

(** An edge of the data line while the clock is high is a condition. *)
Definition sda_set (v : bool) (b : bus) : bus :=
  let b' := mkBus v (m_scl b) (low b) (cond b) (syms b) (held b) in
  if clock b && xorb (line b) (line b')
  then mkBus v (m_scl b) (low b) true (syms b ++ [if line b then Start else Stop]) (held b) else b'.

Definition idle (y h : list symbol) : bus := mkBus true true 0 true y h.

(** The high phase of a bit after the symbols [y]. *)
Definition clocked (v : bool) (y : list symbol) : bus := mkBus v true 0 false y y.

(** ** The registers *)

Section pins.
Variables sda scl : Z.

Definition line_bit (p : Z) : Z := Z.shiftl 1 (if p <? 32 then p else p - 32).
Definition reg_of (p reg0 reg1 : Z) : Z := if p <? 32 then reg0 else reg1.

(** Whether the write of [v] to [a] pulls down, releases the line of pin [p]. *)
Definition pulls (p a v : Z) : bool := (a =? reg_of p GPES0 GPES1) && hasb v (line_bit p).
Definition releases (p a v : Z) : bool := (a =? reg_of p GPEC0 GPEC1) && hasb v (line_bit p).

Definition bus_step (b : bus) (e : event) : bus :=
  match e with
  | Wr a v =>
      let b := if pulls scl a v then scl_fall b else if releases scl a v then scl_rise b else b in
      if pulls sda a v then sda_set false b else if releases sda a v then sda_set true b else b
  | Rd _ _ => pass 1 b
  | _ => b
  end.

(** The bus after the events [h], from an idle bus. *)
Definition bus_of (h : list event) : bus := foldl bus_step (idle [] []) h.

Lemma bus_of_snoc h e : bus_of (h ++ [e]) = bus_step (bus_of h) e.
Proof. unfold bus_of. by rewrite foldl_app. Qed.

(** The accesses a transfer may make: reads of the input registers, and writes that pull
    down or release one of the two lines and touch no other pin. *)
Definition line_event (e : event) : Prop :=
  match e with
  | Rd a _ => a = GPI0 \/ a = GPI1
  | Wr a v => exists p, (p = sda \/ p = scl) /\ v = line_bit p /\ (a = reg_of p GPES0 GPES1 \/ a = reg_of p GPEC0 GPEC1)
  | _ => False
  end.
End pins.

(** ** Reference transfers *)

(** A bit the master sends after [y]: the lines are wired together. *)
Definition bit_at (y : list symbol) (v : bool) : list symbol := y ++ [Bit (v && slave y)].

(** The bits of a byte, most significant first. *)
Definition byte_bits (b : Z) : list bool := Z.testbit b <$> [7; 6; 5; 4; 3; 2; 1; 0].

Definition send_bits (y : list symbol) (vs : list bool) : list symbol := foldl bit_at y vs.

(** The bus after a start condition, a stop condition (which a slave that holds
    the data line prevents). *)
Definition started (b : bus) : bus := mkBus false true 0 true (syms b ++ [Start]) (held b).
Definition stopped (y : list symbol) : bus := sda_set true (clocked false y).

(** Sends bytes until one is not acknowledged, and counts the acknowledged ones. *)
Fixpoint send_bytes (b : bus) (bytes : list Z) : bus * Z :=
  match bytes with
  | [] => (b, 0)
  | x :: bytes =>
      let y := send_bits (commit b) (byte_bits x) in
      if slave y then (clocked true y, 0) else let '(b', n) := send_bytes (clocked true y) bytes in (b', n + 1)
  end.

(** Receives [n] more bits of the value [v]. *)
Fixpoint recv_bits (n : nat) (y : list symbol) (v : Z) : list symbol * Z :=
  match n with
  | O => (y, v)
  | S n => recv_bits n (bit_at y true) (2 * v + Z.b2z (slave y))
  end.

(** Receives [n] bytes, acknowledging all but the last. *)
Fixpoint recv_bytes (n : nat) (b : bus) : bus * list Z :=
  match n with
  | O => (b, [])
  | S n =>
      let '(y, v) := recv_bits 8 (commit b) 0 in
      let '(b', vs) := recv_bytes n (clocked (match n with O => true | _ => false end) y) in
      (b', v :: vs)
  end.

(** Clocks a slave that holds the data line, at most [n] times, with [d] reads in each
    phase of the clock and one of the data line between the pulses.  (These pulses do not
    wait for a slave that holds the clock.) *)
Fixpoint release (d n : nat) (b : bus) : bus :=
  if line b then pass 1 b
  else match n with O => pass 1 b | S n => release d n (pass d (scl_rise (pass d (scl_fall (pass 1 b))))) end.

(** A write of [bytes], the first of which is the address: the result code and the
    bus it leaves.  The pulses at the end last [d] reads in each phase. *)
Definition write_transfer (d : nat) (b : bus) (bytes : list Z) (stop : bool) : Z * bus :=
  if negb (line b) then (4, b)
  else
    let '(b1, n) := send_bytes (started b) bytes in
    let b2 := if stop then stopped (commit b1) else b1 in
    if n =? 0 then (2, b2) else if n <? zlen bytes then (3, b2) else (0, release d 10 b2).

(** A read of [n] bytes: also the bytes. *)
Definition read_transfer (d : nat) (b : bus) (address : Z) (n : nat) (stop : bool) : Z * bus * list Z :=
  if negb (line b) then (4, b, [])
  else
    let '(b1, k) := send_bytes (started b) [address] in
    if k =? 0 then (2, if stop then stopped (commit b1) else b1, [])
    else
      let '(b2, vs) := recv_bytes n b1 in
      (0, release d 10 (if stop then stopped (commit b2) else b2), vs).

(** ** A slave that listens *)

(** A byte on the bus with its acknowledge bit. *)
Definition frame (x : Z) : list symbol := (Bit <$> byte_bits x) ++ [Bit false].

(** After the symbols [y] the slave acknowledges the bytes [bytes] and otherwise
    leaves the data line alone. *)
Definition listens (y : list symbol) (bytes : list Z) : Prop :=
  forall sent vs, sent `prefix_of` bytes -> (length vs <= 8)%nat ->
    slave (y ++ (sent ≫= frame) ++ (Bit <$> vs)) = negb (bool_decide (length vs = 8%nat /\ (length sent < length bytes)%nat)).
End bus.
