(* ===== verification/CoreTwiProof.v ===== *)
(** The software I2C master on the bus of [CoreTwi]: every routine as a step of
    the bus, up to whole transfers. *)
From S2P Require Import Prelude CSem CoreMmio CoreTwi.
From stdpp Require Import base list numbers option.

Open Scope Z_scope.

Lemma hasb_shiftl i j : 0 <= i -> 0 <= j -> hasb (Z.shiftl 1 i) (Z.shiftl 1 j) = (i =? j).
Proof.
  intros. unfold hasb. rewrite !Z.shiftl_1_l. destruct (Z.eqb_spec i j) as [-> | Hij].
  - rewrite Z.land_diag. apply negb_true_iff, Z.eqb_neq. pose proof (Z.pow_pos_nonneg 2 j). lia.
  - apply negb_false_iff, Z.eqb_eq. apply Z.bits_inj'. intros n Hn. rewrite Z.land_spec, Z.bits_0.
    rewrite !Z.pow2_bits_eqb by lia. apply andb_false_iff. destruct (Z.eqb_spec i n); [|by left]. right. apply Z.eqb_neq. lia.
Qed.

Lemma hasb_shl1 x n : 0 <= n -> hasb x (Z.shiftl 1 n) = Z.testbit x n.
Proof.
  intros Hn. unfold hasb. rewrite Z.shiftl_1_l. destruct (Z.testbit x n) eqn:E.
  - apply negb_true_iff, Z.eqb_neq. intros H. apply (f_equal (fun z => Z.testbit z n)) in H.
    rewrite Z.land_spec, E, Z.pow2_bits_true, Z.bits_0 in H by lia. done.
  - apply negb_false_iff, Z.eqb_eq. apply Z.bits_inj'. intros m Hm. rewrite Z.land_spec, Z.bits_0.
    rewrite Z.pow2_bits_eqb by lia. destruct (Z.eqb_spec n m) as [<- | ?]; [by rewrite E|apply andb_false_r].
Qed.

Lemma testbit_u8 x n : 0 <= n < 8 -> Z.testbit (u8 x) n = Z.testbit x n.
Proof. intros. unfold u8. rewrite Z.mod_pow2_bits_low by lia. done. Qed.

Lemma u8_shiftl_1 x n : 0 <= n -> u8 (Z.shiftl (u8 (Z.shiftl x n)) 1) = u8 (Z.shiftl x (n + 1)).
Proof.
  intros. unfold u8. rewrite !Z.shiftl_mul_pow2 by lia. rewrite Z.mul_mod_idemp_l by lia.
  rewrite Z.pow_add_r by lia. f_equal. lia.
Qed.

Lemma byte_bits_drop x i : 0 <= i < 8 -> drop (Z.to_nat i) (byte_bits x) = Z.testbit x (7 - i) :: drop (Z.to_nat (i + 1)) (byte_bits x).
Proof.
  intros Hi. assert (i = 0 \/ i = 1 \/ i = 2 \/ i = 3 \/ i = 4 \/ i = 5 \/ i = 6 \/ i = 7) as H by lia.
  by destruct H as [-> | [-> | [-> | [-> | [-> | [-> | [-> | ->]]]]]]].
Qed.

(** ** Events *)

Section events.
Context {dev : Device}.
Implicit Types s : core.

Lemma wp_emit e (Q : unit -> core -> Prop) s : Q tt (set_io (io s ++ [e]) s) -> wp (emit e) Q s.
Proof. done. Qed.

Lemma wp_wr a v (Q : unit -> core -> Prop) s : Q tt (set_io (io s ++ [Wr a (u32 v)]) s) -> wp (wr a v) Q s.
Proof. done. Qed.

Lemma wp_rd a (Q : Z -> core -> Prop) s :
  (let v := u32 (dev_rd (io s) a) in Q v (set_io (io s ++ [Rd a v]) s)) -> wp (rd a) Q s.
Proof. done. Qed.
Lemma wp_shl1 n (Q : Z -> core -> Prop) s : 0 <= n < 32 -> Q (Z.shiftl 1 n) s -> wp (shl1 n) Q s.
Proof.
  intros. unfold shl1. rewrite (proj2 (Z.leb_le 0 n)), (proj2 (Z.ltb_lt n 32)) by lia. by apply wp_ret.
Qed.
End events.

Section proof.
Context {dev : Device} {clk : CpuClock} {sl : I2cSlave}.
Variables sda scl : Z.
Hypothesis Hsda : 0 <= sda < 64.
Hypothesis Hscl : 0 <= scl < 64.
Hypothesis Hne : sda <> scl.

(** The input registers show the levels of the two lines. *)
Hypothesis Hline : forall h, hasb (u32 (dev_rd h (reg_of sda GPI0 GPI1))) (line_bit sda) = line (bus_of sda scl h).
Hypothesis Hclock : forall h, hasb (u32 (dev_rd h (reg_of scl GPI0 GPI1))) (line_bit scl) = clock (bus_of sda scl h).

(** The slave holds the clock no longer than the master waits. *)
Hypothesis Hhold : forall y, Z.of_nat (hold y) <= TWI_CLOCK_STRETCH.

Implicit Types (s : core) (b : bus).

(** State [s] is [s0] after more events, all of them accesses to the two lines, that
    leave the bus at [b]. *)
Definition at_bus s0 b s : Prop :=
  (exists h, s = set_io (io s0 ++ h) s0 /\ Forall (line_event sda scl) h) /\ bus_of sda scl (io s) = b /\
  twi_sda (twi s0) = sda /\ twi_scl (twi s0) = scl.

Lemma at_bus_emit s0 b s e : at_bus s0 b s -> line_event sda scl e -> at_bus s0 (bus_step sda scl b e) (set_io (io s ++ [e]) s).
Proof.
  intros ((h & -> & Hh) & Hb & Hp) He. split; [|split; [|done]].
  - exists (h ++ [e]). split; [by rewrite app_assoc|]. apply Forall_app_2; [done|by constructor].
  - cbn [io set_io] in *. by rewrite bus_of_snoc, Hb.
Qed.

Lemma line_bit_small p : 0 <= p < 64 -> u32 (line_bit p) = line_bit p.
Proof.
  intros. unfold line_bit. rewrite Z.shiftl_1_l. apply u32_small.
  destruct (p <? 32) eqn:E; bools.
  - pose proof (Z.pow_lt_mono_r 2 p 32). pose proof (Z.pow_pos_nonneg 2 p). lia.
  - pose proof (Z.pow_lt_mono_r 2 (p - 32) 32). pose proof (Z.pow_pos_nonneg 2 (p - 32)). lia.
Qed.

Lemma wp_wr_line r0 r1 p (Q : unit -> core -> Prop) s : 0 <= p < 64 ->
  Q tt (set_io (io s ++ [Wr (reg_of p r0 r1) (line_bit p)]) s) -> wp (wr_line r0 r1 p) Q s.
Proof.
  intros Hp HQ. pose proof (line_bit_small p Hp) as Hb. unfold wr_line, reg_of, line_bit in *.
  destruct (p <? 32) eqn:E; bools; apply wp_bind, wp_shl1; try lia; apply wp_wr; by rewrite Hb.
Qed.

(** A write to one line is not one to the other. *)
Lemma other_line p q r0 r1 : 0 <= p < 64 -> 0 <= q < 64 -> p <> q -> r0 <> r1 ->
  (reg_of p r0 r1 =? reg_of q r0 r1) && hasb (line_bit p) (line_bit q) = false.
Proof.
  intros Hp Hq Hpq Hr. unfold reg_of, line_bit.
  destruct (p <? 32) eqn:E1, (q <? 32) eqn:E2; bools; rewrite hasb_shiftl by lia; apply andb_false_iff;
    rewrite !Z.eqb_neq; lia.
Qed.

Lemma same_line p r0 r1 : 0 <= p < 64 -> (reg_of p r0 r1 =? reg_of p r0 r1) && hasb (line_bit p) (line_bit p) = true.
Proof.
  intros. rewrite Z.eqb_refl. unfold line_bit. rewrite hasb_shiftl by (destruct (p <? 32) eqn:E; bools; lia). by rewrite Z.eqb_refl.
Qed.

Lemma other_reg p q r0 r1 r2 r3 m : r0 <> r2 -> r0 <> r3 -> r1 <> r2 -> r1 <> r3 ->
  (reg_of p r0 r1 =? reg_of q r2 r3) && m = false.
Proof. intros. unfold reg_of. destruct (p <? 32), (q <? 32); apply andb_false_iff; left; by apply Z.eqb_neq. Qed.

Ltac lines := unfold bus_step, pulls, releases; cbv zeta;
  repeat first [rewrite same_line by lia | rewrite other_line by first [lia | vm_compute; discriminate]
    | rewrite other_reg by (vm_compute; discriminate)]; cbn [andb].

Lemma step_scl_low b : bus_step sda scl b (Wr (reg_of scl GPES0 GPES1) (line_bit scl)) = scl_fall b.
Proof using Hsda Hscl Hne. by lines. Qed.
Lemma step_scl_high b : bus_step sda scl b (Wr (reg_of scl GPEC0 GPEC1) (line_bit scl)) = scl_rise b.
Proof using Hsda Hscl Hne. by lines. Qed.
Lemma step_sda_low b : bus_step sda scl b (Wr (reg_of sda GPES0 GPES1) (line_bit sda)) = sda_set false b.
Proof using Hsda Hscl Hne. by lines. Qed.
Lemma step_sda_high b : bus_step sda scl b (Wr (reg_of sda GPEC0 GPEC1) (line_bit sda)) = sda_set true b.
Proof using Hsda Hscl Hne. by lines. Qed.

(** ** Line operations *)

Lemma pins s0 b s : at_bus s0 b s -> twi_sda (twi s) = sda /\ twi_scl (twi s) = scl.
Proof. intros ((h & -> & _) & _ & ? & ?). done. Qed.

Lemma wp_get_pins s0 b s : at_bus s0 b s ->
  wp get_sda (fun p s' => p = sda /\ s' = s) s /\ wp get_scl (fun p s' => p = scl /\ s' = s) s.
Proof. intros H. destruct (pins _ _ _ H). done. Qed.

Ltac line_op L :=
  let H := fresh "H" in
  intros H; destruct (pins _ _ _ H) as [Hp1 Hp2]; apply wp_bind, wp_gets; rewrite ?Hp1, ?Hp2;
  apply wp_wr_line; [lia|]; rewrite <- L; apply at_bus_emit; [done|]; eexists; split; [|split; [done|]]; auto.

Lemma SCL_LOW_ok s0 b s : at_bus s0 b s -> wp SCL_LOW (fun _ s' => at_bus s0 (scl_fall b) s') s.
Proof using Hsda Hscl Hne. line_op step_scl_low. Qed.
Lemma SCL_HIGH_ok s0 b s : at_bus s0 b s -> wp SCL_HIGH (fun _ s' => at_bus s0 (scl_rise b) s') s.
Proof using Hsda Hscl Hne. line_op step_scl_high. Qed.
Lemma SDA_LOW_ok s0 b s : at_bus s0 b s -> wp SDA_LOW (fun _ s' => at_bus s0 (sda_set false b) s') s.
Proof using Hsda Hscl Hne. line_op step_sda_low. Qed.
Lemma SDA_HIGH_ok s0 b s : at_bus s0 b s -> wp SDA_HIGH (fun _ s' => at_bus s0 (sda_set true b) s') s.
Proof using Hsda Hscl Hne. line_op step_sda_high. Qed.

Lemma rd_ok s0 b s a : at_bus s0 b s -> a = GPI0 \/ a = GPI1 -> wp (rd a) (fun _ s' => at_bus s0 (pass 1 b) s') s.
Proof. intros H Ha. apply wp_rd. cbv zeta. by apply (at_bus_emit _ _ _ (Rd a _) H). Qed.

Lemma read_line_ok s0 b s p : 0 <= p < 64 -> at_bus s0 b s ->
  wp (read_line p) (fun v s' => v = hasb (u32 (dev_rd (io s) (reg_of p GPI0 GPI1))) (line_bit p) /\ at_bus s0 (pass 1 b) s') s.
Proof.
  intros Hp H. unfold read_line, reg_of, line_bit. destruct (p <? 32) eqn:E; bools.
  all: apply wp_bind, wp_rd; cbv zeta; apply wp_bind, wp_shl1; [lia|]; apply wp_ret; split; [done|].
  all: apply (at_bus_emit _ _ _ (Rd _ _) H); cbn; auto.
Qed.

Lemma SDA_READ_ok s0 b s : at_bus s0 b s -> wp SDA_READ (fun v s' => v = line b /\ at_bus s0 (pass 1 b) s') s.
Proof using Hsda Hline.
  intros H. destruct (pins _ _ _ H) as [Hp _]. apply wp_bind, wp_gets. rewrite Hp.
  eapply wp_mono; [by apply (read_line_ok s0 b)|]. intros v s' [-> H']. split; [|done].
  rewrite Hline. destruct H as (_ & <- & _). done.
Qed.

Lemma SCL_READ_ok s0 b s : at_bus s0 b s -> wp SCL_READ (fun v s' => v = clock b /\ at_bus s0 (pass 1 b) s') s.
Proof using Hscl Hclock.
  intros H. destruct (pins _ _ _ H) as [_ Hp]. apply wp_bind, wp_gets. rewrite Hp.
  eapply wp_mono; [by apply (read_line_ok s0 b)|]. intros v s' [-> H']. split; [|done].
  rewrite Hclock. destruct H as (_ & <- & _). done.
Qed.

(** ** Delays and clock stretching are time *)

Lemma pass_0 b : pass 0 b = b.
Proof. destruct b. unfold pass. cbn. by rewrite Nat.sub_0_r. Qed.

Lemma pass_pass m n b : pass m (pass n b) = pass (n + m) b.
Proof. unfold pass. cbn. by rewrite Nat.sub_add_distr. Qed.

Lemma clock_true b : clock b = true -> m_scl b = true /\ low b = O.
Proof. unfold clock. intros [? ?%Nat.eqb_eq]%andb_true_iff. done. Qed.

Lemma pass_clock n b : clock b = true -> pass n b = b.
Proof. intros [_ E]%clock_true. destruct b. unfold pass. cbn in *. by subst. Qed.

Lemma twi_delay_ok s0 b s v : at_bus s0 b s -> wp (twi_delay v) (fun _ s' => at_bus s0 (pass (Z.to_nat v) b) s') s.
Proof.
  intros H. apply wp_bind.
  apply (wp_loop (fun i s => 0 <= i <= Z.max 0 v /\ at_bus s0 (pass (Z.to_nat i) b) s) (fun i => Z.to_nat (v - i))).
  - clear s H. intros i s [Hi H]. wp_step; [|apply wp_ret, wp_ret; by replace (Z.to_nat v) with (Z.to_nat i) by lia].
    eapply wp_call; [by apply (rd_ok s0 (pass (Z.to_nat i) b)); [|left]|]. cbv beta. rewrite pass_pass. intros v0 s' H'. apply wp_ret.
    replace (Z.to_nat (i + 1)) with (Z.to_nat i + 1)%nat by lia. split; [split; [lia|done]|lia].
  - lia.
  - split; [lia|]. by rewrite pass_0.
Qed.

(** How many reads [twi_delay(twi_dcount + d)] takes. *)
Definition delay_reads s0 (d : Z) : nat := Z.to_nat (u8 (twi_dcount (twi s0) + d)).

Lemma delay_dcount_ok s0 b s d : at_bus s0 b s -> wp (delay_dcount d) (fun _ s' => at_bus s0 (pass (delay_reads s0 d) b) s') s.
Proof.
  intros H. apply wp_bind, wp_gets. unfold delay_reads. replace (twi_dcount (twi s0)) with (twi_dcount (twi s)); [by apply twi_delay_ok|].
  by destruct H as [(h & -> & _) _].
Qed.

(** While the clock is high, time changes nothing. *)
Lemma delay_high s0 b s d : at_bus s0 b s -> clock b = true -> wp (delay_dcount d) (fun _ s' => at_bus s0 b s') s.
Proof. intros H Hc. eapply wp_mono; [by apply (delay_dcount_ok s0 b)|]. intros a s'. by rewrite pass_clock. Qed.

Lemma SDA_READ_high s0 b s : at_bus s0 b s -> clock b = true -> wp SDA_READ (fun v s' => v = line b /\ at_bus s0 b s') s.
Proof using Hsda Hline. intros H Hc. eapply wp_mono; [by apply (SDA_READ_ok s0 b)|]. intros a s'. by rewrite pass_clock. Qed.

(** The master waits until the slave lets the clock go. *)
Lemma stretch_ok s0 v y n s : at_bus s0 (mkBus v true n false y y) s -> Z.of_nat n <= TWI_CLOCK_STRETCH ->
  wp stretch (fun _ s' => at_bus s0 (clocked v y) s') s.
Proof using Hscl Hclock.
  intros H Hn. apply wp_bind.
  apply (wp_loop (fun i s => 0 <= i <= Z.of_nat n /\ at_bus s0 (mkBus v true (n - Z.to_nat i) false y y) s)
    (fun i => Z.to_nat (TWI_CLOCK_STRETCH - i))).
  - clear s H. intros i s [Hi H]. eapply wp_call; [by apply (SCL_READ_ok s0 (mkBus v true (n - Z.to_nat i) false y y))|].
    intros r s' [-> H']. apply wp_ret. unfold clock, pass in *. cbn [m_scl low m_sda cond syms held andb] in *.
    destruct (Nat.eqb_spec (n - Z.to_nat i) 0) as [E | E].
    + apply wp_ret. rewrite E in H'. exact H'.
    + rewrite (proj2 (Z.ltb_lt i TWI_CLOCK_STRETCH)) by lia. split; [|lia]. split; [lia|].
      replace (n - Z.to_nat (i + 1))%nat with (n - Z.to_nat i - 1)%nat by lia. exact H'.
  - lia.
  - split; [lia|]. by rewrite Nat.sub_0_r.
Qed.

(** ** Bits and bytes *)

(** A pulse of the clock: up to where the slave lets it go. *)
Lemma clock_bit v b d : clock b = true ->
  scl_rise (pass d (sda_set v (scl_fall b))) = mkBus v true (hold (commit b) - d) false (commit b) (commit b).
Proof. intros H. unfold scl_fall. by rewrite H. Qed.

Lemma commit_clocked v y : commit (clocked v y) = bit_at y v.
Proof. done. Qed.

Ltac call L := eapply wp_call; [by apply L|]; cbv beta; let r := fresh "r" in let s' := fresh "s" in intros r s'.

Lemma twi_write_bit_ok s0 b s v : at_bus s0 b s -> clock b = true ->
  wp (twi_write_bit v) (fun _ s' => at_bus s0 (clocked v (commit b)) s') s.
Proof using Hsda Hscl Hne Hclock Hhold.
  intros H Hc. unfold twi_write_bit. call (SCL_LOW_ok s0 b). intros H1.
  apply (wp_call _ _ (fun _ s' => at_bus s0 (sda_set v (scl_fall b)) s')).
  { destruct v; [by apply SDA_HIGH_ok|by apply SDA_LOW_ok]. }
  intros _ s2 H2. call (delay_dcount_ok s0 (sda_set v (scl_fall b))). intros H3.
  call (SCL_HIGH_ok s0 (pass (delay_reads s0 1) (sda_set v (scl_fall b)))). rewrite clock_bit by done. intros H4.
  eapply wp_call; [apply (stretch_ok s0 v (commit b) (hold (commit b) - delay_reads s0 1)); [done|]|].
  { specialize (Hhold (commit b)). lia. }
  cbv beta. intros rr sa H5. call (delay_high s0 (clocked v (commit b))). intros H6. by apply wp_ret.
Qed.

Lemma twi_read_bit_ok s0 b s : at_bus s0 b s -> clock b = true ->
  wp twi_read_bit (fun v s' => v = slave (commit b) /\ at_bus s0 (clocked true (commit b)) s') s.
Proof using Hsda Hscl Hne Hline Hclock Hhold.
  intros H Hc. unfold twi_read_bit.
  call (SCL_LOW_ok s0 b). intros H1. call (SDA_HIGH_ok s0 (scl_fall b)). intros H2.
  call (delay_dcount_ok s0 (sda_set true (scl_fall b))). intros H3.
  call (SCL_HIGH_ok s0 (pass (delay_reads s0 2) (sda_set true (scl_fall b)))). rewrite clock_bit by done. intros H4.
  eapply wp_call; [apply (stretch_ok s0 true (commit b) (hold (commit b) - delay_reads s0 2)); [done|]|].
  { specialize (Hhold (commit b)). lia. }
  cbv beta. intros rr sa H5. call (SDA_READ_high s0 (clocked true (commit b))). intros [-> H6].
  call (delay_high s0 (clocked true (commit b))). intros H7. by apply wp_ret.
Qed.

(** The master is in a high phase of the clock, after the symbols [y]. *)
Definition after s0 (y : list symbol) s : Prop := exists b, at_bus s0 b s /\ clock b = true /\ commit b = y.

Lemma after_clocked s0 v y s : at_bus s0 (clocked v y) s -> after s0 (bit_at y v) s.
Proof. intros H. exists (clocked v y). done. Qed.

Lemma twi_write_byte_ok s0 y s byte : after s0 y s ->
  wp (twi_write_byte byte) (fun ack s' => let y1 := send_bits y (byte_bits byte) in
    ack = negb (slave y1) /\ at_bus s0 (clocked true y1) s') s.
Proof using Hsda Hscl Hne Hline Hclock Hhold.
  intros H. unfold twi_write_byte.
  apply (wp_call _ _ (fun _ s' => after s0 (send_bits y (byte_bits byte)) s')).
  - apply (wp_loop (fun l s => 0 <= l.1 <= 8 /\ u8 l.2 = u8 (Z.shiftl byte l.1) /\
             exists y', after s0 y' s /\ send_bits y' (drop (Z.to_nat l.1) (byte_bits byte)) = send_bits y (byte_bits byte))
           (fun l => Z.to_nat (8 - l.1))).
    + clear s H. intros [i x] s (Hi & Hx & y' & (b & Hb & Hm & Hc) & Hy). cbn [fst snd] in *.
      wp_step; [|by (replace i with 8 in Hy by lia; subst y'; cbn in Hy; subst; exists b)].
      rewrite byte_bits_drop in Hy by lia. cbn in Hy.
      eapply wp_call; [by apply (twi_write_bit_ok s0 b)|]. intros r s' H'. apply wp_ret. cbn [fst snd].
      rewrite Hc in H'. change 128 with (Z.shiftl 1 7) in H'. rewrite hasb_shl1 in H' by lia.
      rewrite <- testbit_u8, Hx, testbit_u8, Z.shiftl_spec in H' by lia.
      split; [split; [lia|split]|lia].
      * unfold u8 at 1. rewrite Z.mod_small by apply u8_range. rewrite <- u8_shiftl_1, <- Hx by lia.
        unfold u8. rewrite !Z.shiftl_mul_pow2, Z.mul_mod_idemp_l by lia. done.
      * exists (bit_at y' (Z.testbit byte (7 - i))). split; [by apply after_clocked|done].
    + cbn. lia.
    + cbn [fst snd]. split; [lia|]. split; [by rewrite Z.shiftl_0_r|]. by exists y.
  - intros _ s' (b & Hb & Hm & Hc). eapply wp_call; [by apply (twi_read_bit_ok s0 b)|].
    rewrite Hc. intros r s2 [-> H2]. by apply wp_ret.
Qed.

Lemma recv_bits_value n y v : 0 <= v -> 0 <= (recv_bits n y v).2 < (v + 1) * 2 ^ Z.of_nat n.
Proof.
  revert y v. induction n as [|n IH]; intros y v Hv; [cbn; lia|]. rewrite Nat2Z.inj_succ, Z.pow_succ_r by lia.
  cbn [recv_bits]. destruct (slave y); cbn [Z.b2z].
  - specialize (IH (bit_at y true) (2 * v + 1) ltac:(lia)). lia.
  - specialize (IH (bit_at y true) (2 * v + 0) ltac:(lia)). nia.
Qed.

Lemma twi_read_byte_ok s0 y s nack : after s0 y s ->
  wp (twi_read_byte nack) (fun v s' => v = (recv_bits 8 y 0).2 /\ at_bus s0 (clocked nack (recv_bits 8 y 0).1) s') s.
Proof using Hsda Hscl Hne Hline Hclock Hhold.
  intros H. unfold twi_read_byte. set (R := recv_bits 8 y 0) in *.
  apply (wp_call _ _ (fun r s' => r = inl (8, R.2) /\ after s0 R.1 s')).
  - apply (wp_loop (fun l s => 0 <= l.1 <= 8 /\ 0 <= l.2 < 2 ^ l.1 /\
             exists y', after s0 y' s /\ recv_bits (Z.to_nat (8 - l.1)) y' l.2 = R)
           (fun l => Z.to_nat (8 - l.1))).
    + clear s H. intros [i x] s (Hi & Hx & y' & (b & Hb & Hm & Hc) & Hy). cbn [fst snd] in *.
      wp_step; [|replace i with 8 in * by lia; apply wp_ret; change (recv_bits (Z.to_nat (8 - 8)) y' x) with (y', x) in Hy; rewrite <- Hy; split; [done|]; subst y'; by exists b].
      replace (Z.to_nat (8 - i)) with (S (Z.to_nat (8 - (i + 1)))) in Hy by lia. cbn [recv_bits] in Hy.
      eapply wp_call; [by apply (twi_read_bit_ok s0 b)|]. intros r s' [-> H']. apply wp_ret. cbn [fst snd]. rewrite Hc in H'.
      assert (2 ^ i <= 2 ^ 7) by (apply Z.pow_le_mono_r; lia). change (2 ^ 7) with 128 in *.
      assert (u8 (Z.lor (Z.shiftl x 1) (Z.b2z (slave (commit b)))) = 2 * x + Z.b2z (slave (commit b))) as ->.
      { rewrite Z.shiftl_mul_pow2 by lia. change (2 ^ 1) with 2. rewrite Z.mul_comm.
        replace (Z.lor (2 * x) _) with (2 * x + Z.b2z (slave (commit b))).
        - apply u8_small. destruct (slave (commit b)); cbn; lia.
        - destruct (slave (commit b)); cbn [Z.b2z]; [|by rewrite Z.lor_0_r, Z.add_0_r].
          rewrite Z.lor_comm. destruct x; [done|done|lia]. }
      rewrite Hc. split; [split; [lia|split]|lia].
      * rewrite Z.pow_add_r by lia. destruct (slave y'); cbn; lia.
      * exists (bit_at y' true). split; [by apply after_clocked|done].
    + cbn. lia.
    + cbn [fst snd]. split; [lia|]. split; [lia|]. by exists y.
  - intros r s' [-> (b & Hb & Hm & Hc)]. eapply wp_call; [by apply (twi_write_bit_ok s0 b)|].
    rewrite Hc. intros r s2 H2. by apply wp_ret.
Qed.

(** ** Conditions *)

Lemma twi_write_start_ok s0 b s : at_bus s0 b s -> clock b = true -> m_sda b = true ->
  wp twi_write_start (fun ok s' => ok = line b /\ at_bus s0 (if line b then started b else b) s') s.
Proof using Hsda Hscl Hne Hline.
  intros H Hc Hs. destruct (clock_true _ Hc) as [Hm Hw].
  assert (scl_rise b = b) as Hb1 by (destruct b; cbn in *; by subst).
  assert (sda_set true b = b) as Hb2.
  { unfold sda_set, line, clock. destruct b. cbn in *. subst. cbn. by rewrite xorb_nilpotent. }
  unfold twi_write_start.
  call (SCL_HIGH_ok s0 b). rewrite Hb1. intros H1. call (SDA_HIGH_ok s0 b). rewrite Hb2. intros H2.
  call (SDA_READ_high s0 b). intros [-> H3]. destruct (line b) eqn:Hl; cbn [negb]; [|by apply wp_ret].
  call (delay_high s0 b). intros H4. call (SDA_LOW_ok s0 b).
  assert (sda_set false b = started b) as ->.
  { unfold sda_set. by rewrite Hc, Hl, Hm, Hw. }
  intros H5. call (delay_high s0 (started b)). intros H6. by apply wp_ret.
Qed.

Lemma clock_stopped y : clock (stopped y) = true.
Proof. unfold stopped, sda_set. by destruct (_ && _). Qed.

Lemma twi_write_stop_ok s0 y s : after s0 y s -> wp twi_write_stop (fun _ s' => at_bus s0 (stopped y) s') s.
Proof using Hsda Hscl Hne Hclock Hhold.
  intros (b & H & Hc & Hy). unfold twi_write_stop.
  call (SCL_LOW_ok s0 b). intros H1. call (SDA_LOW_ok s0 (scl_fall b)). intros H2.
  call (delay_dcount_ok s0 (sda_set false (scl_fall b))). intros H3.
  call (SCL_HIGH_ok s0 (pass (delay_reads s0 0) (sda_set false (scl_fall b)))). rewrite (clock_bit false b _ Hc), Hy. intros H4.
  eapply wp_call; [apply (stretch_ok s0 false y (hold y - delay_reads s0 0)); [done|]|].
  { specialize (Hhold y). lia. }
  cbv beta. intros rr sa H5. call (delay_high s0 (clocked false y)). intros H6.
  call (SDA_HIGH_ok s0 (clocked false y)). intros H7.
  eapply wp_call; [apply (delay_high s0 (stopped y)); [done|apply clock_stopped]|]. intros rr2 sb H8. by apply wp_ret.
Qed.

Lemma maybe_stop_ok s0 b s st : at_bus s0 b s -> clock b = true ->
  wp (maybe_stop st) (fun _ s' => at_bus s0 (if negb (st =? 0) then stopped (commit b) else b) s') s.
Proof using Hsda Hscl Hne Hclock Hhold.
  intros H Hm. unfold maybe_stop. destruct (negb (st =? 0)); [|by apply wp_ret].
  eapply wp_call; [apply (twi_write_stop_ok s0 (commit b)); by exists b|]. intros r s' H'. by apply wp_ret.
Qed.

Lemma release_free d n b : line b = true -> clock b = true -> release d n b = b.
Proof. intros H Hc. destruct n; cbn [release]; by rewrite H, pass_clock. Qed.

Lemma release_bus_ok s0 b s : at_bus s0 b s ->
  wp release_bus (fun _ s' => at_bus s0 (release (delay_reads s0 0) 10 b) s') s.
Proof using Hsda Hscl Hne Hline.
  intros H. unfold release_bus. set (d := delay_reads s0 0). apply wp_bind.
  apply (wp_loop (fun i s => 0 <= i <= 10 /\ exists b', at_bus s0 b' s /\
           release d (Z.to_nat (10 - i)) b' = release d 10 b) (fun i => Z.to_nat (10 - i))).
  - clear s H. intros i s (Hi & b' & H & Hr).
    call (SDA_READ_ok s0 b'). intros [-> H1]. destruct (line b') eqn:Hl; cbn [negb andb].
    { apply wp_ret, wp_ret. rewrite <- Hr. destruct (Z.to_nat (10 - i)); cbn [release]; by rewrite Hl. }
    destruct (i <? 10) eqn:E; bools.
    2: { apply wp_ret, wp_ret. rewrite <- Hr. replace i with 10 by lia. change (Z.to_nat (10 - 10)) with O. cbn [release]. by rewrite Hl. }
    replace (Z.to_nat (10 - i)) with (S (Z.to_nat (10 - (i + 1)))) in Hr by lia. cbn [release] in Hr. rewrite Hl in Hr.
    call (SCL_LOW_ok s0 (pass 1 b')). intros H2. call (delay_dcount_ok s0 (scl_fall (pass 1 b'))). fold d. intros H3.
    call (SCL_HIGH_ok s0 (pass d (scl_fall (pass 1 b')))). intros H4.
    call (delay_dcount_ok s0 (scl_rise (pass d (scl_fall (pass 1 b'))))). fold d. intros H5. apply wp_ret.
    split; [split; [lia|]|lia]. by eexists.
  - lia.
  - split; [lia|]. by exists b.
Qed.

(** ** Transfers *)

Lemma at_after s0 b s : at_bus s0 b s -> clock b = true -> after s0 (commit b) s.
Proof. intros H Hm. by exists b. Qed.

Lemma twi_writeTo_ok s0 b s address buf len st :
  at_bus s0 b s -> clock b = true -> m_sda b = true -> 0 <= len <= zlen buf ->
  wp (twi_writeTo address buf len st) (fun r s' =>
    let '(res, b') := write_transfer (delay_reads s0 0) b (Z.land (Z.shiftl address 1) 0xFF :: take (Z.to_nat len) buf) (negb (st =? 0)) in
    r = res /\ at_bus s0 b' s') s.
Proof using Hsda Hscl Hne Hline Hclock Hhold.
  intros H Hm Hs Hlen. unfold twi_writeTo, write_transfer. rewrite Z.lor_0_r.
  set (a := Z.land _ _). set (data := take _ buf).
  assert (zlen data = len) as Hd by (unfold zlen, data in *; rewrite length_take; lia).
  call (twi_write_start_ok s0 b). intros [-> H1]. destruct (line b); cbn [negb]; [|by apply wp_ret].
  eapply wp_call; [apply (twi_write_byte_ok s0 (commit (started b))); by apply at_after|]. cbv beta zeta.
  intros r0 s2 [-> H2]. cbn [send_bytes]. set (y := send_bits _ _) in *.
  destruct (slave y) eqn:Hack; cbn [negb].
  { call (maybe_stop_ok s0 (clocked true y)). intros H3. apply wp_ret. cbn. done. }
  apply (wp_call _ _ (fun r s' => let '(b1, n) := send_bytes (clocked true y) data in
    clock b1 = true /\ m_sda b1 = true /\
    ((r = inl len /\ n = len /\ at_bus s0 b1 s') \/
     (r = inr 3 /\ 0 <= n < len /\ at_bus s0 (if negb (st =? 0) then stopped (commit b1) else b1) s')))).
  - apply (wp_loop (fun i s => 0 <= i <= len /\ exists b', at_bus s0 b' s /\ clock b' = true /\ m_sda b' = true /\
             send_bytes (clocked true y) data = let '(b1, n) := send_bytes b' (drop (Z.to_nat i) data) in (b1, n + i))
           (fun i => Z.to_nat (len - i))).
    + clear H H1 H2. intros i sL (Hi & b' & H & Hm' & Hs' & Hr).
      wp_step.
      2: { apply wp_ret. rewrite Hr, drop_ge by (unfold zlen in *; lia). cbn. repeat split; [done..|]. left.
           repeat split; [f_equal; lia|lia|apply H..]. }
      destruct (drop (Z.to_nat i) data) as [|x rest] eqn:Edrop.
      { apply (f_equal length) in Edrop. rewrite length_drop in Edrop. unfold zlen in *. cbn in Edrop. lia. }
      assert (buf !! Z.to_nat i = Some x) as ->.
      { assert (data !! Z.to_nat i = Some x) as Hx by (rewrite <- (Nat.add_0_r (Z.to_nat i)), <- lookup_drop, Edrop; done).
        unfold data in Hx. rewrite lookup_take in Hx. by destruct decide. }
      assert (drop (Z.to_nat (i + 1)) data = rest) as Hrest.
      { replace (Z.to_nat (i + 1)) with (Z.to_nat i + 1)%nat by lia. rewrite <- drop_drop, Edrop. done. }
      eapply wp_call; [apply (twi_write_byte_ok s0 (commit b')); by apply at_after|]. cbv beta zeta.
      intros r s' [-> H']. cbn [send_bytes] in Hr. set (y' := send_bits (commit b') (byte_bits x)) in *.
      destruct (slave y') eqn:Hack'; cbn [negb].
      * call (maybe_stop_ok s0 (clocked true y')). intros H3. apply wp_ret. rewrite Hr. cbn.
        repeat split; [done..|]. right. repeat split; [lia|lia|apply H3..].
      * apply wp_ret. split; [|lia]. split; [lia|]. exists (clocked true y'). repeat split; [apply H'..|].
        rewrite Hr, Hrest. destruct (send_bytes (clocked true y') rest). f_equal. lia.
    + lia.
    + split; [lia|]. exists (clocked true y). repeat split; [apply H2..|]. cbn [Z.to_nat]. rewrite drop_0.
      destruct (send_bytes _ _). f_equal. lia.
  - intros r' s3. destruct (send_bytes (clocked true y) data) as [b1 n].
    intros (Hm1 & Hs1 & [(-> & -> & H3) | (-> & Hn & H3)]).
    + rewrite (proj2 (Z.eqb_neq (len + 1) 0)) by lia.
      rewrite (proj2 (Z.ltb_ge (len + 1) _)) by (unfold zlen in *; cbn [length]; lia).
      call (maybe_stop_ok s0 b1). intros H4.
      eapply wp_call; [apply (release_bus_ok s0 (if negb (st =? 0) then stopped (commit b1) else b1)); done|].
      intros r4 s5 H5. by apply wp_ret.
    + apply wp_ret. rewrite (proj2 (Z.eqb_neq (n + 1) 0)) by lia.
      rewrite (proj2 (Z.ltb_lt (n + 1) _)) by (unfold zlen in *; cbn [length]; lia). done.
Qed.

Lemma zset_front (vs buf : list Z) v : zlen vs < zlen buf ->
  zset (vs ++ drop (length vs) buf) (zlen vs) v = (vs ++ [v]) ++ drop (length (vs ++ [v])) buf.
Proof.
  unfold zlen, zset. intros H. rewrite Nat2Z.id, insert_app_r_alt, Nat.sub_diag by lia.
  rewrite length_app. cbn [length]. rewrite <- drop_drop. destruct (drop (length vs) buf) as [|x l] eqn:E.
  - apply (f_equal length) in E. rewrite length_drop in E. cbn in E. lia.
  - cbn. by rewrite <- app_assoc.
Qed.

Lemma recv_bytes_S n b : recv_bytes (S n) b =
  (let '(y, v) := recv_bits 8 (commit b) 0 in
   let '(b', vs) := recv_bytes n (clocked (match n with O => true | _ => false end) y) in (b', v :: vs)).
Proof. done. Qed.

Lemma twi_readFrom_ok s0 b s address buf len st :
  at_bus s0 b s -> clock b = true -> m_sda b = true -> 1 <= len <= zlen buf -> len < 2 ^ 32 ->
  wp (twi_readFrom address buf len st) (fun r s' =>
    let '(res, b', vs) := read_transfer (delay_reads s0 0) b (Z.land (Z.lor (Z.shiftl address 1) 1) 0xFF) (Z.to_nat len) (negb (st =? 0)) in
    r = (res, vs ++ drop (length vs) buf) /\ at_bus s0 b' s') s.
Proof using Hsda Hscl Hne Hline Hclock Hhold.
  intros H Hm Hs Hlen Hlen2. unfold twi_readFrom, read_transfer.
  rewrite (u32_small (len - 1)) by lia. set (a := Z.land _ _).
  call (twi_write_start_ok s0 b). intros [-> H1]. destruct (line b); cbn [negb]; [|by apply wp_ret].
  eapply wp_call; [apply (twi_write_byte_ok s0 (commit (started b))); by apply at_after|]. cbv beta zeta.
  intros r0 s2 [-> H2]. cbn [send_bytes]. set (y := send_bits _ _) in *.
  destruct (slave y) eqn:Hack; cbn [negb].
  { call (maybe_stop_ok s0 (clocked true y)). intros H3. apply wp_ret. cbn. done. }
  change (0 + 1 =? 0) with false. cbv iota.
  apply (wp_call _ _ (fun r s' => exists b' vs, r = inl (len - 1, vs ++ drop (length vs) buf) /\ zlen vs = len - 1 /\
    at_bus s0 b' s' /\ clock b' = true /\
    recv_bytes (Z.to_nat len) (clocked true y) = let '(b2, r) := recv_bytes 1 b' in (b2, vs ++ r))).
  - apply (wp_loop (fun l s => 0 <= l.1 <= len - 1 /\ exists b' vs, l.2 = vs ++ drop (length vs) buf /\ zlen vs = l.1 /\
             at_bus s0 b' s /\ clock b' = true /\
             recv_bytes (Z.to_nat len) (clocked true y) = let '(b2, r) := recv_bytes (Z.to_nat (len - l.1)) b' in (b2, vs ++ r))
           (fun l => Z.to_nat (len - 1 - l.1))).
    + clear H H1 H2. intros [i l] sL (Hi & b' & vs & Hl & Hv & H & Hm' & Hr). cbn [fst snd] in *. subst l.
      wp_step.
      2: { apply wp_ret. exists b', vs. replace i with (len - 1) in * by lia.
           replace (len - (len - 1)) with 1 in Hr by lia. done. }
      replace (Z.to_nat (len - i)) with (S (S (Z.to_nat (len - 2 - i)))) in Hr by lia. rewrite recv_bytes_S in Hr.
      eapply wp_call; [apply (twi_read_byte_ok s0 (commit b')); by apply at_after|]. cbv beta.
      intros r s' [-> H']. destruct (recv_bits 8 (commit b') 0) as [y' v]. cbn [fst snd] in H'. cbn [snd].
      assert (zlen (vs ++ drop (length vs) buf) = zlen buf) as Hz by (unfold zlen in *; rewrite length_app, length_drop; lia).
      rewrite Hz, (proj2 (Z.ltb_lt i (zlen buf))) by lia. apply wp_ret. cbn [fst snd].
      split; [split; [lia|]|lia]. exists (clocked false y'), (vs ++ [v]). rewrite <- Hv, zset_front by lia.
      split; [done|]. split; [rewrite zlen_snoc; lia|]. split; [done|]. split; [done|].
      rewrite Hr. replace (Z.to_nat (len - (zlen vs + 1))) with (S (Z.to_nat (len - 2 - zlen vs))) by lia. rewrite <- Hv.
      generalize (recv_bytes (S (Z.to_nat (len - 2 - zlen vs))) (clocked false y')). intros [b2 r2]. by rewrite <- app_assoc.
    + unfold zlen in *. cbn. lia.
    + cbn [fst snd]. split; [lia|]. exists (clocked true y), []. cbn. repeat split; [apply H2..|].
      rewrite Z.sub_0_r. by destruct (recv_bytes _ _).
  - intros r s3 (b' & vs & -> & Hv & H3 & Hm3 & Hr). rewrite Hr, recv_bytes_S.
    eapply wp_call; [apply (twi_read_byte_ok s0 (commit b')); by apply at_after|]. cbv beta.
    intros r s4 [-> H4]. destruct (recv_bits 8 (commit b') 0) as [y' v]. cbn [fst snd recv_bytes] in *.
    assert (zlen (vs ++ drop (length vs) buf) = zlen buf) as Hz by (unfold zlen in *; rewrite length_app, length_drop; lia).
    rewrite Hz, (proj2 (Z.ltb_lt (len - 1) (zlen buf))) by lia.
    call (maybe_stop_ok s0 (clocked true y')). intros H5.
    eapply wp_call; [apply (release_bus_ok s0 (if negb (st =? 0) then stopped (commit (clocked true y')) else clocked true y')); done|].
    intros r5 s6 H6. apply wp_ret. split; [|done]. by rewrite <- Hv, zset_front by lia.
Qed.

(** ** A slave that listens gets the bytes *)

Lemma send_bits_listen y vs ws : (forall i, (i < length ws)%nat -> slave (y ++ (Bit <$> vs ++ take i ws)) = true) ->
  send_bits (y ++ (Bit <$> vs)) ws = y ++ (Bit <$> vs ++ ws).
Proof.
  revert vs. induction ws as [|w ws IH]; intros vs H; [by rewrite app_nil_r|]. cbn.
  pose proof (H 0%nat ltac:(cbn; lia)) as H0. cbn [take] in H0. rewrite app_nil_r in H0.
  unfold bit_at at 2. rewrite H0, andb_true_r. fold send_bits.
  replace ((y ++ (Bit <$> vs)) ++ [Bit w]) with (y ++ (Bit <$> (vs ++ [w]))) by (by rewrite fmap_app, app_assoc).
  change (foldl bit_at ?a ?l) with (send_bits a l). rewrite IH; [by rewrite <- app_assoc|].
  intros i Hi. rewrite <- app_assoc. apply (H (S i)). cbn. lia.
Qed.

Lemma send_bytes_listen b y bytes sent : commit b = y ++ (sent ≫= frame) -> listens y (sent ++ bytes) ->
  (send_bytes b bytes).2 = zlen bytes /\ commit (send_bytes b bytes).1 = y ++ ((sent ++ bytes) ≫= frame).
Proof.
  revert b sent. induction bytes as [|x bytes IH]; intros b sent Hb Hl; [by rewrite app_nil_r|].
  assert (sent `prefix_of` sent ++ x :: bytes) as Hpre by by eexists.
  assert (send_bits (commit b) (byte_bits x) = y ++ (sent ≫= frame) ++ (Bit <$> byte_bits x)) as Hs.
  { pose proof (send_bits_listen (y ++ (sent ≫= frame)) [] (byte_bits x)) as E.
    rewrite fmap_nil, app_nil_r, app_nil_l in E. rewrite Hb, E; [by rewrite app_assoc|].
    intros i Hi. rewrite app_nil_l, <- app_assoc.
    rewrite (Hl sent (take i (byte_bits x)) Hpre) by (rewrite length_take; cbn in *; lia).
    rewrite bool_decide_false; [done|]. rewrite length_take. cbn in *. lia. }
  assert (slave (send_bits (commit b) (byte_bits x)) = false) as Hack.
  { rewrite Hs, (Hl sent (byte_bits x) Hpre) by (cbn; lia).
    rewrite bool_decide_true; [done|]. rewrite length_app. cbn. lia. }
  cbn [send_bytes]. rewrite Hack.
  destruct (IH (clocked true (send_bits (commit b) (byte_bits x))) (sent ++ [x])) as [IH1 IH2].
  - rewrite commit_clocked. unfold bit_at. rewrite Hack, Hs. cbn [andb]. rewrite bind_app, bind_singleton. unfold frame at 3.
    by rewrite <- !app_assoc.
  - by rewrite <- app_assoc.
  - rewrite <- app_assoc in IH2. destruct (send_bytes _ bytes) as [b1 n]. cbn [fst snd] in *.
    split; [|done]. rewrite IH1. unfold zlen. cbn [length]. lia.
Qed.
End proof.
