(* ===== verification/CoreTwiTheorems.v ===== *)
(** Properties of the software I2C master ([core_esp31b_si2c.c]), with a
    demonstration bus. *)
From S2P Require Import Prelude CSem CoreMmio CoreTwi CoreTwiProof.
From stdpp Require Import base list numbers option.

Open Scope Z_scope.

Section theorems.
Context {dev : Device} {clk : CpuClock} {sl : I2cSlave}.
Variables sda scl : Z.
Hypothesis Hsda : 0 <= sda < 64.
Hypothesis Hscl : 0 <= scl < 64.
Hypothesis Hne : sda <> scl.
(** The input registers show the lines, and the slave holds the clock low for at most as
    many reads as the master waits. *)
Hypothesis Hline : forall h, hasb (u32 (dev_rd h (reg_of sda GPI0 GPI1))) (line_bit sda) = line (bus_of sda scl h).
Hypothesis Hclock : forall h, hasb (u32 (dev_rd h (reg_of scl GPI0 GPI1))) (line_bit scl) = clock (bus_of sda scl h).
Hypothesis Hhold : forall y, Z.of_nat (hold y) <= TWI_CLOCK_STRETCH.

(** C22: a write on the pins is a write on the bus.  Whatever the slave drives on the data
    line, and though it may hold the clock low after every bit for up to
    [TWI_CLOCK_STRETCH] register reads (800 at 80 MHz, 1600 at 160 MHz), with its data not
    ready before it lets the clock go: from a bus with a high clock, [twi_writeTo] ends,
    makes no access but reads of the input registers and writes that pull down or release
    one of its two pins, returns 4 on a busy line, 2 or 3 when the address or a data byte is
    not acknowledged and 0 otherwise, and the lines have carried exactly the start
    condition, the address and data bits up to there with their acknowledge bits, the stop
    condition if requested, and the clock pulses that free the data line. *)
Theorem twi_writeTo_correct s0 b s address buf len sendStop :
  at_bus sda scl s0 b s -> clock b = true -> m_sda b = true -> 0 <= len <= zlen buf ->
  wp (twi_writeTo address buf len sendStop) (fun r s' =>
    let '(res, b') := write_transfer (delay_reads s0 0) b
      (Z.land (Z.shiftl address 1) 0xFF :: take (Z.to_nat len) buf) (negb (sendStop =? 0)) in
    r = res /\ at_bus sda scl s0 b' s') s.
Proof using Hsda Hscl Hne Hline Hclock Hhold. by apply twi_writeTo_ok. Qed.

(** A slave that acknowledges every byte, and otherwise leaves the data line alone,
    gets them all: [twi_writeTo] with a stop returns 0 and leaves an idle bus that has
    carried the start condition, each byte (address first) with its acknowledge bit, and
    the stop condition. *)
Theorem twi_writeTo_delivers s0 y h s address buf len sendStop :
  let bytes := Z.land (Z.shiftl address 1) 0xFF :: take (Z.to_nat len) buf in
  at_bus sda scl s0 (idle y h) s -> slave h = true -> listens (y ++ [Start]) bytes -> 0 <= len <= zlen buf -> sendStop <> 0 ->
  wp (twi_writeTo address buf len sendStop) (fun r s' => r = 0 /\
    let sent := y ++ [Start] ++ (bytes ≫= frame) in at_bus sda scl s0 (idle (sent ++ [Stop]) sent) s') s.
Proof using Hsda Hscl Hne Hline Hclock Hhold.
  cbv zeta. intros H Hh Hl Hlen Hst. eapply wp_mono; [by apply (twi_writeTo_ok sda scl Hsda Hscl Hne Hline Hclock Hhold s0 (idle y h))|].
  cbv beta. intros r s'. set (bytes := Z.land (Z.shiftl address 1) 0xFF :: take (Z.to_nat len) buf) in *. unfold write_transfer.
  replace (line (idle y h)) with true by (unfold line; cbn; by rewrite Hh). cbn [negb].
  destruct (send_bytes_listen (started (idle y h)) (y ++ [Start]) bytes []) as [Hn Hc];
    [by rewrite app_nil_r|done|]. cbn [app] in Hc.
  assert (0 < zlen bytes) by (unfold zlen; cbn [length bytes]; lia).
  destruct (send_bytes _ bytes) as [b1 n]. cbn [fst snd] in *. subst n.
  rewrite (proj2 (Z.eqb_neq sendStop 0) Hst), Z.ltb_irrefl, (proj2 (Z.eqb_neq (zlen bytes) 0)) by lia. cbn [negb].
  assert (slave (commit b1) = true) as Hs.
  { rewrite Hc. pose proof (Hl bytes [] ltac:(done) ltac:(cbn; lia)) as E. cbn [fmap list_fmap] in E. rewrite app_nil_r in E.
    rewrite E, bool_decide_false; [done|]. cbn. lia. }
  assert (stopped (commit b1) = idle (commit b1 ++ [Stop]) (commit b1)) as ->.
  { unfold stopped, sda_set, line. cbn. by rewrite Hs. }
  rewrite release_free by (unfold line; cbn; by rewrite ?Hs). rewrite Hc, <- (app_assoc y). done.
Qed.

(** C30: a read on the pins is a read on the bus: of one or more bytes, [twi_readFrom]
    returns the codes of the write, stores the bytes the slave drives at the front of the
    buffer and leaves the rest of it, acknowledges all bytes but the last, and the lines
    have carried just that.  The slave may hold the clock low for as long as the master
    waits, and only the two pins are accessed, as for the write. *)
Theorem twi_readFrom_correct s0 b s address buf len sendStop :
  at_bus sda scl s0 b s -> clock b = true -> m_sda b = true -> 1 <= len <= zlen buf -> len < 2 ^ 32 ->
  wp (twi_readFrom address buf len sendStop) (fun r s' =>
    let '(res, b', vs) := read_transfer (delay_reads s0 0) b
      (Z.land (Z.lor (Z.shiftl address 1) 1) 0xFF) (Z.to_nat len) (negb (sendStop =? 0)) in
    r = (res, vs ++ drop (length vs) buf) /\ at_bus sda scl s0 b' s') s.
Proof using Hsda Hscl Hne Hline Hclock Hhold. by apply twi_readFrom_ok. Qed.
End theorems.

(** ** A demonstration bus

    Data line on pin 4, clock on pin 5.  The slave acknowledges two bytes written to
    it, and drives the bits of 0xA5 when read; after every byte it holds the clock for 100
    reads, and the data line low until it is ready. *)

#[export] Instance demo_clk : CpuClock := true.

Definition demo_drives (y : list symbol) : bool :=
  let k := zlen y in
  if 9 <=? k then
    if nth_error y 8 is Some (Bit true) then negb (k =? 9) && ((k <? 10) || (17 <? k) || Z.testbit 0xA5 (17 - k))
    else negb ((k =? 9) || (k =? 18))
  else true.

Definition demo_holds (n : nat) (y : list symbol) : nat := if zlen y mod 9 =? 0 then n else O.

#[export] Instance demo_slave : I2cSlave := {
  slave := demo_drives; early := fun y => negb (zlen y mod 9 =? 0); hold := demo_holds 100
}.

Definition demo_pins {sl : I2cSlave} (h : list event) : Z :=
  (if line (bus_of 4 5 h) then 0x10 else 0) + (if clock (bus_of 4 5 h) then 0x20 else 0).

#[export] Instance demo_i2c : Device := {
  dev_rd := fun h a => if a =? GPI0 then demo_pins h else 0;
  dev_ext := fun _ _ _ => 0
}.

Lemma demo_line h : hasb (u32 (dev_rd h (reg_of 4 GPI0 GPI1))) (line_bit 4) = line (bus_of 4 5 h) /\
  hasb (u32 (dev_rd h (reg_of 5 GPI0 GPI1))) (line_bit 5) = clock (bus_of 4 5 h).
Proof.
  cbn [dev_rd demo_i2c]. change (reg_of 4 GPI0 GPI1 =? GPI0) with true. change (reg_of 5 GPI0 GPI1 =? GPI0) with true.
  cbv iota. unfold demo_pins. by destruct (line _), (clock _).
Qed.

Lemma demo_hold y : Z.of_nat (hold y) <= TWI_CLOCK_STRETCH.
Proof. cbn [hold demo_slave]. unfold demo_holds. by destruct (_ =? 0). Qed.

Definition demo_core : core := set_twi (mkTwi 1 4 5) core_init.

Lemma demo_at : at_bus 4 5 demo_core (idle [] []) demo_core.
Proof. split; [|done]. by exists []. Qed.

Lemma twi_writeTo_correct_witness :
  wp (twi_writeTo 0x21 [7; 8] 2 1) (fun r s' => r = 3 /\ syms (bus_of 4 5 (io s')) = Start :: (frame 0x42 ++ frame 7 ++ (Bit <$> byte_bits 8) ++ [Bit true; Stop])) demo_core.
Proof.
  eapply wp_mono; [apply (twi_writeTo_correct 4 5 ltac:(lia) ltac:(lia) ltac:(lia) (fun h => proj1 (demo_line h)) (fun h => proj2 (demo_line h)) demo_hold demo_core (idle [] []) demo_core 0x21 [7; 8] 2 1)|].
  - exact demo_at.
  - reflexivity.
  - reflexivity.
  - vm_compute. split; discriminate.
  - intros r s'. vm_compute (write_transfer _ _ _ _). intros (-> & _ & -> & _). split; reflexivity.
Defined.

Lemma demo_listens : listens ([] ++ [Start]) [0x42; 7].
Proof.
  intros sent vs [k Hk] Hv.
  destruct sent as [|x [|x' [|x'' sent]]]; cbn in Hk; simplify_eq.
  all: do 9 (destruct vs as [|? vs];
    [by repeat match goal with b : bool |- _ => destruct b end; vm_compute|]); cbn in Hv; lia.
Qed.

Lemma twi_writeTo_delivers_witness :
  wp (twi_writeTo 0x21 [7] 1 1) (fun r s' => r = 0 /\ syms (bus_of 4 5 (io s')) = Start :: (frame 0x42 ++ frame 7 ++ [Stop])) demo_core.
Proof.
  eapply wp_mono; [apply (twi_writeTo_delivers 4 5 ltac:(lia) ltac:(lia) ltac:(lia) (fun h => proj1 (demo_line h)) (fun h => proj2 (demo_line h)) demo_hold demo_core [] [] demo_core 0x21 [7] 1 1)|].
  - exact demo_at.
  - reflexivity.
  - exact demo_listens.
  - vm_compute. split; discriminate.
  - discriminate.
  - intros r s' (-> & _ & -> & _). split; reflexivity.
Defined.

Lemma twi_readFrom_correct_witness : wp (twi_readFrom 0x21 [1; 2; 3] 2 1) (fun r s' => r = (0, [0xA5; 0xFF; 3])) demo_core.
Proof.
  eapply wp_mono; [apply (twi_readFrom_correct 4 5 ltac:(lia) ltac:(lia) ltac:(lia) (fun h => proj1 (demo_line h)) (fun h => proj2 (demo_line h)) demo_hold demo_core (idle [] []) demo_core 0x21 [1; 2; 3] 2 1)|].
  - exact demo_at.
  - reflexivity.
  - reflexivity.
  - vm_compute. split; discriminate.
  - reflexivity.
  - intros r s'. vm_compute (read_transfer _ _ _ _ _). intros [-> _]. reflexivity.
Defined.

(** The driver itself runs on this bus. *)
Example twi_readFrom_runs :
  (match twi_readFrom 0x21 [1; 2; 3] 2 1 demo_core with Done (r, _) => r | _ => (0, []) end) = (0, [0xA5; 0xFF; 3]).
Proof. vm_compute. reflexivity. Qed.

(** With [len = 0] the count wraps and the buffer is overrun. *)
Example twi_readFrom_zero : twi_readFrom 0x21 [1; 2; 3] 0 1 demo_core = UB.
Proof. vm_compute. reflexivity. Qed.

(** A slave that holds the clock longer than the master waits is not noticed: the master
    takes the low data line for a bit, which the lines have not carried. *)
Definition slow_slave : I2cSlave := {| slave := fun _ => true; early := fun _ => false; hold := fun _ => 900%nat |}.
Definition slow_i2c : Device := {|
  dev_rd := fun h a => if a =? GPI0 then demo_pins (sl := slow_slave) h else 0;
  dev_ext := fun _ _ _ => 0
|}.

Example twi_stretch_timeout :
  match twi_read_bit (dev := slow_i2c) demo_core with
  | Done (b, s) => b = false /\ syms (bus_of (sl := slow_slave) 4 5 (io s)) = []
  | _ => False
  end.
Proof. vm_compute. auto. Qed.
