(* ===== verification/CorePwm.v ===== *)
(** [analogWrite]: software PWM on timer 1 ([core_esp31b_wiring_pwm.c]).

    All pins in [pwm_mask] go high at the start of a period; [prep_pwm_steps] sorts
    their values into steps, and the interrupt handler ends a step by clearing the
    pins whose value is reached and loading the timer with the next step. *)
From S2P Require Import Prelude CSem CoreMmio CoreGpio CoreTimer.
From Stdlib Require List.
From Stdlib Require Import Sorting.Permutation.
From stdpp Require Import base list sorting numbers option.

Open Scope Z_scope.

(** ** Sorting

  [a[j] = tmp] once the elements above [tmp] have moved up: the inner loop from
  [j] downwards. *)
Fixpoint shift_down (j : nat) (tmp : Z) (a : list Z) : list Z :=
  match j with
  | O => <[0%nat := tmp]> a
  | S j' => if tmp <? a !!! j' then shift_down j' tmp (<[j := a !!! j']> a) else <[j := tmp]> a
  end.

Definition sort_loop (a : list Z) (al : nat) : list Z :=
  foldl (fun a i => shift_down i (a !!! i) a) a (seq 1 (al - 1)).

Definition dedup_body (l : list Z * nat) (i : nat) : list Z * nat :=
  let '(a, bl) := l in
  if negb (a !!! i =? a !!! (i - 1)%nat) then (<[bl := a !!! i]> a, S bl) else (a, bl).

(** The array and the number of its distinct elements, in front. *)
Definition pwm_sort_array (a : list Z) (al : nat) : list Z * nat :=
  foldl dedup_body (sort_loop a al, 1%nat) (seq 1 (al - 1)).

(** ** Steps *)

(** Pins 0 to 31. *)
Definition pwm_pins : list Z := seqZ 0 32.

Definition pin_on (m i : Z) : bool := hasb m (Z.shiftl 1 i).

Definition pwm_get_mask (m : Z) (values : list Z) (value : Z) : Z :=
  foldl (fun mask i => if pin_on m i && (zget values i =? value) then Z.lor mask (Z.shiftl 1 i) else mask) 0 pwm_pins.

(** [pwm_temp_steps] before sorting: the values of the pins, and the range. *)
Definition pin_values (m : Z) (values : list Z) : list Z :=
  zget values <$> filter (fun i => pin_on m i && negb (zget values i =? 0) = true) pwm_pins.

(** [steps[i] -= steps[i-1]] from the end down to 1. *)
Definition step_diffs (l : list Z) : list Z :=
  (fun i => if i =? 0 then zget l 0 else u32 (zget l i - zget l (i - 1))) <$> seqZ 0 (zlen l).

(** [memcpy(dst, src, 4 * |src|)] of word arrays. *)
Definition copy_words (dst src : list Z) : list Z := src ++ drop (length src) dst.

Definition set_mask (m : Z) (p : pwm_t) : pwm_t :=
  mkPwm m (pwm_values p) (pwm_freq p) (pwm_range p) (pwm_multiplier p) (pwm_steps p) (pwm_steps_len p) (pwm_steps_mask p)
    (current_step p) (stepcount p) (isr_steps p) (isr_masks p).
Definition set_values (v : list Z) (p : pwm_t) : pwm_t :=
  mkPwm (pwm_mask p) v (pwm_freq p) (pwm_range p) (pwm_multiplier p) (pwm_steps p) (pwm_steps_len p) (pwm_steps_mask p)
    (current_step p) (stepcount p) (isr_steps p) (isr_masks p).
Definition set_steps_len (n : Z) (p : pwm_t) : pwm_t :=
  mkPwm (pwm_mask p) (pwm_values p) (pwm_freq p) (pwm_range p) (pwm_multiplier p) (pwm_steps p) n (pwm_steps_mask p)
    (current_step p) (stepcount p) (isr_steps p) (isr_masks p).
Definition set_steps (mult : Z) (st : list Z) (n : Z) (ms : list Z) (p : pwm_t) : pwm_t :=
  mkPwm (pwm_mask p) (pwm_values p) (pwm_freq p) (pwm_range p) mult st n ms
    (current_step p) (stepcount p) (isr_steps p) (isr_masks p).
Definition set_freq_range (f r : Z) (p : pwm_t) : pwm_t :=
  mkPwm (pwm_mask p) (pwm_values p) f r (pwm_multiplier p) (pwm_steps p) (pwm_steps_len p) (pwm_steps_mask p)
    (current_step p) (stepcount p) (isr_steps p) (isr_masks p).
Definition set_isr (cur cnt : Z) (st ms : list Z) (p : pwm_t) : pwm_t :=
  mkPwm (pwm_mask p) (pwm_values p) (pwm_freq p) (pwm_range p) (pwm_multiplier p) (pwm_steps p) (pwm_steps_len p) (pwm_steps_mask p)
    cur cnt st ms.

Definition upd_pwm (f : pwm_t -> pwm_t) : C core unit := modify (fun s => set_pwm (f (pwm s)) s).
Definition get_pwm {A} (f : pwm_t -> A) : C core A := gets (fun s => f (pwm s)).

Section defs.
Context {dev : Device} {tool : Toolchain}.

(** The 33rd step does not fit [pwm_temp_steps]; the division may be by 0. *)
Definition prep_pwm_steps : C core unit :=
  p ← get_pwm (fun p => p);
  if pwm_mask p =? 0 then upd_pwm (set_steps_len 0)
  else
    let l := pin_values (pwm_mask p) (pwm_values p) ++ [pwm_range p] in
    if (32 <? length l)%nat then undefined
    else
      let '(a, bl) := pwm_sort_array l (length l) in
      let len := (bl - 1)%nat in
      let masks := pwm_get_mask (pwm_mask p) (pwm_values p) <$> take len a in
      let steps := step_diffs (take bl a) in
      ints_off (BIT ETS_FRC_TIMER1_INUM);;
      let d := u32 (pwm_range p * pwm_freq p) in
      (if d =? 0 then undefined
       else upd_pwm (set_steps (80000000 / d) (copy_words (pwm_steps p) steps) (Z.of_nat len) (copy_words (pwm_steps_mask p) masks)));;
      ints_on (BIT ETS_FRC_TIMER1_INUM).

Definition load_timer (ticks : Z) : C core unit :=
  wr T1L ticks;; wr T1I 0;; SET_PERI_REG_MASK T1C (Z.shiftl 1 TCTE).

(** The copies [steps] and [masks] are made, but the loop uses the originals for
    the steps. *)
Definition pwm_timer_isr : C core unit :=
  p ← get_pwm (fun p => p);
  if current_step p <? stepcount p then
    load_timer (zget (pwm_steps p) (current_step p + 1) * pwm_multiplier p);;
    wr GPOC0 (zget (isr_masks p) (current_step p));;
    upd_pwm (fun p => set_isr (u32 (current_step p + 1)) (stepcount p) (isr_steps p) (isr_masks p) p)
  else
    upd_pwm (fun p => set_isr 0 0 (isr_steps p) (isr_masks p) p);;
    if pwm_mask p =? 0 then mret tt
    else
      load_timer (zget (pwm_steps p) 0 * pwm_multiplier p);;
      wr GPOS0 (pwm_mask p);;
      upd_pwm (fun p => set_isr 0 (pwm_steps_len p)
        (copy_words (isr_steps p) (take (Z.to_nat (pwm_steps_len p + 1)) (pwm_steps p)))
        (copy_words (isr_masks p) (take (Z.to_nat (pwm_steps_len p)) (pwm_steps_mask p))) p).

(** A call through a function pointer: the handler above or user code. *)
Definition core_call (f : Z) : C core unit := if f =? sym_pwm_timer_isr then pwm_timer_isr else emit (Call f).

Definition pwm_start_timer : C core unit :=
  timer1_disable;;
  timer1_attachInterrupt sym_pwm_timer_isr;;
  timer1_enable TIM_DIV1 TIM_EDGE TIM_SINGLE;;
  timer1_write 1.

Definition analogWrite (pin value : Z) : C core unit :=
  b ← shl1 pin;
  if value =? 0 then
    upd_pwm (fun p => set_mask (Z.ldiff (pwm_mask p) b) p);;
    prep_pwm_steps;;
    digitalWrite pin LOW;;
    m ← get_pwm pwm_mask;
    if m =? 0 then timer1_disable else mret tt
  else
    m ← get_pwm pwm_mask;
    (if negb (hasb m b) then
       upd_pwm (fun p => set_mask (Z.lor (pwm_mask p) b) p);;
       pinMode pin OUTPUT;;
       digitalWrite pin LOW
     else mret tt);;
    r ← get_pwm pwm_range;
    (if u32 (r + 1) =? 0 then undefined
     else upd_pwm (fun p => set_values (zset (pwm_values p) pin (u32 value mod u32 (r + 1))) p));;
    prep_pwm_steps;;
    if negb (hasb m b) && (m =? 0) then pwm_start_timer else mret tt.

Definition analogWriteFreq (freq : Z) : C core unit :=
  upd_pwm (fun p => set_freq_range freq (pwm_range p) p);; prep_pwm_steps.

Definition analogWriteRange (range : Z) : C core unit :=
  upd_pwm (fun p => set_freq_range (pwm_freq p) range p);; prep_pwm_steps.

End defs.

(** The PWM of [CorePwm]: the sort, and what one period of the interrupt handler
    does to the pins. *)

(** ** Insertion from the right *)

(** Into a descending list. *)
Fixpoint ins_desc (x : Z) (l : list Z) : list Z :=
  match l with
  | [] => [x]
  | y :: l => if x <? y then y :: ins_desc x l else x :: y :: l
  end.

Lemma ins_desc_perm x l : ins_desc x l ≡ₚ x :: l.
Proof. induction l as [|y l IH]; [done|]. cbn. destruct (x <? y); [|done]. rewrite IH. apply Permutation_swap. Qed.

Lemma ins_desc_sorted x l : StronglySorted Z.ge l -> StronglySorted Z.ge (ins_desc x l).
Proof.
  induction 1 as [|y l Hl IH Hy]; [repeat constructor|]. cbn. destruct (x <? y) eqn:E; bools.
  - constructor; [done|]. apply List.Forall_forall. intros z Hz. rewrite ins_desc_perm in Hz.
    destruct Hz as [<- | Hz]; [lia|]. rewrite List.Forall_forall in Hy. by apply Hy.
  - constructor; [by constructor|]. constructor; [lia|]. eapply list.Forall_impl; [exact Hy|]. cbn. lia.
Qed.

Lemma shift_down_ins l x tmp rest :
  shift_down (length l) tmp (reverse l ++ x :: rest) = reverse (ins_desc tmp l) ++ rest.
Proof.
  revert x rest. induction l as [|y l IH]; intros x rest; [done|]. cbn [length shift_down ins_desc].
  assert (forall z, reverse (y :: l) ++ z :: rest = reverse l ++ y :: z :: rest) as Hr
    by (intros z; by rewrite reverse_cons, <- app_assoc).
  rewrite Hr. rewrite list_lookup_total_middle by (by rewrite length_reverse).
  destruct (tmp <? y).
  - rewrite insert_app_r_alt by (rewrite length_reverse; lia). rewrite length_reverse.
    replace (S (length l) - length l)%nat with 1%nat by lia. cbn [insert list_insert].
    rewrite IH, reverse_cons, <- app_assoc. done.
  - rewrite insert_app_r_alt by (rewrite length_reverse; lia). rewrite length_reverse.
    replace (S (length l) - length l)%nat with 1%nat by lia. cbn [insert list_insert].
    by rewrite !reverse_cons, <- !app_assoc.
Qed.

(** Sorting by insertion: the elements from the left, the result descending. *)
Definition isort_desc (l : list Z) : list Z := foldl (fun d x => ins_desc x d) [] l.

Lemma isort_desc_snoc l x : isort_desc (l ++ [x]) = ins_desc x (isort_desc l).
Proof. unfold isort_desc. by rewrite foldl_app. Qed.

Lemma isort_desc_perm l : isort_desc l ≡ₚ l.
Proof.
  induction l as [|x l IH] using rev_ind; [done|]. rewrite isort_desc_snoc, ins_desc_perm, IH. apply Permutation_cons_append.
Qed.

Lemma isort_desc_sorted l : StronglySorted Z.ge (isort_desc l).
Proof. induction l as [|x l IH] using rev_ind; [constructor|]. rewrite isort_desc_snoc. by apply ins_desc_sorted. Qed.

Lemma sort_loop_prefix a n : (n < length a)%nat ->
  foldl (fun a i => shift_down i (a !!! i) a) a (seq 1 n) = reverse (isort_desc (take (S n) a)) ++ drop (S n) a.
Proof.
  induction n as [|n IH]; intros Hn.
  - cbn. destruct a; [cbn in Hn; lia|]. done.
  - rewrite seq_S, foldl_app, IH by lia. cbn [foldl]. rewrite Nat.add_1_l.
    destruct (drop (S n) a) as [|x rest] eqn:E.
    { apply (f_equal length) in E. rewrite length_drop in E. cbn in E. lia. }
    assert (length (isort_desc (take (S n) a)) = S n) as Hlen.
    { rewrite (Permutation_length (isort_desc_perm _)), length_take. lia. }
    rewrite list_lookup_total_middle by (by rewrite length_reverse).
    rewrite <- Hlen at 1. rewrite shift_down_ins.
    assert (take (S (S n)) a = take (S n) a ++ [x]) as ->.
    { apply take_S_r. rewrite <- (Nat.add_0_r (S n)), <- lookup_drop, E. done. }
    rewrite isort_desc_snoc. f_equal.
    replace (S (S n)) with (S n + 1)%nat by lia. by rewrite <- drop_drop, E.
Qed.

Lemma sort_loop_reverse a : (0 < length a)%nat -> sort_loop a (length a) = reverse (isort_desc a).
Proof.
  intros. unfold sort_loop. rewrite sort_loop_prefix by lia.
  replace (S (length a - 1)) with (length a) by lia. rewrite take_ge, drop_ge by lia. by rewrite app_nil_r.
Qed.

Lemma StronglySorted_reverse (l : list Z) : StronglySorted Z.ge l -> StronglySorted Z.le (reverse l).
Proof.
  induction 1 as [|x l Hl IH Hx]; [constructor|]. rewrite reverse_cons. apply StronglySorted_app_2; [|done|repeat constructor].
  intros y z Hy Hz. rewrite elem_of_reverse in Hy. apply list_elem_of_singleton in Hz as ->.
  rewrite List.Forall_forall in Hx. apply list_elem_of_In, Hx in Hy. lia.
Qed.

Lemma sort_loop_spec a : (0 < length a)%nat -> sort_loop a (length a) ≡ₚ a /\ StronglySorted Z.le (sort_loop a (length a)).
Proof.
  intros. rewrite sort_loop_reverse by done. split.
  - by rewrite reverse_Permutation, isort_desc_perm.
  - apply StronglySorted_reverse, isort_desc_sorted.
Qed.

(** ** Removing duplicates

  After [i] turns the first [bl] elements are the distinct ones of the first
  [i + 1], and the array is as it was from [i] on. *)
Definition distinct_prefix (a0 : list Z) (i : nat) (l : list Z * nat) : Prop :=
  let '(a, bl) := l in
  length a = length a0 /\ (1 <= bl <= S i)%nat /\ drop i a = drop i a0 /\
  StronglySorted Z.lt (take bl a) /\ (forall x, x ∈ take bl a <-> x ∈ take (S i) a0) /\
  a !!! (bl - 1)%nat = a0 !!! i.

Lemma StronglySorted_le_lookup (l : list Z) i j : StronglySorted Z.le l -> (i <= j < length l)%nat -> l !!! i <= l !!! j.
Proof.
  intros Hs. revert i j. induction Hs as [|x l Hl IH Hx]; intros i j Hij; [cbn in Hij; lia|].
  destruct j as [|j]; [replace i with O by lia; done|]. destruct i as [|i].
  - cbn. rewrite List.Forall_forall in Hx. apply Hx, list_elem_of_In.
    apply list_elem_of_lookup_total_2. cbn in Hij. lia.
  - cbn. apply IH. cbn in Hij. lia.
Qed.

Lemma lookup_total_drop_eq (a b : list Z) i j : drop i a = drop i b -> (i <= j)%nat -> a !!! j = b !!! j.
Proof.
  intros H Hj. rewrite !list_lookup_total_alt. f_equal. replace j with (i + (j - i))%nat by lia.
  by rewrite <- !lookup_drop, H.
Qed.

Lemma take_S_total (l : list Z) i : (i < length l)%nat -> take (S i) l = take i l ++ [l !!! i].
Proof. intros. apply take_S_r. by apply list_lookup_lookup_total_lt. Qed.

Lemma elem_of_take_total (l : list Z) i x : (i <= length l)%nat -> x ∈ take i l <-> exists j, (j < i)%nat /\ x = l !!! j.
Proof.
  intros Hi. rewrite list_elem_of_lookup_total. split.
  - intros (j & Hj & <-). rewrite length_take in Hj. exists j. split; [lia|].
    rewrite !list_lookup_total_alt, lookup_take, decide_True by lia. done.
  - intros (j & Hj & ->). exists j. rewrite length_take. split; [lia|].
    rewrite !list_lookup_total_alt, lookup_take, decide_True by lia. done.
Qed.

Lemma dedup_step a0 i l : StronglySorted Z.le a0 -> (S i < length a0)%nat ->
  distinct_prefix a0 i l -> distinct_prefix a0 (S i) (dedup_body l (S i)).
Proof.
  intros Hs Hi. destruct l as [a bl]. intros (Hl & Hbl & Hd & Hss & He & Hlast).
  assert (a !!! S i = a0 !!! S i) as H1 by (apply (lookup_total_drop_eq _ _ i); [done|lia]).
  assert (a !!! i = a0 !!! i) as H0 by (apply (lookup_total_drop_eq _ _ i); [done|lia]).
  assert (drop (S i) a = drop (S i) a0) as Hd' by (replace (S i) with (i + 1)%nat by lia; by rewrite <- !drop_drop, Hd).
  pose proof (StronglySorted_le_lookup a0 i (S i) Hs ltac:(lia)) as Hle.
  unfold dedup_body. replace (S i - 1)%nat with i by lia. rewrite H0, H1.
  destruct (a0 !!! S i =? a0 !!! i) eqn:E; bools; cbn [negb]; unfold distinct_prefix.
  - repeat split; try (done || lia).
    + intros Hx. rewrite take_S_total, elem_of_app by lia. left. by apply He.
    + rewrite take_S_total, elem_of_app, list_elem_of_singleton by lia. rewrite He, E. intros [Hx | ->]; [done|].
      apply elem_of_take_total; [lia|]. exists i. split; [lia|done].
  - assert (take (S bl) (<[bl := a0 !!! S i]> a) = take bl a ++ [a0 !!! S i]) as Ht.
    { rewrite take_S_total by (rewrite length_insert; lia). rewrite list_lookup_total_insert_eq by lia.
      by rewrite take_insert_ge by lia. }
    rewrite Ht, length_insert. repeat split; try lia.
    + destruct (decide (bl = S i)) as [-> | Hne]; [|rewrite drop_insert_lt by lia; done].
      rewrite list_insert_id by (rewrite <- H1; by apply list_lookup_lookup_total_lt; lia). done.
    + apply StronglySorted_app_2; [|done|repeat constructor]. intros x y Hx ->%list_elem_of_singleton.
      rewrite He, elem_of_take_total in Hx by lia. destruct Hx as (j & Hj & ->).
      pose proof (StronglySorted_le_lookup a0 j i Hs ltac:(lia)). lia.
    + rewrite !elem_of_app, list_elem_of_singleton, He. intros Hx. rewrite (take_S_total a0 (S i)), elem_of_app, list_elem_of_singleton by lia. done.
    + rewrite !elem_of_app, list_elem_of_singleton, He. rewrite (take_S_total a0 (S i)), elem_of_app, list_elem_of_singleton by lia. done.
    + replace (S bl - 1)%nat with bl by lia. by rewrite list_lookup_total_insert_eq by lia.
Qed.

Lemma pwm_sort_array_ok a : (0 < length a)%nat ->
  let '(r, bl) := pwm_sort_array a (length a) in
  length r = length a /\ (1 <= bl <= length a)%nat /\ StronglySorted Z.lt (take bl r) /\ (forall x, x ∈ take bl r <-> x ∈ a).
Proof.
  intros Ha. destruct (sort_loop_spec a Ha) as [Hp Hs]. unfold pwm_sort_array. set (a0 := sort_loop a (length a)) in *.
  assert (length a0 = length a) as Hl by (by rewrite Hp).
  assert (forall n, (n < length a)%nat -> distinct_prefix a0 n (foldl dedup_body (a0, 1%nat) (seq 1 n))) as H.
  { induction n as [|n IH]; intros Hn.
    - cbn. repeat split; try lia; try done. destruct a0; [cbn in *; lia|]. repeat constructor.
    - rewrite seq_S, foldl_app. cbn [foldl]. change (1 + n)%nat with (S n). apply dedup_step; [done|lia|]. apply IH. lia. }
  specialize (H (length a - 1)%nat ltac:(lia)). destruct (foldl dedup_body _ _) as [r bl].
  destruct H as (Hr & Hbl & _ & Hss & He & _). split; [lia|]. split; [lia|]. split; [done|].
  intros x. rewrite He, take_ge by lia. by rewrite Hp.
Qed.

(** ** Masks *)

Lemma pin_on_testbit m i : 0 <= i -> pin_on m i = Z.testbit m i.
Proof.
  intros Hi. unfold pin_on, hasb. rewrite Z.shiftl_1_l. destruct (Z.testbit m i) eqn:E.
  - apply negb_true_iff, Z.eqb_neq. intros H. apply (f_equal (fun z => Z.testbit z i)) in H.
    rewrite Z.land_spec, E, Z.pow2_bits_true, Z.bits_0 in H by lia. done.
  - apply negb_false_iff, Z.eqb_eq. apply Z.bits_inj'. intros n Hn. rewrite Z.land_spec, Z.bits_0.
    rewrite Z.pow2_bits_eqb by lia. destruct (Z.eqb_spec i n) as [<- | ?]; [by rewrite E|apply andb_false_r].
Qed.

Lemma foldl_mask_bits (P : Z -> bool) l m i : Forall (fun j => 0 <= j) l -> 0 <= i ->
  Z.testbit (foldl (fun mask j => if P j then Z.lor mask (Z.shiftl 1 j) else mask) m l) i =
    Z.testbit m i || (bool_decide (i ∈ l) && P i).
Proof.
  intros Hl Hi. revert m. induction Hl as [|j l Hj Hl IH]; intros m; [by rewrite orb_false_r|]. cbn [foldl].
  rewrite IH. rewrite (bool_decide_ext (i ∈ j :: l) (i = j \/ i ∈ l)) by apply elem_of_cons.
  destruct (P j) eqn:E; [rewrite Z.lor_spec, Z.shiftl_1_l, Z.pow2_bits_eqb by lia|];
    destruct (Z.eqb_spec j i) as [<- | Hne]; rewrite ?E.
  - rewrite (bool_decide_true (j = j \/ _)) by by left. rewrite !andb_true_r, orb_true_r. done.
  - rewrite orb_false_r. do 2 f_equal. apply bool_decide_ext. intuition congruence.
  - rewrite !andb_false_r. done.
  - do 2 f_equal. apply bool_decide_ext. intuition congruence.
Qed.

Lemma pwm_get_mask_bits m vs x i : 0 <= i < 32 ->
  Z.testbit (pwm_get_mask m vs x) i = Z.testbit m i && (zget vs i =? x).
Proof.
  intros Hi. unfold pwm_get_mask. rewrite (foldl_mask_bits (fun i => pin_on m i && (zget vs i =? x))); [|..|lia].
  - rewrite Z.bits_0, bool_decide_true by (apply elem_of_seqZ; lia). cbn. by rewrite pin_on_testbit by lia.
  - apply List.Forall_forall. intros j Hj%list_elem_of_In%elem_of_seqZ. lia.
Qed.

Lemma pwm_get_mask_range m vs x : 0 <= pwm_get_mask m vs x < 2 ^ 32.
Proof.
  unfold pwm_get_mask. assert (Forall (fun j => 0 <= j < 32) pwm_pins) as Hp.
  { apply List.Forall_forall. intros j Hj%list_elem_of_In%elem_of_seqZ. lia. }
  cut (forall l, Forall (fun j => 0 <= j < 32) l -> forall a, 0 <= a < 2 ^ 32 ->
    0 <= foldl (fun mask i => if pin_on m i && (zget vs i =? x) then Z.lor mask (Z.shiftl 1 i) else mask) a l < 2 ^ 32);
    [intros H; apply H; [done|lia]|]. clear Hp. induction 1 as [|j l Hj Hl IH]; intros a Ha; [done|].
  cbn [foldl]. apply IH. destruct (_ && _); [|done].
  assert (Z.lor a (Z.shiftl 1 j) = Z.lor a (Z.shiftl 1 j) mod 2 ^ 32) as ->; [|apply Z.mod_pos_bound; lia].
  apply Z.bits_inj'. intros n Hn. destruct (Z.ltb_spec n 32).
  - by rewrite Z.mod_pow2_bits_low.
  - rewrite Z.mod_pow2_bits_high, Z.lor_spec, Z.shiftl_1_l, Z.pow2_bits_false by lia.
    rewrite <- (Z.mod_small a (2 ^ 32)), Z.mod_pow2_bits_high by lia. done.
Qed.

(** ** Word arrays *)

Lemma zget_app_lt (l k : list Z) i : 0 <= i < zlen l -> zget (l ++ k) i = zget l i.
Proof. unfold zget, zlen. intros. apply lookup_total_app_l. lia. Qed.

Lemma zget_copy dst src k : 0 <= k < zlen src -> zget (copy_words dst src) k = zget src k.
Proof. apply zget_app_lt. Qed.

Lemma length_copy dst src : (length src <= length dst)%nat -> length (copy_words dst src) = length dst.
Proof. intros. unfold copy_words. rewrite length_app, length_drop. lia. Qed.

Lemma zget_take (l : list Z) n i : 0 <= i < Z.of_nat n -> zget (take n l) i = zget l i.
Proof. unfold zget. intros. rewrite !list_lookup_total_alt, lookup_take, decide_True by lia. done. Qed.

Lemma zget_fmap (f : Z -> Z) (l : list Z) i : 0 <= i < zlen l -> zget (f <$> l) i = f (zget l i).
Proof.
  unfold zget, zlen. intros. rewrite !list_lookup_total_alt, list_lookup_fmap.
  destruct (l !! Z.to_nat i) eqn:E; [done|]. apply lookup_ge_None in E. lia.
Qed.

Lemma zget_seqZ n i : 0 <= i < n -> zget (seqZ 0 n) i = i.
Proof. unfold zget. intros. rewrite lookup_total_seqZ_lt by lia. lia. Qed.

Lemma zget_step_diffs l k : 0 <= k < zlen l ->
  zget (step_diffs l) k = if k =? 0 then zget l 0 else u32 (zget l k - zget l (k - 1)).
Proof.
  intros. unfold step_diffs. rewrite zget_fmap by (unfold zlen in *; rewrite length_seqZ; lia). by rewrite zget_seqZ.
Qed.

Lemma elem_of_pin_values m vs x : x ∈ pin_values m vs <-> exists p, 0 <= p < 32 /\ Z.testbit m p = true /\ zget vs p <> 0 /\ x = zget vs p.
Proof.
  unfold pin_values. rewrite list_elem_of_fmap. split.
  - intros (p & -> & [H Hp]%list_elem_of_filter). apply elem_of_seqZ in Hp. apply andb_true_iff in H as [H1 H2].
    exists p. rewrite <- pin_on_testbit by lia. bools. split; [lia|done].
  - intros (p & Hp & Hb & Hv & ->). exists p. split; [done|]. apply list_elem_of_filter. split; [|apply elem_of_seqZ; lia].
    rewrite pin_on_testbit, Hb by lia. cbn. by apply negb_true_iff, Z.eqb_neq.
Qed.

(** ** What the pins do

  The output levels of pins 0 to 31 and the interval last loaded into timer 1, whose load
  register has 23 bits ([esp31b_peri.h]). *)
Record out := mkOut { level : Z; load : Z }.

Definition out_step (o : out) (e : event) : out :=
  match e with
  | Wr a v =>
      if a =? T1L then mkOut (level o) (v mod 2 ^ 23)
      else if a =? GPOS0 then mkOut (Z.lor (level o) v) (load o)
      else if a =? GPOC0 then mkOut (Z.ldiff (level o) v) (load o)
      else o
  | _ => o
  end.

Definition out_of (h : list event) : out := foldl out_step (mkOut 0 0) h.

Lemma out_of_snoc h e : out_of (h ++ [e]) = out_step (out_of h) e.
Proof. unfold out_of. by rewrite foldl_app. Qed.

(** How long pin [p] is high over intervals with their levels; how long they are. *)
Definition on_time (p : Z) (tl : list (Z * Z)) : Z := foldr (fun x t => (if Z.testbit x.2 p then x.1 else 0) + t) 0 tl.
Definition total_time (tl : list (Z * Z)) : Z := foldr (fun x t => x.1 + t) 0 tl.

Lemma on_time_cons p x tl : on_time p (x :: tl) = (if Z.testbit x.2 p then x.1 else 0) + on_time p tl.
Proof. done. Qed.
Lemma total_time_cons x tl : total_time (x :: tl) = x.1 + total_time tl.
Proof. done. Qed.

Section isr.
Context {dev : Device} {tool : Toolchain}.
Implicit Types s : core.

(** [n] timer interrupts: the interval each starts, with the levels during it. *)
Fixpoint isr_run (n : nat) : C core (list (Z * Z)) :=
  match n with
  | O => mret []
  | S n => pwm_timer_isr;; o ← gets (fun s => out_of (io s)); l ← isr_run n; mret ((load o, level o) :: l)
  end.

Lemma t1_small x : 0 <= x < 2 ^ 23 -> u32 x mod 2 ^ 23 = x.
Proof. intros. rewrite u32_small by lia. by apply Z.mod_small. Qed.

(** [s] differs from [s0] in its events, which leave the output [o]. *)
Definition at_out s0 o s : Prop := s = set_io (io s) s0 /\ out_of (io s) = o.

Lemma wp_wr_out s0 o s a v : at_out s0 o s -> wp (wr a v) (fun _ s' => at_out s0 (out_step o (Wr a (u32 v))) s') s.
Proof. intros [Hs Ho]. unfold wp, wr, emit, modify. split; cbn [io set_io]; [by rewrite Hs|]. by rewrite out_of_snoc, Ho. Qed.

Lemma wp_rd_out s0 o s a : at_out s0 o s -> wp (rd a) (fun _ s' => at_out s0 o s') s.
Proof. intros [Hs Ho]. unfold wp, rd. cbn. split; cbn [io set_io]; [by rewrite Hs|]. by rewrite out_of_snoc, Ho. Qed.

Lemma load_timer_ok s0 o s t : at_out s0 o s -> wp (load_timer t) (fun _ s' => at_out s0 (mkOut (level o) (u32 t mod 2 ^ 23)) s') s.
Proof.
  intros H. unfold load_timer, SET_PERI_REG_MASK.
  eapply wp_call; [eapply wp_wr_out; exact H|]. intros ? s1 H1.
  eapply wp_call; [eapply wp_wr_out; exact H1|]. intros ? s2 H2.
  eapply wp_call; [eapply wp_rd_out; exact H2|]. intros v s3 H3.
  eapply wp_mono; [eapply wp_wr_out; exact H3|]. intros ? s4 H4. exact H4.
Qed.

(** ** One period *)

(** The distinct values in ascending order, up to the range. *)
Variables (d : list Z) (m : Z) (vs : list Z) (mult : Z).
Hypothesis Hd : StronglySorted Z.lt d.
Hypothesis Hpos : forall x, x ∈ d -> 0 < x.
Hypothesis Hmult : 0 < mult.
Hypothesis Hfit : forall x, x ∈ d -> x * mult < 2 ^ 23.
Hypothesis Hvs : forall p, 0 <= p < 32 -> Z.testbit m p = true -> zget vs p ∈ d.
Hypothesis Hm : 0 < m < 2 ^ 32.
Hypothesis Hne : (0 < length d)%nat.

Definition nth_step (k : Z) : Z := if k =? 0 then zget d 0 else zget d k - zget d (k - 1).

(** What [prep_pwm_steps] leaves. *)
Definition prepared (p : pwm_t) : Prop :=
  pwm_mask p = m /\ pwm_multiplier p = mult /\ pwm_steps_len p = zlen d - 1 /\
  length (pwm_steps p) = 32%nat /\ length (pwm_steps_mask p) = 32%nat /\ zlen d <= 32 /\
  (forall k, 0 <= k < zlen d -> zget (pwm_steps p) k = nth_step k) /\
  (forall k, 0 <= k < zlen d - 1 -> zget (pwm_steps_mask p) k = pwm_get_mask m vs (zget d k)).

(** After interrupt [k] of a period. *)
Definition in_period (k lv0 : Z) s : Prop :=
  prepared (pwm s) /\ current_step (pwm s) = k /\ stepcount (pwm s) = zlen d - 1 /\
  (forall k, 0 <= k < zlen d - 1 -> zget (isr_masks (pwm s)) k = pwm_get_mask m vs (zget d k)) /\
  (forall p, 0 <= p < 32 -> Z.testbit (level (out_of (io s))) p =
     if Z.testbit m p then zget d k <=? zget vs p else Z.testbit lv0 p).

Lemma d_mono i j : 0 <= i -> i < j -> j < zlen d -> zget d i < zget d j.
Proof.
  clear Hne.
  unfold zget, zlen. intros Hi Hij Hj. assert (Z.to_nat i < Z.to_nat j < length d)%nat as H by lia.
  revert H. generalize (Z.to_nat i) as a, (Z.to_nat j) as b. clear - Hd. induction Hd as [|x l Hl IH Hx]; intros a b Hab; [cbn in Hab; lia|].
  destruct b as [|b]; [lia|]. destruct a as [|a]; cbn in *.
  - rewrite List.Forall_forall in Hx. apply Hx, list_elem_of_In, list_elem_of_lookup_total_2. lia.
  - apply IH; [done|lia].
Qed.

Lemma d_elem k : 0 <= k < zlen d -> zget d k ∈ d.
Proof. clear Hne. unfold zget, zlen. intros. apply list_elem_of_lookup_total_2. lia. Qed.

(** There is no value between consecutive ones. *)
Lemma d_next x k : x ∈ d -> 0 <= k -> k + 1 < zlen d -> zget d k < x -> zget d (k + 1) <= x.
Proof.
  clear Hne.
  intros Hx Hk Hk1 H. apply list_elem_of_lookup_total in Hx as (j & Hj & <-).
  assert (d !!! j = zget d (Z.of_nat j)) as E by (unfold zget; by rewrite Nat2Z.id). rewrite E in *.
  destruct (Z.lt_trichotomy (Z.of_nat j) (k + 1)) as [Hlt | [-> | Hgt]]; [|lia|].
  - destruct (Z.eq_dec (Z.of_nat j) k) as [Ek | ?]; [rewrite Ek in H; lia|].
    pose proof (d_mono (Z.of_nat j) k). lia.
  - pose proof (d_mono (k + 1) (Z.of_nat j)). unfold zlen in *. lia.
Qed.

Lemma steps_fit k : 0 <= k < zlen d -> 0 <= nth_step k * mult < 2 ^ 23.
Proof.
  intros Hk. unfold nth_step. pose proof (d_elem k Hk) as He. pose proof (Hfit _ He). pose proof (Hpos _ He).
  destruct (k =? 0) eqn:E; bools; [subst; nia|].
  pose proof (d_mono (k - 1) k). pose proof (d_elem (k - 1)) as He1. pose proof (Hpos _ (He1 ltac:(lia))). nia.
Qed.

Lemma isr_next k lv0 s : in_period k lv0 s -> 0 <= k < zlen d - 1 ->
  wp pwm_timer_isr (fun _ s' => in_period (k + 1) lv0 s' /\ load (out_of (io s')) = nth_step (k + 1) * mult) s.
Proof.
  intros ((Hp1 & Hp2 & Hp3 & Hp4 & Hp4' & Hp5 & Hp6 & Hp7) & Hc & Hn & Hms & Hlv) Hk. unfold pwm_timer_isr.
  apply wp_bind, wp_gets. cbv beta. rewrite Hc, Hn, (proj2 (Z.ltb_lt k (zlen d - 1))) by lia.
  eapply wp_call; [apply (load_timer_ok s (out_of (io s))); by destruct s|]. cbv beta. intros ? s1 H1.
  eapply wp_call; [eapply wp_wr_out; exact H1|]. cbv beta. intros ? s2 [Hs2 Ho2].
  apply wp_modify. rewrite Hp6, Hp2 in Ho2 by lia.
  pose proof (steps_fit (k + 1) ltac:(lia)) as Hfk. rewrite t1_small in Ho2 by lia.
  pose proof (pwm_get_mask_range m vs (zget d k)) as Hr. rewrite Hms, (u32_small (pwm_get_mask _ _ _)) in Ho2 by lia.
  assert (pwm s2 = pwm s) as Hpw by (by rewrite Hs2).
  unfold in_period, prepared. cbn [pwm io set_pwm set_isr]. rewrite Hpw, Ho2. cbn [out_step pwm_mask pwm_multiplier pwm_steps_len pwm_steps pwm_steps_mask current_step stepcount isr_masks].
  rewrite Hc, (u32_small (k + 1)) by lia. split; [|done].
  repeat split; try done; try lia.
  intros p Hp. change (GPOC0 =? T1L) with false. change (GPOC0 =? GPOS0) with false. change (GPOC0 =? GPOC0) with true.
  cbv iota. cbn [level]. rewrite Z.ldiff_spec, pwm_get_mask_bits, Hlv by lia.
  destruct (Z.testbit m p) eqn:Em; [|by rewrite andb_true_r]. cbn [andb].
  pose proof (d_next (zget vs p) k (Hvs p Hp Em) ltac:(lia) ltac:(lia)).
  pose proof (d_mono k (k + 1) ltac:(lia) ltac:(lia) ltac:(lia)).
  destruct (Z.leb_spec (zget d k) (zget vs p)), (Z.eqb_spec (zget vs p) (zget d k)), (Z.leb_spec (zget d (k + 1)) (zget vs p)); cbn; lia.
Qed.

Lemma isr_tail n : forall k lv0 s, in_period k lv0 s -> 0 <= k -> k + Z.of_nat n = zlen d - 1 ->
  wp (isr_run n) (fun tl s' => in_period (zlen d - 1) lv0 s' /\ total_time tl = (zget d (zlen d - 1) - zget d k) * mult /\
    forall p, 0 <= p < 32 -> on_time p tl =
      if Z.testbit m p then Z.max 0 (zget vs p - zget d k) * mult
      else if Z.testbit lv0 p then total_time tl else 0) s.
Proof.
  induction n as [|n IH]; intros k lv0 s Hin Hk Hkn.
  - replace k with (zlen d - 1) in * by lia. apply wp_ret. split; [done|]. cbn. split; [lia|].
    intros p Hp. destruct (Z.testbit m p) eqn:Em; [|by destruct (Z.testbit lv0 p)].
    enough (zget vs p <= zget d (zlen d - 1)) by lia.
    pose proof (Hvs p Hp Em) as Hx. apply list_elem_of_lookup_total in Hx as (j & Hj & <-).
    assert (d !!! j = zget d (Z.of_nat j)) as -> by (unfold zget; by rewrite Nat2Z.id).
    destruct (Z.eq_dec (Z.of_nat j) (zlen d - 1)) as [-> | ?]; [lia|].
    pose proof (d_mono (Z.of_nat j) (zlen d - 1)). unfold zlen in *. lia.
  - cbn [isr_run]. eapply wp_call; [apply (isr_next k lv0); [done|lia]|]. intros _ s1 [Hin1 Hl1].
    apply wp_bind, wp_gets. cbv beta. eapply wp_call; [apply (IH (k + 1) lv0); [done|lia|lia]|].
    intros tl s2 (Hin2 & Ht & Ho). cbv beta in *. apply wp_ret. split; [done|]. rewrite total_time_cons. cbn [fst snd]. rewrite Hl1.
    assert (nth_step (k + 1) = zget d (k + 1) - zget d k) as -> by (unfold nth_step; rewrite (proj2 (Z.eqb_neq (k + 1) 0)) by lia; do 2 f_equal; lia).
    split; [rewrite Ht; lia|]. intros p Hp. rewrite on_time_cons. cbn [fst snd]. rewrite (Ho p Hp).
    destruct Hin1 as (_ & _ & _ & _ & Hlv). rewrite (Hlv p Hp).
    destruct (Z.testbit m p) eqn:Em; [|by destruct (Z.testbit lv0 p)].
    pose proof (d_next (zget vs p) k (Hvs p Hp Em) ltac:(lia) ltac:(lia)).
    pose proof (d_mono k (k + 1) ltac:(lia) ltac:(lia) ltac:(lia)).
    destruct (Z.leb_spec (zget d (k + 1)) (zget vs p)); nia.
Qed.

(** The first interrupt of a period. *)
Lemma isr_first s : prepared (pwm s) -> stepcount (pwm s) <= current_step (pwm s) -> length (isr_masks (pwm s)) = 32%nat ->
  wp pwm_timer_isr (fun _ s' => in_period 0 (level (out_of (io s))) s' /\ load (out_of (io s')) = zget d 0 * mult) s.
Proof.
  intros (Hp1 & Hp2 & Hp3 & Hp4 & Hp4' & Hp5 & Hp6 & Hp7) Hc Hlm. unfold pwm_timer_isr.
  assert (0 < zlen d) as Hz by (unfold zlen; lia).
  apply wp_bind, wp_gets. cbv beta. rewrite (proj2 (Z.ltb_ge _ _)) by lia.
  apply wp_bind, wp_modify. rewrite Hp1, (proj2 (Z.eqb_neq m 0)) by lia.
  eapply wp_call;
    [match goal with |- wp _ _ ?st => apply (load_timer_ok st (out_of (io s))); split; reflexivity end|]. cbv beta. intros ? s1 H1.
  eapply wp_call; [eapply wp_wr_out; exact H1|]. cbv beta. intros ? s2 [Hs2 Ho2].
  apply wp_modify. rewrite Hp6, Hp2 in Ho2 by lia. change (nth_step 0) with (zget d 0) in Ho2.
  pose proof (steps_fit 0 ltac:(lia)) as Hf. change (nth_step 0) with (zget d 0) in Hf.
  rewrite t1_small, (u32_small m) in Ho2 by lia.
  assert (pwm s2 = set_isr 0 0 (isr_steps (pwm s)) (isr_masks (pwm s)) (pwm s)) as Hpw by (by rewrite Hs2).
  unfold in_period, prepared. cbn [pwm io set_pwm]. rewrite Hpw, Ho2.
  cbn [out_step set_isr pwm_mask pwm_multiplier pwm_steps_len pwm_steps pwm_steps_mask current_step stepcount isr_masks isr_steps].
  split; [|done]. split; [done|]. split; [done|]. split; [done|]. split.
  - intros k Hk. rewrite zget_copy, zget_take, Hp7 by (unfold zlen in *; rewrite ?length_take; lia). done.
  - intros p Hp. change (GPOS0 =? T1L) with false. change (GPOS0 =? GPOS0) with true. cbv iota. cbn [level].
    rewrite Z.lor_spec. destruct (Z.testbit m p) eqn:Em; [|by rewrite orb_false_r]. rewrite orb_true_r. symmetry. apply Z.leb_le.
    pose proof (Hvs p Hp Em) as Hx. apply list_elem_of_lookup_total in Hx as (j & Hj & <-).
    assert (d !!! j = zget d (Z.of_nat j)) as -> by (unfold zget; by rewrite Nat2Z.id).
    destruct (Z.eq_dec 0 (Z.of_nat j)) as [<- | ?]; [lia|]. pose proof (d_mono 0 (Z.of_nat j)). unfold zlen in *. lia.
Qed.

Lemma isr_period s : prepared (pwm s) -> stepcount (pwm s) <= current_step (pwm s) -> length (isr_masks (pwm s)) = 32%nat ->
  wp (isr_run (length d)) (fun tl s' => let lv0 := level (out_of (io s)) in
    in_period (zlen d - 1) lv0 s' /\ total_time tl = zget d (zlen d - 1) * mult /\
    forall p, 0 <= p < 32 -> on_time p tl =
      if Z.testbit m p then zget vs p * mult else if Z.testbit lv0 p then total_time tl else 0) s.
Proof.
  intros Hp Hc Hl. cbv zeta. replace (length d) with (S (length d - 1)) by lia. cbn [isr_run].
  eapply wp_call; [by apply isr_first|]. cbv beta. intros ? s1 [Hin1 Hl1].
  apply wp_bind, wp_gets. cbv beta. eapply wp_call; [apply (isr_tail (length d - 1) 0 _ _ Hin1); unfold zlen; lia|].
  cbv beta. intros tl s2 (Hin2 & Ht & Ho). apply wp_ret. split; [done|]. rewrite total_time_cons. cbn [fst snd]. rewrite Hl1.
  split; [rewrite Ht; lia|]. intros p Hpp. rewrite on_time_cons. cbn [fst snd]. rewrite (Ho p Hpp).
  destruct Hin1 as (_ & _ & _ & _ & Hlv). rewrite (Hlv p Hpp).
  destruct (Z.testbit m p) eqn:Em; [|by destruct (Z.testbit (level (out_of (io s))) p)].
  specialize (Hlv p Hpp). rewrite Em in Hlv.
  pose proof (Hvs p Hpp Em) as Hx. apply list_elem_of_lookup_total in Hx as (j & Hj & Hx).
  assert (d !!! j = zget d (Z.of_nat j)) as Ej by (unfold zget; by rewrite Nat2Z.id). rewrite Ej in Hx.
  assert (zget d 0 <= zget vs p).
  { rewrite <- Hx. destruct (Z.eq_dec 0 (Z.of_nat j)) as [<- | ?]; [lia|]. pose proof (d_mono 0 (Z.of_nat j)). unfold zlen in *. lia. }
  rewrite (proj2 (Z.leb_le _ _)) by done. nia.
Qed.
End isr.

(** ** Preparing the steps *)

Section prep.
Context {dev : Device} {tool : Toolchain}.
Implicit Types s : core.

(** The distinct values of the pins and the range, ascending. *)
Definition pwm_levels (p : pwm_t) : list Z :=
  let l := pin_values (pwm_mask p) (pwm_values p) ++ [pwm_range p] in
  let '(a, bl) := pwm_sort_array l (length l) in take bl a.

(** The pins have values from 1 to the range, at most 31 of them; the frequency is
    one the timer can produce: from 10 Hz, so that a whole period fits its 23 bits, up to one
    tick for every value. *)
Definition pwm_ok (p : pwm_t) : Prop :=
  0 < pwm_mask p < 2 ^ 32 /\ 0 < pwm_range p /\ 10 <= pwm_freq p /\ pwm_range p * pwm_freq p <= 80000000 /\
  (length (pin_values (pwm_mask p) (pwm_values p)) < 32)%nat /\
  (forall i, 0 <= i < 32 -> Z.testbit (pwm_mask p) i = true -> 1 <= zget (pwm_values p) i <= pwm_range p) /\
  length (pwm_steps p) = 32%nat /\ length (pwm_steps_mask p) = 32%nat /\ length (isr_masks p) = 32%nat.

Lemma pwm_levels_ok p : pwm_ok p ->
  let d := pwm_levels p in
  StronglySorted Z.lt d /\ (0 < length d <= 32)%nat /\ (forall x, x ∈ d -> 1 <= x <= pwm_range p) /\
  (forall i, 0 <= i < 32 -> Z.testbit (pwm_mask p) i = true -> zget (pwm_values p) i ∈ d) /\ pwm_range p ∈ d.
Proof.
  intros (Hm & Hr & Hf & Hrf & Hl & Hv & _). unfold pwm_levels. set (l := pin_values _ _ ++ _).
  assert (length l = S (length (pin_values (pwm_mask p) (pwm_values p)))) as Hlen by (unfold l; rewrite length_app; cbn; lia).
  pose proof (pwm_sort_array_ok l ltac:(lia)) as H. destruct (pwm_sort_array l (length l)) as [a bl].
  destruct H as (Ha & Hbl & Hs & He). cbv zeta. split; [done|]. split; [rewrite length_take; lia|]. split; [|split].
  - intros x Hx%He. unfold l in Hx. rewrite elem_of_app, list_elem_of_singleton, elem_of_pin_values in Hx.
    destruct Hx as [(i & Hi & Hb & _ & ->) | ->]; [by apply Hv|lia].
  - intros i Hi Hb. apply He. unfold l. rewrite elem_of_app, elem_of_pin_values. left. exists i.
    specialize (Hv i Hi Hb). split; [done|]. split; [done|]. split; [lia|done].
  - apply He. unfold l. rewrite elem_of_app, list_elem_of_singleton. by right.
Qed.

Lemma wp_ext_out s0 o s f args : at_out s0 o s -> wp (ext f args) (fun _ s' => at_out s0 o s') s.
Proof. intros [Hs Ho]. unfold wp, ext. cbn. split; cbn [io set_io]; [by rewrite Hs|]. by rewrite out_of_snoc, Ho. Qed.

Lemma ints_out s0 o s m : at_out s0 o s ->
  wp (ints_off m) (fun _ s' => at_out s0 o s') s /\ wp (ints_on m) (fun _ s' => at_out s0 o s') s.
Proof.
  intros H. unfold ints_off, ints_on.
  split; (eapply wp_call; [by apply (wp_ext_out s0 o)|]); cbv beta; intros ? s' H'; by apply wp_ret.
Qed.

Lemma prep_pwm_steps_ok s : pwm_ok (pwm s) ->
  let p := pwm s in let d := pwm_levels p in
  wp prep_pwm_steps (fun _ s' =>
    prepared d (pwm_mask p) (pwm_values p) (80000000 / (pwm_range p * pwm_freq p)) (pwm s') /\
    current_step (pwm s') = current_step p /\ stepcount (pwm s') = stepcount p /\ isr_masks (pwm s') = isr_masks p /\
    out_of (io s') = out_of (io s)) s.
Proof.
  intros Hok. pose proof (pwm_levels_ok _ Hok) as (Hs & Hl & He & Hv & HR). cbv zeta.
  destruct Hok as (Hm & Hr & Hf & Hrf & Hlen & Hvals & Hls & Hlm & Hli). revert Hs Hl He Hv HR.
  unfold prep_pwm_steps, pwm_levels. set (l := pin_values _ _ ++ _).
  assert (length l = S (length (pin_values (pwm_mask (pwm s)) (pwm_values (pwm s))))) as Hll by (unfold l; rewrite length_app; cbn; lia).
  pose proof (pwm_sort_array_ok l ltac:(lia)) as H.
  destruct (pwm_sort_array l (length l)) as [a bl] eqn:Esort. destruct H as (Ha & Hbl & _ & _).
  set (d := take bl a). intros Hs Hl He Hv HR.
  apply wp_bind, wp_gets. cbv beta. rewrite (proj2 (Z.eqb_neq (pwm_mask (pwm s)) 0)) by lia. fold l.
  destruct (Nat.ltb_spec 32 (length l)); [lia|]. rewrite Esort. fold d.
  assert (length d = bl) as Hdl by (unfold d; rewrite length_take; lia).
  eapply wp_call; [apply (ints_out s (out_of (io s))); by destruct s|]. cbv beta. intros ? s1 [Hs1 Ho1].
  rewrite (u32_small (_ * _)) by nia. rewrite (proj2 (Z.eqb_neq (pwm_range (pwm s) * pwm_freq (pwm s)) 0)) by nia.
  apply wp_bind, wp_modify.
  eapply wp_mono; [match goal with |- wp _ _ ?st => apply (ints_out st (out_of (io s))); split; [reflexivity|exact Ho1] end|].
  cbv beta. intros ? s2 [Hs2 Ho2]. rewrite Ho2, Hs2. cbn [pwm set_io set_pwm].
  assert (pwm s1 = pwm s) as -> by (by rewrite Hs1). unfold prepared.
  cbn [set_steps pwm_mask pwm_multiplier pwm_steps_len pwm_steps pwm_steps_mask current_step stepcount isr_masks].
  assert (length (step_diffs d) = bl) as Hsd by (unfold step_diffs, zlen; rewrite length_fmap, length_seqZ; lia).
  assert (forall k, 0 <= k < zlen d -> 1 <= zget d k <= pwm_range (pwm s)) as Hrange by (intros k Hk; apply He, d_elem; lia).
  split; [|done]. split; [done|]. split; [done|]. split; [unfold zlen; lia|].
  split; [rewrite length_copy; lia|]. split; [rewrite length_copy; rewrite ?length_fmap, ?length_take; lia|].
  split; [unfold zlen; lia|]. split.
  - intros k Hk. rewrite zget_copy by (unfold zlen in *; lia). rewrite zget_step_diffs by done. unfold nth_step.
    destruct (k =? 0) eqn:E; bools; [done|]. apply u32_small.
    pose proof (d_mono d Hs (k - 1) k ltac:(lia) ltac:(lia) ltac:(lia)).
    pose proof (Hrange k Hk). pose proof (Hrange (k - 1) ltac:(lia)).
    assert (pwm_range (pwm s) <= 80000000) by nia. lia.
  - intros k Hk. rewrite zget_copy by (unfold zlen in *; rewrite length_fmap, length_take; lia).
    rewrite zget_fmap by (unfold zlen in *; rewrite length_take; lia). rewrite zget_take by (unfold zlen in *; lia).
    unfold d. rewrite zget_take by (unfold zlen in *; lia). done.
Qed.

(** The steps, then one period of interrupts. *)
Lemma pwm_period_ok s : pwm_ok (pwm s) -> stepcount (pwm s) <= current_step (pwm s) ->
  let p := pwm s in let mult := 80000000 / (pwm_range p * pwm_freq p) in
  wp (prep_pwm_steps;; n ← get_pwm pwm_steps_len; isr_run (Z.to_nat (n + 1))) (fun tl s' =>
    total_time tl = pwm_range p * mult /\
    (forall i, 0 <= i < 32 -> on_time i tl =
      if Z.testbit (pwm_mask p) i then zget (pwm_values p) i * mult
      else if Z.testbit (level (out_of (io s))) i then total_time tl else 0) /\
    stepcount (pwm s') <= current_step (pwm s')) s.
Proof.
  intros Hok Hc. pose proof (pwm_levels_ok _ Hok) as (Hs & Hl & He & Hv & HR). cbv zeta.
  eapply wp_call; [by apply prep_pwm_steps_ok|]. cbv beta zeta. intros ? s1 (Hp & Hc1 & Hc2 & Hm1 & Ho1).
  apply wp_bind, wp_gets. cbv beta. set (p := pwm s) in *. set (d := pwm_levels p) in *. set (mult := 80000000 / _) in *.
  destruct Hok as (Hm & Hr & Hf & Hrf & Hlen & Hvals & Hls & Hlm & Hli). fold p in Hm, Hr, Hf, Hrf, Hli.
  assert (1 <= mult) by (apply Z.div_le_lower_bound; nia).
  assert (pwm_range p * mult <= 8000000).
  { unfold mult. pose proof (Z.mul_div_le 80000000 (pwm_range p * pwm_freq p) ltac:(nia)). nia. }
  assert (pwm_steps_len (pwm s1) = zlen d - 1) as Hn by apply Hp.
  replace (Z.to_nat (pwm_steps_len (pwm s1) + 1)) with (length d) by (unfold zlen in *; lia).
  assert (zget d (zlen d - 1) = pwm_range p) as Hlast.
  { apply list_elem_of_lookup_total in HR as (j & Hj & Hx).
    assert (d !!! j = zget d (Z.of_nat j)) as Ej by (unfold zget; by rewrite Nat2Z.id).
    pose proof (He _ (d_elem d (zlen d - 1) ltac:(unfold zlen; lia))).
    destruct (Z.eq_dec (Z.of_nat j) (zlen d - 1)) as [<- | ?]; [congruence|].
    pose proof (d_mono d Hs (Z.of_nat j) (zlen d - 1) ltac:(lia)). unfold zlen in *. lia. }
  eapply wp_mono; [eapply (isr_period d (pwm_mask p) (pwm_values p) mult Hs)|].
  - intros x Hx. specialize (He x Hx). lia.
  - lia.
  - intros x Hx. specialize (He x Hx). nia.
  - exact Hv.
  - done.
  - lia.
  - exact Hp.
  - by rewrite Hc1, Hc2.
  - by rewrite Hm1.
  - cbv zeta beta. intros tl s2 ((_ & Hcs & Hsc & _) & Ht & Ho). rewrite Ht, Hlast. split; [done|]. split; [|lia].
    intros i Hi. rewrite (Ho i Hi), Ho1, Ht, Hlast. done.
Qed.
End prep.
