(* ===== verification/CorePwmTheorems.v ===== *)
(** Properties of [analogWrite]'s software PWM ([core_esp31b_wiring_pwm.c]), with
    runs of the driver. *)
From S2P Require Import Prelude CSem CoreMmio CoreGpio CoreTimer CorePwm.
From Stdlib Require Import List.
From stdpp Require Import base list numbers option.

Open Scope Z_scope.

Section theorems.
Context {dev : Device} {tool : Toolchain}.

(** C24: software PWM gives every pin its share.  For at most 31 of the pins 0 to 31, with
    values between 1 and the range, and a frequency from 10 Hz (below, an interval may
    exceed the 23 bits of the timer's load register) to 80 MHz over the range,
    [prep_pwm_steps] and then one timer interrupt per step make a period of range times the
    multiplier timer ticks, in which each PWM pin is high for exactly its value times the
    multiplier and every other pin keeps its level; the next interrupt starts the next
    period. *)
Theorem pwm_period s : pwm_ok (pwm s) -> stepcount (pwm s) <= current_step (pwm s) ->
  let p := pwm s in let mult := 80000000 / (pwm_range p * pwm_freq p) in
  wp (prep_pwm_steps;; n ← get_pwm pwm_steps_len; isr_run (Z.to_nat (n + 1))) (fun tl s' =>
    total_time tl = pwm_range p * mult /\
    (forall i, 0 <= i < 32 -> on_time i tl =
      if Z.testbit (pwm_mask p) i then zget (pwm_values p) i * mult
      else if Z.testbit (level (out_of (io s))) i then total_time tl else 0) /\
    stepcount (pwm s') <= current_step (pwm s')) s.
Proof. apply pwm_period_ok. Qed.
End theorems.

(** ** Runs *)

#[export] Instance demo_dev : Device := { dev_rd := fun _ _ => 0; dev_ext := fun _ _ _ => 0 }.
#[export] Instance demo_tool : Toolchain := {
  sym_onPinInterrupt := 1; sym_timer0_isr_handler := 2; sym_timer1_isr_handler := 3; sym_pwm_timer_isr := 4;
  sym_i2s_slc_isr := 5; sym_i2s_slc_items := 4096; sym_uart0_write_char := 6; sym_uart1_write_char := 7;
  sym_uart_ignore_char := 8; builtin_ctz_0 := -1
}.

Definition run_core {A} (m : C core A) (s : core) : core := match m s with Done (_, s') => s' | _ => s end.

(** Pins 2 and 5 share a value, pin 4 has the full range. *)
Definition demo_pwm : core := Eval vm_compute in
  set_io [] (run_core (analogWrite 2 300;; analogWrite 5 300;; analogWrite 4 1024;; analogWrite 13 700) core_init).

Definition pwm_ok_check (p : pwm_t) : bool :=
  (0 <? pwm_mask p) && (pwm_mask p <? 2 ^ 32) && (0 <? pwm_range p) && (10 <=? pwm_freq p)
  && (pwm_range p * pwm_freq p <=? 80000000) && (length (pin_values (pwm_mask p) (pwm_values p)) <? 32)%nat
  && forallb (fun i => negb (Z.testbit (pwm_mask p) i)
       || ((1 <=? zget (pwm_values p) i) && (zget (pwm_values p) i <=? pwm_range p))) (seqZ 0 32)
  && (length (pwm_steps p) =? 32)%nat && (length (pwm_steps_mask p) =? 32)%nat && (length (isr_masks p) =? 32)%nat.

Lemma pwm_ok_check_ok p : pwm_ok_check p = true -> pwm_ok p.
Proof.
  unfold pwm_ok_check. intros H. rewrite !andb_true_iff in H. destruct H as (((((((((H1 & H2) & H3) & H4) & H5) & H6) & H7) & H8) & H9) & H10).
  apply Nat.ltb_lt in H6. apply Nat.eqb_eq in H8, H9, H10. bools. repeat split; try done.
  all: rewrite forallb_forall in H7; assert (In i (seqZ 0 32)) as Hi by (apply list_elem_of_In, elem_of_seqZ; lia);
    specialize (H7 i Hi); rewrite H0 in H7; cbn in H7; bools; lia.
Qed.

Lemma pwm_period_witness :
  wp (prep_pwm_steps;; n ← get_pwm pwm_steps_len; isr_run (Z.to_nat (n + 1))) (fun tl _ =>
    total_time tl = 1024 * 78 /\ on_time 2 tl = 300 * 78 /\ on_time 4 tl = 1024 * 78 /\ on_time 3 tl = 0) demo_pwm.
Proof.
  eapply wp_mono; [apply (pwm_period demo_pwm)|].
  - apply pwm_ok_check_ok. vm_compute. reflexivity.
  - vm_compute. discriminate.
  - intros tl s' (Ht & Ho & _).
    rewrite (Ho 2), (Ho 4), (Ho 3), Ht by lia. vm_compute. repeat split.
Defined.

(** The duty cycles (percent) of pins 2 and 5 after [m], over one period. *)
Definition duty (m : C core unit) : Z * Z :=
  match (m;; n ← get_pwm pwm_steps_len; isr_run (Z.to_nat (n + 1))) core_init with
  | Done (tl, _) => (on_time 2 tl * 100 / total_time tl, on_time 5 tl * 100 / total_time tl)
  | _ => (-1, -1)
  end.

(** Below 10 Hz: the one interval of 80000000 / 3 ticks loses its upper bits, and the
    period is less than a tenth of what it should be. *)
Example slow_period :
  match (analogWriteFreq 3;; analogWrite 4 1024;; n ← get_pwm pwm_steps_len; isr_run (Z.to_nat (n + 1))) core_init with
  | Done (tl, s) => total_time tl = 1024 * pwm_multiplier (pwm s) - 3 * 2 ^ 23 /\ pwm_multiplier (pwm s) = 26041
  | _ => False
  end.
Proof. vm_compute. auto. Qed.

(** Outside the values the theorem covers: a value one above the range becomes 0,
    but the pin stays in the mask and is never cleared; after the range is lowered
    below a value, the period is as long as that value, which stays high. *)
Example duty_cases :
  duty (analogWrite 2 512;; analogWrite 5 256) = (50, 25) /\
  duty (analogWrite 2 1025;; analogWrite 5 256) = (100, 25) /\
  duty (analogWrite 2 1000;; analogWrite 5 100;; analogWriteRange 200) = (100, 10).
Proof. vm_compute. repeat split. Qed.
