(* ===== verification/CoreI2s.v ===== *)
(** I2S output ([core_esp31b_i2s.c]): eight buffers in a ring of DMA descriptors; a
    queue of the buffers the DMA has played, from which the writer takes them. *)
From S2P Require Import Prelude CSem CoreMmio CoreGpio.
From stdpp Require Import base list numbers option gmap.

Open Scope Z_scope.

Definition SLC_BUF_CNT : Z := 8.
Definition SLC_BUF_LEN : Z := 64.
Definition ETS_SLC_SOURCE : Z := 1.
Definition ETS_SLC_INUM : Z := 1.
Definition PRO_INTR_MAP_REG_B : Z := 0x3ff00074.
Definition PRODPORT_INTR_MAP_9 : Z := 0x1F.
Definition PRODPORT_INTR_MAP_9_S : Z := 16.
Definition I2SO_DATA_IDX : Z := 23.
Definition I2SO_BCK_IDX : Z := 24.
Definition I2SO_WS_IDX : Z := 25.

Definition I2SBASEFREQ : Z := 16000000.
Definition I2SC : Z := ESP31B_REG 0xF008.
Definition I2SIS : Z := ESP31B_REG 0xF010.
Definition I2SIE : Z := ESP31B_REG 0xF014.
Definition I2SIC : Z := ESP31B_REG 0xF018.
Definition I2SFC : Z := ESP31B_REG 0xF020.
Definition I2SCC : Z := ESP31B_REG 0xF02C.
Definition SLCRXL : Z := ESP31B_REG 0xF030.
Definition SLCTXL : Z := ESP31B_REG 0xF034.
Definition SLCRXEDA : Z := ESP31B_REG 0xF038.
Definition SLCC0 : Z := ESP31B_REG 0xF060.
Definition I2SBDM : Z := 0x3F.
Definition I2SBD : Z := 22.
Definition I2SCDM : Z := 0x3F.
Definition I2SCD : Z := 16.
Definition I2SBMM : Z := 0xF.
Definition I2SBM : Z := 12.
Definition I2SRMS : Z := BIT 11.
Definition I2STXS : Z := BIT 8.
Definition I2SMR : Z := BIT 7.
Definition I2SRF : Z := BIT 6.
Definition I2SRSM : Z := BIT 5.
Definition I2STSM : Z := BIT 4.
Definition I2SRST : Z := 0xF.
Definition I2SITE : Z := BIT 12.
Definition I2SIFSE : Z := BIT 9.
Definition I2SRXFMM : Z := 0x7.
Definition I2SRXFM : Z := 16.
Definition I2STXFMM : Z := 0x7.
Definition I2STXFM : Z := 13.
Definition I2SDE : Z := BIT 12.
Definition I2SRXCMM : Z := 0x3.
Definition I2SRXCM : Z := 3.
Definition I2STXCMM : Z := 0x7.
Definition I2STXCM : Z := 0.
Definition SLCRXLS : Z := BIT 29.
Definition SLCRXLAM : Z := 0xFFFF.
Definition SLCRXLA : Z := 0.
Definition SLCTXLS : Z := BIT 29.
Definition SLCTXLAM : Z := 0xFFFFF.
Definition SLCTXLA : Z := 0.
Definition SLCCO : Z := BIT 12.
Definition SLCTEM : Z := BIT 8.
Definition SLCRXLR : Z := BIT 1.
Definition SLCTXLR : Z := BIT 0.

(** Whether the DMA's interrupt comes at a point of the writer's waiting loop. *)
Class SlcIrq : Type := slc_irq : list event -> bool.

(** ** Statics *)

Definition get_i2s {A} (f : i2s_t -> A) : C core A := gets (fun s => f (i2s s)).
Definition upd_i2s (f : i2s_t -> i2s_t) : C core unit := modify (fun s => set_i2s (f (i2s s)) s).

Definition set_queue (q : list Z) (n : Z) (t : i2s_t) : i2s_t :=
  mkI2s q n (i2s_slc_buf_pntr t) (i2s_slc_items t) (i2s_curr_slc_buf t) (i2s_curr_slc_buf_pos t) (i2s_heap t)
    (i2s_sample_rate t) (ws_pin t) (data_pin t) (bck_pin t).
Definition set_cur (b p : Z) (t : i2s_t) : i2s_t :=
  mkI2s (i2s_slc_queue t) (i2s_slc_queue_len t) (i2s_slc_buf_pntr t) (i2s_slc_items t) b p (i2s_heap t)
    (i2s_sample_rate t) (ws_pin t) (data_pin t) (bck_pin t).
Definition set_heap (h : gmap Z (list Z)) (t : i2s_t) : i2s_t :=
  mkI2s (i2s_slc_queue t) (i2s_slc_queue_len t) (i2s_slc_buf_pntr t) (i2s_slc_items t) (i2s_curr_slc_buf t) (i2s_curr_slc_buf_pos t) h
    (i2s_sample_rate t) (ws_pin t) (data_pin t) (bck_pin t).
Definition set_ring (b : list Z) (l : list slc_queue_item) (h : gmap Z (list Z)) (t : i2s_t) : i2s_t :=
  mkI2s (i2s_slc_queue t) (i2s_slc_queue_len t) b l (i2s_curr_slc_buf t) (i2s_curr_slc_buf_pos t) h
    (i2s_sample_rate t) (ws_pin t) (data_pin t) (bck_pin t).
Definition set_rate (r : Z) (t : i2s_t) : i2s_t :=
  mkI2s (i2s_slc_queue t) (i2s_slc_queue_len t) (i2s_slc_buf_pntr t) (i2s_slc_items t) (i2s_curr_slc_buf t) (i2s_curr_slc_buf_pos t)
    (i2s_heap t) r (ws_pin t) (data_pin t) (bck_pin t).
Definition set_pins (w d b : Z) (t : i2s_t) : i2s_t :=
  mkI2s (i2s_slc_queue t) (i2s_slc_queue_len t) (i2s_slc_buf_pntr t) (i2s_slc_items t) (i2s_curr_slc_buf t) (i2s_curr_slc_buf_pos t)
    (i2s_heap t) (i2s_sample_rate t) w d b.

Section defs.
Context {dev : Device} {tool : Toolchain} {irq : SlcIrq}.

Definition ETS_SLC_INTR_DISABLE : C core unit := ints_off (BIT ETS_SLC_INUM).
Definition ETS_SLC_INTR_ENABLE : C core unit := ints_on (BIT ETS_SLC_INUM).
Definition ETS_SLC_INTR_ATTACH (fn arg : Z) : C core unit :=
  SET_PERI_REG_BITS PRO_INTR_MAP_REG_B PRODPORT_INTR_MAP_9 1 PRODPORT_INTR_MAP_9_S;;
  intrMatrixAttach ETS_SLC_SOURCE ETS_SLC_INUM;;
  _ ← ext xt_set_interrupt_handler [ETS_SLC_INUM; fn; arg]; mret tt.

(** Descriptors are 12 bytes. *)
Definition item_addr (x : Z) : Z := u32 (sym_i2s_slc_items + x * 12).

Definition i2s_is_full : C core bool :=
  get_i2s (fun t => ((i2s_curr_slc_buf_pos t =? SLC_BUF_LEN) || (i2s_curr_slc_buf t =? 0)) && (i2s_slc_queue_len t =? 0)).
Definition i2s_is_empty : C core bool := get_i2s (fun t => SLC_BUF_CNT - 1 <=? i2s_slc_queue_len t).

(** The queue has 7 elements; the length is a [uint8_t]. *)
Definition i2s_slc_queue_next_item : C core Z :=
  q ← get_i2s i2s_slc_queue;
  len ← get_i2s i2s_slc_queue_len;
  let len := u8 (len - 1) in
  if 7 <=? len then undefined
  else
    upd_i2s (set_queue (foldl (fun q i => zset q i (zget q (i + 1))) q (seqZ 0 len)) len);;
    mret (zget q 0).

(** The item at an address. *)
Definition item_at (a : Z) : C core slc_queue_item :=
  l ← get_i2s i2s_slc_items;
  let off := u32 (a - u32 sym_i2s_slc_items) in
  if (off mod 12 =? 0) && (off / 12 <? SLC_BUF_CNT) then
    match l !! Z.to_nat (off / 12) with Some x => mret x | None => undefined end
  else undefined.

(** [memset(p, 0, SLC_BUF_LEN * 4)]. *)
Definition clear_buf (p : Z) : C core unit :=
  h ← get_i2s i2s_heap;
  match h !! p with
  | Some b => if (length b =? 64)%nat then upd_i2s (set_heap (<[p := replicate 64 0]> h)) else undefined
  | None => undefined
  end.

(** [i2s_slc_queue[i2s_slc_queue_len++] = p]. *)
Definition queue_push (p : Z) : C core unit :=
  q ← get_i2s i2s_slc_queue;
  len ← get_i2s i2s_slc_queue_len;
  if 7 <=? len then undefined else upd_i2s (set_queue (zset q len p) (u8 (len + 1))).

Definition i2s_slc_isr : C core unit :=
  slc_intr_status ← rd I2SIS;
  wr I2SIC 0xFFFFFFFF;;
  if hasb slc_intr_status I2SITE then
    ETS_SLC_INTR_DISABLE;;
    a ← rd SLCRXEDA;
    finished_item ← item_at a;
    clear_buf (it_buf_ptr finished_item);;
    len ← get_i2s i2s_slc_queue_len;
    (if SLC_BUF_CNT - 1 <=? len then _ ← i2s_slc_queue_next_item; mret tt else mret tt);;
    queue_push (it_buf_ptr finished_item);;
    ETS_SLC_INTR_ENABLE
  else mret tt.

(** [malloc] and zeroing of buffer [x], and its descriptor. *)
Definition init_item (x : Z) : C core unit :=
  p ← ext c_malloc [SLC_BUF_LEN * 4];
  if p =? 0 then undefined
  else
    upd_i2s (fun t => set_ring (zset (i2s_slc_buf_pntr t) x p)
      (zset (i2s_slc_items t) x
         (mkItem (SLC_BUF_LEN * 4) (SLC_BUF_LEN * 4) 0 0 1 1 p (item_addr (if x <? SLC_BUF_CNT - 1 then x + 1 else 0))))
      (<[p := replicate 64 0]> (i2s_heap t)) t).

Definition i2s_slc_begin : C core unit :=
  upd_i2s (fun t => set_queue (i2s_slc_queue t) 0 t);;
  foldr (fun x k => init_item x;; k) (mret tt) (seqZ 0 SLC_BUF_CNT);;
  ETS_SLC_INTR_DISABLE;;
  SET_PERI_REG_MASK SLCC0 (Z.lor SLCRXLR SLCTXLR);;
  CLEAR_PERI_REG_MASK SLCC0 (Z.lor SLCRXLR SLCTXLR);;
  SET_PERI_REG_MASK SLCC0 (Z.lor SLCCO SLCTEM);;
  wr I2SIC 0xFFFFFFFF;;
  CLEAR_PERI_REG_MASK SLCTXL (Z.shiftl SLCTXLAM SLCTXLA);;
  SET_PERI_REG_MASK SLCTXL (Z.shiftl (item_addr 1) SLCTXLA);;
  CLEAR_PERI_REG_MASK SLCRXL (Z.shiftl SLCRXLAM SLCRXLA);;
  SET_PERI_REG_MASK SLCRXL (Z.shiftl (item_addr 0) SLCRXLA);;
  ETS_SLC_INTR_ATTACH sym_i2s_slc_isr 0;;
  wr I2SIE (Z.lor I2SITE I2SIFSE);;
  ETS_SLC_INTR_ENABLE;;
  SET_PERI_REG_MASK SLCTXL SLCTXLS;;
  SET_PERI_REG_MASK SLCRXL SLCRXLS.

Definition i2s_slc_end : C core unit :=
  ETS_SLC_INTR_DISABLE;;
  wr I2SIC 0xFFFFFFFF;;
  wr I2SIE 0;;
  CLEAR_PERI_REG_MASK SLCTXL (Z.shiftl SLCTXLAM SLCTXLA);;
  CLEAR_PERI_REG_MASK SLCRXL (Z.shiftl SLCRXLAM SLCRXLA).

(** ** Writing *)

Definition no_room (t : i2s_t) : bool := (i2s_curr_slc_buf_pos t =? SLC_BUF_LEN) || (i2s_curr_slc_buf t =? 0).

Definition take_buf : C core unit :=
  ETS_SLC_INTR_DISABLE;;
  b ← i2s_slc_queue_next_item;
  upd_i2s (fun t => set_cur b (i2s_curr_slc_buf_pos t) t);;
  ETS_SLC_INTR_ENABLE;;
  upd_i2s (fun t => set_cur (i2s_curr_slc_buf t) 0 t).

(** [i2s_curr_slc_buf[i2s_curr_slc_buf_pos++] = sample]. *)
Definition put_sample (sample : Z) : C core unit :=
  t ← get_i2s (fun t => t);
  match i2s_heap t !! i2s_curr_slc_buf t with
  | Some b =>
      let p := i2s_curr_slc_buf_pos t in
      if (0 <=? p) && (p <? zlen b) then
        upd_i2s (fun t => set_cur (i2s_curr_slc_buf t) (p + 1) (set_heap (<[i2s_curr_slc_buf t := zset b p sample]> (i2s_heap t)) t))
      else undefined
  | None => undefined
  end.

(** [while(1)]: the interrupt may come while the watchdog is fed. *)
Definition wait_buf (fuel : nat) : C core unit :=
  _ ← loop fuel (fun _ : unit =>
        len ← get_i2s i2s_slc_queue_len;
        if 0 <? len then mret (Exit (R := Z) tt)
        else
          _ ← ext ets_wdt_disable [];
          _ ← ext ets_wdt_enable [];
          h ← gets io;
          (if slc_irq h then i2s_slc_isr else mret tt);;
          mret (Next tt)) tt;
  mret tt.

Definition i2s_write_sample (fuel : nat) (sample : Z) : C core bool :=
  b ← get_i2s no_room;
  (if (b : bool) then
     len ← get_i2s i2s_slc_queue_len;
     (if len =? 0 then wait_buf fuel else mret tt);;
     take_buf
   else mret tt);;
  put_sample sample;;
  mret true.

Definition i2s_write_sample_nb (sample : Z) : C core bool :=
  b ← get_i2s no_room;
  len ← get_i2s i2s_slc_queue_len;
  if (b : bool) && (len =? 0) then mret false
  else
    (if (b : bool) then take_buf else mret tt);;
    put_sample sample;;
    mret true.

Definition i2s_write_lr (fuel : nat) (left right : Z) : C core bool :=
  i2s_write_sample fuel (Z.lor (Z.shiftl (Z.land right 0xFFFF) 16) (Z.land left 0xFFFF)).

(** ** Set-up *)

Definition i2s_set_rate (rate : Z) : C core unit :=
  r ← get_i2s i2s_sample_rate;
  if rate =? r then mret tt
  else
    upd_i2s (set_rate rate);;
    if u32 (rate * 32) =? 0 then undefined
    else
      let i2s_clock_div := Z.land (I2SBASEFREQ / u32 (rate * 32)) I2SCDM in
      if u32 (rate * i2s_clock_div * 2) =? 0 then undefined
      else
        let i2s_bck_div := u8 (Z.land (I2SBASEFREQ / u32 (rate * i2s_clock_div * 2)) I2SBDM) in
        CLEAR_PERI_REG_MASK I2SC (Z.lor I2STSM (Z.lor (Z.shiftl I2SBMM I2SBM) (Z.lor (Z.shiftl I2SBDM I2SBD) (Z.shiftl I2SCDM I2SCD))));;
        SET_PERI_REG_MASK I2SC (Z.lor I2SRF (Z.lor I2SMR (Z.lor I2SRSM (Z.lor I2SRMS
          (Z.lor (u32 (Z.shiftl (i2s_bck_div - 1) I2SBD)) (u32 (Z.shiftl (i2s_clock_div - 1) I2SCD))))))).

(** A pin as output of signal [idx]. *)
Definition i2s_pin (pin idx : Z) : C core unit :=
  pinMode pin OUTPUT;; pinMode pin FUNCTION_0;; pinMatrixOutAttach pin idx.

Definition i2s_begin (ws data bck : Z) : C core unit :=
  upd_i2s (set_rate 0);;
  i2s_slc_begin;;
  upd_i2s (set_pins ws data bck);;
  i2s_pin ws I2SO_WS_IDX;;
  i2s_pin data I2SO_DATA_IDX;;
  i2s_pin bck I2SO_BCK_IDX;;
  wr I2SIC 0x3F;;
  wr I2SIE 0;;
  CLEAR_PERI_REG_MASK I2SC I2SRST;;
  SET_PERI_REG_MASK I2SC I2SRST;;
  CLEAR_PERI_REG_MASK I2SC I2SRST;;
  CLEAR_PERI_REG_MASK I2SFC (Z.lor I2SDE (Z.lor (Z.shiftl I2STXFMM I2STXFM) (Z.shiftl I2SRXFMM I2SRXFM)));;
  SET_PERI_REG_MASK I2SFC I2SDE;;
  CLEAR_PERI_REG_MASK I2SCC (Z.lor (Z.shiftl I2STXCMM I2STXCM) (Z.shiftl I2SRXCMM I2SRXCM));;
  i2s_set_rate 44100;;
  SET_PERI_REG_MASK I2SC I2STXS.

Definition i2s_end : C core unit :=
  i2s_slc_end;;
  t ← get_i2s (fun t => t);
  pinMatrixOutDetach (ws_pin t);; pinMode (ws_pin t) INPUT;;
  pinMatrixOutDetach (data_pin t);; pinMode (data_pin t) INPUT;;
  pinMatrixOutDetach (bck_pin t);; pinMode (bck_pin t) INPUT.

End defs.

(** The I2S driver of [CoreI2s]: invariants of the ring, the queue and the buffers. *)

(** ** The DMA *)

(** The end-of-buffer descriptors read, the results of [malloc]. *)
Definition eof_count (h : list event) : Z :=
  zlen (omap (fun e => match e with Rd a v => if a =? SLCRXEDA then Some v else None | _ => None end) h).
Definition mallocs (h : list event) : list Z :=
  omap (fun e => match e with Ext c_malloc _ r => Some r | _ => None end) h.

(** The DMA plays the descriptors in the order of the ring and reports each at its
    end; the first eight calls of [malloc] succeed, each with a block of its own. *)
Class SlcHardware {dev : Device} {tool : Toolchain} : Prop := {
  slc_status h : hasb (u32 (dev_rd h I2SIS)) I2SITE = true;
  slc_ring h : u32 (dev_rd h SLCRXEDA) = item_addr (eof_count h mod 8);
  slc_malloc h l : zlen (mallocs h) <= 7 -> u32 (dev_ext h c_malloc l) <> 0 /\ u32 (dev_ext h c_malloc l) ∉ mallocs h
}.

(** ** Streams in blocks of 64 words *)

(** Words [64 n] to [64 n + 63], zeros past the end. *)
Definition chunk (l : list Z) (n : Z) : list Z := (fun i => default 0 (l !! Z.to_nat i)) <$> seqZ (64 * n) 64.

Definition silence : list Z := replicate 512 0.

Lemma length_chunk l n : length (chunk l n) = 64%nat.
Proof. unfold chunk. by rewrite length_fmap, length_seqZ. Qed.

Lemma lookup_chunk l n i : 0 <= n -> 0 <= i < 64 -> chunk l n !! Z.to_nat i = Some (default 0 (l !! Z.to_nat (64 * n + i))).
Proof.
  intros Hn Hi. unfold chunk. rewrite list_lookup_fmap, (lookup_seqZ_lt _ _ (Z.to_nat i)) by lia. cbn. do 3 f_equal. lia.
Qed.

Lemma chunk_ext l k n : 0 <= n -> (forall i, 64 * n <= i < 64 * n + 64 -> default 0 (l !! Z.to_nat i) = default 0 (k !! Z.to_nat i)) ->
  chunk l n = chunk k n.
Proof. intros Hn H. unfold chunk. apply list_fmap_ext. intros j i Hi%lookup_seqZ. apply H. lia. Qed.

Lemma lookup_ge_zero (l : list Z) i : zlen l <= i -> default 0 (l !! Z.to_nat i) = 0.
Proof. unfold zlen. intros H. by rewrite lookup_ge_None_2 by lia. Qed.

Lemma chunk_past l n : 0 <= n -> zlen l <= 64 * n -> chunk l n = replicate 64 0.
Proof.
  intros Hn Hl. unfold chunk. apply list_eq_same_length with (n := 64%nat); [|by rewrite length_fmap, length_seqZ|].
  - by rewrite length_replicate.
  - intros i x y Hi Hx Hy. apply lookup_replicate in Hy as [-> _]. apply list_lookup_fmap_Some in Hx as (j & -> & Hj%lookup_seqZ).
    apply lookup_ge_zero. lia.
Qed.

Lemma chunk_snoc l x n : 0 <= n -> ~ (64 * n <= zlen l < 64 * n + 64) -> chunk (l ++ [x]) n = chunk l n.
Proof.
  intros Hn Hl. apply chunk_ext; [done|]. intros i Hi. unfold zlen in *. destruct (Z.lt_ge_cases i (Z.of_nat (length l))).
  - by rewrite lookup_app_l by lia.
  - rewrite !lookup_ge_None_2; [done|lia|rewrite length_app; cbn; lia].
Qed.

Lemma chunk_put l x n : 0 <= n -> 64 * n <= zlen l < 64 * n + 64 -> chunk (l ++ [x]) n = zset (chunk l n) (zlen l - 64 * n) x.
Proof.
  intros Hn Hl. pose proof Hl as Hl'. unfold zset, zlen in *. apply list_eq_same_length with (n := 64%nat).
  - by rewrite length_insert, length_chunk.
  - by rewrite length_chunk.
  - intros i y z Hi Hy Hz. replace i with (Z.to_nat (Z.of_nat i)) in Hy, Hz by lia.
    rewrite lookup_chunk in Hy by lia. injection Hy as <-.
    destruct (Z.eq_dec (Z.of_nat i) (Z.of_nat (length l) - 64 * n)) as [E | E].
    + rewrite E, list_lookup_insert_eq in Hz by (rewrite length_chunk; lia). injection Hz as <-.
      replace (Z.to_nat (64 * n + Z.of_nat i)) with (length l) by lia. by rewrite lookup_app_r, Nat.sub_diag.
    + rewrite list_lookup_insert_ne, lookup_chunk in Hz by lia. injection Hz as <-.
      destruct (Z.lt_ge_cases (Z.of_nat i) (Z.of_nat (length l) - 64 * n)).
      * by rewrite lookup_app_l by lia.
      * rewrite !lookup_ge_None_2; [done|lia|rewrite length_app; cbn; lia].
Qed.

Lemma take_chunk l n : 0 <= n -> 64 * (n + 1) <= zlen l -> take (Z.to_nat (64 * (n + 1))) l = take (Z.to_nat (64 * n)) l ++ chunk l n.
Proof.
  intros Hn Hl. unfold zlen in Hl. replace (Z.to_nat (64 * (n + 1))) with (Z.to_nat (64 * n) + 64)%nat by lia.
  rewrite <- take_take_drop. f_equal. apply list_eq_same_length with (n := 64%nat); [by rewrite length_chunk| |].
  - rewrite length_take, length_drop. lia.
  - intros i x y Hi Hx Hy. replace i with (Z.to_nat (Z.of_nat i)) in Hy by lia. rewrite lookup_chunk in Hy by lia.
    rewrite lookup_take_lt, lookup_drop in Hx by lia. replace (Z.to_nat (64 * n + Z.of_nat i)) with (Z.to_nat (64 * n) + i)%nat in Hy by lia.
    rewrite Hx in Hy. by injection Hy.
Qed.

(** ** Moving a queue up *)

Lemma queue_shift q n : 0 <= n < zlen q ->
  let q' := foldl (fun q i => zset q i (zget q (i + 1))) q (seqZ 0 n) in
  length q' = length q /\ forall i, 0 <= i -> zget q' i = if i <? n then zget q (i + 1) else zget q i.
Proof.
  intros [H0 Hn]. revert n H0 Hn. apply (natlike_ind (fun n => n < zlen q -> _)).
  - intros _. split; [done|]. intros i Hi. by destruct (Z.ltb_spec i 0); [lia|].
  - intros n Hn IH Hl. destruct IH as [IH1 IH2]; [lia|].
    replace (seqZ 0 (Z.succ n)) with (seqZ 0 n ++ [n]); [rewrite foldl_app; cbn [foldl]|].
    2: { rewrite <- Z.add_1_r, seqZ_app by lia. done. }
    split; [unfold zset; by rewrite length_insert|]. intros i Hi.
    assert (0 <= n < zlen (foldl (fun q i => zset q i (zget q (i + 1))) q (seqZ 0 n))) by (unfold zlen in *; lia).
    rewrite zget_zset by lia. destruct (Z.eqb_spec n i) as [<- | Hne].
    + destruct (Z.ltb_spec n (Z.succ n)); [|lia]. rewrite IH2 by lia. by destruct (Z.ltb_spec (n + 1) n); [lia|].
    + rewrite IH2 by lia. destruct (Z.ltb_spec i n), (Z.ltb_spec i (Z.succ n)); done || lia.
Qed.

(** ** Invariants *)

(** The buffer of the [n]th descriptor played. *)
Definition bufn (bufs : list Z) (n : Z) : Z := bufs !!! Z.to_nat (n mod 8).

(** The ring, and a queue of the buffers played last, out of [F]. *)
Record i2s_ok (bufs : list Z) (F : Z) (t : i2s_t) : Prop := {
  ok_items : it_buf_ptr <$> i2s_slc_items t = bufs;
  ok_len : length bufs = 8%nat;
  ok_nodup : NoDup bufs;
  ok_nonnull : 0 ∉ bufs;
  ok_heap : forall b, b ∈ bufs -> exists l, i2s_heap t !! b = Some l /\ length l = 64%nat;
  ok_queue : length (i2s_slc_queue t) = 7%nat;
  ok_qlen : 0 <= i2s_slc_queue_len t <= 7;
  ok_window : forall i, 0 <= i < i2s_slc_queue_len t -> zget (i2s_slc_queue t) i = bufn bufs (F - i2s_slc_queue_len t + i);
  ok_cur : i2s_curr_slc_buf t = 0 \/ i2s_curr_slc_buf t ∈ bufs;
  ok_pos : 0 <= i2s_curr_slc_buf_pos t <= 64
}.

(** With no buffer dropped, the ring holds the next 512 words of silence followed by
    the samples [W] written. *)
Record i2s_fifo (bufs : list Z) (F : Z) (W : list Z) (t : i2s_t) : Prop := {
  ff_taken : 0 <= F - i2s_slc_queue_len t;
  ff_cur : i2s_curr_slc_buf t = if F - i2s_slc_queue_len t =? 0 then 0 else bufn bufs (F - i2s_slc_queue_len t - 1);
  ff_written : zlen W = if F - i2s_slc_queue_len t =? 0 then 0 else 64 * (F - i2s_slc_queue_len t - 1) + i2s_curr_slc_buf_pos t;
  ff_heap : forall n, F <= n < F + 8 -> i2s_heap t !! bufn bufs n = Some (chunk (silence ++ W) n)
}.

Section bufs.
Variable bufs : list Z.
Hypothesis Hlen : length bufs = 8%nat.

Lemma bufn_lookup n : bufs !! Z.to_nat (n mod 8) = Some (bufn bufs n).
Proof using Hlen. apply list_lookup_lookup_total_lt. pose proof (Z.mod_pos_bound n 8). lia. Qed.

Lemma bufn_elem n : bufn bufs n ∈ bufs.
Proof using Hlen. eapply list_elem_of_lookup_2, bufn_lookup. Qed.

Lemma bufn_inj m n : NoDup bufs -> bufn bufs m = bufn bufs n -> m mod 8 = n mod 8.
Proof using Hlen.
  intros Hd E. pose proof (bufn_lookup m) as Hm. pose proof (bufn_lookup n) as Hn. rewrite E in Hm.
  pose proof (NoDup_lookup _ _ _ _ Hd Hm Hn). pose proof (Z.mod_pos_bound n 8). pose proof (Z.mod_pos_bound m 8). lia.
Qed.

Lemma bufn_near m n : NoDup bufs -> - 8 < m - n < 8 -> bufn bufs m = bufn bufs n -> m = n.
Proof using Hlen.
  intros Hd Hr E%bufn_inj; [|done]. pose proof (Z.div_mod m 8). pose proof (Z.div_mod n 8). lia.
Qed.

Lemma bufn_add8 n : bufn bufs (n + 8) = bufn bufs n.
Proof. unfold bufn. replace (n + 8) with (n + 1 * 8) by lia. by rewrite Z.mod_add. Qed.
End bufs.

(** ** Operations *)

Ltac i2s_cbn := cbn [i2s_slc_queue i2s_slc_queue_len i2s_slc_buf_pntr i2s_slc_items i2s_curr_slc_buf i2s_curr_slc_buf_pos i2s_heap
  set_cur set_queue set_heap set_ring].

(** Events the hardware's conditions do not count. *)
Definition i2s_quiet (e : event) : Prop :=
  match e with Rd a _ => (a =? SLCRXEDA) = false | Ext c_malloc _ _ => False | _ => True end.

Lemma eof_count_app h es : Forall i2s_quiet es -> eof_count (h ++ es) = eof_count h.
Proof.
  intros H. unfold eof_count. rewrite omap_app, zlen_app. replace (zlen (omap _ es)) with 0; [lia|]. symmetry.
  induction H as [|e es He Hes IH]; [done|]. destruct e; try exact IH. cbn in *. by rewrite He.
Qed.

Lemma mallocs_app h es : Forall i2s_quiet es -> mallocs (h ++ es) = mallocs h.
Proof.
  intros H. unfold mallocs. rewrite omap_app. replace (omap _ es) with (@nil Z); [by rewrite app_nil_r|]. symmetry.
  induction H as [|e es He Hes IH]; [done|]. destruct e as [| |f l r|]; try exact IH. by destruct f.
Qed.

Section ops.
Context {dev : Device} {tool : Toolchain} {irq : SlcIrq}.
Implicit Types s : core.

Lemma quiet_ints : quiet i2s_quiet ETS_SLC_INTR_DISABLE /\ quiet i2s_quiet ETS_SLC_INTR_ENABLE.
Proof. split; apply quiet_call_ext; done. Qed.

(** The I2S statics and the count of the descriptors read. *)
Definition at_i2s (t : i2s_t) (F : Z) s : Prop := i2s s = t /\ eof_count (io s) = F.

Lemma at_quiet {A B} t F s (m : C core A) (k : A -> C core B) Q :
  at_i2s t F s -> quiet i2s_quiet m -> (forall a s', at_i2s t F s' -> wp (k a) Q s') -> wp (m ≫= k) Q s.
Proof.
  intros [Ht HF] Hm Hk. eapply quiet_call; [done|]. intros a es He. apply Hk. split; [done|]. cbn. by rewrite eof_count_app.
Qed.

Lemma at_upd f t F s : at_i2s t F s -> at_i2s (f t) F (set_i2s (f (i2s s)) s).
Proof. by intros [-> HF]. Qed.

Lemma next_item_ok t F s : at_i2s t F s -> length (i2s_slc_queue t) = 7%nat -> 1 <= i2s_slc_queue_len t <= 7 ->
  wp i2s_slc_queue_next_item (fun r s' => r = zget (i2s_slc_queue t) 0 /\ exists q, length q = 7%nat /\
    (forall i, 0 <= i < i2s_slc_queue_len t - 1 -> zget q i = zget (i2s_slc_queue t) (i + 1)) /\
    at_i2s (set_queue q (i2s_slc_queue_len t - 1) t) F s') s.
Proof.
  intros H Hq Hl. unfold i2s_slc_queue_next_item, get_i2s. do 2 apply wp_bind, wp_gets.
  assert (i2s s = t) as -> by apply H. rewrite u8_small by lia. destruct (Z.leb_spec 7 (i2s_slc_queue_len t - 1)); [lia|].
  apply wp_bind, wp_modify, wp_ret. split; [done|].
  destruct (queue_shift (i2s_slc_queue t) (i2s_slc_queue_len t - 1)) as [H1 H2]; [unfold zlen; lia|].
  eexists. split; [rewrite H1; exact Hq|]. split; [|by apply at_upd].
  intros i Hi. rewrite H2 by lia. by destruct (Z.ltb_spec i (i2s_slc_queue_len t - 1)); [|lia].
Qed.

Lemma take_buf_ok t F s : at_i2s t F s -> length (i2s_slc_queue t) = 7%nat -> 1 <= i2s_slc_queue_len t <= 7 ->
  wp take_buf (fun _ s' => exists q, length q = 7%nat /\
    (forall i, 0 <= i < i2s_slc_queue_len t - 1 -> zget q i = zget (i2s_slc_queue t) (i + 1)) /\
    at_i2s (set_cur (zget (i2s_slc_queue t) 0) 0 (set_queue q (i2s_slc_queue_len t - 1) t)) F s') s.
Proof.
  intros H Hq Hl. unfold take_buf. apply (at_quiet t F); [done|apply quiet_ints|]. intros _ s1 H1.
  eapply wp_call; [by apply (next_item_ok t F)|]. cbv beta. intros b s2 (-> & q & Hq' & Hw & H2).
  apply wp_bind, wp_modify. eapply at_quiet; [by eapply at_upd|apply quiet_ints|]. intros _ s3 H3. apply wp_modify.
  exists q. split; [done|]. split; [done|].
  exact (at_upd (fun t => set_cur (i2s_curr_slc_buf t) 0 t) _ _ _ H3).
Qed.

Lemma put_sample_ok t F s x l : at_i2s t F s -> i2s_heap t !! i2s_curr_slc_buf t = Some l -> length l = 64%nat ->
  0 <= i2s_curr_slc_buf_pos t < 64 ->
  wp (put_sample x) (fun _ s' => at_i2s (set_cur (i2s_curr_slc_buf t) (i2s_curr_slc_buf_pos t + 1)
    (set_heap (<[i2s_curr_slc_buf t := zset l (i2s_curr_slc_buf_pos t) x]> (i2s_heap t)) t)) F s') s.
Proof.
  intros H Hh Hl Hp. unfold put_sample. apply wp_bind, wp_gets. assert (i2s s = t) as -> by apply H. rewrite Hh.
  unfold zlen. destruct (Z.leb_spec 0 (i2s_curr_slc_buf_pos t)), (Z.ltb_spec (i2s_curr_slc_buf_pos t) (Z.of_nat (length l))); try lia.
  cbn [andb]. apply wp_modify.
  exact (at_upd (fun t => set_cur (i2s_curr_slc_buf t) _ (set_heap (<[i2s_curr_slc_buf t := _]> (i2s_heap t)) t)) _ _ _ H).
Qed.

(** *** Invariants across the steps *)

Lemma take_keeps bufs F t q : i2s_ok bufs F t -> 1 <= i2s_slc_queue_len t -> length q = 7%nat ->
  (forall i, 0 <= i < i2s_slc_queue_len t - 1 -> zget q i = zget (i2s_slc_queue t) (i + 1)) ->
  let t' := set_cur (zget (i2s_slc_queue t) 0) 0 (set_queue q (i2s_slc_queue_len t - 1) t) in
  i2s_ok bufs F t' /\ i2s_curr_slc_buf t' ∈ bufs /\
  (no_room t = true -> forall W, i2s_fifo bufs F W t -> i2s_fifo bufs F W t').
Proof.
  intros Hok Hl Hq Hw. destruct Hok. cbn zeta. assert (zget (i2s_slc_queue t) 0 = bufn bufs (F - i2s_slc_queue_len t)) as Hc.
  { rewrite ok_window0 by lia. f_equal. lia. }
  assert (zget (i2s_slc_queue t) 0 ∈ bufs) as Hin by (rewrite Hc; by apply bufn_elem).
  split; [|split; [done|]].
  - constructor; i2s_cbn; try done; [lia| |by right].
    intros i Hi. rewrite Hw, ok_window0 by lia. f_equal. lia.
  - intros Hnr W []. unfold no_room, SLC_BUF_LEN in Hnr. constructor; i2s_cbn; try done; [lia| |].
    + destruct (Z.eqb_spec (F - (i2s_slc_queue_len t - 1)) 0); [lia|]. rewrite Hc. f_equal. lia.
    + destruct (Z.eqb_spec (F - (i2s_slc_queue_len t - 1)) 0); [lia|]. rewrite ff_written0.
      destruct (Z.eqb_spec (F - i2s_slc_queue_len t) 0); [lia|].
      assert (i2s_curr_slc_buf t <> 0).
      { rewrite ff_cur0. intros E. apply ok_nonnull0. rewrite <- E. by apply bufn_elem. }
      apply orb_true_iff in Hnr as [Hnr | Hnr]; bools; lia.
Qed.

Lemma put_keeps bufs F t x l : i2s_ok bufs F t -> i2s_curr_slc_buf t ∈ bufs -> i2s_curr_slc_buf_pos t < 64 ->
  i2s_heap t !! i2s_curr_slc_buf t = Some l -> length l = 64%nat ->
  let t' := set_cur (i2s_curr_slc_buf t) (i2s_curr_slc_buf_pos t + 1)
    (set_heap (<[i2s_curr_slc_buf t := zset l (i2s_curr_slc_buf_pos t) x]> (i2s_heap t)) t) in
  i2s_ok bufs F t' /\ (forall W, i2s_fifo bufs F W t -> i2s_fifo bufs F (W ++ [x]) t').
Proof.
  intros [] Hc Hp Hh Hl. cbn zeta. split.
  - constructor; i2s_cbn; try done; [|lia]. intros b Hb. destruct (decide (b = i2s_curr_slc_buf t)) as [-> | Hne].
    + rewrite lookup_insert_eq. eexists. split; [done|]. unfold zset. by rewrite length_insert.
    + rewrite lookup_insert_ne by done. auto.
  - intros W []. set (T := F - i2s_slc_queue_len t) in *.
    assert ((T =? 0) = false) as HT.
    { destruct (Z.eqb_spec T 0) as [E|]; [|done]. rewrite ff_cur0 in Hc. done. }
    rewrite HT in ff_cur0, ff_written0. constructor; i2s_cbn; fold T; try rewrite HT; try done.
    + rewrite zlen_snoc. lia.
    + intros n Hn. rewrite app_assoc. assert (zlen (silence ++ W) = 64 * (T + 7) + i2s_curr_slc_buf_pos t) as Hz.
      { rewrite zlen_app, ff_written0. change (zlen silence) with 512. lia. }
      assert (0 <= T) by done. assert (T <> 0) by (by apply Z.eqb_neq). assert (bufn bufs (T + 7) = i2s_curr_slc_buf t) as Hb.
      { rewrite ff_cur0. replace (T + 7) with (T - 1 + 8) by lia. by apply bufn_add8. }
      destruct (Z.eq_dec n (T + 7)) as [-> | Hne].
      * rewrite Hb, lookup_insert_eq, chunk_put by lia. do 2 f_equal; [|lia].
        rewrite <- Hb, ff_heap0 in Hh by lia. by injection Hh.
      * rewrite lookup_insert_ne.
        2: { rewrite <- Hb. intros E. apply Hne. symmetry. apply (bufn_near bufs ok_len0); [done|lia|done]. }
        rewrite chunk_snoc by lia. apply ff_heap0. lia.
Qed.

(** *** The interrupt *)

Lemma item_at_ok bufs F t n s : at_i2s t n s -> i2s_ok bufs F t ->
  wp (item_at (item_addr (F mod 8))) (fun it s' => it_buf_ptr it = bufn bufs F /\ s' = s) s.
Proof.
  intros H []. unfold item_at. apply wp_bind, wp_gets. assert (i2s s = t) as -> by apply H. cbv zeta.
  pose proof (Z.mod_pos_bound F 8 ltac:(lia)) as Hx. set (x := F mod 8) in *.
  assert (u32 (item_addr x - u32 sym_i2s_slc_items) = x * 12) as ->.
  { unfold item_addr, u32. rewrite <- Zminus_mod. rewrite Z.mod_small; lia. }
  rewrite Z.mod_mul, Z.div_mul by lia. destruct (Z.ltb_spec x SLC_BUF_CNT); [|unfold SLC_BUF_CNT in *; lia]. cbn [Z.eqb andb].
  pose proof (bufn_lookup bufs ok_len0 F) as Hl. rewrite <- ok_items0 in Hl at 1. fold x in Hl.
  apply list_lookup_fmap_Some in Hl as (it & Hb & ->). by apply wp_ret.
Qed.

Lemma clear_buf_ok t n s b l : at_i2s t n s -> i2s_heap t !! b = Some l -> length l = 64%nat ->
  wp (clear_buf b) (fun _ s' => at_i2s (set_heap (<[b := replicate 64 0]> (i2s_heap t)) t) n s') s.
Proof.
  intros H Hh Hl. unfold clear_buf. apply wp_bind, wp_gets. assert (i2s s = t) as -> by apply H. rewrite Hh, Hl. cbn [Nat.eqb].
  apply wp_modify. exact (at_upd (set_heap _) _ _ _ H).
Qed.

Lemma queue_push_ok t n s b : at_i2s t n s -> 0 <= i2s_slc_queue_len t < 7 ->
  wp (queue_push b) (fun _ s' =>
    at_i2s (set_queue (zset (i2s_slc_queue t) (i2s_slc_queue_len t) b) (i2s_slc_queue_len t + 1) t) n s') s.
Proof.
  intros H Hl. unfold queue_push. do 2 apply wp_bind, wp_gets. assert (i2s s = t) as -> by apply H.
  destruct (Z.leb_spec 7 (i2s_slc_queue_len t)); [lia|]. rewrite u8_small by lia. apply wp_modify. exact (at_upd (set_queue _ _) _ _ _ H).
Qed.

(** Clearing the buffer just played, and queueing it after the [n] last ones. *)
Lemma push_keeps bufs F t q n : i2s_ok bufs F t -> 0 <= n < 7 -> length q = 7%nat -> 0 <= F ->
  (forall i, 0 <= i < n -> zget q i = bufn bufs (F - n + i)) ->
  let t' := set_queue (zset q n (bufn bufs F)) (n + 1) (set_heap (<[bufn bufs F := replicate 64 0]> (i2s_heap t)) t) in
  i2s_ok bufs (F + 1) t' /\ (n = i2s_slc_queue_len t -> forall W, i2s_fifo bufs F W t -> i2s_fifo bufs (F + 1) W t').
Proof.
  intros [] Hn Hq HF Hw. cbn zeta. split.
  - constructor; i2s_cbn; try done; [|unfold zset; by rewrite length_insert|lia|].
    + intros b Hb. destruct (decide (b = bufn bufs F)) as [-> | Hne]; [by rewrite lookup_insert_eq; eauto|].
      rewrite lookup_insert_ne by done. auto.
    + intros i Hi. rewrite zget_zset by (unfold zlen; lia). destruct (Z.eqb_spec n i) as [<- | Hne]; [f_equal; lia|].
      rewrite Hw by lia. f_equal. lia.
  - intros -> W []. constructor; i2s_cbn;
      try replace (F + 1 - (i2s_slc_queue_len t + 1)) with (F - i2s_slc_queue_len t) by lia; try done.
    intros m Hm. destruct (Z.eq_dec m (F + 8)) as [-> | Hne].
    + rewrite bufn_add8, lookup_insert_eq, chunk_past; [done|lia| |done]. rewrite zlen_app, ff_written0. change (zlen silence) with 512.
      destruct (F - i2s_slc_queue_len t =? 0); lia.
    + rewrite lookup_insert_ne; [apply ff_heap0; lia|]. intros E. apply (bufn_near bufs) in E; [|done|done|lia]. lia.
Qed.

Context {hw : SlcHardware}.

Lemma isr_ok bufs F s : i2s_ok bufs F (i2s s) -> eof_count (io s) = F ->
  wp i2s_slc_isr (fun _ s' => i2s_ok bufs (F + 1) (i2s s') /\ eof_count (io s') = F + 1 /\
    i2s_slc_queue_len (i2s s') = Z.min 7 (i2s_slc_queue_len (i2s s) + 1) /\
    i2s_curr_slc_buf (i2s s') = i2s_curr_slc_buf (i2s s) /\ i2s_curr_slc_buf_pos (i2s s') = i2s_curr_slc_buf_pos (i2s s) /\
    (i2s_slc_queue_len (i2s s) < 7 -> forall W, i2s_fifo bufs F W (i2s s) -> i2s_fifo bufs (F + 1) W (i2s s'))) s.
Proof using hw.
  intros Hok HF. assert (0 <= F) as HF0 by (subst F; apply zlen_nonneg). set (t := i2s s) in *. pose proof Hok as [].
  assert (at_i2s t F s) as H by done. unfold i2s_slc_isr.
  assert (wp (rd I2SIS) (fun v s' => hasb v I2SITE = true /\ at_i2s t F s') s) as Hrd.
  { apply wp_conj; [apply slc_status|]. eapply quiet_use; [by apply (quiet_rd i2s_quiet)|]. intros _ es He. split; [done|].
    cbn. by rewrite eof_count_app. }
  eapply wp_call; [exact Hrd|]. cbv beta. intros v s1 [-> H1].
  apply (at_quiet t F); [done|by apply quiet_wr|]. intros _ s2 H2. apply (at_quiet t F); [done|apply quiet_ints|]. intros _ s3 H3.
  assert (wp (rd SLCRXEDA) (fun v s' => v = item_addr (F mod 8) /\ at_i2s t (F + 1) s') s3) as Hrd3.
  { destruct H3 as [Ht3 HF3]. apply wp_conj; [rewrite <- HF3; exact (slc_ring (io s3))|]. split; [exact Ht3|]. cbn [io set_io].
    unfold eof_count. rewrite omap_app, zlen_app. fold (eof_count (io s3)). rewrite HF3. reflexivity. }
  eapply wp_call; [exact Hrd3|]. cbv beta. intros a s4 [-> H4].
  eapply wp_call; [by eapply item_at_ok|]. cbv beta. intros it ? [-> ->].
  destruct (ok_heap0 (bufn bufs F)) as (l & Hl & Hll); [by apply bufn_elem|].
  eapply wp_call; [by apply (clear_buf_ok t (F + 1) s4 _ l)|]. cbv beta. intros ? s5 H5. apply wp_bind, wp_gets.
  assert (i2s s5 = set_heap (<[bufn bufs F := replicate 64 0]> (i2s_heap t)) t) as -> by apply H5. i2s_cbn.
  set (t1 := set_heap _ t) in *.
  apply (wp_call _ _ (fun _ s' => exists q, length q = 7%nat /\
    let n := Z.min 6 (i2s_slc_queue_len t) in (forall i, 0 <= i < n -> zget q i = bufn bufs (F - n + i)) /\
    (i2s_slc_queue_len t < 7 -> q = i2s_slc_queue t) /\ at_i2s (set_queue q n t1) (F + 1) s')).
  - change (SLC_BUF_CNT - 1) with 7. destruct (Z.leb_spec 7 (i2s_slc_queue_len t)).
    + eapply wp_call; [apply (next_item_ok t1 (F + 1)); [done|exact ok_queue0|change (1 <= i2s_slc_queue_len t <= 7); lia]|]. cbv beta. intros ? s6 (-> & q & Hq & Hw & H6). apply wp_ret.
      exists q. split; [done|]. cbn zeta. change (i2s_slc_queue_len t1) with (i2s_slc_queue_len t) in *.
      change (i2s_slc_queue t1) with (i2s_slc_queue t) in *. assert (i2s_slc_queue_len t = 7) as E by lia. rewrite E in *.
      split; [|split; [lia|exact H6]]. intros i Hi. rewrite Hw, ok_window0 by lia. f_equal. lia.
    + apply wp_ret. exists (i2s_slc_queue t). split; [done|]. cbn zeta. rewrite Z.min_r by lia. split; [done|]. split; [done|].
      destruct H5 as [E5 ?]. split; [|done]. rewrite E5. by destruct t.
  - intros ? s6 (q & Hq & Hw & Hsame & H6). cbn zeta in *.
    eapply wp_call; [eapply queue_push_ok; [exact H6|i2s_cbn; lia]|]. cbv beta. i2s_cbn. intros ? s7 H7.
    eapply quiet_use; [apply quiet_ints|]. intros _ es He. destruct H7 as [E7 HF7]. cbn [i2s set_io io]. rewrite E7. i2s_cbn.
    destruct (push_keeps bufs F t q (Z.min 6 (i2s_slc_queue_len t)) Hok ltac:(lia) Hq HF0 Hw) as [Hk1 Hk2].
    split; [exact Hk1|]. split; [by rewrite eof_count_app|]. split; [lia|]. split; [done|]. split; [done|].
    intros Hlt W HW. apply Hk2; [lia|done].
Qed.
End ops.
