(* ===== verification/CoreI2sTheorems.v ===== *)
(** Properties of the I2S driver ([core_esp31b_i2s.c]): what is written is what is
    played; a blocking write returns once the DMA has played a buffer. *)
From S2P Require Import Prelude CSem CoreMmio CoreGpio CoreI2s.
From stdpp Require Import base list numbers option gmap.

Open Scope Z_scope.

Section proof.
Context {dev : Device} {tool : Toolchain} {irq : SlcIrq}.
Implicit Types s : core.

(** ** Writes *)

Lemma store_ok bufs F s x : i2s_ok bufs F (i2s s) -> eof_count (io s) = F ->
  (no_room (i2s s) = true -> 1 <= i2s_slc_queue_len (i2s s)) ->
  wp ((if no_room (i2s s) then take_buf else mret tt);; put_sample x;; mret true) (fun r s' =>
    r = true /\ i2s_ok bufs F (i2s s') /\ eof_count (io s') = F /\
    forall W, i2s_fifo bufs F W (i2s s) -> i2s_fifo bufs F (W ++ [x]) (i2s s')) s.
Proof.
  intros Hok HF Hr. set (t := i2s s) in *. assert (at_i2s t F s) as H by done.
  apply (wp_call _ _ (fun _ s' => exists t', at_i2s t' F s' /\ i2s_ok bufs F t' /\ i2s_curr_slc_buf t' ∈ bufs /\
    i2s_curr_slc_buf_pos t' < 64 /\ forall W, i2s_fifo bufs F W t -> i2s_fifo bufs F W t')).
  - pose proof Hok as []. destruct (no_room t) eqn:E.
    + eapply wp_mono; [apply (take_buf_ok t F); [done|done|]; specialize (Hr eq_refl); lia|].
      cbv beta. intros _ s' (q & Hq & Hw & H'). eexists. split; [exact H'|].
      destruct (take_keeps bufs F t q) as (K1 & K2 & K3); [done|by apply Hr|done|done|]. split; [done|]. split; [done|].
      split; [i2s_cbn; lia|]. by apply K3.
    + apply wp_ret. exists t. split; [done|]. split; [done|]. unfold no_room, SLC_BUF_LEN in E. apply orb_false_iff in E as [E1 E2].
      bools. split; [|split; [lia|done]]. by destruct ok_cur.
  - intros _ s' (t' & H' & Hok' & Hc & Hp & HW). destruct (ok_heap _ _ _ Hok' _ Hc) as (l & Hl & Hll).
    eapply wp_call; [apply (put_sample_ok t' F s' x l); [done|done|done|]; pose proof (ok_pos _ _ _ Hok'); lia|].
    cbv beta. intros _ s2 [E2 HF2]. apply wp_ret. split; [done|]. rewrite E2.
    destruct (put_keeps bufs F t' x l) as [K1 K2]; try done. split; [done|]. split; [done|]. intros W H0. by apply K2, HW.
Qed.

Definition is_full (t : i2s_t) : bool := no_room t && (i2s_slc_queue_len t =? 0).

Lemma write_nb_ok bufs F s x : i2s_ok bufs F (i2s s) -> eof_count (io s) = F ->
  wp (i2s_write_sample_nb x) (fun r s' => r = negb (is_full (i2s s)) /\ i2s_ok bufs F (i2s s') /\ eof_count (io s') = F /\
    forall W, i2s_fifo bufs F W (i2s s) -> i2s_fifo bufs F (if r then W ++ [x] else W) (i2s s')) s.
Proof.
  intros Hok HF. unfold i2s_write_sample_nb, is_full. do 2 apply wp_bind, wp_gets. destruct (_ && _) eqn:E.
  - by apply wp_ret.
  - eapply wp_mono; [apply (store_ok bufs F s x); try done|].
    + intros Hr. rewrite Hr in E. cbn in E. bools. pose proof (ok_qlen _ _ _ Hok). lia.
    + cbv beta. intros r s' (-> & ?). done.
Qed.

(** ** Set-up *)

Lemma mallocs_snoc h l r : mallocs (h ++ [Ext c_malloc l r]) = mallocs h ++ [r].
Proof. unfold mallocs. by rewrite omap_app. Qed.

Context {hw : SlcHardware}.

(** The first [length ps] buffers are [ps]. *)
Record init_ok (ps : list Z) (s0 s : core) : Prop := {
  in_items : length (i2s_slc_items (i2s s)) = 8%nat;
  in_ptrs : take (length ps) (it_buf_ptr <$> i2s_slc_items (i2s s)) = ps;
  in_nodup : NoDup ps;
  in_nonnull : 0 ∉ ps;
  in_mallocs : mallocs (io s) = ps;
  in_heap : forall p, p ∈ ps -> i2s_heap (i2s s) !! p = Some (replicate 64 0);
  in_eof : eof_count (io s) = eof_count (io s0);
  in_rest : i2s_slc_queue (i2s s) = i2s_slc_queue (i2s s0) /\ i2s_slc_queue_len (i2s s) = i2s_slc_queue_len (i2s s0) /\
    i2s_curr_slc_buf (i2s s) = i2s_curr_slc_buf (i2s s0) /\ i2s_curr_slc_buf_pos (i2s s) = i2s_curr_slc_buf_pos (i2s s0)
}.

Lemma init_item_ok ps s0 s : init_ok ps s0 s -> (length ps < 8)%nat ->
  wp (init_item (zlen ps)) (fun _ s' => exists p, init_ok (ps ++ [p]) s0 s') s.
Proof using hw.
  intros [] Hl. unfold init_item. destruct (slc_malloc (io s) [SLC_BUF_LEN * 4]) as [Hp0 Hpf]; [rewrite in_mallocs0; unfold zlen; lia|].
  rewrite in_mallocs0 in Hpf.
  set (p := u32 (dev_ext (io s) c_malloc [SLC_BUF_LEN * 4])) in *.
  assert (wp (ext c_malloc [SLC_BUF_LEN * 4])
    (fun v s' => v = p /\ s' = set_io (io s ++ [Ext c_malloc [SLC_BUF_LEN * 4] p]) s) s) as He by done.
  eapply wp_call; [exact He|]. cbv beta. intros v s1 [-> ->]. rewrite (proj2 (Z.eqb_neq p 0)) by done. apply wp_modify.
  exists p. constructor; cbn [i2s set_i2s io set_io]; i2s_cbn; try done.
  - unfold zset. by rewrite length_insert.
  - unfold zset, zlen. rewrite Nat2Z.id, list_fmap_insert, length_app, Nat.add_1_r. cbn [it_buf_ptr].
    rewrite (take_S_r _ _ p); [|apply list_lookup_insert_eq; rewrite length_fmap; lia].
    by rewrite take_insert_ge, in_ptrs0 by lia.
  - apply NoDup_app. repeat split; [done| |by apply NoDup_singleton]. intros q Hq ->%list_elem_of_singleton. done.
  - intros [H | H%list_elem_of_singleton]%elem_of_app; [done|]. by apply Hp0.
  - by rewrite mallocs_snoc, in_mallocs0.
  - intros q [Hq | ->%list_elem_of_singleton]%elem_of_app; [|by rewrite lookup_insert_eq].
    rewrite lookup_insert_ne by (intros ->; done). by apply in_heap0.
  - rewrite <- in_eof0. unfold eof_count. rewrite omap_app. cbn. by rewrite app_nil_r.
Qed.

Lemma init_items_ok n ps s0 s : init_ok ps s0 s -> (n + length ps = 8)%nat ->
  wp (foldr (fun x k => init_item x;; k) (mret tt) (seqZ (zlen ps) (Z.of_nat n))) (fun _ s' => exists ps', length ps' = 8%nat /\ init_ok ps' s0 s') s.
Proof using hw.
  revert ps s. induction n as [|n IH]; intros ps s H Hn.
  - apply wp_ret. exists ps. split; [lia|done].
  - rewrite seqZ_cons by lia. cbn [foldr]. eapply wp_call; [by apply (init_item_ok ps s0 s); [|lia]|]. cbv beta. intros _ s' (p & H').
    replace (Z.succ (zlen ps)) with (zlen (ps ++ [p])) by (rewrite zlen_snoc; lia). replace (Z.pred (Z.of_nat (S n))) with (Z.of_nat n) by lia.
    apply IH; [done|]. rewrite length_app. cbn. lia.
Qed.

(** Before the first buffers are allocated. *)
Definition fresh_i2s (s : core) : Prop :=
  length (i2s_slc_items (i2s s)) = 8%nat /\ length (i2s_slc_queue (i2s s)) = 7%nat /\
  i2s_curr_slc_buf (i2s s) = 0 /\ i2s_curr_slc_buf_pos (i2s s) = 0 /\ eof_count (io s) = 0 /\ mallocs (io s) = [].

Lemma slc_begin_ok s : fresh_i2s s ->
  wp i2s_slc_begin (fun _ s' => exists bufs, i2s_ok bufs 0 (i2s s') /\ i2s_fifo bufs 0 [] (i2s s') /\ eof_count (io s') = 0) s.
Proof using hw.
  intros (Hi & Hq & Hc & Hp & HF & Hm). unfold i2s_slc_begin. apply wp_bind, wp_modify.
  set (s1 := set_i2s (set_queue (i2s_slc_queue (i2s s)) 0 (i2s s)) s).
  eapply wp_call; [apply (init_items_ok 8 [] s1 s1); [|done]|].
  { constructor; try done; [by apply NoDup_nil|by apply not_elem_of_nil|]; by intros ? ?%not_elem_of_nil. }
  cbv beta. intros _ s2 (bufs & Hl & []). destruct in_rest0 as (E1 & E2 & E3 & E4).
  rewrite Hl, take_ge in in_ptrs0 by (rewrite length_fmap; lia).
  eapply (quiet_use i2s_quiet).
  { unfold ETS_SLC_INTR_DISABLE, ETS_SLC_INTR_ENABLE, ETS_SLC_INTR_ATTACH, intrMatrixAttach, item_addr. quietly. }
  intros _ es He. exists bufs. cbn [i2s set_io io]. rewrite eof_count_app by done. split; [|split].
  - constructor; rewrite ?E1, ?E2, ?E3, ?E4; try done; cbn [s1 i2s set_i2s]; i2s_cbn; try done; try (rewrite ?Hp; lia).
    intros b Hb. exists (replicate 64 0). auto.
  - constructor; rewrite ?E1, ?E2, ?E3, ?E4; cbn [s1 i2s set_i2s]; i2s_cbn; try done; try (rewrite ?Hc, ?Hp; done).
    intros n Hn. rewrite app_nil_r, in_heap0 by (by apply bufn_elem). f_equal.
    assert (n = 0 \/ n = 1 \/ n = 2 \/ n = 3 \/ n = 4 \/ n = 5 \/ n = 6 \/ n = 7) as Hcs by lia.
    repeat destruct Hcs as [-> | Hcs]; subst; reflexivity.
  - rewrite in_eof0. exact HF.
Qed.

(** ** Runs *)

(** A sample offered by the program; a word played by the DMA. *)
Inductive i2s_op : Type :=
  | WriteSample (x : Z)
  | WordPlayed.

(** The samples accepted; the words played; the DMA's position in its buffer; whether the
    writer was too slow: the DMA played a word not yet written, or finished a buffer when the
    other seven were in the queue. *)
Record i2s_log : Type := mkLog { accepted : list Z; played : list Z; dma_pos : Z; underflow : bool }.

Definition log_init : i2s_log := mkLog [] [] 0 false.

(** The words of the descriptor the DMA plays. *)
Definition playing (s : core) : list Z :=
  default [] (x ← (it_buf_ptr <$> i2s_slc_items (i2s s)) !! Z.to_nat (eof_count (io s) mod 8); i2s_heap (i2s s) !! x).

(** The DMA reads each word of a buffer when it plays it, so it sees what has been written
    up to then.  With the last one comes the end-of-buffer interrupt, which is served before
    the next word is played. *)
Definition i2s_step (l : i2s_log) (op : i2s_op) : C core i2s_log :=
  match op with
  | WriteSample x =>
      ok ← i2s_write_sample_nb x;
      mret (mkLog (if (ok : bool) then accepted l ++ [x] else accepted l) (played l) (dma_pos l) (underflow l))
  | WordPlayed =>
      w ← gets (fun s => zget (playing s) (dma_pos l));
      let late := underflow l || (zlen (silence ++ accepted l) <=? zlen (played l)) in
      if dma_pos l <? 63 then mret (mkLog (accepted l) (played l ++ [w]) (dma_pos l + 1) late)
      else
        len ← get_i2s i2s_slc_queue_len;
        i2s_slc_isr;;
        mret (mkLog (accepted l) (played l ++ [w]) 0 (late || (7 <=? len)))
  end.
Fixpoint i2s_runs (l : i2s_log) (ops : list i2s_op) : C core i2s_log :=
  match ops with [] => mret l | op :: ops => l ← i2s_step l op; i2s_runs l ops end.

Definition log_ok bufs (l : i2s_log) s : Prop :=
  let F := eof_count (io s) in
  i2s_ok bufs F (i2s s) /\ 0 <= dma_pos l <= 63 /\
  (underflow l = false -> i2s_fifo bufs F (accepted l) (i2s s) /\ zlen (played l) = 64 * F + dma_pos l /\
     zlen (played l) <= zlen (silence ++ accepted l) /\ played l = take (length (played l)) (silence ++ accepted l)).

Lemma playing_ok bufs F W s : i2s_ok bufs F (i2s s) -> eof_count (io s) = F -> i2s_fifo bufs F W (i2s s) ->
  playing s = chunk (silence ++ W) F.
Proof.
  intros [] HF []. unfold playing. rewrite ok_items, HF, bufn_lookup by done. cbn. rewrite ff_heap by lia. done.
Qed.

(** The word played is the next one of the stream. *)
Lemma word_ok bufs F W P s k : i2s_ok bufs F (i2s s) -> eof_count (io s) = F -> i2s_fifo bufs F W (i2s s) ->
  0 <= F -> 0 <= k <= 63 -> zlen P = 64 * F + k -> P = take (length P) (silence ++ W) -> zlen P < zlen (silence ++ W) ->
  P ++ [zget (playing s) k] = take (S (length P)) (silence ++ W).
Proof.
  intros Hok HF Hff HF0 Hk Hz HP Hlt. rewrite (playing_ok bufs F W) by done. unfold zget, zlen in *.
  rewrite (list_lookup_total_correct _ _ _ (lookup_chunk (silence ++ W) F k HF0 ltac:(lia))).
  replace (Z.to_nat (64 * F + k)) with (length P) by lia.
  destruct ((silence ++ W) !! length P) as [x|] eqn:E; [|apply lookup_ge_None in E; lia].
  cbn [default]. by rewrite (take_S_r _ _ x E), <- HP.
Qed.

Lemma i2s_step_ok bufs l op s : log_ok bufs l s -> wp (i2s_step l op) (fun l' s' => log_ok bufs l' s') s.
Proof using hw.
  intros (Hok & Hpos & Hf). set (F := eof_count (io s)) in *. assert (0 <= F) as HF0 by apply zlen_nonneg. destruct op as [x|]; cbn [i2s_step].
  - eapply wp_call; [by apply (write_nb_ok bufs F)|]. cbv beta. intros r s' (_ & Hok' & HF & HW). apply wp_ret.
    unfold log_ok. cbn zeta. rewrite HF. cbn [underflow accepted played dma_pos]. split; [done|]. split; [done|].
    intros Hu. destruct (Hf Hu) as (H1 & H2 & H3 & H4). split; [by apply HW|]. split; [done|].
    destruct r; [|done]. unfold zlen in *. rewrite app_assoc, length_app. split; [lia|]. by rewrite take_app_le by lia.
  - apply wp_bind, wp_gets. destruct (Z.ltb_spec (dma_pos l) 63) as [Hp | Hp].
    + apply wp_ret. unfold log_ok. cbn zeta. cbn [underflow accepted played dma_pos]. fold F. split; [done|]. split; [lia|].
      intros [Hu Hl]%orb_false_iff. bools. destruct (Hf Hu) as (H1 & H2 & H3 & H4). split; [done|].
      rewrite zlen_snoc. split; [lia|]. split; [lia|]. rewrite length_app, Nat.add_1_r. by apply (word_ok bufs F).
    + apply wp_bind, wp_gets. eapply wp_call; [by apply (isr_ok bufs F)|]. cbv beta. intros _ s' (Hok' & HF & _ & _ & _ & HW). apply wp_ret.
      unfold log_ok. cbn zeta. rewrite HF. cbn [underflow accepted played dma_pos]. split; [done|]. split; [lia|].
      intros [[Hu Hl]%orb_false_iff Hlen]%orb_false_iff. bools. destruct (Hf Hu) as (H1 & H2 & H3 & H4). split; [by apply HW|].
      rewrite zlen_snoc. split; [lia|]. split; [lia|]. rewrite length_app, Nat.add_1_r. by apply (word_ok bufs F).
Qed.

Lemma i2s_runs_ok bufs ops l s : log_ok bufs l s -> wp (i2s_runs l ops) (fun l' s' => log_ok bufs l' s') s.
Proof using hw.
  revert l s. induction ops as [|op ops IH]; intros l s H; [by apply wp_ret|]. cbn [i2s_runs].
  eapply wp_call; [by apply i2s_step_ok|]. cbv beta. intros l' s' H'. by apply IH.
Qed.

Lemma begin_runs_ok ops s : fresh_i2s s ->
  wp (i2s_slc_begin;; i2s_runs log_init ops) (fun l s' => exists bufs, log_ok bufs l s') s.
Proof using hw.
  intros Hf. eapply wp_call; [by apply slc_begin_ok|]. cbv beta. intros _ s' (bufs & Hok & Hff & HF').
  eapply wp_mono; [apply (i2s_runs_ok bufs)|by eauto]. unfold log_ok. rewrite HF'. done.
Qed.

(** C23: the ring of I2S buffers plays what is written.  After [i2s_slc_begin], with the
    end-of-buffer interrupt delivered (that is, without the rest of [i2s_begin], which masks
    it, see [i2s_begin_masks_interrupt]), let samples be written and words be played in any
    order, one by one, also from the buffer that is being written.  No call goes wrong; and
    unless the DMA plays a word before it is written, or finishes a buffer while the other
    seven are in the queue (the writer is too slow), what it has played is 512 words of
    silence and then the accepted samples, each once and in order. *)
Theorem i2s_plays_what_is_written ops s : fresh_i2s s ->
  wp (i2s_slc_begin;; i2s_runs log_init ops) (fun l s' => underflow l = false ->
    zlen (played l) = 64 * eof_count (io s') + dma_pos l /\ played l = take (length (played l)) (silence ++ accepted l)) s.
Proof using hw.
  intros Hf. eapply wp_mono; [by apply begin_runs_ok|]. cbv beta. intros l s' (bufs & Hok & _ & Hu) E.
  by destruct (Hu E) as (_ & H2 & _ & H4).
Qed.

(** The buffers waiting for the writer, and the one the DMA plays now. *)
Definition queued (s : core) : list Z := take (Z.to_nat (i2s_slc_queue_len (i2s s))) (i2s_slc_queue (i2s s)).
Definition playing_buf (s : core) : option Z := (it_buf_ptr <$> i2s_slc_items (i2s s)) !! Z.to_nat (eof_count (io s) mod 8).

Lemma queued_lookup bufs F s i p : i2s_ok bufs F (i2s s) -> queued s !! i = Some p ->
  Z.of_nat i < i2s_slc_queue_len (i2s s) /\ p = bufn bufs (F - i2s_slc_queue_len (i2s s) + Z.of_nat i).
Proof.
  intros [] H. unfold queued in H. apply lookup_take_Some in H as [H Hi]. split; [lia|]. rewrite <- ok_window by lia.
  unfold zget. rewrite Nat2Z.id. symmetry. by apply list_lookup_total_correct.
Qed.

(** The writer is not handed the buffer the DMA plays.  After [i2s_slc_begin] and any run, underflows
    included, at most seven buffers are queued for the writer, all different, all of the
    ring, and the buffer the DMA plays now is not one of them. *)
Theorem i2s_queue_apart ops s : fresh_i2s s ->
  wp (i2s_slc_begin;; i2s_runs log_init ops) (fun _ s' =>
    zlen (queued s') <= 7 /\ NoDup (queued s') /\ queued s' ⊆ (it_buf_ptr <$> i2s_slc_items (i2s s')) /\
    exists p, playing_buf s' = Some p /\ p ∉ queued s') s.
Proof using hw.
  intros Hf. eapply wp_mono; [by apply begin_runs_ok|]. cbv beta. intros l s' (bufs & Hok & _ & _). pose proof Hok as [].
  set (F := eof_count (io s')) in *. split; [|split; [|split]].
  - unfold queued, zlen. rewrite length_take. lia.
  - apply NoDup_alt. intros i j p Hi Hj. destruct (queued_lookup _ _ _ _ _ Hok Hi) as [Hi1 ->].
    destruct (queued_lookup _ _ _ _ _ Hok Hj) as [Hj1 E]. apply (bufn_near bufs) in E; [lia|done|done|lia].
  - intros p [i Hi]%list_elem_of_lookup_1. destruct (queued_lookup _ _ _ _ _ Hok Hi) as [_ ->]. rewrite ok_items. by apply bufn_elem.
  - exists (bufn bufs F). split; [unfold playing_buf; rewrite ok_items; by apply bufn_lookup|].
    intros [i Hi]%list_elem_of_lookup_1. destruct (queued_lookup _ _ _ _ _ Hok Hi) as [Hi1 E].
    apply (bufn_near bufs) in E; [lia|done|done|lia].
Qed.

(** ** Waiting *)

(** The trace after one more turn of the waiting loop without an interrupt. *)
Definition poll_trace (h : list event) : list event :=
  let h1 := h ++ [Ext ets_wdt_disable [] (u32 (dev_ext h ets_wdt_disable []))] in
  h1 ++ [Ext ets_wdt_enable [] (u32 (dev_ext h1 ets_wdt_enable []))].

(** However long the writer has been waiting, the interrupt comes at some turn. *)
Definition irq_comes : Prop :=
  forall f : nat -> list event, (forall i, f (S i) = poll_trace (f i)) -> exists i, slc_irq (f i) = true.

Lemma poll_quiet h : exists es, poll_trace h = h ++ es /\ Forall i2s_quiet es.
Proof. unfold poll_trace. rewrite <- app_assoc. eexists. split; [done|]. by repeat constructor. Qed.

Lemma wait_buf_ok bufs F n s fuel : i2s_ok bufs F (i2s s) -> eof_count (io s) = F -> i2s_slc_queue_len (i2s s) = 0 ->
  slc_irq (Nat.iter n poll_trace (poll_trace (io s))) = true -> (n + 2 <= fuel)%nat ->
  wp (wait_buf fuel) (fun _ s' => i2s_ok bufs (F + 1) (i2s s') /\ eof_count (io s') = F + 1 /\
    i2s_slc_queue_len (i2s s') = 1 /\ no_room (i2s s') = no_room (i2s s) /\
    forall W, i2s_fifo bufs F W (i2s s) -> i2s_fifo bufs (F + 1) W (i2s s')) s.
Proof using hw.
  intros Hok HF Hl Hn Hfu. unfold wait_buf. apply wp_bind.
  assert (forall fuel s, (1 <= fuel)%nat -> 0 < i2s_slc_queue_len (i2s s) -> forall Q : unit + Z -> core -> Prop, Q (inl tt) s ->
    wp (loop fuel (fun _ : unit => len ← get_i2s i2s_slc_queue_len;
        if 0 <? len then mret (Exit (R := Z) tt)
        else _ ← ext ets_wdt_disable []; _ ← ext ets_wdt_enable []; h ← gets io;
             (if slc_irq h then i2s_slc_isr else mret tt);; mret (Next tt)) tt) Q s) as Hexit.
  { clear. intros fuel s Hf H Q HQ. destruct fuel as [|fuel]; [lia|]. cbn [loop]. apply wp_bind, wp_bind, wp_gets.
    destruct (Z.ltb_spec 0 (i2s_slc_queue_len (i2s s))); [|lia]. by apply wp_ret. }
  revert s fuel Hok HF Hl Hn Hfu. induction n as [|n IH]; intros s fuel Hok HF Hl Hn Hfu.
  all: destruct fuel as [|fuel]; [lia|]; cbn [loop]; apply wp_bind, wp_bind, wp_gets; rewrite Hl; cbn [Z.ltb Z.compare].
  all: assert (wp (_ ← ext ets_wdt_disable []; ext ets_wdt_enable []) (fun _ s' => s' = set_io (poll_trace (io s)) s) s) as He by done.
  all: apply wp_bind_inv in He; eapply wp_call; [exact He|]; clear He; cbv beta; intros _ s1 He.
  all: eapply wp_call; [exact He|]; clear He; cbv beta; intros _ ? ->; apply wp_bind, wp_gets; cbn [io set_io].
  all: destruct (poll_quiet (io s)) as (es & Eh & Hes).
  all: assert (eof_count (io (set_io (poll_trace (io s)) s)) = F) as HF1 by (cbn; by rewrite Eh, eof_count_app).
  2: destruct (slc_irq (poll_trace (io s))) eqn:Ei.
  1: cbn in Hn; rewrite Hn.
  1,2: eapply wp_call; [by apply (isr_ok bufs F)|]; cbv beta; intros _ s' (K1 & K2 & K3 & K4 & K5 & K6); cbn [i2s set_io] in *;
    rewrite Hl in *; apply wp_ret, Hexit; [lia|lia|]; apply wp_ret; split; [done|]; split; [done|]; split; [lia|];
    split; [unfold no_room; by rewrite K4, K5|]; intros W HW; apply K6; [lia|done].
  apply wp_bind, wp_ret, wp_ret. apply (IH (set_io (poll_trace (io s)) s)); try done; [|lia].
  cbn [io set_io]. by rewrite <- Nat.iter_succ_r.
Qed.

(** C31: a blocking write returns.  If, however long the writer has been feeding the
    watchdog, the end-of-buffer interrupt comes, then some number of turns of the waiting
    loop is enough for [i2s_write_sample] to return [true] with the sample stored as the
    next one of the stream. *)
Theorem i2s_write_sample_returns bufs W s x : irq_comes ->
  i2s_ok bufs (eof_count (io s)) (i2s s) -> i2s_fifo bufs (eof_count (io s)) W (i2s s) ->
  exists n, forall fuel, (n <= fuel)%nat -> wp (i2s_write_sample fuel x) (fun r s' => r = true /\
    i2s_ok bufs (eof_count (io s')) (i2s s') /\ i2s_fifo bufs (eof_count (io s')) (W ++ [x]) (i2s s')) s.
Proof using hw.
  intros Hirq Hok Hff. destruct (Hirq (fun i => Nat.iter i poll_trace (poll_trace (io s)))) as [n Hn]; [done|].
  exists (n + 2)%nat. intros fuel Hfu. unfold i2s_write_sample. apply wp_bind, wp_gets.
  set (F := eof_count (io s)) in *.
  assert (forall F s, i2s_ok bufs F (i2s s) -> eof_count (io s) = F -> i2s_fifo bufs F W (i2s s) ->
    (no_room (i2s s) = true -> 1 <= i2s_slc_queue_len (i2s s)) ->
    wp ((if no_room (i2s s) then take_buf else mret tt);; put_sample x;; mret true) (fun r s' => r = true /\
      i2s_ok bufs (eof_count (io s')) (i2s s') /\ i2s_fifo bufs (eof_count (io s')) (W ++ [x]) (i2s s')) s) as Hst.
  { clear. intros F s Hok HF Hff Hr. eapply wp_mono; [by apply (store_ok bufs F)|]. cbv beta. intros r s' (-> & K1 & K2 & K3).
    rewrite K2. split; [done|]. split; [done|]. by apply K3. }
  destruct (no_room (i2s s)) eqn:E; [|specialize (Hst F s Hok eq_refl Hff); rewrite E in Hst; by apply Hst].
  apply wp_bind, wp_bind, wp_gets. pose proof (ok_qlen _ _ _ Hok). destruct (Z.eqb_spec (i2s_slc_queue_len (i2s s)) 0) as [El | El].
  - eapply wp_call; [by apply (wait_buf_ok bufs F n)|]. cbv beta. intros _ s' (K1 & K2 & K3 & K4 & K5). apply wp_bind_inv.
    specialize (Hst (F + 1) s' K1 K2 (K5 _ Hff)). rewrite K4, E in Hst. apply Hst. lia.
  - apply wp_bind, wp_ret. specialize (Hst F s Hok eq_refl Hff). rewrite E in Hst. apply wp_bind_inv, Hst. lia.
Qed.
End proof.

(** ** A run *)

(** The least of 1 to 8 that is not in a list. *)
Definition fresh_addr (l : list Z) : Z := default 0 (head (filter (fun p => p ∉ l) (seqZ 1 8))).

Lemma fresh_addr_ok l : zlen l <= 7 -> 1 <= fresh_addr l <= 8 /\ fresh_addr l ∉ l.
Proof.
  intros Hl. unfold fresh_addr. destruct (filter (fun p => p ∉ l) (seqZ 1 8)) as [|p k] eqn:E.
  - exfalso. assert (seqZ 1 8 ⊆+ l) as Hs.
    { apply NoDup_submseteq; [apply NoDup_seqZ|]. intros p Hp. destruct (decide (p ∈ l)) as [|Hn]; [done|].
      assert (p ∈ filter (fun p => p ∉ l) (seqZ 1 8)) as Hf by (by apply list_elem_of_filter). rewrite E in Hf. by apply not_elem_of_nil in Hf. }
    apply submseteq_length in Hs. rewrite length_seqZ in Hs. unfold zlen in Hl. lia.
  - assert (p ∈ filter (fun p => p ∉ l) (seqZ 1 8)) as Hf by (rewrite E; by left). apply list_elem_of_filter in Hf as [Hn Hp%elem_of_seqZ].
    cbn. split; [lia|done].
Qed.

#[local] Instance i2s_tool : Toolchain := {|
  sym_onPinInterrupt := 1; sym_timer0_isr_handler := 2; sym_timer1_isr_handler := 3; sym_pwm_timer_isr := 4;
  sym_i2s_slc_isr := 5; sym_i2s_slc_items := 4096; sym_uart0_write_char := 6; sym_uart1_write_char := 7;
  sym_uart_ignore_char := 8; builtin_ctz_0 := -1 |}.

#[local] Instance i2s_dev : Device := {|
  dev_rd := fun h a => if a =? SLCRXEDA then item_addr (eof_count h mod 8) else if a =? I2SIS then I2SITE else 0;
  dev_ext := fun h f _ => match f with c_malloc => fresh_addr (mallocs h) | _ => 0 end |}.

(** The interrupt comes after a while. *)
#[local] Instance i2s_irq : SlcIrq := fun h => (100 <=? length h)%nat.

#[local] Instance i2s_hw : SlcHardware.
Proof.
  split.
  - intros h. reflexivity.
  - intros h. change (u32 (item_addr (eof_count h mod 8)) = item_addr (eof_count h mod 8)). by apply Z.mod_mod.
  - intros h l Hl. destruct (fresh_addr_ok _ Hl) as [H1 H2]. cbn. rewrite u32_small by lia. split; [lia|done].
Qed.

Lemma irq_comes_ok : irq_comes.
Proof.
  intros f Hf. exists 50%nat. unfold slc_irq, i2s_irq. apply Nat.leb_le.
  assert (forall i, (2 * i <= length (f i))%nat) as Hl; [|apply (Hl 50%nat)].
  induction i as [|i IH]; [lia|]. rewrite Hf. unfold poll_trace. rewrite !length_app. cbn [length]. lia.
Qed.

Lemma core_init_fresh : fresh_i2s core_init.
Proof. by vm_compute. Qed.

(** Two buffers are played and 66 samples written; six and a half more buffers are played
    and 64 more samples written; 40 more words are played. *)
Definition i2s_demo : list i2s_op :=
  replicate 128 WordPlayed ++ (WriteSample <$> seqZ 1000 66) ++ replicate 416 WordPlayed ++
  (WriteSample <$> seqZ 1066 64) ++ replicate 40 WordPlayed.

Definition played_ok (l : i2s_log) : Prop :=
  underflow l = false -> played l = take (length (played l)) (silence ++ accepted l).

Lemma i2s_plays_what_is_written_witness :
  wp (i2s_slc_begin;; i2s_runs log_init i2s_demo) (fun l _ => played_ok l) core_init /\
  wp (i2s_slc_begin;; i2s_runs log_init i2s_demo) (fun l _ =>
    underflow l = false /\ accepted l = seqZ 1000 130 /\ drop 512 (played l) = seqZ 1000 72) core_init.
Proof.
  split; [|vm_compute; auto].
  eapply wp_mono; [apply (i2s_plays_what_is_written i2s_demo core_init core_init_fresh)|].
  cbv beta. intros l s' H E. by destruct (H E).
Defined.

Lemma i2s_queue_apart_witness :
  wp (i2s_slc_begin;; i2s_runs log_init (replicate 768 WordPlayed)) (fun _ s' => NoDup (queued s')) core_init /\
  wp (i2s_slc_begin;; i2s_runs log_init (replicate 768 WordPlayed)) (fun l s' =>
    underflow l = true /\ queued s' = [6; 7; 8; 1; 2; 3; 4] /\ playing_buf s' = Some 5) core_init.
Proof.
  split; [|vm_compute; auto].
  eapply wp_mono; [apply (i2s_queue_apart (replicate 768 WordPlayed) core_init core_init_fresh)|].
  cbv beta. intros l s' (_ & H & _). exact H.
Defined.

(** The buffer that is being written may come to be played before it is full: writer and
    DMA then share it.  A sample written ahead of the DMA is still played, one written
    behind it is cleared with the buffer. *)
Example i2s_shared_buffer :
  wp (i2s_slc_begin;; i2s_runs log_init
    (replicate 64 WordPlayed ++ [WriteSample 7] ++ replicate 449 WordPlayed ++ [WriteSample 8; WordPlayed; WordPlayed; WriteSample 9]))
    (fun l s' => playing_buf s' = Some (i2s_curr_slc_buf (i2s s')) /\ drop 512 (played l) = [7; 8; 0] /\
      accepted l = [7; 8; 9] /\ underflow l = true) core_init.
Proof. vm_compute. auto. Qed.

Lemma i2s_write_sample_returns_witness :
  wp i2s_slc_begin (fun _ s => exists n, forall fuel, (n <= fuel)%nat ->
    wp (i2s_write_sample fuel 7) (fun r s' => r = true) s) core_init.
Proof.
  eapply wp_mono; [apply (slc_begin_ok core_init core_init_fresh)|].
  cbv beta. intros _ s (bufs & Hok & Hff & HF). rewrite <- HF in Hok, Hff.
  destruct (i2s_write_sample_returns bufs [] s 7 irq_comes_ok Hok Hff) as [n Hn].
  exists n. intros fuel Hfu. eapply wp_mono; [exact (Hn fuel Hfu)|]. cbv beta. intros r s' (H & _). exact H.
Defined.

(** ** What [i2s_begin] does to the interrupt *)

(** The last value written to a register. *)
Definition last_write (a : Z) (h : list event) : option Z :=
  last (omap (fun e => match e with Wr a' v => if a' =? a then Some v else None | _ => None end) h).

(** [i2s_begin] clears the interrupt enable register that [i2s_slc_begin] has set: the
    end-of-buffer interrupt stays off, and the queue never gets a buffer. *)
Example i2s_begin_masks_interrupt :
  wp i2s_slc_begin (fun _ s => last_write I2SIE (io s) = Some (Z.lor I2SITE I2SIFSE)) core_init /\
  wp (i2s_begin 25 23 22) (fun _ s => last_write I2SIE (io s) = Some 0) core_init.
Proof. vm_compute. auto. Qed.
