(* ===== verification/CoreUart.v ===== *)
(** UARTs ([core_esp31b_uart.c]), the LED PWM controllers and the sigma-delta modulator
    ([core_esp31b_ledc_hs.c], [core_esp31b_ledc_ls.c], [core_esp31b_sigma_delta.c]). *)
From S2P Require Import Prelude CSem CoreMmio CoreGpio.
From stdpp Require Import base list numbers option.

Open Scope Z_scope.

Definition UART_TX_FIFO_SIZE : Z := 0x80.
Definition UART0 : Z := 0.
Definition UART1 : Z := 1.
Definition SERIAL_RX_ONLY : Z := 1.
Definition SERIAL_TX_ONLY : Z := 2.

Definition USF (u : Z) : Z := ESP31B_REG (0x000 + 0x10000 * Z.land u 1).
Definition USD (u : Z) : Z := ESP31B_REG (0x014 + 0x10000 * Z.land u 1).
Definition USS (u : Z) : Z := ESP31B_REG (0x01C + 0x10000 * Z.land u 1).
Definition USC0 (u : Z) : Z := ESP31B_REG (0x020 + 0x10000 * Z.land u 1).
Definition USC1 (u : Z) : Z := ESP31B_REG (0x024 + 0x10000 * Z.land u 1).
Definition USTXC : Z := 16.
Definition USRXC : Z := 0.
Definition UCTXRST : Z := 18.
Definition UCRXRST : Z := 17.
Definition U0RXD_IDX : Z := 14.
Definition U0TXD_IDX : Z := 14.
Definition U1RXD_IDX : Z := 17.
Definition U1TXD_IDX : Z := 17.
Definition UART_RXD_IDX (p : Z) : Z := if p =? 0 then U0RXD_IDX else if p =? 1 then U1RXD_IDX else 0.
Definition UART_TXD_IDX (p : Z) : Z := if p =? 0 then U0TXD_IDX else if p =? 1 then U1TXD_IDX else 0.

Record uart_t := mkUart {
  uart_nr : Z; baud_rate : Z; rxEnabled : bool; txEnabled : bool; rxPin : Z; txPin : Z
}.

Section defs.
Context {dev : Device} {tool : Toolchain}.

(** [while(((USS(nr) >> USTXC) & 0xff) > n) delayMicroseconds(1);] *)
Definition tx_wait (fuel : nat) (nr n : Z) : C core unit :=
  _ ← loop fuel (fun _ : unit =>
        v ← rd (USS nr);
        if n <? Z.land (Z.shiftr v USTXC) 0xff then _ ← ext os_delay_us [1]; mret (Next tt) else mret (Exit (R := Z) tt)) tt;
  mret tt.

(** The character is a [char], written as an [int]. *)
Definition uart_write_char (fuel : nat) (uart : uart_t) (c : Z) : C core unit :=
  tx_wait fuel (uart_nr uart) 0x7F;; wr (USF (uart_nr uart)) c.

Definition uart_read_char (uart : uart_t) : C core Z := v ← rd (USF (uart_nr uart)); mret (Z.land v 0xff).
Definition uart_rx_available (uart : uart_t) : C core Z :=
  v ← rd (USS (uart_nr uart)); mret (Z.land (Z.shiftr v USRXC) 0xff).
Definition uart_tx_free (uart : uart_t) : C core Z :=
  v ← rd (USS (uart_nr uart)); mret (u8 (UART_TX_FIFO_SIZE - Z.land (Z.shiftr v USTXC) 0xff)).
Definition uart_wait_tx_empty (fuel : nat) (uart : uart_t) : C core unit := tx_wait fuel (uart_nr uart) 0.

Definition uart_flush (uart : option uart_t) : C core unit :=
  match uart with
  | None => mret tt
  | Some uart =>
      let tmp := 0 in
      let tmp := if rxEnabled uart then Z.lor tmp (Z.shiftl 1 UCRXRST) else tmp in
      let tmp := if txEnabled uart then Z.lor tmp (Z.shiftl 1 UCTXRST) else tmp in
      SET_PERI_REG_MASK (USC0 (uart_nr uart)) tmp;;
      CLEAR_PERI_REG_MASK (USC0 (uart_nr uart)) tmp
  end.

(** The functions that change the structure return it. *)
Definition uart_set_baudrate (uart : option uart_t) (baud : Z) : C core (option uart_t) :=
  match uart with
  | None => mret None
  | Some uart =>
      let uart := mkUart (uart_nr uart) baud (rxEnabled uart) (txEnabled uart) (rxPin uart) (txPin uart) in
      if baud =? 0 then undefined else wr (USD (uart_nr uart)) (Z.quot 80000000 baud);; mret (Some uart)
  end.

Definition uart_get_baudrate (uart : option uart_t) : Z := match uart with None => 0 | Some uart => baud_rate uart end.

Definition uart_init (nr baudrate config mode rx tx : Z) : C core (option uart_t) :=
  if negb (nr =? UART0) && negb (nr =? UART1) then mret None
  else if (rx =? -1) && (tx =? -1) then mret None
  else
    p ← ext c_malloc [12];
    if p =? 0 then mret None
    else
      let uart := mkUart nr 0 (negb (rx =? -1) && negb (mode =? SERIAL_TX_ONLY)) (negb (tx =? -1) && negb (mode =? SERIAL_RX_ONLY)) rx tx in
      (if rxEnabled uart then
         if (nr =? UART0) && (rx =? 3) then pinMode (u8 rx) SPECIAL
         else pinMode (u8 rx) INPUT;; pinMode (u8 rx) FUNCTION_0;; pinMatrixInAttach (u8 rx) (UART_RXD_IDX nr)
       else mret tt);;
      (if txEnabled uart then
         if (nr =? UART0) || (tx =? 1) then pinMode (u8 tx) SPECIAL
         else pinMode (u8 tx) OUTPUT;; pinMode (u8 tx) FUNCTION_0;; pinMatrixOutAttach (u8 tx) (UART_TXD_IDX nr)
       else mret tt);;
      uart_flush (Some uart);;
      uart ← uart_set_baudrate (Some uart) baudrate;
      wr (USC0 nr) config;;
      wr (USC1 nr) 0;;
      mret uart.

(** [free] is given the structure's address. *)
Definition uart_uninit (uart : option uart_t) (p : Z) : C core unit :=
  match uart with
  | None => mret tt
  | Some uart =>
      (if rxEnabled uart then
         pinMode (u8 (rxPin uart)) INPUT;;
         if negb (uart_nr uart =? 0) || negb (rxPin uart =? 3) then pinMatrixInDetach (UART_RXD_IDX (uart_nr uart)) false else mret tt
       else mret tt);;
      (if txEnabled uart then
         pinMode (u8 (txPin uart)) INPUT;;
         if negb (uart_nr uart =? 0) || negb (txPin uart =? 1) then pinMatrixInDetach (UART_TXD_IDX (uart_nr uart)) false else mret tt
       else mret tt);;
      _ ← ext c_free [p]; mret tt
  end.

Definition uart_ignore_char (c : Z) : C core unit := mret tt.
Definition uart0_write_char (fuel : nat) (c : Z) : C core unit := tx_wait fuel 0 0x7F;; wr (USF 0) c.
Definition uart1_write_char (fuel : nat) (c : Z) : C core unit := tx_wait fuel 1 0x7F;; wr (USF 1) c.

Definition uart_set_debug (uart : uart_t) : C core unit :=
  modify (set_uart_debug_nr (uart_nr uart));;
  n ← gets s_uart_debug_nr;
  _ ← ext ets_install_putc1 [if n =? 0 then sym_uart0_write_char else if n =? 1 then sym_uart1_write_char else sym_uart_ignore_char];
  mret tt.

Definition uart_get_debug : C core Z := gets s_uart_debug_nr.

End defs.

(** The LED PWM controller ([core_esp31b_ledc_hs.c], [core_esp31b_ledc_ls.c]: high
    speed and low speed channels) and the sigma-delta modulator
    ([core_esp31b_sigma_delta.c]). *)

Definition DR_REG_LEDC_BASE : Z := 0x60019000.
Definition DR_REG_GPIO_SD_BASE : Z := 0x60004f00.
Definition LEDC_HS_SIG_OUT0_IDX : Z := 71.
Definition LEDC_LS_SIG_OUT0_IDX : Z := 79.
Definition GPIO_SD0_OUT_IDX : Z := 100.

Section defs.
Context {dev : Device}.

(** [if(l) SET_PERI_REG_MASK(a, m); else CLEAR_PERI_REG_MASK(a, m);] *)
Definition reg_flag (a m : Z) (l : bool) : C core unit := if l then SET_PERI_REG_MASK a m else CLEAR_PERI_REG_MASK a m.

(** ** High speed *)

Definition LEDC_HSTIMER_CONF (t : Z) : Z := DR_REG_LEDC_BASE + 0x0144 + t * 8.
Definition LEDC_HSCH_CONF0 (c : Z) : Z := DR_REG_LEDC_BASE + 0x0000 + c * 0x14.
Definition LEDC_HSCH_CONF1 (c : Z) : Z := DR_REG_LEDC_BASE + 0x000c + c * 0x14.
Definition LEDC_HSCH_HPOINT (c : Z) : Z := DR_REG_LEDC_BASE + 0x0004 + c * 0x14.
Definition LEDC_HSCH_DUTY (c : Z) : Z := DR_REG_LEDC_BASE + 0x0008 + c * 0x14.

Definition HSTIMER_STOP (t : Z) : C core unit := SET_PERI_REG_MASK (LEDC_HSTIMER_CONF t) (BIT 24).
Definition HSTIMER_START (t : Z) : C core unit := CLEAR_PERI_REG_MASK (LEDC_HSTIMER_CONF t) (BIT 24).
Definition HSTIMER_DIV_NUM (t d : Z) : C core unit := SET_PERI_REG_BITS (LEDC_HSTIMER_CONF t) 0x3FFFF d 5.
Definition HSTIMER_LIM (t l : Z) : C core unit := SET_PERI_REG_BITS (LEDC_HSTIMER_CONF t) 0x1F l 0.

Definition HSCH_TIMER_SEL (c t : Z) : C core unit := SET_PERI_REG_BITS (LEDC_HSCH_CONF0 c) 3 t 0.
Definition HSCH_IDLE_LVL (c : Z) (l : bool) : C core unit := reg_flag (LEDC_HSCH_CONF0 c) (BIT 3) l.
Definition HSCH_SIG_OUT_EN (c : Z) : C core unit := SET_PERI_REG_MASK (LEDC_HSCH_CONF0 c) (BIT 2).
Definition HSCH_SIG_OUT_DIS (c : Z) : C core unit := CLEAR_PERI_REG_MASK (LEDC_HSCH_CONF0 c) (BIT 2).
Definition HSCH_HPOINT (c h : Z) : C core unit := SET_PERI_REG_BITS (LEDC_HSCH_HPOINT c) 0xFFFFF h 0.
Definition HSCH_DUTY (c d : Z) : C core unit := SET_PERI_REG_BITS (LEDC_HSCH_DUTY c) 0x1FFFFFF d 0.
Definition HSCH_DUTY_INC (c : Z) (i : bool) : C core unit := reg_flag (LEDC_HSCH_CONF1 c) (BIT 30) i.
Definition HSCH_DUTY_NUM (c n : Z) : C core unit := SET_PERI_REG_BITS (LEDC_HSCH_CONF1 c) 0x3FF n 20.
Definition HSCH_DUTY_CYCLE (c i : Z) : C core unit := SET_PERI_REG_BITS (LEDC_HSCH_CONF1 c) 0x3FF i 10.
Definition HSCH_DUTY_SCALE (c k : Z) : C core unit := SET_PERI_REG_BITS (LEDC_HSCH_CONF1 c) 0x3FF k 0.
Definition HSCH_DUTY_START (c : Z) : C core unit := SET_PERI_REG_MASK (LEDC_HSCH_CONF1 c) (BIT 31).
Definition HSCH_DUTY_STOP (c : Z) : C core unit := CLEAR_PERI_REG_MASK (LEDC_HSCH_CONF1 c) (BIT 31).

Definition ledc_hs_setup_timer (timer div_num lim : Z) : C core unit :=
  HSTIMER_STOP timer;; HSTIMER_DIV_NUM timer div_num;; HSTIMER_LIM timer lim;; HSTIMER_START timer.

Definition ledc_hs_setup_channel (channel idle hpoint duty : Z) (increase : bool) (num cycle scale : Z) : C core unit :=
  HSCH_IDLE_LVL channel (negb (idle =? 0));;
  HSCH_HPOINT channel hpoint;;
  HSCH_DUTY channel duty;;
  HSCH_DUTY_INC channel increase;;
  HSCH_DUTY_NUM channel num;;
  HSCH_DUTY_CYCLE channel cycle;;
  HSCH_DUTY_SCALE channel scale.

Definition ledc_hs_attach_timer (channel timer : Z) : C core unit := HSCH_TIMER_SEL channel timer.
Definition ledc_hs_start_channel (channel : Z) : C core unit := HSCH_DUTY_START channel;; HSCH_SIG_OUT_EN channel.
Definition ledc_hs_stop_channel (channel : Z) : C core unit := HSCH_DUTY_STOP channel;; HSCH_SIG_OUT_DIS channel.
Definition ledc_hs_attach_pin (pin channel : Z) : C core unit := pinMatrixOutAttach pin (u8 (LEDC_HS_SIG_OUT0_IDX + channel)).
Definition ledc_hs_detach_pin (pin : Z) : C core unit := pinMatrixOutDetach pin.

(** ** Low speed: changes take effect with [PARA_UP] *)

Definition LEDC_LSTIMER_CONF (t : Z) : Z := DR_REG_LEDC_BASE + 0x0164 + t * 8.
Definition LEDC_LSCH_CONF0 (c : Z) : Z := DR_REG_LEDC_BASE + 0x00a0 + c * 0x14.
Definition LEDC_LSCH_CONF1 (c : Z) : Z := DR_REG_LEDC_BASE + 0x00ac + c * 0x14.
Definition LEDC_LSCH_HPOINT (c : Z) : Z := DR_REG_LEDC_BASE + 0x00a4 + c * 0x14.
Definition LEDC_LSCH_DUTY (c : Z) : Z := DR_REG_LEDC_BASE + 0x00a8 + c * 0x14.

Definition LSTIMER_STOP (t : Z) : C core unit := SET_PERI_REG_MASK (LEDC_LSTIMER_CONF t) (BIT 24).
Definition LSTIMER_START (t : Z) : C core unit := CLEAR_PERI_REG_MASK (LEDC_LSTIMER_CONF t) (BIT 24).
Definition LSTIMER_DIV_NUM (t d : Z) : C core unit := SET_PERI_REG_BITS (LEDC_LSTIMER_CONF t) 0x3FFFF d 5.
Definition LSTIMER_LIM (t l : Z) : C core unit := SET_PERI_REG_BITS (LEDC_LSTIMER_CONF t) 0x1F l 0.
Definition LSTIMER_PARA_UP (t : Z) : C core unit := SET_PERI_REG_MASK (LEDC_LSTIMER_CONF t) (BIT 26).

Definition LSCH_TIMER_SEL (c t : Z) : C core unit := SET_PERI_REG_BITS (LEDC_LSCH_CONF0 c) 3 t 0.
Definition LSCH_IDLE_LVL (c : Z) (l : bool) : C core unit := reg_flag (LEDC_LSCH_CONF0 c) (BIT 3) l.
Definition LSCH_SIG_OUT_EN (c : Z) : C core unit := SET_PERI_REG_MASK (LEDC_LSCH_CONF0 c) (BIT 2).
Definition LSCH_SIG_OUT_DIS (c : Z) : C core unit := CLEAR_PERI_REG_MASK (LEDC_LSCH_CONF0 c) (BIT 2).
Definition LSCH_HPOINT (c h : Z) : C core unit := SET_PERI_REG_BITS (LEDC_LSCH_HPOINT c) 0xFFFFF h 0.
Definition LSCH_DUTY (c d : Z) : C core unit := SET_PERI_REG_BITS (LEDC_LSCH_DUTY c) 0x1FFFFFF d 0.
Definition LSCH_DUTY_INC (c : Z) (i : bool) : C core unit := reg_flag (LEDC_LSCH_CONF1 c) (BIT 30) i.
Definition LSCH_DUTY_NUM (c n : Z) : C core unit := SET_PERI_REG_BITS (LEDC_LSCH_CONF1 c) 0x3FF n 20.
Definition LSCH_DUTY_CYCLE (c i : Z) : C core unit := SET_PERI_REG_BITS (LEDC_LSCH_CONF1 c) 0x3FF i 10.
Definition LSCH_DUTY_SCALE (c k : Z) : C core unit := SET_PERI_REG_BITS (LEDC_LSCH_CONF1 c) 0x3FF k 0.
Definition LSCH_DUTY_START (c : Z) : C core unit := SET_PERI_REG_MASK (LEDC_LSCH_CONF1 c) (BIT 31).
Definition LSCH_DUTY_STOP (c : Z) : C core unit := CLEAR_PERI_REG_MASK (LEDC_LSCH_CONF1 c) (BIT 31).
Definition LSCH_PARA_UP (c : Z) : C core unit := SET_PERI_REG_MASK (LEDC_LSCH_CONF0 c) (BIT 4).
Definition LSCH_PARA_DOWN (c : Z) : C core unit := CLEAR_PERI_REG_MASK (LEDC_LSCH_CONF0 c) (BIT 4).

Definition ledc_ls_setup_timer (timer div_num lim : Z) : C core unit :=
  LSTIMER_STOP timer;; LSTIMER_DIV_NUM timer div_num;; LSTIMER_LIM timer lim;; LSTIMER_PARA_UP timer;; LSTIMER_START timer.

Definition ledc_ls_setup_channel (channel idle hpoint duty : Z) (increase : bool) (num cycle scale : Z) : C core unit :=
  LSCH_IDLE_LVL channel (negb (idle =? 0));;
  LSCH_HPOINT channel hpoint;;
  LSCH_DUTY channel duty;;
  LSCH_DUTY_INC channel increase;;
  LSCH_DUTY_NUM channel num;;
  LSCH_DUTY_CYCLE channel cycle;;
  LSCH_DUTY_SCALE channel scale.

Definition ledc_ls_attach_timer (channel timer : Z) : C core unit := LSCH_TIMER_SEL channel timer.
Definition ledc_ls_start_channel (channel : Z) : C core unit :=
  LSCH_DUTY_START channel;; LSCH_SIG_OUT_EN channel;; LSCH_PARA_UP channel.
Definition ledc_ls_stop_channel (channel : Z) : C core unit :=
  LSCH_DUTY_STOP channel;; LSCH_SIG_OUT_DIS channel;; LSCH_PARA_DOWN channel.
Definition ledc_ls_attach_pin (pin channel : Z) : C core unit := pinMatrixOutAttach pin (u8 (LEDC_LS_SIG_OUT0_IDX + channel)).
Definition ledc_ls_detach_pin (pin : Z) : C core unit := pinMatrixOutDetach pin.

(** ** Sigma-delta *)

Definition SIGMADELTA (c : Z) : Z := DR_REG_GPIO_SD_BASE + c * 4.
Definition SIGMADELTA_CG : Z := DR_REG_GPIO_SD_BASE + 0x20.
Definition SIGMADELTA_PRESCALE (c p : Z) : C core unit := SET_PERI_REG_BITS (SIGMADELTA c) 0xFF p 8.
Definition SIGMADELTA_IN (c i : Z) : C core unit := SET_PERI_REG_BITS (SIGMADELTA c) 0xFF i 0.
Definition SIGMADELTA_CLK_EN : C core unit := SET_PERI_REG_MASK SIGMADELTA_CG (BIT 31).
Definition SIGMADELTA_CLK_DIS : C core unit := CLEAR_PERI_REG_MASK SIGMADELTA_CG (BIT 31).

Definition sd_detach_pin (pin : Z) : C core unit := pinMatrixOutDetach pin.
Definition sd_attach_pin (pin channel : Z) : C core unit := pinMatrixOutAttach pin (u8 (GPIO_SD0_OUT_IDX + channel)).

Definition sd_set_prescale (channel prescale : Z) : C core unit :=
  SIGMADELTA_PRESCALE channel prescale;; SIGMADELTA_CLK_DIS;; SIGMADELTA_CLK_EN.

Definition sd_set_freq (channel freq : Z) : C core unit :=
  if u32 (freq * 32) =? 0 then undefined
  else
    let prescale := u32 (10000000 / u32 (freq * 32) - 1) in
    let prescale := if 0xFF <? prescale then 0xFF else prescale in
    sd_set_prescale channel (u8 prescale);;
    _ ← ext os_printf [10000000 / ((prescale + 1) * 32)];
    mret tt.

Definition sd_write (channel in_ : Z) : C core unit := SIGMADELTA_IN channel (u8 (in_ + 128)).

End defs.
