(* ===== verification/DhcpServer.v ===== *)
(** The DHCP server of the access point ([variants/esp31bsrc/lwip/apps/dhcpserver.c],
    as built with [LWIP_ESP8266]): the pool of leases, the parser of requests, the
    replies, the lease timer and the configuration.

    Addresses are 32-bit words as the code holds them, in network byte order on a
    little-endian machine.  Memory management, the UDP layer and the access point's
    configuration are external: [DhcpEnv] gives the result of every call as any
    function of the events so far. *)
From S2P Require Import Prelude CSem.
From stdpp Require Import base list numbers option.

Open Scope Z_scope.

(** ** Constants *)

Definition DHCPS_STARTED : Z := 0.
Definition DHCPS_STOP : Z := 1.
Definition DHCPS_MAX_LEASE : Z := 0x64.
Definition BOOTP_BROADCAST : Z := 0x8000.
Definition DHCP_REPLY : Z := 2.
Definition DHCP_HTYPE_ETHERNET : Z := 1.
Definition DHCPS_SERVER_PORT : Z := 67.
Definition DHCPS_CLIENT_PORT : Z := 68.
Definition DHCPDISCOVER : Z := 1.
Definition DHCPOFFER : Z := 2.
Definition DHCPREQUEST : Z := 3.
Definition DHCPDECLINE : Z := 4.
Definition DHCPACK : Z := 5.
Definition DHCPNAK : Z := 6.
Definition DHCPRELEASE : Z := 7.
Definition DHCP_OPTION_SUBNET_MASK : Z := 1.
Definition DHCP_OPTION_ROUTER : Z := 3.
Definition DHCP_OPTION_DNS_SERVER : Z := 6.
Definition DHCP_OPTION_REQ_IPADDR : Z := 50.
Definition DHCP_OPTION_LEASE_TIME : Z := 51.
Definition DHCP_OPTION_MSG_TYPE : Z := 53.
Definition DHCP_OPTION_SERVER_ID : Z := 54.
Definition DHCP_OPTION_INTERFACE_MTU : Z := 26.
Definition DHCP_OPTION_PERFORM_ROUTER_DISCOVERY : Z := 31.
Definition DHCP_OPTION_BROADCAST_ADDRESS : Z := 28.
Definition DHCP_OPTION_END : Z := 255.
Definition MAX_STATION_NUM : Z := 8.
Definition DHCPS_STATE_OFFER : Z := 1.
Definition DHCPS_STATE_ACK : Z := 3.
Definition DHCPS_STATE_NAK : Z := 4.
Definition DHCPS_STATE_IDLE : Z := 5.
Definition DHCPS_STATE_RELEASE : Z := 6.
Definition magic_cookie : Z := 0x63538263.
Definition DHCPS_LEASE_TIME_DEF : Z := 120.
Definition DHCP_STOPPED : Z := 0.
Definition OFFER_START : Z := 0.
Definition OFFER_ROUTER : Z := 1.
Definition OFFER_END : Z := 2.

Definition htonl (n : Z) : Z :=
  Z.lor (Z.shiftl (Z.land n 0xff) 24) (Z.lor (Z.shiftl (Z.land n 0xff00) 8)
    (Z.lor (Z.shiftr (Z.land n 0xff0000) 8) (Z.shiftr (Z.land n 0xff000000) 24))).

(** ** State *)

Record dhcps_pool := mkPool { ip : Z; mac : list Z; lease_timer : Z }.
(** A node of the list of leases, with its address and that of its pool entry. *)
Record list_node := mkNode { n_addr : Z; n_pool_addr : Z; pnode : dhcps_pool }.
Record dhcps_lease_t := mkLease { enable : bool; start_ip : Z; end_ip : Z }.

(** External functions; [d_gw] and [d_ip] are the fields [tcpip_dep_get_ip_info] fills. *)
Inductive dext : Type :=
  | d_malloc | d_free | d_pbuf_alloc | d_pbuf_ref | d_pbuf_free | d_udp_new | d_udp_remove | d_udp_bind | d_udp_recv
  | d_udp_disconnect | d_udp_sendto | d_gw | d_ip | d_printf.

(** A call with its result; a datagram sent, with destination and port. *)
Inductive devent : Type :=
  | DExt (f : dext) (args : list Z) (r : Z)
  | DSend (payload : list Z) (dst port : Z).

(** [env_block]: what a block from [malloc] holds. *)
Class DhcpEnv : Type := {
  env_ext : list devent -> dext -> list Z -> Z;
  env_block : list devent -> Z -> Z
}.

Record dhcps := mkDhcps {
  DhcpsFlags : Z; pcb_dhcps : Z; dhcps_pcb : Z; broadcast_dhcps : Z; server_address : Z; client_address : Z;
  client_address_plus : Z; dhcps_lease : dhcps_lease_t; plist : list list_node; offer : Z; renew : bool;
  dhcps_lease_time : Z; dtrace : list devent
}.

(** The static variables before [dhcps_start]; [dhcps_pcb] is the interface's. *)
Definition dhcps_init : dhcps :=
  mkDhcps DHCPS_STOP 0 0 0 0 0 0 (mkLease false 0 0) [] 0xFF false DHCPS_LEASE_TIME_DEF [].

Definition set_client (a : Z) (s : dhcps) : dhcps :=
  mkDhcps (DhcpsFlags s) (pcb_dhcps s) (dhcps_pcb s) (broadcast_dhcps s) (server_address s) a (client_address_plus s)
    (dhcps_lease s) (plist s) (offer s) (renew s) (dhcps_lease_time s) (dtrace s).
Definition set_plus (a : Z) (s : dhcps) : dhcps :=
  mkDhcps (DhcpsFlags s) (pcb_dhcps s) (dhcps_pcb s) (broadcast_dhcps s) (server_address s) (client_address s) a
    (dhcps_lease s) (plist s) (offer s) (renew s) (dhcps_lease_time s) (dtrace s).
Definition set_lease (l : dhcps_lease_t) (s : dhcps) : dhcps :=
  mkDhcps (DhcpsFlags s) (pcb_dhcps s) (dhcps_pcb s) (broadcast_dhcps s) (server_address s) (client_address s)
    (client_address_plus s) l (plist s) (offer s) (renew s) (dhcps_lease_time s) (dtrace s).
Definition set_plist (l : list list_node) (s : dhcps) : dhcps :=
  mkDhcps (DhcpsFlags s) (pcb_dhcps s) (dhcps_pcb s) (broadcast_dhcps s) (server_address s) (client_address s)
    (client_address_plus s) (dhcps_lease s) l (offer s) (renew s) (dhcps_lease_time s) (dtrace s).
Definition set_offer (o : Z) (s : dhcps) : dhcps :=
  mkDhcps (DhcpsFlags s) (pcb_dhcps s) (dhcps_pcb s) (broadcast_dhcps s) (server_address s) (client_address s)
    (client_address_plus s) (dhcps_lease s) (plist s) o (renew s) (dhcps_lease_time s) (dtrace s).
Definition set_renew (b : bool) (s : dhcps) : dhcps :=
  mkDhcps (DhcpsFlags s) (pcb_dhcps s) (dhcps_pcb s) (broadcast_dhcps s) (server_address s) (client_address s)
    (client_address_plus s) (dhcps_lease s) (plist s) (offer s) b (dhcps_lease_time s) (dtrace s).
Definition set_lease_time (t : Z) (s : dhcps) : dhcps :=
  mkDhcps (DhcpsFlags s) (pcb_dhcps s) (dhcps_pcb s) (broadcast_dhcps s) (server_address s) (client_address s)
    (client_address_plus s) (dhcps_lease s) (plist s) (offer s) (renew s) t (dtrace s).
Definition set_dtrace (h : list devent) (s : dhcps) : dhcps :=
  mkDhcps (DhcpsFlags s) (pcb_dhcps s) (dhcps_pcb s) (broadcast_dhcps s) (server_address s) (client_address s)
    (client_address_plus s) (dhcps_lease s) (plist s) (offer s) (renew s) (dhcps_lease_time s) h.
Definition set_server (fl pcb npcb bc sv : Z) (s : dhcps) : dhcps :=
  mkDhcps fl pcb npcb bc sv (client_address s) (client_address_plus s) (dhcps_lease s) (plist s) (offer s) (renew s)
    (dhcps_lease_time s) (dtrace s).

(** ** The list of leases *)

(** The list is sorted by address. *)
Fixpoint insert_after (x : list_node) (h : list_node) (t : list list_node) : list list_node :=
  match t with
  | [] => [h; x]
  | n :: t' => if ip (pnode x) <? ip (pnode n) then h :: x :: n :: t' else h :: insert_after x n t'
  end.

Definition node_insert_to_list (l : list list_node) (x : list_node) : list list_node :=
  match l with
  | [] => [x]
  | h :: t => if ip (pnode x) <? ip (pnode h) then x :: h :: t else insert_after x h t
  end.

(** The loop goes on behind a node it has unlinked, from that node's successor. *)
Fixpoint unlink (a : Z) (t : list list_node) : list list_node :=
  match t with
  | [] => []
  | n :: t' => if n_addr n =? a then match t' with [] => [] | x :: t'' => x :: unlink a t'' end else n :: unlink a t'
  end.

Definition node_remove_from_list (l : list list_node) (a : Z) : list list_node :=
  match l with
  | [] => []
  | h :: t => if n_addr h =? a then t else h :: unlink a t
  end.

(** The four bytes of an address in memory. *)
Definition ip_bytes (a : Z) : list Z := enc32 a.

(** ** Messages: the 548 bytes of [struct dhcps_msg] *)

Definition sizeof_dhcps_msg : Z := 548.
Definition o_op : Z := 0.
Definition o_secs : Z := 8.
Definition o_flags : Z := 10.
Definition o_ciaddr : Z := 12.
Definition o_yiaddr : Z := 16.
Definition o_siaddr : Z := 20.
Definition o_giaddr : Z := 24.
Definition o_chaddr : Z := 28.
Definition o_sname : Z := 44.
Definition o_file : Z := 108.
Definition o_options : Z := 236.

Definition add_msg_type (t : Z) : list Z := [DHCP_OPTION_MSG_TYPE; 1; t].
Definition add_end : list Z := [DHCP_OPTION_END].

Section defs.
Context {env : DhcpEnv}.

Definition demit (e : devent) : C dhcps unit := modify (fun s => set_dtrace (dtrace s ++ [e]) s).
Definition dcall (f : dext) (args : list Z) : C dhcps Z :=
  h ← gets dtrace; let r := env_ext h f args in demit (DExt f args r);; mret r.
Definition dcall_ (f : dext) (args : list Z) : C dhcps unit := _ ← dcall f args; mret tt.

(** The options of an offer or acknowledgement. *)
Definition add_offer_options : C dhcps (list Z) :=
  ipadd ← gets server_address;
  t ← gets dhcps_lease_time;
  o ← gets offer;
  let b := ip_bytes ipadd in
  router ← (if negb (Z.land o OFFER_ROUTER =? 0) then g ← dcall d_gw []; mret ([DHCP_OPTION_ROUTER; 4] ++ ip_bytes g) else mret []);
  mret ([DHCP_OPTION_SUBNET_MASK; 4; 255; 255; 255; 0]
    ++ [DHCP_OPTION_LEASE_TIME; 4] ++ rev (enc32 (u32 (t * 60)))
    ++ [DHCP_OPTION_SERVER_ID; 4] ++ b
    ++ router
    ++ [DHCP_OPTION_DNS_SERVER; 4] ++ b
    ++ [DHCP_OPTION_BROADCAST_ADDRESS; 4] ++ take 3 b ++ [255]
    ++ [DHCP_OPTION_INTERFACE_MTU; 2; 0x02; 0x40]
    ++ [DHCP_OPTION_PERFORM_ROUTER_DISCOVERY; 1; 0x00]
    ++ [43; 6; 0x01; 4; 0x00; 0x00; 0x00; 0x02]).

(** [xid], [chaddr] and the rest of [ciaddr]'s neighbours stay as the client sent them. *)
Definition create_msg (m : list Z) : C dhcps (list Z) :=
  client ← gets client_address;
  let m := splice m o_op [DHCP_REPLY; DHCP_HTYPE_ETHERNET; 6; 0] in
  let m := splice m o_secs [0; 0] in
  let m := splice m o_flags (rev (enc16 BOOTP_BROADCAST)) in
  let m := splice m o_yiaddr (ip_bytes client) in
  let m := splice m o_ciaddr (replicate 4 0) in
  let m := splice m o_siaddr (replicate 4 0) in
  let m := splice m o_giaddr (replicate 4 0) in
  let m := splice m o_sname (replicate 64 0) in
  let m := splice m o_file (replicate 128 0) in
  let m := splice m o_options (replicate 312 0) in
  mret (splice m o_options (enc32 magic_cookie)).

(** Copies the message into a pbuf and broadcasts it. *)
Definition send_msg (m : list Z) : C dhcps unit :=
  p ← dcall d_pbuf_alloc [sizeof_dhcps_msg];
  if p =? 0 then mret tt
  else
    b ← gets broadcast_dhcps;
    pcb ← gets pcb_dhcps;
    demit (DSend m b DHCPS_CLIENT_PORT);;
    _ ← dcall d_udp_sendto [pcb; p];
    r ← dcall d_pbuf_ref [p];
    if negb (r =? 0) then dcall_ d_pbuf_free [p] else mret tt.

Definition send_offer (m : list Z) : C dhcps unit :=
  m ← create_msg m;
  o ← add_offer_options;
  send_msg (splice m (o_options + 4) (add_msg_type DHCPOFFER ++ o ++ add_end)).

Definition send_nak (m : list Z) : C dhcps unit :=
  m ← create_msg m;
  send_msg (splice m (o_options + 4) (add_msg_type DHCPNAK ++ add_end)).

Definition send_ack (m : list Z) : C dhcps unit :=
  m ← create_msg m;
  o ← add_offer_options;
  send_msg (splice m (o_options + 4) (add_msg_type DHCPACK ++ o ++ add_end)).

(** ** Parsing *)

(** A byte of the message; reads outside it are undefined. *)
Definition mbyte (m : list Z) (i : Z) : C dhcps Z :=
  if i <? 0 then undefined else match m !! Z.to_nat i with Some b => mret b | None => undefined end.

(** The state after the loop, and what the message type makes of it. *)
Definition option_state (client : Z) (m : list Z) (p : Z) : C dhcps Z :=
  if zlen m <? p + 6 then undefined
  else mret (if bool_decide (ip_bytes client = slice m (p + 2) 4) then DHCPS_STATE_ACK else DHCPS_STATE_NAK).

Definition type_state (type st : Z) (renew : bool) : Z :=
  if type =? DHCPDISCOVER then DHCPS_STATE_OFFER
  else if type =? DHCPREQUEST then
    if negb ((st =? DHCPS_STATE_ACK) || (st =? DHCPS_STATE_NAK)) then if renew then DHCPS_STATE_ACK else DHCPS_STATE_NAK else st
  else if type =? DHCPDECLINE then DHCPS_STATE_IDLE
  else if type =? DHCPRELEASE then DHCPS_STATE_RELEASE
  else st.

(** The options are those from byte 240 on; each turn moves on by 2 or more within the
    548 bytes. *)
Definition parse_options (m : list Z) (len : Z) : C dhcps Z :=
  client ← gets client_address;
  let stop := o_options + 4 + len in
  r ← loop 300 (fun l : Z * Z * Z =>
        let '(p, type, st) := l in
        if p <? stop then
          o ← mbyte m p;
          if o =? DHCP_OPTION_END then mret (Exit l)
          else
            l ← (if o =? DHCP_OPTION_MSG_TYPE then t ← mbyte m (p + 2); mret (t, st)
                 else if o =? DHCP_OPTION_REQ_IPADDR then st ← option_state client m p; mret (type, st)
                 else mret (type, st));
            n ← mbyte m (p + 1);
            mret (Next (p + (n + 2), l.1, l.2))
        else mret (Exit (R := Z) l)) (o_options + 4, 0, DHCPS_STATE_IDLE);
  b ← gets renew;
  match r with inl (_, type, st) => mret (type_state type st b) | inr v => mret v end.

Definition ip_next (a : Z) : Z := htonl (u32 (htonl a + 1)).

(** The loop over the leases: the lease of the client's MAC (then [Some]), or the
    first address not in use by the end of the list ([first], while [flag] is not set). *)
Fixpoint search_pool (done todo : list list_node) (chaddr ciaddr : list Z) (first : Z) (flag : bool) : C dhcps (option list_node * Z) :=
  match todo with
  | [] => mret (None, first)
  | n :: t =>
      plus ← gets client_address_plus;
      if bool_decide (mac (pnode n) = chaddr) then
        (if bool_decide (ip_bytes (ip (pnode n)) = ciaddr) then modify (set_renew true) else mret tt);;
        modify (set_client (ip (pnode n)));;
        time ← gets dhcps_lease_time;
        let n := mkNode (n_addr n) (n_pool_addr n) (mkPool (ip (pnode n)) (mac (pnode n)) time) in
        modify (set_plist (done ++ n :: t));;
        mret (Some n, first)
      else
        (if ip (pnode n) =? plus then modify (set_plus (ip_next plus));; modify (set_client (ip_next plus)) else mret tt);;
        let '(first, flag) :=
          if flag then (first, flag) else if first <? ip (pnode n) then (first, true) else (ip_next first, flag) in
        search_pool (done ++ [n]) t chaddr ciaddr first flag
  end.

(** A new lease of [client_address], linked into the list. *)
Definition new_lease (chaddr : list Z) : C dhcps list_node :=
  a ← dcall d_malloc [16];
  if a =? 0 then undefined
  else
    c ← gets client_address;
    t ← gets dhcps_lease_time;
    b ← dcall d_malloc [8];
    if b =? 0 then undefined
    else
      let n := mkNode b a (mkPool c chaddr t) in
      l ← gets plist;
      modify (set_plist (node_insert_to_list l n));;
      mret n.

(** Unlinks and frees a lease. *)
Definition drop_lease (n : option list_node) : C dhcps unit :=
  match n with
  | None => mret tt
  | Some n =>
      l ← gets plist;
      modify (set_plist (node_remove_from_list l (n_addr n)));;
      dcall_ d_free [n_addr n];;
      dcall_ d_free [n_pool_addr n]
  end.

(** The client's lease, an old or a new one, if there is an address for it. *)
Definition find_lease (chaddr ciaddr : list Z) : C dhcps (option list_node) :=
  lease ← gets dhcps_lease;
  plus ← gets client_address_plus;
  modify (set_client plus);;
  modify (set_renew false);;
  l ← gets plist;
  r ← search_pool [] l chaddr ciaddr (start_ip lease) false;
  match r with
  | (Some n, _) => mret (Some n)
  | (None, first) =>
      plus ← gets client_address_plus;
      (if end_ip lease <? plus then modify (set_client first) else mret tt);;
      c ← gets client_address;
      if end_ip lease <? c then modify (set_plus (start_ip lease));; mret None
      else
        n ← new_lease chaddr;
        modify (set_plus (if c =? end_ip lease then start_ip lease else ip_next c));;
        mret (Some n)
  end.

Definition parse_msg (m : list Z) (len : Z) : C dhcps Z :=
  if bool_decide (slice m o_options 4 = enc32 magic_cookie) then
    node ← find_lease (slice m o_chaddr 6) (slice m o_ciaddr 4);
    lease ← gets dhcps_lease;
    c ← gets client_address;
    if (end_ip lease <? c) || (c =? 0) then drop_lease node;; mret 4
    else
      ret ← parse_options m (s16 len);
      (if ret =? DHCPS_STATE_RELEASE then drop_lease node;; modify (set_client 0) else mret tt);;
      mret ret
  else mret 0.

(** A datagram as the list of the pbuf's segments, of which the first two are copied. *)
Definition handle_dhcp (p : list (list Z)) : C dhcps unit :=
  match p with
  | [] => mret tt
  | seg :: next =>
      a ← dcall d_malloc [sizeof_dhcps_msg];
      if a =? 0 then undefined
      else
        h ← gets dtrace;
        let m := (fun i => u8 (env_block h i)) <$> seqZ 0 sizeof_dhcps_msg in
        let m := splice m 0 (replicate 4 0) in
        let tlen := s16 (zlen (concat p)) in
        let data := seg ++ default [] (head next) in
        if sizeof_dhcps_msg <? zlen data then undefined
        else
          let m := splice m 0 data in
          r ← parse_msg m (u16 (tlen - 240));
          (if r =? DHCPS_STATE_OFFER then send_offer m
           else if r =? DHCPS_STATE_ACK then send_ack m
           else if r =? DHCPS_STATE_NAK then send_nak m
           else mret tt);;
          dcall_ d_pbuf_free [];;
          dcall_ d_free [a]
  end.

(** ** Start and stop *)

(** Whether a configured range is usable with the server's address. *)
Definition lease_usable (l : dhcps_lease_t) (server : Z) : bool :=
  let softap_ip := htonl server in
  let start := htonl (start_ip l) in
  let stop := htonl (end_ip l) in
  negb ((start <=? softap_ip) && (softap_ip <=? stop))
  && negb (negb (Z.shiftr start 8 =? Z.shiftr softap_ip 8) || negb (Z.shiftr stop 8 =? Z.shiftr softap_ip 8)
           || (DHCPS_MAX_LEASE <? u32 (stop - start))).

Definition wifi_softap_init_dhcps_lease (server : Z) : C dhcps unit :=
  l ← gets dhcps_lease;
  let enable := enable l && lease_usable l server in
  if (enable : bool) then mret tt
  else
    let softap_ip := Z.land (htonl server) 0xFFFFFF00 in
    let local_ip := Z.land (htonl server) 0xFF in
    let local_ip := if 0x80 <=? local_ip then local_ip - DHCPS_MAX_LEASE else local_ip + 1 in
    modify (set_lease (mkLease false (htonl (Z.lor softap_ip local_ip)) (htonl (Z.lor softap_ip (local_ip + DHCPS_MAX_LEASE - 1))))).

(** [info]: the server's address, or NULL.  The failures it reports are not handled:
    [udp_bind] and [udp_recv] then get a null pointer. *)
Definition dhcps_start (info : option Z) : C dhcps unit :=
  old ← gets dhcps_pcb;
  (if negb (old =? 0) then dcall_ d_udp_remove [old] else mret tt);;
  pcb ← dcall d_udp_new [];
  (if (pcb =? 0) || bool_decide (info = None) then dcall_ d_printf [] else mret tt);;
  match info with
  | None => undefined
  | Some server =>
      f ← gets DhcpsFlags;
      modify (set_server f pcb pcb 0xFFFFFFFF server);;
      wifi_softap_init_dhcps_lease server;;
      l ← gets dhcps_lease;
      modify (set_plus (start_ip l));;
      if pcb =? 0 then undefined
      else
        dcall_ d_udp_bind [pcb; DHCPS_SERVER_PORT];;
        dcall_ d_udp_recv [pcb];;
        modify (fun s => set_server DHCPS_STARTED (pcb_dhcps s) (dhcps_pcb s) (broadcast_dhcps s) (server_address s) s)
  end.

(** Removes and frees the leases from the front. *)
Fixpoint free_leases (l : list list_node) : C dhcps unit :=
  match l with
  | [] => mret tt
  | n :: t =>
      k ← gets plist;
      modify (set_plist (node_remove_from_list k (n_addr n)));;
      dcall_ d_free [n_pool_addr n];;
      dcall_ d_free [n_addr n];;
      free_leases t
  end.

(** [netif]: whether the interface's pointer is not NULL. *)
Definition dhcps_stop (netif : bool) : C dhcps unit :=
  if negb netif then dcall_ d_printf []
  else
    pcb ← gets pcb_dhcps;
    dcall_ d_udp_disconnect [pcb];;
    old ← gets dhcps_pcb;
    (if negb (old =? 0) then
       dcall_ d_udp_remove [old];;
       modify (fun s => set_server (DhcpsFlags s) (pcb_dhcps s) 0 (broadcast_dhcps s) (server_address s) s)
     else mret tt);;
    l ← gets plist;
    free_leases l;;
    modify (fun s => set_server DHCPS_STOP (pcb_dhcps s) (dhcps_pcb s) (broadcast_dhcps s) (server_address s) s).

(** ** The lease timer *)

(** Position of the least timer among the nodes behind the head, the first of equal ones. *)
Fixpoint oldest (best : Z) (best_i i : nat) (l : list list_node) : nat :=
  match l with
  | [] => best_i
  | n :: t => if lease_timer (pnode n) <? best then oldest (lease_timer (pnode n)) i (S i) t else oldest best best_i (S i) t
  end.

(** The head is never the one. *)
Definition kill_oldest_dhcps_pool : C dhcps unit :=
  l ← gets plist;
  match l with
  | [] | [_] => undefined
  | h :: minp :: t =>
      let i := oldest (lease_timer (pnode minp)) 1 1 (minp :: t) in
      match l !! i with
      | None => undefined
      | Some n =>
          modify (set_plist (delete i l));;
          dcall_ d_free [n_pool_addr n];;
          dcall_ d_free [n_addr n]
      end
  end.

(** One turn per lease of the list at the start. *)
Fixpoint tick_leases (kept todo : list list_node) : C dhcps unit :=
  match todo with
  | [] => mret tt
  | n :: t =>
      let n := mkNode (n_addr n) (n_pool_addr n) (mkPool (ip (pnode n)) (mac (pnode n)) (u32 (lease_timer (pnode n) - 1))) in
      modify (set_plist (kept ++ n :: t));;
      if lease_timer (pnode n) =? 0 then
        l ← gets plist;
        modify (set_plist (node_remove_from_list l (n_addr n)));;
        dcall_ d_free [n_pool_addr n];;
        dcall_ d_free [n_addr n];;
        tick_leases kept t
      else tick_leases (kept ++ [n]) t
  end.

(** The leases kept are counted in a [u8_t]. *)
Definition dhcps_coarse_tmr : C dhcps unit :=
  l ← gets plist;
  tick_leases [] l;;
  l ← gets plist;
  if MAX_STATION_NUM <=? u8 (zlen l) then kill_oldest_dhcps_pool else mret tt.

(** ** Configuration *)

(** [please]: NULL or a lease range. *)
Definition wifi_softap_set_dhcps_lease (please : option dhcps_lease_t) : C dhcps bool :=
  f ← gets DhcpsFlags;
  match please with
  | None => mret false
  | Some please =>
      if f =? DHCPS_STARTED then mret false
      else if enable please then
        server ← dcall d_ip [];
        let softap_ip := htonl server in
        let start := htonl (start_ip please) in
        let stop := htonl (end_ip please) in
        if (start <=? softap_ip) && (softap_ip <=? stop) then mret false
        else if negb (Z.shiftr start 8 =? Z.shiftr softap_ip 8) || negb (Z.shiftr stop 8 =? Z.shiftr softap_ip 8) then mret false
        else if DHCPS_MAX_LEASE <? u32 (stop - start) then mret false
        else modify (set_lease (mkLease true (start_ip please) (end_ip please)));; mret true
      else
        l ← gets dhcps_lease;
        modify (set_lease (mkLease false (start_ip l) (end_ip l)));; mret true
  end.

(** [DHCP_STOPPED] is 0, as [DHCPS_STARTED] is. *)
Definition wifi_softap_get_dhcps_lease (please : bool) : C dhcps (option (Z * Z)) :=
  l ← gets dhcps_lease;
  f ← gets DhcpsFlags;
  if negb please then mret None
  else if negb (enable l) && (f =? DHCP_STOPPED) then mret None
  else mret (Some (start_ip l, end_ip l)).

(** [optarg]: NULL or the byte it points to. *)
Definition wifi_softap_set_dhcps_offer_option (level : Z) (optarg : option Z) : C dhcps bool :=
  f ← gets DhcpsFlags;
  if bool_decide (optarg = None) && (f =? 0) then mret false
  else if (level <=? OFFER_START) || (OFFER_END <=? level) then mret false
  else if level =? OFFER_ROUTER then
    match optarg with None => undefined | Some b => modify (set_offer (Z.land b 0x01));; mret true end
  else mret false.

Definition wifi_softap_set_dhcps_lease_time (minute : Z) : C dhcps bool :=
  f ← gets DhcpsFlags;
  if f =? DHCPS_STARTED then mret false
  else if minute =? 0 then mret false
  else modify (set_lease_time minute);; mret true.

Definition wifi_softap_reset_dhcps_lease_time : C dhcps bool :=
  f ← gets DhcpsFlags;
  if f =? DHCPS_STARTED then mret false
  else modify (set_lease_time DHCPS_LEASE_TIME_DEF);; mret true.

Definition wifi_softap_get_dhcps_lease_time : C dhcps Z := gets dhcps_lease_time.

End defs.
