(* ===== verification/DhcpProof.v ===== *)
(** The lease pool of [DhcpServer]: addresses, the sorted list of leases, the search for a
    lease, the invariants of the pool and of the memory it uses. *)
From S2P Require Import Prelude CSem DhcpServer.
From Stdlib Require Import Sorted.
From stdpp Require Import base list sorting numbers option gmap.

Open Scope Z_scope.

(** ** Addresses in network byte order *)

Lemma land_field n k : 0 <= k -> Z.land n (Z.shiftl 255 k) = Z.shiftl ((n / 2 ^ k) mod 256) k.
Proof.
  intros Hk. rewrite <- land_255, <- Z.shiftr_div_pow2 by done. apply Z.bits_inj'. intros i Hi.
  rewrite Z.land_spec, !Z.shiftl_spec, Z.land_spec by done. destruct (Z.lt_ge_cases i k).
  - by rewrite !(Z.testbit_neg_r _ (i - k)), !andb_false_r by lia.
  - rewrite Z.shiftr_spec by lia. do 2 f_equal. lia.
Qed.

(** The address with network part [base] and last byte [d]. *)
Definition addr (base d : Z) : Z := base + d * 2 ^ 24.

Lemma htonl_bytes a b c d : 0 <= a < 256 -> 0 <= b < 256 -> 0 <= c < 256 -> 0 <= d < 256 ->
  htonl (a + b * 2 ^ 8 + c * 2 ^ 16 + d * 2 ^ 24) = d + c * 2 ^ 8 + b * 2 ^ 16 + a * 2 ^ 24.
Proof.
  intros Ha Hb Hc Hd. unfold htonl. set (n := a + b * 2 ^ 8 + c * 2 ^ 16 + d * 2 ^ 24).
  change 0xff00 with (Z.shiftl 255 8). change 0xff0000 with (Z.shiftl 255 16). change 0xff000000 with (Z.shiftl 255 24).
  rewrite land_255, !land_field by lia.
  assert (n mod 256 = a /\ (n / 2 ^ 8) mod 256 = b /\ (n / 2 ^ 16) mod 256 = c /\ (n / 2 ^ 24) mod 256 = d) as (-> & -> & -> & ->).
  { change (2 ^ 8) with 256. change (2 ^ 16) with 65536. change (2 ^ 24) with 16777216.
    unfold n. repeat split; Z.to_euclidean_division_equations; lia. }
  clearbody n. rewrite Z.shiftl_shiftl, !Z.shiftr_shiftl_l by lia. cbn [Z.sub Z.add Z.opp Z.pos_sub].
  change (16 - 8) with 8. change (24 - 24) with 0. change (8 + 8) with 16. rewrite Z.shiftl_0_r.
  rewrite (shiftl_lor_add c d 8) by lia. rewrite (shiftl_lor_add b) by lia. rewrite (shiftl_lor_add a) by lia. lia.
Qed.

Lemma htonl_addr base d : 0 <= base < 2 ^ 24 -> 0 <= d < 256 -> exists h, 0 <= h < 2 ^ 24 /\ htonl (addr base d) = 256 * h + d /\
  forall e, 0 <= e < 256 -> htonl (256 * h + e) = addr base e /\ htonl (addr base e) = 256 * h + e.
Proof.
  intros Hb Hd. set (a := base mod 256). set (b := (base / 256) mod 256). set (c := base / 65536).
  assert (0 <= a < 256 /\ 0 <= b < 256 /\ 0 <= c < 256 /\ base = a + b * 2 ^ 8 + c * 2 ^ 16) as (Ha & Hbb & Hc & E).
  { unfold a, b, c. change (2 ^ 8) with 256. change (2 ^ 16) with 65536. repeat split; Z.to_euclidean_division_equations; lia. }
  clearbody a b c.
  assert (forall e, 0 <= e < 256 -> addr base e = a + b * 2 ^ 8 + c * 2 ^ 16 + e * 2 ^ 24) as Hadr by (intros; unfold addr; lia).
  exists (c + b * 2 ^ 8 + a * 2 ^ 16). split; [lia|]. split.
  - rewrite Hadr, htonl_bytes by lia. lia.
  - intros e He. rewrite Hadr by done. split; [|rewrite htonl_bytes by lia; lia].
    replace (256 * (c + b * 2 ^ 8 + a * 2 ^ 16) + e) with (e + c * 2 ^ 8 + b * 2 ^ 16 + a * 2 ^ 24) by lia. by apply htonl_bytes.
Qed.

Lemma ip_next_addr base d : 0 <= base < 2 ^ 24 -> 0 <= d < 255 -> ip_next (addr base d) = addr base (d + 1).
Proof.
  intros Hb Hd. destruct (htonl_addr base d) as (h & Hh & E & He); [done|lia|]. unfold ip_next. rewrite E, u32_small by lia.
  replace (256 * h + d + 1) with (256 * h + (d + 1)) by lia.
  exact (proj1 (He (d + 1) ltac:(lia))).
Qed.

Lemma addr_lt base d e : addr base d < addr base e <-> d < e.
Proof. unfold addr. lia. Qed.

Lemma addr_inj base d e : addr base d = addr base e -> d = e.
Proof. unfold addr. lia. Qed.

(** ** The list *)

Definition n_ip (n : list_node) : Z := ip (pnode n).
Definition n_mac (n : list_node) : list Z := mac (pnode n).

Definition ips_sorted (l : list list_node) : Prop := StronglySorted (fun x y => n_ip x < n_ip y) l.

Lemma insert_after_perm x h t : insert_after x h t ≡ₚ x :: h :: t.
Proof.
  revert h. induction t as [|n t IH]; intros h; cbn; [apply perm_swap|]. destruct (_ <? _).
  - apply perm_swap.
  - rewrite IH. apply perm_swap.
Qed.

Lemma node_insert_perm l x : node_insert_to_list l x ≡ₚ x :: l.
Proof. destruct l as [|h t]; [done|]. cbn. destruct (_ <? _); [done|]. apply insert_after_perm. Qed.

Lemma insert_after_sorted x h t : ips_sorted (h :: t) -> n_ip h < n_ip x -> (forall n, n ∈ t -> n_ip n <> n_ip x) ->
  ips_sorted (insert_after x h t).
Proof.
  revert h. induction t as [|n t IH]; intros h Hs Hx Hn; cbn.
  - repeat constructor. done.
  - inversion Hs as [|? ? Hs' Hh]; subst. inversion Hh as [|? ? Hhn Hht]; subst. inversion Hs' as [|? ? Hs'' Hnt]; subst.
    assert (n_ip n <> n_ip x) by (apply Hn; by left).
    change (ip (pnode x) <? ip (pnode n)) with (n_ip x <? n_ip n). destruct (Z.ltb_spec (n_ip x) (n_ip n)).
    + constructor; [|constructor; [done|by constructor]]. constructor; [done|]. constructor; [done|].
      eapply list.Forall_impl; [eassumption|]. cbn. lia.
    + constructor; [apply IH; [done|lia|]; intros m Hm; apply Hn; by right|].
      rewrite insert_after_perm.
      by repeat constructor.
Qed.

Lemma node_insert_sorted l x : ips_sorted l -> (forall n, n ∈ l -> n_ip n <> n_ip x) -> ips_sorted (node_insert_to_list l x).
Proof.
  destruct l as [|h t]; intros Hs Hn; [by repeat constructor|]. cbn. change (ip (pnode x) <? ip (pnode h)) with (n_ip x <? n_ip h).
  assert (n_ip h <> n_ip x) by (apply Hn; by left). destruct (Z.ltb_spec (n_ip x) (n_ip h)).
  - constructor; [done|]. inversion Hs as [|? ? Hs' Hh]; subst. constructor; [done|]. eapply list.Forall_impl; [eassumption|]. cbn. lia.
  - apply insert_after_sorted; [done|lia|]. intros n Hm. apply Hn. by right.
Qed.

Definition other (a : Z) (n : list_node) : Prop := n_addr n <> a.
#[local] Instance other_dec a n : Decision (other a n) := decide (n_addr n <> a).

Lemma filter_other_out a (l : list list_node) : a ∉ n_addr <$> l -> filter (other a) l = l.
Proof.
  induction l as [|n l IH]; intros H; [done|]. cbn [fmap list_fmap] in H. apply not_elem_of_cons in H as [H1 H2].
  rewrite list.filter_cons, decide_True by (by intros ?). by rewrite IH.
Qed.

Lemma unlink_out a (l : list list_node) : a ∉ n_addr <$> l -> unlink a l = l.
Proof.
  induction l as [|n l IH]; intros H; [done|]. cbn [fmap list_fmap] in H. apply not_elem_of_cons in H as [H1 H2].
  cbn [unlink]. rewrite (proj2 (Z.eqb_neq (n_addr n) a)) by done. by rewrite IH.
Qed.

Lemma unlink_filter a (l : list list_node) : NoDup (n_addr <$> l) -> unlink a l = filter (other a) l.
Proof.
  induction l as [|n l IH]; intros Hd; [done|]. cbn [fmap list_fmap] in Hd. apply list.NoDup_cons in Hd as [Hn Hd]. rewrite list.filter_cons.
  cbn [unlink]. destruct (Z.eqb_spec (n_addr n) a) as [E | E].
  - rewrite decide_False by (by intros ?). rewrite E in Hn. rewrite filter_other_out by done.
    destruct l as [|m l]; [done|]. f_equal. apply unlink_out. cbn [fmap list_fmap] in Hn. by apply not_elem_of_cons in Hn as [_ Hn].
  - rewrite decide_True by done. f_equal. by apply IH.
Qed.

Lemma node_remove_filter a (l : list list_node) : NoDup (n_addr <$> l) -> node_remove_from_list l a = filter (other a) l.
Proof.
  destruct l as [|n l]; intros Hd; [done|]. cbn [fmap list_fmap] in Hd. apply list.NoDup_cons in Hd as [Hn Hd]. rewrite list.filter_cons.
  cbn [node_remove_from_list]. destruct (Z.eqb_spec (n_addr n) a) as [E | E].
  - rewrite decide_False by (by intros ?). rewrite E in Hn. by rewrite filter_other_out.
  - rewrite decide_True by done. f_equal. by apply unlink_filter.
Qed.

Lemma node_remove_app a (k : list list_node) n l : n_addr n = a -> NoDup (n_addr <$> k ++ n :: l) -> node_remove_from_list (k ++ n :: l) a = k ++ l.
Proof.
  intros <- Hd. rewrite node_remove_filter by done. rewrite fmap_app in Hd. apply list.NoDup_app in Hd as (_ & Hk & Hd).
  cbn [fmap list_fmap] in Hd. apply list.NoDup_cons in Hd as [Hn _].
  rewrite list.filter_app, list.filter_cons, decide_False by (by intros H; apply H). rewrite !filter_other_out; [done|done|].
  intros H. apply (Hk _ H). cbn [fmap list_fmap]. by left.
Qed.

(** The DHCP server of [DhcpServer]: invariants of the lease pool and of the memory it
    uses, and what the operations do to them. *)

(** ** Memory *)

(** The blocks in use after a trace; none if a block was freed that was not. *)
Definition live_step (x : option (gset Z)) (e : devent) : option (gset Z) :=
  X ← x;
  match e with
  | DExt d_malloc _ r => Some ({[ r ]} ∪ X)
  | DExt d_free [p] _ => if decide (p ∈ X) then Some (X ∖ {[ p ]}) else None
  | _ => Some X
  end.
Definition live (h : list devent) : option (gset Z) := foldl live_step (Some ∅) h.

Lemma live_snoc h e : live (h ++ [e]) = live_step (live h) e.
Proof. unfold live. by rewrite foldl_app. Qed.

(** [malloc] succeeds with a block not in use. *)
Class DhcpHeap {env : DhcpEnv} : Prop := {
  heap_malloc h l X : live h = Some X -> env_ext h d_malloc l <> 0 /\ env_ext h d_malloc l ∉ X
}.

Definition ptrs (l : list list_node) : list Z := l ≫= (fun n => [n_addr n; n_pool_addr n]).

(** The blocks in use are [held] and those of the leases. *)
Definition mem_ok (held : list Z) (s : dhcps) : Prop :=
  NoDup (held ++ ptrs (plist s)) /\ live (dtrace s) = Some (list_to_set (held ++ ptrs (plist s))).

Lemma ptrs_perm l k : l ≡ₚ k -> ptrs l ≡ₚ ptrs k.
Proof. intros H. unfold ptrs. by rewrite H. Qed.

Lemma ptrs_app l k : ptrs (l ++ k) = ptrs l ++ ptrs k.
Proof. apply bind_app. Qed.

Lemma ptrs_addrs l : NoDup (ptrs l) -> NoDup (n_addr <$> l).
Proof.
  induction l as [|n l IH]; intros H; [constructor|]. change (ptrs (n :: l)) with (n_addr n :: n_pool_addr n :: ptrs l) in H.
  apply list.NoDup_cons in H as [H1 H]. apply list.NoDup_cons in H as [_ H]. cbn [fmap list_fmap]. constructor; [|by apply IH].
  intros (m & E & Hm)%list_elem_of_fmap. apply H1. right. unfold ptrs. apply list_elem_of_bind. exists m. split; [|done]. rewrite E. by left.
Qed.

(** Calls change nothing but the trace; [sent] is what the trace says was sent. *)
Definition sent (h : list devent) : list (list Z * Z * Z) :=
  omap (fun e => match e with DSend m d p => Some (m, d, p) | _ => None end) h.

Definition calls (s s' : dhcps) : Prop := s' = set_dtrace (dtrace s') s /\ sent (dtrace s') = sent (dtrace s).

Lemma calls_refl s : calls s s.
Proof. split; [by destruct s|done]. Qed.

Lemma calls_trans s1 s2 s3 : calls s1 s2 -> calls s2 s3 -> calls s1 s3.
Proof. intros [E1 H1] [E2 H2]. split; [rewrite E2, E1; by destruct s1|congruence]. Qed.

Lemma sent_snoc h e : sent (h ++ [e]) = sent h ++ sent [e].
Proof. apply omap_app. Qed.

Lemma set_free (a : Z) (X : gset Z) : a ∉ X -> ({[ a ]} ∪ X) ∖ {[ a ]} = X.
Proof.
  intros H. apply set_eq. intros x. rewrite elem_of_difference, elem_of_union, elem_of_singleton.
  split; [tauto|]. intros Hx. split; [by right|by intros ->].
Qed.

(** Linking a node in and out of the list. *)
Lemma mem_link n held l' s : mem_ok (n_addr n :: n_pool_addr n :: held) s -> l' ≡ₚ n :: plist s -> mem_ok held (set_plist l' s).
Proof.
  intros [Hd Hl] Hp. unfold mem_ok. cbn [plist dtrace set_plist].
  assert (held ++ ptrs l' ≡ₚ (n_addr n :: n_pool_addr n :: held) ++ ptrs (plist s)) as Hq.
  { rewrite (ptrs_perm _ _ Hp). change (ptrs (n :: plist s)) with (n_addr n :: n_pool_addr n :: ptrs (plist s)). by rewrite <- !Permutation_middle. }
  rewrite Hq. split; [done|]. done.
Qed.

Lemma mem_unlink n held l' s : mem_ok held s -> plist s ≡ₚ n :: l' -> mem_ok (n_addr n :: n_pool_addr n :: held) (set_plist l' s).
Proof.
  intros [Hd Hl] Hp. unfold mem_ok. cbn [plist dtrace set_plist].
  assert ((n_addr n :: n_pool_addr n :: held) ++ ptrs l' ≡ₚ held ++ ptrs (plist s)) as Hq.
  { rewrite (ptrs_perm _ _ Hp). change (ptrs (n :: l')) with (n_addr n :: n_pool_addr n :: ptrs l'). by rewrite <- !Permutation_middle. }
  rewrite Hq. split; [done|]. done.
Qed.

Section calls.
Context {env : DhcpEnv} {heap : DhcpHeap}.

Lemma malloc_ok held l s : mem_ok held s -> wp (dcall d_malloc l) (fun a s' => a <> 0 /\ calls s s' /\ mem_ok (a :: held) s') s.
Proof using heap.
  intros [Hd Hl]. apply wp_bind, wp_gets. cbv zeta. apply wp_bind, wp_modify, wp_ret.
  destruct (heap_malloc (dtrace s) l _ Hl) as [Hn Hf]. split; [done|]. split.
  - split; [by destruct s|]. cbn [dtrace set_dtrace]. rewrite sent_snoc. apply app_nil_r.
  - unfold mem_ok. cbn [dtrace set_dtrace plist app]. split.
    + constructor; [|done]. intros H. apply Hf. by apply elem_of_list_to_set.
    + rewrite live_snoc, Hl. done.
Qed.

Lemma free_ok a held s : mem_ok (a :: held) s -> wp (dcall_ d_free [a]) (fun _ s' => calls s s' /\ mem_ok held s') s.
Proof.
  intros [Hd Hl]. apply wp_bind, wp_bind, wp_gets. cbv zeta. apply wp_bind, wp_modify, wp_ret, wp_ret.
  cbn [app] in Hd, Hl. apply list.NoDup_cons in Hd as [Hn Hd]. split.
  - split; [by destruct s|]. cbn [dtrace set_dtrace]. rewrite sent_snoc. apply app_nil_r.
  - split; [done|]. cbn [dtrace set_dtrace plist]. rewrite live_snoc, Hl. cbn [live_step mbind option_bind].
    rewrite decide_True by (apply elem_of_list_to_set; by left). f_equal. apply set_free. by rewrite elem_of_list_to_set.
Qed.

Lemma call_ok f l held s : f <> d_malloc -> f <> d_free -> mem_ok held s -> wp (dcall f l) (fun _ s' => calls s s' /\ mem_ok held s') s.
Proof.
  intros H1 H2 [Hd Hl]. apply wp_bind, wp_gets. cbv zeta. apply wp_bind, wp_modify, wp_ret. split.
  - split; [by destruct s|]. cbn [dtrace set_dtrace]. rewrite sent_snoc. apply app_nil_r.
  - split; [done|]. cbn [dtrace set_dtrace plist]. rewrite live_snoc, Hl. by destruct f.
Qed.

End calls.

(** ** The client's view of a state: what [find_lease] changes *)

Definition upd (c p : Z) (b : bool) (l : list list_node) (s : dhcps) : dhcps :=
  mkDhcps (DhcpsFlags s) (pcb_dhcps s) (dhcps_pcb s) (broadcast_dhcps s) (server_address s) c p
    (dhcps_lease s) l (offer s) b (dhcps_lease_time s) (dtrace s).

Lemma upd_view c p b l r x s : upd c p b l (set_renew r (set_client x s)) = upd c p b l s.
Proof. done. Qed.

Section pool.
Variables base lo hi : Z.
Hypothesis Hbase : 0 < base < 2 ^ 24.
Hypothesis Hrange : 0 <= lo <= hi /\ hi < 255.

Definition in_pool (a : Z) : Prop := exists d, lo <= d <= hi /\ a = addr base d.

Record leases_ok (l : list list_node) : Prop := {
  lo_sorted : ips_sorted l;
  lo_range : forall n, n ∈ l -> in_pool (n_ip n);
  lo_macs : NoDup (n_mac <$> l)
}.

Record pool_ok (s : dhcps) : Prop := {
  po_start : start_ip (dhcps_lease s) = addr base lo;
  po_end : end_ip (dhcps_lease s) = addr base hi;
  po_plus : in_pool (client_address_plus s);
  po_leases : leases_ok (plist s)
}.

(** ** The search *)

(** The next address [p] and the first unused one [f], among the leases [l] seen. *)
Definition next_ok (l : list list_node) (p : Z) : Prop :=
  lo <= p /\ (forall n, n ∈ l -> n_ip n <> addr base p) /\ (p <= hi \/ p = hi + 1 /\ exists n, n ∈ l /\ n_ip n = addr base hi).

Definition first_ok (l : list list_node) (f : Z) : Prop :=
  lo <= f <= hi + 1 /\ (forall d, lo <= d < f -> exists n, n ∈ l /\ n_ip n = addr base d) /\ (forall n, n ∈ l -> n_ip n < addr base f).

Definition gap_ok (l : list list_node) (f : Z) : Prop := lo <= f <= hi /\ forall n, n ∈ l -> n_ip n <> addr base f.

Lemma sorted_app_lt k n t x : ips_sorted (k ++ n :: t) -> x ∈ k -> n_ip x < n_ip n.
Proof.
  intros H Hx. apply StronglySorted_app_1_elem_of with (x1 := x) (x2 := n) in H; [done|done|by left].
Qed.

Lemma sorted_app_gt k n t x : ips_sorted (k ++ n :: t) -> x ∈ t -> n_ip n < n_ip x.
Proof.
  intros H Hx. unfold ips_sorted in H. apply StronglySorted_app_1_r in H.
  inversion H as [|? ? _ Hn]; subst. by apply (proj1 (List.Forall_forall _ _) Hn), list_elem_of_In.
Qed.

Lemma next_step k n t p : leases_ok (k ++ n :: t) -> next_ok k p ->
  next_ok (k ++ [n]) (if n_ip n =? addr base p then p + 1 else p) /\ (n_ip n = addr base p -> p < 255).
Proof using Hrange.
  intros [Hs Hr _] (H1 & H2 & H3). destruct (Hr n) as (d & Hd & E); [apply elem_of_app; right; by left|].
  destruct (Z.eqb_spec (n_ip n) (addr base p)) as [Ep | Ep].
  - assert (p = d) as -> by (apply (addr_inj base); congruence). split; [|lia]. split; [lia|]. split.
    + intros m [Hm | ->%list_elem_of_singleton]%elem_of_app.
      * pose proof (sorted_app_lt _ _ _ _ Hs Hm). unfold addr in *. lia.
      * unfold addr in *. lia.
    + destruct (Z.eq_dec d hi) as [-> | ?]; [right|left; lia]. split; [lia|]. exists n. split; [apply elem_of_app; right; by left|done].
  - split; [|done]. split; [done|]. split.
    + intros m [Hm | ->%list_elem_of_singleton]%elem_of_app; [by apply H2|done].
    + destruct H3 as [|(? & m & Hm & ?)]; [by left|]. right. split; [done|]. exists m. split; [apply elem_of_app; by left|done].
Qed.

Lemma first_step k n t f : leases_ok (k ++ n :: t) -> first_ok k f ->
  if addr base f <? n_ip n then gap_ok (k ++ n :: t) f else first_ok (k ++ [n]) (f + 1) /\ f < 255.
Proof using Hrange.
  intros [Hs Hr _] (H1 & H2 & H3). destruct (Hr n) as (d & Hd & E); [apply elem_of_app; right; by left|].
  destruct (Z.ltb_spec (addr base f) (n_ip n)) as [Hlt | Hge].
  - rewrite E in Hlt. apply addr_lt in Hlt. split; [lia|]. intros m [Hm | [-> | Hm]%elem_of_cons]%elem_of_app.
    + specialize (H3 m Hm). lia.
    + rewrite E. intros ?%addr_inj. lia.
    + pose proof (sorted_app_gt _ _ _ _ Hs Hm). rewrite E in *. unfold addr in *. lia.
  - assert (d = f) as ->.
    { destruct (Z.lt_trichotomy d f) as [Hlt | [? | Hgt]]; [|done|].
      - destruct (H2 d ltac:(lia)) as (m & Hm & Em). pose proof (sorted_app_lt _ _ _ _ Hs Hm). lia.
      - rewrite E in Hge. unfold addr in Hge. lia. }
    split; [|lia]. split; [lia|]. split.
    + intros e He. destruct (Z.eq_dec e f) as [-> | ?].
      * exists n. split; [apply elem_of_app; right; by left|done].
      * destruct (H2 e ltac:(lia)) as (m & Hm & Em). exists m. split; [apply elem_of_app; by left|done].
    + intros m [Hm | ->%list_elem_of_singleton]%elem_of_app; [specialize (H3 m Hm)|]; unfold addr in *; lia.
Qed.

Definition flag_ok (k l : list list_node) (f : Z) (flag : bool) : Prop := if flag then gap_ok l f else first_ok k f.

(** What the search finds in the leases [l]. *)
Definition found (l : list list_node) (ch ci : list Z) (s : dhcps) (r : option list_node * Z) (s' : dhcps) : Prop :=
  match r with
  | (Some n, _) => exists k n0 t p,
      l = k ++ n0 :: t /\ n_mac n0 = ch /\
      n = mkNode (n_addr n0) (n_pool_addr n0) (mkPool (n_ip n0) ch (dhcps_lease_time s)) /\ lo <= p <= hi /\
      s' = upd (n_ip n0) (addr base p) (renew s || bool_decide (ip_bytes (n_ip n0) = ci)) (k ++ n :: t) s
  | (None, first) => (ch ∉ n_mac <$> l) /\ (exists p f, next_ok l p /\ first = addr base f /\
      (gap_ok l f \/ first_ok l f) /\ s' = upd (addr base p) (addr base p) (renew s) l s)
  end.

Lemma search_ok ch ci todo : forall done s f flag p,
  leases_ok (done ++ todo) -> ch ∉ n_mac <$> done -> next_ok done p -> flag_ok done (done ++ todo) f flag ->
  s = upd (addr base p) (addr base p) (renew s) (done ++ todo) s ->
  wp (search_pool done todo ch ci (addr base f) flag) (found (done ++ todo) ch ci s) s.
Proof using Hbase Hrange.
  induction todo as [|n t IH]; intros k s f flag p Hl Hch Hp Hf Hs; cbn [search_pool].
  - apply wp_ret. rewrite app_nil_r in *. split; [done|]. exists p, f. split; [done|]. split; [done|]. split; [|done].
    destruct flag; [by left|by right].
  - apply wp_bind, wp_gets. case_bool_decide as Hm; [change (mac (pnode n)) with (n_mac n) in Hm|].
    + apply (wp_call _ _ (fun _ s' => s' = set_renew (renew s || bool_decide (ip_bytes (n_ip n) = ci)) s)).
      { unfold n_ip. case_bool_decide; [apply wp_modify; by rewrite orb_true_r|].
        apply wp_ret. rewrite orb_false_r. by destruct s. }
      cbv beta. intros _ ? ->. apply wp_bind, wp_modify, wp_bind, wp_gets. cbv zeta. apply wp_bind, wp_modify, wp_ret.
      exists k, n, t, p. split; [done|]. split; [done|]. split; [by rewrite <- Hm|]. split.
      * destruct Hp as (H1 & _ & [H3 | (H3 & m & Hmk & Em)]); [lia|]. exfalso. destruct Hl as [Hs' Hr _].
        pose proof (sorted_app_lt _ _ _ _ Hs' Hmk) as Hlt. destruct (Hr n) as (d & Hd & E); [apply elem_of_app; right; by left|].
        rewrite Em, E in Hlt. apply addr_lt in Hlt. lia.
      * by destruct s; unfold upd in Hs; cbn in Hs; injection Hs as -> -> ->.
    + assert (client_address_plus s = addr base p) as Hplus by (by rewrite Hs). rewrite Hplus.
      change (ip (pnode n)) with (n_ip n). destruct (next_step k n t p Hl Hp) as [Hp' H255].
      assert (forall b : bool, (b = true -> p < 255) -> wp (if b then modify (set_plus (ip_next (addr base p)));; modify (set_client (ip_next (addr base p))) else mret tt)
        (fun _ s' => let q := if b then p + 1 else p in s' = upd (addr base q) (addr base q) (renew s) (k ++ n :: t) s) s) as Hstep.
      { intros [] Hb; [|by apply wp_ret]. apply wp_bind, wp_modify, wp_modify. rewrite ip_next_addr; [|lia|destruct Hp; specialize (Hb eq_refl); lia].
        by destruct s; unfold upd in Hs; cbn in Hs; injection Hs as -> -> ->. }
      eapply wp_call; [apply Hstep; intros E; apply H255; lia|]. cbv beta zeta. intros _ s' Hs'.
      set (q := if n_ip n =? addr base p then p + 1 else p) in *. clear Hstep.
      assert (exists f' flag', (if flag then (addr base f, flag) else if addr base f <? n_ip n then (addr base f, true) else (ip_next (addr base f), flag))
        = (addr base f', flag') /\ flag_ok (k ++ [n]) (k ++ n :: t) f' flag') as (f' & flag' & -> & Hf').
      { destruct flag; [by exists f, true|]. pose proof (first_step k n t f Hl Hf) as Hfs. destruct (addr base f <? n_ip n).
        - by exists f, true.
        - exists (f + 1), false. destruct Hfs as [Hfs ?]. rewrite ip_next_addr; [done|lia|destruct Hf; lia]. }
      replace (k ++ n :: t) with ((k ++ [n]) ++ t) in * by (by rewrite <- app_assoc).
      eapply wp_mono; [apply (IH (k ++ [n]) s' f' flag' q); try done|].
      * rewrite fmap_app. intros [H | ->%list_elem_of_singleton]%elem_of_app; [done|]. by apply Hm.
      * rewrite Hs'. done.
      * cbv beta. intros [[n'|] first] s2; unfold found; rewrite Hs'; [|by intros].
        intros (k' & n0 & t' & p' & ? & ? & ? & ? & ->). by exists k', n0, t', p'.
Qed.
(** ** Finding the client's lease *)

Lemma renewed k n n' t : n_ip n' = n_ip n -> n_mac n' = n_mac n -> leases_ok (k ++ n :: t) -> leases_ok (k ++ n' :: t).
Proof using base lo hi.
  intros Hi Hm [H1 H2 H3]. split.
  - unfold ips_sorted in *. apply StronglySorted_app in H1 as (H1 & Ha & Hb). apply StronglySorted_app_2.
    + intros x y Hx [-> | Hy]%elem_of_cons; [rewrite Hi|]; apply H1; (done || by (left || right)).
    + done.
    + inversion Hb as [|? ? Hc Hd]; subst. constructor; [done|]. by rewrite Hi.
  - intros m [Hk | [-> | Ht]%elem_of_cons]%elem_of_app; [|rewrite Hi|]; apply H2, elem_of_app; [by left|right; by left|right; by right].
  - rewrite fmap_app in *. cbn [fmap list_fmap] in *. by rewrite Hm.
Qed.

Lemma leases_insert l x : leases_ok l -> in_pool (n_ip x) -> n_mac x ∉ (n_mac <$> l) -> (forall n, n ∈ l -> n_ip n <> n_ip x) ->
  leases_ok (node_insert_to_list l x).
Proof using base lo hi.
  intros [H1 H2 H3] Hx Hm Hn. pose proof (node_insert_perm l x) as Hp. split.
  - by apply node_insert_sorted.
  - intros n. rewrite Hp. intros [-> | Hl]%elem_of_cons; [done|by apply H2].
  - rewrite Hp. by constructor.
Qed.

Lemma fmap_sublist {A B} (f : A -> B) (k l : list A) : k `sublist_of` l -> f <$> k `sublist_of` f <$> l.
Proof. induction 1; cbn; by constructor. Qed.

Lemma leases_sub l k : leases_ok l -> k `sublist_of` l -> leases_ok k.
Proof using base lo hi.
  intros [H1 H2 H3] Hs. split.
  - induction Hs as [|x k l Hs IH|x k l Hs IH]; [done| |].
    + inversion H1 as [|? ? Ha Hb]; subst. constructor.
      * apply IH; [done| |by inversion H3]. intros n Hn. apply H2. by right.
      * apply List.Forall_forall. intros y Hy. apply (proj1 (List.Forall_forall _ _) Hb). apply list_elem_of_In. apply list_elem_of_In in Hy.
        by eapply elem_of_sublist.
    + inversion H1; subst. apply IH; [done| |by inversion H3]. intros n Hn. apply H2. by right.
  - intros n Hn. apply H2. by eapply elem_of_sublist.
  - eapply sublist_NoDup; [exact H3|]. by apply fmap_sublist.
Qed.

(** What stays the same: the configuration, and what has been sent. *)
Definition framed (s s' : dhcps) : Prop :=
  dhcps_lease s' = dhcps_lease s /\ server_address s' = server_address s /\ dhcps_lease_time s' = dhcps_lease_time s /\
  broadcast_dhcps s' = broadcast_dhcps s /\ offer s' = offer s /\ sent (dtrace s') = sent (dtrace s).

Lemma framed_refl s : framed s s.
Proof using. done. Qed.

Lemma framed_trans s1 s2 s3 : framed s1 s2 -> framed s2 s3 -> framed s1 s3.
Proof using. unfold framed. intros (?&?&?&?&?&?) (?&?&?&?&?&?). repeat split; congruence. Qed.

Lemma framed_calls s s' : calls s s' -> framed s s'.
Proof using. intros [E H]. rewrite E in *. repeat split; try done. Qed.

Lemma pool_ok_calls s s' : calls s s' -> pool_ok s -> pool_ok s'.
Proof using base lo hi. intros [E _] [H1 H2 H3 H4]. rewrite E. by split. Qed.

Definition full (l : list list_node) : Prop := forall d, lo <= d <= hi -> exists n, n ∈ l /\ n_ip n = addr base d.

(** The lease found for the hardware address [ch]; [ci] is the client's own address. *)
Definition leased (ch ci : list Z) (s : dhcps) (r : option list_node) (s' : dhcps) : Prop :=
  match r with
  | Some n =>
      n ∈ plist s' /\ n_mac n = ch /\ lease_timer (pnode n) = dhcps_lease_time s /\ client_address s' = n_ip n /\
      (forall m, n_mac m <> ch -> m ∈ plist s' <-> m ∈ plist s) /\
      (forall m, m ∈ plist s -> n_mac m = ch -> n_ip m = n_ip n) /\
      renew s' = bool_decide (ch ∈ n_mac <$> plist s) && bool_decide (ip_bytes (n_ip n) = ci)
  | None => (ch ∉ n_mac <$> plist s) /\ plist s' = plist s /\ client_address s' = addr base (hi + 1) /\ renew s' = false /\
      full (plist s)
  end.

Lemma key_unique {B} (f : list_node -> B) (l : list list_node) x y : NoDup (f <$> l) -> x ∈ l -> y ∈ l -> f x = f y -> x = y.
Proof using.
  induction l as [|z l IH]; intros Hd Hx Hy E; [by apply not_elem_of_nil in Hx|]. cbn [fmap list_fmap] in Hd.
  apply list.NoDup_cons in Hd as [Hz Hd]. apply elem_of_cons in Hx as [-> | Hx], Hy as [-> | Hy]; [done| | |by apply IH].
  - exfalso. apply Hz. rewrite E. by apply list_elem_of_fmap_2.
  - exfalso. apply Hz. rewrite <- E. by apply list_elem_of_fmap_2.
Qed.

Lemma leased_old ch ci held s k n0 t p : pool_ok s -> mem_ok held s -> plist s = k ++ n0 :: t -> n_mac n0 = ch -> lo <= p <= hi ->
  let n := mkNode (n_addr n0) (n_pool_addr n0) (mkPool (n_ip n0) ch (dhcps_lease_time s)) in
  let s' := upd (n_ip n0) (addr base p) (bool_decide (ip_bytes (n_ip n0) = ci)) (k ++ n :: t) s in
  pool_ok s' /\ mem_ok held s' /\ framed s s' /\ leased ch ci s (Some n) s'.
Proof using base lo hi.
  intros [H1 H2 H3 H4] Hm El Ec Hpr. cbv zeta. rewrite El in *. split; [|split; [|split]].
  - split; [done|done|by exists p|]. cbn [plist upd]. by apply (renewed _ n0).
  - unfold mem_ok in *. rewrite El in Hm. cbn [plist upd dtrace].
    replace (ptrs (k ++ _ :: t)) with (ptrs (k ++ n0 :: t)) by (by rewrite !ptrs_app). done.
  - done.
  - cbn [leased plist upd client_address renew lease_timer pnode]. destruct H4 as [_ _ Hd].
    split; [apply elem_of_app; right; by left|]. split; [done|]. split; [done|]. split; [done|]. split; [|split].
    + intros m Hc. rewrite El, !elem_of_app, !elem_of_cons.
      assert (m <> n0) by congruence. split; (intros [?|[->|?]]; [by left|done|by (right; right)]).
    + rewrite El. intros m Hmi Hc. by rewrite (key_unique n_mac _ m n0 Hd Hmi ltac:(apply elem_of_app; right; by left) ltac:(congruence)).
    + rewrite El, (bool_decide_true (ch ∈ _)); [done|]. rewrite <- Ec. apply list_elem_of_fmap_2, elem_of_app. right. by left.
Qed.

Lemma candidate l p f : next_ok l p -> gap_ok l f \/ first_ok l f -> let c := if addr base hi <? addr base p then f else p in
  gap_ok l c \/ c = hi + 1 /\ full l.
Proof using.
  intros (Hp & Hpn & Hph) Hf. cbv zeta. destruct (Z.ltb_spec (addr base hi) (addr base p)) as [Hlt%addr_lt | Hge].
  - destruct Hf as [? | (Hf & Hfull & Hlt')]; [by left|]. destruct (Z.eq_dec f (hi + 1)) as [-> | ?].
    + right. split; [done|]. intros d Hd. apply Hfull. lia.
    + left. split; [lia|]. intros m Hm E. specialize (Hlt' m Hm). lia.
  - left. split; [|done]. unfold addr in Hge. lia.
Qed.

Section find.
Context {env : DhcpEnv} {heap : DhcpHeap}.

Lemma new_lease_ok ch held s : mem_ok held s -> wp (new_lease ch) (fun n s' =>
  n_mac n = ch /\ n_ip n = client_address s /\ lease_timer (pnode n) = dhcps_lease_time s /\
  (exists s1, calls s s1 /\ s' = set_plist (node_insert_to_list (plist s) n) s1) /\ mem_ok held s') s.
Proof using heap.
  intros Hm. eapply wp_call; [by apply malloc_ok|]. cbv beta. intros a s1 (Ha & Hc1 & Hm1). rewrite (proj2 (Z.eqb_neq a 0)) by done.
  apply wp_bind, wp_gets, wp_bind, wp_gets. eapply wp_call; [by apply malloc_ok|]. cbv beta. intros b s2 (Hb & Hc2 & Hm2).
  rewrite (proj2 (Z.eqb_neq b 0)) by done. cbv zeta. apply wp_bind, wp_gets, wp_bind, wp_modify, wp_ret.
  pose proof (calls_trans _ _ _ Hc1 Hc2) as Hc. assert (plist s2 = plist s) as -> by (destruct Hc as [-> _]; done).
  split; [done|]. split; [by destruct Hc1 as [-> _]|]. split; [by destruct Hc1 as [-> _]|]. split; [by exists s2|].
  apply (mem_link (mkNode b a (mkPool (client_address s1) ch (dhcps_lease_time s1)))); [done|].
  rewrite node_insert_perm. by destruct Hc as [-> _].
Qed.

Lemma find_new ch ci held c q s0 s : pool_ok s0 -> mem_ok held s -> (ch ∉ n_mac <$> plist s0) -> gap_ok (plist s0) c ->
  s = upd (addr base c) q false (plist s0) s0 ->
  wp (n ← new_lease ch; modify (set_plus (if addr base c =? addr base hi then addr base lo else ip_next (addr base c)));; mret (Some n))
    (fun r s' => pool_ok s' /\ mem_ok held s' /\ framed s0 s' /\ leased ch ci s0 r s') s.
Proof using Hbase Hrange heap.
  intros [H1 H2 H3 H4] Hm Hch [Hc Hg] Es. eapply wp_call; [by apply new_lease_ok|]. cbv beta.
  intros n s' (Hn1 & Hn2 & Hn3 & (s1 & [Ec Hs] & ->) & Hm'). subst s. apply wp_bind, wp_modify, wp_ret.
  cbn [client_address dhcps_lease_time plist upd] in *.
  assert (forall m, m ∈ plist s0 -> n_mac m <> ch) as Hne by (intros m Hmi E; apply Hch; rewrite <- E; by apply list_elem_of_fmap_2).
  rewrite Ec. split; [|split; [|split]].
  - split; [done|done| |].
    + cbn [client_address_plus set_plus]. destruct (Z.eqb_spec (addr base c) (addr base hi)) as [E%addr_inj | E]; [exists lo; split; [lia|done]|].
      exists (c + 1). rewrite ip_next_addr by lia. split; [|done]. destruct (Z.eq_dec c hi) as [->|]; [done|lia].
    + cbn [plist set_plist set_plus]. apply leases_insert; rewrite ?Hn1, ?Hn2; [done|by exists c|done|done].
  - rewrite Ec in Hm'. done.
  - by repeat split.
  - cbn. pose proof (node_insert_perm (plist s0) n) as Hp. rewrite Hp. split; [by left|]. split; [done|]. split; [done|]. split; [done|]. split; [|split].
    + intros m Hmc. rewrite Hp, elem_of_cons. split; [intros [->|]; done|by right].
    + intros m Hmi E. by destruct (Hne m Hmi).
    + by rewrite bool_decide_false.
Qed.

Lemma find_ok ch ci held s : pool_ok s -> mem_ok held s ->
  wp (find_lease ch ci) (fun r s' => pool_ok s' /\ mem_ok held s' /\ framed s s' /\ leased ch ci s r s') s.
Proof using Hbase Hrange heap.
  intros Hpo Hm. pose proof Hpo as [H1 H2 (p0 & Hp0 & H3) H4].
  apply wp_bind, wp_gets, wp_bind, wp_gets, wp_bind, wp_modify, wp_bind, wp_modify, wp_bind, wp_gets. rewrite H1.
  eapply wp_call.
  { apply (search_ok ch ci (plist s) [] _ lo false p0); [done|by intros ?%not_elem_of_nil| | |].
    - split; [lia|]. split; [by intros ? ?%not_elem_of_nil|]. left. lia.
    - split; [lia|]. split; [lia|]. by intros ? ?%not_elem_of_nil.
    - unfold upd, set_renew, set_client. cbn. by rewrite H3. }
  cbn [app]. intros [[n|] fa] s1; unfold found; cbn [dhcps_lease_time renew set_renew set_client orb].
  - intros (k & n0 & t & p & El & Ec & -> & Hpr & ->). rewrite upd_view. apply wp_ret. by apply leased_old.
  - intros (Hch & p & f & Hn & -> & Hf & ->). rewrite upd_view. cbn [plist set_renew set_client] in *.
    set (s1 := upd (addr base p) _ _ _ _). apply wp_bind, wp_gets. change (client_address_plus s1) with (addr base p). rewrite H2.
    assert (exists c, (if addr base hi <? addr base p then f else p) = c /\ (gap_ok (plist s) c \/ c = hi + 1 /\ full (plist s))) as (c & Ec & Hc).
    { eexists. split; [done|]. by apply candidate. }
    apply (wp_call _ _ (fun _ s2 => s2 = upd (addr base c) (addr base p) false (plist s) s)).
    { destruct (_ <? _); [apply wp_modify|apply wp_ret]; by rewrite <- Ec. }
    cbv beta. intros _ s2 E2. apply wp_bind, wp_gets. rewrite E2. cbn [client_address upd]. rewrite <- E2.
    destruct Hc as [Hc | [-> Hfull]].
    + assert ((addr base hi <? addr base c) = false) as -> by (apply Z.ltb_ge; destruct Hc; unfold addr; lia).
      eapply find_new; [done| |done|done|done]. by rewrite E2.
    + assert ((addr base hi <? addr base (hi + 1)) = true) as -> by (apply Z.ltb_lt, addr_lt; lia).
      apply wp_bind, wp_modify, wp_ret. rewrite E2. split; [|split; [done|split; [done|done]]].
      split; [done|done|exists lo; split; [lia|done]|done].
Qed.

End find.

End pool.
