(* ===== verification/DhcpTimer.v ===== *)
(** The DHCP server of [DhcpServer]: removing leases, the lease timer, start and stop. *)
From S2P Require Import Prelude CSem DhcpServer DhcpProof.
From Stdlib Require Import Sorted.
From stdpp Require Import base list sorting numbers option gmap.

Open Scope Z_scope.

Lemma mem_perm held held' s : held ≡ₚ held' -> mem_ok held s -> mem_ok held' s.
Proof. intros Hp [H1 H2]. unfold mem_ok. by rewrite <- Hp. Qed.

Lemma mem_addrs held s : mem_ok held s -> NoDup (n_addr <$> plist s).
Proof. intros [H _]. apply list.NoDup_app in H as (_ & _ & H). by apply ptrs_addrs. Qed.

Section frees.
Context {env : DhcpEnv}.

Lemma free_both a b held s : mem_ok (a :: b :: held) s -> wp (dcall_ d_free [a];; dcall_ d_free [b]) (fun _ s' => calls s s' /\ mem_ok held s') s.
Proof.
  intros Hm. eapply wp_call; [by apply free_ok|]. cbv beta. intros _ s1 [Hc1 Hm1].
  eapply wp_mono; [by apply free_ok|]. cbv beta. intros _ s2 [Hc2 Hm2]. split; [by eapply calls_trans|done].
Qed.

(** Removing a lease that is linked. *)
Lemma drop_node_ok {A} k n t held (rest : C dhcps A) (Q : A -> dhcps -> Prop) s : plist s = k ++ n :: t -> mem_ok held s ->
  (forall s', calls (set_plist (k ++ t) s) s' -> mem_ok held s' -> wp rest Q s') ->
  wp (modify (set_plist (node_remove_from_list (plist s) (n_addr n)));; dcall_ d_free [n_pool_addr n];; dcall_ d_free [n_addr n];; rest) Q s.
Proof.
  intros El Hm HQ. rewrite El, node_remove_app by (done || rewrite <- El; by eapply mem_addrs). apply wp_bind, wp_modify.
  assert (mem_ok (n_pool_addr n :: n_addr n :: held) (set_plist (k ++ t) s)) as Hm'.
  { eapply mem_perm; [apply perm_swap|]. apply mem_unlink; [done|]. rewrite El. by rewrite Permutation_middle. }
  eapply wp_call; [by apply free_ok|]. cbv beta. intros _ s1 [Hc1 Hm1].
  eapply wp_call; [by apply free_ok|]. cbv beta. intros _ s2 [Hc2 Hm2]. apply HQ; [by eapply calls_trans|done].
Qed.

Lemma drop_lease_ok n held s : n ∈ plist s -> mem_ok held s ->
  wp (drop_lease (Some n)) (fun _ s' => exists k t, plist s = k ++ n :: t /\ calls (set_plist (k ++ t) s) s' /\ mem_ok held s') s.
Proof.
  intros (k & t & El)%list_elem_of_split Hm. cbn [drop_lease]. apply wp_bind, wp_gets, wp_bind, wp_modify.
  rewrite El, node_remove_app by (done || rewrite <- El; by eapply mem_addrs).
  eapply wp_mono; [apply (free_both _ _ held)|].
  - apply mem_unlink; [done|]. rewrite El. by rewrite Permutation_middle.
  - cbv beta. intros _ s' [Hc Hm']. by exists k, t.
Qed.

Lemma free_leases_ok l held s : plist s = l -> mem_ok held s ->
  wp (free_leases l) (fun _ s' => calls (set_plist [] s) s' /\ mem_ok held s') s.
Proof.
  revert s. induction l as [|n t IH]; intros s El Hm; cbn [free_leases].
  - apply wp_ret. split; [|done]. rewrite <- El. split; [by destruct s|done].
  - apply wp_bind, wp_gets. apply (drop_node_ok [] n t held); [done|done|]. cbn [app]. intros s' Hc Hm'.
    eapply wp_mono; [apply IH; [by destruct Hc as [-> _]|done]|]. cbv beta. intros _ s2 [Hc2 Hm2]. split; [|done].
    destruct Hc as [E1 H1], Hc2 as [E2 H2]. split; [rewrite E2, E1; done|]. rewrite H2. cbn in *. done.
Qed.

(** ** The timer *)

Definition tick1 (n : list_node) : list_node :=
  mkNode (n_addr n) (n_pool_addr n) (mkPool (ip (pnode n)) (mac (pnode n)) (u32 (lease_timer (pnode n) - 1))).

Definition running (n : list_node) : Prop := lease_timer (pnode n) <> 0.
#[export] Instance running_dec n : Decision (running n) := decide (lease_timer (pnode n) <> 0).

(** The leases after a tick. *)
Definition ticked (l : list list_node) : list list_node := filter running (tick1 <$> l).

Lemma tick_leases_ok held todo : forall kept s, plist s = kept ++ todo -> mem_ok held s ->
  wp (tick_leases kept todo) (fun _ s' => calls (set_plist (kept ++ ticked todo) s) s' /\ mem_ok held s') s.
Proof.
  induction todo as [|n t IH]; intros kept s El Hm; cbn [tick_leases].
  - apply wp_ret. split; [|done]. change (ticked []) with (@nil list_node). rewrite <- El. split; [by destruct s|done].
  - cbv zeta. apply wp_bind, wp_modify. fold (tick1 n). set (s1 := set_plist (kept ++ tick1 n :: t) s).
    assert (mem_ok held s1) as Hm1.
    { unfold mem_ok, s1 in *. cbn [plist set_plist dtrace]. rewrite El in Hm.
      replace (ptrs (kept ++ tick1 n :: t)) with (ptrs (kept ++ n :: t)) by (by rewrite !ptrs_app). done. }
    assert (ticked (n :: t) = if decide (running (tick1 n)) then tick1 n :: ticked t else ticked t) as Et.
    { unfold ticked. cbn [fmap list_fmap]. by rewrite list.filter_cons. }
    rewrite Et. destruct (Z.eqb_spec (lease_timer (pnode (tick1 n))) 0) as [E0 | E0].
    + rewrite decide_False by (intros H; by apply H). apply wp_bind, wp_gets.
      apply (drop_node_ok kept (tick1 n) t held); [done|done|]. intros s2 Hc2 Hm2.
      eapply wp_mono; [apply (IH kept); [by destruct Hc2 as [-> _]|done]|]. cbv beta. intros _ s3 [Hc3 Hm3]. split; [|done].
      destruct Hc2 as [E2 H2], Hc3 as [E3 H3]. split; [rewrite E3, E2; done|]. rewrite H3. cbn in *. done.
    + rewrite decide_True by done. eapply wp_mono; [apply (IH (kept ++ [tick1 n])); [|exact Hm1]|].
      * cbn [plist set_plist s1]. by rewrite <- app_assoc.
      * cbv beta. intros _ s3 [Hc3 Hm3]. split; [|done]. rewrite <- app_assoc in Hc3. done.
Qed.

Lemma oldest_ok best bi i l (all : list list_node) : (bi <= i)%nat -> (forall j n, l !! j = Some n -> all !! (i + j)%nat = Some n) ->
  (exists m, all !! bi = Some m /\ lease_timer (pnode m) = best) ->
  exists m, all !! oldest best bi i l = Some m /\ (bi <= oldest best bi i l)%nat /\ lease_timer (pnode m) <= best /\
    Forall (fun n => lease_timer (pnode m) <= lease_timer (pnode n)) l.
Proof.
  revert best bi i. induction l as [|n l IH]; intros best bi i Hi Hl Hb; cbn [oldest].
  - destruct Hb as (m & Hm & <-). exists m. repeat split; [done|lia|lia|constructor].
  - assert (forall j x, l !! j = Some x -> all !! (S i + j)%nat = Some x) as Hl' by (intros j x Hj; rewrite Nat.add_succ_comm; by apply Hl).
    pose proof (Hl 0%nat n eq_refl) as Hn. rewrite Nat.add_0_r in Hn. destruct (Z.ltb_spec (lease_timer (pnode n)) best).
    + destruct (IH (lease_timer (pnode n)) i (S i) ltac:(lia) Hl' (ex_intro _ n (conj Hn eq_refl))) as (m & Hm & Hge & Hle & Hf).
      exists m. repeat split; [done|lia|lia|]. by constructor.
    + destruct (IH best bi (S i) ltac:(lia) Hl' Hb) as (m & Hm & Hge & Hle & Hf). exists m. repeat split; [done|lia|lia|]. constructor; [lia|done].
Qed.

Lemma delete_middle_of {A} (l : list A) i x : l !! i = Some x -> exists k t, l = k ++ x :: t /\ delete i l = k ++ t.
Proof. intros H. exists (take i l), (drop (S i) l). split; [by rewrite take_drop_middle|by apply delete_take_drop]. Qed.

(** Behind the head, the lease with the least time left goes. *)
Definition evicts (l l' : list list_node) : Prop := exists h k n t, l = h :: k ++ n :: t /\ l' = h :: k ++ t /\
  forall m, m ∈ k ++ t -> lease_timer (pnode n) <= lease_timer (pnode m).

Definition after_tick (l l' : list list_node) : Prop :=
  if u8 (zlen (ticked l)) <? MAX_STATION_NUM then l' = ticked l else evicts (ticked l) l'.

Lemma kill_ok held s : 2 <= zlen (plist s) -> mem_ok held s ->
  wp kill_oldest_dhcps_pool (fun _ s' => exists l', evicts (plist s) l' /\ calls (set_plist l' s) s' /\ mem_ok held s') s.
Proof.
  intros Hlen Hm. apply wp_bind, wp_gets. destruct (plist s) as [|h [|minp t]] eqn:El; [done|done|]. cbv zeta.
  destruct (oldest_ok (lease_timer (pnode minp)) 1 1 (minp :: t) (h :: minp :: t)) as (n & Hn & Hge & _ & Hf); [lia|done|by exists minp|].
  set (i := oldest _ _ _ _) in *. rewrite Hn. destruct i as [|i]; [lia|]. cbn [lookup list_lookup] in Hn. change ((minp :: t) !! i = Some n) in Hn.
  pose proof (delete_middle_of _ _ _ Hn) as (k & t' & Ek & Ed). change (delete (S i) (h :: minp :: t)) with (h :: delete i (minp :: t)). rewrite Ek, Ed in *.
  apply wp_bind, wp_modify. eapply wp_mono; [apply (free_both _ _ held)|].
  - eapply mem_perm; [apply perm_swap|]. apply mem_unlink; [done|]. rewrite El. by rewrite <- Permutation_middle, perm_swap.
  - cbv beta. intros _ s' [Hc Hm']. exists (h :: k ++ t'). split; [|done]. exists h, k, n, t'. split; [done|]. split; [done|].
    intros m Hmi. rewrite List.Forall_forall in Hf. apply Hf, list_elem_of_In. rewrite elem_of_app, elem_of_cons. apply elem_of_app in Hmi. tauto.
Qed.

Lemma coarse_tmr_ok held s : mem_ok held s -> wp dhcps_coarse_tmr (fun _ s' => exists l',
  after_tick (plist s) l' /\ calls (set_plist l' s) s' /\ mem_ok held s') s.
Proof.
  intros Hm. apply wp_bind, wp_gets. eapply wp_call; [by apply (tick_leases_ok held _ [])|]. cbv beta. cbn [app]. intros _ s1 [Hc1 Hm1].
  assert (plist s1 = ticked (plist s)) as E1 by (by destruct Hc1 as [-> _]). apply wp_bind, wp_gets. rewrite E1.
  unfold after_tick. rewrite Z.leb_antisym. destruct (_ <? _) eqn:E; cbn [negb].
  - apply wp_ret. by exists (ticked (plist s)).
  - eapply wp_mono; [apply (kill_ok held); [|done]|].
    + rewrite E1. bools. unfold MAX_STATION_NUM, u8 in E. pose proof (Z.mod_le (zlen (ticked (plist s))) (2 ^ 8) (zlen_nonneg _) ltac:(lia)). lia.
    + cbv beta. rewrite E1. intros _ s2 (l' & He & Hc2 & Hm2). exists l'. split; [done|]. split; [|done].
      destruct Hc1 as [Ec1 H1], Hc2 as [Ec2 H2]. split; [rewrite Ec2, Ec1; done|]. rewrite H2. cbn in *. done.
Qed.

End frees.
