(* ===== verification/DhcpHandle.v ===== *)
(** The DHCP server of [DhcpServer]: the options of a request, the bytes of a reply, and what
    becomes of a datagram. *)
From S2P Require Import Prelude CSem DhcpServer DhcpProof DhcpTimer.
From stdpp Require Import base list numbers option gmap.

Open Scope Z_scope.

(** ** Slices of spliced buffers *)

Lemma slice_splice_out l o src i n : 0 <= o -> o + zlen src <= zlen l -> 0 <= i -> 0 <= n -> i + n <= zlen l -> i + n <= o \/ o + zlen src <= i ->
  slice (splice l o src) i n = slice l i n.
Proof.
  intros Ho Hs Hi Hn Hl Hd. pose proof (length_splice l o src Ho Hs) as E. pose proof (zlen_nonneg src). apply list_eq_zget; rewrite length_slice by lia.
  - by rewrite length_slice by lia.
  - intros j Hj. rewrite !zget_slice, zget_splice by lia. destruct (_ && _) eqn:B; [|done]. bools. lia.
Qed.

Lemma slice_splice_in l o src i n : 0 <= o -> o + zlen src <= zlen l -> o <= i -> 0 <= n -> i + n <= o + zlen src ->
  slice (splice l o src) i n = slice src (i - o) n.
Proof.
  intros Ho Hs Hi Hn Hl. pose proof (length_splice l o src Ho Hs) as E. pose proof (zlen_nonneg src). apply list_eq_zget; rewrite length_slice by lia.
  - by rewrite length_slice by lia.
  - intros j Hj. rewrite !zget_slice, zget_splice by lia. rewrite (proj2 (Z.leb_le o _)), (proj2 (Z.ltb_lt _ _)) by lia. cbn [andb]. f_equal. lia.
Qed.

Lemma slice_full l : slice l 0 (zlen l) = l.
Proof. unfold slice, zlen. rewrite drop_0. apply take_ge. lia. Qed.

Lemma slice_pre (a b c : list Z) : slice (a ++ b ++ c) (zlen a) (zlen b) = b.
Proof. unfold slice, zlen. rewrite !Nat2Z.id, drop_app_length. apply take_app_length. Qed.

(** Several splices, the last one first. *)
Definition splices (l : list Z) (ps : list (Z * list Z)) : list Z := foldr (fun p l => splice l p.1 p.2) l ps.
Definition in_buffer (n : Z) (p : Z * list Z) : Prop := 0 <= p.1 /\ p.1 + zlen p.2 <= n.

(** The slice as far as a single splice determines it. *)
Fixpoint patch_at (l : list Z) (ps : list (Z * list Z)) (i n : Z) : option (list Z) :=
  match ps with
  | [] => Some (slice l i n)
  | p :: t =>
      if (p.1 <=? i) && (i + n <=? p.1 + zlen p.2) then Some (slice p.2 (i - p.1) n)
      else if (i + n <=? p.1) || (p.1 + zlen p.2 <=? i) then patch_at l t i n else None
  end.

Lemma splices_length l ps N : zlen l = N -> Forall (in_buffer N) ps -> zlen (splices l ps) = N.
Proof. intros Hl H. induction H as [|p ps [H1 H2] _ IH]; cbn; [done|]. fold (splices l ps). rewrite length_splice; [done|done|lia]. Qed.

Lemma slice_splices l ps N i n r : zlen l = N -> Forall (in_buffer N) ps -> 0 <= i -> 0 <= n -> i + n <= N -> patch_at l ps i n = Some r ->
  slice (splices l ps) i n = r.
Proof.
  intros Hl H Hi Hn HN. revert r. induction H as [|p ps [H1 H2] Hps IH]; intros r; cbn [patch_at splices foldr]; [by intros [= ->]|].
  fold (splices l ps). pose proof (splices_length l ps N Hl Hps) as E. destruct ((p.1 <=? i) && _) eqn:B.
  - intros [= <-]. bools. apply slice_splice_in; lia.
  - destruct ((i + n <=? p.1) || _) eqn:B2; [|done]. intros Hr. rewrite slice_splice_out; [by apply IH|lia..|].
    apply orb_true_iff in B2 as [?|?]; bools; lia.
Qed.

(** ** Options *)

(** An option as a code and its data; [enc_opt] is its encoding. *)
Definition dopt : Type := Z * list Z.
Definition enc_opt (o : dopt) : list Z := o.1 :: zlen o.2 :: o.2.
Definition enc_opts (l : list dopt) : list Z := l ≫= enc_opt.

Definition opt_ok (o : dopt) : Prop :=
  o.1 <> DHCP_OPTION_END /\ (o.1 = DHCP_OPTION_MSG_TYPE -> o.2 <> []) /\ (o.1 = DHCP_OPTION_REQ_IPADDR -> 4 <= zlen o.2) /\ zlen o.2 <= 255.

(** What the options mean to a server that would give the address [client]. *)
Definition opt_step (client : Z) (x : Z * Z) (o : dopt) : Z * Z :=
  if o.1 =? DHCP_OPTION_MSG_TYPE then (default 0 (head o.2), x.2)
  else if o.1 =? DHCP_OPTION_REQ_IPADDR then (x.1, if bool_decide (ip_bytes client = take 4 o.2) then DHCPS_STATE_ACK else DHCPS_STATE_NAK)
  else x.

Definition opt_result (client : Z) (renew : bool) (l : list dopt) : Z :=
  let x := foldl (opt_step client) (0, DHCPS_STATE_IDLE) l in type_state x.1 x.2 renew.

Lemma enc_opts_app l k : enc_opts (l ++ k) = enc_opts l ++ enc_opts k.
Proof. apply bind_app. Qed.

Lemma enc_opts_length l : 2 * zlen l <= zlen (enc_opts l).
Proof.
  induction l as [|o l IH]; [done|]. change (enc_opts (o :: l)) with (enc_opt o ++ enc_opts l). rewrite zlen_app.
  unfold zlen in *. cbn [length enc_opt]. lia.
Qed.

(** [mbyte] at an offset behind a known prefix. *)
Lemma mbyte_ok a b c k s (Q : Z -> dhcps -> Prop) m i : m = a ++ b ++ c -> i = zlen a + Z.of_nat k -> (k < length b)%nat -> Q (b !!! k) s -> wp (mbyte m i) Q s.
Proof.
  intros -> -> Hk HQ. unfold mbyte. assert ((zlen a + Z.of_nat k <? 0) = false) as -> by (apply Z.ltb_ge; unfold zlen; lia).
  replace (Z.to_nat (zlen a + Z.of_nat k)) with (length a + k)%nat by (unfold zlen; lia).
  rewrite lookup_app_r by lia. replace (length a + k - length a)%nat with k by lia. rewrite lookup_app_l by done.
  rewrite (list_lookup_lookup_total_lt b k) by done. by apply wp_ret.
Qed.

Section options.
Variables (pre rest : list Z) (opts : list dopt) (len : Z).
Hypothesis Hpre : zlen pre = o_options + 4.
Hypothesis Hok : Forall opt_ok opts.
Hypothesis Hlen : zlen (enc_opts opts) <= len.
Let m := pre ++ enc_opts opts ++ DHCP_OPTION_END :: rest.
Hypothesis Hm : zlen m = sizeof_dhcps_msg.

Let folded (client : Z) (l : list dopt) : Z * Z := foldl (opt_step client) (0, DHCPS_STATE_IDLE) l.

(** The message around an option. *)
Lemma opts_split d o t : opts = d ++ o :: t ->
  m = (pre ++ enc_opts d) ++ enc_opt o ++ (enc_opts t ++ DHCP_OPTION_END :: rest) /\
  zlen (pre ++ enc_opts d) = o_options + 4 + zlen (enc_opts d) /\ zlen (enc_opts d) + zlen (enc_opt o) + zlen (enc_opts t) = zlen (enc_opts opts) /\ opt_ok o.
Proof using Hpre Hok.
  intros E. assert (enc_opts opts = enc_opts d ++ enc_opt o ++ enc_opts t) as Ee by (rewrite E, enc_opts_app; done). split; [|split; [|split]].
  - unfold m. rewrite Ee. by rewrite <- !app_assoc.
  - by rewrite zlen_app, Hpre.
  - rewrite Ee, !zlen_app. lia.
  - rewrite E in Hok. apply Forall_app in Hok as [_ Hok']. by inversion Hok'.
Qed.

(** One option's effect on the message type and the state. *)
Lemma option_ok client d o t type st s : opts = d ++ o :: t -> let p := o_options + 4 + zlen (enc_opts d) in
  wp (if o.1 =? DHCP_OPTION_MSG_TYPE then t ← mbyte m (p + 2); mret (t, st)
      else if o.1 =? DHCP_OPTION_REQ_IPADDR then st ← option_state client m p; mret (type, st)
      else mret (type, st)) (fun l s' => s' = s /\ l = opt_step client (type, st) o) s.
Proof using Hpre Hok Hm.
  intros E p. destruct (opts_split d o t E) as (Em & Hp & _ & H1 & H2 & H3 & _). unfold opt_step. destruct (Z.eqb_spec o.1 DHCP_OPTION_MSG_TYPE) as [Eo | _].
  - apply wp_bind. destruct o as [c [|b data]]; [by destruct (H2 Eo)|].
    apply (mbyte_ok _ _ _ 2%nat _ _ _ _ Em); [unfold p; lia|cbn; lia|]. by apply wp_ret.
  - destruct (Z.eqb_spec o.1 DHCP_OPTION_REQ_IPADDR) as [Eo | _]; [|by apply wp_ret]. specialize (H3 Eo).
    assert (zlen (enc_opt o) = 2 + zlen o.2) as Hz by (unfold zlen, enc_opt; cbn [length]; lia).
    apply wp_bind. unfold option_state. assert ((zlen m <? p + 6) = false) as ->.
    { apply Z.ltb_ge. rewrite Em, zlen_app, Hp, zlen_app, Hz. pose proof (zlen_nonneg (enc_opts t ++ DHCP_OPTION_END :: rest)). unfold p. lia. }
    apply wp_ret, wp_ret. split; [done|]. do 2 f_equal. replace (slice m (p + 2) 4) with (take 4 o.2); [done|]. unfold slice. rewrite Em.
    replace (Z.to_nat (p + 2)) with (length (pre ++ enc_opts d) + 2)%nat by (change (Z.of_nat (length (pre ++ enc_opts d)) = p) in Hp; clearbody p; lia).
    rewrite <- drop_drop, drop_app_length. unfold enc_opt. cbn [app skipn]. rewrite drop_0, take_app_le; [done|]. unfold zlen in H3. lia.
Qed.

Lemma parse_options_ok s : wp (parse_options m len) (fun r s' => s' = s /\ r = opt_result (client_address s) (renew s) opts) s.
Proof using Hpre Hok Hlen Hm.
  apply wp_bind, wp_gets. cbv zeta. set (client := client_address s). eapply wp_call.
  { apply (wp_loop_ix (fun n '(p, type, st) s' => s' = s /\ exists d t, opts = d ++ t /\ n = length t /\ p = o_options + 4 + zlen (enc_opts d) /\
      (type, st) = folded client d) _ (fun r s' => s' = s /\ exists p, r = inl (p, (folded client opts).1, (folded client opts).2)) 300 (length opts)).
    - intros n [[p type] st] s' (-> & d & t & E & -> & -> & Ef).
      destruct t as [|o t].
      + rewrite app_nil_r in E. subst d. rewrite <- Ef.
        destruct (_ <? _); [|apply wp_ret; split; [done|by eexists]]. apply wp_bind.
        eapply (mbyte_ok (pre ++ enc_opts opts) [DHCP_OPTION_END] rest 0); [unfold m; by rewrite <- app_assoc|rewrite zlen_app, Hpre; lia|cbn; lia|].
        cbn [lookup_total list_lookup_total]. apply wp_ret. split; [done|by eexists].
      + destruct (opts_split d o t E) as (Em & Hp & Hsum & H1 & _ & _).
        assert (zlen (enc_opt o) = 2 + zlen o.2) as Hz by (unfold zlen, enc_opt; cbn [length]; lia).
        rewrite (proj2 (Z.ltb_lt _ _)) by (pose proof (zlen_nonneg o.2); pose proof (zlen_nonneg (enc_opts t)); lia).
        apply wp_bind, (mbyte_ok _ _ _ 0%nat _ _ _ _ Em); [lia|cbn; lia|]. change (enc_opt o !!! 0%nat) with o.1.
        rewrite (proj2 (Z.eqb_neq _ _)) by done. eapply wp_call; [by apply (option_ok client d o t)|]. cbv beta. intros [ty s1] s' [-> El].
        apply wp_bind, (mbyte_ok _ _ _ 1%nat _ _ _ _ Em); [lia|cbn; lia|]. change (enc_opt o !!! 1%nat) with (zlen o.2).
        apply wp_ret. exists (length t). split; [cbn; lia|]. split; [done|]. exists (d ++ [o]), t. rewrite <- app_assoc. split; [done|]. split; [done|].
        rewrite enc_opts_app, zlen_app. change (enc_opts [o]) with (enc_opt o ++ []). rewrite app_nil_r. split; [lia|].
        unfold folded. rewrite foldl_app. fold (folded client d). rewrite <- Ef. done.
    - pose proof (enc_opts_length opts). assert (zlen (enc_opts opts) <= 308); [|unfold zlen in *; lia].
      unfold m in Hm. rewrite zlen_app, Hpre, zlen_app in Hm. pose proof (zlen_nonneg (DHCP_OPTION_END :: rest)). unfold o_options, sizeof_dhcps_msg in Hm. lia.
    - split; [done|]. exists [], opts. done. }
  cbv beta. intros r s' (-> & p & ->). apply wp_bind, wp_gets. by apply wp_ret.
Qed.
End options.

(** ** Replies *)

(** The fixed part of a reply of the given type to the request [m] for the address [a];
    [opts] are the options behind the type. *)
Record reply_ok (m out : list Z) (type a : Z) (opts : list dopt) : Prop := {
  ro_len : zlen out = sizeof_dhcps_msg;
  ro_op : slice out 0 4 = [DHCP_REPLY; DHCP_HTYPE_ETHERNET; 6; 0];
  ro_xid : slice out 4 4 = slice m 4 4;
  ro_flags : slice out o_flags 2 = [0x80; 0];
  ro_yiaddr : slice out o_yiaddr 4 = ip_bytes a;
  ro_chaddr : slice out o_chaddr 16 = slice m o_chaddr 16;
  ro_cookie : slice out o_options 4 = [0x63; 0x82; 0x53; 0x63];
  ro_options : let e := enc_opts ((DHCP_OPTION_MSG_TYPE, [type]) :: opts) ++ [DHCP_OPTION_END] in slice out (o_options + 4) (zlen e) = e
}.

(** The options of an offer or acknowledgement; [gw]: the router, where it is announced. *)
Definition offered (server : Z) (time : Z) (gw : option Z) : list dopt :=
  [(DHCP_OPTION_SUBNET_MASK, [255; 255; 255; 0]); (DHCP_OPTION_LEASE_TIME, rev (enc32 (u32 (time * 60)))); (DHCP_OPTION_SERVER_ID, ip_bytes server)]
  ++ (match gw with Some g => [(DHCP_OPTION_ROUTER, ip_bytes g)] | None => [] end)
  ++ [(DHCP_OPTION_DNS_SERVER, ip_bytes server); (DHCP_OPTION_BROADCAST_ADDRESS, take 3 (ip_bytes server) ++ [255]);
      (DHCP_OPTION_INTERFACE_MTU, [0x02; 0x40]); (DHCP_OPTION_PERFORM_ROUTER_DISCOVERY, [0]); (43, [1; 4; 0; 0; 0; 2])].

Lemma enc_reply_length (e : list Z) : zlen e <= 308 -> o_options + 4 + zlen e <= sizeof_dhcps_msg.
Proof. unfold o_options, sizeof_dhcps_msg. lia. Qed.

Lemma create_msg_ok m s : zlen m = sizeof_dhcps_msg -> wp (create_msg m) (fun out s' => s' = s /\ zlen out = sizeof_dhcps_msg /\
  forall type opts, let e := enc_opts ((DHCP_OPTION_MSG_TYPE, [type]) :: opts) ++ [DHCP_OPTION_END] in zlen e <= 308 ->
  reply_ok m (splice out (o_options + 4) e) type (client_address s) opts) s.
Proof.
  intros Hm. apply wp_bind, wp_gets. cbv zeta. apply wp_ret. set (c := client_address s).
  set (ps := [(o_options, enc32 magic_cookie); (o_options, replicate 312 0); (o_file, replicate 128 0); (o_sname, replicate 64 0); (o_giaddr, replicate 4 0);
    (o_siaddr, replicate 4 0); (o_ciaddr, replicate 4 0); (o_yiaddr, ip_bytes c); (o_flags, rev (enc16 BOOTP_BROADCAST)); (o_secs, [0; 0]);
    (o_op, [DHCP_REPLY; DHCP_HTYPE_ETHERNET; 6; 0])]).
  change (splice _ o_options (enc32 magic_cookie)) with (splices m ps).
  assert (Forall (in_buffer sizeof_dhcps_msg) ps) as Hps by (unfold ps; repeat constructor; done).
  pose proof (splices_length m ps _ Hm Hps) as Ho. split; [done|]. split; [done|]. intros type opts. cbv zeta. intros He.
  set (e := enc_opts _ ++ _) in *. pose proof (zlen_nonneg e). assert (0 <= o_options + 4) as H0 by done.
  assert (o_options + 4 + zlen e <= zlen (splices m ps)) as Hb by (rewrite Ho; by apply enc_reply_length).
  assert (forall i n r, 0 <= i -> 0 <= n -> i + n <= o_options + 4 -> patch_at m ps i n = Some r -> slice (splice (splices m ps) (o_options + 4) e) i n = r) as Hs.
  { intros i n r Hi Hn Hin Hr. assert (i + n <= sizeof_dhcps_msg) by (unfold o_options, sizeof_dhcps_msg in *; lia).
    rewrite slice_splice_out by (done || rewrite ?Ho; lia). by eapply slice_splices. }
  split.
  - by rewrite length_splice.
  - by apply Hs.
  - by apply Hs.
  - by apply Hs.
  - by apply Hs.
  - by apply Hs.
  - by apply Hs.
  - cbv zeta. fold e. rewrite slice_splice_in by (done || lia). rewrite Z.sub_diag. apply slice_full.
Qed.

(** ** Sending *)

Section send.
Context {env : DhcpEnv}.

(** [s'] is [s] after the message [m] was broadcast, if there was memory for a pbuf. *)
Definition sends (m : list Z) (s s' : dhcps) : Prop :=
  s' = set_dtrace (dtrace s') s /\
  (sent (dtrace s') = sent (dtrace s) ++ [(m, broadcast_dhcps s, DHCPS_CLIENT_PORT)] \/
   sent (dtrace s') = sent (dtrace s) /\ exists h l, env_ext h d_pbuf_alloc l = 0).

Lemma calls_sends m s1 s2 s3 : calls s1 s2 -> sends m s2 s3 -> sends m s1 s3.
Proof using. intros [E1 H1] [E2 H2]. rewrite H1 in H2. split; [rewrite E2, E1; done|]. by rewrite E1 in H2. Qed.

Lemma sends_calls m s1 s2 s3 : sends m s1 s2 -> calls s2 s3 -> sends m s1 s3.
Proof using. intros [E1 H1] [E2 H2]. split; [rewrite E2, E1; done|]. by rewrite H2. Qed.

Lemma call__ok f l held s : f <> d_malloc -> f <> d_free -> mem_ok held s -> wp (dcall_ f l) (fun _ s' => calls s s' /\ mem_ok held s') s.
Proof. intros H1 H2 Hm. eapply wp_call; [by apply call_ok|]. cbv beta. intros _ s' H. by apply wp_ret. Qed.

Lemma send_msg_ok m held s : mem_ok held s -> wp (send_msg m) (fun _ s' => sends m s s' /\ mem_ok held s') s.
Proof.
  intros Hm. apply wp_bind, wp_bind, wp_gets. cbv zeta. set (r := env_ext _ _ _). apply wp_bind, wp_modify, wp_ret.
  set (s1 := set_dtrace _ s). assert (calls s s1 /\ mem_ok held s1) as [Hc1 Hm1].
  { destruct Hm as [Hd Hl]. split; [split; [by destruct s|cbn; rewrite sent_snoc; apply app_nil_r]|split; [done|]].
    unfold s1. cbn. by rewrite live_snoc, Hl. }
  destruct (Z.eqb_spec r 0) as [E | E].
  { apply wp_ret. split; [|done]. destruct Hc1 as [E1 H1]. split; [done|]. right. split; [done|]. by eexists _, _. }
  apply wp_bind, wp_gets, wp_bind, wp_gets, wp_bind, wp_modify. set (s2 := set_dtrace _ s1).
  assert (sends m s s2 /\ mem_ok held s2) as [Hs2 Hm2].
  { split; [apply (calls_sends _ _ _ _ Hc1); split; [done|]; left; unfold s2; cbn [dtrace set_dtrace]; by rewrite sent_snoc|].
    destruct Hm1 as [Hd Hl]. split; [done|]. unfold s2. cbn [dtrace set_dtrace]. rewrite live_snoc, Hl. done. }
  eapply wp_call; [by apply (call_ok d_udp_sendto _ held)|]. cbv beta. intros _ s3 [Hc3 Hm3].
  eapply wp_call; [by apply (call_ok d_pbuf_ref _ held)|]. cbv beta. intros q s4 [Hc4 Hm4].
  pose proof (sends_calls _ _ _ _ (sends_calls _ _ _ _ Hs2 Hc3) Hc4) as Hs4. destruct (negb _); [|by apply wp_ret].
  eapply wp_mono; [by apply (call__ok d_pbuf_free _ held)|]. cbv beta. intros _ s5 [Hc5 Hm5]. split; [by eapply sends_calls|done].
Qed.

Lemma offer_options_ok held s : mem_ok held s -> wp add_offer_options (fun o s' => calls s s' /\ mem_ok held s' /\
  exists gw, (gw = None <-> Z.land (offer s) OFFER_ROUTER = 0) /\ o = enc_opts (offered (server_address s) (dhcps_lease_time s) gw)) s.
Proof.
  intros Hm. apply wp_bind, wp_gets, wp_bind, wp_gets, wp_bind, wp_gets. cbv zeta. destruct (Z.eqb_spec (Z.land (offer s) OFFER_ROUTER) 0) as [E | E].
  - apply wp_bind, wp_ret, wp_ret. split; [apply calls_refl|]. split; [done|]. by exists None.
  - cbn [negb]. apply wp_bind. eapply wp_call; [by apply (call_ok d_gw _ held)|]. cbv beta. intros g s' [Hc Hm']. apply wp_ret, wp_ret.
    split; [done|]. split; [done|]. by exists (Some g).
Qed.

(** An offer or an acknowledgement, and a refusal. *)
Definition reply_options (full : bool) (s : dhcps) (opts : list dopt) : Prop :=
  if full then exists gw, (gw = None <-> Z.land (offer s) OFFER_ROUTER = 0) /\ opts = offered (server_address s) (dhcps_lease_time s) gw
  else opts = [].
Definition replied (m : list Z) (type a : Z) (full : bool) (s s' : dhcps) : Prop := exists out opts,
  reply_ok m out type a opts /\ reply_options full s opts /\ sends out s s'.

Lemma send_full_ok type m held s : zlen m = sizeof_dhcps_msg -> mem_ok held s ->
  wp (m ← create_msg m; o ← add_offer_options; send_msg (splice m (o_options + 4) (add_msg_type type ++ o ++ add_end)))
    (fun _ s' => replied m type (client_address s) true s s' /\ mem_ok held s') s.
Proof.
  intros Hl Hm. eapply wp_call; [by apply create_msg_ok|]. cbv beta. intros out s' (-> & Ho & Hr).
  eapply wp_call; [by apply (offer_options_ok held)|]. cbv beta. intros o s1 (Hc1 & Hm1 & gw & Hg & ->).
  eapply wp_mono; [by apply (send_msg_ok _ held)|]. cbv beta. intros _ s2 [Hs2 Hm2]. split; [|done].
  eexists _, _. split; [|split; [by exists gw|by eapply calls_sends]]. apply Hr. by destruct gw.
Qed.

Lemma send_nak_ok m held s : zlen m = sizeof_dhcps_msg -> mem_ok held s ->
  wp (send_nak m) (fun _ s' => replied m DHCPNAK (client_address s) false s s' /\ mem_ok held s') s.
Proof.
  intros Hl Hm. eapply wp_call; [by apply create_msg_ok|]. cbv beta. intros out s' (-> & Ho & Hr).
  eapply wp_mono; [by apply (send_msg_ok _ held)|]. cbv beta. intros _ s2 [Hs2 Hm2]. split; [|done].
  eexists _, []. split; [by apply (Hr DHCPNAK [])|done].
Qed.
End send.

(** The DHCP server of [DhcpServer]: what becomes of a datagram.  The lemmas hold for
    well-formed datagrams, which are answered, and for arbitrary ones, where the parser
    may read outside the message: [ends U] is total correctness for [U := False] and
    tolerates undefined behaviour for [U := True]. *)

Section handle.
Context {env : DhcpEnv} {heap : DhcpHeap}.
Variables base lo hi : Z.
Hypothesis Hbase : 0 < base < 2 ^ 24.
Hypothesis Hrange : 0 <= lo <= hi /\ hi < 255.
#[local] Notation pool_ok := (pool_ok base lo hi).
#[local] Notation leased := (leased base lo hi).

Lemma mbyte_ends m i s : Forall (Z.le 0) m -> ends True (mbyte m i) (fun b s' => s' = s /\ 0 <= b /\ 0 <= i < zlen m) s.
Proof using.
  intros Hm. unfold mbyte. destruct (Z.ltb_spec i 0); [done|]. destruct (m !! Z.to_nat i) as [b|] eqn:E; [|done].
  apply ends_ret. split; [done|]. split; [by eapply (Forall_lookup_1 (Z.le 0)) in E|]. apply lookup_lt_Some in E. unfold zlen. lia.
Qed.

(** Parsing ends and changes no state, whatever the message: an option takes at least two
    bytes. *)
Lemma parse_options_ends m len s : zlen m = sizeof_dhcps_msg -> Forall (Z.le 0) m -> ends True (parse_options m len) (fun _ s' => s' = s) s.
Proof using.
  intros Hl Hm. apply ends_gets. cbv zeta. set (client := client_address s). eapply ends_call.
  { apply (ends_loop True (fun n '(p, _, _) s' => s' = s /\ 240 <= p /\ n = Z.to_nat ((550 - p) / 2)) _ (fun _ s' => s' = s) 300 155).
    - intros n [[p type] st] s' (-> & Hp & ->). destruct (_ <? _); [|by apply ends_ret].
      eapply ends_call; [by apply mbyte_ends|]. cbv beta. intros o s1 (-> & _ & Hb). rewrite Hl in Hb. unfold sizeof_dhcps_msg in Hb.
      destruct (_ =? _); [by apply ends_ret|]. apply (ends_call _ _ _ (fun _ s' => s' = s)).
      + destruct (_ =? _); [eapply ends_call; [by apply mbyte_ends|]; by intros b s1 [-> _]|].
        destruct (_ =? _); [|by apply ends_ret]. unfold option_state. by destruct (_ <? _).
      + intros l s1 ->. eapply ends_call; [by apply mbyte_ends|]. cbv beta. intros k s1 (-> & Hk & _). apply ends_ret.
        exists (Z.to_nat ((550 - (p + (k + 2))) / 2)). split; [|split; [done|split; [lia|done]]].
        assert ((550 - (p + (k + 2))) / 2 < (550 - p) / 2 /\ 0 < (550 - p) / 2); [|lia]. Z.to_euclidean_division_equations. lia.
    - lia.
    - done. }
  cbv beta. intros r s' ->. apply ends_gets. by destruct r as [[[]]|].
Qed.

(** No options are read in a message without any. *)
Lemma parse_options_short m len s : len <= 0 -> wp (parse_options m len) (fun _ s' => s' = s) s.
Proof using.
  intros Hl. apply wp_bind, wp_gets. cbv zeta. apply wp_bind. cbn [loop]. rewrite (proj2 (Z.ltb_ge _ _)) by lia.
  apply wp_bind, wp_ret, wp_ret, wp_bind, wp_gets. by apply wp_ret.
Qed.

(** The result [r] of parsing the message [m]; [R client renew] says what the options yield. *)
Definition answer (R : Z -> bool -> Z -> Prop) (m : list Z) (s : dhcps) (r : Z) (s' : dhcps) : Prop := exists found s1,
  leased (slice m o_chaddr 6) (slice m o_ciaddr 4) s found s1 /\ leases_ok base lo hi (plist s1) /\
  match found with
  | None => r = DHCPS_STATE_NAK /\ plist s' = plist s /\ client_address s' = addr base (hi + 1)
  | Some n => R (n_ip n) (renew s1) r /\
      if r =? DHCPS_STATE_RELEASE then client_address s' = 0 /\ exists k t, plist s1 = k ++ n :: t /\ plist s' = k ++ t
      else plist s' = plist s1 /\ client_address s' = n_ip n
  end.

Lemma release_ok n held s : pool_ok s -> mem_ok held s -> n ∈ plist s ->
  wp (drop_lease (Some n);; modify (set_client 0)) (fun _ s' => pool_ok s' /\ mem_ok held s' /\ framed s s' /\ client_address s' = 0 /\
    exists k t, plist s = k ++ n :: t /\ plist s' = k ++ t) s.
Proof using.
  intros [H1 H2 H3 H4] Hm Hn. eapply wp_call; [by apply (drop_lease_ok n held)|]. cbv beta. intros _ s' (k & t & El & [E Hs] & Hm').
  apply wp_modify. rewrite E. split; [split; [done|done|done|]|split; [by rewrite E in Hm'|split; [by repeat split|split; [done|by exists k, t]]]].
  cbn [plist set_client set_dtrace set_plist]. eapply leases_sub; [exact H4|]. rewrite El. apply sublist_app; [done|by apply sublist_cons].
Qed.

Lemma parse_msg_ends U (R : Z -> bool -> Z -> Prop) m len held s :
  slice m o_options 4 = enc32 magic_cookie -> pool_ok s -> mem_ok held s ->
  (forall s1, ends U (parse_options m (s16 len)) (fun r s2 => s2 = s1 /\ R (client_address s1) (renew s1) r) s1) ->
  ends U (parse_msg m len) (fun r s' => pool_ok s' /\ mem_ok held s' /\ framed s s' /\ answer R m s r s') s.
Proof using Hbase Hrange heap.
  intros Hc Hp Hm HR. unfold parse_msg. rewrite bool_decide_true by done.
  eapply ends_call; [by apply ends_wp, (find_ok base lo hi Hbase Hrange _ _ held)|]. cbv beta. intros found s1 (Hp1 & Hm1 & Hf1 & Hl).
  apply ends_gets, ends_gets. pose proof Hp1 as [_ -> _ Hl1]. destruct found as [n|].
  - pose proof Hl as (Hn & _ & _ & Hcl & _). destruct (lo_range _ _ _ _ Hl1 n Hn) as (d & Hd & En).
    assert ((addr base hi <? client_address s1) || (client_address s1 =? 0) = false) as ->.
    { rewrite Hcl, En. apply orb_false_iff. split; [apply Z.ltb_ge|apply Z.eqb_neq]; unfold addr; lia. }
    eapply ends_call; [apply HR|]. cbv beta. intros r s2 [-> Hr]. rewrite Hcl in Hr. apply ends_bind. destruct (r =? DHCPS_STATE_RELEASE) eqn:Er.
    + eapply ends_mono; [by apply ends_wp, release_ok|]. cbv beta. intros _ s3 (Hp3 & Hm3 & Hf3 & Hc3). apply ends_ret.
      split; [done|]. split; [done|]. split; [exact (framed_trans _ _ _ Hf1 Hf3)|]. exists (Some n), s1. rewrite Er. split; [exact Hl|]. split; [exact Hl1|]. by split.
    + apply ends_ret, ends_ret. split; [done|]. split; [done|]. split; [done|]. exists (Some n), s1. rewrite Er. split; [exact Hl|]. split; [exact Hl1|]. by split.
  - pose proof Hl as (_ & Hpl & Hcl & _ & _).
    assert ((addr base hi <? client_address s1) || (client_address s1 =? 0) = true) as ->.
    { rewrite Hcl. apply orb_true_iff. left. apply Z.ltb_lt, addr_lt. lia. }
    apply ends_wp, wp_bind, wp_ret, wp_ret. split; [done|]. split; [done|]. split; [done|]. exists None, s1. split; [exact Hl|]. split; [exact Hl1|]. by split.
Qed.

(** What is sent for the result [r]. *)
Definition responds (m : list Z) (r : Z) (s s' : dhcps) : Prop :=
  if r =? DHCPS_STATE_OFFER then replied m DHCPOFFER (client_address s) true s s'
  else if r =? DHCPS_STATE_ACK then replied m DHCPACK (client_address s) true s s'
  else if r =? DHCPS_STATE_NAK then replied m DHCPNAK (client_address s) false s s'
  else calls s s'.

Lemma respond_ok m r held s : zlen m = sizeof_dhcps_msg -> mem_ok held s ->
  wp (if r =? DHCPS_STATE_OFFER then send_offer m else if r =? DHCPS_STATE_ACK then send_ack m else if r =? DHCPS_STATE_NAK then send_nak m else mret tt)
    (fun _ s' => responds m r s s' /\ mem_ok held s') s.
Proof using.
  intros Hl Hm. unfold responds. destruct (r =? DHCPS_STATE_OFFER); [by apply send_full_ok|]. destruct (r =? DHCPS_STATE_ACK); [by apply send_full_ok|].
  destruct (r =? DHCPS_STATE_NAK); [by apply send_nak_ok|]. apply wp_ret. split; [apply calls_refl|done].
Qed.

Lemma responds_calls m r s1 s2 s3 : responds m r s1 s2 -> calls s2 s3 -> responds m r s1 s3.
Proof using.
  unfold responds, replied. intros H Hc. repeat destruct (_ =? _); [| | |by eapply calls_trans];
    destruct H as (out & opts & H1 & H2 & H3); exists out, opts; (split; [done|]; split; [done|]; by eapply sends_calls).
Qed.

Lemma responds_only m r s s' : responds m r s s' -> s' = set_dtrace (dtrace s') s.
Proof using. unfold responds, replied. repeat destruct (_ =? _); [intros (?&?&_&_&[H _])..|intros [H _]]; done. Qed.

(** The message as the code copies it into a fresh block. *)
Definition copied (h : list devent) (p : list (list Z)) : list Z :=
  splice (splice ((fun i => u8 (env_block h i)) <$> seqZ 0 sizeof_dhcps_msg) 0 (replicate 4 0)) 0 (concat (take 2 p)).

Lemma copied_length h p : zlen (concat (take 2 p)) <= sizeof_dhcps_msg -> zlen (copied h p) = sizeof_dhcps_msg.
Proof using.
  intros Hl. unfold copied. set (b := _ <$> seqZ 0 sizeof_dhcps_msg).
  assert (zlen b = sizeof_dhcps_msg) as E by (by apply (length_vread (fun i => u8 (env_block h i)) 0)).
  assert (zlen (splice b 0 (replicate 4 0)) = sizeof_dhcps_msg) as E1 by (by rewrite length_splice; rewrite ?E).
  by rewrite length_splice; rewrite ?E1.
Qed.

(** Everything a datagram causes. *)
Definition handled (R : Z -> bool -> Z -> Prop) (p : list (list Z)) (s s' : dhcps) : Prop := exists h s1 r,
  let m := copied h p in
  framed s s1 /\ (if bool_decide (slice m o_options 4 = enc32 magic_cookie) then answer R m s r s1 else r = 0 /\ calls s s1) /\ responds m r s1 s'.

Lemma handle_ends (U : Prop) R held p s : p <> [] -> pool_ok s -> mem_ok held s -> U \/ zlen (concat (take 2 p)) <= sizeof_dhcps_msg ->
  (zlen (concat (take 2 p)) <= sizeof_dhcps_msg -> forall h s1, let m := copied h p in slice m o_options 4 = enc32 magic_cookie ->
     ends U (parse_options m (s16 (u16 (s16 (zlen (concat p)) - 240)))) (fun r s2 => s2 = s1 /\ R (client_address s1) (renew s1) r) s1) ->
  ends U (handle_dhcp p) (fun _ s' => pool_ok s' /\ mem_ok held s' /\ handled R p s s') s.
Proof using Hbase Hrange heap.
  intros Hp Hpo Hm HU HR. destruct p as [|seg next]; [done|]. cbn [handle_dhcp].
  eapply ends_call; [by apply ends_wp, (malloc_ok held)|]. cbv beta. intros a s1 (Ha & Hc1 & Hm1). rewrite (proj2 (Z.eqb_neq a 0)) by done.
  apply ends_gets. cbv zeta. assert (seg ++ default [] (head next) = concat (take 2 (seg :: next))) as ->.
  { destruct next as [|x next]; cbn; by rewrite ?app_nil_r. }
  fold (copied (dtrace s1) (seg :: next)). set (m := copied (dtrace s1) (seg :: next)).
  destruct (Z.ltb_spec sizeof_dhcps_msg (zlen (concat (take 2 (seg :: next))))) as [Hlt | Hge].
  { destruct HU as [HU | HU]; [exact HU|lia]. }
  assert (zlen m = sizeof_dhcps_msg) as Hlm by (by apply copied_length).
  pose proof (pool_ok_calls base lo hi _ _ Hc1 Hpo) as Hp1.
  apply (ends_call _ _ _ (fun r s2 => pool_ok s2 /\ mem_ok (a :: held) s2 /\ framed s1 s2 /\
    if bool_decide (slice m o_options 4 = enc32 magic_cookie) then answer R m s1 r s2 else r = 0 /\ calls s1 s2)).
  { case_bool_decide as Hcook.
    - apply parse_msg_ends; [done|done|done|]. intros s2. by apply HR.
    - unfold parse_msg. rewrite bool_decide_false by done. apply ends_ret. split; [done|]. split; [done|]. split; [done|]. split; [done|apply calls_refl]. }
  cbv beta. intros r s2 (Hp2 & Hm2 & Hf2 & Hans). apply ends_wp.
  eapply wp_call; [by apply (respond_ok m r (a :: held))|]. cbv beta. intros _ s3 [Hr3 Hm3].
  eapply wp_call; [by apply (call__ok d_pbuf_free [] (a :: held))|]. cbv beta. intros _ s4 [Hc4 Hm4].
  eapply wp_mono; [by apply free_ok|]. cbv beta. intros _ s5 [Hc5 Hm5]. pose proof (responds_calls _ _ _ _ _ (responds_calls _ _ _ _ _ Hr3 Hc4) Hc5) as Hr5.
  split; [|split; [done|]].
  - rewrite (responds_only _ _ _ _ Hr5). destruct Hp2. by split.
  - exists (dtrace s1), s2, r. cbv zeta. fold m. split; [exact (framed_trans _ _ _ (framed_calls _ _ Hc1) Hf2)|]. split; [|done].
    destruct (bool_decide _); [|destruct Hans; split; [done|by eapply calls_trans]].
    destruct Hans as (found & s' & Hl & Hx & Hy). exists found, s'. destruct Hc1 as [E1 _]. rewrite E1 in Hl, Hy. by split.
Qed.
End handle.
