(* ===== verification/DhcpStart.v ===== *)
(** The DHCP server of [DhcpServer]: the range of addresses it chooses, start and stop. *)
From S2P Require Import Prelude CSem DhcpServer DhcpProof DhcpTimer DhcpHandle.
From Stdlib Require Import Sorted.
From stdpp Require Import base list numbers option gmap.

Open Scope Z_scope.

Lemma addr_split x : 0 <= x < 2 ^ 32 -> x = addr (x mod 2 ^ 24) (x / 2 ^ 24) /\ 0 <= x mod 2 ^ 24 < 2 ^ 24 /\ 0 <= x / 2 ^ 24 < 256.
Proof. change (2 ^ 32) with 4294967296. change (2 ^ 24) with 16777216. unfold addr. change (2 ^ 24) with 16777216. intros. Z.to_euclidean_division_equations; lia. Qed.

Lemma shiftr_net h d : 0 <= d < 256 -> Z.shiftr (256 * h + d) 8 = h.
Proof. intros. rewrite Z.shiftr_div_pow2 by done. change (2 ^ 8) with 256. Z.to_euclidean_division_equations; lia. Qed.

(** A range a check has accepted lies in the server's network and leaves it out. *)
Lemma usable_range base d l : 0 <= base < 2 ^ 24 -> 0 <= d < 256 -> 0 <= start_ip l < 2 ^ 32 -> 0 <= end_ip l < 2 ^ 32 ->
  lease_usable l (addr base d) = true -> exists lo hi, start_ip l = addr base lo /\ end_ip l = addr base hi /\
    0 <= lo <= hi /\ hi < 256 /\ ~ (lo <= d <= hi) /\ hi - lo <= DHCPS_MAX_LEASE /\ hi = end_ip l / 2 ^ 24.
Proof.
  intros Hb Hd Hs He. destruct (addr_split _ Hs) as (Es & Hsb & Hsd), (addr_split _ He) as (Ee & Heb & Hed).
  set (sb := start_ip l mod 2 ^ 24) in *. set (lo := start_ip l / 2 ^ 24) in *. set (eb := end_ip l mod 2 ^ 24) in *. set (hi := end_ip l / 2 ^ 24) in *.
  destruct (htonl_addr base d Hb Hd) as (h & Hh & E & Hx), (htonl_addr sb lo Hsb Hsd) as (hs & Hhs & E1 & Hx1), (htonl_addr eb hi Heb Hed) as (he & Hhe & E2 & Hx2).
  unfold lease_usable. rewrite Es, Ee, E, E1, E2, !shiftr_net by done. intros H. bools. subst hs he.
  exists lo, hi. rewrite <- (proj1 (Hx1 lo Hsd)), <- (proj1 (Hx2 hi Hed)), (proj1 (Hx lo Hsd)), (proj1 (Hx hi Hed)).
  clearbody lo hi sb eb. assert (u32 (256 * h + hi - (256 * h + lo)) <= DHCPS_MAX_LEASE) as Hu by lia. clear - Hu H Hsd Hed Hd.
  assert (lo <= hi).
  { destruct (Z.le_gt_cases lo hi); [done|]. exfalso. unfold u32, DHCPS_MAX_LEASE in Hu.
    rewrite <- (Z.mod_add _ 1) in Hu by done. rewrite Z.mod_small in Hu; lia. }
  unfold u32 in Hu. rewrite Z.mod_small in Hu by lia. repeat split; try lia.
Qed.

Lemma lor_byte h e : 0 <= e < 256 -> Z.lor (256 * h) e = 256 * h + e.
Proof. intros He. replace (256 * h) with (Z.shiftl h 8) by (rewrite Z.shiftl_mul_pow2 by done; lia). rewrite shiftl_lor_add by (change (2 ^ 8) with 256; lia). rewrite Z.shiftl_mul_pow2 by done. done. Qed.

Lemma net_part h d : 0 <= h < 2 ^ 24 -> 0 <= d < 256 -> Z.land (256 * h + d) 0xFFFFFF00 = 256 * h /\ Z.land (256 * h + d) 0xFF = d.
Proof.
  intros Hh Hd. split.
  - change 0xFFFFFF00 with (Z.shiftl (Z.ones 24) 8). rewrite <- (Z.shiftl_mul_pow2 h 8) at 2 || idtac.
    replace (256 * h + d) with (Z.lor (Z.shiftl h 8) d) by (rewrite shiftl_lor_add by (change (2 ^ 8) with 256; lia); change (2 ^ 8) with 256; lia).
    apply Z.bits_inj'. intros i Hi. rewrite Z.land_spec, Z.lor_spec. replace (256 * h) with (Z.shiftl h 8) by (rewrite Z.shiftl_mul_pow2 by done; lia).
    destruct (Z.lt_ge_cases i 8); [by rewrite !Z.shiftl_spec_low, andb_false_r by lia|]. rewrite !Z.shiftl_spec by done.
    rewrite <- (Z.mod_small d (2 ^ 8)) by (change (2 ^ 8) with 256; lia). rewrite Z.mod_pow2_bits_high by lia. rewrite orb_false_r.
    destruct (Z.lt_ge_cases (i - 8) 24); [by rewrite Z.ones_spec_low, andb_true_r by lia|].
    rewrite <- (Z.mod_small h (2 ^ 24)) by done. by rewrite Z.mod_pow2_bits_high by lia.
  - rewrite land_255. Z.to_euclidean_division_equations; lia.
Qed.

Section start.
Context {env : DhcpEnv} {heap : DhcpHeap}.

(** The range configured, if there is one, ends before [.255]. *)
Definition config_ok (l : dhcps_lease_t) (server : Z) : Prop :=
  enable l = true -> lease_usable l server = true -> 0 <= start_ip l < 2 ^ 32 /\ 0 <= end_ip l < 2 ^ 32 /\ end_ip l / 2 ^ 24 < 255.

Lemma init_lease_ok base d s : 0 <= base < 2 ^ 24 -> 0 <= d < 256 -> config_ok (dhcps_lease s) (addr base d) ->
  wp (wifi_softap_init_dhcps_lease (addr base d)) (fun _ s' => exists en lo hi, 0 <= lo <= hi /\ hi < 255 /\ ~ (lo <= d <= hi) /\ hi - lo <= DHCPS_MAX_LEASE /\ s' = set_lease (mkLease en (addr base lo) (addr base hi)) s) s.
Proof using.
  intros Hb Hd Hc. apply wp_bind, wp_gets. cbv zeta. destruct (enable _ && _) eqn:E.
  - apply andb_true_iff in E as [E1 E2]. destruct (Hc E1 E2) as (Hs & He & H255). destruct (usable_range base d _ Hb Hd Hs He E2) as (lo & hi & El & Eh & H1 & H2 & H3 & H4 & H5).
    apply wp_ret. exists true, lo, hi. split; [done|]. split; [lia|]. split; [done|]. split; [done|].
    destruct s. cbn in *. destruct dhcps_lease. cbn in *. by subst.
  - apply wp_modify. destruct (htonl_addr base d Hb Hd) as (h & Hh & -> & Hx). destruct (net_part h d Hh Hd) as [-> ->].
    set (lo := if 0x80 <=? d then d - DHCPS_MAX_LEASE else d + 1).
    assert (0 <= lo /\ lo + DHCPS_MAX_LEASE - 1 < 255 /\ ~ (lo <= d <= lo + DHCPS_MAX_LEASE - 1)) as (H1 & H2 & H3).
    { unfold lo, DHCPS_MAX_LEASE. destruct (Z.leb_spec 0x80 d); lia. }
    clearbody lo. assert (0 < DHCPS_MAX_LEASE) by done. exists false, lo, (lo + DHCPS_MAX_LEASE - 1). split; [lia|]. split; [lia|]. split; [done|]. split; [lia|].
    rewrite !lor_byte by lia. rewrite (proj1 (Hx lo ltac:(lia))), (proj1 (Hx (lo + DHCPS_MAX_LEASE - 1) ltac:(lia))). done.
Qed.

(** The UDP layer has a control block for the server. *)
Definition udp_works : Prop := forall h, env_ext h d_udp_new [] <> 0.

(** A server that starts without leases has a pool around its own address; without a
    control block the start is undefined. *)
Lemma dhcps_start_ok U base d held s : U \/ udp_works -> 0 <= base < 2 ^ 24 -> 0 <= d < 256 -> config_ok (dhcps_lease s) (addr base d) -> plist s = [] -> mem_ok held s ->
  ends U (dhcps_start (Some (addr base d))) (fun _ s' => exists lo hi, (0 <= lo <= hi /\ hi < 255) /\ ~ (lo <= d <= hi) /\ hi - lo <= DHCPS_MAX_LEASE /\
    pool_ok base lo hi s' /\ mem_ok held s' /\ plist s' = [] /\ server_address s' = addr base d /\ DhcpsFlags s' = DHCPS_STARTED /\
    dhcps_lease_time s' = dhcps_lease_time s /\ sent (dtrace s') = sent (dtrace s)) s.
Proof using.
  intros HU Hb Hd Hc Hl Hm. unfold dhcps_start. apply ends_gets.
  apply (ends_call _ _ _ (fun _ s' => calls s s' /\ mem_ok held s')).
  { apply ends_wp. destruct (negb _); [by apply call__ok|]. apply wp_ret. split; [apply calls_refl|done]. }
  cbv beta. intros _ s1 [Hc1 Hm1].
  apply (ends_call _ _ _ (fun pcb s' => (calls s1 s' /\ mem_ok held s') /\ pcb = env_ext (dtrace s1) d_udp_new [])).
  { apply ends_wp, wp_conj; [by apply (call_ok d_udp_new _ held)|done]. }
  cbv beta. intros pcb s2 [[Hc2 Hm2] Epcb].
  apply (ends_call _ _ _ (fun _ s' => calls s s' /\ mem_ok held s')).
  { pose proof (calls_trans _ _ _ Hc1 Hc2). apply ends_wp. destruct (_ || _); [|by apply wp_ret]. eapply wp_mono; [by apply (call__ok d_printf [] held)|].
    cbv beta. intros _ s' [? ?]. split; [by eapply calls_trans|done]. }
  cbv beta. intros _ s3 [Hc3 Hm3]. apply ends_gets, ends_bind, ends_wp, wp_modify. set (s4 := set_server _ _ _ _ _ s3).
  eapply ends_call; [apply ends_wp, (init_lease_ok base d); [done|done|]; unfold s4; cbn [dhcps_lease set_server]; by destruct Hc3 as [-> _]|].
  cbv beta. intros _ s5 (en & lo & hi & H1 & H2 & H3 & H4 & E5).
  apply ends_gets, ends_bind, ends_wp, wp_modify. rewrite E5. cbn [start_ip dhcps_lease set_lease].
  set (s6 := set_plus _ _). assert (mem_ok held s6) as Hm6 by done.
  destruct (Z.eqb_spec pcb 0) as [E0 | _]; [apply ends_undefined; destruct HU as [HU | HU]; [done|]; destruct (HU (dtrace s1)); congruence|].
  apply ends_wp.
  eapply wp_call; [by apply (call__ok d_udp_bind _ held)|]. cbv beta. intros _ s7 [Hc7 Hm7].
  eapply wp_call; [by apply (call__ok d_udp_recv _ held)|]. cbv beta. intros _ s8 [Hc8 Hm8]. apply wp_modify.
  destruct (calls_trans _ _ _ Hc7 Hc8) as [E8 Hs8], Hc3 as [E3 Hs3]. exists lo, hi. split; [done|]. split; [done|]. split; [done|].
  assert (plist s8 = []) as Hp8 by (rewrite E8; unfold s6, s4; rewrite E3; exact Hl).
  split; [|split; [done|split; [done|]]].
  - split; [by rewrite E8|by rewrite E8|exists lo; split; [lia|by rewrite E8]|].
    cbn [plist set_server]. rewrite Hp8. split; [constructor|by intros n ?%not_elem_of_nil|constructor].
  - split; [by rewrite E8|]. split; [done|]. split; [rewrite E8; unfold s6, s4; by rewrite E3|]. cbn [dtrace set_server]. rewrite Hs8. done.
Qed.

(** The configuration and the next address. *)
Definition settings (s : dhcps) : Z * dhcps_lease_t * Z := (server_address s, dhcps_lease s, client_address_plus s).

Lemma calls_settings s s' : calls s s' -> settings s' = settings s.
Proof using. by intros [-> _]. Qed.

Lemma dhcps_stop_ok held s : mem_ok held s ->
  wp (dhcps_stop true) (fun _ s' => (plist s' = [] /\ mem_ok held s') /\ DhcpsFlags s' = DHCPS_STOP /\ dhcps_pcb s' = 0 /\
    sent (dtrace s') = sent (dtrace s) /\ settings s' = settings s) s.
Proof using.
  intros Hm. unfold dhcps_stop. cbn [negb]. apply wp_bind, wp_gets. eapply wp_call; [by apply (call__ok d_udp_disconnect _ held)|]. cbv beta.
  intros _ s1 [Hc1 Hm1]. apply wp_bind, wp_gets.
  apply (wp_call _ _ (fun _ s' => dhcps_pcb s' = 0 /\ mem_ok held s' /\ sent (dtrace s') = sent (dtrace s1) /\ settings s' = settings s1)).
  { destruct (Z.eqb_spec (dhcps_pcb s1) 0) as [E | E]; cbn [negb]; [by apply wp_ret|].
    eapply wp_call; [by apply (call__ok d_udp_remove _ held)|]. cbv beta. intros _ s2 [Hc2 Hm2]. apply wp_modify. split; [done|]. split; [done|].
    split; [apply Hc2|by apply calls_settings in Hc2]. }
  cbv beta. intros _ s2 (Hp & Hm2 & Hs2 & Hk2). apply wp_bind, wp_gets. eapply wp_call; [by apply (free_leases_ok _ held)|]. cbv beta.
  intros _ s3 [[E3 Hs3] Hm3]. apply wp_modify. apply calls_settings in Hc1 as Hk1. destruct Hc1 as [_ Hs1]. split; [split; [by rewrite E3|done]|]. split; [done|].
  split; [by rewrite E3|]. split; [cbn [dtrace set_server]; rewrite Hs3; cbn [dtrace set_plist]; congruence|]. rewrite E3. rewrite <- Hk1, <- Hk2. done.
Qed.
End start.
