(* ===== verification/DhcpTheorems.v ===== *)
(** An environment to run the DHCP server of [DhcpServer] with, and its theorems: its leases
    never collide, clients get and keep their addresses, leases expire, and its memory is
    released. *)
From S2P Require Import Prelude CSem DhcpServer DhcpProof DhcpTimer DhcpHandle DhcpStart.
From Stdlib Require Import Sorted.
From stdpp Require Import base list sorting numbers option gmap.

Open Scope Z_scope.

(** The heap never reuses a block. *)
Definition top (h : list devent) : Z := foldr (fun e m => match e with DExt d_malloc _ r => Z.max r m | _ => m end) 0 h.

#[export] Instance demo_env : DhcpEnv :=
  {| env_ext := fun h f _ => match f with d_malloc => top h + 1 | d_printf => 0 | _ => 1 end; env_block := fun h i => i + zlen h |}.

Lemma top_nonneg h : 0 <= top h.
Proof. induction h as [|e h IH]; cbn; [done|]. fold (top h). destruct e as [[] ? ?|]; lia. Qed.

Lemma top_snoc h e : top h <= top (h ++ [e]) /\ (forall l r, e = DExt d_malloc l r -> r <= top (h ++ [e])).
Proof.
  induction h as [|x h [IH1 IH2]]; cbn; [destruct e as [[] ? ?|]; (split; [lia|]; intros ? ? [=]; lia)|]. fold (top h) (top (h ++ [e])).
  split; [destruct x as [[] ? ?|]; lia|]. intros l r ->. specialize (IH2 l r eq_refl). destruct x as [[] ? ?|]; lia.
Qed.

Lemma live_top h : forall X p, live h = Some X -> p ∈ X -> p <= top h.
Proof.
  induction h as [|e h IH] using rev_ind; intros X p; [by intros [= <-] ?%elem_of_empty|]. rewrite live_snoc.
  destruct (live h) as [Y|]; [|done]. destruct (top_snoc h e) as [H1 H2]. specialize (fun q => IH Y q eq_refl).
  assert (forall q, q ∈ Y -> q <= top (h ++ [e])) as HY by (intros q Hq; specialize (IH q Hq); lia).
  destruct e as [f l r|]; cbn; [|by intros [= <-]; apply HY].
  destruct f; try (by intros [= <-]; apply HY).
  - intros [= <-]. rewrite elem_of_union, elem_of_singleton. intros [-> | Hp]; [by apply (H2 l)|by apply HY].
  - destruct l as [|q [|]]; try (by intros [= <-]; apply HY). case_decide; [|done]. intros [= <-]. rewrite elem_of_difference. intros [Hp _]. by apply HY.
Qed.

#[export] Instance demo_heap : DhcpHeap.
Proof.
  split. intros h l X HX. cbn. pose proof (top_nonneg h). split; [lia|]. intros Hin. pose proof (live_top h X _ HX Hin). lia.
Qed.

Lemma demo_pbuf h l : env_ext h d_pbuf_alloc l <> 0.
Proof. done. Qed.

(** The network 192.168.4.0; the server is 192.168.4.1. *)
Definition demo_net : Z := 192 + 168 * 2 ^ 8 + 4 * 2 ^ 16.
Definition demo_mac : list Z := [0x18; 0xfe; 0x34; 1; 2; 3].
Definition demo_mac2 : list Z := [0x18; 0xfe; 0x34; 1; 2; 4].

(** A started server with the leases [l], the last byte of whose addresses lies in [[2; hi]]. *)
Definition demo_state (hi : Z) (l : list list_node) : dhcps :=
  mkDhcps DHCPS_STARTED 1 1 0xFFFFFFFF (addr demo_net 1) 0 (addr demo_net 2) (mkLease true (addr demo_net 2) (addr demo_net hi)) l 0xFF false 120
    ((fun a => DExt d_malloc [16] a) <$> ptrs l).

Definition demo_lease : list_node := mkNode 2 1 (mkPool (addr demo_net 2) demo_mac 60).

Lemma demo_lease_ok hi : 2 <= hi -> pool_ok demo_net 2 hi (demo_state hi [demo_lease]) /\ mem_ok [] (demo_state hi [demo_lease]).
Proof.
  intros Hhi. split; [split|]; [done|done|exists 2; split; [lia|done]| |].
  - split; [by repeat constructor|intros n ->%list_elem_of_singleton; exists 2; split; [lia|done]|apply NoDup_singleton].
  - split; [apply (bool_decide_unpack _); by vm_compute|by vm_compute].
Qed.

Lemma demo_pool_empty_ok hi : 2 <= hi -> pool_ok demo_net 2 hi (demo_state hi []) /\ mem_ok [] (demo_state hi []).
Proof.
  intros Hhi. split; [split|]; [done|done|exists 2; split; [lia|done]| |].
  - split; [constructor|by intros n ?%not_elem_of_nil|constructor].
  - split; [constructor|by vm_compute].
Qed.

(** A client's message. *)
Definition demo_message (ch ci : list Z) (opts : list dopt) : list Z :=
  splice (splice (splice (replicate 240 0) o_ciaddr ci) o_chaddr ch) o_options (enc32 magic_cookie) ++ enc_opts opts ++ [DHCP_OPTION_END].

Definition demo_discover : list dopt := [(DHCP_OPTION_MSG_TYPE, [DHCPDISCOVER])].
Definition demo_request (a : Z) : list dopt := [(DHCP_OPTION_MSG_TYPE, [DHCPREQUEST]); (DHCP_OPTION_REQ_IPADDR, ip_bytes a)].

(** Theorems about the DHCP server of [DhcpServer]: its leases never collide, clients
    get and keep their addresses, leases expire, and its memory is released. *)

(** What happens to a server: datagrams, ticks of the lease timer, and its stop. *)
Inductive dhcp_op : Type := Datagram (p : list (list Z)) | Tick | Stop.

(** A datagram of bytes; one the parser can read: at most two segments with at most as many
    bytes as [struct dhcps_msg], and well-formed options with an end behind the magic cookie. *)
Definition datagram_bytes (p : list (list Z)) : Prop := Forall (Forall (fun b => 0 <= b < 256)) p.
Definition datagram_ok (p : list (list Z)) : Prop :=
  let d := concat p in (length p <= 2)%nat /\ zlen d <= sizeof_dhcps_msg /\
  (slice d o_options 4 = enc32 magic_cookie -> exists pre opts rest,
     d = pre ++ enc_opts opts ++ DHCP_OPTION_END :: rest /\ zlen pre = o_options + 4 /\ Forall opt_ok opts).

Definition on_datagram (P : list (list Z) -> Prop) (o : dhcp_op) : Prop := match o with Datagram p => P p | _ => True end.

(** The options' last message type and requested address. *)
Definition opt_last (c : Z) (l : list dopt) : option (list Z) := snd <$> last (filter (fun o : dopt => o.1 = c) l).

(** A well-formed request from the hardware address [ch] with the client's own address [ci]. *)
Definition request (d ch ci : list Z) (opts : list dopt) : Prop := exists pre rest,
  d = pre ++ enc_opts opts ++ DHCP_OPTION_END :: rest /\ zlen pre = o_options + 4 /\ zlen d <= sizeof_dhcps_msg /\
  slice pre o_options 4 = enc32 magic_cookie /\ slice pre o_chaddr 6 = ch /\ slice pre o_ciaddr 4 = ci /\ Forall opt_ok opts.

(** The request is for the address [a]: by its option or, without one, by the client's own. *)
Definition asks (a : Z) (ci : list Z) (opts : list dopt) : bool :=
  match opt_last DHCP_OPTION_REQ_IPADDR opts with
  | Some x => bool_decide (ip_bytes a = take 4 x)
  | None => bool_decide (ip_bytes a = ci)
  end.

Section run.
Context {env : DhcpEnv}.

Definition dhcp_step (o : dhcp_op) : C dhcps unit :=
  match o with Datagram p => handle_dhcp p | Tick => dhcps_coarse_tmr | Stop => dhcps_stop true end.

Fixpoint dhcp_run (ops : list dhcp_op) : C dhcps unit :=
  match ops with [] => mret tt | o :: t => dhcp_step o;; dhcp_run t end.
End run.

Lemma opt_last_snoc c l o : opt_last c (l ++ [o]) = if decide (o.1 = c) then Some o.2 else opt_last c l.
Proof.
  unfold opt_last. rewrite list.filter_app, list.filter_cons, list.filter_nil. destruct (decide _); [by rewrite last_snoc|by rewrite app_nil_r].
Qed.

Lemma opts_folded client l : foldl (opt_step client) (0, DHCPS_STATE_IDLE) l =
  (match opt_last DHCP_OPTION_MSG_TYPE l with Some x => default 0 (head x) | None => 0 end,
   match opt_last DHCP_OPTION_REQ_IPADDR l with
   | Some x => if bool_decide (ip_bytes client = take 4 x) then DHCPS_STATE_ACK else DHCPS_STATE_NAK
   | None => DHCPS_STATE_IDLE end).
Proof.
  induction l as [|o l IH] using rev_ind; [done|]. rewrite foldl_app, IH, !opt_last_snoc. cbn [foldl]. unfold opt_step.
  destruct (Z.eqb_spec o.1 DHCP_OPTION_MSG_TYPE) as [E | E].
  - rewrite decide_True, decide_False by (done || by rewrite E). done.
  - rewrite (decide_False (P := o.1 = DHCP_OPTION_MSG_TYPE)) by done. destruct (Z.eqb_spec o.1 DHCP_OPTION_REQ_IPADDR) as [E2 | E2].
    + by rewrite decide_True by done.
    + by rewrite decide_False by done.
Qed.

Lemma discover_result client b opts : opt_last DHCP_OPTION_MSG_TYPE opts = Some [DHCPDISCOVER] -> opt_result client b opts = DHCPS_STATE_OFFER.
Proof. intros H. unfold opt_result. by rewrite opts_folded, H. Qed.

Lemma request_result client ci b opts : opt_last DHCP_OPTION_MSG_TYPE opts = Some [DHCPREQUEST] -> b = bool_decide (ip_bytes client = ci) ->
  opt_result client b opts = if asks client ci opts then DHCPS_STATE_ACK else DHCPS_STATE_NAK.
Proof.
  intros H ->. unfold opt_result, asks. rewrite opts_folded, H. destruct (opt_last DHCP_OPTION_REQ_IPADDR opts) as [x|]; cbv zeta; cbn [fst snd default head].
  - by case_bool_decide.
  - done.
Qed.

Section copied.
Context {env : DhcpEnv}.

(** The copied message begins with the datagram. *)
Lemma copied_one h d : zlen d <= sizeof_dhcps_msg -> exists t, copied h [d] = d ++ t.
Proof.
  intros _. unfold copied, splice. cbn [take firstn concat]. rewrite app_nil_r. change (Z.to_nat 0) with 0%nat. rewrite take_0. by eexists.
Qed.

Lemma copied_prefix h p : zlen (concat (take 2 p)) <= sizeof_dhcps_msg -> exists t, copied h p = concat (take 2 p) ++ t.
Proof. intros _. unfold copied, splice. change (Z.to_nat 0) with 0%nat. rewrite take_0. by eexists. Qed.

Lemma copied_bytes h p : datagram_bytes p -> Forall (Z.le 0) (copied h p).
Proof.
  intros Hp. unfold copied. apply Forall_splice; [apply Forall_splice; [|by repeat constructor]|].
  - apply Forall_fmap, Forall_true. intros i. apply u8_range.
  - apply Forall_concat, Forall_take. eapply list.Forall_impl; [exact Hp|]. cbv beta. intros l Hl. eapply list.Forall_impl; [exact Hl|]. cbv beta. lia.
Qed.

(** A readable datagram is parsed without undefined behaviour. *)
Lemma datagram_parsed h p s : datagram_ok p -> slice (copied h p) o_options 4 = enc32 magic_cookie ->
  wp (parse_options (copied h p) (s16 (u16 (s16 (zlen (concat p)) - 240)))) (fun _ s' => s' = s) s.
Proof.
  intros (Hp & Hl & Hopt) Hc. assert (take 2 p = p) as E2 by (by apply take_ge). set (d := concat p) in *. pose proof (zlen_nonneg d).
  unfold sizeof_dhcps_msg in Hl. rewrite (s16_small (zlen d)) by lia. destruct (Z.lt_ge_cases (zlen d) 240) as [Hs | Hs].
  - apply parse_options_short. unfold u16, s16. Z.to_euclidean_division_equations. lia.
  - destruct (copied_prefix h p) as [t Et]; [by rewrite E2|]. rewrite E2 in Et. fold d in Et.
    assert (slice d o_options 4 = enc32 magic_cookie) as Hd by (rewrite <- Hc, Et; symmetry; apply slice_app_l; unfold o_options; lia).
    destruct (Hopt Hd) as (pre & opts & rest & E & Hpre & Ho). rewrite u16_small, s16_small by lia.
    assert (zlen (copied h p) = sizeof_dhcps_msg) as Hm by (apply copied_length; rewrite E2; exact Hl).
    assert (copied h p = pre ++ enc_opts opts ++ DHCP_OPTION_END :: (rest ++ t)) as Em by (rewrite Et, E, <- !app_assoc; done).
    rewrite Em in *. eapply wp_mono; [apply parse_options_ok; try done|by intros ? ? [-> _]].
    rewrite E, !zlen_app, Hpre. unfold o_options. pose proof (zlen_nonneg rest). unfold zlen. cbn [length]. lia.
Qed.

Lemma request_copied h d ch ci opts : request d ch ci opts -> exists rest,
  let m := copied h [d] in let len := s16 (u16 (s16 (zlen (concat [d])) - 240)) in
  zlen m = sizeof_dhcps_msg /\ (exists pre, zlen pre = o_options + 4 /\ m = pre ++ enc_opts opts ++ DHCP_OPTION_END :: rest) /\
  slice m o_options 4 = enc32 magic_cookie /\ slice m o_chaddr 6 = ch /\ slice m o_ciaddr 4 = ci /\
  slice m 4 4 = slice d 4 4 /\ slice m o_chaddr 16 = slice d o_chaddr 16 /\ zlen (enc_opts opts) <= len.
Proof.
  intros (pre & rest & E & Hp & Hd & Hc & Hch & Hci & Ho). destruct (copied_one h d Hd) as [t Et]. exists (rest ++ t). cbv zeta.
  assert (zlen (copied h [d]) = sizeof_dhcps_msg) as Hl by (apply copied_length; cbn [take firstn concat]; by rewrite app_nil_r).
  split; [done|]. assert (copied h [d] = pre ++ enc_opts opts ++ DHCP_OPTION_END :: (rest ++ t)) as Em.
  { rewrite Et, E, <- !app_assoc. done. }
  assert (forall o n, 0 <= o -> 0 <= n -> o + n <= o_options + 4 -> slice (copied h [d]) o n = slice pre o n) as Hs.
  { intros o n H1 H2 H3. rewrite Em. apply slice_app_l; lia. }
  assert (forall o n, 0 <= o -> 0 <= n -> o + n <= o_options + 4 -> slice d o n = slice pre o n) as Hs'.
  { intros o n H1 H2 H3. rewrite E. apply slice_app_l; lia. }
  split; [by exists pre|]. rewrite !Hs, !Hs' by done. split; [done|]. split; [done|]. split; [done|]. split; [done|]. split; [done|].
  cbn [concat]. rewrite app_nil_r. assert (zlen d = 240 + zlen (enc_opts opts) + 1 + zlen rest) as Hz.
  { rewrite E, !zlen_app, Hp. unfold o_options. change (zlen (DHCP_OPTION_END :: rest)) with (Z.of_nat (S (length rest))). unfold zlen. lia. }
  pose proof (zlen_nonneg rest). pose proof (zlen_nonneg (enc_opts opts)). unfold sizeof_dhcps_msg in Hd.
  rewrite (s16_small (zlen d)) by lia. rewrite u16_small by lia. rewrite s16_small by lia. lia.
Qed.

End copied.

Lemma leases_ticked base lo hi l l' : leases_ok base lo hi l -> after_tick l l' -> leases_ok base lo hi l'.
Proof.
  intros Hl Ht. assert (leases_ok base lo hi (tick1 <$> l)) as H1.
  { destruct Hl as [H1 H2 H3]. split.
    - clear H2 H3 Ht. induction H1 as [|n l H1 IH Hn]; [constructor|]. cbn. constructor; [done|]. rewrite List.Forall_forall in *. intros x Hx.
      apply list_elem_of_In, list_elem_of_fmap in Hx as (y & -> & Hy). by apply (Hn y), list_elem_of_In.
    - intros n (m & -> & Hm)%list_elem_of_fmap. by apply (H2 m).
    - rewrite <- list_fmap_compose. done. }
  assert (leases_ok base lo hi (ticked l)) as H2 by (eapply leases_sub; [exact H1|apply sublist_filter]).
  unfold after_tick in Ht. destruct (_ <? _); [by subst|]. destruct Ht as (h & k & n & t & E & -> & _). eapply leases_sub; [exact H2|].
  rewrite E. apply sublist_skip, sublist_app; [done|by apply sublist_cons].
Qed.

(** ** The pool *)

Section pool.
Context {env : DhcpEnv} {heap : DhcpHeap}.

Lemma step_pool U base lo hi o s : on_datagram datagram_bytes o -> U \/ on_datagram datagram_ok o ->
  0 < base < 2 ^ 24 -> 0 <= lo <= hi /\ hi < 255 -> pool_ok base lo hi s -> mem_ok [] s ->
  ends U (dhcp_step o) (fun _ s' => (pool_ok base lo hi s' /\ mem_ok [] s') /\ server_address s' = server_address s) s.
Proof using heap.
  intros Hby HU Hb Hr Hp Hm. destruct o as [p| |]; cbn [dhcp_step on_datagram] in *.
  - destruct p as [|seg p]; [by apply ends_ret|]. set (q := seg :: p) in *.
    assert (U \/ zlen (concat (take 2 q)) <= sizeof_dhcps_msg) as Hsz.
    { destruct HU as [? | (Hn & Hl & _)]; [by left|right]. rewrite take_ge by done. exact Hl. }
    assert (zlen (concat (take 2 q)) <= sizeof_dhcps_msg -> forall h s1, slice (copied h q) o_options 4 = enc32 magic_cookie ->
      ends U (parse_options (copied h q) (s16 (u16 (s16 (zlen (concat q)) - 240)))) (fun _ s2 => s2 = s1) s1) as Hparse.
    { intros Hl h s1 Hc. destruct HU as [HU | Hok]; [|by apply ends_wp, datagram_parsed].
      eapply ends_weaken; [by intros _|]. apply parse_options_ends; [by apply copied_length|by apply copied_bytes]. }
    eapply ends_mono.
    { apply (handle_ends base lo hi Hb Hr U (fun _ _ _ => True) [] q); [done|done|done|done|]. intros Hl h s1 m Hc.
      eapply ends_mono; [by apply Hparse|]. done. }
    cbv beta. intros _ s' (Hp' & Hm' & h & s1 & r & (_ & Hs & _) & _ & Hresp). split; [done|]. by rewrite (responds_only _ _ _ _ Hresp).
  - apply ends_wp. eapply wp_mono; [by apply (coarse_tmr_ok [])|]. cbv beta. intros _ s' (l' & Ht & [E Hs] & Hm'). split; [split; [|done]|by rewrite E].
    destruct Hp as [H1 H2 H3 H4]. rewrite E. split; [done|done|done|]. by eapply leases_ticked.
  - apply ends_wp. eapply wp_mono; [by apply (dhcps_stop_ok [])|]. cbv beta. intros _ s' ((Hl & Hm') & _ & _ & _ & [= E1 E2 E3]). split; [split; [|done]|done].
    destruct Hp as [H1 H2 H3 H4]. split; [by rewrite E2|by rewrite E2|by rewrite E3|]. rewrite Hl. split; [constructor|by intros n ?%not_elem_of_nil|constructor].
Qed.

Lemma run_pool U base lo hi ops s : Forall (on_datagram datagram_bytes) ops -> U \/ Forall (on_datagram datagram_ok) ops ->
  0 < base < 2 ^ 24 -> 0 <= lo <= hi /\ hi < 255 -> pool_ok base lo hi s -> mem_ok [] s ->
  ends U (dhcp_run ops) (fun _ s' => (pool_ok base lo hi s' /\ mem_ok [] s') /\ server_address s' = server_address s) s.
Proof using heap.
  intros Hby HU Hb Hr. revert s. induction Hby as [|o ops Ho Hops IH]; intros s Hp Hm; cbn [dhcp_run]; [by apply ends_ret|].
  rewrite Forall_cons in HU.
  eapply ends_call; [apply (step_pool U base lo hi); tauto|]. cbv beta. intros _ s1 [[Hp1 Hm1] E1]. eapply ends_mono; [apply IH; tauto|].
  cbv beta. intros _ s2 [? E2]. split; [done|congruence].
Qed.

Lemma sorted_distinct l : ips_sorted l -> NoDup (n_ip <$> l).
Proof using.
  induction 1 as [|n l Hs IH Hn]; cbn; constructor; [|done]. intros (m & E & Hm)%list_elem_of_fmap. rewrite List.Forall_forall in Hn.
  specialize (Hn m (proj1 (list_elem_of_In _ _) Hm)). lia.
Qed.
End pool.

(** ** Answers *)

(** The one message sent in answer to [d]: its type and address. *)
Definition answered (d : list Z) (type a : Z) (full : bool) (s s' : dhcps) : Prop := exists out opts,
  reply_ok d out type a opts /\ reply_options full s opts /\
  sent (dtrace s') = sent (dtrace s) ++ [(out, broadcast_dhcps s, DHCPS_CLIENT_PORT)].

(** The lease of [ch] in a list: its address and the time left. *)
Definition lease_is (ch : list Z) (a time : Z) (l : list list_node) : Prop :=
  exists n, n ∈ l /\ n_mac n = ch /\ n_ip n = a /\ lease_timer (pnode n) = time.

(** The leases of the others. *)
Definition others_same (ch : list Z) (l l' : list list_node) : Prop := forall m, n_mac m <> ch -> m ∈ l' <-> m ∈ l.

Section answers.
Context {env : DhcpEnv} {heap : DhcpHeap}.
Variables base lo hi : Z.
Hypothesis Hbase : 0 < base < 2 ^ 24.
Hypothesis Hrange : 0 <= lo <= hi /\ hi < 255.

Lemma request_handled held d ch ci opts s : pool_ok base lo hi s -> mem_ok held s -> request d ch ci opts ->
  wp (handle_dhcp [d]) (fun _ s' => (pool_ok base lo hi s' /\ mem_ok held s') /\ exists m s1 r,
    framed s s1 /\ answer base lo hi (fun c b r => r = opt_result c b opts) m s r s1 /\ responds m r s1 s' /\ slice m o_chaddr 6 = ch /\ slice m o_ciaddr 4 = ci /\
    (forall out type a o, reply_ok m out type a o -> reply_ok d out type a o)) s.
Proof using Hbase Hrange heap.
  intros Hp Hm Hd. apply wp_ends. pose proof Hd as (_ & _ & _ & _ & Hlen & _ & _ & _ & Ho). eapply ends_mono.
  { apply (handle_ends base lo hi Hbase Hrange False (fun c b r => r = opt_result c b opts) held [d]); [done|done|done| |].
    - right. cbn [take firstn concat]. by rewrite app_nil_r.
    - intros _ h s1 m _. destruct (request_copied h d ch ci opts Hd) as (rest & Hl & (pre & Hpre & Em) & _ & _ & _ & _ & _ & Hle).
      unfold m. rewrite Em in *. eapply ends_mono; [by apply ends_wp, parse_options_ok|]. done. }
  cbv beta. intros _ s' (Hp' & Hm' & h & s1 & r & Hf & Ha & Hr). split; [done|]. exists (copied h [d]), s1, r.
  destruct (request_copied h d ch ci opts Hd) as (rest & _ & _ & Hc & Hch & Hci & Hx & Hy & _). rewrite bool_decide_true in Ha by done.
  repeat (split; [done|]). intros out type a o [H1 H2 H3 H4 H5 H6 H7 H8]. split; [done|done|by rewrite H3|done|done|by rewrite H6|done|done].
Qed.

Hypothesis Hpbuf : forall h l, env_ext h d_pbuf_alloc l <> 0.

Lemma replied_answered m d type full s s1 s' : framed s s1 -> replied m type (client_address s1) full s1 s' ->
  (forall out type a o, reply_ok m out type a o -> reply_ok d out type a o) -> answered d type (client_address s1) full s s'.
Proof using Hpbuf.
  intros (_ & E1 & E2 & E3 & E4 & E5) (out & o & Hr & Ho & _ & Hs) Hd. exists out, o. split; [by apply Hd|]. split.
  - unfold reply_options in *. by rewrite E1, E2, E4 in Ho.
  - destruct Hs as [Hs | (_ & h & l & Hs)]; [by rewrite Hs, E3, E5|by destruct (Hpbuf h l)].
Qed.

(** The reply to a client whose options come to [r]. *)
Definition reply_for (r : Z) (d : list Z) (a : Z) (s s' : dhcps) : Prop :=
  if r =? DHCPS_STATE_OFFER then answered d DHCPOFFER a true s s'
  else if r =? DHCPS_STATE_ACK then answered d DHCPACK a true s s'
  else if r =? DHCPS_STATE_NAK then answered d DHCPNAK a false s s'
  else sent (dtrace s') = sent (dtrace s).

Lemma responds_reply m d r s s1 s' : framed s s1 -> responds m r s1 s' -> (forall out type a o, reply_ok m out type a o -> reply_ok d out type a o) ->
  reply_for r d (client_address s1) s s'.
Proof using Hpbuf.
  unfold responds, reply_for. intros Hf Hr Hd. repeat destruct (_ =? _); [by eapply replied_answered..|].
  destruct Hf as (_ & _ & _ & _ & _ & <-). apply Hr.
Qed.

(** A client that has or can get a lease, and sends something other than a release. *)
Lemma lease_answered held d ch ci opts s : pool_ok base lo hi s -> mem_ok held s -> request d ch ci opts ->
  ch ∈ n_mac <$> plist s \/ ~ full base lo hi (plist s) -> (forall a b, opt_result a b opts <> DHCPS_STATE_RELEASE) ->
  wp (handle_dhcp [d]) (fun _ s' => (pool_ok base lo hi s' /\ mem_ok held s') /\ exists a, in_pool base lo hi a /\
    reply_for (opt_result a (bool_decide (ch ∈ n_mac <$> plist s) && bool_decide (ip_bytes a = ci)) opts) d a s s' /\
    lease_is ch a (dhcps_lease_time s) (plist s') /\ others_same ch (plist s) (plist s') /\
    (forall m, m ∈ plist s -> n_mac m = ch -> n_ip m = a)) s.
Proof using Hbase Hrange heap Hpbuf.
  intros Hp Hm Hd Hroom Hrel. eapply wp_mono; [by apply (request_handled held d ch ci opts)|]. cbv beta.
  intros _ s' [[Hp' Hm'] (m & s1 & r & Hf & (found & s2 & Hl & Hok & Hx) & Hr & <- & <- & Hro)]. split; [done|].
  destruct found as [n|]; [|exfalso; destruct Hl as (Hch & _ & _ & _ & Hfull); tauto]. destruct Hx as [-> Hx]. rewrite (proj2 (Z.eqb_neq _ _)) in Hx by done.
  destruct Hx as [Ep Ec]. destruct Hl as (Hn & Hc & Ht & _ & Ho & Hu & Hren).
  assert (plist s' = plist s2) as Es by (by rewrite (responds_only _ _ _ _ Hr)). exists (n_ip n). rewrite Es, <- Hren.
  split; [|split; [|split; [by exists n|by split]]].
  - destruct Hp' as [_ _ _ [_ H2 _]]. apply H2. by rewrite Es.
  - rewrite <- Ec. rewrite <- Ec in Hr. by eapply responds_reply.
Qed.

(** A discovery is answered by an offer if there is an address for the client. *)
Lemma discover_ok held d ch ci opts s : pool_ok base lo hi s -> mem_ok held s -> request d ch ci opts ->
  opt_last DHCP_OPTION_MSG_TYPE opts = Some [DHCPDISCOVER] -> ch ∈ n_mac <$> plist s \/ ~ full base lo hi (plist s) ->
  wp (handle_dhcp [d]) (fun _ s' => (pool_ok base lo hi s' /\ mem_ok held s') /\ exists a, in_pool base lo hi a /\
    answered d DHCPOFFER a true s s' /\ lease_is ch a (dhcps_lease_time s) (plist s') /\ others_same ch (plist s) (plist s') /\
    (forall m, m ∈ plist s -> n_mac m = ch -> n_ip m = a)) s.
Proof using Hbase Hrange heap Hpbuf.
  intros Hp Hm Hd Ht Hroom. eapply wp_mono; [apply (lease_answered held d ch ci opts); try done|].
  - intros a b. by rewrite discover_result.
  - cbv beta. intros _ s' [Hinv (a & Ha & Hr & Hx)]. split; [done|]. exists a. rewrite discover_result in Hr by done. done.
Qed.

(** A request of a client that has a lease. *)
Lemma request_ok held d ch ci opts a time s : pool_ok base lo hi s -> mem_ok held s -> request d ch ci opts ->
  opt_last DHCP_OPTION_MSG_TYPE opts = Some [DHCPREQUEST] -> lease_is ch a time (plist s) ->
  wp (handle_dhcp [d]) (fun _ s' => (pool_ok base lo hi s' /\ mem_ok held s') /\
    (if asks a ci opts then answered d DHCPACK a true s s' else answered d DHCPNAK a false s s') /\
    lease_is ch a (dhcps_lease_time s) (plist s') /\ others_same ch (plist s) (plist s')) s.
Proof using Hbase Hrange heap Hpbuf.
  intros Hp Hm Hd Ht (n & Hn & Hc & Ha & _). assert (ch ∈ n_mac <$> plist s) as Hin by (rewrite <- Hc; by apply list_elem_of_fmap_2).
  eapply wp_mono; [apply (lease_answered held d ch ci opts); try done; [by left|]|].
  - intros c b. unfold opt_result. rewrite opts_folded, Ht. destruct (opt_last DHCP_OPTION_REQ_IPADDR opts); [case_bool_decide|]; by destruct b.
  - cbv beta. intros _ s' [Hinv (a' & _ & Hr & Hl & Ho & Hu)]. split; [done|]. assert (a' = a) as -> by (rewrite <- Ha; by rewrite (Hu n)).
    rewrite (request_result _ ci) in Hr; [|done|by rewrite (bool_decide_true (ch ∈ _))]. split; [|done]. by destruct (asks a ci opts).
Qed.
End answers.

(** ** Time *)

Definition aged (k : Z) (n : list_node) : list_node :=
  mkNode (n_addr n) (n_pool_addr n) (mkPool (ip (pnode n)) (mac (pnode n)) (lease_timer (pnode n) - k)).

(** The leases left after [k] ticks. *)
Definition lasting (k : Z) (l : list list_node) : list list_node := aged k <$> filter (fun n => k < lease_timer (pnode n)) l.

Lemma lasting_cons k n l : lasting k (n :: l) = if decide (k < lease_timer (pnode n)) then aged k n :: lasting k l else lasting k l.
Proof. unfold lasting. rewrite list.filter_cons. by destruct (decide _). Qed.

Lemma ticked_lasting l : Forall (fun n => 0 < lease_timer (pnode n) < 2 ^ 32) l -> ticked l = lasting 1 l.
Proof.
  induction 1 as [|n l Hn Hl IH]; [done|]. rewrite lasting_cons, <- IH. unfold ticked. cbn [fmap list_fmap]. rewrite list.filter_cons.
  assert (lease_timer (pnode (tick1 n)) = lease_timer (pnode n) - 1) as E by (cbn; by rewrite u32_small by lia).
  destruct (decide (1 < lease_timer (pnode n))).
  - rewrite decide_True by (unfold running; lia). f_equal. unfold aged, tick1. cbn in E. by rewrite E.
  - by rewrite decide_False by (unfold running; lia).
Qed.

Lemma lasting_add j k l : 0 <= j -> lasting j (lasting k l) = lasting (k + j) l.
Proof.
  intros Hj. induction l as [|n l IH]; [done|]. rewrite !lasting_cons, <- IH.
  destruct (decide (k < lease_timer (pnode n))); [rewrite lasting_cons; cbn [aged pnode lease_timer]|by rewrite decide_False by lia].
  destruct (decide (j < lease_timer (pnode n) - k)); [rewrite decide_True by lia|by rewrite decide_False by lia].
  unfold aged. cbn. do 3 f_equal. lia.
Qed.

Lemma lasting_in k l : 0 <= k -> Forall (fun n => 0 < lease_timer (pnode n) < 2 ^ 32) l ->
  zlen (lasting k l) <= zlen l /\ Forall (fun n => 0 < lease_timer (pnode n) < 2 ^ 32) (lasting k l).
Proof.
  intros Hk. induction 1 as [|n l Hn Hl [IH1 IH2]]; [done|]. rewrite lasting_cons. destruct (decide _).
  - unfold zlen in *. cbn [length]. split; [lia|]. constructor; [cbn; lia|done].
  - unfold zlen in *. cbn [length]. split; [lia|done].
Qed.

Lemma lasting_0 l : Forall (fun n => 0 < lease_timer (pnode n) < 2 ^ 32) l -> lasting 0 l = l.
Proof.
  induction 1 as [|n l Hn Hl IH]; [done|]. rewrite lasting_cons, IH, decide_True by lia. f_equal. unfold aged. rewrite Z.sub_0_r. by destruct n as [? ? []].
Qed.

Lemma ticks_ok `{env : DhcpEnv} held k s : zlen (plist s) < MAX_STATION_NUM -> Forall (fun n => 0 < lease_timer (pnode n) < 2 ^ 32) (plist s) -> mem_ok held s ->
  wp (dhcp_run (replicate k Tick)) (fun _ s' => calls (set_plist (lasting (Z.of_nat k) (plist s)) s) s' /\ mem_ok held s') s.
Proof.
  revert s. induction k as [|k IH]; intros s Hl Ht Hm; cbn [replicate dhcp_run].
  - apply wp_ret. rewrite lasting_0 by done. split; [split; [by destruct s|done]|done].
  - eapply wp_call; [by apply (coarse_tmr_ok held)|]. cbv beta. intros _ s1 (l' & Hl' & Hc & Hm1). unfold after_tick in Hl'.
    destruct (lasting_in 1 (plist s) ltac:(done) Ht) as [Hlen Hf]. rewrite (ticked_lasting (plist s)) in Hl' by done.
    pose proof (zlen_nonneg (lasting 1 (plist s))). rewrite u8_small, (proj2 (Z.ltb_lt _ _)) in Hl' by (unfold MAX_STATION_NUM in *; lia). subst l'.
    assert (plist s1 = lasting 1 (plist s)) as E1 by (by destruct Hc as [-> _]).
    eapply wp_mono; [apply IH; rewrite ?E1; [lia|done|done]|]. cbv beta. rewrite E1, lasting_add by lia. replace (1 + Z.of_nat k) with (Z.of_nat (S k)) by lia.
    intros _ s2 [Hc2 Hm2]. split; [|done]. destruct Hc as [Ec H1], Hc2 as [Ec2 H2]. split; [rewrite Ec2, Ec; done|]. rewrite H2. cbn in *. done.
Qed.

(** ** The theorems *)

Section theorems.
Context {env : DhcpEnv} {heap : DhcpHeap}.

(** The leases of a server at address [d] of the network [base] are apart, and its memory is
    theirs. *)
Definition leases_apart (base d : Z) (s : dhcps) : Prop :=
  NoDup (n_ip <$> plist s) /\ NoDup (n_mac <$> plist s) /\
  (exists lo hi, start_ip (dhcps_lease s) = addr base lo /\ end_ip (dhcps_lease s) = addr base hi /\ ~ (lo <= d <= hi) /\
     forall n, n ∈ plist s -> exists e, lo <= e <= hi /\ n_ip n = addr base e) /\
  NoDup (ptrs (plist s)) /\ live (dtrace s) = Some (list_to_set (ptrs (plist s))).

Lemma start_run_apart U base d s0 ops : U \/ udp_works -> U \/ Forall (on_datagram datagram_ok) ops ->
  0 < base < 2 ^ 24 -> 0 <= d < 256 -> config_ok (dhcps_lease s0) (addr base d) -> plist s0 = [] -> live (dtrace s0) = Some ∅ ->
  Forall (on_datagram datagram_bytes) ops ->
  ends U (dhcps_start (Some (addr base d));; dhcp_run ops) (fun _ s => leases_apart base d s /\ mem_ok [] s) s0.
Proof using heap.
  intros Hudp HU Hb Hd Hc Hl Hlive Hby. eapply ends_call; [apply (dhcps_start_ok U base d []); [done|lia|done|done|done|]|].
  - unfold mem_ok. rewrite Hl, Hlive. split; [constructor|done].
  - cbv beta. intros _ s1 (lo & hi & Hr & Hn & _ & Hp & Hm & _). eapply ends_mono; [by apply (run_pool U base lo hi)|]. cbv beta.
    intros _ s2 [[[H1 H2 _ [H4 H5 H6]] Hm2] _]. split; [|done]. destruct Hm2 as [Hm1 Hm2].
    split; [by apply sorted_distinct|]. split; [done|]. split; [by exists lo, hi|]. done.
Qed.


(** C5: A discovery is answered by the offer of an address of the pool that nobody else
    has, the client's own one if it had a lease; a request for that address is then
    acknowledged to the same client, who holds the lease with its full time, and
    the others' leases stay as they were. *)
Theorem dhcp_handshake base lo hi held d1 ch ci1 opts1 s :
  0 < base < 2 ^ 24 -> 0 <= lo <= hi /\ hi < 255 -> (forall h l, env_ext h d_pbuf_alloc l <> 0) ->
  pool_ok base lo hi s -> mem_ok held s -> request d1 ch ci1 opts1 ->
  opt_last DHCP_OPTION_MSG_TYPE opts1 = Some [DHCPDISCOVER] -> ch ∈ n_mac <$> plist s \/ ~ full base lo hi (plist s) ->
  wp (handle_dhcp [d1]) (fun _ s1 => exists a, in_pool base lo hi a /\ answered d1 DHCPOFFER a true s s1 /\
    (forall m, m ∈ plist s -> n_mac m = ch -> n_ip m = a) /\ (forall m, m ∈ plist s1 -> n_ip m = a -> n_mac m = ch) /\
    forall d2 ci2 opts2, request d2 ch ci2 opts2 -> opt_last DHCP_OPTION_MSG_TYPE opts2 = Some [DHCPREQUEST] -> asks a ci2 opts2 = true ->
      wp (handle_dhcp [d2]) (fun _ s2 => answered d2 DHCPACK a true s1 s2 /\ lease_is ch a (dhcps_lease_time s1) (plist s2) /\
        others_same ch (plist s) (plist s2)) s1) s.
Proof using heap.
  intros Hb Hr Hpb Hp Hm Hd Ht Hroom. eapply wp_mono; [by apply (discover_ok base lo hi Hb Hr Hpb held d1 ch ci1 opts1)|]. cbv beta.
  intros _ s1 [[Hp1 Hm1] (a & Ha & Han & Hl & Ho & Hs)]. exists a. split; [done|]. split; [done|]. split; [done|]. split.
  - intros m Hmi Em. destruct Hl as (n & Hn & <- & En & _). f_equal. destruct Hp1 as [_ _ _ [Hsort _ _]].
    apply (key_unique n_ip (plist s1)); [by apply sorted_distinct|done|done|congruence].
  - intros d2 ci2 opts2 Hd2 Ht2 Has. eapply wp_mono; [by apply (request_ok base lo hi Hb Hr Hpb held d2 ch ci2 opts2 a (dhcps_lease_time s))|]. cbv beta.
    rewrite Has. intros _ s2 (_ & Han2 & Hl2 & Ho2). split; [done|]. split; [done|]. intros m Hmc. etrans; [by apply Ho2|by apply Ho].
Qed.

(** C32: A client with a lease that requests its address, by the option or by its own
    address, gets an acknowledgement; one that requests another gets a refusal.
    Either way its lease is renewed and the others' stay. *)
Theorem dhcp_request_answered base lo hi held d ch ci opts a time s :
  0 < base < 2 ^ 24 -> 0 <= lo <= hi /\ hi < 255 -> (forall h l, env_ext h d_pbuf_alloc l <> 0) ->
  pool_ok base lo hi s -> mem_ok held s -> request d ch ci opts ->
  opt_last DHCP_OPTION_MSG_TYPE opts = Some [DHCPREQUEST] -> lease_is ch a time (plist s) ->
  wp (handle_dhcp [d]) (fun _ s' => (if asks a ci opts then answered d DHCPACK a true s s' else answered d DHCPNAK a false s s') /\
    lease_is ch a (dhcps_lease_time s) (plist s') /\ others_same ch (plist s) (plist s')) s.
Proof using heap.
  intros Hb Hr Hpb Hp Hm Hd Ht Hl. eapply wp_mono; [by apply (request_ok base lo hi Hb Hr Hpb held d ch ci opts a time)|]. by intros _ s' [_ H].
Qed.

(** C34: When every address of the pool is leased and the client has none, any well-formed
    message of its is refused: given a buffer for the reply, it gets a NAK, which carries the
    address after the pool, and no lease changes.  The range does not end in .255. *)
Theorem dhcp_pool_exhausted base lo hi held d ch ci opts s :
  0 < base < 2 ^ 24 -> 0 <= lo <= hi /\ hi < 255 -> (forall h l, env_ext h d_pbuf_alloc l <> 0) ->
  pool_ok base lo hi s -> mem_ok held s -> request d ch ci opts -> (ch ∉ n_mac <$> plist s) -> full base lo hi (plist s) ->
  wp (handle_dhcp [d]) (fun _ s' => answered d DHCPNAK (addr base (hi + 1)) false s s' /\ plist s' = plist s) s.
Proof using heap.
  intros Hb Hr Hpb Hp Hm Hd Hch Hfull. eapply wp_mono; [by apply (request_handled base lo hi Hb Hr held d ch ci opts)|]. cbv beta.
  intros _ s' (_ & m & s1 & r & Hf & (found & s2 & Hl & Hok & Hx) & Hresp & Ec & _ & Hro). destruct found as [n|].
  - exfalso. destruct Hl as (Hn & Hnm & _ & _ & Ho & _ & _). destruct Hok as [Hsort Hin _].
    destruct (Hin n Hn) as (e & He & En). destruct (Hfull e He) as (x & Hx1 & Ex).
    assert (n_mac x <> n_mac n) as Hne by (intros E; apply Hch; rewrite <- Ec, <- Hnm, <- E; by apply list_elem_of_fmap_2).
    apply Hne. f_equal. apply (key_unique n_ip (plist s2)); [by apply sorted_distinct|apply Ho; [by rewrite <- Hnm|done]|done|congruence].
  - destruct Hx as (-> & Ep & Ecl). split; [|by rewrite (responds_only _ _ _ _ Hresp)]. rewrite <- Ecl.
    by apply (responds_reply Hpb m d DHCPS_STATE_NAK s s1 s').
Qed.

(** C33: With fewer than eight leases, [k] ticks of the lease timer take [k] from the time
    of each lease and end exactly those whose time is up, freeing their memory; nothing
    else changes. *)
Theorem dhcp_leases_expire held k s :
  zlen (plist s) < MAX_STATION_NUM -> Forall (fun n => 0 < lease_timer (pnode n) < 2 ^ 32) (plist s) -> mem_ok held s ->
  wp (dhcp_run (replicate k Tick)) (fun _ s' => plist s' = lasting (Z.of_nat k) (plist s) /\
    s' = set_dtrace (dtrace s') (set_plist (plist s') s) /\ mem_ok held s') s.
Proof using.
  intros Hl Ht Hm. eapply wp_mono; [by apply (ticks_ok held)|]. cbv beta. intros _ s' [[E _] Hm']. rewrite E. split; [done|]. split; [done|by rewrite <- E].
Qed.

(** The option parser reads a list of options as it was encoded: the last message type
    decides, and for a request the last requested address, compared with the address
    found for the client; the parser changes nothing and its loop ends. *)
Theorem dhcp_options_parsed pre rest opts len s :
  zlen pre = o_options + 4 -> Forall opt_ok opts -> zlen (enc_opts opts) <= len ->
  zlen (pre ++ enc_opts opts ++ DHCP_OPTION_END :: rest) = sizeof_dhcps_msg ->
  wp (parse_options (pre ++ enc_opts opts ++ DHCP_OPTION_END :: rest) len) (fun r s' => s' = s /\
    r = type_state (match opt_last DHCP_OPTION_MSG_TYPE opts with Some x => default 0 (head x) | None => 0 end)
          (match opt_last DHCP_OPTION_REQ_IPADDR opts with
           | Some x => if bool_decide (ip_bytes (client_address s) = take 4 x) then DHCPS_STATE_ACK else DHCPS_STATE_NAK
           | None => DHCPS_STATE_IDLE end) (renew s)) s.
Proof using.
  intros H1 H2 H3 H4. eapply wp_mono; [by apply parse_options_ok|]. cbv beta. intros r s' [-> ->]. split; [done|]. unfold opt_result. by rewrite opts_folded.
Qed.

(** Stopping the server after any run frees every block it allocated and leaves it
    without leases. *)
Theorem dhcp_stop_frees base d s0 ops :
  0 < base < 2 ^ 24 -> 0 <= d < 256 -> config_ok (dhcps_lease s0) (addr base d) -> plist s0 = [] -> live (dtrace s0) = Some ∅ ->
  Forall (on_datagram datagram_bytes) ops ->
  ends True ((dhcps_start (Some (addr base d));; dhcp_run ops);; dhcps_stop true)
    (fun _ s => plist s = [] /\ live (dtrace s) = Some ∅ /\ DhcpsFlags s = DHCPS_STOP) s0.
Proof using heap.
  intros Hb Hd Hc Hl Hlive Hby. eapply ends_call; [apply start_run_apart; auto|]. cbv beta. intros _ s2 [_ Hm2].
  apply ends_wp. eapply wp_mono; [by apply (dhcps_stop_ok [])|]. cbv beta. intros _ s3 ([Hp [_ Hm]] & Hf & _). by rewrite Hp in Hm.
Qed.
End theorems.

(** ** Concrete runs *)

Definition demo_ops : list dhcp_op :=
  [Datagram [demo_message demo_mac (replicate 4 0) demo_discover]; Datagram [demo_message demo_mac (replicate 4 0) (demo_request (addr demo_net 2))];
   Tick; Datagram [demo_message demo_mac2 (replicate 4 0) demo_discover]; Datagram [[1; 2; 3]; [4]]].


Lemma demo_message_ok ch opts : ch = demo_mac \/ ch = demo_mac2 -> Forall opt_ok opts -> zlen (enc_opts opts) <= 300 ->
  request (demo_message ch (replicate 4 0) opts) ch (replicate 4 0) opts.
Proof.
  intros Hch Ho Hl. set (pre := splice (splice (splice (replicate 240 0) o_ciaddr (replicate 4 0)) o_chaddr ch) o_options (enc32 magic_cookie)).
  assert (zlen pre = 240) as Hp by (destruct Hch as [-> | ->]; vm_compute; reflexivity). exists pre, []. split; [done|]. split; [done|]. split.
  - unfold demo_message. fold pre. rewrite !zlen_app, Hp. change (zlen [DHCP_OPTION_END]) with 1. unfold sizeof_dhcps_msg. lia.
  - destruct Hch as [-> | ->]; (split; [vm_compute; reflexivity|]; split; [vm_compute; reflexivity|]; split; [vm_compute; reflexivity|done]).
Qed.

Lemma demo_discover_ok : Forall opt_ok demo_discover.
Proof. repeat constructor; done. Qed.

Lemma demo_request_ok a : Forall opt_ok (demo_request a).
Proof. repeat constructor; done. Qed.


Lemma demo_datagram_ok ch opts : ch = demo_mac \/ ch = demo_mac2 -> Forall opt_ok opts -> zlen (enc_opts opts) <= 300 ->
  datagram_ok [demo_message ch (replicate 4 0) opts].
Proof.
  intros Hch Ho Hl. destruct (demo_message_ok ch opts Hch Ho Hl) as (pre & rest & E & Hp & Hd & _ & _ & _ & Ho').
  unfold datagram_ok. cbn [concat]. rewrite app_nil_r. split; [cbn; lia|]. split; [done|]. intros _. by exists pre, opts, rest.
Qed.

Lemma demo_ops_ok : Forall (on_datagram datagram_bytes) demo_ops /\ Forall (on_datagram datagram_ok) demo_ops.
Proof.
  split.
  - assert (forall p : list (list Z), bool_decide (Forall (Forall (fun b => 0 <= b < 256)) p) = true -> datagram_bytes p) as Hb
      by (intros p; apply bool_decide_eq_true_1).
    unfold demo_ops. repeat (apply Forall_cons_2 || apply Forall_nil_2); cbn [on_datagram]; try done; apply Hb; by vm_compute.
  - unfold demo_ops. repeat (apply Forall_cons_2 || apply Forall_nil_2); cbn [on_datagram].
    + apply demo_datagram_ok; [by left|apply demo_discover_ok|done].
    + apply demo_datagram_ok; [by left|apply demo_request_ok|done].
    + done.
    + apply demo_datagram_ok; [by right|apply demo_discover_ok|done].
    + split; [cbn; lia|]. by split.
Qed.


Lemma demo_asks a : asks a (replicate 4 0) (demo_request a) = true.
Proof. by apply bool_decide_true. Qed.

(** The client asks for whatever address it is offered. *)
Lemma dhcp_handshake_witness :
  let d1 := demo_message demo_mac (replicate 4 0) demo_discover in
  exists s1 a, let d2 := demo_message demo_mac (replicate 4 0) (demo_request a) in
  handle_dhcp [d1] (demo_state 3 []) = Done (tt, s1) /\ answered d1 DHCPOFFER a true (demo_state 3 []) s1 /\
  exists s2, handle_dhcp [d2] s1 = Done (tt, s2) /\ answered d2 DHCPACK a true s1 s2 /\ lease_is demo_mac a (dhcps_lease_time s1) (plist s2).
Proof.
  intros d1. destruct (demo_pool_empty_ok 3 ltac:(done)) as [Hp Hm].
  assert (request d1 demo_mac (replicate 4 0) demo_discover) as Hd1 by (apply demo_message_ok; [by left|apply demo_discover_ok|done]).
  assert (demo_mac ∈ n_mac <$> plist (demo_state 3 []) \/ ~ full demo_net 2 3 (plist (demo_state 3 []))) as Hroom.
  { right. intros Hf. destruct (Hf 2 ltac:(done)) as (n & Hn%not_elem_of_nil & _). done. }
  pose proof (dhcp_handshake demo_net 2 3 [] d1 demo_mac _ _ (demo_state 3 []) ltac:(done) ltac:(done) demo_pbuf Hp Hm Hd1 eq_refl Hroom) as H.
  apply wp_run in H as (u & s1 & E1 & a & _ & Han & _ & _ & H). destruct u.
  assert (request (demo_message demo_mac (replicate 4 0) (demo_request a)) demo_mac (replicate 4 0) (demo_request a)) as Hd2.
  { apply demo_message_ok; [by left|apply demo_request_ok|done]. }
  specialize (H _ _ _ Hd2 eq_refl (demo_asks a)). apply wp_run in H as (u & s2 & E2 & Han2 & Hl2 & _). destruct u.
  exists s1, a. split; [exact E1|]. split; [exact Han|]. exists s2. split; [exact E2|]. split; [exact Han2|exact Hl2].
Defined.

Lemma demo_lease_is : lease_is demo_mac (addr demo_net 2) 60 (plist (demo_state 3 [demo_lease])).
Proof. exists demo_lease. split; [by left|done]. Qed.

(** It asks for the address it has, and for another. *)
Lemma dhcp_request_answered_witness :
  let d b := demo_message demo_mac (replicate 4 0) (demo_request (addr demo_net (if b : bool then 2 else 9))) in
  let s := demo_state 3 [demo_lease] in
  wp (handle_dhcp [d true]) (fun _ s' => answered (d true) DHCPACK (addr demo_net 2) true s s') s /\
  wp (handle_dhcp [d false]) (fun _ s' => answered (d false) DHCPNAK (addr demo_net 2) false s s') s.
Proof.
  intros d s. destruct (demo_lease_ok 3 ltac:(done)) as [Hp Hm].
  assert (forall b, request (d b) demo_mac (replicate 4 0) (demo_request (addr demo_net (if b : bool then 2 else 9)))) as Hd.
  { intros b. apply demo_message_ok; [by left|apply demo_request_ok|by destruct b]. }
  split; (eapply wp_mono; [apply (dhcp_request_answered demo_net 2 3 [] _ demo_mac _ _ (addr demo_net 2) 60 s
    ltac:(done) ltac:(done) demo_pbuf Hp Hm (Hd _)); [done|exact demo_lease_is]|]; cbv beta; intros _ s' [H _]; exact H).
Defined.

Lemma dhcp_pool_exhausted_witness : let d := demo_message demo_mac2 (replicate 4 0) demo_discover in
  wp (handle_dhcp [d]) (fun _ s' => answered d DHCPNAK (addr demo_net 3) false (demo_state 2 [demo_lease]) s' /\ plist s' = [demo_lease]) (demo_state 2 [demo_lease]).
Proof.
  intros d. destruct (demo_lease_ok 2 ltac:(done)) as [Hp Hm].
  assert (request d demo_mac2 (replicate 4 0) demo_discover) as Hd by (apply demo_message_ok; [by right|apply demo_discover_ok|done]).
  apply (dhcp_pool_exhausted demo_net 2 2 [] d demo_mac2 _ _ (demo_state 2 [demo_lease]) ltac:(done) ltac:(done) demo_pbuf Hp Hm Hd).
  - by intros [= ?]%list_elem_of_singleton.
  - intros e He. exists demo_lease. split; [by left|]. by replace e with 2 by lia.
Defined.

Lemma dhcp_leases_expire_witness : wp (dhcp_run (replicate 60 Tick)) (fun _ s' => plist s' = []) (demo_state 3 [demo_lease]).
Proof.
  eapply wp_mono; [apply (dhcp_leases_expire [] 60 (demo_state 3 [demo_lease])); [done|by repeat constructor|apply (demo_lease_ok 3 ltac:(done))]|].
  cbv beta. intros _ s' [-> _]. vm_compute. reflexivity.
Defined.

Lemma dhcp_options_parsed_witness :
  let m := take 240 (demo_message demo_mac (replicate 4 0) []) ++ enc_opts (demo_request (addr demo_net 2)) ++ DHCP_OPTION_END :: replicate 298 0 in
  wp (parse_options m 300) (fun r s' => s' = demo_state 3 [] /\ r = DHCPS_STATE_NAK) (demo_state 3 []).
Proof.
  intros m. eapply wp_mono; [apply dhcp_options_parsed; [vm_compute; reflexivity|apply demo_request_ok|done|vm_compute; reflexivity]|].
  cbv beta. intros r s' [-> ->]. split; [done|]. vm_compute. reflexivity.
Defined.

Lemma dhcp_stop_frees_witness :
  ends True ((dhcps_start (Some (addr demo_net 1));; dhcp_run demo_ops);; dhcps_stop true)
    (fun _ s => plist s = [] /\ live (dtrace s) = Some ∅ /\ DhcpsFlags s = DHCPS_STOP) dhcps_init.
Proof. exact (dhcp_stop_frees demo_net 1 dhcps_init demo_ops ltac:(done) ltac:(done) ltac:(done) eq_refl eq_refl (proj1 demo_ops_ok)). Defined.
