(* ===== verification/CJson.v ===== *)
(** The JSON library [cjson/cJSON.c] ([json/cJSON.h]): items, memory, deletion, the
    operations on the children of an item, construction, duplication and minification.
    [CJsonParse] holds the parser, [CJsonPrint] the printer.

    A [cJSON *] is the list of the item it points to and the items behind it on its
    [next] chain; [NULL] is the empty list, or [None] where an item without followers
    is meant.  An item carries its address and the list of its children.  A string
    pointer carries its address and the bytes before the terminator. *)
From Stdlib Require Import ZArith Lia Bool.
From S2P Require Import Prelude CSem CDouble.
From stdpp Require Import base list numbers option.

Open Scope Z_scope.

(** ** Types *)

Definition cJSON_False : Z := 0.
Definition cJSON_True : Z := 1.
Definition cJSON_NULL : Z := 2.
Definition cJSON_Number : Z := 3.
Definition cJSON_String : Z := 4.
Definition cJSON_Array : Z := 5.
Definition cJSON_Object : Z := 6.

Definition cJSON_IsReference : Z := 256.
Definition cJSON_StringIsConst : Z := 512.

Record cstr := mkCstr { str_addr : Z; str_bytes : list Z }.

#[warnings="-register-all"] Inductive cJSON : Type := mkItem
  (addr type : Z) (valuestring : option cstr) (valueint : Z) (valuedouble : double)
  (string : option cstr) (child : list cJSON).

Definition c_addr (c : cJSON) : Z := let '(mkItem a _ _ _ _ _ _) := c in a.
Definition c_type (c : cJSON) : Z := let '(mkItem _ t _ _ _ _ _) := c in t.
Definition valuestring (c : cJSON) : option cstr := let '(mkItem _ _ v _ _ _ _) := c in v.
Definition valueint (c : cJSON) : Z := let '(mkItem _ _ _ v _ _ _) := c in v.
Definition valuedouble (c : cJSON) : double := let '(mkItem _ _ _ _ v _ _) := c in v.
Definition c_string (c : cJSON) : option cstr := let '(mkItem _ _ _ _ _ s _) := c in s.
Definition child (c : cJSON) : list cJSON := let '(mkItem _ _ _ _ _ _ k) := c in k.

Definition set_type (t : Z) (c : cJSON) : cJSON := let '(mkItem a _ v i d s k) := c in mkItem a t v i d s k.
Definition set_valuestring (v : option cstr) (c : cJSON) : cJSON := let '(mkItem a t _ i d s k) := c in mkItem a t v i d s k.
Definition set_numbers (i : Z) (d : double) (c : cJSON) : cJSON := let '(mkItem a t v _ _ s k) := c in mkItem a t v i d s k.
Definition set_string (s : option cstr) (c : cJSON) : cJSON := let '(mkItem a t v i d _ k) := c in mkItem a t v i d s k.
Definition set_child (k : list cJSON) (c : cJSON) : cJSON := let '(mkItem a t v i d s _) := c in mkItem a t v i d s k.

Definition sizeof_cJSON : Z := 40.
Definition sizeof_ptr : Z := 4.

(** ** State

    [ep] points into the text parsed last.  The hooks are function pointers; the C
    library's [malloc] and [free] are function 0.  The trace holds the calls made through them. *)

Inductive jevent : Type :=
  | JMalloc (fn size result : Z)
  | JFree (fn ptr : Z).

Record json := mkJson { ep : option Z; malloc_hook : Z; free_hook : Z; jtrace : list jevent }.

Definition set_ep (p : option Z) (s : json) : json := mkJson p (malloc_hook s) (free_hook s) (jtrace s).
Definition set_hooks (m f : Z) (s : json) : json := mkJson (ep s) m f (jtrace s).
Definition set_jtrace (h : list jevent) (s : json) : json := mkJson (ep s) (malloc_hook s) (free_hook s) h.

(** The allocator, whose answers depend on the calls so far (0 is [NULL]), and [pow]. *)
Class JsonEnv := {
  env_malloc : list jevent -> Z -> Z -> Z;
  libm_pow : double -> double -> double
}.

Section CJson.
Context {env : JsonEnv}.

Definition cJSON_GetErrorPtr : C json (option Z) := gets ep.

Definition cJSON_malloc (size : Z) : C json (option Z) :=
  fn ← gets malloc_hook;
  h ← gets jtrace;
  let r := env_malloc h fn size in
  modify (set_jtrace (h ++ [JMalloc fn size r]));;
  mret (if r =? 0 then None else Some r).

Definition cJSON_free (p : Z) : C json unit :=
  fn ← gets free_hook;
  h ← gets jtrace;
  modify (set_jtrace (h ++ [JFree fn p])).

Record cJSON_Hooks := mkHooks { malloc_fn : option Z; free_fn : option Z }.

Definition cJSON_InitHooks (hooks : option cJSON_Hooks) : C json unit :=
  match hooks with
  | None => modify (set_hooks 0 0)
  | Some hooks => modify (set_hooks (default 0 (malloc_fn hooks)) (default 0 (free_fn hooks)))
  end.

(** [tolower] of the C locale. *)
Definition tolower (c : Z) : Z := if (65 <=? c) && (c <=? 90) then c + 32 else c.

(** The loop of [cJSON_strcasecmp]; the strings end with their terminators. *)
Fixpoint strcasecmp_loop (s1 s2 : list Z) : Z :=
  match s1 with
  | [] => 0 - tolower (default 0 (head s2))
  | c1 :: s1' =>
      let c2 := default 0 (head s2) in
      if tolower c1 =? tolower c2 then strcasecmp_loop s1' (tail s2) else tolower c1 - tolower c2
  end.

Definition cJSON_strcasecmp (s1 s2 : option cstr) : Z :=
  match s1, s2 with
  | None, None => 0
  | None, Some _ => 1
  | Some _, None => 1
  | Some s1, Some s2 => strcasecmp_loop (str_bytes s1) (str_bytes s2)
  end.

Definition cJSON_strdup (str : option cstr) : C json (option cstr) :=
  match str with
  | None => undefined
  | Some str =>
      copy ← cJSON_malloc (zlen (str_bytes str) + 1);
      mret (copy ← copy; Some (mkCstr copy (str_bytes str)))
  end.

Definition cJSON_New_Item : C json (option cJSON) :=
  node ← cJSON_malloc sizeof_cJSON;
  mret (a ← node; Some (mkItem a 0 None 0 (d_of_Z 0) None [])).

(** ** Deletion *)

Definition free_string (s : option cstr) : C json unit :=
  match s with Some s => cJSON_free (str_addr s) | None => mret tt end.

Fixpoint delete_chain (del : cJSON -> C json unit) (c : list cJSON) : C json unit :=
  match c with
  | [] => mret tt
  | c :: next => del c;; delete_chain del next
  end.

(** The body of the loop of [cJSON_Delete]. *)
Fixpoint delete_item (c : cJSON) : C json unit :=
  match c with
  | mkItem a t v _ _ s k =>
      (if negb (hasb t cJSON_IsReference) then delete_chain delete_item k else mret tt);;
      (if negb (hasb t cJSON_IsReference) then free_string v else mret tt);;
      (if negb (hasb t cJSON_StringIsConst) then free_string s else mret tt);;
      cJSON_free a
  end.

Definition cJSON_Delete (c : list cJSON) : C json unit := delete_chain delete_item c.

(** ** Children *)

Definition cJSON_GetArraySize (array : cJSON) : Z := zlen (child array).

(** [while (c && item > 0) item--, c = c->next]. *)
Fixpoint chain_at (c : list cJSON) (item : Z) : list cJSON :=
  match c with
  | [] => []
  | _ :: next => if 0 <? item then chain_at next (item - 1) else c
  end.

(** [while (c && cJSON_strcasecmp(c->string, string)) i++, c = c->next]. *)
Fixpoint chain_find (c : list cJSON) (string : option cstr) (i : Z) : list cJSON * Z :=
  match c with
  | [] => ([], i)
  | x :: next => if cJSON_strcasecmp (c_string x) string =? 0 then (c, i) else chain_find next string (i + 1)
  end.

Definition cJSON_GetArrayItem (array : cJSON) (item : Z) : list cJSON := chain_at (child array) item.
Definition cJSON_GetObjectItem (object : cJSON) (string : option cstr) : list cJSON := fst (chain_find (child object) string 0).

(** The items before the one [c] points to. *)
Definition chain_before (all c : list cJSON) : list cJSON := take (length all - length c) all.

Definition suffix_object (prev item : list cJSON) : list cJSON := prev ++ item.

Definition create_reference (item : option cJSON) : C json (option cJSON) :=
  ref ← cJSON_New_Item;
  match ref, item with
  | None, _ => mret None
  | Some _, None => undefined
  | Some ref, Some (mkItem _ t v i d _ k) => mret (Some (mkItem (c_addr ref) (Z.lor t cJSON_IsReference) v i d None k))
  end.

Definition cJSON_AddItemToArray (array : cJSON) (item : list cJSON) : cJSON :=
  match item, child array with
  | [], _ => array
  | _, [] => set_child item array
  | _, c => set_child (suffix_object c item) array
  end.

Definition cJSON_AddItemToObject (object : cJSON) (string : option cstr) (item : list cJSON) : C json cJSON :=
  match item with
  | [] => mret object
  | x :: next =>
      free_string (c_string x);;
      copy ← cJSON_strdup string;
      mret (cJSON_AddItemToArray object (set_string copy x :: next))
  end.

Definition cJSON_AddItemToObjectCS (object : cJSON) (string : option cstr) (item : list cJSON) : C json cJSON :=
  match item with
  | [] => mret object
  | x :: next =>
      (if negb (hasb (c_type x) cJSON_StringIsConst) then free_string (c_string x) else mret tt);;
      mret (cJSON_AddItemToArray object (set_type (Z.lor (c_type x) cJSON_StringIsConst) (set_string string x) :: next))
  end.

Definition cJSON_AddItemReferenceToArray (array : cJSON) (item : option cJSON) : C json cJSON :=
  ref ← create_reference item;
  mret (cJSON_AddItemToArray array (option_list ref)).

Definition cJSON_AddItemReferenceToObject (object : cJSON) (string : option cstr) (item : option cJSON) : C json cJSON :=
  ref ← create_reference item;
  cJSON_AddItemToObject object string (option_list ref).

(** The array left and the item taken out, on its own. *)
Definition cJSON_DetachItemFromArray (array : cJSON) (which : Z) : cJSON * option cJSON :=
  match chain_at (child array) which with
  | [] => (array, None)
  | (c :: next) as here => (set_child (chain_before (child array) here ++ next) array, Some c)
  end.

Definition cJSON_DeleteItemFromArray (array : cJSON) (which : Z) : C json cJSON :=
  let '(array, c) := cJSON_DetachItemFromArray array which in
  cJSON_Delete (option_list c);; mret array.

Definition cJSON_DetachItemFromObject (object : cJSON) (string : option cstr) : cJSON * option cJSON :=
  let '(c, i) := chain_find (child object) string 0 in
  match c with
  | [] => (object, None)
  | _ => cJSON_DetachItemFromArray object i
  end.

Definition cJSON_DeleteItemFromObject (object : cJSON) (string : option cstr) : C json cJSON :=
  let '(object, c) := cJSON_DetachItemFromObject object string in
  cJSON_Delete (option_list c);; mret object.

(** What followed [newitem] on its own chain is cut off. *)
Definition cJSON_InsertItemInArray (array : cJSON) (which : Z) (newitem : list cJSON) : C json cJSON :=
  match chain_at (child array) which with
  | [] => mret (cJSON_AddItemToArray array newitem)
  | here =>
      match newitem with
      | [] => undefined
      | x :: _ => mret (set_child (chain_before (child array) here ++ x :: here) array)
      end
  end.

Definition cJSON_ReplaceItemInArray (array : cJSON) (which : Z) (newitem : list cJSON) : C json cJSON :=
  match chain_at (child array) which with
  | [] => mret array
  | (c :: next) as here =>
      match newitem with
      | [] => undefined
      | x :: _ => cJSON_Delete [c];; mret (set_child (chain_before (child array) here ++ x :: next) array)
      end
  end.

Definition cJSON_ReplaceItemInObject (object : cJSON) (string : option cstr) (newitem : list cJSON) : C json cJSON :=
  let '(c, i) := chain_find (child object) string 0 in
  match c, newitem with
  | [], _ => mret object
  | _, [] => undefined
  | _, x :: next =>
      copy ← cJSON_strdup string;
      cJSON_ReplaceItemInArray object i (set_string copy x :: next)
  end.

(** ** Construction *)

Definition new_typed (type : Z) : C json (option cJSON) :=
  item ← cJSON_New_Item; mret (item ← item; Some (set_type type item)).

Definition cJSON_CreateNull : C json (option cJSON) := new_typed cJSON_NULL.
Definition cJSON_CreateTrue : C json (option cJSON) := new_typed cJSON_True.
Definition cJSON_CreateFalse : C json (option cJSON) := new_typed cJSON_False.
Definition cJSON_CreateBool (b : Z) : C json (option cJSON) := new_typed (if negb (b =? 0) then cJSON_True else cJSON_False).
Definition cJSON_CreateArray : C json (option cJSON) := new_typed cJSON_Array.
Definition cJSON_CreateObject : C json (option cJSON) := new_typed cJSON_Object.

Definition cJSON_CreateNumber (num : double) : C json (option cJSON) :=
  item ← cJSON_New_Item;
  match item with
  | None => mret None
  | Some item =>
      match d_to_int num with
      | None => undefined
      | Some i => mret (Some (set_numbers i num (set_type cJSON_Number item)))
      end
  end.

Definition cJSON_CreateString (string : option cstr) : C json (option cJSON) :=
  item ← cJSON_New_Item;
  match item with
  | None => mret None
  | Some item => copy ← cJSON_strdup string; mret (Some (set_valuestring copy (set_type cJSON_String item)))
  end.

(** The loop of the array constructors: the children [k] so far, the last of which is
    [p]; linking to or from [NULL] is undefined. *)
Fixpoint create_items {A} (create : A -> C json (option cJSON)) (numbers : list A) (i : Z) (k : list cJSON) : C json (list cJSON) :=
  match numbers with
  | [] => mret k
  | x :: numbers =>
      n ← create x;
      if i =? 0 then create_items create numbers 1 (option_list n)
      else
        match k, n with
        | _ :: _, Some n => create_items create numbers (i + 1) (suffix_object k [n])
        | _, _ => undefined
        end
  end.

Definition create_array {A} (create : A -> C json (option cJSON)) (numbers : list A) (count : Z) : C json (option cJSON) :=
  a ← cJSON_CreateArray;
  match a with
  | None => mret None
  | Some a =>
      if zlen numbers <? count then undefined
      else k ← create_items create (take (Z.to_nat count) numbers) 0 []; mret (Some (set_child k a))
  end.

Definition cJSON_CreateIntArray (numbers : list Z) (count : Z) : C json (option cJSON) :=
  create_array (fun n => cJSON_CreateNumber (d_of_Z n)) numbers count.
(** A [float] is represented by the [double] it converts to. *)
Definition cJSON_CreateFloatArray (numbers : list double) (count : Z) : C json (option cJSON) :=
  create_array cJSON_CreateNumber numbers count.
Definition cJSON_CreateDoubleArray (numbers : list double) (count : Z) : C json (option cJSON) :=
  create_array cJSON_CreateNumber numbers count.
Definition cJSON_CreateStringArray (strings : list (option cstr)) (count : Z) : C json (option cJSON) :=
  create_array cJSON_CreateString strings count.

(** ** Duplication *)

(** The walk over the children; what has been duplicated is deleted on a failure. *)
Fixpoint duplicate_children (dup : cJSON -> C json (option cJSON)) (cptr : list cJSON) (newitem : cJSON) : C json (option cJSON) :=
  match cptr with
  | [] => mret (Some newitem)
  | c :: next =>
      newchild ← dup c;
      match newchild with
      | None => cJSON_Delete [newitem];; mret None
      | Some n => duplicate_children dup next (set_child (suffix_object (child newitem) [n]) newitem)
      end
  end.

Definition copy_string (s : option cstr) (set : option cstr -> cJSON -> cJSON) (newitem : cJSON) : C json (option cJSON) :=
  match s with
  | None => mret (Some newitem)
  | Some _ =>
      copy ← cJSON_strdup s;
      match copy with
      | None => cJSON_Delete [newitem];; mret None
      | Some _ => mret (Some (set copy newitem))
      end
  end.

Fixpoint duplicate (item : cJSON) (recurse : bool) : C json (option cJSON) :=
  match item with
  | mkItem _ t v i d s k =>
      newitem ← cJSON_New_Item;
      match newitem with
      | None => mret None
      | Some newitem =>
          newitem ← copy_string v set_valuestring (set_numbers i d (set_type (Z.land t (Z.lnot cJSON_IsReference)) newitem));
          match newitem with
          | None => mret None
          | Some newitem =>
              newitem ← copy_string s set_string newitem;
              match newitem with
              | None => mret None
              | Some newitem => if recurse then duplicate_children (fun c => duplicate c true) k newitem else mret (Some newitem)
              end
          end
      end
  end.

Definition cJSON_Duplicate (item : option cJSON) (recurse : bool) : C json (option cJSON) :=
  match item with None => mret None | Some item => duplicate item recurse end.

End CJson.

(** ** Minification

    In place: the state is the buffer, [json] and [into] are offsets in it. *)

Definition mrd (i : Z) : C (list Z) Z := t ← gets id; if (0 <=? i) && (i <? zlen t) then mret (zget t i) else undefined.
Definition mwr (i c : Z) : C (list Z) unit := t ← gets id; if (0 <=? i) && (i <? zlen t) then modify (fun t => zset t i c) else undefined.

(** [*into++ = *json++]. *)
Definition mcopy (p : Z * Z) : C (list Z) (Z * Z) :=
  let '(json, into) := p in c ← mrd json; mwr into c;; mret (json + 1, into + 1).

Definition line_comment_body (json : Z) : C (list Z) (ctl Z unit) :=
  c ← mrd json; if negb (c =? 0) && negb (c =? 10) then mret (Next (json + 1)) else mret (Exit json).

Definition block_comment_body (json : Z) : C (list Z) (ctl Z unit) :=
  c ← mrd json;
  if c =? 0 then mret (Exit json)
  else if c =? 42 then c1 ← mrd (json + 1); if c1 =? 47 then mret (Exit json) else mret (Next (json + 1))
  else mret (Next (json + 1)).

Definition string_literal_body (p : Z * Z) : C (list Z) (ctl (Z * Z) unit) :=
  c ← mrd (fst p);
  if negb (c =? 0) && negb (c =? 34) then
    p ← (if c =? 92 then mcopy p else mret p);
    p ← mcopy p;
    mret (Next p)
  else mret (Exit p).

(** A loop that is only left through its condition. *)
Definition while {S L} (fuel : nat) (body : L -> C S (ctl L unit)) (l : L) : C S L :=
  r ← loop fuel body l; match r with inl l => mret l | inr _ => undefined end.

Definition minify_body (fuel : nat) (p : Z * Z) : C (list Z) (ctl (Z * Z) unit) :=
  let '(json, into) := p in
  c ← mrd json;
  if c =? 0 then mret (Exit p)
  else if (c =? 32) || (c =? 9) || (c =? 13) || (c =? 10) then mret (Next (json + 1, into))
  else
    c1 ← (if c =? 47 then mrd (json + 1) else mret 0);
    if c1 =? 47 then json ← while fuel line_comment_body json; mret (Next (json, into))
    else if c1 =? 42 then json ← while fuel block_comment_body json; mret (Next (json + 2, into))
    else if c =? 34 then
      p ← mcopy p;
      p ← while fuel string_literal_body p;
      p ← mcopy p;
      mret (Next p)
    else p ← mcopy p; mret (Next p).

Definition cJSON_Minify : C (list Z) unit :=
  fuel ← gets (fun t => S (length t));
  p ← while fuel (minify_body fuel) (0, 0);
  mwr (snd p) 0.

(** ** Induction over items *)

Lemma cJSON_tree_ind (P : cJSON -> Prop) :
  (forall a t v i d s k, Forall P k -> P (mkItem a t v i d s k)) -> forall c, P c.
Proof.
  intros H. fix IH 1. intros [a t v i d s k]. apply H. induction k as [|c k IHk]; [constructor|]. constructor; [apply IH|exact IHk].
Qed.
