(* ===== verification/CJsonParse.v ===== *)
(** The parser of [cjson/cJSON.c].  The text is a list of bytes, pointers into it are
    offsets; a read outside it, a write outside an allocated string, and an integer out
    of the range of [int] are undefined behaviour.  A function that fills in an item
    returns the item and the position behind what it has read, [None] for [NULL]; the
    item is returned on a failure too, with what has been linked to it.  Loops and the
    recursion of [parse_value] have fuel; the length of the text is always enough. *)
From Stdlib Require Import ZArith Lia Bool.
From S2P Require Import Prelude CSem CDouble CJson.
From stdpp Require Import base list numbers option.

Open Scope Z_scope.

(** ** Characters *)

Definition isdigit (c : Z) : bool := (48 <=? c) && (c <=? 57).

(** The value of a hexadecimal digit. *)
Definition hex_value (c : Z) : option Z :=
  if (48 <=? c) && (c <=? 57) then Some (c - 48)
  else if (65 <=? c) && (c <=? 70) then Some (10 + c - 65)
  else if (97 <=? c) && (c <=? 102) then Some (10 + c - 97)
  else None.

Definition firstByteMark : list Z := [0x00; 0x00; 0xC0; 0xE0; 0xF0; 0xF8; 0xFC].

(** The bytes [switch (len)] stores backwards: [n] continuation bytes and the first. *)
Fixpoint utf8_store (n : nat) (len uc : Z) (acc : list Z) : list Z :=
  match n with
  | O => u8 (Z.lor uc (zget firstByteMark len)) :: acc
  | S n => utf8_store n len (Z.shiftr uc 6) (u8 (Z.land (Z.lor uc 0x80) 0xBF) :: acc)
  end.

Definition utf8_len (uc : Z) : Z := if uc <? 0x80 then 1 else if uc <? 0x800 then 2 else if uc <? 0x10000 then 3 else 4.
Definition utf8_bytes (uc : Z) : list Z := let len := utf8_len uc in utf8_store (Z.to_nat (len - 1)) len uc [].

(** [uc = 0x10000 + (((uc & 0x3FF) << 10) | (uc2 & 0x3FF))]. *)
Definition surrogate_pair (uc uc2 : Z) : Z := 0x10000 + Z.lor (Z.shiftl (Z.land uc 0x3FF) 10) (Z.land uc2 0x3FF).

(** What a C string holds of the bytes stored: those before the first zero. *)
Fixpoint before_nul (l : list Z) : list Z :=
  match l with
  | [] => []
  | c :: l => if c =? 0 then [] else c :: before_nul l
  end.

Section parse.
Context {env : JsonEnv}.
Variable txt : list Z.

Definition rd (i : Z) : C json Z := if (0 <=? i) && (i <? zlen txt) then mret (zget txt i) else undefined.

Definition fuel : nat := S (length txt).

(** [*ptr2++] for each of [bytes] into a block of [cap] bytes that holds [buf]. *)
Definition put (cap : Z) (buf bytes : list Z) : C json (list Z) :=
  if zlen buf + zlen bytes <=? cap then mret (buf ++ bytes) else undefined.

Definition skip_body (i : Z) : C json (ctl Z unit) :=
  c ← rd i; if negb (c =? 0) && (c <=? 32) then mret (Next (i + 1)) else mret (Exit i).

Definition skip (i : option Z) : C json (option Z) :=
  match i with
  | None => mret None
  | Some i => i ← while fuel skip_body i; mret (Some i)
  end.

(** [!strncmp(&txt[i], lit, strlen(lit))]. *)
Fixpoint starts_with (i : Z) (lit : list Z) : C json bool :=
  match lit with
  | [] => mret true
  | c :: lit => b ← rd i; if b =? c then starts_with (i + 1) lit else mret false
  end.

(** ** Numbers *)

Definition digits_body (frac : bool) (x : double * double * Z) : C json (ctl (double * double * Z) unit) :=
  let '(n, scale, num) := x in
  c ← rd num;
  let n := dadd (dmul n (d_of_Z 10)) (d_of_Z (c - 48)) in
  let scale := if frac then dsub scale (d_of_Z 1) else scale in
  c ← rd (num + 1);
  mret (if isdigit c then Next (n, scale, num + 1) else Exit (n, scale, num + 1)).

Definition exponent_body (x : Z * Z) : C json (ctl (Z * Z) unit) :=
  let '(subscale, num) := x in
  c ← rd num;
  if isdigit c then
    let v := subscale * 10 + (c - 48) in
    if 2 ^ 31 <=? v then undefined else mret (Next (v, num + 1))
  else mret (Exit x).

(** The exponent: [subscale], [signsubscale] and the position. *)
Definition parse_exponent (num : Z) : C json (Z * Z * Z) :=
  c ← rd num;
  if (c =? 101) || (c =? 69) then
    let num := num + 1 in
    c ← rd num;
    let '(signsubscale, num) := if c =? 43 then (1, num + 1) else if c =? 45 then (-1, num + 1) else (1, num) in
    r ← while fuel exponent_body (0, num);
    let '(subscale, num) := r in
    mret (subscale, signsubscale, num)
  else mret (0, 1, num).

Definition parse_number (item : cJSON) (num : Z) : C json (cJSON * option Z) :=
  c ← rd num;
  let '(sign, num) := if c =? 45 then (d_of_Z (-1), num + 1) else (d_of_Z 1, num) in
  c ← rd num;
  let num := if c =? 48 then num + 1 else num in
  c ← rd num;
  r ← (if (49 <=? c) && (c <=? 57) then while fuel (digits_body false) (d_of_Z 0, d_of_Z 0, num)
       else mret (d_of_Z 0, d_of_Z 0, num));
  let '(n, scale, num) := r in
  c ← rd num;
  c1 ← (if c =? 46 then rd (num + 1) else mret 0);
  r ← (if isdigit c1 then while fuel (digits_body true) (n, scale, num + 1) else mret (n, scale, num));
  let '(n, scale, num) := r in
  r ← parse_exponent num;
  let '(subscale, signsubscale, num) := r in
  let n := dmul (dmul sign n) (libm_pow (d_of_Z 10) (dadd scale (d_of_Z (subscale * signsubscale)))) in
  match d_to_int n with
  | None => undefined
  | Some i => mret (set_type cJSON_Number (set_numbers i n item), Some num)
  end.

(** ** Strings *)

Fixpoint hex4_loop (k : nat) (h i : Z) : C json Z :=
  match k with
  | O => mret h
  | S k =>
      c ← rd i;
      match hex_value c with
      | None => mret 0
      | Some v => hex4_loop k (Z.shiftl h 4 + v) (i + 1)
      end
  end.

Definition parse_hex4 (str : Z) : C json Z := hex4_loop 4 0 str.

(** The first pass: the length. *)
Definition string_len_body (x : Z * Z) : C json (ctl (Z * Z) unit) :=
  let '(ptr, len) := x in
  c ← rd ptr;
  if negb (c =? 34) && negb (c =? 0) then
    mret (Next (if c =? 92 then ptr + 1 + 1 else ptr + 1, len + 1))
  else mret (Exit x).

(** [case 'u']: the position and the buffer. *)
Definition unicode_escape (cap ptr : Z) (buf : list Z) : C json (Z * list Z) :=
  uc ← parse_hex4 (ptr + 1);
  let ptr := ptr + 4 in
  if ((0xDC00 <=? uc) && (uc <=? 0xDFFF)) || (uc =? 0) then mret (ptr, buf)
  else if (0xD800 <=? uc) && (uc <=? 0xDBFF) then
    c1 ← rd (ptr + 1);
    if negb (c1 =? 92) then mret (ptr, buf)
    else
      c2 ← rd (ptr + 2);
      if negb (c2 =? 117) then mret (ptr, buf)
      else
        uc2 ← parse_hex4 (ptr + 3);
        let ptr := ptr + 6 in
        if (uc2 <? 0xDC00) || (0xDFFF <? uc2) then mret (ptr, buf)
        else buf ← put cap buf (utf8_bytes (surrogate_pair uc uc2)); mret (ptr, buf)
  else buf ← put cap buf (utf8_bytes uc); mret (ptr, buf).

Definition escape_char (c : Z) : Z :=
  if c =? 98 then 8 else if c =? 102 then 12 else if c =? 110 then 10 else if c =? 114 then 13 else if c =? 116 then 9 else c.

(** The second pass: the bytes. *)
Definition string_body (cap : Z) (x : Z * list Z) : C json (ctl (Z * list Z) unit) :=
  let '(ptr, buf) := x in
  c ← rd ptr;
  if negb (c =? 34) && negb (c =? 0) then
    if negb (c =? 92) then buf ← put cap buf [c]; mret (Next (ptr + 1, buf))
    else
      let ptr := ptr + 1 in
      c ← rd ptr;
      r ← (if c =? 117 then unicode_escape cap ptr buf else buf ← put cap buf [escape_char c]; mret (ptr, buf));
      let '(ptr, buf) := r in
      mret (Next (ptr + 1, buf))
  else mret (Exit x).

Definition parse_string (item : cJSON) (str : Z) : C json (cJSON * option Z) :=
  c ← rd str;
  if negb (c =? 34) then modify (set_ep (Some str));; mret (item, None)
  else
    r ← while fuel string_len_body (str + 1, 0);
    let len := snd r in
    out ← cJSON_malloc (len + 1);
    match out with
    | None => mret (item, None)
    | Some out =>
        r ← while fuel (string_body (len + 1)) (str + 1, []);
        let '(ptr, buf) := r in
        _ ← put (len + 1) buf [0];
        c ← rd ptr;
        mret (set_type cJSON_String (set_valuestring (Some (mkCstr out (before_nul buf))) item),
              Some (if c =? 34 then ptr + 1 else ptr))
    end.

(** ** Arrays and objects *)

Definition fail_at {A} (item : A) (i : Z) : C json (A * option Z) := modify (set_ep (Some i));; mret (item, None).

Section values.
(** [parse_value], called for the parts. *)
Variable pv : cJSON -> option Z -> C json (cJSON * option Z).

(** An element behind [value], and the white space that follows. *)
Definition parse_element (child : cJSON) (value : Z) : C json (cJSON * option Z) :=
  value ← skip (Some value);
  r ← pv child value;
  let '(child, value) := r in
  value ← skip value;
  mret (child, value).

(** A member of an object behind [value]. *)
Definition parse_member (child : cJSON) (value : Z) : C json (cJSON * option Z) :=
  value ← skip (Some value);
  r ← parse_string child (default 0 value);
  let '(child, value) := r in
  value ← skip value;
  match value with
  | None => mret (child, None)
  | Some value =>
      let child := set_valuestring None (set_string (valuestring child) child) in
      c ← rd value;
      if negb (c =? 58) then fail_at child value
      else parse_element child (value + 1)
  end.

(** The loop over the further parts; [k] are the children linked so far. *)
Definition parts_body (part : cJSON -> Z -> C json (cJSON * option Z)) (x : list cJSON * Z)
    : C json (ctl (list cJSON * Z) (list cJSON * option Z)) :=
  let '(k, value) := x in
  c ← rd value;
  if c =? 44 then
    new_item ← cJSON_New_Item;
    match new_item with
    | None => mret (Return (k, None))
    | Some new_item =>
        r ← part new_item (value + 1);
        let '(new_item, value) := r in
        match value with
        | None => mret (Return (k ++ [new_item], None))
        | Some value => mret (Next (k ++ [new_item], value))
        end
    end
  else mret (Exit x).

(** The parts between the brackets, up to the closing one. *)
Definition parse_parts (part : cJSON -> Z -> C json (cJSON * option Z)) (close value : Z) : C json (list cJSON * option Z) :=
  child ← cJSON_New_Item;
  match child with
  | None => mret ([], None)
  | Some child =>
      r ← part child value;
      let '(child, value) := r in
      match value with
      | None => mret ([child], None)
      | Some value =>
          r ← loop fuel (parts_body part) ([child], value);
          match r with
          | inr r => mret r
          | inl (k, value) =>
              c ← rd value;
              if c =? close then mret (k, Some (value + 1)) else fail_at k value
          end
      end
  end.

Definition parse_array (item : cJSON) (value : Z) : C json (cJSON * option Z) :=
  c ← rd value;
  if negb (c =? 91) then fail_at item value
  else
    let item := set_type cJSON_Array item in
    value ← skip (Some (value + 1));
    let value := default 0 value in
    c ← rd value;
    if c =? 93 then mret (item, Some (value + 1))
    else
      r ← parse_parts parse_element 93 value;
      let '(k, value) := r in
      mret (set_child k item, value).

Definition parse_object (item : cJSON) (value : Z) : C json (cJSON * option Z) :=
  c ← rd value;
  if negb (c =? 123) then fail_at item value
  else
    let item := set_type cJSON_Object item in
    value ← skip (Some (value + 1));
    let value := default 0 value in
    c ← rd value;
    if c =? 125 then mret (item, Some (value + 1))
    else
      r ← parse_parts parse_member 125 value;
      let '(k, value) := r in
      mret (set_child k item, value).
End values.

Definition lit_null : list Z := [110; 117; 108; 108].
Definition lit_false : list Z := [102; 97; 108; 115; 101].
Definition lit_true : list Z := [116; 114; 117; 101].

Fixpoint parse_value (depth : nat) (item : cJSON) (value : option Z) : C json (cJSON * option Z) :=
  match depth with
  | O => fun _ => NoFuel
  | S depth =>
      match value with
      | None => mret (item, None)
      | Some value =>
          b ← starts_with value lit_null;
          if (b : bool) then mret (set_type cJSON_NULL item, Some (value + 4))
          else
          b ← starts_with value lit_false;
          if (b : bool) then mret (set_type cJSON_False item, Some (value + 5))
          else
          b ← starts_with value lit_true;
          if (b : bool) then mret (set_type cJSON_True (set_numbers 1 (valuedouble item) item), Some (value + 4))
          else
          c ← rd value;
          if c =? 34 then parse_string item value
          else if (c =? 45) || isdigit c then parse_number item value
          else if c =? 91 then parse_array (parse_value depth) item value
          else if c =? 123 then parse_object (parse_value depth) item value
          else fail_at item value
      end
  end.

(** The item and what [*return_parse_end] is set to. *)
Definition cJSON_ParseWithOpts (value : Z) (require_null_terminated : bool) : C json (option (cJSON * Z)) :=
  c ← cJSON_New_Item;
  modify (set_ep None);;
  match c with
  | None => mret None
  | Some c =>
      start ← skip (Some value);
      r ← parse_value fuel c start;
      let '(c, end_) := r in
      match end_ with
      | None => cJSON_Delete [c];; mret None
      | Some end_ =>
          if require_null_terminated then
            end_ ← skip (Some end_);
            let end_ := default 0 end_ in
            b ← rd end_;
            if negb (b =? 0) then cJSON_Delete [c];; modify (set_ep (Some end_));; mret None
            else mret (Some (c, end_))
          else mret (Some (c, end_))
      end
  end.

Definition cJSON_Parse (value : Z) : C json (option cJSON) :=
  r ← cJSON_ParseWithOpts value false; mret (r ← r; Some (fst r)).
End parse.
