(* ===== verification/CJsonPrint.v ===== *)
(** The printer of [cjson/cJSON.c].  The functions take the [printbuffer *] of the code
    as an option: [None] is [NULL], where each function allocates the text it returns;
    otherwise the text is appended to the buffer, which [ensure] replaces by a larger one.
    The bytes of a block are kept up to the last one written since the code went back
    to an offset; reading behind it and writing outside the block are undefined. *)
From Stdlib Require Import ZArith Lia Bool.
From S2P Require Import Prelude CSem CDouble CJson CJsonParse.
From stdpp Require Import base list numbers option.

Open Scope Z_scope.

Record printbuffer := mkPb { pb_buffer : option Z; pb_data : list Z; pb_length : Z; pb_offset : Z }.

Definition set_offset (o : Z) (p : printbuffer) : printbuffer := mkPb (pb_buffer p) (pb_data p) (pb_length p) o.

Definition pow2gt (x : Z) : Z :=
  let x := x - 1 in
  let x := Z.lor x (Z.shiftr x 1) in
  let x := Z.lor x (Z.shiftr x 2) in
  let x := Z.lor x (Z.shiftr x 4) in
  let x := Z.lor x (Z.shiftr x 8) in
  let x := Z.lor x (Z.shiftr x 16) in
  x + 1.

(** ["u%04x"] of an [unsigned char]. *)
Definition hex_char (d : Z) : Z := if d <? 10 then 48 + d else 87 + d.
Definition fmt_u04x (v : Z) : list Z := [117; 48; 48; hex_char (v / 16); hex_char (v mod 16)].

(** What the second pass of [print_string_ptr] writes for a character. *)
Definition escape (c : Z) : list Z :=
  if (31 <? c) && negb (c =? 34) && negb (c =? 92) then [c]
  else 92 :: (if c =? 92 then [92] else if c =? 34 then [34] else if c =? 8 then [98] else if c =? 12 then [102]
    else if c =? 10 then [110] else if c =? 13 then [114] else if c =? 9 then [116] else fmt_u04x c).

(** The first pass: the length of the escaped text. *)
Definition escape_len (c : Z) : Z :=
  1 + (if bool_decide (c ∈ [34; 92; 8; 12; 10; 13; 9]) then 1 else if c <? 32 then 5 else 0).

Definition needs_escape (c : Z) : bool := ((0 <? c) && (c <? 32)) || (c =? 34) || (c =? 92).

Definition sum (l : list Z) : Z := foldr Z.add 0 l.
Definition str_len (s : option cstr) : Z := match s with Some s => zlen (str_bytes s) | None => 0 end.
Definition tabs (n : Z) : list Z := replicate (Z.to_nat n) 9.

Section print.
Context {env : JsonEnv}.

(** Whether there is room, and the buffer; the pointer returned is [buffer + offset]. *)
Definition ensure (p : printbuffer) (needed : Z) : C json (bool * printbuffer) :=
  match pb_buffer p with
  | None => mret (false, p)
  | Some buffer =>
      let needed := needed + pb_offset p in
      if needed <=? pb_length p then mret (true, p)
      else
        let newsize := pow2gt needed in
        if 2 ^ 31 <=? newsize then undefined
        else
          newbuffer ← cJSON_malloc newsize;
          match newbuffer with
          | None => cJSON_free buffer;; mret (false, mkPb None [] 0 (pb_offset p))
          | Some newbuffer =>
              if newsize <? pb_length p then undefined
              else cJSON_free buffer;; mret (true, mkPb (Some newbuffer) (pb_data p) newsize (pb_offset p))
          end
  end.

(** Writes [bytes] from offset [i] of the buffer on. *)
Definition poke (p : printbuffer) (i : Z) (bytes : list Z) : C json printbuffer :=
  if (0 <=? i) && (i <=? zlen (pb_data p)) && (i + zlen bytes <=? pb_length p)
  then mret (mkPb (pb_buffer p) (take (Z.to_nat i) (pb_data p) ++ bytes) (pb_length p) (pb_offset p))
  else undefined.

(** The C string from offset [i] of the buffer on. *)
Definition peek (p : printbuffer) (i : Z) : C json (list Z) :=
  let d := drop (Z.to_nat i) (pb_data p) in
  if bool_decide (0 ∈ d) then mret (before_nul d) else undefined.

Definition update (p : printbuffer) : C json Z :=
  match pb_buffer p with
  | None => mret 0
  | Some _ => t ← peek p (pb_offset p); mret (pb_offset p + zlen t)
  end.

Definition updated (p : printbuffer) : C json printbuffer := o ← update p; mret (set_offset o p).

(** The string at offset [i] of the buffer, as a result. *)
Definition at_offset (p : printbuffer) (i : Z) : C json (option cstr * option printbuffer) :=
  match pb_buffer p with
  | None => undefined
  | Some buffer => t ← peek p i; mret (Some (mkCstr (buffer + i) t), Some p)
  end.

(** [if (p) out = ensure(p, n); else out = cJSON_malloc(n);] and, if that has succeeded,
    the text [bytes] and a terminator at [out]. *)
Definition emit (p : option printbuffer) (n : Z) (bytes : list Z) : C json (option cstr * option printbuffer) :=
  match p with
  | None =>
      out ← cJSON_malloc n;
      match out with
      | None => mret (None, None)
      | Some out => _ ← put n [] (bytes ++ [0]); mret (Some (mkCstr out (before_nul bytes)), None)
      end
  | Some p =>
      r ← ensure p n;
      let '(ok, p) := r in
      if negb ok then mret (None, Some p)
      else p ← poke p (pb_offset p) (bytes ++ [0]); at_offset p (pb_offset p)
  end.

Definition print_number (item : cJSON) (p : option printbuffer) : C json (option cstr * option printbuffer) :=
  let d := valuedouble item in
  if deq d (d_of_Z 0) then emit p 2 [48]
  else if dle (dabs (dsub (d_of_Z (valueint item)) d)) DBL_EPSILON && dle d (d_of_Z (2 ^ 31 - 1)) && dle (d_of_Z (- 2 ^ 31)) d
  then emit p 21 (fmt_d (valueint item))
  else emit p 64
    (if dle (dabs (dsub (dfloor d) d)) DBL_EPSILON && dlt (dabs d) (d_of_Z (10 ^ 60)) then fmt_f 0 d
     else if dlt (dabs d) (d_frac 1 6) || dlt (d_of_Z (10 ^ 9)) (dabs d) then fmt_e d
     else fmt_f 6 d).

(** A null pointer is dereferenced before it is tested. *)
Definition print_string_ptr (str : option cstr) (p : option printbuffer) : C json (option cstr * option printbuffer) :=
  match str with
  | None => undefined
  | Some str =>
      let l := str_bytes str in
      if negb (existsb needs_escape l) then emit p (zlen l + 3) (34 :: l ++ [34])
      else emit p (sum (escape_len <$> l) + 3) (34 :: (l ≫= escape) ++ [34])
  end.

Definition print_string (item : cJSON) (p : option printbuffer) : C json (option cstr * option printbuffer) :=
  print_string_ptr (valuestring item) p.

(** ** Arrays and objects into a buffer *)

Section values.
(** [print_value], called for the parts with their depth. *)
Variable pv : cJSON -> Z -> option printbuffer -> C json (option cstr * option printbuffer).

(** [print_value(child, depth, fmt, p); p->offset = update(p)]. *)
Definition print_part (child : cJSON) (depth : Z) (p : printbuffer) : C json printbuffer :=
  r ← pv child depth (Some p);
  updated (default p (snd r)).

Fixpoint array_items (child : list cJSON) (depth : Z) (fmt : bool) (p : printbuffer) : C json (bool * printbuffer) :=
  match child with
  | [] => mret (true, p)
  | c :: next =>
      p ← print_part c (depth + 1) p;
      match next with
      | [] => mret (true, p)
      | _ =>
          let len := if fmt then 2 else 1 in
          r ← ensure p (len + 1);
          let '(ok, p) := r in
          if negb ok then mret (false, p)
          else
            p ← poke p (pb_offset p) (44 :: (if fmt then [32] else []) ++ [0]);
            array_items next depth fmt (set_offset (pb_offset p + len) p)
      end
  end.

Definition print_array_buffered (child : list cJSON) (depth : Z) (fmt : bool) (p : printbuffer) : C json (option cstr * option printbuffer) :=
  let i := pb_offset p in
  r ← ensure p 1;
  let '(ok, p) := r in
  if negb ok then mret (None, Some p)
  else
    p ← poke p (pb_offset p) [91];
    r ← array_items child depth fmt (set_offset (pb_offset p + 1) p);
    let '(ok, p) := r in
    if negb ok then mret (None, Some p)
    else
      r ← ensure p 2;
      let '(ok, p) := r in
      if negb ok then mret (None, Some p)
      else p ← poke p (pb_offset p) [93; 0]; at_offset p i.

Fixpoint object_items (child : list cJSON) (depth : Z) (fmt : bool) (p : printbuffer) : C json (bool * printbuffer) :=
  match child with
  | [] => mret (true, p)
  | c :: next =>
      r ← (if fmt then
             r ← ensure p depth;
             let '(ok, p) := r in
             if negb ok then mret (false, p)
             else p ← poke p (pb_offset p) (tabs depth); mret (true, set_offset (pb_offset p + depth) p)
           else mret (true, p));
      let '(ok, p) := r in
      if negb ok then mret (false, p)
      else
        r ← print_string_ptr (c_string c) (Some p);
        p ← updated (default p (snd r));
        let len := if fmt then 2 else 1 in
        r ← ensure p len;
        let '(ok, p) := r in
        if negb ok then mret (false, p)
        else
          p ← poke p (pb_offset p) (58 :: (if fmt then [9] else []));
          p ← print_part c depth (set_offset (pb_offset p + len) p);
          let comma := match next with [] => [] | _ => [44] end in
          let len := (if fmt then 1 else 0) + zlen comma in
          r ← ensure p (len + 1);
          let '(ok, p) := r in
          if negb ok then mret (false, p)
          else
            p ← poke p (pb_offset p) (comma ++ (if fmt then [10] else []) ++ [0]);
            object_items next depth fmt (set_offset (pb_offset p + len) p)
  end.

(** The counter of the last loop is the variable that holds the start of the text. *)
Definition print_object_buffered (child : list cJSON) (depth : Z) (fmt : bool) (p : printbuffer) : C json (option cstr * option printbuffer) :=
  let i := pb_offset p in
  let len := if fmt then 2 else 1 in
  r ← ensure p (len + 1);
  let '(ok, p) := r in
  if negb ok then mret (None, Some p)
  else
    p ← poke p (pb_offset p) (123 :: (if fmt then [10] else []) ++ [0]);
    let depth := depth + 1 in
    r ← object_items child depth fmt (set_offset (pb_offset p + len) p);
    let '(ok, p) := r in
    if negb ok then mret (None, Some p)
    else
      r ← ensure p (if fmt then depth + 1 else 2);
      let '(ok, p) := r in
      if negb ok then mret (None, Some p)
      else
        p ← poke p (pb_offset p) ((if fmt then tabs (depth - 1) else []) ++ [125; 0]);
        at_offset p (if fmt then Z.max 0 (depth - 1) else i).

(** ** Arrays and objects into blocks of their own *)

(** The texts of the items, up to the first failure, and whether there was one. *)
Fixpoint array_entries (child : list cJSON) (depth : Z) : C json (list (option cstr) * bool) :=
  match child with
  | [] => mret ([], false)
  | c :: next =>
      r ← pv c (depth + 1) None;
      match fst r with
      | None => mret ([None], true)
      | Some t => r ← array_entries next depth; mret (Some t :: fst r, snd r)
      end
  end.

Fixpoint free_entries (entries : list (option cstr)) : C json unit :=
  match entries with
  | [] => mret tt
  | e :: entries => free_string e;; free_entries entries
  end.

Fixpoint compose_array (cap : Z) (fmt : bool) (entries : list (option cstr)) (buf : list Z) : C json (list Z) :=
  match entries with
  | [] => mret buf
  | None :: _ => undefined
  | Some e :: entries =>
      buf ← put cap buf (str_bytes e);
      buf ← (match entries with
             | [] => mret buf
             | _ =>
                 buf ← put cap buf (44 :: (if fmt then [32] else []));
                 _ ← put cap buf [0]; mret buf
             end);
      cJSON_free (str_addr e);;
      compose_array cap fmt entries buf
  end.

Definition print_array_alloc (child : list cJSON) (depth : Z) (fmt : bool) : C json (option cstr) :=
  entries ← cJSON_malloc (zlen child * sizeof_ptr);
  match entries with
  | None => mret None
  | Some entries =>
      r ← array_entries child depth;
      let '(rets, fail) := r in
      let len := 5 + sum ((fun e => str_len e + 2 + (if fmt then 1 else 0)) <$> rets) in
      out ← (if (fail : bool) then mret None else cJSON_malloc len);
      match out with
      | None => free_entries rets;; cJSON_free entries;; mret None
      | Some out =>
          buf ← put len [] [91];
          _ ← put len buf [0];
          buf ← compose_array len fmt rets buf;
          cJSON_free entries;;
          buf ← put len buf [93; 0];
          mret (Some (mkCstr out (before_nul buf)))
      end
  end.

(** The names and the texts of the members; a failure does not stop the loop. *)
Fixpoint object_entries (child : list cJSON) (depth : Z) : C json (list (option cstr * option cstr)) :=
  match child with
  | [] => mret []
  | c :: next =>
      r ← print_string_ptr (c_string c) None;
      r' ← pv c depth None;
      l ← object_entries next depth;
      mret ((fst r, fst r') :: l)
  end.

Fixpoint free_members (entries : list (option cstr * option cstr)) : C json unit :=
  match entries with
  | [] => mret tt
  | e :: entries => free_string (fst e);; free_string (snd e);; free_members entries
  end.

Fixpoint compose_object (cap depth : Z) (fmt : bool) (entries : list (option cstr * option cstr)) (buf : list Z) : C json (list Z) :=
  match entries with
  | [] => mret buf
  | (Some name, Some e) :: entries =>
      buf ← put cap buf (if fmt then tabs depth else []);
      buf ← put cap buf (str_bytes name);
      buf ← put cap buf (58 :: (if fmt then [9] else []));
      _ ← put cap buf (str_bytes e ++ [0]);
      buf ← put cap buf (str_bytes e);
      buf ← put cap buf (match entries with [] => [] | _ => [44] end);
      buf ← put cap buf (if fmt then [10] else []);
      _ ← put cap buf [0];
      cJSON_free (str_addr name);; cJSON_free (str_addr e);;
      compose_object cap depth fmt entries buf
  | _ :: _ => undefined
  end.

Definition member_failed (e : option cstr * option cstr) : bool := match e with (Some _, Some _) => false | _ => true end.

(** What a member adds to [len]. *)
Definition member_len (depth : Z) (fmt : bool) (e : option cstr * option cstr) : Z :=
  str_len (snd e) + str_len (fst e) + 2 + (if fmt then 2 + depth else 0).

Definition print_object_alloc (child : list cJSON) (depth : Z) (fmt : bool) : C json (option cstr) :=
  entries ← cJSON_malloc (zlen child * sizeof_ptr);
  match entries with
  | None => mret None
  | Some entries =>
      names ← cJSON_malloc (zlen child * sizeof_ptr);
      match names with
      | None => cJSON_free entries;; mret None
      | Some names =>
          let depth := depth + 1 in
          l ← object_entries child depth;
          let len := 7 + (if fmt then depth else 0) + sum (member_len depth fmt <$> l) in
          out ← (if existsb member_failed l then mret None else cJSON_malloc len);
          match out with
          | None => free_members l;; cJSON_free names;; cJSON_free entries;; mret None
          | Some out =>
              buf ← put len [] (123 :: (if fmt then [10] else []));
              _ ← put len buf [0];
              buf ← compose_object len depth fmt l buf;
              cJSON_free names;; cJSON_free entries;;
              buf ← put len buf ((if fmt then tabs (depth - 1) else []) ++ [125; 0]);
              mret (Some (mkCstr out (before_nul buf)))
          end
      end
  end.

Definition print_array (item : cJSON) (depth : Z) (fmt : bool) (p : option printbuffer) : C json (option cstr * option printbuffer) :=
  match child item with
  | [] => emit p 3 [91; 93]
  | k =>
      match p with
      | Some p => print_array_buffered k depth fmt p
      | None => r ← print_array_alloc k depth fmt; mret (r, None)
      end
  end.

Definition print_object (item : cJSON) (depth : Z) (fmt : bool) (p : option printbuffer) : C json (option cstr * option printbuffer) :=
  match child item with
  | [] => emit p (if fmt then depth + 4 else 3) (123 :: (if fmt then 10 :: tabs (depth - 1) else []) ++ [125])
  | k =>
      match p with
      | Some p => print_object_buffered k depth fmt p
      | None => r ← print_object_alloc k depth fmt; mret (r, None)
      end
  end.
End values.

(** A word: [strcpy] into the buffer, or [cJSON_strdup]. *)
Definition print_word (p : option printbuffer) (n : Z) (word : list Z) : C json (option cstr * option printbuffer) :=
  match p with
  | Some _ => emit p n word
  | None => out ← cJSON_strdup (Some (mkCstr 0 word)); mret (out, None)
  end.

Fixpoint print_value (item : cJSON) (depth : Z) (fmt : bool) (p : option printbuffer) {struct item} : C json (option cstr * option printbuffer) :=
  let t := Z.land (c_type item) 255 in
  if t =? cJSON_NULL then print_word p 5 lit_null
  else if t =? cJSON_False then print_word p 6 lit_false
  else if t =? cJSON_True then print_word p 5 lit_true
  else if t =? cJSON_Number then print_number item p
  else if t =? cJSON_String then print_string item p
  else if t =? cJSON_Array then print_array (fun c d => print_value c d fmt) item depth fmt p
  else if t =? cJSON_Object then print_object (fun c d => print_value c d fmt) item depth fmt p
  else mret (None, p).

(** An item is not null here: [print_value] returns null for a null one. *)
Definition cJSON_Print (item : option cJSON) : C json (option cstr) :=
  match item with None => mret None | Some item => r ← print_value item 0 true None; mret (fst r) end.

Definition cJSON_PrintUnformatted (item : option cJSON) : C json (option cstr) :=
  match item with None => mret None | Some item => r ← print_value item 0 false None; mret (fst r) end.

Definition cJSON_PrintBuffered (item : option cJSON) (prebuffer : Z) (fmt : bool) : C json (option cstr) :=
  buffer ← cJSON_malloc prebuffer;
  match item with
  | None => mret None
  | Some item => r ← print_value item 0 fmt (Some (mkPb buffer [] prebuffer 0)); mret (fst r)
  end.
End print.
