(* ===== verification/CJsonHeap.v ===== *)
(** The memory of [CJson]: which blocks are in use after a trace, which blocks an item
    owns, and what allocation, deletion and the operations on children do to them; then
    JSON values, the items that represent them, and their texts. *)
From Stdlib Require Import ZArith Lia Bool.
From S2P Require Import Prelude CSem CDouble CJson CJsonParse CJsonPrint.
From stdpp Require Import base list numbers option gmap.

Open Scope Z_scope.

(** ** Blocks in use *)

(** The blocks in use after a trace; none if a block was freed that was not. *)
Definition jlive_step (x : option (gset Z)) (e : jevent) : option (gset Z) :=
  X ← x;
  match e with
  | JMalloc _ _ r => if r =? 0 then Some X else Some ({[ r ]} ∪ X)
  | JFree _ p => if decide (p ∈ X) then Some (X ∖ {[ p ]}) else None
  end.
Definition jlive (h : list jevent) : option (gset Z) := foldl jlive_step (Some ∅) h.

(** How many allocations have failed. *)
Definition failed_malloc (e : jevent) : bool := match e with JMalloc _ _ r => r =? 0 | JFree _ _ => false end.
Definition jfails (h : list jevent) : nat := length (List.filter failed_malloc h).

Lemma jlive_snoc h e : jlive (h ++ [e]) = jlive_step (jlive h) e.
Proof. unfold jlive. by rewrite foldl_app. Qed.

Lemma jfails_malloc h f n r : jfails (h ++ [JMalloc f n r]) = if r =? 0 then S (jfails h) else jfails h.
Proof. unfold jfails. rewrite List.filter_app, length_app. cbn. destruct (r =? 0); cbn; lia. Qed.

Lemma jfails_free h f p : jfails (h ++ [JFree f p]) = jfails h.
Proof. unfold jfails. rewrite List.filter_app, length_app. cbn. lia. Qed.

(** [malloc] returns no block that is in use. *)
Class JsonHeap {env : JsonEnv} : Prop := {
  heap_fresh h f n X : jlive h = Some X -> env_malloc h f n ∉ X
}.

(** The blocks in use are those of [L], each once, and [k] allocations have failed. *)
Definition heap (L : list Z) (k : nat) (s : json) : Prop :=
  NoDup L /\ jlive (jtrace s) = Some (list_to_set L) /\ jfails (jtrace s) = k.

Lemma heap_perm L L' k s : L ≡ₚ L' -> heap L k s -> heap L' k s.
Proof.
  intros Hp (Hd & Hl & Hk). split; [by rewrite <- Hp|]. split; [|done]. rewrite Hl. f_equal. apply set_eq. intros x.
  by rewrite !elem_of_list_to_set, Hp.
Qed.

#[export] Instance heap_proper : Proper ((≡ₚ) ==> (=) ==> (=) ==> iff) heap.
Proof. intros L L' Hp k _ <- s _ <-. split; by apply heap_perm. Qed.

Lemma heap_fields L k s s' : jtrace s' = jtrace s -> heap L k s -> heap L k s'.
Proof. unfold heap. by intros ->. Qed.

(** ** Blocks of items *)

Definition str_blocks (s : option cstr) : list Z := match s with Some s => [str_addr s] | None => [] end.

Fixpoint blocks (c : cJSON) : list Z :=
  match c with
  | mkItem a t v _ _ s k =>
      a :: (if hasb t cJSON_IsReference then [] else str_blocks v ++ (k ≫= blocks))
        ++ (if hasb t cJSON_StringIsConst then [] else str_blocks s)
  end.

Definition chain_blocks (c : list cJSON) : list Z := c ≫= blocks.

(** Neither flag. *)
Definition plain (c : cJSON) : Prop := hasb (c_type c) cJSON_IsReference = false /\ hasb (c_type c) cJSON_StringIsConst = false.

Lemma plain_type c t : c_type c = t -> 0 <= t < 256 -> plain c.
Proof.
  intros E H. assert (exists x, t = x /\ 0 <= x < 256) as (x & -> & Hx) by eauto. unfold plain. rewrite E. unfold hasb, cJSON_IsReference, cJSON_StringIsConst.
  rewrite <- (Z.mod_small x (2 ^ 8)), <- Z.land_ones by lia. rewrite <- !Z.land_assoc. by rewrite !Z.land_0_r.
Qed.

Lemma blocks_plain a t v i d s k : hasb t cJSON_IsReference = false -> hasb t cJSON_StringIsConst = false ->
  blocks (mkItem a t v i d s k) = a :: (str_blocks v ++ chain_blocks k) ++ str_blocks s.
Proof. intros H1 H2. cbn [blocks]. by rewrite H1, H2. Qed.

Lemma plain_blocks c : plain c -> blocks c = c_addr c :: (str_blocks (valuestring c) ++ chain_blocks (child c)) ++ str_blocks (c_string c).
Proof. destruct c. intros [H1 H2]. by apply blocks_plain. Qed.

Lemma chain_blocks_app k l : chain_blocks (k ++ l) = chain_blocks k ++ chain_blocks l.
Proof. apply bind_app. Qed.

Lemma chain_blocks_one c : chain_blocks [c] = blocks c.
Proof. apply app_nil_r. Qed.

Section heap.
Context {env : JsonEnv} {jheap : JsonHeap}.

(** ** Allocation *)

Lemma jmalloc_ok n L k s : heap L k s ->
  wp (cJSON_malloc n) (fun r s' => ep s' = ep s /\ match r with None => heap L (S k) s' | Some a => heap (a :: L) k s' end) s.
Proof using jheap.
  intros (Hd & Hl & Hk). apply wp_bind, wp_gets, wp_bind, wp_gets. cbv zeta. apply wp_bind, wp_modify, wp_ret. split; [by destruct s|].
  pose proof (heap_fresh (jtrace s) (malloc_hook s) n _ Hl) as Hf. set (r := env_malloc _ _ _) in *. unfold heap. cbn [jtrace set_jtrace].
  rewrite jlive_snoc, jfails_malloc, Hl, Hk. cbn [jlive_step mbind option_bind]. destruct (Z.eqb_spec r 0); [done|].
  split; [|done]. constructor; [|done]. intros H. apply Hf. by apply elem_of_list_to_set.
Qed.

Lemma jfree_ok a L k s : heap (a :: L) k s -> wp (cJSON_free a) (fun _ s' => ep s' = ep s /\ heap L k s') s.
Proof using.
  intros (Hd & Hl & Hk). apply wp_bind, wp_gets, wp_bind, wp_gets, wp_modify. split; [by destruct s|]. apply list.NoDup_cons in Hd as [Hn Hd].
  unfold heap. cbn [jtrace set_jtrace]. rewrite jlive_snoc, jfails_free, Hl. split; [done|]. split; [|done]. cbn [jlive_step mbind option_bind].
  rewrite decide_True by (apply elem_of_list_to_set; by left). f_equal. apply set_eq. intros x.
  rewrite elem_of_difference, elem_of_singleton, !elem_of_list_to_set, elem_of_cons. split; [tauto|]. intros Hx. split; [by right|by intros ->].
Qed.

Lemma strdup_ok c L k s : heap L k s ->
  wp (cJSON_strdup (Some c)) (fun r s' => ep s' = ep s /\ match r with
    | None => heap L (S k) s'
    | Some c' => str_bytes c' = str_bytes c /\ heap (str_addr c' :: L) k s' end) s.
Proof using jheap.
  intros Hh. unfold cJSON_strdup. eapply wp_call; [by apply jmalloc_ok|]. intros [a|] s' [He H]; apply wp_ret; by split.
Qed.

Definition fresh_item (a : Z) : cJSON := mkItem a 0 None 0 (d_of_Z 0) None [].

Lemma new_item_ok L k s : heap L k s ->
  wp cJSON_New_Item (fun r s' => ep s' = ep s /\ match r with None => heap L (S k) s' | Some c => exists a, c = fresh_item a /\ heap (a :: L) k s' end) s.
Proof using jheap.
  intros Hh. unfold cJSON_New_Item. eapply wp_call; [by apply jmalloc_ok|]. intros [a|] s' [He H]; apply wp_ret; split; [done|by exists a|done|done].
Qed.

(** ** Deletion *)

Lemma free_string_ok o L k s : heap (str_blocks o ++ L) k s -> wp (free_string o) (fun _ s' => ep s' = ep s /\ heap L k s') s.
Proof using. destruct o as [c|]; [apply jfree_ok|]. intros. by apply wp_ret. Qed.

Lemma guarded_free_ok (b : bool) o L k s : heap ((if b then [] else str_blocks o) ++ L) k s ->
  wp (if negb b then free_string o else mret tt) (fun _ s' => ep s' = ep s /\ heap L k s') s.
Proof using. destruct b; cbn [negb]; [intros; by apply wp_ret|apply free_string_ok]. Qed.

Definition deletes (c : cJSON) : Prop := forall L k s, heap (blocks c ++ L) k s -> wp (delete_item c) (fun _ s' => ep s' = ep s /\ heap L k s') s.

Lemma delete_chain_ok cs L k s : Forall deletes cs -> heap (chain_blocks cs ++ L) k s -> wp (delete_chain delete_item cs) (fun _ s' => ep s' = ep s /\ heap L k s') s.
Proof using.
  intros HF. revert s. induction HF as [|c cs Hc _ IH]; intros s Hh; [by apply wp_ret|]. cbn [delete_chain].
  eapply wp_call; [apply (Hc (chain_blocks cs ++ L) k)|].
  { change (chain_blocks (c :: cs)) with (blocks c ++ chain_blocks cs) in Hh. by rewrite <- app_assoc in Hh. }
  intros _ s1 [E1 H1]. eapply wp_mono; [by apply IH|]. intros _ s2 [E2 H2]. split; [by rewrite E2|done].
Qed.

Lemma delete_item_ok c : deletes c.
Proof using.
  induction c as [a t v i d nm kids IH] using cJSON_tree_ind. intros L k s Hh. cbn [delete_item]. cbn [blocks] in Hh. fold chain_blocks in Hh.
  set (B := if hasb t cJSON_IsReference then [] else str_blocks v) in *. set (N := if hasb t cJSON_StringIsConst then [] else str_blocks nm) in *.
  assert (heap ((if hasb t cJSON_IsReference then [] else chain_blocks kids) ++ B ++ N ++ a :: L) k s) as Hh'.
  { eapply heap_perm; [|exact Hh]. subst B. change (kids ≫= blocks) with (chain_blocks kids).
    destruct (hasb t cJSON_IsReference); cbn [app]; solve_Permutation. }
  clear Hh. eapply (wp_call _ _ (fun _ s1 => ep s1 = ep s /\ heap (B ++ N ++ a :: L) k s1)).
  { destruct (hasb t cJSON_IsReference); cbn [negb]; [by apply wp_ret|by apply delete_chain_ok]. }
  intros _ s1 [E1 H1]. eapply wp_call; [by apply guarded_free_ok|]. intros _ s2 [E2 H2].
  eapply wp_call; [by apply guarded_free_ok|]. intros _ s3 [E3 H3]. eapply wp_mono; [by apply jfree_ok|].
  intros _ s4 [E4 H4]. split; [congruence|done].
Qed.

Lemma delete_ok cs L k s : heap (chain_blocks cs ++ L) k s -> wp (cJSON_Delete cs) (fun _ s' => ep s' = ep s /\ heap L k s') s.
Proof using. apply delete_chain_ok, Forall_forall. intros c _. apply delete_item_ok. Qed.

Lemma delete_one_ok c L k s : heap (blocks c ++ L) k s -> wp (cJSON_Delete [c]) (fun _ s' => ep s' = ep s /\ heap L k s') s.
Proof using. intros H. apply delete_ok. by rewrite chain_blocks_one. Qed.

End heap.

(** JSON values, the items that represent them, and their texts: the specification of
    the printer and the parser of [cjson/cJSON.c]. *)

(** ** Values *)

#[warnings="-register-all"] Inductive jvalue : Type :=
  | JNull
  | JBool (b : bool)
  | JNum (n : Z)
  | JStr (s : list Z)
  | JArr (l : list jvalue)
  | JObj (l : list (list Z * jvalue)).

Lemma jvalue_tree_ind (P : jvalue -> Prop) :
  P JNull -> (forall b, P (JBool b)) -> (forall n, P (JNum n)) -> (forall s, P (JStr s)) ->
  (forall l, Forall P l -> P (JArr l)) -> (forall l, Forall (fun m => P (snd m)) l -> P (JObj l)) -> forall v, P v.
Proof.
  intros H1 H2 H3 H4 H5 H6. fix IH 1. intros [| | | |l|l]; [done|done|done|done| |].
  - apply H5. induction l as [|v l IHl]; constructor; [apply IH|exact IHl].
  - apply H6. induction l as [|[k v] l IHl]; constructor; [apply IH|exact IHl].
Qed.

Definition all2 {A B} (P : A -> B -> Prop) : list A -> list B -> Prop :=
  fix go l k := match l, k with [], [] => True | x :: l, y :: k => P x y /\ go l k | _, _ => False end.

Definition all1 {A} (P : A -> Prop) : list A -> Prop := fix go l := match l with [] => True | x :: l => P x /\ go l end.

Lemma all1_Forall {A} (P : A -> Prop) l : all1 P l <-> Forall P l.
Proof.
  induction l as [|x l IH]; cbn [all1].
  - split; [constructor|done].
  - fold (all1 P). rewrite list.Forall_cons. by fold (all1 P l); rewrite IH.
Qed.

Definition string_ok (s : list Z) : Prop := Forall (fun c => 0 < c < 256) s.

(** The values the library represents exactly: integers of type [int], C strings. *)
Fixpoint jv_ok (v : jvalue) : Prop :=
  match v with
  | JNum n => - 2 ^ 31 <= n < 2 ^ 31
  | JStr s => string_ok s
  | JArr l => all1 jv_ok l
  | JObj l => all1 (fun '(k, v) => string_ok k /\ jv_ok v) l
  | _ => True
  end.

(** The item [c] represents [v]. *)
Fixpoint json_of (v : jvalue) (c : cJSON) : Prop :=
  let t := Z.land (c_type c) 255 in
  match v with
  | JNull => t = cJSON_NULL
  | JBool b => t = if b then cJSON_True else cJSON_False
  | JNum n => t = cJSON_Number /\ valueint c = n /\ valuedouble c = d_of_Z n
  | JStr s => t = cJSON_String /\ exists a, valuestring c = Some (mkCstr a s)
  | JArr l => t = cJSON_Array /\ all2 json_of l (child c)
  | JObj l => t = cJSON_Object /\ all2 (fun '(k, v) x => (exists a, c_string x = Some (mkCstr a k)) /\ json_of v x) l (child c)
  end.

(** ** Texts *)

Definition quote (s : list Z) : list Z := 34 :: (s ≫= escape) ++ [34].

(** Texts with [sep] between them. *)
Fixpoint joined (sep : list Z) (l : list (list Z)) : list Z :=
  match l with
  | [] => []
  | t :: l => t ++ match l with [] => [] | _ => sep ++ joined sep l end
  end.

(** Members, each on a line of its own if the text is formatted. *)
Fixpoint lines (fmt : bool) (l : list (list Z)) : list Z :=
  match l with
  | [] => []
  | t :: l => t ++ (match l with [] => [] | _ => [44] end) ++ (if fmt then [10] else []) ++ lines fmt l
  end.

Definition comma (fmt : bool) : list Z := 44 :: (if fmt then [32] else []).
Definition indent (fmt : bool) (depth : Z) : list Z := if fmt then tabs depth else [].

Definition member_text (fmt : bool) (depth : Z) (name t : list Z) : list Z :=
  indent fmt depth ++ name ++ (58 :: if fmt then [9] else []) ++ t.

(** The text of a value at a depth, formatted or not. *)
Fixpoint render (fmt : bool) (depth : Z) (v : jvalue) {struct v} : list Z :=
  match v with
  | JNull => lit_null
  | JBool b => if b then lit_true else lit_false
  | JNum n => fmt_d n
  | JStr s => quote s
  | JArr l => 91 :: joined (comma fmt) (map (render fmt (depth + 1)) l) ++ [93]
  | JObj [] => 123 :: (if fmt then 10 :: tabs (depth - 1) else []) ++ [125]
  | JObj l =>
      123 :: (if fmt then [10] else []) ++
      lines fmt (map (fun '(k, v) => member_text fmt (depth + 1) (quote k) (render fmt (depth + 1) v)) l) ++
      indent fmt depth ++ [125]
  end.

(** ** Bytes of the texts *)

Definition nonzero (l : list Z) : Prop := Forall (fun c => c <> 0) l.

Lemma before_nul_nonzero l r : nonzero l -> before_nul (l ++ 0 :: r) = l.
Proof. induction 1 as [|c l Hc _ IH]; [done|]. cbn. rewrite (proj2 (Z.eqb_neq _ _)) by done. by rewrite IH. Qed.

Lemma before_nul_all l : nonzero l -> before_nul l = l.
Proof. induction 1 as [|c l Hc _ IH]; [done|]. cbn. rewrite (proj2 (Z.eqb_neq _ _)) by done. by rewrite IH. Qed.

Lemma nonzero_app l k : nonzero l -> nonzero k -> nonzero (l ++ k).
Proof. intros. by apply Forall_app. Qed.

Lemma nonzero_tabs n : nonzero (tabs n).
Proof. unfold tabs. apply Forall_replicate. done. Qed.

Lemma hex_char_pos d : 0 <= d -> hex_char d <> 0.
Proof. unfold hex_char. intros. destruct (d <? 10); lia. Qed.

Lemma nonzero_escape c : 0 < c < 256 -> nonzero (escape c).
Proof.
  intros Hc. unfold escape. destruct (_ && _); [repeat constructor; lia|]. constructor; [done|].
  repeat match goal with |- Forall _ (if ?b then _ else _) => destruct b; [by repeat constructor|] end.
  pose proof (hex_char_pos (c / 16) ltac:(Z.to_euclidean_division_equations; lia)). pose proof (hex_char_pos (c mod 16) ltac:(Z.to_euclidean_division_equations; lia)).
  unfold fmt_u04x. repeat constructor; done.
Qed.

Lemma nonzero_quote s : string_ok s -> nonzero (quote s).
Proof.
  intros H. constructor; [done|]. apply nonzero_app; [|by repeat constructor]. induction H as [|c s Hc _ IH]; [constructor|].
  change ((c :: s) ≫= escape) with (escape c ++ (s ≫= escape)). by apply nonzero_app; [apply nonzero_escape|].
Qed.

Lemma nonzero_digits f v : 0 <= v -> nonzero (dec_digits f v).
Proof.
  revert v. induction f as [|f IH]; intros v Hv; cbn [dec_digits]; [constructor|]. destruct (Z.ltb_spec v 10); [repeat constructor; lia|].
  apply nonzero_app; [apply IH; Z.to_euclidean_division_equations; lia|]. repeat constructor. Z.to_euclidean_division_equations. lia.
Qed.

Lemma nonzero_fmt_d n : nonzero (fmt_d n).
Proof. unfold fmt_d, dec_nat. destruct (Z.ltb_spec n 0); [constructor; [done|]|]; apply nonzero_digits; lia. Qed.

Lemma nonzero_joined sep l : nonzero sep -> Forall nonzero l -> nonzero (joined sep l).
Proof.
  intros Hs. induction 1 as [|t l Ht Hl IH]; [constructor|]. cbn [joined]. apply nonzero_app; [done|].
  destruct l; [constructor|]. by apply nonzero_app.
Qed.

Lemma nonzero_lines fmt l : Forall nonzero l -> nonzero (lines fmt l).
Proof.
  induction 1 as [|t l Ht Hl IH]; [constructor|]. cbn [lines]. apply nonzero_app; [done|].
  apply nonzero_app; [destruct l; by repeat constructor|]. apply nonzero_app; [destruct fmt; by repeat constructor|done].
Qed.

Lemma nonzero_indent fmt d : nonzero (indent fmt d).
Proof. destruct fmt; [apply nonzero_tabs|constructor]. Qed.

Lemma nonzero_member fmt d k t : nonzero k -> nonzero t -> nonzero (member_text fmt d k t).
Proof.
  intros Hk Ht. apply nonzero_app; [apply nonzero_indent|]. apply nonzero_app; [done|].
  apply nonzero_app; [destruct fmt; by repeat constructor|done].
Qed.

Lemma nonzero_render v : jv_ok v -> forall fmt d, nonzero (render fmt d v).
Proof.
  induction v as [|b|n|s|l IH|l IH] using jvalue_tree_ind; intros Hok fmt d.
  - by repeat constructor.
  - destruct b; by repeat constructor.
  - apply nonzero_fmt_d.
  - by apply nonzero_quote.
  - cbn [render]. constructor; [done|]. apply nonzero_app; [|by repeat constructor]. apply nonzero_joined; [destruct fmt; by repeat constructor|].
    apply all1_Forall in Hok. apply Forall_fmap. revert Hok. induction IH as [|v l Hv _ IHl]; intros Hok; [constructor|].
    apply list.Forall_cons in Hok as [? ?]. constructor; [by apply Hv|by apply IHl].
  - destruct l as [|m l]; cbn [render].
    + constructor; [done|]. apply nonzero_app; [destruct fmt; [constructor; [done|apply nonzero_tabs]|constructor]|by repeat constructor].
    + set (ms := m :: l) in *. constructor; [done|]. apply nonzero_app; [destruct fmt; by repeat constructor|].
      apply nonzero_app; [|apply nonzero_app; [apply nonzero_indent|by repeat constructor]].
      apply nonzero_lines, Forall_fmap. change (all1 (fun '(k, v) => string_ok k /\ jv_ok v) ms) in Hok. apply all1_Forall in Hok.
      revert Hok. induction IH as [|[k v] ms' Hv _ IHl]; intros Hok; [constructor|].
      apply list.Forall_cons in Hok as [[Hk Hjv] ?]. constructor; [|by apply IHl]. apply nonzero_member; [by apply nonzero_quote|by apply Hv].
Qed.
