(* ===== verification/CJsonPrintProof.v ===== *)
(** The printers of [CJsonPrint]: the text is the one [CJsonHeap] gives, the blocks needed on
    the way are freed, and printing fails only if an allocation has failed, with nothing
    left behind; first into blocks, then into a growing buffer. *)
From Stdlib Require Import ZArith Lia Bool.
From S2P Require Import Prelude CSem CDouble CJson CJsonParse CJsonPrint CJsonHeap.
From stdpp Require Import base list numbers option gmap.

Open Scope Z_scope.

(** ** Lengths *)

Lemma zlen_cons {A} (x : A) l : zlen (x :: l) = zlen l + 1.
Proof. unfold zlen. cbn. lia. Qed.

Lemma zlen_nil {A} : zlen (@nil A) = 0.
Proof. done. Qed.

Create Rewrite HintDb zlen.
#[export] Hint Rewrite @zlen_cons @zlen_nil @zlen_app : zlen.

(** Sums of lengths; every length is natural. *)
Ltac zlens :=
  autorewrite with zlen in *;
  repeat match goal with
  | H := context [zlen ?l] |- _ => lazymatch goal with _ : 0 <= zlen l |- _ => fail | _ => pose proof (zlen_nonneg l) end
  | _ : context [zlen ?l] |- _ => lazymatch goal with _ : 0 <= zlen l |- _ => fail | _ => pose proof (zlen_nonneg l) end
  | |- context [zlen ?l] => lazymatch goal with _ : 0 <= zlen l |- _ => fail | _ => pose proof (zlen_nonneg l) end
  end; lia.

Lemma zlen_tabs n : zlen (tabs n) = Z.max 0 n.
Proof. unfold zlen, tabs. rewrite length_replicate. lia. Qed.

(** A property of bytes by evaluation. *)
Lemma byte_cases (f : Z -> bool) : forallb f (seqZ 0 256) = true -> forall c, 0 <= c < 256 -> f c = true.
Proof. intros H c Hc. rewrite forallb_forall in H. apply H. apply list_elem_of_In, elem_of_seqZ. lia. Qed.

Lemma zlen_escape c : 0 <= c < 256 -> zlen (escape c) = escape_len c.
Proof. intros Hc. apply Z.eqb_eq. revert c Hc. apply (byte_cases (fun c => zlen (escape c) =? escape_len c)). by vm_compute. Qed.

Lemma escape_plain c : 0 < c < 256 -> needs_escape c = false -> escape c = [c].
Proof.
  unfold needs_escape, escape. intros Hc H. bools. destruct (Z.ltb_spec 31 c); cbn [andb].
  - by rewrite !(proj2 (Z.eqb_neq _ _)) by done.
  - rewrite (proj2 (Z.ltb_lt 0 c)), (proj2 (Z.ltb_lt c 32)) in * by lia. done.
Qed.

Lemma quote_plain s : string_ok s -> existsb needs_escape s = false -> quote s = 34 :: s ++ [34].
Proof.
  intros Hs He. unfold quote. do 2 f_equal. induction Hs as [|c s Hc _ IH]; [done|]. cbn [existsb] in He. bools.
  change ((c :: s) ≫= escape) with (escape c ++ (s ≫= escape)). rewrite escape_plain, IH by done. done.
Qed.

Lemma zlen_quote s : string_ok s -> zlen (quote s) = sum (escape_len <$> s) + 2.
Proof.
  intros Hs. unfold quote. rewrite zlen_cons, zlen_app, zlen_cons, zlen_nil. assert (zlen (s ≫= escape) = sum (escape_len <$> s)); [|lia].
  induction Hs as [|c s Hc _ IH]; [done|]. change ((c :: s) ≫= escape) with (escape c ++ (s ≫= escape)). rewrite zlen_app, IH, zlen_escape by lia. done.
Qed.

Lemma dec_digits_len f v k : 0 <= v < 10 ^ Z.of_nat k -> (1 <= k)%nat -> (length (dec_digits f v) <= k)%nat.
Proof.
  revert v k. induction f as [|f IH]; intros v k Hv Hk; cbn [dec_digits]; [cbn; lia|]. destruct (Z.ltb_spec v 10); [cbn; lia|].
  rewrite length_app. cbn [length]. destruct k as [|k]; [lia|]. rewrite Nat2Z.inj_succ, Z.pow_succ_r in Hv by lia.
  assert (1 <= k)%nat by (destruct k; [cbn in *; lia|lia]). specialize (IH (v / 10) k ltac:(Z.to_euclidean_division_equations; lia) ltac:(lia)). lia.
Qed.

Lemma fmt_d_len n : - 2 ^ 31 <= n < 2 ^ 31 -> zlen (fmt_d n) <= 11.
Proof.
  intros Hn. unfold fmt_d, dec_nat. destruct (Z.ltb_spec n 0); [rewrite zlen_cons|]; unfold zlen.
  - pose proof (dec_digits_len (Z.to_nat (- n) + 1) (- n) 10 ltac:(cbn; lia) ltac:(lia)). lia.
  - pose proof (dec_digits_len (Z.to_nat n + 1) n 10 ltac:(cbn; lia) ltac:(lia)). lia.
Qed.

(** ** Leaves, in either mode *)

Section leaves.
Context {env : JsonEnv}.

Definition emits (m : option printbuffer -> C json (option cstr * option printbuffer)) (t : list Z) : Prop :=
  forall p, exists n, m p = emit p n t /\ zlen t + 1 <= n <= zlen t + 32.

Lemma print_string_emits a s : string_ok s -> emits (print_string_ptr (Some (mkCstr a s))) (quote s).
Proof.
  intros Hs p. unfold print_string_ptr. cbn [str_bytes]. destruct (existsb needs_escape s) eqn:E; cbn [negb].
  - eexists. split; [done|]. rewrite zlen_quote by done. lia.
  - eexists. rewrite quote_plain by done. split; [done|]. zlens.
Qed.

Lemma print_number_emits c n : - 2 ^ 31 <= n < 2 ^ 31 -> valueint c = n -> valuedouble c = d_of_Z n -> emits (print_number c) (fmt_d n).
Proof.
  intros Hn Hi Hd p. unfold print_number. rewrite Hi, Hd. rewrite deq_zero by lia. destruct (Z.eqb_spec n 0) as [-> | Hn0]; [exists 2; by split|].
  rewrite dsub_int, !dle_int by lia. rewrite !(proj2 (Z.leb_le _ _)) by lia. exists 21. split; [done|]. pose proof (fmt_d_len n Hn). zlens.
Qed.
End leaves.

Section alloc.
Context {env : JsonEnv} {jheap : JsonHeap}.

(** ** Results *)

(** The text [t] in a new block; or nothing, because an allocation has failed. *)
Definition text_post (t : list Z) (L : list Z) (k : nat) (r : option cstr) (s : json) : Prop :=
  match r with
  | None => exists k', (k < k')%nat /\ heap L k' s
  | Some c => str_bytes c = t /\ heap (str_addr c :: L) k s
  end.

Lemma put_eq cap buf t : zlen buf + zlen t <= cap -> put cap buf t = mret (buf ++ t).
Proof using. intros H. unfold put. by rewrite (proj2 (Z.leb_le _ _)) by done. Qed.

Lemma emit_ok n t L k s : nonzero t -> zlen t + 1 <= n -> heap L k s ->
  wp (emit None n t) (fun r s' => snd r = None /\ text_post t L k (fst r) s') s.
Proof using jheap.
  intros Ht Hn Hh. unfold emit. eapply wp_call; [by apply jmalloc_ok|]. intros [a|] s' [_ H].
  - rewrite put_eq by zlens. apply wp_bind, wp_ret, wp_ret. cbn [fst snd text_post str_bytes str_addr]. by rewrite before_nul_all.
  - apply wp_ret. cbn. split; [done|]. exists (S k). split; [lia|done].
Qed.

Lemma emits_ok m t L k s : emits m t -> nonzero t -> heap L k s -> wp (m None) (fun r s' => snd r = None /\ text_post t L k (fst r) s') s.
Proof using jheap. intros He Ht Hh. destruct (He None) as (n & -> & Hn). apply emit_ok; [done|lia|done]. Qed.

Lemma print_word_ok n t L k s : heap L k s -> wp (print_word None n t) (fun r s' => snd r = None /\ text_post t L k (fst r) s') s.
Proof using jheap.
  intros Hh. unfold print_word. eapply wp_call; [by apply strdup_ok|]. intros [c|] s' [_ H]; apply wp_ret; cbn; (split; [done|]); [done|].
  exists (S k). split; [lia|done].
Qed.

(** ** Arrays *)

Definition entry_blocks (l : list (option cstr)) : list Z := l ≫= str_blocks.

Lemma free_entries_ok l L k s : heap (entry_blocks l ++ L) k s -> wp (free_entries l) (fun _ => heap L k) s.
Proof using.
  revert s. induction l as [|e l IH]; intros s Hh; [by apply wp_ret|]. cbn [free_entries].
  change (entry_blocks (e :: l)) with (str_blocks e ++ entry_blocks l) in Hh. rewrite <- app_assoc in Hh.
  eapply wp_call; [by apply free_string_ok|]. intros _ s1 [_ H1]. by apply IH.
Qed.

Section array.
Variable fmt : bool.
Variable pv : cJSON -> Z -> option printbuffer -> C json (option cstr * option printbuffer).

Definition prints (v : jvalue) : Prop := forall c d L k s, json_of v c -> 0 <= d -> heap L k s ->
  wp (pv c d None) (fun r s' => snd r = None /\ text_post (render fmt d v) L k (fst r) s') s.

Lemma array_entries_ok l cs d L k s : Forall prints l -> all2 json_of l cs -> 0 <= d -> heap L k s ->
  wp (array_entries pv cs d) (fun r s' => if snd r : bool
    then exists k', (k < k')%nat /\ heap (entry_blocks (fst r) ++ L) k' s'
    else exists ts, fst r = Some <$> ts /\ str_bytes <$> ts = map (render fmt (d + 1)) l /\ heap ((str_addr <$> ts) ++ L) k s') s.
Proof using.
  intros HF. revert cs L s. induction HF as [|v l Hv _ IH]; intros [|c cs] L s Hall Hd Hh; try done.
  { apply wp_ret. by exists []. }
  destruct Hall as [Hc Hall]. cbn [array_entries]. eapply wp_call; [by apply (Hv c (d + 1) L k); [|lia|]|].
  intros [[t|] p] s1 [_ H1]; cbn [fst snd text_post] in *.
  2:{ apply wp_ret. cbn. done. }
  destruct H1 as [Ht H1]. eapply wp_call; [by apply (IH cs (str_addr t :: L))|]. intros [rets fail] s2 H2. apply wp_ret. cbn [fst snd] in *. destruct fail.
  - destruct H2 as (k' & Hk & H2). exists k'. split; [done|]. eapply heap_perm; [|exact H2].
    change (entry_blocks (Some t :: rets)) with (str_addr t :: entry_blocks rets). solve_Permutation.
  - destruct H2 as (ts & -> & Hts & H2). exists (t :: ts). split; [done|]. split; [cbn [fmap list_fmap map]; by rewrite Ht, Hts|].
    eapply heap_perm; [|exact H2]. cbn [fmap list_fmap]. solve_Permutation.
Qed.
End array.

Lemma entry_blocks_some ts : entry_blocks (Some <$> ts) = str_addr <$> ts.
Proof using. induction ts as [|t ts IH]; [done|]. cbn [fmap list_fmap]. by rewrite <- IH. Qed.

Lemma join_cons2 sep t u l : joined sep (t :: u :: l) = t ++ sep ++ joined sep (u :: l).
Proof using. done. Qed.

Lemma compose_array_ok cap fmt ts buf L k s : zlen buf + zlen (joined (comma fmt) (str_bytes <$> ts)) + 1 <= cap -> heap ((str_addr <$> ts) ++ L) k s ->
  wp (compose_array cap fmt (Some <$> ts) buf) (fun b s' => b = buf ++ joined (comma fmt) (str_bytes <$> ts) /\ heap L k s') s.
Proof using.
  revert buf s. induction ts as [|t ts IH]; intros buf s Hc Hh. { apply wp_ret. cbn. by rewrite app_nil_r. }
  cbn [fmap list_fmap compose_array]. destruct ts as [|u ts].
  - cbn [fmap list_fmap joined] in *. rewrite app_nil_r in *. rewrite put_eq by zlens. apply wp_bind, wp_ret, wp_bind, wp_ret.
    eapply wp_call; [by apply (jfree_ok _ L)|]. intros _ s1 [_ H1]. by apply wp_ret.
  - cbn [fmap list_fmap] in Hc |- *. rewrite join_cons2 in Hc |- *. set (r := joined (comma fmt) _) in *.
    rewrite put_eq by zlens. apply wp_bind, wp_ret, wp_bind. fold (comma fmt). rewrite put_eq by zlens. apply wp_bind, wp_ret.
    rewrite put_eq by zlens. apply wp_bind, wp_ret, wp_ret.
    eapply wp_call; [by apply (jfree_ok _ ((str_addr <$> u :: ts) ++ L))|]. intros _ s1 [_ H1].
    eapply wp_mono; [apply (IH ((buf ++ str_bytes t) ++ comma fmt) s1)|]; [|done|].
    + cbn [fmap list_fmap]. fold r. zlens.
    + cbn [fmap list_fmap]. fold r. intros b s2 [-> H2]. split; [by rewrite <- !app_assoc|done].
Qed.

Lemma join_len fmt (ts : list cstr) : zlen (joined (comma fmt) (str_bytes <$> ts)) <= sum ((fun e => str_len e + 2 + (if fmt then 1 else 0)) <$> (Some <$> ts)).
Proof using.
  induction ts as [|t ts IH]; [done|]. cbn [fmap list_fmap sum foldr str_len] in *. fold (sum ((fun e => str_len e + 2 + (if fmt then 1 else 0)) <$> (Some <$> ts))) in *.
  destruct ts as [|u ts].
  - cbn. rewrite app_nil_r. destruct fmt; lia.
  - cbn [fmap list_fmap] in *. rewrite join_cons2. rewrite !zlen_app. assert (zlen (comma fmt) <= 1 + (if fmt then 1 else 0)) by (by destruct fmt). destruct fmt; lia.
Qed.

Lemma nonzero_bytes (ts : list cstr) ls : str_bytes <$> ts = ls -> Forall nonzero ls -> nonzero (joined (comma true) (str_bytes <$> ts)) /\ nonzero (joined (comma false) (str_bytes <$> ts)).
Proof using. intros -> H. split; apply nonzero_joined; by repeat constructor. Qed.

Lemma print_array_alloc_ok fmt pv l cs d L k s : Forall (prints fmt pv) l -> all2 json_of l cs -> Forall jv_ok l -> 0 <= d -> heap L k s ->
  wp (print_array_alloc pv cs d fmt) (text_post (render fmt d (JArr l)) L k) s.
Proof using jheap.
  intros Hpv Hall Hok Hd Hh. unfold print_array_alloc. eapply wp_call; [by apply jmalloc_ok|]. intros [en|] s1 [_ H1].
  2:{ apply wp_ret. exists (S k). split; [lia|done]. }
  eapply wp_call; [by apply (array_entries_ok fmt pv l cs d (en :: L))|]. intros [rets fail] s2 H2. cbn [fst snd] in *.
  set (len := 5 + sum _).
  assert (forall k' s', (k < k')%nat -> heap (entry_blocks rets ++ en :: L) k' s' ->
    wp (free_entries rets;; cJSON_free en;; mret None) (text_post (render fmt d (JArr l)) L k) s') as Hfree.
  { intros k' s' Hk Hh'. eapply wp_call; [by apply free_entries_ok|]. cbv beta. intros _ s3 H3. eapply wp_call; [by apply jfree_ok|]. intros _ s4 [_ H4].
    apply wp_ret. by exists k'. }
  destruct fail.
  { destruct H2 as (k' & Hk & H2). apply wp_bind, wp_ret. by apply (Hfree k'). }
  destruct H2 as (ts & -> & Hts & H2). eapply wp_call; [by apply jmalloc_ok|]. intros [out|] s3 [_ H3].
  2:{ apply (Hfree (S k)); [lia|]. by rewrite entry_blocks_some. }
  assert (5 + zlen (joined (comma fmt) (str_bytes <$> ts)) <= len) as Hlen by (unfold len; pose proof (join_len fmt ts); lia). clearbody len.
  rewrite put_eq by zlens. apply wp_bind, wp_ret. rewrite put_eq by zlens. apply wp_bind, wp_ret.
  eapply wp_call; [apply (compose_array_ok len fmt ts _ (en :: out :: L) k)|].
  { zlens. } { eapply heap_perm; [|exact H3]. solve_Permutation. }
  intros buf s4 [-> H4]. eapply wp_call; [by apply jfree_ok|]. intros _ s5 [_ H5]. rewrite put_eq by zlens. apply wp_bind, wp_ret, wp_ret.
  cbn [text_post str_bytes str_addr]. split; [|done]. rewrite <- !app_assoc. cbn [app]. rewrite Hts.
  change (91 :: joined (comma fmt) (map (render fmt (d + 1)) l) ++ [93; 0]) with ([91] ++ joined (comma fmt) (map (render fmt (d + 1)) l) ++ [93] ++ [0]).
  rewrite !app_assoc. rewrite before_nul_nonzero; [done|]. rewrite <- app_assoc. apply (nonzero_render (JArr l)) with (fmt := fmt) (d := d). cbn [jv_ok]. by apply all1_Forall.
Qed.

(** ** Objects *)

Definition member_blocks (l : list (option cstr * option cstr)) : list Z := l ≫= (fun e => str_blocks (fst e) ++ str_blocks (snd e)).
Definition both (t : cstr * cstr) : option cstr * option cstr := (Some (fst t), Some (snd t)).
Definition pair_blocks (ts : list (cstr * cstr)) : list Z := ts ≫= (fun t => [str_addr (fst t); str_addr (snd t)]).
Definition pair_bytes (t : cstr * cstr) : list Z * list Z := (str_bytes (fst t), str_bytes (snd t)).

Lemma member_blocks_both ts : member_blocks (both <$> ts) = pair_blocks ts.
Proof using. induction ts as [|t ts IH]; [done|]. cbn [fmap list_fmap]. change (pair_blocks (t :: ts)) with ([str_addr (fst t); str_addr (snd t)] ++ pair_blocks ts). by rewrite <- IH. Qed.

Lemma free_members_ok l L k s : heap (member_blocks l ++ L) k s -> wp (free_members l) (fun _ => heap L k) s.
Proof using.
  revert s. induction l as [|e l IH]; intros s Hh; [by apply wp_ret|]. cbn [free_members].
  change (member_blocks (e :: l)) with ((str_blocks (fst e) ++ str_blocks (snd e)) ++ member_blocks l) in Hh. rewrite <- !app_assoc in Hh.
  eapply wp_call; [by apply free_string_ok|]. intros _ s1 [_ H1]. eapply wp_call; [by apply free_string_ok|]. intros _ s2 [_ H2]. by apply IH.
Qed.

Section object.
Variable fmt : bool.
Variable pv : cJSON -> Z -> option printbuffer -> C json (option cstr * option printbuffer).

Definition named : list Z * jvalue -> cJSON -> Prop := fun '(k, v) c => (exists a, c_string c = Some (mkCstr a k)) /\ json_of v c.
Definition member_pair (d : Z) (m : list Z * jvalue) : list Z * list Z := (quote (fst m), render fmt d (snd m)).

Lemma object_entries_ok l cs d L k s : Forall (fun m => prints fmt pv (snd m)) l -> all2 named l cs -> Forall (fun m => string_ok (fst m)) l -> 0 <= d -> heap L k s ->
  wp (object_entries pv cs d) (fun ms s' => exists k', heap (member_blocks ms ++ L) k' s' /\
    if existsb member_failed ms then (k < k')%nat else k' = k /\ exists ts, ms = both <$> ts /\ pair_bytes <$> ts = member_pair d <$> l) s.
Proof using jheap.
  intros HF. revert cs L k s. induction HF as [|[key v] l Hv _ IH]; intros [|c cs] L k s Hall Hok Hd Hh; try done.
  { apply wp_ret. exists k. split; [done|]. cbn. split; [done|]. by exists []. }
  destruct Hall as [[[a Hname] Hc] Hall]. apply list.Forall_cons in Hok as [Hkey Hok]. cbn [fst snd] in *. cbn [object_entries]. rewrite Hname.
  eapply wp_call; [by apply (emits_ok _ (quote key) L k); [apply print_string_emits|apply nonzero_quote|]|]. intros [q p] s1 [_ H1]. cbn [fst snd] in H1.
  assert (exists k1, heap (str_blocks q ++ L) k1 s1 /\ match q with None => (k < k1)%nat | Some q => k1 = k /\ str_bytes q = quote key end) as (k1 & Hh1 & Hq).
  { destruct q as [q|]; [exists k; by destruct H1|]. destruct H1 as (k1 & ? & ?). by exists k1. }
  eapply wp_call; [by apply (Hv c d (str_blocks q ++ L) k1)|]. intros [r p'] s2 [_ H2]. cbn [fst snd] in H2.
  assert (exists k2, heap (str_blocks r ++ str_blocks q ++ L) k2 s2 /\ match r with None => (k1 < k2)%nat | Some r => k2 = k1 /\ str_bytes r = render fmt d v end) as (k2 & Hh2 & Hr).
  { destruct r as [r|]; [exists k1; by destruct H2|]. destruct H2 as (k2 & ? & ?). by exists k2. }
  eapply wp_call; [by apply (IH cs (str_blocks r ++ str_blocks q ++ L) k2)|]. intros ms s3 (k3 & Hh3 & Hms). apply wp_ret. exists k3. cbn [fst snd]. split.
  { eapply heap_perm; [|exact Hh3]. change (member_blocks ((q, r) :: ms)) with ((str_blocks q ++ str_blocks r) ++ member_blocks ms). solve_Permutation. }
  assert (k <= k1 /\ k1 <= k2)%nat by (destruct q, r; lia). cbn [existsb]. destruct (existsb member_failed ms); [rewrite orb_true_r; lia|].
  destruct Hms as [-> (ts & -> & Hts)]. rewrite orb_false_r. destruct q as [q|], r as [r|]; cbn [member_failed]; [|lia|lia|lia].
  destruct Hq as [-> Hq], Hr as [-> Hr]. split; [done|]. exists ((q, r) :: ts). split; [done|]. cbn [fmap list_fmap].
  rewrite Hts. unfold pair_bytes at 1, member_pair at 2. cbn [fst snd]. by rewrite Hq, Hr.
Qed.
End object.

Definition pair_text (fmt : bool) (d : Z) (t : list Z * list Z) : list Z := member_text fmt d (fst t) (snd t).

Lemma compose_object_ok cap d fmt ts buf L k s : zlen buf + zlen (lines fmt (pair_text fmt d <$> (pair_bytes <$> ts))) + 1 <= cap -> heap (pair_blocks ts ++ L) k s ->
  wp (compose_object cap d fmt (both <$> ts) buf) (fun b s' => b = buf ++ lines fmt (pair_text fmt d <$> (pair_bytes <$> ts)) /\ heap L k s') s.
Proof using.
  revert buf s. induction ts as [|t ts IH]; intros buf s Hc Hh. { apply wp_ret. cbn. by rewrite app_nil_r. }
  cbn [fmap list_fmap compose_object both lines] in *. fold (indent fmt d). unfold pair_text at 1 in Hc. unfold pair_text at 1. cbn [fst snd pair_bytes] in *. unfold member_text in *.
  set (colon := 58 :: (if fmt then [9] else [])) in *. set (nl := if fmt then [10] else []) in *.
  set (com := match both <$> ts with [] => [] | _ => [44] end).
  assert (match pair_text fmt d <$> (pair_bytes <$> ts) with [] => [] | _ => [44] end = com) as Hcom by (by destruct ts). rewrite Hcom in *.
  set (r := lines fmt _) in *.
  repeat (rewrite put_eq by zlens; apply wp_bind, wp_ret).
  change (pair_blocks (t :: ts)) with ([str_addr (fst t); str_addr (snd t)] ++ pair_blocks ts) in Hh. cbn [app] in Hh.
  eapply wp_call; [by apply (jfree_ok _ (str_addr (snd t) :: pair_blocks ts ++ L))|]. intros _ s1 [_ H1].
  eapply wp_call; [by apply (jfree_ok _ (pair_blocks ts ++ L))|]. intros _ s2 [_ H2].
  eapply wp_mono; [apply (IH _ s2); [fold r; zlens|done]|]. fold r. intros b s3 [-> H3]. split; [by rewrite <- !app_assoc|done].
Qed.

Lemma lines_len fmt d ts : 0 <= d -> zlen (lines fmt (pair_text fmt d <$> (pair_bytes <$> ts))) <= sum (member_len d fmt <$> (both <$> ts)).
Proof using.
  intros Hd. induction ts as [|t ts IH]; [done|]. cbn [fmap list_fmap lines sum foldr] in *. fold (sum (member_len d fmt <$> (both <$> ts))).
  unfold pair_text at 1, member_len at 1, member_text. cbn [fst snd pair_bytes both str_len]. rewrite !zlen_app.
  assert (zlen (indent fmt d) = if fmt then d else 0) as -> by (destruct fmt; [cbn [indent]; rewrite zlen_tabs; lia|done]).
  assert (zlen (58 :: (if fmt then [9] else [])) = if fmt then 2 else 1) as -> by (by destruct fmt).
  assert (zlen (if fmt then [10] else []) = if fmt then 1 else 0) as -> by (by destruct fmt).
  assert (zlen (match pair_text fmt d <$> (pair_bytes <$> ts) with [] => [] | _ => [44] end) <= 1) by (by destruct ts). destruct fmt; lia.
Qed.

Lemma render_obj fmt d l : l <> [] -> render fmt d (JObj l) = 123 :: (if fmt then [10] else []) ++
  lines fmt (pair_text fmt (d + 1) <$> (member_pair fmt (d + 1) <$> l)) ++ indent fmt d ++ [125].
Proof using.
  destruct l as [|m l]; [done|]. intros _. cbn [render]. do 4 f_equal. change (map ?f (m :: l)) with (f <$> (m :: l)). rewrite <- list_fmap_compose.
  apply list_fmap_ext. intros _ [k v] _. done.
Qed.

Lemma print_object_alloc_ok fmt pv l cs d L k s : l <> [] -> Forall (fun m => prints fmt pv (snd m)) l -> all2 named l cs -> jv_ok (JObj l) -> 0 <= d -> heap L k s ->
  wp (print_object_alloc pv cs d fmt) (text_post (render fmt d (JObj l)) L k) s.
Proof using jheap.
  intros Hne Hpv Hall Hok Hd Hh. pose proof (nonzero_render _ Hok fmt d) as Hnz. assert (Forall (fun m => string_ok (fst m)) l) as Hkeys.
  { cbn [jv_ok] in Hok. apply all1_Forall in Hok. eapply Forall_impl; [exact Hok|]. by intros [? ?] [? ?]. }
  clear Hok. rewrite render_obj in * by done. set (T := lines fmt _) in *.
  unfold print_object_alloc. eapply wp_call; [by apply jmalloc_ok|]. intros [en|] s1 [_ H1].
  2:{ apply wp_ret. exists (S k). split; [lia|done]. }
  eapply wp_call; [by apply jmalloc_ok|]. intros [nm|] s2 [_ H2].
  2:{ eapply wp_call; [by apply jfree_ok|]. intros _ s3 [_ H3]. apply wp_ret. exists (S k). split; [lia|done]. }
  cbv zeta. eapply wp_call; [by apply (object_entries_ok fmt pv l cs (d + 1) (nm :: en :: L)); [| | |lia|]|]. intros ms s3 (k3 & H3 & Hms).
  set (len := 7 + _ + _).
  assert (forall k' s', (k < k')%nat -> heap (member_blocks ms ++ nm :: en :: L) k' s' ->
    wp (free_members ms;; cJSON_free nm;; cJSON_free en;; mret None) (text_post (123 :: (if fmt then [10] else []) ++ T ++ indent fmt d ++ [125]) L k) s') as Hfree.
  { intros k' s' Hk Hh'. eapply wp_call; [by apply free_members_ok|]. cbv beta. intros _ s4 H4. eapply wp_call; [by apply jfree_ok|]. intros _ s5 [_ H5].
    eapply wp_call; [by apply jfree_ok|]. intros _ s6 [_ H6]. apply wp_ret. by exists k'. }
  destruct (existsb member_failed ms) eqn:Ef.
  { apply wp_bind, wp_ret. by apply (Hfree k3). }
  destruct Hms as [-> (ts & -> & Hts)]. eapply wp_call; [by apply jmalloc_ok|]. intros [out|] s4 [_ H4]; [|by apply (Hfree (S k)); [lia|]].
  assert (7 + (if fmt then d + 1 else 0) + zlen T <= len) as Hlen by (unfold len, T; rewrite <- Hts; pose proof (lines_len fmt (d + 1) ts ltac:(lia)); lia). clearbody len.
  assert (zlen (indent fmt d) = if fmt then d else 0) by (destruct fmt; [cbn [indent]; rewrite zlen_tabs; lia|done]).
  assert (zlen (if fmt then [10] else []) = if fmt then 1 else 0) by (by destruct fmt).
  assert ((if fmt then tabs (d + 1 - 1) else []) = indent fmt d) as -> by (destruct fmt; [cbn; f_equal; lia|done]).
  rewrite put_eq by (destruct fmt; zlens). apply wp_bind, wp_ret. rewrite put_eq by (destruct fmt; zlens). apply wp_bind, wp_ret.
  eapply wp_call; [apply (compose_object_ok len (d + 1) fmt ts _ (out :: nm :: en :: L) k)|].
  { rewrite Hts. fold T. destruct fmt; zlens. } { rewrite member_blocks_both in H4. eapply heap_perm; [|exact H4]. solve_Permutation. }
  rewrite Hts. fold T. intros buf s5 [-> H5].
  eapply wp_call; [apply (jfree_ok nm (out :: en :: L)); eapply heap_perm; [|exact H5]; solve_Permutation|]. intros _ s6 [_ H6].
  eapply wp_call; [apply (jfree_ok en (out :: L)); eapply heap_perm; [|exact H6]; solve_Permutation|]. intros _ s7 [_ H7].
  rewrite put_eq by (destruct fmt; zlens). apply wp_bind, wp_ret, wp_ret. cbn [text_post str_bytes str_addr]. split; [|done].
  rewrite <- (before_nul_nonzero _ [] Hnz). f_equal. cbn [app]. rewrite <- !app_assoc. done.
Qed.

(** ** Values *)

Lemma print_value_ok fmt v : jv_ok v -> prints fmt (fun c d => print_value c d fmt) v.
Proof using jheap.
  induction v as [|b|n|str|l IH|l IH] using jvalue_tree_ind; intros Hok c d L k s Hc Hd Hh; pose proof (nonzero_render _ Hok fmt d) as Hnz;
    destruct c as [a t vs vi vd nm kids]; cbn [json_of c_type] in Hc; cbn [print_value c_type].
  - rewrite Hc. by apply print_word_ok.
  - rewrite Hc. destruct b; by apply print_word_ok.
  - destruct Hc as (-> & Hi & Hv). by apply emits_ok; [apply print_number_emits| |].
  - destruct Hc as (-> & x & Hs). unfold print_string. rewrite Hs. by apply emits_ok; [apply print_string_emits| |].
  - destruct Hc as [-> Hk]. cbn [child] in Hk. cbn. unfold print_array. cbn [child]. destruct kids as [|x kids].
    + destruct l as [|v l]; [|done]. apply emit_ok; [done|done|done].
    + eapply wp_call; [apply (print_array_alloc_ok fmt _ l (x :: kids) d L k); [|done| |done|done]|].
      * cbn [jv_ok] in Hok. apply all1_Forall in Hok. apply Forall_forall. intros v Hv. apply (proj1 (Forall_forall _ _) IH v Hv). by apply (proj1 (Forall_forall _ _) Hok v).
      * cbn [jv_ok] in Hok. by apply all1_Forall in Hok.
      * intros r s' H. apply wp_ret. by split.
  - destruct Hc as [-> Hk]. cbn [child] in Hk. cbn. unfold print_object. cbn [child]. destruct kids as [|x kids].
    + destruct l as [|v l]; [|done]. apply emit_ok; [done| |done]. destruct fmt; [|done]. cbn [render app]. autorewrite with zlen. rewrite zlen_tabs. lia.
    + eapply wp_call; [apply (print_object_alloc_ok fmt _ l (x :: kids) d L k); [by destruct l| |exact Hk|exact Hok|done|done]|].
      * cbn [jv_ok] in Hok. apply all1_Forall in Hok. apply Forall_forall. intros m Hm. apply (proj1 (Forall_forall _ _) IH m Hm).
        pose proof (proj1 (Forall_forall _ _) Hok m Hm) as Hm'. by destruct m, Hm'.
      * intros r s' H. apply wp_ret. by split.
Qed.

End alloc.

(** The printer of [CJsonPrint] into a buffer: the buffer holds the same text as the printer
    into blocks of its own returns; if an allocation fails, the buffer is freed. *)

(** ** The size of a buffer *)

Lemma lor_ge a b : 0 <= a -> 0 <= b -> a <= Z.lor a b.
Proof.
  intros Ha Hb. assert (Z.lor a b - a = Z.ldiff (Z.lor a b) a) as H.
  { apply Z.sub_nocarry_ldiff. apply Z.bits_inj'. intros n Hn. rewrite Z.ldiff_spec, Z.lor_spec, Z.bits_0. by destruct (Z.testbit a n). }
  pose proof (proj2 (Z.ldiff_nonneg (Z.lor a b) a)) as Hp. assert (0 <= Z.lor a b) by (apply Z.lor_nonneg; lia). lia.
Qed.

Lemma lor_lt a b n : 0 <= a < 2 ^ n -> 0 <= b < 2 ^ n -> 0 < n -> Z.lor a b < 2 ^ n.
Proof.
  intros Ha Hb Hn. destruct (Z.eq_dec a 0) as [-> | Ha0]; [rewrite Z.lor_0_l; lia|]. destruct (Z.eq_dec b 0) as [-> | Hb0]; [rewrite Z.lor_0_r; lia|].
  assert (0 <= Z.lor a b) by (apply Z.lor_nonneg; lia). pose proof (lor_ge a b). apply Z.log2_lt_pow2; [lia|].
  rewrite Z.log2_lor by lia. apply Z.max_lub_lt; apply Z.log2_lt_pow2; lia.
Qed.

Lemma lor_shift_bounds y n k : 0 <= y < 2 ^ n -> 0 < n -> 0 <= k -> y <= Z.lor y (Z.shiftr y k) < 2 ^ n.
Proof.
  intros Hy Hn Hk. assert (0 <= Z.shiftr y k <= y).
  { rewrite Z.shiftr_div_pow2 by done. pose proof (Z.pow_pos_nonneg 2 k ltac:(lia) Hk). split; [apply Z.div_pos; lia|]. apply Z.div_le_upper_bound; nia. }
  split; [apply lor_ge; lia|apply lor_lt; lia].
Qed.

Lemma pow2gt_bounds x n : 0 < x <= 2 ^ n -> 0 < n -> x <= pow2gt x <= 2 ^ n.
Proof.
  intros Hx Hn. unfold pow2gt. cbv zeta. set (y0 := x - 1). assert (x - 1 <= y0 < 2 ^ n) as H0 by lia. clearbody y0.
  pose proof (lor_shift_bounds y0 n 1 ltac:(lia) Hn ltac:(lia)) as H1. set (y1 := Z.lor y0 _) in *. clearbody y1.
  pose proof (lor_shift_bounds y1 n 2 ltac:(lia) Hn ltac:(lia)) as H2. set (y2 := Z.lor y1 _) in *. clearbody y2.
  pose proof (lor_shift_bounds y2 n 4 ltac:(lia) Hn ltac:(lia)) as H3. set (y3 := Z.lor y2 _) in *. clearbody y3.
  pose proof (lor_shift_bounds y3 n 8 ltac:(lia) Hn ltac:(lia)) as H4. set (y4 := Z.lor y3 _) in *. clearbody y4.
  pose proof (lor_shift_bounds y4 n 16 ltac:(lia) Hn ltac:(lia)) as H5. lia.
Qed.

Section buffered.
Context {env : JsonEnv} {jheap : JsonHeap}.

(** ** States of a buffer *)

(** The text so far is [pre]. *)
Definition pb_at (p : printbuffer) (pre L : list Z) (k : nat) (s : json) : Prop :=
  exists a, pb_buffer p = Some a /\ pb_offset p = zlen pre /\ take (length pre) (pb_data p) = pre /\ heap (a :: L) k s.

(** The buffer is gone. *)
Definition dead (p : printbuffer) (L : list Z) (k : nat) (s : json) : Prop :=
  pb_buffer p = None /\ exists k', (k < k')%nat /\ heap L k' s.

Definition pb_or_dead (p : printbuffer) (pre L : list Z) (k : nat) (s : json) : Prop := pb_at p pre L k s \/ dead p L k s.

(** [t] and a terminator have been written behind [pre]; the offset lies within [t]. *)
Definition pb_done (p : printbuffer) (pre t L : list Z) (k : nat) (s : json) : Prop :=
  exists a, pb_buffer p = Some a /\ zlen pre <= pb_offset p <= zlen pre + zlen t /\ pb_data p = pre ++ t ++ [0] /\ heap (a :: L) k s.

Definition part_post (pre t L : list Z) (k : nat) (r : option cstr * option printbuffer) (s : json) : Prop :=
  exists p, snd r = Some p /\
    match fst r with
    | None => dead p L k s
    | Some c => pb_done p pre t L k s /\ (pre = [] -> str_bytes c = t /\ pb_buffer p = Some (str_addr c))
    end.

Lemma ensure_ok p pre n L k s : 0 < n -> zlen pre + n <= 2 ^ 30 -> pb_at p pre L k s ->
  wp (ensure p n) (fun r s' => if fst r : bool then pb_at (snd r) pre L k s' /\ zlen pre + n <= pb_length (snd r) else dead (snd r) L k s') s.
Proof using jheap.
  intros Hn Hb (a & Ea & Eo & Ed & Hh). unfold ensure. rewrite Ea, Eo. cbv zeta. destruct (Z.leb_spec (n + zlen pre) (pb_length p)).
  { apply wp_ret. cbn [fst snd]. split; [by exists a|lia]. }
  pose proof (zlen_nonneg pre). pose proof (pow2gt_bounds (n + zlen pre) 30 ltac:(lia) ltac:(lia)) as [H1 H2].
  rewrite (proj2 (Z.leb_gt _ _)) by lia. eapply wp_call; [by apply jmalloc_ok|]. intros [b|] s1 [_ Hs1].
  - rewrite (proj2 (Z.ltb_ge _ _)) by lia. eapply wp_call; [apply (jfree_ok a (b :: L)); eapply heap_perm; [|exact Hs1]; solve_Permutation|]. intros _ s2 [_ Hs2].
    apply wp_ret. cbn [fst snd pb_length]. split; [|lia]. by exists b.
  - eapply wp_call; [by apply (jfree_ok a L)|]. intros _ s2 [_ Hs2]. apply wp_ret. cbn. split; [done|]. exists (S k). split; [lia|done].
Qed.

Lemma ensure_dead p n L k s : dead p L k s -> ensure p n s = Done ((false, p), s).
Proof using. intros [H _]. unfold ensure. by rewrite H. Qed.

(** Appending [bytes]. *)
Lemma poke_ok p pre bytes L k s : pb_at p pre L k s -> zlen pre + zlen bytes <= pb_length p ->
  exists p', poke p (pb_offset p) bytes = mret p' /\ pb_offset p' = zlen pre /\ pb_data p' = pre ++ bytes /\ pb_buffer p' = pb_buffer p /\
    (forall t u, bytes = t ++ u -> pb_at (set_offset (pb_offset p' + zlen t) p') (pre ++ t) L k s).
Proof using.
  intros (a & Ea & Eo & Ed & Hh) Hl. unfold poke. rewrite Eo. pose proof (zlen_nonneg pre).
  assert (zlen pre <= zlen (pb_data p)) by (unfold zlen; rewrite <- Ed at 1; rewrite length_take; lia).
  rewrite !(proj2 (Z.leb_le _ _)) by lia. cbn [andb]. eexists. split; [done|]. cbn [pb_data pb_offset pb_buffer].
  replace (Z.to_nat (zlen pre)) with (length pre) by (unfold zlen; lia). rewrite Ed. split; [done|]. split; [done|]. split; [done|].
  intros t u ->. exists a. cbn [set_offset pb_offset pb_data pb_buffer]. split; [done|]. split; [by rewrite zlen_app|]. split; [|done].
  rewrite app_assoc. by rewrite take_app_length.
Qed.

Lemma peek_text p i pre t : pb_data p = pre ++ t ++ [0] -> nonzero t -> zlen pre <= i <= zlen pre + zlen t ->
  peek p i = mret (drop (Z.to_nat i - length pre) t).
Proof using.
  intros Hd Ht Hi. unfold peek. rewrite Hd. assert (drop (Z.to_nat i) (pre ++ t ++ [0]) = drop (Z.to_nat i - length pre) t ++ [0]) as ->.
  { unfold zlen in Hi. rewrite drop_app_ge by lia. rewrite drop_app_le by lia. done. }
  cbv zeta. rewrite bool_decide_true by (apply elem_of_app; right; by left). by rewrite before_nul_nonzero by (by apply Forall_drop).
Qed.

Lemma updated_done p pre t L k s : nonzero t -> pb_done p pre t L k s -> wp (updated p) (fun p' s' => pb_at p' (pre ++ t) L k s') s.
Proof using.
  intros Ht (a & Ea & Ho & Hd & Hh). unfold updated, update. rewrite Ea. rewrite (peek_text p _ pre t) by done.
  apply wp_bind, wp_bind, wp_ret, wp_ret, wp_ret. exists a. cbn [set_offset pb_buffer pb_offset pb_data]. split; [done|]. split.
  - rewrite zlen_app. unfold zlen in *. rewrite length_drop. lia.
  - split; [|done]. by rewrite Hd, app_assoc, take_app_length.
Qed.

Lemma updated_dead p L k s : dead p L k s -> wp (updated p) (fun p' s' => dead p' L k s') s.
Proof using. intros [Hp Hk]. unfold updated, update. rewrite Hp. apply wp_bind, wp_ret, wp_ret. by split. Qed.

Lemma updated_part pre t L k r s d : nonzero t -> part_post pre t L k r s -> wp (updated (default d (snd r))) (fun p' s' => pb_or_dead p' (pre ++ t) L k s') s.
Proof using.
  intros Ht (p & -> & H). cbn [default from_option id]. destruct (fst r).
  - eapply wp_mono; [by eapply updated_done, H|]. intros p' s' H'. by left.
  - eapply wp_mono; [by eapply updated_dead|]. intros p' s' H'. by right.
Qed.

Lemma done_text p pre t L k s i : nonzero t -> pb_done p pre t L k s -> 0 <= i <= zlen pre + zlen t -> (pre = [] -> i = 0) ->
  nonzero pre -> wp (at_offset p i) (part_post pre t L k) s.
Proof using.
  intros Ht Hp Hi H0 Hpre. pose proof Hp as (a & Ea & Ho & Hd & Hh). unfold at_offset. rewrite Ea.
  rewrite (peek_text p i [] (pre ++ t)); [|by rewrite Hd, <- app_assoc|by apply nonzero_app|change (zlen (@nil Z)) with 0; rewrite zlen_app; lia].
  apply wp_bind, wp_ret, wp_ret. exists p. cbn [fst snd]. split; [done|]. split; [done|]. intros ->. rewrite H0 by done. cbn. rewrite Z.add_0_r. done.
Qed.

(** ** Leaves *)

Lemma emit_buffer_ok p n pre t L k s : nonzero pre -> nonzero t -> zlen t + 1 <= n -> zlen pre + n <= 2 ^ 30 -> pb_at p pre L k s ->
  wp (emit (Some p) n t) (part_post pre t L k) s.
Proof using jheap.
  intros Hpre Ht Hn Hb Hp. unfold emit. pose proof (zlen_nonneg t). eapply wp_call; [by apply (ensure_ok p pre n L k); [lia| |]|].
  intros [ok p1] s1 H1. cbn [fst snd] in H1. destruct ok; cbn [negb].
  - destruct H1 as [H1 Hl]. destruct (poke_ok p1 pre (t ++ [0]) L k s1 H1 ltac:(zlens)) as (p2 & -> & Ho & Hd & Hbuf & _).
    apply wp_bind, wp_ret. destruct H1 as (a & Ea & _ & _ & Hh). apply done_text; [done| | |by intros ->|done].
    + exists a. rewrite Ho, Hbuf. repeat split; [done|lia|lia|done|apply Hh..].
    + rewrite Ho. pose proof (zlen_nonneg pre). lia.
  - apply wp_ret. by exists p1.
Qed.

Lemma emits_buffer_ok m p pre t L k s : emits m t -> nonzero pre -> nonzero t -> zlen pre + zlen t + 32 <= 2 ^ 30 -> pb_at p pre L k s ->
  wp (m (Some p)) (part_post pre t L k) s.
Proof using jheap. intros He Hpre Ht Hb Hp. destruct (He (Some p)) as (n & -> & Hn). apply emit_buffer_ok; [done|done|lia|lia|done]. Qed.
(** ** Arrays *)

Section parts.
Variable fmt : bool.
Variable pv : cJSON -> Z -> option printbuffer -> C json (option cstr * option printbuffer).

Definition bprints (v : jvalue) : Prop := forall c d p pre L k s, json_of v c -> 0 <= d <= zlen pre -> nonzero pre ->
  zlen pre + zlen (render fmt d v) + 32 <= 2 ^ 30 -> pb_at p pre L k s -> wp (pv c d (Some p)) (part_post pre (render fmt d v) L k) s.

Lemma print_part_ok v c d p pre L k s : bprints v -> jv_ok v -> json_of v c -> 0 <= d <= zlen pre -> nonzero pre ->
  zlen pre + zlen (render fmt d v) + 32 <= 2 ^ 30 -> pb_at p pre L k s ->
  wp (print_part pv c d p) (fun p' s' => pb_or_dead p' (pre ++ render fmt d v) L k s') s.
Proof using.
  intros Hv Hok Hc Hd Hpre Hb Hp. unfold print_part. eapply wp_call; [by apply (Hv c d p pre L k)|]. intros r s1 H1.
  apply updated_part; [by apply nonzero_render|done].
Qed.

(** Appending [t], with [u] behind the new end, and going on; or failing. *)
Lemma append_call {A} t u p pre n w o (fail : printbuffer -> C json A) (go : printbuffer -> C json A) (Q : A -> json -> Prop) L k s :
  w = t ++ u -> o = zlen t -> 0 < n -> zlen t + zlen u <= n -> zlen pre + n <= 2 ^ 30 -> pb_or_dead p pre L k s ->
  (forall p' s', dead p' L k s' -> wp (fail p') Q s') ->
  (forall p' s', pb_at p' (pre ++ t) L k s' -> wp (go p') Q s') ->
  wp (r ← ensure p n; let '(ok, p) := r in
      if negb ok then fail p else p ← poke p (pb_offset p) w; go (set_offset (pb_offset p + o) p)) Q s.
Proof using jheap.
  intros -> -> Hn Hl Hb [Hp|Hp] Hf Hg.
  - eapply wp_call; [by apply (ensure_ok p pre n L k)|]. intros [ok p1] s1 H1. cbn [fst snd] in H1. destruct ok; cbn [negb]; [|by apply Hf].
    destruct H1 as [H1 Hl1]. destruct (poke_ok p1 pre (t ++ u) L k s1 H1 ltac:(zlens)) as (p2 & -> & _ & _ & _ & Hat). apply wp_bind, wp_ret, Hg. by apply (Hat t u).
  - apply wp_bind. unfold wp at 1. rewrite (ensure_dead p n L k s Hp). by apply Hf.
Qed.

(** The last step: the text is complete. *)
Lemma finish_call p pre mid n t i L k s : 0 < n -> zlen t + 1 <= n -> zlen pre + zlen mid + n <= 2 ^ 30 -> pb_or_dead p (pre ++ mid) L k s ->
  nonzero pre -> nonzero (mid ++ t) -> 0 <= i <= zlen pre + zlen (mid ++ t) -> (pre = [] -> i = 0) ->
  wp (r ← ensure p n; let '(ok, p) := r in
      if negb ok then mret (None, Some p) else p ← poke p (pb_offset p) (t ++ [0]); at_offset p i) (part_post pre (mid ++ t) L k) s.
Proof using jheap.
  intros Hn Hl Hb [Hp|Hp] Hpre Ht Hi H0.
  - eapply wp_call; [apply (ensure_ok p (pre ++ mid) n L k); [done|zlens|done]|]. intros [ok p1] s1 H1. cbn [fst snd] in H1. destruct ok; cbn [negb].
    2:{ apply wp_ret. by exists p1. }
    destruct H1 as [H1 Hl1]. destruct (poke_ok p1 _ (t ++ [0]) L k s1 H1 ltac:(zlens)) as (p2 & -> & Ho & Hd & Hbuf & _). apply wp_bind, wp_ret.
    destruct H1 as (a & Ea & _ & _ & Hh). apply done_text; [done| |done|done|done]. exists a. rewrite Ho, Hbuf, Hd, <- !app_assoc. split; [done|]. split; [zlens|]. by split.
  - apply wp_bind. unfold wp at 1. rewrite (ensure_dead p n L k s Hp). cbn [negb]. apply wp_ret. by exists p.
Qed.

Lemma array_items_ok l cs d p pre L k s : Forall bprints l -> Forall jv_ok l -> all2 json_of l cs -> 0 <= d -> d + 1 <= zlen pre -> nonzero pre ->
  zlen pre + zlen (joined (comma fmt) (map (render fmt (d + 1)) l)) + 33 <= 2 ^ 30 -> pb_at p pre L k s ->
  wp (array_items pv cs d fmt p) (fun r s' => if fst r : bool
    then pb_or_dead (snd r) (pre ++ joined (comma fmt) (map (render fmt (d + 1)) l)) L k s' else dead (snd r) L k s') s.
Proof using jheap.
  intros HF. revert cs p pre s. induction HF as [|v l Hv _ IH]; intros [|c cs] p pre s Hok Hall Hd Hdp Hpre Hb Hp; try done.
  { apply wp_ret. cbn. left. by rewrite app_nil_r. }
  destruct Hall as [Hc Hall]. apply list.Forall_cons in Hok as [Hvok Hok]. cbn [array_items]. set (t := render fmt (d + 1) v) in *.
  assert (nonzero t) as Ht by (by apply nonzero_render). cbn [map] in Hb |- *. fold t in Hb |- *.
  eapply wp_call; [apply (print_part_ok v c (d + 1) p pre L k); [done|done|done|lia|done| |done]|].
  { fold t. cbn [joined] in Hb. zlens. }
  fold t. intros p1 s1 H1. destruct cs as [|c' cs].
  - destruct l; [|done]. apply wp_ret. cbn. by rewrite app_nil_r.
  - destruct l as [|v' l]; [done|]. cbn [map] in IH, Hb |- *. rewrite join_cons2 in Hb |- *. set (r := joined _ _) in *.
    assert (zlen (comma fmt) = if fmt then 2 else 1) as Hcl by (by destruct fmt). set (len := if fmt then 2 else 1) in *.
    cbv zeta. assert (0 < len <= 2) by (unfold len; by destruct fmt).
    apply (append_call (comma fmt) [0] _ (pre ++ t) _ _ _ _ _ _ L k); [done|done|lia|zlens|zlens|done| |].
    + intros p2 s2 H2. by apply wp_ret.
    + intros p2 s2 H2. eapply wp_mono; [apply (IH (c' :: cs) p2 ((pre ++ t) ++ comma fmt)); [done|done|done|zlens| |cbn [map]; fold r; zlens|done]|].
      * apply nonzero_app; [by apply nonzero_app|]. destruct fmt; by repeat constructor.
      * intros r' s3. by rewrite <- !app_assoc.
Qed.

Lemma print_array_buffered_ok l cs d p pre L k s : Forall bprints l -> Forall jv_ok l -> all2 json_of l cs -> 0 <= d <= zlen pre -> nonzero pre ->
  zlen pre + zlen (render fmt d (JArr l)) + 32 <= 2 ^ 30 -> pb_at p pre L k s ->
  wp (print_array_buffered pv cs d fmt p) (part_post pre (render fmt d (JArr l)) L k) s.
Proof using jheap.
  intros HF Hok Hall Hd Hpre Hb Hp. pose proof (nonzero_render (JArr l)) as Hnz. specialize (Hnz ltac:(cbn [jv_ok]; by apply all1_Forall) fmt d).
  cbn [render] in *. set (T := joined _ _) in *. unfold print_array_buffered. assert (pb_offset p = zlen pre) as -> by (by destruct Hp as (? & _ & ? & _)).
  change (91 :: T ++ [93]) with (([91] ++ T) ++ [93]) in *. pose proof (zlen_nonneg pre).
  apply (append_call [91] [] p pre 1 _ _ _ (fun p => r ← array_items pv cs d fmt p; _) _ L k); [done|done|lia|done|zlens|by left| |].
  { intros p1 s1 H1. apply wp_ret. by exists p1. }
  intros p1 s1 H1. eapply wp_call; [apply (array_items_ok l cs d p1 (pre ++ [91]) L k); [done|done|done|lia|zlens| |fold T; zlens|done]|].
  { by apply nonzero_app; [|repeat constructor]. }
  fold T. intros [ok p2] s2 H2. cbn [fst snd] in H2. destruct ok; cbn [negb].
  2:{ apply wp_ret. by exists p2. }
  change [93; 0] with ([93] ++ [0]). apply finish_call; [done|done|zlens|by rewrite app_assoc|done|done|zlens|by intros ->].
Qed.
(** ** Objects *)

Lemma indent_ok p pre d L k s : 0 < d -> zlen pre + zlen (indent fmt d) <= 2 ^ 30 -> pb_at p pre L k s ->
  wp (if fmt then
        r ← ensure p d; let '(ok, p) := r in
        if negb ok then mret (false, p) else p ← poke p (pb_offset p) (tabs d); mret (true, set_offset (pb_offset p + d) p)
      else mret (true, p))
    (fun r s' => if fst r : bool then pb_at (snd r) (pre ++ indent fmt d) L k s' else dead (snd r) L k s') s.
Proof using jheap.
  intros Hd Hb Hp. destruct fmt; cbn [indent] in *.
  - assert (zlen (tabs d) = d) as Hl by (rewrite zlen_tabs; lia).
    apply (append_call (tabs d) [] p pre d _ _ (fun p => mret (false, p)) (fun p => mret (true, p)) _ L k);
      [by rewrite app_nil_r|done|done|change (zlen (@nil Z)) with 0; lia|lia|by left| |].
    + intros p1 s1 H1. by apply wp_ret.
    + intros p1 s1 H1. by apply wp_ret.
  - apply wp_ret. cbn. by rewrite app_nil_r.
Qed.

Lemma object_items_ok l cs d p pre L k s : Forall (fun m => bprints (snd m)) l -> jv_ok (JObj l) -> all2 named l cs -> 0 < d <= zlen pre -> nonzero pre ->
  zlen pre + zlen (lines fmt (pair_text fmt d <$> (member_pair fmt d <$> l))) + 33 <= 2 ^ 30 -> pb_at p pre L k s ->
  wp (object_items pv cs d fmt p) (fun r s' => if fst r : bool
    then pb_or_dead (snd r) (pre ++ lines fmt (pair_text fmt d <$> (member_pair fmt d <$> l))) L k s' else dead (snd r) L k s') s.
Proof using jheap.
  intros HF. revert cs p pre s. induction HF as [|[key v] l Hv _ IH]; intros [|c cs] p pre s Hok Hall Hd Hpre Hb Hp; try done.
  { apply wp_ret. cbn. left. by rewrite app_nil_r. }
  destruct Hall as [[[a Hname] Hc] Hall]. destruct Hok as [[Hkey Hvok] Hok]. cbn [fst snd] in *. cbn [object_items]. rewrite Hname.
  cbn [fmap list_fmap lines] in *. unfold pair_text at 1 in Hb. unfold pair_text at 1. unfold member_text in *. cbn [fst snd member_pair] in *.
  set (t := render fmt d v) in *. set (colon := 58 :: (if fmt then [9] else [])) in *. set (nl := if fmt then [10] else []) in *.
  set (com := match cs with [] => [] | _ => [44] end).
  assert (match pair_text fmt d <$> (member_pair fmt d <$> l) with [] => [] | _ => [44] end = com) as Hcom by (by destruct l, cs). rewrite Hcom in *.
  set (r := lines fmt _) in *. assert (nonzero t) as Ht by (by apply nonzero_render). pose proof (nonzero_quote key Hkey) as Hq. pose proof (nonzero_indent fmt d) as Hin.
  assert (zlen colon = if fmt then 2 else 1) as Hcl by (by destruct fmt). assert (zlen nl = if fmt then 1 else 0) as Hnl by (by destruct fmt).
  eapply wp_call; [apply (indent_ok p pre d L k s); [lia|zlens|done]|]. intros [ok p1] s1 H1. cbn [fst snd] in H1. destruct ok; cbn [negb]; [|by apply wp_ret].
  eapply wp_call; [apply (emits_buffer_ok _ p1 (pre ++ indent fmt d) (quote key) L k s1); [by apply print_string_emits|by apply nonzero_app|done|zlens|done]|].
  intros r2 s2 H2. eapply wp_call; [eapply updated_part; [exact Hq|exact H2]|]. intros p3 s3 H3. cbv zeta. assert (0 < (if fmt then 2 else 1)) by (by destruct fmt).
  eapply (append_call colon [] p3 ((pre ++ indent fmt d) ++ quote key) _ _ _ _ (fun p => p' ← print_part pv c d p; _) _ L k); [by rewrite app_nil_r|by rewrite Hcl|done|zlens|zlens|exact H3| |].
  { intros p4 s4 H4. by apply wp_ret. }
  intros p4 s4 H4. eapply wp_call; [apply (print_part_ok v c d p4 (((pre ++ indent fmt d) ++ quote key) ++ colon) L k s4 Hv Hvok Hc); [zlens| | |exact H4]|].
  { repeat apply nonzero_app; [done|done|done|]. by destruct fmt; repeat constructor. } { fold t. zlens. }
  fold t. intros p5 s5 H5. rewrite <- Hnl.
  eapply (append_call (com ++ nl) [0] p5 ((((pre ++ indent fmt d) ++ quote key) ++ colon) ++ t) _ _ _ _ (fun p => object_items pv cs d fmt p) _ L k); [by rewrite <- app_assoc|zlens|zlens|zlens|zlens|exact H5| |].
  { intros p6 s6 H6. by apply wp_ret. }
  intros p6 s6 H6. eapply wp_mono; [eapply (IH cs p6 _ s6 Hok Hall)|]; [| | |exact H6|].
  - zlens.
  - repeat apply nonzero_app; try done; [by destruct fmt; repeat constructor|by unfold com; destruct cs; repeat constructor|by destruct fmt; repeat constructor].
  - fold r. zlens.
  - fold r. intros r7 s7. by rewrite <- !app_assoc.
Qed.

Lemma print_object_buffered_ok l cs d p pre L k s : l <> [] -> Forall (fun m => bprints (snd m)) l -> jv_ok (JObj l) -> all2 named l cs -> 0 <= d <= zlen pre -> nonzero pre ->
  zlen pre + zlen (render fmt d (JObj l)) + 32 <= 2 ^ 30 -> pb_at p pre L k s ->
  wp (print_object_buffered pv cs d fmt p) (part_post pre (render fmt d (JObj l)) L k) s.
Proof using jheap.
  intros Hne HF Hok Hall Hd Hpre Hb Hp. pose proof (nonzero_render _ Hok fmt d) as Hnz. rewrite render_obj in * by done. set (T := lines fmt _) in *.
  set (nl := if fmt then [10] else []) in *. assert (zlen nl = if fmt then 1 else 0) as Hnl by (by destruct fmt).
  assert (zlen (indent fmt d) = if fmt then d else 0) as Hin by (destruct fmt; [cbn [indent]; rewrite zlen_tabs; lia|done]).
  unfold print_object_buffered. assert (pb_offset p = zlen pre) as -> by (by destruct Hp as (? & _ & ? & _)).
  cbv zeta. fold nl. assert ((if fmt then 2 else 1) = zlen (123 :: nl)) as -> by (rewrite zlen_cons, Hnl; by destruct fmt).
  change (123 :: nl ++ T ++ indent fmt d ++ [125]) with ((123 :: nl) ++ T ++ indent fmt d ++ [125]) in *.
  replace (d + 1 - 1) with d by lia. assert ((if fmt then tabs d else []) = indent fmt d) as -> by done. pose proof (zlen_nonneg pre).
  eapply (append_call (123 :: nl) [0] p pre _ _ _ _ (fun p => r ← object_items pv cs (d + 1) fmt p; _) _ L k); [done|done|zlens|zlens|zlens|by left| |].
  { intros p1 s1 H1. apply wp_ret. by exists p1. }
  intros p1 s1 H1. eapply wp_call; [apply (object_items_ok l cs (d + 1) p1 (pre ++ 123 :: nl) L k); [done|done|done|zlens| |fold T; zlens|done]|].
  { apply nonzero_app; [done|]. constructor; [done|]. by destruct fmt; repeat constructor. }
  fold T. intros [ok p2] s2 H2. cbn [fst snd] in H2. destruct ok; cbn [negb].
  2:{ apply wp_ret. by exists p2. }
  replace (indent fmt d ++ [125; 0]) with ((indent fmt d ++ [125]) ++ [0]) by (by rewrite <- app_assoc).
  replace ((123 :: nl) ++ T ++ indent fmt d ++ [125]) with (((123 :: nl) ++ T) ++ indent fmt d ++ [125]) in * by (by rewrite <- !app_assoc).
  apply finish_call; [destruct fmt; lia| | |by rewrite app_assoc|done|done| |].
  - destruct fmt; zlens.
  - destruct fmt; zlens.
  - destruct fmt; zlens.
  - intros ->. change (zlen (@nil Z)) with 0 in *. destruct fmt; lia.
Qed.
End parts.

(** ** Values *)

Lemma print_value_buffer_ok fmt v : jv_ok v -> bprints fmt (fun c d => print_value c d fmt) v.
Proof using jheap.
  induction v as [|b|n|str|l IH|l IH] using jvalue_tree_ind; intros Hok c d p pre L k s Hc Hd Hpre Hb Hp; pose proof (nonzero_render _ Hok fmt d) as Hnz;
    destruct c as [a t vs vi vd nm kids]; cbn [json_of c_type] in Hc; cbn [print_value c_type].
  - rewrite Hc. cbn [render] in *. change (zlen lit_null) with 4 in *. apply emit_buffer_ok; try done. lia.
  - rewrite Hc. destruct b; cbn [render] in *; [change (zlen lit_true) with 4 in *|change (zlen lit_false) with 5 in *]; apply emit_buffer_ok; try done; lia.
  - destruct Hc as (-> & Hi & Hv). by apply emits_buffer_ok; [apply print_number_emits| | | |].
  - destruct Hc as (-> & x & Hs). unfold print_string. rewrite Hs. by apply emits_buffer_ok; [apply print_string_emits| | | |].
  - destruct Hc as [-> Hk]. cbn [child] in Hk. cbn. unfold print_array. cbn [child]. cbn [jv_ok] in Hok. apply all1_Forall in Hok. destruct kids as [|x kids].
    + destruct l as [|v l]; [|done]. cbn [render map joined app] in *. apply emit_buffer_ok; try done. zlens.
    + apply print_array_buffered_ok; try done. apply Forall_forall. intros v Hv. apply (proj1 (Forall_forall _ _) IH v Hv). by apply (proj1 (Forall_forall _ _) Hok v).
  - destruct Hc as [-> Hk]. cbn [child] in Hk. cbn. unfold print_object. cbn [child]. destruct kids as [|x kids].
    + destruct l as [|v l]; [|done]. cbn [render] in *. pose proof (zlen_tabs (d - 1)). apply emit_buffer_ok; try done; destruct fmt; cbn [app] in *; zlens.
    + apply print_object_buffered_ok; [by destruct l| |exact Hok|exact Hk|done|done|done|done].
      cbn [jv_ok] in Hok. apply all1_Forall in Hok. apply Forall_forall. intros m Hm. apply (proj1 (Forall_forall _ _) IH m Hm).
      pose proof (proj1 (Forall_forall _ _) Hok m Hm) as Hm'. by destruct m, Hm'.
Qed.
End buffered.
