(* ===== verification/CJsonParseProof.v ===== *)
(** The parser of [CJsonParse] on the texts of [CJsonHeap], which it reads whatever the
    formatting, and on [\u] escapes, which it turns into UTF-8; it fails only if an
    allocation has failed. *)
From Stdlib Require Import ZArith Lia Bool.
From S2P Require Import Prelude CSem CDouble CJson CJsonParse CJsonPrint CJsonHeap CJsonPrintProof.
From stdpp Require Import base list numbers option gmap.

Open Scope Z_scope.

(** ** Computations that change no state *)

Definition gives {A} (m : C json A) (a : A) : Prop := forall s, m s = Done (a, s).

Lemma gives_ret {A} (a : A) : gives (mret a) a.
Proof. done. Qed.

Lemma gives_bind {A B} (m : C json A) a (k : A -> C json B) b : gives m a -> gives (k a) b -> gives (m ≫= k) b.
Proof. intros Hm Hk s. unfold mbind, C_bind. rewrite Hm. apply Hk. Qed.

Lemma gives_wp {A B} (m : C json A) a (k : A -> C json B) Q s : gives m a -> wp (k a) Q s -> wp (m ≫= k) Q s.
Proof. intros Hm Hk. apply wp_bind. unfold wp at 1. by rewrite Hm. Qed.

Lemma loop_next {L R} n (body : L -> C json (ctl L R)) l l' r : gives (body l) (Next l') -> gives (loop n body l') r -> gives (loop (S n) body l) r.
Proof. intros Hb Hl. cbn [loop]. by eapply gives_bind. Qed.

Lemma loop_exit {L R} n (body : L -> C json (ctl L R)) l l' : gives (body l) (Exit l') -> gives (loop (S n) body l) (inl l').
Proof. intros Hb. cbn [loop]. by eapply gives_bind. Qed.

Lemma gives_while {L} n (body : L -> C json (ctl L unit)) l l' : gives (loop n body l) (inl l') -> gives (while n body l) l'.
Proof. intros H. unfold while. by eapply gives_bind. Qed.

Definition is_ws (l : list Z) : Prop := Forall (fun c => 0 < c <= 32) l.
(** What may follow a number. *)
Definition delim (c : Z) : Prop := isdigit c = false /\ c <> 46 /\ c <> 101 /\ c <> 69.

Lemma ws_delim c : 0 < c <= 32 -> delim c.
Proof. intros Hc. unfold delim, isdigit. rewrite (proj2 (Z.leb_gt _ _)) by lia. split; [done|lia]. Qed.

Section text.
Context {env : JsonEnv} {jheap : JsonHeap}.
Variable txt : list Z.
#[local] Notation rd := (rd txt).
#[local] Notation fuel := (fuel txt).

(** The text from [i] on is [l]. *)
Definition here (i : Z) (l : list Z) : Prop := 0 <= i /\ drop (Z.to_nat i) txt = l.

Lemma here_len i l : here i l -> l <> [] -> i + zlen l = zlen txt.
Proof using. intros [Hi <-] Hl. unfold zlen in *. rewrite length_drop. destruct (Nat.le_gt_cases (length txt) (Z.to_nat i)); [|lia]. by rewrite drop_ge in Hl. Qed.

Lemma here_lt i t c l : here i (t ++ c :: l) -> i < zlen txt.
Proof using.
  intros H. pose proof (here_len _ _ H ltac:(by destruct t)) as Hl. rewrite zlen_app in Hl. unfold zlen in *. cbn [length] in Hl. lia.
Qed.

Lemma here_app i l r : here i (l ++ r) -> here (i + zlen l) r.
Proof using. intros [Hi H]. unfold zlen. split; [lia|]. replace (Z.to_nat _) with (Z.to_nat i + length l)%nat by lia. by rewrite <- drop_drop, H, drop_app_length. Qed.

Lemma here_cons i c l : here i (c :: l) -> here (i + 1) l.
Proof using. apply (here_app i [c] l). Qed.

Lemma rd_here i c l : here i (c :: l) -> gives (rd i) c.
Proof using.
  intros H. pose proof (here_len i (c :: l) H ltac:(done)) as Hl. rewrite zlen_cons in Hl. pose proof (zlen_nonneg l). destruct H as [Hi H].
  intros s. unfold CJsonParse.rd. rewrite (proj2 (Z.leb_le _ _)), (proj2 (Z.ltb_lt _ _)) by lia. cbn [andb]. unfold zget.
  assert (txt !!! Z.to_nat i = c) as ->; [|done]. apply list_lookup_total_correct. rewrite <- (Nat.add_0_r (Z.to_nat i)), <- lookup_drop, H. done.
Qed.

Lemma fuel_here i l : here i l -> (length l < fuel)%nat.
Proof using. intros [_ <-]. unfold CJsonParse.fuel. rewrite length_drop. lia. Qed.

(** ** White space and words *)

Lemma skip_loop n i ws c l : here i (ws ++ c :: l) -> is_ws ws -> c = 0 \/ 32 < c -> (length ws < n)%nat -> gives (loop n (skip_body txt) i) (inl (i + zlen ws)).
Proof using.
  intros Hh Hws Hc Hn. revert i ws Hh Hws Hn. induction n as [|n IH]; intros i ws Hh Hws Hn; [lia|]. destruct Hws as [|w ws Hw Hws].
  - apply loop_exit. eapply gives_bind; [eapply rd_here; exact Hh|]. replace (i + zlen []) with i by (unfold zlen; cbn; lia).
    destruct Hc as [-> | Hc]; [done|]. by rewrite (proj2 (Z.leb_gt c 32)), andb_false_r by lia.
  - eapply loop_next.
    + eapply gives_bind; [by eapply (rd_here _ w)|]. rewrite (proj2 (Z.leb_le w 32)), (proj2 (Z.eqb_neq w 0)) by lia. apply gives_ret.
    + replace (i + zlen (w :: ws)) with (i + 1 + zlen ws) by (rewrite zlen_cons; lia). apply IH; [by eapply here_cons|done|cbn in Hn; lia].
Qed.

Lemma skip_here i ws c l : here i (ws ++ c :: l) -> is_ws ws -> c = 0 \/ 32 < c -> gives (skip txt (Some i)) (Some (i + zlen ws)).
Proof using.
  intros Hh Hws Hc. unfold skip. eapply gives_bind; [apply gives_while; eapply (skip_loop _ i ws c l); [done|done|done|]|done].
  pose proof (fuel_here i _ Hh) as Hf. rewrite length_app in Hf. lia.
Qed.

Lemma skip_none i c l : here i (c :: l) -> c = 0 \/ 32 < c -> gives (skip txt (Some i)) (Some i).
Proof using. intros Hh Hc. rewrite <- (Z.add_0_r i) at 2. apply (skip_here i [] c l); [done|constructor|done]. Qed.

Lemma starts_with_here i w l : here i (w ++ l) -> gives (starts_with txt i w) true.
Proof using.
  revert i. induction w as [|c w IH]; intros i Hh; [done|]. cbn [starts_with]. eapply gives_bind; [by eapply rd_here|].
  rewrite Z.eqb_refl. apply IH. by eapply here_cons.
Qed.

Lemma starts_with_not i c w l b : here i (b :: l) -> b <> c -> gives (starts_with txt i (c :: w)) false.
Proof using. intros Hh Hb. cbn [starts_with]. eapply gives_bind; [by eapply rd_here|]. by rewrite (proj2 (Z.eqb_neq _ _)) by done. Qed.

(** ** Numbers *)

Definition dec_value (acc : Z) (l : list Z) : Z := foldl (fun a c => a * 10 + (c - 48)) acc l.

Lemma dec_value_ge l acc : Forall (fun c => isdigit c = true) l -> 0 <= acc -> acc <= dec_value acc l.
Proof using.
  intros Hl. revert acc. induction Hl as [|c l Hc _ IH]; intros acc Ha; [cbn; lia|]. unfold isdigit in Hc. bools. specialize (IH (acc * 10 + (c - 48)) ltac:(lia)).
  cbn [dec_value foldl]. unfold dec_value in IH. lia.
Qed.

Lemma digits_loop_here n acc i ds c l : here i (ds ++ c :: l) -> Forall (fun c => isdigit c = true) ds -> ds <> [] -> isdigit c = false ->
  0 <= acc -> dec_value acc ds < 2 ^ 53 -> (length ds <= n)%nat ->
  gives (loop n (digits_body txt false) (d_of_Z acc, d_of_Z 0, i)) (inl (d_of_Z (dec_value acc ds), d_of_Z 0, i + zlen ds)).
Proof using.
  intros Hh Hds Hne Hc Ha Hb Hn. revert acc i ds Hh Hds Hne Ha Hb Hn. induction n as [|n IH]; intros acc i ds Hh Hds Hne Ha Hb Hn; [by destruct ds; [|cbn in Hn; lia]|].
  destruct Hds as [|d ds Hd Hds]; [done|]. cbn [app] in Hh. pose proof (here_cons _ _ _ Hh) as Hh1. cbn [dec_value foldl] in *.
  pose proof (dec_value_ge ds (acc * 10 + (d - 48)) Hds) as Hge. unfold isdigit in Hd. bools. unfold dec_value in *.
  assert (dadd (dmul (d_of_Z acc) (d_of_Z 10)) (d_of_Z (d - 48)) = d_of_Z (acc * 10 + (d - 48))) as Hacc.
  { rewrite dmul_nat by lia. rewrite dadd_nat by lia. done. }
  rewrite zlen_cons. replace (i + (zlen ds + 1)) with (i + 1 + zlen ds) by lia. destruct ds as [|d' ds].
  - apply loop_exit. eapply gives_bind; [by eapply rd_here|]. cbv zeta. rewrite Hacc. eapply gives_bind; [by eapply rd_here|]. rewrite Hc. replace (i + 1 + zlen []) with (i + 1) by (unfold zlen; cbn; lia). done.
  - eapply loop_next; [|apply (IH _ _ (d' :: ds)); [done|done|done|lia|done|cbn in *; lia]].
    eapply gives_bind; [by eapply rd_here|]. cbv zeta. rewrite Hacc. eapply gives_bind; [by eapply rd_here|]. apply Forall_inv in Hds. by rewrite Hds.
Qed.

Lemma dec_digits_spec f v : 0 <= v -> (Z.to_nat v < f)%nat ->
  Forall (fun c => isdigit c = true) (dec_digits f v) /\ dec_value 0 (dec_digits f v) = v /\
  exists c l, dec_digits f v = c :: l /\ (0 < v -> 49 <= c <= 57).
Proof using.
  revert v. induction f as [|f IH]; intros v Hv Hf; [lia|]. cbn [dec_digits]. destruct (Z.ltb_spec v 10).
  - split; [repeat constructor; unfold isdigit; rewrite !(proj2 (Z.leb_le _ _)) by lia; done|]. split; [cbn; lia|]. exists (48 + v), []. split; [done|lia].
  - destruct (IH (v / 10)) as (H1 & H2 & c & l & H3 & H4); [Z.to_euclidean_division_equations; lia|Z.to_euclidean_division_equations; lia|].
    split; [|split].
    + apply Forall_app. split; [done|]. repeat constructor. unfold isdigit. rewrite !(proj2 (Z.leb_le _ _)) by (Z.to_euclidean_division_equations; lia). done.
    + unfold dec_value in *. rewrite foldl_app, H2. cbn. Z.to_euclidean_division_equations. lia.
    + exists c, (l ++ [48 + v mod 10]). rewrite H3. split; [done|]. intros _. apply H4. Z.to_euclidean_division_equations. lia.
Qed.

Lemma no_exponent i c l : here i (c :: l) -> delim c -> gives (parse_exponent txt i) (0, 1, i).
Proof using.
  intros Hh (_ & _ & H1 & H2). unfold parse_exponent. eapply gives_bind; [by eapply rd_here|]. by rewrite !(proj2 (Z.eqb_neq _ _)) by done.
Qed.

End text.

(** [pow(x, 0)] is 1. *)
Class JsonMath {env : JsonEnv} : Prop := { pow_zero x : libm_pow x (d_of_Z 0) = d_of_Z 1 }.

Section number.
Context {env : JsonEnv} {math : JsonMath}.
Variable txt : list Z.
#[local] Notation here := (here txt).

(** Behind the integer part [n] with its sign: the item. *)
Lemma number_tail_here (item : cJSON) sgn n i c l : here i (c :: l) -> delim c -> - 2 ^ 31 <= sgn * n < 2 ^ 31 -> 0 <= n ->
  (sgn = 1 \/ sgn = -1 /\ n <> 0) ->
  gives (c ← rd txt i;
    c1 ← (if c =? 46 then rd txt (i + 1) else mret 0);
    r ← (if isdigit c1 then while (fuel txt) (digits_body txt true) (d_of_Z n, d_of_Z 0, i + 1) else mret (d_of_Z n, d_of_Z 0, i));
    let '(n, scale, num) := r in
    r ← parse_exponent txt num;
    let '(subscale, signsubscale, num) := r in
    let n := dmul (dmul (d_of_Z sgn) n) (libm_pow (d_of_Z 10) (dadd scale (d_of_Z (subscale * signsubscale)))) in
    match d_to_int n with
    | None => undefined
    | Some i => mret (set_type cJSON_Number (set_numbers i n item), Some num)
    end) (set_type cJSON_Number (set_numbers (sgn * n) (d_of_Z (sgn * n)) item), Some i).
Proof using math.
  intros Hh Hd Hr Hn Hs. eapply gives_bind; [by eapply rd_here|]. pose proof Hd as (_ & H46 & _). rewrite (proj2 (Z.eqb_neq c 46)) by done.
  eapply gives_bind; [apply gives_ret|]. change (isdigit 0) with false. cbv iota. eapply gives_bind; [apply gives_ret|]. cbv beta iota.
  eapply gives_bind; [by eapply no_exponent|]. cbv beta iota zeta. change (dadd (d_of_Z 0) (d_of_Z (0 * 1))) with (d_of_Z 0). rewrite pow_zero.
  assert (dmul (d_of_Z sgn) (d_of_Z n) = d_of_Z (sgn * n)) as ->.
  { destruct (Z.eq_dec n 0) as [-> | Hn0].
    - destruct Hs as [-> | [-> ?]]; done.
    - pose proof (dmul_sign (sgn * n) ltac:(lia) ltac:(lia)) as H. replace (Z.sgn (sgn * n)) with sgn in H by lia. replace (Z.abs (sgn * n)) with n in H by lia. exact H. }
  rewrite dmul_1 by lia. rewrite d_to_int_ok by done. apply gives_ret.
Qed.

Lemma parse_number_here item n i c l : here i (fmt_d n ++ c :: l) -> delim c -> - 2 ^ 31 <= n < 2 ^ 31 ->
  gives (parse_number txt item i) (set_type cJSON_Number (set_numbers n (d_of_Z n) item), Some (i + zlen (fmt_d n))).
Proof using math.
  intros Hh Hd Hn. pose proof Hd as (Hnd & _ & _ & _).
  assert (forall i m sgn, here i (dec_nat m ++ c :: l) -> 0 <= m -> sgn = 1 \/ sgn = -1 /\ m <> 0 -> - 2 ^ 31 <= sgn * m < 2 ^ 31 ->
    gives (c ← rd txt i; let num := if c =? 48 then i + 1 else i in c ← rd txt num;
      r ← (if (49 <=? c) && (c <=? 57) then while (fuel txt) (digits_body txt false) (d_of_Z 0, d_of_Z 0, num) else mret (d_of_Z 0, d_of_Z 0, num));
      let '(n, scale, num) := r in
      c ← rd txt num;
      c1 ← (if c =? 46 then rd txt (num + 1) else mret 0);
      r ← (if isdigit c1 then while (fuel txt) (digits_body txt true) (n, scale, num + 1) else mret (n, scale, num));
      let '(n, scale, num) := r in
      r ← parse_exponent txt num;
      let '(subscale, signsubscale, num) := r in
      let n := dmul (dmul (d_of_Z sgn) n) (libm_pow (d_of_Z 10) (dadd scale (d_of_Z (subscale * signsubscale)))) in
      match d_to_int n with
      | None => undefined
      | Some i => mret (set_type cJSON_Number (set_numbers i n item), Some num)
      end) (set_type cJSON_Number (set_numbers (sgn * m) (d_of_Z (sgn * m)) item), Some (i + zlen (dec_nat m)))) as Habs.
  { clear i n Hh Hn. intros i m sgn Hh Hm Hs Hr. destruct (dec_digits_spec (Z.to_nat m + 1) m Hm ltac:(lia)) as (H1 & H2 & d & ds & H3 & H4).
    fold (dec_nat m) in *. rewrite H3 in Hh. cbn [app] in Hh. eapply gives_bind; [by eapply rd_here|]. cbv zeta. destruct (Z.eq_dec m 0) as [-> | Hm0].
    - change (dec_nat 0) with [48] in *. injection H3 as <- <-. change (48 =? 48) with true. cbv iota. apply here_cons in Hh. cbn [app] in Hh.
      eapply gives_bind; [by eapply rd_here|]. assert ((49 <=? c) && (c <=? 57) = false) as ->.
      { unfold isdigit in Hnd. destruct (Z.leb_spec 49 c), (Z.leb_spec c 57); try done. rewrite (proj2 (Z.leb_le _ _)) in Hnd by lia. done. }
      eapply gives_bind; [apply gives_ret|]. cbv beta iota. by apply (number_tail_here item sgn 0 (i + 1) c l).
    - specialize (H4 ltac:(lia)). rewrite (proj2 (Z.eqb_neq d 48)) by lia. eapply gives_bind; [by eapply rd_here|].
      rewrite !(proj2 (Z.leb_le _ _)) by lia. cbn [andb]. rewrite H3 in H1, H2 |- *.
      eapply gives_bind; [apply gives_while; apply (digits_loop_here txt _ 0 i (d :: ds) c l); [done|done|done|done|done|lia|]|].
      { pose proof (fuel_here txt i _ Hh) as Hf. cbn [length] in *. rewrite length_app in Hf. lia. }
      cbv beta iota. rewrite H2. apply number_tail_here with (c := c) (l := l); [|done|done|done|done]. apply (here_app txt i (d :: ds)). exact Hh. }
  unfold parse_number, fmt_d in *. destruct (Z.ltb_spec n 0).
  - cbn [app] in Hh. eapply gives_bind; [by eapply rd_here|]. change (45 =? 45) with true. cbv beta iota. rewrite zlen_cons. apply here_cons in Hh.
    pose proof (Habs (i + 1) (- n) (-1) Hh ltac:(lia) ltac:(lia) ltac:(lia)) as H'. replace (-1 * - n) with n in H' by lia.
    replace (i + (zlen (dec_nat (- n)) + 1)) with (i + 1 + zlen (dec_nat (- n))) by lia. exact H'.
  - pose proof (Habs i n 1 Hh ltac:(lia) ltac:(lia) ltac:(lia)) as H'. rewrite Z.mul_1_l in H'.
    destruct (dec_digits_spec (Z.to_nat n + 1) n ltac:(lia) ltac:(lia)) as (H1 & _ & d & ds & H3 & _). fold (dec_nat n) in *. rewrite H3 in Hh.
    eapply gives_bind; [by eapply rd_here|]. rewrite H3 in H1. apply Forall_inv in H1. unfold isdigit in H1. bools. rewrite (proj2 (Z.eqb_neq d 45)) by lia. exact H'.
Qed.
End number.

(** ** Strings *)

(** How a character is written: itself, behind a backslash, or as four digits. *)
Lemma escape_cases c : 0 < c < 256 ->
  (escape c = [c] /\ c <> 34 /\ c <> 92) \/
  (exists x, escape c = [92; x] /\ escape_char x = c /\ x <> 117) \/
  (escape c = [92; 117; 48; 48; hex_char (c / 16); hex_char (c mod 16)] /\ c < 32).
Proof.
  intros Hc. unfold escape. destruct ((31 <? c) && negb (c =? 34) && negb (c =? 92)) eqn:E.
  - left. bools. split; [done|lia].
  - right. repeat match goal with |- context [c =? ?n] => destruct (Z.eqb_spec c n) as [-> | ?]; [left; eexists; done|] end.
    right. split; [done|]. destruct (Z.ltb_spec 31 c); [done|lia].
Qed.

Lemma hex_value_char d : 0 <= d < 16 -> hex_value (hex_char d) = Some d.
Proof.
  intros Hd. unfold hex_char, hex_value. destruct (Z.ltb_spec d 10).
  - rewrite !(proj2 (Z.leb_le _ _)) by lia. cbn [andb]. f_equal. lia.
  - rewrite (proj2 (Z.leb_gt (87 + d) 57)), (proj2 (Z.leb_gt (87 + d) 70)), !(proj2 (Z.leb_le _ _)) by lia. cbn [andb]. f_equal. lia.
Qed.

Lemma utf8_ascii c : 0 <= c < 128 -> utf8_bytes c = [c].
Proof.
  intros Hc. unfold utf8_bytes, utf8_len. rewrite (proj2 (Z.ltb_lt c 128)) by lia. change ([u8 (Z.lor c 0)] = [c]). rewrite Z.lor_0_r. by rewrite u8_small by lia.
Qed.

Section strings.
Context {env : JsonEnv} {jheap : JsonHeap}.
Variable txt : list Z.
#[local] Notation here := (here txt).

(** The first pass over [n] iterations. *)
Lemma string_len_here s n i len l : string_ok s -> here i ((s ≫= escape) ++ 34 :: l) -> (length (s ≫= escape) < n)%nat ->
  exists len', len + zlen s <= len' /\ gives (loop n (string_len_body txt) (i, len)) (inl (i + zlen (s ≫= escape), len')).
Proof using.
  intros Hs. revert n i len. induction Hs as [|c s Hc _ IH]; intros n i len Hh Hn.
  { exists len. rewrite zlen_nil. split; [lia|]. destruct n as [|n]; [cbn in Hn; lia|]. apply loop_exit. cbn in Hh. eapply gives_bind; [by eapply rd_here|].
    cbn. by rewrite Z.add_0_r. }
  change ((c :: s) ≫= escape) with (escape c ++ (s ≫= escape)) in *. rewrite <- app_assoc in Hh. rewrite zlen_app, zlen_cons. rewrite length_app in Hn.
  destruct (escape_cases c Hc) as [(E & H34 & H92) | [(x & E & Hx & H117) | (E & H32)]]; rewrite E in *; cbn [app length] in *.
  - destruct n as [|n]; [lia|]. destruct (IH n (i + 1) (len + 1)) as (len' & Hl & H); [by eapply here_cons|lia|]. exists len'. split; [lia|].
    eapply loop_next; [eapply gives_bind; [by eapply rd_here|]|].
    + rewrite !(proj2 (Z.eqb_neq _ _)) by lia. cbn [negb andb]. apply gives_ret.
    + replace (i + (zlen [c] + zlen (s ≫= escape))) with (i + 1 + zlen (s ≫= escape)) by (unfold zlen at 2; cbn [length]; lia). exact H.
  - destruct n as [|n]; [lia|]. destruct (IH n (i + 1 + 1) (len + 1)) as (len' & Hl & H); [by do 2 eapply here_cons|lia|]. exists len'. split; [lia|].
    eapply loop_next; [eapply gives_bind; [by eapply rd_here|]; apply gives_ret|].
    replace (i + (zlen [92; x] + zlen (s ≫= escape))) with (i + 1 + 1 + zlen (s ≫= escape)) by (unfold zlen at 2; cbn [length]; lia). exact H.
  - pose proof (hex_char_pos (c / 16) ltac:(Z.to_euclidean_division_equations; lia)) as Hp1. pose proof (hex_char_pos (c mod 16) ltac:(Z.to_euclidean_division_equations; lia)) as Hp2.
    assert (forall d, hex_char d <> 34 /\ hex_char d <> 92 \/ d < 0 \/ 16 <= d) as Hq.
    { intros d. unfold hex_char. destruct (Z.ltb_spec d 10); lia. }
    assert (0 <= c / 16 < 16 /\ 0 <= c mod 16 < 16) as [Hd1 Hd2] by (Z.to_euclidean_division_equations; lia).
    destruct (Hq (c / 16)) as [[Hq1 Hr1]|?]; [|lia]. destruct (Hq (c mod 16)) as [[Hq2 Hr2]|?]; [|lia].
    do 5 (destruct n as [|n]; [lia|]). destruct (IH n (i + 1 + 1 + 1 + 1 + 1 + 1) (len + 1 + 1 + 1 + 1 + 1)) as (len' & Hl & H); [by do 6 eapply here_cons|lia|]. exists len'. split; [lia|].
    eapply loop_next; [eapply gives_bind; [by eapply rd_here|]; apply gives_ret|]. do 2 apply here_cons in Hh.
    eapply loop_next; [eapply gives_bind; [by eapply rd_here|]; apply gives_ret|]. apply here_cons in Hh.
    eapply loop_next; [eapply gives_bind; [by eapply rd_here|]; apply gives_ret|]. apply here_cons in Hh.
    eapply loop_next; [eapply gives_bind; [by eapply rd_here|]; rewrite !(proj2 (Z.eqb_neq _ _)) by done; apply gives_ret|]. apply here_cons in Hh.
    eapply loop_next; [eapply gives_bind; [by eapply rd_here|]; rewrite !(proj2 (Z.eqb_neq _ _)) by done; apply gives_ret|].
    replace (i + (zlen [92; 117; 48; 48; hex_char (c / 16); hex_char (c mod 16)] + zlen (s ≫= escape))) with (i + 1 + 1 + 1 + 1 + 1 + 1 + zlen (s ≫= escape)) by (unfold zlen at 2; cbn [length]; lia).
    exact H.
Qed.

Lemma put_gives cap buf t : zlen buf + zlen t <= cap -> gives (put cap buf t) (buf ++ t).
Proof using. intros H. by rewrite put_eq. Qed.

Lemma hex4_here i a b l : here i (48 :: 48 :: hex_char a :: hex_char b :: l) -> 0 <= a < 16 -> 0 <= b < 16 -> gives (parse_hex4 txt i) (a * 16 + b).
Proof using.
  intros Hh Ha Hb. unfold parse_hex4. cbn [hex4_loop].
  eapply gives_bind; [by eapply rd_here|]. apply here_cons in Hh. cbn. eapply gives_bind; [by eapply rd_here|]. apply here_cons in Hh. cbn.
  eapply gives_bind; [by eapply rd_here|]. apply here_cons in Hh. rewrite hex_value_char by done. eapply gives_bind; [by eapply rd_here|]. rewrite hex_value_char by done.
  cbn [hex4_loop]. rewrite Z.shiftl_mul_pow2 by lia. apply gives_ret.
Qed.

(** The second pass. *)
Lemma string_body_here s n cap i buf l : string_ok s -> here i ((s ≫= escape) ++ 34 :: l) -> (length (s ≫= escape) < n)%nat -> zlen buf + zlen s <= cap ->
  gives (loop n (string_body txt cap) (i, buf)) (inl (i + zlen (s ≫= escape), buf ++ s)).
Proof using.
  intros Hs. revert n i buf. induction Hs as [|c s Hc _ IH]; intros n i buf Hh Hn Hcap.
  { destruct n as [|n]; [cbn in Hn; lia|]. apply loop_exit. cbn in Hh. eapply gives_bind; [by eapply rd_here|]. cbn. by rewrite Z.add_0_r, app_nil_r. }
  change ((c :: s) ≫= escape) with (escape c ++ (s ≫= escape)) in *. rewrite <- app_assoc in Hh. rewrite zlen_app. rewrite zlen_cons in Hcap. rewrite length_app in Hn.
  destruct n as [|n]; [lia|]. replace (buf ++ c :: s) with ((buf ++ [c]) ++ s) by (by rewrite <- app_assoc). pose proof (zlen_nonneg s).
  assert (gives (put cap buf [c]) (buf ++ [c])) as Hput by (apply put_gives; rewrite zlen_cons, zlen_nil; lia).
  destruct (escape_cases c Hc) as [(E & H34 & H92) | [(x & E & Hx & H117) | (E & H32)]]; rewrite E in *; cbn [app length] in *.
  - eapply loop_next.
    + eapply gives_bind; [by eapply rd_here|]. rewrite !(proj2 (Z.eqb_neq _ _)) by lia. cbn [negb andb]. eapply gives_bind; [exact Hput|apply gives_ret].
    + replace (i + (zlen [c] + zlen (s ≫= escape))) with (i + 1 + zlen (s ≫= escape)) by (unfold zlen at 2; cbn [length]; lia).
      apply IH; [by eapply here_cons|lia|rewrite zlen_app, zlen_cons, zlen_nil; lia].
  - eapply loop_next.
    + eapply gives_bind; [by eapply rd_here|]. cbn [negb andb Z.eqb Pos.eqb]. apply here_cons in Hh. eapply gives_bind; [by eapply rd_here|].
      rewrite (proj2 (Z.eqb_neq _ _)) by done. eapply gives_bind; [eapply gives_bind; [rewrite Hx; exact Hput|apply gives_ret]|apply gives_ret].
    + replace (i + (zlen [92; x] + zlen (s ≫= escape))) with (i + 1 + 1 + zlen (s ≫= escape)) by (unfold zlen at 2; cbn [length]; lia).
      apply IH; [by do 2 eapply here_cons|lia|rewrite zlen_app, zlen_cons, zlen_nil; lia].
  - assert (0 <= c / 16 < 16 /\ 0 <= c mod 16 < 16 /\ c = c / 16 * 16 + c mod 16) as (Hd1 & Hd2 & Hdc) by (Z.to_euclidean_division_equations; lia).
    eapply loop_next.
    + eapply gives_bind; [by eapply rd_here|]. cbn [negb andb Z.eqb Pos.eqb]. pose proof (here_cons _ _ _ _ Hh) as Hh1. eapply gives_bind; [by eapply rd_here|].
      cbn [Z.eqb Pos.eqb]. eapply (gives_bind _ (i + 1 + 4, buf ++ [c])); [|apply gives_ret]. unfold unicode_escape. apply here_cons in Hh1.
      eapply gives_bind; [by eapply (hex4_here _ (c / 16) (c mod 16))|]. rewrite <- Hdc. cbv zeta.
      rewrite (proj2 (Z.leb_gt 0xDC00 c)), (proj2 (Z.eqb_neq c 0)), (proj2 (Z.leb_gt 0xD800 c)) by lia. cbn [andb orb]. rewrite utf8_ascii by lia.
      eapply gives_bind; [exact Hput|apply gives_ret].
    + replace (i + (zlen [92; 117; 48; 48; hex_char (c / 16); hex_char (c mod 16)] + zlen (s ≫= escape))) with (i + 1 + 4 + 1 + zlen (s ≫= escape)) by (unfold zlen at 2; cbn [length]; lia).
      apply IH; [|lia|rewrite zlen_app, zlen_cons, zlen_nil; lia]. replace (i + 1 + 4 + 1) with (i + 1 + 1 + 1 + 1 + 1 + 1) by lia. by do 6 eapply here_cons.
Qed.

(** The item with the string, or the item as it was. *)
Lemma parse_string_here item s i l L k st : string_ok s -> here i (quote s ++ l) -> l <> [] -> heap L k st ->
  wp (parse_string txt item i) (fun r st' => ep st' = ep st /\ match snd r with
    | None => fst r = item /\ heap L (S k) st'
    | Some i' => i' = i + zlen (quote s) /\ exists a, fst r = set_type cJSON_String (set_valuestring (Some (mkCstr a s)) item) /\ heap (a :: L) k st'
    end) st.
Proof using jheap.
  intros Hs Hh Hl Hst. unfold quote in Hh. cbn [app] in Hh. rewrite <- app_assoc in Hh. cbn [app] in Hh. unfold parse_string.
  eapply gives_wp; [by eapply rd_here|]. cbn [Z.eqb Pos.eqb negb]. pose proof (here_cons _ _ _ _ Hh) as Hh1. pose proof (fuel_here _ _ _ Hh1) as Hf. rewrite length_app in Hf.
  destruct (string_len_here s (fuel txt) (i + 1) 0 l Hs Hh1 ltac:(lia)) as (len & Hlen & Hg).
  eapply gives_wp; [by apply gives_while|]. cbn [snd]. cbv zeta. eapply wp_call; [by apply jmalloc_ok|]. intros [a|] st1 [He H1].
  2:{ apply wp_ret. by split. }
  pose proof (zlen_nonneg s). eapply gives_wp; [apply gives_while; by apply (string_body_here s _ (len + 1) _ [] l); [| |lia|rewrite zlen_nil; lia]|]. cbv beta iota.
  eapply gives_wp; [apply put_gives; rewrite app_nil_l, zlen_cons, zlen_nil; lia|].
  pose proof (here_app _ _ _ _ Hh1) as Hh2. eapply gives_wp; [by eapply rd_here|]. apply wp_ret. cbn [fst snd Z.eqb Pos.eqb app]. split; [done|]. split.
  - unfold quote. rewrite zlen_cons, zlen_app, zlen_cons, zlen_nil. lia.
  - exists a. split; [|done]. rewrite before_nul_all; [done|]. eapply Forall_impl; [exact Hs|]. intros c Hc. cbv beta in Hc. lia.
Qed.
End strings.

(** The [\u] escapes of [CJsonParse]: UTF-16 code units become UTF-8. *)

(** ** UTF-8 and UTF-16 *)

(** The code points of characters, but for zero. *)
Definition scalar (cp : Z) : Prop := 0 < cp < 0x110000 /\ ~ (0xD800 <= cp < 0xE000).

Definition utf8 (cp : Z) : list Z :=
  if cp <? 0x80 then [cp]
  else if cp <? 0x800 then [0xC0 + cp / 64; 0x80 + cp mod 64]
  else if cp <? 0x10000 then [0xE0 + cp / 4096; 0x80 + cp / 64 mod 64; 0x80 + cp mod 64]
  else [0xF0 + cp / 262144; 0x80 + cp / 4096 mod 64; 0x80 + cp / 64 mod 64; 0x80 + cp mod 64].

Definition hex4 (u : Z) : list Z := [hex_char (u / 4096); hex_char (u / 256 mod 16); hex_char (u / 16 mod 16); hex_char (u mod 16)].

(** A character as one escape, or as two for a surrogate pair. *)
Definition u_escape (cp : Z) : list Z :=
  if cp <? 0x10000 then 92 :: 117 :: hex4 cp
  else (92 :: 117 :: hex4 (0xD800 + (cp - 0x10000) / 1024)) ++ (92 :: 117 :: hex4 (0xDC00 + (cp - 0x10000) mod 1024)).

Lemma cont_byte u : 0 <= u -> u8 (Z.land (Z.lor u 0x80) 0xBF) = 0x80 + u mod 64.
Proof.
  intros Hu. rewrite Z.land_lor_distr_l. assert (Z.land u 0xBF = Z.land (u mod 256) 0xBF) as -> by (rewrite <- land_255, <- Z.land_assoc; done).
  change (Z.land 0x80 0xBF) with 0x80. assert (u mod 64 = (u mod 256) mod 64) as -> by (Z.to_euclidean_division_equations; lia).
  apply Z.eqb_eq. apply (byte_cases (fun c => u8 (Z.lor (Z.land c 0xBF) 0x80) =? 0x80 + c mod 64)); [by vm_compute|]. Z.to_euclidean_division_equations. lia.
Qed.

Lemma lead_byte n x : (n = 2 /\ 0 <= x < 32) \/ (n = 3 /\ 0 <= x < 16) \/ (n = 4 /\ 0 <= x < 8) -> u8 (Z.lor x (zget firstByteMark n)) = zget firstByteMark n + x.
Proof.
  intros H. apply Z.eqb_eq. destruct H as [[-> H] | [[-> H] | [-> H]]].
  - pose proof (byte_cases (fun c => (31 <? c) || (u8 (Z.lor c 0xC0) =? 0xC0 + c)) ltac:(by vm_compute) x ltac:(lia)) as E. cbv beta in E. by rewrite (proj2 (Z.ltb_ge 31 x)) in E by lia.
  - pose proof (byte_cases (fun c => (15 <? c) || (u8 (Z.lor c 0xE0) =? 0xE0 + c)) ltac:(by vm_compute) x ltac:(lia)) as E. cbv beta in E. by rewrite (proj2 (Z.ltb_ge 15 x)) in E by lia.
  - pose proof (byte_cases (fun c => (7 <? c) || (u8 (Z.lor c 0xF0) =? 0xF0 + c)) ltac:(by vm_compute) x ltac:(lia)) as E. cbv beta in E. by rewrite (proj2 (Z.ltb_ge 7 x)) in E by lia.
Qed.

Lemma utf8_bytes_ok cp : 0 <= cp < 0x110000 -> utf8_bytes cp = utf8 cp.
Proof.
  intros Hc. unfold utf8_bytes, utf8_len, utf8. destruct (Z.ltb_spec cp 0x80); [rewrite <- (utf8_ascii cp) by lia; unfold utf8_bytes, utf8_len; by rewrite (proj2 (Z.ltb_lt cp 0x80)) by lia|].
  destruct (Z.ltb_spec cp 0x800); [|destruct (Z.ltb_spec cp 0x10000)]; cbv zeta.
  - change (Z.to_nat (2 - 1)) with 1%nat. cbn [utf8_store]. rewrite cont_byte by lia. rewrite Z.shiftr_div_pow2 by lia. change (2 ^ 6) with 64.
    rewrite lead_byte by (left; split; [done|Z.to_euclidean_division_equations; lia]). done.
  - change (Z.to_nat (3 - 1)) with 2%nat. cbn [utf8_store]. rewrite !Z.shiftr_div_pow2 by lia. change (2 ^ 6) with 64.
    assert (0 <= cp / 64) by (Z.to_euclidean_division_equations; lia). rewrite !cont_byte by lia. rewrite Z.div_div by lia.
    rewrite lead_byte by (right; left; split; [done|Z.to_euclidean_division_equations; lia]). done.
  - change (Z.to_nat (4 - 1)) with 3%nat. cbn [utf8_store]. rewrite !Z.shiftr_div_pow2 by lia. change (2 ^ 6) with 64.
    assert (0 <= cp / 64) by (Z.to_euclidean_division_equations; lia). assert (0 <= cp / 64 / 64) by (Z.to_euclidean_division_equations; lia). rewrite !cont_byte by lia. rewrite !Z.div_div by lia.
    rewrite lead_byte by (right; right; split; [done|Z.to_euclidean_division_equations; lia]). done.
Qed.

Lemma surrogate_pair_ok h l : 0 <= h < 1024 -> 0 <= l < 1024 -> surrogate_pair (0xD800 + h) (0xDC00 + l) = 0x10000 + (h * 1024 + l).
Proof.
  intros Hh Hl. unfold surrogate_pair. f_equal. change 0x3FF with (Z.ones 10). rewrite !Z.land_ones by lia.
  replace ((0xD800 + h) mod 2 ^ 10) with h by (change (2 ^ 10) with 1024; Z.to_euclidean_division_equations; lia).
  replace ((0xDC00 + l) mod 2 ^ 10) with l by (change (2 ^ 10) with 1024; Z.to_euclidean_division_equations; lia).
  by rewrite shiftl_lor_add by lia.
Qed.

Section unicode.
Context {env : JsonEnv} {jheap : JsonHeap}.
Variable txt : list Z.
#[local] Notation here := (here txt).

Lemma hex4_digits u : 0 <= u < 65536 -> Forall (fun c => c <> 0 /\ c <> 34 /\ c <> 92) (hex4 u).
Proof using.
  intros Hu. assert (forall d, 0 <= d < 16 -> hex_char d <> 0 /\ hex_char d <> 34 /\ hex_char d <> 92) as H by (intros d Hd; unfold hex_char; destruct (Z.ltb_spec d 10); lia).
  unfold hex4. repeat constructor; apply H; Z.to_euclidean_division_equations; lia.
Qed.

Lemma parse_hex4_here i u l : 0 <= u < 65536 -> here i (hex4 u ++ l) -> gives (parse_hex4 txt i) u.
Proof using.
  intros Hu Hh. unfold parse_hex4, hex4 in *. cbn [hex4_loop app] in *.
  eapply gives_bind; [by eapply rd_here|]. rewrite hex_value_char by (Z.to_euclidean_division_equations; lia). apply here_cons in Hh.
  eapply gives_bind; [by eapply rd_here|]. rewrite hex_value_char by (Z.to_euclidean_division_equations; lia). apply here_cons in Hh.
  eapply gives_bind; [by eapply rd_here|]. rewrite hex_value_char by (Z.to_euclidean_division_equations; lia). apply here_cons in Hh.
  eapply gives_bind; [by eapply rd_here|]. rewrite hex_value_char by (Z.to_euclidean_division_equations; lia).
  rewrite !Z.shiftl_mul_pow2 by lia. change (2 ^ 4) with 16.
  match goal with |- gives (mret ?x) u => replace x with u; [apply gives_ret|] end. Z.to_euclidean_division_equations. lia.
Qed.

(** Four digits count for four in the first pass. *)
Lemma len_digits n ds i len l r : Forall (fun c => c <> 0 /\ c <> 34 /\ c <> 92) ds -> here i (ds ++ l) ->
  gives (loop n (string_len_body txt) (i + zlen ds, len + zlen ds)) r -> gives (loop (length ds + n) (string_len_body txt) (i, len)) r.
Proof using.
  intros Hds. revert i len. induction Hds as [|c ds (H0 & H34 & H92) _ IH]; intros i len Hh Hg; [by rewrite zlen_nil, !Z.add_0_r in Hg|]. cbn [app length Nat.add] in *.
  eapply loop_next; [eapply gives_bind; [by eapply rd_here|]; rewrite !(proj2 (Z.eqb_neq _ _)) by done; apply gives_ret|].
  apply IH; [by eapply here_cons|]. rewrite zlen_cons in Hg. replace (i + 1 + zlen ds) with (i + (zlen ds + 1)) by lia. by replace (len + 1 + zlen ds) with (len + (zlen ds + 1)) by lia.
Qed.

Lemma len_unit n u i len l r : 0 <= u < 65536 -> here i (92 :: 117 :: hex4 u ++ l) ->
  gives (loop n (string_len_body txt) (i + 6, len + 5)) r -> gives (loop (5 + n) (string_len_body txt) (i, len)) r.
Proof using.
  intros Hu Hh Hg. cbn [Nat.add]. eapply loop_next; [eapply gives_bind; [by eapply rd_here|]; apply gives_ret|]. cbn [Z.eqb Pos.eqb].
  apply (len_digits n (hex4 u) _ _ l); [by apply hex4_digits|by do 2 apply here_cons in Hh|]. change (zlen (hex4 u)) with 4.
  replace (i + 1 + 1 + 4) with (i + 6) by lia. by replace (len + 1 + 4) with (len + 5) by lia.
Qed.

Lemma utf8_len_bound cp : scalar cp -> 0 <= zlen (utf8 cp) <= (if cp <? 0x10000 then 5 else 10).
Proof using.
  intros _. unfold utf8. destruct (Z.ltb_spec cp 0x80); [rewrite (proj2 (Z.ltb_lt cp 0x10000)) by lia; by cbn|]. destruct (Z.ltb_spec cp 0x800); [rewrite (proj2 (Z.ltb_lt cp 0x10000)) by lia; by cbn|].
  destruct (cp <? 0x10000); by cbn.
Qed.

Lemma unit_bounds cp : scalar cp -> 0x10000 <= cp -> 0 <= (cp - 0x10000) / 1024 < 1024 /\ 0 <= (cp - 0x10000) mod 1024 < 1024.
Proof using. intros [H _] Hc. Z.to_euclidean_division_equations. lia. Qed.

(** The first pass. *)
Lemma unicode_len_here cps n i len l : Forall scalar cps -> here i ((cps ≫= u_escape) ++ 34 :: l) -> (length (cps ≫= u_escape) < n)%nat ->
  exists len', len + zlen (cps ≫= utf8) <= len' /\ gives (loop n (string_len_body txt) (i, len)) (inl (i + zlen (cps ≫= u_escape), len')).
Proof using.
  intros Hs. revert n i len. induction Hs as [|cp cps Hcp _ IH]; intros n i len Hh Hn.
  { exists len. change (zlen ([] ≫= utf8)) with 0. split; [lia|]. destruct n as [|n]; [cbn in Hn; lia|]. apply loop_exit. cbn in Hh. eapply gives_bind; [by eapply rd_here|]. cbn. by rewrite Z.add_0_r. }
  change ((cp :: cps) ≫= u_escape) with (u_escape cp ++ (cps ≫= u_escape)) in *. change ((cp :: cps) ≫= utf8) with (utf8 cp ++ (cps ≫= utf8)). rewrite <- app_assoc in Hh. rewrite !zlen_app.
  rewrite length_app in Hn. pose proof (utf8_len_bound cp Hcp) as Hb. pose proof Hcp as [Hr _]. unfold u_escape in *. destruct (Z.ltb_spec cp 0x10000) as [Hlt | Hge].
  - change (length (92 :: 117 :: hex4 cp)) with 6%nat in Hn. change (zlen (92 :: 117 :: hex4 cp)) with 6. replace n with (5 + (n - 5))%nat by lia.
    destruct (IH (n - 5)%nat (i + 6) (len + 5)) as (len' & Hl & Hg); [by apply (here_app _ _ (92 :: 117 :: hex4 cp))|lia|].
    exists len'. split; [lia|]. cbn [app] in Hh. apply (len_unit _ cp i len _ _ ltac:(lia) Hh). by replace (i + (6 + zlen (cps ≫= u_escape))) with (i + 6 + zlen (cps ≫= u_escape)) by lia.
  - destruct (unit_bounds cp Hcp Hge) as [Hh1 Hl1]. set (h := (cp - 0x10000) / 1024) in *. set (lo := (cp - 0x10000) mod 1024) in *. rewrite <- app_assoc in Hh.
    change (length ((92 :: 117 :: hex4 (0xD800 + h)) ++ 92 :: 117 :: hex4 (0xDC00 + lo))) with 12%nat in Hn. change (zlen ((92 :: 117 :: hex4 (0xD800 + h)) ++ 92 :: 117 :: hex4 (0xDC00 + lo))) with 12.
    pose proof (here_app _ _ (92 :: 117 :: hex4 (0xD800 + h)) _ Hh) as Hh2. change (zlen (92 :: 117 :: hex4 (0xD800 + h))) with 6 in Hh2.
    pose proof (here_app _ _ (92 :: 117 :: hex4 (0xDC00 + lo)) _ Hh2) as Hh3. change (zlen (92 :: 117 :: hex4 (0xDC00 + lo))) with 6 in Hh3.
    destruct (IH (n - 10)%nat (i + 6 + 6) (len + 5 + 5)) as (len' & Hl & Hg); [done|lia|]. exists len'. split; [lia|]. replace n with (5 + (5 + (n - 10)))%nat by lia. cbn [app] in Hh, Hh2.
    apply (len_unit _ (0xD800 + h) i len _ _ ltac:(lia) Hh). apply (len_unit _ (0xDC00 + lo) _ _ _ _ ltac:(lia) Hh2).
    by replace (i + (12 + zlen (cps ≫= u_escape))) with (i + 6 + 6 + zlen (cps ≫= u_escape)) by lia.
Qed.

(** One escape in the second pass. *)
Lemma unicode_escape_here cap cp i buf l : scalar cp -> here (i + 1) (tail (u_escape cp) ++ l) -> zlen buf + zlen (utf8 cp) <= cap ->
  gives (unicode_escape txt cap (i + 1) buf) (i + zlen (u_escape cp) - 1, buf ++ utf8 cp).
Proof using.
  intros Hcp Hh Hcap. pose proof Hcp as [Hr Hsur]. unfold unicode_escape, u_escape in *. destruct (Z.ltb_spec cp 0x10000) as [Hlt | Hge].
  - cbn [tail app] in Hh. apply here_cons in Hh. change (zlen (92 :: 117 :: hex4 cp)) with 6. eapply gives_bind; [apply (parse_hex4_here _ cp l); [lia|done]|]. cbv zeta.
    assert ((0xDC00 <=? cp) && (cp <=? 0xDFFF) || (cp =? 0) = false) as ->.
    { rewrite (proj2 (Z.eqb_neq cp 0)) by lia. destruct (Z.leb_spec 0xDC00 cp), (Z.leb_spec cp 0xDFFF); try done. lia. }
    assert ((0xD800 <=? cp) && (cp <=? 0xDBFF) = false) as -> by (destruct (Z.leb_spec 0xD800 cp), (Z.leb_spec cp 0xDBFF); try done; lia).
    rewrite utf8_bytes_ok by lia. eapply gives_bind; [by apply put_gives|]. replace (i + 6 - 1) with (i + 1 + 4) by lia. apply gives_ret.
  - destruct (unit_bounds cp Hcp Hge) as [Hh1 Hl1]. assert (cp = 0x10000 + ((cp - 0x10000) / 1024 * 1024 + (cp - 0x10000) mod 1024)) as Hcp' by (Z.to_euclidean_division_equations; lia).
    set (h := (cp - 0x10000) / 1024) in *. set (lo := (cp - 0x10000) mod 1024) in *. change (zlen ((92 :: 117 :: hex4 (0xD800 + h)) ++ 92 :: 117 :: hex4 (0xDC00 + lo))) with 12.
    cbn [tail app] in Hh. change (117 :: (hex4 (0xD800 + h) ++ 92 :: 117 :: hex4 (0xDC00 + lo)) ++ l) with (117 :: hex4 (0xD800 + h) ++ 92 :: 117 :: hex4 (0xDC00 + lo) ++ l) in Hh. apply here_cons in Hh.
    eapply gives_bind; [eapply (parse_hex4_here _ (0xD800 + h)); [lia|exact Hh]|]. cbv zeta.
    rewrite (proj2 (Z.leb_gt 0xDC00 (0xD800 + h))), (proj2 (Z.eqb_neq (0xD800 + h) 0)), (proj2 (Z.leb_le 0xD800 (0xD800 + h))), (proj2 (Z.leb_le (0xD800 + h) 0xDBFF)) by lia. cbn [andb orb].
    apply (here_app _ _ (hex4 (0xD800 + h))) in Hh. change (zlen (hex4 (0xD800 + h))) with 4 in Hh.
    replace (i + 1 + 4 + 1) with (i + 1 + 1 + 4) by lia. eapply gives_bind; [by eapply rd_here|]. cbn [Z.eqb Pos.eqb negb]. apply here_cons in Hh.
    replace (i + 1 + 4 + 2) with (i + 1 + 1 + 4 + 1) by lia. eapply gives_bind; [by eapply rd_here|]. cbn [Z.eqb Pos.eqb negb]. apply here_cons in Hh.
    replace (i + 1 + 4 + 3) with (i + 1 + 1 + 4 + 1 + 1) by lia. eapply gives_bind; [apply (parse_hex4_here _ (0xDC00 + lo) l); [lia|exact Hh]|].
    rewrite (proj2 (Z.ltb_ge (0xDC00 + lo) 0xDC00)), (proj2 (Z.ltb_ge 0xDFFF (0xDC00 + lo))) by lia. cbn [orb]. rewrite surrogate_pair_ok by lia. rewrite <- Hcp', utf8_bytes_ok by lia.
    eapply gives_bind; [by apply put_gives|]. replace (i + 12 - 1) with (i + 1 + 4 + 6) by lia. apply gives_ret.
Qed.

(** The second pass. *)
Lemma unicode_body_here cps n cap i buf l : Forall scalar cps -> here i ((cps ≫= u_escape) ++ 34 :: l) -> (length (cps ≫= u_escape) < n)%nat -> zlen buf + zlen (cps ≫= utf8) <= cap ->
  gives (loop n (string_body txt cap) (i, buf)) (inl (i + zlen (cps ≫= u_escape), buf ++ (cps ≫= utf8))).
Proof using.
  intros Hs. revert n i buf. induction Hs as [|cp cps Hcp _ IH]; intros n i buf Hh Hn Hcap.
  { destruct n as [|n]; [cbn in Hn; lia|]. apply loop_exit. cbn in Hh. eapply gives_bind; [by eapply rd_here|]. cbn. by rewrite Z.add_0_r, app_nil_r. }
  change ((cp :: cps) ≫= u_escape) with (u_escape cp ++ (cps ≫= u_escape)) in *. change ((cp :: cps) ≫= utf8) with (utf8 cp ++ (cps ≫= utf8)) in *. rewrite <- app_assoc in Hh. rewrite !zlen_app in *.
  rewrite length_app in Hn. destruct n as [|n]; [lia|]. pose proof (zlen_nonneg (cps ≫= utf8)).
  assert (exists t, u_escape cp = 92 :: 117 :: t) as [t Et] by (unfold u_escape; destruct (_ <? _); by eexists).
  pose proof (here_app _ _ _ _ Hh) as Hh2. assert (6 <= length (u_escape cp))%nat by (unfold u_escape; destruct (_ <? _); cbn; lia).
  eapply loop_next; [|rewrite app_assoc; replace (i + (zlen (u_escape cp) + zlen (cps ≫= u_escape))) with (i + zlen (u_escape cp) + zlen (cps ≫= u_escape)) by lia; apply (IH n _ (buf ++ utf8 cp)); [done|lia|rewrite zlen_app; lia]].
  pose proof Hh as Hh1. rewrite Et in Hh1. cbn [app] in Hh1. eapply gives_bind; [by eapply rd_here|]. cbn [Z.eqb Pos.eqb negb andb].
  apply here_cons in Hh1. eapply gives_bind; [by eapply rd_here|]. cbn [Z.eqb Pos.eqb].
  eapply gives_bind; [apply (unicode_escape_here cap cp i buf ((cps ≫= u_escape) ++ 34 :: l) Hcp); [by rewrite Et|lia]|]. cbv beta iota.
  replace (i + zlen (u_escape cp) - 1 + 1) with (i + zlen (u_escape cp)) by lia. apply gives_ret.
Qed.

Lemma utf8_nonzero cp : scalar cp -> nonzero (utf8 cp).
Proof using.
  intros [H _]. unfold utf8. repeat (destruct (_ <? _); [repeat constructor; Z.to_euclidean_division_equations; lia|]). repeat constructor; Z.to_euclidean_division_equations; lia.
Qed.

Lemma nonzero_utf8 cps : Forall scalar cps -> nonzero (cps ≫= utf8).
Proof using. induction 1 as [|cp cps Hcp _ IH]; [constructor|]. change ((cp :: cps) ≫= utf8) with (utf8 cp ++ (cps ≫= utf8)). apply nonzero_app; [by apply utf8_nonzero|exact IH]. Qed.

Lemma parse_unicode_here item cps i l L k st : Forall scalar cps -> here i (34 :: (cps ≫= u_escape) ++ 34 :: l) -> l <> [] -> heap L k st ->
  wp (parse_string txt item i) (fun r st' => match snd r with
    | None => fst r = item /\ heap L (S k) st'
    | Some i' => here i' l /\ exists a, fst r = set_type cJSON_String (set_valuestring (Some (mkCstr a (cps ≫= utf8))) item) /\ heap (a :: L) k st'
    end) st.
Proof using jheap.
  intros Hs Hh Hl Hst. unfold parse_string. eapply gives_wp; [by eapply rd_here|]. cbn [Z.eqb Pos.eqb negb]. pose proof (here_cons _ _ _ _ Hh) as Hh1.
  pose proof (fuel_here _ _ _ Hh1) as Hf. rewrite length_app in Hf.
  destruct (unicode_len_here cps (fuel txt) (i + 1) 0 l Hs Hh1 ltac:(lia)) as (len & Hlen & Hg).
  eapply gives_wp; [by apply gives_while|]. cbn [snd]. cbv zeta. eapply wp_call; [by apply jmalloc_ok|]. intros [a|] st1 [He H1].
  2:{ apply wp_ret. by split. }
  pose proof (zlen_nonneg (cps ≫= utf8)). eapply gives_wp; [apply gives_while; by apply (unicode_body_here cps _ (len + 1) _ [] l); [| |lia|rewrite zlen_nil; lia]|]. cbv beta iota.
  eapply gives_wp; [apply put_gives; rewrite app_nil_l, zlen_cons, zlen_nil; lia|].
  pose proof (here_app _ _ _ _ Hh1) as Hh2. eapply gives_wp; [by eapply rd_here|]. apply wp_ret. cbn [fst snd Z.eqb Pos.eqb app]. split; [by eapply here_cons|].
  exists a. split; [|done]. by rewrite before_nul_all by (by apply nonzero_utf8).
Qed.
End unicode.
