(* ===== verification/CJsonValueProof.v ===== *)
(** Arrays, objects and values: [parse_value] reads the text of a value back. *)
From Stdlib Require Import ZArith Lia Bool.
From S2P Require Import Prelude CSem CDouble CJson CJsonParse CJsonPrint CJsonHeap CJsonPrintProof CJsonParseProof.
From stdpp Require Import base list numbers option gmap.

Open Scope Z_scope.

(** An item nothing has been stored in yet, but perhaps its name. *)
Definition blank (c : cJSON) : Prop := plain c /\ valuestring c = None /\ child c = [].

Lemma fresh_blank a : blank (fresh_item a).
Proof. done. Qed.

(** Children are linked to an item without any. *)
Lemma blocks_set_child k c : plain c -> child c = [] -> blocks (set_child k c) ≡ₚ chain_blocks k ++ blocks c.
Proof.
  destruct c as [a t v i d s kids]. intros [H1 H2] E. cbn in E, H1, H2. subst. cbn [set_child]. rewrite !blocks_plain by done.
  change (chain_blocks []) with (@nil Z). solve_Permutation.
Qed.

Lemma blocks_set_type t c : plain c -> 0 <= t < 256 -> blocks (set_type t c) = blocks c.
Proof.
  destruct c as [a t' v i d s kids]. intros [H1 H2] Ht. cbn in H1, H2. cbn [set_type]. destruct (plain_type (mkItem a t v i d s kids) t eq_refl Ht) as [H3 H4].
  by rewrite !blocks_plain by done.
Qed.

Section parts.
Context {env : JsonEnv} {jheap : JsonHeap}.
Variable txt : list Z.
#[local] Notation here := (here txt).

(** ** Lists of parts *)

Context {M : Type}.
Variable text : M -> list Z.
Variable P : M -> cJSON -> Prop.
Variable part : cJSON -> Z -> C json (cJSON * option Z).
Variable close : Z.
Variable i0 : Z.
Hypothesis Hclose : 32 < close /\ close <> 44.

(** What reading a part does to its item: it fails with an allocation, or represents the part. *)
Definition read_post (Q : cJSON -> Prop) (i : Z) (rest L : list Z) (k : nat) (s : json) (r : cJSON * option Z) (s' : json) : Prop :=
  ep s' = ep s /\
  match snd r with
  | None => exists k', (k < k')%nat /\ heap (blocks (fst r) ++ L) k' s'
  | Some i' => i < i' /\ here i' rest /\ Q (fst r) /\ plain (fst r) /\ heap (blocks (fst r) ++ L) k s'
  end.

Definition part_spec (m : M) : Prop := forall a i ws ws' c l L k s, i0 < i -> here i (ws ++ text m ++ ws' ++ c :: l) -> is_ws ws -> is_ws ws' ->
  c = 44 \/ c = close -> heap (a :: L) k s -> wp (part (fresh_item a) i) (read_post (P m) i (c :: l) L k s) s.

(** Parts with the white space around them, and commas between. *)
Fixpoint seps (l : list (list Z * M * list Z)) : list Z :=
  match l with
  | [] => []
  | (ws, m, ws') :: l => ws ++ text m ++ ws' ++ match l with [] => [] | _ => 44 :: seps l end
  end.

Definition tail_text (l : list (list Z * M * list Z)) : list Z := match l with [] => [] | _ => 44 :: seps l end.

Definition sep_ok (x : list Z * M * list Z) : Prop := is_ws (fst (fst x)) /\ is_ws (snd x) /\ part_spec (snd (fst x)).

Lemma seps_cons ws m ws' l r : seps ((ws, m, ws') :: l) ++ r = ws ++ text m ++ ws' ++ tail_text l ++ r.
Proof using. cbn [seps]. rewrite <- !app_assoc. done. Qed.

(** What follows a part starts with a comma or the closing bracket. *)
Lemma tail_head l r : exists c r', tail_text l ++ close :: r = c :: r' /\ (c = 44 \/ c = close).
Proof using. destruct l; cbn; eexists _, _; (split; [done|]); [by right|by left]. Qed.

Lemma parts_loop_ok l n kids i r L k s : Forall sep_ok l -> (length l < n)%nat -> i0 < i -> here i (tail_text l ++ close :: r) -> heap (chain_blocks kids ++ L) k s ->
  wp (loop n (parts_body txt part) (kids, i)) (fun x s' => ep s' = ep s /\ match x with
    | inr (kids', None) => exists k', (k < k')%nat /\ heap (chain_blocks kids' ++ L) k' s'
    | inl (kids', i') => i0 < i' /\ here i' (close :: r) /\ (exists new, kids' = kids ++ new /\ all2 P (map (fun x => snd (fst x)) l) new) /\ heap (chain_blocks kids' ++ L) k s'
    | _ => False end) s.
Proof using jheap Hclose.
  intros HF. revert n kids i s. induction HF as [|[[ws m] ws'] l (Hws & Hws' & Hm) HF IH]; intros n kids i s Hn Hi Hh Hs; (destruct n as [|n]; [cbn in Hn; lia|]); cbn [loop].
  - cbn [tail_text app] in Hh. eapply wp_call; [eapply gives_wp; [by eapply rd_here|]; rewrite (proj2 (Z.eqb_neq close 44)) by tauto|].
    { by apply (wp_ret _ (fun x s' => x = Exit (kids, i) /\ s' = s)). }
    intros x s' [-> ->]. apply wp_ret. split; [done|]. split; [done|]. split; [done|]. split; [|done]. exists []. by rewrite app_nil_r.
  - cbn [tail_text app] in Hh. apply wp_bind. eapply gives_wp; [by eapply rd_here|]. cbn [Z.eqb Pos.eqb]. eapply wp_call; [by apply new_item_ok|].
    intros [ch|] s1 [E1 H1].
    2:{ apply wp_ret, wp_ret. split; [done|]. exists (S k). split; [lia|done]. }
    destruct H1 as (a & -> & H1). destruct (tail_head l r) as (c & r' & Ec & Hc). pose proof (here_cons _ _ _ _ Hh) as Hh1. rewrite seps_cons, Ec in Hh1. cbn [fst snd] in *.
    eapply wp_call; [eapply (Hm a (i + 1) ws ws' c r' (chain_blocks kids ++ L) k s1); [lia|done|done|done|done|done]|].
    intros [ch [i'|]] s2 [E2 H2]; cbn [fst snd] in H2.
    2:{ destruct H2 as (k' & Hk & H2). apply wp_ret, wp_ret. split; [congruence|]. exists k'. split; [done|]. rewrite chain_blocks_app, chain_blocks_one.
        eapply heap_perm; [|exact H2]. solve_Permutation. }
    destruct H2 as (Hi' & Hh2 & HP & _ & H2). apply wp_ret. rewrite <- Ec in Hh2. eapply wp_mono; [apply (IH n (kids ++ [ch]) i' s2); [cbn in Hn; lia|lia|done|]|].
    { rewrite chain_blocks_app, chain_blocks_one. eapply heap_perm; [|exact H2]. solve_Permutation. }
    intros [[kids' i'']|[kids' [i''|]]] s3 [E3 H3]; [|done|split; [congruence|done]]. split; [congruence|].
    destruct H3 as (Hi3 & Hh3 & (new & -> & Hall) & H3). split; [done|]. split; [done|]. split; [|done]. exists (ch :: new). split; [by rewrite <- app_assoc|]. by split.
Qed.

Lemma seps_len l : (length l <= length (seps l) + 1)%nat.
Proof using. induction l as [|[[ws m] ws'] [|y l] IH]; [cbn; lia|cbn; lia|]. cbn [seps] in *. rewrite !length_app. cbn [length] in *. lia. Qed.

Lemma parse_parts_ok x l i r L k s : Forall sep_ok (x :: l) -> i0 < i -> here i (seps (x :: l) ++ close :: r) -> heap L k s ->
  wp (parse_parts txt part close i) (fun y s' => ep s' = ep s /\ match y with
    | (kids, None) => exists k', (k < k')%nat /\ heap (chain_blocks kids ++ L) k' s'
    | (kids, Some i') => i0 < i' /\ here i' r /\ all2 P (map (fun x => snd (fst x)) (x :: l)) kids /\ heap (chain_blocks kids ++ L) k s'
    end) s.
Proof using jheap Hclose.
  intros HF Hi Hh Hs. apply list.Forall_cons in HF as [(Hws & Hws' & Hm) HF]. destruct x as [[ws m] ws']. cbn [fst snd] in *. unfold parse_parts.
  eapply wp_call; [by apply new_item_ok|]. intros [ch|] s1 [E1 H1].
  2:{ apply wp_ret. split; [done|]. exists (S k). split; [lia|done]. }
  destruct H1 as (a & -> & H1). destruct (tail_head l r) as (c & r' & Ec & Hc). pose proof (fuel_here _ _ _ Hh) as Hf. pose proof (seps_len ((ws, m, ws') :: l)) as Hsl.
  rewrite seps_cons, Ec in Hh. eapply wp_call; [by apply (Hm a i ws ws' c r' L k s1)|].
  intros [ch [i'|]] s2 [E2 H2]; cbn [fst snd] in H2.
  2:{ destruct H2 as (k' & Hk & H2). apply wp_ret. split; [congruence|]. exists k'. split; [done|]. by rewrite chain_blocks_one. }
  destruct H2 as (Hi' & Hh2 & HP & _ & H2). rewrite <- Ec in Hh2.
  eapply wp_call; [apply (parts_loop_ok l (fuel txt) [ch] i' r L k s2); [done| |lia|done|by rewrite chain_blocks_one]|].
  { rewrite length_app in Hf. cbn [length] in *. lia. }
  intros [[kids' i'']|[kids' [i''|]]] s3 [E3 H3]; [|done|apply wp_ret; split; [congruence|done]].
  destruct H3 as (Hi3 & Hh3 & (new & -> & Hall) & H3). eapply gives_wp; [by eapply rd_here|]. rewrite Z.eqb_refl. apply wp_ret. split; [congruence|].
  split; [lia|]. split; [by eapply here_cons|]. split; [|done]. by split.
Qed.
End parts.

(** Forgetting what goes first: [skip] before a first part. *)
Section values.
Context {env : JsonEnv} {jheap : JsonHeap} {math : JsonMath}.
Variable txt : list Z.
#[local] Notation here := (here txt).
#[local] Notation read_post := (read_post txt).
Variable fmt : bool.

(** [parse_value] with this depth reads the value from positions behind [i0]. *)
Definition reads (pv : cJSON -> option Z -> C json (cJSON * option Z)) (i0 : Z) (v : jvalue) : Prop :=
  forall d ch i c l L k s, i0 < i -> here i (render fmt d v ++ c :: l) -> delim c -> blank ch -> heap (blocks ch ++ L) k s ->
    wp (pv ch (Some i)) (read_post (fun ch' => json_of v ch' /\ c_string ch' = c_string ch) i (c :: l) L k s) s.

(** The first character of a text. *)
Lemma render_head d v : exists b l, render fmt d v = b :: l /\ 32 < b /\ b <> 93 /\ b <> 125.
Proof using.
  destruct v as [|b|n|s|l|l]; cbn [render].
  - by exists 110, [117; 108; 108].
  - destruct b; [by exists 116, [114; 117; 101]|by exists 102, [97; 108; 115; 101]].
  - unfold fmt_d, dec_nat. destruct (Z.ltb_spec n 0); [by eexists 45, _|]. destruct (dec_digits_spec (Z.to_nat n + 1) n ltac:(lia) ltac:(lia)) as (H1 & _ & c & l & E & _).
    rewrite E in H1 |- *. apply Forall_inv in H1. unfold isdigit in H1. bools. exists c, l. split; [done|lia].
  - by eexists 34, _.
  - by eexists 91, _.
  - destruct l; by eexists 123, _.
Qed.

Lemma element_read pv i0 v d ch i ws ws' c l L k s : reads pv i0 v -> i0 < i -> here i (ws ++ render fmt d v ++ ws' ++ c :: l) -> is_ws ws -> is_ws ws' ->
  32 < c /\ delim c -> blank ch -> heap (blocks ch ++ L) k s ->
  wp (parse_element txt pv ch i) (read_post (fun ch' => json_of v ch' /\ c_string ch' = c_string ch) i (c :: l) L k s) s.
Proof using jheap.
  intros Hv Hi Hh Hws Hws' [Hc Hcd] Hb Hs. destruct (render_head d v) as (b & t & Eb & Hb32 & _). unfold parse_element.
  eapply gives_wp; [apply (skip_here txt i ws b (t ++ ws' ++ c :: l)); [by rewrite Eb in Hh|done|by right]|].
  pose proof (here_app _ _ _ _ Hh) as Hh1. assert (exists c' l', ws' ++ c :: l = c' :: l' /\ delim c') as (c' & l' & E' & Hd).
  { destruct Hws' as [|w ws' Hw _]; [by exists c, l|]. exists w, (ws' ++ c :: l). split; [done|]. by apply ws_delim. }
  rewrite E' in Hh1. pose proof (zlen_nonneg ws). eapply wp_call; [apply (Hv d ch (i + zlen ws) c' l' L k s); [lia|done|done|done|done]|].
  intros [ch' [i'|]] s1 [E1 H1]; cbn [fst snd] in H1.
  2:{ apply wp_bind, wp_ret, wp_ret. by split. }
  destruct H1 as (Hi1 & Hh2 & HP & Hpl & H1). rewrite <- E' in Hh2. eapply gives_wp; [apply (skip_here txt i' ws' c l Hh2 Hws'); by right|].
  apply wp_ret. split; [done|]. cbn [fst snd]. pose proof (zlen_nonneg ws'). split; [lia|]. split; [by eapply here_app|]. done.
Qed.

Lemma read_post_mono (P Q : cJSON -> Prop) i i' l L k s s1 r s' : (forall c, P c -> Q c) -> i <= i' -> ep s1 = ep s ->
  read_post P i' l L k s1 r s' -> read_post Q i l L k s r s'.
Proof using. intros HPQ Hi He [E H]. split; [congruence|]. destruct (snd r) as [j|]; [|done]. destruct H as (? & ? & ? & ? & ?). split; [lia|]. auto. Qed.

Lemma element_ok pv i0 v d : reads pv i0 v -> part_spec txt (render fmt d) json_of (parse_element txt pv) 93 i0 v.
Proof using jheap.
  intros Hv a i ws ws' c l L k s Hi Hh Hws Hws' Hc Hs.
  eapply wp_mono; [by apply (element_read pv i0 v d (fresh_item a) i ws ws' c l L k s Hv Hi Hh Hws Hws'); [destruct Hc as [-> | ->]| |]|].
  intros r s'. apply read_post_mono; [by intros ? [? _]|lia|done].
Qed.

Lemma blocks_key a s ch : blank ch -> c_string ch = None ->
  blocks (set_valuestring None (set_string (Some (mkCstr a s)) (set_type cJSON_String (set_valuestring (Some (mkCstr a s)) ch)))) ≡ₚ a :: blocks ch /\
  blank (set_valuestring None (set_string (Some (mkCstr a s)) (set_type cJSON_String (set_valuestring (Some (mkCstr a s)) ch)))).
Proof using.
  destruct ch as [a' t v i d nm kids]. intros ([H1 H2] & H3 & H4) H5. cbn in *. subst. split; [|done]. rewrite H1, H2. cbn. solve_Permutation.
Qed.

Definition pair_ok (d : Z) (m : list Z * jvalue) : list Z := quote (fst m) ++ (58 :: if fmt then [9] else []) ++ render fmt d (snd m).

Lemma member_ok pv i0 m d : reads pv i0 (snd m) -> string_ok (fst m) -> part_spec txt (pair_ok d) named (parse_member txt pv) 125 i0 m.
Proof using jheap.
  intros Hv Hkey a i ws ws' c l L k s Hi Hh Hws Hws' Hc Hs. destruct m as [key v]. unfold pair_ok in Hh. cbn [fst snd] in *. rewrite <- !app_assoc in Hh. unfold parse_member.
  eapply gives_wp; [by eapply (skip_here txt i ws 34); [exact Hh|done|right]|]. pose proof (here_app _ _ _ _ Hh) as Hh1. cbn [default from_option id].
  eapply wp_call; [by apply (parse_string_here txt (fresh_item a) key (i + zlen ws) _ (a :: L) k s Hkey Hh1)|].
  intros [ch1 [i1|]] s1 [E1 H1]; cbn [fst snd] in H1.
  2:{ destruct H1 as [-> H1]. apply wp_bind, wp_ret, wp_ret. split; [done|]. cbn [fst snd]. exists (S k). split; [lia|done]. }
  destruct H1 as (-> & b & -> & H1). pose proof (here_app _ _ _ _ Hh1) as Hh2. cbn [app] in Hh2.
  eapply gives_wp; [by eapply (skip_none txt _ 58); [exact Hh2|right]|]. eapply gives_wp; [by eapply rd_here|]. cbn [Z.eqb Pos.eqb negb]. cbv zeta.
  destruct (blocks_key b key (fresh_item a) ltac:(done) ltac:(done)) as [Hbl Hbk]. apply here_cons in Hh2.
  pose proof (zlen_nonneg ws). pose proof (zlen_nonneg (quote key)).
  eapply wp_mono; [eapply (element_read pv i0 v d _ _ (if fmt then [9] else []) ws' c l L k s1 Hv); [|exact Hh2| |done|by destruct Hc as [-> | ->]|exact Hbk|]|].
  { lia. } { destruct fmt; repeat constructor; lia. } { eapply heap_perm; [|exact H1]. by rewrite Hbl. }
  intros r s'. apply read_post_mono; [|lia|done]. intros ch' [HP Hnm]. split; [|done]. exists b. by rewrite Hnm.
Qed.
(** ** Arrays *)

Definition array_parts (l : list jvalue) : list (list Z * jvalue * list Z) := map (fun v => (if fmt then [32] else [], v, [])) l.

Lemma seps_array d v l : seps (render fmt d) (([], v, []) :: array_parts l) = joined (comma fmt) (map (render fmt d) (v :: l)).
Proof using.
  assert (forall ws, seps (render fmt d) ((ws, v, []) :: array_parts l) = ws ++ joined (comma fmt) (map (render fmt d) (v :: l))) as H; [|apply H].
  revert v. induction l as [|u l IH]; intros v ws; [by cbn; rewrite !app_nil_r|].
  change (seps (render fmt d) ((ws, v, []) :: array_parts (u :: l)))
    with (ws ++ render fmt d v ++ [] ++ 44 :: seps (render fmt d) ((if fmt then [32] else [], u, []) :: array_parts l)).
  rewrite IH. cbn [map]. rewrite join_cons2, app_nil_l. by destruct fmt.
Qed.

Lemma set_child_post ch t k v : blank ch -> 0 <= t < 256 -> (forall ch', c_type ch' = t -> child ch' = k -> json_of v ch') ->
  json_of v (set_child k (set_type t ch)) /\ c_string (set_child k (set_type t ch)) = c_string ch /\ plain (set_child k (set_type t ch)).
Proof using.
  destruct ch as [a t' vs i d nm kids]. intros Hb Ht Hj. split; [by apply Hj|]. split; [done|]. by apply (plain_type _ t).
Qed.

Lemma blocks_parent ch t k : blank ch -> 0 <= t < 256 -> blocks (set_child k (set_type t ch)) ≡ₚ chain_blocks k ++ blocks ch.
Proof using.
  intros (Hp & _ & Hk) Ht. rewrite <- (blocks_set_type t ch Hp Ht). apply blocks_set_child; destruct ch; [by apply (plain_type _ t)|done].
Qed.

(** A list of parts between brackets, as children of an item. *)
Lemma container_ok {M} (text : M -> list Z) P part close t v i ch x l L k s r : 32 < close /\ close <> 44 -> 0 <= t < 256 ->
  Forall (sep_ok txt text P part close i) (x :: l) -> (forall ch' k, c_type ch' = t -> child ch' = k -> all2 P (map (fun x => snd (fst x)) (x :: l)) k -> json_of v ch') ->
  blank ch -> forall i', i < i' -> here i' (seps text (x :: l) ++ close :: r) -> heap (blocks ch ++ L) k s ->
  wp (r ← parse_parts txt part close i'; let '(k, value) := r in mret (set_child k (set_type t ch), value))
    (read_post (fun ch' => json_of v ch' /\ c_string ch' = c_string ch) i r L k s) s.
Proof using jheap.
  intros Hcl Ht HF Hj Hb i' Hi Hh Hs. eapply wp_call; [by apply (parse_parts_ok txt text P part close i Hcl x l i' r (blocks ch ++ L) k s)|].
  intros [kids [i''|]] s1 [E1 H1]; apply wp_ret; (split; [done|]); cbn [fst snd].
  - destruct H1 as (Hi1 & Hh1 & Hall & H1). destruct (set_child_post ch t kids v Hb Ht) as (H2 & H3 & H4); [by intros; by eapply Hj|].
    split; [done|]. split; [done|]. split; [done|]. split; [done|]. eapply heap_perm; [|exact H1]. rewrite blocks_parent by done. solve_Permutation.
  - destruct H1 as (k' & Hk & H1). exists k'. split; [done|]. eapply heap_perm; [|exact H1]. rewrite blocks_parent by done. solve_Permutation.
Qed.

Lemma empty_post v t ch i c r L k s : 0 <= t < 256 -> blank ch -> (forall ch', c_type ch' = t -> child ch' = [] -> json_of v ch') -> here i (c :: r) ->
  heap (blocks ch ++ L) k s -> read_post (fun ch' => json_of v ch' /\ c_string ch' = c_string ch) i r L k s (set_type t ch, Some (i + 1)) s.
Proof using.
  intros Ht (Hp & Hv & Hk) Hj Hh Hs. split; [done|]. cbn [fst snd]. split; [lia|]. split; [by eapply here_cons|]. destruct ch as [a t' vs vi vd nm kids].
  split; [split; [by apply Hj|done]|]. split; [by apply (plain_type _ t)|]. by rewrite blocks_set_type.
Qed.

Lemma parse_array_ok pv d i ch l c r L k s : Forall (reads pv i) l -> here i (render fmt d (JArr l) ++ c :: r) -> blank ch -> heap (blocks ch ++ L) k s ->
  wp (parse_array txt pv ch i) (read_post (fun ch' => json_of (JArr l) ch' /\ c_string ch' = c_string ch) i (c :: r) L k s) s.
Proof using jheap.
  intros HF Hh Hb Hs. cbn [render app] in Hh. unfold parse_array. eapply gives_wp; [by eapply rd_here|]. cbn [Z.eqb Pos.eqb negb]. cbv zeta. apply here_cons in Hh.
  rewrite <- app_assoc in Hh. cbn [app] in Hh. destruct l as [|v l].
  - cbn [map joined app] in Hh. eapply gives_wp; [by eapply skip_none; [exact Hh|right]|]. eapply gives_wp; [by eapply rd_here|]. cbn [default from_option id Z.eqb Pos.eqb].
    apply wp_ret. eapply (read_post_mono _ _ i (i + 1)); [intros ch' H; exact H|lia|done|]. eapply empty_post; [done|done| |exact Hh|done].
    intros ch' E Ek. cbn [json_of]. rewrite E, Ek. done.
  - destruct (render_head (d + 1) v) as (b & t & Eb & Hb32 & Hb93 & _).
    assert (exists q, joined (comma fmt) (map (render fmt (d + 1)) (v :: l)) ++ 93 :: c :: r = b :: q) as (q & Eq).
    { cbn [map joined]. rewrite Eb. by eexists. }
    rewrite Eq in Hh. eapply gives_wp; [eapply skip_none; [exact Hh|by right]|]. eapply gives_wp; [by eapply rd_here|]. cbn [default from_option id].
    rewrite (proj2 (Z.eqb_neq b 93)) by done. rewrite <- Eq, <- seps_array in Hh.
    apply (container_ok (render fmt (d + 1)) json_of (parse_element txt pv) 93 cJSON_Array (JArr (v :: l)) i ch ([], v, []) (array_parts l) L k s (c :: r)); [done|done| | |done|lia|done|done].
    + inversion HF as [|? ? Hv Hl]; subst. constructor; [split; [constructor|split; [constructor|by apply element_ok]]|].
      unfold array_parts. apply Forall_fmap. eapply Forall_impl; [exact Hl|]. intros u Hu. split; [destruct fmt; repeat constructor; lia|]. split; [constructor|by apply element_ok].
    + intros ch' kk E Ek Hall. cbn [json_of]. rewrite E, Ek. split; [done|]. unfold array_parts in Hall. cbn [map fst snd] in Hall. by rewrite map_map, map_id in Hall.
Qed.

(** ** Objects *)

Definition newline : list Z := if fmt then [10] else [].

Fixpoint object_parts (d : Z) (ws : list Z) (m : list Z * jvalue) (l : list (list Z * jvalue)) : list (list Z * (list Z * jvalue) * list Z) :=
  match l with
  | [] => [(ws, m, newline ++ indent fmt d)]
  | m' :: l => (ws, m, []) :: object_parts d (newline ++ indent fmt (d + 1)) m' l
  end.

Lemma seps_object d ws m l : seps (pair_ok (d + 1)) (object_parts d ws m l) =
  ws ++ pair_ok (d + 1) m ++ (match l with [] => [] | _ => [44] end) ++ newline ++ lines fmt (pair_text fmt (d + 1) <$> (member_pair fmt (d + 1) <$> l)) ++ indent fmt d.
Proof using.
  revert ws m. induction l as [|m' l IH]; intros ws m; [cbn [object_parts seps]; by rewrite app_nil_r|].
  cbn [object_parts seps]. rewrite IH. assert (object_parts d (newline ++ indent fmt (d + 1)) m' l <> []) as Hne by (by destruct l).
  destruct (object_parts d (newline ++ indent fmt (d + 1)) m' l); [done|]. cbn [app fmap list_fmap lines]. unfold pair_text at 2, member_text, pair_ok, member_pair at 2. cbn [fst snd].
  rewrite <- !app_assoc. do 6 f_equal. by destruct l.
Qed.

Lemma object_text d m l : newline ++ lines fmt (pair_text fmt (d + 1) <$> (member_pair fmt (d + 1) <$> m :: l)) ++ indent fmt d =
  (newline ++ indent fmt (d + 1)) ++ seps (pair_ok (d + 1)) (object_parts d [] m l).
Proof using.
  rewrite seps_object, app_nil_l. cbn [fmap list_fmap]. change (lines fmt (?t :: ?ts)) with (t ++ (match ts with [] => [] | _ => [44] end) ++ newline ++ lines fmt ts).
  unfold pair_text at 1, member_text, pair_ok, member_pair at 1. cbn [fst snd]. rewrite <- !app_assoc. destruct l; done.
Qed.

Lemma object_parts_members d ws m l : map (fun x => snd (fst x)) (object_parts d ws m l) = m :: l.
Proof using. revert ws m. induction l as [|m' l IH]; intros ws m; [done|]. cbn [object_parts map fst snd]. by rewrite IH. Qed.

Lemma ws_indent d : is_ws (newline ++ indent fmt d).
Proof using. unfold newline, indent, tabs. destruct fmt; [|constructor]. constructor; [lia|]. apply Forall_replicate. lia. Qed.

Lemma object_parts_ok part i d ws m l : is_ws ws -> Forall (part_spec txt (pair_ok (d + 1)) named part 125 i) (m :: l) ->
  Forall (sep_ok txt (pair_ok (d + 1)) named part 125 i) (object_parts d ws m l).
Proof using.
  revert ws m. induction l as [|m' l IH]; intros ws m Hws HF; apply list.Forall_cons in HF as [Hm HF]; cbn [object_parts].
  - repeat constructor; [done|apply ws_indent|done].
  - constructor; [repeat split; [done|constructor|done]|]. apply IH; [apply ws_indent|done].
Qed.

Lemma parse_object_ok pv d i ch l c r L k s : Forall (fun m => reads pv i (snd m)) l -> Forall (fun m => string_ok (fst m)) l ->
  here i (render fmt d (JObj l) ++ c :: r) -> blank ch -> heap (blocks ch ++ L) k s ->
  wp (parse_object txt pv ch i) (read_post (fun ch' => json_of (JObj l) ch' /\ c_string ch' = c_string ch) i (c :: r) L k s) s.
Proof using jheap.
  intros HF Hok Hh Hb Hs. unfold parse_object. destruct l as [|m l].
  - cbn [render app] in Hh. eapply gives_wp; [by eapply rd_here|]. cbn [Z.eqb Pos.eqb negb]. cbv zeta. apply here_cons in Hh. rewrite <- app_assoc in Hh. cbn [app] in Hh.
    assert (is_ws (if fmt then 10 :: tabs (d - 1) else [])) as Hws. { destruct fmt; [|constructor]. constructor; [lia|]. apply Forall_replicate. lia. }
    eapply gives_wp; [by eapply (skip_here txt _ _ 125); [exact Hh|exact Hws|right]|]. apply here_app in Hh. eapply gives_wp; [by eapply rd_here|].
    cbn [default from_option id Z.eqb Pos.eqb]. apply wp_ret. pose proof (zlen_nonneg (if fmt then 10 :: tabs (d - 1) else [])) as Hz.
    eapply (read_post_mono _ _ i _); [intros ch' H; exact H| |done|eapply empty_post; [done|done| |exact Hh|done]]; [lia|].
    intros ch' E Ek. cbn [json_of]. rewrite E, Ek. done.
  - rewrite render_obj in Hh by done. fold newline in Hh. cbn [app] in Hh. eapply gives_wp; [by eapply rd_here|]. cbn [Z.eqb Pos.eqb negb]. cbv zeta. apply here_cons in Hh. rewrite <- !app_assoc in Hh.
    set (ws := newline ++ indent fmt (d + 1)).
    assert (here (i + 1) (ws ++ seps (pair_ok (d + 1)) (object_parts d [] m l) ++ 125 :: c :: r)) as Hh1.
    { unfold ws. rewrite app_assoc, <- object_text. rewrite <- !app_assoc. exact Hh. }
    clear Hh. assert (exists q, seps (pair_ok (d + 1)) (object_parts d [] m l) ++ 125 :: c :: r = 34 :: q) as (q & Eq).
    { rewrite seps_object. unfold pair_ok, quote. by eexists. }
    pose proof Hh1 as Hh2. rewrite Eq in Hh2. eapply gives_wp; [eapply (skip_here txt _ ws 34); [exact Hh2|apply ws_indent|by right]|].
    apply here_app in Hh2. eapply gives_wp; [by eapply rd_here|]. cbn [default from_option id Z.eqb Pos.eqb]. apply here_app in Hh1. pose proof (zlen_nonneg ws).
    assert (Forall (sep_ok txt (pair_ok (d + 1)) named (parse_member txt pv) 125 i) (object_parts d [] m l)) as Hsep.
    { apply object_parts_ok; [constructor|]. apply Forall_forall. intros x Hx. apply member_ok; [by apply (proj1 (Forall_forall _ _) HF)|by apply (proj1 (Forall_forall _ _) Hok)]. }
    pose proof (object_parts_members d [] m l) as Hmem. destruct (object_parts d [] m l) as [|x xs]; [done|].
    apply (container_ok (pair_ok (d + 1)) named (parse_member txt pv) 125 cJSON_Object (JObj (m :: l)) i ch x xs L k s (c :: r)); [done|done|done| |done|lia|done|done].
    intros ch' kk E Ek Hall. cbn [json_of]. rewrite E, Ek. split; [done|]. rewrite Hmem in Hall. exact Hall.
Qed.
(** ** Values *)

Lemma scalar_post v ch ch' i t c r L k s : blank ch -> here i (t ++ c :: r) -> t <> [] -> json_of v ch' -> c_string ch' = c_string ch -> plain ch' -> blocks ch' ≡ₚ blocks ch ->
  heap (blocks ch ++ L) k s -> read_post (fun ch' => json_of v ch' /\ c_string ch' = c_string ch) i (c :: r) L k s (ch', Some (i + zlen t)) s.
Proof using.
  intros Hb Hh Ht Hv Hn Hp Hbl Hs. split; [done|]. cbn [fst snd]. split; [destruct t; [done|]; rewrite zlen_cons; pose proof (zlen_nonneg t); lia|].
  split; [by apply here_app|]. split; [done|]. split; [done|]. by rewrite Hbl.
Qed.

Lemma parse_value_ok v : jv_ok v -> forall depth i0, zlen txt - i0 <= Z.of_nat depth -> reads (parse_value txt depth) i0 v.
Proof using jheap math.
  induction v as [|b|n|str|l IH|l IH] using jvalue_tree_ind; intros Hok depth i0 Hdep d ch i c r L k s Hi Hh Hd Hb Hs;
    (destruct depth as [|depth]; [pose proof (here_lt _ _ _ _ _ Hh); lia|]);
    cbn [parse_value].
  - cbn [render] in Hh. eapply gives_wp; [by eapply starts_with_here|]. apply wp_ret. destruct ch as [a t vs vi vd nm kids]. destruct Hb as (Hp & Hv & Hk).
    apply (scalar_post _ _ _ i lit_null); [done|done|done|done|done|done|by rewrite blocks_set_type|done].
  - cbn [render] in Hh. destruct Hb as (Hp & Hv & Hk). destruct b.
    + eapply gives_wp; [by eapply starts_with_not; [exact Hh|]|]. eapply gives_wp; [by eapply starts_with_not; [exact Hh|]|]. eapply gives_wp; [by eapply starts_with_here|].
      apply wp_ret. destruct ch as [a t vs vi vd nm kids]. apply (scalar_post _ _ _ i lit_true); [done|done|done|done|done|done| |done].
      rewrite blocks_set_type by done. done.
    + eapply gives_wp; [by eapply starts_with_not; [exact Hh|]|]. eapply gives_wp; [by eapply starts_with_here|].
      apply wp_ret. destruct ch as [a t vs vi vd nm kids]. apply (scalar_post _ _ _ i lit_false); [done|done|done|done|done|done|by rewrite blocks_set_type|done].
  - cbn [render] in Hh. assert (exists b q, fmt_d n = b :: q /\ (b = 45 \/ isdigit b = true)) as (b & q & Eq & Hbd).
    { unfold fmt_d, dec_nat. destruct (Z.ltb_spec n 0); [eexists 45, _; split; [done|by left]|].
      destruct (dec_digits_spec (Z.to_nat n + 1) n ltac:(lia) ltac:(lia)) as (H1 & _ & b & q & E & _). rewrite E in H1 |- *. apply Forall_inv in H1. exists b, q. split; [done|by right]. }
    assert (45 <= b <= 57) as Hb57 by (destruct Hbd as [-> | Hx]; [lia|]; unfold isdigit in Hx; bools; lia). assert ((b =? 45) || isdigit b = true) as Hbt by (by destruct Hbd as [-> | ->]; [|rewrite orb_true_r]).
    pose proof Hh as Hh1. rewrite Eq in Hh1. cbn [app] in Hh1. do 3 (eapply gives_wp; [eapply starts_with_not; [exact Hh1|lia]|]). eapply gives_wp; [by eapply rd_here|].
    rewrite (proj2 (Z.eqb_neq b 34)), Hbt by lia. cbn [jv_ok] in Hok. pose proof (parse_number_here txt ch n i c r Hh Hd Hok) as Hg. unfold wp. rewrite Hg.
    destruct ch as [a t vs vi vd nm kids]. destruct Hb as (Hp & Hv & Hk).
    apply (scalar_post _ _ _ i (fmt_d n)); [done|done|by rewrite Eq|done|done|done| |done].
    rewrite blocks_set_type by done. done.
  - cbn [render] in Hh. pose proof Hh as Hh1. unfold quote in Hh1. cbn [app] in Hh1. do 3 (eapply gives_wp; [by eapply starts_with_not; [exact Hh1|]|]). eapply gives_wp; [by eapply rd_here|].
    cbn [Z.eqb Pos.eqb]. eapply wp_mono; [by apply (parse_string_here txt ch str i (c :: r) (blocks ch ++ L) k s)|].
    intros [ch' [i'|]] s1 [E1 H1]; cbn [fst snd] in H1; (split; [done|]); cbn [fst snd].
    + destruct H1 as (-> & a & -> & H1). split; [unfold quote; rewrite zlen_cons; pose proof (zlen_nonneg ((str ≫= escape) ++ [34])); lia|]. split; [by eapply here_app|].
      destruct ch as [a' t vs vi vd nm kids]. destruct Hb as ([Hp1 Hp2] & Hv & Hk). cbn in Hv, Hk, Hp1, Hp2. subst. split; [split; [split; [done|by exists a]|done]|]. split; [done|].
      eapply heap_perm; [|exact H1]. cbn [set_type set_valuestring]. rewrite !blocks_plain by done. cbn [str_blocks str_addr]. solve_Permutation.
    + destruct H1 as [-> H1]. exists (S k). split; [lia|done].
  - pose proof Hh as Hh1. cbn [render app] in Hh1. do 3 (eapply gives_wp; [by eapply starts_with_not; [exact Hh1|]|]). eapply gives_wp; [by eapply rd_here|].
    cbn [Z.eqb Pos.eqb]. eapply parse_array_ok; [|exact Hh|done|done]. cbn [jv_ok] in Hok. apply all1_Forall in Hok. apply Forall_forall. intros v Hv.
    apply (proj1 (Forall_forall _ _) IH v Hv); [by apply (proj1 (Forall_forall _ _) Hok)|lia].
  - pose proof Hh as Hh1. cbn [jv_ok] in Hok. apply all1_Forall in Hok. assert (exists q, render fmt d (JObj l) ++ c :: r = 123 :: q) as [q Eq] by (destruct l; by eexists).
    rewrite Eq in Hh1. do 3 (eapply gives_wp; [by eapply starts_with_not; [exact Hh1|]|]). eapply gives_wp; [by eapply rd_here|].
    cbn [Z.eqb Pos.eqb]. eapply parse_object_ok; [| |exact Hh|done|done]; apply Forall_forall; intros m Hm; pose proof (proj1 (Forall_forall _ _) Hok m Hm) as Hm'; destruct m as [key v], Hm'; [|done].
    apply (proj1 (Forall_forall _ _) IH (key, v) Hm); [done|lia].
Qed.

(** ** Texts *)

Lemma ParseWithOpts_ok v L k s require d : jv_ok v -> txt = render fmt d v ++ [0] -> heap L k s ->
  wp (cJSON_ParseWithOpts txt 0 require) (fun r s' => ep s' = None /\ match r with
    | None => exists k', (k < k')%nat /\ heap L k' s'
    | Some (c, end_) => end_ = zlen (render fmt d v) /\ json_of v c /\ c_string c = None /\ plain c /\ heap (blocks c ++ L) k s'
    end) s.
Proof using jheap math.
  intros Hok Ht Hs. unfold cJSON_ParseWithOpts. eapply wp_call; [by apply new_item_ok|]. intros [ch|] s1 [E1 H1].
  2:{ apply wp_bind, wp_modify, wp_ret. split; [done|]. exists (S k). split; [lia|]. by apply (heap_fields _ _ s1). }
  destruct H1 as (a & -> & H1). apply wp_bind, wp_modify. set (s2 := set_ep None s1). assert (heap (blocks (fresh_item a) ++ L) k s2) as H2 by (by apply (heap_fields _ _ s1)).
  assert (here 0 (render fmt d v ++ [0])) as Hh by (split; [lia|by rewrite drop_0]). destruct (render_head d v) as (b & q & Eq & Hb & _).
  pose proof Hh as Hh1. rewrite Eq in Hh1. eapply gives_wp; [eapply skip_none; [exact Hh1|by right]|].
  eapply wp_call; [eapply (parse_value_ok v Hok (fuel txt) (-1)); [unfold fuel, zlen; lia|lia|exact Hh|by split|apply fresh_blank|exact H2]|].
  intros [c [i|]] s3 [E3 H3]; cbn [fst snd] in H3.
  - destruct H3 as (_ & Hh3 & [Hv Hn] & Hp & H3). assert (i = zlen (render fmt d v)) as ->.
    { pose proof (here_len _ _ _ Hh3 ltac:(done)) as Hl. rewrite Ht, zlen_app in Hl. change (zlen [0]) with 1 in Hl. lia. }
    destruct require; [|by apply wp_ret].
    eapply gives_wp; [eapply skip_none; [exact Hh3|by left]|]. eapply gives_wp; [by eapply rd_here|]. by apply wp_ret.
  - destruct H3 as (k' & Hk & H3). eapply wp_call; [by apply delete_one_ok|]. intros _ s4 [E4 H4]. apply wp_ret. split; [by rewrite E4, E3|]. by exists k'.
Qed.
End values.
