(* ===== verification/CJsonSafe.v ===== *)
(** The parser of [CJsonParse] on any text: it always ends; if it returns an item, no
    allocation has failed and the item owns all the memory taken; if it returns nothing, all the
    memory has been given back and, unless an allocation has failed, the error pointer points
    into the text.  Undefined behaviour is not excluded here: a text can drive the parser
    out of its bounds. *)
From Stdlib Require Import ZArith Lia Bool.
From S2P Require Import Prelude CSem CDouble CJson CJsonParse CJsonHeap CJsonValueProof.
From stdpp Require Import base list numbers option gmap.

Open Scope Z_scope.

Section safe.
Context {env : JsonEnv} {jheap : JsonHeap}.
Variable txt : list Z.

#[local] Notation ends := (ends True).

Definition left_ (i : Z) : nat := Z.to_nat (zlen txt - i).

Lemma left_fuel i : 0 <= i -> (left_ i < fuel txt)%nat.
Proof using. unfold left_, fuel, zlen. lia. Qed.

Lemma left_lt i j : i < j -> i < zlen txt -> (left_ j < left_ i)%nat.
Proof using. unfold left_. lia. Qed.

(** ** Reading *)

Lemma rd_safe i s : ends (rd txt i) (fun _ s' => s' = s /\ 0 <= i < zlen txt) s.
Proof using.
  unfold rd. destruct ((0 <=? i) && (i <? zlen txt)) eqn:E; [|by apply ends_undefined]. bools. by apply ends_ret.
Qed.

Lemma while_safe {L} (pos : L -> Z) (body : L -> C json (ctl L unit)) l s : 0 <= pos l ->
  (forall l s', s' = s -> 0 <= pos l -> ends (body l) (fun c s'' => s'' = s /\ match c with
    | Next l' => pos l < pos l' /\ pos l < zlen txt | Exit l' => pos l <= pos l' | Return _ => False end) s') ->
  ends (while (fuel txt) body l) (fun l' s' => s' = s /\ pos l <= pos l') s.
Proof using.
  intros Hl Hb. unfold while. eapply ends_call.
  - apply (ends_loop True (fun n l1 s1 => s1 = s /\ pos l <= pos l1 /\ n = left_ (pos l1)) body
      (fun r s' => s' = s /\ match r with inl l' => pos l <= pos l' | inr _ => False end) _ (left_ (pos l))); [|by apply left_fuel|done].
    intros n l1 s1 (-> & Hp & ->). eapply ends_mono; [apply (Hb l1 s); [done|lia]|]. intros [l2|l2|r] s2 (-> & H2); [|split; [done|lia]|done].
    exists (left_ (pos l2)). split; [apply left_lt; lia|]. split; [done|]. split; [lia|done].
  - intros [l'|r] s' [-> H]; [by apply ends_ret|done].
Qed.

Ltac read := eapply ends_call; [apply rd_safe|]; let c := fresh "rdc" in let st := fresh "st" in let H := fresh "Hrd" in intros c st [-> H].

Lemma skip_safe i s : 0 <= i -> ends (skip txt (Some i)) (fun r s' => s' = s /\ exists i', r = Some i' /\ i <= i') s.
Proof using.
  intros Hi. unfold skip. eapply ends_call; [apply (while_safe id (skip_body txt) i s Hi)|].
  - intros l s' -> Hl. unfold skip_body. read. destruct (_ && _); apply ends_ret; (split; [done|]); cbn; lia.
  - intros i' s' [-> H]. apply ends_ret. split; [done|]. by exists i'.
Qed.

Lemma skip_null s : ends (skip txt None) (fun r s' => s' = s /\ r = None) s.
Proof using. done. Qed.

Lemma starts_with_safe w i s : ends (starts_with txt i w) (fun _ s' => s' = s) s.
Proof using. revert i. induction w as [|c w IH]; intros i; cbn [starts_with]; [by apply ends_ret|]. read. destruct (_ =? _); [apply IH|by apply ends_ret]. Qed.

Lemma digits_safe frac n scale i s : 0 <= i ->
  ends (while (fuel txt) (digits_body txt frac) (n, scale, i)) (fun r s' => s' = s /\ i <= snd r) s.
Proof using.
  intros Hi. apply (while_safe snd _ (n, scale, i) s Hi). intros [[n' scale'] j] s' -> Hj. unfold digits_body. read. cbv zeta. read. apply ends_ret. cbn in *.
  split; [done|]. destruct (isdigit _); cbn; lia.
Qed.

Lemma exponent_safe i s : 0 <= i -> ends (parse_exponent txt i) (fun r s' => s' = s /\ i <= snd r) s.
Proof using.
  intros Hi. unfold parse_exponent. read. destruct (_ || _); [|by apply ends_ret; cbn; split; [|lia]]. cbv zeta. read.
  assert (forall (sg : Z) j, i <= j -> ends (r ← while (fuel txt) (exponent_body txt) (0, j); let '(subscale, num) := r in mret (subscale, sg, num)) (fun r s' => s' = s /\ i <= snd r) s) as H'.
  { intros sg j Hj. eapply ends_call; [apply (while_safe snd _ (0, j) s)|].
    - cbn. lia.
    - intros [v p] s' -> Hp. unfold exponent_body. read. destruct (isdigit _); [|apply ends_ret; split; [done|cbn; lia]].
      cbv zeta. destruct (_ <=? _); [by apply ends_undefined|]. apply ends_ret. cbn in *. split; [done|lia].
    - intros [v p] s' [-> Hp]. apply ends_ret. cbn in *. split; [done|lia]. }
  destruct (_ =? _); [apply H'; lia|]. destruct (_ =? _); apply H'; lia.
Qed.

Lemma hex4_safe n h i s : ends (hex4_loop txt n h i) (fun _ s' => s' = s) s.
Proof using.
  revert h i. induction n as [|n IH]; intros h i; cbn [hex4_loop]; [by apply ends_ret|]. read. destruct (hex_value _); [apply IH|by apply ends_ret].
Qed.

Lemma put_safe cap buf t s : ends (put cap buf t) (fun _ s' => s' = s) s.
Proof using. unfold put. destruct (_ <=? _); [by apply ends_ret|by apply ends_undefined]. Qed.

Ltac pure := eapply ends_call; [first [apply put_safe | apply hex4_safe | apply starts_with_safe]|]; let v := fresh "v" in let st := fresh "st" in cbv beta; intros v st ->.

Lemma unicode_safe cap i buf s : ends (unicode_escape txt cap i buf) (fun r s' => s' = s /\ i <= fst r) s.
Proof using.
  unfold unicode_escape, parse_hex4. pure. cbv zeta. destruct (_ || _); [apply ends_ret; split; [done|cbn; lia]|].
  destruct (_ && _); [|pure; apply ends_ret; split; [done|cbn; lia]]. read. destruct (negb _); [apply ends_ret; split; [done|cbn; lia]|].
  read. destruct (negb _); [apply ends_ret; split; [done|cbn; lia]|]. pure. destruct (_ || _); [apply ends_ret; split; [done|cbn; lia]|].
  pure. apply ends_ret. split; [done|cbn; lia].
Qed.

Lemma string_bytes_safe cap i buf s : 0 <= i -> ends (while (fuel txt) (string_body txt cap) (i, buf)) (fun r s' => s' = s /\ i <= fst r) s.
Proof using.
  intros Hi. apply (while_safe fst _ (i, buf) s Hi). intros [p b] s' -> Hp. unfold string_body. read. cbn [fst] in *.
  destruct (_ && _); [|apply ends_ret; split; [done|cbn; lia]]. destruct (negb _); [pure; apply ends_ret; split; [done|cbn; lia]|].
  cbv zeta. read. eapply (ends_call _ _ _ (fun r s' => s' = s /\ p + 1 <= fst r)).
  - destruct (_ =? _); [apply unicode_safe|]. pure. apply ends_ret. split; [done|cbn; lia].
  - intros [p' b'] s' [-> H']. apply ends_ret. cbn in *. split; [done|lia].
Qed.

(** ** Results *)

(** An item owns what has been taken; success means that no allocation has failed. *)
Definition safe_post (i : Z) (L : list Z) (k : nat) (s : json) (r : cJSON * option Z) (s' : json) : Prop :=
  plain (fst r) /\ exists k', heap (blocks (fst r) ++ L) k' s' /\
    match snd r with
    | Some i' => i <= i' /\ k' = k /\ ep s' = ep s
    | None => (k < k')%nat \/ k' = k /\ exists j, ep s' = Some j /\ 0 <= j < zlen txt
    end.

Lemma fail_safe ch i i' L k s : plain ch -> heap (blocks ch ++ L) k s -> 0 <= i' < zlen txt -> ends (fail_at ch i') (safe_post i L k s) s.
Proof using.
  intros Hp Hs Hi. unfold fail_at. apply ends_bind. unfold ends. cbn. split; [done|]. exists k. split; [by apply (heap_fields _ _ s)|]. right. split; [done|]. by exists i'.
Qed.

Lemma parse_number_safe ch i L k s : blank ch -> 0 <= i -> heap (blocks ch ++ L) k s -> ends (parse_number txt ch i) (safe_post i L k s) s.
Proof using.
  intros (Hp & Hv & Hk) Hi Hs. unfold parse_number. read.
  assert (forall sign i1, i <= i1 -> ends (c ← rd txt i1; let num := if c =? 48 then i1 + 1 else i1 in c ← rd txt num;
    r ← (if (49 <=? c) && (c <=? 57) then while (fuel txt) (digits_body txt false) (d_of_Z 0, d_of_Z 0, num) else mret (d_of_Z 0, d_of_Z 0, num));
    let '(n, scale, num) := r in
    c ← rd txt num;
    c1 ← (if c =? 46 then rd txt (num + 1) else mret 0);
    r ← (if isdigit c1 then while (fuel txt) (digits_body txt true) (n, scale, num + 1) else mret (n, scale, num));
    let '(n, scale, num) := r in
    r ← parse_exponent txt num;
    let '(subscale, signsubscale, num) := r in
    let n := dmul (dmul sign n) (libm_pow (d_of_Z 10) (dadd scale (d_of_Z (subscale * signsubscale)))) in
    match d_to_int n with
    | None => undefined
    | Some i => mret (set_type cJSON_Number (set_numbers i n ch), Some num)
    end) (safe_post i L k s) s) as H'.
  { intros sign i1 Hi1. read. cbv zeta. match goal with |- context [if ?b then i1 + 1 else i1] => set (i2 := if b then i1 + 1 else i1) end. assert (i1 <= i2) by (unfold i2; destruct (_ =? _); lia). clearbody i2. read.
    eapply (ends_call _ _ _ (fun r s' => s' = s /\ i2 <= snd r)).
    { destruct (_ && _); [apply digits_safe; lia|apply ends_ret; split; [done|cbn; lia]]. }
    intros [[n scale] i3] s' [-> H3]. cbn [snd] in H3. read.
    eapply (ends_call _ _ _ (fun r s' => s' = s)). { destruct (_ =? _); [|by apply ends_ret]. eapply ends_mono; [apply rd_safe|]. by intros ? ? [-> _]. }
    cbv beta. intros c1 s' ->. eapply (ends_call _ _ _ (fun r s' => s' = s /\ i3 <= snd r)).
    { destruct (isdigit _); [|apply ends_ret; split; [done|cbn; lia]]. eapply ends_mono; [apply digits_safe; lia|]. intros r s' [-> Hr]. split; [done|lia]. }
    intros [[n' scale'] i4] s' [-> H4]. cbn [snd] in H4. eapply ends_call; [apply exponent_safe; lia|]. intros [[subscale sg] i5] s' [-> H5]. cbn [snd] in H5. cbv zeta.
    destruct (d_to_int _) as [v|]; [|by apply ends_undefined]. apply ends_ret. destruct ch. split; [by apply (plain_type _ cJSON_Number)|].
    exists k. cbn [fst snd]. split; [|split; [lia|done]]. by rewrite blocks_set_type. }
  destruct (_ =? _); apply H'; lia.
Qed.

(** The string is the item's value, or the item is as it was. *)
Lemma parse_string_safe ch i L k s : 0 <= i -> heap L k s -> ends (parse_string txt ch i) (fun r s' => match snd r with
    | Some i' => i <= i' /\ ep s' = ep s /\ exists a t, fst r = set_type cJSON_String (set_valuestring (Some (mkCstr a t)) ch) /\ heap (a :: L) k s'
    | None => fst r = ch /\ (heap L (S k) s' \/ heap L k s' /\ exists j, ep s' = Some j /\ 0 <= j < zlen txt)
    end) s.
Proof using jheap.
  intros Hi Hs. unfold parse_string. read. destruct (negb _).
  { apply ends_bind. unfold ends. cbn. split; [done|]. right. split; [by apply (heap_fields _ _ s)|]. by exists i. }
  eapply ends_call.
  { apply (while_safe fst (string_len_body txt) (i + 1, 0) s); [cbn; lia|]. intros [p len] s' -> Hp. unfold string_len_body. read. cbn [fst] in *.
    destruct (_ && _); apply ends_ret; (split; [done|]); cbn; [destruct (_ =? _); lia|lia]. }
  intros [p len] s' [-> _]. cbn [snd]. cbv zeta. eapply ends_call; [by apply ends_wp, jmalloc_ok|]. intros [a|] s1 [E1 H1].
  2:{ apply ends_ret. cbn. split; [done|]. by left. }
  eapply ends_call; [apply string_bytes_safe; lia|]. intros [p' buf] s' [-> Hp']. cbn [fst] in Hp'. pure. read. apply ends_ret. cbn [fst snd].
  split; [destruct (_ =? _); lia|]. split; [done|]. exists a, (before_nul buf). by split.
Qed.

(** ** Parts *)

Section values.
Variable pv : cJSON -> option Z -> C json (cJSON * option Z).
Variable i0 : Z.
Hypothesis Hi0 : 0 <= i0.
Hypothesis Hpv : forall ch i L k s, i0 < i -> blank ch -> heap (blocks ch ++ L) k s -> ends (pv ch (Some i)) (safe_post i L k s) s.

Lemma element_safe ch i L k s : i0 < i -> blank ch -> heap (blocks ch ++ L) k s -> ends (parse_element txt pv ch i) (safe_post i L k s) s.
Proof using Hi0 Hpv.
  intros Hi Hb Hs. unfold parse_element. eapply ends_call; [apply skip_safe; lia|]. intros r s' [-> (i1 & -> & H1)].
  eapply ends_call; [by apply (Hpv ch i1 L k s); [lia| |]|]. intros [ch' [i2|]] s2 (Hp & k' & H2 & H3); cbn [fst snd] in *.
  - destruct H3 as (Hi2 & -> & E2). eapply ends_call; [apply skip_safe; lia|]. intros r s' [-> (i3 & -> & Hi3)]. apply ends_ret. split; [done|]. exists k.
    split; [done|]. cbn [snd]. split; [lia|done].
  - eapply ends_call; [apply skip_null|]. intros r s' [-> ->]. apply ends_ret. split; [done|]. by exists k'.
Qed.

Lemma member_safe a i L k s : i0 < i -> heap (a :: L) k s -> ends (parse_member txt pv (fresh_item a) i) (safe_post i L k s) s.
Proof using Hi0 Hpv jheap.
  intros Hi Hs. unfold parse_member. eapply ends_call; [apply skip_safe; lia|]. intros r s' [-> (i1 & -> & H1)]. cbn [default from_option id].
  eapply ends_call; [by apply (parse_string_safe (fresh_item a) i1 (a :: L) k s); [lia|]|]. intros [ch' [i2|]] s2 H2; cbn [fst snd] in *.
  - destruct H2 as (Hi2 & E2 & b & t & -> & H2). eapply ends_call; [apply skip_safe; lia|]. intros r s' [-> (i3 & -> & Hi3)]. cbv zeta.
    destruct (blocks_key b t (fresh_item a) ltac:(done) ltac:(done)) as [Hbl Hbk]. read. set (key := set_valuestring None _).
    change (set_valuestring None (set_string (Some (mkCstr b t)) (set_type cJSON_String (set_valuestring (Some (mkCstr b t)) (fresh_item a))))) with key in *.
    assert (heap (blocks key ++ L) k s2) as H3 by (by rewrite Hbl). destruct (negb _).
    + eapply ends_mono; [apply (fail_safe key i i3 L k s2); [apply Hbk|done|done]|]. intros r s' (Hp & k' & H4 & H5). split; [done|]. exists k'. split; [done|].
      destruct (snd r); [|done]. by rewrite E2 in H5.
    + eapply ends_mono; [by apply (element_safe key (i3 + 1) L k s2); [lia| |]|]. intros r s' (Hp & k' & H4 & H5). split; [done|]. exists k'. split; [done|].
      destruct (snd r); [|done]. rewrite E2 in H5. destruct H5 as (? & ? & ?). split; [lia|done].
  - destruct H2 as [-> H2]. eapply ends_call; [apply skip_null|]. intros r s' [-> ->]. apply ends_ret. split; [done|]. cbn [fst snd].
    destruct H2 as [H2 | [H2 Hj]]; [exists (S k); split; [done|left; lia]|exists k; split; [done|by right]].
Qed.

Section parts.
Variable part : cJSON -> Z -> C json (cJSON * option Z).
Hypothesis Hpart : forall a i L k s, i0 < i -> heap (a :: L) k s -> ends (part (fresh_item a) i) (safe_post i L k s) s.

Definition kids_post (i : Z) (L : list Z) (k : nat) (s : json) (r : list cJSON * option Z) (s' : json) : Prop :=
  exists k', heap (chain_blocks (fst r) ++ L) k' s' /\
    match snd r with
    | Some i' => i <= i' /\ k' = k /\ ep s' = ep s
    | None => (k < k')%nat \/ k' = k /\ exists j, ep s' = Some j /\ 0 <= j < zlen txt
    end.

Lemma parts_safe close i L k s : i0 < i -> heap L k s -> ends (parse_parts txt part close i) (kids_post i L k s) s.
Proof using Hi0 Hpart jheap.
  intros Hi Hs. unfold parse_parts. eapply ends_call; [by apply ends_wp, new_item_ok|]. intros [ch|] s1 [E1 H1].
  2:{ apply ends_ret. exists (S k). split; [done|]. cbn [snd]. left. lia. }
  destruct H1 as (a & -> & H1). eapply ends_call; [by apply (Hpart a i L k s1)|]. intros [ch [i1|]] s2 (_ & k' & H2 & H3); cbn [fst snd] in *.
  2:{ apply ends_ret. exists k'. cbn [fst snd]. by rewrite chain_blocks_one. }
  destruct H3 as (Hi1 & -> & E2). eapply (ends_call _ _ _ (fun r s' => match r with
    | inl (kids, i') => i <= i' /\ heap (chain_blocks kids ++ L) k s' /\ ep s' = ep s
    | inr r => kids_post i L k s r s' end)).
  - apply (ends_loop True (fun n x s' => n = left_ (snd x) /\ i <= snd x /\ heap (chain_blocks (fst x) ++ L) k s' /\ ep s' = ep s) _ _ _ (left_ i1));
      [|apply left_fuel; lia|cbn [fst snd]; rewrite chain_blocks_one, E2, E1; done].
    intros n [kids p] s' (-> & Hp & H4 & E4). cbn [fst snd] in *. unfold parts_body. read. destruct (_ =? _); [|by apply ends_ret].
    eapply ends_call; [by apply ends_wp, new_item_ok|]. intros [c'|] s5 [E5 H5].
    2:{ apply ends_ret. exists (S k). cbn [fst snd]. split; [done|left; lia]. }
    destruct H5 as (b & -> & H5). eapply ends_call; [by apply (Hpart b (p + 1) (chain_blocks kids ++ L) k s5); [lia|]|].
    intros [c' [p'|]] s6 (_ & k' & H6 & H7); cbn [fst snd] in *; apply ends_ret.
    + destruct H7 as (Hp' & -> & E7). exists (left_ p'). split; [apply left_lt; lia|]. cbn [fst snd]. split; [done|]. split; [lia|]. split; [|congruence].
      rewrite chain_blocks_app, chain_blocks_one. eapply heap_perm; [|exact H6]. solve_Permutation.
    + exists k'. cbn [fst snd]. split; [|done]. rewrite chain_blocks_app, chain_blocks_one. eapply heap_perm; [|exact H6]. solve_Permutation.
  - intros [[kids p]|[kids r]] s' H4.
    + destruct H4 as (Hp & H4 & E4). read. destruct (_ =? _).
      * apply ends_ret. exists k. cbn [fst snd]. split; [done|]. split; [lia|done].
      * unfold fail_at. apply ends_bind. unfold CSem.ends. cbn. exists k. split; [by apply (heap_fields _ _ s')|]. right. split; [done|]. by exists p.
    + by apply ends_ret.
Qed.
End parts.

(** A list of parts, as children of an item. *)
Lemma container_safe part t close ch i i1 L k s : 0 <= t < 256 -> blank ch -> i0 <= i -> i < i1 ->
  (forall a i L k s, i0 < i -> heap (a :: L) k s -> ends (part (fresh_item a) i) (safe_post i L k s) s) -> heap (blocks ch ++ L) k s ->
  ends (r ← parse_parts txt part close i1; let '(k, value) := r in mret (set_child k (set_type t ch), value)) (safe_post i L k s) s.
Proof using Hi0 jheap.
  intros Ht Hb Hi Hi1 Hpart Hs. eapply ends_call; [by apply (parts_safe part Hpart close i1 (blocks ch ++ L) k s); [lia|]|].
  intros [kids r] s' (k' & H1 & H2). apply ends_ret. cbn [fst snd] in *. split; [destruct ch; by apply (plain_type _ t)|]. exists k'. cbn [fst snd].
  split; [rewrite blocks_parent by done; by rewrite <- app_assoc|]. destruct r; [destruct H2; split; [lia|done]|done].
Qed.

Lemma array_safe ch i L k s : i0 <= i -> blank ch -> heap (blocks ch ++ L) k s -> ends (parse_array txt pv ch i) (safe_post i L k s) s.
Proof using Hi0 Hpv jheap.
  intros Hi Hb Hs. pose proof Hb as (Hp & _ & _). unfold parse_array. read. destruct (negb _); [by apply fail_safe|]. cbv zeta.
  eapply ends_call; [apply skip_safe; lia|]. intros r s' [-> (i1 & -> & H1)]. cbn [default from_option id]. read. destruct (_ =? _).
  - apply ends_ret. split; [destruct ch; by apply (plain_type _ cJSON_Array)|]. exists k. cbn [fst snd]. rewrite blocks_set_type by done. split; [done|]. split; [lia|done].
  - apply container_safe; [done|done|done|lia| |done]. intros a j L' k' s' Hj Ha. by apply element_safe; [|apply fresh_blank|].
Qed.

Lemma object_safe ch i L k s : i0 <= i -> blank ch -> heap (blocks ch ++ L) k s -> ends (parse_object txt pv ch i) (safe_post i L k s) s.
Proof using Hi0 Hpv jheap.
  intros Hi Hb Hs. pose proof Hb as (Hp & _ & _). unfold parse_object. read. destruct (negb _); [by apply fail_safe|]. cbv zeta.
  eapply ends_call; [apply skip_safe; lia|]. intros r s' [-> (i1 & -> & H1)]. cbn [default from_option id]. read. destruct (_ =? _).
  - apply ends_ret. split; [destruct ch; by apply (plain_type _ cJSON_Object)|]. exists k. cbn [fst snd]. rewrite blocks_set_type by done. split; [done|]. split; [lia|done].
  - apply container_safe; [done|done|done|lia| |done]. intros a j L' k' s' Hj Ha. by apply member_safe.
Qed.
End values.

Lemma scalar_safe ch ch' i i' L k s : plain ch' -> blocks ch' = blocks ch -> i <= i' -> heap (blocks ch ++ L) k s -> ends (mret (ch', Some i')) (safe_post i L k s) s.
Proof using. intros Hp E Hi Hs. apply ends_ret. split; [done|]. exists k. cbn [fst snd]. by rewrite E. Qed.

Lemma parse_value_safe depth : forall ch i L k s, 0 <= i -> Z.max 0 (zlen txt - i) < Z.of_nat depth -> blank ch -> heap (blocks ch ++ L) k s ->
  ends (parse_value txt depth ch (Some i)) (safe_post i L k s) s.
Proof using jheap.
  induction depth as [|depth IH]; intros ch i L k s Hi Hdep Hb Hs; pose proof Hb as (Hp & Hv & Hk); cbn [parse_value].
  { lia. }
  pure. destruct v; [destruct ch; apply (scalar_safe (mkItem addr type valuestring valueint valuedouble string child)); [by apply (plain_type _ cJSON_NULL)|by apply blocks_set_type|lia|done]|].
  pure. destruct v; [destruct ch; apply (scalar_safe (mkItem addr type valuestring valueint valuedouble string child)); [by apply (plain_type _ cJSON_False)|by apply blocks_set_type|lia|done]|].
  pure. destruct v; [destruct ch; apply (scalar_safe (mkItem addr type valuestring valueint valuedouble string child)); [by apply (plain_type _ cJSON_True)|by rewrite blocks_set_type|lia|done]|].
  read. destruct (_ =? _); [|destruct (_ || _); [|destruct (_ =? _); [|destruct (_ =? _)]]].
  - eapply ends_mono; [by apply (parse_string_safe ch i (blocks ch ++ L) k s)|]. intros [ch' [i'|]] s' H; cbn [fst snd] in H.
    + destruct H as (Hi' & E & a & t & -> & H). destruct ch as [a' ty vs vi vd nm kids]. destruct Hp as [Hp1 Hp2]. cbn in Hv, Hk, Hp1, Hp2. subst.
      split; [done|]. exists k. cbn [fst snd]. split; [|done]. eapply heap_perm; [|exact H]. cbn [set_type set_valuestring]. rewrite !blocks_plain by done. cbn [str_blocks str_addr]. solve_Permutation.
    + destruct H as [-> H]. split; [done|]. cbn [fst snd]. destruct H as [H | [H Hj]]; [exists (S k); split; [done|left; lia]|exists k; split; [done|by right]].
  - by apply parse_number_safe.
  - apply (array_safe _ i); [done| |lia|done|done]. intros ch' j L' k' s' Hj Hb' Hs'. apply IH; [lia|lia|done|done].
  - apply (object_safe _ i); [done| |lia|done|done]. intros ch' j L' k' s' Hj Hb' Hs'. apply IH; [lia|lia|done|done].
  - by apply fail_safe.
Qed.

Lemma ParseWithOpts_safe i require L k s : 0 <= i -> heap L k s ->
  ends (cJSON_ParseWithOpts txt i require) (fun r s' => match r with
    | Some (c, end_) => i <= end_ /\ ep s' = None /\ heap (blocks c ++ L) k s'
    | None => (exists k', (k < k')%nat /\ heap L k' s') \/ heap L k s' /\ exists j, ep s' = Some j /\ 0 <= j < zlen txt
    end) s.
Proof using jheap.
  intros Hi Hs. unfold cJSON_ParseWithOpts. eapply ends_call; [by apply ends_wp, new_item_ok|]. intros [ch|] s1 [E1 H1].
  2:{ apply ends_bind. unfold CSem.ends. cbn. left. exists (S k). split; [lia|]. by apply (heap_fields _ _ s1). }
  destruct H1 as (a & -> & H1). apply ends_bind. unfold CSem.ends at 1. cbn [modify]. set (s2 := set_ep None s1).
  assert (heap (blocks (fresh_item a) ++ L) k s2) as H2 by (by apply (heap_fields _ _ s1)).
  eapply ends_call; [by apply skip_safe|]. intros r s' [-> (i1 & -> & Hi1)].
  eapply ends_call; [apply (parse_value_safe _ (fresh_item a) i1 L k s2); [lia|unfold fuel, zlen; lia|apply fresh_blank|done]|].
  intros [c [i2|]] s3 (_ & k' & H3 & H4); cbn [fst snd] in *.
  - destruct H4 as (Hi2 & -> & E3). destruct require; [|apply ends_ret; split; [lia|]; by split; [rewrite E3|]].
    eapply ends_call; [apply skip_safe; lia|]. intros r s' [-> (i3 & -> & Hi3)]. cbn [default from_option id]. cbv zeta. read. destruct (negb _); [|apply ends_ret; split; [lia|]; by split; [rewrite E3|]].
    eapply ends_call; [by apply ends_wp, delete_one_ok|]. intros u s4 [E4 H4]. apply ends_bind. unfold CSem.ends. cbn. right. split; [by apply (heap_fields _ _ s4)|]. by exists i3.
  - eapply ends_call; [by apply ends_wp, delete_one_ok|]. intros u s4 [E4 H5]. apply ends_ret. destruct H4 as [H4 | (-> & j & Ej & Hj)]; [left; by exists k'|right].
    split; [done|]. exists j. split; [by rewrite E4|done].
Qed.
End safe.
