(* ===== verification/CJsonOps.v ===== *)
(** Duplication, names and the children of items: what the operations of [CJson] do to the
    items and to memory; then minification. *)
From Stdlib Require Import ZArith Lia Bool.
From S2P Require Import Prelude CSem CDouble CJson CJsonParse CJsonPrint CJsonHeap CJsonPrintProof CJsonParseProof CJsonValueProof.
From stdpp Require Import base list numbers option gmap.

Open Scope Z_scope.

(** ** Duplication *)

(** An item without its addresses and without the reference flag, which a copy does not have. *)
Definition erase_str (s : option cstr) : option cstr := match s with Some s => Some (mkCstr 0 (str_bytes s)) | None => None end.

Fixpoint erase (c : cJSON) : cJSON :=
  match c with
  | mkItem _ t v i d s k => mkItem 0 (Z.land t (Z.lnot cJSON_IsReference)) (erase_str v) i d (erase_str s) (map erase k)
  end.

(** No name is marked constant. *)
Fixpoint no_const (c : cJSON) : Prop :=
  match c with mkItem _ t _ _ _ _ k => hasb t cJSON_StringIsConst = false /\ all1 no_const k end.

Definition copy_type (t : Z) : Z := Z.land t (Z.lnot cJSON_IsReference).

Lemma copy_type_plain t : hasb t cJSON_StringIsConst = false -> hasb (copy_type t) cJSON_IsReference = false /\ hasb (copy_type t) cJSON_StringIsConst = false.
Proof.
  intros H. unfold hasb, copy_type in *. rewrite <- !Z.land_assoc. change (Z.land (Z.lnot cJSON_IsReference) cJSON_IsReference) with 0.
  change (Z.land (Z.lnot cJSON_IsReference) cJSON_StringIsConst) with cJSON_StringIsConst. by rewrite Z.land_0_r.
Qed.

Lemma copy_type_idem t : Z.land (copy_type t) (Z.lnot cJSON_IsReference) = copy_type t.
Proof. unfold copy_type. rewrite <- Z.land_assoc. done. Qed.

Section dup.
Context {env : JsonEnv} {jheap : JsonHeap}.

Definition dup_post (want : cJSON) (L : list Z) (k : nat) (r : option cJSON) (s : json) : Prop :=
  match r with
  | None => exists k', (k < k')%nat /\ heap L k' s
  | Some c => erase c = erase want /\ heap (blocks c ++ L) k s
  end.

(** [s] is copied into the new item [n]. *)
Lemma copy_string_ok s (set : option cstr -> cJSON -> cJSON) n L k st : heap (blocks n ++ L) k st -> (s = None -> n = set None n) ->
  (forall c, blocks (set (Some c) n) ≡ₚ str_addr c :: blocks n) ->
  wp (copy_string s set n) (fun r st' => match r with
    | None => exists k', (k < k')%nat /\ heap L k' st'
    | Some n' => exists c, n' = set c n /\ erase_str c = erase_str s /\ heap (blocks n' ++ L) k st' end) st.
Proof using jheap.
  intros Hh Hn Hset. destruct s as [c|]; cbn [copy_string].
  - eapply wp_call; [by apply strdup_ok|]. intros [c'|] st1 [_ H1].
    + destruct H1 as [Hb H1]. apply wp_ret. exists (Some c'). split; [done|]. split; [cbn; by rewrite Hb|]. by rewrite Hset.
    + eapply wp_call; [by apply delete_one_ok|]. intros u st2 [_ H2]. apply wp_ret. exists (S k). split; [lia|done].
  - apply wp_ret. exists None. split; [by rewrite <- Hn|]. by split.
Qed.

Definition dups (c : cJSON) : Prop := forall L k s, no_const c -> heap L k s -> wp (duplicate c true) (dup_post c L k) s.

Lemma set_child_app n k c : set_child (child n ++ k ++ c) n = set_child ((child n ++ k) ++ c) n.
Proof using. by rewrite app_assoc. Qed.

Lemma blocks_add_child n c : plain n -> blocks (set_child (suffix_object (child n) [c]) n) ≡ₚ blocks c ++ blocks n.
Proof using.
  destruct n as [a t v i d s kids]. intros [H1 H2]. cbn in H1, H2. cbn [set_child child]. unfold suffix_object. rewrite !blocks_plain by done. rewrite chain_blocks_app, chain_blocks_one. solve_Permutation.
Qed.

Lemma duplicate_children_ok cs n L k s : Forall dups cs -> Forall no_const cs -> plain n -> heap (blocks n ++ L) k s ->
  wp (duplicate_children (fun c => duplicate c true) cs n) (fun r s' => match r with
    | None => exists k', (k < k')%nat /\ heap L k' s'
    | Some n' => exists new, n' = set_child (child n ++ new) n /\ map erase new = map erase cs /\ heap (blocks n' ++ L) k s' end) s.
Proof using.
  intros HF. revert n s. induction HF as [|c cs Hc _ IH]; intros n s Hno Hp Hh; cbn [duplicate_children].
  { apply wp_ret. exists []. rewrite app_nil_r. destruct n. split; [done|]. split; [done|exact Hh]. }
  apply list.Forall_cons in Hno as [Hnc Hno]. eapply wp_call; [by apply (Hc (blocks n ++ L) k)|]. intros [c'|] s1 H1; cbn [dup_post] in H1.
  - destruct H1 as [He H1]. eapply wp_mono; [apply (IH (set_child (suffix_object (child n) [c']) n) s1); [done|by destruct n|]|].
    { rewrite blocks_add_child by done. by rewrite <- app_assoc. }
    intros [n'|] s2 H2; [|done]. destruct H2 as (new & -> & Hnew & H2). exists (c' :: new). unfold suffix_object in *. destruct n as [a t v i d nm kids].
    cbn [set_child child] in *. rewrite <- app_assoc in *. split; [done|]. split; [cbn [map]; by rewrite He, Hnew|done].
  - destruct H1 as (k' & Hk & H1). eapply wp_call; [by apply delete_one_ok|]. intros u s2 [_ H2]. apply wp_ret. by exists k'.
Qed.

Lemma duplicate_ok_aux c recurse L k s : (recurse = true -> Forall dups (child c)) -> no_const c -> heap L k s ->
  wp (duplicate c recurse) (dup_post (if recurse then c else set_child [] c) L k) s.
Proof using jheap.
  destruct c as [a t v i d nm kids]. intros HF [Hc Hk] Hh. cbn [duplicate child] in *. fold (copy_type t).
  eapply wp_call; [by apply new_item_ok|]. intros [n|] s1 [_ H1]; [|by apply wp_ret; exists (S k); split; [lia|]].
  destruct H1 as (b & -> & H1). destruct (copy_type_plain t Hc) as [Hr Hs]. unfold fresh_item. cbn [set_type set_numbers].
  eapply wp_call.
  { apply (copy_string_ok v set_valuestring _ L k s1); [|by intros ->|].
    - rewrite blocks_plain by done. done.
    - intros x. cbn [set_valuestring]. rewrite !blocks_plain by done. cbn [str_blocks]. solve_Permutation. }
  intros [n1|] s2 H2; [|apply wp_ret; exact H2]. destruct H2 as (v' & -> & Ev & H2). cbn [set_valuestring] in *.
  eapply wp_call.
  { apply (copy_string_ok nm set_string _ L k s2); [exact H2|by intros ->|].
    intros x. cbn [set_string]. rewrite !blocks_plain by done. cbn [str_blocks]. solve_Permutation. }
  intros [n2|] s3 H3; [|apply wp_ret; exact H3]. destruct H3 as (nm' & -> & En & H3). cbn [set_string] in *. destruct recurse.
  - eapply wp_mono; [apply (duplicate_children_ok kids _ L k s3); [by apply HF|by apply all1_Forall|done|exact H3]|].
    intros [n3|] s4 H4; [|exact H4]. destruct H4 as (new & -> & Hnew & H4). split; [|exact H4]. cbn [set_child child app erase]. by rewrite Ev, En, Hnew, copy_type_idem.
  - apply wp_ret. split; [|exact H3]. cbn [set_child erase map]. by rewrite Ev, En, copy_type_idem.
Qed.

Lemma duplicate_ok c : dups c.
Proof using jheap.
  induction c as [a t v i d nm kids IH] using cJSON_tree_ind. intros L k s Hc Hh. by apply (duplicate_ok_aux (mkItem a t v i d nm kids) true).
Qed.
End dup.

(** ** Names *)

Lemma tolower_nonzero c : c <> 0 -> tolower c <> 0.
Proof. unfold tolower. destruct ((65 <=? c) && (c <=? 90)) eqn:E; bools; lia. Qed.

Lemma strcasecmp_eq s1 s2 : nonzero s1 -> nonzero s2 -> strcasecmp_loop s1 s2 = 0 <-> tolower <$> s1 = tolower <$> s2.
Proof.
  intros H1. revert s2. induction H1 as [|c1 s1 Hc1 _ IH]; intros s2 H2; destruct H2 as [|c2 s2 Hc2 H2]; cbn [strcasecmp_loop head tail default from_option id fmap list_fmap].
  - done.
  - pose proof (tolower_nonzero c2 Hc2). split; [intros; lia|done].
  - change (tolower 0) with 0. pose proof (tolower_nonzero c1 Hc1). rewrite (proj2 (Z.eqb_neq _ _)) by done. split; [intros; lia|done].
  - destruct (Z.eqb_spec (tolower c1) (tolower c2)) as [E | E].
    + rewrite (IH s2 H2). split; [intros; congruence|intros [= _ H]; done].
    + split; [intros; lia|intros [= H _]; done].
Qed.

(** Equal but for the case of letters. *)
Definition same_name (a b : option cstr) : Prop :=
  match a, b with Some a, Some b => tolower <$> str_bytes a = tolower <$> str_bytes b | None, None => True | _, _ => False end.

#[export] Instance same_name_dec a b : Decision (same_name a b).
Proof. destruct a, b; cbn; apply _. Defined.

Definition name_ok (a : option cstr) : Prop := match a with Some a => nonzero (str_bytes a) | None => True end.

Lemma strcasecmp_same a b : name_ok a -> name_ok b -> cJSON_strcasecmp a b = 0 <-> same_name a b.
Proof. destruct a, b; cbn; intros; [by apply strcasecmp_eq|done|done|done]. Qed.

(** ** Children *)

Lemma chain_at_drop c n : chain_at c n = drop (Z.to_nat n) c.
Proof.
  revert n. induction c as [|x c IH]; intros n; cbn [chain_at]; [by rewrite drop_nil|]. destruct (Z.ltb_spec 0 n).
  - rewrite IH. replace (Z.to_nat n) with (S (Z.to_nat (n - 1))) by lia. done.
  - by replace (Z.to_nat n) with 0%nat by lia.
Qed.

Lemma chain_before_app pre post : chain_before (pre ++ post) post = pre.
Proof. unfold chain_before. rewrite length_app. replace (length pre + length post - length post)%nat with (length pre) by lia. apply take_app_length. Qed.

(** The first item whose name is [name]. *)
Lemma chain_find_split c name i : Forall (fun x => name_ok (c_string x)) c -> name_ok name ->
  exists pre post, c = pre ++ post /\ chain_find c name i = (post, i + zlen pre) /\ Forall (fun x => ~ same_name (c_string x) name) pre /\
    match post with [] => True | x :: _ => same_name (c_string x) name end.
Proof.
  intros HF Hn. revert i. induction HF as [|x c Hx HF IH]; intros i.
  { exists [], []. cbn. rewrite Z.add_0_r. by repeat constructor. }
  cbn [chain_find]. destruct (Z.eqb_spec (cJSON_strcasecmp (c_string x) name) 0) as [E | E].
  - exists [], (x :: c). cbn [app]. split; [done|]. split; [unfold zlen; cbn; by rewrite Z.add_0_r|]. split; [constructor|]. by apply strcasecmp_same.
  - destruct (IH (i + 1)) as (pre & post & -> & Hf & Hpre & Hpost). exists (x :: pre), post. split; [done|]. split.
    + rewrite Hf. f_equal. unfold zlen. cbn. lia.
    + split; [|done]. constructor; [|done]. intros H. apply E. by apply strcasecmp_same.
Qed.

Lemma child_set_child k c : child (set_child k c) = k.
Proof. by destruct c. Qed.

Lemma set_child_set k k' c : set_child k (set_child k' c) = set_child k c.
Proof. by destruct c. Qed.

Lemma add_to_array array x : cJSON_AddItemToArray array [x] = set_child (child array ++ [x]) array.
Proof. destruct array as [a t v i d s [|c k]]; done. Qed.

Lemma blocks_children c k : plain c -> blocks (set_child k c) ≡ₚ chain_blocks k ++ blocks (set_child [] c).
Proof.
  destruct c as [a t v i d s kids]. intros [H1 H2]. cbn in H1, H2. cbn [set_child]. rewrite !blocks_plain by done. change (chain_blocks []) with (@nil Z). solve_Permutation.
Qed.

Lemma set_child_same c : set_child (child c) c = c.
Proof. by destruct c. Qed.

Section children.
Context {env : JsonEnv} {jheap : JsonHeap}.

(** The item at [which], taken out. *)
Lemma detach_split array pre x post which : child array = pre ++ x :: post -> 0 <= which -> zlen pre = which ->
  cJSON_DetachItemFromArray array which = (set_child (pre ++ post) array, Some x).
Proof using.
  intros E Hw Hz. unfold cJSON_DetachItemFromArray. rewrite chain_at_drop, E. unfold zlen in Hz. replace (Z.to_nat which) with (length pre) by lia.
  by rewrite drop_app_length, chain_before_app.
Qed.

Lemma insert_split array pre post which x next : child array = pre ++ post -> 0 <= which -> zlen pre = which -> post <> [] \/ next = [] ->
  cJSON_InsertItemInArray array which (x :: next) = mret (set_child (pre ++ x :: post) array).
Proof using.
  intros E Hw Hz Hp. unfold cJSON_InsertItemInArray. rewrite chain_at_drop, E. unfold zlen in Hz. replace (Z.to_nat which) with (length pre) by lia. rewrite drop_app_length.
  destruct post as [|y post].
  - destruct Hp as [? | ->]; [done|]. rewrite add_to_array, E. by rewrite app_nil_r.
  - by rewrite chain_before_app.
Qed.

Lemma replace_split array pre x post which y next L k s : plain array -> child array = pre ++ x :: post -> 0 <= which -> zlen pre = which ->
  heap (blocks y ++ blocks array ++ L) k s ->
  wp (cJSON_ReplaceItemInArray array which (y :: next)) (fun array' s' => array' = set_child (pre ++ y :: post) array /\ heap (blocks array' ++ L) k s') s.
Proof using.
  intros Hp E Hw Hz Hh. unfold cJSON_ReplaceItemInArray. rewrite chain_at_drop, E. unfold zlen in Hz. replace (Z.to_nat which) with (length pre) by lia.
  rewrite drop_app_length, chain_before_app.
  eapply wp_call; [apply (delete_one_ok x (blocks (set_child (pre ++ y :: post) array) ++ L) k s)|].
  { rewrite <- (set_child_same array), E, (blocks_children array (pre ++ x :: post)) in Hh by done. rewrite blocks_children by done.
    eapply heap_perm; [|exact Hh]. rewrite !chain_blocks_app. change (chain_blocks (?a :: ?b)) with (blocks a ++ chain_blocks b). solve_Permutation. }
  intros u s1 [_ H1]. by apply wp_ret.
Qed.

Lemma delete_split array pre x post which L k s : plain array -> child array = pre ++ x :: post -> 0 <= which -> zlen pre = which -> heap (blocks array ++ L) k s ->
  wp (cJSON_DeleteItemFromArray array which) (fun array' s' => array' = set_child (pre ++ post) array /\ heap (blocks array' ++ L) k s') s.
Proof using.
  intros Hp E Hw Hz Hh. unfold cJSON_DeleteItemFromArray. rewrite (detach_split array pre x post) by done. cbn [option_list].
  eapply wp_call; [apply (delete_one_ok x (blocks (set_child (pre ++ post) array) ++ L) k s)|].
  { rewrite <- (set_child_same array), E, (blocks_children array (pre ++ x :: post)) in Hh by done. rewrite blocks_children by done.
    eapply heap_perm; [|exact Hh]. rewrite !chain_blocks_app. change (chain_blocks (?a :: ?b)) with (blocks a ++ chain_blocks b). solve_Permutation. }
  intros u s1 [_ H1]. by apply wp_ret.
Qed.

(** Adding under a name: the old name is freed, the new one is a copy. *)
Lemma add_to_object_ok object name x L k s : plain object -> plain x -> heap (blocks x ++ blocks object ++ L) k s ->
  wp (cJSON_AddItemToObject object (Some name) [x]) (fun object' s' => exists copy k', object' = set_child (child object ++ [set_string copy x]) object /\
    (k <= k')%nat /\ heap (blocks object' ++ L) k' s' /\ match copy with Some c => str_bytes c = str_bytes name | None => (k < k')%nat end) s.
Proof using jheap.
  intros Hp Hx Hh. unfold cJSON_AddItemToObject. destruct x as [a t v i d nm kids]. destruct Hx as [H1 H2]. cbn in H1, H2. cbn [c_string].
  eapply wp_call; [apply (free_string_ok nm (blocks (mkItem a t v i d None kids) ++ blocks object ++ L) k s)|].
  { eapply heap_perm; [|exact Hh]. rewrite !blocks_plain by done. cbn [str_blocks]. solve_Permutation. }
  intros u s1 [_ Hs1]. eapply wp_call; [by apply strdup_ok|]. intros copy s2 [_ Hs2]. apply wp_ret. rewrite add_to_array. cbn [set_string].
  assert (blocks (set_child (child object ++ [mkItem a t v i d copy kids]) object) ≡ₚ str_blocks copy ++ blocks (mkItem a t v i d None kids) ++ blocks object) as Hbl.
  { rewrite blocks_children by done. rewrite <- (set_child_same object) at 3. rewrite (blocks_children object (child object)) by done.
    rewrite chain_blocks_app, chain_blocks_one, !blocks_plain by done. destruct copy; cbn [str_blocks]; solve_Permutation. }
  exists copy. destruct copy as [c|].
  - exists k. destruct Hs2 as [Hb Hs2]. split; [done|]. split; [lia|]. split; [|done]. rewrite Hbl. rewrite <- !app_assoc. exact Hs2.
  - exists (S k). split; [done|]. split; [lia|]. split; [|lia]. rewrite Hbl. rewrite <- !app_assoc. exact Hs2.
Qed.
End children.

(** [cJSON_Minify] of [CJson]: it turns the formatted text of a value into the unformatted
    one, in place. *)

(** ** The buffer

    [o] has been written, [gap] lies between the two pointers, the rest is to be read. *)

Lemma mrd_at pre c rest : mrd (zlen pre) (pre ++ c :: rest) = Done (c, pre ++ c :: rest).
Proof.
  unfold mrd, mbind, C_bind, gets. cbn. rewrite (proj2 (Z.leb_le _ _)), (proj2 (Z.ltb_lt _ _)) by zlens. cbn [andb]. unfold mret, C_ret. do 2 f_equal.
  unfold zget, zlen. rewrite Nat2Z.id. apply list_lookup_total_correct, list_lookup_middle. done.
Qed.

Lemma mwr_at pre x c rest : mwr (zlen pre) c (pre ++ x :: rest) = Done (tt, pre ++ c :: rest).
Proof.
  unfold mwr, mbind, C_bind, gets. cbn. rewrite (proj2 (Z.leb_le _ _)), (proj2 (Z.ltb_lt _ _)) by zlens. cbn [andb]. unfold modify, zset, zlen. do 2 f_equal.
  rewrite Nat2Z.id, insert_app_r_alt by lia. by rewrite Nat.sub_diag.
Qed.

Definition rd_buffer o gap rest (c : Z) : mrd (zlen (o ++ gap)) (o ++ gap ++ c :: rest) = Done (c, o ++ gap ++ c :: rest).
Proof. rewrite app_assoc. apply mrd_at. Qed.

Lemma mcopy_at (o gap rest : list Z) c : exists gap', zlen gap' = zlen gap /\
  mcopy (zlen (o ++ gap), zlen o) (o ++ gap ++ c :: rest) = Done ((zlen ((o ++ [c]) ++ gap'), zlen (o ++ [c])), (o ++ [c]) ++ gap' ++ rest).
Proof.
  assert (zlen o + 1 = zlen (o ++ [c])) as Ho by zlens.
  unfold mcopy, mbind, C_bind. rewrite rd_buffer. destruct gap as [|g gap].
  - exists []. split; [done|]. cbn [app]. rewrite mwr_at. unfold mret, C_ret. rewrite !app_nil_r, Ho, <- (app_assoc o [c] rest). done.
  - exists (gap ++ [c]). split; [zlens|]. cbn [app]. rewrite mwr_at. unfold mret, C_ret. rewrite Ho.
    assert (zlen (o ++ g :: gap) + 1 = zlen ((o ++ [c]) ++ gap ++ [c])) as -> by zlens. by rewrite <- !app_assoc.
Qed.

Lemma loop_to_next {S L R} n (body : L -> C S (ctl L R)) l l' s s' : body l s = Done (Next l', s') -> loop (Datatypes.S n) body l s = loop n body l' s'.
Proof. intros H. cbn [loop]. unfold mbind, C_bind. by rewrite H. Qed.

Lemma loop_to_exit {S L R} n (body : L -> C S (ctl L R)) l l' s s' : body l s = Done (Exit l', s') -> loop (Datatypes.S n) body l s = Done (inl l', s').
Proof. intros H. cbn [loop]. unfold mbind, C_bind. by rewrite H. Qed.

(** ** Consuming a token *)

Section minify.
Variable F : nat.

(** From a state with [rest] to read, the loop appends [out] and ends at the terminator. *)
Definition minifies (rest out : list Z) : Prop := forall n o gap, (length rest < n)%nat -> (length (o ++ gap ++ rest) < F)%nat ->
  exists j g x, loop n (minify_body F) (zlen (o ++ gap), zlen o) (o ++ gap ++ rest) = Done (inl (j, zlen (o ++ out)), (o ++ out) ++ x :: g) /\
    length ((o ++ out) ++ x :: g) = length (o ++ gap ++ rest).

Lemma minifies_end : minifies [0] [].
Proof using.
  intros n o gap Hn _. destruct n as [|n]; [cbn in Hn; lia|]. rewrite app_nil_r.
  erewrite loop_to_exit by (unfold minify_body, mbind, C_bind; by rewrite rd_buffer).
  destruct gap as [|g gap]; [by eexists _, [], 0|]. by eexists _, (gap ++ [0]), g.
Qed.

(** One iteration. *)
Lemma minifies_step t rest u out :
  (forall o gap, (length (o ++ gap ++ t ++ rest) < F)%nat -> exists gap', minify_body F (zlen (o ++ gap), zlen o) (o ++ gap ++ t ++ rest) =
     Done (Next (zlen ((o ++ u) ++ gap'), zlen (o ++ u)), (o ++ u) ++ gap' ++ rest) /\ length ((o ++ u) ++ gap' ++ rest) = length (o ++ gap ++ t ++ rest)) ->
  t <> [] -> minifies rest out -> minifies (t ++ rest) (u ++ out).
Proof using.
  intros Hb Ht Hm n o gap Hn HF. destruct n as [|n]; [lia|]. destruct (Hb o gap HF) as (gap' & E & Hl). rewrite length_app in Hn.
  destruct (Hm n (o ++ u) gap') as (j & g & x & E' & Hl'); [destruct t; [done|cbn in Hn; lia]|lia|]. exists j, g, x.
  rewrite (loop_to_next _ _ _ _ _ _ E), E', !(app_assoc o u). split; [done|]. lia.
Qed.

Lemma minifies_ws c rest out : c = 32 \/ c = 9 \/ c = 13 \/ c = 10 -> minifies rest out -> minifies (c :: rest) out.
Proof using.
  intros Hc. apply (minifies_step [c] rest [] out); [|done]. intros o gap _. exists (gap ++ [c]). rewrite !app_nil_r. unfold minify_body, mbind, C_bind. cbn [app].
  rewrite rd_buffer. rewrite <- !app_assoc. cbn [app]. split; [|done]. assert (zlen (o ++ gap) + 1 = zlen (o ++ gap ++ [c])) as E by zlens.
  destruct Hc as [-> | [-> | [-> | ->]]]; cbn [Z.eqb Pos.eqb orb]; by rewrite E.
Qed.

Lemma minifies_char c rest out : 32 < c -> c <> 34 -> c <> 47 -> minifies rest out -> minifies (c :: rest) (c :: out).
Proof using.
  intros Hc H34 H47. apply (minifies_step [c] rest [c] out); [|done]. intros o gap _. destruct (mcopy_at o gap rest c) as (gap' & Hg & E). exists gap'. cbn [app].
  split; [|rewrite !length_app; cbn [length]; unfold zlen in Hg; lia]. unfold minify_body, mbind, C_bind. rewrite rd_buffer.
  rewrite !(proj2 (Z.eqb_neq c _)) by lia. cbn [orb]. unfold mret at 1, C_ret at 1. cbn [Z.eqb]. by rewrite E.
Qed.

(** The inside of a string literal. *)
Inductive literal : list Z -> Prop :=
  | lit_nil : literal []
  | lit_char c l : c <> 0 -> c <> 34 -> c <> 92 -> literal l -> literal (c :: l)
  | lit_escape c l : literal l -> literal (92 :: c :: l).

Lemma literal_app l k : literal l -> literal k -> literal (l ++ k).
Proof using. intros Hl Hk. induction Hl; cbn [app]; [done|by constructor|by constructor]. Qed.

Lemma literal_loop l rest n o gap : literal l -> (length l < n)%nat ->
  exists gap', zlen gap' = zlen gap /\ loop n string_literal_body (zlen (o ++ gap), zlen o) (o ++ gap ++ l ++ 34 :: rest) =
    Done (inl (zlen ((o ++ l) ++ gap'), zlen (o ++ l)), (o ++ l) ++ gap' ++ 34 :: rest).
Proof using.
  intros Hl. revert n o gap. induction Hl as [|c l H0 H34 H92 Hl IH|c l Hl IH]; intros n o gap Hn; (destruct n as [|n]; [cbn in Hn; lia|]); cbn [app].
  - exists gap. rewrite app_nil_r. split; [done|]. apply loop_to_exit. unfold string_literal_body, mbind, C_bind. cbn [fst]. by rewrite rd_buffer.
  - destruct (mcopy_at o gap (l ++ 34 :: rest) c) as (g1 & Hg1 & E1). destruct (IH n (o ++ [c]) g1) as (g2 & Hg2 & E2); [cbn in Hn; lia|].
    exists g2. split; [lia|]. erewrite loop_to_next; [rewrite E2; by rewrite <- (app_assoc o [c])|].
    unfold string_literal_body, mbind, C_bind. cbn [fst]. rewrite rd_buffer. rewrite !(proj2 (Z.eqb_neq _ _)) by done. cbn [negb andb].
    unfold mret at 1, C_ret at 1. by rewrite E1.
  - destruct (mcopy_at o gap (c :: l ++ 34 :: rest) 92) as (g1 & Hg1 & E1). destruct (mcopy_at (o ++ [92]) g1 (l ++ 34 :: rest) c) as (g2 & Hg2 & E2).
    destruct (IH n ((o ++ [92]) ++ [c]) g2) as (g3 & Hg3 & E3); [cbn in Hn; lia|]. exists g3. split; [lia|].
    erewrite loop_to_next; [rewrite E3; by rewrite <- !(app_assoc o)|].
    unfold string_literal_body, mbind, C_bind. cbn [fst]. rewrite rd_buffer. cbn [Z.eqb Pos.eqb negb andb]. by rewrite E1, E2.
Qed.

Lemma literal_escape s : string_ok s -> literal (s ≫= escape).
Proof using.
  induction 1 as [|c s Hc _ IH]; [constructor|]. change ((c :: s) ≫= escape) with (escape c ++ (s ≫= escape)). apply literal_app; [|exact IH].
  destruct (escape_cases c Hc) as [(-> & H34 & H92) | [(x & -> & _) | (-> & H32)]]; [apply lit_char; [lia|done|done|constructor]|apply lit_escape, lit_nil|].
  apply lit_escape. assert (forall d, 0 <= d < 16 -> hex_char d <> 0 /\ hex_char d <> 34 /\ hex_char d <> 92) as Hh by (intros d Hd; unfold hex_char; destruct (Z.ltb_spec d 10); lia).
  destruct (Hh (c / 16)) as (? & ? & ?); [Z.to_euclidean_division_equations; lia|]. destruct (Hh (c mod 16)) as (? & ? & ?); [Z.to_euclidean_division_equations; lia|].
  repeat (apply lit_char; [done|done|done|]). apply lit_nil.
Qed.

Lemma minifies_quote s rest out : string_ok s -> minifies rest out -> minifies (quote s ++ rest) (quote s ++ out).
Proof using.
  intros Hs. apply minifies_step; [|done]. intros o gap HF. unfold quote in *. set (l := s ≫= escape) in *. cbn [app] in *. rewrite <- app_assoc in *. cbn [app] in *.
  destruct (mcopy_at o gap (l ++ 34 :: rest) 34) as (g1 & Hg1 & E1). destruct (literal_loop l rest F (o ++ [34]) g1) as (g2 & Hg2 & E2).
  { by apply literal_escape. } { rewrite !length_app in HF. cbn [length] in HF. rewrite length_app in HF. lia. }
  destruct (mcopy_at ((o ++ [34]) ++ l) g2 rest 34) as (g3 & Hg3 & E3). exists g3. split.
  - unfold minify_body, mbind, C_bind. rewrite rd_buffer. cbn [Z.eqb Pos.eqb orb]. unfold mret at 1, C_ret at 1. cbn [Z.eqb]. rewrite E1.
    unfold while, mbind, C_bind. rewrite E2. unfold mret at 1, C_ret at 1. rewrite E3. unfold mret, C_ret.
    assert (((o ++ [34]) ++ l) ++ [34] = o ++ 34 :: l ++ [34]) as -> by (by rewrite <- !app_assoc). done.
  - unfold zlen in *. rewrite !length_app in *. cbn [length] in *. rewrite !length_app. cbn [length]. lia.
Qed.

(** ** Texts *)

Lemma minifies_ws_list ws rest out : Forall (fun c => c = 32 \/ c = 9 \/ c = 13 \/ c = 10) ws -> minifies rest out -> minifies (ws ++ rest) out.
Proof using. intros Hw Hm. induction Hw; cbn [app]; [done|]. by apply minifies_ws. Qed.

Lemma minifies_word w rest out : Forall (fun c => 32 < c /\ c <> 34 /\ c <> 47) w -> minifies rest out -> minifies (w ++ rest) (w ++ out).
Proof using. intros Hw Hm. induction Hw as [|c w (H1 & H2 & H3) _ IH]; cbn [app]; [done|]. by apply minifies_char. Qed.

Lemma minifies_tabs n rest out : minifies rest out -> minifies (tabs n ++ rest) out.
Proof using. apply minifies_ws_list, Forall_replicate. tauto. Qed.

Lemma fmt_d_chars n : Forall (fun c => 32 < c /\ c <> 34 /\ c <> 47) (fmt_d n).
Proof using.
  assert (forall m, 0 <= m -> Forall (fun c => 32 < c /\ c <> 34 /\ c <> 47) (dec_nat m)) as H.
  { intros m Hm. destruct (dec_digits_spec (Z.to_nat m + 1) m Hm ltac:(lia)) as (H & _). eapply list.Forall_impl; [exact H|]. intros c Hc. unfold isdigit in Hc. cbv beta in Hc. bools. lia. }
  unfold fmt_d. destruct (Z.ltb_spec n 0); [constructor; [lia|]|]; apply H; lia.
Qed.

Definition minified (v : jvalue) : Prop := forall d d' rest out, minifies rest out -> minifies (render true d v ++ rest) (render false d' v ++ out).

Lemma minified_items l d d' rest out : Forall minified l -> minifies rest out ->
  minifies (joined (comma true) (map (render true d) l) ++ rest) (joined (comma false) (map (render false d') l) ++ out).
Proof using.
  intros HF Hm. induction HF as [|v l Hv _ IH]; [done|]. cbn [map]. destruct l as [|u l].
  - cbn [map joined]. rewrite !app_nil_r. by apply Hv.
  - cbn [map] in *. rewrite !join_cons2, <- !app_assoc. apply Hv. cbn [comma app]. apply minifies_char; [lia|done|done|]. apply minifies_ws; [tauto|exact IH].
Qed.

Lemma minified_members l d d' rest out : Forall (fun m => minified (snd m)) l -> Forall (fun m => string_ok (fst m)) l -> minifies rest out ->
  minifies (lines true (pair_text true d <$> (member_pair true d <$> l)) ++ rest) (lines false (pair_text false d' <$> (member_pair false d' <$> l)) ++ out).
Proof using.
  intros HF. induction HF as [|[key v] l Hv _ IH]; intros Hok Hm; [done|]. apply list.Forall_cons in Hok as [Hkey Hok]. specialize (IH Hok Hm). cbn [fmap list_fmap lines fst snd] in *.
  unfold pair_text at 1 4, member_text, member_pair at 1 4. cbn [fst snd indent app]. rewrite <- !app_assoc. apply minifies_tabs, minifies_quote; [done|]. cbn [app].
  apply minifies_char; [lia|done|done|]. apply minifies_ws; [tauto|]. apply Hv. destruct l as [|m l].
  - cbn [fmap list_fmap app]. apply minifies_ws; [tauto|exact IH].
  - cbn [fmap list_fmap app] in *. apply minifies_char; [lia|done|done|]. apply minifies_ws; [tauto|exact IH].
Qed.

Lemma minified_value v : jv_ok v -> minified v.
Proof using.
  induction v as [|b|n|str|l IH|l IH] using jvalue_tree_ind; intros Hok d d' rest out Hm.
  - apply minifies_word; [repeat constructor; lia|done].
  - destruct b; (apply minifies_word; [repeat constructor; lia|done]).
  - apply minifies_word; [apply fmt_d_chars|done].
  - by apply minifies_quote.
  - cbn [render app]. apply minifies_char; [lia|done|done|]. rewrite <- !app_assoc. cbn [jv_ok] in Hok. apply all1_Forall in Hok. apply minified_items.
    + apply Forall_forall. intros v Hv. apply (proj1 (Forall_forall _ _) IH v Hv). by apply (proj1 (Forall_forall _ _) Hok v).
    + cbn [app]. by apply minifies_char.
  - cbn [jv_ok] in Hok. apply all1_Forall in Hok. destruct l as [|m l].
    + cbn [render app]. apply minifies_char; [lia|done|done|]. apply minifies_ws; [tauto|]. rewrite <- app_assoc. apply minifies_tabs. cbn [app]. by apply minifies_char.
    + rewrite !render_obj by done. cbn [app]. apply minifies_char; [lia|done|done|]. apply minifies_ws; [tauto|]. rewrite <- !app_assoc. apply minified_members.
      * apply Forall_forall. intros x Hx. apply (proj1 (Forall_forall _ _) IH x Hx). pose proof (proj1 (Forall_forall _ _) Hok x Hx) as H'. by destruct x, H'.
      * eapply list.Forall_impl; [exact Hok|]. by intros [? ?] [? ?].
      * cbn [indent app]. apply minifies_tabs. cbn [app]. by apply minifies_char.
Qed.
End minify.

Lemma minify_ok v d d' : jv_ok v -> exists g, cJSON_Minify (render true d v ++ [0]) = Done (tt, render false d' v ++ 0 :: g) /\
  length (render false d' v ++ 0 :: g) = length (render true d v ++ [0]).
Proof.
  intros Hok. set (t := render true d v ++ [0]). destruct (minified_value (S (length t)) v Hok d d' [0] []) with (n := S (length t)) (o := @nil Z) (gap := @nil Z) as (j & g & x & E & Hl);
    [apply minifies_end|unfold t; lia|unfold t; cbn; lia|].
  cbn [app] in E, Hl. rewrite !app_nil_r in E. rewrite app_nil_r in Hl. exists g. fold t in E, Hl. split; [|by rewrite length_app in *].
  unfold cJSON_Minify. unfold mbind, C_bind, gets. cbn beta iota. unfold while, mbind, C_bind. change (zlen (@nil Z)) with 0 in E. rewrite E. unfold mret at 1, C_ret at 1. cbn [snd]. apply mwr_at.
Qed.
