(* ===== verification/CJsonTheorems.v ===== *)
(** An environment to run the JSON library with, and its properties: printing and parsing
    are inverse, the printers agree, arbitrary texts are safe for memory, and what the
    operations on items do. *)
From Stdlib Require Import ZArith Lia Bool.
From S2P Require Import Prelude CSem CDouble CJson CJsonParse CJsonPrint CJsonHeap CJsonPrintProof CJsonParseProof CJsonValueProof CJsonSafe CJsonOps.
From stdpp Require Import base list numbers option gmap.

Open Scope Z_scope.

(** The allocator never reuses a block. *)
Definition jtop (h : list jevent) : Z := foldr (fun e m => match e with JMalloc _ _ r => Z.max r m | JFree _ _ => m end) 0 h.

Definition demo_pow (x y : double) : double :=
  match d_trunc y with
  | Some n => if 0 <=? n then Nat.iter (Z.to_nat n) (dmul x) (d_of_Z 1) else ddiv (d_of_Z 1) (Nat.iter (Z.to_nat (- n)) (dmul x) (d_of_Z 1))
  | None => y
  end.

#[export] Instance json_env : JsonEnv := {| env_malloc := fun h _ _ => jtop h + 1; libm_pow := demo_pow |}.

Lemma jtop_snoc h e : jtop h <= jtop (h ++ [e]) /\ (forall f n r, e = JMalloc f n r -> r <= jtop (h ++ [e])).
Proof.
  induction h as [|x h [IH1 IH2]]; cbn; [destruct e; (split; [lia|]; intros ? ? ? [=]; lia)|]. fold (jtop h) (jtop (h ++ [e])).
  split; [destruct x; lia|]. intros f n r ->. specialize (IH2 f n r eq_refl). destruct x; lia.
Qed.

Lemma jlive_top h : forall X p, jlive h = Some X -> p ∈ X -> p <= jtop h.
Proof.
  induction h as [|e h IH] using rev_ind; intros X p; [by intros [= <-] ?%elem_of_empty|]. rewrite jlive_snoc.
  destruct (jlive h) as [Y|]; [|done]. destruct (jtop_snoc h e) as [H1 H2]. specialize (fun q => IH Y q eq_refl).
  assert (forall q, q ∈ Y -> q <= jtop (h ++ [e])) as HY by (intros q Hq; specialize (IH q Hq); lia).
  destruct e as [f n r|f q]; cbn.
  - destruct (r =? 0); [by intros [= <-]; apply HY|]. intros [= <-]. rewrite elem_of_union, elem_of_singleton. intros [-> | Hp]; [by apply (H2 f n)|by apply HY].
  - case_decide; [|done]. intros [= <-]. rewrite elem_of_difference. intros [Hp _]. by apply HY.
Qed.

#[export] Instance json_heap : JsonHeap.
Proof. split. intros h f n X HX Hin. cbn in Hin. pose proof (jlive_top h X _ HX Hin). lia. Qed.

#[export] Instance json_math : JsonMath.
Proof. by split. Qed.

(** A state after the blocks [L] have been allocated. *)
Definition demo_json (L : list Z) : json := mkJson None 0 0 (map (JMalloc 0 48) L).

(** [{"Name": "a\n", "list": [1, -2]}], formatted or not. *)
Definition demo_value : jvalue :=
  JObj [([78; 97; 109; 101], JStr [97; 10]); ([108; 105; 115; 116], JArr [JNum 1; JNum (-2)])].

Definition demo_string (a : Z) : cJSON := mkItem 2 cJSON_String (Some (mkCstr 4 [97; 10])) 0 (d_of_Z 0) (Some (mkCstr 3 [78; 97; 109; 101])) [].
Definition demo_number (a n : Z) : cJSON := mkItem a cJSON_Number None n (d_of_Z n) None [].
Definition demo_list : cJSON := mkItem 5 cJSON_Array None 0 (d_of_Z 0) (Some (mkCstr 6 [108; 105; 115; 116])) [demo_number 7 1; demo_number 8 (-2)].
Definition demo_object : cJSON := mkItem 1 cJSON_Object None 0 (d_of_Z 0) None [demo_string 2; demo_list].

Lemma demo_value_ok : jv_ok demo_value.
Proof. cbn. repeat split; try lia; repeat constructor; lia. Qed.

Lemma demo_object_of : json_of demo_value demo_object.
Proof. cbn. repeat split; try done; by eexists. Qed.

Definition demo_blocks : list Z := [1; 2; 4; 3; 5; 6; 7; 8].

Lemma demo_heap_ok : heap demo_blocks 0 (demo_json demo_blocks).
Proof. split; [apply (bool_decide_unpack _); by vm_compute|]. split; [by vm_compute|done]. Qed.

Lemma demo_object_blocks : blocks demo_object ≡ₚ demo_blocks.
Proof. unfold demo_blocks. cbn. solve_Permutation. Qed.

(** The properties of the JSON library: printing and parsing are inverse, the printers
    agree, arbitrary texts are safe for memory, and what the operations on items do. *)

(** ** Printers *)

Section json.
Context {env : JsonEnv} {jheap : JsonHeap}.

(** [cJSON_Print] or [cJSON_PrintUnformatted]. *)
Definition print_item (fmt : bool) (c : cJSON) : C json (option cstr) := (if fmt then cJSON_Print else cJSON_PrintUnformatted) (Some c).

Lemma print_item_ok fmt v c L k s : jv_ok v -> json_of v c -> heap L k s -> wp (print_item fmt c) (text_post (render fmt 0 v) L k) s.
Proof using jheap.
  intros Hok Hc Hs. assert (print_item fmt c = (r ← print_value c 0 fmt None; mret (fst r))) as -> by (by destruct fmt).
  eapply wp_call; [by apply (print_value_ok fmt v Hok c 0 L k s)|]. intros r s' [_ H]. by apply wp_ret.
Qed.

Lemma emit_dead p n t s : pb_buffer p = None -> emit (Some p) n t s = Done ((None, Some p), s).
Proof using. intros Hp. unfold emit, ensure, mbind, C_bind. by rewrite Hp. Qed.

(** Nothing is printed into a buffer that is gone. *)
Lemma print_value_dead fmt v c d p s : jv_ok v -> json_of v c -> pb_buffer p = None -> print_value c d fmt (Some p) s = Done ((None, Some p), s).
Proof using.
  intros Hok Hc Hp. destruct c as [a t vs vi vd nm kids]. destruct v as [|b|n|str|l|l]; cbn [json_of c_type valuestring valueint valuedouble] in Hc; cbn [print_value c_type].
  - rewrite Hc. by apply emit_dead.
  - rewrite Hc. destruct b; by apply emit_dead.
  - destruct Hc as (-> & Hi & Hv). destruct (print_number_emits (mkItem a t vs vi vd nm kids) n Hok Hi Hv (Some p)) as (m & E & _).
    change (print_number (mkItem a t vs vi vd nm kids) (Some p) s = Done ((None, Some p), s)). rewrite E. by apply emit_dead.
  - destruct Hc as (-> & x & Hs). unfold print_string. cbn [valuestring]. rewrite Hs. destruct (print_string_emits x str Hok (Some p)) as (m & E & _).
    change (print_string_ptr (Some (mkCstr x str)) (Some p) s = Done ((None, Some p), s)). rewrite E. by apply emit_dead.
  - destruct Hc as [-> _]. cbn. unfold print_array. cbn [child]. destruct kids; [by apply emit_dead|]. unfold print_array_buffered, ensure, mbind, C_bind. by rewrite Hp.
  - destruct Hc as [-> _]. cbn. unfold print_object. cbn [child]. destruct kids; [by apply emit_dead|]. unfold print_object_buffered, ensure, mbind, C_bind. by rewrite Hp.
Qed.

Lemma Parse_ok {math : JsonMath} fmt v L k s : jv_ok v -> heap L k s ->
  wp (cJSON_Parse (render fmt 0 v ++ [0]) 0) (fun r s' => match r with
    | None => exists k', (k < k')%nat /\ heap L k' s'
    | Some c => ep s' = None /\ json_of v c /\ heap (blocks c ++ L) k s'
    end) s.
Proof using jheap.
  intros Hok Hs. unfold cJSON_Parse. eapply wp_call; [by apply (ParseWithOpts_ok _ fmt v L k s false 0)|].
  intros [[c end_]|] s2 [E H2]; apply wp_ret; cbn [mbind option_bind fst]; [|exact H2]. by destruct H2 as (_ & Hv & _ & _ & H2).
Qed.

(** C10: Printing a value and parsing the text gives an item that represents the same value,
    formatted or not, with the error pointer clear; the text and the new item own what
    has been allocated.  It fails only if an allocation fails, and leaves nothing behind
    but the text. *)
Theorem json_print_parse {math : JsonMath} fmt v c L k s : jv_ok v -> json_of v c -> heap L k s ->
  wp (text ← print_item fmt c;
      match text with
      | None => mret None
      | Some text => c' ← cJSON_Parse (str_bytes text ++ [0]) 0; mret (Some (text, c'))
      end)
    (fun r s' => match r with
      | Some (text, Some c') => ep s' = None /\ json_of v c' /\ heap (str_addr text :: blocks c' ++ L) k s'
      | Some (text, None) => exists k', (k < k')%nat /\ heap (str_addr text :: L) k' s'
      | None => exists k', (k < k')%nat /\ heap L k' s'
      end) s.
Proof using jheap.
  intros Hok Hc Hs. eapply wp_call; [by apply print_item_ok|]. intros [text|] s1 H1; [|by apply wp_ret]. destruct H1 as [Ht H1].
  eapply wp_call; [rewrite Ht; by apply (Parse_ok fmt v (str_addr text :: L) k s1)|]. intros [c'|] s2 H2; apply wp_ret; [|exact H2].
  destruct H2 as (E & Hv & H2). split; [done|]. split; [done|]. eapply heap_perm; [|exact H2]. solve_Permutation.
Qed.

(** C26: [cJSON_Print] and [cJSON_PrintUnformatted] return the text of the value in a block
    of its own; every other block they allocate is freed, also when an allocation fails
    and they return null. *)
Theorem cJSON_Print_correct fmt v c L k s : jv_ok v -> json_of v c -> heap L k s ->
  wp (print_item fmt c) (fun r s' => match r with
    | Some text => str_bytes text = render fmt 0 v /\ heap (str_addr text :: L) k s'
    | None => exists k', (k < k')%nat /\ heap L k' s'
    end) s.
Proof using jheap. intros Hok Hc Hs. eapply wp_mono; [by apply (print_item_ok fmt v c L k s)|]. by intros [text|] s' H. Qed.

(** C12: [cJSON_PrintBuffered] returns the same text as the other printers, whatever the size of
    the first buffer, as long as the text stays below 2^30 bytes; the buffer is the only
    block left, and it is freed when it cannot be enlarged. *)
Theorem cJSON_PrintBuffered_correct fmt v c prebuffer L k s : jv_ok v -> json_of v c -> zlen (render fmt 0 v) + 32 <= 2 ^ 30 -> heap L k s ->
  wp (cJSON_PrintBuffered (Some c) prebuffer fmt) (fun r s' => match r with
    | Some text => str_bytes text = render fmt 0 v /\ heap (str_addr text :: L) k s'
    | None => exists k', (k < k')%nat /\ heap L k' s'
    end) s.
Proof using jheap.
  intros Hok Hc Hb Hs. unfold cJSON_PrintBuffered. eapply wp_call; [by apply (jmalloc_ok prebuffer L k s)|]. intros [a|] s1 [_ H1].
  - eapply wp_call; [apply (print_value_buffer_ok fmt v Hok c 0 (mkPb (Some a) [] prebuffer 0) [] L k s1 Hc); [by split|constructor|exact Hb|by exists a]|].
    intros [[text|] q] s2 (p & _ & H2); apply wp_ret; cbn [fst] in *.
    + destruct H2 as [(b & Eb & _ & _ & H2) Ht]. destruct (Ht eq_refl) as [-> Ea]. rewrite Ea in Eb. injection Eb as ->. by split.
    + by destruct H2 as [_ H2].
  - unfold wp, mbind, C_bind. rewrite (print_value_dead fmt v c 0 (mkPb None [] prebuffer 0) s1 Hok Hc eq_refl). cbn. exists (S k). split; [lia|done].
Qed.

(** ** The parser on any text *)

(** C11: On any text the parser ends, unless it runs into undefined behaviour.  An item it
    returns owns all the memory taken, and the error pointer is null; if it returns null,
    everything has been freed and either an allocation has failed or the error pointer
    points into the text. *)
Theorem cJSON_Parse_any_text txt i require L k s : 0 <= i -> heap L k s ->
  ends True (cJSON_ParseWithOpts txt i require) (fun r s' => match r with
    | Some (c, end_) => i <= end_ /\ ep s' = None /\ heap (blocks c ++ L) k s'
    | None => (exists k', (k < k')%nat /\ heap L k' s') \/ heap L k s' /\ exists j, ep s' = Some j /\ 0 <= j < zlen txt
    end) s.
Proof using jheap. apply ParseWithOpts_safe. Qed.

End json.

(** ** The theorems at concrete inputs *)

Lemma json_print_parse_witness : wp (text ← print_item true demo_object;
      match text with
      | None => mret None
      | Some text => c' ← cJSON_Parse (str_bytes text ++ [0]) 0; mret (Some (text, c'))
      end) (fun r s' => match r with Some (text, Some c') => ep s' = None /\ json_of demo_value c' | _ => True end) (demo_json demo_blocks).
Proof.
  eapply wp_mono; [apply (json_print_parse true demo_value demo_object demo_blocks 0); [apply demo_value_ok|apply demo_object_of|apply demo_heap_ok]|].
  intros [[text [c'|]]|] s'; [by intros (? & ? & _)|done|done].
Defined.

Lemma cJSON_Print_correct_witness : wp (print_item false demo_object) (fun r s' => match r with
    | Some text => str_bytes text = render false 0 demo_value | None => True end) (demo_json demo_blocks).
Proof.
  eapply wp_mono; [apply (cJSON_Print_correct false demo_value demo_object demo_blocks 0); [apply demo_value_ok|apply demo_object_of|apply demo_heap_ok]|].
  intros [text|] s'; [by intros [? _]|done].
Defined.

Lemma cJSON_PrintBuffered_correct_witness : wp (cJSON_PrintBuffered (Some demo_object) 4 true) (fun r s' => match r with
    | Some text => str_bytes text = render true 0 demo_value | None => True end) (demo_json demo_blocks).
Proof.
  eapply wp_mono; [apply (cJSON_PrintBuffered_correct true demo_value demo_object 4 demo_blocks 0); [apply demo_value_ok|apply demo_object_of|vm_compute; discriminate|apply demo_heap_ok]|].
  intros [text|] s'; [by intros [? _]|done].
Defined.

(** [{"a":[1 2]}] has no comma. *)
Definition demo_bad_text : list Z := [123; 34; 97; 34; 58; 91; 49; 32; 50; 93; 125; 0].

Lemma cJSON_Parse_any_text_witness : exists s', cJSON_ParseWithOpts demo_bad_text 0 false (demo_json []) = Done (None, s') /\ ep s' = Some 8 /\ heap [] 0 s'.
Proof.
  assert (heap [] 0 (demo_json [])) as H0 by (split; [constructor|by split]).
  pose proof (cJSON_Parse_any_text demo_bad_text 0 false [] 0 (demo_json []) ltac:(lia) H0) as H.
  unfold ends in H. destruct (cJSON_ParseWithOpts demo_bad_text 0 false (demo_json [])) as [[r s']| |] eqn:E; [|vm_compute in E; discriminate|done].
  vm_compute in E. injection E as <- <-. eexists. split; [reflexivity|]. split; [reflexivity|].
  destruct H as [(k' & Hk & _ & _ & H)|[H _]]; [|exact H]. exfalso. vm_compute in H. lia.
Defined.

(** The properties of the JSON library, continued: deletion, duplication, minification,
    [\u] escapes, and members by name. *)

Section items.
Context {env : JsonEnv} {jheap : JsonHeap}.

(** [cJSON_Delete] frees the items of a chain with everything they own, once each, and
    nothing else: not what a reference points to, not a constant name. *)
Theorem cJSON_Delete_correct cs L k s : heap (chain_blocks cs ++ L) k s -> wp (cJSON_Delete cs) (fun _ s' => ep s' = ep s /\ heap L k s') s.
Proof using. apply delete_ok. Qed.

(** C28: A duplicate equals the original but for the addresses and the reference flag, with
    its children or without; it owns new memory.  If an allocation fails, the part that
    has been copied is freed.  (No name is marked constant: the copy of such a name
    would never be freed.) *)
Theorem cJSON_Duplicate_correct c recurse L k s : no_const c -> heap (blocks c ++ L) k s ->
  wp (cJSON_Duplicate (Some c) recurse) (fun r s' => match r with
    | Some c' => erase c' = erase (if recurse then c else set_child [] c) /\ heap (blocks c' ++ blocks c ++ L) k s'
    | None => exists k', (k < k')%nat /\ heap (blocks c ++ L) k' s'
    end) s.
Proof using jheap.
  intros Hc Hs. unfold cJSON_Duplicate. eapply wp_mono; [apply (duplicate_ok_aux c recurse (blocks c ++ L) k s); [|done|done]|].
  - intros _. apply Forall_forall. intros x _. apply duplicate_ok.
  - by intros [c'|] s' H.
Qed.

(** C29: [cJSON_Minify] turns the formatted text of a value into its unformatted text, in
    place; the buffer keeps its size and nothing outside it is touched. *)
Theorem cJSON_Minify_correct v : jv_ok v ->
  wp cJSON_Minify (fun _ t => exists rest, t = render false 0 v ++ 0 :: rest /\ length t = length (render true 0 v ++ [0])) (render true 0 v ++ [0]).
Proof using.
  intros Hok. destruct (minify_ok v 0 0 Hok) as (g & E & Hl). unfold wp. rewrite E. by exists g.
Qed.

(** C27: A string written with [\u] escapes only, a surrogate pair for a character beyond
    U+FFFF, is parsed into the UTF-8 encoding of its characters; the block allocated for it
    is large enough. *)
Theorem cJSON_Parse_unicode cps L k s : Forall scalar cps -> heap L k s ->
  wp (cJSON_Parse (34 :: (cps ≫= u_escape) ++ [34; 0]) 0) (fun r s' => match r with
    | Some c => c_type c = cJSON_String /\ (exists a, valuestring c = Some (mkCstr a (cps ≫= utf8))) /\ heap (blocks c ++ L) k s'
    | None => exists k', (k < k')%nat /\ heap L k' s'
    end) s.
Proof using jheap.
  intros Hs Hst. set (txt := 34 :: (cps ≫= u_escape) ++ [34; 0]). assert (here txt 0 (34 :: (cps ≫= u_escape) ++ 34 :: [0])) as Hh by (split; [lia|done]).
  unfold cJSON_Parse, cJSON_ParseWithOpts. apply wp_bind. eapply wp_call; [by apply new_item_ok|]. intros [ch|] s1 [_ H1].
  2:{ apply wp_bind, wp_modify, wp_ret, wp_ret. exists (S k). split; [lia|]. by apply (heap_fields _ _ s1). }
  destruct H1 as (a & -> & H1). apply wp_bind, wp_modify. set (s2 := set_ep None s1). assert (heap (a :: L) k s2) as H2 by (by apply (heap_fields _ _ s1)).
  eapply gives_wp; [by eapply skip_none; [exact Hh|right]|]. unfold fuel. cbn [parse_value].
  eapply (wp_call _ _ (fun r s3 => match snd r with
    | Some i => exists b, fst r = set_type cJSON_String (set_valuestring (Some (mkCstr b (cps ≫= utf8))) (fresh_item a)) /\ heap (b :: a :: L) k s3
    | None => fst r = fresh_item a /\ heap (a :: L) (S k) s3 end)).
  - do 3 (eapply gives_wp; [by eapply starts_with_not; [exact Hh|]|]). eapply gives_wp; [by eapply rd_here|]. cbn [Z.eqb Pos.eqb].
    eapply wp_mono; [by apply (parse_unicode_here txt (fresh_item a) cps 0 [0] (a :: L) k s2)|]. intros [ch [i|]] s3 H3; cbn [fst snd] in *; [|done].
    by destruct H3 as [_ H3].
  - intros [ch [i|]] s3 H3; cbn [fst snd] in H3.
    + destruct H3 as (b & -> & H3). apply wp_ret, wp_ret. cbn [mbind option_bind fst]. split; [done|]. split; [by exists b|].
      eapply heap_perm; [|exact H3]. cbn. solve_Permutation.
    + destruct H3 as [-> H3]. eapply wp_call; [by apply (delete_one_ok (fresh_item a) L (S k) s3)|]. intros u s4 [_ H4]. apply wp_ret, wp_ret.
      exists (S k). split; [lia|done].
Qed.

(** C13: An item added under a new name is the one found under this name, in any letter case;
    the items found under other names stay, and the memory is that of the object.  Without
    memory for the name the item is added nameless. *)
Theorem cJSON_AddItemToObject_found object name x L k s : plain object -> plain x -> nonzero (str_bytes name) ->
  Forall (fun m => name_ok (c_string m) /\ ~ same_name (c_string m) (Some name)) (child object) -> heap (blocks x ++ blocks object ++ L) k s ->
  wp (cJSON_AddItemToObject object (Some name) [x]) (fun object' s' => exists copy k', (k <= k')%nat /\ heap (blocks object' ++ L) k' s' /\
    cJSON_GetArraySize object' = cJSON_GetArraySize object + 1 /\
    match copy with
    | Some c => str_bytes c = str_bytes name /\ forall name', name_ok (Some name') ->
        if decide (same_name (Some name) (Some name')) then cJSON_GetObjectItem object' (Some name') = [set_string (Some c) x]
        else head (cJSON_GetObjectItem object' (Some name')) = head (cJSON_GetObjectItem object (Some name'))
    | None => (k < k')%nat
    end) s.
Proof using jheap.
  intros Hp Hx Hn HF Hs. eapply wp_mono; [by apply (add_to_object_ok object name x L k s)|]. intros object' s' (copy & k' & -> & Hk & Hs' & Hcopy).
  exists copy, k'. split; [done|]. split; [done|]. split; [unfold cJSON_GetArraySize; by rewrite child_set_child, zlen_snoc|]. destruct copy as [c|]; [|done].
  split; [exact Hcopy|]. intros name' Hn'. unfold cJSON_GetObjectItem. rewrite child_set_child. set (y := set_string (Some c) x).
  assert (c_string y = Some c) as Hy by (unfold y; by destruct x). assert (Forall (fun m => name_ok (c_string m)) (child object ++ [y])) as HF'.
  { apply Forall_app. split; [eapply Forall_impl; [exact HF|]; by intros m [? _]|]. constructor; [|constructor]. rewrite Hy. cbn. by rewrite Hcopy. }
  destruct (chain_find_split _ (Some name') 0 HF' Hn') as (pre & post & E & -> & Hpre & Hpost). cbn [fst].
  assert (forall m, m ∈ child object -> ~ same_name (c_string m) (Some name)) as Hold by (intros m Hm; by apply (proj1 (List.Forall_forall _ _) HF), list_elem_of_In).
  destruct (decide (same_name (Some name) (Some name'))) as [Hsame | Hdiff].
  - assert (post <> []) as Hne.
    { intros ->. rewrite app_nil_r in E. rewrite <- E in Hpre. apply Forall_app in Hpre as [_ Hlast]. apply Forall_inv in Hlast. apply Hlast. rewrite Hy. cbn in *. by rewrite Hcopy. }
    destruct (exists_last Hne) as (post' & z & ->). rewrite app_assoc in E. apply app_inj_tail in E as [E <-]. destruct post' as [|m post']; [done|]. exfalso.
    cbn [app] in Hpost. apply (Hold m); [rewrite E; apply elem_of_app; right; by left|]. cbn in Hsame, Hpost |- *. destruct (c_string m); [congruence|done].
  - destruct (chain_find_split (child object) (Some name') 0) as (pre2 & post2 & E2 & -> & Hpre2 & Hpost2); [|done|].
    { eapply Forall_impl; [exact HF|]. by intros m [? _]. }
    cbn [fst]. destruct post2 as [|m2 post2].
    + rewrite app_nil_r in E2. destruct post as [|m post]; [done|]. exfalso. assert (m ∈ child object ++ [y]) as Hm by (rewrite E; apply elem_of_app; right; by left).
      apply elem_of_app in Hm as [Hm | ->%list_elem_of_singleton].
      * rewrite E2 in Hm. by apply (proj1 (List.Forall_forall _ _) Hpre2 m), Hpost; apply list_elem_of_In.
      * apply Hdiff. rewrite Hy in Hpost. cbn in *. by rewrite <- Hcopy.
    + rewrite E2, <- app_assoc in E. assert (pre = pre2 /\ exists r, post = m2 :: r) as [_ [r ->]]; [|done]. clear -E Hpre Hpre2 Hpost Hpost2. cbn [app] in E.
      revert pre2 E Hpre2. induction pre as [|a pre IH]; intros [|b pre2] E Hpre2; cbn [app] in E.
      * split; [done|]. rewrite <- E. by eexists.
      * exfalso. rewrite <- E in Hpost. by apply Forall_inv in Hpre2.
      * exfalso. injection E as -> _. by apply Forall_inv in Hpre.
      * injection E as -> E. apply list.Forall_cons in Hpre as [_ Hpre]. apply list.Forall_cons in Hpre2 as [_ Hpre2]. destruct (IH Hpre pre2 E Hpre2) as [-> H]. by split.
Qed.

(** C14: [cJSON_DeleteItemFromObject] removes the first member of the name, in any letter case,
    and frees exactly what it owns; the other members stay in their order.  Without such a
    member nothing happens. *)
Theorem cJSON_DeleteItemFromObject_correct object name L k s : plain object -> name_ok name -> Forall (fun m => name_ok (c_string m)) (child object) ->
  heap (blocks object ++ L) k s ->
  wp (cJSON_DeleteItemFromObject object name) (fun object' s' => heap (blocks object' ++ L) k s' /\
    exists pre post, child object = pre ++ post /\ Forall (fun m => ~ same_name (c_string m) name) pre /\
      match post with
      | m :: post => same_name (c_string m) name /\ object' = set_child (pre ++ post) object
      | [] => object' = object /\ s' = s
      end) s.
Proof using.
  intros Hp Hn HF Hs. destruct (chain_find_split _ name 0 HF Hn) as (pre & post & E & Hf & Hpre & Hpost).
  unfold cJSON_DeleteItemFromObject, cJSON_DetachItemFromObject. rewrite Hf. destruct post as [|m post].
  - cbn. apply wp_ret. split; [done|]. exists pre, []. by repeat split.
  - pose proof (delete_split object pre m post (0 + zlen pre) L k s Hp E) as Hd. unfold cJSON_DeleteItemFromArray in Hd.
    eapply wp_mono; [apply Hd; [pose proof (zlen_nonneg pre); lia|lia|done]|]. intros object' s' [-> Hs']. split; [done|]. exists pre, (m :: post). by repeat split.
Qed.
End items.

(** ** The theorems at concrete inputs *)

Lemma demo_blocks_heap : heap (blocks demo_object ++ []) 0 (demo_json demo_blocks).
Proof. rewrite app_nil_r, demo_object_blocks. apply demo_heap_ok. Qed.

Lemma cJSON_Delete_correct_witness : wp (cJSON_Delete [demo_object]) (fun _ s' => jlive (jtrace s') = Some ∅) (demo_json demo_blocks).
Proof.
  eapply wp_mono; [apply (cJSON_Delete_correct [demo_object] [] 0); rewrite chain_blocks_one; apply demo_blocks_heap|]. by intros u s' [_ (_ & H & _)].
Defined.

Lemma cJSON_Duplicate_correct_witness : wp (cJSON_Duplicate (Some demo_object) true) (fun r _ => match r with Some c => erase c = erase demo_object | None => True end) (demo_json demo_blocks).
Proof.
  eapply wp_mono; [apply (cJSON_Duplicate_correct demo_object true [] 0); [by cbn|apply demo_blocks_heap]|]. intros [c|] s'; [by intros [? _]|done].
Defined.

Lemma cJSON_Minify_correct_witness : wp cJSON_Minify (fun _ t => exists rest, t = render false 0 demo_value ++ 0 :: rest) (render true 0 demo_value ++ [0]).
Proof. eapply wp_mono; [apply (cJSON_Minify_correct demo_value demo_value_ok)|]. intros u t (rest & H & _). by exists rest. Defined.

(** ["\u00e9\ud83d\ude00"]. *)
Lemma cJSON_Parse_unicode_witness : wp (cJSON_Parse (34 :: ([0xE9; 0x1F600] ≫= u_escape) ++ [34; 0]) 0) (fun r s' => match r with
    | Some c => exists a, valuestring c = Some (mkCstr a [0xC3; 0xA9; 0xF0; 0x9F; 0x98; 0x80])
    | None => True end) (demo_json []).
Proof.
  eapply wp_mono; [apply (cJSON_Parse_unicode [0xE9; 0x1F600] [] 0); [|split; [constructor|by split]]|].
  - constructor; [split; lia|]. constructor; [split; lia|constructor].
  - intros [c|] s'; [by intros (_ & H & _)|done].
Defined.

Definition demo_name : cstr := mkCstr 99 [75].

(** ["K"] is new in the object and found as ["k"]. *)
Lemma cJSON_AddItemToObject_found_witness : wp (cJSON_AddItemToObject demo_object (Some demo_name) [fresh_item 9]) (fun object' s' => cJSON_GetArraySize object' = 3) (demo_json (9 :: demo_blocks)).
Proof.
  eapply wp_mono; [apply (cJSON_AddItemToObject_found demo_object demo_name (fresh_item 9) [] 0); [done|done| | |]|].
  - by repeat constructor.
  - constructor; [split; [by repeat constructor|by cbn]|]. constructor; [split; [by repeat constructor|by cbn]|constructor].
  - rewrite app_nil_r, demo_object_blocks. split; [apply (bool_decide_unpack _); by vm_compute|]. split; [by vm_compute|done].
  - intros object' s' (copy & k' & _ & _ & -> & _). done.
Defined.

(** ["LIST"] is the name of the second member. *)
Lemma cJSON_DeleteItemFromObject_correct_witness : wp (cJSON_DeleteItemFromObject demo_object (Some (mkCstr 99 [76; 73; 83; 84])))
  (fun object' s' => exists pre post, child demo_object = pre ++ post /\ match post with m :: post => object' = set_child (pre ++ post) demo_object | [] => object' = demo_object end) (demo_json demo_blocks).
Proof.
  eapply wp_mono; [apply (cJSON_DeleteItemFromObject_correct demo_object (Some (mkCstr 99 [76; 73; 83; 84])) [] 0); [done|by repeat constructor| |apply demo_blocks_heap]|].
  - constructor; [by repeat constructor|]. constructor; [by repeat constructor|constructor].
  - intros object' s' (_ & pre & post & E & _ & H). exists pre, post. split; [done|]. destruct post; by destruct H.
Defined.
