(* ===== verification/Pbuf.v ===== *)
(** The packet buffers of lwIP ([lwip/core/pbuf.c], [lwip/pbuf.h]), in the configuration of
    [lwipopts.h]: heap allocation through [malloc], no assertions, no custom pbufs. *)
From Stdlib Require Import ZArith Lia Bool.
From S2P Require Import Prelude CSem.
From stdpp Require Import base list numbers option gmap.

Open Scope Z_scope.

(** ** Constants *)

Definition ERR_OK : Z := 0.
Definition ERR_MEM : Z := -1.
Definition ERR_VAL : Z := -6.
Definition ERR_ARG : Z := -15.

(** [pbuf_layer] and [pbuf_type]. *)
Definition PBUF_TRANSPORT : Z := 0.
Definition PBUF_IP : Z := 1.
Definition PBUF_LINK : Z := 2.
Definition PBUF_RAW_TX : Z := 3.
Definition PBUF_RAW : Z := 4.

Definition PBUF_RAM : Z := 0.
Definition PBUF_ROM : Z := 1.
Definition PBUF_REF : Z := 2.
Definition PBUF_POOL : Z := 3.

Definition MEM_ALIGNMENT : Z := 4.
Definition LWIP_MEM_ALIGN_SIZE (size : Z) : Z := Z.land (size + MEM_ALIGNMENT - 1) (Z.lnot (MEM_ALIGNMENT - 1)).
Definition LWIP_MEM_ALIGN (addr : Z) : Z := Z.land (addr + MEM_ALIGNMENT - 1) (Z.lnot (MEM_ALIGNMENT - 1)).
Definition LWIP_MIN (x y : Z) : Z := if x <? y then x else y.

Definition TCP_MSS : Z := 1460.
Definition PBUF_LINK_ENCAPSULATION_HLEN : Z := 0.
Definition PBUF_LINK_HLEN : Z := 14.
Definition PBUF_IP_HLEN : Z := 40.
Definition PBUF_TRANSPORT_HLEN : Z := 20.
Definition PBUF_POOL_BUFSIZE : Z := LWIP_MEM_ALIGN_SIZE (TCP_MSS + 40 + PBUF_LINK_ENCAPSULATION_HLEN + PBUF_LINK_HLEN).
Definition PBUF_POOL_BUFSIZE_ALIGNED : Z := LWIP_MEM_ALIGN_SIZE PBUF_POOL_BUFSIZE.
Definition EP_OFFSET : Z := 0.

(** ** Memory

  Pointers are addresses, null is 0.  The [struct pbuf]s are kept apart from the bytes that
  payload pointers and the buffers of callers point to; an access to a structure or a byte
  that is not there is undefined. *)
Record pbuf := mkPbuf {
  p_next : Z; p_payload : Z; p_tot_len : Z; p_len : Z; p_type : Z; p_flags : Z; p_ref : Z;
  p_eb : option Z   (* [None]: not initialised *)
}.

Definition set_next (x : Z) (p : pbuf) : pbuf := mkPbuf x (p_payload p) (p_tot_len p) (p_len p) (p_type p) (p_flags p) (p_ref p) (p_eb p).
Definition set_payload (x : Z) (p : pbuf) : pbuf := mkPbuf (p_next p) x (p_tot_len p) (p_len p) (p_type p) (p_flags p) (p_ref p) (p_eb p).
Definition set_tot_len (x : Z) (p : pbuf) : pbuf := mkPbuf (p_next p) (p_payload p) (u16 x) (p_len p) (p_type p) (p_flags p) (p_ref p) (p_eb p).
Definition set_len (x : Z) (p : pbuf) : pbuf := mkPbuf (p_next p) (p_payload p) (p_tot_len p) (u16 x) (p_type p) (p_flags p) (p_ref p) (p_eb p).
Definition set_ref (x : Z) (p : pbuf) : pbuf := mkPbuf (p_next p) (p_payload p) (p_tot_len p) (p_len p) (p_type p) (p_flags p) (u16 x) (p_eb p).

Definition SIZEOF_STRUCT_PBUF : Z := LWIP_MEM_ALIGN_SIZE 20.

(** The calls that leave the file, with their results. *)
Inductive lwip_event : Type :=
  | LMalloc (size result : Z)
  | LFree (addr : Z)
  | LCallback (result : Z)
  | LRecycle (eb : Z).

Record lwip := mkLwip {
  pbufs : gmap Z pbuf;
  bytes : gmap Z Z;
  blocks : gmap Z Z;     (* the size of every block in use *)
  pbuf_free_ooseq_pending : Z;
  ltrace : list lwip_event
}.

Definition set_pbufs (m : gmap Z pbuf) (s : lwip) : lwip := mkLwip m (bytes s) (blocks s) (pbuf_free_ooseq_pending s) (ltrace s).
Definition set_bytes (m : gmap Z Z) (s : lwip) : lwip := mkLwip (pbufs s) m (blocks s) (pbuf_free_ooseq_pending s) (ltrace s).
Definition set_blocks (m : gmap Z Z) (s : lwip) : lwip := mkLwip (pbufs s) (bytes s) m (pbuf_free_ooseq_pending s) (ltrace s).
Definition set_pending (x : Z) (s : lwip) : lwip := mkLwip (pbufs s) (bytes s) (blocks s) x (ltrace s).
Definition log (e : lwip_event) (s : lwip) : lwip := mkLwip (pbufs s) (bytes s) (blocks s) (pbuf_free_ooseq_pending s) (ltrace s ++ [e]).

(** What the rest of the system returns, a function of the calls so far: [malloc], the
    contents of a new block, [tcpip_callback_with_block]. *)
Class LwipEnv := {
  env_malloc : list lwip_event -> Z -> Z;
  env_fresh : list lwip_event -> Z -> Z;
  env_callback : list lwip_event -> Z
}.

(** The bytes [l] at address [a]. *)
Definition store (a : Z) (l : list Z) (m : gmap Z Z) : gmap Z Z := list_to_map (zip (seqZ a (zlen l)) l) ∪ m.
Definition load (m : gmap Z Z) (a n : Z) : option (list Z) := mapM (fun x => m !! x) (seqZ a n).
Definition in_block (a n x : Z) : bool := (a <=? x) && (x <? a + n).

Section Pbuf.
Context {env : LwipEnv}.

Definition ld (p : Z) : C lwip pbuf := m ← gets pbufs; match m !! p with Some b => mret b | None => undefined end.
Definition upd (p : Z) (f : pbuf -> pbuf) : C lwip unit := b ← ld p; modify (fun s => set_pbufs (<[p := f b]> (pbufs s)) s).
Definition ldb (a : Z) : C lwip Z := m ← gets bytes; match m !! a with Some b => mret b | None => undefined end.
Definition stb (a v : Z) : C lwip unit := ldb a;; modify (fun s => set_bytes (<[a := v]> (bytes s)) s).

Definition overlap (a b n : Z) : bool := (0 <? n) && (a <? b + n) && (b <? a + n).

Definition memcpy (dst src n : Z) : C lwip unit :=
  m ← gets bytes;
  match load m src n, load m dst n with
  | Some l, Some _ => if overlap dst src n then undefined else modify (fun s => set_bytes (store dst l (bytes s)) s)
  | _, _ => undefined
  end.

(** [malloc] of a block that starts with a [struct pbuf]. *)
Definition mem_malloc (size : Z) (b : Z -> pbuf) : C lwip Z :=
  h ← gets ltrace;
  let a := env_malloc h size in
  modify (log (LMalloc size a));;
  if a =? 0 then mret 0
  else
    modify (fun s => set_blocks (<[a := size]> (blocks s)) (set_pbufs (<[a := b a]> (pbufs s))
      (set_bytes (store (a + SIZEOF_STRUCT_PBUF) (env_fresh h <$> seqZ (a + SIZEOF_STRUCT_PBUF) (size - SIZEOF_STRUCT_PBUF)) (bytes s)) s)));;
    mret a.

Definition mem_free (a : Z) : C lwip unit :=
  m ← gets blocks;
  match m !! a with
  | None => undefined
  | Some n =>
      modify (fun s => set_blocks (delete a (blocks s)) (set_pbufs (delete a (pbufs s))
        (set_bytes (filter (fun '(x, _) => in_block a n x = false) (bytes s)) s)));;
      modify (log (LFree a))
  end.

(** With [MEMP_MEM_MALLOC] the pools are in the heap. *)
Definition MEMP_PBUF_size : Z := SIZEOF_STRUCT_PBUF.
Definition MEMP_PBUF_POOL_size : Z := SIZEOF_STRUCT_PBUF + PBUF_POOL_BUFSIZE_ALIGNED.

(** The fuel of a walk along a chain. *)
Definition chain_fuel : C lwip nat := gets (fun s => S (size (pbufs s))).

(** A loop that is only left through its condition. *)
Definition until {L} (fuel : nat) (body : L -> C lwip (ctl L unit)) (l : L) : C lwip L :=
  r ← loop fuel body l; match r with inl l => mret l | inr _ => undefined end.

(** ** Reference counts *)

Definition pbuf_ref (p : Z) : C lwip unit :=
  if p =? 0 then mret tt else upd p (fun b => set_ref (p_ref b + 1) b).

Definition pbuf_release (p : Z) (b : pbuf) : C lwip unit :=
  (if (p_type b =? PBUF_REF) then
     match p_eb b with
     | None => undefined
     | Some eb => if eb =? 0 then mret tt else modify (log (LRecycle eb))
     end
   else mret tt);;
  mem_free p.

(** The loop of [pbuf_free]: the pbuf whose reference is dropped, and the count. *)
Definition free_body (x : Z * Z) : C lwip (ctl (Z * Z) unit) :=
  let '(p, count) := x in
  if p =? 0 then mret (Exit x)
  else
    upd p (fun b => set_ref (p_ref b - 1) b);;
    b ← ld p;
    if p_ref b =? 0 then pbuf_release p b;; mret (Next (p_next b, u8 (count + 1)))
    else mret (Next (0, count)).

Definition pbuf_free (p : Z) : C lwip Z :=
  if p =? 0 then mret 0
  else
    fuel ← chain_fuel;
    r ← until fuel free_body (p, 0);
    mret (snd r).

Definition clen_body (x : Z * Z) : C lwip (ctl (Z * Z) unit) :=
  let '(p, len) := x in
  if p =? 0 then mret (Exit x) else b ← ld p; mret (Next (p_next b, u8 (len + 1))).

Definition pbuf_clen (p : Z) : C lwip Z := fuel ← chain_fuel; r ← until fuel clen_body (p, 0); mret (snd r).

(** ** Allocation *)

Definition layer_offset (layer : Z) : option Z :=
  if layer =? PBUF_TRANSPORT then Some (PBUF_LINK_ENCAPSULATION_HLEN + PBUF_LINK_HLEN + PBUF_IP_HLEN + PBUF_TRANSPORT_HLEN + EP_OFFSET)
  else if layer =? PBUF_IP then Some (PBUF_LINK_ENCAPSULATION_HLEN + PBUF_LINK_HLEN + PBUF_IP_HLEN + EP_OFFSET)
  else if layer =? PBUF_LINK then Some (PBUF_LINK_ENCAPSULATION_HLEN + PBUF_LINK_HLEN + EP_OFFSET)
  else if layer =? PBUF_RAW_TX then Some PBUF_LINK_ENCAPSULATION_HLEN
  else if layer =? PBUF_RAW then Some EP_OFFSET
  else None.

Definition pbuf_pool_is_empty : C lwip unit :=
  queued ← gets pbuf_free_ooseq_pending;
  modify (set_pending 1);;
  if queued =? 0 then
    h ← gets ltrace;
    let r := env_callback h in
    modify (log (LCallback r));;
    if negb (r =? ERR_OK) then modify (set_pending 0) else mret tt
  else mret tt.

Definition init_pbuf (b : pbuf) : pbuf := mkPbuf (p_next b) (p_payload b) (p_tot_len b) (p_len b) (p_type b) 0 1 (Some 0).

(** The tail of a chain from the pool: the last pbuf and the length that is missing. *)
Definition alloc_body (p : Z) (x : Z * Z) : C lwip (ctl (Z * Z) unit) :=
  let '(r, rem_len) := x in
  if rem_len <=? 0 then mret (Exit x)
  else
    let len := u16 (LWIP_MIN (u16 rem_len) PBUF_POOL_BUFSIZE_ALIGNED) in
    q ← mem_malloc MEMP_PBUF_POOL_size (fun a => mkPbuf 0 (a + SIZEOF_STRUCT_PBUF) (u16 rem_len) len PBUF_POOL 0 1 None);
    if q =? 0 then pbuf_pool_is_empty;; _ ← pbuf_free p; mret (Return tt)
    else upd r (set_next q);; mret (Next (q, rem_len - len)).

Definition alloc_pool (offset length : Z) : C lwip Z :=
  let len := u16 (LWIP_MIN length (PBUF_POOL_BUFSIZE_ALIGNED - LWIP_MEM_ALIGN_SIZE offset)) in
  p ← mem_malloc MEMP_PBUF_POOL_size (fun a => mkPbuf 0 (LWIP_MEM_ALIGN (a + (SIZEOF_STRUCT_PBUF + offset))) length len PBUF_POOL 0 1 None);
  if p =? 0 then pbuf_pool_is_empty;; mret 0
  else
    r ← loop (Z.to_nat length + 1) (alloc_body p) (p, length - len);
    match r with
    | inr _ => mret 0
    | inl _ => upd p init_pbuf;; mret p
    end.

Definition pbuf_alloc (layer length type : Z) : C lwip Z :=
  match layer_offset layer with
  | None => mret 0
  | Some offset =>
      if type =? PBUF_POOL then alloc_pool offset length
      else if type =? PBUF_RAM then
        p ← mem_malloc (LWIP_MEM_ALIGN_SIZE (SIZEOF_STRUCT_PBUF + offset) + LWIP_MEM_ALIGN_SIZE length)
          (fun a => mkPbuf 0 (LWIP_MEM_ALIGN (a + SIZEOF_STRUCT_PBUF + offset)) length length PBUF_RAM 0 0 None);
        if p =? 0 then mret 0 else upd p init_pbuf;; mret p
      else if (type =? PBUF_ROM) || (type =? PBUF_REF) then
        p ← mem_malloc MEMP_PBUF_size (fun _ => mkPbuf 0 0 length length type 0 0 None);
        if p =? 0 then mret 0 else upd p init_pbuf;; mret p
      else mret 0
  end.

(** ** Trimming and headers *)

(** The step over the pbufs that stay. *)
Definition realloc_body (grow : Z) (x : Z * Z) : C lwip (ctl (Z * Z) unit) :=
  let '(rem_len, q) := x in
  b ← ld q;
  if p_len b <? rem_len then
    upd q (fun b => set_tot_len (p_tot_len b + u16 grow) b);;
    mret (Next (u16 (rem_len - p_len b), p_next b))
  else mret (Exit x).

(** [mem_trim] is the identity with the allocator of the C library. *)
Definition pbuf_realloc (p new_len : Z) : C lwip unit :=
  b ← ld p;
  if p_tot_len b <=? new_len then mret tt
  else
    let grow := new_len - p_tot_len b in
    fuel ← chain_fuel;
    x ← until fuel (realloc_body grow) (new_len, p);
    let '(rem_len, q) := x in
    upd q (set_len rem_len);;
    upd q (fun b => set_tot_len (p_len b) b);;
    b ← ld q;
    (if negb (p_next b =? 0) then _ ← pbuf_free (p_next b); mret tt else mret tt);;
    upd q (set_next 0).

Definition pbuf_header_impl (p header_size_increment : Z) (force : bool) : C lwip Z :=
  if (header_size_increment =? 0) || (p =? 0) then mret 0
  else
    b ← ld p;
    let increment_magnitude := u16 (Z.abs header_size_increment) in
    if (header_size_increment <? 0) && negb (increment_magnitude <=? p_len b) then mret 1
    else
      let payload := p_payload b - header_size_increment in
      let resize b := set_tot_len (p_tot_len b + header_size_increment) (set_len (p_len b + header_size_increment) b) in
      if (p_type b =? PBUF_RAM) || (p_type b =? PBUF_POOL) then
        if payload <? p + SIZEOF_STRUCT_PBUF then mret 1
        else upd p (fun b => resize (set_payload payload b));; mret 0
      else if (p_type b =? PBUF_REF) || (p_type b =? PBUF_ROM) then
        if (header_size_increment <? 0) && (increment_magnitude <=? p_len b) || (0 <? header_size_increment) && force then
          upd p (fun b => resize (set_payload payload b));; mret 0
        else mret 1
      else mret 1.

Definition pbuf_header (p header_size_increment : Z) : C lwip Z := pbuf_header_impl p header_size_increment false.
Definition pbuf_header_force (p header_size_increment : Z) : C lwip Z := pbuf_header_impl p header_size_increment true.

(** ** Chains *)

Definition cat_body (t p : Z) : C lwip (ctl Z unit) :=
  b ← ld p;
  if p_next b =? 0 then mret (Exit p)
  else tb ← ld t; upd p (fun b => set_tot_len (p_tot_len b + p_tot_len tb) b);; mret (Next (p_next b)).

Definition pbuf_cat (h t : Z) : C lwip unit :=
  if (h =? 0) || (t =? 0) then mret tt
  else
    fuel ← chain_fuel;
    p ← until fuel (cat_body t) h;
    tb ← ld t;
    upd p (fun b => set_tot_len (p_tot_len b + p_tot_len tb) b);;
    upd p (set_next t).

Definition pbuf_chain (h t : Z) : C lwip unit := pbuf_cat h t;; pbuf_ref t.

Definition pbuf_dechain (p : Z) : C lwip Z :=
  b ← ld p;
  let q := p_next b in
  if negb (q =? 0) then
    upd q (set_tot_len (p_tot_len b - p_len b));;
    upd p (set_next 0);;
    upd p (fun b => set_tot_len (p_len b) b);;
    tail_gone ← pbuf_free q;
    mret (if 0 <? tail_gone then 0 else q)
  else mret 0.

(** ** Contents *)

(** One round of the loop of [pbuf_copy]: [p_to], [p_from] and the offsets in them. *)
Definition copy_body (x : Z * Z * Z * Z) : C lwip (ctl (Z * Z * Z * Z) Z) :=
  let '(p_to, p_from, offset_to, offset_from) := x in
  t ← ld p_to;
  f ← ld p_from;
  let len := u16 (if p_len f - offset_from <=? p_len t - offset_to then p_len f - offset_from else p_len t - offset_to) in
  memcpy (p_payload t + offset_to) (p_payload f + offset_from) len;;
  let offset_to := u16 (offset_to + len) in
  let offset_from := u16 (offset_from + len) in
  let from := if p_len f <=? offset_from then (p_next f, 0) else (p_from, offset_from) in
  let to := if offset_to =? p_len t then (p_next t, 0) else (p_to, offset_to) in
  let '(p_from, offset_from) := from in
  if (offset_to =? p_len t) && (fst to =? 0) && negb (p_from =? 0) then mret (Return ERR_ARG)
  else
    let '(p_to, offset_to) := to in
    queue_from ← (if p_from =? 0 then mret false else f ← ld p_from; mret ((p_len f =? p_tot_len f) && negb (p_next f =? 0)));
    if queue_from : bool then mret (Return ERR_VAL)
    else
      queue_to ← (if p_to =? 0 then mret false else t ← ld p_to; mret ((p_len t =? p_tot_len t) && negb (p_next t =? 0)));
      if queue_to : bool then mret (Return ERR_VAL)
      else if p_from =? 0 then mret (Exit x) else mret (Next (p_to, p_from, offset_to, offset_from)).

Definition pbuf_copy (p_to p_from : Z) : C lwip Z :=
  if (p_to =? 0) || (p_from =? 0) then mret ERR_ARG
  else
    t ← ld p_to;
    f ← ld p_from;
    if p_tot_len t <? p_tot_len f then mret ERR_ARG
    else
      fuel ← chain_fuel;
      r ← loop (fuel + fuel) copy_body (p_to, p_from, 0, 0);
      mret (match r with inl _ => ERR_OK | inr e => e end).

Record partial := mkPartial { pc_p : Z; pc_len : Z; pc_offset : Z; pc_left : Z; pc_copied_total : Z }.

Definition copy_partial_body (dataptr : Z) (x : partial) : C lwip (ctl partial unit) :=
  let '(mkPartial p len offset lft copied_total) := x in
  if (len =? 0) || (p =? 0) then mret (Exit x)
  else
    b ← ld p;
    if negb (offset =? 0) && (p_len b <=? offset) then mret (Next (mkPartial (p_next b) len (u16 (offset - p_len b)) lft copied_total))
    else
      let buf_copy_len := u16 (p_len b - offset) in
      let buf_copy_len := if len <? buf_copy_len then len else buf_copy_len in
      memcpy (dataptr + lft) (p_payload b + offset) buf_copy_len;;
      mret (Next (mkPartial (p_next b) (u16 (len - buf_copy_len)) 0 (u16 (lft + buf_copy_len)) (u16 (copied_total + buf_copy_len)))).

Definition pbuf_copy_partial (buf dataptr len offset : Z) : C lwip Z :=
  if (buf =? 0) || (dataptr =? 0) then mret 0
  else
    fuel ← chain_fuel;
    x ← until fuel (copy_partial_body dataptr) (mkPartial buf len offset 0 0);
    mret (pc_copied_total x).

Definition pbuf_skip_body (x : Z * Z) : C lwip (ctl (Z * Z) unit) :=
  let '(q, offset_left) := x in
  if q =? 0 then mret (Exit x)
  else
    b ← ld q;
    if p_len b <=? offset_left then mret (Next (p_next b, u16 (offset_left - p_len b))) else mret (Exit x).

(** The pbuf and what is stored to [*out_offset]. *)
Definition pbuf_skip (p in_offset : Z) : C lwip (Z * Z) := fuel ← chain_fuel; until fuel pbuf_skip_body (p, in_offset).

Definition take_body (dataptr : Z) (x : Z * Z * Z) : C lwip (ctl (Z * Z * Z) unit) :=
  let '(p, total_copy_len, copied_total) := x in
  if total_copy_len =? 0 then mret (Exit x)
  else
    b ← ld p;
    let buf_copy_len := if p_len b <? total_copy_len then p_len b else total_copy_len in
    memcpy (p_payload b) (dataptr + copied_total) buf_copy_len;;
    mret (Next (p_next b, u16 (total_copy_len - buf_copy_len), u16 (copied_total + buf_copy_len))).

Definition pbuf_take (buf dataptr len : Z) : C lwip Z :=
  if (buf =? 0) || (dataptr =? 0) then mret ERR_ARG
  else
    b ← ld buf;
    if p_tot_len b <? len then mret ERR_MEM
    else
      fuel ← chain_fuel;
      _ ← until fuel (take_body dataptr) (buf, len, 0);
      mret ERR_OK.

Definition pbuf_take_at (buf dataptr len offset : Z) : C lwip Z :=
  r ← pbuf_skip buf offset;
  let '(q, target_offset) := r in
  if q =? 0 then mret ERR_MEM
  else
    b ← ld q;
    if target_offset + len <=? p_tot_len b then
      let first_copy_len := u16 (LWIP_MIN (p_len b - target_offset) len) in
      memcpy (p_payload b + target_offset) dataptr first_copy_len;;
      let remaining_len := u16 (len - first_copy_len) in
      if 0 <? remaining_len then pbuf_take (p_next b) (dataptr + first_copy_len) remaining_len else mret ERR_OK
    else mret ERR_MEM.

Definition pbuf_coalesce (p layer : Z) : C lwip Z :=
  b ← ld p;
  if p_next b =? 0 then mret p
  else
    q ← pbuf_alloc layer (p_tot_len b) PBUF_RAM;
    if q =? 0 then mret p
    else
      _ ← pbuf_copy q p;
      _ ← pbuf_free p;
      mret q.

Definition pbuf_get_at (p offset : Z) : C lwip Z :=
  r ← pbuf_skip p offset;
  let '(q, q_idx) := r in
  if q =? 0 then mret 0
  else b ← ld q; if q_idx <? p_len b then ldb (p_payload b + q_idx) else mret 0.

Definition pbuf_put_at (p offset data : Z) : C lwip unit :=
  r ← pbuf_skip p offset;
  let '(q, q_idx) := r in
  if q =? 0 then mret tt
  else b ← ld q; if q_idx <? p_len b then stb (p_payload b + q_idx) data else mret tt.

Definition memcmp_body (q start s2 n i : Z) : C lwip (ctl Z Z) :=
  if i <? n then
    a ← pbuf_get_at q (u16 (start + i));
    b ← ldb (s2 + i);
    if negb (a =? b) then mret (Return (u16 (i + 1))) else mret (Next (u16 (i + 1)))
  else mret (Exit i).

Definition pbuf_memcmp (p offset s2 n : Z) : C lwip Z :=
  fuel ← chain_fuel;
  r ← until fuel pbuf_skip_body (p, offset);
  let '(q, start) := r in
  if q =? 0 then mret 0xffff
  else
    b ← ld q;
    if start <? p_len b then
      r ← loop (Z.to_nat n + 1) (memcmp_body q start s2 n) 0;
      mret (match r with inl _ => 0 | inr r => r end)
    else mret 0xffff.

Definition memfind_body (p mem mem_len max i : Z) : C lwip (ctl Z Z) :=
  if i <=? max then
    plus ← pbuf_memcmp p i mem mem_len;
    if plus =? 0 then mret (Return i) else mret (Next (u16 (i + 1)))
  else mret (Exit i).

Definition pbuf_memfind (p mem mem_len start_offset : Z) : C lwip Z :=
  b ← ld p;
  let max := u16 (p_tot_len b - mem_len) in
  if mem_len + start_offset <=? p_tot_len b then
    r ← loop (Z.to_nat (2 ^ 16) + 1) (memfind_body p mem mem_len max) start_offset;
    mret (match r with inl _ => 0xffff | inr i => i end)
  else mret 0xffff.

(** The length of the string at [a]: the first zero byte ends it. *)
Definition strlen (a : Z) : C lwip Z :=
  fuel ← gets (fun s => S (size (bytes s)));
  until fuel (fun i => c ← ldb (a + i); if c =? 0 then mret (Exit i) else mret (Next (i + 1))) 0.

Definition pbuf_strstr (p substr : Z) : C lwip Z :=
  if substr =? 0 then mret 0xffff
  else
    c ← ldb substr;
    if c =? 0 then mret 0xffff
    else
      b ← ld p;
      if p_tot_len b =? 0xffff then mret 0xffff
      else
        substr_len ← strlen substr;
        if 0xffff <=? substr_len then mret 0xffff else pbuf_memfind p substr (u16 substr_len) 0.

End Pbuf.
