(* ===== verification/PbufProof.v ===== *)
(** The packet buffers of [Pbuf]: memory, chains and what they contain; what the operations
    on the contents of a chain do. *)
From Stdlib Require Import ZArith Lia Bool.
From S2P Require Import Prelude CSem Pbuf.
From stdpp Require Import base list numbers option gmap.

Open Scope Z_scope.

(** ** Memory *)

Lemma in_block_spec a n x : in_block a n x = true <-> a <= x < a + n.
Proof. unfold in_block. rewrite andb_true_iff, Z.leb_le, Z.ltb_lt. done. Qed.

Lemma in_block_false a n x : in_block a n x = false <-> ~ a <= x < a + n.
Proof. rewrite <- in_block_spec. by destruct (in_block a n x). Qed.

(** The bytes at the addresses [la], in their order, and [vs] written to them. *)
Definition fetch (m : gmap Z Z) (la : list Z) : option (list Z) := mapM (fun x => m !! x) la.
Definition puts (la vs : list Z) (m : gmap Z Z) : gmap Z Z := list_to_map (zip la vs) ∪ m.

Lemma load_fetch m a n : load m a n = fetch m (seqZ a n).
Proof. done. Qed.

Lemma store_puts a l m : store a l m = puts (seqZ a (zlen l)) l m.
Proof. done. Qed.

Lemma fetch_spec m la vs : fetch m la = Some vs <-> Forall2 (fun x v => m !! x = Some v) la vs.
Proof. apply mapM_Some. Qed.

Lemma fetch_length m la vs : fetch m la = Some vs -> length la = length vs.
Proof. intros H%fetch_spec. by eapply Forall2_length. Qed.

Lemma fetch_zlen m a n vs : 0 <= n -> fetch m (seqZ a n) = Some vs -> zlen vs = n.
Proof. intros Hn H%fetch_length. rewrite length_seqZ in H. unfold zlen. lia. Qed.

Lemma load_spec m a n l : 0 <= n -> load m a n = Some l -> zlen l = n /\ forall i, 0 <= i < n -> m !! (a + i) = l !! Z.to_nat i.
Proof.
  intros Hn H. pose proof (fetch_zlen _ _ _ _ Hn H) as Hl. split; [done|]. intros i Hi. rewrite load_fetch in H. apply fetch_spec in H.
  destruct (lookup_lt_is_Some_2 l (Z.to_nat i)) as [v Hv]; [unfold zlen in Hl; lia|]. destruct (Forall2_lookup_r _ _ _ _ _ H Hv) as (x & Hx & Hm).
  rewrite lookup_seqZ_lt in Hx by lia. injection Hx as <-. rewrite Hv, <- Hm. f_equal. lia.
Qed.

Lemma fetch_app m la lb vs : fetch m (la ++ lb) = Some vs <-> exists v w, fetch m la = Some v /\ fetch m lb = Some w /\ vs = v ++ w.
Proof.
  rewrite fetch_spec. split.
  - intros (v & w & Hv & Hw & ->)%Forall2_app_inv_l. exists v, w. by rewrite !fetch_spec.
  - intros (v & w & Hv%fetch_spec & Hw%fetch_spec & ->). by apply Forall2_app.
Qed.

Lemma fetch_ext m m' la : (forall x, x ∈ la -> m' !! x = m !! x) -> fetch m' la = fetch m la.
Proof.
  intros H. unfold fetch. induction la as [|x la IH]; [done|]. cbn. rewrite H by left. rewrite IH; [done|]. intros y Hy. apply H. by right.
Qed.

Lemma fetch_in m la vs x : fetch m la = Some vs -> x ∈ la -> is_Some (m !! x).
Proof. intros H%fetch_spec Hx. apply list_elem_of_lookup in Hx as [i Hi]. destruct (Forall2_lookup_l _ _ _ _ _ H Hi) as (v & _ & Hv). eauto. Qed.

Lemma fetch_is_Some m la : (forall x, x ∈ la -> is_Some (m !! x)) -> is_Some (fetch m la).
Proof. intros H. apply mapM_is_Some. apply list.Forall_forall. intros x Hx. by apply H. Qed.

Lemma lookup_puts_ne la vs m x : x ∉ la -> puts la vs m !! x = m !! x.
Proof.
  intros H. unfold puts. rewrite lookup_union.
  assert ((list_to_map (zip la vs) : gmap Z Z) !! x = None) as ->; [|by destruct (m !! x)].
  apply not_elem_of_list_to_map_1. intros ([y v] & -> & Hin)%list_elem_of_fmap. apply H. cbn. by eapply elem_of_zip_l.
Qed.

Lemma lookup_puts la vs m i x v : NoDup la -> la !! i = Some x -> vs !! i = Some v -> puts la vs m !! x = Some v.
Proof.
  intros Hnd Hx Hv. unfold puts. rewrite lookup_union.
  assert ((list_to_map (zip la vs) : gmap Z Z) !! x = Some v) as ->; [|by destruct (m !! x)].
  apply elem_of_list_to_map_1'.
  - intros w Hw. apply list_elem_of_lookup in Hw as [j Hj]. rewrite lookup_zip_with in Hj. destruct (la !! j) as [y|] eqn:Ej; [|done]. cbn in Hj.
    destruct (vs !! j) as [u|] eqn:Eu; [|done]. cbn in Hj. injection Hj as -> ->. assert (i = j) as -> by (by eapply NoDup_lookup). congruence.
  - apply list_elem_of_lookup. exists i. rewrite lookup_zip_with, Hx. cbn. by rewrite Hv.
Qed.

Lemma fetch_puts_same la vs m : NoDup la -> length la = length vs -> fetch (puts la vs m) la = Some vs.
Proof.
  intros Hnd Hl. apply fetch_spec, Forall2_lookup. intros i. destruct (la !! i) as [x|] eqn:E.
  - destruct (lookup_lt_is_Some_2 vs i) as [v Hv]; [apply lookup_lt_Some in E; lia|]. rewrite Hv. constructor. by eapply lookup_puts.
  - rewrite (lookup_ge_None_2 vs) by (apply lookup_ge_None in E; lia). constructor.
Qed.

Lemma fetch_puts_disjoint la vs lb m : la ## lb -> fetch (puts la vs m) lb = fetch m lb.
Proof. intros H. apply fetch_ext. intros x Hx. apply lookup_puts_ne. intros Hx'. by apply (H x). Qed.

Lemma puts_nil m : puts [] [] m = m.
Proof. unfold puts. cbn. apply (left_id_L ∅ union). Qed.

Lemma puts_app la va lb vb m : NoDup (la ++ lb) -> length la = length va -> length lb = length vb ->
  puts lb vb (puts la va m) = puts (la ++ lb) (va ++ vb) m.
Proof.
  intros Hnd Ha Hb. apply map_eq. intros x. pose proof Hnd as (Hna & Hd & Hnb)%list.NoDup_app.
  destruct (decide (x ∈ lb)) as [Hx|Hx]; [|destruct (decide (x ∈ la)) as [Hy|Hy]].
  - apply list_elem_of_lookup in Hx as [i Hi]. destruct (lookup_lt_is_Some_2 vb i) as [v Hv]; [apply lookup_lt_Some in Hi; lia|].
    rewrite (lookup_puts lb vb _ i x v) by done. symmetry. apply (lookup_puts _ _ _ (length la + i)); [done|by rewrite lookup_app_r, Nat.add_sub' by lia|].
    rewrite Ha. by rewrite lookup_app_r, Nat.add_sub' by lia.
  - rewrite lookup_puts_ne by done. apply list_elem_of_lookup in Hy as [i Hi]. pose proof (lookup_lt_Some _ _ _ Hi).
    destruct (lookup_lt_is_Some_2 va i) as [v Hv]; [lia|]. rewrite (lookup_puts la va _ i x v) by done. symmetry.
    apply (lookup_puts _ _ _ i); [done|by rewrite lookup_app_l by lia|by rewrite lookup_app_l by lia].
  - rewrite !lookup_puts_ne; [done|rewrite elem_of_app; tauto|done|done].
Qed.

Lemma lookup_store a l m x : store a l m !! x = if in_block a (zlen l) x then l !! Z.to_nat (x - a) else m !! x.
Proof.
  rewrite store_puts. destruct (in_block a (zlen l) x) eqn:E.
  - apply in_block_spec in E. destruct (lookup_lt_is_Some_2 l (Z.to_nat (x - a))) as [v Hv]; [unfold zlen in E; lia|]. rewrite Hv.
    apply (lookup_puts _ _ _ (Z.to_nat (x - a))); [apply NoDup_seqZ| |done]. rewrite lookup_seqZ_lt by lia. f_equal. lia.
  - apply in_block_false in E. apply lookup_puts_ne. by rewrite elem_of_seqZ.
Qed.

(** Adjacent blocks. *)
Lemma seqZ_split a n k : 0 <= k <= n -> seqZ a n = seqZ a k ++ seqZ (a + k) (n - k).
Proof. intros Hk. rewrite <- seqZ_app by lia. f_equal. lia. Qed.

Lemma overlap_disjoint a b n : seqZ a n ## seqZ b n -> overlap a b n = false.
Proof.
  intros H. unfold overlap. destruct (0 <? n) eqn:E1, (a <? b + n) eqn:E2, (b <? a + n) eqn:E3; try done. exfalso. bools.
  apply (H (Z.max a b)); apply elem_of_seqZ; lia.
Qed.

Lemma set_bytes_eq s m : bytes (set_bytes m s) = m.
Proof. done. Qed.

Lemma set_bytes_twice s m m' : set_bytes m' (set_bytes m s) = set_bytes m' s.
Proof. done. Qed.

Lemma set_bytes_same s : set_bytes (bytes s) s = s.
Proof. by destruct s. Qed.

(** One [memcpy] of a loop that has written [w] to the addresses [dn] so far. *)
Lemma memcpy_chunk s m dn w dst src n v : 0 <= n -> length dn = length w -> NoDup (dn ++ seqZ dst n) -> (dn ++ seqZ dst n) ## seqZ src n ->
  fetch m (seqZ src n) = Some v -> is_Some (fetch m (seqZ dst n)) ->
  memcpy dst src n (set_bytes (puts dn w m) s) = Done (tt, set_bytes (puts (dn ++ seqZ dst n) (w ++ v) m) s).
Proof.
  intros Hn Hl Hnd Hd Hsrc [u Hdst]. unfold memcpy, mbind, C_bind, gets. rewrite set_bytes_eq, !load_fetch.
  apply list.NoDup_app in Hnd as Hnd'. destruct Hnd' as (Hna & Hnn & Hnb).
  rewrite (fetch_puts_disjoint dn) by (intros x ? ?; eapply Hd; [apply elem_of_app; by left|done]). rewrite Hsrc.
  rewrite (fetch_puts_disjoint dn) by (intros x Hx1 Hx2; by eapply Hnn). rewrite Hdst.
  rewrite overlap_disjoint by (intros x ? ?; eapply Hd; [apply elem_of_app; by right|done]). unfold modify. do 2 f_equal.
  unfold set_bytes. cbn. f_equal. rewrite store_puts, (fetch_zlen _ _ _ _ Hn Hsrc). apply puts_app; [done|done|]. rewrite <- (fetch_length _ _ _ Hsrc). by rewrite !length_seqZ.
Qed.

(** ** Chains *)

Fixpoint chain (m : gmap Z pbuf) (p : Z) (l : list (Z * pbuf)) : Prop :=
  match l with
  | [] => p = 0
  | (a, b) :: l => p = a /\ a <> 0 /\ m !! a = Some b /\ chain m (p_next b) l
  end.

Lemma chain_det m p l l' : chain m p l -> chain m p l' -> l = l'.
Proof.
  revert p l'. induction l as [|[a b] l IH]; intros p [|[a' b'] l']; cbn; [done|by intros -> (<- & ? & _)|by intros (<- & ? & _) ->|].
  intros (-> & Ha & Hb & H) (<- & _ & Hb' & H'). assert (b' = b) as -> by congruence. f_equal. by eapply IH.
Qed.

Lemma chain_drop m p l k x : chain m p (l ++ x :: k) -> chain m (fst x) (x :: k).
Proof.
  revert p. induction l as [|[a b] l IH]; intros p; destruct x as [y c]; cbn.
  - intros (-> & ? & ? & ?). done.
  - intros (_ & _ & _ & H). apply (IH _ H).
Qed.

Lemma chain_nodup m p l : chain m p l -> NoDup (fst <$> l).
Proof.
  revert p. induction l as [|[a b] l IH]; intros p; cbn; [constructor|]. intros (-> & Ha & Hb & H).
  constructor; [|by eapply IH]. intros Hin. apply list_elem_of_fmap in Hin as ([a' b'] & -> & Hin). apply list_elem_of_split in Hin as (l1 & l2 & ->).
  pose proof (chain_drop _ _ _ _ _ H) as H2. cbn [fst] in H2. assert (chain m a' ((a', b) :: l1 ++ (a', b') :: l2)) as H1 by (cbn; done).
  pose proof (chain_det _ _ _ _ H1 H2) as E. apply (f_equal length) in E. cbn in E. rewrite length_app in E. cbn in E. lia.
Qed.

Lemma chain_lookup m p l a b : chain m p l -> (a, b) ∈ l -> m !! a = Some b /\ a <> 0.
Proof.
  revert p. induction l as [|[a' b'] l IH]; intros p; [by intros _ ?%elem_of_nil|]. cbn. intros (_ & ? & ? & H) [E|Hin]%elem_of_cons.
  - by injection E as -> ->.
  - by eapply IH.
Qed.

Lemma chain_size m p l : chain m p l -> (length l <= size m)%nat.
Proof.
  intros H. rewrite <- (length_fmap fst). replace (size m) with (length (fst <$> map_to_list m)) by (by rewrite length_fmap, length_map_to_list).
  apply submseteq_length, NoDup_submseteq; [by eapply chain_nodup|]. intros a Ha. apply list_elem_of_fmap in Ha as ([a' b] & -> & Hin).
  apply list_elem_of_fmap. exists (a', b). split; [done|]. apply elem_of_map_to_list. by eapply chain_lookup.
Qed.

Lemma chain_ext m m' p l : (forall a b, (a, b) ∈ l -> m' !! a = m !! a) -> chain m p l -> chain m' p l.
Proof.
  revert p. induction l as [|[a b] l IH]; intros p Hext; cbn; [done|]. intros (-> & Ha & Hb & H). split; [done|]. split; [done|].
  split; [rewrite <- Hb; eapply Hext; by left|]. apply IH; [|done]. intros a' b' Hin. eapply Hext. by right.
Qed.

Lemma chain_tail m a b l : chain m a ((a, b) :: l) -> chain m (p_next b) l.
Proof. by intros (_ & _ & _ & H). Qed.

(** The null pointer is the empty chain. *)
Lemma chain_null m l : chain m 0 l -> l = [].
Proof. destruct l as [|[a b] l]; [done|]. intros (<- & H & _). done. Qed.

(** ** Contents *)

Definition area (b : pbuf) : list Z := seqZ (p_payload b) (p_len b).
Fixpoint addrs (l : list (Z * pbuf)) : list Z := match l with [] => [] | (_, b) :: l => area b ++ addrs l end.
Fixpoint total (l : list (Z * pbuf)) : Z := match l with [] => 0 | (_, b) :: l => p_len b + total l end.

(** Every [tot_len] is the length of the rest of the chain. *)
Fixpoint tot_ok (l : list (Z * pbuf)) : Prop :=
  match l with
  | [] => True
  | (a, b) :: l' => p_tot_len b = total l /\ tot_ok l'
  end.

Definition len_ok (x : Z * pbuf) : Prop := 0 <= p_len (snd x) < 65536.

(** The chain at [p] is a packet of the pbufs [l]. *)
Definition linked (s : lwip) (p : Z) (l : list (Z * pbuf)) : Prop :=
  chain (pbufs s) p l /\ tot_ok l /\ total l < 65536 /\ Forall len_ok l.

(** It has the contents [c]. *)
Definition packet (s : lwip) (p : Z) (l : list (Z * pbuf)) (c : list Z) : Prop := linked s p l /\ fetch (bytes s) (addrs l) = Some c.

Lemma total_nonneg l : Forall len_ok l -> 0 <= total l.
Proof. induction 1 as [|[a b] l H Hl IH]; [done|]. unfold len_ok in H. cbn in *. lia. Qed.

Lemma length_addrs l : Forall len_ok l -> Z.of_nat (length (addrs l)) = total l.
Proof.
  induction 1 as [|[a b] l H Hl IH]; [done|]. unfold len_ok in H. cbn in *. unfold area. rewrite length_app, length_seqZ. lia.
Qed.

Lemma packet_len s p l c : packet s p l c -> zlen c = total l.
Proof. intros [(_ & _ & _ & HF) H%fetch_length]. unfold zlen. by rewrite <- H, length_addrs. Qed.

Lemma linked_tail s p a b l : linked s p ((a, b) :: l) ->
  p = a /\ a <> 0 /\ pbufs s !! a = Some b /\ 0 <= p_len b < 65536 /\ p_tot_len b = p_len b + total l /\ 0 <= total l /\ p_len b + total l < 65536 /\ linked s (p_next b) l.
Proof.
  intros ((-> & Ha & Hb & Hc) & [Ht Hts] & Htot & HF). apply list.Forall_cons in HF as [Hl HF]. pose proof (total_nonneg _ HF). unfold len_ok in Hl. cbn in *.
  split; [done|]. split; [done|]. split; [done|]. split; [done|]. split; [done|]. split; [done|]. split; [done|]. split; [done|]. split; [done|]. split; [lia|done].
Qed.

Lemma packet_tail s p a b l c : packet s p ((a, b) :: l) c ->
  exists d c', c = d ++ c' /\ fetch (bytes s) (area b) = Some d /\ zlen d = p_len b /\ packet s (p_next b) l c'.
Proof.
  intros [Hk H]. cbn [addrs] in H. apply fetch_app in H as (d & c' & Hd & Hc & ->). apply linked_tail in Hk as (_ & _ & _ & ? & _ & _ & _ & Hk).
  exists d, c'. split; [done|]. split; [done|]. split; [eapply fetch_zlen; [|exact Hd]; lia|done].
Qed.

Lemma linked_fuel s p l : linked s p l -> (length l < S (size (pbufs s)))%nat.
Proof. intros (H & _). apply chain_size in H. lia. Qed.

(** ** Walking to an offset *)

Definition front (l : list (Z * pbuf)) : Z := match l with [] => 0 | (a, _) :: _ => a end.

Lemma chain_head m p l : chain m p l -> p = front l.
Proof. by destruct l as [|[a b] l]; [|intros [-> _]]. Qed.

Fixpoint skip_to (l : list (Z * pbuf)) (i : Z) : list (Z * pbuf) * Z :=
  match l with
  | [] => ([], i)
  | (a, b) :: k => if p_len b <=? i then skip_to k (i - p_len b) else (l, i)
  end.

(** The bytes before the offset, and the rest of the packet. *)
Lemma skip_to_spec s l : forall p c i k j, packet s p l c -> 0 <= i -> skip_to l i = (k, j) ->
  exists c1 c2, c = c1 ++ c2 /\ i = zlen c1 + j /\ 0 <= j /\ packet s (front k) k c2 /\ match k with [] => True | (_, b) :: _ => j < p_len b end.
Proof.
  induction l as [|[a b] l IH]; intros p c i k j Hp Hi; cbn.
  - intros [= <- <-]. exists [], c. destruct Hp as [(Hc & Hr) Hf]. cbn in Hc. subst p. by repeat split.
  - pose proof (packet_tail _ _ _ _ _ _ Hp) as (d & c' & -> & Hd & Hl & Hp'). destruct (p_len b <=? i) eqn:E; bools.
    + intros Hk. destruct (IH _ _ (i - p_len b) _ _ Hp' ltac:(lia) Hk) as (c1 & c2 & -> & Ei & Hj & Hp2 & Hk2). exists (d ++ c1), c2.
      rewrite zlen_app, <- app_assoc. split; [done|]. split; [lia|]. done.
    + intros [= <- <-]. exists [], (d ++ c'). destruct Hp as [Hk Hf]. apply linked_tail in Hk as Hk'. destruct Hk' as (-> & _). split; [done|]. split; [by cbn|]. split; [done|]. by split.
Qed.

Definition byte_at (c : list Z) (i : Z) : Z := default 0 (c !! Z.to_nat i).

(** ** Parts of areas and of contents *)

Lemma fetch_sub m a k d o n : 0 <= o -> 0 <= n -> o + n <= k -> fetch m (seqZ a k) = Some d -> fetch m (seqZ (a + o) n) = Some (slice d o n).
Proof.
  intros Ho Hn Hk H. rewrite (seqZ_split a k o), (seqZ_split (a + o) (k - o) n) in H by lia.
  apply fetch_app in H as (d1 & d2 & H1 & H2 & ->). apply fetch_app in H2 as (d3 & d4 & H3 & H4 & ->). rewrite H3. f_equal.
  pose proof (fetch_zlen _ _ _ _ Ho H1) as E1. pose proof (fetch_zlen _ _ _ _ Hn H3) as E3. unfold slice, zlen in *.
  rewrite drop_app_length' by lia. by rewrite take_app_length' by lia.
Qed.

Lemma slice_skip d c o n : zlen d <= o -> slice (d ++ c) o n = slice c (o - zlen d) n.
Proof. intros H. unfold slice, zlen in *. rewrite drop_app_ge by lia. do 2 f_equal. lia. Qed.

Lemma slice_cross d c o n k : 0 <= o -> 0 <= k -> o + k <= zlen d -> k <= n -> o + k = zlen d \/ k = n -> slice (d ++ c) o n = slice d o k ++ slice c 0 (n - k).
Proof.
  intros Ho Hk Hd Hn H. unfold slice, zlen in *. rewrite drop_app_le by lia. rewrite drop_0. destruct H as [H|H].
  - rewrite take_app_ge by (rewrite length_drop; lia). rewrite length_drop. f_equal; [symmetry; apply take_ge; rewrite length_drop; lia|]. f_equal. lia.
  - replace (n - k) with 0 by lia. rewrite take_0, app_nil_r, take_app_le by (rewrite length_drop; lia). by f_equal; lia.
Qed.

Lemma slice_nil o n : slice [] o n = [].
Proof. unfold slice. by rewrite drop_nil, take_nil. Qed.

Lemma slice_none c o : slice c o 0 = [].
Proof. done. Qed.

Lemma slice_zlen c o n : 0 <= o -> 0 <= n -> zlen (slice c o n) = Z.min n (Z.max 0 (zlen c - o)).
Proof. intros Ho Hn. unfold slice, zlen. rewrite length_take, length_drop. lia. Qed.

Lemma addrs_area a b l x : (a, b) ∈ l -> x ∈ area b -> x ∈ addrs l.
Proof. induction l as [|[a' b'] l IH]; [by intros ?%elem_of_nil|]. cbn. intros [E|Hin]%elem_of_cons Hx; apply elem_of_app; [injection E as -> ->; by left|right; auto]. Qed.

(** Writing to a part of the addresses of a packet. *)
Lemma fetch_puts_take m la vs c n : NoDup la -> fetch m la = Some c -> length vs = n -> (n <= length la)%nat -> fetch (puts (take n la) vs m) la = Some (vs ++ drop n c).
Proof.
  intros Hnd Hf Hl Hn. assert (length (take n la) = n) as Hlt by (rewrite length_take; lia). pose proof (take_drop n la) as E.
  set (l1 := take n la) in *. set (l2 := drop n la) in *. clearbody l1 l2. subst la. apply list.NoDup_app in Hnd as (Hn1 & Hd & Hn2).
  apply fetch_app in Hf as (c1 & c2 & H1 & H2 & ->). apply fetch_app. exists vs, c2. split; [apply fetch_puts_same; [done|lia]|]. split.
  - rewrite fetch_puts_disjoint; [done|]. intros x Hx. by apply Hd.
  - f_equal. apply fetch_length in H1. rewrite drop_app_length'; [done|lia].
Qed.

(** No pbuf behind the first is followed by empty ones only: a packet that does not look like
    a queue of packets. *)
Fixpoint solid (l : list (Z * pbuf)) : Prop := match l with [] => True | _ :: k => (k = [] \/ 0 < total k) /\ solid k end.

(** The addresses [r] that are left of the chain [k] from offset [o] of its first pbuf on. *)
Definition cursor (s : lwip) (k : list (Z * pbuf)) (o : Z) (r : list Z) : Prop :=
  linked s (front k) k /\ solid k /\ r = drop (Z.to_nat o) (addrs k) /\ 0 <= o /\ match k with (_, b) :: _ => o = 0 \/ o < p_len b | [] => False end.

Lemma cursor_step s a b k o r n : cursor s ((a, b) :: k) o r -> 0 <= n <= p_len b - o ->
  exists r', r = seqZ (p_payload b + o) n ++ r' /\
    (o + n = p_len b -> p_next b = front k /\ (k = [] /\ r' = [] \/ front k <> 0 /\ cursor s k 0 r' /\ r' <> [])) /\
    (o + n < p_len b -> cursor s ((a, b) :: k) (o + n) r' /\ r' <> []).
Proof.
  intros (Hk & [Hs Hsk] & -> & Ho & _) Hn. cbn [front] in Hk. pose proof (linked_tail _ _ _ _ _ Hk) as (_ & Ha & Hb & Hlb & Ht & Htot & _ & Hk2).
  exists (drop (Z.to_nat (o + n)) (addrs ((a, b) :: k))). cbn [addrs]. unfold area. split; [|split].
  - rewrite (seqZ_split (p_payload b) (p_len b) o), (seqZ_split (p_payload b + o) (p_len b - o) n), <- !app_assoc by lia.
    rewrite drop_app_length' by (rewrite length_seqZ; lia). f_equal. rewrite app_assoc, drop_app_length'; [done|]. rewrite length_app, !length_seqZ. lia.
  - intros E. rewrite drop_app_length' by (rewrite length_seqZ; lia). assert (p_next b = front k) as Hnx by (eapply chain_head; by destruct Hk2). split; [done|].
    rewrite Hnx in Hk2. destruct Hs as [-> | Hpos]; [by left|right]. destruct k as [|[a2 b2] k]; [cbn in Hpos; lia|]. cbn [front] in *.
    split; [by destruct Hk2 as [(_ & ? & _) _]|]. split; [split; [done|]; split; [done|]; split; [done|]; split; [done|]; by left|]. intros E2. apply (f_equal length) in E2.
    destruct Hk2 as (_ & _ & _ & HF). pose proof (length_addrs _ HF). cbn in E2. cbn [addrs length] in *. unfold area in *. lia.
  - intros Hlt. split; [split; [done|]; split; [by split|]; split; [done|]; split; [lia|by right]|]. intros E. apply (f_equal length) in E. rewrite length_drop, length_app, length_seqZ in E. cbn in E. lia.
Qed.

Lemma no_queue s a b k : linked s a ((a, b) :: k) -> solid ((a, b) :: k) -> (p_len b =? p_tot_len b) && negb (p_next b =? 0) = false.
Proof.
  intros Hk [Hs _]. apply linked_tail in Hk as (_ & _ & _ & _ & Ht & _ & _ & Hk2). destruct (p_len b =? p_tot_len b) eqn:E; [|done]. bools.
  destruct Hs as [-> | ?]; [|lia]. destruct Hk2 as (Hc & _). cbn in Hc. by rewrite Hc.
Qed.

Section ops.
Context {env : LwipEnv}.

Lemma wp_until {L} (I : nat -> L -> lwip -> Prop) (body : L -> C lwip (ctl L unit)) (Q : L -> lwip -> Prop) fuel n l s :
  (forall n l s, I n l s ->
     wp (body l) (fun c s' =>
       match c with
       | Next l' => exists n', (n' < n)%nat /\ I n' l' s'
       | Exit l' => Q l' s'
       | Return _ => False
       end) s) ->
  (n < fuel)%nat -> I n l s -> wp (until fuel body l) Q s.
Proof.
  intros Hb Hn HI. unfold until. eapply wp_call.
  - apply (wp_loop_ix I body (fun r s' => match r with inl l' => Q l' s' | inr _ => False end) fuel n l s); done.
  - intros [l'|r] s'; [by intros; apply wp_ret|done].
Qed.

Lemma wp_ld p b (Q : pbuf -> lwip -> Prop) s : pbufs s !! p = Some b -> Q b s -> wp (ld p) Q s.
Proof. intros H HQ. unfold wp, ld, mbind, C_bind, gets. by rewrite H. Qed.

Lemma wp_upd p f b (Q : unit -> lwip -> Prop) s : pbufs s !! p = Some b -> Q tt (set_pbufs (<[p := f b]> (pbufs s)) s) -> wp (upd p f) Q s.
Proof. intros H HQ. unfold upd. apply wp_bind, (wp_ld _ b); [done|]. by apply wp_modify. Qed.

Lemma wp_ldb x v (Q : Z -> lwip -> Prop) s : bytes s !! x = Some v -> Q v s -> wp (ldb x) Q s.
Proof. intros H HQ. unfold wp, ldb, mbind, C_bind, gets. by rewrite H. Qed.

Lemma skip_ok l i p s (Q : Z * Z -> lwip -> Prop) fuel : linked s p l -> 0 <= i < 65536 -> (length l < fuel)%nat ->
  Q (front (fst (skip_to l i)), snd (skip_to l i)) s -> wp (until fuel pbuf_skip_body (p, i)) Q s.
Proof.
  intros Hp Hi Hf HQ.
  apply (wp_until (fun n x s' => s' = s /\ exists k j, n = length k /\ x = (front k, j) /\ linked s (front k) k /\ 0 <= j < 65536 /\ skip_to k j = skip_to l i)
    _ _ _ (length l)); [|done|].
  - clear Hf. intros n x s' [-> (k & j & -> & -> & Hk & Hj & E)]. unfold pbuf_skip_body. destruct k as [|[a b] k]; cbn [front].
    + cbn. apply wp_ret. cbn in E. rewrite <- E in HQ. exact HQ.
    + apply linked_tail in Hk as Hk'. destruct Hk' as (_ & Ha & Hb & Hl & _ & _ & _ & Hk'). destruct (a =? 0) eqn:E0; bools; [done|].
      apply wp_bind, (wp_ld _ b); [done|]. cbn in E. destruct (p_len b <=? j) eqn:Ej; bools; apply wp_ret.
      * rewrite u16_small by lia. exists (length k). split; [cbn; lia|]. split; [done|]. exists k, (j - p_len b). split; [done|].
        assert (p_next b = front k) as <- by (eapply chain_head; by destruct Hk'). split; [done|]. split; [done|]. split; [lia|done].
      * rewrite <- E in HQ. exact HQ.
  - split; [done|]. exists l, i. assert (p = front l) as -> by (eapply chain_head; by destruct Hp). done.
Qed.

Lemma pbuf_skip_ok s p l i (Q : Z * Z -> lwip -> Prop) : linked s p l -> 0 <= i < 65536 ->
  Q (front (fst (skip_to l i)), snd (skip_to l i)) s -> wp (pbuf_skip p i) Q s.
Proof. intros Hp Hi HQ. unfold pbuf_skip, chain_fuel. apply wp_bind, wp_gets. eapply skip_ok; [done|done|by eapply linked_fuel|done]. Qed.

(** ** Single bytes *)

Lemma head_lookup s k b l c : packet s (front k) k c -> k = (front k, b) :: l -> pbufs s !! front k = Some b /\ front k <> 0.
Proof. intros [Hk _] E. rewrite E in Hk. cbn [front] in Hk. apply linked_tail in Hk as (_ & ? & ? & _). rewrite E. done. Qed.

Lemma packet_byte s p a b l c j : packet s p ((a, b) :: l) c -> 0 <= j < p_len b -> exists v, bytes s !! (p_payload b + j) = Some v /\ c !! Z.to_nat j = Some v.
Proof.
  intros Hp Hj. destruct (packet_tail _ _ _ _ _ _ Hp) as (d & c' & -> & Hd & Hl & _). unfold zlen in Hl.
  destruct (lookup_lt_is_Some_2 d (Z.to_nat j)) as [v Hv]; [lia|]. exists v. split; [|by rewrite lookup_app_l by lia].
  apply fetch_spec in Hd. destruct (Forall2_lookup_r _ _ _ _ _ Hd Hv) as (x & Hx & Hm). unfold area in Hx. rewrite lookup_seqZ_lt in Hx by lia.
  injection Hx as <-. rewrite <- Hm. f_equal. lia.
Qed.

Lemma pbuf_get_at_ok s p l c i (Q : Z -> lwip -> Prop) : packet s p l c -> 0 <= i < 65536 -> Q (byte_at c i) s -> wp (pbuf_get_at p i) Q s.
Proof.
  unfold byte_at.
  intros Hp Hi HQ. unfold pbuf_get_at. destruct (skip_to l i) as [k j] eqn:E. destruct (skip_to_spec s l p c i k j Hp ltac:(lia) E) as (c1 & c2 & -> & Ei & Hj & Hk & Hb).
  apply wp_bind, (pbuf_skip_ok _ _ l); [by destruct Hp|done|]. rewrite E. cbn [fst snd]. unfold zlen in Ei. rewrite lookup_app_r in HQ by lia.
  replace (Z.to_nat i - length c1)%nat with (Z.to_nat j) in HQ by lia. destruct k as [|[a b] k]; cbn [front] in *.
  - apply wp_ret. destruct Hk as [_ Hf]. cbn in Hf. injection Hf as <-. done.
  - destruct (packet_byte _ _ _ _ _ _ j Hk) as (v & Hv & Hc); [lia|]. rewrite Hc in HQ. destruct Hk as [Hk _]. apply linked_tail in Hk as (_ & Ha & Hl & _).
    destruct (a =? 0) eqn:E0; bools; [done|]. apply wp_bind, (wp_ld _ b); [done|]. destruct (j <? p_len b) eqn:E1; bools; [|lia]. by eapply wp_ldb.
Qed.

Lemma stb_ok x v u (Q : unit -> lwip -> Prop) s : bytes s !! x = Some u -> Q tt (set_bytes (<[x := v]> (bytes s)) s) -> wp (stb x v) Q s.
Proof. intros H HQ. unfold stb. apply wp_bind, (wp_ldb _ u); [done|]. by apply wp_modify. Qed.

(** ** Comparing and searching *)

(** Up to [n], the contents [c] from [off] on agree with [k]. *)
Definition agrees (c : list Z) (off : Z) (k : list Z) (n : Z) : Prop := forall j, 0 <= j < n -> byte_at c (off + j) = byte_at k j.

Lemma byte_at_app c1 c2 i : 0 <= i -> byte_at (c1 ++ c2) (zlen c1 + i) = byte_at c2 i.
Proof. intros Hi. unfold byte_at, zlen. rewrite lookup_app_r by lia. do 2 f_equal. lia. Qed.

(** [r] is 0 if the strings agree, and otherwise the first place where they differ, plus 1. *)
Definition compared (c : list Z) (off : Z) (k : list Z) (r : Z) : Prop :=
  r = 0 /\ agrees c off k (zlen k) \/
  0 < r <= zlen k /\ agrees c off k (r - 1) /\ byte_at c (off + (r - 1)) <> byte_at k (r - 1).

Lemma load_byte m a n k j : 0 <= j < n -> load m a n = Some k -> m !! (a + j) = Some (byte_at k j).
Proof.
  intros Hj H. apply load_spec in H as [E H]; [|lia]. rewrite H by lia. unfold byte_at. destruct (lookup_lt_is_Some_2 k (Z.to_nat j)) as [v ->]; [unfold zlen in E; lia|done].
Qed.

Lemma pbuf_memcmp_ok s p l c off s2 n k (Q : Z -> lwip -> Prop) : packet s p l c -> 0 <= off -> 0 <= n < 65536 -> off + n <= 65536 -> off < 65536 ->
  load (bytes s) s2 n = Some k -> (off < zlen c -> forall r, compared c off k r -> Q r s) -> (zlen c <= off -> Q 0xffff s) -> wp (pbuf_memcmp p off s2 n) Q s.
Proof.
  intros Hp Hoff Hn Hon Hoff2 Hk HQ1 HQ2. unfold pbuf_memcmp, chain_fuel. apply wp_bind, wp_gets. destruct (skip_to l off) as [q j] eqn:E.
  destruct (skip_to_spec s l p c off q j Hp Hoff E) as (c1 & c2 & -> & Ei & Hj & Hq & Hb).
  apply wp_bind, (skip_ok l); [by destruct Hp|lia|by eapply linked_fuel; destruct Hp|]. rewrite E. cbn [fst snd]. rewrite zlen_app in HQ1, HQ2.
  pose proof (packet_len _ _ _ _ Hq) as Hlen. pose proof (zlen_nonneg c1). destruct q as [|[a b] q]; cbn [front] in *.
  - apply wp_ret. apply HQ2. cbn in Hlen. lia.
  - destruct Hq as [Hq Hf]. apply linked_tail in Hq as Hq'. destruct Hq' as (_ & Ha & Hl & Hlb & _ & Ht & _ & _). destruct (a =? 0) eqn:E0; bools; [done|].
    apply wp_bind, (wp_ld _ b); [done|]. destruct (j <? p_len b) eqn:E1; bools; [|lia]. cbn [total] in Hlen.
    assert (zlen k = n) as Hzk by (apply load_spec in Hk as [? _]; [done|lia]).
    apply wp_bind. eapply (wp_loop_ix (fun m i s' => s' = s /\ m = Z.to_nat (n - i) /\ 0 <= i <= n /\ agrees (c1 ++ c2) off k i) _ _ _ (Z.to_nat n)); [|lia|].
    + intros m i s' (-> & -> & Hi & Hag). unfold memcmp_body. destruct (i <? n) eqn:E2; bools.
      * rewrite (u16_small (j + i)), (u16_small (i + 1)) by lia. apply wp_bind. apply (pbuf_get_at_ok s a ((a, b) :: q) c2); [by split|lia|]. apply wp_bind.
        apply (wp_ldb _ (byte_at k i)); [eapply load_byte; [|exact Hk]; lia|]. assert (byte_at (c1 ++ c2) (off + i) = byte_at c2 (j + i)) as Hby.
        { rewrite Ei, <- Z.add_assoc. apply byte_at_app. lia. }
        destruct (byte_at c2 (j + i) =? byte_at k i) eqn:E3; bools; cbn [negb]; apply wp_ret.
        -- exists (Z.to_nat (n - (i + 1))). split; [lia|]. split; [done|]. split; [done|]. split; [lia|]. intros x Hx.
           destruct (Z.eq_dec x i) as [->|?]; [congruence|apply Hag; lia].
        -- apply wp_ret. apply HQ1; [lia|]. right. split; [lia|]. replace (i + 1 - 1) with i by lia. split; [done|congruence].
      * apply wp_ret. apply wp_ret. apply HQ1; [lia|]. left. split; [done|]. rewrite Hzk. by replace n with i by lia.
    + split; [done|]. split; [lia|]. split; [lia|]. intros x Hx. lia.
Qed.

Lemma agrees_slice c off k : 0 <= off -> off + zlen k <= zlen c -> agrees c off k (zlen k) <-> slice c off (zlen k) = k.
Proof.
  intros Ho Hl. pose proof (zlen_nonneg k) as Hk. split.
  - intros H. apply list_eq. intros i. unfold slice. destruct (decide (i < length k)%nat) as [Hi|Hi].
    + rewrite lookup_take_lt by (unfold zlen; lia). rewrite lookup_drop. specialize (H (Z.of_nat i) ltac:(unfold zlen; lia)). unfold byte_at in H.
      rewrite Nat2Z.id in H. replace (Z.to_nat (off + Z.of_nat i)) with (Z.to_nat off + i)%nat in H by lia. unfold zlen in Hl.
      destruct (lookup_lt_is_Some_2 k i Hi) as [v Hv], (lookup_lt_is_Some_2 c (Z.to_nat off + i)) as [w Hw]; [lia|]. rewrite Hv, Hw in *. cbn in H. congruence.
    + rewrite !lookup_ge_None_2; [done|lia|]. rewrite length_take, length_drop. unfold zlen. lia.
  - intros H j Hj. rewrite <- H at 1. unfold byte_at, slice. rewrite lookup_take_lt by lia. rewrite lookup_drop. do 2 f_equal. lia.
Qed.

Lemma pbuf_memfind_ok s p l c mem n k start (Q : Z -> lwip -> Prop) : packet s p l c -> p <> 0 -> 0 < n < 65536 -> 0 <= start < 65536 -> load (bytes s) mem n = Some k ->
  (forall i, start <= i -> slice c i n = k -> i + n <= zlen c -> (forall j, start <= j < i -> slice c j n <> k) -> Q i s) ->
  ((forall j, start <= j -> j + n <= zlen c -> slice c j n <> k) -> Q 0xffff s) -> wp (pbuf_memfind p mem n start) Q s.
Proof.
  intros Hp Hp0 Hn Hs Hk HQ1 HQ2. unfold pbuf_memfind. pose proof (packet_len _ _ _ _ Hp) as Hlen. destruct l as [|[a b] l]; [by destruct Hp as [(? & _) _]|].
  destruct Hp as [Hp Hf]. apply linked_tail in Hp as Hp'. destruct Hp' as (-> & Ha & Hb & Hl & Ht & Hn2 & Ht2 & _). cbn [total] in Hlen.
  apply wp_bind, (wp_ld _ b); [done|]. rewrite Ht, <- Hlen in *. assert (zlen k = n) as Hzk by (apply load_spec in Hk as [? _]; [done|lia]).
  destruct (n + start <=? zlen c) eqn:E; bools; [|apply wp_ret, HQ2; intros; lia]. rewrite u16_small by lia.
  apply wp_bind. eapply (wp_loop_ix (fun m i s' => s' = s /\ m = Z.to_nat (zlen c - n + 1 - i) /\ start <= i <= zlen c - n + 1 /\ forall j, start <= j < i -> slice c j n <> k)
    _ _ _ (Z.to_nat (zlen c - n + 1 - start))); [|lia|].
  - intros m i s' (-> & -> & Hi & Hno). unfold memfind_body. destruct (i <=? zlen c - n) eqn:E2; bools; [|apply wp_ret, wp_ret, HQ2; intros j Hj1 Hj2; apply Hno; lia].
    apply wp_bind. eapply (pbuf_memcmp_ok s a ((a, b) :: l) c); [by split|lia|lia|lia|lia|done| |lia]. intros _ r Hr.
    assert (agrees c i k (zlen k) <-> slice c i (zlen k) = k) as Hsl by (apply agrees_slice; lia). rewrite Hzk in Hsl.
    destruct Hr as [[-> Hag]|(Hr & Hag & Hne)].
    + cbn. apply wp_ret, wp_ret. rewrite Hzk in Hag. apply HQ1; [lia|by apply Hsl|lia|done].
    + destruct (r =? 0) eqn:E3; bools; [lia|]. apply wp_ret. rewrite u16_small by lia. exists (Z.to_nat (zlen c - n + 1 - (i + 1))). split; [lia|].
      split; [done|]. split; [done|]. split; [lia|]. intros j Hj. destruct (Z.eq_dec j i) as [->|?]; [|apply Hno; lia].
      rewrite <- Hsl. intros Hall. apply Hne. apply Hall. lia.
  - split; [done|]. split; [done|]. split; [lia|]. intros j Hj. lia.
Qed.

(** ** Copying *)

Lemma set_bytes_pbufs m s : pbufs (set_bytes m s) = pbufs s.
Proof. done. Qed.

Lemma pbuf_copy_partial_ok s p l c dst len off (Q : Z -> lwip -> Prop) : packet s p l c -> dst <> 0 -> 0 <= len < 65536 -> 0 <= off < 65536 ->
  seqZ dst len ## addrs l -> is_Some (fetch (bytes s) (seqZ dst len)) ->
  Q (zlen (slice c off len)) (set_bytes (store dst (slice c off len) (bytes s)) s) -> wp (pbuf_copy_partial p dst len off) Q s.
Proof.
  intros Hp Hdst Hlen Hoff Hd [u Hu] HQ. unfold pbuf_copy_partial. destruct (dst =? 0) eqn:E0; bools; [done|]. rewrite orb_false_r.
  destruct (p =? 0) eqn:E1; bools.
  { subst p. destruct Hp as [(Hc & _) Hf]. apply chain_null in Hc as ->. cbn in Hf. injection Hf as <-. rewrite slice_nil in HQ.
    apply wp_ret. rewrite store_puts in HQ. cbn in HQ. by rewrite puts_nil, set_bytes_same in HQ. }
  unfold chain_fuel. apply wp_bind, wp_gets. apply wp_bind.
  apply (wp_until (fun n x s' => exists k c' w len' off', n = length k /\ x = mkPartial (front k) len' off' (zlen w) (zlen w) /\ packet s (front k) k c' /\
    s' = set_bytes (puts (seqZ dst (zlen w)) w (bytes s)) s /\ slice c off len = w ++ slice c' off' len' /\ zlen w + len' = len /\ 0 <= len' /\ 0 <= off' < 65536 /\
    (forall x, x ∈ addrs k -> x ∈ addrs l)) _ _ _ (length l)); [|eapply linked_fuel; by destruct Hp|].
  - intros n x s' (k & c' & w & len' & off' & -> & -> & Hk & -> & Ew & Hl & Hl0 & Ho & Hsub). unfold copy_partial_body. pose proof (zlen_nonneg w) as Hw.
    assert (slice c' off' len' = [] -> Q (zlen w) (set_bytes (puts (seqZ dst (zlen w)) w (bytes s)) s)) as Hexit.
    { intros E. rewrite E, app_nil_r in Ew. by rewrite <- Ew, <- store_puts. }
    destruct k as [|[a b] k]; cbn [front] in *.
    { rewrite orb_true_r. apply wp_ret, wp_ret, Hexit. destruct Hk as [_ Hf]. cbn in Hf. injection Hf as <-. apply slice_nil. }
    destruct (packet_tail _ _ _ _ _ _ Hk) as (d & c2 & -> & Hd2 & Hld & Hk2). destruct Hk as [Hk Hf]. apply linked_tail in Hk as (_ & Ha & Hb & Hlb & _).
    destruct (len' =? 0) eqn:E2; bools; cbn [orb]. { apply wp_ret, wp_ret, Hexit. by subst. }
    destruct (a =? 0) eqn:E3; bools; [done|]. apply wp_bind, (wp_ld _ b); [done|]. assert (p_next b = front k) as Hnx by (eapply chain_head; by destruct Hk2 as [[? _] _]).
    rewrite Hnx in *. destruct (negb (off' =? 0) && (p_len b <=? off')) eqn:E4; bools.
    + apply wp_ret. rewrite u16_small by lia. exists (length k). split; [cbn; lia|]. exists k, c2, w, len', (off' - p_len b). repeat (split; [done|]).
      split; [by rewrite Ew, slice_skip, Hld by lia|]. repeat (split; [done|]). split; [lia|]. intros x Hx. apply Hsub. cbn. apply elem_of_app. by right.
    + assert (off' <= p_len b) as Hob. { destruct (off' =? 0) eqn:E5; cbn [negb andb] in E4; bools; lia. }
      rewrite (u16_small (p_len b - off')) by lia. set (n := if len' <? p_len b - off' then len' else p_len b - off').
      assert (0 <= n /\ n <= len' /\ off' + n <= p_len b /\ (off' + n = p_len b \/ n = len')) as (Hn0 & Hn1 & Hn2 & Hn3) by (unfold n; destruct (len' <? _) eqn:?; bools; lia).
      clearbody n. pose proof (fetch_sub _ _ _ _ off' n ltac:(lia) Hn0 Hn2 Hd2) as Hsrc.
      assert (seqZ dst (zlen w) ++ seqZ (dst + zlen w) n = seqZ dst (zlen w + n)) as Eseq by (rewrite <- seqZ_app by lia; done).
      apply wp_bind. unfold wp at 1. rewrite (memcpy_chunk s (bytes s) (seqZ dst (zlen w)) w (dst + zlen w) (p_payload b + off') n (slice d off' n)); [| | | | | |].
      * cbv beta iota. apply wp_ret. pose proof (fetch_zlen _ _ _ _ Hn0 Hsrc) as Hsl. rewrite !u16_small by lia. exists (length k). split; [cbn; lia|].
        exists k, c2, (w ++ slice d off' n), (len' - n), 0. rewrite zlen_app, Hsl, Eseq. repeat (split; [done|]).
        split; [rewrite Ew, (slice_cross d c2 off' len' n), app_assoc by lia; done|]. split; [lia|]. split; [lia|]. split; [lia|]. intros x Hx. apply Hsub. cbn. apply elem_of_app. by right.
      * done.
      * rewrite length_seqZ. unfold zlen. lia.
      * rewrite Eseq. apply NoDup_seqZ.
      * rewrite Eseq. intros x Hx1 Hx2. apply (Hd x); [apply elem_of_seqZ in Hx1; apply elem_of_seqZ; lia|]. apply Hsub. cbn. apply elem_of_app. left.
        apply elem_of_seqZ in Hx2. apply elem_of_seqZ. lia.
      * done.
      * exists (slice u (zlen w) n). apply (fetch_sub _ _ len); [done|done|lia|done].
  - exists l, c, [], len, off. assert (p = front l) as -> by (eapply chain_head; by destruct Hp as [[? _] _]). repeat (split; [done|]).
    split; [cbn; by rewrite puts_nil, set_bytes_same|]. repeat (split; [done|]). split; [lia|]. done.
Qed.

Lemma load_split m a n v k : 0 <= k <= n -> fetch m (seqZ a n) = Some v -> fetch m (seqZ (a + k) (n - k)) = Some (drop (Z.to_nat k) v).
Proof.
  intros Hk H. pose proof (fetch_sub m a n v k (n - k) ltac:(lia) ltac:(lia) ltac:(lia) H) as ->. f_equal.
  pose proof (fetch_zlen m a n v ltac:(lia) H) as Hl. unfold slice. apply take_ge. rewrite length_drop. unfold zlen in Hl. lia.
Qed.

Lemma take_loop_ok s p l dataptr len v (Q : Z * Z * Z -> lwip -> Prop) fuel : linked s p l -> is_Some (fetch (bytes s) (addrs l)) -> NoDup (addrs l) ->
  0 <= len < 65536 -> len <= total l -> addrs l ## seqZ dataptr len -> fetch (bytes s) (seqZ dataptr len) = Some v -> (length l < fuel)%nat ->
  (forall x, Q x (set_bytes (puts (take (Z.to_nat len) (addrs l)) v (bytes s)) s)) -> wp (until fuel (take_body dataptr) (p, len, 0)) Q s.
Proof.
  intros Hp [u Hu] Hnd Hlen Htot Hd Hv Hfuel HQ.
  apply (wp_until (fun n x s' => exists k dn da rem, n = length k /\ x = (front k, rem, zlen dn) /\ s' = set_bytes (puts dn (take (length dn) v) (bytes s)) s /\
    addrs l = dn ++ da /\ zlen dn + rem = len /\ 0 <= rem /\ (rem = 0 \/ da = addrs k) /\ linked s (front k) k) _ _ _ (length l)); [|done|].
  - clear Hfuel. intros n x s' (k & dn & da & rem & -> & -> & -> & Hsp & Hl & Hr & Hda & Hk). unfold take_body.
    pose proof (fetch_zlen _ _ len v ltac:(lia) Hv) as Hlv. pose proof (zlen_nonneg dn) as Hdn.
    destruct (rem =? 0) eqn:E0; bools.
    { subst rem. apply wp_ret. specialize (HQ (front k, 0, zlen dn)). rewrite Hsp in HQ. unfold zlen in *. rewrite (take_app_length' dn) in HQ by lia.
      rewrite take_ge by lia. exact HQ. }
    destruct Hda as [Hda| ->]; [done|]. destruct k as [|[a b] k].
    { exfalso. cbn in Hsp. rewrite app_nil_r in Hsp. pose proof (length_addrs l) as Hal. rewrite Hsp in Hal. unfold zlen in *. destruct Hp as (_ & _ & _ & HF). specialize (Hal HF). lia. }
    cbn [front]. apply linked_tail in Hk as Hk'. destruct Hk' as (_ & Ha & Hb & Hlb & _ & _ & _ & Hk2). apply wp_bind, (wp_ld _ b); [done|].
    set (n := if p_len b <? rem then p_len b else rem). assert (0 <= n /\ n <= rem /\ n <= p_len b /\ (n = p_len b \/ n = rem)) as (Hn0 & Hn1 & Hn2 & Hn3) by (unfold n; destruct (p_len b <? rem) eqn:?; bools; lia).
    clearbody n. cbn [addrs] in Hsp. unfold area in Hsp. rewrite (seqZ_split (p_payload b) (p_len b) n) in Hsp by lia. rewrite <- app_assoc in Hsp.
    rewrite Hsp in Hnd, Hu. rewrite app_assoc in Hnd. apply list.NoDup_app in Hnd as (Hnd & _ & _). apply fetch_app in Hu as (u1 & u2 & _ & Hu2 & _). apply fetch_app in Hu2 as (u3 & _ & Hu3 & _ & _).
    pose proof (fetch_sub (bytes s) dataptr len v (zlen dn) n ltac:(lia) Hn0 ltac:(lia) Hv) as Hsrc.
    apply wp_bind. unfold wp at 1. rewrite (memcpy_chunk s (bytes s) dn (take (length dn) v) (p_payload b) (dataptr + zlen dn) n (slice v (zlen dn) n)); [|done| | | | |by eexists].
    + cbv beta iota. apply wp_ret. rewrite !u16_small by lia. exists (length k). split; [cbn; lia|].
      exists k, (dn ++ seqZ (p_payload b) n), (seqZ (p_payload b + n) (p_len b - n) ++ addrs k), (rem - n).
      assert (zlen (dn ++ seqZ (p_payload b) n) = zlen dn + n) as Hz by (rewrite zlen_app; unfold zlen; rewrite length_seqZ; lia). rewrite Hz.
      assert (p_next b = front k) as -> by (eapply chain_head; by destruct Hk2). split; [done|]. split; [done|]. split.
      { do 2 f_equal. unfold slice, zlen in *. rewrite Nat2Z.id, length_app, length_seqZ. symmetry. rewrite <- (take_drop (length dn) v) at 1.
        rewrite take_app_ge by (rewrite length_take; lia). rewrite length_take. f_equal. f_equal. lia. }
      rewrite <- app_assoc. split; [done|]. split; [lia|]. split; [lia|]. split; [|by assert (p_next b = front k) as <- by (eapply chain_head; by destruct Hk2)].
      destruct Hn3 as [-> | ->]; [right; by rewrite Z.sub_diag|left; lia].
    + rewrite length_take. unfold zlen in *. lia.
    + done.
    + intros x Hx1 Hx2. apply (Hd x); [rewrite Hsp, app_assoc; apply elem_of_app; by left|]. apply elem_of_seqZ in Hx2. apply elem_of_seqZ. lia.
    + done.
  - exists l, [], (addrs l), len. assert (take (length (@nil Z)) v = []) as -> by done. assert (p = front l) as <- by (eapply chain_head; by destruct Hp).
    rewrite puts_nil, set_bytes_same. repeat (split; [done || lia|]).
    split; [by right|done].
Qed.

Lemma pbuf_take_ok s p l c dataptr len v (Q : Z -> lwip -> Prop) : packet s p l c -> p <> 0 -> dataptr <> 0 -> NoDup (addrs l) -> 0 <= len < 65536 -> len <= zlen c ->
  addrs l ## seqZ dataptr len -> fetch (bytes s) (seqZ dataptr len) = Some v -> Q ERR_OK (set_bytes (puts (take (Z.to_nat len) (addrs l)) v (bytes s)) s) -> wp (pbuf_take p dataptr len) Q s.
Proof.
  intros Hp Hp0 Hd0 Hnd Hlen Hc Hd Hv HQ. unfold pbuf_take. destruct (p =? 0) eqn:E0, (dataptr =? 0) eqn:E1; bools; try done. cbn [orb].
  pose proof (packet_len _ _ _ _ Hp) as Hl. destruct Hp as [Hp Hf]. destruct l as [|[a b] l]; [by destruct Hp|]. apply linked_tail in Hp as Hp'.
  destruct Hp' as (-> & _ & Hb & _ & Ht & _). apply wp_bind, (wp_ld _ b); [done|]. cbn [total] in Hl. destruct (p_tot_len b <? len) eqn:E2; bools; [lia|].
  unfold chain_fuel. apply wp_bind, wp_gets, wp_bind. eapply take_loop_ok; [done|by eexists|done|done|cbn; lia|done|done|by eapply linked_fuel|]. intros x. by apply wp_ret.
Qed.

Lemma packet_written s p l c v m : packet s p l c -> NoDup (addrs l) -> zlen v <= zlen c -> m = puts (take (length v) (addrs l)) v (bytes s) -> packet (set_bytes m s) p l (v ++ drop (length v) c).
Proof.
  intros [Hp Hf] Hnd Hl ->. split; [done|]. rewrite set_bytes_eq. apply fetch_puts_take; [done|done|done|]. apply fetch_length in Hf. unfold zlen in Hl. lia.
Qed.

Lemma copy_loop_ok s lt lf cf fuel (Q : _ + Z -> lwip -> Prop) : linked s (front lt) lt -> linked s (front lf) lf -> solid lt -> solid lf -> lt <> [] -> lf <> [] ->
  is_Some (fetch (bytes s) (addrs lt)) -> fetch (bytes s) (addrs lf) = Some cf -> NoDup (addrs lt) -> addrs lt ## addrs lf -> total lf <= total lt ->
  (length lt + length lf < fuel)%nat -> (forall x, Q (inl x) (set_bytes (puts (take (length cf) (addrs lt)) cf (bytes s)) s)) ->
  wp (loop fuel copy_body (front lt, front lf, 0, 0)) Q s.
Proof.
  intros Hlt Hlf Hst Hsf Hnt Hnf [u Hu] Hcf Hnd Hd Htot Hfuel HQ.
  apply (wp_loop_ix (fun n x s' => exists kt kf ot fo da db ra rb, (n = length kt + length kf)%nat /\ x = (front kt, front kf, ot, fo) /\ addrs lt = da ++ ra /\ addrs lf = db ++ rb /\
    length da = length db /\ s' = set_bytes (puts da (take (length db) cf) (bytes s)) s /\ cursor s kt ot ra /\ cursor s kf fo rb) _ _ _ (length lt + length lf)); [|done|].
  2:{ exists lt, lf, 0, 0, [], [], (addrs lt), (addrs lf). assert (take (length (@nil Z)) cf = []) as -> by done. rewrite puts_nil, set_bytes_same. repeat (split; [done|]).
      split; (split; [done|]; split; [done|]; split; [done|]; split; [done|]); [destruct lt as [|[? ?] ?]|destruct lf as [|[? ?] ?]]; by try left. }
  clear Hfuel. intros n x s' (kt & kf & ot & fo & da & db & ra & rb & -> & -> & Ea & Eb & Hlen & -> & Ht & Hf).
  destruct kt as [|[at_ bt] kt]; [by destruct Ht as (_ & _ & _ & _ & ?)|]. destruct kf as [|[af bf] kf]; [by destruct Hf as (_ & _ & _ & _ & ?)|]. cbn [front].
  pose proof Ht as (Hkt & Hskt & _ & Hot & Hot2). pose proof Hf as (Hkf & Hskf & _ & Hof & Hof2). cbn [front] in Hkt, Hkf.
  pose proof (linked_tail _ _ _ _ _ Hkt) as (_ & Hat & Hbt & Hlbt & _). pose proof (linked_tail _ _ _ _ _ Hkf) as (_ & Haf & Hbf & Hlbf & _).
  unfold copy_body. apply wp_bind, (wp_ld _ bt); [done|]. apply wp_bind, (wp_ld _ bf); [done|].
  set (len := if p_len bf - fo <=? p_len bt - ot then p_len bf - fo else p_len bt - ot).
  assert (0 <= len /\ len <= p_len bt - ot /\ len <= p_len bf - fo /\ (len = p_len bt - ot \/ len = p_len bf - fo)) as (Hl0 & Hl1 & Hl2 & Hl3) by (unfold len; destruct (_ <=? _) eqn:?; bools; lia).
  clearbody len. rewrite (u16_small len), !u16_small by lia.
  destruct (cursor_step _ _ _ _ _ _ len Ht ltac:(lia)) as (ra' & -> & Hmt & Hst'). destruct (cursor_step _ _ _ _ _ _ len Hf ltac:(lia)) as (rb' & -> & Hmf & Hsf').
  rewrite Eb in Hcf. pose proof Hcf as Hcf2. apply fetch_app in Hcf as (c1 & c2 & Hc1 & Hc2 & ->). apply fetch_app in Hc2 as (v & c3 & Hv & Hc3 & ->).
  pose proof (fetch_length _ _ _ Hc1) as Hd1. pose proof (fetch_length _ _ _ Hv) as Hd2. rewrite length_seqZ in Hd2. rewrite take_app_length' by lia.
  rewrite Ea in Hnd, Hd, Hu. rewrite Eb in Hd. rewrite app_assoc in Hnd. pose proof Hnd as (Hnd1 & _ & _)%list.NoDup_app.
  apply fetch_app in Hu as (u1 & u2 & _ & Hu2 & _). apply fetch_app in Hu2 as (u3 & _ & Hu3 & _ & _).
  apply wp_bind. unfold wp at 1. rewrite (memcpy_chunk s (bytes s) da c1 (p_payload bt + ot) (p_payload bf + fo) len v); [|done|by rewrite Hlen|done| |done|by eexists].
  2:{ intros x Hx1 Hx2. apply (Hd x); [rewrite app_assoc; apply elem_of_app; by left|]. apply elem_of_app. right. apply elem_of_app. by left. }
  cbv beta iota. set (s2 := set_bytes _ s).
  assert (exists da' db', da' = da ++ seqZ (p_payload bt + ot) len /\ db' = db ++ seqZ (p_payload bf + fo) len /\ addrs lt = da' ++ ra' /\ addrs lf = db' ++ rb' /\ length da' = length db' /\
    s2 = set_bytes (puts da' (take (length db') (c1 ++ v ++ c3)) (bytes s)) s) as (da' & db' & Eda & Edb & Ea' & Eb' & Hlen' & Es2).
  { eexists _, _. split; [done|]. split; [done|]. rewrite <- !app_assoc. split; [done|]. split; [done|]. split; [rewrite !length_app, !length_seqZ; lia|].
    unfold s2. do 2 f_equal. rewrite length_app, length_seqZ, app_assoc, take_app_length'; [done|]. rewrite length_app. lia. }
  clearbody s2. subst s2. clear Eda Edb. set (s2 := set_bytes _ s).
  assert (rb' <> [] -> ra' <> []) as Hmore.
  { intros Hrb ->. apply Hrb. destruct rb' as [|y rb']; [done|]. exfalso. destruct Hlt as (_ & _ & _ & HFt), Hlf as (_ & _ & _ & HFf).
    pose proof (length_addrs _ HFt) as E1. pose proof (length_addrs _ HFf) as E2. rewrite Ea', app_nil_r in E1. rewrite Eb', length_app in E2. cbn in E2. lia. }
  (* the next position in the source *)
  assert (exists kf' fo', (if p_len bf <=? fo + len then (p_next bf, 0) else (af, fo + len)) = (front kf', fo') /\ (length kf' <= S (length kf))%nat /\ (fo + len = p_len bf -> length kf' = length kf) /\
    (kf' = [] /\ rb' = [] \/ front kf' <> 0 /\ cursor s kf' fo' rb' /\ rb' <> [])) as (kf' & fo' & -> & Hlf1 & Hlf2 & Hcur_f).
  { destruct (p_len bf <=? fo + len) eqn:E; bools.
    - destruct (Hmf ltac:(lia)) as [-> H]. exists kf, 0. split; [done|]. split; [lia|]. by split.
    - destruct (Hsf' ltac:(lia)) as [H1 H2]. exists ((af, bf) :: kf), (fo + len). split; [done|]. split; [cbn; lia|]. split; [lia|]. by right. }
  assert (exists kt' ot', (if ot + len =? p_len bt then (p_next bt, 0) else (at_, ot + len)) = (front kt', ot') /\ (length kt' <= S (length kt))%nat /\ (ot + len = p_len bt -> length kt' = length kt) /\
    (kt' = [] /\ ra' = [] \/ front kt' <> 0 /\ cursor s kt' ot' ra' /\ ra' <> [])) as (kt' & ot' & -> & Hlt1 & Hlt2 & Hcur_t).
  { destruct (ot + len =? p_len bt) eqn:E; bools.
    - destruct (Hmt ltac:(lia)) as [-> H]. exists kt, 0. split; [done|]. split; [lia|]. by split.
    - destruct (Hst' ltac:(lia)) as [H1 H2]. exists ((at_, bt) :: kt), (ot + len). split; [done|]. split; [cbn; lia|]. split; [lia|]. by right. }
  cbn [fst].
  assert ((ot + len =? p_len bt) && (front kt' =? 0) && negb (front kf' =? 0) = false) as ->.
  { destruct Hcur_f as [[-> ->]|(Hn1 & _ & Hr)]; [cbn; by rewrite andb_false_r|]. destruct Hcur_t as [[-> ->]|(Hn2 & _ & _)]; [by destruct (Hmore Hr)|].
    assert ((front kt' =? 0) = false) as -> by (by apply Z.eqb_neq). by rewrite andb_false_r. }
  assert (forall k r (Q' : bool -> lwip -> Prop), (k = [] /\ r = [] \/ front k <> 0 /\ (exists o, cursor s k o r) /\ r <> []) -> Q' false s2 ->
    wp (if front k =? 0 then mret false else b ← ld (front k); mret ((p_len b =? p_tot_len b) && negb (p_next b =? 0))) Q' s2) as Hqueue.
  { intros k r Q' [[-> _]|(Hn1 & [o (Hk & Hs & _ & _ & Hm)] & _)] HQ'; [by apply wp_ret|]. destruct (front k =? 0) eqn:E; bools; [done|].
    destruct k as [|[a b] k]; [done|]. cbn [front] in *. apply wp_bind, (wp_ld _ b); [by destruct Hk as [(_ & _ & ? & _) _]|]. apply wp_ret. by rewrite (no_queue _ _ _ _ Hk Hs). }
  apply wp_bind, (Hqueue kf' rb'). { destruct Hcur_f as [?|(? & ? & ?)]; [by left|right; eauto]. }
  apply wp_bind, (Hqueue kt' ra'). { destruct Hcur_t as [?|(? & ? & ?)]; [by left|right; eauto]. }
  destruct Hcur_f as [[-> ->]|(Hn1 & Hcf' & Hr)].
  - apply wp_ret. assert (length db' = length (c1 ++ v ++ c3)) as Hl by (by rewrite <- (fetch_length _ _ _ Hcf2), <- Eb, Eb', app_nil_r).
    specialize (HQ (at_, af, ot, fo)). rewrite <- Hl, Ea', (take_app_length' da') in HQ by done. unfold s2. rewrite take_ge by lia. exact HQ.
  - destruct (front kf' =? 0) eqn:E; bools; [done|]. destruct Hcur_t as [[-> ->]|(Hn2 & Hct & _)]; [by destruct (Hmore Hr)|].
    apply wp_ret. exists (length kt' + length kf')%nat. split.
    + cbn [length]. destruct Hl3; [rewrite Hlt2 by lia; lia|rewrite Hlf2 by lia; lia].
    + exists kt', kf', ot', fo', da', db', ra', rb'. repeat (split; [done|]). done.
Qed.

Lemma pbuf_copy_ok s pt pf lt lf ct cf (Q : Z -> lwip -> Prop) : packet s pt lt ct -> packet s pf lf cf -> pt <> 0 -> pf <> 0 -> solid lt -> solid lf ->
  NoDup (addrs lt) -> addrs lt ## addrs lf -> zlen cf <= zlen ct ->
  Q ERR_OK (set_bytes (puts (take (length cf) (addrs lt)) cf (bytes s)) s) -> wp (pbuf_copy pt pf) Q s.
Proof.
  intros Ht Hf Hpt Hpf Hst Hsf Hnd Hd Hle HQ. pose proof (packet_len _ _ _ _ Ht) as Elt. pose proof (packet_len _ _ _ _ Hf) as Elf.
  destruct Ht as [Ht Htc], Hf as [Hf Hfc]. assert (pt = front lt) as -> by (eapply chain_head; by destruct Ht). assert (pf = front lf) as -> by (eapply chain_head; by destruct Hf).
  destruct lt as [|[at_ bt] lt]; [done|]. destruct lf as [|[af bf] lf]; [done|]. cbn [front] in *.
  pose proof (linked_tail _ _ _ _ _ Ht) as (_ & _ & Hbt & _ & Ett & _). pose proof (linked_tail _ _ _ _ _ Hf) as (_ & _ & Hbf & _ & Etf & _). cbn [total] in Elt, Elf.
  unfold pbuf_copy. destruct (at_ =? 0) eqn:E0, (af =? 0) eqn:E1; bools; try done. cbn [orb].
  apply wp_bind, (wp_ld _ bt); [done|]. apply wp_bind, (wp_ld _ bf); [done|]. destruct (p_tot_len bt <? p_tot_len bf) eqn:E2; bools; [lia|].
  unfold chain_fuel. apply wp_bind, wp_gets, wp_bind. apply (copy_loop_ok s ((at_, bt) :: lt) ((af, bf) :: lf) cf); try done; [cbn [total]; lia|].
  apply linked_fuel in Ht, Hf. lia.
Qed.

Lemma fetch_insert m la c i x v : NoDup la -> fetch m la = Some c -> la !! i = Some x -> fetch (<[x := v]> m) la = Some (<[i := v]> c).
Proof.
  intros Hnd Hf Hi. apply fetch_spec in Hf. apply fetch_spec, Forall2_lookup. intros j. destruct (decide (j = i)) as [->|Hne].
  - destruct (Forall2_lookup_l _ _ _ _ _ Hf Hi) as (w & Hw & _). rewrite Hi, list_lookup_insert_eq by (by eapply lookup_lt_Some). constructor. by rewrite lookup_insert_eq.
  - rewrite list_lookup_insert_ne by done. destruct (la !! j) as [y|] eqn:Ej.
    + destruct (Forall2_lookup_l _ _ _ _ _ Hf Ej) as (w & -> & Hw). constructor. rewrite lookup_insert_ne; [done|]. intros ->. apply Hne. by eapply NoDup_lookup.
    + apply Forall2_length in Hf. rewrite lookup_ge_None_2; [constructor|]. apply lookup_ge_None in Ej. lia.
Qed.

Lemma skip_addr l i a b k j : Forall len_ok l -> 0 <= i -> skip_to l i = ((a, b) :: k, j) -> addrs l !! Z.to_nat i = Some (p_payload b + j).
Proof.
  intros HF. revert i. induction HF as [|[a' b'] l Hb HF IH]; intros i Hi E; cbn in E; [done|]. unfold len_ok in Hb. cbn [snd addrs] in *. unfold area at 1.
  destruct (p_len b' <=? i) eqn:Ele; bools.
  - rewrite lookup_app_r by (rewrite length_seqZ; lia). rewrite length_seqZ. replace (Z.to_nat i - Z.to_nat (p_len b'))%nat with (Z.to_nat (i - p_len b')) by lia. apply IH; [lia|done].
  - injection E as -> -> -> ->. rewrite lookup_app_l by (rewrite length_seqZ; lia). rewrite lookup_seqZ_lt by lia. f_equal. lia.
Qed.

Lemma pbuf_put_at_ok s p l c i v (Q : unit -> lwip -> Prop) : packet s p l c -> NoDup (addrs l) -> 0 <= i < 65536 ->
  (forall m, packet (set_bytes m s) p l (<[Z.to_nat i := v]> c) -> (forall x, x ∉ addrs l -> m !! x = bytes s !! x) -> Q tt (set_bytes m s)) -> wp (pbuf_put_at p i v) Q s.
Proof.
  intros Hp Hnd Hi HQ. unfold pbuf_put_at. destruct (skip_to l i) as [k j] eqn:E. destruct (skip_to_spec s l p c i k j Hp ltac:(lia) E) as (c1 & c2 & Ec & Ei & Hj & Hk & Hb).
  apply wp_bind, (pbuf_skip_ok _ _ l); [by destruct Hp|done|]. rewrite E. cbn [fst snd]. unfold zlen in Ei. destruct k as [|[a b] k]; cbn [front] in *.
  - apply wp_ret. destruct Hk as [_ Hf]. cbn in Hf. injection Hf as <-. rewrite app_nil_r in Ec. subst c1. specialize (HQ (bytes s)). rewrite set_bytes_same in HQ.
    rewrite list_insert_ge in HQ by lia. by apply HQ.
  - pose proof (proj1 Hk) as Hkl. apply linked_tail in Hkl as (_ & Ha & Hl & Hlb & _). destruct (a =? 0) eqn:E0; bools; [done|]. apply wp_bind, (wp_ld _ b); [done|].
    destruct (j <? p_len b) eqn:E1; bools; [|lia]. destruct (packet_byte _ _ _ _ _ _ j Hk ltac:(lia)) as (w & Hw & _). apply (stb_ok _ _ w); [done|].
    assert (addrs l !! Z.to_nat i = Some (p_payload b + j)) as Hx by (eapply skip_addr; [by destruct Hp as [(_ & _ & _ & ?) _]|lia|exact E]).
    apply HQ.
    + destruct Hp as [Hp Hf]. split; [done|]. rewrite set_bytes_eq. by apply fetch_insert.
    + intros y Hy. rewrite lookup_insert_ne; [done|]. intros <-. apply Hy. by eapply list_elem_of_lookup_2.
Qed.
End ops.
