(* ===== verification/PbufRefs.v ===== *)
(** The memory and the reference counts of packet buffers: the contract of [malloc], the
    blocks in use, the count of a pbuf as the number of pointers to it; allocating and
    freeing. *)
From Stdlib Require Import ZArith Lia Bool.
From S2P Require Import Prelude CSem Pbuf PbufProof.
From stdpp Require Import base list numbers option gmap.

Open Scope Z_scope.

(** ** Blocks *)

(** [n] bytes at [a] and [k] bytes at [b] do not overlap. *)
Definition apart (a n b k : Z) : Prop := forall x, ~ (a <= x < a + n /\ b <= x < b + k).

Lemma apart_sym a n b k : apart a n b k -> apart b k a n.
Proof. intros H x [? ?]. by apply (H x). Qed.

(** The blocks in use after a trace, with their sizes. *)
Definition llive_step (m : gmap Z Z) (e : lwip_event) : gmap Z Z :=
  match e with
  | LMalloc n a => if a =? 0 then m else <[a := n]> m
  | LFree a => delete a m
  | _ => m
  end.

Definition llive (h : list lwip_event) : gmap Z Z := foldl llive_step ∅ h.

Lemma llive_snoc h e : llive (h ++ [e]) = llive_step (llive h) e.
Proof. unfold llive. by rewrite foldl_app. Qed.

(** The contract of [malloc]: null, or an aligned block in the heap's region, apart from the
    blocks in use. *)
Class LwipHeap {env : LwipEnv} := {
  heap_lo : Z;
  heap_hi : Z;
  heap_positive : 0 < heap_lo;
  heap_malloc h n : 0 < n -> let a := env_malloc h n in
    a = 0 \/ heap_lo <= a /\ a + n <= heap_hi /\ a mod 4 = 0 /\ forall b k, llive h !! b = Some k -> apart b k a n
}.

(** Every pbuf is at the start of a block, every accessible byte of the heap in a block
    behind its pbuf; the rest of memory belongs to others. *)
Record mem_ok `{LwipHeap} (s : lwip) : Prop := {
  mo_blocks : blocks s = llive (ltrace s);
  mo_apart : forall a n b k, blocks s !! a = Some n -> blocks s !! b = Some k -> a <> b -> apart a n b k;
  mo_pbufs : forall a, is_Some (pbufs s !! a) <-> is_Some (blocks s !! a);
  mo_size : forall a n, blocks s !! a = Some n -> heap_lo <= a /\ SIZEOF_STRUCT_PBUF <= n /\ a + n <= heap_hi;
  mo_bytes : forall x, is_Some (bytes s !! x) -> heap_lo <= x < heap_hi -> exists a n, blocks s !! a = Some n /\ a + SIZEOF_STRUCT_PBUF <= x < a + n
}.

Section mem.
Context `{heap : LwipHeap}.

(** What becomes of the state when a block is allocated. *)
Record allocated (s s' : lwip) (a n : Z) (b : pbuf) : Prop := {
  al_pbufs : pbufs s' = <[a := b]> (pbufs s);
  al_new : pbufs s !! a = None;
  al_fresh : forall x, a <= x < a + n -> bytes s !! x = None;
  al_old : forall x, ~ a <= x < a + n -> bytes s' !! x = bytes s !! x;
  al_bytes : forall x, a + SIZEOF_STRUCT_PBUF <= x < a + n -> is_Some (bytes s' !! x);
  al_addr : heap_lo <= a /\ a mod 4 = 0 /\ a + n <= heap_hi;
  al_blocks : blocks s' = <[a := n]> (blocks s);
  al_bnew : blocks s !! a = None;
  al_mem : mem_ok s'
}.

Lemma mem_malloc_ok n b s (Q : Z -> lwip -> Prop) : mem_ok s -> SIZEOF_STRUCT_PBUF <= n ->
  (forall s', pbufs s' = pbufs s -> bytes s' = bytes s -> blocks s' = blocks s -> mem_ok s' -> Q 0 s') -> (forall a s', a <> 0 -> allocated s s' a n (b a) -> Q a s') -> wp (mem_malloc n b) Q s.
Proof.
  intros Hm Hn HQ0 HQ1. unfold mem_malloc. change SIZEOF_STRUCT_PBUF with 20 in *. apply wp_bind, wp_gets. pose proof (heap_malloc (ltrace s) n ltac:(lia)) as Hc. cbv zeta in Hc.
  set (a := env_malloc (ltrace s) n) in *. clearbody a. apply wp_bind, wp_modify. destruct Hm as [Hb Ha Hp Hs Hx]. destruct (a =? 0) eqn:E; bools.
  - apply wp_ret. subst a. apply HQ0; [done|done|done|]. split; cbn; [|done..]. by rewrite llive_snoc, Hb.
  - destruct Hc as [?|(Hlo & Hhi & Hal & Hc)]; [done|]. rewrite <- Hb in Hc. pose proof heap_positive as Hpos.
    assert (blocks s !! a = None) as Hnew.
    { destruct (blocks s !! a) as [k|] eqn:Ek; [|done]. exfalso. destruct (Hs _ _ Ek) as (? & ? & ?). apply (Hc _ _ Ek a). change SIZEOF_STRUCT_PBUF with 20 in *. lia. }
    assert (pbufs s !! a = None) as Hnew2. { apply eq_None_not_Some. rewrite Hp, Hnew. by intros [? ?]. }
    assert (forall x, a <= x < a + n -> bytes s !! x = None) as Hfresh.
    { intros x Hxr. destruct (bytes s !! x) as [v|] eqn:Ev; [|done]. exfalso. destruct (Hx x) as (c & k & Hk & Hr); [by eexists|lia|]. apply (Hc _ _ Hk x). change SIZEOF_STRUCT_PBUF with 20 in *. lia. }
    apply wp_bind, wp_modify, wp_ret. apply HQ1; [done|]. set (fr := env_fresh _ <$> _).
    assert (zlen fr = n - 20) as Hfr by (unfold fr, zlen; rewrite length_fmap, length_seqZ; lia). clearbody fr.
    split; cbn; [done|done|done| | |lia|done|done|].
    + intros x Hxr. rewrite lookup_store, Hfr. change SIZEOF_STRUCT_PBUF with 20 in *. destruct (in_block (a + 20) (n - 20) x) eqn:Eb; [|done]. apply in_block_spec in Eb. lia.
    + intros x Hxr. rewrite lookup_store, Hfr. change SIZEOF_STRUCT_PBUF with 20 in *. destruct (in_block (a + 20) (n - 20) x) eqn:Eb; [|apply in_block_false in Eb; lia].
      apply lookup_lt_is_Some_2. unfold zlen in Hfr. lia.
    + split; cbn.
      * rewrite llive_snoc. cbn. destruct (a =? 0) eqn:E2; bools; [done|]. by rewrite Hb.
      * intros c k d j Hck Hdj Hne. rewrite lookup_insert_Some in Hck, Hdj. destruct Hck as [[<- <-]|[? Hck]], Hdj as [[<- <-]|[? Hdj]]; [done|apply apart_sym; by apply (Hc _ _ Hdj)|by apply (Hc _ _ Hck)|by eapply Ha].
      * intros c. destruct (decide (c = a)) as [->|Hne]; [rewrite !lookup_insert_eq; by split; eexists|]. rewrite !lookup_insert_ne by done. apply Hp.
      * intros c k Hck. rewrite lookup_insert_Some in Hck. destruct Hck as [[<- <-]|[? Hck]]; [by split|by eapply Hs].
      * intros x Hxs Hxr. rewrite lookup_store, Hfr in Hxs. change SIZEOF_STRUCT_PBUF with 20 in *. destruct (in_block (a + 20) (n - 20) x) eqn:Eb.
        -- exists a, n. rewrite lookup_insert_eq. split; [done|]. apply in_block_spec in Eb. lia.
        -- destruct (Hx x Hxs Hxr) as (c & k & Hck & Hr). exists c, k. split; [|done]. rewrite lookup_insert_ne; [done|]. intros <-. congruence.
Qed.

(** What becomes of the state when the pbuf [a] is freed. *)
Record freed (s s' : lwip) (a : Z) : Prop := {
  fr_pbufs : pbufs s' = delete a (pbufs s);
  fr_bytes : forall x, bytes s' !! x = None \/ bytes s' !! x = bytes s !! x;
  fr_other : forall c n x, blocks s !! c = Some n -> c <> a -> c <= x < c + n -> bytes s' !! x = bytes s !! x;
  fr_outside : forall x, ~ heap_lo <= x < heap_hi -> bytes s' !! x = bytes s !! x;
  fr_blocks : blocks s' = delete a (blocks s);
  fr_mem : mem_ok s'
}.

Lemma lookup_filter_block (m : gmap Z Z) a n x : filter (fun '(x, _) => in_block a n x = false) m !! x = if in_block a n x then None else m !! x.
Proof.
  destruct (in_block a n x) eqn:E.
  - apply map_lookup_filter_None. right. intros v _. cbn. by rewrite E.
  - destruct (m !! x) as [v|] eqn:Ev; [by apply map_lookup_filter_Some|]. apply map_lookup_filter_None. by left.
Qed.

Lemma mem_free_ok a b s (Q : unit -> lwip -> Prop) : mem_ok s -> pbufs s !! a = Some b -> (forall s', freed s s' a -> Q tt s') -> wp (mem_free a) Q s.
Proof.
  intros [Hb Ha Hp Hs Hx] Hpa HQ. unfold mem_free. apply wp_bind, wp_gets. destruct (proj1 (Hp a)) as [n Hn]; [by eexists|]. rewrite Hn.
  apply wp_bind, wp_modify, wp_modify, HQ. destruct (Hs _ _ Hn) as (Hlo & Hsz & Hhi). split; cbn.
  - done.
  - intros x. rewrite lookup_filter_block. destruct (in_block a n x); [by left|by right].
  - intros c k x Hck Hne Hr. rewrite lookup_filter_block. destruct (in_block a n x) eqn:E; [|done]. apply in_block_spec in E. exfalso. by apply (Ha _ _ _ _ Hck Hn Hne x).
  - intros x Hlt. rewrite lookup_filter_block. destruct (in_block a n x) eqn:E; [|done]. apply in_block_spec in E. lia.
  - done.
  - split; cbn.
    + by rewrite llive_snoc, Hb.
    + intros c k d j Hc Hd. rewrite lookup_delete_Some in Hc, Hd. destruct Hc, Hd. by apply Ha.
    + intros c. destruct (decide (c = a)) as [->|?]; [by rewrite !lookup_delete_eq|]. rewrite !lookup_delete_ne by done. apply Hp.
    + intros c k [_ Hc]%lookup_delete_Some. by apply Hs.
    + intros x Hxs Hxr. rewrite lookup_filter_block in Hxs. destruct (in_block a n x) eqn:E; [by destruct Hxs|]. destruct (Hx x Hxs Hxr) as (c & k & Hc & Hr).
      exists c, k. split; [|done]. apply lookup_delete_Some. split; [|done]. intros ->. assert (k = n) as -> by congruence. apply in_block_false in E. change SIZEOF_STRUCT_PBUF with 20 in *. lia.
Qed.

Lemma mem_ok_same s s' : mem_ok s -> dom (pbufs s') = dom (pbufs s) -> dom (bytes s') = dom (bytes s) -> blocks s' = blocks s -> llive (ltrace s') = llive (ltrace s) -> mem_ok s'.
Proof.
  intros [Hb Ha Hp Hs Hx] Ep Eb Ek Et. split.
  - by rewrite Ek, Et.
  - by rewrite Ek.
  - intros a. rewrite Ek, <- Hp, <- !elem_of_dom. by rewrite Ep.
  - by rewrite Ek.
  - intros x. rewrite <- elem_of_dom, Eb, Ek, elem_of_dom. apply Hx.
Qed.
End mem.

(** ** Reference counts *)

(** How many pbufs satisfy [f]. *)
Definition tally (f : pbuf -> bool) (m : gmap Z pbuf) : Z := Z.of_nat (size (filter (fun '(_, b) => f b = true) m)).

(** The pointers to [a]: from outside, and from the [next] fields of pbufs; all of the
    latter. *)
Definition held (R : list Z) (a : Z) : Z := Z.of_nat (count_occ Z.eq_dec R a).
Definition refs (m : gmap Z pbuf) (a : Z) : Z := tally (fun b => p_next b =? a) m.
Definition links (m : gmap Z pbuf) : Z := tally (fun b => negb (p_next b =? 0)) m.

#[export] Instance held_proper : Proper ((≡ₚ) ==> (=) ==> (=)) held.
Proof. intros R R' HR a ? <-. unfold held. f_equal. by apply Permutation_count_occ. Qed.

Definition one (x a : Z) : Z := Z.b2z (x =? a).

Lemma one_same a : one a a = 1.
Proof. unfold one. by rewrite Z.eqb_refl. Qed.

Lemma one_ne x a : x <> a -> one x a = 0.
Proof. intros H. unfold one. apply Z.eqb_neq in H as ->. done. Qed.

Lemma one_range x a : 0 <= one x a <= 1.
Proof. unfold one. destruct (x =? a); cbn; lia. Qed.

Lemma held_cons p R a : held (p :: R) a = held R a + one p a.
Proof. unfold held, one. cbn. destruct (Z.eq_dec p a), (p =? a) eqn:E; bools; cbn [Z.b2z]; congruence || lia. Qed.

Lemma held_nonneg R a : 0 <= held R a.
Proof. unfold held. lia. Qed.

Lemma held_le R a : held R a <= zlen R.
Proof. unfold held, zlen. pose proof (count_occ_bound Z.eq_dec a R). lia. Qed.

Lemma tally_nonneg f m : 0 <= tally f m.
Proof. unfold tally. lia. Qed.

Lemma tally_new f m x b : m !! x = None -> tally f (<[x := b]> m) = tally f m + Z.b2z (f b).
Proof.
  intros H. unfold tally. destruct (f b) eqn:E.
  - rewrite map_filter_insert_True by done. rewrite map_size_insert_None; [cbn [Z.b2z]; lia|]. apply map_lookup_filter_None. by left.
  - rewrite map_filter_insert_False by (by rewrite E). rewrite delete_id by done. cbn [Z.b2z]. lia.
Qed.

Lemma tally_delete f m x b : m !! x = Some b -> tally f (delete x m) = tally f m - Z.b2z (f b).
Proof. intros H. rewrite <- (insert_delete_id m x b H) at 2. rewrite tally_new by apply lookup_delete_eq. lia. Qed.

Lemma tally_insert f m x b b' : m !! x = Some b -> tally f (<[x := b']> m) = tally f m - Z.b2z (f b) + Z.b2z (f b').
Proof. intros H. rewrite <- (insert_delete_eq m). rewrite tally_new by apply lookup_delete_eq. by rewrite (tally_delete f m x b H). Qed.

Lemma tally_le f g m : (forall b, f b = true -> g b = true) -> tally f m <= tally g m.
Proof. intros H. unfold tally. apply inj_le, map_subseteq_size, map_filter_subseteq_ext. intros x b _. apply H. Qed.

Lemma refs_new m x b a : m !! x = None -> refs (<[x := b]> m) a = refs m a + one (p_next b) a.
Proof. apply tally_new. Qed.

Lemma refs_delete m x b a : m !! x = Some b -> refs (delete x m) a = refs m a - one (p_next b) a.
Proof. apply tally_delete. Qed.

Lemma refs_insert m x b b' a : m !! x = Some b -> refs (<[x := b']> m) a = refs m a - one (p_next b) a + one (p_next b') a.
Proof. apply tally_insert. Qed.

Lemma refs_insert_same m x b b' a : m !! x = Some b -> p_next b' = p_next b -> refs (<[x := b']> m) a = refs m a.
Proof. intros H E. rewrite (refs_insert m x b b' a H), E. lia. Qed.

Lemma refs_pos m x b : m !! x = Some b -> 0 < refs m (p_next b).
Proof. intros H. pose proof (refs_delete m x b (p_next b) H) as Hd. pose proof (tally_nonneg (fun c => p_next c =? p_next b) (delete x m)). unfold refs in *. rewrite one_same in Hd. lia. Qed.

Lemma refs_le_links m a : a <> 0 -> refs m a <= links m.
Proof. intros Ha. apply tally_le. intros b E. bools. destruct (p_next b =? 0) eqn:E0; bools; [congruence|done]. Qed.

Definition link (b : pbuf) : Z := Z.b2z (negb (p_next b =? 0)).

Lemma link_0 b : p_next b = 0 -> link b = 0.
Proof. intros E. unfold link. by rewrite E. Qed.

Lemma link_1 b : p_next b <> 0 -> link b = 1.
Proof. intros E. unfold link. by apply Z.eqb_neq in E as ->. Qed.

Lemma links_insert_same m x b b' : m !! x = Some b -> p_next b' = p_next b -> links (<[x := b']> m) = links m.
Proof. intros H E. unfold links. rewrite (tally_insert _ m x b b' H), E. lia. Qed.

(** The counts are right, with [R] the references from outside; every pbuf is the start of a
    finite chain; [eb] is set where it is read. *)
Record counted (R : list Z) (m : gmap Z pbuf) : Prop := {
  ct_ref : forall a b, m !! a = Some b -> a <> 0 /\ p_ref b = held R a + refs m a /\ 0 < p_ref b;
  ct_live : forall a, a <> 0 -> m !! a = None -> held R a = 0 /\ refs m a = 0;
  ct_null : held R 0 = 0;
  ct_small : zlen R + links m < 65536;
  ct_chain : forall a b, m !! a = Some b -> exists l, chain m a l;
  ct_eb : forall a b, m !! a = Some b -> p_type b = PBUF_REF -> p_eb b <> None
}.

#[export] Instance counted_proper : Proper ((≡ₚ) ==> (=) ==> iff) counted.
Proof.
  assert (forall R R' m, R ≡ₚ R' -> counted R m -> counted R' m) as H.
  { intros R R' m HR [H1 H2 H3 H4 H5 H6]. split; [|by intros a; rewrite <- HR; apply H2|by rewrite <- HR| |done|done].
    - intros a b Hb. rewrite <- HR. by apply H1.
    - unfold zlen in *. by rewrite <- HR. }
  intros R R' HR m ? <-. split; by apply H.
Qed.

Section counts.
Implicit Types (m : gmap Z pbuf) (R : list Z).

Lemma counted_lookup R m p : counted (p :: R) m -> p <> 0 /\ exists b, m !! p = Some b.
Proof.
  intros H. pose proof (held_nonneg R p) as Hn. assert (p <> 0) as Hp. { intros ->. pose proof (ct_null _ _ H) as E. rewrite held_cons, one_same in E. lia. }
  split; [done|]. destruct (m !! p) as [b|] eqn:E; [by exists b|]. destruct (ct_live _ _ H p Hp E) as [Hh _]. rewrite held_cons, one_same in Hh. lia.
Qed.

Lemma counted_next R m a b : counted R m -> m !! a = Some b -> p_next b <> 0 -> exists c, m !! p_next b = Some c.
Proof.
  intros H Hb Hn. destruct (m !! p_next b) as [c|] eqn:E; [by exists c|].
  destruct (ct_live _ _ H _ Hn E) as [_ Hr]. pose proof (refs_pos m a b Hb). lia.
Qed.

Lemma counted_ref_small R m a b : counted R m -> m !! a = Some b -> 0 < p_ref b < 65536.
Proof.
  intros H Hb. destruct (ct_ref _ _ H _ _ Hb) as (Ha & E & Hp). pose proof (ct_small _ _ H). pose proof (held_le R a). pose proof (refs_le_links m a Ha). lia.
Qed.

(** A change of a pbuf outside of a chain. *)
Lemma chain_avoid m a b p l : chain m p l -> a ∉ fst <$> l -> chain (<[a := b]> m) p l.
Proof. intros H Ha. eapply chain_ext; [|exact H]. intros x c Hin. apply lookup_insert_ne. intros <-. apply Ha. apply list_elem_of_fmap. by exists (a, c). Qed.

(** A pbuf is changed and references from outside come or go, so that the count still fits. *)
Lemma counted_change R R' m a b b' : counted R m -> m !! a = Some b ->
  (p_type b' = PBUF_REF -> p_eb b' <> None) -> (exists k, chain m (p_next b') k /\ a ∉ fst <$> k) ->
  (forall x, x <> 0 -> x <> a -> held R' x - one (p_next b) x + one (p_next b') x = held R x) ->
  p_ref b' = held R' a + refs m a -> 0 < p_ref b' -> held R' 0 = 0 -> zlen R' + links m - link b + link b' < 65536 -> counted R' (<[a := b']> m).
Proof.
  intros H Hb Et (k & Hk & Hak) Hh Er Hpos H0 Hs. destruct (ct_ref _ _ H _ _ Hb) as (Ha0 & _ & _).
  assert (p_next b <> a) as Hna. { intros E. destruct (ct_chain _ _ H _ _ Hb) as [l Hl]. pose proof (chain_nodup _ _ _ Hl) as Hnd. destruct l as [|[x c] l]; [by cbn in Hl|]. destruct Hl as (-> & _ & Hx & Hl).
    assert (c = b) as -> by congruence. rewrite E in Hl. destruct l as [|[y d] l]; [by cbn in Hl|]. destruct Hl as (-> & _). apply NoDup_cons in Hnd as [Hnd _]. apply Hnd. cbn. left. }
  assert (p_next b' <> a) as Hna'. { intros E. rewrite E in Hk. destruct k as [|[y d] k]; [by cbn in Hk|]. destruct Hk as (-> & _). apply Hak. cbn. left. }
  split.
  - intros x c Hc. rewrite (refs_insert m a b) by done. apply lookup_insert_Some in Hc as [[<- <-]|[Hne Hc]].
    + rewrite !one_ne by done. split; [done|]. lia.
    + destruct (ct_ref _ _ H _ _ Hc) as (Hx & E & ?). specialize (Hh x Hx ltac:(done)). split; [done|]. lia.
  - intros x Hx Hn. rewrite (refs_insert m a b) by done. apply lookup_insert_None in Hn as [Hn Hne]. destruct (ct_live _ _ H _ Hx Hn) as [E1 E2]. specialize (Hh x Hx ltac:(done)).
    pose proof (one_range (p_next b') x). pose proof (held_nonneg R' x). destruct (decide (p_next b = x)) as [E|E].
    + pose proof (refs_pos m a b Hb) as Hp. rewrite E in Hp. lia.
    + rewrite (one_ne _ _ E) in *. lia.
  - done.
  - unfold links. rewrite (tally_insert _ m a b b' Hb). unfold link, links in Hs. lia.
  - intros x c Hc. assert (exists c', m !! x = Some c') as [c' Hc'] by (apply lookup_insert_Some in Hc as [[<- _]|[_ Hc]]; eauto).
    destruct (ct_chain _ _ H _ _ Hc') as [l Hl]. clear Hc Hc' c c'. revert x Hl. induction l as [|[y d] l IH]; intros x; [by exists []|]. intros (-> & Hy & Hd & Hl). destruct (decide (y = a)) as [->|Hne].
    + exists ((a, b') :: k). cbn. rewrite lookup_insert_eq. split; [done|]. split; [done|]. split; [done|]. by apply chain_avoid.
    + destruct (IH _ Hl) as [l' Hl']. exists ((y, d) :: l'). cbn. by rewrite lookup_insert_ne.
  - intros x c Hc. apply lookup_insert_Some in Hc as [[<- <-]|[_ Hc]]; [done|]. by eapply ct_eb.
Qed.

Lemma counted_tail R m a b : counted R m -> m !! a = Some b -> exists k, chain m (p_next b) k /\ a ∉ fst <$> k.
Proof.
  intros H Hb. destruct (ct_chain _ _ H _ _ Hb) as [l Hl]. pose proof (chain_nodup _ _ _ Hl) as Hnd. destruct (ct_ref _ _ H _ _ Hb) as (Ha0 & _).
  destruct l as [|[x c] l]; [by cbn in Hl|]. destruct Hl as (<- & _ & Hx & Hl). assert (c = b) as -> by congruence. exists l. apply NoDup_cons in Hnd as [Hnd _]. done.
Qed.

Lemma counted_update R m a b b' : counted R m -> m !! a = Some b -> p_next b' = p_next b -> p_ref b' = p_ref b -> (p_type b' = PBUF_REF -> p_eb b' <> None) -> counted R (<[a := b']> m).
Proof.
  intros H Hb En Er Et. destruct (ct_ref _ _ H _ _ Hb) as (_ & E & ?). apply (counted_change R R m a b b'); try done.
  - rewrite En. by eapply counted_tail.
  - intros x _ _. rewrite En. lia.
  - lia.
  - lia.
  - apply (ct_null _ _ H).
  - unfold link. rewrite En. pose proof (ct_small _ _ H). lia.
Qed.

(** One reference more, and one less. *)
Lemma counted_ref R m p b : counted R m -> m !! p = Some b -> zlen R + links m < 65535 -> counted (p :: R) (<[p := set_ref (p_ref b + 1) b]> m).
Proof.
  intros H Hb Hs. destruct (ct_ref _ _ H _ _ Hb) as (Hp0 & Er & ?). pose proof (held_le R p). pose proof (refs_le_links m p Hp0).
  apply (counted_change R _ m p b); try done; try (exact (ct_eb _ _ H p b Hb)); cbn [set_ref p_next p_ref].
  - by eapply counted_tail.
  - intros x _ Hne. rewrite held_cons, (one_ne p) by done. lia.
  - rewrite held_cons, one_same, u16_small by lia. lia.
  - rewrite u16_small by lia. lia.
  - rewrite held_cons, one_ne by done. pose proof (ct_null _ _ H). lia.
  - change (link (set_ref (p_ref b + 1) b)) with (link b). unfold zlen in *. cbn [length]. lia.
Qed.

Lemma counted_unref R m p b : counted (p :: R) m -> m !! p = Some b -> 1 < p_ref b -> counted R (<[p := set_ref (p_ref b - 1) b]> m).
Proof.
  intros H Hb H1. pose proof (counted_ref_small _ _ _ _ H Hb) as Hsm. destruct (ct_ref _ _ H _ _ Hb) as (Hp0 & Er & ?). rewrite held_cons, one_same in Er.
  apply (counted_change (p :: R) _ m p b); try done; try (exact (ct_eb _ _ H p b Hb)); cbn [set_ref p_next p_ref].
  - by eapply counted_tail.
  - intros x _ Hne. rewrite held_cons, (one_ne p) by done. lia.
  - rewrite u16_small by lia. lia.
  - rewrite u16_small by lia. lia.
  - pose proof (ct_null _ _ H) as E. rewrite held_cons, one_ne in E by done. lia.
  - change (link (set_ref (p_ref b - 1) b)) with (link b). pose proof (ct_small _ _ H). unfold zlen in *. cbn [length] in *. lia.
Qed.

(** A reference from outside becomes the one of a [next] field, and back. *)
Lemma counted_link R m r b q k : counted (q :: R) m -> m !! r = Some b -> p_next b = 0 -> chain m q k -> r ∉ fst <$> k -> counted R (<[r := set_next q b]> m).
Proof.
  intros H Hb Hn Hk Hr. destruct (counted_lookup _ _ _ H) as [Hq _]. destruct (ct_ref _ _ H _ _ Hb) as (Hr0 & Er & ?).
  assert (q <> r) as Hne. { intros ->. destruct k as [|[y d] k]; [by cbn in Hk|]. destruct Hk as (-> & _). apply Hr. cbn. left. }
  rewrite held_cons, one_ne in Er by done. apply (counted_change (q :: R) _ m r b); try done; try (exact (ct_eb _ _ H r b Hb)); cbn [set_next p_next p_ref].
  - by exists k.
  - intros x Hx Hxr. rewrite held_cons, Hn, (one_ne 0) by done. lia.
  - lia.
  - pose proof (ct_null _ _ H) as E. rewrite held_cons, one_ne in E by done. lia.
  - pose proof (ct_small _ _ H). rewrite (link_0 b), (link_1 (set_next q b)) by done. unfold zlen in *. cbn [length] in *. lia.
Qed.

Lemma counted_unlink R m r b : counted R m -> m !! r = Some b -> p_next b <> 0 -> counted (p_next b :: R) (<[r := set_next 0 b]> m).
Proof.
  intros H Hb Hn. destruct (ct_ref _ _ H _ _ Hb) as (Hr0 & Er & ?). destruct (counted_tail _ _ _ _ H Hb) as (k & Hk & Hrk).
  assert (p_next b <> r) as Hne. { intros E. destruct k as [|[y d] k]; [by cbn in Hk|]. destruct Hk as (<- & _). apply Hrk. cbn. rewrite E. left. }
  apply (counted_change R _ m r b); try done; try (exact (ct_eb _ _ H r b Hb)); cbn [set_next p_next p_ref].
  - exists []. split; [done|]. apply not_elem_of_nil.
  - intros x Hx Hxr. rewrite held_cons, (one_ne 0) by done. lia.
  - rewrite held_cons, one_ne by done. lia.
  - rewrite held_cons, one_ne by done. pose proof (ct_null _ _ H). lia.
  - pose proof (ct_small _ _ H). rewrite (link_1 b), (link_0 (set_next 0 b)) by done. unfold zlen in *. cbn [length] in *. lia.
Qed.

(** A new pbuf. *)
Lemma counted_new R m p b : counted R m -> m !! p = None -> p <> 0 -> p_next b = 0 -> p_ref b = 1 -> (p_type b = PBUF_REF -> p_eb b <> None) -> zlen R + links m < 65535 ->
  counted (p :: R) (<[p := b]> m).
Proof.
  intros H Hp Hp0 Hn Hr He Hs. destruct (ct_live _ _ H _ Hp0 Hp) as [Eh Erf]. split.
  - intros x c Hc. rewrite refs_new, held_cons, Hn by done. apply lookup_insert_Some in Hc as [[<- <-]|[Hne Hc]].
    + rewrite one_same, one_ne by done. split; [done|]. lia.
    + destruct (ct_ref _ _ H _ _ Hc) as (? & E & ?). rewrite !one_ne by done. split; [done|]. lia.
  - intros x Hx Hn'. rewrite refs_new, held_cons, Hn by done. apply lookup_insert_None in Hn' as [Hn' Hne]. destruct (ct_live _ _ H _ Hx Hn'). rewrite !one_ne by done. lia.
  - rewrite held_cons, one_ne by done. pose proof (ct_null _ _ H). lia.
  - unfold links. rewrite tally_new by done. rewrite Hn. unfold zlen, links in *. cbn [length Z.b2z negb Z.eqb]. lia.
  - intros x c Hc. apply lookup_insert_Some in Hc as [[<- <-]|[Hne Hc]].
    + exists [(p, b)]. cbn. by rewrite lookup_insert_eq, Hn.
    + destruct (ct_chain _ _ H _ _ Hc) as [l Hl]. exists l. apply chain_avoid; [done|]. intros Hin. apply list_elem_of_fmap in Hin as ([y d] & -> & Hin).
      destruct (chain_lookup _ _ _ _ _ Hl Hin). cbn in *. congruence.
  - intros x c Hc. apply lookup_insert_Some in Hc as [[<- <-]|[_ Hc]]; [done|]. by eapply ct_eb.
Qed.

(** The last reference to [p] goes, and [p] with it: the reference it holds remains to be
    dropped. *)
Lemma counted_delete R m p b : counted (p :: R) m -> m !! p = Some b -> p_ref b = 1 -> counted (if decide (p_next b = 0) then R else p_next b :: R) (delete p m).
Proof.
  intros H Hb H1. destruct (ct_ref _ _ H _ _ Hb) as (Hp0 & Er & _). rewrite held_cons, one_same in Er.
  pose proof (held_nonneg R p). pose proof (tally_nonneg (fun c => p_next c =? p) m) as Hrn. fold (refs m p) in Hrn. assert (refs m p = 0) as Hr0 by lia. assert (held R p = 0) as Hh0 by lia.
  assert (p_next b <> p) as Hnp. { intros E. pose proof (refs_pos m p b Hb). rewrite E in *. lia. }
  set (R' := if decide (p_next b = 0) then R else p_next b :: R).
  assert (forall a, a <> 0 -> held R' a = held R a + one (p_next b) a) as HR'.
  { intros a Ha. unfold R'. destruct (decide (p_next b = 0)) as [E|E]; [|apply held_cons]. rewrite E, one_ne by done. lia. }
  assert (forall a, a <> p -> held (p :: R) a = held R a) as Hcons. { intros a Ha. rewrite held_cons, one_ne by done. lia. }
  split.
  - intros x c Hc. apply lookup_delete_Some in Hc as [Hne Hc]. destruct (ct_ref _ _ H _ _ Hc) as (Hx & E & Hpos). rewrite (refs_delete m p b x Hb), HR' by done.
    rewrite Hcons in E by done. split; [done|]. lia.
  - intros x Hx Hn. rewrite (refs_delete m p b x Hb), HR' by done. destruct (decide (x = p)) as [->|Hne].
    + rewrite one_ne by done. lia.
    + rewrite lookup_delete_ne in Hn by done. destruct (ct_live _ _ H _ Hx Hn) as [E ?]. rewrite Hcons in E by done. destruct (decide (p_next b = x)) as [En|En].
      * pose proof (refs_pos m p b Hb). rewrite En in *. lia.
      * rewrite one_ne by done. lia.
  - pose proof (ct_null _ _ H) as E. rewrite Hcons in E by done. unfold R'. destruct (decide (p_next b = 0)); [done|]. rewrite held_cons, one_ne by done. lia.
  - pose proof (ct_small _ _ H) as E. unfold links in *. rewrite (tally_delete _ m p b Hb). fold (link b). unfold R', zlen in *. cbn [length] in E.
    destruct (decide (p_next b = 0)); [rewrite link_0 by done; lia|rewrite link_1 by done; cbn [length]; lia].
  - intros x c Hc. apply lookup_delete_Some in Hc as [Hne Hc]. destruct (ct_chain _ _ H _ _ Hc) as [l Hl]. exists l. eapply chain_ext; [|exact Hl].
    intros a b' Hin. apply lookup_delete_ne. intros <-. clear Hc c. revert x Hne Hl. induction l as [|[y c] l IH]; intros x Hne Hl; [by apply elem_of_nil in Hin|].
    destruct Hl as (-> & Hy & Hyc & Hl). apply elem_of_cons in Hin as [E|Hin]; [injection E as -> _; done|]. destruct (decide (p_next c = p)) as [E|E].
    + pose proof (refs_pos m y c Hyc). rewrite E in *. lia.
    + by apply (IH Hin (p_next c)).
  - intros x c Hc. apply lookup_delete_Some in Hc as [_ Hc]. by eapply ct_eb.
Qed.
End counts.

(** ** Freeing *)

(** From [s] to [s'] blocks are at most lost, and the memory that is left is untouched. *)
Record kept `{LwipHeap} (s s' : lwip) : Prop := {
  kp_blocks : blocks s' ⊆ blocks s;
  kp_live : forall c n x, blocks s' !! c = Some n -> c <= x < c + n -> bytes s' !! x = bytes s !! x;
  kp_outside : forall x, ~ heap_lo <= x < heap_hi -> bytes s' !! x = bytes s !! x
}.

(** What is left of a chain that starts with [l] when the pbufs of [l] are freed, and the
    next one loses a reference. *)
Definition without (l : list (Z * pbuf)) (m : gmap Z pbuf) : gmap Z pbuf := foldl (fun m x => delete (fst x) m) m l.
Definition unref_head (k : list (Z * pbuf)) (m : gmap Z pbuf) : gmap Z pbuf :=
  match k with (a, b) :: _ => <[a := set_ref (p_ref b - 1) b]> m | [] => m end.

Definition sole (x : Z * pbuf) : Prop := p_ref (snd x) = 1.

Lemma without_snoc l x m : without (l ++ [x]) m = delete (fst x) (without l m).
Proof. unfold without. by rewrite foldl_app. Qed.

Lemma without_lookup l m a : a ∉ fst <$> l -> without l m !! a = m !! a.
Proof.
  revert m. induction l as [|[x b] l IH]; intros m; [done|]. cbn. intros [Hne Ha]%not_elem_of_cons.
  change (without l (delete x m) !! a = m !! a). rewrite IH by done. by apply lookup_delete_ne.
Qed.

Section free.
Context `{heap : LwipHeap}.

Lemma kept_refl s : kept s s.
Proof. by split. Qed.

Lemma kept_trans s s1 s2 : kept s s1 -> kept s1 s2 -> kept s s2.
Proof.
  intros [A1 A2 A3] [B1 B2 B3]. split.
  - by etrans.
  - intros c n x Hc Hx. rewrite (B2 c n) by done. apply (A2 c n); [|done]. by eapply lookup_weaken.
  - intros x Hx. by rewrite B3, A3.
Qed.

Lemma kept_same s s' : bytes s' = bytes s -> blocks s' = blocks s -> kept s s'.
Proof. intros E1 E2. split; by rewrite ?E1, ?E2. Qed.

Lemma freed_kept s s' a : freed s s' a -> kept s s'.
Proof.
  intros H. split.
  - rewrite (fr_blocks _ _ _ H). apply delete_subseteq.
  - intros c n x Hc Hx. rewrite (fr_blocks _ _ _ H) in Hc. apply lookup_delete_Some in Hc as [Hne Hc]. by apply (fr_other _ _ _ H c n).
  - apply (fr_outside _ _ _ H).
Qed.

Lemma mem_ok_upd s a b b' : mem_ok s -> pbufs s !! a = Some b -> mem_ok (set_pbufs (<[a := b']> (pbufs s)) s).
Proof. intros H Hb. eapply mem_ok_same; [exact H| |done..]. cbn. apply dom_insert_lookup_L. by eexists. Qed.

Lemma mem_ok_bytes s m : mem_ok s -> dom m = dom (bytes s) -> mem_ok (set_bytes m s).
Proof. intros H E. by eapply mem_ok_same. Qed.

Lemma pbuf_release_ok a b b' s (Q : unit -> lwip -> Prop) : mem_ok s -> pbufs s !! a = Some b -> (p_type b' = PBUF_REF -> p_eb b' <> None) ->
  (forall s', pbufs s' = delete a (pbufs s) -> kept s s' -> mem_ok s' -> Q tt s') -> wp (pbuf_release a b') Q s.
Proof.
  intros Hm Hb He HQ. unfold pbuf_release. apply wp_bind.
  assert (forall s1, pbufs s1 = pbufs s -> kept s s1 -> mem_ok s1 -> wp (mem_free a) Q s1) as Hfree.
  { intros s1 E1 Hk1 Hm1. apply (mem_free_ok _ b); [done|by rewrite E1|]. intros s' Hf. apply HQ; [by rewrite (fr_pbufs _ _ _ Hf), E1| |apply (fr_mem _ _ _ Hf)].
    eapply kept_trans; [exact Hk1|by eapply freed_kept]. }
  destruct (p_type b' =? PBUF_REF) eqn:E; bools; [|apply wp_ret; by apply Hfree; [|apply kept_refl|]].
  destruct (p_eb b') as [eb|]; [|by destruct He]. destruct (eb =? 0); [apply wp_ret; by apply Hfree; [|apply kept_refl|]|].
  apply wp_modify, Hfree; [done|by apply kept_same|]. eapply mem_ok_same; [exact Hm|done|done|done|]. cbn. by rewrite llive_snoc.
Qed.

(** The reference counts may be those of another state: one pbuf, which is not in the chain
    that is freed, is about to be changed ([pbuf_realloc] frees the tail first, and then
    sets [next]). *)
Definition patch (w : option (Z * pbuf)) (m : gmap Z pbuf) : gmap Z pbuf := match w with Some (q, b) => <[q := b]> m | None => m end.
Definition aside (w : option (Z * pbuf)) (l : list (Z * pbuf)) : Prop := match w with Some (q, _) => q ∉ fst <$> l | None => True end.

Lemma patch_lookup w m a l b : aside w l -> (a, b) ∈ l -> patch w m !! a = m !! a.
Proof. destruct w as [[q c]|]; [|done]. cbn. intros Hw Hin. apply lookup_insert_ne. intros <-. apply Hw. apply list_elem_of_fmap. by exists (q, b). Qed.

Lemma patch_insert w m a l b b' : aside w l -> (a, b) ∈ l -> <[a := b']> (patch w m) = patch w (<[a := b']> m).
Proof. destruct w as [[q c]|]; [|done]. cbn. intros Hw Hin. apply insert_insert_ne. intros <-. apply Hw. apply list_elem_of_fmap. by exists (a, b). Qed.

Lemma patch_delete w m a l b : aside w l -> (a, b) ∈ l -> delete a (patch w m) = patch w (delete a m).
Proof. destruct w as [[q c]|]; [|done]. cbn. intros Hw Hin. apply delete_insert_ne. intros <-. apply Hw. apply list_elem_of_fmap. by exists (a, b). Qed.

(** [pbuf_free] frees the pbufs that have no other reference, up to the first that has one. *)
Lemma pbuf_free_gen s p c R m w (Q : Z -> lwip -> Prop) : pbufs s = patch w m -> chain m p c -> aside w c -> counted (p :: R) m -> mem_ok s ->
  (forall l k s', c = l ++ k -> Forall sole l -> match k with (_, b) :: _ => 1 < p_ref b | [] => True end ->
     pbufs s' = patch w (unref_head k (without l m)) -> counted R (unref_head k (without l m)) -> kept s s' -> mem_ok s' -> Q (u8 (zlen l)) s') -> wp (pbuf_free p) Q s.
Proof.
  intros Es0 Hch Hw Hc Hm HQ. destruct (counted_lookup _ _ _ Hc) as (Hp & b0 & Hb0). unfold pbuf_free. destruct (p =? 0) eqn:E0; bools; [done|].
  unfold chain_fuel. apply wp_bind, wp_gets, wp_bind.
  assert (chain (pbufs s) p c) as Hchs by (rewrite Es0; eapply chain_ext; [|exact Hch]; intros a b Hin; by eapply patch_lookup).
  apply (wp_until (fun n x s' => fst x = 0 /\ Q (snd x) s' \/ exists l k, n = length k /\ k <> [] /\ x = (front k, u8 (zlen l)) /\ c = l ++ k /\ Forall sole l /\
    pbufs s' = patch w (without l m) /\ counted (front k :: R) (without l m) /\ kept s s' /\ mem_ok s') _ _ _ (length c)); [|apply chain_size in Hchs; lia|].
  - clear Hb0 Hm Hc Hchs. intros n x s' [[E HQ']|(l & k & -> & Hk & -> & -> & Hl & Es & Hc & Hkp & Hm)]; unfold free_body.
    { destruct x as [x cnt]. cbn in E. subst x. cbn. apply wp_ret, wp_ret, HQ'. }
    destruct k as [|[a b] k]; [done|]. cbn [front] in *. destruct (counted_lookup _ _ _ Hc) as (Ha & b' & Hb). destruct (a =? 0) eqn:E1; bools; [done|].
    pose proof (chain_nodup _ _ _ Hch) as Hnd. rewrite fmap_app in Hnd. apply list.NoDup_app in Hnd as (_ & Hdis & _).
    assert ((a, b) ∈ l ++ (a, b) :: k) as Hin by (apply elem_of_app; right; left).
    assert (b' = b) as ->. { destruct (chain_lookup _ _ _ a b Hch Hin) as [Hab _]. rewrite without_lookup in Hb; [congruence|]. intros Hin2. apply (Hdis _ Hin2). cbn. left. }
    pose proof (counted_ref_small _ _ _ _ Hc Hb) as Href. assert (pbufs s' !! a = Some b) as Hbs by (rewrite Es, (patch_lookup _ _ _ _ _ Hw Hin); done).
    apply wp_bind, (wp_upd _ _ b); [done|]. set (s1 := set_pbufs _ s').
    assert (mem_ok s1) as Hm1 by (by eapply mem_ok_upd). assert (pbufs s1 !! a = Some (set_ref (p_ref b - 1) b)) as Hb1 by (cbn; apply lookup_insert_eq).
    apply wp_bind, (wp_ld _ _ _ _ Hb1). cbn [set_ref p_ref]. rewrite u16_small by lia. assert (kept s s1) as Hk1 by (eapply kept_trans; [exact Hkp|by apply kept_same]).
    destruct (p_ref b - 1 =? 0) eqn:E2; bools.
    + apply wp_bind. eapply pbuf_release_ok; [exact Hm1|exact Hb1|cbn; by eapply ct_eb|]. intros s2 Es2 Hk2 Hm2. apply wp_ret. cbn [set_ref p_next].
      assert (pbufs s2 = patch w (without (l ++ [(a, b)]) m)) as Es2'.
      { rewrite Es2, without_snoc. unfold s1. cbn [set_pbufs pbufs fst]. by rewrite delete_insert_eq, Es, (patch_delete _ _ _ _ _ Hw Hin). }
      assert (Forall sole (l ++ [(a, b)])) as Hl2 by (apply list.Forall_app; split; [done|constructor; [unfold sole; cbn; lia|done]]).
      assert (u8 (u8 (zlen l) + 1) = u8 (zlen (l ++ [(a, b)]))) as -> by (rewrite zlen_snoc; unfold u8; by rewrite Z.add_mod_idemp_l).
      pose proof (chain_drop _ _ _ _ _ Hch) as Hck. cbn [fst] in Hck. apply chain_tail in Hck. assert (front k = 0 -> k = []) as Hk0 by (destruct k as [|[? ?] ?]; [done|]; cbn in *; by destruct Hck as (_ & ? & _)).
      apply chain_head in Hck. rewrite Hck in *.
      assert (p_ref b = 1) as Hr1 by lia. pose proof (counted_delete _ _ _ _ Hc Hb Hr1) as Hcd. rewrite Hck, <- (without_snoc l (a, b)) in Hcd.
      assert (kept s s2) as Hks2 by (by eapply kept_trans).
      exists (length k). split; [cbn; lia|]. destruct (decide (front k = 0)) as [E|E].
      * left. split; [done|]. rewrite (Hk0 E) in *. by apply (HQ (l ++ [(a, b)]) []); rewrite ?app_nil_r.
      * right. exists (l ++ [(a, b)]), k. rewrite <- app_assoc. destruct k; [done|]. done.
    + apply wp_ret. exists O. split; [cbn; lia|]. left. split; [done|]. cbn [snd]. apply (HQ l ((a, b) :: k)); try done; [cbn; lia| |cbn; by apply counted_unref; [| |lia]].
      cbn [unref_head]. rewrite <- (patch_insert _ _ _ _ b _ Hw Hin). cbn. by rewrite Es.
  - right. exists [], c. cbn [app]. assert (p = front c) as <- by (by eapply chain_head). destruct c; [done|]. split_and!; [done..|apply kept_refl|done].
Qed.

Lemma pbuf_free_ok s p c R (Q : Z -> lwip -> Prop) : chain (pbufs s) p c -> counted (p :: R) (pbufs s) -> mem_ok s ->
  (forall l k s', c = l ++ k -> Forall sole l -> match k with (_, b) :: _ => 1 < p_ref b | [] => True end ->
     pbufs s' = unref_head k (without l (pbufs s)) -> counted R (pbufs s') -> kept s s' -> mem_ok s' -> Q (u8 (zlen l)) s') -> wp (pbuf_free p) Q s.
Proof. intros Hch Hc Hm HQ. apply (pbuf_free_gen s p c R (pbufs s) None); try done. intros l k s' E Hl Hk Es Hc' Hkp Hm'. cbn in Es. apply (HQ l k); try done. by rewrite Es. Qed.
End free.
