(* ===== verification/PbufOps.v ===== *)
(** The operations of [Pbuf] that link, trim, split, allocate and coalesce packet buffers:
    what they do to chains and contents, and that counts and memory stay right. *)
From Stdlib Require Import ZArith Lia Bool.
From stdpp Require Import base list numbers option gmap.
From S2P Require Import Prelude CSem Pbuf PbufProof PbufRefs.

Open Scope Z_scope.

(** ** The invariant

  [R] are the references the rest of the system holds. *)
Definition good `{LwipHeap} (R : list Z) (s : lwip) : Prop := counted R (pbufs s) /\ mem_ok s.

(** The same fields as far as chains and counts go. *)
Definition alike (b b' : pbuf) : Prop := p_next b' = p_next b /\ p_ref b' = p_ref b /\ p_type b' = p_type b /\ p_eb b' = p_eb b.

(** The pbufs [l] stored at their addresses. *)
Definition sets (l : list (Z * pbuf)) (m : gmap Z pbuf) : gmap Z pbuf := foldl (fun m x => <[fst x := snd x]> m) m l.

Lemma sets_snoc l x m : sets (l ++ [x]) m = <[fst x := snd x]> (sets l m).
Proof. unfold sets. by rewrite foldl_app. Qed.

Lemma sets_lookup_ne l m a : a ∉ fst <$> l -> sets l m !! a = m !! a.
Proof.
  revert m. induction l as [|[x b] l IH]; intros m; [done|]. cbn. intros [Hne Ha]%not_elem_of_cons. change (sets l (<[x := b]> m) !! a = m !! a).
  rewrite IH by done. by apply lookup_insert_ne.
Qed.

Lemma sets_lookup l m a b : NoDup (fst <$> l) -> (a, b) ∈ l -> sets l m !! a = Some b.
Proof.
  revert m. induction l as [|[x c] l IH]; intros m Hnd Hin; [by apply elem_of_nil in Hin|]. cbn in Hnd. apply NoDup_cons in Hnd as [Hx Hnd].
  change (sets l (<[x := c]> m) !! a = Some b). apply elem_of_cons in Hin as [E|Hin]; [|by apply IH]. injection E as -> ->.
  rewrite sets_lookup_ne by done. apply lookup_insert_eq.
Qed.

(** The [next] fields of [l] lead from one to the next, and to [q] at the end. *)
Fixpoint chained (l : list (Z * pbuf)) (q : Z) : Prop :=
  match l with
  | [] => True
  | (a, b) :: l => a <> 0 /\ p_next b = match l with [] => q | (c, _) :: _ => c end /\ chained l q
  end.

Lemma chain_chained m p l : chain m p l -> chained l 0.
Proof. revert p. induction l as [|[a b] l IH]; intros p; [done|]. intros (_ & Ha & _ & H). split; [done|]. split; [|by eapply IH]. apply chain_head in H. rewrite H. by destruct l as [|[? ?] ?]. Qed.

(** The chain that results from storing at addresses in order. *)
Lemma sets_chain l m k : NoDup (fst <$> l) -> fst <$> l ## fst <$> k -> chained l (front k) -> chain m (front k) k -> chain (sets l m) (front (l ++ k)) (l ++ k).
Proof.
  intros Hnd Hd Hl Hk. assert (forall l1 l2, l = l1 ++ l2 -> chained l2 (front k) -> chain (sets l m) (front (l2 ++ k)) (l2 ++ k)) as H; [|by apply (H [])].
  clear Hl. intros l1 l2. revert l1. induction l2 as [|[a b] l2 IH]; intros l1 E Hl.
  - cbn. eapply chain_ext; [|exact Hk]. intros a b Hin. apply sets_lookup_ne. intros Hin2. apply (Hd _ Hin2). apply list_elem_of_fmap. by exists (a, b).
  - destruct Hl as (Ha & Hn & Hl). cbn. split; [done|]. split; [done|]. split; [apply sets_lookup; [done|]; rewrite E; apply elem_of_app; right; left|].
    assert (p_next b = front (l2 ++ k)) as -> by (rewrite Hn; by destruct l2 as [|[? ?] ?]). apply (IH (l1 ++ [(a, b)])); [by rewrite <- app_assoc|done].
Qed.

(** With [tot_len] increased by [n]. *)
Definition lengthened (n : Z) (x : Z * pbuf) : Z * pbuf := (fst x, set_tot_len (p_tot_len (snd x) + n) (snd x)).

Lemma chain_suffix m p l k : chain m p (l ++ k) -> chain m (front k) k.
Proof. destruct k as [|x k]; [done|]. intros H. apply chain_drop in H. by destruct x. Qed.

Lemma in_fst (l : list (Z * pbuf)) a b : (a, b) ∈ l -> a ∈ fst <$> l.
Proof. intros H. apply list_elem_of_fmap. by exists (a, b). Qed.

Lemma lengthened_fst n (l : list (Z * pbuf)) : fst <$> (lengthened n <$> l) = fst <$> l.
Proof. induction l as [|x l IH]; [done|]. cbn. by f_equal. Qed.

Section ops.
Context `{heap : LwipHeap}.

Lemma wp_upd_good R s p b f (Q : unit -> lwip -> Prop) : good R s -> pbufs s !! p = Some b -> alike b (f b) ->
  (good R (set_pbufs (<[p := f b]> (pbufs s)) s) -> links (<[p := f b]> (pbufs s)) = links (pbufs s) -> Q tt (set_pbufs (<[p := f b]> (pbufs s)) s)) -> wp (upd p f) Q s.
Proof.
  intros [Hc Hm] Hb (E1 & E2 & E3 & E4) HQ. apply (wp_upd _ _ b); [done|]. apply HQ; [|by apply (links_insert_same _ _ b)]. split; [eapply counted_update; [done..|rewrite E3, E4; by eapply ct_eb]|by eapply mem_ok_upd].
Qed.

Lemma pbuf_ref_ok R s p b (Q : unit -> lwip -> Prop) : good R s -> pbufs s !! p = Some b -> zlen R + links (pbufs s) < 65535 ->
  (forall s', s' = set_pbufs (<[p := set_ref (p_ref b + 1) b]> (pbufs s)) s -> good (p :: R) s' -> Q tt s') -> wp (pbuf_ref p) Q s.
Proof.
  intros [Hc Hm] Hb Hs HQ. destruct (ct_ref _ _ Hc _ _ Hb) as (Hp & _). unfold pbuf_ref. destruct (p =? 0) eqn:E; bools; [done|].
  apply (wp_upd _ _ b); [done|]. apply HQ; [done|]. split; [by apply counted_ref|by eapply mem_ok_upd].
Qed.

(** ** Concatenation *)

(** What [pbuf_cat] makes of the pbufs of the head: [n] is the length of the tail [t]. *)
Fixpoint joined (t n : Z) (l : list (Z * pbuf)) : list (Z * pbuf) :=
  match l with
  | [] => []
  | (a, b) :: l =>
      let b := set_tot_len (p_tot_len b + n) b in
      match l with [] => [(a, set_next t b)] | _ => (a, b) :: joined t n l end
  end.

Lemma joined_fst t n l : fst <$> joined t n l = fst <$> l.
Proof. induction l as [|[a b] [|[c d] l] IH]; [done|done|]. cbn [joined] in *. cbn. f_equal. exact IH. Qed.

Lemma joined_snoc t n l a b : joined t n (l ++ [(a, b)]) = (lengthened n <$> l) ++ [(a, set_next t (set_tot_len (p_tot_len b + n) b))].
Proof.
  induction l as [|[c d] l IH]; [done|]. cbn [app joined fmap list_fmap]. rewrite IH. destruct l as [|[? ?] ?]; done.
Qed.

Lemma joined_chained t n l : chained l 0 -> chained (joined t n l) t.
Proof.
  induction l as [|[a b] [|[c d] l] IH]; [done|by intros (? & _)|]. intros (Ha & Hn & Hl). specialize (IH Hl). cbn [joined] in *. split; [done|]. split; [|exact IH].
  cbn [set_tot_len p_next]. rewrite Hn. by destruct l as [|[? ?] ?].
Qed.

Lemma cat_loop_ok R s h t lh x lt (Q : Z -> lwip -> Prop) fuel b : good R s -> chain (pbufs s) h (lh ++ [x]) -> chain (pbufs s) t lt -> pbufs s !! t = Some b ->
  fst <$> (lh ++ [x]) ## fst <$> lt -> (length lh < fuel)%nat ->
  (forall s', s' = set_pbufs (sets (lengthened (p_tot_len b) <$> lh) (pbufs s)) s -> good R s' -> links (pbufs s') = links (pbufs s) -> Q (fst x) s') -> wp (until fuel (cat_body t) h) Q s.
Proof.
  intros Hg Hh Ht Hb Hd Hfuel HQ. pose proof (chain_nodup _ _ _ Hh) as Hnd.
  assert (t ∈ fst <$> lt) as Htin. { destruct lt as [|[y d] lt]; [|destruct Ht as (-> & _); cbn; left]. cbn in Ht. subst t. destruct (ct_ref _ _ (proj1 Hg) _ _ Hb) as (? & _). done. }
  apply (wp_until (fun n p s' => exists l1 l2, lh = l1 ++ l2 /\ n = length l2 /\ p = front (l2 ++ [x]) /\ s' = set_pbufs (sets (lengthened (p_tot_len b) <$> l1) (pbufs s)) s /\ good R s' /\
    links (pbufs s') = links (pbufs s)) _ _ _ (length lh)); [|done|].
  - clear Hfuel. intros n p s' (l1 & l2 & -> & -> & -> & -> & Hg' & Hlk'). unfold cat_body.
    assert (forall y c, (y, c) ∈ l2 ++ [x] -> sets (lengthened (p_tot_len b) <$> l1) (pbufs s) !! y = Some c) as Hlk.
    { intros y c Hin. rewrite sets_lookup_ne; [eapply (chain_lookup _ _ _ y c Hh); rewrite <- app_assoc; apply elem_of_app; by right|].
      rewrite <- app_assoc, fmap_app in Hnd. apply list.NoDup_app in Hnd as (_ & Hdj & _). intros Hin2. apply (Hdj y).
      - by rewrite <- list_fmap_compose in Hin2.
      - apply list_elem_of_fmap. by exists (y, c). }
    assert (forall y c, (y, c) ∈ l2 ++ [x] -> y <> t) as Hnt.
    { intros y c Hin ->. apply (Hd t); [|done]. apply (in_fst _ _ c). rewrite <- app_assoc. apply elem_of_app. by right. }
    rewrite <- app_assoc in Hh. apply chain_suffix in Hh as Hk. destruct l2 as [|[y c] l2].
    + destruct x as [y c]. destruct Hk as (_ & _ & _ & Hn). cbn in Hn. cbn [app front]. apply wp_bind, (wp_ld _ c); [apply Hlk; left|]. rewrite Hn. cbn [Z.eqb].
      apply wp_ret. rewrite app_nil_r in HQ. by eapply HQ.
    + destruct Hk as (_ & _ & _ & Hn). cbn [app front]. apply wp_bind, (wp_ld _ c); [apply Hlk; left|].
      destruct (p_next c =? 0) eqn:E; bools; [exfalso; rewrite E in Hn; apply chain_null in Hn; by destruct l2|].
      apply wp_bind, (wp_ld _ b).
      { cbn [set_pbufs pbufs]. rewrite sets_lookup_ne; [done|]. rewrite lengthened_fst. intros Hin. apply (Hd t); [|done]. rewrite !fmap_app, !elem_of_app. by left; left. }
      apply wp_bind. eapply (wp_upd_good R _ y c); [exact Hg'|apply Hlk; left|done|]. intros Hg2 Hl2. apply wp_ret. exists (length l2). split; [cbn; lia|].
      exists (l1 ++ [(y, c)]), l2. rewrite <- app_assoc. split; [done|]. split; [done|]. split; [by eapply chain_head|].
      match type of Hg2 with good _ ?s1 => match goal with |- ?s2 = _ /\ _ => change s2 with s1 end end. split; [|split; [done|cbn [set_pbufs pbufs] in *; congruence]]. rewrite fmap_app. cbn [fmap list_fmap]. rewrite sets_snoc. done.
  - exists [], lh. split_and!; [done|done|by eapply chain_head|by destruct s|by destruct s|by destruct s].
Qed.

(** [pbuf_cat] takes the caller's reference to the tail. *)
Lemma pbuf_cat_ok R s h t lh lt b (Q : unit -> lwip -> Prop) : good (t :: R) s -> chain (pbufs s) h lh -> h <> 0 -> chain (pbufs s) t lt -> pbufs s !! t = Some b ->
  fst <$> lh ## fst <$> lt ->
  (forall s', s' = set_pbufs (sets (joined t (p_tot_len b) lh) (pbufs s)) s -> good R s' -> chain (pbufs s') h (joined t (p_tot_len b) lh ++ lt) -> links (pbufs s') = links (pbufs s) + 1 -> Q tt s') -> wp (pbuf_cat h t) Q s.
Proof.
  intros Hg Hh Hh0 Ht Hb Hd HQ. destruct (counted_lookup _ _ _ (proj1 Hg)) as [Ht0 _]. unfold pbuf_cat.
  destruct (h =? 0) eqn:E1, (t =? 0) eqn:E2; bools; try done. cbn [orb]. unfold chain_fuel. apply wp_bind, wp_gets, wp_bind.
  pose proof (chain_nodup _ _ _ Hh) as Hnd. destruct lh as [|x lh _] using rev_ind; [by cbn in Hh|]. destruct x as [a c].
  eapply (cat_loop_ok _ s h t lh (a, c) lt); [done..| |]; [pose proof (chain_size _ _ _ Hh) as Hsz; rewrite length_app in Hsz; cbn in Hsz; lia|]. intros s' Es' Hg' Hl'. cbn [fst].
  pose proof (chain_suffix _ _ _ _ Hh) as Hx. destruct Hx as (_ & Ha0 & Hx & Hn). cbn in Hn.
  rewrite fmap_app in Hnd, Hd. apply list.NoDup_app in Hnd as Hnd'. destruct Hnd' as (_ & Hdj & _).
  assert (t ∈ fst <$> lt) as Htin by (destruct lt as [|[y d] lt]; [by cbn in Ht|]; destruct Ht as (-> & _); cbn; left).
  assert (a ∉ fst <$> lh) as Hal by (intros Hin; apply (Hdj _ Hin); cbn; left).
  assert (pbufs s' !! a = Some c) as Ha. { rewrite Es'. cbn. rewrite sets_lookup_ne; [done|]. by rewrite lengthened_fst. }
  assert (pbufs s' !! t = Some b) as Htb. { rewrite Es'. cbn. rewrite sets_lookup_ne; [done|]. rewrite lengthened_fst. intros Hin. apply (Hd t); [|done]. apply elem_of_app. by left. }
  apply wp_bind, (wp_ld _ _ _ _ Htb). apply wp_bind. eapply (wp_upd_good _ _ a c); [exact Hg'|exact Ha|done|]. intros Hg2 Hl2.
  set (c2 := set_tot_len (p_tot_len c + p_tot_len b) c) in *. set (s2 := set_pbufs _ s') in *.
  assert (pbufs s2 !! a = Some c2) as Ha2 by (cbn; apply lookup_insert_eq).
  assert (chain (pbufs s2) t lt) as Hlt.
  { eapply chain_ext; [|exact Ht]. intros y d Hin%in_fst. unfold s2. cbn. rewrite lookup_insert_ne by (intros <-; apply (Hd a); [apply elem_of_app; right; cbn; left|done]).
    rewrite Es'. cbn. apply sets_lookup_ne. rewrite lengthened_fst. intros Hin2. apply (Hd y); [apply elem_of_app; by left|done]. }
  assert (a ∉ fst <$> lt) as Halt by (intros Hin; apply (Hd a); [apply elem_of_app; right; cbn; left|done]).
  apply (wp_upd _ _ c2); [done|]. apply HQ.
  - unfold s2. rewrite joined_snoc, sets_snoc, Es'. cbn. by rewrite insert_insert_eq.
  - split; [|eapply mem_ok_upd; [apply Hg2|done]]. cbn [set_pbufs pbufs]. eapply counted_link; [apply Hg2|exact Ha2|done|exact Hlt|done].
  - cbn [set_pbufs pbufs]. change (pbufs s2) with (<[a := c2]> (pbufs s')). rewrite insert_insert_eq.
    assert (<[a := set_next t c2]> (pbufs s') = sets (joined t (p_tot_len b) (lh ++ [(a, c)])) (pbufs s)) as -> by (rewrite joined_snoc, sets_snoc, Es'; done).
    assert (h = front (joined t (p_tot_len b) (lh ++ [(a, c)]) ++ lt)) as E. { apply chain_head in Hh. rewrite Hh, joined_snoc. by destruct lh as [|[? ?] ?]. }
    assert (front lt = t) as Elt by (symmetry; by eapply chain_head).
    rewrite E at 1. apply sets_chain; rewrite ?joined_fst, ?fmap_app, ?Elt; [done|done|by eapply joined_chained, chain_chained|done].
  - cbn [set_pbufs pbufs] in *. unfold links at 1. rewrite (tally_insert _ _ _ c2) by done. fold (links (pbufs s2)). change (links (pbufs s2)) with (links (<[a := c2]> (pbufs s'))).
    rewrite Hl2, Hl'. cbn [set_next p_next c2 set_tot_len]. rewrite Hn. apply Z.eqb_neq in Ht0 as ->. cbn. lia.
Qed.

(** [pbuf_chain] leaves it with the caller. *)
Lemma pbuf_chain_ok R s h t lh lt b (Q : unit -> lwip -> Prop) : good (t :: R) s -> chain (pbufs s) h lh -> h <> 0 -> chain (pbufs s) t lt -> pbufs s !! t = Some b ->
  fst <$> lh ## fst <$> lt -> zlen R + links (pbufs s) < 65534 -> (forall s', good (t :: R) s' -> Q tt s') -> wp (pbuf_chain h t) Q s.
Proof.
  intros Hg Hh Hh0 Ht Hb Hd Hs HQ. unfold pbuf_chain. apply wp_bind. eapply pbuf_cat_ok; [done..|]. intros s' _ Hg' Hc Hl.
  destruct (counted_lookup _ _ _ (proj1 Hg)) as [Ht0 _]. pose proof (chain_suffix _ _ _ _ Hc) as Hlt. assert (front lt = t) as Elt by (symmetry; by eapply chain_head).
  destruct lt as [|[y d] lt]; [done|]. cbn [front] in *. subst y. destruct Hlt as (_ & _ & Hd' & _).
  eapply pbuf_ref_ok; [exact Hg'|exact Hd'|lia|]. intros s2 _ Hg2. by apply HQ.
Qed.

(** ** Trimming *)

(** The pbufs that stay when a chain is cut to [n] bytes, and the others. *)
Fixpoint trimmed (n : Z) (l : list (Z * pbuf)) : list (Z * pbuf) :=
  match l with
  | [] => []
  | (a, b) :: l => if p_len b <? n then (a, set_tot_len n b) :: trimmed (n - p_len b) l else [(a, set_next 0 (set_tot_len n (set_len n b)))]
  end.

Fixpoint cut (n : Z) (l : list (Z * pbuf)) : list (Z * pbuf) :=
  match l with
  | [] => []
  | (_, b) :: l => if p_len b <? n then cut (n - p_len b) l else l
  end.

Lemma trimmed_fst n l : exists k, fst <$> l = (fst <$> trimmed n l) ++ k /\ k = fst <$> cut n l.
Proof.
  exists (fst <$> cut n l). split; [|done]. revert n. induction l as [|[a b] l IH]; intros n; [done|]. cbn. destruct (p_len b <? n); cbn; [|done]. by rewrite <- IH.
Qed.

Lemma trimmed_chained n l : chained l 0 -> chained (trimmed n l) 0.
Proof.
  revert n. induction l as [|[a b] l IH]; intros n; [done|]. intros (Ha & Hn & Hl). cbn [trimmed]. destruct (p_len b <? n); [|done].
  split; [done|]. split; [|by apply IH]. cbn [set_tot_len p_next]. rewrite Hn. destruct l as [|[c d] l]; [done|]. cbn [trimmed]. by destruct (p_len d <? _).
Qed.

Lemma u16_grow x y : u16 (x + u16 y) = u16 (x + y).
Proof. unfold u16. by rewrite Z.add_mod_idemp_r. Qed.

Lemma realloc_loop_ok R s p l n grow (Q : Z * Z -> lwip -> Prop) fuel : good R s -> linked s p l -> 0 <= n < total l -> grow = n - total l -> (length l < fuel)%nat ->
  (forall s' l1 q b k rem, l = l1 ++ (q, b) :: k -> cut n l = k -> trimmed n l = (lengthened (u16 grow) <$> l1) ++ [(q, set_next 0 (set_tot_len rem (set_len rem b)))] ->
    0 <= rem < 65536 -> s' = set_pbufs (sets (lengthened (u16 grow) <$> l1) (pbufs s)) s -> good R s' -> Q (rem, q) s') -> wp (until fuel (realloc_body grow) (n, p)) Q s.
Proof.
  intros Hg Hp Hn Hgr Hfuel HQ. pose proof (chain_nodup _ _ _ (proj1 Hp)) as Hnd.
  apply (wp_until (fun m x s' => exists l1 k rem, l = l1 ++ k /\ m = length k /\ x = (rem, front k) /\ linked s (front k) k /\ 0 <= rem < total k /\ rem - total k = grow /\
    trimmed n l = (lengthened (u16 grow) <$> l1) ++ trimmed rem k /\ cut n l = cut rem k /\ s' = set_pbufs (sets (lengthened (u16 grow) <$> l1) (pbufs s)) s /\ good R s') _ _ _ (length l)); [|done|].
  - clear Hfuel. intros m x s' (l1 & k & rem & E & -> & -> & Hk & Hr & Hgr2 & Et & Ec & -> & Hg'). unfold realloc_body. destruct k as [|[q b] k]; [cbn in Hr; lia|]. cbn [front] in *.
    apply linked_tail in Hk as Hk'. destruct Hk' as (_ & Hq & Hb & Hlb & Htl & Hnn & Htt & Hk2). cbn [total trimmed cut] in *.
    assert (sets (lengthened (u16 grow) <$> l1) (pbufs s) !! q = Some b) as Hqs.
    { rewrite sets_lookup_ne; [done|]. rewrite lengthened_fst. intros Hin. rewrite E, fmap_app in Hnd. apply list.NoDup_app in Hnd as (_ & Hdj & _). apply (Hdj _ Hin). cbn. left. }
    apply wp_bind, (wp_ld _ b); [done|]. destruct (p_len b <? rem) eqn:E1; bools.
    + apply wp_bind. eapply (wp_upd_good R _ q b); [exact Hg'|exact Hqs|done|]. intros Hg2 _. apply wp_ret. rewrite u16_small by lia. exists (length k). split; [cbn; lia|].
      assert (p_next b = front k) as Hnx by (eapply chain_head; by destruct Hk2). rewrite Hnx in *.
      exists (l1 ++ [(q, b)]), k, (rem - p_len b). rewrite <- app_assoc, fmap_app. cbn [fmap list_fmap].
      split; [done|]. split; [done|]. split; [done|]. split; [done|]. split; [lia|]. split; [lia|]. split.
      { rewrite <- app_assoc. cbn [app]. rewrite Et. do 2 f_equal. unfold lengthened. cbn [fst snd]. f_equal. unfold set_tot_len. f_equal. rewrite u16_grow. f_equal. lia. }
      split; [done|]. match type of Hg2 with good _ ?s1 => match goal with |- ?s2 = _ /\ _ => change s2 with s1 end end. split; [|done]. rewrite sets_snoc. done.
    + apply wp_ret. by eapply HQ; [| | |lia| |].
  - exists [], l, n. assert (p = front l) as <- by (eapply chain_head; by destruct Hp). split_and!; try done; try lia; by destruct s.
Qed.

(** [pbuf_realloc] keeps the first [n] bytes and frees what is behind. *)
Lemma pbuf_realloc_ok R s p l n (Q : unit -> lwip -> Prop) : good R s -> linked s p l -> p <> 0 -> 0 <= n < total l ->
  (forall s' k1 k2, good R s' -> kept s s' -> cut n l = k1 ++ k2 -> Forall sole k1 -> match k2 with (_, b) :: _ => 1 < p_ref b | [] => True end ->
     pbufs s' = unref_head k2 (without k1 (sets (trimmed n l) (pbufs s))) -> Q tt s') -> wp (pbuf_realloc p n) Q s.
Proof.
  intros Hg Hp Hp0 Hn HQ. unfold pbuf_realloc. destruct l as [|[a b] l]; [cbn in Hn; lia|]. apply linked_tail in Hp as Hp'. destruct Hp' as (-> & _ & Hb & Hlb & Htl & Hnn & Htt & _).
  apply wp_bind, (wp_ld _ b); [done|]. cbn [total] in Hn. destruct (p_tot_len b <=? n) eqn:E; bools; [lia|].
  unfold chain_fuel. apply wp_bind, wp_gets, wp_bind. eapply (realloc_loop_ok R s a ((a, b) :: l)); [done|done|done|cbn; lia|by eapply linked_fuel|].
  assert (chained ((a, b) :: l) 0) as Hch by (eapply chain_chained; by destruct Hp). pose proof (chain_nodup _ _ _ (proj1 Hp)) as Hnd. clear Hlb Htl Hnn Htt E.
  set (L := (a, b) :: l) in *. clearbody L. intros s' l1 q c k rem -> Ec Et Hrem Es' Hg'. cbn beta iota zeta.
  pose proof (chain_suffix _ _ _ _ (proj1 Hp)) as Hk. rewrite fmap_app in Hnd. apply list.NoDup_app in Hnd as (_ & Hdj & Hnd2). cbn [fmap list_fmap fst] in Hdj, Hnd2. apply NoDup_cons in Hnd2 as [Hqk _].
  destruct Hk as (_ & Hq & Hqs & Hkn).
  assert (forall y d, (y, d) ∈ (q, c) :: k -> pbufs s' !! y = pbufs s !! y) as Hsame.
  { intros y d Hin%in_fst. rewrite Es'. cbn [set_pbufs pbufs]. apply sets_lookup_ne. rewrite lengthened_fst. intros Hin2. by apply (Hdj _ Hin2). }
  assert (pbufs s' !! q = Some c) as Hqc by (rewrite (Hsame q c) by left; done).
  apply wp_bind. eapply (wp_upd_good _ _ q c); [exact Hg'|exact Hqc|done|]. intros Hg2 _. apply wp_bind.
  eapply (wp_upd_good _ _ q (set_len rem c)); [exact Hg2|cbn; apply lookup_insert_eq|done|]. cbn [set_pbufs pbufs]. rewrite insert_insert_eq. intros Hg3 _.
  cbn [set_len p_len] in *. rewrite (u16_small rem) in * by lia. 
  set (c3 := set_tot_len rem _) in *. set (s3 := set_pbufs (<[q := c3]> _) _) in *. assert (pbufs s3 !! q = Some c3) as Hq3 by (cbn; apply lookup_insert_eq).
  assert (<[q := set_next 0 c3]> (pbufs s3) = sets (trimmed n (l1 ++ (q, c) :: k)) (pbufs s)) as Em by (cbn; rewrite insert_insert_eq, Et, sets_snoc, Es'; done).
  assert (kept s s3) as Hkp by (subst s'; by apply kept_same). destruct Hg3 as [Hc3 Hm3].
  apply wp_bind, (wp_ld _ _ _ _ Hq3). change (p_next c3) with (p_next c). destruct (p_next c =? 0) eqn:E0; bools; cbn [negb]; apply wp_bind.
  - apply wp_ret. rewrite E0 in Hkn. apply chain_null in Hkn as ->. apply (wp_upd _ _ c3); [done|]. eapply (HQ _ [] []); [split|by eapply kept_trans; [|apply kept_same]|by rewrite Ec|done|done|exact Em].
    + eapply counted_update; [exact Hc3|exact Hq3|by symmetry|done|exact (ct_eb _ _ Hc3 q c3 Hq3)].
    + by eapply mem_ok_upd.
  - apply wp_bind. pose proof (counted_unlink _ _ _ _ Hc3 Hq3 E0) as Hcu. change (p_next c3) with (p_next c) in Hcu. rewrite Em in Hcu.
    eapply (pbuf_free_gen s3 (p_next c) k R (sets (trimmed n (l1 ++ (q, c) :: k)) (pbufs s)) (Some (q, c3))); [|rewrite <- Em; apply chain_avoid; [|done]|done|exact Hcu|exact Hm3|].
    + rewrite <- Em. cbn [patch]. by rewrite insert_insert_eq, insert_id.
    + eapply chain_ext; [|exact Hkn]. intros y d Hin. cbn. rewrite lookup_insert_ne by (intros <-; by apply Hqk, (in_fst _ _ d)). apply (Hsame y d). by right.
    + intros k1 k2 s4 Ek Hs1 Hk2 Es4 Hc4 Hkp4 Hm4. apply wp_ret.
      assert (unref_head k2 (without k1 (sets (trimmed n (l1 ++ (q, c) :: k)) (pbufs s))) !! q = Some (set_next 0 c3)) as Hq4.
      { rewrite Ek, fmap_app, not_elem_of_app in Hqk. destruct Hqk as [Hq1 Hq2]. assert (unref_head k2 (without k1 (sets (trimmed n (l1 ++ (q, c) :: k)) (pbufs s))) !! q = without k1 (sets (trimmed n (l1 ++ (q, c) :: k)) (pbufs s)) !! q) as ->.
        { destruct k2 as [|[y d] k2]; [done|]. cbn. apply lookup_insert_ne. intros ->. apply Hq2. cbn. left. }
        rewrite without_lookup, <- Em by done. apply lookup_insert_eq. }
      assert (pbufs s4 !! q = Some c3) as Hqs4 by (rewrite Es4; cbn; apply lookup_insert_eq). apply (wp_upd _ _ c3); [done|].
      assert (<[q := set_next 0 c3]> (pbufs s4) = unref_head k2 (without k1 (sets (trimmed n (l1 ++ (q, c) :: k)) (pbufs s)))) as E4.
      { rewrite Es4. cbn [patch]. rewrite insert_insert_eq. by apply insert_id. }
      apply (HQ _ k1 k2); [split|by eapply kept_trans; [exact Hkp|eapply kept_trans; [exact Hkp4|apply kept_same]]|by rewrite Ec|done|done|exact E4].
      * cbn [set_pbufs pbufs]. by rewrite E4.
      * by eapply mem_ok_upd.
Qed.

(** ** Taking a chain apart *)

Lemma pbuf_dechain_ok R s p b (Q : Z -> lwip -> Prop) : good R s -> pbufs s !! p = Some b ->
  (p_next b = 0 -> Q 0 s) ->
  (forall c s' r, pbufs s !! p_next b = Some c -> good R s' -> kept s s' -> pbufs s' !! p = Some (set_tot_len (p_len b) (set_next 0 b)) ->
     1 < p_ref c /\ r = p_next b /\ pbufs s' !! r = Some (set_ref (p_ref c - 1) (set_tot_len (p_tot_len b - p_len b) c)) \/
     p_ref c = 1 /\ pbufs s' !! p_next b = None /\ (exists n, r = if 0 <? u8 n then 0 else p_next b) -> Q r s') -> wp (pbuf_dechain p) Q s.
Proof.
  intros Hg Hb HQ0 HQ1. unfold pbuf_dechain. apply wp_bind, (wp_ld _ b); [done|]. destruct (p_next b =? 0) eqn:E; bools; cbn [negb]; [apply wp_ret; by apply HQ0|].
  destruct (counted_next _ _ _ _ (proj1 Hg) Hb E) as [c Hc]. destruct (counted_tail _ _ _ _ (proj1 Hg) Hb) as (k & Hk & Hpk).
  assert (p_next b <> p) as Hne. { intros E2. destruct k as [|[y d] k]; [by cbn in Hk|]. destruct Hk as (<- & _). apply Hpk. cbn. rewrite E2. left. }
  apply wp_bind. eapply (wp_upd_good _ _ _ c); [exact Hg|exact Hc|done|]. intros Hg1 _. set (c1 := set_tot_len (p_tot_len b - p_len b) c) in *. set (s1 := set_pbufs _ s) in *.
  assert (pbufs s1 !! p = Some b) as Hb1 by (cbn; by rewrite lookup_insert_ne). destruct Hg1 as [Hc1 Hm1].
  apply wp_bind, (wp_upd _ _ b); [done|]. set (s2 := set_pbufs _ s1) in *. pose proof (counted_unlink _ _ _ _ Hc1 Hb1 E) as Hc2.
  assert (good (p_next b :: R) s2) as Hg2 by (split; [exact Hc2|by eapply mem_ok_upd]). assert (pbufs s2 !! p = Some (set_next 0 b)) as Hb2 by (cbn; apply lookup_insert_eq).
  apply wp_bind. eapply (wp_upd_good _ _ _ (set_next 0 b)); [exact Hg2|exact Hb2|done|]. intros Hg3 _. set (s3 := set_pbufs _ s2) in *. destruct Hg3 as [Hc3 Hm3].
  assert (pbufs s3 !! p_next b = Some c1) as Hc3' by (cbn; rewrite insert_insert_eq, lookup_insert_ne, lookup_insert_eq; done).
  destruct k as [|[y d] k]; [by cbn in Hk|]. pose proof (chain_nodup _ _ _ Hk) as Hnd. destruct Hk as (<- & Hy & Hd & Hk). assert (d = c) as -> by congruence.
  cbn [fmap list_fmap fst] in Hnd, Hpk. apply NoDup_cons in Hnd as [Hqk _]. apply not_elem_of_cons in Hpk as [_ Hpk].
  assert (chain (pbufs s3) (p_next b) ((p_next b, c1) :: k)) as Hk3.
  { cbn [chain]. split; [done|]. split; [done|]. split; [done|]. by do 3 (apply chain_avoid; [|done]). }
  apply wp_bind. eapply pbuf_free_ok; [exact Hk3|exact Hc3|exact Hm3|]. intros k1 k2 s4 Ek Hs1 Hk2 Es4 Hc4 Hkp Hm4. apply wp_ret.
  assert (p ∉ fst <$> (p_next b, c1) :: k) as Hp3 by (cbn; by rewrite not_elem_of_cons). rewrite Ek, fmap_app, not_elem_of_app in Hp3. destruct Hp3 as [Hp1 Hp2].
  eapply HQ1; [exact Hc|by split|eapply kept_trans; [|exact Hkp]; by apply kept_same| |].
  - assert (pbufs s4 !! p = without k1 (pbufs s3) !! p) as ->.
    { rewrite Es4. destruct k2 as [|[y d] k2]; [done|]. cbn. apply lookup_insert_ne. intros ->. apply Hp2. cbn. left. }
    rewrite without_lookup by done. cbn. by rewrite lookup_insert_eq.
  - destruct k1 as [|[y d] k1]; cbn [app] in Ek.
    + left. subst k2. cbn in Hk2. split; [done|]. split; [done|]. rewrite Es4. cbn. apply lookup_insert_eq.
    + right. injection Ek as <- <- Ek. apply list.Forall_cons in Hs1 as [Hs1 _]. split; [exact Hs1|]. split; [|by eexists].
      rewrite Es4. assert ((p_next b ∉ fst <$> k1) /\ p_next b ∉ fst <$> k2) as [Hq1 Hq2] by (rewrite Ek, fmap_app, not_elem_of_app in Hqk; done).
      destruct k2 as [|[y d] k2]; cbn [unref_head]; [|rewrite lookup_insert_ne by (intros ->; apply Hq2; cbn; left)];
        change (without k1 (delete (p_next b) (pbufs s3)) !! p_next b = None); rewrite without_lookup by done; apply lookup_delete_eq.
Qed.

(** ** Headers *)

Definition moved (inc : Z) (b : pbuf) : pbuf := set_tot_len (p_tot_len b + inc) (set_len (p_len b + inc) (set_payload (p_payload b - inc) b)).

Lemma pbuf_header_ok R s p b inc force (Q : Z -> lwip -> Prop) : good R s -> pbufs s !! p = Some b ->
  Q (if inc =? 0 then 0 else 1) s -> (inc <> 0 -> good R (set_pbufs (<[p := moved inc b]> (pbufs s)) s) -> Q 0 (set_pbufs (<[p := moved inc b]> (pbufs s)) s)) -> wp (pbuf_header_impl p inc force) Q s.
Proof.
  intros Hg Hb HQ1 HQ2. destruct (ct_ref _ _ (proj1 Hg) _ _ Hb) as (Hp & _). unfold pbuf_header_impl. destruct (p =? 0) eqn:E; bools; [done|]. rewrite orb_false_r.
  destruct (inc =? 0) eqn:E1; bools; [by apply wp_ret|]. apply wp_bind, (wp_ld _ b); [done|].
  assert (forall f, f b = moved inc b -> wp (upd p f;; mret 0) Q s) as Hupd.
  { intros f Ef. apply wp_bind. eapply (wp_upd_good _ _ _ b); [exact Hg|exact Hb|by rewrite Ef|]. rewrite Ef. intros Hg2 _. apply wp_ret. by apply HQ2. }
  repeat match goal with |- wp (if ?b then _ else _) _ _ => destruct b end; first [by apply wp_ret|by apply Hupd].
Qed.

(** ** Allocation *)

(** From [s] to [s'] nothing of what was there changes. *)
Record grown (s s' : lwip) : Prop := {
  gr_pbufs : forall a b, pbufs s !! a = Some b -> pbufs s' !! a = Some b;
  gr_bytes : forall x, is_Some (bytes s !! x) -> bytes s' !! x = bytes s !! x;
  gr_blocks : forall a n, blocks s !! a = Some n -> blocks s' !! a = Some n
}.

Lemma grown_refl s : grown s s.
Proof. by split. Qed.

Lemma grown_trans s s1 s2 : grown s s1 -> grown s1 s2 -> grown s s2.
Proof.
  intros [A1 A2 A3] [B1 B2 B3]. split; [auto| |auto]. intros x Hx. rewrite B2; [by apply A2|]. by rewrite A2.
Qed.

Lemma grown_same s s' : pbufs s' = pbufs s -> bytes s' = bytes s -> blocks s' = blocks s -> grown s s'.
Proof. intros E1 E2 E3. split; intros *; by rewrite ?E1, ?E2, ?E3. Qed.

Lemma allocated_grown s s' a n b : allocated s s' a n b -> grown s s'.
Proof.
  intros H. split.
  - intros c d Hc. rewrite (al_pbufs _ _ _ _ _ H), lookup_insert_ne; [done|]. intros <-. pose proof (al_new _ _ _ _ _ H). congruence.
  - intros x Hx. apply (al_old _ _ _ _ _ H). intros Hr. rewrite (al_fresh _ _ _ _ _ H x Hr) in Hx. by destruct Hx.
  - intros c k Hc. rewrite (al_blocks _ _ _ _ _ H), lookup_insert_ne; [done|]. intros <-. pose proof (al_bnew _ _ _ _ _ H). congruence.
Qed.

(** The pbufs [l] and the memory they point to are new. *)
Record fresh (s s' : lwip) (l : list (Z * pbuf)) : Prop := {
  fs_grown : grown s s';
  fs_new : forall a, a ∈ fst <$> l -> pbufs s !! a = None;
  fs_addrs : forall x, x ∈ addrs l -> bytes s !! x = None /\ is_Some (bytes s' !! x);
  fs_nodup : NoDup (addrs l);
  fs_place : forall a b, (a, b) ∈ l -> exists n, blocks s' !! a = Some n /\ forall x, x ∈ area b -> a <= x < a + n
}.

Lemma addrs_app l k : addrs (l ++ k) = addrs l ++ addrs k.
Proof. induction l as [|[a b] l IH]; [done|]. cbn. by rewrite IH, app_assoc. Qed.

Lemma total_app l k : total (l ++ k) = total l + total k.
Proof. induction l as [|[a b] l IH]; [done|]. cbn. lia. Qed.

Lemma fresh_nil s : fresh s s [].
Proof. split; [apply grown_refl|by intros ? ?%elem_of_nil|by intros ? ?%elem_of_nil|constructor|by intros ? ? ?%elem_of_nil]. Qed.

(** The same pbufs, up to [next]. *)
Definition placed_like (l l' : list (Z * pbuf)) : Prop := Forall2 (fun x y => fst y = fst x /\ area (snd y) = area (snd x)) l l'.

Lemma placed_like_fst l l' : placed_like l l' -> fst <$> l' = fst <$> l.
Proof. induction 1 as [|x y l l' [E _] _ IH]; [done|]. cbn. by rewrite E, IH. Qed.

Lemma placed_like_addrs l l' : placed_like l l' -> addrs l' = addrs l.
Proof. induction 1 as [|[? ?] [? ?] l l' [_ E] _ IH]; [done|]. cbn in *. by rewrite E, IH. Qed.

(** One more pbuf, with its payload in its own block. *)
Lemma fresh_snoc s s1 s2 l a n b l' : fresh s s1 l -> allocated s1 s2 a n b -> a + SIZEOF_STRUCT_PBUF <= p_payload b -> p_payload b + p_len b <= a + n -> placed_like l l' ->
  fresh s s2 (l' ++ [(a, b)]).
Proof.
  intros [Hg Hn Ha Hd Hpl] Hal Hp1 Hp2 Hl. pose proof (placed_like_fst _ _ Hl) as Ef. pose proof (placed_like_addrs _ _ Hl) as Ea. change SIZEOF_STRUCT_PBUF with 20 in *. split.
  - eapply grown_trans; [exact Hg|by eapply allocated_grown].
  - intros x. rewrite fmap_app, Ef. intros [Hx|Hx]%elem_of_app; [by apply Hn|]. cbn in Hx. apply list_elem_of_singleton in Hx as ->.
    destruct (pbufs s !! a) as [d|] eqn:E; [|done]. apply (gr_pbufs _ _ Hg) in E. pose proof (al_new _ _ _ _ _ Hal). congruence.
  - intros x. rewrite addrs_app, Ea. intros [Hx|Hx]%elem_of_app.
    + destruct (Ha x Hx) as [H1 H2]. split; [done|]. by rewrite (gr_bytes _ _ (allocated_grown _ _ _ _ _ Hal) x H2).
    + cbn in Hx. rewrite app_nil_r in Hx. apply elem_of_seqZ in Hx. split; [|apply (al_bytes _ _ _ _ _ Hal); change SIZEOF_STRUCT_PBUF with 20; lia].
      destruct (bytes s !! x) as [v|] eqn:E; [|done]. rewrite <- (gr_bytes _ _ Hg x) in E by done. rewrite (al_fresh _ _ _ _ _ Hal x) in E by lia. done.
  - rewrite addrs_app, Ea. apply list.NoDup_app. split; [done|]. split; [|cbn; rewrite app_nil_r; apply NoDup_seqZ].
    intros x Hx Hx2. cbn in Hx2. rewrite app_nil_r in Hx2. apply elem_of_seqZ in Hx2. destruct (Ha x Hx) as [_ [v H2]]. rewrite (al_fresh _ _ _ _ _ Hal x) in H2 by lia. done.
  - intros c d [Hin|Hin]%elem_of_app.
    + apply list_elem_of_lookup in Hin as [i Hi]. destruct (Forall2_lookup_r _ _ _ _ _ Hl Hi) as ([c' d'] & Hi' & E1 & E2). cbn in E1, E2. subst c'.
      destruct (Hpl c d') as (k & Hk & Hr); [by eapply list_elem_of_lookup_2|]. exists k. rewrite E2. split; [|done]. by apply (gr_blocks _ _ (allocated_grown _ _ _ _ _ Hal)).
    + apply list_elem_of_singleton in Hin as [= -> ->]. exists n. rewrite (al_blocks _ _ _ _ _ Hal), lookup_insert_eq. split; [done|]. intros x Hx. apply elem_of_seqZ in Hx. lia.
Qed.

(** [tot_len] counts the rest of the chain and [rem] bytes that are still missing. *)
Fixpoint tot_rem (l : list (Z * pbuf)) (rem : Z) : Prop :=
  match l with
  | [] => True
  | (a, b) :: l' => p_tot_len b = total l + rem /\ tot_rem l' rem
  end.

Lemma tot_rem_ok l : tot_rem l 0 -> tot_ok l.
Proof. induction l as [|[a b] l IH]; [done|]. cbn. intros [E H]. split; [lia|by apply IH]. Qed.

Lemma tot_rem_snoc l l' rem n a b : tot_rem l rem -> Forall2 (fun x y => p_tot_len (snd y) = p_tot_len (snd x) /\ p_len (snd y) = p_len (snd x)) l l' -> p_len b = n -> p_tot_len b = rem -> tot_rem (l' ++ [(a, b)]) (rem - n).
Proof.
  intros H HF En Et. induction HF as [|[x c] [y d] l l' [E1 E2] HF IH]; [cbn; split; [lia|done]|]. cbn [snd tot_rem total app] in *. destruct H as [E H]. split; [|by apply IH].
  rewrite total_app. cbn [total]. assert (total l' = total l) as ->; [|lia]. clear -HF. induction HF as [|[x c] [y d] l l' [E1 E2] HF IH]; [done|]. cbn [total snd] in *. lia.
Qed.

Lemma pool_is_empty_ok R s (Q : unit -> lwip -> Prop) : good R s -> (forall s', pbufs s' = pbufs s -> bytes s' = bytes s -> blocks s' = blocks s -> good R s' -> Q tt s') -> wp pbuf_pool_is_empty Q s.
Proof.
  intros [Hc Hm] HQ. unfold pbuf_pool_is_empty. apply wp_bind, wp_gets, wp_bind, wp_modify.
  assert (forall s', pbufs s' = pbufs s -> bytes s' = bytes s -> blocks s' = blocks s -> llive (ltrace s') = llive (ltrace s) -> Q tt s') as HQ'.
  { intros s' E1 E2 E3 E4. apply HQ; [done..|]. split; [by rewrite E1|]. eapply mem_ok_same; [exact Hm|by rewrite E1|by rewrite E2|done|done]. }
  destruct (_ =? 0); [|by apply wp_ret, HQ']. apply wp_bind, wp_gets. apply wp_bind, wp_modify. destruct (negb _); [apply wp_modify|apply wp_ret]; apply HQ'; try done; cbn; by rewrite llive_snoc.
Qed.

Lemma fresh_same s s1 s2 l : fresh s s1 l -> pbufs s2 = pbufs s1 -> bytes s2 = bytes s1 -> blocks s2 = blocks s1 -> fresh s s2 l.
Proof. intros [Hg Hn Ha Hd Hp] E1 E2 E3. split; [by eapply grown_trans, grown_same|done|by rewrite E2|done|by rewrite E3]. Qed.

Lemma fresh_upd s s1 l l' a b : fresh s s1 l -> placed_like l l' -> a ∈ fst <$> l -> fresh s (set_pbufs (<[a := b]> (pbufs s1)) s1) l'.
Proof.
  intros [Hg Hn Ha Hd Hp] Hl Hin. pose proof (placed_like_fst _ _ Hl) as Ef. pose proof (placed_like_addrs _ _ Hl) as Ea. split; [|by rewrite Ef|by rewrite Ea|by rewrite Ea|].
  2:{ intros c d Hcd. apply list_elem_of_lookup in Hcd as [i Hi]. destruct (Forall2_lookup_r _ _ _ _ _ Hl Hi) as ([c' d'] & Hi' & E1 & E2). cbn in E1, E2. subst c'.
      rewrite E2. apply (Hp c d'). by eapply list_elem_of_lookup_2. }
  split; [|apply Hg..]. intros c d Hc. cbn. rewrite lookup_insert_ne; [by apply (gr_pbufs _ _ Hg)|].
  intros <-. apply Hn in Hin. congruence.
Qed.

Lemma chain_append m m' p l r b b' k : chain m p (l ++ [(r, b)]) -> (forall a c, (a, c) ∈ l -> m' !! a = m !! a) -> m' !! r = Some b' -> chain m' (p_next b') k -> chain m' p (l ++ (r, b') :: k).
Proof.
  revert p. induction l as [|[a c] l IH]; intros p.
  - cbn. intros (-> & Hr & _) _ Hb Hk. done.
  - intros (-> & Ha & Hc & H) Hs Hb Hk. cbn. split; [done|]. split; [done|]. split; [rewrite <- Hc; apply (Hs a c); left|]. apply IH; [done| |done|done]. intros a' c' Hin. apply (Hs a' c'). by right.
Qed.

(** A chain that has just been allocated is freed. *)
Lemma free_fresh_ok R s s1 p l (Q : Z -> lwip -> Prop) : mem_ok s -> good (p :: R) s1 -> chain (pbufs s1) p l -> Forall sole l -> fresh s s1 l ->
  (forall n s', good R s' -> grown s s' -> Q n s') -> wp (pbuf_free p) Q s1.
Proof.
  intros Hm [Hc1 Hm1] Hch Hs Hf HQ. eapply pbuf_free_ok; [exact Hch|exact Hc1|exact Hm1|]. intros k1 k2 s' -> Hs1 Hk2 Es' Hc' Hkp Hm'. apply HQ; [done|].
  assert (k2 = []) as ->. { destruct k2 as [|[a b] k2]; [done|]. apply list.Forall_app in Hs as [_ Hs]. apply list.Forall_cons in Hs as [Hs _]. unfold sole in Hs. cbn in *. lia. }
  rewrite app_nil_r in *. cbn [unref_head] in Es'. destruct Hf as [Hg Hn _ _ _].
  assert (forall a b, pbufs s !! a = Some b -> pbufs s' !! a = Some b) as Hp.
  { intros a b Ha. rewrite Es', without_lookup; [by apply (gr_pbufs _ _ Hg)|]. intros Hin. apply Hn in Hin. congruence. }
  assert (forall a n, blocks s !! a = Some n -> blocks s' !! a = Some n) as Hb.
  { intros a n Ha. destruct (proj2 (mo_pbufs _ Hm a)) as [b Hb]; [by eexists|]. apply Hp in Hb. destruct (proj1 (mo_pbufs _ Hm' a)) as [k Hk]; [by eexists|].
    pose proof (lookup_weaken _ _ _ _ Hk (kp_blocks _ _ Hkp)) as Hk1. apply (gr_blocks _ _ Hg) in Ha. congruence. }
  split; [done| |done]. intros x Hx. rewrite <- (gr_bytes _ _ Hg x Hx). destruct (decide (heap_lo <= x < heap_hi)) as [Hr|Hr]; [|by apply (kp_outside _ _ Hkp)].
  destruct (mo_bytes _ Hm x Hx Hr) as (a & n & Ha & Hxr). apply (kp_live _ _ Hkp a n); [by apply Hb|]. change SIZEOF_STRUCT_PBUF with 20 in *. lia.
Qed.

(** A new packet of [n] bytes. *)
Record packet_of (s s' : lwip) (p n : Z) (l : list (Z * pbuf)) : Prop := {
  po_linked : linked s' p l;
  po_total : total l = n;
  po_sole : Forall sole l;
  po_fresh : fresh s s' l
}.

Lemma align_spec x : LWIP_MEM_ALIGN x = 4 * ((x + 3) / 4).
Proof.
  unfold LWIP_MEM_ALIGN, MEM_ALIGNMENT. rewrite <- Z.ldiff_land. change (4 - 1) with (Z.ones 2). rewrite Z.ldiff_ones_r, Z.shiftl_mul_pow2, Z.shiftr_div_pow2 by done.
  change (2 ^ 2) with 4. replace (x + 4 - 1) with (x + 3) by lia. lia.
Qed.

Lemma alloc_loop_ok R s p n (Q : Z * Z + unit -> lwip -> Prop) fuel s1 l r b rem : mem_ok s -> good (p :: R) s1 -> chain (pbufs s1) p (l ++ [(r, b)]) -> Forall sole (l ++ [(r, b)]) ->
  fresh s s1 (l ++ [(r, b)]) -> tot_rem (l ++ [(r, b)]) rem -> Forall len_ok (l ++ [(r, b)]) -> total (l ++ [(r, b)]) + rem = n -> 0 <= rem -> n < 65536 ->
  zlen R + links (pbufs s1) + (rem + 1515) / 1516 < 65534 -> (Z.to_nat rem < fuel)%nat ->
  (forall x s2 l2, good (p :: R) s2 -> packet_of s s2 p n l2 -> Q (inl x) s2) -> (forall s2, good R s2 -> grown s s2 -> Q (inr tt) s2) -> wp (loop fuel (alloc_body p) (r, rem)) Q s1.
Proof.
  intros Hms Hg1 Hch1 Hso1 Hf1 Htr1 Hlo1 Htot1 Hrem1 Hn Hlk1 Hfuel HQ1 HQ2.
  apply (wp_loop_ix (fun m x s1 => exists l r b rem, m = Z.to_nat rem /\ x = (r, rem) /\ good (p :: R) s1 /\ chain (pbufs s1) p (l ++ [(r, b)]) /\ Forall sole (l ++ [(r, b)]) /\
    fresh s s1 (l ++ [(r, b)]) /\ tot_rem (l ++ [(r, b)]) rem /\ Forall len_ok (l ++ [(r, b)]) /\ total (l ++ [(r, b)]) + rem = n /\ 0 <= rem /\
    zlen R + links (pbufs s1) + (rem + 1515) / 1516 < 65534) _ _ _ (Z.to_nat rem)); [|done|by exists l, r, b, rem].
  clear l r b rem s1 Hg1 Hch1 Hso1 Hf1 Htr1 Hlo1 Htot1 Hrem1 Hlk1 Hfuel. intros m x s1 (l & r & b & rem & -> & -> & Hg & Hch & Hso & Hf & Htr & Hlo & Htot & Hrem & Hlk). unfold alloc_body.
  pose proof (total_nonneg _ Hlo) as Hnn. destruct (rem <=? 0) eqn:E; bools.
  { apply wp_ret. assert (rem = 0) as -> by (by apply Z.le_antisymm). clear Hlk. rewrite Z.add_0_r in Htot. eapply HQ1; [done|]. split; [|done|done|done]. split; [done|]. split; [by apply tot_rem_ok|]. split; [lia|done]. }
  rewrite (u16_small rem) by lia. unfold LWIP_MIN. change PBUF_POOL_BUFSIZE_ALIGNED with 1516. set (len := if rem <? 1516 then rem else 1516).
  assert (0 < len /\ len <= rem /\ len <= 1516 /\ (rem - len + 1515) / 1516 + 1 = (rem + 1515) / 1516) as (Hl1 & Hl2 & Hl3 & Hl4).
  { unfold len. destruct (rem <? 1516) eqn:?; bools; repeat split; try lia; Z.to_euclidean_division_equations; lia. }
  clearbody len. rewrite (u16_small len) by lia. apply wp_bind. apply mem_malloc_ok; [apply Hg|done| |].
  - intros s2 Ep Eb Ek Hm2. cbn [Z.eqb]. apply wp_bind. eapply (pool_is_empty_ok (p :: R)); [split; [rewrite Ep; apply Hg|done]|]. intros s3 Ep3 Eb3 Ek3 Hg3.
    apply wp_bind. eapply (free_fresh_ok R s s3); [done|done|by rewrite Ep3, Ep|done|by eapply fresh_same; [exact Hf|congruence..]|]. intros _ s4 Hg4 Hgr. apply wp_ret. by apply HQ2.
  - intros q s2 Hq Hal. destruct (q =? 0) eqn:E0; bools; [done|]. set (bq := mkPbuf 0 _ _ _ _ _ _ _) in *. pose proof (al_pbufs _ _ _ _ _ Hal) as Ep. pose proof (al_new _ _ _ _ _ Hal) as Hnew.
    destruct (chain_lookup _ _ _ r b Hch) as [Hb Hr0]; [apply elem_of_app; right; left|]. assert (q <> r) as Hqr by congruence.
    assert (p_next b = 0) as Hnx by (pose proof (chain_suffix _ _ _ _ Hch) as (_ & _ & _ & H); exact H).
    assert (pbufs s2 !! r = Some b) as Hb2 by (rewrite Ep; by rewrite lookup_insert_ne). pose proof (heap_positive) as Hpos.
    assert (zlen (p :: R) = zlen R + 1) as Ezl by (unfold zlen; cbn [length]; lia). assert (0 <= (rem - len + 1515) / 1516) as Hdiv by (apply Z.div_pos; lia).
    apply wp_bind, (wp_upd _ _ b); [done|]. apply wp_ret. exists (Z.to_nat (rem - len)). split; [lia|]. set (s3 := set_pbufs _ s2).
    assert (links (pbufs s3) = links (pbufs s1) + 1) as Elk.
    { unfold s3, links. cbn [set_pbufs pbufs]. rewrite (tally_insert _ _ _ b), Ep, tally_new by done. cbn [set_next p_next bq]. rewrite Hnx. apply Z.eqb_neq in E0 as ->. cbn. lia. }
    exists (l ++ [(r, set_next q b)]), q, bq, (rem - len). split; [done|]. split; [done|]. split; [split|].
    + cbn [s3 set_pbufs pbufs]. eapply (counted_link (p :: R) _ r b q [(q, bq)]); [|done|done|cbn; rewrite Ep, lookup_insert_eq; done|cbn; by apply not_elem_of_cons; split; [|apply not_elem_of_nil]].
      rewrite Ep. apply counted_new; try done; [apply Hg|lia].
    + by eapply mem_ok_upd; [apply Hal|].
    + split; [|split; [|split; [|split; [|split; [|split; [|split]]]]]].
      * rewrite <- app_assoc. eapply chain_append; [exact Hch| |cbn; apply lookup_insert_eq|].
        { intros a c Hin. cbn. pose proof (chain_nodup _ _ _ Hch) as Hnd. rewrite fmap_app in Hnd. apply list.NoDup_app in Hnd as (_ & Hd & _).
          rewrite lookup_insert_ne by (intros <-; eapply Hd; [by eapply in_fst|cbn; left]). rewrite Ep. apply lookup_insert_ne. intros <-.
          destruct (chain_lookup _ _ _ q c Hch) as [? _]; [apply elem_of_app; by left|congruence]. }
        cbn [set_next p_next chain]. split; [done|]. split; [done|]. split; [|done]. cbn. rewrite lookup_insert_ne by done. rewrite Ep. apply lookup_insert_eq.
      * apply list.Forall_app in Hso as [Hs1 Hs2]. apply list.Forall_cons in Hs2 as [Hs2 _]. rewrite <- app_assoc. apply list.Forall_app. split; [done|]. by repeat constructor.
      * apply (fresh_upd s s2 ((l ++ [(r, b)]) ++ [(q, bq)])); [|apply Forall2_app; [apply Forall2_app; [apply Forall_Forall2_diag; by apply list.Forall_true|]|]; by repeat constructor|
          rewrite !fmap_app; apply elem_of_app; left; apply elem_of_app; right; cbn; left].
        apply (fresh_snoc s s1 s2 (l ++ [(r, b)]) q MEMP_PBUF_POOL_size bq); [done|done|done| |apply Forall_Forall2_diag; by apply list.Forall_true].
        change MEMP_PBUF_POOL_size with 1536. change SIZEOF_STRUCT_PBUF with 20. cbn. change SIZEOF_STRUCT_PBUF with 20. lia.
      * eapply tot_rem_snoc; [exact Htr| |done|done]. apply Forall2_app; [|by repeat constructor]. apply Forall_Forall2_diag. by apply list.Forall_true.
      * apply list.Forall_app in Hlo as [Hs1 Hs2]. apply list.Forall_cons in Hs2 as [Hs2 _]. rewrite <- app_assoc. apply list.Forall_app. split; [done|]. repeat constructor; [apply Hs2..|cbn; lia|cbn; lia].
      * rewrite !total_app in *. cbn [total set_next p_len bq] in *. lia.
      * lia.
      * rewrite Elk. lia.
Qed.

Lemma layer_offset_range layer o : layer_offset layer = Some o -> 0 <= o <= 74.
Proof. unfold layer_offset. intros H. repeat (destruct (_ =? _) in H; [by injection H as <-|]). done. Qed.

(** A single pbuf is allocated and initialised. *)
Lemma alloc_one_ok R s size b (Q : Z -> lwip -> Prop) : good R s -> SIZEOF_STRUCT_PBUF <= size -> (forall a, p_next (b a) = 0) -> zlen R + links (pbufs s) < 65535 ->
  (forall s', good R s' -> grown s s' -> Q 0 s') ->
  (forall p s', p <> 0 -> p mod 4 = 0 -> pbufs s !! p = None -> pbufs s' !! p = Some (init_pbuf (b p)) -> good (p :: R) s' -> grown s s' ->
    (p + SIZEOF_STRUCT_PBUF <= p_payload (b p) -> p_payload (b p) + p_len (b p) <= p + size -> fresh s s' [(p, init_pbuf (b p))]) -> Q p s') ->
  wp (p ← mem_malloc size b; if p =? 0 then mret 0 else upd p init_pbuf;; mret p) Q s.
Proof.
  intros [Hc Hm] Hsz Hb Hlk HQ0 HQ1. apply wp_bind. apply mem_malloc_ok; [done|done| |].
  - intros s2 Ep Eb Ek Hm2. cbn. apply wp_ret, HQ0; [split; [by rewrite Ep|done]|by apply grown_same].
  - intros a s2 Ha Hal. destruct (a =? 0) eqn:E; bools; [done|]. pose proof (al_pbufs _ _ _ _ _ Hal) as Ep. pose proof (al_new _ _ _ _ _ Hal) as Hnew.
    assert (pbufs s2 !! a = Some (b a)) as Hb2 by (rewrite Ep; apply lookup_insert_eq). apply wp_bind, (wp_upd _ _ (b a)); [done|]. apply wp_ret.
    assert (grown s s2) as Hg2 by (by eapply allocated_grown).
    apply HQ1; [done|apply Hal|done|cbn; apply lookup_insert_eq|split| |].
    + cbn [set_pbufs pbufs]. rewrite Ep, insert_insert_eq. apply counted_new; try done. cbn. apply Hb.
    + eapply mem_ok_upd; [apply Hal|done].
    + split; [|apply Hg2..]. intros c d Hcd. cbn. rewrite lookup_insert_ne; [by apply (gr_pbufs _ _ Hg2)|]. intros <-. congruence.
    + intros Hp1 Hp2. apply (fresh_upd s s2 [(a, b a)]); [|by repeat constructor|cbn; left].
      by apply (fresh_snoc s s s2 [] a size (b a) []); [apply fresh_nil| | | |constructor].
Qed.

(** The first pbuf is initialised last. *)
Lemma init_packet_ok R s s3 p n l (Q : Z -> lwip -> Prop) : good (p :: R) s3 -> packet_of s s3 p n l -> (forall s4 l4, good (p :: R) s4 -> packet_of s s4 p n l4 -> Q p s4) -> wp (upd p init_pbuf;; mret p) Q s3.
Proof.
  intros Hg3 [Hlin Htot Hso Hf] HQ. destruct l as [|[q c] l]; [destruct Hlin as (Hch & _); cbn in Hch; subst p; by destruct (counted_lookup _ _ _ (proj1 Hg3))|].
  pose proof (linked_tail _ _ _ _ _ Hlin) as (<- & Hp0 & Hc & _).
  apply wp_bind, (wp_upd _ _ c); [done|]. apply wp_ret. apply list.Forall_cons in Hso as [Hso1 Hso]. unfold sole in Hso1. cbn in Hso1. set (s4 := set_pbufs _ s3).
  apply (HQ s4 ((p, init_pbuf c) :: l)).
  - destruct Hg3 as [Hc3 Hm3]. split; [|by eapply mem_ok_upd]. eapply counted_update; [exact Hc3|exact Hc|done|cbn; done|done].
  - split; [|done|by constructor|].
    + destruct Hlin as (Hch & Ht & Htt & HF). split; [|split; [exact Ht|split; [exact Htt|]]]; [|apply list.Forall_cons in HF as [HF1 HF2]; by constructor].
      pose proof (chain_nodup _ _ _ Hch) as Hnd. cbn in Hnd. apply NoDup_cons in Hnd as [Hpl _]. destruct Hch as (_ & _ & _ & Hch).
      cbn. split; [done|]. split; [done|]. split; [apply lookup_insert_eq|]. by apply chain_avoid.
    + apply (fresh_upd s s3 ((p, c) :: l)); [done| |cbn; left]. constructor; [done|]. apply Forall_Forall2_diag. by apply list.Forall_true.
Qed.

Lemma alloc_pool_ok R s o n (Q : Z -> lwip -> Prop) : good R s -> 0 <= n < 65536 -> zlen R + links (pbufs s) < 65480 -> 0 <= o <= 74 ->
  (forall s', good R s' -> grown s s' -> Q 0 s') -> (forall p s' l, p <> 0 -> good (p :: R) s' -> packet_of s s' p n l -> Q p s') -> wp (alloc_pool o n) Q s.
Proof.
  intros Hg Hn Hlk Eo HQ0 HQ1. unfold alloc_pool.
  assert (LWIP_MEM_ALIGN_SIZE o <= 76 /\ o <= LWIP_MEM_ALIGN_SIZE o /\ LWIP_MEM_ALIGN_SIZE o = 4 * ((o + 3) / 4)) as (Ho1 & Ho2 & Ho3) by (change LWIP_MEM_ALIGN_SIZE with LWIP_MEM_ALIGN; rewrite align_spec; Z.to_euclidean_division_equations; lia).
  set (off := LWIP_MEM_ALIGN_SIZE o) in *. clearbody off. unfold LWIP_MIN. change PBUF_POOL_BUFSIZE_ALIGNED with 1516. set (len := if n <? 1516 - off then n else 1516 - off).
  assert (0 <= len <= n /\ len <= 1516 - off) as [Hl1 Hl2] by (unfold len; destruct (n <? _) eqn:?; bools; lia). clearbody len. rewrite (u16_small len) by lia.
  apply wp_bind. apply mem_malloc_ok; [apply Hg|done| |].
  - intros s2 Ep Eb Ek Hm2. cbn [Z.eqb]. apply wp_bind. eapply (pool_is_empty_ok R); [split; [rewrite Ep; apply Hg|done]|]. intros s3 Ep3 Eb3 Ek3 Hg3. apply wp_ret, HQ0; [done|]. apply grown_same; congruence.
  - intros p s2 Hp Hal. destruct (p =? 0) eqn:E0; bools; [done|]. set (b := mkPbuf 0 _ _ _ _ _ _ _) in *. pose proof (al_pbufs _ _ _ _ _ Hal) as Ep. pose proof (al_new _ _ _ _ _ Hal) as Hnew.
    assert (pbufs s2 !! p = Some b) as Hb by (rewrite Ep; apply lookup_insert_eq). apply wp_bind.
    assert (links (pbufs s2) = links (pbufs s)) as Elk by (unfold links; rewrite Ep, tally_new by done; cbn; lia).
    assert (p mod 4 = 0 /\ 0 < p) as [Hal4 Hp0] by (destruct (al_addr _ _ _ _ _ Hal) as (? & ? & _); pose proof heap_positive; lia).
    eapply (alloc_loop_ok R s p n _ _ s2 [] p b (n - len)); cbn [app].
    + apply Hg.
    + split; [|apply Hal]. rewrite Ep. apply counted_new; try done; [apply Hg|lia].
    + cbn. done.
    + by repeat constructor.
    + apply (fresh_snoc s s s2 [] p MEMP_PBUF_POOL_size b []); [apply fresh_nil|done| | |constructor];
        cbn [b p_payload p_len]; change MEMP_PBUF_POOL_size with 1536; change SIZEOF_STRUCT_PBUF with 20; rewrite !align_spec; clear -Hal4 Hl1 Hl2 Ho1 Ho2 Ho3 Eo Hp0; Z.to_euclidean_division_equations; lia.
    + cbn. lia.
    + repeat constructor; cbn; lia.
    + cbn. lia.
    + lia.
    + lia.
    + rewrite Elk. assert ((n - len + 1515) / 1516 <= 44) by (clear -Hl1 Hn; Z.to_euclidean_division_equations; lia). lia.
    + lia.
    + intros x s3 l Hg3 Hpo. eapply init_packet_ok; [exact Hg3|exact Hpo|]. intros s4 l4 Hg4 Hpo4. by apply (HQ1 p s4 l4).
    + intros s3 Hg3 Hgr. apply wp_ret. by apply HQ0.
Qed.

(** [pbuf_alloc] returns null, or a chain of [n] bytes; for [PBUF_POOL] and [PBUF_RAM] with
    memory of its own. *)
Lemma pbuf_alloc_ok R s layer n type (Q : Z -> lwip -> Prop) : good R s -> 0 <= n < 65536 -> zlen R + links (pbufs s) < 65480 ->
  (forall s', good R s' -> grown s s' -> Q 0 s') ->
  (forall p s' l, p <> 0 -> good (p :: R) s' -> grown s s' -> linked s' p l -> total l = n -> Forall sole l -> (forall a, a ∈ fst <$> l -> pbufs s !! a = None) ->
    (type = PBUF_RAM \/ type = PBUF_POOL -> packet_of s s' p n l) -> (type <> PBUF_POOL -> exists b, l = [(p, b)]) -> Q p s') -> wp (pbuf_alloc layer n type) Q s.
Proof.
  intros Hg Hn Hlk HQ0 HQ1. unfold pbuf_alloc. destruct (layer_offset layer) as [o|] eqn:Eo; [|apply wp_ret, HQ0; [done|apply grown_refl]]. apply layer_offset_range in Eo.
  assert (forall p s' b, p <> 0 -> p_next b = 0 -> p_tot_len b = n -> p_len b = n -> p_ref b = 1 -> pbufs s !! p = None -> pbufs s' !! p = Some b -> good (p :: R) s' -> grown s s' ->
    (type = PBUF_RAM -> fresh s s' [(p, b)]) -> type <> PBUF_POOL -> Q p s') as Hone.
  { intros p s' b Hp Hnx Ht Hl Hr Hnew Hb Hg' Hgr Hf Hty. assert (linked s' p [(p, b)]) as Hlin.
    { split; [cbn; done|]. split; [cbn; lia|]. split; [cbn; lia|]. repeat constructor; cbn; lia. }
    apply (HQ1 p s' [(p, b)]); try done; [cbn; lia|by repeat constructor|intros a [->|[]%elem_of_nil]%elem_of_cons; done| |by eexists].
    intros [E|E]; [|done]. split; [done|cbn; lia|by repeat constructor|by apply Hf]. }
  destruct (type =? PBUF_POOL) eqn:E1; bools; [|destruct (type =? PBUF_RAM) eqn:E2; bools; [|destruct ((type =? PBUF_ROM) || (type =? PBUF_REF)) eqn:E3; [|apply wp_ret, HQ0; [done|apply grown_refl]]]].
  - eapply alloc_pool_ok; [exact Hg|done|done|done|exact HQ0|]. intros p s' l Hp Hg' Hpo. pose proof Hpo as [Hlin Htot Hso Hf]. apply (HQ1 p s' l); try done; apply Hf.
  - assert (0 <= (n + 3) / 4) as Hd by (apply Z.div_pos; lia). eapply alloc_one_ok; [exact Hg| |done|lia|exact HQ0|].
    + change LWIP_MEM_ALIGN_SIZE with LWIP_MEM_ALIGN. rewrite !align_spec. change SIZEOF_STRUCT_PBUF with 20. Z.to_euclidean_division_equations; lia.
    + intros p s' Hp Hal Hnew Hb Hg' Hgr Hf. eapply Hone; [exact Hp| | | | |exact Hnew|exact Hb|exact Hg'|exact Hgr| |by rewrite E2]; try done. intros _.
      pose proof heap_positive as Hpos. assert (0 <= p) as Hp0. { destruct (counted_lookup _ _ _ (proj1 Hg')) as [_ [d Hd']]. destruct (proj1 (mo_pbufs _ (proj2 Hg') p)) as [k Hk]; [by eexists|]. destruct (mo_size _ (proj2 Hg') _ _ Hk). lia. }
      apply Hf; cbn [p_payload p_len]; change LWIP_MEM_ALIGN_SIZE with LWIP_MEM_ALIGN; change SIZEOF_STRUCT_PBUF with 20; rewrite !align_spec; clear -Hal Hn Eo Hp0; Z.to_euclidean_division_equations; lia.
  - eapply alloc_one_ok; [exact Hg|done|done|lia|exact HQ0|]. intros p s' Hp Hal Hnew Hb Hg' Hgr _. by eapply Hone; [exact Hp| | | | |exact Hnew|exact Hb|exact Hg'|exact Hgr| |].
Qed.

(** ** Contents *)

Lemma dom_puts la vs m : is_Some (fetch m la) -> dom (puts la vs m) = dom m.
Proof.
  intros [u Hu]. unfold puts. rewrite dom_union_L. apply subseteq_union_1_L. intros x Hx. rewrite dom_list_to_map_L, elem_of_list_to_set in Hx. apply list_elem_of_fmap in Hx as ([y v] & -> & Hin).
  apply elem_of_zip_l in Hin. apply elem_of_dom. by eapply fetch_in.
Qed.

Lemma fetch_take m la n : is_Some (fetch m la) -> is_Some (fetch m (take n la)).
Proof. intros [u Hu]. apply fetch_is_Some. intros x Hx. eapply fetch_in; [exact Hu|]. rewrite <- (take_drop n la). apply elem_of_app. by left. Qed.

Lemma good_puts R s la vs : good R s -> is_Some (fetch (bytes s) la) -> good R (set_bytes (puts la vs (bytes s)) s).
Proof. intros [Hc Hm] Hla. split; [done|]. apply mem_ok_bytes; [done|]. by apply dom_puts. Qed.

Lemma packet_grown s s' p l c : packet s p l c -> grown s s' -> packet s' p l c.
Proof.
  intros [(Hch & Hr) Hf] Hg. split; [split; [|done]|].
  - eapply chain_ext; [|exact Hch]. intros a b Hin. destruct (chain_lookup _ _ _ _ _ Hch Hin) as [Ha _]. rewrite Ha. by apply (gr_pbufs _ _ Hg).
  - rewrite <- Hf. apply fetch_ext. intros x Hx. apply (gr_bytes _ _ Hg). by eapply fetch_in.
Qed.

(** Payloads are in the block of their pbuf, or outside of the heap; what is left of such a
    packet when other pbufs are freed. *)
Definition homed (s : lwip) (l : list (Z * pbuf)) : Prop :=
  forall a b x, (a, b) ∈ l -> x ∈ area b -> ~ heap_lo <= x < heap_hi \/ exists n, blocks s !! a = Some n /\ a <= x < a + n.

Lemma addrs_in l x : x ∈ addrs l -> exists a b, (a, b) ∈ l /\ x ∈ area b.
Proof.
  induction l as [|[a b] l IH]; [by intros ?%elem_of_nil|]. cbn. intros [Hx|Hx]%elem_of_app; [exists a, b; split; [left|done]|].
  destruct (IH Hx) as (a' & b' & ? & ?). exists a', b'. split; [by right|done].
Qed.

Lemma packet_kept s s' p l c : packet s p l c -> (forall a b, (a, b) ∈ l -> pbufs s' !! a = pbufs s !! a) -> kept s s' -> homed s' l -> packet s' p l c.
Proof.
  intros [(Hch & Hr) Hf] Hs Hk Hp. split; [split; [by eapply chain_ext|done]|]. rewrite <- Hf. apply fetch_ext. intros x Hx.
  apply addrs_in in Hx as (a & b & Hin & Hxa). destruct (Hp a b x Hin Hxa) as [Ho|(n & Hn & Hr')]; [by apply (kp_outside _ _ Hk)|by apply (kp_live _ _ Hk a n)].
Qed.

(** [pbuf_coalesce] gives up the chain for one pbuf with its contents, or keeps it. *)
Lemma pbuf_coalesce_ok R s p l c layer (Q : Z -> lwip -> Prop) : good (p :: R) s -> packet s p l c -> solid l -> zlen R + links (pbufs s) < 65479 ->
  (forall s', good (p :: R) s' -> grown s s' -> Q p s') ->
  (forall q s' b, q <> 0 -> good (q :: R) s' -> packet s' q [(q, b)] c -> pbufs s !! q = None -> Q q s') -> wp (pbuf_coalesce p layer) Q s.
Proof.
  intros Hg Hp Hs Hlk HQ0 HQ1. destruct (counted_lookup _ _ _ (proj1 Hg)) as (Hp0 & b & Hb). pose proof (packet_len _ _ _ _ Hp) as Hlen. pose proof (proj1 Hp) as Hlin.
  destruct l as [|[a b'] l]; [destruct Hlin as (Hch & _); by cbn in Hch|]. pose proof (linked_tail _ _ _ _ _ Hlin) as (<- & _ & Hb' & Hlb & Htl & Hnn & Htt & _). assert (b' = b) as -> by congruence.
  unfold pbuf_coalesce. apply wp_bind, (wp_ld _ b); [done|]. destruct (p_next b =? 0) eqn:E; bools; [apply wp_ret, HQ0; [done|apply grown_refl]|].
  cbn [total] in Hlen. apply wp_bind. eapply (pbuf_alloc_ok (p :: R)); [exact Hg|lia|unfold zlen in *; cbn [length]; lia| |].
  { intros s1 Hg1 Hgr. cbn. by apply wp_ret, HQ0. }
  intros q s1 lq Hq Hg1 Hgr _ _ _ Hnew Hpo Hlq. destruct (q =? 0) eqn:E0; bools; [done|]. destruct Hlq as [bq ->]; [done|]. destruct (Hpo ltac:(by left)) as [Hlq Htq Hsq Hf]. clear Hpo.
  pose proof (packet_grown _ _ _ _ _ Hp Hgr) as Hp1. destruct (fetch_is_Some (bytes s1) (addrs [(q, bq)])) as [cq Hcq]; [intros x Hx; by apply (fs_addrs _ _ _ Hf)|].
  assert (packet s1 q [(q, bq)] cq) as Hpq by done. pose proof (packet_len _ _ _ _ Hpq) as Hlenq.
  assert (addrs [(q, bq)] ## addrs ((p, b) :: l)) as Hdis. { intros x Hx1 Hx2. destruct (fs_addrs _ _ _ Hf x Hx1) as [H1 _]. destruct (fetch_in _ _ _ _ (proj2 Hp) Hx2) as [v Hv]. congruence. }
  apply wp_bind. eapply pbuf_copy_ok; [exact Hpq|exact Hp1|done|done|cbn; by split; [left|]|done|apply Hf|exact Hdis|lia|]. set (s2 := set_bytes _ s1).
  assert (good (q :: p :: R) s2) as Hg2 by (apply good_puts; [done|apply fetch_take; by eexists]).
  assert (packet s2 q [(q, bq)] c) as Hp2. { pose proof (packet_written s1 q _ cq c _ Hpq (fs_nodup _ _ _ Hf) ltac:(lia) eq_refl) as H. rewrite drop_ge, app_nil_r in H by (unfold zlen in *; lia). exact H. }
  assert (chain (pbufs s2) p ((p, b) :: l)) as Hch2 by apply Hp1.
  assert (counted (p :: q :: R) (pbufs s2)) as Hc2 by (rewrite (Permutation_swap q p R : p :: q :: R ≡ₚ q :: p :: R); apply Hg2).
  apply wp_bind. eapply pbuf_free_ok; [exact Hch2|exact Hc2|apply Hg2|]. intros k1 k2 s3 Ek Hs1 Hk2 Es3 Hc3 Hkp Hm3. apply wp_ret.
  assert (pbufs s !! q = None) as Hqn by (apply Hnew; cbn; left).
  assert ((q ∉ fst <$> k1) /\ q ∉ fst <$> k2) as [Hq1 Hq2].
  { rewrite <- not_elem_of_app, <- fmap_app, <- Ek. intros Hin. apply list_elem_of_fmap in Hin as ([x d] & -> & Hin). destruct (chain_lookup _ _ _ x d (proj1 (proj1 Hp)) Hin). cbn in *. congruence. }
  assert (pbufs s3 !! q = pbufs s2 !! q) as Hq3.
  { rewrite Es3. destruct k2 as [|[y d] k2]; cbn [unref_head]; [|rewrite lookup_insert_ne by (intros ->; apply Hq2; cbn; left)]; by apply without_lookup. }
  eapply (HQ1 q s3 bq); [done|by split| |done]. apply (packet_kept s2); [exact Hp2|by intros a d [= -> ->]%list_elem_of_singleton|exact Hkp|].
  intros a d x Hin Hx. right. pose proof Hin as [= -> ->]%list_elem_of_singleton. destruct (fs_place _ _ _ Hf q bq Hin) as (n & Hn & Hr). exists n. split; [|by apply Hr].
  destruct (proj1 (mo_pbufs _ Hm3 q)) as [k Hk]; [rewrite Hq3; eexists; apply Hlq|]. pose proof (lookup_weaken _ _ _ _ Hk (kp_blocks _ _ Hkp)) as Hk'. cbn in Hk'. congruence.
Qed.

Lemma joined_spec t n l : Forall len_ok l -> tot_ok l -> 0 <= n -> total l + n < 65536 -> forall k, tot_ok k -> total k = n -> Forall len_ok k ->
  tot_ok (joined t n l ++ k) /\ total (joined t n l ++ k) = total l + n /\ Forall len_ok (joined t n l ++ k) /\ addrs (joined t n l ++ k) = addrs l ++ addrs k.
Proof.
  intros HF Ht Hn Hb k Hk Hkt Hkl. induction l as [|[a b] l IH]; [cbn; split_and!; done|]. destruct Ht as [Hb1 Ht]. apply list.Forall_cons in HF as [Hlb HF]. unfold len_ok in Hlb. cbn [snd total] in *.
  pose proof (total_nonneg _ HF). destruct (IH HF Ht ltac:(lia)) as (I1 & I2 & I3 & I4). destruct l as [|[c d] l].
  - cbn [joined app tot_ok total set_next set_tot_len p_tot_len p_len] in *. rewrite (u16_small (p_tot_len b + n)) by lia. split; [split; [lia|done]|]. split; [lia|]. split; [by constructor|]. cbn [addrs]. by rewrite app_nil_r.
  - cbn [joined app tot_ok total set_tot_len p_tot_len p_len addrs] in *. rewrite (u16_small (p_tot_len b + n)) by lia. split; [split; [lia|done]|]. split; [lia|]. split; [by constructor|].
    rewrite I4, app_assoc. done.
Qed.

Lemma joined_placed t n l : placed_like l (joined t n l).
Proof. induction l as [|[a b] [|[c d] l] IH]; [constructor|by repeat constructor|]. constructor; [done|]. exact IH. Qed.

Lemma homed_placed s l l' k : homed s l -> placed_like l l' -> homed s k -> homed s (l' ++ k).
Proof.
  intros Hl Hp Hk a b x [Hin|Hin]%elem_of_app Hx; [|by eapply Hk]. apply list_elem_of_lookup in Hin as [i Hi]. destruct (Forall2_lookup_r _ _ _ _ _ Hp Hi) as ([c d] & Hi' & E1 & E2). cbn in E1, E2. subst c.
  rewrite E2 in Hx. eapply Hl; [by eapply list_elem_of_lookup_2|done].
Qed.

(** [pbuf_cat] appends the contents. *)
Lemma cat_packet_ok R s h t lh lt c1 c2 (Q : unit -> lwip -> Prop) : good (t :: R) s -> h <> 0 -> packet s h lh c1 -> packet s t lt c2 -> fst <$> lh ## fst <$> lt -> zlen c1 + zlen c2 < 65536 ->
  (forall s' l, good R s' -> packet s' h l (c1 ++ c2) -> (homed s lh -> homed s lt -> homed s' l) -> Q tt s') -> wp (pbuf_cat h t) Q s.
Proof.
  intros Hg Hh0 Hh Ht Hd Hlen HQ. pose proof (packet_len _ _ _ _ Hh) as E1. pose proof (packet_len _ _ _ _ Ht) as E2. destruct (counted_lookup _ _ _ (proj1 Hg)) as (Ht0 & b & Hb).
  destruct Hh as [(Hc1 & Ht1 & Hb1 & HF1) Hf1], Ht as [(Hc2 & Ht2 & Hb2 & HF2) Hf2]. pose proof (total_nonneg _ HF2).
  eapply pbuf_cat_ok; [done..|]. intros s' Es' Hg' Hch _.
  assert (p_tot_len b = total lt) as Etot. { destruct lt as [|[y d] lt]; [by cbn in Hc2|]. destruct Hc2 as (-> & _ & Hd2 & _). assert (d = b) as -> by congruence. by destruct Ht2. }
  rewrite Etot in *. destruct (joined_spec t (total lt) lh HF1 Ht1 ltac:(lia) ltac:(lia) lt Ht2 eq_refl HF2) as (J1 & J2 & J3 & J4).
  apply (HQ s' (joined t (total lt) lh ++ lt)); [done| |].
  - split; [split; [exact Hch|]; split; [done|]; split; [lia|done]|]. rewrite J4. apply fetch_app. exists c1, c2. by rewrite Es'.
  - intros Hh1 Hh2. eapply homed_placed in Hh2; [|exact Hh1|apply joined_placed]. intros a d x Hin Hx. specialize (Hh2 a d x Hin Hx). by rewrite Es'.
Qed.

Lemma trimmed_spec n l : Forall len_ok l -> tot_ok l -> total l < 65536 -> 0 <= n < total l ->
  tot_ok (trimmed n l) /\ total (trimmed n l) = n /\ Forall len_ok (trimmed n l) /\ addrs (trimmed n l) = take (Z.to_nat n) (addrs l).
Proof.
  intros HF. revert n. induction HF as [|[a b] l Hlb HF IH]; intros n Ht Hb Hn; [cbn in Hn; lia|]. unfold len_ok in Hlb. destruct Ht as [Hb1 Ht]. cbn [snd total trimmed addrs] in *.
  pose proof (total_nonneg _ HF). destruct (p_len b <? n) eqn:E; bools.
  - destruct (IH (n - p_len b) Ht ltac:(lia) ltac:(lia)) as (I1 & I2 & I3 & I4). cbn [tot_ok total addrs set_tot_len p_tot_len p_len]. rewrite u16_small by lia.
    split; [split; [lia|done]|]. split; [lia|]. split; [by constructor|]. unfold area. cbn [p_payload p_len]. rewrite I4, take_app_ge by (rewrite length_seqZ; lia). rewrite length_seqZ.
    do 2 f_equal. lia.
  - cbn [tot_ok total addrs set_tot_len set_len set_next p_tot_len p_len]. rewrite !u16_small by lia. split; [split; [lia|done]|]. split; [lia|]. split; [repeat constructor; cbn; rewrite ?u16_small; lia|].
    unfold area. cbn [p_payload p_len set_len]. rewrite ?u16_small by lia. rewrite app_nil_r, take_app_le by (rewrite length_seqZ; lia).
    rewrite (seqZ_split (p_payload b) (p_len b) n) by lia. rewrite take_app_length' by (rewrite length_seqZ; lia).
    cbn [set_next set_tot_len set_len p_payload p_len]. by rewrite u16_small by lia.
Qed.

Lemma trimmed_area n l a b : (a, b) ∈ trimmed n l -> 0 <= n -> Forall len_ok l -> exists b0, (a, b0) ∈ l /\ forall x, x ∈ area b -> x ∈ area b0.
Proof.
  intros Hin Hn HF. revert n Hn Hin. induction HF as [|[c d] l Hlb HF IH]; intros n Hn Hin; [by apply elem_of_nil in Hin|]. unfold len_ok in Hlb. cbn [trimmed snd] in *. destruct (p_len d <? n) eqn:E; bools.
  - apply elem_of_cons in Hin as [[= -> ->]|Hin]; [exists d; split; [left|done]|]. destruct (IH (n - p_len d) ltac:(lia) Hin) as (b0 & ? & ?). exists b0. split; [by right|done].
  - apply list_elem_of_singleton in Hin as [= -> ->]. exists d. split; [left|]. intros x. unfold area. cbn [set_next set_tot_len set_len p_payload p_len]. rewrite u16_small by lia. rewrite !elem_of_seqZ. lia.
Qed.

(** [pbuf_realloc] leaves the first [n] bytes. *)
Lemma realloc_packet_ok R s p l c n (Q : unit -> lwip -> Prop) : good R s -> packet s p l c -> homed s l -> p <> 0 -> 0 <= n < zlen c ->
  (forall s' l', good R s' -> packet s' p l' (take (Z.to_nat n) c) -> Q tt s') -> wp (pbuf_realloc p n) Q s.
Proof.
  intros Hg Hp Hh Hp0 Hn HQ. pose proof (packet_len _ _ _ _ Hp) as Hlen. destruct Hp as [Hlin Hf]. eapply pbuf_realloc_ok; [done|done|done|lia|]. intros s' k1 k2 Hg' Hkp Ek _ _ Es'.
  pose proof Hlin as (Hch & Ht & Htt & HF). destruct (trimmed_spec n l HF Ht Htt ltac:(lia)) as (T1 & T2 & T3 & T4). pose proof (chain_nodup _ _ _ Hch) as Hnd.
  destruct (trimmed_fst n l) as (k & Ef & ->). rewrite Ef in Hnd. apply list.NoDup_app in Hnd as (Hnd & Hdj & _). rewrite Ek, fmap_app in Hdj.
  assert (chain (sets (trimmed n l) (pbufs s)) p (trimmed n l)) as Hch1.
  { assert (front (trimmed n l) = p) as Efr by (destruct l as [|[a b] l]; [by cbn in Hch|]; destruct Hch as (-> & _); cbn; by destruct (_ <? _)).
    assert (fst <$> trimmed n l ## fst <$> @nil (Z * pbuf)) as Hd0 by (intros ? _ H0; by apply elem_of_nil in H0).
    pose proof (sets_chain (trimmed n l) (pbufs s) [] Hnd Hd0 (trimmed_chained n l (chain_chained _ _ _ Hch)) eq_refl) as H. by rewrite app_nil_r, Efr in H. }
  assert (forall a b, (a, b) ∈ trimmed n l -> pbufs s' !! a = sets (trimmed n l) (pbufs s) !! a) as Hsame.
  { intros a b Hin%in_fst. assert ((a ∉ fst <$> k1) /\ a ∉ fst <$> k2) as [Hk1 Hk2] by (rewrite <- not_elem_of_app; by apply Hdj). rewrite Es'.
    destruct k2 as [|[y d] k2]; cbn [unref_head]; [|rewrite lookup_insert_ne by (intros ->; apply Hk2; cbn; left)]; by apply without_lookup. }
  apply (HQ s' (trimmed n l)); [done|]. apply (packet_kept (set_pbufs (sets (trimmed n l) (pbufs s)) s)).
  - split; [split; [done|]; split; [done|]; split; [lia|done]|]. cbn [set_pbufs bytes]. rewrite T4. rewrite <- (take_drop (Z.to_nat n) (addrs l)) in Hf. apply fetch_app in Hf as (v & w & Hv & Hw & ->).
    pose proof (length_addrs _ HF) as Hla. pose proof (fetch_length _ _ _ Hv) as Hlv. rewrite length_take in Hlv. rewrite take_app_length'; [done|lia].
  - exact Hsame.
  - apply (kept_trans _ s); [by apply kept_same|exact Hkp].
  - intros a b x Hin Hx. destruct (trimmed_area n l a b Hin ltac:(lia) HF) as (b0 & Hin0 & Hsub). destruct (Hh a b0 x Hin0 (Hsub x Hx)) as [Ho|(m & Hm & Hr)]; [by left|right]. exists m. split; [|done].
    destruct (chain_lookup _ _ _ _ _ Hch1 Hin) as [Hab _]. rewrite <- (Hsame a b Hin) in Hab. destruct (proj1 (mo_pbufs _ (proj2 Hg') a)) as [m' Hm']; [by eexists|].
    pose proof (lookup_weaken _ _ _ _ Hm' (kp_blocks _ _ Hkp)). congruence.
Qed.
End ops.
