(* ===== verification/LwipChksum.v ===== *)
(** The Internet checksum of lwIP ([lwip/core/inet_chksum.c], [lwip/inet_chksum.h], and
    [lwip_htons] of [lwip/core/def.c]): three ways to sum a buffer, and the checksums of
    packet buffers with and without a pseudo header; what they compute. *)
From Stdlib Require Import ZArith Lia Bool.
From stdpp Require Import base list numbers option gmap.
From S2P Require Import Prelude CSem Pbuf PbufProof.

Open Scope Z_scope.

(** ** The sum of a buffer

  The functions take the bytes of the buffer; where the source looks at the address, the
  address too. *)

Definition FOLD_U32T (u : Z) : Z := u32 (Z.shiftr u 16 + Z.land u 0xffff).
Definition SWAP_BYTES_IN_WORD (w : Z) : Z := Z.lor (Z.shiftl (Z.land w 0xff) 8) (Z.shiftr (Z.land w 0xff00) 8).
Definition lwip_htons (n : Z) : Z := Z.lor (Z.shiftl (Z.land n 0xff) 8) (Z.shiftr (Z.land n 0xff00) 8).

(** Version 1: two bytes at a time in network order. *)
Fixpoint chksum_1_loop (acc : Z) (l : list Z) : Z * list Z :=
  match l with
  | b0 :: b1 :: l => chksum_1_loop (u32 (acc + Z.lor (u16 (Z.shiftl b0 8)) b1)) l
  | _ => (acc, l)
  end.

Definition chksum_1 (l : list Z) : Z :=
  let '(acc, l) := chksum_1_loop 0 l in
  let acc := match l with b :: _ => u32 (acc + u16 (Z.shiftl b 8)) | [] => acc end in
  let acc := FOLD_U32T acc in
  let acc := if negb (Z.land acc 0xffff0000 =? 0) then FOLD_U32T acc else acc in
  lwip_htons (u16 acc).

(** Version 2, the one that is built: words from an even address on. *)
Fixpoint sum16 (sum : Z) (l : list Z) : Z * list Z :=
  match l with
  | b0 :: b1 :: l => sum16 (u32 (sum + dec16 [b0; b1])) l
  | _ => (sum, l)
  end.

(** [((u8_t * )&t)[1] = b] and [((u8_t * )&t)[0] = b]. *)
Definition set_byte_1 (t b : Z) : Z := t mod 256 + 256 * b.
Definition set_byte_0 (t b : Z) : Z := b + (t - t mod 256).

Definition chksum_2 (dataptr : Z) (l : list Z) : Z :=
  let odd := Z.odd dataptr in
  let '(t, l) := match l with b :: r => if odd then (set_byte_1 0 b, r) else (0, l) | [] => (0, l) end in
  let '(sum, l) := sum16 0 l in
  let t := match l with b :: _ => set_byte_0 t b | [] => t end in
  let sum := FOLD_U32T (FOLD_U32T (u32 (sum + t))) in
  u16 (if odd then SWAP_BYTES_IN_WORD sum else sum).

(** Version 3: eight bytes at a time from an address that is a multiple of four on. *)
Definition add_carry (sum w : Z) : Z := let tmp := u32 (sum + w) in if tmp <? sum then u32 (tmp + 1) else tmp.

Fixpoint sum64 (sum : Z) (l : list Z) : Z * list Z :=
  match l with
  | b0 :: b1 :: b2 :: b3 :: b4 :: b5 :: b6 :: b7 :: l =>
      sum64 (add_carry (add_carry sum (dec32 [b0; b1; b2; b3])) (dec32 [b4; b5; b6; b7])) l
  | _ => (sum, l)
  end.

Definition chksum_3 (dataptr : Z) (l : list Z) : Z :=
  let odd := Z.odd dataptr in
  let '(t, l, ps) := match l with b :: r => if odd then (set_byte_1 0 b, r, dataptr + 1) else (0, l, dataptr) | [] => (0, l, dataptr) end in
  let '(sum, l) := match l with b0 :: b1 :: r => if negb (Z.land ps 3 =? 0) then (dec16 [b0; b1], r) else (0, l) | _ => (0, l) end in
  let '(sum, l) := sum64 sum l in
  let sum := FOLD_U32T sum in
  let '(sum, l) := sum16 sum l in
  let t := match l with b :: _ => set_byte_0 t b | [] => t end in
  let sum := FOLD_U32T (FOLD_U32T (u32 (sum + t))) in
  u16 (if odd then SWAP_BYTES_IN_WORD sum else sum).

(** ** Packet buffers *)

Definition IPADDR_TYPE_V4 : Z := 0.
Definition IPADDR_TYPE_V6 : Z := 6.

(** The four words of the union; an IPv4 address is the first. *)
Record ip_addr := mkIpAddr { u_addr : list Z; ip_type : Z }.
Definition ip_2_ip4 (a : ip_addr) : Z := zget (u_addr a) 0.
Definition ip_2_ip6 (a : ip_addr) : list Z := u_addr a.
Definition IP_IS_V6 (a : ip_addr) : bool := ip_type a =? IPADDR_TYPE_V6.

Definition lwip_standard_chksum (dataptr len : Z) : C lwip Z :=
  m ← gets bytes; match load m dataptr len with Some l => mret (chksum_2 dataptr l) | None => undefined end.

(** One pbuf of a chain: the sum so far, and whether its bytes are swapped. *)
Definition chksum_step (acc : Z) (swapped : bool) (sum len : Z) : Z * bool :=
  let acc := FOLD_U32T (u32 (acc + sum)) in
  if negb (len mod 2 =? 0) then (SWAP_BYTES_IN_WORD acc, negb swapped) else (acc, swapped).

Definition chksum_body (x : Z * Z * bool) : C lwip (ctl (Z * Z * bool) unit) :=
  let '(q, acc, swapped) := x in
  if q =? 0 then mret (Exit x)
  else
    b ← ld q;
    sum ← lwip_standard_chksum (p_payload b) (p_len b);
    let '(acc, swapped) := chksum_step acc swapped sum (p_len b) in
    mret (Next (p_next b, acc, swapped)).

(** The sum of a chain, in the byte order of its first byte. *)
Definition chain_sum (p acc : Z) : C lwip Z :=
  fuel ← chain_fuel;
  x ← until fuel chksum_body (p, acc, false);
  let '(_, acc, swapped) := x in
  mret (if swapped : bool then SWAP_BYTES_IN_WORD acc else acc).

Definition chksum_complement (acc : Z) : Z := u16 (Z.lnot (Z.land acc 0xffff)).

Definition add_proto (acc proto proto_len : Z) : Z :=
  FOLD_U32T (FOLD_U32T (u32 (u32 (acc + lwip_htons (u16 proto)) + lwip_htons proto_len))).

Definition inet_cksum_pseudo_base (p proto proto_len acc : Z) : C lwip Z :=
  acc ← chain_sum p acc; mret (chksum_complement (add_proto acc proto proto_len)).

(** The two words of a 32-bit word. *)
Definition add_word (acc addr : Z) : Z := u32 (u32 (acc + Z.land addr 0xffff) + Z.land (Z.shiftr addr 16) 0xffff).

Definition ip4_sum (src dest : Z) : Z := FOLD_U32T (FOLD_U32T (add_word (add_word 0 src) dest)).

Fixpoint ip6_words (acc : Z) (src dest : list Z) : Z :=
  match src, dest with
  | s :: src, d :: dest => ip6_words (add_word (add_word acc s) d) src dest
  | _, _ => acc
  end.

Definition ip6_sum (src dest : list Z) : Z := FOLD_U32T (FOLD_U32T (ip6_words 0 src dest)).

Definition inet_chksum_pseudo (p proto proto_len src dest : Z) : C lwip Z := inet_cksum_pseudo_base p proto proto_len (ip4_sum src dest).
Definition ip6_chksum_pseudo (p proto proto_len : Z) (src dest : list Z) : C lwip Z := inet_cksum_pseudo_base p proto proto_len (ip6_sum src dest).

Definition ip_chksum_pseudo (p proto proto_len : Z) (src dest : ip_addr) : C lwip Z :=
  if IP_IS_V6 dest then ip6_chksum_pseudo p proto proto_len (ip_2_ip6 src) (ip_2_ip6 dest)
  else inet_chksum_pseudo p proto proto_len (ip_2_ip4 src) (ip_2_ip4 dest).

Definition partial_body (x : Z * Z * Z * bool) : C lwip (ctl (Z * Z * Z * bool) unit) :=
  let '(q, chksum_len, acc, swapped) := x in
  if (q =? 0) || (chksum_len <=? 0) then mret (Exit x)
  else
    b ← ld q;
    let chklen := if chksum_len <? p_len b then chksum_len else p_len b in
    sum ← lwip_standard_chksum (p_payload b) chklen;
    let '(acc, swapped) := chksum_step acc swapped sum (p_len b) in
    mret (Next (p_next b, u16 (chksum_len - chklen), acc, swapped)).

Definition inet_cksum_pseudo_partial_base (p proto proto_len chksum_len acc : Z) : C lwip Z :=
  fuel ← chain_fuel;
  x ← until fuel partial_body (p, chksum_len, acc, false);
  let '(_, _, acc, swapped) := x in
  let acc := if swapped : bool then SWAP_BYTES_IN_WORD acc else acc in
  mret (chksum_complement (add_proto acc proto proto_len)).

Definition inet_chksum_pseudo_partial (p proto proto_len chksum_len src dest : Z) : C lwip Z :=
  inet_cksum_pseudo_partial_base p proto proto_len chksum_len (ip4_sum src dest).
Definition ip6_chksum_pseudo_partial (p proto proto_len chksum_len : Z) (src dest : list Z) : C lwip Z :=
  inet_cksum_pseudo_partial_base p proto proto_len chksum_len (ip6_sum src dest).

Definition ip_chksum_pseudo_partial (p proto proto_len chksum_len : Z) (src dest : ip_addr) : C lwip Z :=
  if IP_IS_V6 dest then ip6_chksum_pseudo_partial p proto proto_len chksum_len (ip_2_ip6 src) (ip_2_ip6 dest)
  else inet_chksum_pseudo_partial p proto proto_len chksum_len (ip_2_ip4 src) (ip_2_ip4 dest).

Definition inet_chksum (dataptr len : Z) : C lwip Z := sum ← lwip_standard_chksum dataptr len; mret (u16 (Z.lnot sum)).

Definition inet_chksum_pbuf (p : Z) : C lwip Z := acc ← chain_sum p 0; mret (chksum_complement acc).

Definition lwip_chksum_copy (dst src len : Z) : C lwip Z := memcpy dst src len;; lwip_standard_chksum dst len.

(** ** The specification: one's complement sums

  [bsum odd l] is the sum of the bytes as 16-bit words in the byte order of the machine, of
  a buffer that starts in the middle of a word if [odd].  [ones n] is [n] added up in one's
  complement arithmetic: zero only if [n] is, and otherwise the residue between 1 and 65535. *)
Fixpoint bsum (odd : bool) (l : list Z) : Z :=
  match l with
  | [] => 0
  | b :: l => (if odd then 256 * b else b) + bsum (negb odd) l
  end.

Definition ones (n : Z) : Z := if n =? 0 then 0 else (n - 1) mod 65535 + 1.

Definition oddlen (l : list Z) : bool := Nat.odd (length l).

(** [x] stands for the sum [n]. *)
Definition rep (x n : Z) : Prop := 0 <= x /\ 0 <= n /\ (x = 0 <-> n = 0) /\ x mod 65535 = n mod 65535.

Lemma rep_refl n : 0 <= n -> rep n n.
Proof. by repeat split. Qed.

Lemma rep_add x n y m : rep x n -> rep y m -> rep (x + y) (n + m).
Proof.
  intros (? & ? & ? & Em) (? & ? & ? & Em2). split; [lia|]. split; [lia|]. split; [lia|].
  rewrite Z.add_mod, Em, Em2 by done. by rewrite <- Z.add_mod.
Qed.

Lemma rep_trans x y n : rep x y -> rep y n -> rep x n.
Proof. intros (? & ? & ? & Em) (? & ? & ? & Em2). repeat split; [done|done|lia|lia|congruence]. Qed.

Lemma rep_ones x n : rep x n -> x <= 65535 -> x = ones n.
Proof.
  intros (Hx & Hn & Hz & Em) Hb. unfold ones. destruct (n =? 0) eqn:E; bools; [lia|].
  assert (0 < x) by lia. pose proof (Z.mod_pos_bound (n - 1) 65535 ltac:(lia)).
  assert (((n - 1) mod 65535 + 1) mod 65535 = x mod 65535) as E1. { rewrite Em, Z.add_mod_idemp_l by done. f_equal. lia. }
  destruct (Z.eq_dec x 65535) as [->|Hne].
  - rewrite Z_mod_same_full in E1. destruct (Z.eq_dec ((n - 1) mod 65535 + 1) 65535) as [->|?]; [done|]. rewrite Z.mod_small in E1 by lia. lia.
  - rewrite (Z.mod_small x) in E1 by lia. destruct (Z.eq_dec ((n - 1) mod 65535 + 1) 65535) as [E2|?].
    + rewrite E2, Z_mod_same_full in E1. lia.
    + rewrite Z.mod_small in E1 by lia. done.
Qed.

Lemma ones_rep n : 0 <= n -> rep (ones n) n.
Proof.
  intros Hn. unfold ones. destruct (n =? 0) eqn:E; bools; [by subst|]. pose proof (Z.mod_pos_bound (n - 1) 65535 ltac:(lia)).
  split; [lia|]. split; [lia|]. split; [lia|]. rewrite Z.add_mod_idemp_l by done. f_equal. lia.
Qed.

Lemma fold_value x : 0 <= x < 2 ^ 32 -> FOLD_U32T x = x / 65536 + x mod 65536.
Proof.
  intros Hx. unfold FOLD_U32T. rewrite Z.shiftr_div_pow2 by done. change 0xffff with (Z.ones 16). rewrite Z.land_ones by done.
  change (2 ^ 16) with 65536. apply u32_small. change (2 ^ 32) with 4294967296 in Hx. Z.to_euclidean_division_equations; lia.
Qed.

Lemma fold_rep x n : rep x n -> x < 2 ^ 32 -> rep (FOLD_U32T x) n.
Proof.
  intros (? & ? & ? & Em) Hb. rewrite fold_value by lia. change (2 ^ 32) with 4294967296 in Hb.
  assert (x = 65536 * (x / 65536) + x mod 65536) as Ex by (apply Z.div_mod; done).
  pose proof (Z.mod_pos_bound x 65536 ltac:(lia)). pose proof (Z.div_pos x 65536 ltac:(lia) ltac:(lia)).
  split; [lia|]. split; [lia|]. split; [lia|]. rewrite <- Em. rewrite Ex at 3.
  replace (65536 * (x / 65536) + x mod 65536) with (x / 65536 + x mod 65536 + x / 65536 * 65535) by lia. by rewrite Z_mod_plus_full.
Qed.

Lemma fold_bound x : 0 <= x < 2 ^ 32 -> 0 <= FOLD_U32T x <= 0x1fffe.
Proof. intros Hx. rewrite fold_value by done. change (2 ^ 32) with 4294967296 in Hx. Z.to_euclidean_division_equations; lia. Qed.

Lemma fold_bound2 x : 0 <= x <= 0x1fffe -> 0 <= FOLD_U32T x <= 0xffff.
Proof. intros Hx. rewrite fold_value by lia. Z.to_euclidean_division_equations; lia. Qed.

Lemma fold2_ones x n : rep x n -> x < 2 ^ 32 -> FOLD_U32T (FOLD_U32T x) = ones n.
Proof.
  intros Hr Hb. assert (0 <= x < 2 ^ 32) as Hx by (by destruct Hr). pose proof (fold_bound x Hx) as H1.
  apply rep_ones; [apply fold_rep; [by apply fold_rep|lia]|]. by apply fold_bound2.
Qed.

Lemma swap_value x : 0 <= x <= 0xffff -> SWAP_BYTES_IN_WORD x = 256 * (x mod 256) + x / 256.
Proof.
  intros Hx. unfold SWAP_BYTES_IN_WORD. rewrite land_255.
  assert (Z.shiftr (Z.land x 65280) 8 = x / 256) as ->.
  { apply Z.bits_inj'. intros i Hi. rewrite Z.shiftr_spec, Z.land_spec by done. replace (x / 256) with (Z.shiftr x 8) by (by rewrite Z.shiftr_div_pow2).
    rewrite Z.shiftr_spec by done. change 65280 with (Z.shiftl (Z.ones 8) 8). rewrite Z.shiftl_spec by lia. replace (i + 8 - 8) with i by lia.
    destruct (Z.lt_ge_cases i 8); [rewrite Z.ones_spec_low by lia; by rewrite andb_true_r|]. rewrite Z.ones_spec_high by lia. rewrite andb_false_r.
    rewrite <- Z.shiftr_spec by done. symmetry. apply Z.bits_above_log2; rewrite Z.shiftr_div_pow2 by done; [Z.to_euclidean_division_equations; lia|].
    assert (x / 2 ^ 8 < 256) by (change (2 ^ 8) with 256; Z.to_euclidean_division_equations; lia).
    destruct (Z.eq_dec (x / 2 ^ 8) 0) as [->|?]; [cbn; lia|]. apply Z.log2_lt_pow2; [change (2 ^ 8) with 256 in *; Z.to_euclidean_division_equations; lia|].
    eapply Z.lt_le_trans; [eassumption|]. change 256 with (2 ^ 8). by apply Z.pow_le_mono_r. }
  rewrite shiftl_lor_add; [lia|done|]. change (2 ^ 8) with 256. Z.to_euclidean_division_equations; lia.
Qed.

Lemma swap_rep x n : rep x n -> x <= 0xffff -> rep (SWAP_BYTES_IN_WORD x) (256 * n).
Proof.
  intros (? & ? & ? & Em) Hb. rewrite swap_value by lia. assert (x = 256 * (x / 256) + x mod 256) as Ex by (apply Z.div_mod; done).
  pose proof (Z.mod_pos_bound x 256 ltac:(lia)). pose proof (Z.div_pos x 256 ltac:(lia) ltac:(lia)).
  split; [lia|]. split; [lia|]. split; [lia|]. rewrite Z.mul_mod, <- Em, <- Z.mul_mod by done. rewrite Ex at 3.
  replace (256 * (256 * (x / 256) + x mod 256)) with (256 * (x mod 256) + x / 256 + x / 256 * 65535) by lia. by rewrite Z_mod_plus_full.
Qed.

Lemma swap_bound x : 0 <= x <= 0xffff -> 0 <= SWAP_BYTES_IN_WORD x <= 0xffff.
Proof. intros Hx. rewrite swap_value by done. Z.to_euclidean_division_equations; lia. Qed.

Lemma htons_swap n : lwip_htons n = SWAP_BYTES_IN_WORD n.
Proof. done. Qed.

(** ** Sums of bytes *)

Lemma pair_ind {A} (P : list A -> Prop) : P [] -> (forall a, P [a]) -> (forall a b l, P l -> P (a :: b :: l)) -> forall l, P l.
Proof. intros H0 H1 H2. fix IH 1. intros [|a [|b l]]; [done|apply H1|apply H2, IH]. Qed.

Lemma bsum_app o l k : bsum o (l ++ k) = bsum o l + bsum (xorb o (oddlen l)) k.
Proof.
  revert o. induction l as [|b l IH]; intros o; [by rewrite xorb_false_r|]. cbn [bsum app]. rewrite IH.
  replace (xorb (negb o) (oddlen l)) with (xorb o (oddlen (b :: l))); [lia|].
  unfold oddlen. cbn [length]. rewrite Nat.odd_succ, <- Nat.negb_odd. by destruct o, (Nat.odd (length l)).
Qed.

Lemma bsum_bound o l : Forall is_byte l -> 0 <= bsum o l <= 65535 * ((zlen l + 1) / 2).
Proof.
  revert o. induction l as [|a|a b l IH] using pair_ind; intros o Hl; [done| |].
  - apply Forall_inv in Hl. unfold is_byte in Hl. change ((zlen [a] + 1) / 2) with 1. destruct o; cbn [bsum]; lia.
  - inversion Hl as [|? ? Ha Hl']; subst. inversion Hl' as [|? ? Hb Hl2]; subst. specialize (IH o Hl2). unfold is_byte in *.
    assert (zlen (a :: b :: l) + 1 = zlen l + 1 + 1 * 2) as -> by (unfold zlen; cbn [length]; lia). rewrite Z.div_add by done.
    cbn [bsum]. rewrite negb_involutive. destruct o; cbn [negb]; lia.
Qed.

Lemma bsum_nonneg o l : Forall is_byte l -> 0 <= bsum o l.
Proof. intros H. by apply bsum_bound. Qed.

Lemma bsum_bound_len o l : Forall is_byte l -> zlen l <= 0x20000 -> 0 <= bsum o l < 2 ^ 32.
Proof.
  intros H Hn. pose proof (bsum_bound o l H). change (2 ^ 32) with 4294967296.
  assert ((zlen l + 1) / 2 <= 65536) by (Z.to_euclidean_division_equations; lia). lia.
Qed.

(** Bytes moved by one place. *)
Lemma bsum_shift o l : Forall is_byte l -> rep (256 * bsum o l) (bsum (negb o) l).
Proof.
  intros Hl. revert o. induction Hl as [|b l Hb Hl IH]; intros o; [by apply rep_refl|]. cbn [bsum]. rewrite Z.mul_add_distr_l.
  unfold is_byte in Hb. apply rep_add; [|apply IH]. destruct o; cbn [negb]; [|apply rep_refl; lia].
  split; [lia|]. split; [lia|]. split; [lia|]. replace (256 * (256 * b)) with (b + b * 65535) by lia. apply Z_mod_plus_full.
Qed.

Lemma swap_ones o l : Forall is_byte l -> SWAP_BYTES_IN_WORD (ones (bsum o l)) = ones (bsum (negb o) l).
Proof.
  intros Hl. pose proof (bsum_nonneg o l Hl) as Hn. pose proof (ones_rep _ Hn) as Hr.
  assert (0 <= ones (bsum o l) <= 0xffff) as Hb. { destruct Hr as (? & _). split; [done|]. unfold ones. destruct (_ =? 0); [lia|].
    pose proof (Z.mod_pos_bound (bsum o l - 1) 65535 ltac:(lia)). lia. }
  apply rep_ones; [|by apply swap_bound]. eapply rep_trans; [apply swap_rep; [exact Hr|lia]|]. by apply bsum_shift.
Qed.

Lemma ones_bound n : 0 <= n -> 0 <= ones n <= 0xffff.
Proof. intros Hn. unfold ones. destruct (n =? 0); [lia|]. pose proof (Z.mod_pos_bound (n - 1) 65535 ltac:(lia)). lia. Qed.

Lemma sum16_spec l : forall sum, 0 <= sum -> Forall is_byte l -> sum + bsum false l < 2 ^ 32 ->
  exists sum' t, sum16 sum l = (sum', t) /\ 0 <= sum' /\ sum' + bsum false t = sum + bsum false l /\ Forall is_byte t /\ (length t <= 1)%nat.
Proof.
  induction l as [|a|a b l IH] using pair_ind; intros sum Hs Hl Hb.
  - exists sum, []. repeat split; auto; cbn; lia.
  - exists sum, [a]. repeat split; auto; lia.
  - inversion Hl as [|? ? Ha Hl']; subst. inversion Hl' as [|? ? Hb' Hl2]; subst. unfold is_byte in Ha, Hb'. cbn [bsum negb] in Hb.
    pose proof (bsum_nonneg false l Hl2). cbn [sum16]. assert (dec16 [a; b] = a + 256 * b) as -> by done. rewrite u32_small by lia.
    destruct (IH (sum + (a + 256 * b))) as (sum' & t & -> & ? & E & ?); [lia|done|lia|]. exists sum', t. split; [done|]. split; [done|]. split; [|done]. rewrite E. cbn [bsum negb]. lia.
Qed.

(** The end of both versions for the machine: a dangling byte, and the folds. *)
Lemma sum_end t l sum : 0 <= sum -> Forall is_byte l -> (length l <= 1)%nat -> (exists b, is_byte b /\ t = 256 * b) -> sum + t + bsum false l < 2 ^ 32 ->
  u32 (sum + match l with b :: _ => set_byte_0 t b | [] => t end) = sum + t + bsum false l.
Proof.
  intros Hs Hl Hn (b & Hb & ->) Hlt. unfold is_byte in Hb. destruct l as [|c [|d l]]; [|inversion Hl; subst; unfold is_byte in *|cbn in Hn; lia].
  - cbn in *. rewrite u32_small by lia. lia.
  - cbn [bsum] in *. unfold set_byte_0. assert (256 * b mod 256 = 0) as -> by (rewrite Z.mul_comm; apply Z_mod_mult).
    rewrite u32_small by (change (2 ^ 32) with 4294967296 in *; lia). lia.
Qed.

Lemma chksum_2_ok a l : Forall is_byte l -> zlen l <= 0x20000 -> chksum_2 a l = ones (bsum false l).
Proof.
  intros Hl Hn. unfold chksum_2. set (start := match l with [] => _ | _ => _ end).
  assert (exists b k, start = (256 * b, k) /\ is_byte b /\ Forall is_byte k /\ 256 * b + bsum false k = bsum (Z.odd a) l) as (b & k & -> & Hb & Hk & E).
  { destruct l as [|c l]; [by exists 0, []|]. inversion Hl as [|? ? Hc Hl']; subst. unfold start. destruct (Z.odd a).
    - exists c, l. repeat split; [by destruct Hc|by destruct Hc|done].
    - exists 0, (c :: l). repeat split; auto; lia. }
  pose proof (bsum_bound_len (Z.odd a) l Hl Hn) as Hlt. pose proof (bsum_nonneg false k Hk). unfold is_byte in Hb.
  destruct (sum16_spec k 0) as (sum & t & -> & Hs & Es & Ht & Hlen); [done|done|lia|].
  rewrite sum_end; [|done|done|done|by exists b|lia]. replace (sum + 256 * b + bsum false t) with (bsum (Z.odd a) l) by lia.
  rewrite (fold2_ones _ (bsum (Z.odd a) l)) by (apply rep_refl || idtac; lia). pose proof (ones_bound _ (bsum_nonneg false l Hl)).
  destruct (Z.odd a); [rewrite swap_ones by done|]; cbn [negb]; by apply u16_small; lia.
Qed.

Lemma chksum_1_loop_spec l : forall acc, 0 <= acc -> Forall is_byte l -> acc + bsum true l < 2 ^ 32 ->
  exists acc' t, chksum_1_loop acc l = (acc', t) /\ 0 <= acc' /\ acc' + bsum true t = acc + bsum true l /\ Forall is_byte t /\ (length t <= 1)%nat.
Proof.
  induction l as [|a|a b l IH] using pair_ind; intros acc Hs Hl Hb.
  - exists acc, []. repeat split; auto; cbn; lia.
  - exists acc, [a]. repeat split; auto; lia.
  - inversion Hl as [|? ? Ha Hl']; subst. inversion Hl' as [|? ? Hb' Hl2]; subst. unfold is_byte in Ha, Hb'. cbn [bsum negb] in Hb.
    pose proof (bsum_nonneg true l Hl2). cbn [chksum_1_loop]. rewrite (u16_small (Z.shiftl a 8)) by (rewrite Z.shiftl_mul_pow2 by done; lia).
    rewrite shiftl_lor_add by (done || lia). change (2 ^ 8) with 256. rewrite u32_small by lia.
    destruct (IH (acc + (a * 256 + b))) as (acc' & t & -> & ? & E & ?); [lia|done|lia|]. exists acc', t. split; [done|]. split; [done|]. split; [|done]. rewrite E. cbn [bsum negb]. lia.
Qed.

Lemma fold_cond x : 0 <= x <= 0x1fffe -> (if negb (Z.land x 0xffff0000 =? 0) then FOLD_U32T x else x) = FOLD_U32T x.
Proof.
  intros Hx. destruct (Z.land x 4294901760 =? 0) eqn:E; [|done]. cbn. bools. rewrite fold_value by lia.
  assert (x / 65536 = 0) as Hz; [|rewrite Hz; Z.to_euclidean_division_equations; lia].
  replace (x / 65536) with (Z.shiftr x 16) by (by rewrite Z.shiftr_div_pow2). apply Z.bits_inj'. intros i Hi. rewrite Z.shiftr_spec, Z.bits_0 by done.
  pose proof (f_equal (fun y => Z.testbit y (i + 16)) E) as H. cbn beta in H. rewrite Z.land_spec, Z.bits_0 in H.
  change 4294901760 with (Z.shiftl (Z.ones 16) 16) in H. rewrite Z.shiftl_spec in H by lia. replace (i + 16 - 16) with i in H by lia.
  destruct (Z.lt_ge_cases i 16); [by rewrite Z.ones_spec_low, andb_true_r in H by lia|].
  destruct (Z.eq_dec x 0) as [->|?]; [apply Z.bits_0|]. apply Z.bits_above_log2; [lia|]. apply Z.log2_lt_pow2; [lia|].
  apply Z.lt_le_trans with (2 ^ 17); [cbn; lia|]. apply Z.pow_le_mono_r; lia.
Qed.

Lemma chksum_1_ok l : Forall is_byte l -> zlen l <= 0x20000 -> chksum_1 l = ones (bsum false l).
Proof.
  intros Hl Hn. pose proof (bsum_bound_len true l Hl Hn) as Hlt. unfold chksum_1.
  destruct (chksum_1_loop_spec l 0) as (acc & t & -> & Hacc & E & Ht & Hlen); [done|done|lia|].
  assert (match t with b :: _ => u32 (acc + u16 (Z.shiftl b 8)) | [] => acc end = bsum true l) as ->.
  { destruct t as [|b [|c t]]; [cbn in E; lia| |cbn in Hlen; lia]. inversion Ht as [|? ? Hb ?]; subst. unfold is_byte in Hb. cbn [bsum] in E.
    rewrite (u16_small (Z.shiftl b 8)) by (rewrite Z.shiftl_mul_pow2 by done; lia). rewrite Z.shiftl_mul_pow2 by done. rewrite u32_small; lia. }
  rewrite fold_cond by (apply fold_bound; lia). rewrite (fold2_ones _ (bsum true l)) by (apply rep_refl || idtac; lia).
  pose proof (ones_bound _ (bsum_nonneg true l Hl)). rewrite u16_small by lia. rewrite htons_swap. by apply swap_ones.
Qed.

Lemma add_carry_rep x n w m : rep x n -> x < 2 ^ 32 -> rep w m -> w < 2 ^ 32 -> rep (add_carry x w) (n + m) /\ add_carry x w < 2 ^ 32.
Proof.
  intros Hx Hbx Hw Hbw. pose proof (rep_add _ _ _ _ Hx Hw) as (Hs & Hn & Hz & Em). destruct Hx as (Hx0 & _), Hw as (Hw0 & _).
  unfold add_carry. change (2 ^ 32) with 4294967296 in *. destruct (Z.lt_ge_cases (x + w) 4294967296) as [Hlt|Hge].
  - rewrite u32_small by lia. destruct (x + w <? x) eqn:E; bools; [lia|]. split; [|done]. by repeat split; try lia.
  - assert (u32 (x + w) = x + w - 4294967296) as ->.
    { unfold u32. change (2 ^ 32) with 4294967296. replace (x + w) with (x + w - 4294967296 + 1 * 4294967296) at 1 by lia. rewrite Z_mod_plus_full. apply Z.mod_small. lia. }
    destruct (x + w - 4294967296 <? x) eqn:E; bools; [|lia]. rewrite u32_small by lia. split; [|lia]. split; [lia|]. split; [lia|]. split; [lia|].
    rewrite <- Em. replace (x + w) with (x + w - 4294967296 + 1 + 65537 * 65535) at 2 by lia. by rewrite Z_mod_plus_full.
Qed.

Lemma dec32_rep a b c d : is_byte a -> is_byte b -> is_byte c -> is_byte d -> rep (dec32 [a; b; c; d]) (bsum false [a; b; c; d]) /\ dec32 [a; b; c; d] < 2 ^ 32.
Proof.
  unfold is_byte. intros Ha Hb Hc Hd. unfold dec32. rewrite zget_0, zget_1, zget_2, zget_3. cbn [bsum negb]. change (2 ^ 32) with 4294967296.
  split; [|lia]. split; [lia|]. split; [lia|]. split; [lia|].
  match goal with |- ?x mod _ = ?y mod _ => replace x with (y + (c + 256 * d) * 65535) by lia end. apply Z_mod_plus_full.
Qed.

Lemma oct_ind {A} (P : list A -> Prop) : (forall l, (length l < 8)%nat -> P l) -> (forall a b c d e f g h l, P l -> P (a :: b :: c :: d :: e :: f :: g :: h :: l)) -> forall l, P l.
Proof.
  intros H0 H1. fix IH 1. intros [|a [|b [|c [|d [|e [|f [|g [|h l]]]]]]]]; try (apply H0; cbn; lia). apply H1, IH.
Qed.

Lemma sum64_spec l : forall sum n, rep sum n -> sum < 2 ^ 32 -> Forall is_byte l ->
  exists sum' t m, sum64 sum l = (sum', t) /\ rep sum' m /\ sum' < 2 ^ 32 /\ m + bsum false t = n + bsum false l /\ Forall is_byte t /\ (length t < 8)%nat.
Proof.
  induction l as [l Hlen|a b c d e f g h l IH] using oct_ind; intros sum n Hr Hb Hl.
  - exists sum, l, n. split; [|done]. destruct l as [|? [|? [|? [|? [|? [|? [|? [|? l]]]]]]]]; try done. cbn in Hlen. lia.
  - change (a :: b :: c :: d :: e :: f :: g :: h :: l) with ([a; b; c; d] ++ [e; f; g; h] ++ l) in Hl. apply Forall_app in Hl as [H1 Hl]. apply Forall_app in Hl as [H2 Hl].
    pose proof H1 as H1'. pose proof H2 as H2'. rewrite !list.Forall_cons in H1', H2'. destruct H1' as (?&?&?&?&_), H2' as (?&?&?&?&_).
    destruct (dec32_rep a b c d) as [Hr1 Hb1]; [done..|]. destruct (dec32_rep e f g h) as [Hr2 Hb2]; [done..|].
    destruct (add_carry_rep _ _ _ _ Hr Hb Hr1 Hb1) as [Hr3 Hb3]. destruct (add_carry_rep _ _ _ _ Hr3 Hb3 Hr2 Hb2) as [Hr4 Hb4].
    cbn [sum64]. destruct (IH _ _ Hr4 Hb4 Hl) as (sum' & t & m & -> & ? & ? & E & ?). exists sum', t, m. split; [done|]. split; [done|]. split; [done|]. split; [|done].
    rewrite E. cbn [bsum negb]. lia.
Qed.

Lemma short_bound l : (length l < 8)%nat -> Forall is_byte l -> bsum false l <= 4 * 65535.
Proof. intros Hn Hl. pose proof (bsum_bound false l Hl). assert ((zlen l + 1) / 2 <= 4) by (unfold zlen; Z.to_euclidean_division_equations; lia). lia. Qed.

Lemma chksum_3_ok a l : Forall is_byte l -> chksum_3 a l = ones (bsum false l).
Proof.
  intros Hl. unfold chksum_3. set (start := match l with [] => _ | _ => _ end).
  assert (exists b k ps, start = (256 * b, k, ps) /\ is_byte b /\ Forall is_byte k /\ 256 * b + bsum false k = bsum (Z.odd a) l) as (b & k & ps & -> & Hb & Hk & E).
  { destruct l as [|c l]; [by exists 0, [], a|]. inversion Hl as [|? ? Hc Hl']; subst. unfold start. destruct (Z.odd a).
    - exists c, l, (a + 1). repeat split; [by destruct Hc|by destruct Hc|done].
    - exists 0, (c :: l), a. repeat split; auto; lia. }
  set (head := match k with [] => _ | _ => _ end).
  assert (exists s k', head = (s, k') /\ 0 <= s < 65536 /\ Forall is_byte k' /\ s + bsum false k' = bsum false k) as (s & k' & -> & Hs & Hk' & E').
  { unfold head. destruct k as [|c [|d k']]; [by exists 0, []|exists 0, [c]; by repeat split|]. destruct (negb _); [|by exists 0, (c :: d :: k')].
    inversion Hk as [|? ? Hc Hk1]; subst. inversion Hk1 as [|? ? Hd Hk2]; subst. unfold is_byte in Hc, Hd. exists (dec16 [c; d]), k'.
    assert (dec16 [c; d] = c + 256 * d) as -> by done. repeat split; [lia|lia|done|]. cbn [bsum negb]. lia. }
  destruct (sum64_spec k' s s) as (s2 & k2 & m & -> & Hr2 & Hb2 & E2 & Hk2 & Hn2); [apply rep_refl; lia|lia|done|].
  pose proof (fold_rep _ _ Hr2 Hb2) as Hr3. assert (0 <= s2) as Hs2 by (by destruct Hr2). pose proof (fold_bound s2 ltac:(lia)) as Hb3.
  pose proof (short_bound k2 Hn2 Hk2). pose proof (bsum_nonneg false k2 Hk2). change (2 ^ 32) with 4294967296 in *. unfold is_byte in Hb.
  destruct (sum16_spec k2 (FOLD_U32T s2)) as (s4 & t & -> & Hs4 & E4 & Ht & Hlen); [lia|done|change (2 ^ 32) with 4294967296; lia|].
  pose proof (bsum_nonneg false t Ht). rewrite sum_end; [|done|done|done|by exists b|change (2 ^ 32) with 4294967296; lia].
  rewrite (fold2_ones _ (bsum (Z.odd a) l)); [|replace (bsum (Z.odd a) l) with (256 * b + (m + bsum false k2)) by lia;
    replace (s4 + 256 * b + bsum false t) with (256 * b + (FOLD_U32T s2 + bsum false k2)) by lia|change (2 ^ 32) with 4294967296; lia].
  2:{ apply rep_add; [apply rep_refl; lia|]. apply rep_add; [done|by apply rep_refl]. }
  pose proof (ones_bound _ (bsum_nonneg false l Hl)). destruct (Z.odd a); [rewrite swap_ones by done|]; cbn [negb]; by apply u16_small; lia.
Qed.

(** ** Chains

  The sum of a chain so far: [n] stands for what has been added, with its bytes swapped if
  an odd number of bytes has been. *)
Definition sum_so_far (acc : Z) (swapped : bool) (n : Z) : Prop := 0 <= acc <= 0xffff /\ rep acc (if swapped then 256 * n else n).

Lemma rep_sym x n : rep x n -> rep n x.
Proof. intros (? & ? & ? & ?). repeat split; lia || done. Qed.

Lemma rep_256 n : 0 <= n -> rep (256 * (256 * n)) n.
Proof. intros Hn. split; [lia|]. split; [lia|]. split; [lia|]. replace (256 * (256 * n)) with (n + n * 65535) by lia. apply Z_mod_plus_full. Qed.

Lemma sum_swap acc b n : sum_so_far acc b n -> 0 <= n -> sum_so_far (SWAP_BYTES_IN_WORD acc) (negb b) n.
Proof.
  intros [Hb Hr] Hn. split; [by apply swap_bound|]. pose proof (swap_rep _ _ Hr ltac:(lia)) as Hs. destruct b; cbn [negb]; [|done].
  eapply rep_trans; [exact Hs|by apply rep_256].
Qed.

Lemma sum_end_ones acc b n : sum_so_far acc b n -> 0 <= n -> (if b then SWAP_BYTES_IN_WORD acc else acc) = ones n.
Proof.
  intros Hs Hn. assert (sum_so_far (if b then SWAP_BYTES_IN_WORD acc else acc) false n) as [H1 H2] by (destruct b; [by apply (sum_swap acc true)|done]).
  apply rep_ones; [exact H2|lia].
Qed.

Lemma chksum_step_ok acc b w d len n acc' b' : sum_so_far acc b (n + bsum false w) -> 0 <= n -> Forall is_byte w -> Forall is_byte d -> b = oddlen w ->
  chksum_step acc b (ones (bsum false d)) len = (acc', b') -> sum_so_far acc' b' (n + bsum false (w ++ d)) /\ b' = xorb b (negb (len mod 2 =? 0)).
Proof.
  intros [Hb Hr] Hn Hw Hd -> Hstep. pose proof (bsum_nonneg false w Hw) as Hwn. pose proof (bsum_nonneg false d Hd) as Hdn. pose proof (bsum_nonneg true d Hd) as Hdn2.
  pose proof (ones_bound _ Hdn) as Ho. rewrite bsum_app. cbn [xorb].
  set (N := n + (bsum false w + bsum (oddlen w) d)). assert (0 <= N) as HN by (unfold N; destruct (oddlen w); lia).
  assert (sum_so_far (FOLD_U32T (u32 (acc + ones (bsum false d)))) (oddlen w) N) as Hs.
  { rewrite u32_small by lia. split; [apply fold_bound2; lia|]. apply fold_rep; [|change (2 ^ 32) with 4294967296; lia]. unfold N. destruct (oddlen w).
    - replace (256 * (n + (bsum false w + bsum true d))) with (256 * (n + bsum false w) + 256 * bsum true d) by lia. apply rep_add; [done|].
      eapply rep_trans; [by apply ones_rep|]. by apply rep_sym, (bsum_shift true).
    - rewrite Z.add_assoc. apply rep_add; [done|by apply ones_rep]. }
  unfold chksum_step in Hstep. destruct (len mod 2 =? 0) eqn:E; cbn [negb] in *; injection Hstep as <- <-.
  - split; [exact Hs|]. by rewrite xorb_false_r.
  - split; [by apply sum_swap|]. by rewrite xorb_true_r.
Qed.

Lemma oddlen_app l k : oddlen (l ++ k) = xorb (oddlen l) (oddlen k).
Proof. unfold oddlen. by rewrite length_app, Nat.odd_add. Qed.

Lemma oddlen_zlen l : oddlen l = negb (zlen l mod 2 =? 0).
Proof.
  induction l as [|a|a b l IH] using pair_ind; [done|done|]. change (oddlen (a :: b :: l)) with (oddlen l). rewrite IH.
  assert (zlen (a :: b :: l) = zlen l + 1 * 2) as -> by (unfold zlen; cbn [length]; lia). by rewrite Z_mod_plus_full.
Qed.

(** ** Pseudo headers *)

Definition is_word (a : Z) : Prop := 0 <= a < 2 ^ 32.
Definition addr_words (l : list Z) : list Z := mjoin (enc32 <$> l).

(** The header that is summed and not sent: the addresses in network order, as they are in
    memory, the protocol and the length. *)
Definition pseudo_header (proto proto_len : Z) (src dest : ip_addr) : list Z :=
  (if IP_IS_V6 dest then addr_words (u_addr src) ++ addr_words (u_addr dest) else enc32 (ip_2_ip4 src) ++ enc32 (ip_2_ip4 dest)) ++
  [0; proto; proto_len / 256; proto_len mod 256].

Lemma enc32_sum a : is_word a -> bsum false (enc32 a) = Z.land a 0xffff + Z.land (Z.shiftr a 16) 0xffff /\ 0 <= bsum false (enc32 a) <= 131070.
Proof.
  unfold is_word. intros Ha. change (2 ^ 32) with 4294967296 in Ha. unfold enc32. rewrite !land_255, !Z.shiftr_div_pow2 by done. change 0xffff with (Z.ones 16). rewrite !Z.land_ones by done.
  change (2 ^ 8) with 256. change (2 ^ 16) with 65536. change (2 ^ 24) with 16777216. cbn [bsum negb]. Z.to_euclidean_division_equations; lia.
Qed.

Lemma add_word_ok acc a : is_word a -> 0 <= acc < 2 ^ 31 -> add_word acc a = acc + bsum false (enc32 a).
Proof.
  intros Ha Hacc. destruct (enc32_sum a Ha) as [E Hb]. unfold add_word. rewrite E in *. change (2 ^ 31) with 2147483648 in Hacc.
  assert (0 <= Z.land a 65535 /\ 0 <= Z.land (Z.shiftr a 16) 65535) as [? ?] by (split; apply Z.land_nonneg; lia).
  rewrite (u32_small (acc + _)) by lia. rewrite u32_small; lia.
Qed.

Lemma words_sum a l : bsum false (addr_words (a :: l)) = bsum false (enc32 a) + bsum false (addr_words l).
Proof. change (addr_words (a :: l)) with (enc32 a ++ addr_words l). rewrite bsum_app. done. Qed.

Lemma oddlen_words l : oddlen (addr_words l) = false.
Proof. induction l as [|a l IH]; [done|]. change (addr_words (a :: l)) with (enc32 a ++ addr_words l). rewrite oddlen_app, IH. done. Qed.

Lemma ip6_words_ok src dest acc : Forall is_word src -> Forall is_word dest -> length src = length dest -> 0 <= acc -> acc + 262140 * zlen src < 2 ^ 31 ->
  ip6_words acc src dest = acc + bsum false (addr_words src) + bsum false (addr_words dest) /\ 0 <= bsum false (addr_words src) + bsum false (addr_words dest) <= 262140 * zlen src.
Proof.
  change (2 ^ 31) with 2147483648. intros Hs. revert dest acc. induction Hs as [|a src Ha Hs IH]; intros [|b dest] acc Hd Hl Hacc Hb; try done; [change (addr_words []) with (@nil Z); change (zlen (@nil Z)) with 0; cbn; lia|].
  apply list.Forall_cons in Hd as [Hbw Hd]. cbn [length] in Hl. assert (zlen (a :: src) = zlen src + 1) as Ez by (unfold zlen; cbn [length]; lia). rewrite Ez in *. pose proof (zlen_nonneg src).
  destruct (enc32_sum a Ha) as [_ H1]. destruct (enc32_sum b Hbw) as [_ H2]. cbn [ip6_words]. rewrite !words_sum.
  rewrite (add_word_ok acc a) by (done || change (2 ^ 31) with 2147483648; lia). rewrite (add_word_ok _ b) by (done || change (2 ^ 31) with 2147483648; lia).
  destruct (IH dest (acc + bsum false (enc32 a) + bsum false (enc32 b))) as [-> H3]; [done|lia|lia|lia|lia].
Qed.

Lemma htons_value n : 0 <= n < 65536 -> lwip_htons n = 256 * (n mod 256) + n / 256.
Proof. intros Hn. rewrite htons_swap. apply swap_value. lia. Qed.

Lemma add_proto_ok acc n proto len : rep acc n -> acc <= 0xffff -> 0 <= proto < 256 -> 0 <= len < 65536 -> add_proto acc proto len = ones (n + bsum false [0; proto; len / 256; len mod 256]).
Proof.
  intros Hr Hb Hp Hl. assert (0 <= acc) as Ha by (by destruct Hr). unfold add_proto. rewrite (u16_small proto), !htons_value by lia. rewrite (Z.mod_small proto), (Z.div_small proto) by lia.
  pose proof (Z.mod_pos_bound len 256 ltac:(lia)). assert (0 <= len / 256 < 256) by (Z.to_euclidean_division_equations; lia). rewrite (u32_small (acc + _)) by lia. rewrite u32_small by lia.
  apply fold2_ones; [|change (2 ^ 32) with 4294967296; lia]. cbn [bsum negb].
  replace (acc + (256 * proto + 0) + (256 * (len mod 256) + len / 256)) with (acc + (0 + (256 * proto + (len / 256 + (256 * (len mod 256) + 0))))) by lia. apply rep_add; [done|]. apply rep_refl. lia.
Qed.

(** Both addresses of a kind, as they are stored. *)
Definition addresses_ok (src dest : ip_addr) : Prop := length (u_addr src) = 4%nat /\ length (u_addr dest) = 4%nat /\ Forall is_word (u_addr src) /\ Forall is_word (u_addr dest).

(** What [ip_chksum_pseudo] starts from. *)
Definition address_sum (src dest : ip_addr) : Z := if IP_IS_V6 dest then ip6_sum (ip_2_ip6 src) (ip_2_ip6 dest) else ip4_sum (ip_2_ip4 src) (ip_2_ip4 dest).

Lemma address_sum_ok src dest : addresses_ok src dest -> exists h, (forall proto len, pseudo_header proto len src dest = h ++ [0; proto; len / 256; len mod 256]) /\ oddlen h = false /\ 0 <= bsum false h /\ address_sum src dest = ones (bsum false h).
Proof.
  intros (Hls & Hld & Hs & Hd). unfold address_sum, pseudo_header. eexists. split; [done|]. destruct (IP_IS_V6 dest).
  - unfold ip6_sum, ip_2_ip6. assert (zlen (u_addr src) = 4) as Ez by (unfold zlen; lia). destruct (ip6_words_ok (u_addr src) (u_addr dest) 0) as [E Hb]; [done|done|congruence|lia|rewrite Ez; cbn; lia|].
    rewrite oddlen_app, !oddlen_words, bsum_app, oddlen_words. cbn [xorb]. rewrite Ez in Hb. split; [done|]. split; [lia|]. rewrite E. apply fold2_ones; [rewrite Z.add_0_l; apply rep_refl; lia|change (2 ^ 32) with 4294967296; lia].
  - unfold ip4_sum, ip_2_ip4. destruct (u_addr src) as [|a l1]; [done|]. destruct (u_addr dest) as [|b l2]; [done|]. rewrite !zget_0. apply list.Forall_cons in Hs as [Ha _], Hd as [Hb _].
    destruct (enc32_sum a Ha) as [_ H1]. destruct (enc32_sum b Hb) as [_ H2]. rewrite bsum_app. change (oddlen (enc32 a)) with false. cbn [xorb]. split; [done|]. split; [lia|].
    rewrite (add_word_ok 0 a) by (done || change (2 ^ 31) with 2147483648; lia). rewrite add_word_ok by (done || change (2 ^ 31) with 2147483648; lia). apply fold2_ones; [rewrite Z.add_0_l; apply rep_refl; lia|change (2 ^ 32) with 4294967296; lia].
Qed.

Lemma complement_ones n : 0 <= n -> chksum_complement (ones n) = 65535 - ones n.
Proof.
  intros Hn. pose proof (ones_bound n Hn). unfold chksum_complement. change 0xffff with (Z.ones 16) at 1. rewrite Z.land_ones by done. change (2 ^ 16) with 65536. rewrite Z.mod_small by lia.
  unfold Z.lnot, u16. change (2 ^ 16) with 65536. rewrite <- (Z_mod_plus_full _ 1), Z.mod_small; lia.
Qed.

(** A sum and its complement. *)
Lemma ones_cancel n : 0 <= n -> ones (n + (65535 - ones n)) = 65535.
Proof.
  intros Hn. pose proof (ones_bound n Hn). destruct (ones_rep n Hn) as (_ & _ & Hz & Em). symmetry. apply rep_ones; [|lia]. split; [lia|]. split; [lia|]. split; [lia|].
  rewrite Z_mod_same_full. replace (n + (65535 - ones n)) with (n - ones n + 1 * 65535) by lia. rewrite Z_mod_plus_full, Zminus_mod, Em, Z.sub_diag. done.
Qed.

Lemma pseudo_end h c proto len : oddlen h = false -> 0 <= bsum false h -> Forall is_byte c -> 0 <= proto < 256 -> 0 <= len < 65536 ->
  chksum_complement (add_proto (ones (bsum false h + bsum false c)) proto len) = 65535 - ones (bsum false ((h ++ [0; proto; len / 256; len mod 256]) ++ c)).
Proof.
  intros Hodd Hh Hc Hp Hl. pose proof (bsum_nonneg false c Hc) as Hcn. assert (0 <= bsum false h + bsum false c) as Hn by lia. pose proof (ones_bound _ Hn) as Hob.
  assert (0 <= bsum false [0; proto; len / 256; len mod 256]) as Ht. { cbn [bsum negb]. pose proof (Z.mod_pos_bound len 256 ltac:(lia)). pose proof (Z.div_pos len 256 ltac:(lia) ltac:(lia)). lia. }
  rewrite (add_proto_ok _ (bsum false h + bsum false c)) by (lia || by apply ones_rep). rewrite complement_ones by lia. rewrite <- app_assoc, !bsum_app, Hodd. cbn [xorb].
  change (oddlen [0; proto; len / 256; len mod 256]) with false. do 2 f_equal. lia.
Qed.

Section chains.
Context {env : LwipEnv}.

Lemma standard_chksum_ok s a n d (Q : Z -> lwip -> Prop) : 0 <= n <= 0x20000 -> fetch (bytes s) (seqZ a n) = Some d -> Forall is_byte d -> Q (ones (bsum false d)) s -> wp (lwip_standard_chksum a n) Q s.
Proof.
  intros Hn Hd Hb HQ. unfold lwip_standard_chksum. apply wp_bind, wp_gets. rewrite load_fetch, Hd. apply wp_ret. rewrite chksum_2_ok; [done|done|].
  pose proof (fetch_zlen _ _ _ _ (proj1 Hn) Hd). lia.
Qed.

Lemma chain_sum_ok s p l c acc n (Q : Z -> lwip -> Prop) : packet s p l c -> Forall is_byte c -> 0 <= acc <= 0xffff -> rep acc n -> Q (ones (n + bsum false c)) s -> wp (chain_sum p acc) Q s.
Proof.
  intros Hp Hc Hacc Hr HQ. assert (0 <= n) as Hn by (by destruct Hr as (_ & ? & _)). unfold chain_sum, chain_fuel. apply wp_bind, wp_gets, wp_bind.
  apply (wp_until (fun m x s' => s' = s /\ exists k w c' acc' b, m = length k /\ x = (front k, acc', b) /\ packet s (front k) k c' /\ c = w ++ c' /\ sum_so_far acc' b (n + bsum false w) /\ b = oddlen w) _ _ _ (length l));
    [|eapply linked_fuel; by destruct Hp|].
  - intros m x s' (-> & k & w & c' & acc' & b & -> & -> & Hk & -> & Hs & ->). apply list.Forall_app in Hc as [Hw Hc']. pose proof (bsum_nonneg false w Hw). unfold chksum_body. destruct k as [|[a b] k]; cbn [front] in *.
    + apply wp_ret, wp_ret. destruct Hk as [_ Hf]. cbn in Hf. injection Hf as <-. rewrite app_nil_r in HQ. by rewrite (sum_end_ones _ _ _ Hs) by lia.
    + destruct (packet_tail _ _ _ _ _ _ Hk) as (d & c2 & -> & Hd & Hld & Hk2). destruct Hk as [Hk Hf]. apply linked_tail in Hk as (_ & Ha & Hb & Hlb & _).
      apply list.Forall_app in Hc' as [Hdb Hcb]. destruct (a =? 0) eqn:E; bools; [done|]. apply wp_bind, (wp_ld _ b); [done|]. apply wp_bind. eapply standard_chksum_ok; [|exact Hd|done|]; [lia|].
      destruct (chksum_step _ _ _ _) as [acc2 b2] eqn:Est. destruct (chksum_step_ok _ _ w d _ n _ _ Hs Hn Hw Hdb eq_refl Est) as [Hs2 ->]. apply wp_ret.
      exists (length k). split; [cbn; lia|]. split; [done|]. assert (p_next b = front k) as Hnx by (eapply chain_head; by destruct Hk2 as [[? _] _]). rewrite Hnx in *.
      exists k, (w ++ d), c2, acc2, (oddlen (w ++ d)). rewrite oddlen_app, (oddlen_zlen d), Hld, app_assoc. done.
  - split; [done|]. exists l, [], c, acc, false. assert (p = front l) as <- by (eapply chain_head; by destruct Hp as [[? _] _]). rewrite Z.add_0_r. by split_and!.
Qed.

(** The sum of the first [n] bytes of a chain: where it ends within a pbuf, the last swap does
    not matter. *)
Lemma partial_sum_ok s p l c len acc n (Q : Z * Z * Z * bool -> lwip -> Prop) fuel : packet s p l c -> Forall is_byte c -> 0 <= len < 65536 -> 0 <= acc <= 0xffff -> rep acc n -> (length l < fuel)%nat ->
  (forall q r acc' b, (if b : bool then SWAP_BYTES_IN_WORD acc' else acc') = ones (n + bsum false (slice c 0 len)) -> Q (q, r, acc', b) s) -> wp (until fuel partial_body (p, len, acc, false)) Q s.
Proof.
  intros Hp Hc Hlen Hacc Hr Hfuel HQ. assert (0 <= n) as Hn by (by destruct Hr as (_ & ? & _)).
  apply (wp_until (fun m x s' => s' = s /\ exists k w c' r acc' b, m = length k /\ x = (front k, r, acc', b) /\ packet s (front k) k c' /\ Forall is_byte w /\ Forall is_byte c' /\ slice c 0 len = w ++ slice c' 0 r /\
    0 <= r < 65536 /\ sum_so_far acc' b (n + bsum false w) /\ (r = 0 \/ b = oddlen w)) _ _ _ (length l)); [|done|].
  - clear Hfuel. intros m x s' (-> & k & w & c' & r & acc' & b & -> & -> & Hk & Hw & Hc' & E & Hr' & Hs & Hb). pose proof (bsum_nonneg false w Hw). unfold partial_body.
    assert (slice c' 0 r = [] -> Q (front k, r, acc', b) s) as Hexit. { intros E2. apply HQ. rewrite E, E2, app_nil_r. apply (sum_end_ones _ _ _ Hs). lia. }
    destruct k as [|[a d] k]; cbn [front] in *.
    + cbn [Z.eqb orb]. apply wp_ret, Hexit. destruct Hk as [_ Hf]. cbn in Hf. injection Hf as <-. apply slice_nil.
    + destruct (packet_tail _ _ _ _ _ _ Hk) as (v & c2 & -> & Hv & Hlv & Hk2). destruct Hk as [Hk Hf]. apply linked_tail in Hk as (_ & Ha & Hd & Hld & _).
      apply list.Forall_app in Hc' as [Hvb Hcb]. destruct (a =? 0) eqn:E0; bools; [done|]. cbn [orb]. destruct (r <=? 0) eqn:E1; bools; [apply wp_ret, Hexit; by replace r with 0 by lia|].
      destruct Hb as [?| ->]; [lia|]. apply wp_bind, (wp_ld _ d); [done|]. set (n1 := if r <? p_len d then r else p_len d).
      assert (0 <= n1 /\ n1 <= r /\ n1 <= p_len d /\ (n1 = p_len d \/ n1 = r)) as (Hn0 & Hn1 & Hn2 & Hn3) by (unfold n1; destruct (r <? p_len d) eqn:?; bools; lia). clearbody n1.
      pose proof (fetch_sub (bytes s) (p_payload d) (p_len d) v 0 n1 ltac:(lia) Hn0 ltac:(lia) Hv) as Hsub. rewrite Z.add_0_r in Hsub. assert (Forall is_byte (slice v 0 n1)) as Hvs by (by apply Forall_slice).
      apply wp_bind. eapply standard_chksum_ok; [|exact Hsub|done|]; [lia|].
      destruct (chksum_step _ _ _ _) as [acc2 b2] eqn:Est. destruct (chksum_step_ok _ _ w _ _ n _ _ Hs Hn Hw Hvs eq_refl Est) as [Hs2 ->]. apply wp_ret. rewrite u16_small by lia.
      exists (length k). split; [cbn; lia|]. split; [done|]. assert (p_next d = front k) as Hnx by (eapply chain_head; by destruct Hk2 as [[? _] _]). rewrite Hnx in *.
      exists k, (w ++ slice v 0 n1), c2, (r - n1), acc2, (xorb (oddlen w) (negb (p_len d mod 2 =? 0))). split; [done|]. split; [done|]. split; [done|]. split; [by apply list.Forall_app|]. split; [done|].
      split. { rewrite E, <- app_assoc, (slice_cross v c2 0 r n1) by lia. done. } split; [lia|]. split; [done|]. destruct Hn3 as [-> | ->]; [right|left; lia].
      rewrite oddlen_app, (oddlen_zlen (slice v 0 (p_len d))), slice_zlen by lia. do 4 f_equal. lia.
  - split; [done|]. exists l, [], c, len, acc, false. assert (p = front l) as <- by (eapply chain_head; by destruct Hp as [[? _] _]). split_and!; try done; [lia|lia| |by right]. cbn [bsum]. by rewrite Z.add_0_r.
Qed.

Lemma pseudo_ok s p l c proto len src dest (Q : Z -> lwip -> Prop) : packet s p l c -> Forall is_byte c -> addresses_ok src dest -> 0 <= proto < 256 -> 0 <= len < 65536 ->
  Q (65535 - ones (bsum false (pseudo_header proto len src dest ++ c))) s -> wp (ip_chksum_pseudo p proto len src dest) Q s.
Proof.
  intros Hp Hc Ha Hpr Hl HQ. destruct (address_sum_ok src dest Ha) as (h & Eh & Hodd & Hh & Es). rewrite Eh in HQ. pose proof (bsum_nonneg false c Hc) as Hcn. pose proof (ones_bound _ Hh).
  assert (wp (inet_cksum_pseudo_base p proto len (address_sum src dest)) Q s) as Hbase; [|unfold ip_chksum_pseudo; unfold address_sum in Hbase; by destruct (IP_IS_V6 dest)].
  unfold inet_cksum_pseudo_base. apply wp_bind. rewrite Es. eapply chain_sum_ok; [done|done|lia|by apply ones_rep|]. apply wp_ret.
  by rewrite pseudo_end.
Qed.

Lemma pseudo_partial_ok s p l c proto len n src dest (Q : Z -> lwip -> Prop) : packet s p l c -> Forall is_byte c -> addresses_ok src dest -> 0 <= proto < 256 -> 0 <= len < 65536 -> 0 <= n < 65536 ->
  Q (65535 - ones (bsum false (pseudo_header proto len src dest ++ slice c 0 n))) s -> wp (ip_chksum_pseudo_partial p proto len n src dest) Q s.
Proof.
  intros Hp Hc Ha Hpr Hl Hnl HQ. destruct (address_sum_ok src dest Ha) as (h & Eh & Hodd & Hh & Es). rewrite Eh in HQ. pose proof (bsum_nonneg false _ (Forall_slice _ c 0 n Hc)) as Hcn. pose proof (ones_bound _ Hh).
  assert (wp (inet_cksum_pseudo_partial_base p proto len n (address_sum src dest)) Q s) as Hbase; [|unfold ip_chksum_pseudo_partial; unfold address_sum in Hbase; by destruct (IP_IS_V6 dest)].
  unfold inet_cksum_pseudo_partial_base, chain_fuel. apply wp_bind, wp_gets, wp_bind. rewrite Es. eapply partial_sum_ok; [done|done|done|lia|by apply ones_rep|eapply linked_fuel; by destruct Hp|].
  intros q r acc' b ->. apply wp_ret.
  rewrite pseudo_end; [done|done|done|by apply Forall_slice|done|done].
Qed.

Lemma chksum_pbuf_ok s p l c (Q : Z -> lwip -> Prop) : packet s p l c -> Forall is_byte c -> Q (65535 - ones (bsum false c)) s -> wp (inet_chksum_pbuf p) Q s.
Proof.
  intros Hp Hc HQ. unfold inet_chksum_pbuf. apply wp_bind. eapply chain_sum_ok; [done|done|done|by apply rep_refl|]. apply wp_ret. rewrite Z.add_0_l, complement_ones; [done|by apply bsum_nonneg].
Qed.
End chains.
