(* ===== verification/PbufTheorems.v ===== *)
(** What the packet buffers promise: reference counts that are right and memory that is
    neither lost nor used after it is freed, whatever calls are made; the contents of chains
    as the bytes of a packet; and the Internet checksum of a packet, however it is cut into
    pbufs. *)
From Stdlib Require Import ZArith Lia Bool.
From stdpp Require Import base list numbers option gmap.
From S2P Require Import Prelude CSem Pbuf PbufProof PbufRefs PbufOps LwipChksum.

Open Scope Z_scope.

(** ** The calls of the rest of the system

  The rest of the system holds the references [R].  [permitted R s m f]: in the state [s] it
  may make the call [m], after which it holds [f r] if the call returns [r].  It passes
  pbufs that are alive, gives away references it has, and the offsets and lengths are
  16-bit numbers; there is room for the references in the counts. *)
Section calls.
Context `{heap : LwipHeap}.

Definition room (R : list Z) (s : lwip) : Prop := zlen R + links (pbufs s) < 65470.

Inductive permitted (R : list Z) (s : lwip) : C lwip Z -> (Z -> list Z) -> Prop :=
  | call_alloc layer n type : 0 <= n < 65536 -> room R s -> permitted R s (pbuf_alloc layer n type) (fun r => if r =? 0 then R else r :: R)
  | call_ref p : is_Some (pbufs s !! p) -> room R s -> permitted R s (pbuf_ref p;; mret 0) (fun _ => p :: R)
  | call_free p R' : R ≡ₚ p :: R' -> permitted R s (pbuf_free p) (fun _ => R')
  | call_header p inc force : is_Some (pbufs s !! p) -> permitted R s (pbuf_header_impl p inc force) (fun _ => R)
  | call_realloc p l n : linked s p l -> p <> 0 -> 0 <= n < 65536 -> permitted R s (pbuf_realloc p n;; mret 0) (fun _ => R)
  | call_cat h t lh lt R' : R ≡ₚ t :: R' -> h <> 0 -> chain (pbufs s) h lh -> chain (pbufs s) t lt -> fst <$> lh ## fst <$> lt ->
      permitted R s (pbuf_cat h t;; mret 0) (fun _ => R')
  | call_chain h t lh lt R' : R ≡ₚ t :: R' -> h <> 0 -> chain (pbufs s) h lh -> chain (pbufs s) t lt -> fst <$> lh ## fst <$> lt -> room R s ->
      permitted R s (pbuf_chain h t;; mret 0) (fun _ => R)
  | call_dechain p : is_Some (pbufs s !! p) -> permitted R s (pbuf_dechain p) (fun _ => R)
  | call_clen p : is_Some (pbufs s !! p) -> permitted R s (pbuf_clen p) (fun _ => R)
  | call_take p l c dataptr n v : packet s p l c -> p <> 0 -> dataptr <> 0 -> NoDup (addrs l) -> 0 <= n < 65536 -> n <= zlen c ->
      addrs l ## seqZ dataptr n -> fetch (bytes s) (seqZ dataptr n) = Some v -> permitted R s (pbuf_take p dataptr n) (fun _ => R)
  | call_put_at p l c i v : packet s p l c -> NoDup (addrs l) -> 0 <= i < 65536 -> permitted R s (pbuf_put_at p i v;; mret 0) (fun _ => R)
  | call_coalesce p l c layer R' : R ≡ₚ p :: R' -> packet s p l c -> solid l -> room R s -> permitted R s (pbuf_coalesce p layer) (fun r => r :: R').

(** The states the system can reach from the start. *)
Definition lwip_start : lwip := mkLwip ∅ ∅ ∅ 0 [].
Definition memory_start (m : gmap Z Z) : lwip := set_bytes m lwip_start.

Inductive reachable : list Z -> lwip -> Prop :=
  | reach_start m : (forall x, is_Some (m !! x) -> ~ heap_lo <= x < heap_hi) -> reachable [] (memory_start m)
  | reach_call R s m f r s' : reachable R s -> permitted R s m f -> m s = Done (r, s') -> reachable (f r) s'
  | reach_write R s m : reachable R s -> dom m = dom (bytes s) -> reachable R (set_bytes m s).

Lemma good_perm R R' s : R ≡ₚ R' -> good R s <-> good R' s.
Proof. intros E. unfold good. by rewrite E. Qed.

Lemma clen_ok R s p (Q : Z -> lwip -> Prop) : good R s -> is_Some (pbufs s !! p) -> (forall l, chain (pbufs s) p l -> Q (u8 (zlen l)) s) -> wp (pbuf_clen p) Q s.
Proof.
  intros [Hc _] [b Hb] HQ. destruct (ct_chain _ _ Hc _ _ Hb) as [l Hl]. unfold pbuf_clen, chain_fuel. apply wp_bind, wp_gets, wp_bind.
  apply (wp_until (fun n x s' => s' = s /\ exists l1 l2, l = l1 ++ l2 /\ n = length l2 /\ x = (front l2, u8 (zlen l1))) _ _ _ (length l)); [|apply chain_size in Hl; lia|].
  - intros n x s' (-> & l1 & l2 & -> & -> & ->). unfold clen_body. pose proof (chain_suffix _ _ _ _ Hl) as Hl2. destruct l2 as [|[a c] l2]; cbn [front].
    + cbn. apply wp_ret, wp_ret. rewrite app_nil_r in *. by apply HQ.
    + destruct Hl2 as (_ & Ha & Hac & Hl2). destruct (a =? 0) eqn:E; bools; [done|]. apply wp_bind, (wp_ld _ c); [done|]. apply wp_ret. exists (length l2). split; [cbn; lia|]. split; [done|].
      exists (l1 ++ [(a, c)]), l2. rewrite <- app_assoc. split; [done|]. split; [done|]. rewrite zlen_snoc. apply chain_head in Hl2. rewrite Hl2. f_equal. unfold u8. by rewrite Z.add_mod_idemp_l.
  - split; [done|]. exists [], l. split; [done|]. split; [done|]. f_equal. by eapply chain_head.
Qed.

Lemma permitted_ok R s m f : good R s -> permitted R s m f -> wp m (fun r s' => good (f r) s') s.
Proof.
  intros Hg Hp. destruct Hp; unfold room in *.
  - apply (pbuf_alloc_ok R); [done|done|lia|by intros|]. intros p s' l Hp0 Hg' _ _ _ _ _ _ _. by apply Z.eqb_neq in Hp0 as ->.
  - destruct H as [b Hb]. apply wp_bind. eapply pbuf_ref_ok; [done|done|lia|]. intros s' _ Hg'. by apply wp_ret.
  - apply (good_perm _ _ _ H) in Hg. destruct Hg as [Hc Hm]. destruct (counted_lookup _ _ _ Hc) as (_ & b & Hb). destruct (ct_chain _ _ Hc _ _ Hb) as [l Hl].
    eapply pbuf_free_ok; [done..|]. intros. by split.
  - destruct H as [b Hb]. by eapply pbuf_header_ok.
  - apply wp_bind. destruct (decide (n < total l)) as [Hlt|Hge].
    + eapply pbuf_realloc_ok; [done|done|done|lia|]. intros s' k1 k2 Hg' _ _ _ _ _. by apply wp_ret.
    + unfold pbuf_realloc. destruct l as [|[a b] l]; [by destruct H as (Hch & _)|]. apply linked_tail in H as (-> & _ & Hb & _ & Ht & _). cbn [total] in Hge.
      apply wp_bind, (wp_ld _ b); [done|]. destruct (p_tot_len b <=? n) eqn:E; bools; [by apply wp_ret, wp_ret|lia].
  - apply (good_perm _ _ _ H) in Hg. destruct (counted_lookup _ _ _ (proj1 Hg)) as (_ & b & Hb). apply wp_bind. eapply pbuf_cat_ok; [done..|]. intros s' _ Hg' _ _. by apply wp_ret.
  - pose proof H as HR. apply (good_perm _ _ _ H) in Hg. destruct (counted_lookup _ _ _ (proj1 Hg)) as (_ & b & Hb). apply wp_bind. assert (zlen R = zlen R' + 1) as Ezl by (unfold zlen; rewrite H; cbn; lia).
    eapply pbuf_chain_ok; [done..|lia|]. intros s' Hg'. apply wp_ret. by apply (good_perm _ _ _ HR).
  - destruct H as [b Hb]. eapply pbuf_dechain_ok; [done|done|done|]. by intros.
  - eapply clen_ok; [done..|]. by intros.
  - eapply pbuf_take_ok; [done..|]. apply good_puts; [done|]. apply fetch_take. destruct H. by eexists.
  - apply wp_bind. eapply pbuf_put_at_ok; [done..|]. intros m Hm Hx. apply wp_ret. destruct Hg as [Hc Hmm]. split; [done|]. apply mem_ok_bytes; [done|].
    apply set_eq. intros x. rewrite !elem_of_dom. destruct (decide (x ∈ addrs l)) as [Hin|Hin]; [|by rewrite Hx]. destruct H as [_ Hf], Hm as [_ Hf']. split; intros _; by eapply fetch_in.
  - apply (good_perm _ _ _ H) in Hg. assert (zlen R = zlen R' + 1) as Ezl by (unfold zlen; rewrite H; cbn; lia). eapply pbuf_coalesce_ok; [done..|lia| |]; by intros.
Qed.

Lemma start_good m : (forall x, is_Some (m !! x) -> ~ heap_lo <= x < heap_hi) -> good [] (memory_start m).
Proof.
  intros Hm. split.
  - split; try done.
  - split; try done; cbn.
    + intros a. by split; intros [? ?].
    + intros x Hx Hr. by destruct (Hm x Hx).
Qed.

Lemma reachable_good R s : reachable R s -> good R s.
Proof.
  induction 1 as [m Hm|R s m f r s' _ IH Hp E|R s m _ [Hc Hm] E].
  - by apply start_good.
  - pose proof (permitted_ok _ _ _ _ IH Hp) as Hw. unfold wp in Hw. by rewrite E in Hw.
  - split; [done|]. by apply mem_ok_bytes.
Qed.

(** ** No leaks *)

Lemma tally_pos f m : 0 < tally f m -> exists x b, m !! x = Some b /\ f b = true.
Proof.
  intros H. unfold tally in H. destruct (map_choose (filter (fun '(_, b) => f b = true) m)) as (x & b & Hx); [intros E; rewrite E, map_size_empty in H; lia|].
  apply map_lookup_filter_Some in Hx as [? ?]. by exists x, b.
Qed.

(** Every pbuf without a holder outside is pointed to: the chains that lead to it do not end. *)
Lemma counted_nil m : counted [] m -> m = ∅.
Proof.
  intros H. apply map_eq. intros a. rewrite lookup_empty. destruct (m !! a) as [b|] eqn:E; [|done]. exfalso.
  assert (forall n, exists x l, is_Some (m !! x) /\ chain m x l /\ (n <= length l)%nat) as Hlong.
  { intros n. induction n as [|n (x & l & [c Hc] & Hl & Hn)]; [destruct (ct_chain _ _ H _ _ E) as [l Hl]; exists a, l; split; [by eexists|]; split; [done|lia]|].
    destruct (ct_ref _ _ H _ _ Hc) as (Hx & Er & Hpos). destruct (tally_pos (fun d => p_next d =? x) m) as (y & d & Hy & Hd); [change (0 < refs m x); change (held [] x) with 0 in Er; lia|]. bools.
    destruct (ct_ref _ _ H _ _ Hy) as (Hy0 & _). exists y, ((y, d) :: l). split; [by eexists|]. split; [cbn; by rewrite Hd|cbn; lia]. }
  destruct (Hlong (S (size m))) as (x & l & _ & Hl & Hn). apply chain_size in Hl. lia.
Qed.
End calls.


(** ** The claims *)

(** C6: Whatever sequence of calls the rest of the system makes - allocating, referencing,
    freeing, concatenating, splitting, trimming, moving headers, coalescing and writing, with
    allocations that may fail - every pbuf's count is at each point the number of pointers
    to it, the references the system holds and the [next] fields alone point to pbufs that
    are alive, every live block is one pbuf, and every call that the rules permit returns:
    it does not touch freed memory, and its loops end. *)
Theorem pbuf_calls_safe `{LwipHeap} R s : reachable R s ->
  (forall a b, pbufs s !! a = Some b -> p_ref b = held R a + refs (pbufs s) a /\ 0 < p_ref b /\ (p_next b = 0 \/ is_Some (pbufs s !! p_next b)) /\ is_Some (llive (ltrace s) !! a)) /\
  (forall a, a ∈ R -> is_Some (pbufs s !! a)) /\
  (forall a, is_Some (llive (ltrace s) !! a) -> is_Some (pbufs s !! a)) /\
  (forall m f, permitted R s m f -> exists r s', m s = Done (r, s')).
Proof.
  intros Hr. pose proof (reachable_good _ _ Hr) as [Hc Hm]. split_and!.
  - intros a b Hb. destruct (ct_ref _ _ Hc _ _ Hb) as (_ & E & Hpos). split_and!; [done|done| |].
    + destruct (decide (p_next b = 0)) as [?|Hn]; [by left|right]. destruct (counted_next _ _ _ _ Hc Hb Hn) as [c ?]. by exists c.
    + rewrite <- (mo_blocks _ Hm). apply (mo_pbufs _ Hm). by exists b.
  - intros a Ha. apply list_elem_of_split in Ha as (l1 & l2 & ->). rewrite <- Permutation_middle in Hc. destruct (counted_lookup _ _ _ Hc) as (_ & b & ?). by exists b.
  - intros a. rewrite <- (mo_blocks _ Hm). apply (mo_pbufs _ Hm).
  - intros m f Hp. pose proof (permitted_ok _ _ _ _ (conj Hc Hm) Hp) as Hw. apply wp_run in Hw as (r & s' & E & _). by exists r, s'.
Qed.

(** C7: When the system has given up all its references, no pbuf is left and every block that
    was allocated has been freed. *)
Theorem pbuf_no_leak `{LwipHeap} s : reachable [] s -> pbufs s = ∅ /\ llive (ltrace s) = ∅.
Proof.
  intros Hr. pose proof (reachable_good _ _ Hr) as [Hc Hm]. pose proof (counted_nil _ Hc) as E. split; [done|]. rewrite <- (mo_blocks _ Hm). apply map_eq. intros a. rewrite lookup_empty.
  destruct (blocks s !! a) as [n|] eqn:Ea; [|done]. destruct (proj2 (mo_pbufs _ Hm a)) as [b Hb]; [by eexists|]. by rewrite E in Hb.
Qed.

(** C16: [pbuf_cat] and [pbuf_realloc] on packets: the one appends the contents and takes the
    caller's reference to the tail, the other keeps the first bytes, wherever the cut falls,
    and frees what is behind unless others hold it. *)
Theorem pbuf_cat_realloc `{LwipHeap} R s h t lh lt c1 c2 n : good (t :: R) s -> h <> 0 -> packet s h lh c1 -> packet s t lt c2 -> fst <$> lh ## fst <$> lt ->
  zlen c1 + zlen c2 < 65536 -> homed s lh -> homed s lt -> 0 <= n < zlen c1 + zlen c2 ->
  wp (pbuf_cat h t;; pbuf_realloc h n) (fun _ s' => good R s' /\ exists l, packet s' h l (take (Z.to_nat n) (c1 ++ c2))) s.
Proof.
  intros Hg Hh0 Hh Ht Hd Hlen Hh1 Hh2 Hn. apply wp_bind. eapply cat_packet_ok; [done..|]. intros s1 l Hg1 Hp Hhm.
  eapply realloc_packet_ok; [done|done|by apply Hhm|done|by rewrite zlen_app|]. intros s2 l2 Hg2 Hp2. split; [done|]. by exists l2.
Qed.

(** C15: What [pbuf_take] writes, [pbuf_copy_partial] reads back: at every offset and for every
    length, across the bounds of pbufs, the bytes that were taken, followed by the old
    contents behind them, and the number of bytes there were. *)
Theorem pbuf_take_copy_partial `{LwipEnv} s p l c src n v dst len off : packet s p l c -> p <> 0 -> NoDup (addrs l) -> src <> 0 -> dst <> 0 ->
  0 <= n <= zlen c -> 0 <= len < 65536 -> 0 <= off < 65536 -> load (bytes s) src n = Some v -> addrs l ## seqZ src n -> seqZ dst len ## addrs l -> is_Some (load (bytes s) dst len) ->
  wp (pbuf_take p src n;; pbuf_copy_partial p dst len off)
    (fun r s' => let d := slice (v ++ drop (Z.to_nat n) c) off len in r = zlen d /\ load (bytes s') dst r = Some d /\ packet s' p l (v ++ drop (Z.to_nat n) c)) s.
Proof.
  intros Hp Hp0 Hnd Hs0 Hd0 Hn Hlen Hoff Hv Hd1 Hd2 Hdst. pose proof (packet_len _ _ _ _ Hp) as El. assert (total l < 65536) as Ht by apply Hp. rewrite load_fetch in Hv, Hdst. pose proof (fetch_length _ _ _ Hv) as Elv. rewrite length_seqZ in Elv.
  apply wp_bind. eapply pbuf_take_ok; [done|done|done|done|lia|lia|done|done|]. set (s1 := set_bytes _ s). set (d := v ++ drop (Z.to_nat n) c).
  assert (packet s1 p l d) as Hp1. { unfold d, s1. rewrite Elv. apply packet_written; [done|done|unfold zlen in *; lia|done]. }
  eapply pbuf_copy_partial_ok; [exact Hp1|done|done|done|done| |].
  - apply fetch_is_Some. intros x Hx. destruct Hdst as [u Hu]. unfold s1. rewrite set_bytes_eq, lookup_puts_ne; [by eapply fetch_in|]. intros Hin. apply (Hd2 x Hx). rewrite <- (take_drop (Z.to_nat n) (addrs l)). apply elem_of_app. by left.
  - cbv zeta. split; [done|]. rewrite set_bytes_eq, load_fetch, store_puts. assert (length (seqZ dst (zlen (slice d off len))) = length (slice d off len)) as Els by (rewrite length_seqZ; unfold zlen; lia).
    split; [apply fetch_puts_same; [apply NoDup_seqZ|done]|]. destruct Hp1 as [Hl1 Hf1]. split; [done|]. rewrite set_bytes_eq, fetch_puts_disjoint; [exact Hf1|].
    intros x Hx. apply Hd2. apply elem_of_seqZ in Hx. apply elem_of_seqZ. rewrite slice_zlen in Hx by lia. lia.
Qed.

(** C9: The checksum of a packet with its pseudo header, for both kinds of addresses, is the
    complement of the one's complement sum of the pseudo header followed by the contents:
    it does not depend on how the contents are cut into pbufs, even where they have odd
    lengths.  The sum over the first bytes only ([..._partial]) is that of those bytes. *)
Theorem ip_chksum_pseudo_correct `{LwipEnv} s p l c proto proto_len n src dest : packet s p l c -> Forall is_byte c -> addresses_ok src dest ->
  0 <= proto < 256 -> 0 <= proto_len < 65536 -> 0 <= n < 65536 ->
  wp (ip_chksum_pseudo p proto proto_len src dest) (fun r s' => s' = s /\ r = 65535 - ones (bsum false (pseudo_header proto proto_len src dest ++ c))) s /\
  wp (ip_chksum_pseudo_partial p proto proto_len n src dest) (fun r s' => s' = s /\ r = 65535 - ones (bsum false (pseudo_header proto proto_len src dest ++ slice c 0 n))) s.
Proof. intros Hp Hc Ha Hpr Hl Hn. split; [by eapply pseudo_ok|by eapply pseudo_partial_ok]. Qed.

Lemma pseudo_header_bytes proto len src dest : addresses_ok src dest -> 0 <= proto < 256 -> 0 <= len < 65536 -> Forall is_byte (pseudo_header proto len src dest).
Proof.
  intros (_ & _ & Hs & Hd) Hp Hl. assert (forall a, Forall is_byte (enc32 a)) as He. { intros a. unfold enc32, is_byte. rewrite !land_255. repeat constructor; apply Z.mod_pos_bound; lia. }
  assert (forall l, Forall is_byte (addr_words l)) as Hw. { intros l. induction l as [|a l IH]; [constructor|]. change (addr_words (a :: l)) with (enc32 a ++ addr_words l). by apply list.Forall_app. }
  unfold pseudo_header. apply list.Forall_app. split; [destruct (IP_IS_V6 dest); apply list.Forall_app; split; auto|].
  pose proof (Z.mod_pos_bound len 256 ltac:(lia)). unfold is_byte. repeat constructor; try lia; Z.to_euclidean_division_equations; lia.
Qed.

(** C8: A receiver finds the checksum of a packet right: computed over a packet whose checksum
    field is zero and stored there, it makes the checksum of the packet zero, however the
    receiver's packet is cut into pbufs. *)
Theorem ip_chksum_verifies `{LwipEnv} s p l c1 c2 proto proto_len src dest : packet s p l (c1 ++ [0; 0] ++ c2) -> Forall is_byte (c1 ++ c2) -> oddlen c1 = false -> addresses_ok src dest ->
  0 <= proto < 256 -> 0 <= proto_len < 65536 ->
  wp (ip_chksum_pseudo p proto proto_len src dest) (fun k _ =>
    forall s' p' l', packet s' p' l' (c1 ++ enc16 k ++ c2) -> wp (ip_chksum_pseudo p' proto proto_len src dest) (fun r _ => r = 0) s') s.
Proof.
  intros Hp [H1 H2]%list.Forall_app Hodd Ha Hpr Hl. assert (Forall is_byte (pseudo_header proto proto_len src dest)) as HP by (by apply pseudo_header_bytes).
  assert (oddlen (pseudo_header proto proto_len src dest) = false) as HoP. { destruct (address_sum_ok src dest Ha) as (h & -> & Hh & _). rewrite oddlen_app, Hh. done. }
  eapply pseudo_ok; [exact Hp| |done..|].
  { apply list.Forall_app. split; [done|]. apply list.Forall_app. split; [|done]. by repeat constructor. }
  intros s' p' l' Hp'. set (P := pseudo_header proto proto_len src dest) in *. set (S := bsum false (P ++ c1 ++ [0; 0] ++ c2)) in *. assert (0 <= S) as HS. { apply bsum_nonneg. rewrite !list.Forall_app. split_and!; [done|done|by repeat constructor|done]. }
  pose proof (ones_bound S HS) as Hob. set (k := 65535 - ones S) in *. assert (Forall is_byte (enc16 k)) as Hek. { unfold enc16, is_byte. rewrite !land_255. repeat constructor; apply Z.mod_pos_bound; lia. }
  eapply pseudo_ok; [exact Hp'|by repeat (apply list.Forall_app; split)|done..|]. cbv beta. change (pseudo_header proto proto_len src dest) with P.
  assert (bsum false (P ++ c1 ++ enc16 k ++ c2) = S + k) as ->; [|unfold k; rewrite ones_cancel by done; done].
  unfold S. rewrite !bsum_app, HoP, Hodd. cbn [xorb]. change (oddlen (enc16 k)) with false. change (oddlen [0; 0]) with false. cbn [xorb].
  assert (bsum false (enc16 k) = k) as ->; [|cbn [bsum negb]; lia].
  unfold enc16. rewrite !land_255, Z.shiftr_div_pow2 by done. change (2 ^ 8) with 256. cbn [bsum negb]. Z.to_euclidean_division_equations; lia.
Qed.

(** C17: The three versions of the sum of a buffer that the source offers agree on buffers of
    at most 0x20000 bytes (the limit the source gives for version 2; it gives 64k for version
    1), whatever the address of the buffer and the order in which they take bytes, 16-bit and
    32-bit words: each is the one's complement sum of the 16-bit words.  Version 3, which
    keeps its carries, is so for buffers of any length. *)
Theorem lwip_standard_chksum_versions a b l : Forall is_byte l ->
  chksum_3 b l = ones (bsum false l) /\
  (zlen l <= 0x20000 -> chksum_1 l = ones (bsum false l) /\ chksum_2 a l = ones (bsum false l)).
Proof. intros Hl. split; [by apply chksum_3_ok|]. intros Hn. split; [by apply chksum_1_ok|by apply chksum_2_ok]. Qed.

(** Four bytes beyond the limit, versions 1 and 2 lose a carry. *)
Example chksum_limit : let l := replicate (Z.to_nat 0x20004) 255 in
  chksum_1 l = 0xFEFF /\ chksum_2 0 l = 0xFFFE /\ chksum_3 0 l = 0xFFFF.
Proof. vm_compute. auto. Qed.

(** ** A heap, and a run

  Blocks are handed out one behind the other, up to a limit. *)
Definition block_end (t : Z) (e : lwip_event) : Z := match e with LMalloc n a => if a =? 0 then t else Z.max t (LWIP_MEM_ALIGN (a + n)) | _ => t end.
Definition heap_top (h : list lwip_event) : Z := foldl block_end 1024 h.
Definition demo_malloc (h : list lwip_event) (n : Z) : Z := if (0 <? n) && (heap_top h + n <=? 65536) then heap_top h else 0.
#[local] Instance demo_env : LwipEnv := { env_malloc := demo_malloc; env_fresh := fun _ a => if (a mod 16 =? 6) || (a mod 16 =? 7) then 0 else a mod 256; env_callback := fun _ => 0 }.

Lemma heap_top_snoc h e : heap_top (h ++ [e]) = block_end (heap_top h) e.
Proof. unfold heap_top. by rewrite foldl_app. Qed.

Lemma block_end_spec t e : t mod 4 = 0 -> t <= block_end t e /\ block_end t e mod 4 = 0.
Proof.
  intros Hm. destruct e as [n a| | |]; cbn [block_end]; try (split; [lia|done]). destruct (a =? 0); [split; [lia|done]|].
  destruct (Z.max_spec t (LWIP_MEM_ALIGN (a + n))) as [[H ->]|[H ->]]; (split; [lia|]); [|done]. rewrite align_spec, Z.mul_comm. apply Z_mod_mult.
Qed.

Lemma heap_top_spec h : 1024 <= heap_top h /\ heap_top h mod 4 = 0.
Proof.
  induction h as [|e h IH] using rev_ind; [done|]. rewrite heap_top_snoc. destruct IH as [H1 H2]. destruct (block_end_spec (heap_top h) e H2). split; [lia|done].
Qed.

(** Every block in use ends below the top. *)
Lemma heap_top_live h b k : llive h !! b = Some k -> b + k <= heap_top h.
Proof.
  induction h as [|e h IH] using rev_ind; [done|]. rewrite llive_snoc, heap_top_snoc. pose proof (heap_top_spec h) as [_ H2]. destruct (block_end_spec (heap_top h) e H2) as [H3 _]. intros Hb.
  destruct e as [n a|a| |]; cbn [llive_step block_end] in *; [|apply lookup_delete_Some in Hb as [_ Hb]; by apply IH|by apply IH..].
  destruct (a =? 0) eqn:E; [by apply IH|]. apply lookup_insert_Some in Hb as [[-> ->]|[_ Hb]]; [|specialize (IH Hb); lia].
  rewrite align_spec. pose proof (Z.div_mod (b + k + 3) 4 ltac:(lia)). pose proof (Z.mod_pos_bound (b + k + 3) 4 ltac:(lia)). lia.
Qed.

#[local] Instance demo_heap : LwipHeap.
Proof.
  refine {| heap_lo := 1024; heap_hi := 65536; heap_positive := eq_refl |}. intros h n Hn. cbv zeta. cbn [env_malloc demo_env]. unfold demo_malloc. destruct (_ && _) eqn:E; [|by left]. bools. right.
  pose proof (heap_top_spec h) as [H1 H2]. split; [lia|]. split; [lia|]. split; [done|]. intros b k Hb x [Hx1 Hx2]. pose proof (heap_top_live _ _ _ Hb). lia.
Defined.

(** Two pbufs are allocated and concatenated, and the chain is freed. *)
Definition after {A} (s : lwip) (m : C lwip A) : lwip := match m s with Done (_, s') => s' | _ => s end.
Definition demo_outside : gmap Z Z := list_to_map (zip (seqZ 100 20) (seqZ 1 20)).
Definition demo_0 : lwip := memory_start demo_outside.
Definition demo_1 : lwip := after demo_0 (pbuf_alloc PBUF_RAW 6 PBUF_RAM).
Definition demo_2 : lwip := after demo_1 (pbuf_alloc PBUF_RAW 5 PBUF_RAM).
Definition demo_cat : lwip := after demo_2 (pbuf_cat 1024 1052;; mret 0).
Definition demo_end : lwip := after demo_cat (pbuf_free 1024).

Definition demo_p (next tot : Z) : pbuf := mkPbuf next 1044 tot 6 PBUF_RAM 0 1 (Some 0).
Definition demo_q : pbuf := mkPbuf 0 1072 5 5 PBUF_RAM 0 1 (Some 0).
Definition demo_chain : list (Z * pbuf) := [(1024, demo_p 1052 11); (1052, demo_q)].

Lemma demo_reachable_2 : reachable [1052; 1024] demo_2.
Proof.
  assert (reachable [] demo_0) as H0.
  { apply reach_start. intros x Hx Hr. assert (x ∈ dom demo_outside) as Hd by (by apply elem_of_dom). unfold demo_outside in Hd. rewrite dom_list_to_map_L, elem_of_list_to_set in Hd.
    apply list_elem_of_fmap in Hd as ([y v] & -> & Hin). apply elem_of_zip_l, elem_of_seqZ in Hin. cbn [heap_lo heap_hi demo_heap fst] in *. lia. }
  assert (reachable [1024] demo_1) as H1.
  { apply (reach_call [] demo_0 _ _ 1024 demo_1 H0 (call_alloc [] demo_0 PBUF_RAW 6 PBUF_RAM ltac:(lia) ltac:(vm_compute; reflexivity))). vm_compute. reflexivity. }
  apply (reach_call [1024] demo_1 _ _ 1052 demo_2 H1 (call_alloc [1024] demo_1 PBUF_RAW 5 PBUF_RAM ltac:(lia) ltac:(vm_compute; reflexivity))). vm_compute. reflexivity.
Qed.

Lemma demo_chains_2 : chain (pbufs demo_2) 1024 [(1024, demo_p 0 6)] /\ chain (pbufs demo_2) 1052 [(1052, demo_q)].
Proof. split; cbn [chain]; repeat (split; [done || (vm_compute; reflexivity)|]); done. Qed.

Lemma demo_reachable_cat : reachable [1024] demo_cat.
Proof.
  destruct demo_chains_2 as [Hp Hq]. assert (fst <$> [(1024, demo_p 0 6)] ## fst <$> [(1052, demo_q)]) as Hd by (intros x [->|[]%elem_of_nil]%elem_of_cons; cbn; by rewrite list_elem_of_singleton).
  apply (reach_call [1052; 1024] demo_2 _ _ 0 demo_cat demo_reachable_2 (call_cat [1052; 1024] demo_2 1024 1052 _ _ [1024] ltac:(reflexivity) ltac:(done) Hp Hq Hd)). vm_compute. reflexivity.
Qed.

Lemma demo_packet_cat : packet demo_cat 1024 demo_chain [20; 21; 0; 0; 24; 25; 48; 49; 50; 51; 52].
Proof.
  split; [|vm_compute; reflexivity]. split; [cbn [chain demo_chain]; repeat (split; [done || (vm_compute; reflexivity)|]); done|]. split; [by vm_compute|]. split; [done|]. repeat constructor; cbn; lia.
Qed.

Lemma pbuf_calls_safe_witness : is_Some (pbufs demo_cat !! 1024) /\ exists r s', pbuf_free 1024 demo_cat = Done (r, s').
Proof. destruct (pbuf_calls_safe [1024] demo_cat demo_reachable_cat) as (_ & H1 & _ & H2). split; [apply H1; left|]. apply (H2 _ (fun _ => [])). by apply (call_free _ _ 1024 []). Defined.

Lemma pbuf_no_leak_witness : reachable [] demo_end /\ pbufs demo_end = ∅.
Proof.
  assert (reachable [] demo_end) as Hr by (apply (reach_call [1024] demo_cat _ _ 2 demo_end demo_reachable_cat (call_free [1024] demo_cat 1024 [] ltac:(reflexivity))); vm_compute; reflexivity).
  split; [exact Hr|]. by apply (pbuf_no_leak demo_end Hr).
Defined.

Lemma demo_packets_2 : packet demo_2 1024 [(1024, demo_p 0 6)] [20; 21; 0; 0; 24; 25] /\ packet demo_2 1052 [(1052, demo_q)] [48; 49; 50; 51; 52].
Proof.
  destruct demo_chains_2 as [Hp Hq]. split; (split; [split; [done|]; split; [by vm_compute|]; split; [done|]; repeat constructor; cbn; lia|vm_compute; reflexivity]).
Qed.

Lemma demo_homed_2 : homed demo_2 [(1024, demo_p 0 6)] /\ homed demo_2 [(1052, demo_q)].
Proof.
  split; intros a b x Hin Hx; apply list_elem_of_singleton in Hin as [= -> ->]; right; apply elem_of_seqZ in Hx; cbn [demo_p demo_q p_payload p_len] in Hx; [exists 28|exists 28]; (split; [vm_compute; reflexivity|lia]).
Qed.

Lemma pbuf_cat_realloc_witness : wp (pbuf_cat 1024 1052;; pbuf_realloc 1024 8)
  (fun _ s' => good [1024] s' /\ exists l, packet s' 1024 l (take (Z.to_nat 8) ([20; 21; 0; 0; 24; 25] ++ [48; 49; 50; 51; 52]))) demo_2.
Proof.
  destruct demo_packets_2 as [Hp Hq], demo_homed_2 as [Hh1 Hh2]. pose proof (reachable_good _ _ demo_reachable_2) as Hg.
  assert (fst <$> [(1024, demo_p 0 6)] ## fst <$> [(1052, demo_q)]) as Hd by (intros x [->|[]%elem_of_nil]%elem_of_cons; cbn; by rewrite list_elem_of_singleton).
  apply (pbuf_cat_realloc [1024] demo_2 1024 1052 _ _ _ _ 8 Hg ltac:(done) Hp Hq Hd ltac:(by vm_compute) Hh1 Hh2 ltac:(by vm_compute)).
Defined.

Lemma demo_addrs x : x ∈ addrs demo_chain -> 1044 <= x < 1077.
Proof. cbn [demo_chain addrs]. unfold area. rewrite !elem_of_app, !elem_of_seqZ. cbn [demo_p demo_q p_payload p_len]. intros [H|[H|H%elem_of_nil]]; [lia|lia|done]. Qed.

Lemma pbuf_take_copy_partial_witness :
  wp (pbuf_take 1024 100 9;; pbuf_copy_partial 1024 110 6 4)
    (fun r s' => r = 6 /\ load (bytes s') 110 r = Some [5; 6; 7; 8; 9; 51]) demo_cat.
Proof.
  eapply wp_mono; [apply (pbuf_take_copy_partial demo_cat 1024 demo_chain _ 100 9 [1; 2; 3; 4; 5; 6; 7; 8; 9] 110 6 4 demo_packet_cat)|].
  - done.
  - by apply (bool_decide_unpack _); vm_compute.
  - done.
  - done.
  - by vm_compute.
  - lia.
  - lia.
  - vm_compute. reflexivity.
  - intros x Hx%demo_addrs Hy%elem_of_seqZ. lia.
  - intros x Hy%elem_of_seqZ Hx%demo_addrs. lia.
  - vm_compute. by eexists.
  - intros r s' (-> & H & _). split; [vm_compute; reflexivity|exact H].
Defined.

Definition demo_src : ip_addr := mkIpAddr [0x0104a8c0; 0; 0; 0] IPADDR_TYPE_V4.
Definition demo_dest : ip_addr := mkIpAddr [0x6404a8c0; 0; 0; 0] IPADDR_TYPE_V4.

Lemma demo_addresses : addresses_ok demo_src demo_dest.
Proof. split_and!; [done|done|repeat constructor; by vm_compute..]. Qed.

Lemma ip_chksum_pseudo_correct_witness :
  wp (ip_chksum_pseudo 1024 17 11 demo_src demo_dest) (fun r _ => r = 39603) demo_cat /\
  wp (ip_chksum_pseudo_partial 1024 17 11 7 demo_src demo_dest) (fun r _ => r = 65305) demo_cat.
Proof.
  assert (Forall is_byte [20; 21; 0; 0; 24; 25; 48; 49; 50; 51; 52]) as Hb by (repeat constructor; by vm_compute).
  destruct (ip_chksum_pseudo_correct demo_cat 1024 demo_chain _ 17 11 7 demo_src demo_dest demo_packet_cat Hb demo_addresses ltac:(lia) ltac:(lia) ltac:(lia)) as [H1 H2].
  split; [eapply wp_mono; [exact H1|]|eapply wp_mono; [exact H2|]]; intros r s' [_ ->]; vm_compute; reflexivity.
Defined.

Lemma ip_chksum_verifies_witness :
  wp (ip_chksum_pseudo 1024 17 11 demo_src demo_dest) (fun k _ =>
    forall s' p' l', packet s' p' l' ([20; 21] ++ enc16 k ++ [24; 25; 48; 49; 50; 51; 52]) -> wp (ip_chksum_pseudo p' 17 11 demo_src demo_dest) (fun r _ => r = 0) s') demo_cat.
Proof.
  assert (Forall is_byte ([20; 21] ++ [24; 25; 48; 49; 50; 51; 52])) as Hb by (repeat constructor; by vm_compute).
  apply (ip_chksum_verifies demo_cat 1024 demo_chain [20; 21] [24; 25; 48; 49; 50; 51; 52] 17 11 demo_src demo_dest demo_packet_cat Hb eq_refl demo_addresses ltac:(lia) ltac:(lia)).
Defined.

Lemma lwip_standard_chksum_versions_witness : chksum_1 [69; 0; 0; 60; 28] = 15457 /\ chksum_2 7 [69; 0; 0; 60; 28] = 15457 /\ chksum_3 3 [69; 0; 0; 60; 28] = 15457.
Proof.
  assert (Forall is_byte [69; 0; 0; 60; 28]) as Hb by (repeat constructor; by vm_compute).
  destruct (lwip_standard_chksum_versions 7 3 [69; 0; 0; 60; 28] Hb) as (-> & H). destruct H as [-> ->]; [by vm_compute|]. vm_compute. done.
Defined.
